(* ===== verification/_CoqProject ===== *)
-Q . S2P
Prelude.v
Define.v
CppList.v
CppMap.v
PageAlloc.v
PhysMem.v
Vma.v
UserMem.v
CppString.v
StringMove.v
Printf.v
CmdLine.v
MemInit.v
KTime.v
Sched.v
SchedFair.v
Lock.v
Thread.v
Process.v
Elf.v
Syscall.v
Devices.v
Vfs.v
Console.v
Dt.v
Irq.v
Acpi.v
Abi.v
Ata.v
AtaInit.v
Pci.v
Log.v
DlBase.v
DlSmall.v
DlTree.v
DlBins.v
DlSys.v
DlMalloc.v
DlHeap.v
DlFit.v
DlAlloc.v
DlRequest.v
DlFree.v
DlInit.v
DlClient.v
ObjAlloc.v
SelfTest.v
FdeSort.v
Fde.v
Cfa.v
CfaTable.v
Frame.v
Raise.v
Handler.v
Throw.v
Unwind.v
Boot.v
Startup.v
KernelStart.v
