(* ===== verification/Prelude.v ===== *)
(** * InfOS: a verification development

    InfOS is a teaching kernel for x86-64, written in C++.  This library models
    its core in Rocq by translating the C++ functions into functions of a result
    monad, and proves what makes them correct, together with the places where
    they are not.

    ** The program and the files

    The boot loader's memory map ends up in the memory manager, which chooses a
    page allocation algorithm and builds the kernel's page tables; processes own
    virtual memory areas (page tables) and threads; the scheduler runs threads
    on timer interrupts, which reach it through the descriptor tables and the
    interrupt controllers that the firmware tables name; the loader builds a
    process from an executable; the file systems lead to devices, among them the
    consoles; system calls act on kernel objects through handles; an exception
    walks up the stack by tables of the compiler to its handler, or into the
    program that made the system call; objects of the kernel live in a heap that
    gets its memory from the page allocator; and everything rests on small
    containers and text utilities.

    - [Prelude]: outcomes of C++ code ([result], [fault]), machine integers with
      their wrap-around ([wrap], [swrap], [fits]), loops ([for_range],
      [for_each]), arrays with access checks ([rd], [wr]), and the tactics and
      hints of the development ([inv_result], [ok_step], [unwrap], the database
      [infos]).
    - [Define]: include/infos/define.h and util/math.h: address windows, pages,
      alignment, logarithms.
    - [CppList]: include/infos/util/list.h at the level of nodes and pointers,
      and its refinement to Rocq lists.  Other components use the lists by that
      specification.
    - [CppMap]: include/infos/util/map.h, a red-black tree; a node with its
      parent pointers is a cursor (a subtree and the path above it).
    - [PageAlloc]: mm/page-allocator.cpp against the interface class
      [PageAllocatorAlgorithm] with its laws [AlgorithmLaws];
      mm/simple-page-alloc.cpp as the instance; the physical memory blocks of
      mm/mm.cpp.
    - [PhysMem]: byte-addressed physical memory and the window through which
      the kernel accesses it.
    - [Vma]: mm/vma.cpp, four-level page tables as 64-bit words of that memory.
    - [UserMem]: the memory of a process as a partial function from addresses to
      bytes, and how the operations of [Vma] act on it; how much free memory they
      need.
    - [MemInit]: the choice of the algorithm (mm/mm.cpp), the memory map, the
      kernel's page tables and the page-fault handler (arch/x86/mm.cpp).
    - [CppString]: util/string.cpp and include/infos/util/string.h; [StringMove]:
      moved strings, with a heap of character buffers.
    - [Printf]: util/printf.cpp.
    - [CmdLine]: util/cmdline.cpp.
    - [KTime]: include/infos/util/time.h and the clock of kernel/kernel.cpp.
    - [Sched]: kernel/sched.cpp, sched-cfs.cpp, util/wakequeue.cpp,
      util/event.cpp, the scheduling calls of kernel/thread.cpp and the timer
      interrupt handler, against the interface class [SchedulingAlgorithm] with
      its laws [SchedulingLaws]; the completely fair algorithm is the instance.
    - [SchedFair]: the run times of a fixed set of runnable threads.
    - [Lock]: util/lock.cpp.
    - [Thread]: the context and the construction of a thread.
    - [Process]: kernel/process.cpp, the stopping of threads and the futexes.
    - [Elf]: fs/exec/elf-loader.cpp and the launch of a process
      (kernel/kernel.cpp), against the interface class [File] with its laws
      [FileLaws].
    - [Syscall]: kernel/om.cpp and kernel/syscall.cpp; the file systems and the
      program loader are behind the interface class [Services].
    - [Devices]: drivers/device.cpp and kernel/device-manager.cpp.
    - [Vfs]: fs/vfs.cpp, vfs-node.cpp and the file systems that are mounted at
      start (rootfs.cpp, tmpfs.cpp, devfs.cpp).
    - [Console]: the keyboard, the terminals, the virtual consoles and the VGA
      console (drivers/input, drivers/terminal, drivers/console, drivers/video).
    - [Dt]: arch/x86/dt.cpp, the descriptor tables with their packed fields.
    - [Irq]: arch/x86/irq.cpp and kernel/irq.cpp, the interrupt controllers
      (drivers/irq) and the timer (drivers/timer/lapic-timer.cpp).
    - [Acpi]: arch/x86/acpi/acpi.cpp.
    - [Abi]: kernel/abi.cpp, exception tables, the personality routine and caught
      exceptions.
    - [Ata]: port input and output (the interface class [PortIO]), the registers
      and transfers of drivers/ata, block devices ([BlockDevice] with
      [BlockLaws]: disks and partitions) and the mounting of fs/vfat.cpp.  What
      the driver relies on in the disk is the class [AtaChannel]; a simulated
      disk is an instance.
    - [AtaInit]: the discovery of disks and partitions by the ATA driver.
    - [Pci]: drivers/pci: configuration space (class [PciConfig]), enumeration,
      bridges and storage controllers.
    - [Log]: kernel/log.cpp, the debugging port (drivers/qemu) and the early
      screen (arch/x86/early-screen.cpp), against the interface class [Stream].
    - The heap of mm/dlmalloc.cpp.  [DlBase]: sizes and indices of bins, the words
      of memory, the fields of chunks and of [struct malloc_state].  [DlSmall]: the
      small bins, rings of chunks; [DlTree]: the tries of large chunks; [DlBins]:
      both together as a set of free chunks.  [DlSys]: heads and feet of chunks,
      segments, memory from the system ([sys_alloc], [sys_trim]); [DlMalloc]:
      [dlmalloc] and [dlfree].  [DlHeap]: the heap as segments tiled with chunks
      and its invariant [heap_ok]; [DlFit]: the searches for the best fit;
      [DlAlloc], [DlRequest]: allocation; [DlFree]: release; [DlInit]: the first
      request; [DlClient]: the store of blocks that clients see, and the theorems.
    - [ObjAlloc]: mm/object-allocator.cpp, the operators new and delete of
      util/support.cpp, and how the heap uses the page allocator.
    - [FdeSort], [Fde]: the tables of functions of kernel/unwind-dw2.c with
      include/infos/unwind/unwind-pe.h and unwind-dw2-fde.h: registered sections
      of unwind records, their classification, sorting and search.
    - [Cfa]: the frame programs and location expressions of unwind-dw2.c, and the
      step from a frame to its caller; [CfaTable]: the rows of the unwind table
      that the programs stand for; [Frame]: the caller's registers.
    - [Raise]: the two phases of raising an exception, forced unwinding, and the
      installation of a context (unwind-dw2.c); [Handler]: the walk up the stack
      with the personality routine of [Abi], against the interface class
      [FrameTable] that the search for functions implements.
    - [Throw]: the making of exceptions (kernel/abi.cpp, kernel/thread.cpp) and
      their way into user space.
    - [SelfTest]: kernel/exceptions.cpp, the self-tests of the exceptions, over the
      rules of C++ for scopes and handlers: they pass and leave no object behind.
    - [Unwind]: kernel/prepare_exceptions.cpp, the search for the unwind tables
      in the image of the kernel.
    - [Boot]: how timers and consoles are found and connected at start
      (arch/x86/devices.cpp), the programmable timer and the real-time clock.
    - [Startup]: arch/x86/start.cpp, X86Arch::init and init_irq of x86-arch.cpp,
      boot modules and the trace of a failed assertion.
    - [KernelStart]: Kernel::start and the thread that finishes the start
      (kernel/kernel.cpp).

    ** How the code is modelled

    A pure function of the code is a Rocq function.  Code that can stop (a failed
    assertion, an access outside an array, a NULL or unset pointer, an exception,
    waiting for a lock that the same control flow holds) returns a [result]; a
    theorem that a routine works says that it returns [Ok].  State is passed
    explicitly: one record per class, one record for the parts of the kernel that
    an operation reaches.  Integers are [Z] with the wrap-around of their width
    written where the code can leave it.  Interfaces of the code (page
    allocation and scheduling algorithms, file systems) are type classes; the
    laws a client needs are a second class, proved for the algorithms in the
    repository.  Operations that several threads interleave (the mutex, the
    scheduler's operations) are step relations.  Messages to the log, which [Log]
    models, are left out of the other components, as are the mutexes that only
    guard against other processors or preemption inside an operation, except in
    [Lock] and where a lock can be taken twice by one control flow (wake queues,
    futexes).

    ** What the theorems show

    - Containers and text: list and map refine their specifications for every
      history, keep their invariants and fault exactly where the code asserts;
      strings refine lists of characters; formatted output stays in its buffer;
      the command line is parsed word by word.
    - Memory: for any algorithm with the laws, live allocations are disjoint and
      freeing them succeeds; page types after start-up are those of the memory
      map; a mapping that is inserted is the one that is found and changes no
      other; memory from [allocate_virt] is fresh, zeroed and readable where it
      was written; after start-up the processor translates the kernel and
      physical-memory windows as the conversion functions say.
    - Heap: [dlmalloc] and [dlfree] implement a store of disjoint blocks that keep
      what is written to them: the heap stays tiled with chunks of which no two
      free ones are neighbours, free chunks are exactly those of the bins, a
      request is served whenever a chunk is large enough and by the best fit among
      the large ones, a release joins the neighbours, releasing twice aborts; the
      first request sets the heap up in pages of the page allocator.  Memory that
      is given back to the page allocator is all of it for powers of two only.
    - Scheduling: the run queue is the set of runnable threads after every
      history; what runs is a runnable thread with least run time; shares stay
      fair and nobody starves; a change of state wakes all waiters when the
      wait-for relation is acyclic.  Mutual exclusion of the mutex.
    - Threads, processes, system calls: the initial context of a thread; which
      threads a terminating process stops; futex wake-ups; handles give access
      to the objects of the own process only; dispatch of system calls.
    - Loading: an executable becomes a process whose memory is exactly its
      segments, stack and arguments, with enough free memory for the tables; what
      is not an executable is refused.
    - Files and consoles: every history of file system calls keeps the node graph
      in order; look-ups follow the path; a console's buffer is a screen of lines;
      switching consoles loses nothing; typed text is what the terminal reads.
    - Hardware tables: the selectors of new threads name the right segments; every
      vector has its gate and keeps its owner; a requested line is routed to its
      handler; the I/O controller is found in the firmware tables.
    - Exceptions: the search finds the function that contains an address, sorted
      and linear search agree; frame programs compute the rows of the DWARF table
      and the step to the caller computes its registers; raising an exception ends
      in the innermost frame with a handler for its type, with the registers of
      that frame, at the end of the stack, or in the unwinder of the program; the
      two phases agree on the first handler; caught exceptions are released in
      reverse order.
    - Disks and buses: a disk that answers is identified, registered and split into
      the partitions of its table; a read through a partition returns the blocks
      of the disk; a volume is mounted exactly when its first block is readable
      and signed; a PCI bus is enumerated slot by slot and function by function,
      and probing ends when the bridges form no cycle.
    - Start: the lower mapping is gone and nothing else changes; the tables and
      vectors of the processor serve system calls and faults; with working
      controllers the timer and the consoles are found, wired to their lines and
      reachable; the kernel's first thread is runnable with its arguments; the
      clock file returns the time; a log message is one line of its stream.
    - Defects of the code are theorems about the same definitions, among them:
      memory blocks of 4 GiB, exhausted allocation, splitting with empty parts, the sign of printed numbers, the
      unbounded copy of the command line, joins that wait for each other, threads
      that survive the end of their process, lost futex wake-ups, disk writes that
      store nothing, long disk reads that fail, refused devices that stay
      registered, bridges that lead back to their bus, and boot modules that keep
      the kernel from starting.

    ** Fuel

    Loops that are not structural take fuel and return [Err Hang] without it.
    Each comes with a bound that is enough: the number of nodes for list walks,
    the height for the rebalancing of the map, the length of the text for
    strings and formats, the number of whole seconds for the clock, and for
    chains of wake-ups any number above the rank of the thread in the wait-for
    relation ([Sched.state_change_wakes]).  The loops over firmware tables take
    one turn for each 16 bytes, record or table.  LEB128 numbers end after six
    bytes, since the seventh shift would be undefined.  A status register is polled
    once more than the bound of the hardware class on how long the disk is busy;
    the probing of buses recurses once per nested bus.  In the unwinder the walk
    over the records of a section takes one turn per record and at most one per
    byte of the section; the sorting loops are bounded by the number of
    descriptors, as is the binary search; numbers of the variable-length format
    have at most ten bytes; a frame program has at most as many instructions as
    bytes; a location expression can jump backwards, so its bound is an argument;
    the walks up the stack take one turn per frame.  The walks down a trie of the
    heap take 65 turns, one per bit of a size and one more ([DlTree.trie_height]);
    fence posts fill at most 32 words; the lists of segments have a bound that is
    an argument.

    ** What is not modelled

    Of the heap (mm/dlmalloc.cpp): entry points that the kernel does not call
    (calloc, realloc, aligned and bulk allocation, statistics) and code that is not
    compiled (debugging checks, mspaces); the growth and trimming of a heap are
    modelled, but no theorem covers them except the first set-up.  In the other
    components a [new] of the code is a fresh object.  The encoded file system of
    the boot image (fs/internal-driver.cpp) has no readable source.  Assembly (entry
    points, context switches, the return of the unwinder into a frame) is outside
    the language; what it relies on is stated of the saved registers.  Functions of
    user programs that the kernel calls (the allocator and the unwinder of a
    process) are parameters.  The dumps of registers and the names of threads are
    left out. *)

From Stdlib Require Export ZArith Lia.
From stdpp Require Export base decidable option numbers gmap fin_maps tactics.
From stdpp Require Export list.

#[export] Set Default Goal Selector "!".
Local Open Scope Z_scope.

(** ** Outcomes of C++ code

    A run of a kernel routine either returns or stops in one of the ways the
    code has of stopping. *)

Inductive fault : Set :=
| AssertFailed      (* assert(...) does not hold: arch_abort() *)
| Aborted           (* an explicit arch_abort() *)
| NullDeref         (* a member access through a NULL pointer *)
| OutOfBounds       (* an array access outside the array *)
| UndefinedShift    (* a shift by a negative amount or by the width or more *)
| Uninitialised     (* a value that no statement has written *)
| Thrown (exn : Z)  (* a C++ exception, numbered by the component *)
| Freed             (* a use of memory that was given back *)
| Deadlock          (* waiting for a lock that the same control flow holds *)
| Hang.             (* a loop that the given fuel does not finish *)

#[export] Instance fault_eq_dec : EqDecision fault.
Proof. solve_decision. Defined.

Inductive result (A : Type) : Type :=
| Ok (a : A)
| Err (f : fault).
Arguments Ok {A} _.
Arguments Err {A} _.

#[export] Instance result_eq_dec `{EqDecision A} : EqDecision (result A).
Proof. solve_decision. Defined.

#[export] Instance result_ret : MRet result := @Ok.
#[export] Instance result_bind : MBind result := λ _ _ k m,
  match m with Ok a => k a | Err f => Err f end.
#[export] Instance result_fmap : FMap result := λ _ _ g m,
  match m with Ok a => Ok (g a) | Err f => Err f end.

(** [assert(b)]. *)
Definition check (f : fault) (b : bool) : result unit :=
  if b then Ok tt else Err f.
Abbreviation cassert := (check AssertFailed).

(** A lookup that faults instead of returning [None]. *)
Definition get {A} (f : fault) (o : option A) : result A :=
  match o with Some a => Ok a | None => Err f end.

Lemma bind_Ok_inv {A B} (m : result A) (k : A → result B) b :
  (m ≫= k) = Ok b → ∃ a, m = Ok a ∧ k a = Ok b.
Proof. destruct m; naive_solver. Qed.

Lemma bind_Ok {A B} (a : A) (k : A → result B) : (Ok a ≫= k) = k a.
Proof. done. Qed.

Lemma check_Ok_inv f b u : check f b = Ok u → b = true.
Proof. by destruct b. Qed.

Lemma get_Ok_inv {A} f (o : option A) a : get f o = Ok a → o = Some a.
Proof. by destruct o; inversion 1. Qed.

Lemma fmap_Ok_inv {A B} (g : A → B) (m : result A) b :
  g <$> m = Ok b → ∃ a, m = Ok a ∧ b = g a.
Proof. destruct m; inversion 1; eauto. Qed.

Definition is_Ok {A} (m : result A) : Prop := ∃ a, m = Ok a.

(** Walks through the binds of a hypothesis [_ = Ok _]. *)
Ltac inv_result :=
  repeat match goal with
  | H : (_ ≫= _) = Ok _ |- _ =>
      let a := fresh "a" in let H1 := fresh "Hb" in
      apply bind_Ok_inv in H; destruct H as (a & H1 & H)
  | H : check _ _ = Ok _ |- _ => apply check_Ok_inv in H
  | H : get _ _ = Ok _ |- _ => apply get_Ok_inv in H
  | H : _ <$> _ = Ok _ |- _ =>
      let a := fresh "a" in apply fmap_Ok_inv in H; destruct H as (a & H & ?)
  | H : Ok _ = Ok _ |- _ => injection H as H
  | H : Err _ = Ok _ |- _ => discriminate H
  | H : mret _ = Ok _ |- _ => injection H as H
  end; simplify_eq/=.

(** Runs a lookup or an assertion that is known to succeed. *)
Ltac ok_step := cbn [get check]; rewrite bind_Ok.

(** ** Machine integers

    An unsigned w-bit integer is a [Z] in [0, 2^w); every operation of the code
    that can leave that range is followed by the wrap-around written out. *)

Definition wrap (w x : Z) : Z := x mod 2 ^ w.
Definition swrap (w x : Z) : Z :=
  let y := x mod 2 ^ w in if y <? 2 ^ (w - 1) then y else y - 2 ^ w.

Abbreviation u8 := (wrap 8).
Abbreviation u16 := (wrap 16).
Abbreviation u32 := (wrap 32).
Abbreviation u64 := (wrap 64).
Abbreviation s8 := (swrap 8).
Abbreviation s32 := (swrap 32).
Abbreviation s64 := (swrap 64).

Definition fits (w x : Z) : Prop := 0 ≤ x < 2 ^ w.

Lemma pow2_pos n : 0 ≤ n → 0 < 2 ^ n.
Proof. intros. by apply Z.pow_pos_nonneg. Qed.

Lemma wrap_fits w x : 0 ≤ w → fits w (wrap w x).
Proof. intros. apply Z.mod_pos_bound, pow2_pos; lia. Qed.

Lemma wrap_small w x : fits w x → wrap w x = x.
Proof. apply Z.mod_small. Qed.

Lemma wrap_idemp w x : 0 ≤ w → wrap w (wrap w x) = wrap w x.
Proof. intros. by apply wrap_small, wrap_fits. Qed.

Lemma fits_mono w w' x : 0 ≤ w ≤ w' → fits w x → fits w' x.
Proof. intros Hw [? ?]. split; [done|]. pose proof (Z.pow_le_mono_r 2 w w'). lia. Qed.

Lemma swrap_small w x : 0 < w → - 2 ^ (w - 1) ≤ x < 2 ^ (w - 1) → swrap w x = x.
Proof.
  intros Hw Hx. unfold swrap.
  assert (2 ^ w = 2 * 2 ^ (w - 1)) as E
    by (rewrite <- Z.pow_succ_r by lia; f_equal; lia).
  destruct (decide (0 ≤ x)).
  - rewrite Z.mod_small by lia. case_match; lia.
  - replace (x mod 2 ^ w) with (x + 2 ^ w); [case_match; lia|].
    apply (Z.mod_unique_pos _ _ (-1)); lia.
Qed.

Lemma swrap_wrap w x : 0 ≤ w → wrap w (swrap w x) = wrap w x.
Proof.
  intros. unfold swrap, wrap. cbv zeta. pose proof (pow2_pos w).
  case_match; [by rewrite Z.mod_mod by lia|].
  rewrite Zminus_mod, Z.mod_mod, Z.mod_same, Z.sub_0_r, Z.mod_mod; lia.
Qed.

(** Fields that do not overlap. *)
Lemma lor_high_low k q x b : 0 ≤ k → x = q * 2 ^ k → 0 ≤ b < 2 ^ k → Z.lor x b = x + b.
Proof.
  intros Hk -> Hb. pose proof (Z.mod_mul q (2 ^ k) ltac:(lia)) as Hx. revert Hx. generalize (q * 2 ^ k) as x. intros x Hx.
  assert (Hl : Z.land x b = 0).
  { apply Z.bits_inj'. intros n Hn. rewrite Z.land_spec, Z.bits_0. destruct (Z.ltb_spec n k).
    - rewrite <- (Z.mod_pow2_bits_low x k n), Hx, Z.bits_0 by lia. done.
    - rewrite (proj1 (Z.bounded_iff_bits_nonneg' k b ltac:(lia) ltac:(lia)) Hb n), andb_false_r; [done|lia]. }
  by rewrite <- Z.lxor_lor, <- Z.add_nocarry_lxor by done.
Qed.

(** Ranges of machine integers: side conditions of [wrap_small] and the like. *)
Create HintDb infos.
#[export] Hint Resolve wrap_fits fits_mono : infos.
#[export] Hint Extern 2 (fits _ _) => (unfold fits in *; lia) : infos.
#[export] Hint Extern 2 (0 ≤ _) => lia : infos.
#[export] Hint Extern 2 (_ ≤ _ < _) => lia : infos.

(** Removes the wrap-around of a number in range. *)
Ltac unwrap := rewrite !wrap_small by eauto with infos.

(** ** Loops *)

(** [for (i = i0; n more times; i++) s = body(i, s)]. *)
Fixpoint for_n {S : Type} (n : nat) (i : Z) (body : Z → S → result S) (s : S)
    : result S :=
  match n with
  | O => Ok s
  | Datatypes.S n' => s' ← body i s; for_n n' (i + 1) body s'
  end.

(** [for (i = lo; i < hi; i++)]. *)
Definition for_range {S : Type} (lo hi : Z) (body : Z → S → result S) (s : S)
    : result S := for_n (Z.to_nat (hi - lo)) lo body s.

Lemma for_n_inv {S} (I : Z → S → Prop) n i body (s s' : S) :
  I i s →
  (∀ j t t', i ≤ j < i + Z.of_nat n → I j t → body j t = Ok t' → I (j + 1) t') →
  for_n n i body s = Ok s' → I (i + Z.of_nat n) s'.
Proof.
  revert i s. induction n as [|n IH]; intros i s Hi Hstep Hrun; simpl in Hrun.
  - simplify_eq. by rewrite Z.add_0_r.
  - inv_result. replace (i + Z.of_nat (Datatypes.S n)) with ((i + 1) + Z.of_nat n) by lia.
    apply (IH (i + 1) a); [|intros j t t' Hj|done].
    + apply (Hstep i s); [lia|done..].
    + apply Hstep. lia.
Qed.

Lemma for_n_total {S} (I : Z → S → Prop) n i body (s : S) :
  I i s →
  (∀ j t, i ≤ j < i + Z.of_nat n → I j t → ∃ t', body j t = Ok t' ∧ I (j + 1) t') →
  ∃ s', for_n n i body s = Ok s' ∧ I (i + Z.of_nat n) s'.
Proof.
  revert i s. induction n as [|n IH]; intros i s Hi Hstep; simpl.
  - exists s. by rewrite Z.add_0_r.
  - destruct (Hstep i s) as (t & -> & Ht); [lia|done|]. simpl.
    destruct (IH (i + 1) t) as (s' & Hs' & HI); [done| |].
    + intros j u Hj. apply Hstep. lia.
    + exists s'. split; [done|].
      by replace (i + Z.of_nat (Datatypes.S n)) with ((i + 1) + Z.of_nat n) by lia.
Qed.

Lemma for_range_total {S} (I : Z → S → Prop) lo hi body (s : S) :
  lo ≤ hi → I lo s →
  (∀ j t, lo ≤ j < hi → I j t → ∃ t', body j t = Ok t' ∧ I (j + 1) t') →
  ∃ s', for_range lo hi body s = Ok s' ∧ I hi s'.
Proof.
  intros Hle Hlo Hstep. unfold for_range.
  destruct (for_n_total I (Z.to_nat (hi - lo)) lo body s) as (s' & H1 & H2);
    [done| |].
  - intros j t Hj. apply Hstep. lia.
  - exists s'. split; [done|]. by replace hi with (lo + Z.of_nat (Z.to_nat (hi - lo))) by lia.
Qed.

(** [for (x : xs) s = body(x, s)]. *)
Fixpoint for_each {X S : Type} (xs : list X) (body : X → S → result S) (s : S) : result S :=
  match xs with
  | [] => Ok s
  | x :: xs' => s ← body x s; for_each xs' body s
  end.

Lemma for_each_inv {X S} (I : S → Prop) (xs : list X) body s s' :
  I s → (∀ x t t', x ∈ xs → I t → body x t = Ok t' → I t') →
  for_each xs body s = Ok s' → I s'.
Proof.
  revert s. induction xs as [|x xs IH]; intros s Hs Hstep Hrun; simpl in Hrun; [by simplify_eq|].
  inv_result. apply (IH a); [|intros y t t' Hy|done].
  - apply (Hstep x s); [apply list_elem_of_here|done..].
  - apply Hstep. by apply list_elem_of_further.
Qed.

(** With a post-condition [P x] that later turns keep. *)
Lemma for_each_total {X S} (I : S → Prop) (P : X → S → Prop) (xs : list X) body s :
  I s →
  (∀ x t, x ∈ xs → I t → ∃ t', body x t = Ok t' ∧ I t' ∧ P x t' ∧ ∀ y, P y t → P y t') →
  ∃ s', for_each xs body s = Ok s' ∧ I s' ∧ (∀ x, x ∈ xs → P x s') ∧ ∀ y, P y s → P y s'.
Proof.
  revert s. induction xs as [|x xs IH]; intros s Hs Hstep; simpl.
  - exists s. split_and!; [done..| |done]. intros x Hx. by apply elem_of_nil in Hx.
  - destruct (Hstep x s) as (t & -> & Ht & Px & Hk); [apply list_elem_of_here|done|]. simpl.
    destruct (IH t) as (s' & Hr & HI & HP & Hk'); [done|intros y u Hy; apply Hstep; by apply list_elem_of_further|].
    exists s'. split_and!; [done..| |auto].
    intros y [->|Hy]%elem_of_cons; auto.
Qed.

(** ** Lists *)

Lemma filter_remove_length `{EqDecision A} (x : A) (l : list A) :
  NoDup l → (length l ≤ S (length (filter (λ y, y ≠ x) l)))%nat.
Proof.
  induction 1 as [|y l Hy Hl IH]; simpl; [lia|].
  destruct (decide (y = x)) as [->|Hne].
  - rewrite filter_cons_False by (intros Hn; by apply Hn).
    replace (filter (λ y, y ≠ x) l) with l; [lia|].
    symmetry. clear IH Hl. induction l as [|z l IH]; [done|].
    apply not_elem_of_cons in Hy as [? ?]. rewrite filter_cons_True by done. by rewrite IH.
  - rewrite filter_cons_True by done. simpl. lia.
Qed.

(** ** Arrays indexed by [Z], with the access checks written out *)

Section arrays.
Context {A : Type}.
Implicit Types (l : list A) (i : Z).

Definition inb l i : bool := (0 <=? i) && (i <? Z.of_nat (length l)).

Definition rd l i : result A :=
  if inb l i then get OutOfBounds (l !! Z.to_nat i) else Err OutOfBounds.

Definition wr l i (x : A) : result (list A) :=
  if inb l i then Ok (<[Z.to_nat i := x]> l) else Err OutOfBounds.

Lemma inb_spec l i : inb l i = true ↔ 0 ≤ i < Z.of_nat (length l).
Proof. unfold inb. rewrite andb_true_iff, Z.leb_le, Z.ltb_lt. done. Qed.

Lemma rd_Ok_inv l i x : rd l i = Ok x → 0 ≤ i < Z.of_nat (length l) ∧ l !! Z.to_nat i = Some x.
Proof.
  unfold rd. destruct (inb l i) eqn:E; [|done]. intros. inv_result.
  by apply inb_spec in E.
Qed.

Lemma rd_Ok l i x : 0 ≤ i → l !! Z.to_nat i = Some x → rd l i = Ok x.
Proof.
  intros Hi Hl. unfold rd. pose proof (lookup_lt_Some _ _ _ Hl).
  destruct (inb l i) eqn:E; [by rewrite Hl|].
  assert (inb l i = true) by (apply inb_spec; lia). congruence.
Qed.

Lemma rd_total l i : 0 ≤ i < Z.of_nat (length l) → ∃ x, rd l i = Ok x ∧ l !! Z.to_nat i = Some x.
Proof.
  intros Hi. destruct (lookup_lt_is_Some_2 l (Z.to_nat i)) as [x Hx]; [lia|].
  exists x. split; [apply rd_Ok; [lia|done]|done].
Qed.

Lemma rd_oob l i : ¬ (0 ≤ i < Z.of_nat (length l)) → rd l i = Err OutOfBounds.
Proof.
  intros Hi. unfold rd. destruct (inb l i) eqn:E; [|done].
  by apply inb_spec in E.
Qed.

Lemma wr_total l i x : 0 ≤ i < Z.of_nat (length l) → wr l i x = Ok (<[Z.to_nat i := x]> l).
Proof.
  intros Hi. unfold wr. by rewrite (proj2 (inb_spec l i) Hi).
Qed.

Lemma wr_oob l i x : ¬ (0 ≤ i < Z.of_nat (length l)) → wr l i x = Err OutOfBounds.
Proof.
  intros Hi. unfold wr. destruct (inb l i) eqn:E; [|done]. by apply inb_spec in E.
Qed.

Lemma wr_Ok_inv l i x l' :
  wr l i x = Ok l' → 0 ≤ i < Z.of_nat (length l) ∧ l' = <[Z.to_nat i := x]> l.
Proof.
  unfold wr. destruct (inb l i) eqn:E; [|done]. intros. inv_result.
  by apply inb_spec in E.
Qed.

(** What is read after a write. *)
Lemma rd_wr l i x l' j : wr l i x = Ok l' → rd l' j = if decide (j = i) then Ok x else rd l j.
Proof.
  intros [Hi ->]%wr_Ok_inv. unfold rd, inb. rewrite length_insert. case_decide as Hj.
  - subst j. rewrite (proj2 (Z.leb_le 0 i)), (proj2 (Z.ltb_lt i _)) by lia. simpl. by rewrite list_lookup_insert_eq by lia.
  - destruct ((0 <=? j) && (j <? Z.of_nat (length l))) eqn:E; [|done].
    apply andb_true_iff in E as [Hj0%Z.leb_le _]. by rewrite list_lookup_insert_ne by lia.
Qed.

Lemma wr_length l i x l' : wr l i x = Ok l' → length l' = length l.
Proof. intros [_ ->]%wr_Ok_inv. apply length_insert. Qed.

Lemma wr_is_Ok l i x : 0 ≤ i < Z.of_nat (length l) → ∃ l', wr l i x = Ok l'.
Proof. intros Hi. eexists. by apply wr_total. Qed.

Lemma rd_lookup l i : 0 ≤ i → rd l i = get OutOfBounds (l !! Z.to_nat i).
Proof.
  intros Hi. unfold rd. destruct (inb l i) eqn:E; [done|].
  assert (¬ (0 ≤ i < Z.of_nat (length l))) by (rewrite <- inb_spec; congruence).
  by rewrite lookup_ge_None_2 by lia.
Qed.
End arrays.
