(* ===== verification/Define.v ===== *)
(** * Addresses, alignment and integer logarithms

    The inline functions and macros of include/infos/define.h (address windows,
    page arithmetic, [__align_up], [__log2ceil], [__min], [__max]) and of
    include/infos/util/math.h. *)

From S2P Require Import Prelude.
Local Open Scope Z_scope.

(** ** The two windows onto physical memory *)

Definition KERNEL_VMEM_START : Z := 0xFFFFFFFF80000000.
Definition KERNEL_VMEM_END : Z := 0xFFFFFFFFFFFFFFFF.
Definition KERNEL_VMEM_SIZE : Z := u64 (KERNEL_VMEM_END - KERNEL_VMEM_START + 1).

Definition PMEM_VA_START : Z := 0xFFFF800000000000.
Definition PMEM_VA_END : Z := 0xFFFF800100000000.
Definition PMEM_VA_SIZE : Z := u64 (PMEM_VA_END - PMEM_VA_START).

Definition page_bits : Z := 12.
Definition page_size : Z := Z.shiftl 1 page_bits.
Definition page_offset (addr : Z) : Z := Z.land addr (page_size - 1).
Definition page_base (addr : Z) : Z := Z.land addr (u64 (Z.lnot (page_size - 1))).
Definition page_index (addr : Z) : Z := Z.shiftr addr page_bits.

Definition pa_to_kva (pa : Z) : result Z :=
  _ ← cassert (pa <? KERNEL_VMEM_SIZE);
  Ok (u64 (KERNEL_VMEM_START + pa)).

Definition kva_to_pa (va : Z) : result Z :=
  _ ← cassert ((KERNEL_VMEM_START <=? va) && (va <=? KERNEL_VMEM_END));
  Ok (u64 (va - KERNEL_VMEM_START)).

Definition pa_to_vpa (pa : Z) : result Z :=
  _ ← cassert (pa <? PMEM_VA_SIZE);
  Ok (u64 (PMEM_VA_START + pa)).

Definition vpa_to_pa (va : Z) : result Z :=
  _ ← cassert ((PMEM_VA_START <=? va) && (va <? PMEM_VA_END));
  Ok (u64 (va - PMEM_VA_START)).

Definition pa_to_pfn (pa : Z) : Z := Z.shiftr pa page_bits.
Definition pfn_to_pa (pfn : Z) : Z := u64 (Z.shiftl pfn page_bits).

(** ** Alignment and logarithms *)

Definition align_up (value alignment : Z) : Z :=
  u64 (value + (if value mod alignment =? 0 then 0 else alignment - value mod alignment)).
Definition align_up_page (value : Z) : Z := align_up value page_size.

(** [__builtin_clzll], for a nonzero 64-bit argument. *)
Definition clzll (x : Z) : Z := 63 - Z.log2 x.

Definition log2ceil (x : Z) : Z :=
  if x =? 0 then 0
  else
    let index := clzll x in
    (63 - index) + (if negb (Z.land x (u64 (x - 1)) =? 0) then 1 else 0).

(** The [bsr] instruction, for a nonzero 32-bit argument. *)
Definition bsr (v : Z) : Z := Z.log2 v.

Definition ilog2_floor (v : Z) : Z := bsr v.

Definition ilog2_ceil (v : Z) : Z :=
  u32 (bsr v + (if negb (Z.land v (u32 (v - 1)) =? 0) then 1 else 0)).

Definition umin (x y : Z) : Z := if x <? y then x else y.
Definition umax (x y : Z) : Z := if x <? y then y else x.

(** ** Lemmas *)

Lemma page_size_eq : page_size = 4096.
Proof. reflexivity. Qed.

Lemma page_offset_mod a : page_offset a = a mod 4096.
Proof.
  unfold page_offset. change (page_size - 1) with (Z.ones 12).
  by rewrite Z.land_ones.
Qed.

Lemma page_base_eq a : fits 64 a → page_base a = a - a mod 4096.
Proof.
  intros [? Ha]. unfold page_base.
  change (u64 (Z.lnot (page_size - 1))) with (Z.shiftl (Z.ones 52) 12).
  assert (Z.land a (Z.shiftl (Z.ones 52) 12) = Z.shiftl (Z.shiftr a 12) 12) as ->.
  { apply Z.bits_inj'. intros n Hn.
    rewrite Z.land_spec, !Z.shiftl_spec by lia.
    destruct (decide (n < 12)).
    - rewrite !(Z.testbit_neg_r _ (n - 12)) by lia. apply andb_false_r.
    - rewrite Z.shiftr_spec by lia. replace (n - 12 + 12) with n by lia.
      destruct (decide (n < 64)).
      + rewrite Z.ones_spec_low by lia. apply andb_true_r.
      + rewrite (Z.bits_above_log2 a n); [done|lia|].
        destruct (decide (a = 0)) as [->|]; [simpl; lia|].
        apply Z.lt_le_trans with 64; [|lia].
        apply Z.log2_lt_pow2; [lia|done]. }
  rewrite Z.shiftl_mul_pow2, Z.shiftr_div_pow2 by lia.
  change (2 ^ 12) with 4096. pose proof (Z.div_mod a 4096). lia.
Qed.

Lemma pa_to_pfn_div pa : pa_to_pfn pa = pa / 4096.
Proof. unfold pa_to_pfn. by rewrite Z.shiftr_div_pow2. Qed.

Lemma pfn_to_pa_mul pfn : 0 ≤ pfn < 2 ^ 52 → pfn_to_pa pfn = pfn * 4096.
Proof.
  intros. unfold pfn_to_pa. rewrite Z.shiftl_mul_pow2 by done.
  change (2 ^ page_bits) with 4096. apply wrap_small. unfold fits. lia.
Qed.

Lemma pa_to_vpa_Ok pa : 0 ≤ pa < 2 ^ 32 → pa_to_vpa pa = Ok (PMEM_VA_START + pa).
Proof.
  intros. unfold pa_to_vpa. change PMEM_VA_SIZE with (2 ^ 32).
  rewrite (proj2 (Z.ltb_lt _ _)) by lia. simpl.
  rewrite wrap_small; [done|]. unfold fits, PMEM_VA_START. lia.
Qed.

Lemma pa_to_vpa_Ok_inv pa va :
  0 ≤ pa → pa_to_vpa pa = Ok va → pa < 2 ^ 32 ∧ va = PMEM_VA_START + pa.
Proof.
  intros Hpa H. assert (pa < 2 ^ 32).
  { unfold pa_to_vpa in H. inv_result. by apply Z.ltb_lt in Hb. }
  rewrite pa_to_vpa_Ok in H by lia. by simplify_eq.
Qed.

Lemma vpa_to_pa_Ok va :
  PMEM_VA_START ≤ va < PMEM_VA_END → vpa_to_pa va = Ok (va - PMEM_VA_START).
Proof.
  intros. unfold vpa_to_pa.
  rewrite (proj2 (andb_true_iff _ _)) by (rewrite Z.leb_le, Z.ltb_lt; lia). simpl.
  rewrite wrap_small; [done|]. unfold fits, PMEM_VA_START, PMEM_VA_END in *. lia.
Qed.

Lemma land_pred_pow2 k : 0 ≤ k → Z.land (2 ^ k) (2 ^ k - 1) = 0.
Proof.
  intros. replace (2 ^ k - 1) with (Z.ones k) by (rewrite Z.ones_equiv; lia).
  rewrite Z.land_ones by done. apply Z.mod_same. pose proof (pow2_pos k). lia.
Qed.

Lemma land_pred_not_pow2 x :
  2 ^ Z.log2 x < x → Z.testbit (Z.land x (x - 1)) (Z.log2 x) = true.
Proof.
  intros Hx. assert (0 < x).
  { destruct (decide (0 < x)); [done|]. rewrite Z.log2_nonpos in Hx by lia. simpl in Hx. lia. }
  rewrite Z.land_spec, Z.bit_log2 by done. simpl.
  replace (Z.log2 x) with (Z.log2 (x - 1)); [apply Z.bit_log2|].
  - pose proof (Z.log2_nonneg x). pose proof (pow2_pos (Z.log2 x)). lia.
  - apply Z.log2_unique; [apply Z.log2_nonneg|].
    pose proof (Z.log2_spec x). lia.
Qed.

Lemma land_pred_zero x : 0 < x → Z.land x (x - 1) = 0 ↔ x = 2 ^ Z.log2 x.
Proof.
  intros Hx. pose proof (Z.log2_spec x Hx) as [Hle _]. split.
  - intros H0. destruct (decide (2 ^ Z.log2 x < x)) as [Hlt|]; [|lia].
    apply land_pred_not_pow2 in Hlt. rewrite H0, Z.bits_0 in Hlt. done.
  - intros E. rewrite E. apply land_pred_pow2, Z.log2_nonneg.
Qed.

Lemma log2ceil_pow2 k : 0 ≤ k < 64 → log2ceil (2 ^ k) = k.
Proof.
  intros. unfold log2ceil, clzll. pose proof (pow2_pos k ltac:(lia)).
  rewrite (proj2 (Z.eqb_neq _ _)) by lia.
  rewrite wrap_small.
  - rewrite land_pred_pow2, Z.log2_pow2 by lia. simpl. lia.
  - split; [lia|]. apply Z.lt_trans with (2 ^ k); [lia|].
    apply Z.pow_lt_mono_r; lia.
Qed.

Lemma log2ceil_spec x :
  0 < x < 2 ^ 64 → x ≤ 2 ^ log2ceil x ∧ ∀ j, 0 ≤ j → x ≤ 2 ^ j → log2ceil x ≤ j.
Proof.
  intros [Hx Hx64]. pose proof (Z.log2_spec x Hx) as [Hlo Hhi].
  unfold log2ceil, clzll. rewrite (proj2 (Z.eqb_neq x 0)) by lia. cbv zeta.
  rewrite wrap_small by (unfold fits; lia).
  replace (63 - (63 - Z.log2 x)) with (Z.log2 x) by lia.
  destruct (Z.land x (x - 1) =? 0) eqn:E; simpl negb; cbv iota.
  - apply Z.eqb_eq, land_pred_zero in E; [|done]. rewrite Z.add_0_r.
    split; [lia|]. intros j Hj Hxj. rewrite E in Hxj.
    by apply Z.pow_le_mono_r_iff in Hxj.
  - apply Z.eqb_neq in E. rewrite land_pred_zero in E by done.
    split; [unfold Z.succ in Hhi; lia|]. intros j Hj Hxj.
    apply Z.lt_pred_le. replace (Z.pred (Z.log2 x + 1)) with (Z.log2 x) by lia.
    apply (Z.pow_lt_mono_r_iff 2); lia.
Qed.

(** ** Properties *)

(** [__log2ceil] is the ceiling of the binary logarithm: for every
    nonzero 64-bit argument its result [k] is the least exponent with
    [x <= 2^k]. *)
Theorem log2ceil_correct x :
  0 < x < 2 ^ 64 → x ≤ 2 ^ log2ceil x ∧ ∀ j, 0 ≤ j → x ≤ 2 ^ j → log2ceil x ≤ j.
Proof. apply log2ceil_spec. Qed.

Lemma log2ceil_correct_witness :
  0 < 5 < 2 ^ 64 ∧ 5 ≤ 2 ^ log2ceil 5 ∧ log2ceil 5 ≤ 3.
Proof.
  assert (0 < 5 < 2 ^ 64) as H by lia.
  destruct (log2ceil_correct 5 H) as [H1 H2].
  split; [exact H|]. split; [exact H1|]. apply H2; [lia|]. vm_compute. discriminate.
Defined.

(** Converting between physical addresses and the two kernel windows is
    lossless: on addresses inside the 2 GiB kernel window and the 4 GiB
    physical-memory window the conversions invert each other, and outside
    them the code asserts. *)
Theorem address_windows_roundtrip pa :
  0 ≤ pa →
  (pa < 2 ^ 31 → pa_to_kva pa ≫= kva_to_pa = Ok pa) ∧
  (2 ^ 31 ≤ pa → pa_to_kva pa = Err AssertFailed) ∧
  (pa < 2 ^ 32 → pa_to_vpa pa ≫= vpa_to_pa = Ok pa) ∧
  (2 ^ 32 ≤ pa → pa_to_vpa pa = Err AssertFailed) ∧
  (pa < 2 ^ 64 → page_base pa + page_offset pa = pa ∧
                 pfn_to_pa (pa_to_pfn pa) = page_base pa).
Proof.
  intros Hpa. split_and!; intros Hr.
  - unfold pa_to_kva. change KERNEL_VMEM_SIZE with (2 ^ 31).
    rewrite (proj2 (Z.ltb_lt _ _)) by lia. simpl.
    rewrite (wrap_small 64 (KERNEL_VMEM_START + pa)) by (unfold fits, KERNEL_VMEM_START; lia).
    unfold kva_to_pa. rewrite (proj2 (andb_true_iff _ _))
      by (rewrite !Z.leb_le; unfold KERNEL_VMEM_START, KERNEL_VMEM_END; lia). simpl.
    rewrite wrap_small; [f_equal; lia|unfold fits; lia].
  - unfold pa_to_kva. change KERNEL_VMEM_SIZE with (2 ^ 31).
    by rewrite (proj2 (Z.ltb_ge _ _)).
  - rewrite pa_to_vpa_Ok by lia. simpl. rewrite vpa_to_pa_Ok; [f_equal; lia|].
    unfold PMEM_VA_START, PMEM_VA_END. lia.
  - unfold pa_to_vpa. change PMEM_VA_SIZE with (2 ^ 32).
    by rewrite (proj2 (Z.ltb_ge _ _)).
  - rewrite page_base_eq by (by unfold fits). rewrite page_offset_mod, pa_to_pfn_div.
    split; [lia|]. rewrite pfn_to_pa_mul.
    + pose proof (Z.div_mod pa 4096). lia.
    + split; [apply Z.div_pos; lia|]. apply Z.div_lt_upper_bound; lia.
Qed.

Lemma address_windows_roundtrip_witness :
  pa_to_kva 0x1234 ≫= kva_to_pa = Ok 0x1234 ∧
  pa_to_vpa 0x12345678 ≫= vpa_to_pa = Ok 0x12345678.
Proof.
  split.
  - apply (address_windows_roundtrip 0x1234); lia.
  - apply (address_windows_roundtrip 0x12345678); lia.
Defined.
