(* ===== verification/CppList.v ===== *)
(** * The linked list of include/infos/util/list.h

    [List<T>] is modelled at the level of its pointers: a heap of nodes, a head
    pointer, and the [Node **slot] loops as walks over slots.  The abstract list
    it implements is a Rocq list, and [list_refines] is the simulation between
    the two, on which the other components build. *)

From S2P Require Import Prelude.
Local Open Scope Z_scope.

Abbreviation loc := positive.

Section cpp_list.
Context {T : Type} `{EqDecision T}.

(** ** Data *)

Record ListNode := MkNode { Next : option loc; Data : T }.

Record List := MkList { elems : option loc; count : Z }.

Abbreviation heap := (gmap loc ListNode).

(** [Node **slot]: the head field of the list or the [Next] field of a node. *)
Inductive slot := SHead | SNext (l : loc).

Definition read_slot (h : heap) (L : List) (s : slot) : result (option loc) :=
  match s with
  | SHead => Ok (elems L)
  | SNext l => n ← get NullDeref (h !! l); Ok (Next n)
  end.

Definition write_slot (h : heap) (L : List) (s : slot) (p : option loc)
    : result (heap * List) :=
  match s with
  | SHead => Ok (h, MkList p (count L))
  | SNext l => n ← get NullDeref (h !! l); Ok (<[l := MkNode p (Data n)]> h, L)
  end.

(** The slot loops: while the slot is not NULL and its node does not stop the
    search, move to the [Next] slot of that node. *)
Fixpoint advance (fuel : nat) (stop : T → bool) (h : heap) (L : List) (s : slot)
    : result slot :=
  match fuel with
  | O => Err Hang
  | S fuel' =>
      p ← read_slot h L s;
      match p with
      | None => Ok s
      | Some l =>
          n ← get NullDeref (h !! l);
          if stop (Data n) then Ok s else advance fuel' stop h L (SNext l)
      end
  end.

(** A bound on the steps of any walk through the nodes of [h]. *)
Definition walk_fuel (h : heap) : nat := S (size h).

(** [new Node()]. *)
Definition new_node (h : heap) (n : ListNode) : loc * heap :=
  let l := fresh (dom h) in (l, <[l := n]> h).

(** ** Operations *)

Definition empty_list : List := MkList None 0.

Definition append (h : heap) (L : List) (elem : T) : result (heap * List) :=
  s ← advance (walk_fuel h) (λ _, false) h L SHead;
  let '(l, h1) := new_node h (MkNode None elem) in
  '(h2, L2) ← write_slot h1 L s (Some l);
  Ok (h2, MkList (elems L2) (u32 (count L2 + 1))).

Definition remove (h : heap) (L : List) (elem : T) : result (heap * List) :=
  s ← advance (walk_fuel h) (λ d, bool_decide (d = elem)) h L SHead;
  p ← read_slot h L s;
  match p with
  | None => Ok (h, L)
  | Some candidate =>
      n ← get NullDeref (h !! candidate);
      _ ← cassert (bool_decide (Data n = elem));
      '(h1, L1) ← write_slot h L s (Next n);
      Ok (delete candidate h1, MkList (elems L1) (u32 (count L1 - 1)))
  end.

Definition dequeue (h : heap) (L : List) : result (T * heap * List) :=
  match elems L with
  | None => Err AssertFailed
  | Some front =>
      n ← get NullDeref (h !! front);
      Ok (Data n, delete front h, MkList (Next n) (u32 (count L - 1)))
  end.

Definition push (h : heap) (L : List) (elem : T) : result (heap * List) :=
  let '(l, h1) := new_node h (MkNode (elems L) elem) in
  Ok (h1, MkList (Some l) (u32 (count L + 1))).

Definition first_ (h : heap) (L : List) : result T :=
  match elems L with
  | None => Err AssertFailed
  | Some l => n ← get NullDeref (h !! l); Ok (Data n)
  end.

Fixpoint last_from (fuel : nat) (h : heap) (l : loc) : result T :=
  match fuel with
  | O => Err Hang
  | S fuel' =>
      n ← get NullDeref (h !! l);
      match Next n with
      | None => Ok (Data n)
      | Some l' => last_from fuel' h l'
      end
  end.

Definition last_ (h : heap) (L : List) : result T :=
  match elems L with
  | None => Err AssertFailed
  | Some l => last_from (walk_fuel h) h l
  end.

(** [while (ctr != index && n) { n = n->Next; ctr++; }]. *)
Fixpoint at_from (fuel : nat) (h : heap) (ctr index : Z) (p : option loc) : result T :=
  match fuel with
  | O => Err Hang
  | S fuel' =>
      match p with
      | None => Err AssertFailed
      | Some l =>
          n ← get NullDeref (h !! l);
          if ctr =? index then Ok (Data n)
          else at_from fuel' h (ctr + 1) index (Next n)
      end
  end.

Definition at_ (h : heap) (L : List) (index : Z) : result T :=
  at_from (walk_fuel h) h 0 index (elems L).

Definition empty (L : List) : bool := count L =? 0.

Fixpoint free_from (fuel : nat) (h : heap) (p : option loc) : result heap :=
  match fuel with
  | O => Err Hang
  | S fuel' =>
      match p with
      | None => Ok h
      | Some l => n ← get NullDeref (h !! l); free_from fuel' (delete l h) (Next n)
      end
  end.

Definition clear (h : heap) (L : List) : result (heap * List) :=
  h' ← free_from (walk_fuel h) h (elems L); Ok (h', MkList None 0).

(** The destructor [~List]. *)
Definition destroy (h : heap) (L : List) : result heap :=
  free_from (walk_fuel h) h (elems L).

(** [for (x : L)]: the elements from [begin()] to [end()]. *)
Fixpoint iterate (fuel : nat) (h : heap) (p : option loc) : result (list T) :=
  match fuel with
  | O => Err Hang
  | S fuel' =>
      match p with
      | None => Ok []
      | Some l =>
          n ← get NullDeref (h !! l);
          xs ← iterate fuel' h (Next n); Ok (Data n :: xs)
      end
  end.

Definition elements (h : heap) (L : List) : result (list T) :=
  iterate (walk_fuel h) h (elems L).

(** The copy constructor appends the elements of [r] one by one. *)
Definition copy (h : heap) (r : List) : result (heap * List) :=
  xs ← elements h r;
  foldl (λ acc x, '(h', L') ← acc; append h' L' x) (Ok (h, empty_list)) xs.

(** ** The interface: one call and its abstract meaning *)

Inductive list_call :=
| CAppend (x : T) | CRemove (x : T) | CDequeue | CPush (x : T) | CClear
| CFirst | CLast | CAt (i : Z) | CElements.

Inductive list_answer :=
| ANone | AElem (x : T) | AElems (xs : list T).

Definition run_call (c : list_call) (h : heap) (L : List)
    : result (list_answer * heap * List) :=
  match c with
  | CAppend x => '(h', L') ← append h L x; Ok (ANone, h', L')
  | CRemove x => '(h', L') ← remove h L x; Ok (ANone, h', L')
  | CDequeue => '(x, h', L') ← dequeue h L; Ok (AElem x, h', L')
  | CPush x => '(h', L') ← push h L x; Ok (ANone, h', L')
  | CClear => '(h', L') ← clear h L; Ok (ANone, h', L')
  | CFirst => x ← first_ h L; Ok (AElem x, h, L)
  | CLast => x ← last_ h L; Ok (AElem x, h, L)
  | CAt i => x ← at_ h L i; Ok (AElem x, h, L)
  | CElements => xs ← elements h L; Ok (AElems xs, h, L)
  end.

(** Removes the first occurrence of [x]. *)
Fixpoint remove_first (x : T) (xs : list T) : list T :=
  match xs with
  | [] => []
  | y :: ys => if decide (y = x) then ys else y :: remove_first x ys
  end.

Definition spec_call (c : list_call) (xs : list T) : result (list_answer * list T) :=
  match c with
  | CAppend x => Ok (ANone, xs ++ [x])
  | CRemove x => Ok (ANone, remove_first x xs)
  | CDequeue =>
      match xs with [] => Err AssertFailed | x :: xs' => Ok (AElem x, xs') end
  | CPush x => Ok (ANone, x :: xs)
  | CClear => Ok (ANone, [])
  | CFirst => match xs with [] => Err AssertFailed | x :: _ => Ok (AElem x, xs) end
  | CLast => x ← get AssertFailed (list.last xs); Ok (AElem x, xs)
  | CAt i =>
      if 0 <=? i then x ← get AssertFailed (xs !! Z.to_nat i); Ok (AElem x, xs)
      else Err AssertFailed
  | CElements => Ok (AElems xs, xs)
  end.

(** ** The representation *)

Fixpoint lseg (h : heap) (p : option loc) (ns : list (loc * T)) (q : option loc) : Prop :=
  match ns with
  | [] => p = q
  | (l, x) :: ns' => p = Some l ∧ ∃ nx, h !! l = Some (MkNode nx x) ∧ lseg h nx ns' q
  end.

Definition repr (h : heap) (L : List) (ns : list (loc * T)) : Prop :=
  lseg h (elems L) ns None ∧ NoDup ns.*1 ∧ count L = u32 (Z.of_nat (length ns)).

Lemma lseg_app h p a b q :
  lseg h p (a ++ b) q ↔ ∃ m, lseg h p a m ∧ lseg h m b q.
Proof.
  revert p. induction a as [|[l x] a IH]; intros p; simpl.
  - naive_solver.
  - setoid_rewrite IH. naive_solver.
Qed.

Lemma lseg_frame h h' p ns q :
  (∀ l, l ∈ ns.*1 → h' !! l = h !! l) → lseg h p ns q → lseg h' p ns q.
Proof.
  revert p. induction ns as [|[l x] ns IH]; intros p Hf; simpl; [done|].
  intros (-> & nx & Hl & Hs). split; [done|]. exists nx.
  rewrite Hf by (simpl; set_solver). split; [done|].
  apply IH; [|done]. intros l' ?. apply Hf. simpl. set_solver.
Qed.

Lemma lseg_dom h p ns q l : lseg h p ns q → l ∈ ns.*1 → is_Some (h !! l).
Proof.
  revert p. induction ns as [|[l' x] ns IH]; intros p; simpl; [by rewrite elem_of_nil|].
  intros (-> & nx & Hl & Hs). rewrite elem_of_cons. intros [->|?]; eauto.
Qed.

Lemma lseg_length h p ns q : lseg h p ns q → NoDup ns.*1 → (length ns ≤ size h)%nat.
Proof.
  intros Hs Hnd. rewrite <- (length_fmap fst ns), <- size_dom.
  rewrite <- (size_list_to_set (C := gset loc) ns.*1) by done.
  apply subseteq_size. intros l Hl. apply elem_of_list_to_set in Hl.
  apply elem_of_dom. by eapply lseg_dom.
Qed.

(** What an operation may do to the heap: the nodes it adds are new, the
    nodes it drops are freed, and no node of another list changes. *)
Definition framed (h : heap) (ns : list (loc * T)) (h' : heap) (ns' : list (loc * T)) : Prop :=
  (∀ l, l ∉ ns.*1 → l ∉ ns'.*1 → h' !! l = h !! l) ∧
  (∀ l, l ∈ ns'.*1 → l ∈ ns.*1 ∨ h !! l = None) ∧
  (∀ l, l ∈ ns.*1 → l ∉ ns'.*1 → h' !! l = None).

Lemma framed_refl h ns : framed h ns h ns.
Proof. split_and!; naive_solver. Qed.

(** The slot that follows the nodes of [ns]. *)
Definition slot_end (ns : list (loc * T)) : slot :=
  match list.last ns with Some (l, _) => SNext l | None => SHead end.

Lemma slot_end_snoc ns l x : slot_end (ns ++ [(l, x)]) = SNext l.
Proof. unfold slot_end. by rewrite last_snoc. Qed.

Lemma read_slot_end h L pre q :
  lseg h (elems L) pre q → read_slot h L (slot_end pre) = Ok q.
Proof.
  destruct pre as [|[l x] pre _] using rev_ind; simpl; [by intros ->|].
  rewrite lseg_app, slot_end_snoc. simpl. intros (m & _ & _ & nx & -> & <-). done.
Qed.

Lemma write_slot_end h L pre q p :
  lseg h (elems L) pre q → NoDup pre.*1 →
  ∃ h' L', write_slot h L (slot_end pre) p = Ok (h', L') ∧
    lseg h' (elems L') pre p ∧ count L' = count L ∧
    (∀ l, l ∉ pre.*1 → h' !! l = h !! l).
Proof.
  destruct pre as [|[l x] pre _] using rev_ind; simpl.
  - intros _ _. by exists h, (MkList p (count L)).
  - rewrite lseg_app, slot_end_snoc, fmap_app, NoDup_app. simpl.
    intros (m & Hpre & -> & nx & Hl & <-) (_ & Hni & _). rewrite Hl. simpl.
    eexists _, L. split; [done|]. split; [|split; [done|]].
    + apply lseg_app. exists (Some l). split.
      * eapply lseg_frame; [|done]. intros l' Hl'. apply lookup_insert_ne.
        intros <-. by apply (Hni l Hl'), list_elem_of_singleton.
      * simpl. split; [done|]. exists p. by rewrite lookup_insert_eq.
    + intros l' Hl'. apply lookup_insert_ne. intros <-. set_solver.
Qed.

(** The nodes before the first one that stops a walk. *)
Fixpoint before (stop : T → bool) (ns : list (loc * T)) : list (loc * T) :=
  match ns with
  | [] => []
  | (l, x) :: ns' => if stop x then [] else (l, x) :: before stop ns'
  end.

Lemma advance_spec stop h L fuel pre ns :
  lseg h (elems L) (pre ++ ns) None → (length ns < fuel)%nat →
  advance fuel stop h L (slot_end pre) = Ok (slot_end (pre ++ before stop ns)).
Proof.
  revert pre fuel. induction ns as [|[l x] ns IH]; intros pre fuel Hs Hf;
    (destruct fuel as [|fuel]; [simpl in Hf; lia|]);
    pose proof Hs as Hs'; apply lseg_app in Hs' as (m & Hpre & Hns); simpl.
  - simpl in Hns. subst m. by rewrite (read_slot_end _ _ _ _ Hpre), app_nil_r.
  - simpl in Hns. destruct Hns as (-> & nx & Hl & Hns).
    rewrite (read_slot_end _ _ _ _ Hpre). simpl. rewrite Hl. simpl.
    destruct (stop x); [by rewrite app_nil_r|].
    rewrite <- (slot_end_snoc pre l x), IH; simpl in *; [|by rewrite <- app_assoc|lia].
    by rewrite <- app_assoc.
Qed.

Lemma before_never ns : before (λ _, false) ns = ns.
Proof. induction ns as [|[l x] ns IH]; simpl; congruence. Qed.

Lemma walk_fuel_enough h p ns q :
  lseg h p ns q → NoDup ns.*1 → (length ns < walk_fuel h)%nat.
Proof. intros. unfold walk_fuel. by apply le_n_S, (lseg_length h p ns q). Qed.

Lemma u32_count_incr n : u32 (u32 n + 1) = u32 (n + 1).
Proof. unfold wrap. by rewrite Zplus_mod_idemp_l. Qed.

Lemma u32_count_decr n : u32 (u32 (n + 1) - 1) = u32 n.
Proof. unfold wrap. rewrite Zminus_mod_idemp_l. f_equal. lia. Qed.

(** ** Each operation against the abstract list *)

Lemma fresh_not_in h p ns q : lseg h p ns q → fresh (dom h) ∉ ns.*1.
Proof.
  intros Hs Hl. destruct (lseg_dom _ _ _ _ _ Hs Hl) as [n Hn].
  by apply (is_fresh (dom h)), (elem_of_dom_2 h _ n).
Qed.

Lemma fresh_lookup (h : heap) : h !! fresh (dom h) = None.
Proof. apply not_elem_of_dom, is_fresh. Qed.

Lemma append_spec h L ns x :
  repr h L ns →
  ∃ h' L' l, append h L x = Ok (h', L') ∧
    repr h' L' (ns ++ [(l, x)]) ∧ framed h ns h' (ns ++ [(l, x)]).
Proof.
  intros (Hs & Hnd & Hc). pose proof (fresh_not_in _ _ _ _ Hs) as Hfr.
  unfold append. rewrite (advance_spec (λ _, false) h L _ [] ns)
    by eauto using walk_fuel_enough. rewrite before_never. simpl.
  set (l := fresh (dom h)) in *. set (h1 := <[l := MkNode None x]> h).
  assert (lseg h1 (elems L) ns None) as Hs1.
  { eapply lseg_frame; [|done]. intros l' ?. apply lookup_insert_ne. by intros <-. }
  destruct (write_slot_end h1 L ns None (Some l) Hs1 Hnd) as (h2 & L2 & -> & Hs2 & Hc2 & Hf2).
  simpl. eexists h2, _, l. split; [done|]. split.
  - split; [|split]; simpl.
    + apply lseg_app. exists (Some l). split; [done|]. simpl. split; [done|].
      exists None. rewrite Hf2 by done. unfold h1. by rewrite lookup_insert_eq.
    + rewrite fmap_app, NoDup_app. set_solver by eauto using NoDup_singleton.
    + rewrite Hc2, Hc, u32_count_incr, length_app. simpl. f_equal. lia.
  - unfold framed. rewrite fmap_app. simpl. split_and!.
    + intros l' H1 H2. rewrite Hf2 by done. apply lookup_insert_ne. set_solver.
    + intros l' [?|E%list_elem_of_singleton]%elem_of_app; [by left|].
      right. rewrite E. apply fresh_lookup.
    + set_solver.
Qed.

Lemma before_split stop ns :
  (before stop ns = ns ∧ Forall (λ n, stop n.2 = false) ns) ∨
  ∃ l x post, ns = before stop ns ++ (l, x) :: post ∧ stop x = true ∧
    Forall (λ n, stop n.2 = false) (before stop ns).
Proof.
  induction ns as [|[l x] ns IH]; simpl; [by left|].
  destruct (stop x) eqn:E; [right; by exists l, x, ns|].
  destruct IH as [[IH1 IH2]|(l' & x' & post & IH1 & IH2 & IH3)].
  - left. rewrite IH1. by repeat constructor.
  - right. exists l', x', post. simpl. rewrite <- IH1. by repeat constructor.
Qed.

Lemma remove_first_notin x xs : x ∉ xs → remove_first x xs = xs.
Proof.
  induction xs as [|y ys IH]; simpl; [done|].
  rewrite not_elem_of_cons. intros [Hxy Hx]. rewrite decide_False by congruence.
  by rewrite IH.
Qed.

Lemma remove_first_app x xs ys :
  x ∉ xs → remove_first x (xs ++ x :: ys) = xs ++ ys.
Proof.
  induction xs as [|y xs IH]; simpl; [by rewrite decide_True|].
  rewrite not_elem_of_cons. intros [Hxy Hx]. rewrite decide_False by congruence.
  by rewrite IH.
Qed.

Lemma notin_before x (ns : list (loc * T)) :
  Forall (λ n, bool_decide (n.2 = x) = false) ns → x ∉ ns.*2.
Proof.
  intros Hall [n [-> Hn]]%list_elem_of_fmap.
  rewrite Forall_forall in Hall. specialize (Hall n Hn).
  by apply bool_decide_eq_false in Hall.
Qed.

Lemma remove_spec h L ns x :
  repr h L ns →
  ∃ h' L' ns', remove h L x = Ok (h', L') ∧
    repr h' L' ns' ∧ ns'.*2 = remove_first x ns.*2 ∧ framed h ns h' ns'.
Proof.
  intros (Hs & Hnd & Hc). unfold remove.
  rewrite (advance_spec _ h L _ [] ns) by eauto using walk_fuel_enough. simpl.
  destruct (before_split (λ d, bool_decide (d = x)) ns)
    as [[E Hall]|(l & y & post & E & Hy & Hall)].
  - rewrite E, (read_slot_end _ _ _ _ Hs). simpl. exists h, L, ns.
    rewrite remove_first_notin by (by apply notin_before).
    split_and!; by try apply framed_refl.
  - apply bool_decide_eq_true in Hy as ->.
    set (pre := before _ ns) in *. clearbody pre. subst ns.
    apply lseg_app in Hs as (m & Hpre & -> & nx & Hl & Hpost).
    rewrite (read_slot_end _ _ _ _ Hpre). simpl. rewrite Hl. simpl.
    rewrite bool_decide_eq_true_2 by done. simpl.
    rewrite fmap_app in Hnd. simpl in Hnd. apply NoDup_app in Hnd as (Hnd1 & Hdisj & Hnd2).
    apply NoDup_cons in Hnd2 as [Hlpost Hnd2].
    destruct (write_slot_end h L pre (Some l) nx Hpre Hnd1) as (h1 & L1 & -> & Hs1 & Hc1 & Hf1).
    simpl. eexists _, _, (pre ++ post). split; [done|]. split; [|split].
    + split; [|split]; simpl.
      * apply lseg_app. exists nx. split; (eapply lseg_frame; [|done]).
        -- intros l' Hl'. apply lookup_delete_ne. intros <-. set_solver.
        -- intros l' Hl'. rewrite lookup_delete_ne by (intros <-; done).
           apply Hf1. set_solver.
      * rewrite fmap_app, NoDup_app. set_solver.
      * rewrite Hc1, Hc, !length_app. simpl.
        replace (Z.of_nat (length pre + S (length post)))
          with (Z.of_nat (length pre + length post) + 1) by lia.
        apply u32_count_decr.
    + rewrite !fmap_app. simpl. rewrite remove_first_app; [done|by apply notin_before].
    + unfold framed. rewrite !fmap_app. simpl. split_and!.
      * intros l' ?%not_elem_of_app ?. rewrite lookup_delete_ne by set_solver.
        apply Hf1. set_solver.
      * set_solver.
      * intros l' ? ?. assert (l' = l) as -> by set_solver. apply lookup_delete_eq.
Qed.

Lemma dequeue_spec h L ns :
  repr h L ns →
  match ns with
  | [] => dequeue h L = Err AssertFailed
  | (l, x) :: ns' => ∃ h' L', dequeue h L = Ok (x, h', L') ∧
      repr h' L' ns' ∧ framed h ns h' ns'
  end.
Proof.
  intros (Hs & Hnd & Hc). unfold dequeue. destruct ns as [|[l x] ns]; simpl in *.
  - by rewrite Hs.
  - destruct Hs as (-> & nx & Hl & Hs). rewrite Hl. simpl.
    apply NoDup_cons in Hnd as [Hni Hnd].
    eexists _, _. split; [done|]. split; [split; [|split]|]; simpl.
    + eapply lseg_frame; [|done]. intros l' ?. apply lookup_delete_ne. by intros <-.
    + done.
    + rewrite Hc, Nat2Z.inj_succ. apply u32_count_decr.
    + unfold framed. simpl. split_and!.
      * intros l' ? ?. apply lookup_delete_ne. set_solver.
      * set_solver.
      * intros l' ? ?. assert (l' = l) as -> by set_solver. apply lookup_delete_eq.
Qed.

Lemma push_spec h L ns x :
  repr h L ns →
  ∃ h' L' l, push h L x = Ok (h', L') ∧
    repr h' L' ((l, x) :: ns) ∧ framed h ns h' ((l, x) :: ns).
Proof.
  intros (Hs & Hnd & Hc). pose proof (fresh_not_in _ _ _ _ Hs) as Hfr.
  unfold push. simpl. set (l := fresh (dom h)) in *.
  eexists _, _, l. split; [done|]. split; [split; [|split]|]; simpl.
  - split; [done|]. eexists. rewrite lookup_insert_eq. split; [done|].
    eapply lseg_frame; [|done]. intros l' ?. apply lookup_insert_ne. by intros <-.
  - by constructor.
  - rewrite Hc, u32_count_incr. f_equal. lia.
  - unfold framed. simpl. split_and!.
    + intros l' ? ?. apply lookup_insert_ne. set_solver.
    + intros l' [->|?]%elem_of_cons; [right; apply fresh_lookup|by left].
    + set_solver.
Qed.

Lemma free_from_spec fuel h p ns :
  lseg h p ns None → NoDup ns.*1 → (length ns < fuel)%nat →
  ∃ h', free_from fuel h p = Ok h' ∧ framed h ns h' [].
Proof.
  revert h p fuel. induction ns as [|[l x] ns IH]; intros h p fuel Hs Hnd Hf;
    (destruct fuel as [|fuel]; [simpl in Hf; lia|]); simpl in *.
  - subst p. exists h. split; [done|]. unfold framed. set_solver.
  - destruct Hs as (-> & nx & Hl & Hs). rewrite Hl. simpl.
    apply NoDup_cons in Hnd as [Hni Hnd].
    destruct (IH (delete l h) nx fuel) as (h' & Hrun & Hf1 & Hf2 & Hf3); [|done|lia|].
    { eapply lseg_frame; [|done]. intros l' ?. apply lookup_delete_ne. by intros <-. }
    exists h'. split; [done|]. unfold framed. simpl. split_and!.
    + intros l' ? ?. rewrite Hf1 by set_solver. apply lookup_delete_ne. set_solver.
    + set_solver.
    + intros l' [->|?]%elem_of_cons ?; [|by apply Hf3].
      rewrite Hf1 by done. apply lookup_delete_eq.
Qed.

Lemma clear_spec h L ns :
  repr h L ns → ∃ h' L', clear h L = Ok (h', L') ∧ repr h' L' [] ∧ framed h ns h' [].
Proof.
  intros (Hs & Hnd & Hc).
  destruct (free_from_spec (walk_fuel h) h (elems L) ns) as (h' & Hrun & Hfr);
    eauto using walk_fuel_enough.
  unfold clear. rewrite Hrun. simpl. eexists _, _. split; [done|].
  split; [|done]. split_and!; [done|constructor|done].
Qed.

Lemma last_from_spec fuel h l x ns :
  lseg h (Some l) ((l, x) :: ns) None → (length ns < fuel)%nat →
  last_from fuel h l = get AssertFailed (list.last (x :: ns.*2)).
Proof.
  revert l x fuel. induction ns as [|[l' x'] ns IH]; intros l x fuel Hs Hf;
    (destruct fuel as [|fuel]; [simpl in Hf; lia|]);
    destruct Hs as (_ & nx & Hl & Hs); simpl; rewrite Hl; simpl.
  - simpl in Hs. by rewrite Hs.
  - simpl in Hs. destruct Hs as (-> & Hs). simpl in Hf. apply IH; [|lia].
    simpl. eauto.
Qed.

Lemma at_from_spec fuel h ctr index p ns :
  lseg h p ns None → (length ns < fuel)%nat →
  at_from fuel h ctr index p =
    if ctr <=? index then get AssertFailed (ns.*2 !! Z.to_nat (index - ctr))
    else Err AssertFailed.
Proof.
  revert ctr p fuel. induction ns as [|[l x] ns IH]; intros ctr p fuel Hs Hf;
    (destruct fuel as [|fuel]; [simpl in Hf; lia|]); simpl in *.
  - subst p. by case_match.
  - destruct Hs as (-> & nx & Hl & Hs). rewrite Hl. simpl.
    destruct (Z.eqb_spec ctr index) as [->|Hne].
    + rewrite Z.leb_refl, Z.sub_diag. done.
    + rewrite (IH (ctr + 1)) by (done || lia).
      destruct (Z.leb_spec (ctr + 1) index), (Z.leb_spec ctr index); try lia; [|done].
      by replace (Z.to_nat (index - ctr)) with (S (Z.to_nat (index - (ctr + 1)))) by lia.
Qed.

Lemma iterate_spec fuel h p ns :
  lseg h p ns None → (length ns < fuel)%nat → iterate fuel h p = Ok ns.*2.
Proof.
  revert p fuel. induction ns as [|[l x] ns IH]; intros p fuel Hs Hf;
    (destruct fuel as [|fuel]; [simpl in Hf; lia|]); simpl in *.
  - by subst p.
  - destruct Hs as (-> & nx & Hl & Hs). rewrite Hl. simpl.
    by rewrite IH by (done || lia).
Qed.

(** ** Properties *)

(** C18. The pointer-level list implements the abstract list: whatever the
    heap around it holds, every call on a list that represents [xs] returns
    the answer of the abstract list, faults exactly where the code asserts
    (reading or removing the front of an empty list, indexing past the end),
    leaves a list that represents the abstract result, allocates only new
    nodes, frees every node it unlinks, and touches no other node. *)
Theorem list_refines c h L ns :
  repr h L ns →
  match spec_call c ns.*2 with
  | Err f => run_call c h L = Err f
  | Ok (a, xs') => ∃ h' L' ns', run_call c h L = Ok (a, h', L') ∧
      repr h' L' ns' ∧ ns'.*2 = xs' ∧ framed h ns h' ns'
  end.
Proof.
  intros HR. pose proof HR as (Hs & Hnd & Hc).
  pose proof (walk_fuel_enough _ _ _ _ Hs Hnd) as Hfuel.
  destruct c as [x|x| |x| | | |i|]; cbn [spec_call run_call].
  - destruct (append_spec h L ns x HR) as (h' & L' & l & -> & ? & ?).
    eexists _, _, _. split_and!; try done. by rewrite fmap_app.
  - destruct (remove_spec h L ns x HR) as (h' & L' & ns' & -> & ?). simpl. naive_solver.
  - pose proof (dequeue_spec h L ns HR) as Hd. destruct ns as [|[l x] ns]; simpl.
    + by rewrite Hd.
    + destruct Hd as (h' & L' & -> & ? & ?). by eexists _, _, ns.
  - destruct (push_spec h L ns x HR) as (h' & L' & l & Hrun & ? & ?).
    rewrite Hrun. by eexists _, _, _.
  - destruct (clear_spec h L ns HR) as (h' & L' & -> & ? & ?). by eexists _, _, [].
  - unfold first_. destruct ns as [|[l x] ns]; simpl in *; [by rewrite Hs|].
    destruct Hs as (-> & nx & -> & Hs). simpl. eexists _, _, _. split_and!; [done..|].
    apply framed_refl.
  - unfold last_. destruct ns as [|[l x] ns]; [simpl in Hs; by rewrite Hs|].
    pose proof Hs as [-> _]. simpl in Hs, Hfuel.
    rewrite (last_from_spec _ _ _ x ns) by (simpl; naive_solver lia). rewrite fmap_cons.
    destruct (list.last _) as [y|] eqn:E; simpl; [|done].
    eexists _, _, _. split_and!; [done..|]. apply framed_refl.
  - unfold at_. rewrite (at_from_spec _ _ _ _ _ ns) by done. rewrite Z.sub_0_r.
    destruct (0 <=? i); [|done]. destruct (ns.*2 !! _); simpl; [|done].
    eexists _, _, _. split_and!; [done..|]. apply framed_refl.
  - unfold elements. rewrite (iterate_spec _ _ _ ns) by done.
    eexists _, _, _. split_and!; [done..|]. apply framed_refl.
Qed.
End cpp_list.

(** A heap with a one-element list at node 1 and an unrelated node 9. *)
Definition sample_heap : gmap loc (ListNode (T := Z)) :=
  {[ 1%positive := MkNode None 7; 9%positive := MkNode None 5 ]}.
Definition sample_list : List := MkList (Some 1%positive) 1.

Lemma list_refines_witness :
  ∃ h' L' ns', run_call (CRemove 7) sample_heap sample_list = Ok (ANone, h', L') ∧
    repr h' L' ns' ∧ ns'.*2 = [] ∧ h' !! 9%positive = Some (MkNode None 5).
Proof.
  assert (repr sample_heap sample_list [(1%positive, 7)]) as HR.
  { split; [|split]; [|apply NoDup_singleton|reflexivity].
    simpl. split; [done|]. exists None. split; [reflexivity|done]. }
  destruct (list_refines (CRemove 7) sample_heap sample_list _ HR)
    as (h' & L' & ns' & H1 & H2 & H3 & H4 & H5 & H6).
  exists h', L', ns'. split; [exact H1|]. split; [exact H2|]. split; [exact H3|].
  destruct ns'; [|discriminate]. rewrite H4; [reflexivity|set_solver|set_solver].
Defined.
