(* ===== verification/CppMap.v ===== *)
(** * The red-black map of include/infos/util/map.h

    [Map<TKey, TValue>] with 64-bit keys (every map of the kernel is keyed by a
    hash, a handle or an address).  The nodes carry parent pointers; the model
    keeps a node in focus together with the path of its ancestors, so that
    [parent()], [grandparent()] and the rotations are moves of that focus. *)

From stdpp Require Import sorting.
From S2P Require Import Prelude.
Local Open Scope Z_scope.

Section map.
Context {V : Type}.

(** ** Data *)

Inductive Colour := RED | BLACK.

Inductive tree :=
| Null
| MapNode (col : Colour) (left : tree) (Key : Z) (Value : V) (right : tree).

Inductive side := LeftOf | RightOf.

(** An ancestor: the node is its [fside] child, [fsib] is the other child. *)
Record frame := Frame {
  fside : side; fcol : Colour; fkey : Z; fval : V; fsib : tree }.

(** A node pointer [x]: the subtree it heads and its ancestors, nearest first. *)
Definition cursor : Type := tree * list frame.

Record Map := MkMap { root : tree; mcount : Z }.

Definition fill (f : frame) (t : tree) : tree :=
  match fside f with
  | LeftOf => MapNode (fcol f) t (fkey f) (fval f) (fsib f)
  | RightOf => MapNode (fcol f) (fsib f) (fkey f) (fval f) t
  end.

Fixpoint plug (t : tree) (path : list frame) : tree :=
  match path with
  | [] => t
  | f :: path' => plug (fill f t) path'
  end.

Definition red (t : tree) : bool :=
  match t with MapNode RED _ _ _ _ => true | _ => false end.

(** [n->Colour = c]. *)
Definition paint (c : Colour) (t : tree) : result tree :=
  match t with
  | Null => Err NullDeref
  | MapNode _ l k v r => Ok (MapNode c l k v r)
  end.

(** [x->parent()]. *)
Definition parent (x : cursor) : result cursor :=
  match x with
  | (_, []) => Err NullDeref
  | (t, f :: path) => Ok (fill f t, path)
  end.

Definition left_child (x : cursor) : result cursor :=
  match x with
  | (MapNode c l k v r, path) => Ok (l, Frame LeftOf c k v r :: path)
  | (Null, _) => Err NullDeref
  end.

Definition right_child (x : cursor) : result cursor :=
  match x with
  | (MapNode c l k v r, path) => Ok (r, Frame RightOf c k v l :: path)
  | (Null, _) => Err NullDeref
  end.

(** ** Rotations: the pivot takes the place of [n] below [n]'s parent *)

Definition rotate_right (n : tree) : result tree :=
  match n with
  | MapNode c (MapNode c' a k' v' b) k v d => Ok (MapNode c' a k' v' (MapNode c b k v d))
  | _ => Err AssertFailed
  end.

Definition rotate_left (n : tree) : result tree :=
  match n with
  | MapNode c a k v (MapNode c' b k' v' d) => Ok (MapNode c' (MapNode c a k v b) k' v' d)
  | _ => Err AssertFailed
  end.

Definition at_node (g : tree → result tree) (x : cursor) : result cursor :=
  t ← g (fst x); Ok (t, snd x).

(** ** Rebalancing *)

(** The parent and the uncle are red: they turn black, the grandparent red,
    and [x] moves to the grandparent. *)
Definition recolour (x : cursor) : result cursor :=
  p ← parent x;
  p ← at_node (paint BLACK) p;
  match p with
  | (pt, g :: path) =>
      y ← paint BLACK (fsib g);
      Ok (fill (Frame (fside g) RED (fkey g) (fval g) y) pt, path)
  | (_, []) => Err NullDeref
  end.

(** The parent is a left child and the uncle is not red. *)
Definition fix_left (x : cursor) : result cursor :=
  x ← match snd x with
      | Frame RightOf _ _ _ _ :: _ =>
          p ← parent x; p ← at_node rotate_left p; left_child p
      | _ => Ok x
      end;
  p ← parent x; p ← at_node (paint BLACK) p;
  g ← parent p; g ← at_node (paint RED) g;
  g ← at_node rotate_right g; left_child g.

(** The parent is a right child and the uncle is not red. *)
Definition fix_right (x : cursor) : result cursor :=
  x ← match snd x with
      | Frame LeftOf _ _ _ _ :: _ =>
          p ← parent x; p ← at_node rotate_right p; right_child p
      | _ => Ok x
      end;
  p ← parent x; p ← at_node (paint BLACK) p;
  g ← parent p; g ← at_node (paint RED) g;
  g ← at_node rotate_left g; right_child g.

Fixpoint rebalance_loop (fuel : nat) (x : cursor) : result cursor :=
  match fuel with
  | O => Err Hang
  | S fuel' =>
      match snd x with
      | Frame _ RED _ _ _ :: [] => Err NullDeref
      | Frame _ RED _ _ _ :: g :: _ =>
          x' ← if red (fsib g) then recolour x
               else match fside g with
                    | LeftOf => fix_left x
                    | RightOf => fix_right x
                    end;
          rebalance_loop fuel' x'
      | _ => Ok x
      end
  end.

Definition rebalance_insert (nw : cursor) : result tree :=
  nw ← at_node (paint RED) nw;
  x ← rebalance_loop (S (length (snd nw))) nw;
  paint BLACK (plug (fst x) (snd x)).

(** ** Operations *)

Definition empty_map : Map := MkMap Null 0.

(** The loop of [add] that looks for the node to update or to extend. *)
Fixpoint descend (key : Z) (t : tree) (path : list frame) : cursor :=
  match t with
  | Null => (t, path)
  | MapNode c l k v r =>
      if key <? k then
        match l with
        | Null => (t, path)
        | _ => descend key l (Frame LeftOf c k v r :: path)
        end
      else if k <? key then
        match r with
        | Null => (t, path)
        | _ => descend key r (Frame RightOf c k v l :: path)
        end
      else (t, path)
  end.

Definition add (m : Map) (key : Z) (value : V) : result Map :=
  match descend key (root m) [] with
  | (MapNode c l k v r, path) =>
      if key =? k then Ok (MkMap (plug (MapNode c l k value r) path) (mcount m))
      else
        let nw := MapNode RED Null key value Null in
        root' ← rebalance_insert
          (nw, (if key <? k then Frame LeftOf c k v r else Frame RightOf c k v l) :: path);
        Ok (MkMap root' (u32 (mcount m + 1)))
  | (Null, _) => Ok (MkMap (MapNode BLACK Null key value Null) (u32 (mcount m + 1)))
  end.

(** [remove] has no body. *)
Definition map_remove (m : Map) (key : Z) : Map := m.

Definition map_clear (m : Map) : Map := MkMap Null 0.

Fixpoint tree_find (t : tree) (key : Z) : option V :=
  match t with
  | Null => None
  | MapNode _ l k v r =>
      if key <? k then tree_find l key else if k <? key then tree_find r key else Some v
  end.

Definition contains_key (m : Map) (key : Z) : bool :=
  bool_decide (is_Some (tree_find (root m) key)).

Definition try_get_value (m : Map) (key : Z) : option V := tree_find (root m) key.

(** Without the key, control runs off the end of a function with a result. *)
Definition get_value (m : Map) (key : Z) : result V :=
  get Uninitialised (tree_find (root m) key).

(** ** The iterator: a queue of node pointers *)

Definition enqueue_node (q : list tree) (t : tree) : list tree :=
  match t with Null => q | _ => q ++ [t] end.

Fixpoint iter_from (fuel : nat) (q : list tree) : result (list (Z * V)) :=
  match fuel with
  | O => Err Hang
  | S fuel' =>
      match q with
      | [] => Ok []
      | Null :: _ => Err NullDeref
      | MapNode _ l k v r :: q' =>
          xs ← iter_from fuel' (enqueue_node (enqueue_node q' l) r);
          Ok ((k, v) :: xs)
      end
  end.

Fixpoint tree_size (t : tree) : nat :=
  match t with Null => O | MapNode _ l _ _ r => S (tree_size l + tree_size r) end.

(** [for (pair : m)]. *)
Definition iterate_map (m : Map) : result (list (Z * V)) :=
  iter_from (S (tree_size (root m))) (enqueue_node [] (root m)).
End map.
Arguments tree : clear implicits.
Arguments Map : clear implicits.
Arguments frame : clear implicits.
Arguments cursor : clear implicits.
Arguments fill {V} !f t /.

Create HintDb rb.

Section map_proofs.
Context {V : Type}.
Implicit Types (t : tree V) (path : list (frame V)) (x : cursor V) (m : Map V).

(** ** The entries of a tree, in key order *)

Fixpoint inorder t : list (Z * V) :=
  match t with
  | Null => []
  | MapNode _ l k v r => inorder l ++ (k, v) :: inorder r
  end.

Fixpoint ctx_left path : list (Z * V) :=
  match path with
  | [] => []
  | f :: path' => ctx_left path' ++
      match fside f with LeftOf => [] | RightOf => inorder (fsib f) ++ [(fkey f, fval f)] end
  end.

Fixpoint ctx_right path : list (Z * V) :=
  match path with
  | [] => []
  | f :: path' =>
      match fside f with LeftOf => (fkey f, fval f) :: inorder (fsib f) | RightOf => [] end
      ++ ctx_right path'
  end.

Lemma inorder_plug t path : inorder (plug t path) = ctx_left path ++ inorder t ++ ctx_right path.
Proof.
  revert t. induction path as [|[[] c k v s] path IH]; intros t; simpl.
  - by rewrite app_nil_r.
  - rewrite IH. simpl. by rewrite app_nil_r, <- !app_assoc.
  - rewrite IH. simpl. by rewrite <- !app_assoc.
Qed.

Definition entries x : list (Z * V) := inorder (plug (fst x) (snd x)).

Definition tree_map t : gmap Z V := list_to_map (inorder t).
Definition map_of m : gmap Z V := tree_map (root m).

(** ** The balance of a tree and of a path *)

Inductive rbt : Colour → nat → tree V → Prop :=
| rbt_null : rbt BLACK 0 Null
| rbt_red n l k v r : rbt BLACK n l → rbt BLACK n r → rbt RED n (MapNode RED l k v r)
| rbt_black c1 c2 n l k v r :
    rbt c1 n l → rbt c2 n r → rbt BLACK (S n) (MapNode BLACK l k v r).

(** [rbpath c n path]: a balanced tree of colour [c] and black height [n] may
    stand at the end of [path]. *)
Inductive rbpath : Colour → nat → list (frame V) → Prop :=
| rbpath_nil n : rbpath BLACK n []
| rbpath_red n d k v s path :
    rbt BLACK n s → rbpath RED n path → rbpath BLACK n (Frame d RED k v s :: path)
| rbpath_black c c' n d k v s path :
    rbt c' n s → rbpath BLACK (S n) path → rbpath c n (Frame d BLACK k v s :: path).

#[local] Hint Constructors rbt rbpath : rb.

Lemma rbt_fill n c t d k v s : rbt c n t → ∀ c', rbt c' n s →
  rbt BLACK (S n) (fill (Frame d BLACK k v s) t).
Proof. destruct d; simpl; eauto with rb. Qed.

Lemma rbt_fill_red n t d k v s : rbt BLACK n t → rbt BLACK n s →
  rbt RED n (fill (Frame d RED k v s) t).
Proof. destruct d; simpl; eauto with rb. Qed.

#[local] Hint Resolve rbt_fill rbt_fill_red : rb.

Lemma plug_balanced c n t path :
  rbpath c n path → rbt c n t → ∃ n', rbt BLACK n' (plug t path).
Proof.
  intros Hp. revert t.
  induction Hp; intros t Ht; cbn [plug]; eauto with rb.
Qed.

Lemma plug_balanced_inv n t path :
  rbt BLACK n (plug t path) → ∃ c' n', rbt c' n' t ∧ rbpath c' n' path.
Proof.
  revert t. induction path as [|[d c k v s] path IH]; intros t Ht; simpl in *; [eauto with rb|].
  destruct (IH _ Ht) as (c' & n' & Hf & Hp).
  destruct d; simpl in Hf; inversion Hf; subst; eauto 6 with rb.
Qed.

Local Ltac norm_app := repeat (progress simpl || rewrite <- app_assoc || rewrite app_nil_r).

(** ** Rebalancing *)

(** The loop invariant: [x] is a red node below a well-formed path, except
    that its parent may be red as well. *)
Definition one_red n x : Prop := rbt RED n (fst x) ∧ rbpath BLACK n (snd x).

Lemma rotate_left_entries t t' : rotate_left t = Ok t' → inorder t' = inorder t.
Proof.
  destruct t as [|c a k v [|c' b k' v' d]]; simpl; intros; inv_result.
  by rewrite <- app_assoc.
Qed.

Lemma rotate_right_entries t t' : rotate_right t = Ok t' → inorder t' = inorder t.
Proof.
  destruct t as [|c [|c' a k' v' b] k v d]; simpl; intros; inv_result.
  by rewrite <- app_assoc.
Qed.

Lemma recolour_spec n d1 k1 v1 s1 d2 k2 v2 y t path :
  rbt RED n t → rbt BLACK n s1 → rbt RED n y → rbpath BLACK (S n) path →
  ∃ x', recolour (t, Frame d1 RED k1 v1 s1 :: Frame d2 BLACK k2 v2 y :: path) = Ok x' ∧
    one_red (S n) x' ∧ snd x' = path ∧
    entries x' = entries (t, Frame d1 RED k1 v1 s1 :: Frame d2 BLACK k2 v2 y :: path).
Proof.
  intros Ht Hs1 Hy Hp. inversion Hy; subst.
  unfold recolour, one_red, entries.
  destruct d1, d2; simpl; eexists; (split; [done|]);
    rewrite !inorder_plug; simpl; eauto 10 with rb.
Qed.

Lemma fix_left_spec n d1 k1 v1 s1 k2 v2 y t path :
  rbt RED n t → rbt BLACK n s1 → rbt BLACK n y → rbpath BLACK (S n) path →
  ∃ x', fix_left (t, Frame d1 RED k1 v1 s1 :: Frame LeftOf BLACK k2 v2 y :: path) = Ok x' ∧
    rbt RED n (fst x') ∧ rbpath RED n (snd x') ∧
    (∃ f, snd x' = f :: path ∧ fcol f = BLACK) ∧
    entries x' = entries (t, Frame d1 RED k1 v1 s1 :: Frame LeftOf BLACK k2 v2 y :: path).
Proof.
  intros Ht Hs1 Hy Hp. inversion Ht; subst.
  unfold fix_left, entries. destruct d1; simpl; eexists; (split; [done|]);
    rewrite !inorder_plug; norm_app; split_and!; eauto 10 with rb.
Qed.

Lemma fix_right_spec n d1 k1 v1 s1 k2 v2 y t path :
  rbt RED n t → rbt BLACK n s1 → rbt BLACK n y → rbpath BLACK (S n) path →
  ∃ x', fix_right (t, Frame d1 RED k1 v1 s1 :: Frame RightOf BLACK k2 v2 y :: path) = Ok x' ∧
    rbt RED n (fst x') ∧ rbpath RED n (snd x') ∧
    (∃ f, snd x' = f :: path ∧ fcol f = BLACK) ∧
    entries x' = entries (t, Frame d1 RED k1 v1 s1 :: Frame RightOf BLACK k2 v2 y :: path).
Proof.
  intros Ht Hs1 Hy Hp. inversion Ht; subst.
  unfold fix_right, entries. destruct d1; simpl; eexists; (split; [done|]);
    rewrite !inorder_plug; norm_app; split_and!; eauto 10 with rb.
Qed.

Lemma red_spec c n t : rbt c n t → red t = match c with RED => true | BLACK => false end.
Proof. by destruct 1. Qed.

Lemma rebalance_loop_spec fuel n x :
  one_red n x → (length (snd x) < fuel)%nat →
  ∃ x' n', rebalance_loop fuel x = Ok x' ∧ rbt RED n' (fst x') ∧
    (snd x' = [] ∨ rbpath RED n' (snd x')) ∧ entries x' = entries x.
Proof.
  revert n x. induction fuel as [|fuel IH]; intros n [t path] [Ht Hp] Hf; simpl in *; [lia|].
  inversion Hp as [|? d k v s rest Hs Hrest|c c' ? d k v s rest Hs Hrest]; subst.
  - exists (t, []), n. naive_solver.
  - inversion Hrest as [| |? c' ? d' k' v' y path' Hy Hp']; subst. simpl in *.
    rewrite (red_spec _ _ _ Hy). destruct c'.
    + destruct (recolour_spec n d k v s d' k' v' y t path') as (x' & -> & Hx' & Hlen & He); [done..|].
      simpl. destruct (IH (S n) x' Hx') as (x'' & n' & -> & ? & ? & He'); [rewrite Hlen; lia|].
      exists x'', n'. rewrite He', He. done.
    + assert (∃ x', match d' with LeftOf => fix_left | RightOf => fix_right end
          (t, Frame d RED k v s :: Frame d' BLACK k' v' y :: path') = Ok x' ∧
          rbt RED n (fst x') ∧ rbpath RED n (snd x') ∧
          (∃ f, snd x' = f :: path' ∧ fcol f = BLACK) ∧
          entries x' = entries (t, Frame d RED k v s :: Frame d' BLACK k' v' y :: path'))
        as (x' & Hfix & Hx' & Hpx & (f & Hsn & Hfc) & He).
      { destruct d'; eauto using fix_left_spec, fix_right_spec. }
      exists x', n. split; [|naive_solver].
      replace (match d' with LeftOf => fix_left _ | RightOf => fix_right _ end)
        with (Ok x') by (by destruct d').
      simpl. destruct fuel; [lia|]. simpl. rewrite Hsn.
      destruct f as [? [] ? ? ?]; [done|]. done.
  - exists (t, Frame d BLACK k v s :: rest), n. split; [done|]. split; [done|].
    split; [|done]. right. simpl. eauto with rb.
Qed.

Lemma paint_black_spec c n t :
  rbt c n t → t ≠ Null → ∃ t' n', paint BLACK t = Ok t' ∧ rbt BLACK n' t' ∧ inorder t' = inorder t.
Proof. destruct 1; [done|..]; intros _; simpl; eauto 8 with rb. Qed.

Lemma rebalance_insert_spec k v path :
  rbpath BLACK 0 path →
  ∃ t' n', rebalance_insert (MapNode RED Null k v Null, path) = Ok t' ∧ rbt BLACK n' t' ∧
    inorder t' = ctx_left path ++ (k, v) :: ctx_right path.
Proof.
  intros Hp. unfold rebalance_insert, at_node. cbn [mbind result_bind fst snd paint].
  destruct (rebalance_loop_spec (S (length path)) 0 (MapNode RED Null k v Null, path))
    as (x' & n' & -> & Hx & Hpx & He); [split; simpl; eauto with rb|simpl; lia|].
  assert (∃ c n, rbt c n (plug (fst x') (snd x'))) as (c & n & Hpl).
  { destruct Hpx as [->|Hpx]; [eauto|]. edestruct plug_balanced; eauto. }
  assert (inorder (plug (fst x') (snd x')) = ctx_left path ++ (k, v) :: ctx_right path) as Hio.
  { unfold entries in He. rewrite He. simpl. rewrite inorder_plug. done. }
  simpl. destruct (paint_black_spec _ _ _ Hpl) as (t' & n'' & -> & ? & Hi).
  - intros E. rewrite E in Hio. simpl in Hio. by destruct (ctx_left path).
  - exists t', n''. by rewrite Hi.
Qed.

(** ** Search *)

Definition sorted_entries (l : list (Z * V)) : Prop := StronglySorted Z.lt l.*1.

Lemma sorted_app l1 l2 :
  sorted_entries (l1 ++ l2) ↔
    (∀ p1 p2, p1 ∈ l1 → p2 ∈ l2 → p1.1 < p2.1) ∧ sorted_entries l1 ∧ sorted_entries l2.
Proof.
  unfold sorted_entries. rewrite fmap_app, StronglySorted_app.
  setoid_rewrite list_elem_of_fmap. naive_solver.
Qed.

Lemma sorted_cons p l :
  sorted_entries (p :: l) ↔ (∀ q, q ∈ l → p.1 < q.1) ∧ sorted_entries l.
Proof.
  unfold sorted_entries. rewrite fmap_cons, StronglySorted_cons, Forall_fmap, Forall_forall.
  naive_solver.
Qed.

Lemma sorted_NoDup l : sorted_entries l → NoDup l.*1.
Proof.
  induction l as [|p l IH]; [constructor|]. rewrite sorted_cons. intros [Hp Hl].
  simpl. constructor; [|by apply IH].
  intros [q [E Hq]]%list_elem_of_fmap. specialize (Hp q Hq). lia.
Qed.

Lemma lookup_notin (l : list (Z * V)) k :
  (∀ p, p ∈ l → p.1 ≠ k) → (list_to_map l : gmap Z V) !! k = None.
Proof.
  intros Hl. apply not_elem_of_list_to_map_1.
  intros [p [-> Hp]]%list_elem_of_fmap. by apply (Hl p).
Qed.

Lemma tree_find_spec t key :
  sorted_entries (inorder t) → tree_find t key = tree_map t !! key.
Proof.
  unfold tree_map. induction t as [|c l IHl k v r IHr]; simpl; [done|].
  rewrite sorted_app, sorted_cons. intros (Hlr & Hl & Hr & Hsr).
  rewrite list_to_map_app. simpl.
  destruct (Z.ltb_spec key k); [|destruct (Z.ltb_spec k key)].
  - rewrite IHl by done. rewrite lookup_union_l; [done|].
    rewrite lookup_insert_ne by lia. apply lookup_notin.
    intros p Hp. specialize (Hr p Hp). simpl in Hr. lia.
  - rewrite IHr by done. rewrite lookup_union_r.
    + by rewrite lookup_insert_ne by lia.
    + apply lookup_notin. intros p Hp.
      specialize (Hlr p (k, v) Hp). simpl in Hlr. set_solver by lia.
  - assert (key = k) as -> by lia. rewrite lookup_union_r; [by rewrite lookup_insert_eq|].
    apply lookup_notin. intros p Hp.
    specialize (Hlr p (k, v) Hp). simpl in Hlr. set_solver by lia.
Qed.

(** ** Insertion *)

(** Where [descend] stops: at the key, or above the empty place for it. *)
Definition stop_at key t : Prop :=
  match t with
  | Null => False
  | MapNode _ l k _ r =>
      key = k ∨ (key < k ∧ l = Null) ∨ (k < key ∧ r = Null)
  end.

Lemma descend_spec key t path :
  t ≠ Null →
  (∀ p, p ∈ ctx_left path → p.1 < key) → (∀ p, p ∈ ctx_right path → key < p.1) →
  sorted_entries (inorder t) →
  let x := descend key t path in
  plug (fst x) (snd x) = plug t path ∧ stop_at key (fst x) ∧
  (∀ p, p ∈ ctx_left (snd x) → p.1 < key) ∧ (∀ p, p ∈ ctx_right (snd x) → key < p.1) ∧
  sorted_entries (inorder (fst x)).
Proof.
  revert path. induction t as [|c l IHl k v r IHr]; intros path Hnn Hcl Hcr Hs; [done|].
  pose proof Hs as Hs'. simpl in Hs. rewrite sorted_app, sorted_cons in Hs.
  destruct Hs as (Hlr & Hl & Hr & Hsr). cbn [descend].
  destruct (Z.ltb_spec key k); [|destruct (Z.ltb_spec k key)].
  - destruct l as [|c1 l1 k1 v1 r1] eqn:El; [by simpl; auto 10|]. rewrite <- El in *.
    destruct (IHl (Frame LeftOf c k v r :: path)) as (H1 & H2 & H3 & H4 & H5);
      [by subst|..]; simpl; try done.
    + intros p. rewrite app_nil_r. apply Hcl.
    + intros p [->|[Hp|Hp]%elem_of_app]%elem_of_cons; simpl; [lia| |by apply Hcr].
      specialize (Hr p Hp). simpl in Hr. lia.
  - destruct r as [|c1 l1 k1 v1 r1] eqn:Er; [by simpl; auto 10|]. rewrite <- Er in *.
    destruct (IHr (Frame RightOf c k v l :: path)) as (H1 & H2 & H3 & H4 & H5);
      [by subst|..]; simpl; try done.
    intros p [Hp|[Hp|Hp]%elem_of_app]%elem_of_app; [by apply Hcl| |].
    + specialize (Hlr p (k, v) Hp). simpl in Hlr. set_solver by lia.
    + apply list_elem_of_singleton in Hp as ->. simpl. lia.
  - simpl. split_and!; try done. left. lia.
Qed.

Definition wf m : Prop :=
  sorted_entries (inorder (root m)) ∧ (∃ n, rbt BLACK n (root m)) ∧
  mcount m = u32 (Z.of_nat (size (map_of m))).

Lemma size_tree_map t : sorted_entries (inorder t) → size (tree_map t) = length (inorder t).
Proof.
  intros Hs. unfold tree_map. rewrite <- size_dom, dom_list_to_map_L.
  rewrite size_list_to_set by (by apply sorted_NoDup). apply length_fmap.
Qed.

(** Replacing or adding one entry between two sorted halves. *)
Lemma tree_map_mid t t' L R k (v : V) (mid : list (Z * V)) :
  inorder t = L ++ mid ++ R → inorder t' = L ++ (k, v) :: R →
  (mid = [] ∨ ∃ v0, mid = [(k, v0)]) →
  (∀ p, p ∈ L → p.1 < k) → (∀ p, p ∈ R → k < p.1) → sorted_entries (inorder t) →
  sorted_entries (inorder t') ∧ tree_map t' = <[k := v]> (tree_map t).
Proof.
  intros Et Et' Hmid HL HR Hs. rewrite Et in Hs. apply sorted_app in Hs as (HLR & HsL & HsR).
  apply sorted_app in HsR as (_ & _ & HsR).
  assert (sorted_entries (inorder t')) as Hs'.
  { rewrite Et', sorted_app, sorted_cons. split_and!; try done.
    intros p1 p2 H1 [->|H2]%elem_of_cons; [by apply HL|].
    specialize (HL p1 H1). specialize (HR p2 H2). lia. }
  split; [done|]. unfold tree_map.
  rewrite (list_to_map_proper (inorder t') ((k, v) :: L ++ R)).
  - rewrite Et. simpl. destruct Hmid as [->|[v0 ->]]; [done|]. simpl.
    rewrite !list_to_map_app. simpl.
    rewrite <- insert_union_r, insert_insert_eq; [done|].
    apply lookup_notin. intros p Hp. specialize (HL p Hp). lia.
  - by apply sorted_NoDup.
  - rewrite Et'. symmetry. apply Permutation_middle.
Qed.

Lemma u32_succ_nat (n : nat) : u32 (u32 (Z.of_nat n) + 1) = u32 (Z.of_nat (S n)).
Proof. unfold wrap. rewrite Zplus_mod_idemp_l. f_equal. lia. Qed.

(** The place below [descend]'s node where [add] hangs the new node. *)
Lemma attach_bounds key c l k v r path :
  let f := if key <? k then Frame LeftOf c k v r else Frame RightOf c k v l in
  stop_at key (MapNode c l k v r) → key ≠ k → sorted_entries (inorder (MapNode c l k v r)) →
  (∀ p, p ∈ ctx_left path → p.1 < key) → (∀ p, p ∈ ctx_right path → key < p.1) →
  plug Null (f :: path) = plug (MapNode c l k v r) path ∧
  (∀ p, p ∈ ctx_left (f :: path) → p.1 < key) ∧ (∀ p, p ∈ ctx_right (f :: path) → key < p.1).
Proof.
  simpl. rewrite sorted_app, sorted_cons. intros Hstop Hne (Hlr & _ & Hkr & _) HL HR.
  destruct Hstop as [?|[[? ->]|[? ->]]]; [done|..];
    destruct (Z.ltb_spec key k); try lia; simpl; (split; [done|]);
    rewrite ?app_nil_r; split; intros p; [apply HL| | |apply HR].
  - intros [->|[Hp|Hp]%elem_of_app]%elem_of_cons; simpl; [lia| |by apply HR].
    specialize (Hkr p Hp). simpl in Hkr. lia.
  - intros [Hp|[Hp|Hp]%elem_of_app]%elem_of_app; [by apply HL| |].
    + specialize (Hlr p (k, v) Hp). simpl in Hlr. set_solver by lia.
    + apply list_elem_of_singleton in Hp as ->. simpl. lia.
Qed.

Lemma add_update m c l k v value r path :
  wf m → plug (MapNode c l k v r) path = root m →
  sorted_entries (inorder (MapNode c l k v r)) →
  (∀ p, p ∈ ctx_left path → p.1 < k) → (∀ p, p ∈ ctx_right path → k < p.1) →
  let m' := MkMap (plug (MapNode c l k value r) path) (mcount m) in
  wf m' ∧ map_of m' = <[k := value]> (map_of m).
Proof.
  intros (Hs & (n & Hb) & Hc) Hpl Hsf HL HR m'.
  pose proof (inorder_plug (MapNode c l k v r) path) as Hio. rewrite Hpl in Hio.
  simpl in Hsf. rewrite sorted_app, sorted_cons in Hsf. destruct Hsf as (Hlr & _ & Hkr & _).
  destruct (tree_map_mid (root m) (root m')
    (ctx_left path ++ inorder l) (inorder r ++ ctx_right path) k value [(k, v)]) as [Hs' Hm'].
  - rewrite Hio. norm_app. done.
  - unfold m'. simpl. rewrite inorder_plug. norm_app. done.
  - eauto.
  - intros p [Hp|Hp]%elem_of_app; [by apply HL|]. specialize (Hlr p (k, v) Hp). set_solver.
  - intros p [Hp|Hp]%elem_of_app; [by apply Hkr|by apply HR].
  - done.
  - split; [|done]. split_and!; [done| |].
    + rewrite <- Hpl in Hb. apply plug_balanced_inv in Hb as (c' & n' & Ht & Hp).
      apply (plug_balanced c' n'); [done|]. inversion Ht; subst; eauto with rb.
    + unfold map_of in *. rewrite Hm'. simpl. rewrite Hc. do 2 f_equal.
      symmetry. apply map_size_insert_Some. exists v.
      unfold tree_map. apply elem_of_list_to_map; [by apply sorted_NoDup|].
      rewrite Hio. simpl. set_solver.
Qed.

Lemma add_new m key value f path :
  wf m → plug Null (f :: path) = root m →
  (∀ p, p ∈ ctx_left (f :: path) → p.1 < key) → (∀ p, p ∈ ctx_right (f :: path) → key < p.1) →
  ∃ root', rebalance_insert (MapNode RED Null key value Null, f :: path) = Ok root' ∧
    let m' := MkMap root' (u32 (mcount m + 1)) in
    wf m' ∧ map_of m' = <[key := value]> (map_of m).
Proof.
  intros (Hs & (n & Hb) & Hc) Hroot HL HR.
  rewrite <- Hroot in Hb. apply plug_balanced_inv in Hb as (c' & n' & Ht & Hp).
  inversion Ht; subst c' n'.
  destruct (rebalance_insert_spec key value (f :: path) Hp) as (t' & n' & -> & Hb' & Hio').
  pose proof (inorder_plug Null (f :: path)) as Hio2. rewrite Hroot in Hio2.
  destruct (tree_map_mid (root m) t' (ctx_left (f :: path)) (ctx_right (f :: path)) key value [])
    as [Hs' Hm']; [done..|by left|done|done|done|].
  exists t'. split; [done|]. split; [|done]. split_and!; simpl; [done|eauto|].
  unfold map_of. simpl. rewrite Hm', Hc, map_size_insert_None.
  - apply u32_succ_nat.
  - unfold tree_map. rewrite Hio2. apply lookup_notin. cbn [inorder app].
    intros p [Hp'|Hp']%elem_of_app; [specialize (HL p Hp')|specialize (HR p Hp')]; lia.
Qed.

Lemma add_spec m key value :
  wf m → ∃ m', add m key value = Ok m' ∧ wf m' ∧ map_of m' = <[key := value]> (map_of m).
Proof.
  intros Hwf. pose proof Hwf as (Hs & _ & Hc). unfold add.
  assert (root m = Null ∨ root m ≠ Null) as [E|Hnn] by (destruct (root m); [by left|by right]).
  { rewrite E. simpl. eexists. split; [done|]. unfold wf, map_of, tree_map in *. simpl.
    rewrite Hc, E. split; [|done]. split_and!; [|eauto with rb|].
    2: { simpl. by rewrite insert_empty, map_size_singleton. }
    apply sorted_cons. split; [set_solver|apply SSorted_nil]. }
  destruct (descend_spec key (root m) [] Hnn) as (Hpl & Hstop & HL & HR & Hsf);
    [simpl; set_solver..|done|].
  destruct (descend key (root m) []) as [[|c l k v r] path]; [done|]. cbn [fst snd plug] in *.
  destruct (Z.eqb_spec key k) as [->|Hne].
  - destruct (add_update m c l k v value r path) as [Hwf' Hm']; [done..|]. eauto.
  - destruct (attach_bounds key c l k v r path Hstop Hne Hsf HL HR) as (Hf & HL' & HR').
    destruct (add_new m key value _ path Hwf (eq_trans Hf Hpl) HL' HR') as (t' & -> & ? & ?).
    simpl. eauto.
Qed.

(** ** Iteration and height *)

Lemma enqueue_node_entries q t :
  concat (inorder <$> enqueue_node q t) = concat (inorder <$> q) ++ inorder t.
Proof.
  destruct t; simpl; [by rewrite app_nil_r|].
  rewrite fmap_app, concat_app. simpl. by rewrite app_nil_r.
Qed.

Lemma enqueue_node_size q t :
  sum_list (tree_size <$> enqueue_node q t) = (sum_list (tree_size <$> q) + tree_size t)%nat.
Proof.
  destruct t; cbn [enqueue_node tree_size]; [lia|].
  rewrite fmap_app, sum_list_with_app. simpl. lia.
Qed.

Lemma enqueue_node_nonnull q t : Null ∉ q → Null ∉ enqueue_node q t.
Proof. destruct t; set_solver. Qed.

Lemma iter_from_spec fuel q :
  Null ∉ q → (sum_list (tree_size <$> q) < fuel)%nat →
  ∃ xs, iter_from fuel q = Ok xs ∧ xs ≡ₚ concat (inorder <$> q).
Proof.
  revert q. induction fuel as [|fuel IH]; intros q Hq Hf; [lia|].
  destruct q as [|[|c l k v r] q]; simpl in *; [by exists []|set_solver|].
  destruct (IH (enqueue_node (enqueue_node q l) r)) as (xs & -> & Hxs).
  - do 2 apply enqueue_node_nonnull. set_solver.
  - rewrite !enqueue_node_size.
    change (S (tree_size l + tree_size r) + sum_list (tree_size <$> q) < S fuel)%nat in Hf. lia.
  - exists ((k, v) :: xs). split; [done|]. rewrite Hxs, !enqueue_node_entries. simpl.
    solve_Permutation.
Qed.

Fixpoint height t : nat :=
  match t with Null => O | MapNode _ l _ _ r => S (max (height l) (height r)) end.

Lemma rbt_height c n t :
  rbt c n t → (height t ≤ 2 * n + match c with RED => 1 | BLACK => 0 end)%nat.
Proof. induction 1; simpl in *; repeat case_match; lia. Qed.

Lemma rbt_size c n t : rbt c n t → (2 ^ n ≤ S (length (inorder t)))%nat.
Proof. induction 1; simpl in *; rewrite ?length_app; simpl; lia. Qed.

Lemma try_get_value_spec m key : wf m → try_get_value m key = map_of m !! key.
Proof. intros (Hs & _). by apply tree_find_spec. Qed.

Lemma contains_key_spec m key :
  wf m → contains_key m key = bool_decide (is_Some (map_of m !! key)).
Proof. intros (Hs & _). unfold contains_key. by rewrite tree_find_spec. Qed.

Lemma get_value_spec m key : wf m → get_value m key = get Uninitialised (map_of m !! key).
Proof. intros (Hs & _). unfold get_value. by rewrite tree_find_spec. Qed.

Lemma iterate_map_spec m :
  wf m → ∃ xs, iterate_map m = Ok xs ∧ xs ≡ₚ map_to_list (map_of m).
Proof.
  intros (Hs & _). unfold iterate_map.
  destruct (iter_from_spec (S (tree_size (root m))) (enqueue_node [] (root m))) as (xs & -> & Hxs).
  - apply enqueue_node_nonnull. set_solver.
  - rewrite enqueue_node_size. simpl. lia.
  - exists xs. split; [done|]. rewrite Hxs, enqueue_node_entries. simpl.
    unfold map_of, tree_map. by rewrite map_to_list_to_map by (by apply sorted_NoDup).
Qed.

Lemma wf_height m :
  wf m → (2 ^ ((height (root m) + 1) / 2) ≤ S (size (map_of m)))%nat.
Proof.
  intros (Hs & (n & Hb) & _). unfold map_of. rewrite size_tree_map by done.
  pose proof (rbt_height _ _ _ Hb). pose proof (rbt_size _ _ _ Hb).
  apply Nat.le_trans with (2 ^ n)%nat; [|done]. apply Nat.pow_le_mono_r; [done|].
  apply Nat.lt_succ_r, Nat.Div0.div_lt_upper_bound. simpl in *. lia.
Qed.

Lemma wf_empty : wf empty_map ∧ map_of empty_map = ∅.
Proof. split; [|done]. split_and!; [apply SSorted_nil|eauto with rb|done]. Qed.

(** The map after a history of [add] calls on a fresh map. *)
Definition add_all (kvs : list (Z * V)) : result (Map V) :=
  foldl (λ acc kv, m ← acc; add m kv.1 kv.2) (Ok empty_map) kvs.

Lemma add_all_spec kvs :
  ∃ m, add_all kvs = Ok m ∧ wf m ∧ map_of m = foldl (λ g kv, <[kv.1 := kv.2]> g) ∅ kvs.
Proof.
  unfold add_all. generalize (proj1 wf_empty), (proj2 wf_empty).
  generalize (empty_map : Map V), (∅ : gmap Z V).
  induction kvs as [|[k v] kvs IH]; intros m g Hwf Hg; simpl; [eauto|].
  destruct (add_spec m k v Hwf) as (m' & -> & Hwf' & Hm'). apply IH; congruence.
Qed.

(** ** Properties *)

(** C12. [Map::add] on a well-formed red-black map never dereferences NULL
    and its rebalancing loop terminates; it returns a well-formed map (keys
    in search order, no red node with a red child, equal black heights, black
    root, [_count] equal to the number of keys) that maps [key] to [value]
    and every other key as before. *)
Theorem map_add_correct m key value :
  wf m →
  ∃ m', add m key value = Ok m' ∧ wf m' ∧ map_of m' = <[key := value]> (map_of m).
Proof. apply add_spec. Qed.

(** After any history of [add] calls on a fresh map no call has faulted;
    every lookup returns the value added last for its key (and [get_value]
    faults exactly on the missing keys); iterating visits every entry exactly
    once; and the tree is balanced, its height at most twice the binary
    logarithm of the number of keys plus one. *)
Theorem map_history_correct kvs :
  ∃ m, add_all kvs = Ok m ∧
    let g := foldl (λ g kv, <[kv.1 := kv.2]> g) (∅ : gmap Z V) kvs in
    (∀ key, try_get_value m key = g !! key ∧
            contains_key m key = bool_decide (is_Some (g !! key)) ∧
            get_value m key = get Uninitialised (g !! key)) ∧
    (∃ xs, iterate_map m = Ok xs ∧ xs ≡ₚ map_to_list g) ∧
    mcount m = u32 (Z.of_nat (size g)) ∧
    (2 ^ ((height (root m) + 1) / 2) ≤ S (size g))%nat.
Proof.
  destruct (add_all_spec kvs) as (m & Hrun & Hwf & Hm). exists m. split; [done|].
  intros g. fold g in Hm. rewrite <- Hm. split_and!.
  - intros key. by rewrite try_get_value_spec, contains_key_spec, get_value_spec.
  - by apply iterate_map_spec.
  - apply Hwf.
  - by apply wf_height.
Qed.
End map_proofs.
Arguments wf : simpl never.

Lemma map_add_correct_witness :
  ∃ m' : Map Z, add (MkMap (MapNode BLACK Null 5 50 Null) 1) 3 30 = Ok m' ∧ wf m' ∧
    map_of m' !! 3 = Some 30 ∧ map_of m' !! 5 = Some 50.
Proof.
  destruct (map_add_correct (MkMap (MapNode BLACK Null 5 50 Null) 1) 3 30) as (m' & H1 & H2 & H3).
  - split; [|split].
    + apply sorted_cons. split; [set_solver|apply Sorted.SSorted_nil].
    + exists 1%nat. by repeat econstructor.
    + reflexivity.
  - exists m'. split; [exact H1|]. split; [exact H2|]. rewrite H3. split; reflexivity.
Defined.
