(* ===== verification/PageAlloc.v ===== *)
(** * Physical page allocation

    mm/page-allocator.cpp, mm/simple-page-alloc.cpp and the page descriptor
    accessors of include/infos/mm/page-allocator.h.  The allocator is written
    against the abstract class [PageAllocatorAlgorithm]; so is the model, which
    takes the algorithm through a type class, with the promises the allocator
    relies on as a second class that [SimplePageAllocator] discharges. *)

From S2P Require Import Prelude Define.
Local Open Scope Z_scope.

(** ** Page descriptors *)

Inductive PageDescriptorType := INVALID | RESERVED | AVAILABLE | ALLOCATED.

#[export] Instance PageDescriptorType_eq_dec : EqDecision PageDescriptorType.
Proof. solve_decision. Defined.

(** A descriptor pointer is the index of the descriptor in the array. *)
Record PageDescriptor := MkPD {
  next_free : option Z; prev_free : option Z; type : PageDescriptorType }.

#[export] Instance PageDescriptor_eq_dec : EqDecision PageDescriptor.
Proof. solve_decision. Defined.

Definition sizeof_PageDescriptor : Z := 32.

Abbreviation pages := (list PageDescriptor).

Definition set_type (i : Z) (ty : PageDescriptorType) (pds : pages) : result pages :=
  d ← rd pds i; wr pds i (MkPD (next_free d) (prev_free d) ty).

(** ** The algorithm interface *)

Class PageAllocatorAlgorithm (A : Type) := {
  alg_init : A → pages → Z → result (bool * A);
  insert_page_range : A → pages → Z → Z → result (A * pages);
  remove_page_range : A → pages → Z → Z → result (A * pages);
  allocate_pages : A → pages → Z → result (option Z * A * pages);
  free_pages_alg : A → pages → Z → Z → result (A * pages);
}.

(** ** SimplePageAllocator *)

(** The descriptors are the allocator's own array, so the algorithm keeps only
    their number. *)
Record SimplePageAllocator := MkSimple { nr_pgds : Z }.

(** [1 << order] on [int]. *)
Definition pages_of_order (order : Z) : result Z :=
  if (0 <=? order) && (order <=? 30) then Ok (Z.shiftl 1 order) else Err UndefinedShift.

(** [1u << order]. *)
Definition upages_of_order (order : Z) : result Z :=
  if (0 <=? order) && (order <=? 31) then Ok (Z.shiftl 1 order) else Err UndefinedShift.

(** The inner loop: the first page of [subidx ..] that is not available, among
    the next [n]. *)
Fixpoint simple_inner (n : nat) (pds : pages) (subidx : Z) : result (option Z) :=
  match n with
  | O => Ok None
  | S n' =>
      d ← rd pds subidx;
      if bool_decide (type d = AVAILABLE) then simple_inner n' pds (subidx + 1)
      else Ok (Some subidx)
  end.

(** The outer loop: a failed attempt continues after the page that failed it. *)
Fixpoint simple_outer (fuel : nat) (pds : pages) (nr_pages nr_pgds idx : Z)
    : result (option Z) :=
  match fuel with
  | O => Err Hang
  | S fuel' =>
      if idx <? nr_pgds then
        bad ← simple_inner (Z.to_nat nr_pages) pds idx;
        match bad with
        | None => Ok (Some idx)
        | Some j => simple_outer fuel' pds nr_pages nr_pgds (j + 1)
        end
      else Ok None
  end.

Definition simple_allocate_pages (a : SimplePageAllocator) (pds : pages) (order : Z)
    : result (option Z * SimplePageAllocator * pages) :=
  n ← pages_of_order order;
  r ← simple_outer (S (Z.to_nat (nr_pgds a))) pds n (nr_pgds a) 0;
  Ok (r, a, pds).

(** Only the assertion that the pages are allocated. *)
Definition simple_free_pages (a : SimplePageAllocator) (pds : pages) (pgd order : Z)
    : result (SimplePageAllocator * pages) :=
  n ← upages_of_order order;
  pds ← for_range 0 n (λ i pds,
    d ← rd pds (pgd + i); _ ← cassert (bool_decide (type d = ALLOCATED)); Ok pds) pds;
  Ok (a, pds).

Definition simple_init (a : SimplePageAllocator) (pds : pages) (nr : Z)
    : result (bool * SimplePageAllocator) := Ok (true, MkSimple nr).

(** [insert_page_range] and [remove_page_range] only write a log message. *)
Definition simple_insert_page_range (a : SimplePageAllocator) (pds : pages) (start count : Z)
    : result (SimplePageAllocator * pages) := Ok (a, pds).

Definition simple_remove_page_range (a : SimplePageAllocator) (pds : pages) (start count : Z)
    : result (SimplePageAllocator * pages) := Ok (a, pds).

#[export] Instance simple_algorithm : PageAllocatorAlgorithm SimplePageAllocator := {|
  alg_init := simple_init;
  insert_page_range := simple_insert_page_range;
  remove_page_range := simple_remove_page_range;
  allocate_pages := simple_allocate_pages;
  free_pages_alg := simple_free_pages;
|}.

(** ** Physical memory blocks (mm/mm.cpp) *)

Inductive MemoryType := NORMAL | UNUSABLE.

#[export] Instance MemoryType_eq_dec : EqDecision MemoryType.
Proof. solve_decision. Defined.

Record PhysicalMemoryBlock := MkPMB {
  base_address : Z; base_pfn : Z; nr_pages_of : Z; mtype : MemoryType }.

(** [_nr_phys_mem_blocks] is the length of the list, at most 16. *)
Record MemoryManager := MkMM { last_pfn : Z; phys_mem_blocks : list PhysicalMemoryBlock }.

Definition max_blocks : nat := 16.

(** [nr_pages * _page_size]: a 32-bit product. *)
Definition block_bytes (nr_pages : Z) : Z := u32 (nr_pages * 0x1000).

Definition add_physical_memory (mm : MemoryManager) (addr nr_pages : Z) (ty : MemoryType)
    : MemoryManager :=
  if nr_pages =? 0 then mm
  else if (max_blocks <=? length (phys_mem_blocks mm))%nat then mm
  else
    let blocks := phys_mem_blocks mm ++ [MkPMB addr (Z.shiftr addr 12) nr_pages ty] in
    if bool_decide (ty = NORMAL) then
      let last := u64 (Z.shiftr (u64 (addr + block_bytes nr_pages)) 12 - 1) in
      MkMM (if last_pfn mm <? last then last else last_pfn mm) blocks
    else MkMM (last_pfn mm) blocks.

Definition lookup_phys_block (mm : MemoryManager) (addr : Z) : option PhysicalMemoryBlock :=
  head (filter (λ b, base_address b ≤ addr ∧
                     addr < u64 (base_address b + block_bytes (nr_pages_of b)))
               (phys_mem_blocks mm)).

(** ** PageAllocator *)

Record PageAllocator (A : Type) := MkPA {
  nr_pages : Z; page_descriptors : pages; algorithm : option A }.
Arguments MkPA {A} _ _ _.
Arguments nr_pages {A} _.
Arguments page_descriptors {A} _.
Arguments algorithm {A} _.

(** The loop of [alloc_pages] and [free_pages]: check each page's old type and
    give it the new one.  The pointer [base] is NULL when there is none. *)
Definition mark_pages (base : option Z) (n : Z) (old new : PageDescriptorType) (pds : pages)
    : result pages :=
  for_range 0 n (λ i pds,
    b ← get NullDeref base;
    d ← rd pds (b + i);
    _ ← cassert (bool_decide (type d = old));
    set_type (b + i) new pds) pds.

Section allocator.
Context {A : Type} `{PageAllocatorAlgorithm A}.

Definition alloc_pages (pa : PageAllocator A) (order : Z) : result (option Z * PageAllocator A) :=
  match algorithm pa with
  | None => Ok (None, pa)
  | Some a =>
      '(pgd, a, pds) ← allocate_pages a (page_descriptors pa) order;
      n ← upages_of_order order;
      pds ← mark_pages pgd n AVAILABLE ALLOCATED pds;
      Ok (pgd, MkPA (nr_pages pa) pds (Some a))
  end.

Definition free_pages (pa : PageAllocator A) (pgd order : Z) : result (PageAllocator A) :=
  match algorithm pa with
  | None => Ok pa
  | Some a =>
      '(a, pds) ← free_pages_alg a (page_descriptors pa) pgd order;
      n ← upages_of_order order;
      pds ← mark_pages (Some pgd) n ALLOCATED AVAILABLE pds;
      Ok (MkPA (nr_pages pa) pds (Some a))
  end.

Definition alloc_page (pa : PageAllocator A) : result (option Z * PageAllocator A) :=
  alloc_pages pa 0.

Definition free_page (pa : PageAllocator A) (pgd : Z) : result (PageAllocator A) :=
  free_pages pa pgd 0.

(** Descriptor pointers as addresses: [base] is [_page_descriptors]. *)
Definition pgd_to_pfn (base pgd : Z) : Z := u64 (pgd - base) / sizeof_PageDescriptor.
Definition pgd_to_pa (pfn : Z) : Z := pfn_to_pa pfn.
Definition pgd_to_vpa (pfn : Z) : result Z := pa_to_vpa (pgd_to_pa pfn).
Definition pgd_to_kva (pfn : Z) : result Z := pa_to_kva (pgd_to_pa pfn).

Definition pfn_to_pgd (pa : PageAllocator A) (pfn : Z) : option Z :=
  if nr_pages pa <? pfn then None else Some pfn.

Definition vpa_to_pgd (pa : PageAllocator A) (addr : Z) : result (option Z) :=
  p ← vpa_to_pa addr; Ok (pfn_to_pgd pa (pa_to_pfn p)).

(** ** Initialisation *)

(** The linker symbols [_HEAP_START] (a virtual address) and [_IMAGE_START] (a
    physical address), and the [pgalloc.self-test] switch. *)
Context (HEAP_START IMAGE_START : Z) (do_self_test : bool).

Definition setup_page_descriptors (mm : MemoryManager) (pa : PageAllocator A)
    : result (bool * PageAllocator A) :=
  let nr := u64 (last_pfn mm + 1) in
  heap_pa ← kva_to_pa HEAP_START;
  match lookup_phys_block mm heap_pa with
  | None => Ok (false, MkPA nr (page_descriptors pa) (algorithm pa))
  | Some _ =>
      Ok (true, MkPA nr (replicate (Z.to_nat nr) (MkPD None None INVALID)) (algorithm pa))
  end.

(** Marks the pages of one memory block and hands them to the algorithm. *)
Definition insert_block (pa : PageAllocator A) (a : A) (b : PhysicalMemoryBlock)
    : result (A * PageAllocator A) :=
  if bool_decide (mtype b = NORMAL) then
    pds ← for_range (base_pfn b) (u64 (base_pfn b + nr_pages_of b))
            (λ pfn pds, set_type pfn AVAILABLE pds) (page_descriptors pa);
    '(a, pds) ← insert_page_range a pds (base_pfn b) (nr_pages_of b);
    Ok (a, MkPA (nr_pages pa) pds (Some a))
  else Ok (a, pa).

Fixpoint insert_blocks (pa : PageAllocator A) (a : A) (bs : list PhysicalMemoryBlock)
    : result (A * PageAllocator A) :=
  match bs with
  | [] => Ok (a, pa)
  | b :: bs' => '(a, pa) ← insert_block pa a b; insert_blocks pa a bs'
  end.

Definition reserve_page_range (pa : PageAllocator A) (a : A) (start n : Z)
    : result (A * PageAllocator A) :=
  pds ← for_range start (u64 (start + n)) (λ pfn pds, set_type pfn RESERVED pds)
          (page_descriptors pa);
  '(a, pds) ← remove_page_range a pds start n;
  Ok (a, MkPA (nr_pages pa) pds (Some a)).

(** Direct calls on the algorithm, as the self test makes them. *)
Definition t_alloc (s : A * pages) (order : Z) : result (option Z * (A * pages)) :=
  '(p, a, pds) ← allocate_pages (fst s) (snd s) order; Ok (p, (a, pds)).

Definition t_free (s : A * pages) (p : option Z) (order : Z) : result (A * pages) :=
  pgd ← get NullDeref p; free_pages_alg (fst s) (snd s) pgd order.

Definition self_test (pa : PageAllocator A) : result (bool * PageAllocator A) :=
  a ← get AssertFailed (algorithm pa);
  let s := (a, page_descriptors pa) in
  '(p, s) ← t_alloc s 0;
  match p with
  | None => Ok (false, MkPA (nr_pages pa) (snd s) (Some (fst s)))
  | Some _ =>
      s ← t_free s p 0;
      '(p, s) ← t_alloc s 1;
      s ← t_free s p 1;
      '(p0, s) ← t_alloc s 0;
      '(p1, s) ← t_alloc s 1;
      s ← t_free s p0 0;
      '(p2, s) ← t_alloc s 0;
      s ← t_free s p1 1;
      s ← t_free s p2 0;
      '(p00, s) ← t_alloc s 0;
      '(p01, s) ← t_alloc s 0;
      '(p02, s) ← t_alloc s 0;
      '(p03, s) ← t_alloc s 2;
      '(p04, s) ← t_alloc s 0;
      '(p05, s) ← t_alloc s 0;
      '(p06, s) ← t_alloc s 0;
      '(p07, s) ← t_alloc s 0;
      s ← t_free s p05 0;
      s ← t_free s p03 2;
      s ← t_free s p06 0;
      s ← t_free s p07 0;
      s ← t_free s p02 0;
      s ← t_free s p01 0;
      s ← t_free s p00 0;
      s ← t_free s p04 0;
      g1 ← get NullDeref (pfn_to_pgd pa 0x4d80);
      g2 ← get NullDeref (pfn_to_pgd pa 0x4d84);
      s ← remove_page_range (fst s) (snd s) g1 1;
      s ← remove_page_range (fst s) (snd s) g2 1;
      s ← t_free s (pfn_to_pgd pa 0x4d84) 0;
      s ← t_free s (pfn_to_pgd pa 0x4d80) 0;
      Ok (true, MkPA (nr_pages pa) (snd s) (Some (fst s)))
  end.

Definition init (mm : MemoryManager) (pa : PageAllocator A) : result (bool * PageAllocator A) :=
  match algorithm pa with
  | None => Ok (false, pa)
  | Some a =>
      '(ok, pa) ← setup_page_descriptors mm pa;
      if negb ok then Ok (false, pa) else
      '(ok, a) ← alg_init a (page_descriptors pa) (nr_pages pa);
      if negb ok then Ok (false, MkPA (nr_pages pa) (page_descriptors pa) (Some a)) else
      '(a, pa) ← insert_blocks (MkPA (nr_pages pa) (page_descriptors pa) (Some a)) a
                   (phys_mem_blocks mm);
      '(a, pa) ← reserve_page_range pa a 0 1;
      '(a, pa) ← reserve_page_range pa a 1 6;
      '(a, pa) ← reserve_page_range pa a (pa_to_pfn IMAGE_START)
                   (u64 (Z.shiftr (u64 (nr_pages pa * sizeof_PageDescriptor)) 12 + 1));
      if do_self_test then
        '(ok, pa) ← self_test pa;
        if negb ok then Err Aborted else Ok (true, pa)
      else Ok (true, pa)
  end.
End allocator.

(** ** Lemmas on descriptor types *)

Definition ty_at (pds : pages) (i : Z) : option PageDescriptorType :=
  if 0 <=? i then type <$> pds !! Z.to_nat i else None.

Definition links (pds : pages) : list (option Z * option Z) :=
  (λ d, (next_free d, prev_free d)) <$> pds.

Lemma ty_at_range pds i ty : ty_at pds i = Some ty → 0 ≤ i < Z.of_nat (length pds).
Proof.
  unfold ty_at. destruct (Z.leb_spec 0 i); [|done].
  destruct (pds !! Z.to_nat i) eqn:E; [|done]. intros _. apply lookup_lt_Some in E. lia.
Qed.

Lemma ty_at_total pds i : 0 ≤ i < Z.of_nat (length pds) → ∃ ty, ty_at pds i = Some ty.
Proof.
  intros Hi. unfold ty_at. rewrite (proj2 (Z.leb_le 0 i)) by lia.
  destruct (lookup_lt_is_Some_2 pds (Z.to_nat i)) as [d ->]; [lia|]. eauto.
Qed.

Lemma rd_ty pds i : 
  match ty_at pds i with
  | Some ty => ∃ d, rd pds i = Ok d ∧ type d = ty
  | None => rd pds i = Err OutOfBounds
  end.
Proof.
  unfold ty_at. destruct (Z.leb_spec 0 i).
  - destruct (pds !! Z.to_nat i) as [d|] eqn:E; simpl.
    + exists d. split; [by apply rd_Ok|done].
    + apply rd_oob. apply lookup_ge_None in E. lia.
  - apply rd_oob. lia.
Qed.

Lemma set_type_spec i ty pds :
  0 ≤ i < Z.of_nat (length pds) →
  ∃ pds', set_type i ty pds = Ok pds' ∧ links pds' = links pds ∧
    ∀ j, ty_at pds' j = if decide (j = i) then Some ty else ty_at pds j.
Proof.
  intros Hi. destruct (rd_total pds i Hi) as (d & Hrd & Hl).
  unfold set_type. rewrite Hrd. simpl. rewrite wr_total by done.
  eexists. split; [done|]. split.
  - unfold links. rewrite list_fmap_insert. apply list_insert_id.
    by rewrite list_lookup_fmap, Hl.
  - intros j. unfold ty_at. case_decide as Hj.
    + subst j. rewrite (proj2 (Z.leb_le 0 i)) by lia.
      by rewrite list_lookup_insert_eq by lia.
    + destruct (Z.leb_spec 0 j); [|done].
      by rewrite list_lookup_insert_ne by lia.
Qed.

Lemma set_type_oob i ty pds :
  ¬ (0 ≤ i < Z.of_nat (length pds)) → set_type i ty pds = Err OutOfBounds.
Proof. intros. unfold set_type. by rewrite rd_oob. Qed.

Lemma links_length pds pds' : links pds' = links pds → length pds' = length pds.
Proof. intros E. apply (f_equal length) in E. unfold links in E. by rewrite !length_fmap in E. Qed.

(** [pds'] is [pds] with the pages of [lo .. hi-1] retyped to [ty]. *)
Definition retyped (lo hi : Z) (ty : PageDescriptorType) (pds pds' : pages) : Prop :=
  links pds' = links pds ∧
  ∀ j, ty_at pds' j = if decide (lo ≤ j < hi) then Some ty else ty_at pds j.

Lemma retyped_extend lo i ty pds t t' :
  lo ≤ i → retyped lo i ty pds t → links t' = links t →
  (∀ j, ty_at t' j = if decide (j = i) then Some ty else ty_at t j) →
  retyped lo (i + 1) ty pds t'.
Proof.
  intros Hi [Hl Ht] Hl' Ht'. split; [congruence|]. intros j. rewrite Ht', Ht.
  repeat case_decide; done || lia.
Qed.

Lemma retyped_refl lo ty pds : retyped lo lo ty pds pds.
Proof. split; [done|]. intros j. rewrite decide_False by lia. done. Qed.

Lemma set_range_spec lo hi ty pds :
  0 ≤ lo ≤ hi → hi ≤ Z.of_nat (length pds) →
  ∃ pds', for_range lo hi (λ pfn pds, set_type pfn ty pds) pds = Ok pds' ∧
    retyped lo hi ty pds pds'.
Proof.
  intros Hlo Hhi.
  apply (for_range_total (λ i t, retyped lo i ty pds t)); [lia|apply retyped_refl|].
  intros j t Hj Ht. destruct (set_type_spec j ty t) as (t' & Hrun & Hl & Hty).
  - rewrite (links_length pds t) by apply Ht. lia.
  - exists t'. split; [done|]. eapply retyped_extend; eauto. lia.
Qed.

Lemma mark_pages_spec b n old new pds :
  0 ≤ b → 0 ≤ n → (∀ i, b ≤ i < b + n → ty_at pds i = Some old) →
  ∃ pds', mark_pages (Some b) n old new pds = Ok pds' ∧ retyped b (b + n) new pds pds'.
Proof.
  intros Hb Hn Hold. unfold mark_pages.
  apply (for_range_total (λ i t, retyped b (b + i) new pds t));
    [lia|rewrite Z.add_0_r; apply retyped_refl|].
  intros i t Hi Ht. simpl.
  assert (ty_at t (b + i) = Some old) as Hti.
  { destruct Ht as [_ ->]. rewrite decide_False by lia. apply Hold. lia. }
  pose proof (rd_ty t (b + i)) as Hrd. rewrite Hti in Hrd. destruct Hrd as (d & -> & Hd).
  simpl. rewrite bool_decide_eq_true_2 by done. simpl.
  destruct (set_type_spec (b + i) new t) as (t' & Hrun & Hl & Hty).
  - by eapply ty_at_range.
  - exists t'. split; [done|]. rewrite Z.add_assoc. eapply retyped_extend; eauto. lia.
Qed.

Lemma mark_pages_inv b n old new pds pds' :
  0 ≤ n → mark_pages (Some b) n old new pds = Ok pds' →
  retyped b (b + n) new pds pds' ∧ ∀ i, b ≤ i < b + n → ty_at pds i = Some old.
Proof.
  intros Hn Hrun. unfold mark_pages, for_range in Hrun.
  apply (for_n_inv (λ i t, retyped b (b + i) new pds t ∧
    ∀ j, b ≤ j < b + i → ty_at pds j = Some old)) in Hrun.
  - by replace (0 + Z.of_nat (Z.to_nat (n - 0))) with n in Hrun by lia.
  - rewrite Z.add_0_r. split; [apply retyped_refl|lia].
  - intros i t t' Hi [Ht Hold] Hb. simpl in Hb. inv_result.
    apply bool_decide_eq_true in Hb1. pose proof (rd_ty t (b + i)) as Hrd.
    destruct (ty_at t (b + i)) as [ty|] eqn:Hty; [|congruence].
    destruct Hrd as (d & Hd & <-). rewrite Hb0 in Hd. simplify_eq.
    assert (ty_at pds (b + i) = Some (type d)) as Hp.
    { destruct Ht as [_ Ht]. rewrite Ht in Hty. by rewrite decide_False in Hty by lia. }
    destruct (set_type_spec (b + i) new t) as (t2 & Hset & Hl & Hty2); [by eapply ty_at_range|].
    rewrite Hb in Hset. simplify_eq. split.
    + rewrite Z.add_assoc. eapply retyped_extend; eauto. lia.
    + intros j Hj. destruct (decide (j = b + i)) as [->|]; [done|]. apply Hold. lia.
Qed.

(** ** The simple algorithm is first fit *)

Definition available (pds : pages) (i : Z) : Prop := ty_at pds i = Some AVAILABLE.

#[export] Instance available_dec pds i : Decision (available pds i).
Proof. unfold available. apply _. Defined.

(** [n] available pages from [p] on. *)
Definition free_run (pds : pages) (n p : Z) : Prop := Forall (available pds) (seqZ p n).

#[export] Instance free_run_dec pds n p : Decision (free_run pds n p).
Proof. unfold free_run. apply _. Defined.

(** The reference: the lowest page that starts a run of [n] available pages. *)
Definition first_fit (pds : pages) (n : Z) : option Z :=
  head (filter (free_run pds n) (seqZ 0 (Z.of_nat (length pds)))).

Lemma free_run_spec pds n p : free_run pds n p ↔ ∀ i, p ≤ i < p + n → available pds i.
Proof.
  unfold free_run. rewrite Forall_forall. split.
  - intros H i Hi. apply H, elem_of_seqZ. done.
  - intros H i Hi%elem_of_seqZ. auto.
Qed.

Lemma head_filter_seqZ (P : Z → Prop) `{∀ x, Decision (P x)} m n p :
  m ≤ p < m + n → P p → (∀ q, m ≤ q < p → ¬ P q) →
  head (filter P (seqZ m n)) = Some p.
Proof.
  intros Hp HP Hno.
  replace n with ((p - m) + (n - (p - m))) by lia.
  rewrite seqZ_app, filter_app by lia.
  assert (filter P (seqZ m (p - m)) = []) as ->.
  { apply elem_of_nil_inv. intros x [Hx ?%elem_of_seqZ]%list_elem_of_filter.
    apply (Hno x); [lia|done]. }
  replace (m + (p - m)) with p by lia.
  rewrite seqZ_cons by lia. by rewrite filter_cons_True.
Qed.

Lemma head_filter_seqZ_None (P : Z → Prop) `{∀ x, Decision (P x)} m n :
  (∀ q, m ≤ q < m + n → ¬ P q) → head (filter P (seqZ m n)) = None.
Proof.
  intros Hno. replace (filter P (seqZ m n)) with (@nil Z); [done|].
  symmetry. apply elem_of_nil_inv. intros x [Hx ?%elem_of_seqZ]%list_elem_of_filter.
  by apply (Hno x).
Qed.

Lemma simple_inner_spec n pds idx :
  0 ≤ idx →
  match simple_inner n pds idx with
  | Ok None => ∀ i, idx ≤ i < idx + Z.of_nat n → available pds i
  | Ok (Some j) => idx ≤ j < idx + Z.of_nat n ∧ j < Z.of_nat (length pds) ∧ ¬ available pds j
  | Err f => f = OutOfBounds ∧ Z.of_nat (length pds) < idx + Z.of_nat n ∧
             ∀ i, idx ≤ i < Z.of_nat (length pds) → available pds i
  end.
Proof.
  revert idx. induction n as [|n IH]; intros idx Hidx; simpl; [lia|].
  pose proof (rd_ty pds idx) as Hrd. destruct (ty_at pds idx) as [ty|] eqn:Hty.
  - destruct Hrd as (d & -> & Hd). simpl. case_bool_decide as Hav.
    + assert (available pds idx) as Ha by (unfold available; congruence).
      specialize (IH (idx + 1) ltac:(lia)).
      destruct (simple_inner n pds (idx + 1)) as [[j|]|f].
      * destruct IH as (? & ? & ?). split_and!; [lia..|done].
      * intros i Hi. destruct (decide (i = idx)) as [->|]; [done|]. apply IH. lia.
      * destruct IH as (? & ? & IH). split_and!; [done|lia|].
        intros i Hi. destruct (decide (i = idx)) as [->|]; [done|]. apply IH. lia.
    + pose proof (ty_at_range _ _ _ Hty). split_and!; [lia..|].
      unfold available. congruence.
  - rewrite Hrd. simpl. split_and!; [done| |].
    + destruct (decide (Z.of_nat (length pds) ≤ idx)); [lia|].
      destruct (ty_at_total pds idx); [lia|congruence].
    + intros i Hi. destruct (ty_at_total pds idx); [lia|congruence].
Qed.

Lemma free_run_blocked pds n j q : q ≤ j < q + n → ¬ available pds j → ¬ free_run pds n q.
Proof. intros Hj Hna Hf. rewrite free_run_spec in Hf. apply Hna, Hf. lia. Qed.

Lemma free_run_range pds n p :
  0 < n → free_run pds n p → 0 ≤ p ∧ p + n ≤ Z.of_nat (length pds).
Proof.
  intros Hn Hf. rewrite free_run_spec in Hf.
  pose proof (ty_at_range _ _ _ (Hf p ltac:(lia))).
  pose proof (ty_at_range _ _ _ (Hf (p + n - 1) ltac:(lia))). lia.
Qed.

(** What the search answers, in terms of the reference. *)
Definition first_fit_answer (pds : pages) (n : Z) : result (option Z) :=
  match first_fit pds n with
  | Some p => Ok (Some p)
  | None => if decide (available pds (Z.of_nat (length pds) - 1)) then Err OutOfBounds else Ok None
  end.

Lemma simple_outer_spec fuel pds n idx :
  0 < n → 0 ≤ idx → Z.of_nat (length pds) < idx + Z.of_nat fuel →
  idx ≤ Z.of_nat (length pds) →
  (∀ q, 0 ≤ q < idx → ¬ free_run pds n q) → ¬ available pds (idx - 1) →
  simple_outer fuel pds n (Z.of_nat (length pds)) idx = first_fit_answer pds n.
Proof.
  intros Hn. revert idx.
  induction fuel as [|fuel IH]; intros idx Hidx Hfuel Hle Hno Hlast; [lia|].
  simpl. destruct (Z.ltb_spec idx (Z.of_nat (length pds))) as [Hlt|Hge].
  - pose proof (simple_inner_spec (Z.to_nat n) pds idx Hidx) as Hin.
    rewrite !Z2Nat.id in Hin by lia.
    destruct (simple_inner (Z.to_nat n) pds idx) as [[j|]|f]; simpl.
    + destruct Hin as (Hj & Hjl & Hna). apply IH; [lia..| |].
      * intros q Hq. destruct (decide (q < idx)); [apply Hno; lia|].
        apply (free_run_blocked _ _ j); [lia|done].
      * by replace (j + 1 - 1) with j by lia.
    + unfold first_fit_answer, first_fit.
      rewrite (head_filter_seqZ _ 0 _ idx); [done|lia|by apply free_run_spec|done].
    + destruct Hin as (-> & Hlen & Hav). unfold first_fit_answer, first_fit.
      rewrite head_filter_seqZ_None, decide_True; [done|apply Hav; lia|].
      intros q Hq Hf. destruct (decide (q < idx)); [by apply (Hno q); [lia|]|].
      apply free_run_range in Hf; lia.
  - assert (idx = Z.of_nat (length pds)) as -> by lia.
    unfold first_fit_answer, first_fit.
    rewrite head_filter_seqZ_None, decide_False; [done|done|]. intros q Hq. apply Hno. lia.
Qed.

Lemma shiftl_1 k : 0 ≤ k → Z.shiftl 1 k = 2 ^ k.
Proof. intros. by rewrite Z.shiftl_mul_pow2, Z.mul_1_l by done. Qed.

Lemma pages_of_order_Ok order : 0 ≤ order ≤ 30 → pages_of_order order = Ok (2 ^ order).
Proof.
  intros. unfold pages_of_order. rewrite (proj2 (andb_true_iff _ _)) by (rewrite !Z.leb_le; lia).
  by rewrite shiftl_1 by lia.
Qed.

Lemma upages_of_order_Ok order : 0 ≤ order ≤ 31 → upages_of_order order = Ok (2 ^ order).
Proof.
  intros. unfold upages_of_order. rewrite (proj2 (andb_true_iff _ _)) by (rewrite !Z.leb_le; lia).
  by rewrite shiftl_1 by lia.
Qed.

Lemma simple_allocate_spec pds order :
  0 ≤ order ≤ 30 →
  simple_allocate_pages (MkSimple (Z.of_nat (length pds))) pds order =
  r ← first_fit_answer pds (2 ^ order); Ok (r, MkSimple (Z.of_nat (length pds)), pds).
Proof.
  intros Ho. unfold simple_allocate_pages. rewrite pages_of_order_Ok by done.
  cbn -[simple_outer]. rewrite simple_outer_spec; [done|apply pow2_pos; lia|lia..| |].
  - lia.
  - intros H. apply ty_at_range in H. lia.
Qed.

(** ** What the allocator relies on *)

Definition same_types (pds pds' : pages) : Prop := ∀ i, ty_at pds' i = ty_at pds i.

(** The promises of an algorithm to [PageAllocator]: it returns only runs of
    available pages, leaves the types (which the allocator owns) alone, accepts
    a block of allocated pages back, and stays valid when the allocator retypes
    the block it has just handed out or taken back. *)
Class AlgorithmLaws (A : Type) `{PageAllocatorAlgorithm A} := {
  valid : A → pages → Prop;
  allocate_law a pds order p a' pds' :
    valid a pds → 0 ≤ order ≤ 30 → allocate_pages a pds order = Ok (Some p, a', pds') →
    free_run pds (2 ^ order) p ∧ same_types pds pds' ∧
    ∀ pds'', retyped p (p + 2 ^ order) ALLOCATED pds' pds'' → valid a' pds'';
  allocate_none_law a pds order a' pds' :
    valid a pds → 0 ≤ order ≤ 30 → allocate_pages a pds order = Ok (None, a', pds') →
    ∀ p, ¬ free_run pds (2 ^ order) p;
  free_law a pds p order :
    valid a pds → 0 ≤ order ≤ 30 →
    (∀ i, p ≤ i < p + 2 ^ order → ty_at pds i = Some ALLOCATED) →
    ∃ a' pds', free_pages_alg a pds p order = Ok (a', pds') ∧ same_types pds pds' ∧
      ∀ pds'', retyped p (p + 2 ^ order) AVAILABLE pds' pds'' → valid a' pds'';
}.

Lemma head_filter_seqZ_Some (P : Z → Prop) `{∀ x, Decision (P x)} (n : nat) m p :
  head (filter P (seqZ m (Z.of_nat n))) = Some p →
  m ≤ p ∧ P p ∧ ∀ q, m ≤ q < p → ¬ P q.
Proof.
  revert m. induction n as [|n IH]; intros m; [done|].
  rewrite seqZ_cons by lia. replace (Z.pred (Z.of_nat (S n))) with (Z.of_nat n) by lia.
  rewrite filter_cons. case_decide as HP; simpl.
  - intros. simplify_eq. split_and!; [lia|done|lia].
  - intros (? & ? & Hq)%IH. split_and!; [lia|done|]. intros q ?.
    destruct (decide (q = m)) as [->|]; [done|]. apply Hq. lia.
Qed.

Lemma first_fit_Some pds n p :
  first_fit pds n = Some p → free_run pds n p ∧ ∀ q, 0 ≤ q < p → ¬ free_run pds n q.
Proof. intros (? & ? & ?)%head_filter_seqZ_Some. done. Qed.

Lemma first_fit_None pds n p : 0 < n → first_fit pds n = None → ¬ free_run pds n p.
Proof.
  intros Hn Hh Hf. pose proof (free_run_range _ _ _ Hn Hf).
  assert (p ∈ filter (free_run pds n) (seqZ 0 (Z.of_nat (length pds)))) as Hin.
  { apply list_elem_of_filter. split; [done|]. apply elem_of_seqZ. lia. }
  unfold first_fit in Hh. by destruct (filter _ _); [apply not_elem_of_nil in Hin|].
Qed.

Lemma retyped_length lo hi ty pds pds' : retyped lo hi ty pds pds' → length pds' = length pds.
Proof. intros [Hl _]. by apply links_length. Qed.

Lemma simple_free_spec a pds p order :
  0 ≤ order ≤ 30 → (∀ i, p ≤ i < p + 2 ^ order → ty_at pds i = Some ALLOCATED) →
  simple_free_pages a pds p order = Ok (a, pds).
Proof.
  intros Ho Hall. unfold simple_free_pages. rewrite upages_of_order_Ok by lia. simpl.
  destruct (for_range_total (λ _ t, t = pds) 0 (2 ^ order) (λ i pds,
    d ← rd pds (p + i); _ ← cassert (bool_decide (type d = ALLOCATED)); Ok pds) pds)
    as (? & -> & ->); [pose proof (pow2_pos order); lia|done| |done].
  intros i t Hi ->. exists pds. split; [|done].
  pose proof (rd_ty pds (p + i)) as Hrd. rewrite Hall in Hrd by lia.
  destruct Hrd as (d & -> & Hd). simpl. by rewrite bool_decide_eq_true_2.
Qed.

#[export] Program Instance simple_laws : AlgorithmLaws SimplePageAllocator := {|
  valid a pds := nr_pgds a = Z.of_nat (length pds) |}.
Next Obligation.
  intros [nr] pds order p a' pds' Hv Ho Hal. simpl in *. subst nr.
  rewrite simple_allocate_spec in Hal by done. unfold first_fit_answer in Hal.
  destruct (first_fit pds (2 ^ order)) as [q|] eqn:Hff; [|case_decide; discriminate].
  simpl in Hal. simplify_eq. apply first_fit_Some in Hff as [Hf _].
  split_and!; [done|done|]. intros pds'' Hr. by rewrite (retyped_length _ _ _ _ _ Hr).
Qed.
Next Obligation.
  intros [nr] pds order a' pds' Hv Ho Hal p. simpl in *. subst nr.
  rewrite simple_allocate_spec in Hal by done. unfold first_fit_answer in Hal.
  destruct (first_fit pds (2 ^ order)) as [q|] eqn:Hff; [discriminate|].
  apply first_fit_None; [apply pow2_pos; lia|done].
Qed.
Next Obligation.
  intros [nr] pds p order Hv Ho Hall. simpl in *. subst nr.
  eexists _, _. split; [by apply simple_free_spec|]. split; [done|].
  intros pds'' Hr. by rewrite (retyped_length _ _ _ _ _ Hr).
Qed.

(** ** The allocator against the interface *)

Section allocator_correct.
Context {A : Type} `{AlgorithmLaws A}.
Implicit Types (pa : PageAllocator A) (live : list (Z * Z)).

(** The algorithm is installed and consistent with the descriptors. *)
Definition ready pa : Prop :=
  match algorithm pa with Some a => valid a (page_descriptors pa) | None => False end.

Lemma retyped_same_types lo hi ty pds pds1 pds2 :
  same_types pds pds1 → retyped lo hi ty pds1 pds2 →
  ∀ j, ty_at pds2 j = if decide (lo ≤ j < hi) then Some ty else ty_at pds j.
Proof. intros Hs [_ Ht] j. rewrite Ht. by case_decide. Qed.

Lemma alloc_pages_spec pa order r pa' :
  ready pa → 0 ≤ order ≤ 30 → alloc_pages pa order = Ok (r, pa') →
  ∃ p, r = Some p ∧ ready pa' ∧ nr_pages pa' = nr_pages pa ∧
    free_run (page_descriptors pa) (2 ^ order) p ∧
    ∀ j, ty_at (page_descriptors pa') j =
      if decide (p ≤ j < p + 2 ^ order) then Some ALLOCATED else ty_at (page_descriptors pa) j.
Proof.
  intros Hr Ho Hal. unfold ready, alloc_pages in *.
  destruct (algorithm pa) as [a|]; [|done]. inv_result.
  destruct a0 as [[r0 a1] pds1]. inv_result. rewrite upages_of_order_Ok in Hb0 by lia. inv_result.
  pose proof (pow2_pos order ltac:(lia)).
  destruct r as [p|].
  - destruct (allocate_law _ _ _ _ _ _ Hr Ho Hb) as (Hf & Hs & Hv).
    apply mark_pages_inv in Hb1 as [Hm _]; [|lia].
    exists p. split_and!; [done|by apply Hv|done|done|]. by eapply retyped_same_types.
  - unfold mark_pages, for_range in Hb1.
    destruct (Z.to_nat (2 ^ order - 0)) eqn:En; [lia|]. simpl in Hb1. inv_result.
Qed.

Lemma alloc_pages_total pa order a p a' pds' :
  ready pa → 0 ≤ order ≤ 30 → algorithm pa = Some a →
  allocate_pages a (page_descriptors pa) order = Ok (Some p, a', pds') →
  is_Ok (alloc_pages pa order).
Proof.
  intros Hr Ho Ha Hal. unfold ready, alloc_pages in *. rewrite Ha in *.
  destruct (allocate_law _ _ _ _ _ _ Hr Ho Hal) as (Hf & Hs & Hv).
  rewrite Hal. simpl. rewrite upages_of_order_Ok by lia. simpl.
  pose proof (pow2_pos order ltac:(lia)). pose proof (free_run_range _ _ _ ltac:(done) Hf).
  destruct (mark_pages_spec p (2 ^ order) AVAILABLE ALLOCATED pds') as (pds2 & -> & _);
    [lia..| |simpl; eexists; done].
  intros i Hi. rewrite Hs. by apply (proj1 (free_run_spec _ _ _) Hf).
Qed.

(** A failed search is not reported: the marking loop goes through the NULL
    descriptor. *)
Lemma alloc_pages_none pa order a a' pds' :
  0 ≤ order ≤ 30 → algorithm pa = Some a →
  allocate_pages a (page_descriptors pa) order = Ok (None, a', pds') →
  alloc_pages pa order = Err NullDeref.
Proof.
  intros Ho Ha Hal. unfold alloc_pages. rewrite Ha, Hal. simpl.
  rewrite upages_of_order_Ok by lia. simpl. unfold mark_pages, for_range.
  pose proof (pow2_pos order ltac:(lia)).
  destruct (Z.to_nat (2 ^ order - 0)) eqn:En; [lia|done].
Qed.

Lemma free_pages_spec pa p order :
  ready pa → 0 ≤ order ≤ 30 → 0 ≤ p →
  (∀ i, p ≤ i < p + 2 ^ order → ty_at (page_descriptors pa) i = Some ALLOCATED) →
  ∃ pa', free_pages pa p order = Ok pa' ∧ ready pa' ∧ nr_pages pa' = nr_pages pa ∧
    ∀ j, ty_at (page_descriptors pa') j =
      if decide (p ≤ j < p + 2 ^ order) then Some AVAILABLE else ty_at (page_descriptors pa) j.
Proof.
  intros Hr Ho Hp Hall. unfold ready, free_pages in *.
  destruct (algorithm pa) as [a|]; [|done].
  destruct (free_law _ _ _ _ Hr Ho Hall) as (a1 & pds1 & -> & Hs & Hv). simpl.
  rewrite upages_of_order_Ok by lia. simpl. pose proof (pow2_pos order ltac:(lia)).
  destruct (mark_pages_spec p (2 ^ order) ALLOCATED AVAILABLE pds1) as (pds2 & -> & Hm);
    [lia..| |].
  - intros i Hi. rewrite Hs. auto.
  - simpl. eexists. split_and!; [done|by apply Hv|done|]. by eapply retyped_same_types.
Qed.

(** ** Histories of allocations *)

(** The live blocks, with their orders, beside the allocator. *)
Inductive pa_step : PageAllocator A * list (Z * Z) → PageAllocator A * list (Z * Z) → Prop :=
| pa_alloc pa pa' order p live :
    0 ≤ order ≤ 30 → alloc_pages pa order = Ok (Some p, pa') →
    pa_step (pa, live) (pa', (p, order) :: live)
| pa_free pa pa' order p live live' :
    live ≡ₚ (p, order) :: live' → free_pages pa p order = Ok pa' →
    pa_step (pa, live) (pa', live').

Definition block_pages (b : Z * Z) : list Z := seqZ (fst b) (2 ^ snd b).

Definition live_pages live : list Z := live ≫= block_pages.

Record heap_inv (orig : pages) pa live : Prop := {
  hi_ready : ready pa;
  hi_orders : Forall (λ b, 0 ≤ fst b ∧ 0 ≤ snd b ≤ 30) live;
  hi_disjoint : NoDup (live_pages live);
  hi_avail : ∀ i, i ∈ live_pages live → available orig i;
  hi_types : ∀ i, ty_at (page_descriptors pa) i =
    if decide (i ∈ live_pages live) then Some ALLOCATED else ty_at orig i;
}.

Lemma elem_of_block p order i : i ∈ block_pages (p, order) ↔ p ≤ i < p + 2 ^ order.
Proof. unfold block_pages. apply elem_of_seqZ. Qed.

Lemma live_pages_cons b live : live_pages (b :: live) = block_pages b ++ live_pages live.
Proof. done. Qed.

Lemma heap_inv_alloc orig pa live order p pa' :
  (∀ i, ty_at orig i ≠ Some ALLOCATED) →
  heap_inv orig pa live → 0 ≤ order ≤ 30 → alloc_pages pa order = Ok (Some p, pa') →
  heap_inv orig pa' ((p, order) :: live).
Proof.
  intros Horig [Hr Hord Hnd Hav Hty] Ho Hal.
  destruct (alloc_pages_spec _ _ _ _ Hr Ho Hal) as (q & Hq & Hr' & _ & Hf & Hty').
  simplify_eq. pose proof (pow2_pos order ltac:(lia)).
  pose proof (free_run_range _ _ _ ltac:(done) Hf) as Hrange. rewrite free_run_spec in Hf.
  assert (∀ i, i ∈ block_pages (q, order) → i ∉ live_pages live ∧ available orig i) as Hnew.
  { intros i Hi%elem_of_block. specialize (Hf i Hi). unfold available in *. rewrite Hty in Hf.
    by case_decide. }
  split; [done| | | |].
  - constructor; [simpl; lia|done].
  - rewrite live_pages_cons. apply NoDup_app. split_and!; [apply NoDup_seqZ| |done].
    intros i Hi. by apply Hnew.
  - intros i. rewrite live_pages_cons. intros [Hi|Hi]%elem_of_app; [by apply Hnew|auto].
  - intros i. rewrite Hty', Hty. pose proof (elem_of_block q order i).
    pose proof (elem_of_app (block_pages (q, order)) (live_pages live) i).
    rewrite live_pages_cons. repeat case_decide; tauto.
Qed.

#[local] Instance live_pages_proper : Proper ((≡ₚ) ==> (≡ₚ)) live_pages.
Proof. intros l1 l2 Hl. unfold live_pages. by rewrite Hl. Qed.

Lemma heap_inv_perm orig pa live live' :
  live ≡ₚ live' → heap_inv orig pa live → heap_inv orig pa live'.
Proof.
  intros Hp [Hr Hord Hnd Hav Hty]. pose proof (live_pages_proper _ _ Hp) as Hp'.
  split; [done|by rewrite <- Hp|by rewrite <- Hp'| |].
  - intros i. rewrite <- Hp'. auto.
  - intros i. rewrite Hty. apply decide_ext. by rewrite Hp'.
Qed.

Lemma heap_inv_free orig pa p order live :
  heap_inv orig pa ((p, order) :: live) →
  ∃ pa', free_pages pa p order = Ok pa' ∧ heap_inv orig pa' live.
Proof.
  intros [Hr Hord Hnd Hav Hty]. inversion Hord as [|? ? [Hp Ho] Hord']; subst. simpl in Hp, Ho.
  rewrite live_pages_cons in *. apply NoDup_app in Hnd as (_ & Hdis & Hnd).
  destruct (free_pages_spec pa p order Hr Ho Hp) as (pa' & Hf & Hr' & _ & Hty').
  { intros i Hi%elem_of_block. rewrite Hty. rewrite decide_True; [done|set_solver]. }
  exists pa'. split; [done|]. split; [done..| |].
  - intros i Hi. apply Hav. set_solver.
  - intros i. rewrite Hty', Hty. pose proof (elem_of_block p order i).
    pose proof (Hdis i). pose proof (Hav i).
    pose proof (elem_of_app (block_pages (p, order)) (live_pages live) i).
    unfold available in *. repeat case_decide; try tauto.
    symmetry. tauto.
Qed.

Lemma heap_inv_steps orig pa live pa' live' :
  (∀ i, ty_at orig i ≠ Some ALLOCATED) →
  heap_inv orig pa live → rtc pa_step (pa, live) (pa', live') → heap_inv orig pa' live'.
Proof.
  intros Horig Hinv Hsteps. remember (pa, live) as s eqn:Es. remember (pa', live') as s' eqn:Es'.
  revert pa live Es Hinv. induction Hsteps as [?|? [pa1 live1] ? Hs _ IH];
    intros pa live -> Hinv; [by simplify_eq|].
  apply (IH Es' pa1 live1); [done|]. inversion Hs; subst.
  - by eapply heap_inv_alloc.
  - eapply heap_inv_perm in Hinv; [|done].
    destruct (heap_inv_free _ _ _ _ _ Hinv) as (pa2 & Hf & ?).
    by replace pa1 with pa2 by congruence.
Qed.

Lemma heap_inv_start pa : ready pa → heap_inv (page_descriptors pa) pa [].
Proof.
  intros. split; [done|constructor|constructor|set_solver|].
  intros i. by rewrite decide_False by apply not_elem_of_nil.
Qed.
End allocator_correct.

(** ** Initialisation with the simple algorithm *)

(** The type a page has after the memory blocks have been entered. *)
Definition in_block (i : Z) (b : PhysicalMemoryBlock) : bool :=
  bool_decide (mtype b = NORMAL) && (base_pfn b <=? i) && (i <? base_pfn b + nr_pages_of b).

Definition block_ok (nr : Z) (b : PhysicalMemoryBlock) : Prop :=
  0 ≤ base_pfn b ∧ 0 ≤ nr_pages_of b ∧ base_pfn b + nr_pages_of b < 2 ^ 64 ∧
  (mtype b = NORMAL → base_pfn b + nr_pages_of b ≤ nr).

Lemma set_range_oob lo hi ty pds :
  0 ≤ lo < hi → Z.of_nat (length pds) < hi →
  for_range lo hi (λ pfn pds, set_type pfn ty pds) pds = Err OutOfBounds.
Proof.
  intros Hlo Hhi. unfold for_range.
  assert (Z.of_nat (length pds) < lo + Z.of_nat (Z.to_nat (hi - lo))) as Hn by lia.
  assert (0 < Z.to_nat (hi - lo))%nat as Hpos by lia. clear Hhi.
  destruct Hlo as [Hlo _]. generalize dependent (Z.to_nat (hi - lo)). intros n.
  revert lo pds Hlo. induction n as [|n IH]; intros lo pds Hlo Hn Hpos; [lia|]. simpl.
  destruct (decide (lo < Z.of_nat (length pds))).
  - destruct (set_type_spec lo ty pds) as (pds' & -> & Hl & _); [lia|]. simpl.
    apply IH; [lia| |lia]. rewrite (links_length _ _ Hl). lia.
  - by rewrite set_type_oob by lia.
Qed.

Lemma insert_block_spec (pa : PageAllocator SimplePageAllocator) a b :
  algorithm pa = Some a →
  block_ok (Z.of_nat (length (page_descriptors pa))) b →
  ∃ pa', insert_block pa a b = Ok (a, pa') ∧ algorithm pa' = Some a ∧
    nr_pages pa' = nr_pages pa ∧
    length (page_descriptors pa') = length (page_descriptors pa) ∧
    ∀ i, ty_at (page_descriptors pa') i =
      if in_block i b then Some AVAILABLE else ty_at (page_descriptors pa) i.
Proof.
  intros Ha (Hb & Hn & H64 & Hin). unfold insert_block, in_block.
  case_bool_decide as Hnorm; simpl; [|by exists pa].
  rewrite wrap_small by (unfold fits; lia). specialize (Hin Hnorm).
  destruct (set_range_spec (base_pfn b) (base_pfn b + nr_pages_of b) AVAILABLE
    (page_descriptors pa)) as (pds' & -> & Hr); [lia..|]. simpl.
  eexists. split_and!; [done..|by eapply retyped_length|]. intros i.
  destruct Hr as [_ ->]. case_decide as Hd.
  - by rewrite (proj2 (Z.leb_le _ _)), (proj2 (Z.ltb_lt _ _)) by lia.
  - destruct (Z.leb_spec (base_pfn b) i), (Z.ltb_spec i (base_pfn b + nr_pages_of b)); done || lia.
Qed.

Lemma insert_blocks_spec bs (pa : PageAllocator SimplePageAllocator) a :
  algorithm pa = Some a →
  Forall (block_ok (Z.of_nat (length (page_descriptors pa)))) bs →
  ∃ pa', insert_blocks pa a bs = Ok (a, pa') ∧ algorithm pa' = Some a ∧
    nr_pages pa' = nr_pages pa ∧
    length (page_descriptors pa') = length (page_descriptors pa) ∧
    ∀ i, ty_at (page_descriptors pa') i =
      if existsb (in_block i) bs then Some AVAILABLE else ty_at (page_descriptors pa) i.
Proof.
  revert pa. induction bs as [|b bs IH]; intros pa Ha Hok; simpl; [by exists pa|].
  inversion Hok as [|? ? Hb Hbs]; subst.
  destruct (insert_block_spec pa a b Ha Hb) as (pa1 & -> & Ha1 & Hn1 & Hl1 & Ht1). simpl.
  rewrite <- Hl1 in Hbs.
  destruct (IH pa1 Ha1 Hbs) as (pa2 & -> & Ha2 & Hn2 & Hl2 & Ht2).
  exists pa2. split_and!; [done|done|congruence|congruence|].
  intros i. rewrite Ht2, Ht1. by destruct (in_block i b), (existsb (in_block i) bs).
Qed.

Lemma insert_blocks_oob bs (pa : PageAllocator SimplePageAllocator) a :
  algorithm pa = Some a →
  Forall (λ b, 0 ≤ base_pfn b ∧ 0 < nr_pages_of b ∧ base_pfn b + nr_pages_of b < 2 ^ 64) bs →
  Exists (λ b, mtype b = NORMAL ∧
    Z.of_nat (length (page_descriptors pa)) < base_pfn b + nr_pages_of b) bs →
  insert_blocks pa a bs = Err OutOfBounds.
Proof.
  revert pa. induction bs as [|b bs IH]; intros pa Ha Hok Hex; [by apply Exists_nil in Hex|].
  inversion Hok as [|? ? (Hb1 & Hb2 & Hb3) Hbs]; subst. simpl.
  destruct (decide (mtype b = NORMAL ∧
    Z.of_nat (length (page_descriptors pa)) < base_pfn b + nr_pages_of b)) as [[Hn Hlt]|Hfit].
  - unfold insert_block. rewrite bool_decide_eq_true_2 by done.
    rewrite wrap_small by (unfold fits; lia). by rewrite set_range_oob by lia.
  - apply Exists_cons in Hex as [|Hex]; [done|].
    destruct (insert_block_spec pa a b Ha) as (pa1 & -> & Ha1 & _ & Hl1 & _).
    + split_and!; [lia..|]. intros.
      destruct (decide (Z.of_nat (length (page_descriptors pa)) < base_pfn b + nr_pages_of b));
        [tauto|lia].
    + simpl. apply IH; [done|done|by rewrite Hl1].
Qed.

Lemma reserve_spec (pa : PageAllocator SimplePageAllocator) a start n :
  algorithm pa = Some a → 0 ≤ start → 0 ≤ n → start + n < 2 ^ 64 →
  start + n ≤ Z.of_nat (length (page_descriptors pa)) →
  ∃ pa', reserve_page_range pa a start n = Ok (a, pa') ∧ algorithm pa' = Some a ∧
    nr_pages pa' = nr_pages pa ∧
    length (page_descriptors pa') = length (page_descriptors pa) ∧
    ∀ i, ty_at (page_descriptors pa') i =
      if decide (start ≤ i < start + n) then Some RESERVED else ty_at (page_descriptors pa) i.
Proof.
  intros Ha Hs Hn H64 Hl. unfold reserve_page_range. rewrite wrap_small by (unfold fits; lia).
  destruct (set_range_spec start (start + n) RESERVED (page_descriptors pa))
    as (pds' & -> & Hr); [lia..|]. simpl.
  eexists. split_and!; [done..|by eapply retyped_length|]. by destruct Hr.
Qed.

(** The pages of the array of descriptors, counted from the start of the
    kernel image. *)
Definition descriptor_pages (nr : Z) : Z := nr * sizeof_PageDescriptor / 4096 + 1.

Definition boot_type (IMAGE_START : Z) (mm : MemoryManager) (i : Z) : PageDescriptorType :=
  let img := pa_to_pfn IMAGE_START in
  if (i <? 7) || ((img <=? i) && (i <? img + descriptor_pages (last_pfn mm + 1))) then RESERVED
  else if existsb (in_block i) (phys_mem_blocks mm) then AVAILABLE
  else INVALID.

Lemma setup_spec {A} (pa : PageAllocator A) HEAP_START mm b :
  KERNEL_VMEM_START ≤ HEAP_START ≤ KERNEL_VMEM_END → 0 ≤ last_pfn mm < 2 ^ 52 →
  lookup_phys_block mm (HEAP_START - KERNEL_VMEM_START) = Some b →
  setup_page_descriptors HEAP_START mm pa =
    Ok (true, MkPA (last_pfn mm + 1)
      (replicate (Z.to_nat (last_pfn mm + 1)) (MkPD None None INVALID)) (algorithm pa)).
Proof.
  intros Hh Hl Hb. unfold setup_page_descriptors, kva_to_pa.
  rewrite (proj2 (andb_true_iff _ _)) by (rewrite !Z.leb_le; lia). simpl.
  rewrite (wrap_small 64 (HEAP_START - _)) by (unfold fits, KERNEL_VMEM_START, KERNEL_VMEM_END in *; lia).
  rewrite Hb. by rewrite wrap_small by (unfold fits; lia).
Qed.

Lemma ty_at_replicate n d i : 0 ≤ i < Z.of_nat n → ty_at (replicate n d) i = Some (type d).
Proof.
  intros Hi. unfold ty_at. rewrite (proj2 (Z.leb_le 0 i)) by lia.
  by rewrite lookup_replicate_2 by lia.
Qed.

Lemma reserved_size nr :
  0 ≤ nr < 2 ^ 58 →
  u64 (Z.shiftr (u64 (nr * sizeof_PageDescriptor)) 12 + 1) = descriptor_pages nr.
Proof.
  intros Hn. unfold descriptor_pages, sizeof_PageDescriptor.
  rewrite (wrap_small 64 (nr * 32)) by (unfold fits; lia).
  rewrite Z.shiftr_div_pow2 by lia. change (2 ^ 12) with 4096.
  apply wrap_small. unfold fits.
  pose proof (Z.div_pos (nr * 32) 4096). pose proof (Z.div_lt_upper_bound (nr * 32) 4096 (2 ^ 52)).
  lia.
Qed.

Lemma large_block_last_pfn mm addr n :
  4096 ≤ addr < 2 ^ 52 → 2 ^ 20 ≤ n < 2 ^ 32 →
  (length (phys_mem_blocks mm) < max_blocks)%nat →
  0 ≤ last_pfn mm < pa_to_pfn addr + n - 1 →
  ∃ last, add_physical_memory mm addr n NORMAL =
      MkMM last (phys_mem_blocks mm ++ [MkPMB addr (pa_to_pfn addr) n NORMAL]) ∧
    0 ≤ last < pa_to_pfn addr + n - 1.
Proof.
  intros Haddr Hn Hlen Hlast. rewrite pa_to_pfn_div in *.
  assert (0 ≤ block_bytes n ≤ n * 4096 - 2 ^ 32) as Hbytes.
  { unfold block_bytes, wrap. pose proof (Z.mod_pos_bound (n * 0x1000) (2 ^ 32)).
    pose proof (Z.div_mod (n * 0x1000) (2 ^ 32)).
    pose proof (Z.div_le_lower_bound (n * 0x1000) (2 ^ 32) 1). lia. }
  unfold add_physical_memory. rewrite (proj2 (Z.eqb_neq n 0)) by lia.
  rewrite (proj2 (Nat.leb_gt _ _) Hlen), bool_decide_eq_true_2 by done.
  rewrite !Z.shiftr_div_pow2 by lia. change (2 ^ 12) with 4096.
  rewrite (wrap_small 64 (addr + block_bytes n)) by (unfold fits; lia).
  set (e := addr + block_bytes n).
  assert (1 ≤ e / 4096 < addr / 4096 + n) as He.
  { split; [apply Z.div_le_lower_bound; lia|].
    apply Z.div_lt_upper_bound; [lia|]. pose proof (Z.div_mod addr 4096).
    pose proof (Z.mod_pos_bound addr 4096). lia. }
  pose proof (Z.div_lt_upper_bound addr 4096 (2 ^ 40)).
  rewrite wrap_small by (unfold fits; lia).
  eexists. split; [done|]. case_match; lia.
Qed.

(** ** Properties *)

(** [SimplePageAllocator::allocate_pages] is first fit: it returns the
    lowest page that starts a run of [2^order] available pages, in particular
    skipping past an unavailable page loses no run, and the loop terminates.
    When no run exists it returns NULL, unless the last page of the system is
    available: then the search reads the descriptor after the last one. *)
Theorem simple_first_fit pds order :
  0 ≤ order ≤ 30 →
  simple_allocate_pages (MkSimple (Z.of_nat (length pds))) pds order =
  match first_fit pds (2 ^ order) with
  | Some p => Ok (Some p, MkSimple (Z.of_nat (length pds)), pds)
  | None => if decide (available pds (Z.of_nat (length pds) - 1))
            then Err OutOfBounds else Ok (None, MkSimple (Z.of_nat (length pds)), pds)
  end.
Proof.
  intros Ho. rewrite simple_allocate_spec by done. unfold first_fit_answer.
  destruct (first_fit _ _); [done|]. by case_decide.
Qed.

Definition demo_pages : pages :=
  map (MkPD None None) [RESERVED; AVAILABLE; ALLOCATED; AVAILABLE; AVAILABLE; AVAILABLE].

Lemma simple_first_fit_witness :
  simple_allocate_pages (MkSimple 6) demo_pages 1 = Ok (Some 3, MkSimple 6, demo_pages) ∧
  simple_allocate_pages (MkSimple 6) demo_pages 2 = Err OutOfBounds.
Proof.
  split.
  - change 6 with (Z.of_nat (length demo_pages)).
    rewrite (simple_first_fit demo_pages 1) by lia. vm_compute. reflexivity.
  - change 6 with (Z.of_nat (length demo_pages)).
    rewrite (simple_first_fit demo_pages 2) by lia. vm_compute. reflexivity.
Defined.

(** C1. Safety of every history of allocations and frees, for any algorithm
    that keeps its promises.  From a state without allocated pages, after any
    sequence of successful [alloc_pages] calls and of frees of live blocks: the
    live blocks are pairwise disjoint, they consist of pages that were
    available at the start, exactly their pages are marked ALLOCATED, every
    other page has the type it had at the start, and freeing any live block
    succeeds. *)
Theorem allocation_history_safe {A} `{AlgorithmLaws A} (pa pa' : PageAllocator A) live :
  ready pa → (∀ i, ty_at (page_descriptors pa) i ≠ Some ALLOCATED) →
  rtc pa_step (pa, []) (pa', live) →
  NoDup (live_pages live) ∧
  (∀ i, ty_at (page_descriptors pa') i =
     if decide (i ∈ live_pages live) then Some ALLOCATED else ty_at (page_descriptors pa) i) ∧
  (∀ i, i ∈ live_pages live → available (page_descriptors pa) i) ∧
  (∀ p order, (p, order) ∈ live → is_Ok (free_pages pa' p order)).
Proof.
  intros Hr Horig Hsteps.
  pose proof (heap_inv_steps _ _ _ _ _ Horig (heap_inv_start pa Hr) Hsteps) as Hinv.
  split_and!; [apply Hinv..|]. intros p order Hin.
  apply list_elem_of_split in Hin as (l1 & l2 & ->).
  destruct (heap_inv_free (page_descriptors pa) pa' p order (l1 ++ l2)) as (pa2 & Hf & _);
    [|by exists pa2].
  eapply heap_inv_perm; [|done]. symmetry. apply Permutation_middle.
Qed.

Definition free_demo : pages :=
  map (MkPD None None) [RESERVED; AVAILABLE; INVALID; AVAILABLE; AVAILABLE; AVAILABLE].

Lemma allocation_history_safe_witness :
  ∃ pa' : PageAllocator SimplePageAllocator,
    rtc pa_step (MkPA 6 free_demo (Some (MkSimple 6)), []) (pa', [(3, 1)]) ∧
    is_Ok (free_pages pa' 3 1).
Proof.
  set (pa0 := MkPA 6 free_demo (Some (MkSimple 6))).
  set (pa1 := MkPA 6 (map (MkPD None None)
    [RESERVED; ALLOCATED; INVALID; AVAILABLE; AVAILABLE; AVAILABLE]) (Some (MkSimple 6))).
  set (pa2 := MkPA 6 (map (MkPD None None)
    [RESERVED; ALLOCATED; INVALID; ALLOCATED; ALLOCATED; AVAILABLE]) (Some (MkSimple 6))).
  set (pa3 := MkPA 6 (map (MkPD None None)
    [RESERVED; AVAILABLE; INVALID; ALLOCATED; ALLOCATED; AVAILABLE]) (Some (MkSimple 6))).
  assert (rtc pa_step (pa0, []) (pa3, [(3, 1)])) as Hsteps.
  { eapply rtc_l; [apply (pa_alloc pa0 pa1 0 1); [lia|vm_compute; reflexivity]|].
    eapply rtc_l; [apply (pa_alloc pa1 pa2 1 3); [lia|vm_compute; reflexivity]|].
    eapply rtc_l; [|apply rtc_refl].
    apply (pa_free pa2 pa3 0 1 _ [(3, 1)]); [apply Permutation_swap|vm_compute; reflexivity]. }
  exists pa3. split; [exact Hsteps|].
  apply (allocation_history_safe pa0 pa3 [(3, 1)]).
  - reflexivity.
  - intros i Hi. pose proof (ty_at_range _ _ _ Hi) as Hr. simpl in Hr.
    assert (i = 0 ∨ i = 1 ∨ i = 2 ∨ i = 3 ∨ i = 4 ∨ i = 5) as Hc by lia.
    by destruct_or! Hc; subst i.
  - exact Hsteps.
  - left.
Defined.

(** [alloc_pages] on an exhausted allocator.  Whenever the algorithm
    reports that there is no run of the requested order, [alloc_pages] does not
    return NULL as documented: its marking loop dereferences the NULL
    descriptor. *)
Theorem alloc_pages_exhausted {A} `{AlgorithmLaws A} (pa : PageAllocator A) order a a' pds' :
  ready pa → 0 ≤ order ≤ 30 → algorithm pa = Some a →
  allocate_pages a (page_descriptors pa) order = Ok (None, a', pds') →
  (∀ p, ¬ free_run (page_descriptors pa) (2 ^ order) p) ∧ alloc_pages pa order = Err NullDeref.
Proof.
  intros Hr Ho Ha Hal. split; [|by eapply alloc_pages_none].
  unfold ready in Hr. rewrite Ha in Hr. by eapply allocate_none_law.
Qed.

Lemma alloc_pages_exhausted_witness :
  alloc_pages (MkPA 2 (map (MkPD None None) [AVAILABLE; RESERVED]) (Some (MkSimple 2))) 1
    = Err NullDeref.
Proof.
  eapply (alloc_pages_exhausted (A := SimplePageAllocator)).
  - reflexivity.
  - lia.
  - reflexivity.
  - vm_compute. reflexivity.
Defined.

(** What [PageAllocator::init] leaves behind.  When the page descriptors
    lie in known memory and every usable block ends below the last page frame,
    [init] succeeds, the algorithm is ready, and the type of every page is
    fixed by the memory map: pages 0 to 6 and the run from the start of the
    kernel image that the descriptor array occupies are RESERVED, the other
    pages of NORMAL blocks AVAILABLE, and the rest INVALID; so no page is
    allocated. *)
Theorem init_page_types HEAP_START IMAGE_START mm b pa a :
  KERNEL_VMEM_START ≤ HEAP_START ≤ KERNEL_VMEM_END → 0 ≤ IMAGE_START →
  lookup_phys_block mm (HEAP_START - KERNEL_VMEM_START) = Some b →
  7 ≤ last_pfn mm + 1 < 2 ^ 52 →
  pa_to_pfn IMAGE_START + descriptor_pages (last_pfn mm + 1) ≤ last_pfn mm + 1 →
  Forall (block_ok (last_pfn mm + 1)) (phys_mem_blocks mm) →
  algorithm pa = Some a →
  ∃ pa' : PageAllocator SimplePageAllocator,
    init HEAP_START IMAGE_START false mm pa = Ok (true, pa') ∧ ready pa' ∧
    nr_pages pa' = last_pfn mm + 1 ∧
    ∀ i, 0 ≤ i < last_pfn mm + 1 →
      ty_at (page_descriptors pa') i = Some (boot_type IMAGE_START mm i).
Proof.
  intros Hh Hi Hb Hl Himg Hok Ha. unfold init. rewrite Ha.
  rewrite (setup_spec _ _ _ b) by (done || lia). cbn -[replicate reserve_page_range].
  set (nr := last_pfn mm + 1) in *. set (pds0 := replicate _ _).
  assert (length pds0 = Z.to_nat nr) as Hlen0 by apply length_replicate.
  unfold simple_init. cbn -[reserve_page_range].
  destruct (insert_blocks_spec (phys_mem_blocks mm) (MkPA nr pds0 (Some (MkSimple nr))) (MkSimple nr))
    as (pa1 & -> & Ha1 & Hn1 & Hl1 & Ht1); [done| |].
  { simpl. rewrite Hlen0, Z2Nat.id by lia. done. }
  cbn -[reserve_page_range] in *.
  assert (0 ≤ pa_to_pfn IMAGE_START) by (rewrite pa_to_pfn_div; apply Z.div_pos; lia).
  assert (0 ≤ descriptor_pages nr)
    by (unfold descriptor_pages, sizeof_PageDescriptor; pose proof (Z.div_pos (nr * 32) 4096); lia).
  destruct (reserve_spec pa1 (MkSimple nr) 0 1) as (pa2 & -> & Ha2 & Hn2 & Hl2 & Ht2); [done|lia..|].
  cbn -[reserve_page_range].
  destruct (reserve_spec pa2 (MkSimple nr) 1 6) as (pa3 & -> & Ha3 & Hn3 & Hl3 & Ht3); [done|lia..|].
  cbn -[reserve_page_range].
  replace (nr_pages pa3) with nr by congruence. rewrite reserved_size by lia.
  destruct (reserve_spec pa3 (MkSimple nr) (pa_to_pfn IMAGE_START) (descriptor_pages nr))
    as (pa4 & -> & Ha4 & Hn4 & Hl4 & Ht4); [done|lia..|]. cbn.
  exists pa4. split_and!; [done|unfold ready; rewrite Ha4; simpl; lia|congruence|].
  intros i Hir. rewrite Ht4, Ht3, Ht2, Ht1. unfold boot_type. fold nr.
  unfold pds0. rewrite (ty_at_replicate _ _ i) by lia.
  destruct (Z.ltb_spec i 7), (Z.leb_spec (pa_to_pfn IMAGE_START) i),
    (Z.ltb_spec i (pa_to_pfn IMAGE_START + descriptor_pages nr)); simpl;
    repeat (case_decide; try lia); try done; by destruct (existsb _ _).
Qed.

(** A machine with 64 pages: 32 usable pages from page 0, a hole of 8 pages,
    and 24 usable pages. *)
Definition demo_mm : MemoryManager :=
  add_physical_memory (add_physical_memory (add_physical_memory (MkMM 0 []) 0 32 NORMAL)
    0x20000 8 UNUSABLE) 0x28000 24 NORMAL.

Lemma init_page_types_witness :
  ∃ pa' : PageAllocator SimplePageAllocator,
    init (KERNEL_VMEM_START + 0x10000) 0x10000 false demo_mm (MkPA 0 [] (Some (MkSimple 0)))
      = Ok (true, pa') ∧
    ty_at (page_descriptors pa') 3 = Some RESERVED ∧
    ty_at (page_descriptors pa') 16 = Some RESERVED ∧
    ty_at (page_descriptors pa') 20 = Some AVAILABLE ∧
    ty_at (page_descriptors pa') 35 = Some INVALID.
Proof.
  destruct (init_page_types (KERNEL_VMEM_START + 0x10000) 0x10000 demo_mm
    (MkPMB 0 0 32 NORMAL) (MkPA 0 [] (Some (MkSimple 0))) (MkSimple 0))
    as (pa' & Hrun & _ & _ & Ht).
  - unfold KERNEL_VMEM_START, KERNEL_VMEM_END. lia.
  - lia.
  - vm_compute. reflexivity.
  - change (last_pfn demo_mm) with 63. lia.
  - vm_compute. discriminate.
  - repeat constructor; simpl; lia || (intros; vm_compute; discriminate).
  - reflexivity.
  - change (last_pfn demo_mm) with 63 in Ht.
    exists pa'. split; [exact Hrun|]. rewrite !Ht by lia. vm_compute. tauto.
Defined.

(** Memory blocks of 4 GiB and more.  [add_physical_memory] and
    [lookup_phys_block] multiply [nr_pages] by the page size in 32 bits, so a
    usable block of 2^20 pages or more makes [_last_pfn] too small, and
    [PageAllocator::init] then writes page descriptors outside the array. *)
Theorem large_block_breaks_init HEAP_START IMAGE_START mm b pa a addr n :
  let mm' := add_physical_memory mm addr n NORMAL in
  KERNEL_VMEM_START ≤ HEAP_START ≤ KERNEL_VMEM_END →
  4096 ≤ addr < 2 ^ 52 → 2 ^ 20 ≤ n < 2 ^ 32 →
  (length (phys_mem_blocks mm) < max_blocks)%nat →
  0 ≤ last_pfn mm < pa_to_pfn addr + n - 1 →
  Forall (λ b, 0 ≤ base_pfn b ∧ 0 < nr_pages_of b ∧ base_pfn b + nr_pages_of b < 2 ^ 64)
    (phys_mem_blocks mm) →
  lookup_phys_block mm' (HEAP_START - KERNEL_VMEM_START) = Some b →
  algorithm pa = Some a →
  last_pfn mm' < pa_to_pfn addr + n - 1 ∧
  init (A := SimplePageAllocator) HEAP_START IMAGE_START false mm' pa = Err OutOfBounds.
Proof.
  intros mm' Hh Haddr Hn Hlen Hlast Hbs Hb Ha.
  destruct (large_block_last_pfn mm addr n) as (last & Emm & Hlt); [done..|]. fold mm' in Emm.
  split; [rewrite Emm; simpl; lia|]. unfold init. rewrite Ha.
  rewrite (setup_spec _ _ _ b); [|done|rewrite Emm; simpl|done].
  2: { pose proof (Z.div_lt_upper_bound addr 4096 (2 ^ 40)). rewrite pa_to_pfn_div in *. lia. }
  cbn -[replicate]. unfold simple_init. cbn -[replicate].
  rewrite Emm. cbn -[replicate]. rewrite insert_blocks_oob; [done|done| |].
  - apply Forall_app. split; [done|]. constructor; [|done]. simpl.
    pose proof (Z.div_le_upper_bound addr 4096 (2 ^ 60)).
    pose proof (Z.div_pos addr 4096). rewrite pa_to_pfn_div. lia.
  - apply Exists_app. right. constructor. simpl. split; [done|].
    rewrite length_replicate. lia.
Qed.

(** The memory of a machine with 8 GiB: 640 kB, then memory up to 3 GiB, then
    5 GiB above the 4 GiB line. *)
Definition mm_3g : MemoryManager :=
  add_physical_memory (add_physical_memory (MkMM 0 []) 0 0x9f NORMAL) 0x100000 0xbff00 NORMAL.

Lemma large_block_breaks_init_witness :
  init (A := SimplePageAllocator) (KERNEL_VMEM_START + 0x200000) 0x100000 false
    (add_physical_memory mm_3g 0x100000000 0x140000 NORMAL) (MkPA 0 [] (Some (MkSimple 0)))
  = Err OutOfBounds.
Proof.
  eapply (large_block_breaks_init (KERNEL_VMEM_START + 0x200000) 0x100000 mm_3g
    (MkPMB 0x100000 0x100 0xbff00 NORMAL) (MkPA 0 [] (Some (MkSimple 0))) (MkSimple 0)
    0x100000000 0x140000).
  - unfold KERNEL_VMEM_START, KERNEL_VMEM_END. lia.
  - lia.
  - lia.
  - vm_compute. lia.
  - vm_compute. split; [discriminate|reflexivity].
  - change (phys_mem_blocks mm_3g)
      with [MkPMB 0 0 0x9f NORMAL; MkPMB 0x100000 0x100 0xbff00 NORMAL].
    repeat constructor; simpl; lia.
  - vm_compute. reflexivity.
  - reflexivity.
Defined.
