(* ===== verification/PhysMem.v ===== *)
(** * Physical memory as the kernel sees it

    Bytes of physical memory, little-endian 64-bit accesses, and accesses
    through the window that maps physical memory at [PMEM_VA_START]
    ([pa_to_vpa]); [bzero], [pzero], [pnzero] and [memcpy] act on it. *)

From S2P Require Import Prelude Define.
From stdpp Require Import list_numbers.
Local Open Scope Z_scope.

(** A cell that was never written holds some byte; the model calls it 0. *)
Abbreviation memory := (gmap Z Z).
Implicit Types (m : memory) (a : Z).

Definition ld8 m a : Z := u8 (default 0 (m !! a)).

Definition ld_bytes m a (n : nat) : list Z := (λ i, ld8 m (a + i)) <$> seqZ 0 (Z.of_nat n).

Fixpoint st_bytes m a (bs : list Z) : memory :=
  match bs with
  | [] => m
  | b :: bs' => st_bytes (<[a := b]> m) (a + 1) bs'
  end.

Definition ld64 m a : Z := little_endian_to_Z 8 (ld_bytes m a 8).
Definition st64 m a (v : Z) : memory := st_bytes m a (Z_to_little_endian 8 8 v).

(** [bzero(a, n)]. *)
Fixpoint zero_bytes (n : nat) m a : memory :=
  match n with
  | O => m
  | S n' => zero_bytes n' (<[a := 0]> m) (a + 1)
  end.

(** The physical address behind a virtual address of the physical-memory
    window; an access of [len] bytes outside the window does not return. *)
Definition translate (va len : Z) : result Z :=
  if (PMEM_VA_START <=? va) && (va + len <=? PMEM_VA_END)
  then Ok (va - PMEM_VA_START) else Err OutOfBounds.

Definition load64 m (va : Z) : result Z := a ← translate va 8; Ok (ld64 m a).
Definition store64 m (va v : Z) : result memory := a ← translate va 8; Ok (st64 m a v).
Definition bzero m (va n : Z) : result memory :=
  a ← translate va n; Ok (zero_bytes (Z.to_nat n) m a).
Definition memcpy m (va : Z) (src : list Z) : result memory :=
  a ← translate va (Z.of_nat (length src)); Ok (st_bytes m a src).

(** ** Lemmas *)

Lemma ld8_insert m a b x : ld8 (<[a := b]> m) x = if decide (x = a) then u8 b else ld8 m x.
Proof.
  unfold ld8. case_decide as E; [subst; by rewrite lookup_insert_eq|].
  by rewrite lookup_insert_ne.
Qed.

Lemma ld8_fits m a : 0 ≤ ld8 m a < 256.
Proof. apply (wrap_fits 8). lia. Qed.

Lemma ld8_st_bytes bs m a x :
  Forall (fits 8) bs →
  ld8 (st_bytes m a bs) x =
    if decide (a ≤ x < a + Z.of_nat (length bs)) then default 0 (bs !! Z.to_nat (x - a)) else ld8 m x.
Proof.
  revert m a. induction bs as [|b bs IH]; intros m a Hbs; simpl st_bytes; simpl length.
  - rewrite decide_False by lia. done.
  - inversion Hbs; subst. rewrite IH, ld8_insert by done.
    destruct (decide (x = a)) as [->|Hx].
    + rewrite decide_False, decide_True by lia. rewrite Z.sub_diag. simpl.
      by rewrite wrap_small.
    + destruct (decide (a + 1 ≤ x < a + 1 + Z.of_nat (length bs))).
      * rewrite decide_True by lia.
        replace (Z.to_nat (x - a)) with (S (Z.to_nat (x - (a + 1)))) by lia. done.
      * by rewrite decide_False by lia.
Qed.

Lemma ld8_zero_bytes n m a x :
  ld8 (zero_bytes n m a) x = if decide (a ≤ x < a + Z.of_nat n) then 0 else ld8 m x.
Proof.
  revert m a. induction n as [|n IH]; intros m a; simpl zero_bytes.
  - by rewrite decide_False by lia.
  - rewrite IH, ld8_insert. repeat case_decide; try lia; done.
Qed.

Lemma ld_bytes_ext m m' a n :
  (∀ x, a ≤ x < a + Z.of_nat n → ld8 m' x = ld8 m x) → ld_bytes m' a n = ld_bytes m a n.
Proof.
  intros Hx. unfold ld_bytes. apply list_fmap_ext. intros i x Hi.
  apply lookup_seqZ in Hi. apply Hx. lia.
Qed.

Lemma ld64_ext m m' a : (∀ x, a ≤ x < a + 8 → ld8 m' x = ld8 m x) → ld64 m' a = ld64 m a.
Proof. intros Hx. unfold ld64. by rewrite (ld_bytes_ext m m'). Qed.

Lemma ld_bytes_length m a n : length (ld_bytes m a n) = n.
Proof. unfold ld_bytes. rewrite length_fmap, length_seqZ. lia. Qed.

Lemma ld_bytes_st_bytes m a bs :
  Forall (fits 8) bs → ld_bytes (st_bytes m a bs) a (length bs) = bs.
Proof.
  intros Hbs. apply list_eq. intros i. unfold ld_bytes. rewrite list_lookup_fmap.
  destruct (decide (i < length bs)%nat).
  - rewrite lookup_seqZ_lt by lia. simpl. rewrite ld8_st_bytes, decide_True by (done || lia).
    replace (Z.to_nat (a + (0 + Z.of_nat i) - a)) with i by lia.
    by destruct (lookup_lt_is_Some_2 bs i) as [b ->].
  - rewrite lookup_seqZ_ge, lookup_ge_None_2 by lia. done.
Qed.

Lemma le_bytes_fits v : Forall (fits 8) (Z_to_little_endian 8 8 v).
Proof. apply Z_to_little_endian_bound; lia. Qed.

Lemma le_bytes_length v : length (Z_to_little_endian 8 8 v) = 8%nat.
Proof. pose proof (length_Z_to_little_endian 8 8 v). lia. Qed.

Lemma ld64_fits m a : fits 64 (ld64 m a).
Proof.
  unfold ld64, fits. pose proof (little_endian_to_Z_bound 8 (ld_bytes m a 8)) as H.
  rewrite ld_bytes_length in H. apply H; [lia|].
  apply Forall_fmap, Forall_forall. intros x _. apply ld8_fits.
Qed.

Lemma ld64_st64_eq m a v : fits 64 v → ld64 (st64 m a v) a = v.
Proof.
  intros Hv. unfold ld64, st64. pose proof (ld_bytes_st_bytes m a _ (le_bytes_fits v)) as E.
  rewrite le_bytes_length in E. rewrite E, little_endian_to_Z_to_little_endian by lia.
  by apply Z.mod_small.
Qed.

Lemma ld64_st64_ne m a b v : a + 8 ≤ b ∨ b + 8 ≤ a → ld64 (st64 m a v) b = ld64 m b.
Proof.
  intros Hab. apply ld64_ext. intros x Hx. unfold st64.
  rewrite ld8_st_bytes by apply le_bytes_fits. rewrite le_bytes_length, decide_False by lia. done.
Qed.

Lemma ld64_zero m a n b :
  a ≤ b → b + 8 ≤ a + Z.of_nat n → ld64 (zero_bytes n m a) b = 0.
Proof.
  intros Hab Hn. unfold ld64. replace (ld_bytes _ b 8) with (replicate 8 0); [done|].
  apply list_eq. intros i. unfold ld_bytes. rewrite list_lookup_fmap.
  destruct (decide (i < 8)%nat).
  - rewrite lookup_replicate_2, lookup_seqZ_lt by lia. simpl.
    by rewrite ld8_zero_bytes, decide_True by lia.
  - rewrite lookup_seqZ_ge by lia. by rewrite lookup_ge_None_2 by (rewrite length_replicate; lia).
Qed.

Lemma ld64_zero_ne m a n b :
  b + 8 ≤ a ∨ a + Z.of_nat n ≤ b → ld64 (zero_bytes n m a) b = ld64 m b.
Proof.
  intros Hab. apply ld64_ext. intros x Hx. by rewrite ld8_zero_bytes, decide_False by lia.
Qed.

Lemma translate_Ok pa len :
  0 ≤ pa → pa + len ≤ 2 ^ 32 → translate (PMEM_VA_START + pa) len = Ok pa.
Proof.
  intros Hpa Hlen. unfold translate, PMEM_VA_START, PMEM_VA_END.
  rewrite (proj2 (andb_true_iff _ _)) by (rewrite !Z.leb_le; lia). f_equal. lia.
Qed.

Lemma translate_Ok_inv va len pa :
  translate va len = Ok pa → va = PMEM_VA_START + pa ∧ 0 ≤ pa ∧ pa + len ≤ 2 ^ 32.
Proof.
  unfold translate, PMEM_VA_START, PMEM_VA_END. destruct (_ && _) eqn:E; [|done].
  apply andb_true_iff in E as [E1%Z.leb_le E2%Z.leb_le]. intros. simplify_eq. lia.
Qed.

Lemma lookup_st_bytes bs m a x :
  st_bytes m a bs !! x =
    if decide (a ≤ x < a + Z.of_nat (length bs)) then bs !! Z.to_nat (x - a) else m !! x.
Proof.
  revert m a. induction bs as [|b bs IH]; intros m a; simpl st_bytes; simpl length.
  - by rewrite decide_False by lia.
  - rewrite IH. destruct (decide (x = a)) as [->|Hx].
    + rewrite decide_False, decide_True by lia. by rewrite Z.sub_diag, lookup_insert_eq.
    + rewrite lookup_insert_ne by done.
      destruct (decide (a + 1 ≤ x < a + 1 + Z.of_nat (length bs))).
      * rewrite decide_True by lia.
        by replace (Z.to_nat (x - a)) with (S (Z.to_nat (x - (a + 1)))) by lia.
      * by rewrite decide_False by lia.
Qed.

Lemma st_bytes_twice m a bs bs' :
  length bs = length bs' → st_bytes (st_bytes m a bs) a bs' = st_bytes m a bs'.
Proof.
  intros Hl. apply map_eq. intros x. rewrite !lookup_st_bytes, Hl. by case_decide.
Qed.

Lemma st64_twice m a x y : st64 (st64 m a x) a y = st64 m a y.
Proof. apply st_bytes_twice. by rewrite !le_bytes_length. Qed.

Lemma ld8_st64_ne m a v x : x < a ∨ a + 8 ≤ x → ld8 (st64 m a v) x = ld8 m x.
Proof.
  intros Hx. unfold st64. rewrite ld8_st_bytes by apply le_bytes_fits.
  by rewrite le_bytes_length, decide_False by lia.
Qed.
