(* ===== verification/Vma.v ===== *)
(** * Virtual memory areas

    mm/vma.cpp and include/infos/mm/vma.h: four-level page tables built in
    pages taken from the page allocator, and read and written through the
    physical-memory window.  The memory is the byte memory of [PhysMem]; the
    allocator is used through the interface of [PageAlloc]. *)

From S2P Require Import Prelude Define PageAlloc PhysMem.
Local Open Scope Z_scope.

(** ** Page table entries *)

Definition not_fff : Z := u64 (Z.lnot 0xfff).

Definition base_address (bits : Z) : Z := Z.land bits not_fff.
Definition set_base_address (addr bits : Z) : Z := Z.lor (Z.land bits 0xfff) (Z.land addr not_fff).
Definition flags (bits : Z) : Z := Z.land bits 0xfff.
Definition set_flags (fl bits : Z) : Z := Z.lor (Z.land bits not_fff) (Z.land fl 0xfff).

Definition PRESENT : Z := 0.
Definition WRITABLE : Z := 1.
Definition ALLOW_USER : Z := 2.
Definition HUGE : Z := 7.

Definition get_flag (idx bits : Z) : bool := negb (Z.land (flags bits) (Z.shiftl 1 idx) =? 0).
Definition set_flag (idx : Z) (v : bool) (bits : Z) : Z :=
  if v then set_flags (u16 (Z.lor (flags bits) (Z.shiftl 1 idx))) bits
  else set_flags (u16 (Z.land (flags bits) (Z.lnot (Z.shiftl 1 idx)))) bits.

Abbreviation present := (get_flag PRESENT).
Abbreviation set_present := (set_flag PRESENT true).
Abbreviation set_writable := (set_flag WRITABLE true).
Abbreviation set_user := (set_flag ALLOW_USER true).

(** [BITS(val, start, end)]. *)
Definition BITS (val start stop : Z) : Z :=
  Z.land (Z.shiftr val start) (Z.shiftl 1 (stop - start + 1) - 1).

(** [table_idx_t] is 16 bits wide. *)
Definition va_table_indicies (va : Z) : Z * Z * Z * Z :=
  (u16 (BITS va 39 47), u16 (BITS va 30 38), u16 (BITS va 21 29), u16 (BITS va 12 20)).

(** [MappingFlags]. *)
Definition MF_Present : Z := 1.
Definition MF_User : Z := 2.
Definition MF_Writable : Z := 4.

(** ** State *)

(** The descriptor and order of every block the area has taken. *)
Record VMA := MkVMA {
  page_allocations : list (Z * Z);
  pgt_phys_base : Z; pgt_virt_base : Z; next_free_address : Z }.

(** The part of the kernel a VMA works on: the page allocator and memory. *)
Record machine (A : Type) := MkMachine { pgalloc : PageAllocator A; mem : memory }.
Arguments MkMachine {A} _ _.
Arguments pgalloc {A} _.
Arguments mem {A} _.

Definition set_mem {A} (s : machine A) (m : memory) : machine A := MkMachine (pgalloc s) m.

Section vma.
Context {A : Type} `{PageAllocatorAlgorithm A}.
Implicit Types (s : machine A) (v : VMA).

(** [&((Entry * )table)[idx]]. *)
Definition entry_ptr (table idx : Z) : Z := u64 (table + 8 * idx).

(** A read-modify-write of the entry behind a pointer. *)
Definition update_entry s (ptr : Z) (f : Z → Z) : result (machine A) :=
  e ← load64 (mem s) ptr; m ← store64 (mem s) ptr (f e); Ok (set_mem s m).

Definition allocate_phys v s (order : Z) : result (option Z * VMA * machine A) :=
  '(pgd, pa) ← alloc_pages (pgalloc s) order;
  match pgd with
  | None => Ok (None, v, MkMachine pa (mem s))
  | Some p =>
      let v := MkVMA (page_allocations v ++ [(p, order)]) (pgt_phys_base v) (pgt_virt_base v)
                 (next_free_address v) in
      va ← pgd_to_vpa p;
      n ← pages_of_order order;
      m ← bzero (mem s) va (n * page_size);
      Ok (Some p, v, MkMachine pa m)
  end.

(** The constructor. *)
Definition new_vma s : result (VMA * machine A) :=
  '(pgd, v, s) ← allocate_phys (MkVMA [] 0 0 0xfff00000000) s 0;
  p ← get AssertFailed pgd;
  va ← pgd_to_vpa p;
  Ok (MkVMA (page_allocations v) (pgd_to_pa p) va (next_free_address v), s).

(** [__template_pml4], NULL before the page tables are reinitialised. *)
Definition install_default_kernel_mapping (template_pml4 : option Z) v s : result (machine A) :=
  t ← get AssertFailed template_pml4;
  e ← load64 (mem s) (entry_ptr t 0x1ff);
  m ← store64 (mem s) (entry_ptr (pgt_virt_base v) 0x1ff) e;
  e ← load64 m (entry_ptr t 0x100);
  m ← store64 m (entry_ptr (pgt_virt_base v) 0x100) e;
  Ok (set_mem s m).

(** One level of the walk of [insert_mapping]: a table is allocated when the
    entry has none. *)
Definition ensure_table v s (ptr : Z) : result (VMA * machine A) :=
  e ← load64 (mem s) ptr;
  if base_address e =? 0 then
    '(pgd, v, s) ← allocate_phys v s 0;
    p ← get AssertFailed pgd;
    s ← update_entry s ptr (set_base_address (pgd_to_pa p));
    s ← update_entry s ptr set_present;
    s ← update_entry s ptr set_writable;
    s ← update_entry s ptr set_user;
    Ok (v, s)
  else Ok (v, s).

(** The next table: [(Entry * )pa_to_vpa(e->base_address())]. *)
Definition next_table s (ptr : Z) : result Z :=
  e ← load64 (mem s) ptr; pa_to_vpa (base_address e).

Definition insert_mapping v s (va pa fl : Z) : result (VMA * machine A) :=
  let '(pml4_idx, pdp_idx, pd_idx, pt_idx) := va_table_indicies va in
  let pml4 := entry_ptr (pgt_virt_base v) pml4_idx in
  '(v, s) ← ensure_table v s pml4;
  t ← next_table s pml4; let pdp := entry_ptr t pdp_idx in
  '(v, s) ← ensure_table v s pdp;
  t ← next_table s pdp; let pd := entry_ptr t pd_idx in
  '(v, s) ← ensure_table v s pd;
  t ← next_table s pd; let pt := entry_ptr t pt_idx in
  s ← update_entry s pt (set_base_address pa);
  s ← (if Z.land fl MF_Present =? 0 then Ok s else update_entry s pt set_present);
  s ← (if Z.land fl MF_Writable =? 0 then Ok s else update_entry s pt set_writable);
  s ← (if Z.land fl MF_User =? 0 then Ok s else update_entry s pt set_user);
  Ok (v, s).

(** The address of the entry one level down, [None] at an entry that is not
    present. *)
Definition walk_level s (ptr idx : Z) : result (option Z) :=
  e ← load64 (mem s) ptr;
  if present e then t ← pa_to_vpa (base_address e); Ok (Some (entry_ptr t idx)) else Ok None.

(** The out-parameter [pa] is the value of the [Some]. *)
Definition get_mapping v s (va : Z) : result (option Z) :=
  if pgt_virt_base v =? 0 then Ok None else
  let '(pml4_idx, pdp_idx, pd_idx, pt_idx) := va_table_indicies va in
  p1 ← walk_level s (entry_ptr (pgt_virt_base v) pml4_idx) pdp_idx;
  match p1 with None => Ok None | Some pdp =>
  p2 ← walk_level s pdp pd_idx;
  match p2 with None => Ok None | Some pd =>
  p3 ← walk_level s pd pt_idx;
  match p3 with None => Ok None | Some pt =>
  e ← load64 (mem s) pt;
  if present e then Ok (Some (Z.lor (base_address e) (page_offset va))) else Ok None
  end end end.

Definition is_mapped v s (va : Z) : result bool :=
  r ← get_mapping v s va; Ok (bool_decide (is_Some r)).

(** The mapping loop of [allocate_virt]. *)
Fixpoint map_pages (n : nat) v s (vbase pbase : Z) : result (VMA * machine A) :=
  match n with
  | O => Ok (v, s)
  | S n' =>
      '(v, s) ← insert_mapping v s vbase pbase (Z.lor (Z.lor MF_Present MF_User) MF_Writable);
      map_pages n' v s (u64 (vbase + 0x1000)) (u64 (pbase + 0x1000))
  end.

(** [nr_pages] is an [int]; [__log2ceil] takes its sign extension and the loop
    compares it as unsigned. *)
Definition allocate_virt v s (va nr_pages : Z) : result (bool * VMA * machine A) :=
  if nr_pages =? 0 then Ok (false, v, s)
  else
    '(pgd, v, s) ← allocate_phys v s (log2ceil (u64 nr_pages));
    match pgd with
    | None => Ok (false, v, s)
    | Some p =>
        '(v, s) ← map_pages (Z.to_nat (u32 nr_pages)) v s va (pgd_to_pa p);
        Ok (true, v, s)
    end.

Definition AllocationError : fault := Thrown 1.

Definition allocate_virt_any v s (nr_pages : Z) : result (Z * VMA * machine A) :=
  let result := next_free_address v in
  '(ok, v, s) ← allocate_virt v s result (s32 nr_pages);
  if negb ok then Err AllocationError
  else Ok (result, MkVMA (page_allocations v) (pgt_phys_base v) (pgt_virt_base v)
                     (u64 (next_free_address v + u32 (nr_pages * 4096))), s).

Definition copy_to v s (dest_va : Z) (src : list Z) : result (bool * machine A) :=
  r ← get_mapping v s dest_va;
  match r with
  | None => Ok (false, s)
  | Some pa => dest ← pa_to_vpa pa; m ← memcpy (mem s) dest src; Ok (true, set_mem s m)
  end.

(** ** The dump: the (virtual, physical) pairs it prints *)

Definition dump_table s (table : Z) (line : Z → Z → result (list (Z * Z))) : result (list (Z * Z)) :=
  for_range 0 0x200 (λ i out,
    e ← load64 (mem s) (entry_ptr table i);
    if present e then new ← line i e; Ok (out ++ new) else Ok out) [].

Definition dump_pt s (pml4 pdp pd pt_va : Z) : result (list (Z * Z)) :=
  dump_table s pt_va (λ i e,
    Ok [(Z.lor (Z.lor (Z.lor (u64 (Z.shiftl pml4 36)) (u64 (Z.shiftl pdp 28)))
                 (u64 (Z.shiftl pd 20))) (Z.shiftl i 12), base_address e)]).

Definition dump_pd s (pml4 pdp pd_va : Z) : result (list (Z * Z)) :=
  dump_table s pd_va (λ i e,
    if get_flag HUGE e
    then Ok [(Z.lor (Z.lor (u64 (Z.shiftl pml4 36)) (u64 (Z.shiftl pdp 28))) (Z.shiftl i 20),
              base_address e)]
    else t ← pa_to_vpa (base_address e); dump_pt s pml4 pdp i t).

Definition dump_pdp s (pml4 pdp_va : Z) : result (list (Z * Z)) :=
  dump_table s pdp_va (λ i e,
    if get_flag HUGE e
    then Ok [(Z.lor (u64 (Z.shiftl pml4 36)) (u64 (Z.shiftl i 28)), base_address e)]
    else t ← pa_to_vpa (base_address e); dump_pd s pml4 i t).

Definition dump v s : result (list (Z * Z)) :=
  dump_table s (pgt_virt_base v) (λ i e,
    if get_flag HUGE e then Ok [(u64 (Z.shiftl i 36), base_address e)]
    else t ← pa_to_vpa (base_address e); dump_pdp s i t).
End vma.

(** [PageAllocator::alloc_zero_page]. *)
Definition alloc_zero_page {A} `{PageAllocatorAlgorithm A} (s : machine A)
    : result (option Z * machine A) :=
  '(pgd, pa) ← alloc_page (pgalloc s);
  match pgd with
  | None => Ok (None, MkMachine pa (mem s))
  | Some p =>
      va ← pgd_to_vpa p; m ← bzero (mem s) va page_size; Ok (Some p, MkMachine pa m)
  end.

(** ** Entry bits *)

Lemma bounded_bits w x : 0 ≤ w → 0 ≤ x → fits w x ↔ ∀ k, w ≤ k → Z.testbit x k = false.
Proof. intros. unfold fits. by rewrite Z.bounded_iff_bits_nonneg' by done. Qed.

Lemma fits_bit w x k : 0 ≤ w → fits w x → w ≤ k → Z.testbit x k = false.
Proof. intros Hw [Hx Hlt] Hk. by apply (bounded_bits w x Hw Hx). Qed.

Lemma not_fff_bit n : 0 ≤ n → Z.testbit not_fff n = (12 <=? n) && (n <? 64).
Proof.
  intros Hn. change not_fff with (Z.shiftl (Z.ones 52) 12).
  rewrite Z.shiftl_spec by done. destruct (Z.leb_spec 12 n).
  - destruct (Z.ltb_spec n 64); [by rewrite Z.ones_spec_low by lia|by rewrite Z.ones_spec_high by lia].
  - by rewrite Z.testbit_neg_r by lia.
Qed.

Lemma fff_bit n : 0 ≤ n → Z.testbit 0xfff n = (n <? 12).
Proof.
  intros Hn. change 0xfff with (Z.ones 12).
  destruct (Z.ltb_spec n 12); [by rewrite Z.ones_spec_low by lia|by rewrite Z.ones_spec_high by lia].
Qed.

Lemma pow2_bit i n : 0 ≤ i → Z.testbit (Z.shiftl 1 i) n = bool_decide (n = i).
Proof.
  intros Hi. rewrite shiftl_1 by done. case_bool_decide as E; [subst; by apply Z.pow2_bits_true|].
  apply Z.pow2_bits_false. congruence.
Qed.

Create HintDb ebits.
#[export] Hint Rewrite Z.land_spec Z.lor_spec : ebits.

Lemma base_address_bit e n :
  0 ≤ n → Z.testbit (base_address e) n = (12 <=? n) && (n <? 64) && Z.testbit e n.
Proof. intros. unfold base_address. by rewrite Z.land_spec, not_fff_bit, andb_comm by done. Qed.

Lemma set_base_address_bit a e n :
  0 ≤ n → Z.testbit (set_base_address a e) n =
    if n <? 12 then Z.testbit e n else (n <? 64) && Z.testbit a n.
Proof.
  intros. unfold set_base_address. autorewrite with ebits.
  rewrite not_fff_bit, fff_bit by done.
  destruct (Z.ltb_spec n 12), (Z.leb_spec 12 n), (Z.ltb_spec n 64); try lia; simpl;
    by rewrite ?andb_true_r, ?andb_false_r, ?orb_false_r.
Qed.

Lemma get_flag_bit i e : 0 ≤ i < 12 → get_flag i e = Z.testbit e i.
Proof.
  intros Hi. unfold get_flag, flags.
  destruct (Z.testbit e i) eqn:E.
  - apply negb_true_iff, Z.eqb_neq. intros E0. apply (f_equal (λ x, Z.testbit x i)) in E0.
    autorewrite with ebits in E0. rewrite fff_bit, pow2_bit, E, Z.bits_0 in E0 by lia.
    rewrite (proj2 (Z.ltb_lt i 12)), bool_decide_eq_true_2 in E0 by lia. done.
  - apply negb_false_iff, Z.eqb_eq, Z.bits_inj'. intros n Hn.
    autorewrite with ebits. rewrite fff_bit, pow2_bit, Z.bits_0 by lia.
    case_bool_decide; subst; [by rewrite E|]. apply andb_false_r.
Qed.

Lemma set_flag_bit i e n :
  0 ≤ i < 12 → 0 ≤ n → fits 64 e →
  Z.testbit (set_flag i true e) n = bool_decide (n = i) || Z.testbit e n.
Proof.
  intros Hi Hn He. unfold set_flag, set_flags, flags, wrap.
  autorewrite with ebits. rewrite not_fff_bit, fff_bit by done.
  destruct (Z.ltb_spec n 12).
  - rewrite Z.mod_pow2_bits_low by lia. autorewrite with ebits. rewrite fff_bit, pow2_bit by lia.
    rewrite (proj2 (Z.leb_gt 12 n)), (proj2 (Z.ltb_lt n 12)) by lia.
    by destruct (Z.testbit e n), (bool_decide (n = i)).
  - rewrite (proj2 (Z.leb_le 12 n)), bool_decide_eq_false_2 by lia. simpl.
    destruct (Z.ltb_spec n 64); simpl; rewrite ?andb_true_r, ?andb_false_r, ?orb_false_r; [done|].
    symmetry. eapply fits_bit; [|done|done]. lia.
Qed.

Lemma lor_fits w x y : 0 ≤ w → fits w x → fits w y → fits w (Z.lor x y).
Proof.
  intros Hw Hx Hy. pose proof Hx as [? _]. pose proof Hy as [? _].
  apply bounded_bits; [done|by apply Z.lor_nonneg|].
  intros k Hk. rewrite Z.lor_spec, (fits_bit w x), (fits_bit w y) by done. done.
Qed.

Lemma land_fits w x y : 0 ≤ w → fits w x → 0 ≤ y → fits w (Z.land x y).
Proof.
  intros Hw Hx Hy. pose proof Hx as [? _].
  apply bounded_bits; [done|apply Z.land_nonneg; lia|].
  intros k Hk. by rewrite Z.land_spec, (fits_bit w x) by done.
Qed.

Lemma land_fits_r w x y : 0 ≤ w → fits w x → 0 ≤ y → fits w (Z.land y x).
Proof. rewrite Z.land_comm. apply land_fits. Qed.

Lemma set_base_address_fits a e : 0 ≤ a → 0 ≤ e → fits 64 (set_base_address a e).
Proof.
  intros. apply lor_fits; [lia|..].
  - apply (fits_mono 12); [lia|]. apply land_fits_r; [lia|by unfold fits|done].
  - apply land_fits_r; [lia|by unfold fits, not_fff|done].
Qed.

Lemma set_flag_fits i e : fits 64 e → fits 64 (set_flag i true e).
Proof.
  intros He. unfold set_flag, set_flags. apply lor_fits; [lia|..].
  - by apply land_fits.
  - apply (fits_mono 12); [lia|].
    apply land_fits_r; [lia|by unfold fits|]. by apply wrap_fits.
Qed.

Lemma base_address_set_flag i e :
  0 ≤ i < 12 → fits 64 e → base_address (set_flag i true e) = base_address e.
Proof.
  intros Hi He. apply Z.bits_inj'. intros n Hn. rewrite !base_address_bit, set_flag_bit by done.
  destruct (Z.leb_spec 12 n); [|done]. by rewrite bool_decide_eq_false_2 by lia.
Qed.

Lemma base_address_set_base a e : base_address (set_base_address a e) = base_address a.
Proof.
  apply Z.bits_inj'. intros n Hn. rewrite !base_address_bit, set_base_address_bit by done.
  destruct (Z.leb_spec 12 n); [|done]. destruct (Z.ltb_spec n 64); [|done].
  by rewrite (proj2 (Z.ltb_ge n 12)) by lia.
Qed.

Lemma get_flag_set_flag i j e :
  0 ≤ i < 12 → 0 ≤ j < 12 → fits 64 e →
  get_flag j (set_flag i true e) = bool_decide (j = i) || get_flag j e.
Proof. intros. rewrite !get_flag_bit, set_flag_bit by (done || lia). done. Qed.

Lemma base_address_eq a : fits 64 a → base_address a = a - a mod 4096.
Proof. apply page_base_eq. Qed.

Lemma base_address_page p : 0 ≤ p < 2 ^ 52 → base_address (p * 4096) = p * 4096.
Proof.
  intros. rewrite base_address_eq by (unfold fits; lia). rewrite Z.mod_mul by lia. lia.
Qed.

(** The entry [insert_mapping] writes for a new table. *)
Definition table_entry (pa e : Z) : Z := set_user (set_writable (set_present (set_base_address pa e))).

Lemma table_entry_spec p e :
  0 ≤ p < 2 ^ 52 → fits 64 e →
  fits 64 (table_entry (p * 4096) e) ∧ present (table_entry (p * 4096) e) = true ∧
  base_address (table_entry (p * 4096) e) = p * 4096.
Proof.
  intros Hp He. unfold table_entry, PRESENT, WRITABLE, ALLOW_USER.
  pose proof (set_base_address_fits (p * 4096) e ltac:(lia) ltac:(apply He)) as H0.
  pose proof (set_flag_fits 0 _ H0) as H1. pose proof (set_flag_fits 1 _ H1) as H2.
  split_and!.
  - by apply set_flag_fits.
  - by rewrite !get_flag_set_flag by (done || lia).
  - rewrite !base_address_set_flag by (done || lia).
    rewrite base_address_set_base. by apply base_address_page.
Qed.

(** ** Walking the tables in memory *)

Definition page_bytes : nat := Z.to_nat 4096.

Lemma page_bytes_eq : Z.of_nat page_bytes = 4096.
Proof. unfold page_bytes. lia. Qed.

#[local] Opaque page_bytes.

Definition slot (p idx : Z) : Z := p * 4096 + 8 * idx.
Definition entry (m : memory) (p idx : Z) : Z := ld64 m (slot p idx).

(** The table below an entry, by page frame. *)
Definition child (m : memory) (p idx : Z) : option Z :=
  if base_address (entry m p idx) =? 0 then None else Some (base_address (entry m p idx) / 4096).

(** The last-level entry for a path of indices, 0 when a table is missing. *)
Fixpoint walk (m : memory) (p : Z) (idxs : list Z) : Z :=
  match idxs with
  | [] => 0
  | i :: rest =>
      match rest with
      | [] => entry m p i
      | _ => match child m p i with Some q => walk m q rest | None => 0 end
      end
  end.

Lemma walk_cons m p i rest :
  rest ≠ [] → walk m p (i :: rest) = match child m p i with Some q => walk m q rest | None => 0 end.
Proof. by destruct rest. Qed.

Lemma slot_disjoint p idx q jdx :
  0 ≤ idx < 512 → 0 ≤ jdx < 512 → (p, idx) ≠ (q, jdx) →
  slot p idx + 8 ≤ slot q jdx ∨ slot q jdx + 8 ≤ slot p idx.
Proof.
  unfold slot. intros Hi Hj Hne.
  destruct (decide (p = q)) as [->|]; [|lia].
  assert (idx ≠ jdx) by congruence. lia.
Qed.

Lemma entry_st64 m p idx v q jdx :
  0 ≤ idx < 512 → 0 ≤ jdx < 512 → fits 64 v →
  entry (st64 m (slot p idx) v) q jdx = if decide ((q, jdx) = (p, idx)) then v else entry m q jdx.
Proof.
  intros Hi Hj Hv. unfold entry. case_decide as E.
  - simplify_eq. by apply ld64_st64_eq.
  - apply ld64_st64_ne. pose proof (slot_disjoint p idx q jdx Hi Hj). naive_solver.
Qed.

Lemma entry_zero m p q jdx :
  0 ≤ jdx < 512 → entry (zero_bytes page_bytes m (p * 4096)) q jdx = if decide (q = p) then 0 else entry m q jdx.
Proof.
  intros Hj. pose proof page_bytes_eq. unfold entry, slot. case_decide as E.
  - subst. apply ld64_zero; lia.
  - apply ld64_zero_ne. lia.
Qed.

Lemma child_zero m p idx : entry m p idx = 0 → child m p idx = None.
Proof. unfold child. by intros ->. Qed.

(** The slots of the top-level table that [install_default_kernel_mapping]
    fills point to tables the area does not own. *)
Definition user_slot (path : list Z) (idx : Z) : Prop :=
  0 ≤ idx < 512 ∧ (path = [] → idx ≠ 0x100 ∧ idx ≠ 0x1ff).

(** [own] gives every page frame that holds a table of the area the path of
    indices that leads to it.  Every slot of a table is empty or leads to the
    table of the extended path. *)
Record tables_ok (m : memory) (own : gmap Z (list Z)) (root : Z) : Prop := {
  tk_root : own !! root = Some [];
  tk_inj : ∀ p q path, own !! p = Some path → own !! q = Some path → p = q;
  tk_range : ∀ p path, own !! p = Some path → 0 < p < 2 ^ 20 ∧ (length path ≤ 3)%nat;
  tk_entry : ∀ p path idx, own !! p = Some path → (length path < 3)%nat → user_slot path idx →
    entry m p idx = 0 ∨
    ∃ q, own !! q = Some (path ++ [idx]) ∧ present (entry m p idx) = true ∧
      base_address (entry m p idx) = q * 4096;
  tk_parent : ∀ q path idx, own !! q = Some (path ++ [idx]) →
    user_slot path idx ∧ ∃ p, own !! p = Some path ∧ base_address (entry m p idx) = q * 4096;
}.

Section tables.
Context (own : gmap Z (list Z)) (root : Z).

(** A path of indices below a table: one for each level. *)
Definition user_path (path idxs : list Z) : Prop :=
  Forall (λ i, 0 ≤ i < 512) idxs ∧ (path = [] → head idxs ≠ Some 0x100 ∧ head idxs ≠ Some 0x1ff).

Lemma user_path_cons path i idxs :
  user_path path (i :: idxs) → user_slot path i ∧ user_path (path ++ [i]) idxs.
Proof.
  intros [Hf Hh]. inversion Hf; subst. split; split; [done|naive_solver|done|].
  intros E. by destruct path.
Qed.

Lemma child_spec m p path idx :
  tables_ok m own root → own !! p = Some path → (length path < 3)%nat → user_slot path idx →
  match child m p idx with
  | Some q => own !! q = Some (path ++ [idx]) ∧ present (entry m p idx) = true ∧
              base_address (entry m p idx) = q * 4096
  | None => entry m p idx = 0
  end.
Proof.
  intros Hok Hp Hlen Hu. unfold child.
  destruct (tk_entry _ _ _ Hok p path idx Hp Hlen Hu) as [->|(q & Hq & Hpr & Hb)]; [done|].
  rewrite Hb. pose proof (tk_range _ _ _ Hok q _ Hq) as [? _].
  rewrite (proj2 (Z.eqb_neq _ 0)) by lia. by rewrite Z.div_mul.
Qed.

(** A walk reads only entries of the area's tables. *)
Lemma walk_frame m m' p path idxs :
  tables_ok m own root → own !! p = Some path → (length path + length idxs = 4)%nat →
  user_path path idxs →
  (∀ q qpath jdx, own !! q = Some qpath → 0 ≤ jdx < 512 → entry m' q jdx = entry m q jdx) →
  walk m' p idxs = walk m p idxs.
Proof.
  intros Hok Hp Hlen Hu Hsame. revert p path Hp Hlen Hu.
  induction idxs as [|i rest IH]; intros p path Hp Hlen Hu; [done|].
  apply user_path_cons in Hu as [Hs Hu]. simpl in Hlen.
  assert (entry m' p i = entry m p i) as E by (eapply Hsame; [done|apply Hs]).
  destruct (decide (rest = [])) as [->|Hne]; [done|].
  rewrite !walk_cons by done.
  assert (length rest ≠ 0)%nat by (by destruct rest).
  pose proof (child_spec m p path i Hok Hp ltac:(lia) Hs) as Hc.
  unfold child in *. rewrite E. destruct (_ =? 0); [done|].
  eapply IH; [apply Hc| |done]. rewrite length_app. simpl. lia.
Qed.

Lemma walk_zero_page m q idxs :
  Forall (λ i, 0 ≤ i < 512) idxs → (∀ jdx, 0 ≤ jdx < 512 → entry m q jdx = 0) →
  walk m q idxs = 0.
Proof.
  intros Hf Hz. destruct idxs as [|i rest]; [done|]. inversion Hf; subst.
  destruct (decide (rest = [])) as [->|]; [simpl; by apply Hz|].
  rewrite walk_cons by done. by rewrite child_zero by (by apply Hz).
Qed.
End tables.

(** ** A new table *)

(** The memory after an empty slot has got a zeroed page [q] as its table. *)
Definition link_table (m : memory) (p idx q : Z) : memory :=
  let m0 := zero_bytes page_bytes m (q * 4096) in
  st64 m0 (slot p idx) (table_entry (q * 4096) (entry m0 p idx)).

Lemma base_address_0 : base_address 0 = 0.
Proof. reflexivity. Qed.

Lemma present_0 : present 0 = false.
Proof. reflexivity. Qed.

#[local] Opaque ld64 st64 zero_bytes table_entry base_address get_flag.

Section link.
Context (own : gmap Z (list Z)) (root : Z) (m : memory) (p idx q : Z) (path : list Z).
Context (Hok : tables_ok m own root) (Hp : own !! p = Some path) (Hlen : (length path < 3)%nat)
        (Hu : user_slot path idx) (Hq : own !! q = None) (Hqr : 0 < q < 2 ^ 20)
        (Hempty : entry m p idx = 0).

Let m' := link_table m p idx q.
Let own' := <[q := path ++ [idx]]> own.

Local Lemma q_ne_p : q ≠ p.
Proof. intros ->. congruence. Qed.

Local Lemma link_entry r jdx :
  0 ≤ jdx < 512 →
  entry m' r jdx =
    if decide ((r, jdx) = (p, idx)) then table_entry (q * 4096) 0
    else if decide (r = q) then 0 else entry m r jdx.
Proof.
  intros Hj. unfold m', link_table. destruct Hu as [Hidx _]. pose proof q_ne_p.
  assert (entry (zero_bytes page_bytes m (q * 4096)) p idx = 0) as ->.
  { by rewrite entry_zero, decide_False by (done || lia). }
  rewrite entry_st64, entry_zero; [done|done|done|done|].
  apply table_entry_spec; [lia|done].
Qed.

Local Lemma new_path_fresh r : own !! r ≠ Some (path ++ [idx]).
Proof.
  intros Hr. destruct (tk_parent _ _ _ Hok _ _ _ Hr) as (_ & p' & Hp' & Hb).
  rewrite (tk_inj _ _ _ Hok p' p path Hp' Hp), Hempty in Hb.
  pose proof (tk_range _ _ _ Hok r _ Hr). rewrite base_address_0 in Hb. lia.
Qed.

Lemma link_entry_old r rpath jdx :
  own !! r = Some rpath → 0 ≤ jdx < 512 → (r, jdx) ≠ (p, idx) → entry m' r jdx = entry m r jdx.
Proof.
  intros Hr Hj Hne. rewrite link_entry by done. rewrite !decide_False; [done|congruence|done].
Qed.

Lemma link_entry_new :
  present (entry m' p idx) = true ∧ base_address (entry m' p idx) = q * 4096.
Proof.
  rewrite link_entry by apply Hu. rewrite decide_True by done. apply table_entry_spec; [lia|done].
Qed.

Lemma link_tables_ok : tables_ok m' own' root.
Proof.
  pose proof new_path_fresh as Hfresh. pose proof link_entry_new as [Hpr Hb].
  assert (∀ r rpath, own !! r = Some rpath → own' !! r = Some rpath) as Hsub.
  { intros r rpath Hr. unfold own'. rewrite lookup_insert_ne; [done|congruence]. }
  split.
  - apply Hsub, Hok.
  - intros a b pth. unfold own'. rewrite !lookup_insert_Some. intros [[? ?]|[? Ha]] [[? ?]|[? Hb']].
    + congruence.
    + subst. destruct (Hfresh _ Hb').
    + subst. destruct (Hfresh _ Ha).
    + by eapply (tk_inj _ _ _ Hok).
  - intros r pth. unfold own'. rewrite lookup_insert_Some. intros [[<- <-]|[? Hr]].
    + rewrite length_app. simpl. lia.
    + by eapply (tk_range _ _ _ Hok).
  - intros r pth j Hr Hl Hs. unfold own' in Hr. apply lookup_insert_Some in Hr as [[<- <-]|[Hne Hr]].
    + left. rewrite link_entry by apply Hs. pose proof q_ne_p.
      rewrite decide_False by congruence. by rewrite decide_True.
    + destruct (decide ((r, j) = (p, idx))) as [E|Hrj].
      * injection E as -> ->. right. exists q. replace pth with path by congruence.
        split; [apply lookup_insert_eq|split; [exact Hpr|exact Hb]].
      * rewrite (link_entry_old r pth j Hr (proj1 Hs) Hrj).
        destruct (tk_entry _ _ _ Hok r pth j Hr Hl Hs) as [|(q' & Hq' & ?)]; [by left|].
        right. exists q'. split; [by apply Hsub|done].
  - intros r pth j Hr. unfold own' in Hr. apply lookup_insert_Some in Hr as [[<- E]|[Hne Hr]].
    + apply app_inj_tail in E as [<- <-]. split; [done|]. exists p. split; [by apply Hsub|done].
    + destruct (tk_parent _ _ _ Hok r pth j Hr) as (Hs & p' & Hp' & Hb'). split; [done|].
      exists p'. split; [by apply Hsub|].
      rewrite (link_entry_old p' pth j Hp' (proj1 Hs)); [exact Hb'|].
      intros E. injection E as -> ->. replace pth with path in Hr by congruence.
      destruct (Hfresh _ Hr).
Qed.

(** No translation changes. *)
Lemma link_walk r rpath idxs :
  own !! r = Some rpath → (length rpath + length idxs = 4)%nat → user_path rpath idxs →
  walk m' r idxs = walk m r idxs.
Proof.
  revert r rpath. induction idxs as [|i rest IH]; intros r rpath Hr Hl Hup; [done|].
  apply user_path_cons in Hup as [Hs Hup]. simpl in Hl.
  destruct (decide (rest = [])) as [->|Hne].
  - simpl. eapply link_entry_old; [done|apply Hs|]. intros E. injection E as -> ->.
    replace rpath with path in Hl by congruence. simpl in Hl. lia.
  - assert (length rest ≠ 0)%nat by (by destruct rest).
    rewrite !walk_cons by done. destruct (decide ((r, i) = (p, idx))) as [E|Hri].
    + injection E as -> ->. rewrite (child_zero m) by done.
      destruct link_entry_new as [_ Hb]. unfold child. rewrite Hb.
      rewrite (proj2 (Z.eqb_neq _ 0)), Z.div_mul by lia.
      apply walk_zero_page; [apply Hup|]. intros j Hj. rewrite link_entry by done.
      pose proof q_ne_p. rewrite decide_False by congruence. by rewrite decide_True.
    + pose proof (link_entry_old r rpath i Hr ltac:(apply Hs) Hri) as E.
      pose proof (child_spec own root m r rpath i Hok Hr ltac:(lia) Hs) as Hc.
      unfold child in *. rewrite E. destruct (_ =? 0); [done|].
      eapply IH; [apply Hc| |done]. rewrite length_app. simpl. lia.
Qed.
End link.

(** ** A last-level entry *)

Section leaf.
Context (own : gmap Z (list Z)) (root : Z) (m : memory) (p l e : Z) (path : list Z).
Context (Hok : tables_ok m own root) (Hp : own !! p = Some path) (Hlen : length path = 3%nat)
        (Hl : 0 ≤ l < 512) (He : fits 64 e).

Let m' := st64 m (slot p l) e.

Local Lemma leaf_entry_old r rpath j :
  own !! r = Some rpath → (length rpath < 3)%nat → 0 ≤ j < 512 → entry m' r j = entry m r j.
Proof.
  intros Hr Hrl Hj. unfold m'. rewrite entry_st64, decide_False; [done| |done..].
  intros E. injection E as -> ->. replace rpath with path in Hrl by congruence. lia.
Qed.

Lemma leaf_tables_ok : tables_ok m' own root.
Proof.
  destruct Hok as [H1 H2 H3 H4 H5]. split; [done|done|done| |].
  - intros r rpath j Hr Hrl Hs. rewrite (leaf_entry_old r rpath) by (done || apply Hs). by apply H4.
  - intros r rpath j Hr. destruct (H5 r rpath j Hr) as (Hs & p' & Hp' & Hb). split; [done|].
    exists p'. split; [done|]. rewrite (leaf_entry_old p' rpath); [done|done| |apply Hs].
    apply H3 in Hr as [_ Hr]. rewrite length_app in Hr. simpl in Hr. lia.
Qed.

Local Lemma own_prefix rest pre r :
  own !! r = Some (pre ++ rest) → ∃ q, own !! q = Some pre.
Proof.
  revert r. induction rest as [|x rest IH] using rev_ind; intros r Hr.
  - exists r. by rewrite app_nil_r in Hr.
  - rewrite app_assoc in Hr. destruct (tk_parent _ _ _ Hok _ _ _ Hr) as (_ & q & Hq & _).
    by eapply IH.
Qed.

Local Lemma child_on_path r rpath i rest :
  own !! r = Some rpath → path = rpath ++ i :: rest →
  ∃ q, child m r i = Some q ∧ own !! q = Some (rpath ++ [i]).
Proof.
  intros Hr Epath. destruct (own_prefix rest (rpath ++ [i]) p) as [q Hq].
  { rewrite <- app_assoc. simpl. by rewrite <- Epath. }
  exists q. split; [|done]. destruct (tk_parent _ _ _ Hok _ _ _ Hq) as (_ & r' & Hr' & Hb).
  rewrite (tk_inj _ _ _ Hok r' r rpath Hr' Hr) in Hb. unfold child. rewrite Hb.
  pose proof (tk_range _ _ _ Hok q _ Hq). rewrite (proj2 (Z.eqb_neq _ 0)) by lia.
  by rewrite Z.div_mul.
Qed.

Lemma leaf_walk r rpath idxs :
  own !! r = Some rpath → (length rpath + length idxs = 4)%nat → user_path rpath idxs →
  walk m' r idxs = if decide (rpath ++ idxs = path ++ [l]) then e else walk m r idxs.
Proof.
  revert r rpath. induction idxs as [|i rest IH]; intros r rpath Hr Hlr Hup.
  { pose proof (tk_range _ _ _ Hok r rpath Hr). simpl in Hlr. lia. }
  apply user_path_cons in Hup as [Hs Hup]. simpl in Hlr.
  destruct (decide (rest = [])) as [->|Hne].
  - simpl. unfold m'. rewrite entry_st64 by (done || apply Hs).
    apply decide_ext. split.
    + intros E. injection E as -> ->. by replace rpath with path by congruence.
    + intros E. apply app_inj_tail in E as [-> ->]. by rewrite (tk_inj _ _ _ Hok r p path Hr Hp).
  - assert (length rest ≠ 0)%nat by (by destruct rest). rewrite !walk_cons by done.
    assert (entry m' r i = entry m r i) as E by (eapply leaf_entry_old; [done|lia|apply Hs]).
    assert (child m' r i = child m r i) as -> by (unfold child; by rewrite E).
    pose proof (child_spec own root m r rpath i Hok Hr ltac:(lia) Hs) as Hc.
    destruct (child m r i) as [q|] eqn:Hci.
    + destruct Hc as (Hq & _). rewrite (IH q (rpath ++ [i])); [|done|rewrite length_app; simpl; lia|done].
      by rewrite <- app_assoc.
    + rewrite decide_False; [done|]. intros Epath.
      assert (path = rpath ++ i :: removelast rest) as Ep.
      { rewrite (app_removelast_last 0 Hne) in Epath.
        change (i :: removelast rest ++ [List.last rest 0])
          with ((i :: removelast rest) ++ [List.last rest 0]) in Epath.
        rewrite app_assoc in Epath. by apply app_inj_tail in Epath as [? _]. }
      destruct (child_on_path r rpath i _ Hr Ep) as (q & ? & _). congruence.
Qed.
End leaf.

Lemma log2ceil_range n : 0 < n < 2 ^ 30 → 0 ≤ log2ceil n ≤ 30 ∧ n ≤ 2 ^ log2ceil n.
Proof.
  intros Hn. destruct (log2ceil_spec n) as [Hle Hmin]; [lia|].
  split; [|done]. split; [|apply Hmin; lia].
  destruct (decide (0 ≤ log2ceil n)) as [|Hneg]; [done|].
  rewrite Z.pow_neg_r in Hle by lia. lia.
Qed.

(** ** Table indices *)

Definition idx_path (va : Z) : list Z :=
  [va / 2 ^ 39 mod 512; va / 2 ^ 30 mod 512; va / 2 ^ 21 mod 512; va / 2 ^ 12 mod 512].

(** The lower half of the address space. *)
Definition user_va (va : Z) : Prop := 0 ≤ va < 2 ^ 47.

Lemma bits_div va a b : 0 ≤ a → b = a + 8 → u16 (BITS va a b) = va / 2 ^ a mod 512.
Proof.
  intros Ha ->. unfold BITS. replace (a + 8 - a + 1) with 9 by lia.
  change (Z.shiftl 1 9 - 1) with (Z.ones 9).
  rewrite Z.land_ones, Z.shiftr_div_pow2 by lia. change (2 ^ 9) with 512.
  apply wrap_small. pose proof (Z.mod_pos_bound (va / 2 ^ a) 512). unfold fits. lia.
Qed.

Lemma va_table_indicies_eq va :
  va_table_indicies va =
    (va / 2 ^ 39 mod 512, va / 2 ^ 30 mod 512, va / 2 ^ 21 mod 512, va / 2 ^ 12 mod 512).
Proof.
  unfold va_table_indicies.
  by rewrite (bits_div va 39 47), (bits_div va 30 38), (bits_div va 21 29), (bits_div va 12 20) by lia.
Qed.

Lemma idx_path_user va : user_va va → user_path [] (idx_path va).
Proof.
  intros Hva. split.
  - unfold idx_path. repeat constructor; apply Z.mod_pos_bound; lia.
  - intros _. simpl. assert (va / 2 ^ 39 mod 512 < 256); [|naive_solver lia].
    rewrite Z.mod_small.
    + apply Z.div_lt_upper_bound; unfold user_va in Hva; lia.
    + split; [apply Z.div_pos; unfold user_va in Hva; lia|].
      apply Z.div_lt_upper_bound; unfold user_va in Hva; lia.
Qed.

(** The indices determine the page. *)
Lemma idx_path_page va : user_va va → va / 4096 =
  ((va / 2 ^ 39 mod 512 * 512 + va / 2 ^ 30 mod 512) * 512 + va / 2 ^ 21 mod 512) * 512
    + va / 2 ^ 12 mod 512.
Proof.
  intros [H0 H47]. set (n := va / 4096).
  replace (va / 2 ^ 39) with (n / 512 / 512 / 512)
    by (unfold n; rewrite !Z.div_div by lia; f_equal).
  replace (va / 2 ^ 30) with (n / 512 / 512) by (unfold n; rewrite !Z.div_div by lia; f_equal).
  replace (va / 2 ^ 21) with (n / 512) by (unfold n; rewrite !Z.div_div by lia; f_equal).
  replace (va / 2 ^ 12) with n by done.
  assert (0 ≤ n < 2 ^ 35) as Hn.
  { unfold n. split; [apply Z.div_pos; lia|apply Z.div_lt_upper_bound; lia]. }
  clearbody n. set (n1 := n / 512). set (n2 := n1 / 512). set (n3 := n2 / 512).
  pose proof (Z.div_mod n 512 ltac:(lia)). pose proof (Z.div_mod n1 512 ltac:(lia)).
  pose proof (Z.div_mod n2 512 ltac:(lia)).
  pose proof (Z.mod_pos_bound n 512). pose proof (Z.mod_pos_bound n1 512).
  pose proof (Z.mod_pos_bound n2 512).
  rewrite (Z.mod_small n3) by lia. lia.
Qed.

Lemma idx_path_inj va va' :
  user_va va → user_va va' → idx_path va = idx_path va' ↔ va / 4096 = va' / 4096.
Proof.
  intros Hv Hv'. split.
  - intros E. rewrite (idx_path_page va Hv), (idx_path_page va' Hv'). unfold idx_path in E.
    injection E as -> -> -> ->. done.
  - intros E. unfold idx_path.
    assert (∀ k, 12 ≤ k → va / 2 ^ k = va' / 2 ^ k) as Hk.
    { intros k Hk. replace k with (12 + (k - 12)) by lia.
      rewrite Z.pow_add_r by lia.
      rewrite <- !Z.div_div by (pose proof (pow2_pos (k - 12)); lia).
      change (2 ^ 12) with 4096. by rewrite E. }
    by rewrite !Hk by lia.
Qed.

(** ** The operations on well-formed tables *)

Lemma tables_ok_frame m m' own root :
  tables_ok m own root →
  (∀ p path idx, own !! p = Some path → 0 ≤ idx < 512 → entry m' p idx = entry m p idx) →
  tables_ok m' own root.
Proof.
  intros [H1 H2 H3 H4 H5] Hsame. split; [done|done|done| |].
  - intros p path idx Hp Hl Hs. rewrite (Hsame p path idx Hp (proj1 Hs)). by apply H4.
  - intros q path idx Hq. destruct (H5 q path idx Hq) as (Hs & p & Hp & Hb). split; [done|].
    exists p. split; [done|]. by rewrite (Hsame p path idx Hp (proj1 Hs)).
Qed.

Lemma entry_ptr_window p idx :
  0 ≤ p < 2 ^ 20 → 0 ≤ idx < 512 → entry_ptr (PMEM_VA_START + p * 4096) idx = PMEM_VA_START + slot p idx.
Proof.
  intros. unfold entry_ptr, slot. rewrite wrap_small; [lia|]. unfold fits, PMEM_VA_START. lia.
Qed.

Lemma load64_slot m p idx :
  0 ≤ p < 2 ^ 20 → 0 ≤ idx < 512 → load64 m (PMEM_VA_START + slot p idx) = Ok (entry m p idx).
Proof. intros. unfold load64. by rewrite translate_Ok by (unfold slot; lia). Qed.

Lemma store64_slot m p idx e :
  0 ≤ p < 2 ^ 20 → 0 ≤ idx < 512 →
  store64 m (PMEM_VA_START + slot p idx) e = Ok (st64 m (slot p idx) e).
Proof. intros. unfold store64. by rewrite translate_Ok by (unfold slot; lia). Qed.

Section operations.
Context {A : Type} `{AlgorithmLaws A}.
Implicit Types (s : machine A) (v : VMA).

Lemma update_slot s p idx f :
  0 ≤ p < 2 ^ 20 → 0 ≤ idx < 512 →
  update_entry s (PMEM_VA_START + slot p idx) f =
    Ok (set_mem s (st64 (mem s) (slot p idx) (f (entry (mem s) p idx)))).
Proof. intros. unfold update_entry. rewrite load64_slot by done. simpl. by rewrite store64_slot. Qed.

(** Updating an entry twice. *)
Lemma update_slot_chain s p idx m e f :
  0 ≤ p < 2 ^ 20 → 0 ≤ idx < 512 → fits 64 e →
  mem s = st64 m (slot p idx) e →
  update_entry s (PMEM_VA_START + slot p idx) f =
    Ok (set_mem s (st64 m (slot p idx) (f e))).
Proof.
  intros Hp Hi He Hm. rewrite update_slot by done. rewrite Hm, entry_st64, st64_twice by done.
  by rewrite decide_True.
Qed.

Lemma pgd_to_vpa_Ok_inv p va :
  0 ≤ p < 2 ^ 52 → pgd_to_vpa p = Ok va → p < 2 ^ 20 ∧ va = PMEM_VA_START + p * 4096.
Proof.
  intros Hp Hva. unfold pgd_to_vpa, pgd_to_pa in Hva. rewrite pfn_to_pa_mul in Hva by done.
  apply pa_to_vpa_Ok_inv in Hva as [? ->]; [|lia]. split; [lia|done].
Qed.

(** What [allocate_phys] does, on success. *)
Lemma allocate_phys_spec v s order r v' s' :
  ready (pgalloc s) → (∀ j, available (page_descriptors (pgalloc s)) j → j < 2 ^ 52) →
  0 ≤ order ≤ 30 →
  allocate_phys v s order = Ok (r, v', s') →
  ∃ q, r = Some q ∧ 0 ≤ q ∧ q + 2 ^ order ≤ 2 ^ 20 ∧
    v' = MkVMA (page_allocations v ++ [(q, order)]) (pgt_phys_base v) (pgt_virt_base v)
           (next_free_address v) ∧
    ready (pgalloc s') ∧ free_run (page_descriptors (pgalloc s)) (2 ^ order) q ∧
    (∀ j, ty_at (page_descriptors (pgalloc s')) j =
       if decide (q ≤ j < q + 2 ^ order) then Some ALLOCATED
       else ty_at (page_descriptors (pgalloc s)) j) ∧
    mem s' = zero_bytes (Z.to_nat (2 ^ order * 4096)) (mem s) (q * 4096).
Proof.
  intros Hr Hlen Ho Hrun. unfold allocate_phys in Hrun. inv_result. destruct a as [r0 pa'].
  destruct (alloc_pages_spec _ _ _ _ Hr Ho Hb) as (q & -> & Hr' & _ & Hf & Hty). inv_result.
  rewrite pages_of_order_Ok in Hb1 by done. inv_result.
  pose proof (pow2_pos order ltac:(lia)). pose proof (free_run_range _ _ _ ltac:(done) Hf).
  assert (q < 2 ^ 52) by (apply Hlen, (proj1 (free_run_spec _ _ _) Hf); lia).
  apply pgd_to_vpa_Ok_inv in Hb0 as [Hq ->]; [|lia].
  unfold bzero in Hb2. inv_result. apply translate_Ok_inv in Hb0 as (E & ? & Hend).
  assert (a = q * 4096) as -> by lia. rewrite page_size_eq in *.
  exists q. split_and!; try done; lia.
Qed.
(** The invariant of an area: its tables are in order and lie in pages the
    allocator has marked allocated, and page 0 is never handed out. *)
Record vma_inv s v (own : gmap Z (list Z)) (root : Z) : Prop := {
  vi_ready : ready (pgalloc s);
  vi_size : ∀ j, available (page_descriptors (pgalloc s)) j → j < 2 ^ 52;
  vi_zero : ¬ available (page_descriptors (pgalloc s)) 0;
  vi_alloc : ∀ p path, own !! p = Some path → ty_at (page_descriptors (pgalloc s)) p = Some ALLOCATED;
  vi_tables : tables_ok (mem s) own root;
  vi_base : pgt_virt_base v = PMEM_VA_START + root * 4096;
}.

(** How the types may change: available pages may be taken. *)
Definition taken s s' : Prop := ∀ j,
  ty_at (page_descriptors (pgalloc s')) j = ty_at (page_descriptors (pgalloc s)) j ∨
  available (page_descriptors (pgalloc s)) j ∧
  ty_at (page_descriptors (pgalloc s')) j = Some ALLOCATED.

Lemma taken_trans s1 s2 s3 : taken s1 s2 → taken s2 s3 → taken s1 s3.
Proof.
  intros H12 H23 j. destruct (H12 j) as [E|[? E]], (H23 j) as [E'|[Ha ?]].
  - left. congruence.
  - right. unfold available in *. split; [congruence|done].
  - right. split; [done|congruence].
  - by right.
Qed.

(** Tables may have been added, but no translation has changed, and no byte
    outside the tables. *)
Record grows root s v (own : gmap Z (list Z)) s' v' (own' : gmap Z (list Z)) : Prop := {
  g_inv : vma_inv s' v' own' root;
  g_sub : ∀ p path, own !! p = Some path → own' !! p = Some path;
  g_fresh : ∀ p path, own' !! p = Some path →
    own !! p = Some path ∨ available (page_descriptors (pgalloc s)) p;
  g_taken : taken s s';
  g_walk : ∀ idxs, length idxs = 4%nat → user_path [] idxs →
    walk (mem s') root idxs = walk (mem s) root idxs;
  g_frame : ∀ x, own' !! (x / 4096) = None → ld8 (mem s') x = ld8 (mem s) x;
  g_next : next_free_address v' = next_free_address v;
}.

Lemma grows_refl root s v own : vma_inv s v own root → grows root s v own s v own.
Proof. intros Hi. split; try done; [by left|intros j; by left]. Qed.

Lemma available_taken s s' j :
  taken s s' → available (page_descriptors (pgalloc s')) j → available (page_descriptors (pgalloc s)) j.
Proof. unfold available. intros Ht Ha. destruct (Ht j) as [E|[_ E]]; congruence. Qed.

Lemma grows_trans root s1 v1 o1 s2 v2 o2 s3 v3 o3 :
  grows root s1 v1 o1 s2 v2 o2 → grows root s2 v2 o2 s3 v3 o3 → grows root s1 v1 o1 s3 v3 o3.
Proof.
  intros G1 G2. split.
  - apply G2.
  - intros p path Hp. by apply G2, G1.
  - intros p path Hp. destruct (g_fresh _ _ _ _ _ _ _ G2 p path Hp) as [Hp2|Ha].
    + by apply (g_fresh _ _ _ _ _ _ _ G1).
    + right. eapply available_taken; [apply G1|done].
  - eapply taken_trans; [apply G1|apply G2].
  - intros idxs Hl Hu. rewrite (g_walk _ _ _ _ _ _ _ G2) by done. by apply G1.
  - intros x Hx. rewrite (g_frame _ _ _ _ _ _ _ G2) by done. apply G1.
    destruct (o2 !! (x / 4096)) eqn:E; [|done].
    by rewrite (g_sub _ _ _ _ _ _ _ G2 _ _ E) in Hx.
  - rewrite (g_next _ _ _ _ _ _ _ G2). apply G1.
Qed.

Lemma ld8_st64_page m p idx e x :
  0 ≤ idx < 512 → x / 4096 ≠ p → ld8 (st64 m (slot p idx) e) x = ld8 m x.
Proof.
  intros Hi Hx. apply ld8_st64_ne. unfold slot.
  destruct (decide (p * 4096 ≤ x < p * 4096 + 4096)); [|lia]. destruct Hx.
  symmetry. apply (Z.div_unique_pos x 4096 p (x - p * 4096)); lia.
Qed.

Lemma ld8_zero_page m p n x :
  (∀ i, p ≤ i < p + Z.of_nat n → x / 4096 ≠ i) →
  ld8 (zero_bytes (n * page_bytes) m (p * 4096)) x = ld8 m x.
Proof.
  intros Hx. pose proof page_bytes_eq. rewrite ld8_zero_bytes, decide_False; [done|]. intros Hr.
  apply (Hx (x / 4096)); [|done]. pose proof (Z.div_mod x 4096). pose proof (Z.mod_pos_bound x 4096).
  lia.
Qed.

Lemma zero_keeps_tables s own root q n :
  tables_ok (mem s) own root →
  (∀ i, q ≤ i < q + Z.of_nat n → own !! i = None) →
  ∀ p path idx, own !! p = Some path → 0 ≤ idx < 512 →
    entry (zero_bytes (n * page_bytes) (mem s) (q * 4096)) p idx = entry (mem s) p idx.
Proof.
  intros Hok Hfree p path idx Hp Hi. pose proof page_bytes_eq. unfold entry, slot. apply ld64_zero_ne.
  destruct (decide (q ≤ p < q + Z.of_nat n)) as [Hr|]; [|lia].
  rewrite (Hfree p Hr) in Hp. done.
Qed.

Lemma run_not_owned s v own root q n i :
  vma_inv s v own root → free_run (page_descriptors (pgalloc s)) n q → q ≤ i < q + n → own !! i = None.
Proof.
  intros Hi Hf Hr. destruct (own !! i) as [path|] eqn:E; [|done].
  apply (vi_alloc _ _ _ _ Hi) in E. rewrite free_run_spec in Hf.
  specialize (Hf i Hr). unfold available in Hf. congruence.
Qed.

Lemma run_positive s v own root q n :
  vma_inv s v own root → 0 < n → free_run (page_descriptors (pgalloc s)) n q → 0 < q.
Proof.
  intros Hi Hn Hf. pose proof (free_run_range _ _ _ Hn Hf).
  destruct (decide (q = 0)) as [->|]; [|lia]. destruct (vi_zero _ _ _ _ Hi).
  apply (proj1 (free_run_spec _ _ _) Hf). lia.
Qed.

(** A block of pages, taken and zeroed, changes no translation. *)
Lemma allocate_phys_grows v s order r v' s' own root :
  vma_inv s v own root → 0 ≤ order ≤ 30 → allocate_phys v s order = Ok (r, v', s') →
  ∃ q, r = Some q ∧ 0 < q ∧ q + 2 ^ order ≤ 2 ^ 20 ∧
    free_run (page_descriptors (pgalloc s)) (2 ^ order) q ∧
    (∀ i, q ≤ i < q + 2 ^ order → ty_at (page_descriptors (pgalloc s')) i = Some ALLOCATED) ∧
    pgt_virt_base v' = pgt_virt_base v ∧ next_free_address v' = next_free_address v ∧
    taken s s' ∧ vma_inv s' v' own root ∧
    mem s' = zero_bytes (Z.to_nat (2 ^ order) * page_bytes) (mem s) (q * 4096).
Proof.
  intros Hi Ho Hrun.
  destruct (allocate_phys_spec v s order r v' s') as (q & -> & Hq & Hend & -> & Hr' & Hf & Hty & Hm);
    [apply Hi|apply Hi|done|done|].
  pose proof (pow2_pos order ltac:(lia)).
  rewrite Z2Nat.inj_mul in Hm by lia. change (Z.to_nat 4096) with page_bytes in Hm.
  assert (taken s s') as Htk.
  { intros j. rewrite Hty. case_decide as Hj; [right|by left].
    split; [by apply (proj1 (free_run_spec _ _ _) Hf)|done]. }
  exists q. split_and!; try done.
  - by eapply run_positive.
  - intros i Hir. by rewrite Hty, decide_True.
  - split; [done|..].
    + intros j Ha. apply (vi_size _ _ _ _ Hi). by eapply available_taken.
    + intros Ha. apply (vi_zero _ _ _ _ Hi). by eapply available_taken.
    + intros p path Hp. rewrite Hty. case_decide; [done|]. by eapply vi_alloc.
    + rewrite Hm. eapply tables_ok_frame; [apply Hi|].
      apply (zero_keeps_tables s own root q); [apply Hi|].
      intros i Hir. eapply run_not_owned; [done|done|lia].
    + apply Hi.
Qed.

Lemma zero_block_walk s v own root q n idxs :
  vma_inv s v own root → free_run (page_descriptors (pgalloc s)) (Z.of_nat n) q →
  length idxs = 4%nat → user_path [] idxs →
  walk (zero_bytes (n * page_bytes) (mem s) (q * 4096)) root idxs = walk (mem s) root idxs.
Proof.
  intros Hi Hf Hl Hu. eapply walk_frame; [apply Hi|apply Hi|simpl; lia|done|].
  apply (zero_keeps_tables s own root q n); [apply Hi|].
  intros i Hir. eapply run_not_owned; [done|done|lia].
Qed.

Lemma base_zero_empty s v own root p path idx :
  vma_inv s v own root → own !! p = Some path → (length path < 3)%nat → user_slot path idx →
  base_address (entry (mem s) p idx) = 0 → entry (mem s) p idx = 0.
Proof.
  intros Hi Hp Hl Hs Hb.
  destruct (tk_entry _ _ _ (vi_tables _ _ _ _ Hi) p path idx Hp Hl Hs) as [|(q & Hq & _ & Hb')]; [done|].
  pose proof (tk_range _ _ _ (vi_tables _ _ _ _ Hi) q _ Hq). lia.
Qed.

Lemma next_table_spec s v own root p path idx q :
  vma_inv s v own root → own !! p = Some path → (length path < 3)%nat → user_slot path idx →
  own !! q = Some (path ++ [idx]) →
  next_table s (PMEM_VA_START + slot p idx) = Ok (PMEM_VA_START + q * 4096).
Proof.
  intros Hi Hp Hl Hs Hq. pose proof (vi_tables _ _ _ _ Hi) as Hok.
  pose proof (tk_range _ _ _ Hok p _ Hp). pose proof (tk_range _ _ _ Hok q _ Hq).
  destruct (tk_parent _ _ _ Hok q path idx Hq) as (_ & p' & Hp' & Hb).
  rewrite (tk_inj _ _ _ Hok p' p path Hp' Hp) in Hb.
  unfold next_table. rewrite load64_slot by (lia || apply Hs). simpl.
  rewrite Hb, pa_to_vpa_Ok by lia. done.
Qed.

(** The four writes that enter a new table. *)
Lemma link_updates (v : VMA) s p idx q :
  0 ≤ p < 2 ^ 20 → 0 ≤ idx < 512 → 0 ≤ q < 2 ^ 20 →
  (s ← update_entry s (PMEM_VA_START + slot p idx) (set_base_address (pgd_to_pa q));
   s ← update_entry s (PMEM_VA_START + slot p idx) set_present;
   s ← update_entry s (PMEM_VA_START + slot p idx) set_writable;
   s ← update_entry s (PMEM_VA_START + slot p idx) set_user;
   Ok (v, s)) =
  Ok (v, set_mem s (st64 (mem s) (slot p idx) (table_entry (q * 4096) (entry (mem s) p idx)))).
Proof.
  intros Hp Hidx Hq. unfold pgd_to_pa. rewrite pfn_to_pa_mul by lia.
  rewrite update_slot by lia. simpl.
  pose proof (set_base_address_fits (q * 4096) (entry (mem s) p idx)
    ltac:(lia) ltac:(apply ld64_fits)) as F0.
  pose proof (set_flag_fits PRESENT _ F0) as F1. pose proof (set_flag_fits WRITABLE _ F1) as F2.
  erewrite (update_slot_chain _ p idx (mem s) _ _ Hp Hidx F0) by reflexivity. simpl.
  erewrite (update_slot_chain _ p idx (mem s) _ _ Hp Hidx F1) by reflexivity. simpl.
  erewrite (update_slot_chain _ p idx (mem s) _ _ Hp Hidx F2) by reflexivity. done.
Qed.

Lemma link_grows s v own root p path idx q v1 s1 m' :
  vma_inv s v own root → own !! p = Some path → (length path < 3)%nat → user_slot path idx →
  entry (mem s) p idx = 0 → 0 < q < 2 ^ 20 → own !! q = None →
  available (page_descriptors (pgalloc s)) q →
  ty_at (page_descriptors (pgalloc s1)) q = Some ALLOCATED →
  taken s s1 → vma_inv s1 v1 own root → next_free_address v1 = next_free_address v →
  m' = link_table (mem s) p idx q →
  grows root s v own (set_mem s1 m') v1 (<[q := path ++ [idx]]> own).
Proof.
  intros Hi Hp Hl Hs Hempty Hqr Hq Hav Hqa Htk Hi1 Hnx ->.
  pose proof (vi_tables _ _ _ _ Hi) as Hok. split.
  - split; [apply Hi1|apply Hi1|apply Hi1| |by apply link_tables_ok|apply Hi1].
    intros r rpath Hr. apply lookup_insert_Some in Hr as [[<- _]|[_ Hr]]; [done|].
    by eapply (vi_alloc _ _ _ _ Hi1).
  - intros r rpath Hr. rewrite lookup_insert_ne; [done|congruence].
  - intros r rpath Hr. apply lookup_insert_Some in Hr as [[<- _]|[_ Hr]]; [by right|by left].
  - done.
  - intros idxs Hlen Hu. eapply link_walk; [done..|apply Hok|done|done].
  - intros x Hx. apply lookup_insert_None in Hx as [Hx Hxq]. simpl. unfold link_table.
    rewrite ld8_st64_page; [|apply Hs|congruence].
    rewrite <- (Nat.mul_1_l page_bytes). apply (ld8_zero_page (mem s) q 1 x). intros i Hir. replace i with q by lia. congruence.
  - done.
Qed.

(** One level of [insert_mapping]. *)
Lemma ensure_table_spec s v own root p path idx v' s' :
  vma_inv s v own root → own !! p = Some path → (length path < 3)%nat → user_slot path idx →
  ensure_table v s (PMEM_VA_START + slot p idx) = Ok (v', s') →
  ∃ own' q, grows root s v own s' v' own' ∧ own' !! q = Some (path ++ [idx]).
Proof.
  intros Hi Hp Hl Hs Hrun. pose proof (vi_tables _ _ _ _ Hi) as Hok.
  pose proof (tk_range _ _ _ Hok p _ Hp) as [Hpr _]. pose proof (proj1 Hs) as Hidx.
  unfold ensure_table in Hrun. rewrite load64_slot in Hrun by lia. simpl in Hrun.
  destruct (Z.eqb_spec (base_address (entry (mem s) p idx)) 0) as [Hb|Hb].
  2: { simplify_eq. destruct (tk_entry _ _ _ Hok p path idx Hp Hl Hs) as [E|(q & Hq & _)].
       - by rewrite E in Hb.
       - exists own, q. split; [by apply grows_refl|done]. }
  pose proof (base_zero_empty _ _ _ _ _ _ _ Hi Hp Hl Hs Hb) as Hempty.
  apply bind_Ok_inv in Hrun as ([[r v1] s1] & Hal & Hrun).
  destruct (allocate_phys_grows v s 0 _ _ _ _ _ Hi ltac:(lia) Hal)
    as (q & -> & Hq & Hqe & Hf & Hqa & Hvb & Hnx & Htk & Hi1 & Hm).
  change (2 ^ 0) with 1 in *. cbn [get] in Hrun. rewrite bind_Ok in Hrun.
  rewrite link_updates in Hrun by lia. injection Hrun as <- <-.
  exists (<[q := path ++ [idx]]> own), q. split; [|apply lookup_insert_eq].
  apply (link_grows s v own root p path idx q v1 s1);
    [done|done|done|done|done|lia| | | |done|done|done|].
  - apply (run_not_owned s v own root q 1 q Hi Hf). lia.
  - apply (proj1 (free_run_spec _ _ _) Hf). lia.
  - apply Hqa. lia.
  - unfold link_table. rewrite Hm.
    assert (Z.to_nat 1 * page_bytes = page_bytes)%nat as -> by lia. reflexivity.
Qed.

(** What the tables say of an address. *)
Definition translation (m : memory) (root va : Z) : option Z :=
  let e := walk m root (idx_path va) in
  if present e then Some (Z.lor (base_address e) (page_offset va)) else None.

Lemma walk_level_spec s v own root p path idx jdx :
  vma_inv s v own root → own !! p = Some path → (length path < 3)%nat → user_slot path idx →
  0 ≤ jdx < 512 →
  walk_level s (PMEM_VA_START + slot p idx) jdx =
    Ok ((λ q, PMEM_VA_START + slot q jdx) <$> child (mem s) p idx) ∧
  ∀ q, child (mem s) p idx = Some q → own !! q = Some (path ++ [idx]).
Proof.
  intros Hi Hp Hl Hs Hj. pose proof (vi_tables _ _ _ _ Hi) as Hok.
  pose proof (tk_range _ _ _ Hok p _ Hp) as [Hpr _].
  pose proof (child_spec own root (mem s) p path idx Hok Hp Hl Hs) as Hc.
  unfold walk_level. rewrite load64_slot by (lia || apply Hs). rewrite bind_Ok.
  destruct (child (mem s) p idx) as [q|].
  - destruct Hc as (Hq & -> & ->). pose proof (tk_range _ _ _ Hok q _ Hq) as [Hqr _].
    rewrite pa_to_vpa_Ok by lia. rewrite bind_Ok.
    rewrite entry_ptr_window by lia. split; [done|]. intros q' E. by injection E as <-.
  - by rewrite Hc, present_0.
Qed.

(** [get_mapping] reads the tables: it never faults on an area's tables. *)
Lemma get_mapping_spec s v own root va :
  vma_inv s v own root → user_va va → get_mapping v s va = Ok (translation (mem s) root va).
Proof.
  intros Hi Hva. pose proof (vi_tables _ _ _ _ Hi) as Hok.
  pose proof (tk_root _ _ _ Hok) as Hroot. pose proof (tk_range _ _ _ Hok _ _ Hroot) as [Hrr _].
  pose proof (idx_path_user va Hva) as Hu.
  unfold get_mapping, translation. rewrite va_table_indicies_eq, (vi_base _ _ _ _ Hi).
  rewrite (proj2 (Z.eqb_neq _ 0)) by (unfold PMEM_VA_START; lia). unfold idx_path in *.
  set (i := va / 2 ^ 39 mod 512) in *. set (j := va / 2 ^ 30 mod 512) in *.
  set (k := va / 2 ^ 21 mod 512) in *. set (l := va / 2 ^ 12 mod 512) in *.
  apply user_path_cons in Hu as [Si Hu]. apply user_path_cons in Hu as [Sj Hu].
  apply user_path_cons in Hu as [Sk Hu]. apply user_path_cons in Hu as [Sl _].
  rewrite entry_ptr_window by (lia || apply Si). simpl app in *.
  destruct (walk_level_spec s v own root root [] i j Hi Hroot ltac:(simpl; lia) Si (proj1 Sj)) as [-> Hc1].
  rewrite bind_Ok, walk_cons by done.
  destruct (child (mem s) root i) as [p1|]; cbn [fmap option_fmap option_map]; [|by rewrite present_0].
  destruct (walk_level_spec s v own root p1 [i] j k Hi (Hc1 p1 eq_refl) ltac:(simpl; lia) Sj (proj1 Sk))
    as [-> Hc2].
  rewrite bind_Ok, walk_cons by done.
  destruct (child (mem s) p1 j) as [p2|]; cbn [fmap option_fmap option_map]; [|by rewrite present_0].
  destruct (walk_level_spec s v own root p2 [i; j] k l Hi (Hc2 p2 eq_refl) ltac:(simpl; lia) Sk (proj1 Sl))
    as [-> Hc3].
  rewrite bind_Ok, walk_cons by done.
  destruct (child (mem s) p2 k) as [p3|]; cbn [fmap option_fmap option_map]; [|by rewrite present_0].
  pose proof (tk_range _ _ _ Hok _ _ (Hc3 p3 eq_refl)) as [Hr3 _].
  rewrite load64_slot by (lia || apply Sl). rewrite bind_Ok. cbn [walk]. by case_match.
Qed.

(** The last-level entry [insert_mapping] leaves. *)
Definition leaf_entry (pa fl e : Z) : Z :=
  let e := set_base_address pa e in
  let e := if Z.land fl MF_Present =? 0 then e else set_present e in
  let e := if Z.land fl MF_Writable =? 0 then e else set_writable e in
  if Z.land fl MF_User =? 0 then e else set_user e.

Lemma optional_update (b : bool) s p idx m e f :
  0 ≤ p < 2 ^ 20 → 0 ≤ idx < 512 → fits 64 e → mem s = st64 m (slot p idx) e →
  (if b then Ok s else update_entry s (PMEM_VA_START + slot p idx) f) =
    Ok (set_mem s (st64 m (slot p idx) (if b then e else f e))).
Proof.
  intros Hp Hi He Hm. destruct b; [|by apply update_slot_chain].
  rewrite <- Hm. by destruct s.
Qed.

Lemma leaf_updates (v : VMA) s p idx pa fl :
  0 ≤ p < 2 ^ 20 → 0 ≤ idx < 512 → 0 ≤ pa →
  (s ← update_entry s (PMEM_VA_START + slot p idx) (set_base_address pa);
   s ← (if Z.land fl MF_Present =? 0 then Ok s
        else update_entry s (PMEM_VA_START + slot p idx) set_present);
   s ← (if Z.land fl MF_Writable =? 0 then Ok s
        else update_entry s (PMEM_VA_START + slot p idx) set_writable);
   s ← (if Z.land fl MF_User =? 0 then Ok s
        else update_entry s (PMEM_VA_START + slot p idx) set_user);
   Ok (v, s)) =
  Ok (v, set_mem s (st64 (mem s) (slot p idx) (leaf_entry pa fl (entry (mem s) p idx)))) ∧
  fits 64 (leaf_entry pa fl (entry (mem s) p idx)).
Proof.
  intros Hp Hidx Hpa. rewrite update_slot by lia. rewrite bind_Ok. unfold leaf_entry.
  set (e0 := set_base_address pa (entry (mem s) p idx)).
  assert (fits 64 e0) as F0 by (apply set_base_address_fits; [lia|apply ld64_fits]).
  erewrite (optional_update _ _ p idx (mem s) e0) by (done || reflexivity). rewrite bind_Ok.
  set (e1 := if Z.land fl MF_Present =? 0 then e0 else set_present e0).
  assert (fits 64 e1) as F1 by (unfold e1; case_match; [done|by apply set_flag_fits]).
  erewrite (optional_update _ _ p idx (mem s) e1) by (done || reflexivity). rewrite bind_Ok.
  set (e2 := if Z.land fl MF_Writable =? 0 then e1 else set_writable e1).
  assert (fits 64 e2) as F2 by (unfold e2; case_match; [done|by apply set_flag_fits]).
  erewrite (optional_update _ _ p idx (mem s) e2) by (done || reflexivity). rewrite bind_Ok.
  split; [done|]. case_match; [done|by apply set_flag_fits].
Qed.

(** One level of [insert_mapping] with the step to the next table. *)
Lemma level_spec {R} s v own root p path idx (K : Z → VMA → machine A → result R) r :
  vma_inv s v own root → own !! p = Some path → (length path < 3)%nat → user_slot path idx →
  ('(v, s) ← ensure_table v s (PMEM_VA_START + slot p idx);
   t ← next_table s (PMEM_VA_START + slot p idx); K t v s) = Ok r →
  ∃ s1 v1 own1 q, grows root s v own s1 v1 own1 ∧ own1 !! q = Some (path ++ [idx]) ∧
    0 ≤ q < 2 ^ 20 ∧ K (PMEM_VA_START + q * 4096) v1 s1 = Ok r.
Proof.
  intros Hi Hp Hl Hs Hrun. apply bind_Ok_inv in Hrun as ([v1 s1] & He & Hrun).
  destruct (ensure_table_spec _ _ _ _ _ _ _ _ _ Hi Hp Hl Hs He) as (own1 & q & G & Hq).
  pose proof (g_inv _ _ _ _ _ _ _ G) as Hi1.
  rewrite (next_table_spec s1 v1 own1 root p path idx q Hi1) in Hrun;
    [|by apply G|done|done|done].
  pose proof (tk_range _ _ _ (vi_tables _ _ _ _ Hi1) _ _ Hq) as [? _].
  exists s1, v1, own1, q. split_and!; [done|done|lia|lia|done].
Qed.

(** The last-level table has been reached: the entry is written. *)
Lemma leaf_spec s v own root p i j k l pa fl :
  vma_inv s v own root → own !! p = Some [i; j; k] → 0 ≤ l < 512 → 0 ≤ pa →
  fits 64 (leaf_entry pa fl (entry (mem s) p l)) →
  let s' := set_mem s (st64 (mem s) (slot p l) (leaf_entry pa fl (entry (mem s) p l))) in
  vma_inv s' v own root ∧
  (∀ x, own !! (x / 4096) = None → ld8 (mem s') x = ld8 (mem s) x) ∧
  ∀ idxs, length idxs = 4%nat → user_path [] idxs →
    walk (mem s') root idxs =
      if decide (idxs = [i; j; k; l]) then leaf_entry pa fl (walk (mem s) root idxs)
      else walk (mem s) root idxs.
Proof.
  intros Hi Hp Hl Hpa Hf s'. pose proof (vi_tables _ _ _ _ Hi) as Hok.
  set (e := leaf_entry pa fl (entry (mem s) p l)) in *. split_and!.
  - split; [apply Hi..| |apply Hi]. by apply (leaf_tables_ok own root (mem s) p l e [i; j; k]).
  - intros x Hx. apply ld8_st64_page; [done|congruence].
  - intros idxs Hlen Hu. unfold s'. cbn [mem set_mem].
    rewrite (leaf_walk own root (mem s) p l e [i; j; k] Hok Hp eq_refl Hl Hf root [] idxs)
      by (done || apply Hok). simpl app.
    case_decide as E; [|done]. unfold e. f_equal. subst idxs.
    (* rewriting the entry with what it holds changes no walk *)
    pose proof (leaf_walk own root (mem s) p l (entry (mem s) p l) [i; j; k] Hok Hp eq_refl Hl
      (ld64_fits _ _) root [] [i; j; k; l] (tk_root _ _ _ Hok) eq_refl Hu) as Hw.
    rewrite decide_True in Hw by done. rewrite <- Hw.
    eapply walk_frame; [done|apply Hok|done|done|].
    intros q qpath jdx Hq Hj. rewrite entry_st64 by (done || apply ld64_fits).
    case_decide as E; [|done]. by injection E as -> ->.
Qed.

(** [insert_mapping] changes the entry of its own page and no other. *)
Lemma insert_mapping_walk s v own root va pa fl v' s' :
  vma_inv s v own root → user_va va → 0 ≤ pa →
  insert_mapping v s va pa fl = Ok (v', s') →
  ∃ own' s1, grows root s v own s1 v' own' ∧ vma_inv s' v' own' root ∧ pgalloc s' = pgalloc s1 ∧
    (∀ x, own' !! (x / 4096) = None → ld8 (mem s') x = ld8 (mem s) x) ∧
    ∀ idxs, length idxs = 4%nat → user_path [] idxs →
      walk (mem s') root idxs =
        if decide (idxs = idx_path va) then leaf_entry pa fl (walk (mem s) root idxs)
        else walk (mem s) root idxs.
Proof.
  intros Hi Hva Hpa Hrun.
  pose proof (tk_root _ _ _ (vi_tables _ _ _ _ Hi)) as Hroot.
  pose proof (tk_range _ _ _ (vi_tables _ _ _ _ Hi) _ _ Hroot) as [Hrr _].
  pose proof (idx_path_user va Hva) as Hu.
  unfold insert_mapping in Hrun. rewrite va_table_indicies_eq, (vi_base _ _ _ _ Hi) in Hrun.
  unfold idx_path in *.
  set (i := va / 2 ^ 39 mod 512) in *. set (j := va / 2 ^ 30 mod 512) in *.
  set (k := va / 2 ^ 21 mod 512) in *. set (l := va / 2 ^ 12 mod 512) in *.
  apply user_path_cons in Hu as [Si Hu]. apply user_path_cons in Hu as [Sj Hu].
  apply user_path_cons in Hu as [Sk Hu]. apply user_path_cons in Hu as [Sl _]. simpl app in *.
  cbv zeta in Hrun. rewrite entry_ptr_window in Hrun by (lia || apply Si).
  apply (level_spec s v own root root [] i) in Hrun
    as (s1 & v1 & own1 & p1 & G1 & Hp1 & Hr1 & Hrun); [|done|done|simpl; lia|done].
  rewrite entry_ptr_window in Hrun by (lia || apply Sj).
  apply (level_spec s1 v1 own1 root p1 [i] j) in Hrun
    as (s2 & v2 & own2 & p2 & G2 & Hp2 & Hr2 & Hrun); [|apply G1|done|simpl; lia|done].
  rewrite entry_ptr_window in Hrun by (lia || apply Sk).
  apply (level_spec s2 v2 own2 root p2 [i; j] k) in Hrun
    as (s3 & v3 & own3 & p3 & G3 & Hp3 & Hr3 & Hrun); [|apply G2|done|simpl; lia|done].
  rewrite entry_ptr_window in Hrun by (lia || apply Sl).
  pose proof (grows_trans _ _ _ _ _ _ _ _ _ _ (grows_trans _ _ _ _ _ _ _ _ _ _ G1 G2) G3) as G.
  destruct (leaf_updates v3 s3 p3 l pa fl Hr3 (proj1 Sl) Hpa) as [Hrun' Hf].
  rewrite Hrun' in Hrun. injection Hrun as <- <-.
  destruct (leaf_spec s3 v3 own3 root p3 i j k l pa fl) as (Hi' & Hfr & Hw);
    [apply G|done|apply Sl|done|done|].
  exists own3, s3. split_and!; [done|done|done| |].
  - intros x Hx. rewrite Hfr by done. by apply G.
  - intros idxs Hl Hup. rewrite Hw by done. by rewrite (g_walk _ _ _ _ _ _ _ G).
Qed.

(** ** Effects on translations *)

Lemma leaf_present pa fl e :
  0 ≤ pa → fits 64 e → Z.land fl MF_Present ≠ 0 →
  present (leaf_entry pa fl e) = true ∧ base_address (leaf_entry pa fl e) = base_address pa.
Proof.
  intros Hpa He Hfl. unfold leaf_entry. rewrite (proj2 (Z.eqb_neq _ 0) Hfl).
  pose proof (set_base_address_fits pa e Hpa ltac:(apply He)) as F0.
  unfold PRESENT, WRITABLE, ALLOW_USER.
  pose proof (set_flag_fits 0 _ F0) as F1. pose proof (set_flag_fits 1 _ F1) as F2.
  repeat case_match; rewrite ?get_flag_set_flag, ?base_address_set_flag, ?base_address_set_base
    by (done || lia); done.
Qed.

Lemma base_or_offset a va : Z.lor (base_address a) (page_offset va) = base_address a + va mod 4096.
Proof.
  rewrite <- page_offset_mod.
  assert (Z.land (base_address a) (page_offset va) = 0) as Hz.
  { apply Z.bits_inj'. intros n Hn. rewrite Z.land_spec, base_address_bit, Z.bits_0 by done.
    unfold page_offset. change (page_size - 1) with 0xfff.
    rewrite Z.land_spec, fff_bit by done.
    destruct (Z.leb_spec 12 n), (Z.ltb_spec n 12); try lia; by rewrite ?andb_false_r. }
  by rewrite Z.add_nocarry_lxor, Z.lxor_lor.
Qed.

Lemma walk_fits m p idxs : fits 64 (walk m p idxs).
Proof.
  revert p. induction idxs as [|i rest IH]; intros p; [done|]. destruct rest as [|j rest].
  - apply ld64_fits.
  - rewrite walk_cons by done. destruct (child m p i); [apply IH|done].
Qed.

(** Everything [insert_mapping] does with the Present flag. *)
Lemma insert_mapping_spec s v own root va pa fl v' s' :
  vma_inv s v own root → user_va va → 0 ≤ pa → Z.land fl MF_Present ≠ 0 →
  insert_mapping v s va pa fl = Ok (v', s') →
  ∃ own', vma_inv s' v' own' root ∧ taken s s' ∧ next_free_address v' = next_free_address v ∧
    (∀ p path, own !! p = Some path → own' !! p = Some path) ∧
    (∀ p path, own' !! p = Some path →
       own !! p = Some path ∨ available (page_descriptors (pgalloc s)) p) ∧
    (∀ x, own' !! (x / 4096) = None → ld8 (mem s') x = ld8 (mem s) x) ∧
    ∀ va', user_va va' → translation (mem s') root va' =
      if decide (va' / 4096 = va / 4096) then Some (base_address pa + va' mod 4096)
      else translation (mem s) root va'.
Proof.
  intros Hi Hva Hpa Hfl Hrun.
  destruct (insert_mapping_walk _ _ _ _ _ _ _ _ _ Hi Hva Hpa Hrun)
    as (own' & s1 & G & Hi' & Hpg & Hfr & Hw).
  exists own'. split_and!; [done| |by apply G|by apply G|by apply G|done|].
  - intros j. rewrite Hpg. by apply G.
  - intros va' Hva'. unfold translation. rewrite Hw by (done || by apply idx_path_user).
    destruct (decide (va' / 4096 = va / 4096)) as [E|E].
    + rewrite decide_True by (by apply idx_path_inj).
      destruct (leaf_present pa fl (walk (mem s) root (idx_path va')) Hpa (walk_fits _ _ _) Hfl)
        as [-> ->]. by rewrite base_or_offset.
    + rewrite decide_False; [done|]. by rewrite idx_path_inj.
Qed.

(** The loop of [allocate_virt]. *)
Lemma map_pages_spec n s v own root vbase q v' s' :
  vma_inv s v own root → 0 ≤ vbase → vbase + Z.of_nat n * 4096 < 2 ^ 47 →
  0 ≤ q → q + Z.of_nat n < 2 ^ 52 →
  map_pages n v s vbase (q * 4096) = Ok (v', s') →
  ∃ own', vma_inv s' v' own' root ∧ taken s s' ∧ next_free_address v' = next_free_address v ∧
    (∀ p path, own !! p = Some path → own' !! p = Some path) ∧
    (∀ p path, own' !! p = Some path →
       own !! p = Some path ∨ available (page_descriptors (pgalloc s)) p) ∧
    (∀ x, own' !! (x / 4096) = None → ld8 (mem s') x = ld8 (mem s) x) ∧
    ∀ va', user_va va' → translation (mem s') root va' =
      if decide (vbase / 4096 ≤ va' / 4096 < vbase / 4096 + Z.of_nat n)
      then Some ((q + (va' / 4096 - vbase / 4096)) * 4096 + va' mod 4096)
      else translation (mem s) root va'.
Proof.
  revert s v own vbase q. induction n as [|n IH]; intros s v own vbase q Hi Hv Hend Hq Hqe Hrun.
  { injection Hrun as <- <-. exists own.
    split_and!; [done|intros j; by left|done|done|by left|done|].
    intros va' _. by rewrite decide_False by lia. }
  cbn [map_pages] in Hrun. apply bind_Ok_inv in Hrun as ([v1 s1] & Hins & Hrun).
  rewrite !wrap_small in Hrun by (unfold fits; lia).
  replace (q * 4096 + 0x1000) with ((q + 1) * 4096) in Hrun by lia.
  destruct (insert_mapping_spec s v own root vbase (q * 4096)
    (Z.lor (Z.lor MF_Present MF_User) MF_Writable) v1 s1 Hi ltac:(unfold user_va; lia)
    ltac:(lia) ltac:(done) Hins) as (own1 & Hi1 & Ht1 & Hn1 & Hs1 & Hf1 & Hb1 & Htr1).
  destruct (IH s1 v1 own1 (vbase + 0x1000) (q + 1) Hi1 ltac:(lia) ltac:(lia) ltac:(lia) ltac:(lia) Hrun)
    as (own2 & Hi2 & Ht2 & Hn2 & Hs2 & Hf2 & Hb2 & Htr2).
  exists own2. split_and!; [done|by eapply taken_trans|congruence|auto| | |].
  - intros p path Hp. destruct (Hf2 p path Hp) as [Hp1|Ha]; [by apply Hf1|].
    right. by eapply available_taken.
  - intros x Hx. rewrite Hb2 by done. apply Hb1.
    destruct (own1 !! (x / 4096)) eqn:E; [|done]. by rewrite (Hs2 _ _ E) in Hx.
  - intros va' Hva'. rewrite Htr2, Htr1 by done. rewrite base_address_page by lia.
    replace (vbase + 0x1000) with (vbase + 1 * 4096) by lia. rewrite Z.div_add by lia.
    repeat case_decide; try lia; try done; f_equal; lia.
Qed.

(** [allocate_virt]: the pages get a fresh block of consecutive frames, full
    of zeros. *)
Lemma allocate_virt_spec s v own root va n v' s' :
  vma_inv s v own root → 0 < n < 2 ^ 30 → 0 ≤ va → va + n * 4096 < 2 ^ 47 →
  allocate_virt v s va n = Ok (true, v', s') →
  ∃ own' q, vma_inv s' v' own' root ∧ taken s s' ∧ next_free_address v' = next_free_address v ∧
    0 < q ∧ q + n ≤ 2 ^ 20 ∧
    (∀ i, q ≤ i < q + n → available (page_descriptors (pgalloc s)) i ∧ own' !! i = None ∧
       ty_at (page_descriptors (pgalloc s')) i = Some ALLOCATED) ∧
    (∀ x, q * 4096 ≤ x < (q + n) * 4096 → ld8 (mem s') x = 0) ∧
    (∀ p path, own' !! p = Some path → own !! p = Some path ∨ available (page_descriptors (pgalloc s)) p) ∧
    (∀ x, ¬ available (page_descriptors (pgalloc s)) (x / 4096) → own !! (x / 4096) = None →
       ld8 (mem s') x = ld8 (mem s) x) ∧
    ∀ va', user_va va' → translation (mem s') root va' =
      if decide (va / 4096 ≤ va' / 4096 < va / 4096 + n)
      then Some ((q + (va' / 4096 - va / 4096)) * 4096 + va' mod 4096)
      else translation (mem s) root va'.
Proof.
  intros Hi Hn Hva Hend Hrun. unfold allocate_virt in Hrun.
  rewrite (proj2 (Z.eqb_neq n 0)) in Hrun by lia.
  rewrite !wrap_small in Hrun by (unfold fits; lia).
  destruct (log2ceil_range n) as (Hlo & Hle); [lia|].
  apply bind_Ok_inv in Hrun as ([[r v1] s1] & Hal & Hrun).
  destruct (allocate_phys_grows v s (log2ceil n) _ _ _ _ _ Hi ltac:(lia) Hal)
    as (q & -> & Hq & Hqe & Hf & Hqa & Hvb & Hnx & Htk & Hi1 & Hm).
  apply bind_Ok_inv in Hrun as ([v2 s2] & Hmap & Hrun). injection Hrun as <- <-.
  unfold pgd_to_pa in Hmap. rewrite pfn_to_pa_mul in Hmap by lia.
  destruct (map_pages_spec (Z.to_nat n) s1 v1 own root va q v2 s2 Hi1)
    as (own2 & Hi2 & Ht2 & Hn2 & Hs2 & Hf2 & Hb2 & Htr2); [lia..|done|].
  rewrite Z2Nat.id in Htr2 by lia.
  assert (∀ i, q ≤ i < q + 2 ^ log2ceil n → available (page_descriptors (pgalloc s)) i ∧ own2 !! i = None ∧
    ty_at (page_descriptors (pgalloc s2)) i = Some ALLOCATED) as Hblk.
  { intros i Hir. split; [apply (proj1 (free_run_spec _ _ _) Hf); lia|]. split.
    - destruct (own2 !! i) as [path|] eqn:E; [|done]. destruct (Hf2 i path E) as [Ho|Ha].
      + rewrite (run_not_owned s v own root q _ i Hi Hf) in Ho by lia. done.
      + unfold available in Ha. rewrite Hqa in Ha by lia. done.
    - destruct (Ht2 i) as [->|[_ E]]; [apply Hqa; lia|done]. }
  exists own2, q. split_and!; [done|by eapply taken_trans|congruence|done|lia|intros i Hir; apply Hblk; lia| | | |].
  - intros x Hx. rewrite Hb2.
    + rewrite Hm, ld8_zero_bytes, decide_True; [done|]. pose proof page_bytes_eq.
      rewrite Nat2Z.inj_mul, Z2Nat.id by lia. nia.
    + apply Hblk. pose proof (Z.div_mod x 4096). pose proof (Z.mod_pos_bound x 4096). lia.
  - intros p path Hp. destruct (Hf2 p path Hp) as [Ho|Ha]; [by left|right]. by eapply available_taken.
  - intros x Hna Hno. rewrite Hb2.
    + rewrite Hm, ld8_zero_bytes, decide_False; [done|]. intros Hx. apply Hna.
      apply (Hblk (x / 4096)). pose proof page_bytes_eq.
      rewrite Nat2Z.inj_mul, Z2Nat.id in Hx by lia. split; [apply Z.div_le_lower_bound; lia|apply Z.div_lt_upper_bound; lia].
    + destruct (own2 !! (x / 4096)) as [path|] eqn:E; [|done]. destruct (Hf2 _ _ E) as [Ho|Ha]; [congruence|].
      destruct Hna. by eapply available_taken.
  - intros va' Hva'. rewrite Htr2 by done. case_decide; [done|].
    unfold translation. f_equal. rewrite Hm. erewrite (zero_block_walk s v own root q); [done|done| | |].
    + rewrite Z2Nat.id by lia. done.
    + done.
    + by apply idx_path_user.
Qed.

(** ** Construction, kernel slots and copying *)

Lemma new_vma_inv s v s' :
  ready (pgalloc s) → (∀ j, available (page_descriptors (pgalloc s)) j → j < 2 ^ 52) →
  ¬ available (page_descriptors (pgalloc s)) 0 → new_vma s = Ok (v, s') →
  ∃ root, vma_inv s' v {[root := []]} root ∧ taken s s' ∧ next_free_address v = 0xfff00000000 ∧
    ∀ va, user_va va → translation (mem s') root va = None.
Proof.
  intros Hr Hsz Hz Hrun. unfold new_vma in Hrun.
  apply bind_Ok_inv in Hrun as ([[r v1] s1] & Hal & Hrun).
  destruct (allocate_phys_spec _ s 0 r v1 s1 Hr Hsz ltac:(lia) Hal)
    as (q & -> & Hq & Hqe & -> & Hr' & Hf & Hty & Hm).
  change (2 ^ 0) with 1 in *. change (Z.to_nat (1 * 4096)) with page_bytes in Hm.
  cbn [get] in Hrun. rewrite bind_Ok in Hrun.
  apply bind_Ok_inv in Hrun as (va & Hva & Hrun). injection Hrun as <- <-.
  apply pgd_to_vpa_Ok_inv in Hva as [_ ->]; [|lia].
  assert (taken s s1) as Htk.
  { intros j. rewrite Hty. case_decide; [right|by left].
    split; [by apply (proj1 (free_run_spec _ _ _) Hf)|done]. }
  assert (q ≠ 0). { intros ->. apply Hz, (proj1 (free_run_spec _ _ _) Hf). lia. }
  assert (∀ idx, 0 ≤ idx < 512 → entry (mem s1) q idx = 0) as He.
  { intros idx Hidx. rewrite Hm, entry_zero by done. by rewrite decide_True. }
  exists q. split_and!; [|done|done|].
  - split; [done| | | | |done].
    + intros j Ha. by eapply Hsz, available_taken.
    + intros Ha. by eapply Hz, available_taken.
    + intros p path Hp. apply lookup_singleton_Some in Hp as [<- _]. rewrite Hty. by rewrite decide_True by lia.
    + split.
      * apply lookup_singleton_eq.
      * intros a b path Ha Hb. apply lookup_singleton_Some in Ha as [<- _], Hb as [<- _]. done.
      * intros p path Hp. apply lookup_singleton_Some in Hp as [<- <-]. simpl. lia.
      * intros p path idx Hp _ Hs. apply lookup_singleton_Some in Hp as [<- <-].
        left. apply He, Hs.
      * intros p path idx Hp. apply lookup_singleton_Some in Hp as [_ E]. by destruct path.
  - intros va Hva. unfold translation. rewrite walk_zero_page; [by rewrite present_0| |done].
    by apply idx_path_user.
Qed.

Lemma kernel_slot_ok s v own root idx e :
  vma_inv s v own root → idx = 0x100 ∨ idx = 0x1ff → fits 64 e →
  let s' := set_mem s (st64 (mem s) (slot root idx) e) in
  vma_inv s' v own root ∧
  ∀ idxs, length idxs = 4%nat → user_path [] idxs → walk (mem s') root idxs = walk (mem s) root idxs.
Proof.
  intros Hi Hidx He s'. pose proof (vi_tables _ _ _ _ Hi) as Hok.
  pose proof (tk_root _ _ _ Hok) as Hroot.
  assert (∀ p path j, own !! p = Some path → user_slot path j ∨ (length path = 3%nat ∧ 0 ≤ j < 512) →
    entry (mem s') p j = entry (mem s) p j) as Hsame.
  { intros p path j Hp Hj. assert (0 ≤ j < 512) as Hj' by (destruct Hj as [[? _]|[_ ?]]; done).
    unfold s'. cbn [mem set_mem]. rewrite entry_st64 by (done || lia).
    rewrite decide_False; [done|]. intros E. injection E as -> ->.
    assert (path = []) as -> by congruence. destruct Hj as [[_ Hj]|[Hj _]]; [naive_solver lia|done]. }
  split.
  - split; [apply Hi..| |apply Hi]. destruct Hok as [H1 H2 H3 H4 H5]. split; [done|done|done| |].
    + intros p path j Hp Hl Hs. rewrite (Hsame p path j Hp (or_introl Hs)). by apply H4.
    + intros p path j Hp. destruct (H5 p path j Hp) as (Hs & p' & Hp' & Hb). split; [done|].
      exists p'. split; [done|]. by rewrite (Hsame p' path j Hp' (or_introl Hs)).
  - intros idxs Hlen Hu. revert Hlen Hu.
    enough (∀ p path, own !! p = Some path → (length path + length idxs = 4)%nat → user_path path idxs →
      walk (mem s') p idxs = walk (mem s) p idxs) as Hgen by (intros; by eapply Hgen).
    induction idxs as [|i rest IH]; intros p path Hp Hl Hu; [done|].
    apply user_path_cons in Hu as [Hs Hu]. simpl in Hl.
    pose proof (Hsame p path i Hp (or_introl Hs)) as E.
    destruct (decide (rest = [])) as [->|Hne]; [done|].
    assert (length rest ≠ 0)%nat by (by destruct rest). rewrite !walk_cons by done.
    pose proof (child_spec own root (mem s) p path i Hok Hp ltac:(lia) Hs) as Hc.
    unfold child in *. rewrite E. destruct (_ =? 0); [done|].
    eapply IH; [apply Hc| |done]. rewrite length_app. simpl. lia.
Qed.

Lemma install_kernel_spec s v own root t s' :
  vma_inv s v own root → install_default_kernel_mapping (Some t) v s = Ok s' →
  vma_inv s' v own root ∧
  ∀ va, user_va va → translation (mem s') root va = translation (mem s) root va.
Proof.
  intros Hi Hrun. unfold install_default_kernel_mapping in Hrun. cbn [get] in Hrun.
  rewrite bind_Ok in Hrun. apply bind_Ok_inv in Hrun as (e1 & Hld1 & Hrun).
  pose proof (tk_range _ _ _ (vi_tables _ _ _ _ Hi) _ _ (tk_root _ _ _ (vi_tables _ _ _ _ Hi))) as [Hr _].
  rewrite (vi_base _ _ _ _ Hi), !entry_ptr_window, !store64_slot in Hrun by lia.
  rewrite bind_Ok in Hrun. apply bind_Ok_inv in Hrun as (e2 & Hld2 & Hrun).
  rewrite store64_slot in Hrun by lia. injection Hrun as <-.
  assert (∀ m p e, load64 m p = Ok e → fits 64 e) as Hfit.
  { intros m p e Hld. unfold load64 in Hld. apply bind_Ok_inv in Hld as (a & _ & Hld).
    injection Hld as <-. apply ld64_fits. }
  destruct (kernel_slot_ok s v own root 0x1ff e1 Hi) as [Hi1 Hw1]; [by right|by eapply Hfit|].
  destruct (kernel_slot_ok _ v own root 0x100 e2 Hi1) as [Hi2 Hw2]; [by left|by eapply Hfit|].
  split; [exact Hi2|]. intros va Hva. unfold translation.
  pose proof (idx_path_user va Hva) as Hu.
  rewrite <- (Hw1 (idx_path va) eq_refl Hu). by rewrite <- (Hw2 (idx_path va) eq_refl Hu).
Qed.
End operations.

(** ** Enough memory is enough: the operations return *)

(** At least [n] pages are available, all of them in the physical-memory
    window. *)
Definition spare (n : nat) (s : machine SimplePageAllocator) : Prop :=
  (∀ j, available (page_descriptors (pgalloc s)) j → j < 2 ^ 20) ∧
  ∃ l, NoDup l ∧ (n ≤ length l)%nat ∧ Forall (available (page_descriptors (pgalloc s))) l.

Lemma spare_mono n n' s : (n' ≤ n)%nat → spare n s → spare n' s.
Proof. intros Hle [H1 (l & ? & ? & ?)]. split; [done|]. exists l. split_and!; [done|lia|done]. Qed.

(** What the totality proofs need of such a supply of pages: one page can be
    taken from it at a time.  [spare] is the smallest supply; a contiguous one is
    used where blocks are allocated. *)
Class Budget (b : nat → machine SimplePageAllocator → Prop) := {
  budget_mono n n' s : (n' ≤ n)%nat → b n s → b n' s;
  budget_limit n s j : b n s → available (page_descriptors (pgalloc s)) j → j < 2 ^ 20;
  budget_mem n s s' : pgalloc s' = pgalloc s → b n s → b n s';
  budget_page v s n : ready (pgalloc s) → b (S n) s →
    ∃ q v' s', allocate_phys v s 0 = Ok (Some q, v', s') ∧ b n s';
}.

Lemma simple_alloc_page_total (pa : PageAllocator SimplePageAllocator) j :
  ready pa → available (page_descriptors pa) j → is_Ok (alloc_pages pa 0).
Proof.
  intros Hr Hj. pose proof Hr as Hr'. unfold ready in Hr'.
  destruct (algorithm pa) as [[nr]|] eqn:Ea; [|done]. simpl in Hr'. subst nr.
  destruct (first_fit (page_descriptors pa) (2 ^ 0)) as [p|] eqn:Hff.
  - eapply (alloc_pages_total pa 0 _ p); [done|lia|done|]. simpl.
    rewrite simple_allocate_spec by lia. unfold first_fit_answer. by rewrite Hff.
  - eapply first_fit_None in Hff; [|done]. destruct Hff. apply (proj2 (free_run_spec _ _ j)).
    intros i Hi. by replace i with j by lia.
Qed.

Lemma allocate_phys_total v (s : machine SimplePageAllocator) n :
  ready (pgalloc s) → spare (S n) s →
  ∃ q v' s', allocate_phys v s 0 = Ok (Some q, v', s') ∧ spare n s'.
Proof.
  intros Hr [Hlim (l & Hnd & Hlen & Hav)].
  destruct l as [|j l]; [simpl in Hlen; lia|].
  inversion Hav as [|? ? Hj Hl]; subst.
  destruct (simple_alloc_page_total _ _ Hr Hj) as [[r pa'] Hal].
  destruct (alloc_pages_spec _ 0 _ _ Hr ltac:(lia) Hal) as (q & -> & Hr' & _ & Hf & Hty).
  change (2 ^ 0) with 1 in *. rewrite free_run_spec in Hf.
  assert (q < 2 ^ 20) by (apply Hlim, Hf; lia).
  assert (0 ≤ q) by (pose proof (ty_at_range _ _ _ (Hf q ltac:(lia))); lia).
  unfold allocate_phys. rewrite Hal, bind_Ok. cbn beta iota zeta.
  unfold pgd_to_vpa, pgd_to_pa. rewrite pfn_to_pa_mul, pa_to_vpa_Ok, bind_Ok by lia.
  rewrite pages_of_order_Ok, bind_Ok by lia. unfold bzero.
  rewrite page_size_eq. change (2 ^ 0 * 4096) with 4096.
  rewrite translate_Ok, !bind_Ok by lia.
  eexists _, _, _. split; [reflexivity|]. split.
  - intros i Hi. apply Hlim. unfold available in *. cbn in Hi. rewrite Hty in Hi. by case_decide.
  - exists (filter (λ x, x ≠ q) (j :: l)). cbn [pgalloc]. split_and!.
    + by apply NoDup_filter.
    + pose proof (filter_remove_length q (j :: l) Hnd). lia.
    + apply Forall_forall. intros x [Hx Hin]%list_elem_of_filter.
      rewrite Forall_forall in Hav. unfold available. rewrite Hty, decide_False by lia.
      by apply Hav.
Qed.

#[export] Instance spare_budget : Budget spare.
Proof.
  split.
  - intros n n' s. apply spare_mono.
  - intros n s j [Hl _]. apply Hl.
  - intros n s s' E. unfold spare. by rewrite E.
  - intros v s n. apply allocate_phys_total.
Qed.

Section budget.
Context {b : nat → machine SimplePageAllocator → Prop} `{!Budget b}.

Lemma ensure_table_total s v own root p path idx n :
  vma_inv s v own root → own !! p = Some path → user_slot path idx → b (S n) s →
  ∃ v' s', ensure_table v s (PMEM_VA_START + slot p idx) = Ok (v', s') ∧ b n s'.
Proof.
  intros Hi Hp Hs Hsp. pose proof (vi_tables _ _ _ _ Hi) as Hok.
  pose proof (tk_range _ _ _ Hok p _ Hp) as [Hpr _]. pose proof (proj1 Hs) as Hidx.
  unfold ensure_table. rewrite load64_slot, bind_Ok by lia.
  case_match; [|eexists _, _; split; [done|by eapply (budget_mono (b := b)); [|done]; lia]].
  destruct (budget_page v s n (vi_ready _ _ _ _ Hi) Hsp) as (q & v1 & s1 & Hal & Hsp1).
  destruct (allocate_phys_grows v s 0 _ _ _ _ _ Hi ltac:(lia) Hal)
    as (q' & E & Hq & Hqe & _). injection E as <-. change (2 ^ 0) with 1 in Hqe.
  rewrite Hal, bind_Ok. cbn [get]. rewrite bind_Ok, link_updates by lia.
  eexists _, _. split; [done|]. by apply (budget_mem _ s1).
Qed.

Lemma level_total s v own root p path idx n :
  vma_inv s v own root → own !! p = Some path → (length path < 3)%nat → user_slot path idx →
  b (S n) s →
  ∃ s1 v1 own1 q, ensure_table v s (PMEM_VA_START + slot p idx) = Ok (v1, s1) ∧
    vma_inv s1 v1 own1 root ∧ own1 !! q = Some (path ++ [idx]) ∧ 0 ≤ q < 2 ^ 20 ∧
    next_table s1 (PMEM_VA_START + slot p idx) = Ok (PMEM_VA_START + q * 4096) ∧ b n s1.
Proof.
  intros Hi Hp Hl Hs Hsp.
  destruct (ensure_table_total _ _ _ _ _ _ _ _ Hi Hp Hs Hsp) as (v1 & s1 & He & Hsp1).
  destruct (ensure_table_spec _ _ _ _ _ _ _ _ _ Hi Hp Hl Hs He) as (own1 & q & G & Hq).
  pose proof (g_inv _ _ _ _ _ _ _ G) as Hi1.
  pose proof (tk_range _ _ _ (vi_tables _ _ _ _ Hi1) _ _ Hq) as [? _].
  exists s1, v1, own1, q. split_and!; [done|done|done|lia|lia| |done].
  eapply next_table_spec; [done|by apply G|done|done|done].
Qed.

(** With three pages to b [insert_mapping] returns. *)
Lemma insert_mapping_returns s v own root va pa fl n :
  vma_inv s v own root → user_va va → 0 ≤ pa → b (3 + n) s →
  ∃ v' s', insert_mapping v s va pa fl = Ok (v', s') ∧ b n s'.
Proof.
  intros Hi Hva Hpa Hsp.
  pose proof (tk_root _ _ _ (vi_tables _ _ _ _ Hi)) as Hroot.
  pose proof (tk_range _ _ _ (vi_tables _ _ _ _ Hi) _ _ Hroot) as [Hrr _].
  pose proof (idx_path_user va Hva) as Hu. unfold insert_mapping.
  rewrite va_table_indicies_eq, (vi_base _ _ _ _ Hi). unfold idx_path in *. cbv zeta.
  set (i := va / 2 ^ 39 mod 512) in *. set (j := va / 2 ^ 30 mod 512) in *.
  set (k := va / 2 ^ 21 mod 512) in *. set (l := va / 2 ^ 12 mod 512) in *.
  apply user_path_cons in Hu as [Si Hu]. apply user_path_cons in Hu as [Sj Hu].
  apply user_path_cons in Hu as [Sk Hu]. apply user_path_cons in Hu as [Sl _]. simpl app in *.
  rewrite entry_ptr_window by (lia || apply Si).
  destruct (level_total s v own root root [] i (2 + n))
    as (s1 & v1 & own1 & p1 & -> & Hi1 & Hp1 & Hr1 & Hn1 & Hsp1); [done|done|simpl; lia|done|done|].
  rewrite bind_Ok, Hn1, bind_Ok, entry_ptr_window by (lia || apply Sj).
  destruct (level_total s1 v1 own1 root p1 [i] j (1 + n))
    as (s2 & v2 & own2 & p2 & -> & Hi2 & Hp2 & Hr2 & Hn2 & Hsp2); [done|done|simpl; lia|done|done|].
  rewrite bind_Ok, Hn2, bind_Ok, entry_ptr_window by (lia || apply Sk).
  destruct (level_total s2 v2 own2 root p2 [i; j] k n)
    as (s3 & v3 & own3 & p3 & -> & Hi3 & Hp3 & Hr3 & Hn3 & Hsp3); [done|done|simpl; lia|done|done|].
  rewrite bind_Ok, Hn3, bind_Ok, entry_ptr_window by (lia || apply Sl).
  destruct (leaf_updates v3 s3 p3 l pa fl Hr3 (proj1 Sl) Hpa) as [-> _].
  eexists _, _. split; [done|]. by apply (budget_mem _ s3).
Qed.

Lemma new_vma_returns (s : machine SimplePageAllocator) n :
  ready (pgalloc s) → b (S n) s → ∃ v s', new_vma s = Ok (v, s') ∧ b n s'.
Proof.
  intros Hr Hsp. destruct (budget_page (MkVMA [] 0 0 0xfff00000000) s n Hr Hsp)
    as (q & v & s' & Hal & Hsp'). unfold new_vma. rewrite Hal, bind_Ok. cbn [get].
  rewrite bind_Ok.
  destruct (allocate_phys_spec (MkVMA [] 0 0 0xfff00000000) s 0 (Some q) v s')
    as (q' & E & Hq & Hqe & _); [done| |lia|done|].
  { intros j Hj. pose proof (budget_limit _ _ _ Hsp Hj). lia. }
  injection E as <-. change (2 ^ 0) with 1 in Hqe.
  unfold pgd_to_vpa, pgd_to_pa. rewrite pfn_to_pa_mul, pa_to_vpa_Ok, bind_Ok by lia.
  eexists _, _. split; [done|done].
Qed.
End budget.

(** Bytes written outside the tables change no translation. *)
Lemma outside_tables {A} `{AlgorithmLaws A} (s : machine A) v own root m' :
  vma_inv s v own root →
  (∀ x, is_Some (own !! (x / 4096)) → ld8 m' x = ld8 (mem s) x) →
  vma_inv (set_mem s m') v own root ∧
  ∀ va, user_va va → translation m' root va = translation (mem s) root va.
Proof.
  intros Hi Hx.
  assert (∀ p path idx, own !! p = Some path → 0 ≤ idx < 512 → entry m' p idx = entry (mem s) p idx) as He.
  { intros p path idx Hp Hidx. apply ld64_ext. intros x Hr. apply Hx.
    replace (x / 4096) with p; [by eexists|]. unfold slot in Hr.
    apply (Z.div_unique_pos x 4096 p (x - p * 4096)); lia. }
  split.
  - split; [apply Hi..| |apply Hi]. eapply tables_ok_frame; [apply Hi|done].
  - intros va Hva. unfold translation.
    by rewrite (walk_frame own root (mem s) m' root [] (idx_path va)
      (vi_tables _ _ _ _ Hi) (tk_root _ _ _ (vi_tables _ _ _ _ Hi)) eq_refl (idx_path_user va Hva) He).
Qed.

Lemma copy_to_spec {A} `{AlgorithmLaws A} (s : machine A) v own root q n base dest src :
  vma_inv s v own root → 0 < q → q + n ≤ 2 ^ 20 → 0 ≤ base → (base + n) * 4096 < 2 ^ 47 →
  (∀ i, q ≤ i < q + n → own !! i = None) →
  (∀ va, user_va va → base ≤ va / 4096 < base + n →
     translation (mem s) root va = Some ((q + (va / 4096 - base)) * 4096 + va mod 4096)) →
  base * 4096 ≤ dest < (base + n) * 4096 → dest + Z.of_nat (length src) ≤ (base + n) * 4096 →
  Forall (fits 8) src →
  ∃ s', copy_to v s dest src = Ok (true, s') ∧ vma_inv s' v own root ∧ pgalloc s' = pgalloc s ∧
    (∀ va, user_va va → translation (mem s') root va = translation (mem s) root va) ∧
    ∀ i b, src !! i = Some b → ∃ pa, get_mapping v s' (dest + Z.of_nat i) = Ok (Some pa) ∧
      ld8 (mem s') pa = b.
Proof.
  intros Hi Hq Hqn Hb Hbn Hown Htr Hd Hde Hsrc. set (pa0 := q * 4096 + (dest - base * 4096)).
  assert (∀ va, base * 4096 ≤ va < (base + n) * 4096 →
    translation (mem s) root va = Some (q * 4096 + (va - base * 4096))) as Htr'.
  { intros va Hva. pose proof (Z.div_mod va 4096). pose proof (Z.mod_pos_bound va 4096).
    rewrite Htr; [f_equal; lia|unfold user_va; lia|lia]. }
  unfold copy_to. rewrite (get_mapping_spec _ _ _ _ dest Hi) by (unfold user_va; lia).
  rewrite bind_Ok, Htr' by done. fold pa0. cbn beta iota.
  rewrite pa_to_vpa_Ok, bind_Ok by lia. unfold memcpy. rewrite translate_Ok, !bind_Ok by lia.
  set (m' := st_bytes (mem s) pa0 src).
  assert (∀ x, is_Some (own !! (x / 4096)) → ld8 m' x = ld8 (mem s) x) as Hout.
  { intros x [path Hx]. unfold m'. rewrite ld8_st_bytes by done. rewrite decide_False; [done|].
    intros Hr. rewrite Hown in Hx; [done|].
    pose proof (Z.div_mod x 4096). pose proof (Z.mod_pos_bound x 4096). lia. }
  destruct (outside_tables s v own root m' Hi Hout) as [Hi' Htr2].
  eexists. split_and!; [done|done|done|done|]. intros i b Hib.
  pose proof (lookup_lt_Some _ _ _ Hib).
  exists (pa0 + Z.of_nat i). rewrite (get_mapping_spec _ _ _ _ _ Hi') by (unfold user_va; lia).
  cbn [mem set_mem]. rewrite Htr2, Htr' by (unfold user_va; lia).
  split; [do 2 f_equal; lia|]. unfold m'. rewrite ld8_st_bytes, decide_True by (done || lia).
  replace (Z.to_nat (pa0 + Z.of_nat i - pa0)) with i by lia. by rewrite Hib.
Qed.

(** ** Properties *)

(** A machine with one reserved and fifteen available pages. *)
Definition demo_machine : machine SimplePageAllocator :=
  MkMachine (MkPA 16 (MkPD None None RESERVED :: replicate 15 (MkPD None None AVAILABLE))
    (Some (MkSimple 16))) ∅.

Lemma demo_available j :
  available (page_descriptors (pgalloc demo_machine)) j ↔ 1 ≤ j < 16.
Proof.
  split.
  - intros Ha. pose proof (ty_at_range _ _ _ Ha) as Hr. simpl in Hr.
    destruct (decide (j = 0)) as [->|]; [done|lia].
  - intros Hj. unfold available, ty_at. rewrite (proj2 (Z.leb_le 0 j)) by lia.
    replace (Z.to_nat j) with (S (Z.to_nat (j - 1))) by lia.
    assert (replicate 15 (MkPD None None AVAILABLE) !! Z.to_nat (j - 1) = Some (MkPD None None AVAILABLE))
      as E by (apply lookup_replicate_2; lia).
    change (type <$> replicate 15 (MkPD None None AVAILABLE) !! Z.to_nat (j - 1) = Some AVAILABLE).
    by rewrite E.
Qed.

Lemma demo_spare : spare 15 demo_machine.
Proof.
  split; [intros j Hj%demo_available; lia|]. exists (seqZ 1 15). split_and!.
  - apply NoDup_seqZ.
  - rewrite length_seqZ. lia.
  - apply Forall_forall. intros j Hj%elem_of_seqZ. apply demo_available. lia.
Qed.

(** A new area on the demo machine. *)
Lemma demo_vma : ∃ v s own root, new_vma demo_machine = Ok (v, s) ∧ vma_inv s v own root ∧ spare 14 s.
Proof.
  assert (ready (pgalloc demo_machine)) as Hr by reflexivity.
  destruct (new_vma_returns demo_machine 14 Hr demo_spare) as (v & s & Hnew & Hsp).
  destruct (new_vma_inv demo_machine v s Hr) as (root & Hi & _).
  - intros j Hj%demo_available. lia.
  - intros Hj%demo_available. lia.
  - done.
  - by exists v, s, {[root := []]}, root.
Qed.

(** C3. Page-table round trip and isolation.  On an area whose tables are
    well formed, mapping a user page with the Present flag makes [get_mapping]
    return the mapped frame with the offset of the address, for every address
    of that page; the translation of every address of every other page is what
    it was before; and the tables are well formed again. *)
Theorem insert_mapping_correct {A} `{AlgorithmLaws A} (s : machine A) v own root va pa fl v' s' :
  vma_inv s v own root → user_va va → 0 ≤ pa < 2 ^ 52 → Z.land fl MF_Present ≠ 0 →
  insert_mapping v s va pa fl = Ok (v', s') →
  (∃ own', vma_inv s' v' own' root) ∧
  ∀ va', user_va va' → get_mapping v' s' va' =
    if decide (va' / 4096 = va / 4096) then Ok (Some (page_base pa + page_offset va'))
    else get_mapping v s va'.
Proof.
  intros Hi Hva Hpa Hfl Hrun.
  destruct (insert_mapping_spec _ _ _ _ _ _ _ _ _ Hi Hva (proj1 Hpa) Hfl Hrun)
    as (own' & Hi' & _ & _ & _ & _ & _ & Htr).
  split; [by exists own'|]. intros va' Hva'.
  rewrite (get_mapping_spec _ _ _ _ _ Hi' Hva'), (get_mapping_spec _ _ _ _ _ Hi Hva'), Htr by done.
  case_decide; [|done]. by rewrite page_offset_mod.
Qed.

Lemma insert_mapping_correct_witness :
  ∃ v s v' s', new_vma demo_machine = Ok (v, s) ∧
    insert_mapping v s 0x400000 0x3000 MF_Present = Ok (v', s') ∧
    get_mapping v' s' 0x400123 = Ok (Some 0x3123).
Proof.
  destruct demo_vma as (v & s & own & root & Hnew & Hi & Hsp).
  assert (user_va 0x400000) as Hva by (unfold user_va; lia).
  destruct (insert_mapping_returns s v own root 0x400000 0x3000 MF_Present 11 Hi Hva)
    as (v' & s' & Hins & _); [lia|exact Hsp|].
  exists v, s, v', s'. split; [exact Hnew|]. split; [exact Hins|].
  destruct (insert_mapping_correct s v own root 0x400000 0x3000 MF_Present v' s' Hi Hva)
    as [_ Hget]; [lia|discriminate|exact Hins|].
  rewrite Hget by (unfold user_va; lia). vm_compute. reflexivity.
Defined.

(** [insert_mapping] terminates without a fault whenever three pages can
    still be allocated (one per missing level) and lie in the physical-memory
    window: it never needs more. *)
Theorem insert_mapping_total s v own root va pa fl :
  vma_inv s v own root → user_va va → 0 ≤ pa → spare 3 s →
  is_Ok (insert_mapping v s va pa fl).
Proof.
  intros Hi Hva Hpa Hsp.
  destruct (insert_mapping_returns s v own root va pa fl 0 Hi Hva Hpa Hsp) as (v' & s' & Hr & _).
  by eexists.
Qed.

Lemma insert_mapping_total_witness :
  ∃ v s, new_vma demo_machine = Ok (v, s) ∧ is_Ok (insert_mapping v s 0x7fffffffffff 0 0).
Proof.
  destruct demo_vma as (v & s & own & root & Hnew & Hi & Hsp).
  exists v, s. split; [exact Hnew|]. apply (insert_mapping_total s v own root).
  - exact Hi.
  - unfold user_va. lia.
  - lia.
  - eapply spare_mono; [|exact Hsp]. lia.
Defined.

(** C13. Memory obtained with [allocate_virt] can be written with [copy_to]
    and read back through the mapping.  The pages get consecutive frames that
    were free before, filled with zeros, and no other translation changes; a
    [copy_to] anywhere inside them, across page boundaries too, succeeds,
    changes no translation, and leaves each byte at the physical address the
    tables give for it. *)
Theorem allocate_virt_copy_to {A} `{AlgorithmLaws A} (s : machine A) v own root va n v' s' dest src :
  vma_inv s v own root → 0 < n < 2 ^ 30 → 0 ≤ va → va + n * 4096 < 2 ^ 47 →
  allocate_virt v s va n = Ok (true, v', s') →
  page_base va ≤ dest < page_base va + n * 4096 →
  dest + Z.of_nat (length src) ≤ page_base va + n * 4096 → Forall (fits 8) src →
  (∀ va', user_va va' → ¬ (page_base va ≤ va' < page_base va + n * 4096) →
     get_mapping v' s' va' = get_mapping v s va') ∧
  (∀ va', page_base va ≤ va' < page_base va + n * 4096 →
     ∃ pa, get_mapping v' s' va' = Ok (Some pa) ∧ ld8 (mem s') pa = 0 ∧
       available (page_descriptors (pgalloc s)) (pa_to_pfn pa)) ∧
  ∃ s'', copy_to v' s' dest src = Ok (true, s'') ∧
    (∀ va', user_va va' → get_mapping v' s'' va' = get_mapping v' s' va') ∧
    ∀ i b, src !! i = Some b → ∃ pa, get_mapping v' s'' (dest + Z.of_nat i) = Ok (Some pa) ∧
      ld8 (mem s'') pa = b.
Proof.
  intros Hi Hn Hva Hend Hrun. rewrite page_base_eq by (unfold fits; lia).
  assert (va - va mod 4096 = va / 4096 * 4096) as -> by (pose proof (Z.div_mod va 4096); lia).
  replace (va / 4096 * 4096 + n * 4096) with ((va / 4096 + n) * 4096) by lia.
  assert (0 ≤ va / 4096 ∧ (va / 4096 + n) * 4096 < 2 ^ 47) as [Hb0 Hbn].
  { pose proof (Z.div_mod va 4096). pose proof (Z.mod_pos_bound va 4096). lia. }
  intros Hd Hde Hsrc.
  destruct (allocate_virt_spec _ _ _ _ _ _ _ _ Hi Hn Hva Hend Hrun)
    as (own' & q & Hi' & _ & _ & Hq & Hqn & Hblk & Hz & _ & _ & Htr).
  split_and!.
  - intros va' Hu Hout.
    rewrite (get_mapping_spec _ _ _ _ _ Hi' Hu), (get_mapping_spec _ _ _ _ _ Hi Hu), Htr by done.
    rewrite decide_False; [done|]. pose proof (Z.div_mod va' 4096). pose proof (Z.mod_pos_bound va' 4096).
    lia.
  - intros va' Hin. pose proof (Z.div_mod va' 4096). pose proof (Z.mod_pos_bound va' 4096).
    rewrite (get_mapping_spec _ _ _ _ _ Hi') by (unfold user_va; lia).
    rewrite Htr, decide_True by (unfold user_va; lia). eexists. split; [done|].
    split; [apply Hz; lia|]. rewrite pa_to_pfn_div.
    rewrite Z.div_add_l, (Z.div_small (va' mod 4096)) by lia. apply Hblk. lia.
  - destruct (copy_to_spec s' v' own' root q n (va / 4096) dest src)
      as (s'' & Hc & Hi'' & _ & Htr'' & Hrd); try done.
    + intros i Hir. by apply Hblk.
    + intros va' Hu Hin. by rewrite Htr, decide_True by done.
    + exists s''. split_and!; [done| |done]. intros va' Hu.
      by rewrite (get_mapping_spec _ _ _ _ _ Hi'' Hu), (get_mapping_spec _ _ _ _ _ Hi' Hu), Htr''.
Qed.

Lemma demo_allocate v s own root :
  vma_inv s v own root → spare 6 s →
  ∃ v' s', allocate_virt v s 0x400000 1 = Ok (true, v', s').
Proof.
  intros Hi Hsp. unfold allocate_virt. change (log2ceil (u64 1)) with 0. cbn [Z.eqb].
  destruct (allocate_phys_total v s 5 (vi_ready _ _ _ _ Hi) Hsp) as (q & v1 & s1 & Hal & Hsp1).
  destruct (allocate_phys_grows v s 0 _ _ _ _ _ Hi ltac:(lia) Hal)
    as (q' & E & Hq & _ & _ & _ & _ & _ & _ & Hi1 & _). injection E as <-.
  rewrite Hal, bind_Ok. change (Z.to_nat (u32 1)) with 1%nat. cbn [map_pages].
  destruct (insert_mapping_returns s1 v1 own root 0x400000 (pgd_to_pa q)
    (Z.lor (Z.lor MF_Present MF_User) MF_Writable) 2 Hi1) as (v2 & s2 & -> & _).
  - unfold user_va. lia.
  - by apply wrap_fits.
  - exact Hsp1.
  - by eexists _, _.
Qed.

Lemma allocate_virt_copy_to_witness :
  ∃ v s v' s' s'' pa, new_vma demo_machine = Ok (v, s) ∧
    allocate_virt v s 0x400000 1 = Ok (true, v', s') ∧
    copy_to v' s' 0x400ffe [7; 9] = Ok (true, s'') ∧
    get_mapping v' s'' 0x400fff = Ok (Some pa) ∧ ld8 (mem s'') pa = 9.
Proof.
  destruct demo_vma as (v & s & own & root & Hnew & Hi & Hsp).
  destruct (demo_allocate v s own root Hi) as (v' & s' & Hal).
  { eapply spare_mono; [|exact Hsp]. lia. }
  destruct (allocate_virt_copy_to s v own root 0x400000 1 v' s' 0x400ffe [7; 9])
    as (_ & _ & s'' & Hc & _ & Hrd).
  - exact Hi.
  - lia.
  - lia.
  - lia.
  - exact Hal.
  - vm_compute. split; [discriminate|reflexivity].
  - vm_compute. discriminate.
  - repeat constructor; vm_compute; discriminate || reflexivity.
  - destruct (Hrd 1%nat 9 eq_refl) as (pa & Hg & Hb).
    exists v, s, v', s', s'', pa. auto.
Defined.

(** A new area maps no user address, and installing the kernel's entries
    into its top-level table keeps the tables well formed and changes no user
    translation. *)
Theorem new_vma_unmapped {A} `{AlgorithmLaws A} (s : machine A) v s' :
  ready (pgalloc s) → (∀ j, available (page_descriptors (pgalloc s)) j → j < 2 ^ 52) →
  ¬ available (page_descriptors (pgalloc s)) 0 → new_vma s = Ok (v, s') →
  ∃ own root, vma_inv s' v own root ∧
    (∀ va, user_va va → get_mapping v s' va = Ok None ∧ is_mapped v s' va = Ok false) ∧
    ∀ t s'', install_default_kernel_mapping (Some t) v s' = Ok s'' →
      vma_inv s'' v own root ∧ ∀ va, user_va va → get_mapping v s'' va = Ok None.
Proof.
  intros Hr Hsz Hz Hnew. destruct (new_vma_inv _ _ _ Hr Hsz Hz Hnew) as (root & Hi & _ & _ & Htr).
  exists {[root := []]}, root. split_and!; [done| |].
  - intros va Hva. unfold is_mapped. rewrite (get_mapping_spec _ _ _ _ _ Hi Hva), Htr by done. done.
  - intros t s'' Hk. destruct (install_kernel_spec _ _ _ _ _ _ Hi Hk) as [Hi2 Htr2].
    split; [done|]. intros va Hva. by rewrite (get_mapping_spec _ _ _ _ _ Hi2 Hva), Htr2, Htr.
Qed.

Lemma new_vma_unmapped_witness :
  ∃ v s, new_vma demo_machine = Ok (v, s) ∧ get_mapping v s 0x1234567 = Ok None.
Proof.
  destruct demo_vma as (v & s & own & root & Hnew & _ & _).
  exists v, s. split; [exact Hnew|].
  destruct (new_vma_unmapped demo_machine v s) as (own' & root' & _ & Hm & _).
  - reflexivity.
  - intros j Hj. apply demo_available in Hj. lia.
  - intros Hj. apply demo_available in Hj. lia.
  - exact Hnew.
  - apply Hm. unfold user_va. lia.
Defined.
