(* ===== verification/UserMem.v ===== *)
(** * The memory of a process

    What a process sees through its page tables: a partial function from user
    addresses to bytes.  The operations of a virtual memory area that the kernel
    uses to build a process (mm/vma.cpp: [allocate_virt], [copy_to]) are shown to
    act on this view alone, also when frames hold the kernel's own data (the
    kernel stacks of the threads), and to return when enough contiguous memory
    is free. *)

From S2P Require Import Prelude Define PageAlloc PhysMem Vma.
Local Open Scope Z_scope.

(** The byte at a user address, when it is mapped. *)
Definition user_byte (m : memory) (root va : Z) : option Z := (λ pa, ld8 m pa) <$> translation m root va.

(** [lo, lo + n) as a decidable condition. *)
Abbreviation within lo n x := (lo ≤ x ∧ x < lo + n) (only parsing).

Lemma page_of x : x / 4096 * 4096 ≤ x < (x / 4096 + 1) * 4096.
Proof. pose proof (Z.div_mod x 4096). pose proof (Z.mod_pos_bound x 4096). lia. Qed.

Lemma page_unique p x : p * 4096 ≤ x < (p + 1) * 4096 → x / 4096 = p.
Proof. intros Hx. symmetry. apply (Z.div_unique_pos x 4096 p (x - p * 4096)); lia. Qed.

Section area.
Context {A : Type} `{AlgorithmLaws A}.
Implicit Types (s : machine A) (v : VMA) (own : gmap Z (list Z)) (K : Z → Prop).

(** The invariant of the memory of a process: on top of [vma_inv], every mapped
    page has a frame of its own, which is allocated and is neither a table nor
    one of the kernel's frames [K]. *)
Record area K s v own root : Prop := {
  ar_inv : vma_inv s v own root;
  ar_frame va pa : user_va va → translation (mem s) root va = Some pa →
    pa mod 4096 = va mod 4096 ∧ 0 < pa / 4096 < 2 ^ 20 ∧
    ty_at (page_descriptors (pgalloc s)) (pa / 4096) = Some ALLOCATED ∧ own !! (pa / 4096) = None ∧ ¬ K (pa / 4096);
  ar_inj va va' pa pa' : user_va va → user_va va' → translation (mem s) root va = Some pa →
    translation (mem s) root va' = Some pa' → pa / 4096 = pa' / 4096 → va / 4096 = va' / 4096;
  ar_kernel f : K f → ty_at (page_descriptors (pgalloc s)) f = Some ALLOCATED ∧ own !! f = None;
}.

Lemma allocated_not_available (pds : pages) f : ty_at pds f = Some ALLOCATED → ¬ available pds f.
Proof. unfold available. intros ->. done. Qed.

Lemma taken_allocated s s' f :
  taken s s' → ty_at (page_descriptors (pgalloc s)) f = Some ALLOCATED →
  ty_at (page_descriptors (pgalloc s')) f = Some ALLOCATED.
Proof. intros Ht E. destruct (Ht f) as [->|[_ ->]]; done. Qed.

(** The address [va] is in the pages of [base, base + n). *)
Lemma page_range base n va : base ≤ va / 4096 < base + n ↔ within (base * 4096) (n * 4096) va.
Proof. pose proof (page_of va). lia. Qed.

(** A block of [n] fresh frames from [q] on, mapped at page [base]: what
    [allocate_virt_spec] says of the state after an allocation. *)
Section block.
Context (K : Z → Prop) (s s' : machine A) (v v' : VMA) (own own' : gmap Z (list Z)) (root base n q : Z).
Context (Ha : area K s v own root) (Hi' : vma_inv s' v' own' root) (Htk : taken s s') (Hq : 0 < q) (Hqn : q + n ≤ 2 ^ 20).
Context (Hb : 0 ≤ base) (Hbn : (base + n) * 4096 ≤ 2 ^ 47).
Context (Hblk : ∀ i, q ≤ i < q + n → available (page_descriptors (pgalloc s)) i ∧ own' !! i = None ∧
  ty_at (page_descriptors (pgalloc s')) i = Some ALLOCATED).
Context (Hfr : ∀ p path, own' !! p = Some path → own !! p = Some path ∨ available (page_descriptors (pgalloc s)) p).
Context (Hout : ∀ x, ¬ available (page_descriptors (pgalloc s)) (x / 4096) → own !! (x / 4096) = None →
  ld8 (mem s') x = ld8 (mem s) x).
Context (Htr : ∀ x, user_va x → translation (mem s') root x =
  if decide (base ≤ x / 4096 < base + n) then Some ((q + (x / 4096 - base)) * 4096 + x mod 4096)
  else translation (mem s) root x).

Lemma block_new x :
  within (base * 4096) (n * 4096) x → translation (mem s') root x = Some (q * 4096 + (x - base * 4096)) ∧
  q ≤ (q * 4096 + (x - base * 4096)) / 4096 < q + n.
Proof.
  intros Hx. split.
  - rewrite Htr, decide_True by (by apply page_range || (unfold user_va; lia)). f_equal.
    pose proof (Z.div_mod x 4096). lia.
  - pose proof (page_of (q * 4096 + (x - base * 4096))). lia.
Qed.

Lemma block_old x pa :
  user_va x → ¬ within (base * 4096) (n * 4096) x → translation (mem s') root x = Some pa →
  translation (mem s) root x = Some pa.
Proof. intros Hx Hnot E. rewrite Htr, decide_False in E by (done || rewrite page_range; done). done. Qed.

Lemma block_same x f :
  x / 4096 = f → ty_at (page_descriptors (pgalloc s)) f = Some ALLOCATED → own !! f = None → ld8 (mem s') x = ld8 (mem s) x.
Proof. intros <- Ht Ho. apply Hout; [by apply allocated_not_available|done]. Qed.

Lemma block_no_table f :
  ty_at (page_descriptors (pgalloc s)) f = Some ALLOCATED → own !! f = None → own' !! f = None.
Proof.
  intros Ht Ho. destruct (own' !! f) as [path|] eqn:E; [|done]. destruct (Hfr _ _ E); [congruence|].
  by destruct (allocated_not_available _ _ Ht).
Qed.

Lemma block_fresh x pa y :
  user_va x → translation (mem s) root x = Some pa → within (base * 4096) (n * 4096) y →
  pa / 4096 ≠ (q * 4096 + (y - base * 4096)) / 4096.
Proof.
  intros Hx E Hy Heq. destruct (ar_frame _ _ _ _ _ Ha _ _ Hx E) as (_ & _ & Ht & _).
  rewrite Heq in Ht. apply (allocated_not_available _ _ Ht), Hblk, block_new, Hy.
Qed.

Lemma block_area : area K s' v' own' root.
Proof.
  split; [done| | |].
  - intros x pa Hx E. destruct (decide (within (base * 4096) (n * 4096) x)) as [Hin|Hnot].
    + destruct (block_new x Hin) as [En Hr]. simplify_eq. destruct (Hblk _ Hr) as (Hav & Ho & Hal).
      split_and!; [|lia|lia|done|done|].
      * replace (q * 4096 + (x - base * 4096)) with (x + (q - base) * 4096) by lia. by rewrite Z.mod_add.
      * intros HK. by apply (allocated_not_available _ _ (proj1 (ar_kernel _ _ _ _ _ Ha _ HK))).
    + apply block_old in E; [|done..]. destruct (ar_frame _ _ _ _ _ Ha _ _ Hx E) as (? & ? & Ht & Ho & ?).
      split_and!; [done|lia|lia|by eapply taken_allocated|by apply block_no_table|done].
  - intros x y pa pa' Hx Hy Ex Ey Heq.
    destruct (decide (within (base * 4096) (n * 4096) x)) as [Hix|Hix], (decide (within (base * 4096) (n * 4096) y)) as [Hiy|Hiy].
    + destruct (block_new x Hix) as [En _], (block_new y Hiy) as [En' _]. simplify_eq.
      replace (q * 4096 + (x - base * 4096)) with (x + (q - base) * 4096) in Heq by lia.
      replace (q * 4096 + (y - base * 4096)) with (y + (q - base) * 4096) in Heq by lia.
      rewrite !Z.div_add in Heq by lia. lia.
    + destruct (block_new x Hix) as [En _]. simplify_eq. apply block_old in Ey; [|done..]. by destruct (block_fresh _ _ _ Hy Ey Hix).
    + destruct (block_new y Hiy) as [En _]. simplify_eq. apply block_old in Ex; [|done..]. by destruct (block_fresh _ _ _ Hx Ex Hiy).
    + apply block_old in Ex, Ey; try done. by eapply (ar_inj _ _ _ _ _ Ha).
  - intros f Hf. destruct (ar_kernel _ _ _ _ _ Ha f Hf). split; [by eapply taken_allocated|by apply block_no_table].
Qed.
End block.

(** [allocate_virt] adds zeroed pages with consecutive frames to the view, and
    changes neither the rest of it nor the kernel's frames. *)
Lemma allocate_virt_area K s v own root va n v' s' :
  area K s v own root → 0 < n < 2 ^ 30 → 0 ≤ va → va + n * 4096 < 2 ^ 47 →
  allocate_virt v s va n = Ok (true, v', s') →
  ∃ own' q, area K s' v' own' root ∧ taken s s' ∧
    (∀ x, within (va / 4096 * 4096) (n * 4096) x → translation (mem s') root x = Some (q * 4096 + (x - va / 4096 * 4096))) ∧
    (∀ x, user_va x → user_byte (mem s') root x =
       if decide (within (va / 4096 * 4096) (n * 4096) x) then Some 0 else user_byte (mem s) root x) ∧
    ∀ x, K (x / 4096) → ld8 (mem s') x = ld8 (mem s) x.
Proof.
  intros Ha Hn Hva Hend Hrun.
  destruct (allocate_virt_spec _ _ _ _ _ _ _ _ (ar_inv _ _ _ _ _ Ha) Hn Hva Hend Hrun)
    as (own' & q & Hi' & Htk & _ & Hq & Hqn & Hblk & Hz & Hfr & Hout & Htr).
  set (base := va / 4096) in *. pose proof (page_of va) as Hpg. fold base in Hpg.
  assert (0 ≤ base) by lia. assert ((base + n) * 4096 ≤ 2 ^ 47) by lia.
  assert (Hnew : ∀ x, within (base * 4096) (n * 4096) x →
    translation (mem s') root x = Some (q * 4096 + (x - base * 4096)) ∧ q ≤ (q * 4096 + (x - base * 4096)) / 4096 < q + n)
    by (intros x; by eapply block_new).
  exists own', q. split_and!; [by eapply (block_area K s s' v v' own own' root base n q)|done|by apply Hnew| |].
  - intros x Hx. unfold user_byte. case_decide as Hin.
    + destruct (Hnew x Hin) as [-> Hr]. simpl. f_equal. apply Hz. lia.
    + rewrite Htr, decide_False by (done || rewrite page_range; done).
      destruct (translation (mem s) root x) as [pa|] eqn:E; [|done]. simpl. f_equal.
      destruct (ar_frame _ _ _ _ _ Ha _ _ Hx E) as (_ & _ & Ht & Ho & _). by eapply block_same.
  - intros x HK. destruct (ar_kernel _ _ _ _ _ Ha _ HK). by eapply block_same.
Qed.

(** Bytes written outside the tables. *)
Lemma area_outside K s v own root m' :
  area K s v own root → (∀ x, is_Some (own !! (x / 4096)) → ld8 m' x = ld8 (mem s) x) →
  area K (set_mem s m') v own root ∧ ∀ va, user_va va → translation m' root va = translation (mem s) root va.
Proof.
  intros Ha Hx. destruct (outside_tables s v own root m' (ar_inv _ _ _ _ _ Ha) Hx) as [Hi Htr].
  split; [|done]. split; [done| | |].
  - intros va pa Hva E. cbn [mem set_mem] in E. rewrite Htr in E by done. by apply (ar_frame _ _ _ _ _ Ha).
  - intros va va' pa pa' Hva Hva' E E'. cbn [mem set_mem] in E, E'. rewrite Htr in E, E' by done.
    by apply (ar_inj _ _ _ _ _ Ha).
  - apply Ha.
Qed.

(** A write into the kernel's frames does not show in the view. *)
Lemma kernel_write_area K s v own root m' :
  area K s v own root → (∀ x, ¬ K (x / 4096) → ld8 m' x = ld8 (mem s) x) →
  area K (set_mem s m') v own root ∧ ∀ va, user_va va → user_byte m' root va = user_byte (mem s) root va.
Proof.
  intros Ha Hx. destruct (area_outside K s v own root m' Ha) as [Ha' Htr].
  { intros x [path Ho]. apply Hx. intros HK. destruct (ar_kernel _ _ _ _ _ Ha _ HK). congruence. }
  split; [done|]. intros va Hva. unfold user_byte. rewrite Htr by done.
  destruct (translation (mem s) root va) as [pa|] eqn:E; [|done]. simpl. f_equal. apply Hx.
  by apply (ar_frame _ _ _ _ _ Ha _ _ Hva E).
Qed.

(** [copy_to] onto addresses with consecutive frames changes exactly the bytes it
    is given. *)
Lemma copy_to_area K s v own root dest src pa0 :
  area K s v own root → 0 ≤ dest → dest + Z.of_nat (length src) < 2 ^ 47 → Forall (fits 8) src →
  translation (mem s) root dest = Some pa0 →
  (∀ x, within dest (Z.of_nat (length src)) x → translation (mem s) root x = Some (pa0 + (x - dest))) →
  ∃ s', copy_to v s dest src = Ok (true, s') ∧ area K s' v own root ∧ pgalloc s' = pgalloc s ∧
    (∀ x, user_va x → user_byte (mem s') root x =
       if decide (within dest (Z.of_nat (length src)) x) then src !! Z.to_nat (x - dest) else user_byte (mem s) root x) ∧
    ∀ x, K (x / 4096) → ld8 (mem s') x = ld8 (mem s) x.
Proof.
  intros Ha Hd Hend Hsrc E0 Hcont. set (len := Z.of_nat (length src)) in *.
  assert (user_va dest) as Hud by (unfold user_va; lia).
  destruct (ar_frame _ _ _ _ _ Ha _ _ Hud E0) as (_ & Hp0 & _). pose proof (page_of pa0).
  assert (Hin : ∀ y, pa0 ≤ y < pa0 + len → translation (mem s) root (dest + (y - pa0)) = Some y).
  { intros y Hy. rewrite Hcont by lia. f_equal. lia. }
  assert (Hframe : ∀ y, pa0 ≤ y < pa0 + len → y < 2 ^ 32 ∧ own !! (y / 4096) = None ∧ ¬ K (y / 4096)).
  { intros y Hy. assert (user_va (dest + (y - pa0))) as Hu by (unfold user_va; lia).
    destruct (ar_frame _ _ _ _ _ Ha _ _ Hu (Hin y Hy)) as (_ & Hr & _ & Ho & HK).
    pose proof (page_of y). split; [lia|done]. }
  assert (pa0 + len ≤ 2 ^ 32).
  { destruct (decide (len = 0)); [lia|]. destruct (Hframe (pa0 + len - 1)); lia. }
  unfold copy_to. rewrite (get_mapping_spec _ _ _ _ dest (ar_inv _ _ _ _ _ Ha)), bind_Ok, E0 by done. cbn beta iota.
  rewrite pa_to_vpa_Ok, bind_Ok by lia. unfold memcpy. fold len. rewrite translate_Ok, !bind_Ok by lia.
  set (m' := st_bytes (mem s) pa0 src).
  assert (Hout : ∀ x, ¬ (pa0 ≤ x < pa0 + len) → ld8 m' x = ld8 (mem s) x).
  { intros x Hx. unfold m'. by rewrite ld8_st_bytes, decide_False. }
  destruct (area_outside K s v own root m' Ha) as [Ha' Htr].
  { intros x [path Ho]. apply Hout. intros Hx. destruct (Hframe x Hx) as (_ & ? & _). congruence. }
  eexists. split_and!; [done|done|done| |].
  - intros x Hx. unfold user_byte. cbn [mem set_mem]. rewrite Htr by done. case_decide as Hr.
    + rewrite Hcont by done. simpl. unfold m'. rewrite ld8_st_bytes, decide_True by (done || lia).
      replace (pa0 + (x - dest) - pa0) with (x - dest) by lia.
      destruct (lookup_lt_is_Some_2 src (Z.to_nat (x - dest))) as [b ->]; [lia|done].
    + destruct (translation (mem s) root x) as [pa|] eqn:E; [|done]. simpl. f_equal. apply Hout. intros Hpa.
      assert (user_va (dest + (pa - pa0))) as Hu by (unfold user_va; lia).
      pose proof (ar_inj _ _ _ _ _ Ha _ _ _ _ Hx Hu E (Hin pa Hpa) eq_refl).
      pose proof (proj1 (ar_frame _ _ _ _ _ Ha _ _ Hx E)). pose proof (proj1 (ar_frame _ _ _ _ _ Ha _ _ Hu (Hin pa Hpa))).
      pose proof (Z.div_mod x 4096). pose proof (Z.div_mod (dest + (pa - pa0)) 4096). lia.
  - intros x HK. apply Hout. intros Hx. by apply (Hframe x Hx).
Qed.

(** A view without pages. *)
Lemma empty_area s v own root :
  vma_inv s v own root → (∀ va, user_va va → translation (mem s) root va = None) → area (λ _, False) s v own root.
Proof.
  intros Hi Hn. split; [done| | |done].
  - intros va pa Hva E. by rewrite Hn in E.
  - intros va va' pa pa' Hva _ E. by rewrite Hn in E.
Qed.

(** Frames that the kernel takes for itself, such as the stack of a thread. *)
Lemma allocate_phys_area K s v own root order q v' s' :
  area K s v own root → 0 ≤ order ≤ 30 → allocate_phys v s order = Ok (Some q, v', s') →
  area (λ f, K f ∨ q ≤ f < q + 2 ^ order) s' v' own root ∧ 0 < q ∧ q + 2 ^ order ≤ 2 ^ 20 ∧ taken s s' ∧
  (∀ va, user_va va → user_byte (mem s') root va = user_byte (mem s) root va) ∧
  ∀ x, K (x / 4096) → ld8 (mem s') x = ld8 (mem s) x.
Proof.
  intros Ha Ho Hal. pose proof (ar_inv _ _ _ _ _ Ha) as Hi.
  destruct (allocate_phys_grows _ _ _ _ _ _ _ _ Hi Ho Hal)
    as (q' & E & Hq & Hqe & Hf & Hty & _ & _ & Htk & Hi' & Hm). injection E as <-.
  assert (Htr : ∀ va, user_va va → translation (mem s') root va = translation (mem s) root va).
  { intros va Hva. unfold translation. pose proof (pow2_pos order ltac:(lia)).
    rewrite Hm, (zero_block_walk s v own root q); [done|done| |done|by apply idx_path_user].
    by rewrite Z2Nat.id by lia. }
  assert (Hfix : ∀ x, ty_at (page_descriptors (pgalloc s)) (x / 4096) = Some ALLOCATED → ld8 (mem s') x = ld8 (mem s) x).
  { intros x Hx. rewrite Hm, ld8_zero_bytes, decide_False; [done|]. intros Hr.
    apply (allocated_not_available _ _ Hx), (proj1 (free_run_spec _ _ _) Hf). pose proof page_bytes_eq.
    pose proof (pow2_pos order ltac:(lia)). rewrite Nat2Z.inj_mul, Z2Nat.id in Hr by lia.
    pose proof (page_of x). lia. }
  assert (Hnew : ∀ f, ty_at (page_descriptors (pgalloc s)) f = Some ALLOCATED → ¬ (q ≤ f < q + 2 ^ order)).
  { intros f Hx Hr. apply (allocated_not_available _ _ Hx). by apply (proj1 (free_run_spec _ _ _) Hf). }
  split_and!; [|done|done|done| |].
  - split; [done| | |].
    + intros va pa Hva E. rewrite Htr in E by done.
      destruct (ar_frame _ _ _ _ _ Ha _ _ Hva E) as (? & ? & Ht & ? & ?). split_and!; [done|lia|lia| |done|].
      * by eapply taken_allocated.
      * intros [?|Hr]; [done|]. by apply (Hnew _ Ht).
    + intros va va' pa pa' Hva Hva' E E'. rewrite Htr in E, E' by done. by apply (ar_inj _ _ _ _ _ Ha).
    + intros f [HK|Hr].
      * destruct (ar_kernel _ _ _ _ _ Ha f HK). split; [by eapply taken_allocated|done].
      * split; [by apply Hty|]. by eapply (run_not_owned s).
  - intros va Hva. unfold user_byte. rewrite Htr by done.
    destruct (translation (mem s) root va) as [pa|] eqn:E; [|done]. simpl. f_equal. apply Hfix.
    by apply (ar_frame _ _ _ _ _ Ha _ _ Hva E).
  - intros x HK. apply Hfix, (ar_kernel _ _ _ _ _ Ha _ HK).
Qed.
End area.

(** ** Enough contiguous memory *)

(** A run of [n] available pages, all of them in the physical-memory window. *)
Definition contiguous (n : nat) (s : machine SimplePageAllocator) : Prop :=
  (∀ j, available (page_descriptors (pgalloc s)) j → j < 2 ^ 20) ∧
  ∃ p, free_run (page_descriptors (pgalloc s)) (Z.of_nat n) p.

Lemma free_run_sub pds n p n' p' : p ≤ p' → p' + n' ≤ p + n → free_run pds n p → free_run pds n' p'.
Proof. rewrite !free_run_spec. intros H1 H2 Hf i Hi. apply Hf. lia. Qed.

(** First fit takes a block from the front of the run, or leaves it alone. *)
Lemma allocate_phys_contiguous v s order n :
  ready (pgalloc s) → 0 ≤ order ≤ 20 → contiguous (n + Z.to_nat (2 ^ order)) s →
  ∃ q v' s', allocate_phys v s order = Ok (Some q, v', s') ∧ contiguous n s'.
Proof.
  intros Hr Ho [Hlim [p Hp]]. pose proof (pow2_pos order ltac:(lia)) as Hpos.
  rewrite Nat2Z.inj_add, Z2Nat.id in Hp by lia.
  pose proof Hr as Hr'. unfold ready in Hr'. destruct (algorithm (pgalloc s)) as [[nr]|] eqn:Ea; [|done].
  simpl in Hr'. subst nr. destruct (first_fit (page_descriptors (pgalloc s)) (2 ^ order)) as [q|] eqn:Hff.
  2:{ eapply (first_fit_None _ _ p) in Hff; [|done]. destruct Hff. eapply free_run_sub; [..|exact Hp]; lia. }
  destruct (first_fit_Some _ _ _ Hff) as [Hfq Hlow]. pose proof (free_run_range _ _ _ Hpos Hfq).
  assert (is_Ok (alloc_pages (pgalloc s) order)) as [[r pa'] Hal].
  { eapply (alloc_pages_total (pgalloc s) order _ q); [done|lia|done|]. simpl.
    rewrite simple_allocate_spec by lia. unfold first_fit_answer. by rewrite Hff. }
  destruct (alloc_pages_spec _ order _ _ Hr ltac:(lia) Hal) as (q' & -> & Hr' & _ & Hf & Hty).
  assert (q' = q) as ->.
  { unfold alloc_pages in Hal. rewrite Ea in Hal. simpl in Hal. rewrite simple_allocate_spec in Hal by lia.
    unfold first_fit_answer in Hal. rewrite Hff in Hal. simpl in Hal. inv_result. done. }
  assert (q + 2 ^ order ≤ 2 ^ 20).
  { assert (q + 2 ^ order - 1 < 2 ^ 20); [|lia]. apply Hlim, (proj1 (free_run_spec _ _ _) Hfq). lia. }
  unfold allocate_phys. rewrite Hal, bind_Ok. cbn beta iota zeta.
  unfold pgd_to_vpa, pgd_to_pa. rewrite pfn_to_pa_mul, pa_to_vpa_Ok, bind_Ok by lia.
  rewrite pages_of_order_Ok, bind_Ok by lia. unfold bzero. rewrite page_size_eq, translate_Ok, !bind_Ok by lia.
  eexists _, _, _. split; [reflexivity|]. split; cbn [pgalloc].
  - intros i Hi. apply Hlim. unfold available in *. rewrite Hty in Hi. by case_decide.
  - assert (0 ≤ p) by (pose proof (free_run_range _ (Z.of_nat n + 2 ^ order) p ltac:(lia) Hp); lia).
    assert (q ≤ p). { destruct (decide (p < q)) as [Hlt|]; [|lia]. destruct (Hlow p); [lia|]. eapply free_run_sub; [..|exact Hp]; lia. }
    exists (p + 2 ^ order). rewrite free_run_spec in *. intros i Hi. unfold available. rewrite Hty, decide_False by lia.
    apply Hp. lia.
Qed.

#[export] Instance contiguous_budget : Budget contiguous.
Proof.
  split.
  - intros n n' s Hle [Hl [p Hp]]. split; [done|]. exists p. eapply free_run_sub; [..|exact Hp]; lia.
  - intros n s j [Hl _]. apply Hl.
  - intros n s s' E. unfold contiguous. by rewrite E.
  - intros v s n Hr Hroom. apply (allocate_phys_contiguous v s 0 n Hr); [lia|]. by rewrite Nat.add_1_r.
Qed.

(** The pages that [allocate_virt] may need: the block, and three tables for each
    page. *)
Definition virt_cost (n : Z) : nat := Z.to_nat (2 ^ log2ceil n) + 3 * Z.to_nat n.

Lemma map_pages_contiguous n k s v own root vbase q :
  vma_inv s v own root → 0 ≤ vbase → vbase + Z.of_nat n * 4096 < 2 ^ 47 → 0 ≤ q → q + Z.of_nat n < 2 ^ 52 →
  contiguous (3 * n + k) s →
  ∃ v' s', map_pages n v s vbase (q * 4096) = Ok (v', s') ∧ contiguous k s'.
Proof.
  revert s v own vbase q. induction n as [|n IH]; intros s v own vbase q Hi Hv Hend Hq Hqe Hroom; cbn [map_pages].
  { eexists _, _. split; [done|]. by eapply (budget_mono (b := contiguous)); [|done]; lia. }
  replace (3 * S n + k)%nat with (3 + (3 * n + k))%nat in Hroom by lia.
  destruct (insert_mapping_returns s v own root vbase (q * 4096) (Z.lor (Z.lor MF_Present MF_User) MF_Writable) (3 * n + k) Hi)
    as (v1 & s1 & Hins & Hroom1); [unfold user_va; lia|lia|done|].
  rewrite Hins, bind_Ok, !wrap_small by (unfold fits; lia). replace (q * 4096 + 0x1000) with ((q + 1) * 4096) by lia.
  destruct (insert_mapping_spec s v own root vbase (q * 4096) (Z.lor (Z.lor MF_Present MF_User) MF_Writable) v1 s1 Hi
    ltac:(unfold user_va; lia) ltac:(lia) ltac:(done) Hins) as (own1 & Hi1 & _).
  eapply IH; [exact Hi1|lia..|done].
Qed.

Lemma allocate_virt_contiguous n k s v own root va :
  vma_inv s v own root → 0 < n ≤ 2 ^ 20 → 0 ≤ va → va + n * 4096 < 2 ^ 47 → contiguous (k + virt_cost n) s →
  ∃ v' s', allocate_virt v s va n = Ok (true, v', s') ∧ contiguous k s'.
Proof.
  intros Hi Hn Hva Hend Hroom. unfold allocate_virt. rewrite (proj2 (Z.eqb_neq n 0)) by lia.
  rewrite !wrap_small by (unfold fits; lia). unfold virt_cost in Hroom.
  assert (0 ≤ log2ceil n ≤ 20) as Hlog.
  { split; [by apply log2ceil_range; lia|]. destruct (log2ceil_spec n) as [_ Hmin]; [lia|]. apply Hmin; lia. }
  destruct (allocate_phys_contiguous v s (log2ceil n) (3 * Z.to_nat n + k)) as (q & v1 & s1 & Hal & Hroom1);
    [apply Hi|done|by eapply (budget_mono (b := contiguous)); [|done]; lia|].
  destruct (allocate_phys_grows v s (log2ceil n) _ _ _ _ _ Hi ltac:(lia) Hal)
    as (q' & E & Hq & Hqe & _ & _ & _ & _ & _ & Hi1 & _). injection E as <-.
  rewrite Hal, bind_Ok. cbn beta iota. unfold pgd_to_pa. pose proof (pow2_pos (log2ceil n) ltac:(lia)).
  rewrite pfn_to_pa_mul by lia. destruct (log2ceil_range n) as (_ & Hle); [lia|].
  destruct (map_pages_contiguous (Z.to_nat n) k s1 v1 own root va q Hi1) as (v2 & s2 & -> & Hroom2); [lia..|done|].
  by eexists _, _.
Qed.
