(* ===== verification/CppString.v ===== *)
(** * C strings and the String class

    util/string.cpp and include/infos/util/string.h.  A [char *] is the list of
    the bytes that follow the address (values 0 to 255, sign-extended where the
    code converts a [char] to a wider type); reading past the end of the list
    is a fault. *)

From S2P Require Import Prelude Define.
Local Open Scope Z_scope.

(** ** C strings *)

Abbreviation cstr := (list Z).

Fixpoint strlen_from (str : cstr) (counter : Z) : result Z :=
  match str with
  | [] => Err OutOfBounds
  | c :: str' => if c =? 0 then Ok counter else strlen_from str' (u64 (counter + 1))
  end.

(** [None] is the NULL pointer. *)
Definition strlen (str : option cstr) : result Z :=
  match str with None => Ok 0 | Some s => strlen_from s 0 end.

(** [while ( *str1 && *str2 && n--)]. *)
Fixpoint strncmp_loop (str1 str2 : cstr) (n : Z) : result Z :=
  match str1 with
  | [] => Err OutOfBounds
  | c1 :: str1' =>
      if c1 =? 0 then Ok 0 else
      match str2 with
      | [] => Err OutOfBounds
      | c2 :: str2' =>
          if c2 =? 0 then Ok 0
          else if n =? 0 then Ok 0
          else if negb (c1 =? c2) then Ok (-1)
          else strncmp_loop str1' str2' (u64 (n - 1))
      end
  end.

Definition strncmp (str1 str2 : cstr) (n : Z) : result Z :=
  l1 ← strlen (Some str1); l2 ← strlen (Some str2);
  if negb (l1 =? l2) then Ok (-1) else strncmp_loop str1 str2 n.

(** [while (--n && *src) *dest++ = *src++; *dest = 0;] with [dest] at offset
    [i] of its buffer. *)
Fixpoint strncpy_loop (dest : list Z) (i : Z) (src : cstr) (n : Z) : result (list Z) :=
  let n := u64 (n - 1) in
  if n =? 0 then wr dest i 0 else
  match src with
  | [] => Err OutOfBounds
  | c :: src' =>
      if c =? 0 then wr dest i 0
      else dest ← wr dest i c; strncpy_loop dest (i + 1) src' n
  end.

Definition strncpy (dest : list Z) (src : cstr) (n : Z) : result (list Z) :=
  strncpy_loop dest 0 src n.

(** ** The String class *)

(** [str_data] has [str_size + 1] cells, the last of which holds the terminator. *)
Record String := MkString { str_size : Z; str_data : list Z; has_hash : bool; hash : Z }.

(** [for (i = 0; i < n; i++) dst[i + off] = src[i];] *)
Definition copy_chars (n : Z) (src dst : list Z) (off : Z) : result (list Z) :=
  for_range 0 n (λ i d, c ← rd src i; wr d (i + off) c) dst.

Section strings.
(** The content of the cells [new char[n]] returns. *)
Context (junk : Z).

Definition new_chars (n : Z) : list Z := replicate (Z.to_nat n) junk.

Definition String_default : result String :=
  d ← wr (new_chars 1) 0 0; Ok (MkString 0 d false 0).

Definition String_of_cstr (str : option cstr) : result String :=
  n ← strlen str;
  d ← copy_chars n (default [] str) (new_chars (n + 1)) 0;
  d ← wr d n 0;
  Ok (MkString n d false 0).

Definition String_copy (s : String) : result String :=
  d ← copy_chars (str_size s) (str_data s) (new_chars (str_size s + 1)) 0;
  d ← wr d (str_size s) 0;
  Ok (MkString (str_size s) d (has_hash s) (hash s)).

(** The private constructor that reserves [new_size] characters. *)
Definition String_reserve (new_size : Z) : result String :=
  d ← wr (new_chars (new_size + 1)) new_size 0; Ok (MkString new_size d false 0).

Definition String_length (s : String) : Z := str_size s.
Definition String_empty (s : String) : bool := str_size s =? 0.
Definition c_str (s : String) : list Z := str_data s.

(** [operator+(const String&, const String&)]; the size is a 32-bit argument of
    the reserving constructor. *)
Definition String_concat (l r : String) : result String :=
  n ← String_reserve (u32 (String_length l + String_length r));
  d ← copy_chars (String_length l) (str_data l) (str_data n) 0;
  d ← copy_chars (String_length r) (str_data r) d (u32 (String_length l));
  d ← wr d (str_size n) 0;
  Ok (MkString (str_size n) d (has_hash n) (hash n)).

(** [operator+(const String&, const char&)]. *)
Definition String_push (l : String) (r : Z) : result String :=
  n ← String_reserve (u32 (str_size l + 1));
  d ← copy_chars (str_size l) (str_data l) (str_data n) 0;
  d ← wr d (str_size n - 1) r;
  d ← wr d (str_size n) 0;
  Ok (MkString (str_size n) d (has_hash n) (hash n)).

(** [operator=(const String&)] for two different objects. *)
Definition String_assign (this s : String) : result String :=
  d ← copy_chars (str_size s) (str_data s) (new_chars (str_size s + 1)) 0;
  d ← wr d (str_size s) 0;
  Ok (MkString (str_size s) d false (hash this)).

Definition String_index (s : String) (idx : Z) : result Z :=
  if str_size s <=? idx then Ok 0 else rd (str_data s) idx.

Fixpoint eq_loop (n : nat) (i : Z) (l r : list Z) : result bool :=
  match n with
  | O => Ok true
  | S n' =>
      c1 ← rd l i; c2 ← rd r i;
      if negb (c1 =? c2) then Ok false else eq_loop n' (i + 1) l r
  end.

Definition String_eqb (l r : String) : result bool :=
  if negb (str_size l =? str_size r) then Ok false else eq_loop (Z.to_nat (str_size l)) 0 (str_data l) (str_data r).

Definition FNV_OFFSET : Z := 14695981039346656037.
Definition FNV_PRIME : Z := 1099511628211.

(** A [char] is signed: it is sign-extended before the exclusive or. *)
Definition compute_hash (s : String) : result Z :=
  for_range 0 (str_size s) (λ i h, c ← rd (str_data s) i; Ok (u64 (Z.lxor h (u64 (s8 c)) * FNV_PRIME)))
    FNV_OFFSET.

(** The two mutable fields make this an operation on the string. *)
Definition get_hash (s : String) : result (Z * String) :=
  if has_hash s then Ok (hash s, s)
  else h ← compute_hash s; Ok (h, MkString (str_size s) (str_data s) true h).

(** ** Decimal conversion *)

Fixpoint to_string_loop (fuel : nat) (buffer : list Z) (v i : Z) : result (list Z * Z) :=
  match fuel with
  | O => Err Hang
  | S fuel' =>
      if (0 <? v) && (0 <=? i) then
        buffer ← wr buffer (i - 1) (48 + v mod 10);
        to_string_loop fuel' buffer (v / 10) (i - 1)
      else Ok (buffer, i)
  end.

Definition ToString (v : Z) : result String :=
  buffer ← wr (replicate 17 junk) 16 0;
  '(buffer, i) ← (if v =? 0 then b ← wr buffer 15 48; Ok (b, 15)
                  else to_string_loop 18 buffer v 16);
  String_of_cstr (Some (drop (Z.to_nat i) buffer)).

(** ** Splitting *)

(** [start] is an offset into the data; a delimiter that ends an empty part is
    skipped with [continue], before [start++]. *)
Fixpoint split_loop (fuel : nat) (s : String) (delim : Z) (remove_empty : bool)
    (start : Z) (current_part : String) (r : list String) : result (list String * String) :=
  match fuel with
  | O => Err Hang
  | S fuel' =>
      if start <? str_size s then
        c ← rd (str_data s) start;
        if c =? delim then
          if (String_length current_part =? 0) && remove_empty
          then split_loop fuel' s delim remove_empty start current_part r
          else
            p ← String_copy current_part;
            current_part ← String_of_cstr (Some [0]);
            split_loop fuel' s delim remove_empty (start + 1) current_part (r ++ [p])
        else
          current_part ← String_push current_part c;
          split_loop fuel' s delim remove_empty (start + 1) current_part r
      else Ok (r, current_part)
  end.

Definition split (fuel : nat) (s : String) (delim : Z) (remove_empty : bool)
    : result (list String) :=
  current_part ← String_default;
  '(r, current_part) ← split_loop fuel s delim remove_empty 0 current_part [];
  if (0 <? String_length current_part) || negb remove_empty
  then p ← String_copy current_part; Ok (r ++ [p]) else Ok r.
End strings.

(** ** C strings as lists of characters *)

(** The C string [cs] followed by whatever memory holds. *)
Definition is_cstr (cs : list Z) (str : cstr) : Prop :=
  Forall (λ c, c ≠ 0) cs ∧ ∃ rest, str = cs ++ 0 :: rest.

Lemma strlen_from_spec cs str k :
  is_cstr cs str → 0 ≤ k → k + Z.of_nat (length cs) < 2 ^ 64 →
  strlen_from str k = Ok (k + Z.of_nat (length cs)).
Proof.
  intros [Hnz [rest ->]]. revert k.
  induction Hnz as [|c cs Hc Hcs IH]; intros k Hk Hlen; simpl in *.
  - f_equal. lia.
  - rewrite (proj2 (Z.eqb_neq c 0) Hc), wrap_small by (unfold fits; lia).
    rewrite IH by lia. f_equal. lia.
Qed.

Lemma strlen_spec cs str :
  is_cstr cs str → Z.of_nat (length cs) < 2 ^ 64 → strlen (Some str) = Ok (Z.of_nat (length cs)).
Proof. intros. unfold strlen. rewrite (strlen_from_spec cs) by (done || lia). done. Qed.

Lemma strncmp_loop_spec cs1 cs2 str1 str2 n :
  is_cstr cs1 str1 → is_cstr cs2 str2 → length cs1 = length cs2 → fits 64 n →
  strncmp_loop str1 str2 n =
    Ok (if decide (take (Z.to_nat n) cs1 = take (Z.to_nat n) cs2) then 0 else -1).
Proof.
  intros [Hz1 [r1 ->]] [Hz2 [r2 ->]]. revert cs2 Hz2 n.
  induction Hz1 as [|c1 cs1 Hc1 Hz1 IH]; intros cs2 Hz2 n Hlen Hn;
    destruct Hz2 as [|c2 cs2 Hc2 Hz2]; simplify_eq/=.
  - rewrite !take_nil. by rewrite decide_True.
  - rewrite (proj2 (Z.eqb_neq c1 0) Hc1), (proj2 (Z.eqb_neq c2 0) Hc2).
    destruct (Z.eqb_spec n 0) as [->|Hne]; [done|].
    destruct Hn as [? ?].
    replace (Z.to_nat n) with (S (Z.to_nat (n - 1))) by lia. simpl.
    destruct (Z.eqb_spec c1 c2) as [->|Hcc]; simpl.
    + rewrite wrap_small by (unfold fits; lia). rewrite IH by (done || (unfold fits; lia)).
      f_equal. apply decide_ext. split; congruence.
    + by rewrite decide_False by congruence.
Qed.

Lemma strncmp_spec cs1 cs2 str1 str2 n :
  is_cstr cs1 str1 → is_cstr cs2 str2 →
  Z.of_nat (length cs1) < 2 ^ 64 → Z.of_nat (length cs2) < 2 ^ 64 → fits 64 n →
  strncmp str1 str2 n =
    Ok (if decide (length cs1 = length cs2 ∧ take (Z.to_nat n) cs1 = take (Z.to_nat n) cs2)
        then 0 else -1).
Proof.
  intros H1 H2 Hl1 Hl2 Hn. unfold strncmp.
  rewrite (strlen_spec cs1 str1), bind_Ok, (strlen_spec cs2 str2), bind_Ok by done.
  destruct (Z.eqb_spec (Z.of_nat (length cs1)) (Z.of_nat (length cs2))) as [E|E]; simpl.
  - rewrite (strncmp_loop_spec cs1 cs2) by (done || lia). f_equal.
    apply decide_ext. split; [intros; split; [lia|done]|tauto].
  - rewrite decide_False by lia. done.
Qed.

Lemma wr_mid (x z : list Z) y c i :
  i = Z.of_nat (length x) → wr (x ++ y :: z) i c = Ok (x ++ c :: z).
Proof.
  intros ->. rewrite wr_total by (rewrite length_app; simpl; lia).
  rewrite Nat2Z.id. by rewrite insert_app_r_alt, Nat.sub_diag by lia.
Qed.

Lemma rd_mid (x z : list Z) y i : i = Z.of_nat (length x) → rd (x ++ y :: z) i = Ok y.
Proof. intros ->. apply rd_Ok; [lia|]. rewrite Nat2Z.id. by apply list_lookup_middle. Qed.

(** [strncpy] writes at most [n] cells: up to [n - 1] characters and the
    terminator. *)
Lemma strncpy_loop_spec cs src (pre y z : list Z) n :
  is_cstr cs src → 0 < n < 2 ^ 64 →
  length y = S (length (take (Z.to_nat (n - 1)) cs)) →
  strncpy_loop (pre ++ y ++ z) (Z.of_nat (length pre)) src n =
    Ok (pre ++ (take (Z.to_nat (n - 1)) cs ++ [0]) ++ z).
Proof.
  intros [Hnz [rest ->]]. revert n pre y.
  induction Hnz as [|c cs Hc Hcs IH]; intros n pre y Hn Hy; cbn [strncpy_loop app].
  - rewrite wrap_small by (unfold fits; lia). rewrite take_nil in *. simpl in Hy.
    destruct y as [|y0 [|]]; try (simpl in Hy; lia). simpl.
    destruct (n - 1 =? 0); by apply wr_mid.
  - rewrite wrap_small by (unfold fits; lia). destruct (Z.eqb_spec (n - 1) 0) as [E|E].
    + rewrite E in *. simpl in *. destruct y as [|y0 [|]]; try (simpl in Hy; lia).
      by apply wr_mid.
    + rewrite (proj2 (Z.eqb_neq c 0) Hc).
      replace (Z.to_nat (n - 1)) with (S (Z.to_nat (n - 1 - 1))) in * by lia. simpl in *.
      destruct y as [|y0 y]; [simpl in Hy; lia|]. simpl. rewrite wr_mid by done. simpl.
      specialize (IH (n - 1) (pre ++ [c]) y ltac:(lia)). rewrite <- !app_assoc in IH. simpl in IH.
      rewrite <- !app_assoc. simpl. rewrite <- IH by (simpl in Hy; lia). f_equal. rewrite length_app. simpl. lia.
Qed.

(** With a count of 0 the counter wraps around before the first test, so that
    the whole source is copied. *)
Lemma strncpy_zero cs src (y z : list Z) :
  is_cstr cs src → Z.of_nat (length cs) < 2 ^ 64 - 1 → length y = S (length cs) →
  strncpy (y ++ z) src 0 = Ok ((cs ++ [0]) ++ z).
Proof.
  intros [Hnz [rest ->]] Hlen Hy. unfold strncpy. destruct Hnz as [|c cs Hc Hcs].
  - destruct y as [|y0 [|]]; try (simpl in Hy; lia). done.
  - cbn [strncpy_loop app]. change (u64 (0 - 1)) with (2 ^ 64 - 1).
    rewrite (proj2 (Z.eqb_neq (2 ^ 64 - 1) 0)), (proj2 (Z.eqb_neq c 0) Hc) by lia.
    destruct y as [|y0 y]; [simpl in Hy; lia|].
    change ((y0 :: y) ++ z) with ([] ++ y0 :: (y ++ z)). rewrite wr_mid by done. cbn [mbind result_bind].
    simpl in Hlen, Hy.
    pose proof (strncpy_loop_spec cs (cs ++ 0 :: rest) [c] y z (2 ^ 64 - 1)) as IH.
    assert (take (Z.to_nat (2 ^ 64 - 1 - 1)) cs = cs) as Etk by (apply take_ge; lia).
    rewrite Etk in IH. apply IH; [split; [done|by eexists]|lia|lia].
Qed.

(** ** String objects as lists of characters *)

Definition fnv (cs : list Z) : Z :=
  foldl (λ h c, u64 (Z.lxor h (u64 (s8 c)) * FNV_PRIME)) FNV_OFFSET cs.

(** The string object [s] holds [cs]; a hash it has cached is right. *)
Record holds (cs : list Z) (s : String) : Prop := {
  h_size : str_size s = Z.of_nat (length cs);
  h_data : str_data s = cs ++ [0];
  h_hash : has_hash s = true → hash s = fnv cs;
}.

(** The sizes the code's 32-bit counters can reach. *)
Definition small (cs : list Z) : Prop := Z.of_nat (length cs) < 2 ^ 32 - 1.

Lemma copy_chars_spec (a rest x y z : list Z) off n :
  n = Z.of_nat (length a) → off = Z.of_nat (length x) → length y = length a →
  copy_chars n (a ++ rest) (x ++ y ++ z) off = Ok (x ++ a ++ z).
Proof.
  intros -> -> Hy. unfold copy_chars, for_range. rewrite Z.sub_0_r, Nat2Z.id.
  enough (∀ (pre px : list Z) y, length y = length a →
    for_n (length a) (Z.of_nat (length pre))
      (λ i d, c ← rd (pre ++ a ++ rest) i; wr d (i + Z.of_nat (length x)) c)
      (x ++ px ++ y ++ z) = Ok (x ++ px ++ a ++ z) ∨ length px ≠ length pre) as Hgen.
  { destruct (Hgen [] [] y Hy) as [E|]; [exact E|done]. }
  clear y Hy. induction a as [|c a IH]; intros pre px y Hy.
  - left. destruct y; [done|discriminate].
  - destruct (decide (length px = length pre)) as [Hp|]; [|by right]. left.
    destruct y as [|y0 y]; [discriminate|]. cbn [length for_n app]. rewrite rd_mid by done. cbn [mbind result_bind].
    rewrite (app_assoc x px). cbn [app]. rewrite wr_mid by (rewrite length_app; lia). cbn [mbind result_bind].
    specialize (IH (pre ++ [c]) (px ++ [c]) y ltac:(simpl in Hy; lia)).
    rewrite length_app in IH. cbn [length] in IH.
    replace (Z.of_nat (length pre + 1)) with (Z.of_nat (length pre) + 1) in IH by lia.
    rewrite <- !app_assoc in *. cbn [app] in *.
    destruct IH as [->|Hne]; [done|]. rewrite length_app in Hne. simpl in Hne. lia.
Qed.

Lemma copy_chars_0 (a rest y z : list Z) n :
  n = Z.of_nat (length a) → length y = length a → copy_chars n (a ++ rest) (y ++ z) 0 = Ok (a ++ z).
Proof. intros. by apply (copy_chars_spec a rest [] y z). Qed.

Lemma copy_fresh junk cs rest n :
  n = Z.of_nat (length cs) →
  copy_chars n (cs ++ rest) (new_chars junk (n + 1)) 0 = Ok (cs ++ [junk]).
Proof.
  intros ->. unfold new_chars.
  replace (Z.to_nat (Z.of_nat (length cs) + 1)) with (length cs + 1)%nat by lia.
  rewrite replicate_add. apply (copy_chars_spec cs rest [] (replicate (length cs) junk) [junk]);
    [done|done|apply length_replicate].
Qed.

Lemma wr_last (x : list Z) y c i : i = Z.of_nat (length x) → wr (x ++ [y]) i c = Ok (x ++ [c]).
Proof. apply wr_mid. Qed.

Lemma cstr_of_holds cs s : holds cs s → Forall (λ c, c ≠ 0) cs → is_cstr cs (str_data s).
Proof. intros Hs Hnz. split; [done|]. exists []. apply Hs. Qed.

Section string_ops.
Context (junk : Z).

Lemma String_default_spec : ∃ s, String_default junk = Ok s ∧ holds [] s.
Proof. eexists. split; [reflexivity|]. by split. Qed.

Lemma String_of_cstr_spec cs str :
  is_cstr cs str → small cs → ∃ s, String_of_cstr junk (Some str) = Ok s ∧ holds cs s.
Proof.
  intros Hc Hs. unfold String_of_cstr. rewrite (strlen_spec cs), bind_Ok by (done || unfold small in Hs; lia).
  destruct Hc as [_ [rest ->]]. cbn [from_option id]. rewrite copy_fresh, bind_Ok, wr_last, bind_Ok by done.
  eexists. split; [done|]. by split.
Qed.

Lemma String_copy_spec cs s :
  holds cs s → ∃ s', String_copy junk s = Ok s' ∧ holds cs s'.
Proof.
  intros [Hn Hd Hh]. unfold String_copy. rewrite Hn, Hd, copy_fresh, bind_Ok, wr_last, bind_Ok by done.
  eexists. split; [done|]. by split.
Qed.

Lemma String_assign_spec cs this s :
  holds cs s → ∃ s', String_assign junk this s = Ok s' ∧ holds cs s'.
Proof.
  intros [Hn Hd Hh]. unfold String_assign. rewrite Hn, Hd, copy_fresh, bind_Ok, wr_last, bind_Ok by done.
  eexists. split; [done|]. by split.
Qed.

Lemma String_reserve_spec n :
  0 ≤ n → String_reserve junk n = Ok (MkString n (replicate (Z.to_nat n) junk ++ [0]) false 0).
Proof.
  intros. unfold String_reserve, new_chars.
  replace (Z.to_nat (n + 1)) with (Z.to_nat n + 1)%nat by lia. rewrite replicate_add.
  cbn [replicate]. rewrite wr_last by (rewrite length_replicate; lia). done.
Qed.

Lemma String_concat_spec l r a b :
  holds l a → holds r b → small (l ++ r) → ∃ s, String_concat junk a b = Ok s ∧ holds (l ++ r) s.
Proof.
  intros [Hn1 Hd1 _] [Hn2 Hd2 _] Hs. unfold small in Hs. rewrite length_app in Hs.
  unfold String_concat, String_length. rewrite Hn1, Hn2, Hd1, Hd2.
  unwrap. rewrite String_reserve_spec, bind_Ok by lia.
  cbn [str_data str_size has_hash hash].
  replace (Z.to_nat (Z.of_nat (length l) + Z.of_nat (length r))) with (length l + length r)%nat by lia.
  rewrite replicate_add, <- app_assoc.
  rewrite (copy_chars_0 l [0] (replicate (length l) junk)), bind_Ok
    by (done || apply length_replicate).
  rewrite (copy_chars_spec r [0] l (replicate (length r) junk) [0]), bind_Ok
    by (done || apply length_replicate).
  rewrite app_assoc, wr_last, bind_Ok by (rewrite length_app; lia).
  eexists. split; [done|]. split; [cbn; rewrite length_app; lia|done|done].
Qed.

Lemma String_push_spec l c a :
  holds l a → small (l ++ [c]) → ∃ s, String_push junk a c = Ok s ∧ holds (l ++ [c]) s.
Proof.
  intros [Hn1 Hd1 _] Hs. unfold small in Hs. rewrite length_app in Hs. simpl in Hs.
  unfold String_push. rewrite Hn1, Hd1. unwrap.
  rewrite String_reserve_spec, bind_Ok by lia. cbn [str_data str_size has_hash hash].
  replace (Z.to_nat (Z.of_nat (length l) + 1)) with (length l + 1)%nat by lia.
  rewrite replicate_add, <- app_assoc.
  rewrite (copy_chars_0 l [0] (replicate (length l) junk)), bind_Ok
    by (done || apply length_replicate).
  cbn [app replicate]. rewrite wr_mid, bind_Ok by lia.
  rewrite (app_assoc l [c] [0] : l ++ c :: [0] = (l ++ [c]) ++ [0]).
  rewrite wr_last, bind_Ok by (rewrite length_app; simpl; lia).
  eexists. split; [done|]. split; [cbn; rewrite length_app; simpl; lia|done|done].
Qed.

Lemma eq_loop_spec (a b : list Z) r1 r2 pre1 pre2 :
  length a = length b → length pre1 = length pre2 →
  eq_loop (length a) (Z.of_nat (length pre1)) (pre1 ++ a ++ r1) (pre2 ++ b ++ r2) =
    Ok (bool_decide (a = b)).
Proof.
  revert b pre1 pre2. induction a as [|c a IH]; intros b pre1 pre2 Hab Hp; destruct b as [|d b];
    simplify_eq/=; [done|].
  rewrite !rd_mid by lia. simpl. destruct (Z.eqb_spec c d) as [->|Hcd]; simpl.
  - specialize (IH b (pre1 ++ [d]) (pre2 ++ [d])). rewrite !length_app, <- !app_assoc in IH.
    simpl in IH. replace (Z.of_nat (length pre1) + 1) with (Z.of_nat (length pre1 + 1)) by lia.
    rewrite IH by lia. f_equal. apply bool_decide_ext. split; congruence.
  - by rewrite bool_decide_eq_false_2 by congruence.
Qed.

Lemma String_eqb_spec l r a b :
  holds l a → holds r b → String_eqb a b = Ok (bool_decide (l = r)).
Proof.
  intros [Hn1 Hd1 _] [Hn2 Hd2 _]. unfold String_eqb. rewrite Hn1, Hn2, Hd1, Hd2.
  destruct (Z.eqb_spec (Z.of_nat (length l)) (Z.of_nat (length r))) as [E|E]; simpl.
  - rewrite Nat2Z.id. apply (eq_loop_spec l r [0] [0] [] []); [lia|done].
  - rewrite bool_decide_eq_false_2; [done|]. intros ->. done.
Qed.

Lemma String_index_spec l a i :
  holds l a → 0 ≤ i → String_index a i = Ok (default 0 (l !! Z.to_nat i)).
Proof.
  intros [Hn Hd _] Hi. unfold String_index. rewrite Hn, Hd.
  destruct (Z.leb_spec (Z.of_nat (length l)) i).
  - by rewrite lookup_ge_None_2 by lia.
  - destruct (lookup_lt_is_Some_2 l (Z.to_nat i)) as [c Hc]; [lia|]. rewrite Hc.
    apply rd_Ok; [done|]. by apply lookup_app_l_Some.
Qed.

Lemma compute_hash_spec l a : holds l a → compute_hash a = Ok (fnv l).
Proof.
  intros [Hn Hd _]. unfold compute_hash, for_range. rewrite Hn, Hd, Z.sub_0_r, Nat2Z.id.
  unfold fnv. generalize FNV_OFFSET as h.
  enough (∀ (pre : list Z) h, for_n (length l) (Z.of_nat (length pre))
    (λ i h, c ← rd (pre ++ l ++ [0]) i; Ok (u64 (Z.lxor h (u64 (s8 c)) * FNV_PRIME))) h =
    Ok (foldl (λ h c, u64 (Z.lxor h (u64 (s8 c)) * FNV_PRIME)) h l)) as Hgen by apply (Hgen []).
  clear Hn Hd. induction l as [|c l IH]; intros pre h; [done|]. cbn [length for_n app].
  rewrite rd_mid by done. cbn [mbind result_bind]. specialize (IH (pre ++ [c])).
  rewrite length_app, <- app_assoc in IH. cbn [length app] in IH.
  replace (Z.of_nat (length pre) + 1) with (Z.of_nat (length pre + 1)) by lia. apply IH.
Qed.

Lemma get_hash_spec l a :
  holds l a → ∃ a', get_hash a = Ok (fnv l, a') ∧ holds l a'.
Proof.
  intros Hl. unfold get_hash. destruct (has_hash a) eqn:E.
  - exists a. by rewrite (h_hash _ _ Hl E).
  - rewrite (compute_hash_spec l) by done. eexists. split; [reflexivity|].
    destruct Hl. by split.
Qed.
End string_ops.

(** ** Positional numbers *)

(** The value of a list of digits, most significant first. *)
Definition value_of (base : Z) (ds : list Z) : Z := foldl (λ a d, a * base + d) 0 ds.

(** [ds] are the digits of [v] in [base], without leading zeros ([0] itself
    has none). *)
Definition numeral (base v : Z) (ds : list Z) : Prop :=
  Forall (λ d, 0 ≤ d < base) ds ∧ value_of base ds = v ∧ (∀ d, head ds = Some d → d ≠ 0).

Lemma value_of_acc base ds a :
  foldl (λ a d, a * base + d) a ds = a * base ^ Z.of_nat (length ds) + value_of base ds.
Proof.
  unfold value_of. revert a. induction ds as [|d ds IH]; intros a; simpl; [lia|].
  rewrite (IH (a * base + d)), (IH (0 * base + d)).
  replace (Z.of_nat (S (length ds))) with (Z.of_nat (length ds) + 1) by lia.
  rewrite Z.pow_add_r by lia. nia.
Qed.

Lemma value_of_cons base d ds :
  value_of base (d :: ds) = d * base ^ Z.of_nat (length ds) + value_of base ds.
Proof. unfold value_of at 1. simpl. by rewrite value_of_acc, Z.mul_0_l, Z.add_0_l. Qed.

(** A step of a conversion loop: the least significant digit still missing. *)
Lemma numeral_step base v0 v ds :
  1 < base → 0 < v → Forall (λ d, 0 ≤ d < base) ds →
  v * base ^ Z.of_nat (length ds) + value_of base ds = v0 →
  Forall (λ d, 0 ≤ d < base) (v mod base :: ds) ∧
  v / base * base ^ Z.of_nat (length (v mod base :: ds)) + value_of base (v mod base :: ds) = v0.
Proof.
  intros Hb Hv Hds Hval. split; [constructor; [apply Z.mod_pos_bound; lia|done]|].
  rewrite value_of_cons. cbn [length].
  replace (Z.of_nat (S (length ds))) with (Z.of_nat (length ds) + 1) by lia.
  rewrite Z.pow_add_r by lia. pose proof (Z.div_mod v base ltac:(lia)). nia.
Qed.

Section to_string.
Context (junk : Z).

Lemma to_string_loop_spec k fuel v0 v (pre : list Z) ds rest :
  0 ≤ v < 10 ^ Z.of_nat k → (k ≤ length pre)%nat → (k < fuel)%nat →
  Forall (λ d, 0 ≤ d < 10) ds → v * 10 ^ Z.of_nat (length ds) + value_of 10 ds = v0 →
  (v = 0 → ∀ d, head ds = Some d → d ≠ 0) →
  ∃ pre' ds', to_string_loop fuel (pre ++ map (Z.add 48) ds ++ rest) v (Z.of_nat (length pre)) =
      Ok (pre' ++ map (Z.add 48) ds' ++ rest, Z.of_nat (length pre')) ∧
    numeral 10 v0 ds' ∧ (length ds' ≤ length ds + k)%nat.
Proof.
  revert fuel v pre ds. induction k as [|k IH]; intros fuel v pre ds Hv Hk Hf Hds Hval Hhd;
    (destruct fuel as [|fuel]; [lia|]); cbn [to_string_loop].
  - assert (v = 0) as -> by (simpl in Hv; lia). simpl. exists pre, ds.
    split_and!; [done|by split_and!; [| |apply Hhd]|lia].
  - destruct (Z.ltb_spec 0 v) as [Hpos|Hz]; cbn [andb].
    2: { assert (v = 0) as -> by lia. exists pre, ds.
         split_and!; [done|by split_and!; [| |apply Hhd]|lia]. }
    rewrite (proj2 (Z.leb_le 0 _)) by lia.
    destruct (exists_last (l := pre)) as (pre0 & x & ->); [by destruct pre; [simpl in Hk; lia|]|].
    rewrite length_app in *. cbn [length] in *. rewrite <- app_assoc. cbn [app].
    rewrite wr_mid, bind_Ok by lia.
    destruct (numeral_step 10 v0 v ds) as [Hds' Hval']; [lia|done|done|done|].
    replace (Z.of_nat (length pre0 + 1) - 1) with (Z.of_nat (length pre0)) by lia.
    destruct (IH fuel (v / 10) pre0 (v mod 10 :: ds)) as (pre' & ds' & Hrun & Hnum & Hlen);
      [|lia|lia|done|done| |].
    + replace (Z.of_nat (S k)) with (Z.of_nat k + 1) in Hv by lia. rewrite Z.pow_add_r in Hv by lia.
      split; [apply Z.div_pos; lia|apply Z.div_lt_upper_bound; lia].
    + intros E d Hd. simpl in Hd. pose proof (Z.div_mod v 10). intros ->. simplify_eq. lia.
    + exists pre', ds'. split_and!; [exact Hrun|done|simpl in Hlen; lia].
Qed.
End to_string.

(** ** Splitting, against a reference *)

Fixpoint fields_from (delim : Z) (cur cs : list Z) : list (list Z) :=
  match cs with
  | [] => [cur]
  | c :: cs' =>
      if c =? delim then cur :: fields_from delim [] cs' else fields_from delim (cur ++ [c]) cs'
  end.

(** The parts of [cs] between delimiters, the empty ones included. *)
Definition fields (delim : Z) (cs : list Z) : list (list Z) := fields_from delim [] cs.

Lemma fields_from_snoc delim cur cs : ∃ l x, fields_from delim cur cs = l ++ [x].
Proof.
  revert cur. induction cs as [|c cs IH]; intros cur; simpl; [by exists [], cur|].
  case_match; [|apply IH]. destruct (IH []) as (l & x & ->). by exists (cur :: l), x.
Qed.

Section split.
Context (junk : Z) (delim : Z) (s : String) (cs : list Z).
Context (Hs : holds cs s) (Hsmall : small cs).

(** Without an empty part that a delimiter ends, or when empty parts are kept,
    the loop makes one step per character. *)
Lemma split_loop_spec remove_empty pre todo cur part r (rs : list (list Z)) fuel :
  cs = pre ++ todo → holds cur part → (length cur ≤ length pre)%nat →
  Forall2 holds rs r → (length todo < fuel)%nat →
  (remove_empty = true → Forall (λ f, f ≠ []) (removelast (fields_from delim cur todo))) →
  ∃ r' part' last, split_loop junk fuel s delim remove_empty (Z.of_nat (length pre)) part r =
      Ok (r', part') ∧ holds last part' ∧
    ∃ fs, Forall2 holds (rs ++ fs) r' ∧ fields_from delim cur todo = fs ++ [last].
Proof.
  intros Ecs. revert pre cur part r rs fuel Ecs.
  induction todo as [|c todo IH]; intros pre cur part r rs fuel Ecs Hcur Hlen Hr Hf Hne;
    (destruct fuel as [|fuel]; [simpl in Hf; lia|]); cbn [split_loop]; rewrite (h_size _ _ Hs), Ecs.
  - rewrite app_nil_r, (proj2 (Z.ltb_ge _ _)) by lia.
    exists r, part, cur. split_and!; [done|done|]. exists []. by rewrite app_nil_r.
  - rewrite length_app. cbn [length]. rewrite (proj2 (Z.ltb_lt _ _)) by lia.
    rewrite (h_data _ _ Hs), Ecs, <- app_assoc. cbn [app]. rewrite rd_mid, bind_Ok by done.
    assert (cs = (pre ++ [c]) ++ todo) as Ecs' by (by rewrite <- app_assoc).
    assert (Z.of_nat (length pre) + 1 = Z.of_nat (length (pre ++ [c]))) as Elen
      by (rewrite length_app; simpl; lia).
    cbn [fields_from] in *. destruct (Z.eqb_spec c delim) as [->|Hc].
    + unfold String_length. rewrite (h_size _ _ Hcur).
      destruct ((Z.of_nat (length cur) =? 0) && remove_empty) eqn:Eskip.
      { apply andb_true_iff in Eskip as [E%Z.eqb_eq ->]. specialize (Hne eq_refl).
        destruct (fields_from_snoc delim [] todo) as (l & x & El). rewrite El in Hne.
        rewrite app_comm_cons, removelast_last in Hne. inversion Hne; subst.
        destruct cur; [done|simpl in E; lia]. }
      destruct (String_copy_spec junk cur part Hcur) as (p & -> & Hp). rewrite bind_Ok.
      destruct (String_of_cstr_spec junk [] [0]) as (e & -> & He); [split; [done|by exists []]|done|].
      rewrite bind_Ok, Elen.
      destruct (IH (pre ++ [delim]) [] e (r ++ [p]) (rs ++ [cur]) fuel) as (r' & part' & last & -> & Hl & fs & Hfs & E);
        [done|done|simpl; lia|by apply Forall2_app; [|constructor]|simpl in Hf; lia| |].
      { intros Hre. specialize (Hne Hre). destruct (fields_from_snoc delim [] todo) as (l & x & El).
        rewrite El in *. rewrite app_comm_cons, removelast_last in Hne. rewrite removelast_last.
        by inversion Hne. }
      exists r', part', last. split_and!; [done|done|]. exists (cur :: fs).
      rewrite <- app_assoc in Hfs. cbn [app] in *. by rewrite E.
    + destruct (String_push_spec junk cur c part Hcur) as (p & -> & Hp).
      { unfold small in *. rewrite Ecs, length_app in Hsmall. rewrite length_app. simpl in *. lia. }
      rewrite bind_Ok, Elen. apply (IH (pre ++ [c]) (cur ++ [c]) p r rs fuel); try done.
      * rewrite !length_app. simpl. lia.
      * simpl in Hf. lia.
Qed.

(** A delimiter that ends an empty part is never passed. *)
Lemma split_loop_hangs pre todo cur part r fuel :
  cs = pre ++ todo → holds cur part → (length cur ≤ length pre)%nat →
  ¬ Forall (λ f, f ≠ []) (removelast (fields_from delim cur todo)) →
  split_loop junk fuel s delim true (Z.of_nat (length pre)) part r = Err Hang.
Proof.
  intros Ecs. revert todo pre cur part r Ecs.
  induction fuel as [|fuel IH]; intros todo pre cur part r Ecs Hcur Hlen Hne; [done|].
  cbn [split_loop]. rewrite (h_size _ _ Hs). destruct todo as [|c todo].
  { destruct Hne. cbn. constructor. }
  rewrite Ecs, length_app. cbn [length]. rewrite (proj2 (Z.ltb_lt _ _)) by lia.
  rewrite (h_data _ _ Hs), Ecs, <- app_assoc. cbn [app]. rewrite rd_mid, bind_Ok by done.
  assert (cs = (pre ++ [c]) ++ todo) as Ecs' by (by rewrite <- app_assoc).
  assert (Z.of_nat (length pre) + 1 = Z.of_nat (length (pre ++ [c]))) as Elen
    by (rewrite length_app; simpl; lia).
  cbn [fields_from] in Hne. destruct (Z.eqb_spec c delim) as [->|Hc].
  - unfold String_length. rewrite (h_size _ _ Hcur).
    destruct (Z.eqb_spec (Z.of_nat (length cur)) 0) as [E|E]; cbn [andb].
    + apply (IH (delim :: todo) pre cur part r); [done|done|done|]. cbn [fields_from]. by rewrite Z.eqb_refl.
    + destruct (String_copy_spec junk cur part Hcur) as (p & -> & Hp). rewrite bind_Ok.
      destruct (String_of_cstr_spec junk [] [0]) as (e & -> & He); [split; [done|by exists []]|done|].
      rewrite bind_Ok, Elen. apply (IH todo _ []); [done|done|simpl; lia|].
      destruct (fields_from_snoc delim [] todo) as (l & x & El). rewrite El in *.
      rewrite app_comm_cons, removelast_last in Hne. rewrite removelast_last.
      intros Hall. apply Hne. constructor; [|done]. intros ->. done.
  - destruct (String_push_spec junk cur c part Hcur) as (p & -> & Hp).
    { unfold small in *. rewrite Ecs, length_app in Hsmall. rewrite length_app. simpl in *. lia. }
    rewrite bind_Ok, Elen. apply (IH todo _ (cur ++ [c])); [done|done| |done].
    rewrite !length_app. simpl. lia.
Qed.
End split.

(** ** Properties *)

(** The String class implements lists of characters.  For objects that
    hold [l] and [r]: copying, assigning, appending a string or a character,
    comparing, indexing and hashing all return (for sizes below the range of
    the 32-bit counters) what the corresponding list operation returns, the
    buffers stay NUL-terminated and of the right size, and a cached hash is
    the one that would be recomputed. *)
Theorem string_refines_list junk l r a b c i :
  holds l a → holds r b → small (l ++ r) → small (l ++ [c]) → 0 ≤ i →
  (∃ s, String_copy junk a = Ok s ∧ holds l s) ∧
  (∃ s, String_assign junk b a = Ok s ∧ holds l s) ∧
  (∃ s, String_concat junk a b = Ok s ∧ holds (l ++ r) s) ∧
  (∃ s, String_push junk a c = Ok s ∧ holds (l ++ [c]) s) ∧
  String_eqb a b = Ok (bool_decide (l = r)) ∧
  String_index a i = Ok (default 0 (l !! Z.to_nat i)) ∧
  (∃ a', get_hash a = Ok (fnv l, a') ∧ holds l a' ∧ get_hash a' = Ok (fnv l, a')).
Proof.
  intros Ha Hb Hs Hc Hi. split_and!.
  - by apply String_copy_spec.
  - by apply String_assign_spec.
  - by apply String_concat_spec.
  - by apply String_push_spec.
  - by apply String_eqb_spec.
  - by apply String_index_spec.
  - destruct (get_hash_spec l a Ha) as (a' & Hg & Ha'). exists a'. split_and!; [done|done|].
    unfold get_hash in *. destruct (has_hash a) eqn:E.
    + injection Hg as Eh <-. rewrite E. congruence.
    + apply bind_Ok_inv in Hg as (h & _ & E2). injection E2 as -> <-. done.
Qed.

Lemma string_refines_list_witness :
  ∃ s, String_concat 0 (MkString 2 [104; 105; 0] false 0) (MkString 1 [33; 0] false 0) = Ok s ∧
    holds [104; 105; 33] s.
Proof.
  apply (string_refines_list 0 [104; 105] [33] (MkString 2 [104; 105; 0] false 0)
    (MkString 1 [33; 0] false 0) 0 0).
  - by split.
  - by split.
  - vm_compute. reflexivity.
  - vm_compute. reflexivity.
  - lia.
Defined.

(** The C string functions.  [strncmp] returns 0 exactly when the strings
    have the same length and agree on their first [n] characters, and -1
    otherwise; [strncpy] with a positive count writes the first [n - 1]
    characters of the source and a terminator, and no other cell; with count 0
    it copies the whole source. *)
Theorem cstring_functions cs1 cs2 str1 str2 n (y z y0 : list Z) :
  is_cstr cs1 str1 → is_cstr cs2 str2 → fits 64 n →
  Z.of_nat (length cs1) < 2 ^ 64 - 1 → Z.of_nat (length cs2) < 2 ^ 64 →
  length y = S (length (take (Z.to_nat (n - 1)) cs1)) → length y0 = S (length cs1) →
  strncmp str1 str2 n =
    Ok (if decide (length cs1 = length cs2 ∧ take (Z.to_nat n) cs1 = take (Z.to_nat n) cs2)
        then 0 else -1) ∧
  (0 < n → strncpy (y ++ z) str1 n = Ok ((take (Z.to_nat (n - 1)) cs1 ++ [0]) ++ z)) ∧
  strncpy (y0 ++ z) str1 0 = Ok ((cs1 ++ [0]) ++ z).
Proof.
  intros H1 H2 Hn Hl1 Hl2 Hy Hy0. split_and!.
  - apply strncmp_spec; [done|done|lia|done|done].
  - intros Hpos. destruct Hn. by apply (strncpy_loop_spec cs1 str1 [] y z n).
  - by apply strncpy_zero.
Qed.

Lemma cstring_functions_witness :
  strncmp [49; 0] [49; 0] 1 = Ok 0 ∧
  strncpy [1; 2; 3; 4] [65; 66; 67; 0] 2 = Ok [65; 0; 3; 4].
Proof.
  split.
  - apply (cstring_functions [49] [49] [49; 0] [49; 0] 1 [0] [] [0; 0]);
      [by split; [repeat constructor|exists []]..|by vm_compute|by vm_compute|by vm_compute|done|done].
  - apply (cstring_functions [65; 66; 67] [] [65; 66; 67; 0] [0] 2 [1; 2] [3; 4] [0; 0; 0; 0]);
      [by split; [repeat constructor|exists []]..|by vm_compute|by vm_compute|by vm_compute|done|done|lia].
Defined.

Lemma to_string_spec junk v :
  0 ≤ v < 2 ^ 32 →
  ∃ s ds, ToString junk v = Ok s ∧ holds (map (Z.add 48) ds) s ∧
    (if decide (v = 0) then ds = [0] else numeral 10 v ds) ∧ (length ds ≤ 10)%nat.
Proof.
  intros Hv. unfold ToString. change (replicate 17 junk) with (replicate 16 junk ++ [junk]).
  rewrite wr_last, bind_Ok by done.
  assert (∀ pre ds, Forall (λ d, 0 ≤ d < 10) ds → (length ds ≤ 10)%nat →
    ∃ s, String_of_cstr junk (Some (drop (Z.to_nat (Z.of_nat (length pre)))
           (pre ++ map (Z.add 48) ds ++ [0]))) = Ok s ∧ holds (map (Z.add 48) ds) s) as Hout.
  { intros pre ds Hds Hlen. rewrite Nat2Z.id, drop_app_length.
    apply String_of_cstr_spec.
    - split; [|by exists []]. apply Forall_map. eapply Forall_impl; [done|]. simpl. lia.
    - unfold small. rewrite length_map. lia. }
  destruct (Z.eqb_spec v 0) as [->|Hne].
  - change (replicate 16 junk ++ [0]) with (replicate 15 junk ++ junk :: [0]).
    rewrite wr_mid, !bind_Ok by done.
    destruct (Hout (replicate 15 junk) [0]) as (s & Hrun & Hs); [by repeat constructor|simpl; lia|].
    exists s, [0]. split_and!; [exact Hrun|done|done|simpl; lia].
  - destruct (to_string_loop_spec 10 18 v v (replicate 16 junk) [] [0])
      as (pre' & ds' & Hrun & Hnum & Hlen); [simpl; lia|simpl; lia|lia|done|unfold value_of; simpl; lia|done|].
    change (to_string_loop 18 (replicate 16 junk ++ [0]) v 16 =
      Ok (pre' ++ map (Z.add 48) ds' ++ [0], Z.of_nat (length pre'))) in Hrun.
    rewrite Hrun, bind_Ok. simpl in Hlen.
    destruct (Hout pre' ds') as (s & Hs1 & Hs2); [apply Hnum|lia|].
    exists s, ds'. split_and!; [done|done|by rewrite decide_False|lia].
Qed.

(** [ToString] prints an unsigned 32-bit number as its decimal numeral,
    without leading zeros, inside its 16-character buffer. *)
Theorem to_string_correct junk v :
  0 ≤ v < 2 ^ 32 →
  ∃ s ds, ToString junk v = Ok s ∧ holds (map (Z.add 48) ds) s ∧
    (if decide (v = 0) then ds = [0] else numeral 10 v ds) ∧ (length ds ≤ 10)%nat.
Proof. apply to_string_spec. Qed.

Lemma to_string_correct_witness :
  ∃ s ds, ToString 7 4096 = Ok s ∧ holds (map (Z.add 48) ds) s ∧ numeral 10 4096 ds.
Proof.
  destruct (to_string_correct 7 4096) as (s & ds & Hr & Hh & Hd & _); [lia|].
  exists s, ds. rewrite decide_False in Hd by lia. auto.
Defined.

(** [String::split].  When empty parts are kept, or when no delimiter ends
    an empty part, it terminates and returns the parts between delimiters in
    order (without an empty last part when empty parts are removed).  With
    [remove_empty], a delimiter that ends an empty part is never passed: the
    loop does not terminate. *)
Theorem split_correct junk delim s cs remove_empty :
  holds cs s → small cs →
  (remove_empty = true → Forall (λ f, f ≠ []) (removelast (fields delim cs)) →
     ∃ r, split junk (S (length cs)) s delim true = Ok r ∧
       Forall2 holds (filter (λ f, f ≠ []) (fields delim cs)) r) ∧
  (remove_empty = true → ¬ Forall (λ f, f ≠ []) (removelast (fields delim cs)) →
     ∀ fuel, split junk fuel s delim true = Err Hang) ∧
  (remove_empty = false →
     ∃ r, split junk (S (length cs)) s delim false = Ok r ∧ Forall2 holds (fields delim cs) r).
Proof.
  intros Hs Hsm. destruct (String_default_spec junk) as (e & He & Hem). unfold split. rewrite He.
  split_and!.
  - intros _ Hne.
    destruct (split_loop_spec junk delim s cs Hs Hsm true [] cs [] e [] [] (S (length cs)))
      as (r & part & last & Hrun & Hl & fs & Hfs & E); [done..|lia|done|].
    change (Z.of_nat (length [])) with 0 in Hrun. rewrite bind_Ok, Hrun, bind_Ok.
    unfold fields in *. rewrite E in *. rewrite removelast_last in Hne.
    assert (filter (λ f, f ≠ []) fs = fs) as Efs.
    { clear -Hne. induction Hne as [|f fs Hf _ IH]; [done|]. rewrite filter_cons_True by done. by rewrite IH. }
    rewrite filter_app, Efs. unfold String_length. rewrite (h_size _ _ Hl).
    destruct last as [|c last]; cbn [negb orb].
    + rewrite orb_false_r. simpl. exists r. rewrite filter_cons_False by (intros Hn; by apply Hn).
      by rewrite app_nil_r.
    + destruct (String_copy_spec junk (c :: last) part Hl) as (p & -> & Hp).
      exists (r ++ [p]). split; [done|]. rewrite filter_cons_True by done.
      apply Forall2_app; [done|]. by constructor.
  - intros _ Hne fuel.
    pose proof (split_loop_hangs junk delim s cs Hs Hsm [] cs [] e [] fuel) as Hh.
    change (Z.of_nat (length [])) with 0 in Hh. by rewrite bind_Ok, Hh.
  - intros _.
    destruct (split_loop_spec junk delim s cs Hs Hsm false [] cs [] e [] [] (S (length cs)))
      as (r & part & last & Hrun & Hl & fs & Hfs & E); [done..|lia|done|].
    change (Z.of_nat (length [])) with 0 in Hrun. rewrite bind_Ok, Hrun, bind_Ok.
    rewrite orb_true_r. destruct (String_copy_spec junk last part Hl) as (p & -> & Hp).
    exists (r ++ [p]). split; [done|]. unfold fields. rewrite E. apply Forall2_app; [done|]. by constructor.
Qed.

(** "/a/b" split at '/', with and without the empty first part. *)
Lemma split_correct_witness :
  (∃ r, split 0 5 (MkString 4 [47; 97; 47; 98; 0] false 0) 47 false = Ok r ∧
     Forall2 holds [[]; [97]; [98]] r) ∧
  ∀ fuel, split 0 fuel (MkString 4 [47; 97; 47; 98; 0] false 0) 47 true = Err Hang.
Proof.
  split.
  - apply (split_correct 0 47 (MkString 4 [47; 97; 47; 98; 0] false 0) [47; 97; 47; 98] false);
      [by split|by vm_compute|done].
  - apply (split_correct 0 47 (MkString 4 [47; 97; 47; 98; 0] false 0) [47; 97; 47; 98] true);
      [by split|by vm_compute|done|].
    cbn. intros Hall. inversion Hall. done.
Defined.
