(* ===== verification/StringMove.v ===== *)
(** * Moved strings

    The move constructor and the move assignment of include/infos/util/string.h.  They
    pass a character buffer from one object to another, so the buffers are objects of a
    heap here and a string refers to its buffer; [CppString] models the operations that
    give every string a buffer of its own. *)

From S2P Require Import Prelude CppString.
Local Open Scope Z_scope.

(** ** Strings and their buffers *)

Record StringRef := MkRef { ref_size : Z; ref_data : option Z; ref_has_hash : bool; ref_hash : Z }.

(** The live buffers, and the string objects, by address. *)
Record strings := MkStrings { buffers : gmap Z (list Z); objects : gmap Z StringRef }.

(** [delete _data]. *)
Definition delete_chars (p : option Z) (b : gmap Z (list Z)) : result (gmap Z (list Z)) :=
  match p with
  | None => Ok b
  | Some p => _ ← get Freed (b !! p); Ok (base.delete p b)
  end.

(** The move constructor: the new object [this] has the buffer of [str]; its hash is
    initialised with the flag. *)
Definition String_move (this str : Z) (s : strings) : result strings :=
  r ← get NullDeref (objects s !! str);
  let n := MkRef (ref_size r) (ref_data r) (ref_has_hash r) (if ref_has_hash r then 1 else 0) in
  Ok (MkStrings (buffers s) (<[this := n]> (objects s))).

(** The move assignment. *)
Definition String_move_assign (this str : Z) (s : strings) : result strings :=
  if this =? str then Ok s else
  t ← get NullDeref (objects s !! this);
  b ← delete_chars (ref_data t) (buffers s);
  r ← get NullDeref (objects s !! str);
  let objs := <[this := r]> (objects s) in
  Ok (MkStrings b (<[str := MkRef 0 None (ref_has_hash r) (ref_hash r)]> objs)).

(** The destructor; the object is gone afterwards. *)
Definition String_destroy (this : Z) (s : strings) : result strings :=
  r ← get NullDeref (objects s !! this);
  b ← delete_chars (ref_data r) (buffers s);
  Ok (MkStrings b (base.delete this (objects s))).

(** The string that an object stands for, while its buffer is live. *)
Definition string_at (s : strings) (a : Z) : option String :=
  r ← objects s !! a; p ← ref_data r; d ← buffers s !! p; Some (MkString (ref_size r) d (ref_has_hash r) (ref_hash r)).

(** ** Properties *)

Lemma string_at_inv s a v :
  string_at s a = Some v → ∃ r p, objects s !! a = Some r ∧ ref_data r = Some p ∧ buffers s !! p = Some (str_data v) ∧
    v = MkString (ref_size r) (str_data v) (ref_has_hash r) (ref_hash r).
Proof.
  unfold string_at. destruct (objects s !! a) as [r|] eqn:Er; [|done]. simpl. destruct (ref_data r) as [p|] eqn:Ep; [|done]. simpl.
  destruct (buffers s !! p) as [d|] eqn:Ed; [|done]. intros [= <-]. by exists r, p.
Qed.

(** Move assignment passes a string on: the target has the text and the hash of the
    source, both objects can be destroyed afterwards, and then neither of the two buffers
    is left while all others are. *)
Theorem move_assign_transfers s a b va vb p q :
  a ≠ b → string_at s a = Some va → string_at s b = Some vb →
  (ref_data <$> objects s !! a) = Some (Some p) → (ref_data <$> objects s !! b) = Some (Some q) → p ≠ q →
  ∃ s1 s2 s3, String_move_assign b a s = Ok s1 ∧ string_at s1 b = Some va ∧
    String_destroy a s1 = Ok s2 ∧ string_at s2 b = Some va ∧ String_destroy b s2 = Ok s3 ∧
    buffers s3 = base.delete p (base.delete q (buffers s)) ∧ objects s3 = base.delete b (base.delete a (objects s)).
Proof.
  intros Hab (ra & p' & Ha & Hp & Hbp & Eva)%string_at_inv (rb & q' & Hb & Hq & Hbq & _)%string_at_inv. rewrite Ha, Hb. cbn. rewrite Hp, Hq.
  intros [= ->] [= ->] Hpq. unfold String_move_assign. rewrite (proj2 (Z.eqb_neq b a)) by done. rewrite Hb. ok_step.
  unfold delete_chars at 1. rewrite Hq, Hbq. ok_step. rewrite bind_Ok, Ha. ok_step. eexists _, _, _. split; [done|].
  assert (string_at (MkStrings (base.delete q (buffers s)) (<[a:=MkRef 0 None (ref_has_hash ra) (ref_hash ra)]> (<[b:=ra]> (objects s)))) b = Some va) as Hat.
  { unfold string_at. cbn [objects buffers]. rewrite lookup_insert_ne, lookup_insert_eq by done. cbn. rewrite Hp. cbn.
    rewrite lookup_delete_ne, Hbp by done. simpl. by rewrite <- Eva. }
  split; [done|]. unfold String_destroy. cbn [objects buffers]. rewrite lookup_insert_eq. ok_step. split; [done|].
  cbn [objects buffers]. rewrite lookup_delete_ne, lookup_insert_ne, lookup_insert_eq by done. split.
  { unfold string_at in *. cbn [objects buffers] in *. by rewrite (lookup_delete_ne _ a b) by done. }
  ok_step. unfold delete_chars. rewrite Hp, lookup_delete_ne, Hbp by done. ok_step. split; [done|]. cbn [objects buffers]. split; [done|].
  rewrite delete_insert_eq. rewrite (delete_delete _ b a). rewrite delete_insert_eq. apply delete_delete.
Qed.

Lemma move_assign_transfers_witness :
  ∃ s1, String_move_assign 2 1 (MkStrings {[10 := [65; 0]; 11 := [0]]} {[1 := MkRef 1 (Some 10) false 0; 2 := MkRef 0 (Some 11) false 0]}) = Ok s1 ∧
    string_at s1 2 = Some (MkString 1 [65; 0] false 0).
Proof.
  destruct (move_assign_transfers (MkStrings {[10 := [65; 0]; 11 := [0]]} {[1 := MkRef 1 (Some 10) false 0; 2 := MkRef 0 (Some 11) false 0]})
    1 2 (MkString 1 [65; 0] false 0) (MkString 0 [0] false 0) 10 11) as (s1 & _ & _ & Hrun & Hat & _).
  - discriminate.
  - reflexivity.
  - reflexivity.
  - reflexivity.
  - reflexivity.
  - discriminate.
  - exists s1. split; [exact Hrun|exact Hat].
Defined.

(** Move construction leaves two owners of one buffer: the new string has the text of the
    source, but for a string whose hash was known the hash is now 1; when either of the
    two is destroyed the other has lost its buffer, and its destructor frees the buffer a
    second time. *)
Theorem move_construct_shares s a c va :
  a ≠ c → string_at s a = Some va →
  ∃ s1, String_move c a s = Ok s1 ∧
    string_at s1 c = Some (MkString (str_size va) (str_data va) (has_hash va) (if has_hash va then 1 else 0)) ∧
    (has_hash va = true → ∃ v, string_at s1 c = Some v ∧ get_hash v = Ok (1, v)) ∧
    ∀ x y, (x, y) = (a, c) ∨ (x, y) = (c, a) →
      ∃ s2, String_destroy x s1 = Ok s2 ∧ string_at s2 y = None ∧ String_destroy y s2 = Err Freed.
Proof.
  intros Hac (r & p & Ha & Hp & Hb & Ev)%string_at_inv. unfold String_move. rewrite Ha. ok_step. eexists. split; [done|].
  set (n := MkRef _ _ _ _).
  assert (string_at (MkStrings (buffers s) (<[c:=n]> (objects s))) c =
    Some (MkString (str_size va) (str_data va) (has_hash va) (if has_hash va then 1 else 0))) as Hc.
  { unfold string_at. cbn [objects buffers]. rewrite lookup_insert_eq. cbn. rewrite Hp. cbn. rewrite Hb. cbn. by rewrite Ev. }
  split; [done|]. split.
  { intros Hh. eexists. split; [done|]. unfold get_hash. cbn [has_hash]. by rewrite Hh. }
  intros x y Hxy. assert (∃ rx ry, <[c:=n]> (objects s) !! x = Some rx ∧ <[c:=n]> (objects s) !! y = Some ry ∧ x ≠ y ∧
    ref_data rx = Some p ∧ ref_data ry = Some p) as (rx & ry & Hx & Hy & Hne & Hpx & Hpy).
  { destruct Hxy as [[= -> ->]|[= -> ->]].
    - exists r, n. by rewrite lookup_insert_ne, lookup_insert_eq.
    - exists n, r. by rewrite lookup_insert_eq, lookup_insert_ne. }
  unfold String_destroy, string_at. cbn [objects buffers]. rewrite Hx. ok_step. unfold delete_chars at 1. rewrite Hpx, Hb. ok_step.
  rewrite bind_Ok. eexists. split; [done|]. cbn [objects buffers]. rewrite lookup_delete_ne, Hy by done. cbn. rewrite Hpy. cbn.
  by rewrite lookup_delete_eq.
Qed.

Lemma move_construct_shares_witness :
  ∃ s1 s2, String_move 2 1 (MkStrings {[10 := [65; 0]]} {[1 := MkRef 1 (Some 10) true 77]}) = Ok s1 ∧
    string_at s1 2 = Some (MkString 1 [65; 0] true 1) ∧ String_destroy 1 s1 = Ok s2 ∧ String_destroy 2 s2 = Err Freed.
Proof.
  destruct (move_construct_shares (MkStrings {[10 := [65; 0]]} {[1 := MkRef 1 (Some 10) true 77]}) 1 2 (MkString 1 [65; 0] true 77))
    as (s1 & Hrun & Hat & _ & Hd).
  - discriminate.
  - reflexivity.
  - destruct (Hd 1 2 (or_introl eq_refl)) as (s2 & H1 & _ & H2). exists s1, s2.
    split; [exact Hrun|]. split; [exact Hat|]. split; [exact H1|exact H2].
Defined.
