(* ===== verification/Printf.v ===== *)
(** * Formatted printing

    util/printf.cpp.  The output buffer is a list of cells with a position; the
    variable arguments are a list of register values and strings. *)

From S2P Require Import Prelude Define CppString.
Local Open Scope Z_scope.

(** ** Building blocks *)

(** [for (i = size; i > 0; i--) buffer[i] = buffer[i - 1];] *)
Fixpoint shift_cells (n : nat) (buf : list Z) (pos : Z) : result (list Z) :=
  match n with
  | O => Ok buf
  | S n' =>
      c ← rd buf (pos + Z.of_nat n - 1);
      buf ← wr buf (pos + Z.of_nat n) c;
      shift_cells n' buf pos
  end.

Definition prepend_to_buffer (c : Z) (buf : list Z) (pos size : Z) : result (list Z) :=
  buf ← shift_cells (Z.to_nat size) buf pos; wr buf pos c.

Definition digit_char (d : Z) : Z := if d <? 10 then 48 + d else 97 + d - 10.

(** A 64-bit value has at most 64 digits in any base. *)
Fixpoint digits_loop (fuel : nat) (buf : list Z) (pos size value base n : Z)
    : result (list Z * Z) :=
  match fuel with
  | O => Err Hang
  | S fuel' =>
      if (0 <? value) && (n <? size) then
        buf ← prepend_to_buffer (digit_char (value mod base)) buf pos n;
        digits_loop fuel' buf pos size (value / base) base (n + 1)
      else Ok (buf, n)
  end.

Fixpoint pad_loop (fuel : nat) (buf : list Z) (pos size pad_char pad n : Z)
    : result (list Z * Z) :=
  match fuel with
  | O => Err Hang
  | S fuel' =>
      if (0 <? pad) && (n <? size) then
        buf ← prepend_to_buffer pad_char buf pos n;
        pad_loop fuel' buf pos size pad_char (pad - 1) (n + 1)
      else Ok (buf, n)
  end.

Definition append_num (buf : list Z) (pos size value base : Z) (sgn : bool) (pad pad_char : Z)
    : result (list Z * Z) :=
  let pad := if size <=? pad then size - 1 else pad in
  '(buf, n, value) ←
    (if sgn && (s64 value <? 0)
     then buf ← prepend_to_buffer 45 buf pos 0; Ok (buf, 1, u64 (- value))
     else Ok (buf, 0, value));
  '(buf, n) ←
    (if 0 <? value then digits_loop 65 buf pos size value base n
     else if n <? size then
       buf ← prepend_to_buffer 48 buf pos n; buf ← wr buf pos 48; Ok (buf, n + 1)
     else Ok (buf, n));
  pad_loop (S (Z.to_nat (pad - n))) buf pos size pad_char (pad - n) n.

(** The two loops of [append_str]; the buffer pointer has advanced by [n]. *)
Fixpoint copy_text (buf : list Z) (pos size : Z) (text : cstr) (n : Z) : result (list Z * Z) :=
  match text with
  | [] => Err OutOfBounds
  | c :: text' =>
      if negb (c =? 0) && (n <? size)
      then buf ← wr buf (pos + n) c; copy_text buf pos size text' (n + 1)
      else Ok (buf, n)
  end.

Fixpoint pad_text (fuel : nat) (buf : list Z) (pos size pad pad_char n : Z) : result (list Z * Z) :=
  match fuel with
  | O => Err Hang
  | S fuel' =>
      if (n <? size) && (n <? pad)
      then buf ← wr buf (pos + n) pad_char; pad_text fuel' buf pos size pad pad_char (n + 1)
      else Ok (buf, n)
  end.

Definition append_str (buf : list Z) (pos size : Z) (text : cstr) (pad pad_char : Z)
    : result (list Z * Z) :=
  '(buf, n) ← copy_text buf pos size text 0;
  pad_text (S (Z.to_nat (size - n))) buf pos size pad pad_char n.

(** ** vsnprintf *)

Inductive arg := ANum (v : Z) | AStr (s : cstr).

Definition va_num (args : list arg) : result (Z * list arg) :=
  match args with ANum v :: args => Ok (v, args) | _ => Err Uninitialised end.
Definition va_str (args : list arg) : result (cstr * list arg) :=
  match args with AStr s :: args => Ok (s, args) | _ => Err Uninitialised end.

(** Where the scanner is: in plain text, or after a '%' and some of its
    modifiers. *)
Inductive fmode := Plain | Directive (pad_size pad_char number_size : Z).

(** What a conversion character does: it prints and consumes arguments. *)
Definition convert (c pad_size pad_char number_size : Z) (buf : list Z) (size count : Z)
    (args : list arg) : result (list Z * Z * list arg) :=
  let room := size - 1 - count in
  if (c =? 100) || (c =? 117) then                           (* d, u *)
    '(a, args) ← va_num args;
    let v := if number_size =? 8 then u64 a else if c =? 117 then u32 a else u64 (s32 a) in
    '(buf, rc) ← append_num buf count room v 10 (c =? 100) pad_size pad_char;
    Ok (buf, count + rc, args)
  else if (c =? 98) || (c =? 120) || (c =? 112) then         (* b, x, p *)
    '(a, args) ← va_num args;
    let v := if (number_size =? 8) || (c =? 112) then u64 a else u32 a in
    '(buf, count) ← (if c =? 112 then
        '(buf, rc) ← append_str buf count room [48; 120; 0] 0 32; Ok (buf, count + rc)
      else Ok (buf, count));
    '(buf, rc) ← append_num buf count (size - 1 - count) v (if c =? 98 then 2 else 16) false
                   pad_size pad_char;
    Ok (buf, count + rc, args)
  else if c =? 115 then                                      (* s *)
    '(s, args) ← va_str args;
    '(buf, rc) ← append_str buf count room s pad_size pad_char;
    Ok (buf, count + rc, args)
  else if c =? 99 then                                       (* c *)
    '(a, args) ← va_num args;
    buf ← wr buf count (u8 a); Ok (buf, count + 1, args)
  else buf ← wr buf count c; Ok (buf, count + 1, args).

(** The scanner: one character of the format per step. *)
Fixpoint format (fmt : cstr) (mode : fmode) (buf : list Z) (size count : Z) (args : list arg)
    : result (list Z * Z) :=
  match fmt with
  | [] => Err OutOfBounds
  | c :: fmt' =>
      match mode with
      | Plain =>
          if (c =? 0) || negb (count <? size - 1)
          then buf ← wr buf count 0; Ok (buf, count)
          else if c =? 37 then format fmt' (Directive 0 32 4) buf size count args
          else buf ← wr buf count c; format fmt' Plain buf size (count + 1) args
      | Directive pad_size pad_char number_size =>
          if c =? 0 then buf ← wr buf count 0; Ok (buf, count)
          else if c =? 48 then
            if 0 <? pad_size
            then format fmt' (Directive (s32 (pad_size * 10)) pad_char number_size) buf size count args
            else format fmt' (Directive pad_size 48 number_size) buf size count args
          else if (49 <=? c) && (c <=? 57) then
            format fmt' (Directive (s32 (s32 (pad_size * 10) + (c - 48))) pad_char number_size)
              buf size count args
          else if c =? 108 then format fmt' (Directive pad_size pad_char 8) buf size count args
          else
            '(buf, count, args) ← convert c pad_size pad_char number_size buf size count args;
            format fmt' Plain buf size count args
      end
  end.

Definition vsnprintf (buf : list Z) (size : Z) (fmt : cstr) (args : list arg) : result (list Z * Z) :=
  if size =? 0 then Ok (buf, 0) else format fmt Plain buf size 0 args.

Definition snprintf := vsnprintf.
Definition sprintf (buf : list Z) (fmt : cstr) (args : list arg) : result (list Z * Z) :=
  vsnprintf buf 0x1000 fmt args.

(** ** What the building blocks write *)

Lemma shift_cells_spec (pre w z : list Z) y :
  ∃ c, shift_cells (length w) (pre ++ w ++ y :: z) (Z.of_nat (length pre)) = Ok (pre ++ c :: w ++ z).
Proof.
  revert y z. induction w as [|x w IH] using rev_ind; intros y z; [by exists y|].
  replace (length (w ++ [x])) with (S (length w)) by (rewrite length_app; simpl; lia).
  cbn [shift_cells]. rewrite <- (app_assoc w). cbn [app]. rewrite (app_assoc pre w).
  rewrite rd_mid, bind_Ok by (rewrite length_app; lia).
  rewrite (app_assoc (pre ++ w) [x] (y :: z) : (pre ++ w) ++ x :: y :: z = ((pre ++ w) ++ [x]) ++ y :: z).
  rewrite wr_mid, bind_Ok by (rewrite !length_app; simpl; lia).
  rewrite <- !app_assoc. cbn [app]. destruct (IH x (x :: z)) as [c ->]. by exists c.
Qed.

Lemma prepend_spec (pre w z : list Z) y c n :
  n = Z.of_nat (length w) →
  prepend_to_buffer c (pre ++ w ++ y :: z) (Z.of_nat (length pre)) n = Ok (pre ++ c :: w ++ z).
Proof.
  intros ->. unfold prepend_to_buffer. rewrite Nat2Z.id.
  destruct (shift_cells_spec pre w z y) as [c0 ->]. rewrite bind_Ok. by apply wr_mid.
Qed.

(** The output so far is [w], followed by cells [y] that may be overwritten. *)
Lemma prepend_spec' (pre w y : list Z) c n :
  n = Z.of_nat (length w) → y ≠ [] →
  prepend_to_buffer c (pre ++ w ++ y) (Z.of_nat (length pre)) n = Ok (pre ++ (c :: w) ++ drop 1 y).
Proof. intros Hn Hy. destruct y as [|y0 y]; [done|]. by apply prepend_spec. Qed.

(** The digits of a number appear in front of what has been printed: all of
    them, or as many low-order digits as there is room for. *)
Lemma digits_loop_spec k fuel base v0 v (pre w y : list Z) ds size n :
  1 < base → 0 ≤ v < base ^ Z.of_nat k → (k < fuel)%nat →
  n = Z.of_nat (length ds + length w) → n ≤ size → size - n ≤ Z.of_nat (length y) →
  Forall (λ d, 0 ≤ d < base) ds → v * base ^ Z.of_nat (length ds) + value_of base ds = v0 →
  (v = 0 → ∀ d, head ds = Some d → d ≠ 0) →
  ∃ ds', digits_loop fuel (pre ++ (map digit_char ds ++ w) ++ y) (Z.of_nat (length pre)) size v base n =
      Ok (pre ++ (map digit_char ds' ++ w) ++ drop (length ds' - length ds) y,
          Z.of_nat (length ds' + length w)) ∧
    (length ds ≤ length ds' ≤ length ds + k)%nat ∧ Z.of_nat (length ds' + length w) ≤ size ∧
    (numeral base v0 ds' ∨ Z.of_nat (length ds' + length w) = size).
Proof.
  intros Hb. revert fuel v y ds n.
  induction k as [|k IH]; intros fuel v y ds n Hv Hf Hn Hsz Hy Hds Hval Hhd;
    (destruct fuel as [|fuel]; [lia|]); cbn [digits_loop].
  - assert (v = 0) as -> by (simpl in Hv; lia). exists ds. rewrite Nat.sub_diag, drop_0, Hn.
    split_and!; [done|lia|lia|lia|]. left. by split_and!; [| |apply Hhd].
  - destruct (Z.ltb_spec 0 v) as [Hpos|Hz]; cbn [andb].
    2: { assert (v = 0) as -> by lia. exists ds. rewrite Nat.sub_diag, drop_0, Hn.
         split_and!; [done|lia|lia|lia|]. left. by split_and!; [| |apply Hhd]. }
    destruct (Z.ltb_spec n size) as [Hlt|Hge]; cbn [andb].
    2: { exists ds. rewrite Nat.sub_diag, drop_0, Hn. split_and!; [done|lia|lia|lia|]. right. lia. }
    rewrite prepend_spec', bind_Ok;
      [|rewrite length_app, length_map; lia|intros ->; simpl in Hy; lia].
    destruct (numeral_step base v0 v ds) as [Hds' Hval']; [lia|done|done|done|].
    destruct (IH fuel (v / base) (drop 1 y) (v mod base :: ds) (n + 1))
      as (ds' & Hrun & Hl & Hle & Hor); [|lia|cbn [length]; lia|lia|rewrite length_drop; lia|done|done| |].
    + replace (Z.of_nat (S k)) with (Z.of_nat k + 1) in Hv by lia. rewrite Z.pow_add_r in Hv by lia.
      split; [apply Z.div_pos; lia|apply Z.div_lt_upper_bound; lia].
    + intros E d Hd. simpl in Hd. pose proof (Z.div_mod v base ltac:(lia)). intros ->. simplify_eq. lia.
    + cbn [length] in *. exists ds'. split_and!; [|lia|lia|done|done].
      cbn [map app] in Hrun. cbn [app]. rewrite Hrun, drop_drop. do 4 f_equal. f_equal. lia.
Qed.

Lemma pad_loop_spec fuel (pre w y : list Z) size pad_char pad n :
  (Z.to_nat pad < fuel)%nat → n = Z.of_nat (length w) → n ≤ size → size - n ≤ Z.of_nat (length y) →
  ∃ k, pad_loop fuel (pre ++ w ++ y) (Z.of_nat (length pre)) size pad_char pad n =
      Ok (pre ++ (replicate k pad_char ++ w) ++ drop k y, Z.of_nat (k + length w)) ∧
    Z.of_nat (k + length w) ≤ size ∧ k = Z.to_nat (Z.min pad (size - n)).
Proof.
  revert w y pad n. induction fuel as [|fuel IH]; intros w y pad n Hf Hn Hsz Hy; [lia|].
  cbn [pad_loop]. destruct (Z.ltb_spec 0 pad), (Z.ltb_spec n size); cbn [andb].
  2-4: exists 0%nat; rewrite drop_0; cbn [replicate app Nat.add]; split_and!; [by rewrite Hn|lia|lia].
  rewrite prepend_spec', bind_Ok; [|done|intros ->; simpl in Hy; lia].
  destruct (IH (pad_char :: w) (drop 1 y) (pad - 1) (n + 1)) as (k & -> & Hle & Hk);
    [lia|cbn [length]; lia|lia|rewrite length_drop; lia|].
  exists (S k). split_and!.
  - rewrite drop_drop. cbn [length]. do 2 f_equal; [|lia]. f_equal. rewrite replicate_S_end.
    rewrite <- !app_assoc. cbn [app]. done.
  - cbn [length] in Hle. lia.
  - lia.
Qed.

Definition negative (sgn : bool) (value : Z) : bool := sgn && (s64 value <? 0).
Definition magnitude (sgn : bool) (value : Z) : Z :=
  if negative sgn value then u64 (- value) else value.
(** The sign that is printed after the digits. *)
Definition sign_text (sgn : bool) (value : Z) : list Z := if negative sgn value then [45] else [].

Lemma negative_magnitude sgn value :
  fits 64 value → negative sgn value = true → u64 (- value) ≠ 0.
Proof.
  intros [Hv0 Hv] Hn. unfold negative in Hn. apply andb_true_iff in Hn as [_ Hn%Z.ltb_lt].
  unfold swrap in Hn. rewrite Z.mod_small in Hn by lia.
  assert (value ≠ 0) by (intros ->; simpl in Hn; lia).
  unfold wrap. replace (- value) with (2 ^ 64 - value + (-1) * 2 ^ 64) by lia.
  rewrite Z.mod_add, Z.mod_small by lia. lia.
Qed.

Lemma magnitude_pos sgn value : fits 64 value → 0 < value → magnitude sgn value ≠ 0.
Proof.
  intros Hv Hpos. unfold magnitude. destruct (negative sgn value) eqn:En; [|lia].
  by apply negative_magnitude with sgn.
Qed.

(** The middle of [append_num]: the digits, or a single 0. *)
Lemma digits_or_zero (pre sg y : list Z) size v base :
  1 < base → fits 64 v → Z.of_nat (length sg) ≤ size →
  size - Z.of_nat (length sg) ≤ Z.of_nat (length y) → (v = 0 → sg = []) →
  ∃ ds, (if 0 <? v then digits_loop 65 (pre ++ sg ++ y) (Z.of_nat (length pre)) size v base
        (Z.of_nat (length sg))
     else if Z.of_nat (length sg) <? size then
       buf ← prepend_to_buffer 48 (pre ++ sg ++ y) (Z.of_nat (length pre)) (Z.of_nat (length sg));
       buf ← wr buf (Z.of_nat (length pre)) 48; Ok (buf, Z.of_nat (length sg) + 1)
     else Ok (pre ++ sg ++ y, Z.of_nat (length sg))) =
     Ok (pre ++ (map digit_char ds ++ sg) ++ drop (length ds) y, Z.of_nat (length ds + length sg)) ∧
     Z.of_nat (length ds + length sg) ≤ size ∧
     (if decide (v = 0) then ds = (if decide (size = 0) then [] else [0])
      else numeral base v ds ∨ Z.of_nat (length ds + length sg) = size) ∧ (length ds ≤ 64)%nat.
Proof.
  intros Hb Hv Hsg Hy Hz. destruct (Z.ltb_spec 0 v) as [Hpos|Hle].
  - destruct (digits_loop_spec 64 65 base v v pre sg y [] size (Z.of_nat (length sg)))
      as (ds & Hrun & Hl & Hle & Hor); [done| |lia|done|lia|lia|done|unfold value_of; simpl; lia|done|].
    + destruct Hv. split; [done|].
      apply Z.lt_le_trans with (2 ^ Z.of_nat 64); [done|apply Z.pow_le_mono_l; lia].
    + exists ds. cbn [map app length] in Hrun. rewrite Nat.sub_0_r in Hrun.
      split_and!; [done|done|by rewrite decide_False by lia|simpl in Hl; lia].
  - assert (v = 0) as -> by (destruct Hv; lia). rewrite (Hz eq_refl) in *. cbn [length] in *.
    destruct (decide (0 = 0)) as [_|]; [|done]. destruct (Z.ltb_spec (Z.of_nat 0) size).
    + rewrite prepend_spec', bind_Ok; [|done|intros ->; simpl in Hy; lia].
      cbn [app]. rewrite wr_mid, bind_Ok by done. exists [0]. rewrite decide_False by lia.
      split_and!; [done|simpl; lia|done|simpl; lia].
    + exists []. rewrite decide_True by lia. rewrite drop_0. split_and!; [done|simpl; lia|done|simpl; lia].
Qed.

(** [append_num] writes padding, digits and sign at its position and nothing
    else; the digits are the numeral unless there is no room for it. *)
Lemma append_num_spec (pre y : list Z) size value base sgn pad pad_char :
  1 < base → fits 64 value → 0 ≤ size → size ≤ Z.of_nat (length y) →
  (sgn = true → 1 ≤ size) →
  ∃ ds k, let out := replicate k pad_char ++ map digit_char ds ++ sign_text sgn value in
    append_num (pre ++ y) (Z.of_nat (length pre)) size value base sgn pad pad_char =
      Ok (pre ++ out ++ drop (length out) y, Z.of_nat (length out)) ∧
    Z.of_nat (length out) ≤ size ∧
    (if decide (magnitude sgn value = 0) then ds = (if decide (size = 0) then [] else [0])
     else numeral base (magnitude sgn value) ds ∨
          Z.of_nat (length ds + length (sign_text sgn value)) = size) ∧
    k = Z.to_nat (Z.min pad (size - 1) - Z.of_nat (length ds + length (sign_text sgn value))) ∧
    (length ds ≤ 64)%nat.
Proof.
  intros Hb Hv Hsz Hy Hsg. unfold append_num.
  assert ((if sgn && (s64 value <? 0)
     then buf ← prepend_to_buffer 45 (pre ++ y) (Z.of_nat (length pre)) 0; Ok (buf, 1, u64 (- value))
     else Ok (pre ++ y, 0, value)) =
     Ok (pre ++ sign_text sgn value ++ drop (length (sign_text sgn value)) y,
         Z.of_nat (length (sign_text sgn value)), magnitude sgn value) ∧
     Z.of_nat (length (sign_text sgn value)) ≤ size) as [-> Hsl].
  { unfold sign_text, magnitude, negative. destruct sgn; cbn [andb]; [|by rewrite drop_0].
    case_match; [|by rewrite drop_0]. specialize (Hsg eq_refl).
    destruct y as [|y0 y]; [simpl in Hy; lia|].
    rewrite (prepend_spec' pre [] (y0 :: y)) by done. split; [done|simpl; lia]. }
  rewrite bind_Ok. cbn beta iota.
  assert (fits 64 (magnitude sgn value)) as Hm
    by (unfold magnitude; case_match; [by apply wrap_fits|done]).
  set (v := magnitude sgn value) in *. set (sg := sign_text sgn value) in *.
  set (y1 := drop (length sg) y).
  assert (size - Z.of_nat (length sg) ≤ Z.of_nat (length y1)) as Hy1 by (unfold y1; rewrite length_drop; lia).
  destruct (digits_or_zero pre sg y1 size v base) as (ds & -> & Hds & Hnum & Hd64); [done..| |].
  { intros E. unfold sg, sign_text. destruct (negative sgn value) eqn:En; [|done].
    exfalso. revert E. unfold v, magnitude. rewrite En. by apply negative_magnitude with sgn. }
  rewrite bind_Ok. cbn beta iota. set (pad' := if size <=? pad then size - 1 else pad).
  destruct (pad_loop_spec (S (Z.to_nat (pad' - Z.of_nat (length ds + length sg)))) pre
    (map digit_char ds ++ sg) (drop (length ds) y1) size pad_char
    (pad' - Z.of_nat (length ds + length sg)) (Z.of_nat (length ds + length sg)))
    as (k & -> & Hk & Ek); [lia|rewrite length_app, length_map; lia|lia|rewrite length_drop; lia|].
  rewrite length_app, length_map in Hk.
  exists ds, k. split_and!.
  - unfold y1. rewrite !length_app, length_replicate, length_map, !drop_drop.
    do 2 f_equal. f_equal. f_equal. f_equal. lia.
  - rewrite !length_app, length_replicate, length_map. lia.
  - done.
  - rewrite Ek. unfold pad'. destruct (Z.leb_spec size pad); lia.
  - done.
Qed.

Lemma copy_text_spec cs text (pre w y : list Z) size n :
  is_cstr cs text → n = Z.of_nat (length w) → n ≤ size → size - n ≤ Z.of_nat (length y) →
  let out := take (Z.to_nat (size - n)) cs in
  copy_text (pre ++ w ++ y) (Z.of_nat (length pre)) size text n =
    Ok (pre ++ (w ++ out) ++ drop (length out) y, n + Z.of_nat (length out)).
Proof.
  intros [Hnz [rest ->]]. revert w y n.
  induction Hnz as [|c cs Hc Hcs IH]; intros w y n Hn Hsz Hy; cbn [copy_text app].
  - rewrite take_nil. cbn [length]. rewrite app_nil_r, drop_0. cbn. by rewrite Z.add_0_r.
  - rewrite (proj2 (Z.eqb_neq c 0) Hc). cbn [negb andb]. destruct (Z.ltb_spec n size).
    + destruct y as [|y0 y]; [simpl in Hy; lia|]. rewrite (app_assoc pre w).
      rewrite wr_mid, bind_Ok by (rewrite length_app; lia). rewrite <- app_assoc.
      specialize (IH (w ++ [c]) y (n + 1)). rewrite length_app, <- !app_assoc in IH.
      cbn [length app] in IH. rewrite IH by (simpl in Hy; lia).
      replace (Z.to_nat (size - n)) with (S (Z.to_nat (size - (n + 1)))) by lia.
      cbn [take length drop app]. rewrite <- !app_assoc. cbn [app]. do 2 f_equal. lia.
    + replace (Z.to_nat (size - n)) with 0%nat by lia. cbn [take length].
      rewrite app_nil_r, drop_0. by rewrite Z.add_0_r.
Qed.

Lemma pad_text_spec fuel (pre w y : list Z) size pad pad_char n :
  (Z.to_nat (size - n) < fuel)%nat → n = Z.of_nat (length w) → n ≤ size →
  size - n ≤ Z.of_nat (length y) →
  let k := Z.to_nat (Z.min size pad - n) in
  pad_text fuel (pre ++ w ++ y) (Z.of_nat (length pre)) size pad pad_char n =
    Ok (pre ++ (w ++ replicate k pad_char) ++ drop k y, n + Z.of_nat k).
Proof.
  revert w y n. induction fuel as [|fuel IH]; intros w y n Hf Hn Hsz Hy; [lia|]. cbn [pad_text].
  destruct (Z.ltb_spec n size), (Z.ltb_spec n pad); cbn [andb].
  2-4: replace (Z.to_nat (Z.min size pad - n)) with 0%nat by lia; cbn [replicate];
    by rewrite app_nil_r, drop_0, Z.add_0_r.
  destruct y as [|y0 y]; [simpl in Hy; lia|]. rewrite (app_assoc pre w).
  rewrite wr_mid, bind_Ok by (rewrite length_app; lia). rewrite <- app_assoc.
  specialize (IH (w ++ [pad_char]) y (n + 1)). rewrite length_app, <- !app_assoc in IH.
  cbn [length app] in IH. rewrite IH by (simpl in Hy; lia).
  replace (Z.to_nat (Z.min size pad - n)) with (S (Z.to_nat (Z.min size pad - (n + 1)))) by lia.
  cbn [replicate drop app]. rewrite <- !app_assoc. cbn [app]. do 2 f_equal. lia.
Qed.

(** [append_str] writes the text, cut to the room there is, and pads it on the
    right. *)
Lemma append_str_spec cs text (pre y : list Z) size pad pad_char :
  is_cstr cs text → 0 ≤ size → size ≤ Z.of_nat (length y) →
  let shown := take (Z.to_nat size) cs in
  let out := shown ++ replicate (Z.to_nat (Z.min size pad - Z.of_nat (length shown))) pad_char in
  append_str (pre ++ y) (Z.of_nat (length pre)) size text pad pad_char =
    Ok (pre ++ out ++ drop (length out) y, Z.of_nat (length out)) ∧ Z.of_nat (length out) ≤ size.
Proof.
  intros Hc Hsz Hy. cbv zeta. unfold append_str.
  pose proof (copy_text_spec cs text pre [] y size 0 Hc eq_refl Hsz ltac:(lia)) as Hcp.
  cbv zeta in Hcp. cbn [app] in Hcp. rewrite Z.sub_0_r in Hcp. rewrite Hcp, bind_Ok.
  set (shown := take (Z.to_nat size) cs) in *.
  assert (length shown ≤ Z.to_nat size)%nat by (unfold shown; rewrite length_take; lia).
  rewrite (pad_text_spec _ pre shown (drop (length shown) y)); [|lia|lia|lia|rewrite length_drop; lia].
  rewrite Z.add_0_l, drop_drop, length_app, length_replicate. split; [|lia].
  do 2 f_equal. lia.
Qed.

(** ** Text and strings *)

(** [renders fmt args t]: the format of plain characters and %s stands for [t]. *)
Inductive renders : cstr → list arg → list Z → Prop :=
| renders_end rest args : renders (0 :: rest) args []
| renders_char c fmt args t : c ≠ 0 → c ≠ 37 → renders fmt args t → renders (c :: fmt) args (c :: t)
| renders_str cs s fmt args t :
    is_cstr cs s → renders fmt args t → renders (37 :: 115 :: fmt) (AStr s :: args) (cs ++ t).

(** Once the buffer is full the rest of the format is not looked at. *)
Lemma format_full fmt args t (w y : list Z) size :
  renders fmt args t → Z.of_nat (length w) = size - 1 → 1 ≤ Z.of_nat (length y) →
  format fmt Plain (w ++ y) size (Z.of_nat (length w)) args = Ok (w ++ 0 :: drop 1 y, Z.of_nat (length w)).
Proof.
  intros Hr Hw Hy. assert (∃ c fmt', fmt = c :: fmt') as (c & fmt' & ->) by (destruct Hr; eauto).
  cbn [format]. rewrite (proj2 (Z.ltb_ge (Z.of_nat (length w)) (size - 1))) by lia. rewrite orb_true_r.
  destruct y as [|b y]; [cbn in Hy; lia|]. by rewrite (wr_mid w y b 0), bind_Ok.
Qed.

(** Such a format prints its text, cut to the room there is. *)
Lemma format_text fmt args t (w y : list Z) size :
  renders fmt args t → Z.of_nat (length w) ≤ size - 1 → size - Z.of_nat (length w) ≤ Z.of_nat (length y) →
  let out := take (Z.to_nat (size - 1 - Z.of_nat (length w))) t in
  format fmt Plain (w ++ y) size (Z.of_nat (length w)) args =
    Ok (w ++ out ++ 0 :: drop (S (length out)) y, Z.of_nat (length w + length out)).
Proof.
  intros Hr. revert w y. induction Hr as [rest args|c fmt args t H0 H37 Hr IH|cs s fmt args t Hc Hr IH]; intros w y Hw Hy; cbv zeta.
  - rewrite take_nil. cbn [format Z.eqb orb length app]. destruct y as [|b y]; [cbn in Hy; lia|].
    rewrite (wr_mid w y b 0), bind_Ok by done. cbn [drop]. by rewrite Nat.add_0_r.
  - destruct (decide (Z.of_nat (length w) = size - 1)) as [E|E].
    { rewrite (format_full (c :: fmt) args (c :: t)) by (try done; try lia; by constructor).
      replace (size - 1 - Z.of_nat (length w)) with 0 by lia. cbn. by rewrite Nat.add_0_r. }
    cbn [format]. rewrite (proj2 (Z.eqb_neq c 0)), (proj2 (Z.ltb_lt _ _)), (proj2 (Z.eqb_neq c 37)) by (done || lia).
    cbn [negb orb]. destruct y as [|b y]; [cbn in Hy; lia|]. rewrite (wr_mid w y b c), bind_Ok by done.
    specialize (IH (w ++ [c]) y). rewrite length_app in IH. cbn [length] in IH, Hy.
    replace (Z.of_nat (length w + 1)) with (Z.of_nat (length w) + 1) in IH by lia.
    replace (w ++ c :: y) with ((w ++ [c]) ++ y) by by rewrite <- app_assoc. rewrite IH by lia. cbv zeta.
    replace (Z.to_nat (size - 1 - Z.of_nat (length w))) with (S (Z.to_nat (size - 1 - (Z.of_nat (length w) + 1)))) by lia.
    cbn [take length drop]. rewrite <- app_assoc. do 2 f_equal. lia.
  - destruct (decide (Z.of_nat (length w) = size - 1)) as [E|E].
    { rewrite (format_full _ _ (cs ++ t)) by (try done; try lia; by constructor).
      replace (size - 1 - Z.of_nat (length w)) with 0 by lia. cbn. by rewrite Nat.add_0_r. }
    cbn [format Z.eqb orb Pos.eqb]. rewrite (proj2 (Z.ltb_lt _ _)) by lia. cbn [negb]. unfold convert. cbn [Z.eqb Pos.eqb orb andb Z.leb Z.compare Pos.compare Pos.compare_cont].
    cbn [va_str]. rewrite bind_Ok. cbn beta iota.
    destruct (append_str_spec cs s w y (size - 1 - Z.of_nat (length w)) 0 32 Hc) as [-> Hle]; [lia..|].
    rewrite !bind_Ok. cbn beta iota.
    replace (Z.to_nat (Z.min (size - 1 - Z.of_nat (length w)) 0 - _)) with 0%nat in * by lia.
    cbn [replicate] in *. rewrite app_nil_r in *. set (room := Z.to_nat (size - 1 - Z.of_nat (length w))) in *.
    specialize (IH (w ++ take room cs) (drop (length (take room cs)) y)). rewrite length_app, length_drop, <- app_assoc in IH.
    rewrite <- Nat2Z.inj_add, IH by lia. cbv zeta. rewrite drop_drop.
    rewrite take_app, <- !app_assoc, !length_app.
    assert (Z.to_nat (size - 1 - Z.of_nat (length w + length (take room cs))) = room - length cs)%nat as ->
      by (rewrite length_take; unfold room; lia).
    by rewrite <- Nat.add_assoc, Nat.add_succ_r.
Qed.

(** ** The formatter stays inside the buffer *)

Definition arg_ok (a : arg) : Prop :=
  match a with AStr s => ∃ cs, is_cstr cs s | ANum _ => True end.

(** The call printed [out] at the end of [w]. *)
Definition prints {B} (w y : list Z) (size : Z) (run : result (list Z * Z * B)) (Q : B → Prop) : Prop :=
  run = Err Uninitialised ∨
  ∃ out b, run = Ok (w ++ out ++ drop (length out) y, Z.of_nat (length w + length out), b) ∧
    Z.of_nat (length w + length out) ≤ size - 1 ∧ Q b.

Lemma prints_num (w y : list Z) size value base sgn pad pad_char (args : list arg) :
  1 < base → fits 64 value → Z.of_nat (length w) ≤ size - 1 →
  (sgn = true → Z.of_nat (length w) < size - 1) →
  size - Z.of_nat (length w) ≤ Z.of_nat (length y) → Forall arg_ok args →
  prints w y size
    ('(buf, rc) ← append_num (w ++ y) (Z.of_nat (length w)) (size - 1 - Z.of_nat (length w))
                   value base sgn pad pad_char;
     Ok (buf, Z.of_nat (length w) + rc, args)) (Forall arg_ok).
Proof.
  intros Hb Hv Hw Hsg Hy Hargs.
  destruct (append_num_spec w y (size - 1 - Z.of_nat (length w)) value base sgn pad pad_char)
    as (ds & k & Hrun & Hle & _); [done|done|lia|lia|intros E; specialize (Hsg E); lia|].
  set (o := replicate k pad_char ++ map digit_char ds ++ sign_text sgn value) in *.
  right. exists o, args. rewrite Hrun, bind_Ok. split_and!; [|lia|done]. do 3 f_equal. lia.
Qed.

Lemma u32_fits_64 x : fits 64 (u32 x).
Proof. apply (fits_mono 32); [lia|]. by apply wrap_fits. Qed.

Lemma convert_prints c pad_size pad_char number_size (w y : list Z) size args :
  Z.of_nat (length w) < size - 1 → size - Z.of_nat (length w) ≤ Z.of_nat (length y) →
  Forall arg_ok args →
  prints w y size
    (convert c pad_size pad_char number_size (w ++ y) size (Z.of_nat (length w)) args) (Forall arg_ok).
Proof.
  intros Hw Hy Hargs. unfold convert.
  destruct ((c =? 100) || (c =? 117)).
  { destruct args as [|[v|s] args]; [by left| |by left]. cbn [va_num]. rewrite bind_Ok.
    inversion Hargs; subst. apply prints_num; [lia| |lia|lia|done|done].
    repeat case_match; [by apply wrap_fits|by apply u32_fits_64|by apply wrap_fits]. }
  destruct ((c =? 98) || (c =? 120) || (c =? 112)).
  { destruct args as [|[v|s] args]; [by left| |by left]. cbn [va_num]. rewrite bind_Ok.
    inversion Hargs; subst.
    assert (fits 64 (if (number_size =? 8) || (c =? 112) then u64 v else u32 v)) as Hfit.
    { case_match; [by apply wrap_fits|by apply u32_fits_64]. }
    assert (1 < (if c =? 98 then 2 else 16)) as Hbase by (destruct (c =? 98); lia).
    destruct (c =? 112).
    - destruct (append_str_spec [48; 120] [48; 120; 0] w y (size - 1 - Z.of_nat (length w)) 0 32)
        as [Hrun Hle]; [split; [by repeat constructor|by exists []]|lia|lia|].
      rewrite Hrun, !bind_Ok. revert Hle. generalize
        (take (Z.to_nat (size - 1 - Z.of_nat (length w))) [48; 120] ++
         replicate (Z.to_nat (Z.min (size - 1 - Z.of_nat (length w)) 0 - Z.of_nat (length
           (take (Z.to_nat (size - 1 - Z.of_nat (length w))) [48; 120])))) 32) as o. intros o Hle.
      replace (Z.of_nat (length w) + Z.of_nat (length o)) with (Z.of_nat (length (w ++ o)))
        by (rewrite length_app; lia).
      rewrite (app_assoc w o).
      destruct (prints_num (w ++ o) (drop (length o) y) size
        (if (number_size =? 8) || true then u64 v else u32 v) (if c =? 98 then 2 else 16) false
        pad_size pad_char args) as [->|(out & b & -> & Hl & Hq)];
        [done|done|rewrite length_app; lia|done|rewrite length_app, length_drop; lia|done|by left|].
      right. exists (o ++ out), b. rewrite !length_app in *. rewrite drop_drop, <- !app_assoc.
      split_and!; [|lia|done]. do 3 f_equal. lia.
    - rewrite bind_Ok. apply prints_num; [done|done|lia|done|done|done]. }
  destruct (c =? 115).
  { destruct args as [|[v|s] args]; [by left|by left|]. cbn [va_str]. rewrite bind_Ok.
    inversion Hargs as [|? ? Ha Hargs']; subst. destruct Ha as [cs Hcs].
    destruct (append_str_spec cs s w y (size - 1 - Z.of_nat (length w)) pad_size pad_char Hcs)
      as [Hrun Hle]; [lia|lia|]. rewrite Hrun, bind_Ok. right.
    match type of Hle with Z.of_nat (length ?o) ≤ _ => exists o, args end.
    split_and!; [|lia|done]. do 3 f_equal. lia. }
  destruct y as [|y0 y]; [simpl in Hy; lia|]. destruct (c =? 99).
  { destruct args as [|[v|s] args]; [by left| |by left]. cbn [va_num]. rewrite bind_Ok.
    inversion Hargs; subst. rewrite wr_mid, bind_Ok by done. right. exists [u8 v], args.
    split_and!; [cbn; do 3 f_equal; lia|simpl; lia|done]. }
  rewrite wr_mid, bind_Ok by done. right. exists [c], args.
  split_and!; [cbn; do 3 f_equal; lia|simpl; lia|done].
Qed.

Lemma format_bounds (fmt : cstr) fs mode (w y : list Z) size args :
  is_cstr fs fmt → Z.of_nat (length w) ≤ size - 1 →
  (mode ≠ Plain → Z.of_nat (length w) < size - 1) →
  size - Z.of_nat (length w) ≤ Z.of_nat (length y) → Forall arg_ok args →
  format fmt mode (w ++ y) size (Z.of_nat (length w)) args = Err Uninitialised ∨
  ∃ out, format fmt mode (w ++ y) size (Z.of_nat (length w)) args =
      Ok (w ++ out ++ 0 :: drop (S (length out)) y, Z.of_nat (length w + length out)) ∧
    Z.of_nat (length w + length out) ≤ size - 1.
Proof.
  intros [Hnz [rest ->]]. revert mode w y args.
  assert (∀ w y, size - Z.of_nat (length w) ≤ Z.of_nat (length y) → Z.of_nat (length w) ≤ size - 1 →
    (buf ← wr (w ++ y) (Z.of_nat (length w)) 0; Ok (buf, Z.of_nat (length w))) =
      Ok (w ++ 0 :: drop 1 y, Z.of_nat (length w + 0))) as Hend.
  { intros w y Hy Hw. destruct y as [|y0 y]; [simpl in Hy; lia|].
    rewrite wr_mid, bind_Ok by done. cbn [drop]. rewrite drop_0. do 2 f_equal. lia. }
  induction Hnz as [|c fs Hc Hfs IH]; intros mode w y args Hw Hm Hy Hargs.
  { right. exists []. cbn [app format length]. rewrite Z.eqb_refl. cbn [orb].
    rewrite !(Hend w y) by lia. split; [by destruct mode|lia]. }
  cbn [app format]. rewrite (proj2 (Z.eqb_neq c 0) Hc). cbn [orb].
  destruct mode as [|pad_size pad_char number_size].
  - destruct (Z.ltb_spec (Z.of_nat (length w)) (size - 1)); cbn [negb].
    2: { right. exists []. rewrite (Hend w y) by lia. split; [done|cbn [length]; lia]. }
    destruct (c =? 37); [by apply IH|].
    destruct y as [|y0 y]; [simpl in Hy; lia|]. rewrite wr_mid, bind_Ok by done.
    destruct (IH Plain (w ++ [c]) y args) as [E|(out & E & Hl)];
      [rewrite length_app; simpl; lia|done|rewrite length_app; simpl in *; lia|done|..];
      rewrite length_app, <- app_assoc in E; cbn [app length] in E;
      replace (Z.of_nat (length w) + 1) with (Z.of_nat (length w + 1)) by lia; rewrite E; [by left|].
    right. exists (c :: out). rewrite length_app in Hl. cbn [length app drop] in *. rewrite <- !app_assoc.
    cbn [app]. split; [do 2 f_equal; lia|lia].
  - assert (Z.of_nat (length w) < size - 1) as Hlt by (by apply Hm).
    destruct (c =? 48); [case_match; by apply IH|].
    destruct ((49 <=? c) && (c <=? 57)); [by apply IH|]. destruct (c =? 108); [by apply IH|].
    destruct (convert_prints c pad_size pad_char number_size w y size args Hlt Hy Hargs)
      as [->|(out & args' & -> & Hl & Hargs')]; [by left|]. rewrite bind_Ok. cbn beta iota.
    destruct (IH Plain (w ++ out) (drop (length out) y) args') as [E|(out2 & E & Hl2)];
      [rewrite length_app; lia|done|rewrite length_app, length_drop; lia|done|..];
      rewrite length_app, <- app_assoc in E; rewrite E; [by left|].
    right. exists (out ++ out2). rewrite !length_app in *. rewrite <- !app_assoc, drop_drop.
    replace (length out + S (length out2))%nat with (S (length out + length out2)) by lia.
    split; [do 2 f_equal; lia|lia].
Qed.

(** ** Properties *)



(** [append_num] prints the numeral of its value in the given base,
    padded on the left, when there is room for it.  The sign of a negative
    number is written before the digits are prepended, so it comes out after
    the last digit. *)
Theorem append_num_output (pre y : list Z) size value base sgn pad pad_char :
  1 < base → 0 < value < 2 ^ 64 → 66 ≤ size ≤ Z.of_nat (length y) → pad < size →
  ∃ ds k, numeral base (magnitude sgn value) ds ∧
    append_num (pre ++ y) (Z.of_nat (length pre)) size value base sgn pad pad_char =
      (let out := replicate k pad_char ++ map digit_char ds ++ sign_text sgn value in
       Ok (pre ++ out ++ drop (length out) y, Z.of_nat (length out))).
Proof.
  intros Hb Hv Hs Hp.
  destruct (append_num_spec pre y size value base sgn pad pad_char)
    as (ds & k & Hrun & _ & Hd & _ & Hlen); [done|unfold fits; lia|lia|lia|lia|].
  exists ds, k. split; [|exact Hrun].
  rewrite decide_False in Hd by (apply magnitude_pos; [unfold fits|]; lia).
  destruct Hd as [|Hd]; [done|]. exfalso. unfold sign_text in Hd.
  destruct (negative sgn value); simpl in Hd; lia.
Qed.

(** -15 comes out as "15-". *)
Lemma append_num_output_witness :
  ∃ ds k, numeral 10 15 ds ∧
    append_num (replicate 70 0) 0 66 (2 ^ 64 - 15) 10 true 0 32 =
      (let out := replicate k 32 ++ map digit_char ds ++ [45] in
       Ok (out ++ drop (length out) (replicate 70 0), Z.of_nat (length out))).
Proof.
  destruct (append_num_output [] (replicate 70 0) 66 (2 ^ 64 - 15) 10 true 0 32)
    as (ds & k & Hn & Hrun); [lia|lia|rewrite length_replicate; lia|lia|].
  exists ds, k. split; [exact Hn|exact Hrun].
Defined.
