(* ===== verification/CmdLine.v ===== *)
(** * The kernel command line

    util/cmdline.cpp: the boot loader's command line is cut into settings at
    spaces, and each setting "key=value" is passed to the function that is
    registered for the key. *)

From S2P Require Import Prelude Define CppString.
Local Open Scope Z_scope.

Section cmdline.
(** What the registered functions act on. *)
Context {St : Type}.

(** [CommandLineArgumentRegistration]: [match] may be NULL. *)
Record Registration := MkReg { match_ : option cstr; fn : cstr → St → result St }.

(** The registrations between [_CMDLINE_ARGS_START] and [_CMDLINE_ARGS_END]. *)
Context (registrations : list Registration).

Fixpoint find_from (rgns : list Registration) (key : cstr) : result (option Registration) :=
  match rgns with
  | [] => Ok None
  | rgn :: rgns' =>
      match match_ rgn with
      | None => find_from rgns' key
      | Some m => c ← strncmp m key 256; if c =? 0 then Ok (Some rgn) else find_from rgns' key
      end
  end.

Definition find_registration (key : cstr) : result (option Registration) :=
  find_from registrations key.

(** [while ( *setting && *setting != '=' && i < 63) key[i++] = *setting++;] *)
Fixpoint key_loop (setting : cstr) (key : list Z) (i : Z) : result (cstr * list Z * Z) :=
  match setting with
  | [] => Err OutOfBounds
  | c :: setting' =>
      if negb (c =? 0) && negb (c =? 61) && (i <? 63)
      then key ← wr key i c; key_loop setting' key (i + 1)
      else Ok (setting, key, i)
  end.

Fixpoint value_loop (setting : cstr) (value : list Z) (i : Z) : result (list Z * Z) :=
  match setting with
  | [] => Err OutOfBounds
  | c :: setting' =>
      if negb (c =? 0) && (i <? 63) then
        if c =? 61 then value_loop setting' value i
        else value ← wr value i c; value_loop setting' value (i + 1)
      else Ok (value, i)
  end.

(** The contents of the arrays on the stack before they are written. *)
Context (junk : Z).

Definition process (setting : cstr) (st : St) : result St :=
  '(setting, key, i) ← key_loop setting (replicate 64 junk) 0;
  key ← wr key i 0;
  '(value, i) ← value_loop setting (replicate 64 junk) 0;
  value ← wr value i 0;
  reg ← find_registration key;
  match reg with None => Ok st | Some reg => fn reg value st end.

Fixpoint skip_spaces (cmdline : cstr) : result cstr :=
  match cmdline with
  | [] => Err OutOfBounds
  | c :: cmdline' => if negb (c =? 0) && (c =? 32) then skip_spaces cmdline' else Ok cmdline
  end.

Fixpoint copy_setting (cmdline : cstr) (setting : list Z) (i : Z) : result (cstr * list Z * Z) :=
  match cmdline with
  | [] => Err OutOfBounds
  | c :: cmdline' =>
      if negb (c =? 0) && negb (c =? 32)
      then setting ← wr setting i c; copy_setting cmdline' setting (i + 1)
      else Ok (cmdline, setting, i)
  end.

Fixpoint parse_loop (fuel : nat) (cmdline : cstr) (setting : list Z) (st : St) : result St :=
  match fuel with
  | O => Err Hang
  | S fuel' =>
      c ← rd cmdline 0;
      if c =? 0 then Ok st else
      cmdline ← skip_spaces cmdline;
      '(cmdline, setting, i) ← copy_setting cmdline setting 0;
      setting ← wr setting i 0;
      if i =? 0 then Ok st else
      st ← process setting st;
      parse_loop fuel' cmdline setting st
  end.

(** Every turn but the last consumes a character. *)
Definition parse (cmdline : cstr) (st : St) : result (bool * St) :=
  st ← parse_loop (S (length cmdline)) cmdline (replicate 128 junk) st; Ok (true, st).

(** ** Reference: the settings and what each does *)

Definition words (cs : list Z) : list (list Z) := filter (λ f, f ≠ []) (fields 32 cs).

Fixpoint before_eq (w : list Z) : list Z :=
  match w with [] => [] | c :: w' => if c =? 61 then [] else c :: before_eq w' end.

Definition key_of (w : list Z) : list Z := take 63 (before_eq w).
Definition value_of_word (w : list Z) : list Z :=
  take 63 (filter (λ c, c ≠ 61) (drop (length (key_of w)) w)).

Fixpoint before_nul (m : cstr) : list Z :=
  match m with [] => [] | c :: m' => if c =? 0 then [] else c :: before_nul m' end.

(** The first registration whose key is [k]. *)
Definition reg_for (k : list Z) : option Registration :=
  head (filter (λ r, before_nul <$> match_ r = Some k) registrations).

(** What a setting does; the function gets the 64-byte buffer the value is in. *)
Definition process_word (w : list Z) (st : St) : result St :=
  match reg_for (key_of w) with
  | None => Ok st
  | Some r =>
      let v := value_of_word w in fn r (v ++ 0 :: replicate (63 - length v) junk) st
  end.

(** ** Lemmas *)

Lemma key_loop_spec w rest (pre y : list Z) :
  Forall (λ c, c ≠ 0) w → (length pre + length y = 64)%nat → (length pre ≤ 63)%nat →
  let k := take (63 - length pre) (before_eq w) in
  key_loop (w ++ 0 :: rest) (pre ++ y) (Z.of_nat (length pre)) =
    Ok (drop (length k) w ++ 0 :: rest, pre ++ k ++ drop (length k) y, Z.of_nat (length pre + length k)).
Proof.
  intros Hw. revert pre y. induction Hw as [|c w Hc Hw IH]; intros pre y Hl Hp; cbn [app key_loop before_eq].
  - rewrite take_nil. cbn [length app drop]. rewrite drop_0. cbn. do 3 f_equal. lia.
  - rewrite (proj2 (Z.eqb_neq c 0) Hc). cbn [negb andb]. destruct (Z.eqb_spec c 61) as [->|He]; cbn [negb andb].
    + rewrite take_nil. cbn [length app drop]. rewrite drop_0. do 3 f_equal. lia.
    + destruct (Z.ltb_spec (Z.of_nat (length pre)) 63).
      2: { replace (63 - length pre)%nat with 0%nat by lia. rewrite take_0. cbn [length app]. rewrite drop_0.
           do 3 f_equal. lia. }
      destruct y as [|y0 y]; [simpl in Hl; lia|]. rewrite wr_mid, bind_Ok by done.
      specialize (IH (pre ++ [c]) y). rewrite length_app, <- app_assoc in IH. cbn [length app] in IH.
      replace (Z.of_nat (length pre) + 1) with (Z.of_nat (length pre + 1)) by lia.
      rewrite IH by (simpl in Hl; lia).
      replace (63 - length pre)%nat with (S (63 - (length pre + 1))) by lia.
      cbn [take length drop app]. rewrite <- app_assoc. cbn [app]. do 3 f_equal. lia.
Qed.

Lemma value_loop_spec w rest (pre y : list Z) :
  Forall (λ c, c ≠ 0) w → (length pre + length y = 64)%nat → (length pre ≤ 63)%nat →
  let v := take (63 - length pre) (filter (λ c, c ≠ 61) w) in
  value_loop (w ++ 0 :: rest) (pre ++ y) (Z.of_nat (length pre)) =
    Ok (pre ++ v ++ drop (length v) y, Z.of_nat (length pre + length v)).
Proof.
  intros Hw. revert pre y. induction Hw as [|c w Hc Hw IH]; intros pre y Hl Hp; cbn [app value_loop].
  - rewrite filter_nil, take_nil. cbn [length app drop]. rewrite drop_0. cbn. do 2 f_equal. lia.
  - rewrite (proj2 (Z.eqb_neq c 0) Hc). cbn [negb andb].
    destruct (Z.ltb_spec (Z.of_nat (length pre)) 63).
    2: { replace (63 - length pre)%nat with 0%nat by lia. rewrite take_0. cbn [length app]. rewrite drop_0.
         do 2 f_equal. lia. }
    destruct (Z.eqb_spec c 61) as [->|He].
    + rewrite filter_cons_False by (intros Hn; by apply Hn). by apply IH.
    + rewrite filter_cons_True by done.
      destruct y as [|y0 y]; [simpl in Hl; lia|]. rewrite wr_mid, bind_Ok by done.
      specialize (IH (pre ++ [c]) y). rewrite length_app, <- app_assoc in IH. cbn [length app] in IH.
      replace (Z.of_nat (length pre) + 1) with (Z.of_nat (length pre + 1)) by lia.
      rewrite IH by (simpl in Hl; lia).
      replace (63 - length pre)%nat with (S (63 - (length pre + 1))) by lia.
      cbn [take length drop app]. rewrite <- app_assoc. cbn [app]. do 2 f_equal. lia.
Qed.

Lemma before_nul_cstr cs m : is_cstr cs m → before_nul m = cs.
Proof.
  intros [Hnz [rest ->]]. induction Hnz as [|c cs Hc Hcs IH]; simpl; [done|].
  by rewrite (proj2 (Z.eqb_neq c 0) Hc), IH.
Qed.

Lemma before_eq_nz w : Forall (λ c, c ≠ 0) w → Forall (λ c, c ≠ 0) (before_eq w).
Proof. induction 1; simpl; [constructor|]. case_match; by constructor. Qed.

(** Registered keys are C strings. *)
Definition regs_ok : Prop :=
  Forall (λ r, ∀ m, match_ r = Some m →
    ∃ cs, is_cstr cs m ∧ Z.of_nat (length cs) < 2 ^ 64) registrations.

Lemma find_registration_spec k rest :
  regs_ok → Forall (λ c, c ≠ 0) k → (length k ≤ 63)%nat →
  find_registration (k ++ 0 :: rest) = Ok (reg_for k).
Proof.
  unfold regs_ok, find_registration, reg_for. intros Hr Hk Hl.
  induction Hr as [|r rgns Hm Hrs IH]; simpl find_from; [done|].
  rewrite filter_cons. destruct (match_ r) as [m|] eqn:Em; simpl.
  - destruct (Hm m eq_refl) as (cs & Hcs & Hlen). rewrite (before_nul_cstr cs m Hcs).
    rewrite (strncmp_spec cs k); [|done|by split; [|exists rest]|done|lia|by vm_compute].
    rewrite bind_Ok. change (Z.to_nat 256) with 256%nat. case_decide as E.
    + destruct E as [El Et]. rewrite !take_ge in Et by lia. subst cs. by rewrite decide_True.
    + cbn. rewrite decide_False; [done|]. intros E'. simplify_eq. by apply E.
  - exact IH.
Qed.

Lemma process_spec w rest st :
  regs_ok → Forall (λ c, c ≠ 0) w → process (w ++ 0 :: rest) st = process_word w st.
Proof.
  intros Hr Hw. unfold process, process_word.
  pose proof (key_loop_spec w rest [] (replicate 64 junk) Hw eq_refl ltac:(simpl; lia)) as Hk.
  cbn [app length] in Hk. change (Z.of_nat 0) with 0 in Hk. rewrite Nat.sub_0_r in Hk. cbv zeta in Hk. fold (key_of w) in Hk.
  rewrite Hk, bind_Ok. cbn beta iota. rewrite Nat.add_0_l.
  assert (length (key_of w) ≤ 63)%nat by (unfold key_of; rewrite length_take; lia).
  rewrite drop_replicate.
  replace (64 - length (key_of w))%nat with (S (63 - length (key_of w))) by lia.
  rewrite (replicate_S (63 - length (key_of w))).
  rewrite wr_mid, bind_Ok by done.
  pose proof (value_loop_spec (drop (length (key_of w)) w) rest [] (replicate 64 junk)
    (Forall_drop _ _ _ Hw) eq_refl ltac:(simpl; lia)) as Hv.
  cbn [app length] in Hv. change (Z.of_nat 0) with 0 in Hv. rewrite Nat.sub_0_r in Hv. cbv zeta in Hv. fold (value_of_word w) in Hv.
  rewrite Hv, bind_Ok. cbn beta iota. rewrite Nat.add_0_l.
  assert (length (value_of_word w) ≤ 63)%nat by (unfold value_of_word; rewrite length_take; lia).
  rewrite drop_replicate.
  replace (64 - length (value_of_word w))%nat with (S (63 - length (value_of_word w))) by lia.
  rewrite (replicate_S (63 - length (value_of_word w))). rewrite wr_mid, bind_Ok by done.
  rewrite find_registration_spec, bind_Ok; [done|done| |done].
  unfold key_of. by apply Forall_take, before_eq_nz.
Qed.

Fixpoint run_words (ws : list (list Z)) (st : St) : result St :=
  match ws with [] => Ok st | w :: ws' => st ← process_word w st; run_words ws' st end.

Lemma fields_word d cur w cs :
  Forall (λ c, c ≠ d) w → fields_from d cur (w ++ d :: cs) = (cur ++ w) :: fields d cs.
Proof.
  intros Hw. revert cur. induction Hw as [|c w Hc Hw IH]; intros cur; simpl.
  - by rewrite Z.eqb_refl, app_nil_r.
  - rewrite (proj2 (Z.eqb_neq c d) Hc), IH. by rewrite <- app_assoc.
Qed.

Lemma fields_last d cur w : Forall (λ c, c ≠ d) w → fields_from d cur w = [cur ++ w].
Proof.
  intros Hw. revert cur. induction Hw as [|c w Hc Hw IH]; intros cur; simpl.
  - by rewrite app_nil_r.
  - rewrite (proj2 (Z.eqb_neq c d) Hc), IH. by rewrite <- app_assoc.
Qed.

Lemma words_space cs : words (32 :: cs) = words cs.
Proof. unfold words, fields. simpl. by rewrite filter_cons_False by (intros Hn; by apply Hn). Qed.

Lemma words_word w cs :
  w ≠ [] → Forall (λ c, c ≠ 32) w → words (w ++ 32 :: cs) = w :: words cs ∧ words w = [w].
Proof.
  intros Hne Hw. unfold words, fields. rewrite fields_word, (fields_last 32 [] w) by done.
  cbn [app]. split; [by rewrite filter_cons_True|by rewrite filter_cons_True by done].
Qed.

Lemma skip_spaces_spec cs rest :
  Forall (λ c, c ≠ 0) cs →
  ∃ t, skip_spaces (cs ++ 0 :: rest) = Ok (t ++ 0 :: rest) ∧ words cs = words t ∧
    (length t ≤ length cs)%nat ∧ Forall (λ c, c ≠ 0) t ∧ head t ≠ Some 32.
Proof.
  induction 1 as [|c cs Hc Hcs IH]; [by exists []|]. cbn [app skip_spaces].
  rewrite (proj2 (Z.eqb_neq c 0) Hc). cbn [negb andb]. destruct (Z.eqb_spec c 32) as [->|Hne].
  - destruct IH as (t & -> & Hw & Hl & Hnz & Hh). exists t. rewrite words_space.
    split_and!; [done|done|simpl; lia|done|done].
  - exists (c :: cs). split_and!; [done|done|done|by constructor|simpl; congruence].
Qed.

Lemma copy_setting_spec cs rest :
  Forall (λ c, c ≠ 0) cs →
  ∃ w t, cs = w ++ t ∧ Forall (λ c, c ≠ 32) w ∧ (t = [] ∨ ∃ t', t = 32 :: t') ∧
    ∀ pre y, copy_setting (cs ++ 0 :: rest) (pre ++ y) (Z.of_nat (length pre)) =
      if decide (length w ≤ length y)%nat
      then Ok (t ++ 0 :: rest, pre ++ w ++ drop (length w) y, Z.of_nat (length pre + length w))
      else Err OutOfBounds.
Proof.
  induction 1 as [|c cs Hc Hcs IH].
  { exists [], []. split_and!; [done|done|by left|]. intros pre y. cbn [length app drop copy_setting].
    rewrite decide_True by lia. rewrite drop_0. cbn. do 3 f_equal. lia. }
  destruct (Z.eqb_spec c 32) as [->|Hne].
  { exists [], (32 :: cs). split_and!; [done|done|right; by eexists|].
    intros pre y. cbn. rewrite drop_0. do 3 f_equal. lia. }
  destruct IH as (w & t & -> & Hw & Ht & Hrun). exists (c :: w), t.
  split_and!; [done|by constructor|done|]. intros pre y. cbn [app copy_setting].
  rewrite (proj2 (Z.eqb_neq c 0) Hc), (proj2 (Z.eqb_neq c 32) Hne). cbn [negb andb].
  destruct y as [|y0 y].
  { rewrite decide_False by (simpl; lia). by rewrite wr_oob by (rewrite app_nil_r; lia). }
  rewrite wr_mid, bind_Ok by done. specialize (Hrun (pre ++ [c]) y).
  rewrite length_app, <- (app_assoc pre) in Hrun. cbn [length app] in Hrun.
  replace (Z.of_nat (length pre) + 1) with (Z.of_nat (length pre + 1)) by lia. rewrite Hrun.
  cbn [length drop]. destruct (decide (length w ≤ length y)%nat).
  - rewrite decide_True by lia. rewrite <- !app_assoc. cbn [app]. do 3 f_equal. lia.
  - by rewrite decide_False by lia.
Qed.

Lemma parse_loop_spec fuel cs rest setting st :
  regs_ok → Forall (λ c, c ≠ 0) cs → (length cs < fuel)%nat → length setting = 128%nat →
  Forall (λ w, length w ≤ 127)%nat (words cs) →
  parse_loop fuel (cs ++ 0 :: rest) setting st = run_words (words cs) st.
Proof.
  intros Hr. revert cs setting st.
  induction fuel as [|fuel IH]; intros cs setting st Hnz Hf Hset Hws; [lia|]. cbn [parse_loop].
  destruct cs as [|c0 cs0]; [done|]. set (cs := c0 :: cs0) in *.
  assert (rd (cs ++ 0 :: rest) 0 = Ok c0) as -> by (by apply (rd_mid [] (cs0 ++ 0 :: rest) c0)).
  rewrite bind_Ok. inversion Hnz as [|? ? Hc0 _]; subst. rewrite (proj2 (Z.eqb_neq c0 0) Hc0).
  destruct (skip_spaces_spec cs rest Hnz) as (t & -> & Hwt & Hlt & Hnzt & Hh).
  rewrite bind_Ok. rewrite Hwt in *.
  destruct (copy_setting_spec t rest Hnzt) as (w & t' & -> & Hw & Ht' & Hcopy).
  specialize (Hcopy [] setting). cbn [app length] in Hcopy. change (Z.of_nat 0) with 0 in Hcopy.
  apply Forall_app in Hnzt as [Hnzw Hnzt'].
  destruct (decide (w = [])) as [->|Hwne].
  - destruct Ht' as [->|(t'' & ->)]; [|by destruct Hh].
    rewrite Hcopy, decide_True by (simpl; lia). rewrite bind_Ok. cbn [app length drop].
    rewrite drop_0. destruct setting as [|s0 setting]; [done|].
    change (wr (s0 :: setting) (Z.of_nat (0 + 0)) 0) with (wr ([] ++ s0 :: setting) 0 0).
    rewrite wr_mid, bind_Ok by done. done.
  - destruct (words_word w (tail t') Hwne Hw) as [Hw1 Hw2].
    assert (words (w ++ t') = w :: words (tail t')) as Ews.
    { destruct Ht' as [->|(t'' & ->)]; [|done]. rewrite app_nil_r. done. }
    rewrite Ews in *. inversion Hws as [|? ? Hlw Hws']; subst.
    rewrite Hcopy, decide_True by lia. rewrite bind_Ok. cbn beta iota. rewrite Nat.add_0_l.
    assert (∃ s0 s1, drop (length w) setting = s0 :: s1) as (s0 & s1 & Es).
    { destruct (drop (length w) setting) as [|s0 s1] eqn:E; [|by exists s0, s1].
      apply (f_equal length) in E. rewrite length_drop in E. simpl in E. lia. }
    rewrite Es, wr_mid, bind_Ok by done.
    assert (length w ≠ 0)%nat by (by destruct w). rewrite (proj2 (Z.eqb_neq _ 0)) by lia.
    rewrite (process_spec w s1) by done. cbn [run_words].
    destruct (process_word w st) as [st'|f]; [|done]. rewrite !bind_Ok.
    rewrite length_app in Hlt.
    assert (words t' = words (tail t')) as Ett.
    { destruct Ht' as [->|(t'' & ->)]; [done|apply words_space]. }
    rewrite <- Ett. apply IH; [done|lia| |by rewrite Ett].
    rewrite length_app. cbn [length]. apply (f_equal length) in Es. rewrite length_drop in Es.
    cbn [length] in Es. lia.
Qed.

Lemma parse_loop_overflow fuel cs rest setting st w ws :
  Forall (λ c, c ≠ 0) cs → length setting = 128%nat →
  words cs = w :: ws → (128 ≤ length w)%nat →
  parse_loop (S fuel) (cs ++ 0 :: rest) setting st = Err OutOfBounds.
Proof.
  intros Hnz Hset Hws Hlw. cbn [parse_loop]. destruct cs as [|c0 cs0]; [done|].
  set (cs := c0 :: cs0) in *.
  assert (rd (cs ++ 0 :: rest) 0 = Ok c0) as -> by (by apply (rd_mid [] (cs0 ++ 0 :: rest) c0)).
  rewrite bind_Ok. inversion Hnz as [|? ? Hc0 _]; subst. rewrite (proj2 (Z.eqb_neq c0 0) Hc0).
  destruct (skip_spaces_spec cs rest Hnz) as (t & -> & Hwt & Hlt & Hnzt & Hh).
  rewrite bind_Ok. rewrite Hwt in *.
  destruct (copy_setting_spec t rest Hnzt) as (w' & t' & -> & Hw & Ht' & Hcopy).
  specialize (Hcopy [] setting). cbn [app length] in Hcopy. change (Z.of_nat 0) with 0 in Hcopy.
  assert (w' = w) as ->.
  { destruct (decide (w' = [])) as [->|Hne].
    - destruct Ht' as [->|(t'' & ->)]; [done|by destruct Hh].
    - destruct (words_word w' (tail t') Hne Hw) as [Hw1 Hw2].
      destruct Ht' as [->|(t'' & ->)].
      + rewrite app_nil_r, Hw2 in Hws. congruence.
      + simpl in Hw1. rewrite Hw1 in Hws. congruence. }
  rewrite Hcopy. case_decide; [|done]. rewrite bind_Ok. cbn beta iota.
  rewrite drop_ge, app_nil_r by lia. by rewrite wr_oob by lia.
Qed.
End cmdline.

(** ** Properties *)

(** Parsing the command line.  When every setting is shorter than the
    128-byte buffer, [parse] terminates and hands exactly the space-separated
    settings, in order, to the function registered for the part before the
    first '=' (cut to 63 characters), with the rest, less its '=' characters,
    as the value.  A first setting of 128 characters or more is written past
    the end of the buffer. *)
Theorem parse_correct {St} (regs : list (@Registration St)) junk cs rest st :
  regs_ok regs → Forall (λ c, c ≠ 0) cs →
  (Forall (λ w, length w ≤ 127)%nat (words cs) →
     parse regs junk (cs ++ 0 :: rest) st =
       (st' ← run_words regs junk (words cs) st; Ok (true, st'))) ∧
  (∀ w ws, words cs = w :: ws → (128 ≤ length w)%nat →
     parse regs junk (cs ++ 0 :: rest) st = Err OutOfBounds).
Proof.
  intros Hr Hnz. unfold parse. split.
  - intros Hws. rewrite parse_loop_spec; [done|done|done| |apply length_replicate|done].
    rewrite length_app. simpl. lia.
  - intros w ws Hws Hlw.
    by rewrite (parse_loop_overflow regs junk _ cs rest _ st w ws Hnz (length_replicate _ _) Hws Hlw).
Qed.

(** "a=1  b=2=" with the settings recorded by two functions. *)
Definition demo_regs : list (@Registration (list (list Z))) :=
  [MkReg (Some [97; 0]) (λ v st, Ok (st ++ [before_nul v])); MkReg None (λ v st, Ok st);
   MkReg (Some [98; 0]) (λ v st, Ok (before_nul v :: st))].

Lemma parse_correct_witness :
  parse demo_regs 7 ([97; 61; 49; 32; 32; 98; 61; 50; 61] ++ [0]) [] = Ok (true, [[50]; [49]]).
Proof.
  rewrite (proj1 (parse_correct demo_regs 7 [97; 61; 49; 32; 32; 98; 61; 50; 61] [] []
    ltac:(repeat constructor; intros m Hm; simplify_eq/=;
          (exists [97] + exists [98]); (split; [split; [by repeat constructor|by exists []]|by vm_compute]))
    ltac:(by repeat constructor))).
  - vm_compute. reflexivity.
  - vm_compute. repeat constructor.
Defined.
