(* ===== verification/MemInit.v ===== *)
(** * Bringing up memory management

    The choice and installation of a page allocation algorithm (mm/mm.cpp), the
    boot loader's memory map, the kernel's own page tables and the page-fault
    handler (arch/x86/mm.cpp). *)

From S2P Require Import Prelude Define PageAlloc PhysMem Vma CppString.
Local Open Scope Z_scope.

(** ** Choosing an algorithm *)

Section choose.
Context {A : Type} `{PageAllocatorAlgorithm A}.

(** The registered algorithms with their names, in the order of the section
    [.pgallocptr]. *)
Context (pgallocators : list (cstr * A)).

(** The buffer [pgalloc_algorithm[32]] as the command line left it. *)
Context (pgalloc_algorithm : cstr).

(** The loop does not stop at the first match. *)
Fixpoint search_algorithms (l : list (cstr * A)) (candidate : option A) : result (option A) :=
  match l with
  | [] => Ok candidate
  | (name, a) :: l' =>
      c ← strncmp name pgalloc_algorithm 31;
      search_algorithms l' (if c =? 0 then Some a else candidate)
  end.

Definition acquire_page_allocator_algorithm : result (option A) :=
  n ← strlen (Some pgalloc_algorithm);
  if n =? 0 then Ok None else search_algorithms pgallocators None.

(** [test_page_allocator] returns true; [ObjectAllocator::init] does too. *)
Definition initialise_allocators (HEAP_START IMAGE_START : Z) (do_self_test : bool)
    (mm : MemoryManager) (pa : PageAllocator A) : result (bool * PageAllocator A) :=
  algo ← acquire_page_allocator_algorithm;
  match algo with
  | None => Ok (false, pa)
  | Some a =>
      '(ok, pa) ← init HEAP_START IMAGE_START do_self_test mm
                    (MkPA (nr_pages pa) (page_descriptors pa) (Some a));
      Ok (ok, pa)
  end.

(** ** The boot loader's memory map *)

Record multiboot_mmap_entry := MkMmap { mmap_addr : Z; mmap_len : Z; mmap_type : Z }.

Definition MULTIBOOT_MEMORY_AVAILABLE : Z := 1.
Definition MULTIBOOT_MEMORY_RESERVED : Z := 2.

(** One turn of the loop of [mm_init]; [nr_pages] is an [unsigned int]. *)
Definition add_mmap_entry (mm : MemoryManager) (e : multiboot_mmap_entry) : MemoryManager :=
  if Z.land (mmap_len e) not_fff =? 0 then mm
  else if mmap_type e =? MULTIBOOT_MEMORY_AVAILABLE
  then add_physical_memory mm (mmap_addr e) (u32 (Z.shiftr (mmap_len e) 12)) NORMAL
  else if mmap_type e =? MULTIBOOT_MEMORY_RESERVED
  then add_physical_memory mm (mmap_addr e) (u32 (Z.shiftr (mmap_len e) 12)) UNUSABLE
  else mm.

Definition load_mmap (mm : MemoryManager) (entries : list multiboot_mmap_entry) : MemoryManager :=
  foldl add_mmap_entry mm entries.

(** ** The kernel's page tables *)

(** Memory through the kernel window, as the initial page tables map it. *)
Definition translate_kva (va len : Z) : result Z :=
  if (KERNEL_VMEM_START <=? va) && (va + len <=? KERNEL_VMEM_END + 1)
  then Ok (va - KERNEL_VMEM_START) else Err OutOfBounds.

(** [table[idx] = v;] *)
Definition kstore (m : memory) (table idx v : Z) : result memory :=
  a ← translate_kva (u64 (table + 8 * idx)) 8; Ok (st64 m a v).

(** [(kva_to_pa(table) & ~0xfff) | 0x003]. *)
Definition table_link (table : Z) : result Z :=
  p ← kva_to_pa table; Ok (Z.lor (Z.land p not_fff) 0x003).

Definition huge_entry (addr : Z) : Z := Z.lor (Z.land addr not_fff) 0x083.

(** [for (i = 0; i < 0x200; i++) { pd[i] = ...; addr += 0x200000; }] *)
Definition fill_pd (pd : Z) (s : memory * Z) : result (memory * Z) :=
  for_range 0 0x200 (λ i '(m, addr),
    m ← kstore m pd i (huge_entry addr); Ok (m, u64 (addr + 0x200000))) s.

Definition fill_kernel_pds (pd0 pd1 : Z) (s : memory * Z) : result (memory * Z) :=
  for_range 0 0x200 (λ i '(m, addr),
    m ← kstore m pd0 i (huge_entry addr);
    m ← kstore m pd1 i (huge_entry (u64 (addr + 0x40000000)));
    Ok (m, u64 (addr + 0x200000))) s.

(** On success, the machine with the new tables, the value of cr3 and
    [__template_pml4]. *)
Definition reinitialise_pgt (s : machine A) : result (option (machine A * Z * Z)) :=
  '(pages, pa) ← alloc_pages (pgalloc s) 4;
  match pages with
  | None => Ok None
  | Some p =>
      pml4 ← pgd_to_kva p;
      a ← translate_kva pml4 (16 * 0x1000);
      let m := zero_bytes (Z.to_nat (16 * 0x1000)) (mem s) a in
      pdp0 ← pgd_to_kva (p + 1); pdp1 ← pgd_to_kva (p + 2);
      pdp0_pd0 ← pgd_to_kva (p + 3); pdp0_pd1 ← pgd_to_kva (p + 4);
      pdp1_pd0 ← pgd_to_kva (p + 5); pdp1_pd1 ← pgd_to_kva (p + 6);
      pdp1_pd2 ← pgd_to_kva (p + 7); pdp1_pd3 ← pgd_to_kva (p + 8);
      e ← table_link pdp0; m ← kstore m pml4 0x1ff e;
      e ← table_link pdp1; m ← kstore m pml4 0x100 e;
      e ← table_link pdp0_pd0; m ← kstore m pdp0 0x1fe e;
      e ← table_link pdp0_pd1; m ← kstore m pdp0 0x1ff e;
      e ← table_link pdp1_pd0; m ← kstore m pdp1 0x000 e;
      e ← table_link pdp1_pd1; m ← kstore m pdp1 0x001 e;
      e ← table_link pdp1_pd2; m ← kstore m pdp1 0x002 e;
      e ← table_link pdp1_pd3; m ← kstore m pdp1 0x003 e;
      '(m, _) ← fill_kernel_pds pdp0_pd0 pdp0_pd1 (m, 0);
      '(m, addr) ← fill_pd pdp1_pd0 (m, 0);
      '(m, addr) ← fill_pd pdp1_pd1 (m, addr);
      '(m, addr) ← fill_pd pdp1_pd2 (m, addr);
      '(m, addr) ← fill_pd pdp1_pd3 (m, addr);
      cr3 ← kva_to_pa pml4;
      template ← pgd_to_vpa p;
      Ok (Some (MkMachine pa m, cr3, template))
  end.

Definition mm_init (HEAP_START IMAGE_START : Z) (do_self_test : bool)
    (entries : list multiboot_mmap_entry) (mm : MemoryManager) (s : machine A)
    : result (option (machine A * Z * Z)) :=
  '(ok, pa) ← initialise_allocators HEAP_START IMAGE_START do_self_test (load_mmap mm entries) (pgalloc s);
  if negb ok then Ok None else reinitialise_pgt (MkMachine pa (mem s)).
End choose.

(** ** Page faults *)

(** [PageFaultException], with the faulting address of cr2.  The call to
    [terminate] after the throw is never reached. *)
Definition handle_page_fault {R} (current_thread : option Z) (fault_address : Z) : result R :=
  match current_thread with
  | None => Err Aborted
  | Some _ => Err (Thrown fault_address)
  end.

(** ** The processor's translation (four-level paging) *)

Definition hw_present (e : Z) : bool := Z.odd e.
Definition hw_large (e : Z) : bool := Z.odd (e / 2 ^ 7).
(** Bits [lo .. 51] of an entry. *)
Definition hw_frame (lo e : Z) : Z := e / 2 ^ lo mod 2 ^ (52 - lo) * 2 ^ lo.

Definition hw_entry (m : memory) (table va sh : Z) : Z := ld64 m (table + 8 * (va / 2 ^ sh mod 512)).

Definition hw_translate (m : memory) (cr3 va : Z) : option Z :=
  let e4 := hw_entry m cr3 va 39 in
  if negb (hw_present e4) then None else
  let e3 := hw_entry m (hw_frame 12 e4) va 30 in
  if negb (hw_present e3) then None else
  if hw_large e3 then Some (hw_frame 30 e3 + va mod 2 ^ 30) else
  let e2 := hw_entry m (hw_frame 12 e3) va 21 in
  if negb (hw_present e2) then None else
  if hw_large e2 then Some (hw_frame 21 e2 + va mod 2 ^ 21) else
  let e1 := hw_entry m (hw_frame 12 e2) va 12 in
  if negb (hw_present e1) then None else Some (hw_frame 12 e1 + va mod 2 ^ 12).

(** ** Lemmas *)

Lemma lor_low p c : 0 ≤ p → 0 ≤ c < 4096 → Z.lor (p * 4096) c = p * 4096 + c.
Proof.
  intros Hp Hc. assert (Z.land (p * 4096) c = 0) as Hz.
  { apply Z.bits_inj'. intros n Hn. rewrite Z.land_spec, Z.bits_0.
    change 4096 with (2 ^ 12). rewrite Z.mul_pow2_bits by lia.
    destruct (decide (n < 12)); [by rewrite Z.testbit_neg_r by lia|].
    rewrite (fits_bit 12 c n) by (done || lia). apply andb_false_r. }
  by rewrite Z.add_nocarry_lxor, Z.lxor_lor.
Qed.

Lemma huge_entry_eq n : 0 ≤ n < 2 ^ 40 → huge_entry (n * 4096) = n * 4096 + 0x83.
Proof.
  intros Hn. unfold huge_entry. change (Z.land ?a not_fff) with (base_address a).
  rewrite base_address_page by lia. apply lor_low; lia.
Qed.

Lemma pgd_to_kva_Ok_inv p va :
  0 ≤ p < 2 ^ 52 → pgd_to_kva p = Ok va → p < 2 ^ 19 ∧ va = KERNEL_VMEM_START + p * 4096.
Proof.
  intros Hp Hrun. unfold pgd_to_kva, pgd_to_pa, pa_to_kva in Hrun.
  rewrite pfn_to_pa_mul in Hrun by done. inv_result. apply Z.ltb_lt in Hb.
  change KERNEL_VMEM_SIZE with (2 ^ 31) in Hb. split; [lia|].
  apply wrap_small. unfold fits, KERNEL_VMEM_START. lia.
Qed.

Lemma pgd_to_kva_Ok p : 0 ≤ p < 2 ^ 19 → pgd_to_kva p = Ok (KERNEL_VMEM_START + p * 4096).
Proof.
  intros Hp. unfold pgd_to_kva, pgd_to_pa, pa_to_kva. rewrite pfn_to_pa_mul by lia.
  change KERNEL_VMEM_SIZE with (2 ^ 31). rewrite (proj2 (Z.ltb_lt _ _)) by lia. cbn [check]. rewrite bind_Ok.
  rewrite wrap_small; [done|]. unfold fits, KERNEL_VMEM_START. lia.
Qed.

Lemma kva_to_pa_page p : 0 ≤ p < 2 ^ 19 → kva_to_pa (KERNEL_VMEM_START + p * 4096) = Ok (p * 4096).
Proof.
  intros Hp. unfold kva_to_pa, KERNEL_VMEM_START, KERNEL_VMEM_END.
  rewrite (proj2 (andb_true_iff _ _)) by (rewrite !Z.leb_le; lia). cbn [check]. rewrite bind_Ok.
  rewrite wrap_small; [f_equal; lia|unfold fits; lia].
Qed.

Lemma kstore_slot m p idx v :
  0 ≤ p < 2 ^ 19 → 0 ≤ idx < 512 →
  kstore m (KERNEL_VMEM_START + p * 4096) idx v = Ok (st64 m (slot p idx) v).
Proof.
  intros Hp Hi. unfold kstore, slot, translate_kva, KERNEL_VMEM_START, KERNEL_VMEM_END.
  rewrite wrap_small by (unfold fits; lia).
  rewrite (proj2 (andb_true_iff _ _)) by (rewrite !Z.leb_le; lia). rewrite bind_Ok.
  do 2 f_equal. lia.
Qed.

Lemma table_link_Ok p : 0 ≤ p < 2 ^ 19 → table_link (KERNEL_VMEM_START + p * 4096) = Ok (p * 4096 + 3).
Proof.
  intros Hp. unfold table_link. rewrite kva_to_pa_page, bind_Ok by done.
  change (Z.land ?a not_fff) with (base_address a). rewrite base_address_page by lia.
  by rewrite lor_low by lia.
Qed.

(** The frame number of a 2 MiB page, in pages. *)
Definition pd_entry (g i : Z) : Z := (g * 512 + i) * 0x200000 + 0x83.

Lemma huge_entry_pd g i :
  0 ≤ g < 4 → 0 ≤ i < 512 → huge_entry ((g * 512 + i) * 0x200000) = pd_entry g i.
Proof.
  intros Hg Hi. unfold pd_entry.
  replace ((g * 512 + i) * 0x200000) with ((g * 512 + i) * 512 * 4096) by lia.
  rewrite huge_entry_eq by lia. lia.
Qed.

Lemma pd_entry_fits g i : 0 ≤ g < 4 → 0 ≤ i < 512 → fits 64 (pd_entry g i).
Proof. unfold pd_entry, fits. lia. Qed.

(** Filling a directory with the 1 GiB that starts at [g] GiB. *)
Lemma fill_pd_spec m p g :
  0 ≤ p < 2 ^ 19 → 0 ≤ g < 4 →
  ∃ m', fill_pd (KERNEL_VMEM_START + p * 4096) (m, g * 512 * 0x200000) =
      Ok (m', (g + 1) * 512 * 0x200000) ∧
    ∀ r j, 0 ≤ j < 512 → entry m' r j = if decide (r = p) then pd_entry g j else entry m r j.
Proof.
  intros Hp Hg. unfold fill_pd.
  destruct (for_range_total (λ i '(mi, a), a = (g * 512 + i) * 0x200000 ∧
    ∀ r j, 0 ≤ j < 512 → entry mi r j = if decide (r = p ∧ j < i) then pd_entry g j else entry m r j)
    0 0x200 (λ i '(m, addr), m ← kstore m (KERNEL_VMEM_START + p * 4096) i (huge_entry addr);
      Ok (m, u64 (addr + 0x200000))) (m, g * 512 * 0x200000)) as ([m' a'] & Hrun & Ha & He).
  - lia.
  - split; [lia|]. intros r j Hj. by rewrite decide_False by lia.
  - intros i [mi a] Hi [-> He]. rewrite kstore_slot, bind_Ok by lia. eexists. split; [done|].
    split; [rewrite wrap_small; [lia|unfold fits; lia]|]. intros r j Hj.
    rewrite huge_entry_pd by lia. rewrite entry_st64 by (lia || apply pd_entry_fits; lia).
    rewrite He by done. destruct (decide (r = p)) as [->|]; repeat case_decide; try done;
      try lia; simplify_eq; try lia; try done. exfalso. assert (j = i) by lia. congruence.
  - exists m'. rewrite Hrun. split; [f_equal; f_equal; lia|]. intros r j Hj. rewrite He by done.
    apply decide_ext. lia.
Qed.

Lemma fill_kernel_pds_spec m p q :
  0 ≤ p < 2 ^ 19 → 0 ≤ q < 2 ^ 19 → p ≠ q →
  ∃ m' a, fill_kernel_pds (KERNEL_VMEM_START + p * 4096) (KERNEL_VMEM_START + q * 4096) (m, 0) =
      Ok (m', a) ∧
    ∀ r j, 0 ≤ j < 512 → entry m' r j =
      if decide (r = p) then pd_entry 0 j else if decide (r = q) then pd_entry 1 j else entry m r j.
Proof.
  intros Hp Hq Hne. unfold fill_kernel_pds.
  destruct (for_range_total (λ i '(mi, a), a = i * 0x200000 ∧
    ∀ r j, 0 ≤ j < 512 → entry mi r j =
      if decide (r = p ∧ j < i) then pd_entry 0 j
      else if decide (r = q ∧ j < i) then pd_entry 1 j else entry m r j)
    0 0x200 (λ i '(m, addr), m ← kstore m (KERNEL_VMEM_START + p * 4096) i (huge_entry addr);
      m ← kstore m (KERNEL_VMEM_START + q * 4096) i (huge_entry (u64 (addr + 0x40000000)));
      Ok (m, u64 (addr + 0x200000))) (m, 0)) as ([m' a'] & Hrun & Ha & He).
  - lia.
  - split; [lia|]. intros r j Hj. by rewrite !decide_False by lia.
  - intros i [mi a] Hi [-> He]. rewrite !kstore_slot, bind_Ok by lia.
    rewrite kstore_slot, bind_Ok by lia. eexists. split; [done|].
    split; [rewrite wrap_small; [lia|unfold fits; lia]|]. intros r j Hj.
    rewrite (wrap_small 64 (i * 0x200000 + 0x40000000)) by (unfold fits; lia).
    replace (i * 0x200000 + 0x40000000) with ((1 * 512 + i) * 0x200000) by lia.
    replace (i * 0x200000) with ((0 * 512 + i) * 0x200000) by lia.
    rewrite !huge_entry_pd by lia.
    rewrite !entry_st64 by (lia || apply pd_entry_fits; lia). rewrite He by done.
    destruct (decide (j = i)) as [->|].
    + destruct (decide (r = p)) as [->|]; [|destruct (decide (r = q)) as [->|]];
        repeat case_decide; try done; try lia; simplify_eq; try lia; congruence.
    + repeat case_decide; try done; try lia; congruence.
  - exists m', a'. split; [done|]. intros r j Hj. rewrite He by done.
    repeat case_decide; try done; try lia; tauto.
Qed.

Lemma hw_entry_slot m p va sh : hw_entry m (p * 4096) va sh = entry m p (va / 2 ^ sh mod 512).
Proof. done. Qed.

Lemma hw_link p :
  0 ≤ p < 2 ^ 19 →
  hw_present (p * 4096 + 3) = true ∧ hw_large (p * 4096 + 3) = false ∧
  hw_frame 12 (p * 4096 + 3) = p * 4096.
Proof.
  intros Hp. unfold hw_present, hw_large, hw_frame. split_and!.
  - replace (p * 4096 + 3) with (1 + 2 * (p * 2048 + 1)) by lia. by rewrite Z.odd_add_mul_2.
  - change (2 ^ 7) with 128. replace (p * 4096 + 3) with (3 + p * 32 * 128) by lia.
    rewrite Z.div_add, Z.div_small, Z.add_0_l by lia. replace (p * 32) with (0 + 2 * (p * 16)) by lia.
    by rewrite Z.odd_add_mul_2.
  - change (2 ^ 12) with 4096. rewrite Z.add_comm, Z.div_add, Z.div_small, Z.add_0_l by lia.
    rewrite Z.mod_small by lia. lia.
Qed.

Lemma hw_pd_entry g i :
  0 ≤ g < 4 → 0 ≤ i < 512 →
  hw_present (pd_entry g i) = true ∧ hw_large (pd_entry g i) = true ∧
  hw_frame 21 (pd_entry g i) = (g * 512 + i) * 0x200000.
Proof.
  intros Hg Hi. unfold hw_present, hw_large, hw_frame, pd_entry. set (n := g * 512 + i).
  assert (0 ≤ n < 2048) as Hn by lia. split_and!.
  - replace (n * 0x200000 + 0x83) with (1 + 2 * (n * 0x100000 + 0x41)) by lia. by rewrite Z.odd_add_mul_2.
  - change (2 ^ 7) with 128. replace (n * 0x200000 + 0x83) with (0x83 + n * 0x4000 * 128) by lia.
    rewrite Z.div_add by lia. change (0x83 / 128) with 1.
    replace (1 + n * 0x4000) with (1 + 2 * (n * 0x2000)) by lia. by rewrite Z.odd_add_mul_2.
  - change (2 ^ 21) with 0x200000. rewrite Z.add_comm, Z.div_add, Z.div_small, Z.add_0_l by lia.
    rewrite Z.mod_small by lia. lia.
Qed.

(** A walk through two links to a directory of the [g]-th GiB. *)
Lemma hw_walk m root t d g va base :
  0 ≤ t < 2 ^ 19 → 0 ≤ d < 2 ^ 19 → 0 ≤ g < 4 → 0 ≤ va →
  entry m root (va / 2 ^ 39 mod 512) = t * 4096 + 3 →
  entry m t (va / 2 ^ 30 mod 512) = d * 4096 + 3 →
  (∀ j, 0 ≤ j < 512 → entry m d j = pd_entry g j) →
  base mod 2 ^ 30 = 0 → base + g * 2 ^ 30 ≤ va < base + (g + 1) * 2 ^ 30 →
  hw_translate m (root * 4096) va = Some (va - base).
Proof.
  intros Ht Hd Hg Hva E4 E3 E2 Hb Hr. unfold hw_translate.
  rewrite hw_entry_slot, E4. destruct (hw_link t Ht) as (-> & _ & ->). cbn [negb].
  rewrite hw_entry_slot, E3. destruct (hw_link d Hd) as (-> & -> & ->). cbn [negb].
  set (j := va / 2 ^ 21 mod 512). assert (0 ≤ j < 512) as Hj by (apply Z.mod_pos_bound; lia).
  rewrite hw_entry_slot. fold j. rewrite E2 by done.
  destruct (hw_pd_entry g j Hg Hj) as (-> & -> & ->). cbn [negb]. f_equal.
  set (x := va - base).
  assert (g = x / 2 ^ 30) as Eg.
  { apply (Z.div_unique_pos x (2 ^ 30) g (x - g * 2 ^ 30)); lia. }
  pose proof (Z.div_mod base (2 ^ 30)) as Hbm. set (b := base / 2 ^ 30) in *.
  assert (va = x + b * 512 * 2 ^ 21) as Eva by lia.
  assert (va / 2 ^ 21 = x / 2 ^ 21 + b * 512) as Ev by (rewrite Eva, Z.div_add by lia; done).
  assert (j = (x / 2 ^ 21) mod 512) as Ej by (unfold j; rewrite Ev, Z.mod_add by lia; done).
  assert (va mod 2 ^ 21 = x mod 2 ^ 21) as Em by (rewrite Eva, Z.mod_add by lia; done).
  rewrite Em, Ej, Eg. replace (x / 2 ^ 30) with (x / 2 ^ 21 / 512) by (rewrite Z.div_div by lia; done).
  pose proof (Z.div_mod (x / 2 ^ 21) 512). pose proof (Z.div_mod x (2 ^ 21)). lia.
Qed.

Lemma entry_hit m p idx v q jdx :
  q = p → jdx = idx → 0 ≤ idx < 512 → fits 64 v → entry (st64 m (slot p idx) v) q jdx = v.
Proof. intros -> -> Hi Hv. rewrite entry_st64 by done. by rewrite decide_True. Qed.

Lemma entry_miss m p idx v q jdx :
  q ≠ p ∨ jdx ≠ idx → 0 ≤ idx < 512 → 0 ≤ jdx < 512 → fits 64 v →
  entry (st64 m (slot p idx) v) q jdx = entry m q jdx.
Proof. intros Hne Hi Hj Hv. rewrite entry_st64 by done. rewrite decide_False; [done|naive_solver]. Qed.

(** Reads an entry back through a sequence of stores. *)
Ltac solve_entry :=
  repeat first
    [ rewrite entry_hit by (lia || (unfold fits; lia)); lia
    | rewrite entry_miss by (lia || (unfold fits; lia)) ].

Section pgt.
Context {A : Type} `{AlgorithmLaws A}.

(** What the new tables hold. *)
Record kernel_tables (m : memory) (p : Z) : Prop := {
  kt_range : 0 ≤ p ∧ p + 15 < 2 ^ 19;
  kt_pml4_k : entry m p 0x1ff = (p + 1) * 4096 + 3;
  kt_pml4_p : entry m p 0x100 = (p + 2) * 4096 + 3;
  kt_pdp0 : ∀ g, 0 ≤ g < 2 → entry m (p + 1) (0x1fe + g) = (p + 3 + g) * 4096 + 3;
  kt_pdp1 : ∀ g, 0 ≤ g < 4 → entry m (p + 2) g = (p + 5 + g) * 4096 + 3;
  kt_pd0 : ∀ g j, 0 ≤ g < 2 → 0 ≤ j < 512 → entry m (p + 3 + g) j = pd_entry g j;
  kt_pd1 : ∀ g j, 0 ≤ g < 4 → 0 ≤ j < 512 → entry m (p + 5 + g) j = pd_entry g j;
}.

Lemma reinitialise_pgt_tables (s : machine A) s' cr3 template :
  ready (pgalloc s) → (∀ j, available (page_descriptors (pgalloc s)) j → j < 2 ^ 52) →
  reinitialise_pgt s = Ok (Some (s', cr3, template)) →
  ∃ p, cr3 = p * 4096 ∧ template = PMEM_VA_START + p * 4096 ∧ kernel_tables (mem s') p.
Proof.
  intros Hr Hsz Hrun. unfold reinitialise_pgt in Hrun.
  apply bind_Ok_inv in Hrun as ([r pa] & Hal & Hrun).
  destruct (alloc_pages_spec _ 4 _ _ Hr ltac:(lia) Hal) as (p & -> & _ & _ & Hf & _).
  change (2 ^ 4) with 16 in Hf. pose proof (free_run_range _ 16 _ ltac:(lia) Hf).
  assert (p < 2 ^ 52) by (apply Hsz, (proj1 (free_run_spec _ _ _) Hf); lia).
  apply bind_Ok_inv in Hrun as (pml4 & Hk & Hrun).
  apply pgd_to_kva_Ok_inv in Hk as [_ ->]; [|lia].
  apply bind_Ok_inv in Hrun as (a & Ha & Hrun).
  assert (p + 16 ≤ 2 ^ 19 ∧ a = p * 4096) as [Hp ->].
  { unfold translate_kva, KERNEL_VMEM_START, KERNEL_VMEM_END in Ha.
    destruct (_ && _) eqn:E; [|done]. apply andb_true_iff in E as [_ E%Z.leb_le].
    injection Ha as <-. lia. }
  rewrite !pgd_to_kva_Ok, !bind_Ok in Hrun by lia.
  rewrite (table_link_Ok (p + 1)), bind_Ok, kstore_slot, bind_Ok in Hrun by lia.
  rewrite (table_link_Ok (p + 2)), bind_Ok, kstore_slot, bind_Ok in Hrun by lia.
  rewrite (table_link_Ok (p + 3)), bind_Ok, kstore_slot, bind_Ok in Hrun by lia.
  rewrite (table_link_Ok (p + 4)), bind_Ok, kstore_slot, bind_Ok in Hrun by lia.
  rewrite (table_link_Ok (p + 5)), bind_Ok, kstore_slot, bind_Ok in Hrun by lia.
  rewrite (table_link_Ok (p + 6)), bind_Ok, kstore_slot, bind_Ok in Hrun by lia.
  rewrite (table_link_Ok (p + 7)), bind_Ok, kstore_slot, bind_Ok in Hrun by lia.
  rewrite (table_link_Ok (p + 8)), bind_Ok, kstore_slot, bind_Ok in Hrun by lia.
  set (m0 := zero_bytes _ _ _) in Hrun. clearbody m0. set (m1 := st64 (st64 _ _ _) _ _) in Hrun.
  destruct (fill_kernel_pds_spec m1 (p + 3) (p + 4)) as (m2 & a2 & Hm2 & E2); [lia..|].
  rewrite Hm2, bind_Ok in Hrun.
  destruct (fill_pd_spec m2 (p + 5) 0) as (m3 & Hm3 & E3); [lia..|].
  change (0 * 512 * 0x200000) with 0 in Hm3. rewrite Hm3, bind_Ok in Hrun.
  destruct (fill_pd_spec m3 (p + 6) 1) as (m4 & Hm4 & E4); [lia..|].
  change ((0 + 1) * 512 * 0x200000) with (1 * 512 * 0x200000) in Hrun. rewrite Hm4, bind_Ok in Hrun.
  destruct (fill_pd_spec m4 (p + 7) 2) as (m5 & Hm5 & E5); [lia..|].
  change ((1 + 1) * 512 * 0x200000) with (2 * 512 * 0x200000) in Hrun. rewrite Hm5, bind_Ok in Hrun.
  destruct (fill_pd_spec m5 (p + 8) 3) as (m6 & Hm6 & E6); [lia..|].
  change ((2 + 1) * 512 * 0x200000) with (3 * 512 * 0x200000) in Hrun. rewrite Hm6, bind_Ok in Hrun.
  rewrite kva_to_pa_page, bind_Ok in Hrun by lia. unfold pgd_to_vpa, pgd_to_pa in Hrun.
  rewrite pfn_to_pa_mul, pa_to_vpa_Ok, bind_Ok in Hrun by lia. injection Hrun as <- <- <-.
  exists p. split_and!; [done|done|]. cbn [mem].
  assert (∀ r j, 0 ≤ j < 512 → r < p + 3 → entry m6 r j = entry m1 r j) as Elow.
  { intros r j Hj Hrp. rewrite E6, E5, E4, E3, E2 by done. by rewrite !decide_False by lia. }
  split; [lia|..].
  - rewrite Elow by lia. unfold m1. solve_entry.
  - rewrite Elow by lia. unfold m1. solve_entry.
  - intros g Hg. rewrite Elow by lia. unfold m1.
    assert (g = 0 ∨ g = 1) as [-> | ->] by lia; solve_entry.
  - intros g Hg. rewrite Elow by lia. unfold m1.
    assert (g = 0 ∨ g = 1 ∨ g = 2 ∨ g = 3) as [-> | [-> | [-> | ->]]] by lia; solve_entry.
  - intros g j Hg Hj. rewrite E6, E5, E4, E3, E2 by done.
    assert (g = 0 ∨ g = 1) as [-> | ->] by lia; repeat case_decide; done || lia.
  - intros g j Hg Hj. rewrite E6, E5, E4, E3, E2 by done.
    assert (g = 0 ∨ g = 1 ∨ g = 2 ∨ g = 3) as [-> | [-> | [-> | ->]]] by lia;
    repeat case_decide; done || lia.
Qed.
End pgt.

Lemma search_algorithms_spec {A} name0 cs0 (l : list (cstr * A)) cand :
  is_cstr cs0 name0 → (length cs0 ≤ 31)%nat →
  Forall (λ x, ∃ cs, is_cstr cs (fst x) ∧ Z.of_nat (length cs) < 2 ^ 64) l →
  search_algorithms name0 l cand =
    Ok (match last (filter (λ x, take (length cs0) (fst x) = cs0 ∧ fst x !! length cs0 = Some 0) l) with
        | Some x => Some (snd x) | None => cand end).
Proof.
  intros H0 Hl0 Hl. revert cand. induction Hl as [|[name a] l (cs & Hcs & Hlen) Hl IH]; intros cand; [done|].
  cbn [search_algorithms fst] in *.
  rewrite (strncmp_spec cs cs0), bind_Ok by (done || lia || by vm_compute).
  change (Z.to_nat 31) with 31%nat.
  assert (length cs = length cs0 ∧ take 31 cs = take 31 cs0 ↔
          take (length cs0) name = cs0 ∧ name !! length cs0 = Some 0) as Hiff.
  { destruct Hcs as [Hnz [rest ->]]. destruct H0 as [Hnz0 _]. split.
    - intros [El Et]. rewrite !take_ge in Et by lia. subst cs0. rewrite take_app_length. split; [done|].
      by apply list_lookup_middle.
    - intros [Et Ez]. assert (length cs0 = length cs) as El.
      { destruct (lt_eq_lt_dec (length cs0) (length cs)) as [[Hlt|]|Hgt]; [|done|].
        - rewrite lookup_app_l in Ez by done. rewrite Forall_lookup in Hnz. by apply Hnz in Ez.
        - rewrite <- Et in Hnz0. rewrite Forall_lookup in Hnz0.
          destruct (Hnz0 (length cs) 0); [|done]. rewrite lookup_take_lt by done.
          by apply list_lookup_middle. }
      rewrite El, take_app_length in Et. by subst cs0. }
  rewrite IH, filter_cons. cbn [fst].
  destruct (decide (length cs = length cs0 ∧ take 31 cs = take 31 cs0)) as [E|E].
  - rewrite decide_True by tauto. rewrite last_cons. cbn. by destruct (last _).
  - rewrite decide_False by tauto. done.
Qed.

(** ** Properties *)

(** C16. The kernel's page tables agree with the address conversions.  When
    [reinitialise_pgt] succeeds, the processor, walking the new tables from the
    loaded cr3, translates every address of the 2 GiB kernel window and of the
    4 GiB physical-memory window to exactly the physical address that
    [kva_to_pa] and [vpa_to_pa] compute, and [__template_pml4] is the window
    address of the top-level table. *)
Theorem kernel_windows_mapped {A} `{AlgorithmLaws A} (s : machine A) s' cr3 template :
  ready (pgalloc s) → (∀ j, available (page_descriptors (pgalloc s)) j → j < 2 ^ 52) →
  reinitialise_pgt s = Ok (Some (s', cr3, template)) →
  (∀ va pa, kva_to_pa va = Ok pa → hw_translate (mem s') cr3 va = Some pa) ∧
  (∀ va pa, vpa_to_pa va = Ok pa → hw_translate (mem s') cr3 va = Some pa) ∧
  vpa_to_pa template = Ok cr3.
Proof.
  intros Hr Hsz Hrun.
  destruct (reinitialise_pgt_tables s s' cr3 template Hr Hsz Hrun) as (p & -> & -> & Kt).
  pose proof (kt_range _ _ Kt) as Hp. split_and!.
  - intros va pa Hva. unfold kva_to_pa in Hva. inv_result.
    apply andb_true_iff in Hb as [H1%Z.leb_le H2%Z.leb_le].
    unfold KERNEL_VMEM_START, KERNEL_VMEM_END in *. rewrite wrap_small by (unfold fits; lia).
    set (g := (va - 0xFFFFFFFF80000000) / 2 ^ 30).
    assert (0 ≤ g < 2) as Hg by (unfold g; split; [apply Z.div_pos|apply Z.div_lt_upper_bound]; lia).
    pose proof (Z.div_mod (va - 0xFFFFFFFF80000000) (2 ^ 30)) as Hdm.
    pose proof (Z.mod_pos_bound (va - 0xFFFFFFFF80000000) (2 ^ 30)) as Hmb. fold g in Hdm.
    assert (va / 2 ^ 30 = 2 ^ 34 - 2 + g) as E30.
    { symmetry. apply (Z.div_unique_pos va (2 ^ 30) _ ((va - 0xFFFFFFFF80000000) mod 2 ^ 30)); lia. }
    assert (va / 2 ^ 39 = 2 ^ 25 - 1) as E39.
    { symmetry. apply (Z.div_unique_pos va (2 ^ 39) _ (va - (2 ^ 25 - 1) * 2 ^ 39)); lia. }
    apply (hw_walk _ p (p + 1) (p + 3 + g) g); [lia|lia|lia|lia| | |intros j Hj; by apply (kt_pd0 _ _ Kt)|done|lia].
    + rewrite E39. apply (kt_pml4_k _ _ Kt).
    + rewrite E30. replace (2 ^ 34 - 2 + g) with (0x1fe + g + (2 ^ 25 - 1) * 512) by lia.
      rewrite Z.mod_add, Z.mod_small by lia. by apply (kt_pdp0 _ _ Kt).
  - intros va pa Hva. unfold vpa_to_pa in Hva. inv_result.
    apply andb_true_iff in Hb as [H1%Z.leb_le H2%Z.ltb_lt].
    unfold PMEM_VA_START, PMEM_VA_END in *. rewrite wrap_small by (unfold fits; lia).
    set (g := (va - 0xFFFF800000000000) / 2 ^ 30).
    assert (0 ≤ g < 4) as Hg by (unfold g; split; [apply Z.div_pos|apply Z.div_lt_upper_bound]; lia).
    pose proof (Z.div_mod (va - 0xFFFF800000000000) (2 ^ 30)) as Hdm.
    pose proof (Z.mod_pos_bound (va - 0xFFFF800000000000) (2 ^ 30)) as Hmb. fold g in Hdm.
    assert (va / 2 ^ 30 = 2 ^ 34 - 2 ^ 17 + g) as E30.
    { symmetry. apply (Z.div_unique_pos va (2 ^ 30) _ ((va - 0xFFFF800000000000) mod 2 ^ 30)); lia. }
    assert (va / 2 ^ 39 = 2 ^ 25 - 2 ^ 8) as E39.
    { symmetry. apply (Z.div_unique_pos va (2 ^ 39) _ (va - (2 ^ 25 - 2 ^ 8) * 2 ^ 39)); lia. }
    apply (hw_walk _ p (p + 2) (p + 5 + g) g); [lia|lia|lia|lia| | |intros j Hj; by apply (kt_pd1 _ _ Kt)|done|lia].
    + rewrite E39. apply (kt_pml4_p _ _ Kt).
    + rewrite E30. replace (2 ^ 34 - 2 ^ 17 + g) with (g + (2 ^ 25 - 2 ^ 8) * 512) by lia.
      rewrite Z.mod_add, Z.mod_small by lia. by apply (kt_pdp1 _ _ Kt).
  - rewrite vpa_to_pa_Ok by (unfold PMEM_VA_START, PMEM_VA_END; lia). f_equal. lia.
Qed.

(** Sixteen pages, all available. *)
Definition boot_machine : machine SimplePageAllocator :=
  MkMachine (MkPA 16 (replicate 16 (MkPD None None AVAILABLE)) (Some (MkSimple 16))) ∅.

Lemma kernel_windows_mapped_witness :
  ∃ s' cr3 template, reinitialise_pgt boot_machine = Ok (Some (s', cr3, template)) ∧
    hw_translate (mem s') cr3 (KERNEL_VMEM_START + 0x123456) = Some 0x123456.
Proof.
  destruct (reinitialise_pgt boot_machine) as [[[[s' cr3] template]|]|f] eqn:E.
  - exists s', cr3, template. split; [reflexivity|].
    destruct (kernel_windows_mapped boot_machine s' cr3 template) as (Hk & _ & _).
    + reflexivity.
    + intros j Hj. pose proof (ty_at_range _ _ _ Hj) as Hr. vm_compute in Hr. destruct Hr as [_ Hr].
      change (j < 16) in Hr. lia.
    + exact E.
    + apply Hk. vm_compute. reflexivity.
  - exfalso. assert (match reinitialise_pgt boot_machine with Ok None => true | _ => false end = true)
      as E' by (rewrite E; reflexivity). vm_compute in E'. discriminate E'.
  - exfalso. assert (match reinitialise_pgt boot_machine with Err _ => true | _ => false end = true)
      as E' by (rewrite E; reflexivity). vm_compute in E'. discriminate E'.
Defined.

(** The algorithm named on the command line is found: the search returns
    the last registered algorithm whose name is the given one, nothing when
    there is none or when no name was given, and never faults. *)
Theorem acquire_algorithm_correct {A} (algs : list (cstr * A)) chosen cs0 :
  is_cstr cs0 chosen → (length cs0 ≤ 31)%nat →
  Forall (λ x, ∃ cs, is_cstr cs (fst x) ∧ Z.of_nat (length cs) < 2 ^ 64) algs →
  acquire_page_allocator_algorithm algs chosen =
    Ok (if decide (cs0 = []) then None else
        snd <$> last (filter (λ x, take (length cs0) (fst x) = cs0 ∧ fst x !! length cs0 = Some 0) algs)).
Proof.
  intros H0 Hl Hall. unfold acquire_page_allocator_algorithm.
  rewrite (strlen_spec cs0), bind_Ok by (done || lia). destruct cs0 as [|c cs0]; [done|].
  rewrite (proj2 (Z.eqb_neq _ 0)) by (simpl; lia). rewrite decide_False by done.
  rewrite (search_algorithms_spec chosen (c :: cs0)) by done. by destruct (last _).
Qed.

Lemma acquire_algorithm_correct_witness :
  acquire_page_allocator_algorithm [([98; 0], 1); ([97; 98; 0], 2)] [97; 98; 0; 0] = Ok (Some 2).
Proof.
  rewrite (acquire_algorithm_correct [([98; 0], 1); ([97; 98; 0], 2)] [97; 98; 0; 0] [97; 98]).
  - vm_compute. reflexivity.
  - split; [by repeat constructor|by exists [0]].
  - simpl. lia.
  - repeat constructor.
    + exists [98]. split; [split; [by repeat constructor|by exists []]|by vm_compute].
    + exists [97; 98]. split; [split; [by repeat constructor|by exists []]|by vm_compute].
Defined.
