(* ===== verification/KTime.v ===== *)
(** * Kernel time

    The duration and time point types of include/infos/util/time.h at their
    64-bit representation, and the run time and time of day the kernel keeps
    (kernel/kernel.cpp). *)

From S2P Require Import Prelude.
Local Open Scope Z_scope.

(** ** Durations and time points *)

Abbreviation Duration := Z (only parsing).
Abbreviation Timepoint := Z (only parsing).

Definition dur_add (l r : Duration) : Duration := u64 (l + r).
(** [operator-] subtracts the left operand from the right one. *)
Definition dur_sub (l r : Duration) : Duration := u64 (r - l).
(** [operator-=] is the ordinary one. *)
Definition dur_sub_assign (l r : Duration) : Duration := u64 (l - r).
Definition dur_lt (l r : Duration) : bool := l <? r.
Definition dur_gt (l r : Duration) : bool := r <? l.

Definition tp_add_assign (t : Timepoint) (amt : Duration) : Timepoint := u64 (t + amt).
(** The difference of time points swaps the operands once more. *)
Definition tp_sub (lhs rhs : Timepoint) : Duration := dur_sub rhs lhs.
Definition tp_lt (l r : Timepoint) : bool := l <? r.
Definition time_since_epoch (t : Timepoint) : Duration := t.

(** [DurationCastImpl::DoCast] for the ratio [num / den]. *)
Definition DoCast (num den v : Z) : Z := u64 (v * num) / den.

Definition ns_of_s : Duration → Duration := DoCast 1000000000 1.
Definition ns_of_ms : Duration → Duration := DoCast 1000000 1.
Definition ns_of_us : Duration → Duration := DoCast 1000 1.

(** ** The kernel's clock *)

Record TimeOfDay := MkTod {
  hours : Z; minutes : Z; seconds : Z; day : Z; month : Z; year : Z }.

Record clock := MkClock {
  runtime : Timepoint; tod : TimeOfDay; ticks_since_last_tod_update : Duration }.

(** The fields are [unsigned short]. *)
Definition increment_tod (t : TimeOfDay) : TimeOfDay :=
  let s := u16 (seconds t + 1) in
  if 59 <? s then
    let m := u16 (minutes t + 1) in
    if 59 <? m then
      let h := u16 (hours t + 1) in
      if 23 <? h then MkTod 0 0 0 (day t) (month t) (year t)
      else MkTod h 0 0 (day t) (month t) (year t)
    else MkTod (hours t) m 0 (day t) (month t) (year t)
  else MkTod (hours t) (minutes t) s (day t) (month t) (year t).

Definition second : Duration := 1000000000.

Fixpoint tod_loop (fuel : nat) (ticks : Duration) (t : TimeOfDay) : result (Duration * TimeOfDay) :=
  match fuel with
  | O => Err Hang
  | S fuel' =>
      if dur_gt ticks second
      then tod_loop fuel' (dur_sub_assign ticks second) (increment_tod t)
      else Ok (ticks, t)
  end.

(** A turn of the loop takes a second off a 64-bit count of nanoseconds. *)
Definition update_runtime (c : clock) (ticks : Duration) : result clock :=
  let acc := dur_add (ticks_since_last_tod_update c) ticks in
  '(acc, t) ← tod_loop (S (Z.to_nat (acc / second))) acc (tod c);
  Ok (MkClock (tp_add_assign (runtime c) ticks) t acc).

(** [resync_tod]: [rtc] is what the real-time clock device reads, if there is
    one. *)
Definition resync_tod (c : clock) (rtc : option TimeOfDay) : clock :=
  match rtc with
  | None => MkClock (runtime c) (tod c) 0
  | Some tp => MkClock (runtime c) tp 0
  end.

Definition initialise_tod (c : clock) (rtc : option TimeOfDay) : clock :=
  resync_tod (MkClock (runtime c) (MkTod 0 0 0 1 1 1970) (ticks_since_last_tod_update c)) rtc.

(** [spin_delay]: the clock readings the loop makes, one per turn. *)
Definition spin_target (now ns : Z) : Z := u64 (now + ns).
Fixpoint spin_delay (readings : list Timepoint) (target : Timepoint) : result nat :=
  match readings with
  | [] => Err Hang
  | t :: readings' => if tp_lt t target then S <$> spin_delay readings' target else Ok O
  end.

(** ** Seconds of the day *)

Definition tod_ok (t : TimeOfDay) : Prop :=
  0 ≤ hours t < 24 ∧ 0 ≤ minutes t < 60 ∧ 0 ≤ seconds t < 60.

Definition day_seconds (t : TimeOfDay) : Z := hours t * 3600 + minutes t * 60 + seconds t.

Definition same_date (t t' : TimeOfDay) : Prop :=
  day t' = day t ∧ month t' = month t ∧ year t' = year t.

Lemma increment_tod_spec t :
  tod_ok t → tod_ok (increment_tod t) ∧ same_date t (increment_tod t) ∧
  day_seconds (increment_tod t) = (day_seconds t + 1) mod 86400.
Proof.
  intros (Hh & Hm & Hs). unfold increment_tod. unwrap.
  unfold tod_ok, same_date, day_seconds.
  destruct (Z.ltb_spec 59 (seconds t + 1)); [|split_and!; simpl; try lia; rewrite Z.mod_small; lia].
  destruct (Z.ltb_spec 59 (minutes t + 1)); [|split_and!; simpl; try lia; rewrite Z.mod_small; lia].
  destruct (Z.ltb_spec 23 (hours t + 1)); [|split_and!; simpl; try lia; rewrite Z.mod_small; lia].
  split_and!; simpl; try lia.
  replace (hours t * 3600 + minutes t * 60 + seconds t + 1) with (1 * 86400) by lia.
  by rewrite Z.mod_mul.
Qed.

Lemma tod_loop_spec fuel ticks t :
  0 ≤ ticks < 2 ^ 64 → tod_ok t → (Z.to_nat (ticks / second) < fuel)%nat →
  ∃ s acc t', tod_loop fuel ticks t = Ok (acc, t') ∧ 0 ≤ s ∧ ticks = acc + s * second ∧
    0 ≤ acc ≤ second ∧ (0 < s → 0 < acc) ∧
    tod_ok t' ∧ same_date t t' ∧ day_seconds t' = (day_seconds t + s) mod 86400.
Proof.
  revert ticks t. induction fuel as [|fuel IH]; intros ticks t Ht Hok Hf; [lia|].
  cbn [tod_loop]. unfold dur_gt, second in *. destruct (Z.ltb_spec 1000000000 ticks).
  - unfold dur_sub_assign. rewrite wrap_small by eauto with infos.
    destruct (increment_tod_spec t Hok) as (Hok1 & (D1 & D2 & D3) & Hs1).
    destruct (IH (ticks - 1000000000) (increment_tod t)) as (s & acc & t' & -> & Hs & E & Hacc & Hp & Hok' & (F1 & F2 & F3) & Hds);
      [lia|done| |].
    + replace ticks with ((ticks - 1000000000) + 1 * 1000000000) in Hf by lia.
      rewrite Z.div_add in Hf by lia.
      pose proof (Z.div_pos (ticks - 1000000000) 1000000000). lia.
    + exists (s + 1), acc, t'. unfold same_date. split_and!; try congruence; try lia; try done.
      rewrite Hds, Hs1. rewrite Zplus_mod_idemp_l. f_equal. lia.
  - exists 0, ticks, t. unfold same_date. split_and!; try done; try lia.
    rewrite Z.add_0_r. unfold day_seconds. destruct Hok as (? & ? & ?). rewrite Z.mod_small; lia.
Qed.

Lemma update_runtime_spec c ticks :
  tod_ok (tod c) → 0 ≤ ticks → 0 ≤ ticks_since_last_tod_update c →
  ticks_since_last_tod_update c + ticks < 2 ^ 64 → fits 64 (runtime c + ticks) →
  ∃ s c', update_runtime c ticks = Ok c' ∧ runtime c' = runtime c + ticks ∧
    0 ≤ s ∧ ticks_since_last_tod_update c + ticks = ticks_since_last_tod_update c' + s * second ∧
    0 ≤ ticks_since_last_tod_update c' ≤ second ∧
    tod_ok (tod c') ∧ same_date (tod c) (tod c') ∧
    day_seconds (tod c') = (day_seconds (tod c) + s) mod 86400.
Proof.
  intros Hok Ht Hacc Hsum Hrt. unfold update_runtime, dur_add.
  rewrite wrap_small by eauto with infos.
  destruct (tod_loop_spec (S (Z.to_nat ((ticks_since_last_tod_update c + ticks) / second)))
    (ticks_since_last_tod_update c + ticks) (tod c)) as (s & acc & t' & -> & Hs & E & Ha & _ & Hok' & Hd & Hds);
    [lia|done|lia|].
  exists s. eexists. split; [reflexivity|]. unfold tp_add_assign. simpl.
  rewrite wrap_small by done. split_and!; try done; lia.
Qed.

(** ** Properties *)

(** The time of day follows the run time.  [update_runtime] terminates,
    adds the ticks to the run time, and advances the time of day by the number
    of whole seconds it takes out of the tick counter (which keeps the
    remainder, up to and including one second); at midnight the time wraps to
    00:00:00 and the date does not change. *)
Theorem update_runtime_correct c ticks :
  tod_ok (tod c) → 0 ≤ ticks → 0 ≤ ticks_since_last_tod_update c →
  ticks_since_last_tod_update c + ticks < 2 ^ 64 → fits 64 (runtime c + ticks) →
  ∃ s c', update_runtime c ticks = Ok c' ∧ runtime c' = runtime c + ticks ∧
    0 ≤ s ∧ ticks_since_last_tod_update c + ticks = ticks_since_last_tod_update c' + s * second ∧
    0 ≤ ticks_since_last_tod_update c' ≤ second ∧
    tod_ok (tod c') ∧ same_date (tod c) (tod c') ∧
    day_seconds (tod c') = (day_seconds (tod c) + s) mod 86400.
Proof. apply update_runtime_spec. Qed.

Lemma update_runtime_correct_witness :
  ∃ s c', update_runtime (MkClock 0 (MkTod 23 59 59 31 12 1999) 999999999) (ns_of_ms 10) = Ok c' ∧
    0 ≤ s ∧ day_seconds (tod c') = (86399 + s) mod 86400 ∧ same_date (MkTod 23 59 59 31 12 1999) (tod c').
Proof.
  destruct (update_runtime_correct (MkClock 0 (MkTod 23 59 59 31 12 1999) 999999999) (ns_of_ms 10))
    as (s & c' & Hr & _ & Hs & _ & _ & _ & Hd & Hds).
  - unfold tod_ok. simpl. lia.
  - vm_compute. discriminate.
  - simpl. lia.
  - vm_compute. reflexivity.
  - vm_compute. split; [discriminate|reflexivity].
  - exists s, c'. auto.
Defined.
