(* ===== verification/Sched.v ===== *)
(** * The scheduler

    Scheduling entities (include/infos/kernel/sched-entity.h), wake queues and
    events (util/wakequeue.cpp, util/event.cpp), the scheduler
    (kernel/sched.cpp), the completely fair algorithm (kernel/sched-cfs.cpp),
    the scheduling calls of a thread (kernel/thread.cpp) and the timer interrupt
    that drives them (drivers/timer/lapic-timer.cpp). *)

From S2P Require Import Prelude CppList CppString MemInit KTime.
Local Open Scope Z_scope.

(** ** Data *)

(** A pointer to a thread, or to a wake queue. *)
Abbreviation ptr := Z (only parsing).

Inductive SchedulingEntityState := STOPPED | SLEEPING | RUNNABLE | RUNNING.

#[export] Instance entity_state_eq_dec : EqDecision SchedulingEntityState.
Proof. solve_decision. Defined.

Module SchedulingEntityPriority.
Inductive SchedulingEntityPriority := REALTIME | INTERACTIVE | NORMAL | DAEMON.
End SchedulingEntityPriority.

(** [_state_changed] is the address of the event's wake queue. *)
Record SchedulingEntity := MkEntity {
  cpu_runtime : Duration; exec_start_time : Timepoint; state : SchedulingEntityState;
  priority : SchedulingEntityPriority.SchedulingEntityPriority; state_changed : ptr }.

(** The wait list of a wake queue, in the order of its linked list, and its
    mutex. *)
Record WakeQueue := MkWQ { waiters : list ptr; wq_locked : bool }.

(** What an algorithm sees of the entities in its run queue. *)
Class SchedulingAlgorithm (A : Type) := {
  pick_next_entity : A → gmap Z SchedulingEntity → result (option ptr);
  algorithm_init : A → A;
  add_to_runqueue : A → ptr → A;
  remove_from_runqueue : A → ptr → A }.

(** The scheduler, with the parts of the kernel its operations reach: the
    entities, the wake queues, the clock, and the thread the processor runs. *)
Record Scheduler (A : Type) := MkSched {
  active : bool; algorithm : option A; current : option ptr; idle_entity : option ptr;
  current_thread : option ptr; entities : gmap Z SchedulingEntity;
  queues : gmap Z WakeQueue; clk : clock }.
Arguments MkSched {A}.
Arguments active {A}.
Arguments algorithm {A}.
Arguments current {A}.
Arguments idle_entity {A}.
Arguments current_thread {A}.
Arguments entities {A}.
Arguments queues {A}.
Arguments clk {A}.

Definition with_state (e : SchedulingEntity) (st : SchedulingEntityState) : SchedulingEntity :=
  MkEntity (cpu_runtime e) (exec_start_time e) st (priority e) (state_changed e).

Definition new_entity (p : SchedulingEntityPriority.SchedulingEntityPriority) (q : ptr) : SchedulingEntity :=
  MkEntity 0 0 STOPPED p q.

Definition increment_cpu_runtime (e : SchedulingEntity) (delta : Duration) : SchedulingEntity :=
  MkEntity (dur_add (cpu_runtime e) delta) (exec_start_time e) (state e) (priority e) (state_changed e).

Definition update_exec_start_time (e : SchedulingEntity) (t : Timepoint) : SchedulingEntity :=
  MkEntity (cpu_runtime e) t (state e) (priority e) (state_changed e).

Section scheduler.
Context {A : Type} `{SchedulingAlgorithm A}.
Implicit Type s : Scheduler A.

Definition put_algorithm s (a : A) : Scheduler A :=
  MkSched (active s) (Some a) (current s) (idle_entity s) (current_thread s) (entities s) (queues s) (clk s).
Definition put_entity s (i : ptr) (e : SchedulingEntity) : Scheduler A :=
  MkSched (active s) (algorithm s) (current s) (idle_entity s) (current_thread s)
    (<[i := e]> (entities s)) (queues s) (clk s).
Definition put_queue s (q : ptr) (w : WakeQueue) : Scheduler A :=
  MkSched (active s) (algorithm s) (current s) (idle_entity s) (current_thread s)
    (entities s) (<[q := w]> (queues s)) (clk s).
Definition put_current s (i : ptr) : Scheduler A :=
  MkSched (active s) (algorithm s) (Some i) (idle_entity s) (current_thread s) (entities s) (queues s) (clk s).
Definition set_current_thread s (i : ptr) : Scheduler A :=
  MkSched (active s) (algorithm s) (current s) (idle_entity s) (Some i) (entities s) (queues s) (clk s).
Definition put_clock s (c : clock) : Scheduler A :=
  MkSched (active s) (algorithm s) (current s) (idle_entity s) (current_thread s) (entities s) (queues s) c.

Definition entity s (i : ptr) : result SchedulingEntity := get NullDeref (entities s !! i).
Definition queue s (q : ptr) : result WakeQueue := get NullDeref (queues s !! q).

(** ** Changing the state of an entity *)

Definition waits (st : SchedulingEntityState) : bool :=
  match st with STOPPED | SLEEPING => true | RUNNABLE | RUNNING => false end.

(** The branches on the new state and the state of the entity. *)
Definition update_runqueue (i : ptr) (old new : SchedulingEntityState) (a : A) : result A :=
  match new with
  | RUNNABLE => Ok (if waits old then add_to_runqueue a i else a)
  | STOPPED | SLEEPING => Ok (if waits old then a else remove_from_runqueue a i)
  | RUNNING => _ ← cassert (bool_decide (old = RUNNABLE)); Ok a
  end.

(** [Scheduler::set_entity_state], with [Event::trigger] an argument. *)
Definition set_entity_state_with (trigger : ptr → Scheduler A → result (Scheduler A))
    (i : ptr) (st : SchedulingEntityState) s : result (Scheduler A) :=
  a ← get AssertFailed (algorithm s);
  e ← entity s i;
  if bool_decide (state e = st) then Ok s else
  a ← update_runqueue i (state e) st a;
  trigger (state_changed e) (put_entity (put_algorithm s a) i (with_state e st)).

(** [WakeQueue::wake]; the fuel bounds the chain of waiters of waiters.  The
    list of waiters does not change during the loop: the queue is locked. *)
Fixpoint wake (fuel : nat) (q : ptr) s : result (Scheduler A) :=
  match fuel with
  | O => Err Hang
  | S fuel' =>
      w ← queue s q;
      _ ← check Deadlock (negb (wq_locked w));
      s ← for_each (waiters w) (λ waiter, set_entity_state_with (wake fuel') waiter RUNNABLE)
            (put_queue s q (MkWQ (waiters w) true));
      Ok (put_queue s q (MkWQ [] false))
  end.

(** [Event::trigger]. *)
Definition trigger (fuel : nat) (q : ptr) s : result (Scheduler A) := wake fuel q s.

Definition set_entity_state (fuel : nat) (i : ptr) (st : SchedulingEntityState) s : result (Scheduler A) :=
  set_entity_state_with (trigger fuel) i st s.

(** [WakeQueue::wakeMax]: [n] turns at most, each dequeues a waiter. *)
Fixpoint wake_first (fuel : nat) (n : nat) (q : ptr) s : result (Scheduler A) :=
  match n with
  | O => Ok s
  | S n' =>
      w ← queue s q;
      match waiters w with
      | [] => Ok s
      | waiter :: ws =>
          s ← set_entity_state fuel waiter RUNNABLE (put_queue s q (MkWQ ws (wq_locked w)));
          wake_first fuel n' q s
      end
  end.

Definition wakeMax (fuel : nat) (n : Z) (q : ptr) s : result (Scheduler A) :=
  w ← queue s q;
  _ ← check Deadlock (negb (wq_locked w));
  s ← wake_first fuel (Z.to_nat n) q (put_queue s q (MkWQ (waiters w) true));
  w ← queue s q;
  Ok (put_queue s q (MkWQ (waiters w) false)).

(** ** Choosing what runs *)

(** [Thread::activate]. *)
Definition activate (i : ptr) (prev : option ptr) s : result (bool * Scheduler A) :=
  e ← entity s i;
  _ ← cassert (bool_decide (state e = RUNNABLE));
  if bool_decide (prev = Some i) then Ok (true, s)
  else Ok (true, set_current_thread s i).

Definition schedule s : result (Scheduler A) :=
  if negb (active s) then Ok s else
  match algorithm s with
  | None => Ok s
  | Some a =>
      next ← pick_next_entity a (entities s);
      next ← match next with Some i => Ok i | None => get NullDeref (idle_entity s) end;
      s ← (if bool_decide (Some next = current s) then Ok s
           else
             '(activated, s) ← activate next (current s) s;
             if (activated : bool) then Ok (put_current s next)
             else
               idle ← get NullDeref (idle_entity s);
               '(activated, s) ← activate idle (current s) s;
               if negb activated then Err Aborted else Ok (put_current s idle));
      c ← get NullDeref (current s);
      e ← entity s c;
      Ok (put_entity s c (update_exec_start_time e (runtime (clk s))))
  end.

Definition update_accounting s : result (Scheduler A) :=
  match current s with
  | None => Ok s
  | Some c =>
      let now := runtime (clk s) in
      e ← entity s c;
      let delta := tp_sub now (exec_start_time e) in
      Ok (put_entity s c (update_exec_start_time (increment_cpu_runtime e delta) now))
  end.

(** [LAPICTimer::lapic_timer_irq_handler]. *)
Definition lapic_timer_irq_handler s : result (Scheduler A) :=
  c ← update_runtime (clk s) (ns_of_ms 10);
  s ← update_accounting (put_clock s c);
  schedule s.

(** [invoke_kernel_syscall(nr)], handled by [kernel_syscall_handler]: what the
    call does before another thread runs. *)
Definition kernel_syscall_handler (nr : Z) s : result (Scheduler A) :=
  if nr =? 1 then schedule s else Ok s.

(** ** The scheduling calls of a thread *)

Definition thread_start (fuel : nat) (i : ptr) s : result (Scheduler A) := set_entity_state fuel i RUNNABLE s.
Definition thread_wake_up (fuel : nat) (i : ptr) s : result (Scheduler A) := set_entity_state fuel i RUNNABLE s.

(** A thread that puts itself to sleep yields. *)
Definition thread_sleep (fuel : nat) (i : ptr) s : result (Scheduler A) :=
  s ← set_entity_state fuel i SLEEPING s;
  if bool_decide (current_thread s = Some i) then kernel_syscall_handler 1 s else Ok s.

(** [WakeQueue::sleep]. *)
Definition wq_sleep (fuel : nat) (q i : ptr) s : result (Scheduler A) :=
  w ← queue s q;
  _ ← check Deadlock (negb (wq_locked w));
  thread_sleep fuel i (put_queue s q (MkWQ (waiters w ++ [i]) false)).

(** [Event::wait]. *)
Definition event_wait (fuel : nat) (q : ptr) s : result (Scheduler A) :=
  i ← get NullDeref (current_thread s); wq_sleep fuel q i s.

(** [Scheduler::init], once the idle process exists: its main thread is
    [idle]. *)
Definition sched_init (schedulers : list (cstr * A)) (sched_algorithm : cstr) (idle : ptr) s
    : result (bool * Scheduler A) :=
  n ← strlen (Some sched_algorithm);
  algo ← (if n =? 0 then Ok None else search_algorithms sched_algorithm schedulers None);
  match algo with
  | None => Ok (false, MkSched (active s) (algorithm s) (current s) (Some idle) (current_thread s)
                         (entities s) (queues s) (clk s))
  | Some a =>
      let s := MkSched (active s) (Some (algorithm_init a)) (current s) (Some idle) (current_thread s)
                 (entities s) (queues s) (clk s) in
      e ← entity s idle;
      '(_, s) ← activate idle None (put_entity s idle (with_state e RUNNABLE));
      Ok (true, s)
  end.

(** [Scheduler::run], up to the loop that waits for the first interrupt. *)
Definition run s : Scheduler A :=
  MkSched true (algorithm s) (current s) (idle_entity s) (current_thread s) (entities s) (queues s) (clk s).
End scheduler.

(** ** The completely fair algorithm *)

(** [runqueue], a linked list of entities. *)
Record CompletelyFairScheduler := MkCfs { cfs_runqueue : list ptr }.

(** The loop over the run queue, with the least run time so far. *)
Fixpoint min_loop (m : gmap Z SchedulingEntity) (l : list ptr) (best : option (ptr * Duration))
    : result (option ptr) :=
  match l with
  | [] => Ok (fst <$> best)
  | i :: l' =>
      e ← get NullDeref (m !! i);
      min_loop m l'
        (match best with
         | None => Some (i, cpu_runtime e)
         | Some (_, min_runtime) =>
             if dur_lt (cpu_runtime e) min_runtime then Some (i, cpu_runtime e) else best
         end)
  end.

Definition cfs_pick_next_entity (a : CompletelyFairScheduler) (m : gmap Z SchedulingEntity)
    : result (option ptr) :=
  match cfs_runqueue a with
  | [] => Ok None
  | [i] => Ok (Some i)
  | l => min_loop m l None
  end.

Definition cfs_add_to_runqueue (a : CompletelyFairScheduler) (i : ptr) : CompletelyFairScheduler :=
  MkCfs (cfs_runqueue a ++ [i]).
Definition cfs_remove_from_runqueue (a : CompletelyFairScheduler) (i : ptr) : CompletelyFairScheduler :=
  MkCfs (remove_first i (cfs_runqueue a)).

#[export] Instance cfs_algorithm : SchedulingAlgorithm CompletelyFairScheduler := {
  pick_next_entity := cfs_pick_next_entity;
  algorithm_init := λ a, a;
  add_to_runqueue := cfs_add_to_runqueue;
  remove_from_runqueue := cfs_remove_from_runqueue }.

(** ** What the scheduler relies on *)

Class SchedulingLaws (A : Type) `{SchedulingAlgorithm A} := {
  runqueue : A → list ptr;
  add_law a i : runqueue (add_to_runqueue a i) ≡ₚ i :: runqueue a;
  remove_law a i : runqueue (remove_from_runqueue a i) ≡ₚ remove_first i (runqueue a);
  init_law a : runqueue (algorithm_init a) = runqueue a;
  pick_law a m :
    (∀ i, i ∈ runqueue a → is_Some (m !! i)) →
    ∃ o, pick_next_entity a m = Ok o ∧
      match o with None => runqueue a = [] | Some i => i ∈ runqueue a end }.

(** The minimum with the first entity in case of a tie. *)
Lemma min_loop_spec m l best :
  (∀ i, i ∈ l → is_Some (m !! i)) →
  ∃ o, min_loop m l best = Ok o ∧
    match best with
    | None => match o with None => l = [] | Some i =>
        ∃ l1 l2 e, l = l1 ++ i :: l2 ∧ m !! i = Some e ∧
          (∀ j f, j ∈ l1 → m !! j = Some f → cpu_runtime e < cpu_runtime f) ∧
          (∀ j f, j ∈ l2 → m !! j = Some f → cpu_runtime e ≤ cpu_runtime f) end
    | Some (b, r) =>
        (o = Some b ∧ ∀ j f, j ∈ l → m !! j = Some f → r ≤ cpu_runtime f) ∨
        (∃ i l1 l2 e, o = Some i ∧ l = l1 ++ i :: l2 ∧ m !! i = Some e ∧ cpu_runtime e < r ∧
          (∀ j f, j ∈ l1 → m !! j = Some f → cpu_runtime e < cpu_runtime f) ∧
          (∀ j f, j ∈ l2 → m !! j = Some f → cpu_runtime e ≤ cpu_runtime f))
    end.
Proof.
  revert best. induction l as [|i l IH]; intros best Hex; simpl.
  - exists (fst <$> best). split; [done|]. destruct best as [[b r]|]; [|done].
    left. split; [done|]. intros j f Hj. by apply elem_of_nil in Hj.
  - destruct (Hex i) as [e He]; [apply list_elem_of_here|]. rewrite He. ok_step.
    assert (∀ j, j ∈ l → is_Some (m !! j)) as Hex' by (intros; apply Hex; by apply list_elem_of_further).
    destruct best as [[b r]|]; [unfold dur_lt; destruct (Z.ltb_spec (cpu_runtime e) r)|].
    + destruct (IH (Some (i, cpu_runtime e)) Hex') as (o & -> & [[-> Ho]|(k & l1 & l2 & g & -> & -> & Hg & Hlt & H1 & H2)]);
        (eexists; split; [reflexivity|]; right).
      * exists i, [], l, e. split_and!; try done. intros j f Hj. by apply elem_of_nil in Hj.
      * exists k, (i :: l1), l2, g. split_and!; try done; [lia|].
        intros j f [->|Hj]%elem_of_cons Hf; [simplify_eq; lia|eauto].
    + destruct (IH (Some (b, r)) Hex') as (o & -> & [[-> Ho]|(k & l1 & l2 & g & -> & -> & Hg & Hlt & H1 & H2)]);
        (eexists; split; [reflexivity|]).
      * left. split; [done|]. intros j f [->|Hj]%elem_of_cons Hf; [simplify_eq; lia|eauto].
      * right. exists k, (i :: l1), l2, g. split_and!; try done.
        intros j f [->|Hj]%elem_of_cons Hf; [simplify_eq; lia|eauto].
    + destruct (IH (Some (i, cpu_runtime e)) Hex') as (o & -> & [[-> Ho]|(k & l1 & l2 & g & -> & -> & Hg & Hlt & H1 & H2)]);
        (eexists; split; [reflexivity|]).
      * exists [], l, e. split_and!; try done. intros j f Hj. by apply elem_of_nil in Hj.
      * exists (i :: l1), l2, g. split_and!; try done.
        intros j f [->|Hj]%elem_of_cons Hf; [simplify_eq; lia|eauto].
Qed.

(** [i] has the least run time of [l], and is the first with that run time. *)
Definition first_minimum (m : gmap Z SchedulingEntity) (l : list ptr) (i : ptr) : Prop :=
  ∃ l1 l2 e, l = l1 ++ i :: l2 ∧ m !! i = Some e ∧
    (∀ j f, j ∈ l1 → m !! j = Some f → cpu_runtime e < cpu_runtime f) ∧
    (∀ j f, j ∈ l2 → m !! j = Some f → cpu_runtime e ≤ cpu_runtime f).

Lemma cfs_pick_spec a m :
  (∀ i, i ∈ cfs_runqueue a → is_Some (m !! i)) →
  ∃ o, cfs_pick_next_entity a m = Ok o ∧
    match o with None => cfs_runqueue a = [] | Some i => first_minimum m (cfs_runqueue a) i end.
Proof.
  intros Hex. unfold cfs_pick_next_entity. destruct (cfs_runqueue a) as [|i [|j l]].
  - by exists None.
  - destruct (Hex i) as [e He]; [apply list_elem_of_here|].
    exists (Some i). split; [done|]. exists [], [], e.
    split_and!; try done; intros k f Hk; by apply elem_of_nil in Hk.
  - destruct (min_loop_spec m (i :: j :: l) None Hex) as ([k|] & Hr & Ho); [|done].
    by exists (Some k).
Qed.

#[export] Program Instance cfs_laws : SchedulingLaws CompletelyFairScheduler := {
  runqueue := cfs_runqueue }.
Next Obligation. intros a i. simpl. symmetry. apply Permutation_cons_append. Qed.
Next Obligation. done. Qed.
Next Obligation. done. Qed.
Next Obligation.
  intros a m Hex. destruct (cfs_pick_spec a m Hex) as ([i|] & Hr & Ho); eexists; (split; [exact Hr|]).
  - destruct Ho as (l1 & l2 & e & -> & _). apply elem_of_app. right. apply list_elem_of_here.
  - done.
Qed.

(** ** The invariant *)

Lemma elem_of_remove_first (i j : Z) l : NoDup l → j ∈ remove_first i l ↔ j ∈ l ∧ j ≠ i.
Proof.
  induction 1 as [|k l Hk Hl IH]; simpl; [set_solver|].
  destruct (decide (k = i)) as [->|Hne]; [set_solver|].
  rewrite !elem_of_cons, IH. naive_solver.
Qed.

Lemma NoDup_remove_first (i : Z) l : NoDup l → NoDup (remove_first i l).
Proof.
  induction 1 as [|k l Hk Hl IH]; simpl; [constructor|].
  destruct (decide (k = i)) as [->|Hne]; [done|].
  constructor; [|done]. rewrite elem_of_remove_first by done. naive_solver.
Qed.

Section invariant.
Context {A : Type} `{SchedulingLaws A}.
Implicit Type s : Scheduler A.

(** The run queue holds the entities that are not waiting, once each; the idle
    entity is RUNNABLE and outside the queue.  No operation of the kernel
    puts an entity into RUNNING.  Every event has its wake queue, no two
    entities share one, and the waiters are threads other than the idle one. *)
Record sched_inv s : Prop := {
  inv_queue : ∃ a, algorithm s = Some a ∧ NoDup (runqueue a) ∧
    ∀ i, i ∈ runqueue a ↔
      idle_entity s ≠ Some i ∧ ∃ e, entities s !! i = Some e ∧ waits (state e) = false;
  inv_idle : ∃ d e, idle_entity s = Some d ∧ entities s !! d = Some e ∧ state e = RUNNABLE;
  inv_running i e : entities s !! i = Some e → state e ≠ RUNNING;
  inv_event i e : entities s !! i = Some e → is_Some (queues s !! state_changed e);
  inv_apart i j e f : entities s !! i = Some e → entities s !! j = Some f →
    state_changed e = state_changed f → i = j;
  inv_waiter q w x : queues s !! q = Some w → x ∈ waiters w →
    is_Some (entities s !! x) ∧ idle_entity s ≠ Some x;
  inv_current c : current s = Some c → current_thread s = Some c ∧ is_Some (entities s !! c) }.

Lemma inv_put_queue s q w :
  sched_inv s → (∀ x, x ∈ waiters w → is_Some (entities s !! x) ∧ idle_entity s ≠ Some x) →
  sched_inv (put_queue s q w).
Proof.
  intros I Hw. destruct I as [I1 I2 I3 I4 I5 I6 I7]. constructor; try done; simpl.
  - intros i e He. apply I4 in He. rewrite lookup_insert_is_Some'. by right.
  - intros k v x. rewrite lookup_insert_Some. intros [[<- <-]|[_ Hk]]; [apply Hw|by eapply I6].
Qed.

(** Locking a queue, unlocking it, or taking waiters out. *)
Lemma inv_requeue s q w w' :
  sched_inv s → queues s !! q = Some w → waiters w' ⊆ waiters w → sched_inv (put_queue s q w').
Proof.
  intros I Hq Hsub. apply inv_put_queue; [done|]. intros x Hx. by eapply (inv_waiter s I q w), Hsub.
Qed.

Lemma update_runqueue_spec i old new a a' :
  NoDup (runqueue a) → new ≠ RUNNING → old ≠ new → (i ∈ runqueue a ↔ waits old = false) →
  update_runqueue i old new a = Ok a' →
  NoDup (runqueue a') ∧ (i ∈ runqueue a' ↔ waits new = false) ∧
  ∀ j, j ≠ i → j ∈ runqueue a' ↔ j ∈ runqueue a.
Proof.
  intros Hnd Hnew Hne Hi Hu.
  assert (waits old = waits new ∧ a' = a ∨ waits new = false ∧ waits old = true ∧ a' = add_to_runqueue a i ∨
          waits new = true ∧ waits old = false ∧ a' = remove_from_runqueue a i) as Hcases.
  { destruct old, new; simpl in Hu; inv_result; intuition congruence. }
  destruct Hcases as [[E ->]|[(E1 & E2 & ->)|(E1 & E2 & ->)]].
  - rewrite <- E. done.
  - pose proof (add_law a i) as P. rewrite P. split_and!.
    + constructor; [|done]. intros Hin. apply Hi in Hin. congruence.
    + rewrite E1. split; [done|]. intros _. apply list_elem_of_here.
    + intros j Hj. rewrite P. set_solver.
  - pose proof (remove_law a i) as P. rewrite P. split_and!.
    + by apply NoDup_remove_first.
    + rewrite elem_of_remove_first by done. rewrite E1. naive_solver.
    + intros j Hj. rewrite P, elem_of_remove_first by done. naive_solver.
Qed.

Lemma inv_set_state s i e st a a' :
  sched_inv s → algorithm s = Some a → entities s !! i = Some e → idle_entity s ≠ Some i →
  st ≠ RUNNING → state e ≠ st → update_runqueue i (state e) st a = Ok a' →
  sched_inv (put_entity (put_algorithm s a') i (with_state e st)).
Proof.
  intros I Ha He Hid Hst Hne Hu. destruct I as [(b & Hb & Hnd & Hq) (d & f & Hd & Hf & Hfr) I3 I4 I5 I6 I7].
  rewrite Ha in Hb. injection Hb as <-.
  destruct (update_runqueue_spec i (state e) st a a') as (N & Mi & Mo); [done..| |done|].
  { rewrite Hq. naive_solver. }
  constructor; simpl.
  - exists a'. split_and!; [done..|]. intros j. destruct (decide (j = i)) as [->|Hji].
    + rewrite lookup_insert_eq, Mi. naive_solver.
    + rewrite lookup_insert_ne, Mo, Hq by done. done.
  - exists d, f. rewrite lookup_insert_ne by congruence. done.
  - intros j g. rewrite lookup_insert_Some. intros [[<- <-]|[_ Hg]]; [done|by eapply I3].
  - intros j g. rewrite lookup_insert_Some. intros [[<- <-]|[_ Hg]]; [exact (I4 i e He)|by eapply I4].
  - intros j k g h. rewrite !lookup_insert_Some.
    intros [[<- <-]|[_ Hg]] [[<- <-]|[_ Hh]]; simpl; eauto.
  - intros q w x Hw Hx. rewrite lookup_insert_is_Some'. destruct (I6 q w x Hw Hx). auto.
  - intros c Hc. rewrite lookup_insert_is_Some'. destruct (I7 c Hc). auto.
Qed.

Lemma set_entity_state_with_inv trig i st s s' :
  (∀ q t t', sched_inv t → trig q t = Ok t' → sched_inv t') →
  sched_inv s → idle_entity s ≠ Some i → st ≠ RUNNING →
  set_entity_state_with trig i st s = Ok s' → sched_inv s'.
Proof.
  intros Ht I Hid Hst Hr. unfold set_entity_state_with, entity in Hr.
  inv_result. case_bool_decide; inv_result; [done|].
  eapply Ht; [|done]. by eapply inv_set_state.
Qed.

(** The idle entity and the current thread stay. *)
Definition same_roles s s' : Prop :=
  idle_entity s' = idle_entity s ∧ current s' = current s ∧ current_thread s' = current_thread s ∧
  active s' = active s ∧ clk s' = clk s ∧ (∀ i, is_Some (entities s !! i) → is_Some (entities s' !! i)) ∧
  (∀ q, is_Some (queues s !! q) → is_Some (queues s' !! q)).

Lemma same_roles_refl s : same_roles s s.
Proof. unfold same_roles. naive_solver. Qed.
Lemma same_roles_trans s1 s2 s3 : same_roles s1 s2 → same_roles s2 s3 → same_roles s1 s3.
Proof.
  intros (A1 & A2 & A3 & A4 & A5 & A6 & A7) (B1 & B2 & B3 & B4 & B5 & B6 & B7).
  unfold same_roles. split_and!; try congruence; auto.
Qed.

Lemma same_roles_put_queue s q w : same_roles s (put_queue s q w).
Proof.
  unfold same_roles. simpl. split_and!; auto.
  intros k Hk. rewrite lookup_insert_is_Some'. auto.
Qed.

Lemma same_roles_set s i e a : same_roles s (put_entity (put_algorithm s a) i e).
Proof.
  unfold same_roles. simpl. split_and!; auto.
  intros k Hk. rewrite lookup_insert_is_Some'. auto.
Qed.

Lemma set_entity_state_with_roles trig i st s s' :
  (∀ q t t', trig q t = Ok t' → same_roles t t') →
  set_entity_state_with trig i st s = Ok s' → same_roles s s'.
Proof.
  intros Ht Hr. unfold set_entity_state_with, entity in Hr.
  inv_result. case_bool_decide; inv_result; [apply same_roles_refl|].
  eapply same_roles_trans; [apply same_roles_set|by eapply Ht].
Qed.

Lemma wake_roles fuel q s s' : wake fuel q s = Ok s' → same_roles s s'.
Proof.
  revert q s s'. induction fuel as [|fuel IH]; intros q s s' Hr; simpl in Hr; [done|].
  unfold queue in Hr. inv_result.
  eapply same_roles_trans; [|apply same_roles_put_queue].
  eapply (for_each_inv (same_roles s)); [| |done].
  - apply same_roles_put_queue.
  - intros x t t2 _ Hst Hrun. eapply same_roles_trans; [done|].
    eapply set_entity_state_with_roles; [exact IH|exact Hrun].
Qed.

Lemma wake_inv fuel q s s' : sched_inv s → wake fuel q s = Ok s' → sched_inv s'.
Proof.
  revert q s s'. induction fuel as [|fuel IH]; intros q s s' I Hr; simpl in Hr; [done|].
  unfold queue in Hr. inv_result.
  apply inv_put_queue; [|intros x Hx; by apply elem_of_nil in Hx].
  match goal with H : for_each _ _ _ = Ok ?t |- sched_inv ?t =>
    apply (for_each_inv (λ t, sched_inv t ∧ idle_entity t = idle_entity s)) in H; [exact (proj1 H)|..] end.
  - split; [|done]. by eapply inv_requeue.
  - intros x t t2 Hx [It Hid] Hrun. split.
    + apply (set_entity_state_with_inv (wake fuel) x RUNNABLE t t2 IH It); [|done|exact Hrun].
      rewrite Hid. by eapply (inv_waiter s I).
    + destruct (set_entity_state_with_roles (wake fuel) x RUNNABLE t t2 (wake_roles fuel) Hrun) as (E & _).
      congruence.
Qed.

Lemma set_entity_state_inv fuel i st s s' :
  sched_inv s → idle_entity s ≠ Some i → st ≠ RUNNING →
  set_entity_state fuel i st s = Ok s' → sched_inv s' ∧ same_roles s s'.
Proof.
  intros I Hid Hst Hr. split.
  - eapply set_entity_state_with_inv; [|done..]. intros q t t'. apply wake_inv.
  - eapply set_entity_state_with_roles; [|done]. intros q t t'. apply wake_roles.
Qed.

Lemma wake_first_inv fuel n q s s' :
  sched_inv s → wake_first fuel n q s = Ok s' → sched_inv s' ∧ same_roles s s'.
Proof.
  revert s. induction n as [|n IH]; intros s I Hr; simpl in Hr; [inv_result; split; [done|apply same_roles_refl]|].
  unfold queue in Hr. inv_result. destruct (waiters a) as [|x ws] eqn:Ews; inv_result.
  { split; [done|apply same_roles_refl]. }
  match goal with H : set_entity_state _ _ _ _ = Ok _ |- _ => apply set_entity_state_inv in H as [I' R'] end; [| | |done].
  - destruct (IH _ I' Hr) as [I'' R'']. split; [done|].
    eapply same_roles_trans; [apply same_roles_put_queue|]. by eapply same_roles_trans.
  - eapply inv_requeue; [done..|]. simpl. rewrite Ews. set_solver.
  - simpl. eapply (inv_waiter s I); [done|]. rewrite Ews. apply list_elem_of_here.
Qed.

Lemma wakeMax_inv fuel n q s s' :
  sched_inv s → wakeMax fuel n q s = Ok s' → sched_inv s' ∧ same_roles s s'.
Proof.
  intros I Hr. unfold wakeMax, queue in Hr. inv_result.
  match goal with H : wake_first _ _ _ _ = Ok _ |- _ => apply wake_first_inv in H as [I' R'] end.
  - split.
    + by eapply inv_requeue.
    + eapply same_roles_trans; [|apply same_roles_put_queue].
      eapply same_roles_trans; [apply same_roles_put_queue|done].
  - by eapply inv_requeue.
Qed.

(** ** Scheduling *)

(** An entity of [s] may change its run time and its start time. *)
Lemma inv_put_times s i e f :
  sched_inv s → entities s !! i = Some e → state f = state e → state_changed f = state_changed e →
  sched_inv (put_entity s i f).
Proof.
  intros I He Es Ec. destruct I as [(a & Ha & Hnd & Hq) (d & g & Hd & Hg & Hgr) I3 I4 I5 I6 I7].
  constructor; simpl.
  - exists a. split_and!; [done..|]. intros j. rewrite Hq. destruct (decide (j = i)) as [->|Hji].
    + rewrite lookup_insert_eq. split; intros [Hn (h & Hh & Hw)]; (split; [done|]); simplify_eq; eexists;
        (split; [done|]); congruence.
    + by rewrite lookup_insert_ne.
  - destruct (decide (i = d)) as [->|]; [exists d, f; rewrite lookup_insert_eq; split_and!; congruence|].
    exists d, g. by rewrite lookup_insert_ne.
  - intros j h. rewrite lookup_insert_Some. intros [[<- <-]|[_ Hh]]; [rewrite Es; by eapply I3|by eapply I3].
  - intros j h. rewrite lookup_insert_Some. intros [[<- <-]|[_ Hh]]; [rewrite Ec; by eapply I4|by eapply I4].
  - intros j k h h'. rewrite !lookup_insert_Some.
    intros [[<- <-]|[_ Hh]] [[<- <-]|[_ Hh']]; rewrite ?Ec; eauto.
  - intros q w x Hw Hx. rewrite lookup_insert_is_Some'. destruct (I6 q w x Hw Hx). auto.
  - intros c Hc. rewrite lookup_insert_is_Some'. destruct (I7 c Hc). auto.
Qed.

Lemma update_accounting_inv s :
  sched_inv s → ∃ s', update_accounting s = Ok s' ∧ sched_inv s' ∧ same_roles s s' ∧ algorithm s' = algorithm s.
Proof.
  intros I. unfold update_accounting. destruct (current s) as [c|] eqn:Ec.
  - destruct (inv_current s I c Ec) as [_ [e He]]. unfold entity. rewrite He. ok_step.
    eexists. split_and!; [reflexivity|by eapply inv_put_times| |done].
    unfold same_roles. simpl. split_and!; auto. intros k Hk. rewrite lookup_insert_is_Some'. auto.
  - exists s. split_and!; [done..|apply same_roles_refl|done].
Qed.

(** What runs after [schedule]. *)
Record dispatched s s' (c : ptr) (a : A) : Prop := {
  disp_current : current s' = Some c;
  disp_thread : current_thread s' = Some c;
  disp_choice : c ∈ runqueue a ∨ runqueue a = [] ∧ idle_entity s = Some c;
  disp_state : ∃ e, entities s !! c = Some e ∧ state e = RUNNABLE ∧
    entities s' = <[c := update_exec_start_time e (runtime (clk s))]> (entities s);
  disp_rest : algorithm s' = Some a ∧ idle_entity s' = idle_entity s ∧ active s' = true ∧
    queues s' = queues s ∧ clk s' = clk s }.

Lemma inv_put_current s i :
  sched_inv s → is_Some (entities s !! i) → sched_inv (put_current (set_current_thread s i) i).
Proof. intros [I1 I2 I3 I4 I5 I6 I7] Hi. constructor; try done. simpl. by intros c [= <-]. Qed.

Lemma schedule_spec s a :
  sched_inv s → active s = true → algorithm s = Some a →
  ∃ s' c, schedule s = Ok s' ∧ sched_inv s' ∧ dispatched s s' c a ∧
    pick_next_entity a (entities s) = Ok (if bool_decide (c ∈ runqueue a) then Some c else None).
Proof.
  intros I Hact Ha. unfold schedule. rewrite Hact, Ha. simpl.
  destruct (inv_queue s I) as (b & Hb & Hnd & Hq). rewrite Ha in Hb. injection Hb as <-.
  destruct (inv_idle s I) as (d & g & Hd & Hg & Hgr).
  destruct (pick_law a (entities s)) as (o & -> & Ho).
  { intros i Hi. apply Hq in Hi as (_ & e & He & _). by eexists. }
  rewrite bind_Ok.
  assert (∃ c, match o with Some i => Ok i | None => get NullDeref (idle_entity s) end = Ok c ∧
    (c ∈ runqueue a ∨ runqueue a = [] ∧ idle_entity s = Some c) ∧
    o = (if bool_decide (c ∈ runqueue a) then Some c else None) ∧
    ∃ e, entities s !! c = Some e ∧ state e = RUNNABLE) as (c & -> & Hc & Hpick & e & He & Hrun).
  { destruct o as [c|].
    - exists c. rewrite bool_decide_true by done. split_and!; [done|by left|done|].
      apply Hq in Ho as (_ & e & He & Hw). exists e. split; [done|].
      pose proof (inv_running s I c e He). by destruct (state e).
    - exists d. rewrite Hd. rewrite Ho. rewrite bool_decide_false by apply not_elem_of_nil.
      split_and!; eauto. }
  rewrite bind_Ok.
  assert (∃ t, (if bool_decide (Some c = current s) then Ok s
           else '(activated, s0) ← activate c (current s) s;
             (if (activated : bool) then Ok (put_current s0 c)
             else idle ← get NullDeref (idle_entity s0);
               '(activated0, s1) ← activate idle (current s0) s0;
               if negb activated0 then Err Aborted else Ok (put_current s1 idle))) = Ok t ∧
    sched_inv t ∧ current t = Some c ∧ current_thread t = Some c ∧ entities t = entities s ∧
    algorithm t = Some a ∧ idle_entity t = idle_entity s ∧ active t = true ∧ queues t = queues s ∧ clk t = clk s)
    as (t & -> & It & T1 & T2 & T3 & T4 & T5 & T6 & T7 & T8).
  { destruct (bool_decide_reflect (Some c = current s)) as [E|E].
    - exists s. destruct (inv_current s I c) as [Hn _]; [done|].
      split_and!; solve [done|congruence].
    - unfold activate, entity. rewrite He. ok_step. rewrite Hrun, (bool_decide_true _ eq_refl).
      cbn [check]. rewrite bind_Ok, bool_decide_false by (intros E'; by apply E). simpl.
      eexists. split_and!; [reflexivity|by apply inv_put_current|done..]. }
  rewrite bind_Ok, T1. ok_step. unfold entity. rewrite T3, He. ok_step. rewrite T8.
  eexists _, c. split_and!; [reflexivity| | |by rewrite Hpick].
  - eapply inv_put_times; [done|by rewrite T3|done..].
  - constructor; simpl; try done. { exists e. by rewrite T3. }
Qed.

Lemma inv_put_clock s c : sched_inv s → sched_inv (put_clock s c).
Proof. intros [I1 I2 I3 I4 I5 I6 I7]. by constructor. Qed.

Lemma schedule_inv s s' : sched_inv s → schedule s = Ok s' → sched_inv s'.
Proof.
  intros I Hr. destruct (active s) eqn:Ea.
  - destruct (inv_queue s I) as (a & Ha & _).
    destruct (schedule_spec s a I Ea Ha) as (t & c & Ht & It & _).
    rewrite Ht in Hr. by injection Hr as <-.
  - unfold schedule in Hr. rewrite Ea in Hr. simpl in Hr. by inv_result.
Qed.

Lemma tick_inv s s' : sched_inv s → lapic_timer_irq_handler s = Ok s' → sched_inv s'.
Proof.
  intros I Hr. unfold lapic_timer_irq_handler in Hr. inv_result.
  destruct (update_accounting_inv (put_clock s a)) as (t & Ht & It & _); [by apply inv_put_clock|].
  match goal with H : update_accounting _ = _ |- _ => rewrite Ht in H; injection H as <- end. by eapply schedule_inv.
Qed.

Lemma wq_sleep_inv fuel q i s s' :
  sched_inv s → idle_entity s ≠ Some i → is_Some (entities s !! i) →
  wq_sleep fuel q i s = Ok s' → sched_inv s'.
Proof.
  intros I Hid Hi Hr. unfold wq_sleep, queue, thread_sleep in Hr. inv_result.
  match goal with H : set_entity_state _ _ _ _ = Ok ?t |- _ =>
    assert (sched_inv t) as It; [eapply set_entity_state_inv in H as [It _]; [exact It|..]|] end; [|done..|].
  - apply inv_put_queue; [done|]. intros x [Hx| ->%list_elem_of_singleton]%elem_of_app; [|done].
    by eapply (inv_waiter s I).
  - case_bool_decide; inv_result; [by eapply schedule_inv|done].
Qed.

Lemma inv_create s i q p :
  sched_inv s → entities s !! i = None → queues s !! q = None →
  sched_inv (put_entity (put_queue s q (MkWQ [] false)) i (new_entity p q)).
Proof.
  intros I Hi Hq. destruct I as [(a & Ha & Hnd & Hrq) (d & g & Hd & Hg & Hgr) I3 I4 I5 I6 I7].
  assert (∀ j e, entities s !! j = Some e → state_changed e ≠ q) as Hfresh.
  { intros j e He <-. destruct (I4 j e He). congruence. }
  constructor; simpl.
  - exists a. split_and!; [done..|]. intros j. rewrite Hrq. destruct (decide (j = i)) as [->|].
    + rewrite lookup_insert_eq, Hi. naive_solver.
    + by rewrite lookup_insert_ne.
  - exists d, g. rewrite lookup_insert_ne by congruence. done.
  - intros j e. rewrite lookup_insert_Some. intros [[<- <-]|[_ He]]; [done|by eapply I3].
  - intros j e. rewrite lookup_insert_Some, lookup_insert_is_Some'.
    intros [[<- <-]|[_ He]]; [by left|right; exact (I4 j e He)].
  - intros j k e f. rewrite !lookup_insert_Some.
    intros [[<- <-]|[_ He]] [[<- <-]|[_ Hf]] E; simpl in E; try done.
    + by apply Hfresh in Hf.
    + by apply Hfresh in He.
    + by eapply I5.
  - intros k w x. rewrite lookup_insert_Some, lookup_insert_is_Some'.
    intros [[<- <-]|[_ Hw]] Hx; [by apply elem_of_nil in Hx|]. destruct (I6 k w x Hw Hx). auto.
  - intros c Hc. rewrite lookup_insert_is_Some'. destruct (I7 c Hc). auto.
Qed.

(** ** Histories *)

(** One operation on the scheduler: a thread or an event is made, a thread is
    started, stopped or put to sleep on a queue, an event wakes its waiters, a
    timer interrupt arrives, or the current thread yields. *)
Inductive step s : Scheduler A → Prop :=
| step_thread i q p : entities s !! i = None → queues s !! q = None →
    step s (put_entity (put_queue s q (MkWQ [] false)) i (new_entity p q))
| step_event q : queues s !! q = None → step s (put_queue s q (MkWQ [] false))
| step_start fuel i s' : idle_entity s ≠ Some i → thread_start fuel i s = Ok s' → step s s'
| step_stop fuel i s' : idle_entity s ≠ Some i → set_entity_state fuel i STOPPED s = Ok s' → step s s'
| step_trigger fuel q s' : trigger fuel q s = Ok s' → step s s'
| step_wakeMax fuel n q s' : wakeMax fuel n q s = Ok s' → step s s'
| step_sleep fuel q i s' : idle_entity s ≠ Some i → is_Some (entities s !! i) →
    wq_sleep fuel q i s = Ok s' → step s s'
| step_run : step s (run s)
| step_tick s' : lapic_timer_irq_handler s = Ok s' → step s s'
| step_yield s' : kernel_syscall_handler 1 s = Ok s' → step s s'.

Lemma step_inv s s' : step s s' → sched_inv s → sched_inv s'.
Proof.
  intros Hstep I. destruct Hstep.
  - by apply inv_create.
  - apply inv_put_queue; [done|]. intros x Hx. by apply elem_of_nil in Hx.
  - by eapply (set_entity_state_inv fuel i RUNNABLE s).
  - by eapply (set_entity_state_inv fuel i STOPPED s).
  - by eapply wake_inv.
  - by eapply wakeMax_inv.
  - by eapply wq_sleep_inv.
  - destruct I as [I1 I2 I3 I4 I5 I6 I7]. by constructor.
  - by eapply tick_inv.
  - by eapply schedule_inv.
Qed.

(** The kernel when [Scheduler::init] has made the idle process: one thread,
    with its event. *)
Definition booting (idle q : ptr) (c : clock) : Scheduler A :=
  MkSched false None None None None
    {[ idle := new_entity SchedulingEntityPriority.NORMAL q ]} {[ q := MkWQ [] false ]} c.

Lemma search_algorithms_in name (l : list (cstr * A)) o a :
  search_algorithms name l o = Ok (Some a) → o = Some a ∨ a ∈ l.*2.
Proof.
  revert o. induction l as [|[n b] l IH]; intros o Hr; cbn [search_algorithms] in Hr; [left; by inv_result|].
  apply bind_Ok_inv in Hr as (k & _ & Hr). apply IH in Hr as [E|?]; [|set_solver].
  case_match; simplify_eq; set_solver.
Qed.

Lemma sched_init_inv schedulers name idle q c s :
  Forall (λ a, runqueue a = []) schedulers.*2 →
  sched_init schedulers name idle (booting idle q c) = Ok (true, s) → sched_inv s.
Proof.
  intros Hall Hr. unfold sched_init in Hr. inv_result.
  destruct a0 as [alg|]; [|by inv_result].
  assert (runqueue alg = []) as Hempty.
  { rewrite Forall_forall in Hall. apply Hall. case_match; inv_result.
    match goal with H : search_algorithms _ _ _ = _ |- _ => by apply search_algorithms_in in H as [?|?] end. }
  unfold entity, activate, booting, with_state, new_entity in Hr. simpl in Hr.
  rewrite lookup_singleton_eq in Hr. cbn [get] in Hr. rewrite bind_Ok in Hr. simpl in Hr.
  unfold entity in Hr. simpl in Hr. rewrite lookup_insert_eq in Hr. simpl in Hr. injection Hr as <-.
  constructor; simpl.
  - exists (algorithm_init alg). rewrite init_law, Hempty. split_and!; [done|constructor|].
    intros i. rewrite elem_of_nil, insert_singleton_eq. split; [done|].
    intros [Hn (e & He & _)]. by apply lookup_singleton_Some in He as [<- _].
  - eexists idle, _. split; [done|]. by rewrite lookup_insert_eq.
  - intros i e. rewrite insert_singleton_eq, lookup_singleton_Some. by intros [_ <-].
  - intros i e. rewrite insert_singleton_eq, lookup_singleton_Some. intros [_ <-]. simpl.
    rewrite lookup_singleton_eq. by eexists.
  - intros i j e f. rewrite !insert_singleton_eq, !lookup_singleton_Some. naive_solver.
  - intros k w x. rewrite lookup_singleton_Some. intros [_ <-] Hx. by apply elem_of_nil in Hx.
  - done.
Qed.
End invariant.

(** ** Termination of wake-ups *)

Lemma set_entity_state_step {A} `{SchedulingAlgorithm A} trig (s : Scheduler A) i st a e :
  algorithm s = Some a → entities s !! i = Some e → state e ≠ st → st ≠ RUNNING →
  ∃ a', set_entity_state_with trig i st s =
    trig (state_changed e) (put_entity (put_algorithm s a') i (with_state e st)).
Proof.
  intros Ha He Hne Hst. unfold set_entity_state_with, entity. rewrite Ha, He. cbn [get]. rewrite !bind_Ok.
  rewrite bool_decide_false by done.
  assert (∃ a', update_runqueue i (state e) st a = Ok a') as [a' ->] by (destruct st; simpl; eauto; done).
  by exists a'.
Qed.

Lemma set_entity_state_err {A} `{SchedulingAlgorithm A} trig (s : Scheduler A) i st a e f :
  algorithm s = Some a → entities s !! i = Some e → state e ≠ st → st ≠ RUNNING →
  (∀ a', trig (state_changed e) (put_entity (put_algorithm s a') i (with_state e st)) = Err f) →
  set_entity_state_with trig i st s = Err f.
Proof. intros Ha He Hne Hst Hf. destruct (set_entity_state_step trig s i st a e) as [a' ->]; auto. Qed.

Lemma wake_one_err {A} `{SchedulingAlgorithm A} fuel q x (s : Scheduler A) f :
  queues s !! q = Some (MkWQ [x] false) →
  set_entity_state_with (wake fuel) x RUNNABLE (put_queue s q (MkWQ [x] true)) = Err f →
  wake (S fuel) q s = Err f.
Proof. intros Hq Hr. cbn [wake]. unfold queue. rewrite Hq. simpl. by rewrite Hr. Qed.

Lemma wake_locked {A} `{SchedulingAlgorithm A} fuel q ws (s : Scheduler A) :
  queues s !! q = Some (MkWQ ws true) → wake (S fuel) q s = Err Deadlock.
Proof. intros Hq. cbn [wake]. unfold queue. by rewrite Hq. Qed.

Section wakeups.
Context {A : Type} `{SchedulingLaws A}.
Implicit Types s t u : Scheduler A.

(** [rank] decreases along the wait-for relation: a thread ranks below the
    thread whose event it waits for. *)
Context (rank : ptr → nat).

Definition ranked s : Prop := ∀ i e w x,
  entities s !! i = Some e → queues s !! state_changed e = Some w → x ∈ waiters w → (rank x < rank i)%nat.

(** The events of the threads that rank below [n] can be triggered while [q] is
    locked. *)
Definition free_below (n : nat) (q : ptr) s : Prop := ∀ j e w,
  entities s !! j = Some e → (rank j < n)%nat → queues s !! state_changed e = Some w →
  state_changed e ≠ q ∧ wq_locked w = false.

(** From [s] to [t] some threads below [n] have become RUNNABLE and some queues
    have been emptied. *)
Record woken (n : nat) s t : Prop := {
  wok_entity j : entities t !! j = entities s !! j ∨
    ∃ e, (rank j < n)%nat ∧ entities s !! j = Some e ∧ entities t !! j = Some (with_state e RUNNABLE);
  wok_queue k : queues t !! k = queues s !! k ∨
    ∃ w, queues s !! k = Some w ∧ queues t !! k = Some (MkWQ [] false) }.

Lemma woken_refl n s : woken n s s.
Proof. constructor; auto. Qed.

Lemma woken_mono n m s t : (n ≤ m)%nat → woken n s t → woken m s t.
Proof.
  intros Hle [W1 W2]. constructor; [|done].
  intros j. destruct (W1 j) as [?|(e & ? & ?)]; [by left|right; exists e; split; [lia|done]].
Qed.

Lemma woken_trans n s t u : woken n s t → woken n t u → woken n s u.
Proof.
  intros [W1 W2] [V1 V2]. constructor.
  - intros j. destruct (V1 j) as [->|(f & Hr & Hf & Hu)]; [done|].
    destruct (W1 j) as [E|(e & Hr' & He & Ht)]; right; [rewrite E in Hf; by exists f|].
    exists e. split_and!; [done..|]. rewrite Hu. rewrite Ht in Hf. by injection Hf as <-.
  - intros k. destruct (V2 k) as [->|(w & Hw & Hu)]; [done|].
    destruct (W2 k) as [E|(v & Hv & Ht)]; right; [rewrite E in Hw; by exists w|by exists v].
Qed.

Lemma woken_ranked n s t : woken n s t → ranked s → ranked t.
Proof.
  intros [W1 W2] Hrk i e w x He Hw Hx.
  assert (∃ f, entities s !! i = Some f ∧ state_changed f = state_changed e) as (f & Hf & Ef).
  { destruct (W1 i) as [E|(f & _ & Hf & E)]; rewrite E in He; [by exists e|]. injection He as <-. by exists f. }
  rewrite <- Ef in Hw. destruct (W2 (state_changed f)) as [E|(v & _ & E)]; rewrite E in Hw; [by eapply Hrk|].
  injection Hw as <-. by apply elem_of_nil in Hx.
Qed.

Lemma woken_free n m q s t : woken n s t → free_below m q s → free_below m q t.
Proof.
  intros [W1 W2] Hfr j e w He Hj Hw.
  assert (∃ f, entities s !! j = Some f ∧ state_changed f = state_changed e) as (f & Hf & Ef).
  { destruct (W1 j) as [E|(f & _ & Hf & E)]; rewrite E in He; [by exists e|]. injection He as <-. by exists f. }
  rewrite <- Ef in Hw |- *.
  destruct (W2 (state_changed f)) as [E|(v & Hv & E)]; rewrite E in Hw; [by eapply Hfr|].
  injection Hw as <-. by destruct (Hfr j f v Hf Hj Hv).
Qed.

Definition runnable (i : ptr) s : Prop := ∃ e, entities s !! i = Some e ∧ state e = RUNNABLE.

Lemma woken_runnable n s t i : woken n s t → runnable i s → runnable i t.
Proof.
  intros [W1 _] (e & He & Hr). destruct (W1 i) as [E|(f & _ & Hf & E)].
  - exists e. by rewrite E.
  - by eexists (with_state f RUNNABLE).
Qed.

(** One turn of the loop of [wake], given what the recursive call does. *)
Lemma wake_up_total fuel n q s x :
  (∀ k t w, sched_inv t → ranked t → queues t !! k = Some w → wq_locked w = false →
     (∀ y, y ∈ waiters w → (rank y < rank x)%nat) → free_below (rank x) k t →
     ∃ t', wake fuel k t = Ok t' ∧ woken (rank x) t t') →
  sched_inv s → ranked s → idle_entity s ≠ Some x → is_Some (entities s !! x) →
  (rank x < n)%nat → free_below n q s →
  ∃ s', set_entity_state_with (wake fuel) x RUNNABLE s = Ok s' ∧ woken n s s' ∧ runnable x s'.
Proof.
  intros IH I Hrk Hid [e He] Hx Hfree. unfold set_entity_state_with, entity.
  destruct (inv_queue s I) as (a & Ha & _). rewrite Ha, He. cbn [get]. rewrite !bind_Ok.
  destruct (bool_decide_reflect (state e = RUNNABLE)) as [E|E].
  { exists s. split_and!; [done|apply woken_refl|by exists e]. }
  assert (∃ a', update_runqueue x (state e) RUNNABLE a = Ok a') as [a' Hu] by (simpl; eauto).
  rewrite Hu, bind_Ok. destruct (inv_event s I x e He) as [w Hw].
  assert (woken n s (put_entity (put_algorithm s a') x (with_state e RUNNABLE))) as W1.
  { constructor; [|simpl; auto]. intros j. simpl. destruct (decide (j = x)) as [->|].
    - right. exists e. by rewrite lookup_insert_eq.
    - left. by rewrite lookup_insert_ne. }
  destruct (IH (state_changed e) (put_entity (put_algorithm s a') x (with_state e RUNNABLE)) w) as (t & Ht & W2).
  - by eapply inv_set_state.
  - by eapply woken_ranked.
  - done.
  - by eapply Hfree.
  - intros y Hy. by eapply Hrk.
  - intros j f v Hf Hj Hv. simpl in Hf. rewrite lookup_insert_ne in Hf by (intros ->; lia). simpl in Hv.
    split; [|eapply (Hfree j f v Hf); [lia|done]].
    intros E'. assert (x = j) as -> by (by eapply (inv_apart s I)). lia.
  - exists t. split_and!; [done|eapply woken_trans; [done|eapply woken_mono; [|done]; lia]|].
    eapply woken_runnable; [done|]. eexists. simpl. by rewrite lookup_insert_eq.
Qed.

Lemma wake_total fuel n q s w :
  sched_inv s → ranked s → queues s !! q = Some w → wq_locked w = false →
  (∀ x, x ∈ waiters w → (rank x < n)%nat) → free_below n q s → (n < fuel)%nat →
  ∃ s', wake fuel q s = Ok s' ∧ woken n s s' ∧ queues s' !! q = Some (MkWQ [] false) ∧
    ∀ x, x ∈ waiters w → runnable x s'.
Proof.
  revert n q s w. induction fuel as [|fuel IH]; intros n q s w I Hrk Hq Hl Hw Hfree Hf; [lia|].
  cbn [wake]. unfold queue. rewrite Hq. ok_step. rewrite Hl. cbn [negb check]. rewrite bind_Ok.
  set (s1 := put_queue s q (MkWQ (waiters w) true)).
  destruct (for_each_total (λ t, sched_inv t ∧ idle_entity t = idle_entity s ∧ ranked t ∧ free_below n q t ∧ woken n s1 t)
    runnable (waiters w) (λ waiter, set_entity_state_with (wake fuel) waiter RUNNABLE) s1)
    as (t & Ht & (It & Hidt & _ & _ & Wt) & Hrun & _).
  - assert (sched_inv s1) by (by eapply inv_requeue). split_and!; [done..| | |apply woken_refl].
    + intros i e v x He Hv Hx. subst s1. simpl in He, Hv.
      apply lookup_insert_Some in Hv as [[Eq <-]|[_ Hv]]; [|by eapply (Hrk i e)].
      eapply (Hrk i e w); [done|by rewrite <- Eq|done].
    + intros j e v He Hj Hv. subst s1. simpl in He, Hv.
      apply lookup_insert_Some in Hv as [[Eq <-]|[Hne Hv]]; [|by eapply Hfree].
      destruct (Hfree j e w He Hj) as [Hn _]; congruence.
  - intros x t Hx (It & Hidt & Hrkt & Hfrt & Wt).
    destruct (inv_waiter s I q w x Hq Hx) as [Hex Hnid].
    destruct (wake_up_total fuel n q t x) as (t' & Ht' & W' & Hr'); [|done|done|by rewrite Hidt| | |done|].
    + intros k u v Iu Hru Hv Hlv Hys Hfu. destruct (IH (rank x) k u v) as (u' & Hu' & Wu' & _); [done..| |eauto].
      specialize (Hw x Hx). lia.
    + destruct (wok_entity _ _ _ Wt x) as [->|(e & _ & _ & ->)]; [done|by eexists].
    + by apply Hw.
    + exists t'. split; [done|]. assert (sched_inv t' ∧ idle_entity t' = idle_entity t) as [It' Hid'].
      { split.
        - eapply (set_entity_state_with_inv (wake fuel) x RUNNABLE t); [apply wake_inv|done|congruence|done|done].
        - by apply (set_entity_state_with_roles (wake fuel) x RUNNABLE t t' (wake_roles fuel)). }
      split_and!; [done|congruence|by eapply woken_ranked|by eapply woken_free|by eapply woken_trans|done|].
      intros y. by eapply woken_runnable.
  - rewrite Ht, bind_Ok. eexists. split; [reflexivity|]. split_and!.
    + destruct Wt as [W1 W2]. constructor; [done|]. intros k. simpl. destruct (decide (k = q)) as [->|].
      * right. exists w. by rewrite lookup_insert_eq.
      * rewrite lookup_insert_ne by done. specialize (W2 k). subst s1. simpl in W2.
        by rewrite lookup_insert_ne in W2.
    + simpl. by rewrite lookup_insert_eq.
    + intros x Hx. exact (Hrun x Hx).
Qed.
End wakeups.

(** ** Properties *)

(** C4. The scheduler's invariant.  Whatever sequence of thread creations,
    starts, stops, sleeps, wake-ups, timer interrupts and yields follows
    [Scheduler::init], for any algorithm that satisfies the laws of the
    interface: the run queue holds exactly the threads that are not stopped or
    asleep, once each and without the idle thread; and when the scheduler is
    active, [schedule] returns and makes a RUNNABLE thread of the run queue
    current, or the idle thread when the run queue is empty. *)
Theorem scheduler_history {A} `{SchedulingLaws A} schedulers name idle q c s0 s :
  Forall (λ a, runqueue a = []) schedulers.*2 →
  sched_init schedulers name idle (booting idle q c) = Ok (true, s0) →
  rtc step s0 s →
  sched_inv s ∧
  (active s = true → ∃ s' t a, algorithm s = Some a ∧ schedule s = Ok s' ∧ dispatched s s' t a).
Proof.
  intros Hall Hinit Hrun. assert (sched_inv s) as I.
  { apply sched_init_inv in Hinit; [|done]. clear Hall. induction Hrun; eauto using step_inv. }
  split; [done|]. intros Hact. destruct (inv_queue s I) as (a & Ha & _).
  destruct (schedule_spec s a I Hact Ha) as (s' & t & Hs & _ & Hd & _). by exists s', t, a.
Qed.


(** Two threads that join each other.  When thread [i] sleeps on the event
    of thread [j] and [j] goes to sleep on the event of [i], the change of
    state of [j] wakes [i], whose change of state wakes [j], whose change of
    state waits for the mutex of [j]'s own wake queue: the same chain of calls
    holds it. *)
Theorem mutual_join_deadlocks {A} `{SchedulingAlgorithm A} fuel (s : Scheduler A) i j e f :
  is_Some (algorithm s) → i ≠ j → entities s !! i = Some e → entities s !! j = Some f →
  state e = SLEEPING → state f = RUNNABLE → state_changed e ≠ state_changed f →
  queues s !! state_changed e = Some (MkWQ [] false) →
  queues s !! state_changed f = Some (MkWQ [i] false) →
  (3 ≤ fuel)%nat → wq_sleep fuel (state_changed e) j s = Err Deadlock.
Proof.
  intros [a Ha] Hij He Hf Es Fs Hq Hqe Hqf Hfuel.
  destruct fuel as [|[|[|fuel]]]; [lia..|].
  unfold wq_sleep, queue. rewrite Hqe. simpl. unfold thread_sleep.
  assert (∀ B (m : result B) k, m = Err Deadlock → (m ≫= k) = Err (A := Scheduler A) Deadlock) as Herr
    by (by intros B m k ->).
  apply Herr. apply (set_entity_state_err _ _ _ _ a f); [done..|congruence|done|]. intros a1.
  apply (wake_one_err (S (S fuel)) _ i); [simpl; by rewrite lookup_insert_ne|].
  apply (set_entity_state_err _ _ _ _ a1 e); [done|simpl; by rewrite lookup_insert_ne|congruence|done|]. intros a2.
  apply (wake_one_err (S fuel) _ j); [simpl; by rewrite lookup_insert_ne, lookup_insert_eq|].
  apply (set_entity_state_err _ _ _ _ a2 (with_state f SLEEPING)); [done| |done..|].
  { simpl. by rewrite lookup_insert_ne, lookup_insert_eq. }
  intros a3. eapply wake_locked. simpl. by rewrite lookup_insert_ne, lookup_insert_eq by done.
Qed.

(** The completely fair algorithm picks the thread of the run queue that
    has run least, the first of them when several have; it picks none exactly
    when the run queue is empty. *)
Theorem cfs_picks_least a m :
  (∀ i, i ∈ cfs_runqueue a → is_Some (m !! i)) →
  ∃ o, pick_next_entity a m = Ok o ∧
    match o with None => cfs_runqueue a = [] | Some i => first_minimum m (cfs_runqueue a) i end.
Proof. apply cfs_pick_spec. Qed.

(** *** Concrete runs *)

Definition demo_clock : clock := MkClock 0 (MkTod 0 0 0 1 1 1970) 0.
Definition cfs_name : cstr := [99; 102; 115; 0].

(** The idle thread is at 1, its event at 11. *)
Definition demo_boot : Scheduler CompletelyFairScheduler :=
  match sched_init [(cfs_name, MkCfs [])] cfs_name 1 (booting 1 11 demo_clock) with
  | Ok (_, s) => s
  | Err _ => booting 1 11 demo_clock
  end.

(** Two threads at 2 and 3, started and scheduled; the first has joined the
    second. *)
Definition demo_joined : result (Scheduler CompletelyFairScheduler) :=
  let mk i q s := put_entity (put_queue s q (MkWQ [] false)) i (new_entity SchedulingEntityPriority.NORMAL q) in
  s ← thread_start 9 2 (mk 3 13 (mk 2 12 demo_boot));
  s ← thread_start 9 3 (run s);
  s ← lapic_timer_irq_handler s;
  event_wait 9 13 s.

Lemma scheduler_history_witness :
  ∃ s, rtc step demo_boot s ∧ sched_inv s ∧ ∃ s' t a, algorithm s = Some a ∧ schedule s = Ok s' ∧ dispatched s s' t a.
Proof.
  pose (s1 := put_entity (put_queue demo_boot 12 (MkWQ [] false)) 2 (new_entity SchedulingEntityPriority.NORMAL 12)).
  destruct (thread_start 1 2 s1) as [s2|] eqn:E2; [|vm_compute in E2; discriminate E2].
  assert (rtc step demo_boot (run s2)) as Hr.
  { eapply rtc_l; [apply (step_thread demo_boot 2 12 SchedulingEntityPriority.NORMAL); reflexivity|].
    eapply rtc_l; [apply (step_start _ 1 2 s2); [discriminate|exact E2]|]. apply rtc_once, step_run. }
  destruct (scheduler_history [(cfs_name, MkCfs [])] cfs_name 1 11 demo_clock demo_boot (run s2)) as [I Hs].
  - repeat constructor.
  - vm_compute. reflexivity.
  - exact Hr.
  - exists (run s2). split; [exact Hr|]. split; [exact I|]. apply Hs. reflexivity.
Defined.

Lemma demo_boot_inv : sched_inv demo_boot.
Proof.
  apply (sched_init_inv [(cfs_name, MkCfs [])] cfs_name 1 11 demo_clock); [repeat constructor|].
  vm_compute. reflexivity.
Qed.

Lemma demo_queues k w : queues (put_queue demo_boot 12 (MkWQ [] false)) !! k = Some w → w = MkWQ [] false.
Proof.
  change (queues _) with (<[12 := MkWQ [] false]> ({[ 11 := MkWQ [] false ]} : gmap Z WakeQueue)).
  rewrite lookup_insert_Some, lookup_singleton_Some. naive_solver.
Qed.


Lemma mutual_join_deadlocks_witness :
  ∃ s, demo_joined = Ok s ∧ current_thread s = Some 3 ∧ wq_sleep 9 12 3 s = Err Deadlock.
Proof.
  eexists. split; [vm_compute; reflexivity|]. split; [reflexivity|].
  eapply (mutual_join_deadlocks 9 _ 2 3 (MkEntity 0 10000000 SLEEPING SchedulingEntityPriority.NORMAL 12)
    (MkEntity 0 10000000 RUNNABLE SchedulingEntityPriority.NORMAL 13));
    first [lia|discriminate|eexists; reflexivity|reflexivity|vm_compute; discriminate].
Defined.

Lemma cfs_picks_least_witness :
  ∃ o, pick_next_entity (MkCfs [2; 3])
    {[ 2 := MkEntity 7 0 RUNNABLE SchedulingEntityPriority.NORMAL 12;
       3 := MkEntity 5 0 RUNNABLE SchedulingEntityPriority.NORMAL 13 ]} = Ok o ∧ o = Some 3.
Proof.
  destruct (cfs_picks_least (MkCfs [2; 3])
    {[ 2 := MkEntity 7 0 RUNNABLE SchedulingEntityPriority.NORMAL 12;
       3 := MkEntity 5 0 RUNNABLE SchedulingEntityPriority.NORMAL 13 ]}) as (o & Ho & _).
  - intros i Hi. apply elem_of_cons in Hi as [->|Hi]; [by eexists|].
    apply list_elem_of_singleton in Hi as ->. by eexists.
  - exists o. split; [exact Ho|]. vm_compute in Ho. by injection Ho as <-.
Defined.
