(* ===== verification/SchedFair.v ===== *)
(** * Fairness of the completely fair algorithm

    What the timer interrupt and the algorithm of kernel/sched-cfs.cpp do to the
    run times of a fixed set of runnable threads: how far the run times drift
    apart, and how long a thread can be kept from the processor. *)

From S2P Require Import Prelude CppList KTime Sched.
Local Open Scope Z_scope.

Abbreviation cfs := (Scheduler CompletelyFairScheduler).

(** The run time the interrupt handler accounts for. *)
Definition period : Z := 10000000.

Definition rt (s : cfs) (i : ptr) : Z := match entities s !! i with Some e => cpu_runtime e | None => 0 end.

(** [n] timer interrupts. *)
Fixpoint ticks (n : nat) (s : cfs) : result cfs :=
  match n with O => Ok s | S n' => s ← lapic_timer_irq_handler s; ticks n' s end.

Definition total (f : ptr → Z) (l : list ptr) : Z := foldr (λ i acc, f i + acc) 0 l.

(** The threads of [l] are the runnable ones and [c] of them runs. *)
Record steady (l : list ptr) (s : cfs) (c : ptr) : Prop := {
  st_inv : sched_inv s;
  st_active : active s = true;
  st_queue : algorithm s = Some (MkCfs l);
  st_current : current s = Some c;
  st_in : c ∈ l;
  st_start : ∃ e, entities s !! c = Some e ∧ exec_start_time e = runtime (clk s);
  st_clock : tod_ok (tod (clk s)) ∧ 0 ≤ runtime (clk s) ∧ 0 ≤ ticks_since_last_tod_update (clk s) ≤ second;
  st_nonneg i : i ∈ l → 0 ≤ rt s i }.

Definition least (l : list ptr) (s : cfs) (c : ptr) : Prop := ∀ j, j ∈ l → rt s c ≤ rt s j.

(** Room for [n] more periods in the 64-bit counters. *)
Definition room (l : list ptr) (s : cfs) (n : Z) : Prop :=
  runtime (clk s) + n * period < 2 ^ 64 ∧ ∀ i, i ∈ l → rt s i + n * period < 2 ^ 64.

Lemma first_minimum_least m l i e j f :
  first_minimum m l i → m !! i = Some e → j ∈ l → m !! j = Some f → cpu_runtime e ≤ cpu_runtime f.
Proof.
  intros (l1 & l2 & e' & -> & He & H1 & H2) He' Hj Hf. simplify_eq.
  apply elem_of_app in Hj as [Hj|[->|Hj]%elem_of_cons].
  - specialize (H1 j f Hj Hf). lia.
  - simplify_eq. lia.
  - eauto.
Qed.

Lemma rt_put s i e j : rt (put_entity s i e) j = if decide (j = i) then cpu_runtime e else rt s j.
Proof.
  unfold rt. simpl. destruct (decide (j = i)) as [->|]; [by rewrite lookup_insert_eq|by rewrite lookup_insert_ne].
Qed.

(** The accounting of one tick. *)
Lemma accounting_spec l s c ck :
  steady l s c → runtime ck = runtime (clk s) + period → rt s c + period < 2 ^ 64 → runtime ck < 2 ^ 64 →
  ∃ t, update_accounting (put_clock s ck) = Ok t ∧ sched_inv t ∧ active t = true ∧
    algorithm t = Some (MkCfs l) ∧ clk t = ck ∧
    ∀ i, rt t i = if decide (i = c) then rt s c + period else rt s i.
Proof.
  intros St Hck Hrt Hlt. destruct (st_start l s c St) as (e & He & Hst).
  destruct (update_accounting_inv (put_clock s ck)) as (t & Ht & It & (_ & _ & _ & R4 & R5 & _) & Ra);
    [apply inv_put_clock, St|].
  exists t. split_and!; [done|done|rewrite R4; apply St|rewrite Ra; apply St|done|].
  unfold update_accounting in Ht. simpl in Ht. rewrite (st_current l s c St) in Ht.
  unfold entity in Ht. simpl in Ht. rewrite He in Ht. simpl in Ht. injection Ht as <-.
  intros i. rewrite rt_put. destruct (decide (i = c)) as [->|]; [|done]. simpl.
  pose proof (st_nonneg l s c St c (st_in l s c St)) as Hn. unfold rt in Hn, Hrt |- *. rewrite He in *.
  destruct (st_clock l s c St) as (_ & Hr & _).
  unfold tp_sub, dur_sub, dur_add. rewrite Hst, Hck, (wrap_small 64 (_ - _)) by (unfold fits, period in *; lia).
  rewrite wrap_small by (unfold fits, period in *; lia). lia.
Qed.

Lemma tick_spec l s c :
  steady l s c → room l s 1 →
  ∃ s' c', lapic_timer_irq_handler s = Ok s' ∧ steady l s' c' ∧ least l s' c' ∧
    (∀ i, rt s' i = if decide (i = c) then rt s c + period else rt s i) ∧
    runtime (clk s') = runtime (clk s) + period.
Proof.
  intros St [Hroom Hrooms]. destruct (st_clock l s c St) as (Htod & Hr & Hacc).
  pose proof (Hrooms c (st_in l s c St)) as Hc.
  destruct (update_runtime_spec (clk s) (ns_of_ms 10)) as (sec & ck & Hck & Hrt & _ & _ & Hacc' & Htod' & _);
    [done|vm_compute; discriminate|lia| | |].
  { change (ns_of_ms 10) with 10000000. unfold second in *. lia. }
  { change (ns_of_ms 10) with period. unfold fits. split; unfold period in *; lia. }
  change (ns_of_ms 10) with period in Hrt.
  destruct (accounting_spec l s c ck) as (t & Ht & It & Ta & Tq & Tc & Trt); [done..|lia|lia|].
  destruct (schedule_spec t (MkCfs l) It Ta Tq) as (s' & c' & Hs & Is & [D1 D2 D3 D4 D5] & Hp).
  destruct D4 as (e & He & Hrun & Hents). destruct D5 as (E1 & E2 & E3 & E4 & E5).
  assert (∀ i, rt s' i = rt t i) as Hsame.
  { intros i. unfold rt. rewrite Hents. destruct (decide (i = c')) as [->|];
      [rewrite lookup_insert_eq, He|rewrite lookup_insert_ne]; done. }
  assert (c' ∈ l) as Hc'.
  { destruct D3 as [?|[E _]]; [done|]. simpl in E. pose proof (st_in l s c St) as Hin.
    rewrite E in Hin. by apply elem_of_nil in Hin. }
  exists s', c'. split_and!.
  - unfold lapic_timer_irq_handler. rewrite Hck, bind_Ok, Ht, bind_Ok. done.
  - constructor; try done.
    + eexists. rewrite Hents, lookup_insert_eq. split; [done|]. simpl. by rewrite E5.
    + rewrite E5, Tc. split_and!; [done|unfold period in *; lia|lia..].
    + intros i Hi. rewrite Hsame, Trt. pose proof (st_nonneg l s c St c (st_in l s c St)).
      destruct (decide (i = c)); [unfold period; lia|by apply St].
  - intros j Hj. rewrite !Hsame.
    destruct (inv_queue t It) as (a & Ha & _ & Hq). rewrite Tq in Ha. injection Ha as <-. simpl in Hq.
    destruct (cfs_pick_spec (MkCfs l) (entities t)) as (o & Ho & Hmin).
    { intros i Hi. apply Hq in Hi as (_ & f & Hf & _). by eexists. }
    simpl in Hp. rewrite Hp in Ho. rewrite bool_decide_true in Ho by done. injection Ho as <-.
    apply Hq in Hj as Hj'. destruct Hj' as (_ & f & Hf & _). unfold rt. rewrite He, Hf.
    by eapply first_minimum_least.
  - intros i. by rewrite Hsame.
  - by rewrite E5, Tc.
Qed.

(** ** Sums over the run queue *)

Lemma total_ext f g l : (∀ i, i ∈ l → f i = g i) → total f l = total g l.
Proof.
  induction l as [|i l IH]; intros Hfg; simpl; [done|].
  rewrite Hfg by apply list_elem_of_here. rewrite IH; [done|]. intros. apply Hfg. by apply list_elem_of_further.
Qed.

Lemma total_update f g l c :
  NoDup l → c ∈ l → (∀ i, i ∈ l → i ≠ c → g i = f i) → total g l = total f l + (g c - f c).
Proof.
  induction 1 as [|i l Hi Hl IH]; intros Hc Hfg; [by apply elem_of_nil in Hc|]. simpl.
  apply elem_of_cons in Hc as [->|Hc].
  - rewrite (total_ext g f l); [lia|]. intros j Hj. apply Hfg; [by apply list_elem_of_further|set_solver].
  - rewrite IH; [|done|intros; apply Hfg; [by apply list_elem_of_further|done]].
    rewrite (Hfg i); [lia|apply list_elem_of_here|set_solver].
Qed.

Lemma total_between f l lo hi :
  (∀ i, i ∈ l → lo ≤ f i ≤ hi) → Z.of_nat (length l) * lo ≤ total f l ≤ Z.of_nat (length l) * hi.
Proof.
  induction l as [|i l IH]; intros Hf; simpl; [lia|].
  destruct IH; [intros; apply Hf; by apply list_elem_of_further|]. pose proof (Hf i (list_elem_of_here i l)). lia.
Qed.

Lemma steady_NoDup l s c : steady l s c → NoDup l.
Proof.
  intros St. destruct (inv_queue s (st_inv l s c St)) as (a & Ha & Hnd & _).
  rewrite (st_queue l s c St) in Ha. by injection Ha as <-.
Qed.

Lemma room_step l s c s' n :
  c ∈ l → room l s (Z.succ n) → 0 ≤ n →
  (∀ i, rt s' i = if decide (i = c) then rt s c + period else rt s i) →
  runtime (clk s') = runtime (clk s) + period → room l s' n.
Proof.
  intros Hc [R1 R2] Hn Hrt Hck. split; [rewrite Hck; lia|].
  intros i Hi. rewrite Hrt. specialize (R2 i Hi) as Ri.
  destruct (decide (i = c)) as [->|]; unfold period in *; lia.
Qed.

Lemma room_le l s n m : m ≤ n → room l s n → room l s m.
Proof.
  intros Hle [R1 R2]. split; [unfold period in *; lia|]. intros i Hi. specialize (R2 i Hi). unfold period in *. lia.
Qed.

Definition spread (l : list ptr) (s : cfs) (d : Z) : Prop := ∀ i j, i ∈ l → j ∈ l → rt s i - rt s j ≤ d.

Lemma ticks_spec l n s c d :
  steady l s c → least l s c → spread l s d → period ≤ d → room l s (Z.of_nat n) →
  ∃ s' c', ticks n s = Ok s' ∧ steady l s' c' ∧ spread l s' d ∧
    total (rt s') l = total (rt s) l + Z.of_nat n * period.
Proof.
  revert s c. induction n as [|n IH]; intros s c St Hl Hsp Hd Hroom; cbn [ticks].
  - exists s, c. split_and!; [done..|lia].
  - destruct (tick_spec l s c St) as (t & c' & -> & St' & Hl' & Hrt & Hck);
      [eapply room_le; [|done]; lia|]. rewrite bind_Ok.
    destruct (IH t c') as (s' & c'' & Hs & Ss & Hsp' & Ht); [done..| |done| |].
    + intros i j Hi Hj. rewrite !Hrt. specialize (Hsp i j Hi Hj) as ?. pose proof (Hl i Hi). pose proof (Hl j Hj).
      destruct (decide (i = c)) as [->|], (decide (j = c)) as [->|]; unfold period in *; lia.
    + eapply room_step; [apply St| |lia|done|done]. eapply room_le; [|done]. lia.
    + exists s', c''. split_and!; [done..|].
      rewrite Ht, (total_update (rt s) (rt t) l c); [|by eapply steady_NoDup|apply St|].
      * rewrite Hrt, decide_True by done. lia.
      * intros i _ Hne. by rewrite Hrt, decide_False.
Qed.

(** ** Waiting for the processor *)

(** How many more periods thread [k] can run before thread [j]. *)
Definition need (s : cfs) (j k : ptr) : Z :=
  if rt s k <=? rt s j then (rt s j - rt s k) / period + 1 else 0.

Definition wait_bound (l : list ptr) (s : cfs) (j : ptr) : nat := Z.to_nat (total (need s j) l).

Lemma need_nonneg s j k : 0 ≤ need s j k.
Proof.
  unfold need. destruct (Z.leb_spec (rt s k) (rt s j)); [|lia].
  pose proof (Z.div_pos (rt s j - rt s k) period). unfold period in *. lia.
Qed.

Lemma need_tick s s' j c :
  c ≠ j → rt s c ≤ rt s j → (∀ i, rt s' i = if decide (i = c) then rt s c + period else rt s i) →
  need s' j c = need s j c - 1 ∧ ∀ k, k ≠ c → need s' j k = need s j k.
Proof.
  intros Hne Hle Hrt. unfold need. split.
  - rewrite !Hrt, decide_True, decide_False by done.
    destruct (Z.leb_spec (rt s c) (rt s j)); [|lia].
    replace (rt s j - (rt s c + period)) with (rt s j - rt s c + (-1) * period) by lia.
    rewrite Z.div_add by done. destruct (Z.leb_spec (rt s c + period) (rt s j)); [lia|].
    rewrite Z.div_small; lia.
  - intros k Hk. by rewrite !Hrt, !decide_False by done.
Qed.

Lemma total_need_pos l s j : j ∈ l → 0 < total (need s j) l.
Proof.
  intros Hj. pose proof (need_nonneg s j) as Hn. induction l as [|i l IH]; [by apply elem_of_nil in Hj|]. simpl.
  assert (0 ≤ total (need s j) l) by (clear -Hn; induction l; simpl; [lia|pose proof (Hn a); lia]).
  apply elem_of_cons in Hj as [->|Hj]; [|pose proof (Hn i); specialize (IH Hj); lia].
  unfold need at 1. rewrite Z.leb_refl, Z.sub_diag, Z.div_0_l by done. lia.
Qed.

Lemma eventually_current l j b s c :
  steady l s c → least l s c → j ∈ l → total (need s j) l ≤ Z.of_nat b → room l s (Z.of_nat b) →
  ∃ n s', (n ≤ b)%nat ∧ ticks n s = Ok s' ∧ current s' = Some j.
Proof.
  revert s c. induction b as [|b IH]; intros s c St Hl Hj Htot Hroom.
  - pose proof (total_need_pos l s j Hj). lia.
  - destruct (decide (c = j)) as [->|Hne].
    { exists O, s. split_and!; [lia|done|apply St]. }
    destruct (tick_spec l s c St) as (t & c' & Ht & St' & Hl' & Hrt & Hck); [eapply room_le; [|done]; lia|].
    destruct (need_tick s t j c Hne (Hl j Hj) Hrt) as [Hn1 Hn2].
    destruct (IH t c') as (n & s' & Hn & Hs & Hcur); [done..| | |].
    + rewrite (total_update (need s j) (need t j) l c); [lia|by eapply steady_NoDup|apply St|auto].
    + eapply room_step; [apply St| |lia|done|done]. eapply room_le; [|done]. lia.
    + exists (S n), s'. split_and!; [lia| |done]. cbn [ticks]. by rewrite Ht, bind_Ok.
Qed.

(** ** Properties *)


(** C25. No starvation.  A runnable thread [j] becomes current within as many
    timer interrupts as the threads that have run no longer than [j] need, a
    period each, to overtake it. *)
Theorem cfs_no_starvation l s c j :
  steady l s c → least l s c → j ∈ l → room l s (Z.of_nat (wait_bound l s j)) →
  ∃ n s', (n ≤ wait_bound l s j)%nat ∧ ticks n s = Ok s' ∧ current s' = Some j.
Proof.
  intros St Hl Hj Hroom. apply (eventually_current l j _ s c); try done.
  unfold wait_bound. lia.
Qed.

(** *** A concrete run: two threads, at 2 and 3, after the first interrupt *)

Definition demo_thread (i q : ptr) (s : cfs) : cfs :=
  put_entity (put_queue s q (MkWQ [] false)) i (new_entity SchedulingEntityPriority.NORMAL q).

Definition demo_two : result cfs :=
  s ← thread_start 9 2 (demo_thread 3 13 (demo_thread 2 12 demo_boot));
  s ← thread_start 9 3 s;
  lapic_timer_irq_handler (run s).

Lemma demo_two_steady s : demo_two = Ok s → steady [2; 3] s 2 ∧ least [2; 3] s 2 ∧ spread [2; 3] s period.
Proof.
  intros Hs. assert (sched_inv s) as I.
  { unfold demo_two in Hs. apply bind_Ok_inv in Hs as (s1 & H1 & Hs). apply bind_Ok_inv in Hs as (s2 & H2 & Hs).
    assert (idle_entity s1 = Some 1) as Hid by (clear H2; vm_compute in H1; injection H1 as <-; reflexivity).
    eapply step_inv; [by apply step_tick|]. eapply step_inv; [apply step_run|].
    eapply step_inv; [by apply (step_start s1 9 3); [rewrite Hid|]|].
    eapply step_inv; [by apply (step_start (demo_thread 3 13 (demo_thread 2 12 demo_boot)) 9 2)|].
    apply inv_create; [|reflexivity..]. apply inv_create; [apply demo_boot_inv|reflexivity..]. }
  vm_compute in Hs. injection Hs as <-.
  assert (∀ i : Z, i ∈ [2; 3] → i = 2 ∨ i = 3) as Hin by (intros i; rewrite !elem_of_cons, elem_of_nil; tauto).
  split_and!.
  - constructor; try done; try reflexivity.
    + apply list_elem_of_here.
    + by eexists.
    + intros i [->| ->]%Hin; vm_compute; done.
  - intros j [->| ->]%Hin; vm_compute; done.
  - intros i j [->| ->]%Hin [->| ->]%Hin; vm_compute; done.
Qed.

Lemma demo_two_room s n : demo_two = Ok s → 0 ≤ n ≤ 1000 → room [2; 3] s n.
Proof.
  intros Hs Hn. vm_compute in Hs. injection Hs as <-. unfold room, rt, period. split; [simpl; lia|].
  intros i. rewrite !elem_of_cons, elem_of_nil. intros [->|[->|[]]]; simpl; lia.
Qed.


Lemma cfs_no_starvation_witness :
  ∃ s n s', demo_two = Ok s ∧ (n ≤ 2)%nat ∧ ticks n s = Ok s' ∧ current s' = Some 3.
Proof.
  destruct demo_two as [s|] eqn:E; [|vm_compute in E; discriminate].
  assert (wait_bound [2; 3] s 3 = 2%nat) as B by (vm_compute in E; injection E as <-; reflexivity).
  destruct (demo_two_steady s E) as (St & Hl & _).
  destruct (cfs_no_starvation [2; 3] s 2 3 St Hl) as (n & s' & Hn & Hs & Hc).
  - apply elem_of_cons. right. apply list_elem_of_here.
  - rewrite B. apply demo_two_room; [exact E|lia].
  - exists s, n, s'. rewrite B in Hn. auto.
Defined.
