(* ===== verification/Lock.v ===== *)
(** * Locks

    The spinning mutex and the interrupt lock of util/lock.cpp (with the C copy
    of the mutex of lock-c.h), and their scope guards of
    include/infos/util/lock.h. *)

From S2P Require Import Prelude.
Local Open Scope Z_scope.

(** ** The mutex *)

(** [_locked] and [_owner]; the constructor does not set the owner. *)
Record Mutex := MkMutex { m_locked : bool; m_owner : option Z }.

Definition new_mutex : Mutex := MkMutex false None.

(** [__sync_lock_test_and_set(&_locked, 1)]: the old value, and 1 stored. *)
Definition test_and_set (m : Mutex) : bool * Mutex := (m_locked m, MkMutex true (m_owner m)).

(** [_owner = &Thread::current()]. *)
Definition store_owner (m : Mutex) (t : Z) : Mutex := MkMutex (m_locked m) (Some t).

(** [__sync_lock_release(&_locked)]. *)
Definition unlock (m : Mutex) : Mutex := MkMutex false (m_owner m).

Definition locked_by_me (m : Mutex) (t : Z) : bool := m_locked m && bool_decide (m_owner m = Some t).

(** [ConditionVariable::wait] asserts and returns; the notifications have empty
    bodies. *)
Definition cv_wait (m : Mutex) (t : Z) : result unit := cassert (locked_by_me m t).

(** Where a thread stands in [Mutex::lock]: outside, in the loop, after the
    test-and-set that found 0, and after the return. *)
Inductive lock_pc := Outside | Spinning | Acquired | Holding.

#[export] Instance lock_pc_eq_dec : EqDecision lock_pc.
Proof. solve_decision. Defined.

Record lock_state := MkLock { mtx : Mutex; pc : Z → lock_pc }.

Definition move (s : lock_state) (m : Mutex) (t : Z) (p : lock_pc) : lock_state :=
  MkLock m (λ u, if decide (u = t) then p else pc s u).

(** The atomic steps of the threads that use one mutex: a thread enters [lock],
    tests and sets (and yields when it finds 1), stores itself as the owner, and
    unlocks what it has locked. *)
Inductive lock_step (s : lock_state) : lock_state → Prop :=
| lock_enter t : pc s t = Outside → lock_step s (move s (mtx s) t Spinning)
| lock_spin t m : pc s t = Spinning → test_and_set (mtx s) = (true, m) → lock_step s (move s m t Spinning)
| lock_take t m : pc s t = Spinning → test_and_set (mtx s) = (false, m) → lock_step s (move s m t Acquired)
| lock_own t : pc s t = Acquired → lock_step s (move s (store_owner (mtx s) t) t Holding)
| lock_release t : pc s t = Holding → lock_step s (move s (unlock (mtx s)) t Outside).

Definition lock_start : lock_state := MkLock new_mutex (λ _, Outside).

Definition inside (p : lock_pc) : bool := match p with Acquired | Holding => true | _ => false end.

(** ** The interrupt lock *)

(** The processor's interrupt flag is the state; the lock remembers whether it
    was set. *)
Definition irq_lock (interrupts_enabled : bool) : result (bool * bool) :=
  let were := interrupts_enabled in
  let now := if were then false else interrupts_enabled in
  _ ← cassert (negb now); Ok (were, now).

Definition irq_unlock (were_interrupts_enabled interrupts_enabled : bool) : result bool :=
  if were_interrupts_enabled
  then (let now := true in _ ← cassert now; Ok now)
  else Ok interrupts_enabled.

(** A block with a [UniqueIRQLock]: the constructor locks, the body runs, the
    destructor unlocks. *)
Definition with_irq_lock (body : bool → result bool) (interrupts_enabled : bool) : result bool :=
  '(were, now) ← irq_lock interrupts_enabled;
  now ← body now;
  irq_unlock were now.

(** Blocks inside blocks, in sequence. *)
Inductive irq_block := IrqBlock (inner : list irq_block).

Fixpoint run_block (b : irq_block) : bool → result bool :=
  match b with
  | IrqBlock inner =>
      with_irq_lock (λ now, (fix go (l : list irq_block) (f : bool) : result bool :=
        match l with [] => Ok f | c :: l' => f ← run_block c f; go l' f end) inner now)
  end.

(** ** Lemmas *)

Record lock_inv (s : lock_state) : Prop := {
  li_one t u : inside (pc s t) = true → inside (pc s u) = true → t = u;
  li_locked : m_locked (mtx s) = true ↔ ∃ t, inside (pc s t) = true;
  li_owner t : pc s t = Holding → m_owner (mtx s) = Some t }.

Lemma move_pc s m t p u : pc (move s m t p) u = if decide (u = t) then p else pc s u.
Proof. done. Qed.

(** A thread outside moves to another place outside: nothing changes. *)
Lemma lock_inv_outside s t p :
  lock_inv s → inside (pc s t) = false → inside p = false → lock_inv (move s (mtx s) t p).
Proof.
  intros [I1 I2 I3] Ht Hp.
  assert (∀ u, inside (pc (move s (mtx s) t p) u) = inside (pc s u)) as E.
  { intros u. rewrite move_pc. destruct (decide (u = t)) as [->|]; congruence. }
  constructor.
  - intros u v. rewrite !E. apply I1.
  - change (mtx (move s (mtx s) t p)) with (mtx s). rewrite I2. split; intros [u Hu]; exists u; [by rewrite E|by rewrite E in Hu].
  - intros u Hu. apply I3. rewrite move_pc in Hu. destruct (decide (u = t)) as [->|]; [|done].
    subst p. done.
Qed.

Lemma lock_step_inv s s' : lock_step s s' → lock_inv s → lock_inv s'.
Proof.
  intros Hs I. destruct Hs as [t Ht|t m Ht Hm|t m Ht Hm|t Ht|t Ht].
  - apply lock_inv_outside; [done|by rewrite Ht|done].
  - unfold test_and_set in Hm. injection Hm as Hl <-.
    replace (MkMutex true (m_owner (mtx s))) with (mtx s) by (destruct (mtx s); simpl in *; congruence).
    apply lock_inv_outside; [done|by rewrite Ht|done].
  - unfold test_and_set in Hm. injection Hm as Hl <-. destruct I as [I1 I2 I3].
    assert (∀ u, inside (pc s u) = false) as Hnone.
    { intros u. destruct (inside (pc s u)) eqn:E; [|done]. exfalso.
      assert (m_locked (mtx s) = true) by (apply I2; eauto). congruence. }
    constructor; simpl.
    + intros u v. destruct (decide (u = t)) as [->|], (decide (v = t)) as [->|]; rewrite ?Hnone; done.
    + split; [|done]. intros _. exists t. by rewrite decide_True.
    + intros u Hu. destruct (decide (u = t)); [done|]. specialize (Hnone u). by rewrite Hu in Hnone.
  - destruct I as [I1 I2 I3]. assert (inside (pc s t) = true) as Hin by (by rewrite Ht). constructor; simpl.
    + intros u v Hu Hv. destruct (decide (u = t)) as [->|], (decide (v = t)) as [->|]; auto.
    + split; [|intros _; apply I2; eauto]. intros _. exists t. by rewrite decide_True.
    + intros u Hu. destruct (decide (u = t)) as [->|]; [done|].
      exfalso. apply n. apply I1; [by rewrite Hu|done].
  - destruct I as [I1 I2 I3]. assert (inside (pc s t) = true) as Hin by (by rewrite Ht).
    assert (∀ u, u ≠ t → inside (pc s u) = false) as Hnone.
    { intros u Hu. destruct (inside (pc s u)) eqn:E; [|done]. by rewrite (I1 u t) in Hu. }
    constructor; simpl.
    + intros u v Hu. destruct (decide (u = t)); [done|]. by rewrite Hnone in Hu.
    + split; [done|]. intros [u Hu]. destruct (decide (u = t)); [done|]. by rewrite Hnone in Hu.
    + intros u Hu. destruct (decide (u = t)); [done|]. specialize (Hnone u n). by rewrite Hu in Hnone.
Qed.

Lemma lock_reachable_inv s : rtc lock_step lock_start s → lock_inv s.
Proof.
  intros Hr. assert (lock_inv lock_start) as I0.
  { constructor; simpl; [done| |done]. split; [done|]. by intros [t Ht]. }
  induction Hr; eauto using lock_step_inv.
Qed.

(** Guarded blocks, however nested, pass their assertions and leave the
    interrupt flag as they found it. *)
Lemma run_block_spec b f : run_block b f = Ok f.
Proof.
  revert b f. fix IH 1. intros [inner] f. simpl.
  assert (∀ g, (fix go (l : list irq_block) (f : bool) : result bool :=
        match l with [] => Ok f | c :: l' => f ← run_block c f; go l' f end) inner g = Ok g) as Hgo.
  { induction inner as [|c l IHl]; intros g; [done|]. by rewrite IH, bind_Ok, IHl. }
  unfold with_irq_lock. destruct f; simpl; by rewrite Hgo.
Qed.

(** ** Properties *)

(** C36. Mutual exclusion.  In every interleaving of threads that lock and
    unlock a mutex: at most one thread is past the test-and-set, the lock word
    is set exactly while one is, and [locked_by_me] is true for the thread that
    holds the mutex. It is true for no other thread unless the holder has not
    stored itself as the owner yet: in that window the previous holder still
    sees itself as the owner, and such a state is reachable. *)
Theorem mutex_exclusion :
  (∀ s, rtc lock_step lock_start s →
    (∀ t u, inside (pc s t) = true → inside (pc s u) = true → t = u) ∧
    (m_locked (mtx s) = true ↔ ∃ t, inside (pc s t) = true) ∧
    (∀ t, pc s t = Holding → locked_by_me (mtx s) t = true) ∧
    (∀ t, locked_by_me (mtx s) t = true → pc s t = Holding ∨ ∃ u, pc s u = Acquired)) ∧
  (∃ s, rtc lock_step lock_start s ∧ pc s 1 = Outside ∧ pc s 2 = Acquired ∧ locked_by_me (mtx s) 1 = true).
Proof.
  split.
  - intros s Hr. destruct (lock_reachable_inv s Hr) as [I1 I2 I3]. unfold locked_by_me. split_and!; [done..| |].
    + intros t Ht. rewrite (I3 t Ht), bool_decide_true by done.
      rewrite (proj2 I2); [done|]. exists t. by rewrite Ht.
    + intros t Ht. apply andb_true_iff in Ht as [Hl Ho]. apply bool_decide_eq_true in Ho.
      apply I2 in Hl as [u Hu]. destruct (pc s u) eqn:E; try done; [right; eauto|].
      left. apply I3 in E as E'. congruence.
  - eexists. split.
    + eapply rtc_l; [by apply (lock_enter _ 1)|]. eapply rtc_l; [by eapply (lock_take _ 1)|].
      eapply rtc_l; [by apply (lock_own _ 1)|]. eapply rtc_l; [by apply (lock_release _ 1)|].
      eapply rtc_l; [by apply (lock_enter _ 2)|]. eapply rtc_l; [by eapply (lock_take _ 2)|]. reflexivity.
    + done.
Qed.
