(* ===== verification/Thread.v ===== *)
(** * Threads and their contexts

    The saved context of a thread (include/arch/x86/context.h), the construction
    of a thread with its kernel stack, and the operations that fill in its
    context (kernel/thread.cpp, include/infos/kernel/thread.h). *)

From S2P Require Import Prelude Define PageAlloc PhysMem Vma.
From stdpp Require Import list_numbers.
Local Open Scope Z_scope.

(** ** The saved context *)

(** The fields of [X86Context], in order. *)
Inductive reg :=
| PREVIOUS | FS | GS | R15 | R14 | R13 | R12 | R11 | R10 | R9 | R8
| RBP | RDI | RSI | RDX | RCX | RBX | RAX | EXTRA | RIP | CS | RFLAGS | RSP | SS.

#[export] Instance reg_eq_dec : EqDecision reg.
Proof. solve_decision. Defined.

Definition regs : list reg :=
  [PREVIOUS; FS; GS; R15; R14; R13; R12; R11; R10; R9; R8;
   RBP; RDI; RSI; RDX; RCX; RBX; RAX; EXTRA; RIP; CS; RFLAGS; RSP; SS].

(** The index of a field in the packed structure of 64-bit words. *)
Definition reg_index (r : reg) : Z :=
  match r with
  | PREVIOUS => 0 | FS => 1 | GS => 2 | R15 => 3 | R14 => 4 | R13 => 5 | R12 => 6 | R11 => 7
  | R10 => 8 | R9 => 9 | R8 => 10 | RBP => 11 | RDI => 12 | RSI => 13 | RDX => 14 | RCX => 15
  | RBX => 16 | RAX => 17 | EXTRA => 18 | RIP => 19 | CS => 20 | RFLAGS => 21 | RSP => 22 | SS => 23
  end.

Definition ctx_load (m : memory) (ctx : Z) (r : reg) : result Z := load64 m (u64 (ctx + 8 * reg_index r)).
Definition ctx_store (m : memory) (ctx : Z) (r : reg) (v : Z) : result memory :=
  store64 m (u64 (ctx + 8 * reg_index r)) v.

(** ** The thread object *)

Inductive ThreadPrivilege := Kernel | User.

(** [owner] is the address of the process. *)
Record Thread := MkThread {
  owner : Z; privilege : ThreadPrivilege; entry_point : Z; current_entry_argument : Z; thread_id : Z;
  native_context : Z; kernel_stack : Z; in_syscall : bool; before_syscall_context : Z }.

Definition is_kernel_thread (p : ThreadPrivilege) : bool := match p with Kernel => true | User => false end.

Definition set_thread_id (t : Thread) (id : Z) : Thread :=
  MkThread (owner t) (privilege t) (entry_point t) (current_entry_argument t) id (native_context t) (kernel_stack t)
    (in_syscall t) (before_syscall_context t).

Definition enter_syscall (t : Thread) : Thread :=
  MkThread (owner t) (privilege t) (entry_point t) (current_entry_argument t) (thread_id t) (native_context t)
    (kernel_stack t) true (native_context t).

Definition leave_syscall (t : Thread) : Thread :=
  MkThread (owner t) (privilege t) (entry_point t) (current_entry_argument t) (thread_id t) (native_context t)
    (kernel_stack t) false (before_syscall_context t).

(** [*--stack = v;] *)
Definition push (v : Z) (sm : Z * memory) : result (Z * memory) :=
  let stack := u64 (fst sm - 8) in
  m ← store64 (snd sm) stack v; Ok (stack, m).

(** The words of [prepare_initial_stack] in the order it pushes them: the
    system context (SS, RSP, RFLAGS, CS, RIP, EXTRA), then the registers. *)
Definition initial_words (p : ThreadPrivilege) (entry : Z) : list Z :=
  [(if is_kernel_thread p then 0x10 else 0x23); 0; 0x202; (if is_kernel_thread p then 0x8 else 0x1b); entry; 0;
   0; 0; 0; 0; 0; 0; 0; 0; 0; 0; 0; 0; 0; 0; 0; 0; 0; 0].

(** The native context and memory. *)
Definition prepare_initial_stack (m : memory) (stack_top : Z) (p : ThreadPrivilege) (entry : Z)
    : result (Z * memory) :=
  '(stack, m) ← for_each (initial_words p entry) push (stack_top, m);
  m ← ctx_store m stack RSP stack_top;
  Ok (stack, m).

Definition KERNEL_STACK_ORDER : Z := 1.
Definition KERNEL_STACK_SIZE : Z := Z.shiftl 1 KERNEL_STACK_ORDER * page_size.

Section thread.
Context {A : Type} `{PageAllocatorAlgorithm A}.
Implicit Type s : machine A.

(** The constructor; [v] is the area of the process.  The thread id is set
    later, by [create_thread]. *)
Definition new_thread (o : Z) (v : VMA) s (p : ThreadPrivilege) (entry : Z) : result (Thread * VMA * machine A) :=
  '(pgd, v, s) ← allocate_phys v s KERNEL_STACK_ORDER;
  pgd ← get AssertFailed pgd;
  base ← pgd_to_vpa pgd;
  let top := u64 (base + KERNEL_STACK_SIZE) in
  '(ctx, m) ← prepare_initial_stack (mem s) top p entry;
  Ok (MkThread o p entry 0 0 ctx top false 0, v, set_mem s m).

(** The registers of the first four arguments. *)
Definition argument_reg (n : Z) : option reg :=
  if n =? 0 then Some RDI else if n =? 1 then Some RSI else if n =? 2 then Some RDX
  else if n =? 3 then Some RCX else None.

Definition add_entry_argument (arg : Z) (ts : Thread * machine A) : result (Thread * machine A) :=
  let '(t, s) := ts in
  match argument_reg (current_entry_argument t) with
  | None => Ok (t, s)
  | Some r =>
      m ← ctx_store (mem s) (native_context t) r arg;
      Ok (MkThread (owner t) (privilege t) (entry_point t) (u32 (current_entry_argument t + 1)) (thread_id t)
            (native_context t) (kernel_stack t) (in_syscall t) (before_syscall_context t), set_mem s m)
  end.

(** The result of [allocate_virt] is not looked at. *)
Definition allocate_user_stack (t : Thread) (v : VMA) s (vaddr size : Z) : result (VMA * machine A) :=
  let nr_pages := s32 (Z.shiftr (align_up_page size) 12) in
  '(_, v, s) ← allocate_virt v s vaddr nr_pages;
  m ← ctx_store (mem s) (native_context t) RSP (u64 (u64 (vaddr + size) - 8));
  Ok (v, set_mem s m).
End thread.

(** ** Lemmas *)

Lemma reg_index_range r : 0 ≤ reg_index r < 24.
Proof. by destruct r. Qed.

Lemma reg_index_inj r r' : reg_index r = reg_index r' → r = r'.
Proof. by destruct r, r'. Qed.

(** A context at physical address [c] of the window. *)
Definition at_window (c : Z) : Prop := 0 ≤ c ∧ c + 192 ≤ 2 ^ 32.

Lemma ctx_addr c r : at_window c → u64 (PMEM_VA_START + c + 8 * reg_index r) = PMEM_VA_START + (c + 8 * reg_index r).
Proof.
  intros Hc. pose proof (reg_index_range r). unfold at_window, PMEM_VA_START in *.
  rewrite wrap_small by eauto with infos. lia.
Qed.

Lemma ctx_load_Ok m c r : at_window c → ctx_load m (PMEM_VA_START + c) r = Ok (ld64 m (c + 8 * reg_index r)).
Proof.
  intros Hc. unfold ctx_load, load64. rewrite ctx_addr by done. pose proof (reg_index_range r).
  unfold at_window in Hc. rewrite (translate_Ok (c + 8 * reg_index r) 8) by lia. done.
Qed.

Lemma ctx_store_Ok m c r v : at_window c → ctx_store m (PMEM_VA_START + c) r v = Ok (st64 m (c + 8 * reg_index r) v).
Proof.
  intros Hc. unfold ctx_store, store64. rewrite ctx_addr by done. pose proof (reg_index_range r).
  unfold at_window in Hc. rewrite (translate_Ok (c + 8 * reg_index r) 8) by lia. done.
Qed.

Lemma ctx_reg_st m c r r' v :
  fits 64 v →
  ld64 (st64 m (c + 8 * reg_index r) v) (c + 8 * reg_index r') =
    if decide (r' = r) then v else ld64 m (c + 8 * reg_index r').
Proof.
  intros Hv. destruct (decide (r' = r)) as [->|Hne]; [by apply ld64_st64_eq|].
  apply ld64_st64_ne. assert (reg_index r ≠ reg_index r') by (intros E; by apply reg_index_inj in E). lia.
Qed.

(** Bytes outside [lo, hi) are as before. *)
Definition same_outside (lo hi : Z) (m m' : memory) : Prop := ∀ x, ¬ (lo ≤ x < hi) → ld8 m' x = ld8 m x.

Lemma same_outside_trans lo hi m1 m2 m3 :
  same_outside lo hi m1 m2 → same_outside lo hi m2 m3 → same_outside lo hi m1 m3.
Proof. intros H1 H2 x Hx. by rewrite H2, H1. Qed.

Lemma same_outside_st64 lo hi m a v : lo ≤ a → a + 8 ≤ hi → same_outside lo hi m (st64 m a v).
Proof.
  intros Hlo Hhi x Hx. unfold st64. rewrite ld8_st_bytes by apply le_bytes_fits.
  by rewrite le_bytes_length, decide_False by lia.
Qed.

Lemma same_outside_mono lo hi lo' hi' m m' :
  lo' ≤ lo → hi ≤ hi' → same_outside lo hi m m' → same_outside lo' hi' m m'.
Proof. intros H1 H2 Hs x Hx. apply Hs. lia. Qed.

Lemma push_Ok w m top :
  8 ≤ top ≤ 2 ^ 32 → push w (PMEM_VA_START + top, m) = Ok (PMEM_VA_START + (top - 8), st64 m (top - 8) w).
Proof.
  intros Htop. unfold push. cbn [fst snd].
  replace (u64 (PMEM_VA_START + top - 8)) with (PMEM_VA_START + (top - 8))
    by (unfold PMEM_VA_START; rewrite wrap_small by eauto with infos; lia).
  unfold store64. by rewrite (translate_Ok (top - 8) 8) by lia.
Qed.

(** Pushing the words [ws] below physical address [top]. *)
Lemma pushes_spec ws m top :
  Forall (fits 64) ws → 8 * Z.of_nat (length ws) ≤ top ≤ 2 ^ 32 →
  ∃ m', for_each ws push (PMEM_VA_START + top, m) = Ok (PMEM_VA_START + (top - 8 * Z.of_nat (length ws)), m') ∧
    (∀ i w, ws !! i = Some w → ld64 m' (top - 8 * (Z.of_nat i + 1)) = w) ∧
    same_outside (top - 8 * Z.of_nat (length ws)) top m m'.
Proof.
  revert m top. induction ws as [|w ws IH]; intros m top Hws Htop; cbn [for_each].
  - exists m. split_and!; [by rewrite Z.sub_0_r|done|done].
  - cbn [length] in Htop. inversion Hws as [|? ? Hw Hws']; subst.
    rewrite push_Ok, bind_Ok by lia.
    destruct (IH (st64 m (top - 8) w) (top - 8)) as (m' & Hr & Hld & Hout); [done|lia|].
    exists m'. split_and!.
    + rewrite Hr. cbn [length]. do 3 f_equal. lia.
    + intros [|i] x Hx; simpl in Hx.
      * simplify_eq. rewrite (ld64_ext (st64 m (top - 8) x) m'); [by apply ld64_st64_eq|].
        intros y Hy. apply Hout. lia.
      * rewrite <- (Hld i x Hx). f_equal. lia.
    + cbn [length]. eapply same_outside_trans; [apply (same_outside_st64 _ _ m (top - 8) w); lia|].
      eapply same_outside_mono; [..|exact Hout]; lia.
Qed.

Lemma initial_words_length p entry : length (initial_words p entry) = 24%nat.
Proof. done. Qed.

Lemma initial_words_fits p entry : fits 64 entry → Forall (fits 64) (initial_words p entry).
Proof.
  intros He. unfold initial_words. repeat apply Forall_cons_2; try apply Forall_nil_2; try done;
    destruct p; done.
Qed.

(** What the context of a new thread holds. *)
Definition initial_reg (p : ThreadPrivilege) (entry top : Z) (r : reg) : Z :=
  match r with
  | SS => if is_kernel_thread p then 0x10 else 0x23
  | CS => if is_kernel_thread p then 0x8 else 0x1b
  | RFLAGS => 0x202 | RIP => entry | RSP => top | _ => 0
  end.

Lemma prepare_initial_stack_spec m top p entry :
  fits 64 entry → 192 ≤ top ≤ 2 ^ 32 →
  ∃ m', prepare_initial_stack m (PMEM_VA_START + top) p entry = Ok (PMEM_VA_START + (top - 192), m') ∧
    (∀ r, ld64 m' (top - 192 + 8 * reg_index r) = initial_reg p entry (PMEM_VA_START + top) r) ∧
    same_outside (top - 192) top m m'.
Proof.
  intros He Htop. unfold prepare_initial_stack.
  destruct (pushes_spec (initial_words p entry) m top) as (m1 & Hr & Hld & Hout);
    [by apply initial_words_fits|rewrite initial_words_length; lia|].
  rewrite initial_words_length in *. replace (8 * Z.of_nat 24) with 192 in * by lia.
  rewrite Hr, bind_Ok, ctx_store_Ok by (unfold at_window; lia). rewrite bind_Ok.
  assert (fits 64 (PMEM_VA_START + top)) by (unfold fits, PMEM_VA_START; lia).
  eexists. split_and!; [reflexivity| |].
  - intros r. rewrite ctx_reg_st by done. destruct (decide (r = RSP)) as [->|Hne]; [done|].
    assert (initial_words p entry !! Z.to_nat (23 - reg_index r) = Some (initial_reg p entry (PMEM_VA_START + top) r)) as Hw
      by (destruct r; done).
    apply Hld in Hw. rewrite <- Hw. f_equal. pose proof (reg_index_range r). lia.
  - eapply same_outside_trans; [exact Hout|]. pose proof (reg_index_range RSP). apply same_outside_st64; simpl; lia.
Qed.

(** ** Entry arguments *)

(** The argument number a register stands for. *)
Definition reg_argument (r : reg) : option nat :=
  match r with RDI => Some 0%nat | RSI => Some 1%nat | RDX => Some 2%nat | RCX => Some 3%nat | _ => None end.

(** The value of register [r] when arguments from number [k] on are added. *)
Definition with_arguments (k : nat) (args : list Z) (r : reg) (old : Z) : Z :=
  match reg_argument r with
  | Some n => if decide (k ≤ n)%nat then default old (args !! (n - k)%nat) else old
  | None => old
  end.

Lemma argument_reg_spec (k : nat) :
  argument_reg (Z.of_nat k) = match k with 0%nat => Some RDI | 1%nat => Some RSI | 2%nat => Some RDX | 3%nat => Some RCX | _ => None end.
Proof. unfold argument_reg. do 4 (destruct k as [|k]; [done|]). by rewrite !(proj2 (Z.eqb_neq _ _)) by lia. Qed.

Lemma with_arguments_cons k a args r old :
  (k < 4)%nat →
  with_arguments (S k) args r (if decide (argument_reg (Z.of_nat k) = Some r) then a else old) =
  with_arguments k (a :: args) r old.
Proof.
  intros Hk. unfold with_arguments.
  do 4 (destruct k as [|k]; [destruct r; vm_compute; reflexivity|]). lia.
Qed.

Lemma add_arguments_spec {A} (args : list Z) (k : nat) c (t : Thread) (s : machine A) :
  at_window c → native_context t = PMEM_VA_START + c → current_entry_argument t = Z.of_nat k → (k ≤ 4)%nat →
  Forall (fits 64) args →
  ∃ t' s', for_each args add_entry_argument (t, s) = Ok (t', s') ∧
    native_context t' = native_context t ∧ kernel_stack t' = kernel_stack t ∧ pgalloc s' = pgalloc s ∧
    (∀ r, ld64 (mem s') (c + 8 * reg_index r) = with_arguments k args r (ld64 (mem s) (c + 8 * reg_index r))) ∧
    same_outside c (c + 192) (mem s) (mem s').
Proof.
  intros Hc. revert k t s. induction args as [|a args IH]; intros k t s Hn Hk Hk4 Hargs; cbn [for_each].
  - exists t, s. split_and!; try done. intros r. unfold with_arguments.
    destruct (reg_argument r); [|done]. destruct (decide _); done.
  - inversion Hargs as [|? ? Ha Hargs']; subst. cbn [add_entry_argument]. rewrite Hk.
    destruct (decide (k < 4)%nat) as [Hlt|Hge].
    + assert (∃ r, argument_reg (Z.of_nat k) = Some r) as [r Hr].
      { rewrite argument_reg_spec. do 4 (destruct k as [|k]; [eauto|]). lia. }
      rewrite Hr, Hn, ctx_store_Ok, !bind_Ok by done. pose proof (reg_index_range r).
      edestruct (IH (S k)) as (t' & s' & Hrun & E1 & E2 & E3 & Hld & Hout); [..|rewrite Hrun]; [done| |lia|done|].
      { simpl. rewrite wrap_small by eauto with infos. lia. }
      exists t', s'. cbn [native_context kernel_stack pgalloc mem set_mem] in *.
      split; [done|]. split; [congruence|]. split; [done|]. split; [done|]. split.
      * intros r'. rewrite Hld. simpl. rewrite ctx_reg_st, <- with_arguments_cons, Hr by done.
        f_equal. by destruct (decide (r' = r)), (decide (Some r = Some r')); congruence.
      * eapply same_outside_trans; [|exact Hout]. simpl. apply same_outside_st64; lia.
    + assert (k = 4%nat) as -> by lia.
      destruct (IH 4%nat t s) as (t' & s' & Hrun & E1 & E2 & E3 & Hld & Hout); [done..|].
      exists t', s'. split_and!; try done. intros r. rewrite Hld. by destruct r.
Qed.

(** ** Properties *)

(** The context of a new thread.  When the kernel stack can be allocated,
    the constructor returns, and after any list of entry arguments the saved
    context lies at the top of the two stack pages: it resumes at the entry
    point, with the code and stack segments of its privilege, interrupts
    enabled, the stack pointer at the top of the kernel stack, the first four
    arguments in rdi, rsi, rdx and rcx (the others are dropped) and zero in
    every other register.  Nothing outside the stack pages is written. *)
Theorem thread_entry_context {A} `{AlgorithmLaws A} o (v : VMA) (s : machine A) p entry args q v' s1 :
  ready (pgalloc s) → (∀ j, available (page_descriptors (pgalloc s)) j → j < 2 ^ 52) →
  fits 64 entry → Forall (fits 64) args →
  allocate_phys v s KERNEL_STACK_ORDER = Ok (Some q, v', s1) →
  ∃ t s2 t' s3, new_thread o v s p entry = Ok (t, v', s2) ∧
    for_each args add_entry_argument (t, s2) = Ok (t', s3) ∧
    kernel_stack t' = PMEM_VA_START + (q + 2) * 4096 ∧
    (∀ r, ctx_load (mem s3) (native_context t') r =
       Ok (with_arguments 0 args r (initial_reg p entry (kernel_stack t') r))) ∧
    same_outside (q * 4096) ((q + 2) * 4096) (mem s) (mem s3) ∧ pgalloc s3 = pgalloc s1.
Proof.
  intros Hr Hav He Hargs Hal. unfold new_thread. rewrite Hal. rewrite bind_Ok. ok_step.
  destruct (allocate_phys_spec v s KERNEL_STACK_ORDER (Some q) v' s1 Hr Hav ltac:(done) Hal)
    as (q' & E & Hq & Hend & _ & _ & _ & _ & Hmem). injection E as <-. change (2 ^ KERNEL_STACK_ORDER) with 2 in *.
  unfold pgd_to_vpa, pgd_to_pa. rewrite pfn_to_pa_mul by lia. rewrite pa_to_vpa_Ok by lia. rewrite bind_Ok.
  change KERNEL_STACK_SIZE with 8192.
  replace (u64 (PMEM_VA_START + q * 4096 + 8192)) with (PMEM_VA_START + (q + 2) * 4096)
    by (unfold PMEM_VA_START; rewrite wrap_small by eauto with infos; lia).
  destruct (prepare_initial_stack_spec (mem s1) ((q + 2) * 4096) p entry) as (m & Hp & Hld & Hout); [done|lia|].
  rewrite Hp, bind_Ok. set (c := (q + 2) * 4096 - 192) in *.
  assert (at_window c) as Hc by (unfold at_window; lia).
  destruct (add_arguments_spec args 0 c
    (MkThread o p entry 0 0 (PMEM_VA_START + c) (PMEM_VA_START + (q + 2) * 4096) false 0) (set_mem s1 m))
    as (t' & s3 & Hrun & E1 & E2 & E3 & Hld' & Hout'); [done|done|done|lia|done|].
  do 4 eexists. split; [reflexivity|]. split; [exact Hrun|]. cbn [native_context kernel_stack pgalloc mem set_mem] in *. split_and!; [done| | |done].
  - intros r. rewrite E1, ctx_load_Ok, Hld', Hld, E2 by done. done.
  - eapply same_outside_trans; [|eapply same_outside_mono; [..|exact Hout']; unfold c; lia].
    eapply same_outside_trans; [|eapply same_outside_mono; [..|exact Hout]; unfold c; lia].
    intros x Hx. rewrite Hmem, ld8_zero_bytes, decide_False by lia. done.
Qed.

Lemma demo_stack :
  ∃ q v' s1, allocate_phys (MkVMA [] 0 0 0) demo_machine KERNEL_STACK_ORDER = Ok (Some q, v', s1).
Proof.
  assert (match allocate_phys (MkVMA [] 0 0 0) demo_machine KERNEL_STACK_ORDER with
          | Ok (Some _, _, _) => true | _ => false end = true) as E by (vm_compute; reflexivity).
  destruct (allocate_phys _ _ _) as [[[[q|] v'] s1]|]; [eauto|discriminate..].
Qed.

Lemma thread_entry_context_witness :
  ∃ q v' s1 t s2 t' s3,
    allocate_phys (MkVMA [] 0 0 0) demo_machine KERNEL_STACK_ORDER = Ok (Some q, v', s1) ∧
    new_thread 5 (MkVMA [] 0 0 0) demo_machine User 0x400000 = Ok (t, v', s2) ∧
    for_each [1; 2; 3; 4; 5] add_entry_argument (t, s2) = Ok (t', s3) ∧
    ctx_load (mem s3) (native_context t') RDX = Ok 3 ∧ ctx_load (mem s3) (native_context t') CS = Ok 0x1b.
Proof.
  destruct demo_stack as (q & v' & s1 & E).
  destruct (thread_entry_context 5 (MkVMA [] 0 0 0) demo_machine User 0x400000 [1; 2; 3; 4; 5] q v' s1)
    as (t & s2 & t' & s3 & Hn & Ha & _ & Hld & _).
  - reflexivity.
  - intros j Hj. apply demo_available in Hj. lia.
  - unfold fits. lia.
  - repeat constructor; unfold fits; lia.
  - exact E.
  - exists q, v', s1, t, s2, t', s3. split; [exact E|]. split; [exact Hn|]. split; [exact Ha|].
    split; rewrite Hld; reflexivity.
Defined.
