(* ===== verification/Process.v ===== *)
(** * Processes

    Processes with their threads (kernel/process.cpp,
    include/infos/kernel/process.h), the stopping of a thread
    (kernel/thread.cpp), and the fast user-space mutexes (the futex calls of
    kernel/syscall.cpp). *)

From S2P Require Import Prelude Define CppMap PageAlloc PhysMem Vma CppString MemInit KTime Sched SchedFair Thread.
Local Open Scope Z_scope.

(** ** State *)

Record ExceptionPrepareInfo := MkExc { unwind_address : Z; malloc_ptr : Z; free_ptr : Z }.

(** [state_event] is the wake queue of [_state_changed]; [futex_locked] the
    word of [futex_mutex]; the futex map holds the addresses of wake queues. *)
Record Process := MkProc {
  kernel_process : bool; terminated : bool; vma : VMA; threads : list Z; main_thread : Z;
  state_event : Z; exceptionInfo : option ExceptionPrepareInfo; wake_queue_map : Map Z; futex_locked : bool }.

(** The scheduler with its entities (a thread and its scheduling entity have
    the same address), the thread objects, the processes, and memory. *)
Record kernel (S A : Type) := MkK {
  sched : Scheduler S; thrs : gmap Z Thread; procs : gmap Z Process; mach : machine A }.
Arguments MkK {S A}.
Arguments sched {S A}.
Arguments thrs {S A}.
Arguments procs {S A}.
Arguments mach {S A}.

Definition with_terminated (p : Process) : Process :=
  MkProc (kernel_process p) true (vma p) (threads p) (main_thread p) (state_event p) None
    (wake_queue_map p) (futex_locked p).
Definition with_threads (p : Process) (v : VMA) (ts : list Z) : Process :=
  MkProc (kernel_process p) (terminated p) v ts (main_thread p) (state_event p) (exceptionInfo p)
    (wake_queue_map p) (futex_locked p).
Definition with_main_thread (p : Process) (t : Z) : Process :=
  MkProc (kernel_process p) (terminated p) (vma p) (threads p) t (state_event p) (exceptionInfo p)
    (wake_queue_map p) (futex_locked p).
Definition with_futexes (p : Process) (m : Map Z) (l : bool) : Process :=
  MkProc (kernel_process p) (terminated p) (vma p) (threads p) (main_thread p) (state_event p)
    (exceptionInfo p) m l.
Definition setExceptionPrepareInfo (p : Process) (i : ExceptionPrepareInfo) : Process :=
  MkProc (kernel_process p) (terminated p) (vma p) (threads p) (main_thread p) (state_event p)
    (Some i) (wake_queue_map p) (futex_locked p).

Section process.
Context {S A : Type} `{SchedulingAlgorithm S} `{PageAllocatorAlgorithm A}.
Implicit Type k : kernel S A.

Definition put_sched k (s : Scheduler S) : kernel S A := MkK s (thrs k) (procs k) (mach k).
Definition put_proc k (a : Z) (p : Process) : kernel S A := MkK (sched k) (thrs k) (<[a := p]> (procs k)) (mach k).
Definition put_thread k (a : Z) (t : Thread) : kernel S A := MkK (sched k) (<[a := t]> (thrs k)) (procs k) (mach k).
Definition put_mach k (m : machine A) : kernel S A := MkK (sched k) (thrs k) (procs k) m.

Definition the_thread k (a : Z) : result Thread := get NullDeref (thrs k !! a).
Definition the_process k (a : Z) : result Process := get NullDeref (procs k !! a).

(** [Thread::current()], and the process that owns it. *)
Definition current_thr k : result Z := get NullDeref (current_thread (sched k)).
Definition current_owner k : result Z := c ← current_thr k; t ← the_thread k c; Ok (owner t).

(** ** Creating *)

(** [Process::create_thread]; [new] and [event] are the addresses of the new
    thread object and of its event. *)
Definition create_thread k (proc new event : Z) (priv : ThreadPrivilege) (entry : Z)
    (prio : SchedulingEntityPriority.SchedulingEntityPriority) : result (kernel S A) :=
  p ← the_process k proc;
  _ ← cassert (negb (kernel_process p && negb (is_kernel_thread priv)));
  '(t, v, m) ← new_thread proc (vma p) (mach k) priv entry;
  let t := set_thread_id t (u32 (Z.of_nat (length (threads p)))) in
  let s := put_entity (put_queue (sched k) event (MkWQ [] false)) new (new_entity prio event) in
  Ok (put_proc (put_thread (put_mach (put_sched k s) m) new t) proc (with_threads p v (threads p ++ [new]))).

(** The constructor of [Process]. *)
Definition new_process k (template_pml4 : option Z) (proc pevent thread tevent : Z) (kernel_proc : bool) (entry : Z)
    : result (kernel S A) :=
  '(v, m) ← new_vma (mach k);
  m ← install_default_kernel_mapping template_pml4 v m;
  let k := put_sched (put_mach k m) (put_queue (sched k) pevent (MkWQ [] false)) in
  let p := MkProc kernel_proc false v [] 0 pevent None empty_map false in
  k ← create_thread (put_proc k proc p) proc thread tevent (if kernel_proc then Kernel else User) entry
        SchedulingEntityPriority.NORMAL;
  p ← the_process k proc;
  Ok (put_proc k proc (with_main_thread p thread)).

(** [Process::start]. *)
Definition process_start (fuel : nat) k (proc : Z) : result (kernel S A) :=
  p ← the_process k proc;
  s ← thread_start fuel (main_thread p) (sched k);
  Ok (put_sched k s).

(** ** Stopping *)

(** A store into the memory of a process, byte by byte through its page
    tables. *)
Definition user_store64 (v : VMA) (m : machine A) (va w : Z) : result (machine A) :=
  for_range 0 8 (λ i m, pa ← get_mapping v m (u64 (va + i)); pa ← get (Thrown (u64 (va + i))) pa;
    Ok (set_mem m (<[pa := u8 (Z.shiftr w (8 * i))]> (mem m)))) m.

Definition user_load64 (v : VMA) (m : machine A) (va : Z) : result Z :=
  for_range 0 8 (λ i acc, pa ← get_mapping v m (u64 (va + i)); pa ← get (Thrown (u64 (va + i))) pa;
    Ok (acc + Z.shiftl (ld8 (mem m) pa) (8 * i))) 0.

(** The branch of [Thread::stop] that makes the thread continue in the unwinder
    of its process: [header] is the address of the exception's unwind header. *)
Definition stop_with_exception k (t : Z) (info : ExceptionPrepareInfo) (header : Z) : result (kernel S A) :=
  th ← the_thread k t;
  rip ← ctx_load (mem (mach k)) (native_context th) RIP;
  let ctx := if 0xffff000000000000 <? rip then before_syscall_context th else native_context th in
  let th := MkThread (owner th) (privilege th) (entry_point th) (current_entry_argument th) (thread_id th) ctx
              (kernel_stack th) (in_syscall th) (before_syscall_context th) in
  rsp ← ctx_load (mem (mach k)) ctx RSP;
  let rsp := u64 (rsp - 8) in
  m ← ctx_store (mem (mach k)) ctx RSP rsp;
  rip ← ctx_load m ctx RIP;
  p ← the_process k (owner th);
  m ← user_store64 (vma p) (set_mem (mach k) m) rsp rip;
  m' ← ctx_store (mem m) ctx RIP (unwind_address info);
  m' ← ctx_store m' ctx RDI header;
  Ok (put_thread (put_mach k (set_mem m m')) t th).

(** [Thread::stop]: [false] when the call does not return, because the thread
    that made it has stopped itself and yielded. *)
Definition thread_stop (fuel : nat) k (t : Z) (simple_exit : bool) (header : Z) : result (bool * kernel S A) :=
  c ← current_thr k;
  if bool_decide (c = t) && simple_exit then
    s ← set_entity_state fuel t STOPPED (sched k);
    s ← kernel_syscall_handler 1 s;
    Ok (false, put_sched k s)
  else
    th ← the_thread k t;
    p ← the_process k (owner th);
    match exceptionInfo p with
    | None =>
        s ← set_entity_state fuel t STOPPED (sched k);
        Ok (true, put_sched k s)
    | Some info => k ← stop_with_exception k t info header; Ok (true, k)
    end.

(** The loop of [terminate], which ends when a call does not return. *)
Fixpoint stop_all (fuel : nat) (ts : list Z) (k : kernel S A) : result (bool * kernel S A) :=
  match ts with
  | [] => Ok (true, k)
  | t :: ts' =>
      '(returned, k) ← thread_stop fuel k t true 0;
      if (returned : bool) then stop_all fuel ts' k else Ok (false, k)
  end.

Definition terminate (fuel : nat) k (proc : Z) : result (bool * kernel S A) :=
  p ← the_process k proc;
  s ← trigger fuel (state_event p) (sched k);
  stop_all fuel (threads p) (put_sched (put_proc k proc (with_terminated p)) s).

(** The destructor, with the assertion of its loop. *)
Definition destroy_process k (proc : Z) : result (kernel S A) :=
  p ← the_process k proc;
  k ← for_each (threads p) (λ t k,
        e ← entity (sched k) t;
        _ ← cassert (bool_decide (state e = STOPPED));
        Ok (MkK (sched k) (base.delete t (thrs k)) (procs k) (mach k))) k;
  Ok (MkK (sched k) (thrs k) (base.delete proc (procs k)) (mach k)).

(** ** Futexes *)

(** [Process::lock], [Process::unlock]. *)
Definition futex_lock (p : Process) : result Process :=
  _ ← check Deadlock (negb (futex_locked p)); Ok (with_futexes p (wake_queue_map p) true).
Definition futex_unlock (p : Process) : Process := with_futexes p (wake_queue_map p) false.

(** [Process::set_thread_waiting]; [new_queue] is the address of the queue it
    allocates when the address has none. *)
Definition set_thread_waiting (fuel : nat) k (proc t va new_queue : Z) : result (kernel S A) :=
  p ← the_process k proc;
  p ← futex_lock p;
  '(p, s) ← (if contains_key (wake_queue_map p) va then Ok (p, sched k)
             else m ← add (wake_queue_map p) va new_queue;
                  Ok (with_futexes p m (futex_locked p), put_queue (sched k) new_queue (MkWQ [] false)));
  queue ← get_value (wake_queue_map p) va;
  let k := put_sched (put_proc k proc (futex_unlock p)) s in
  s ← wq_sleep fuel queue t (sched k);
  Ok (put_sched k s).

(** [Process::wake_up_threads]; [wakeMax] takes an [int]. *)
Definition wake_up_threads (fuel : nat) k (proc va number : Z) : result (kernel S A) :=
  p ← the_process k proc;
  match try_get_value (wake_queue_map p) va with
  | None => Ok k
  | Some queue => s ← wakeMax fuel (s32 number) queue (sched k); Ok (put_sched k s)
  end.

(** The first part of [sys_futex_wait], under the lock: does the word hold the
    expected value? *)
Definition futex_test k (proc va expected : Z) : result bool :=
  p ← the_process k proc;
  _ ← futex_lock p;
  w ← user_load64 (vma p) (mach k) va;
  Ok (w =? expected).

Definition sys_futex_wait (fuel : nat) k (va expected new_queue : Z) : result (kernel S A) :=
  c ← current_thr k;
  proc ← current_owner k;
  b ← futex_test k proc va expected;
  if (b : bool) then set_thread_waiting fuel k proc c va new_queue else Ok k.

Definition sys_futex_wake_up (fuel : nat) k (va number : Z) : result (kernel S A) :=
  proc ← current_owner k;
  p ← the_process k proc;
  p ← futex_lock p;
  k ← wake_up_threads fuel (put_proc k proc p) proc va number;
  p ← the_process k proc;
  Ok (put_proc k proc (futex_unlock p)).
End process.

(** ** Wake-ups of threads that nobody waits for *)

Section quiet.
Context {S : Type} `{SchedulingLaws S}.
Implicit Types s t : Scheduler S.

(** [i] exists, its event can be triggered, and has no waiters. *)
Definition quiet s (i : Z) : Prop :=
  ∃ e, entities s !! i = Some e ∧ queues s !! state_changed e = Some (MkWQ [] false).

(** [s'] is [s] with the states of the entities changed by [f]. *)
Definition states_by s s' (f : Z → SchedulingEntityState → SchedulingEntityState) : Prop :=
  ∀ j, entities s' !! j = (λ e, with_state e (f j (state e))) <$> entities s !! j.

Lemma with_state_same e : with_state e (state e) = e.
Proof. by destruct e. Qed.

Lemma states_by_quiet s s' f i :
  states_by s s' f → (∀ k, queues s' !! k = queues s !! k) → quiet s i → quiet s' i.
Proof. intros Hs Hq (e & He & Hw). eexists. rewrite Hs, He. split; [done|]. by rewrite Hq. Qed.

Lemma set_quiet fuel s i st :
  is_Some (algorithm s) → quiet s i → st ≠ RUNNING →
  ∃ s', set_entity_state_with (wake (Datatypes.S fuel)) i st s = Ok s' ∧ (is_Some (algorithm s') ∧ clk s' = clk s) ∧
    states_by s s' (λ j x, if decide (j = i) then st else x) ∧ ∀ k, queues s' !! k = queues s !! k.
Proof.
  intros [a Ha] (e & He & Hq) Hst. destruct (decide (state e = st)) as [E|E].
  - exists s. split_and!; [|eauto|done| |done].
    + unfold set_entity_state_with, entity. rewrite Ha, He. cbn [get]. rewrite !bind_Ok.
      by rewrite bool_decide_true.
    + intros j. destruct (decide (j = i)) as [->|]; [rewrite He; simpl; by rewrite <- E, with_state_same|].
      destruct (entities s !! j); [|done]. simpl. by rewrite with_state_same.
  - destruct (set_entity_state_step (wake (Datatypes.S fuel)) s i st a e Ha He E Hst) as [a' ->].
    cbn [wake]. unfold queue. simpl. rewrite Hq. simpl. eexists. split_and!; [reflexivity|by eexists|done| |].
    + intros j. simpl. destruct (decide (j = i)) as [->|]; [by rewrite lookup_insert_eq, He|].
      rewrite lookup_insert_ne by done. destruct (entities s !! j); [|done]. simpl. by rewrite with_state_same.
    + intros k. simpl. destruct (decide (k = state_changed e)) as [->|]; [by rewrite lookup_insert_eq|].
      by rewrite !lookup_insert_ne.
Qed.

Lemma wake_quiet_loop fuel ws s :
  is_Some (algorithm s) → (∀ x, x ∈ ws → quiet s x) →
  ∃ s', for_each ws (λ w, set_entity_state_with (wake (Datatypes.S fuel)) w RUNNABLE) s = Ok s' ∧
    is_Some (algorithm s') ∧ states_by s s' (λ j x, if decide (j ∈ ws) then RUNNABLE else x) ∧
    ∀ k, queues s' !! k = queues s !! k.
Proof.
  revert s. induction ws as [|w ws IH]; intros s Ha Hq; cbn [for_each].
  - exists s. split_and!; try done. intros j.
    destruct (decide (j ∈ [])) as [Hn|]; [by apply elem_of_nil in Hn|]. destruct (entities s !! j); [|done]. simpl. by rewrite with_state_same.
  - destruct (set_quiet fuel s w RUNNABLE Ha) as (t & -> & [Ht _] & Hst & Hk); [apply Hq, list_elem_of_here|done|].
    rewrite bind_Ok. destruct (IH t Ht) as (s' & Hr & Ha' & Hst' & Hk').
    { intros x Hx. eapply states_by_quiet; [done..|]. by apply Hq, list_elem_of_further. }
    exists s'. split_and!; [done..| |intros k; by rewrite Hk', Hk].
    intros j. rewrite Hst', Hst. destruct (entities s !! j) as [e|]; [|done]. simpl.
    destruct (decide (j = w)) as [->|Hne].
    + rewrite (decide_True (P := w ∈ w :: ws)) by apply list_elem_of_here. by destruct (decide (w ∈ ws)).
    + destruct (decide (j ∈ ws)); [rewrite decide_True by (by apply list_elem_of_further)|rewrite decide_False by set_solver];
        done.
Qed.

(** Waking a queue whose waiters nobody waits for. *)
Lemma wake_quiet fuel s q ws :
  is_Some (algorithm s) → queues s !! q = Some (MkWQ ws false) → (∀ x, x ∈ ws → quiet s x ∧
    ∃ e, entities s !! x = Some e ∧ state_changed e ≠ q) →
  ∃ s', wake (Datatypes.S (Datatypes.S fuel)) q s = Ok s' ∧ is_Some (algorithm s') ∧
    states_by s s' (λ j x, if decide (j ∈ ws) then RUNNABLE else x) ∧
    ∀ k, queues s' !! k = if decide (k = q) then Some (MkWQ [] false) else queues s !! k.
Proof.
  intros Ha Hq Hws.
  assert (∀ n, wake (Datatypes.S n) q s =
    (t ← for_each ws (λ w, set_entity_state_with (wake n) w RUNNABLE) (put_queue s q (MkWQ ws true));
     Ok (put_queue t q (MkWQ [] false)))) as -> by (intros n; cbn [wake]; unfold queue; by rewrite Hq).
  destruct (wake_quiet_loop fuel ws (put_queue s q (MkWQ ws true))) as (t & Hr & Ht & Hst & Hk); [done| |].
  - intros x Hx. destruct (Hws x Hx) as [(e & He & Hw) (e' & He' & Hne)]. simplify_eq.
    exists e. split; [done|]. simpl. by rewrite lookup_insert_ne.
  - rewrite Hr, bind_Ok. eexists. split_and!; [reflexivity|done|exact Hst|].
    intros k. simpl. destruct (decide (k = q)) as [->|]; [by rewrite lookup_insert_eq|].
    rewrite lookup_insert_ne, Hk by done. simpl. by rewrite lookup_insert_ne.
Qed.

(** [wakeMax] takes waiters from the front. *)
Lemma wake_first_quiet fuel n q ws s :
  is_Some (algorithm s) → queues s !! q = Some (MkWQ ws true) → (∀ x, x ∈ ws → quiet s x) →
  ∃ s', wake_first (Datatypes.S fuel) n q s = Ok s' ∧ is_Some (algorithm s') ∧
    states_by s s' (λ j x, if decide (j ∈ take n ws) then RUNNABLE else x) ∧
    ∀ k, queues s' !! k = if decide (k = q) then Some (MkWQ (drop n ws) true) else queues s !! k.
Proof.
  assert (∀ s (l : list Z), l = [] → states_by s s (λ j x, if decide (j ∈ l) then RUNNABLE else x)) as Hnone.
  { intros t l -> j. destruct (decide (j ∈ [])) as [Hn|]; [by apply elem_of_nil in Hn|].
    destruct (entities t !! j); [|done]. simpl. by rewrite with_state_same. }
  revert ws s. induction n as [|n IH]; intros ws s Ha Hq Hws; cbn [wake_first].
  - exists s. split_and!; [done..|by apply Hnone|]. intros k. rewrite drop_0. by destruct (decide (k = q)) as [->|].
  - unfold queue. rewrite Hq. ok_step. cbn [waiters wq_locked]. destruct ws as [|w ws].
    + exists s. split_and!; [done..|by apply Hnone|]. intros k. simpl. by destruct (decide (k = q)) as [->|].
    + assert (∀ x, x ∈ w :: ws → quiet (put_queue s q (MkWQ ws true)) x) as Hws'.
      { intros x Hx. destruct (Hws x Hx) as (e & He & Hqe). exists e. split; [done|]. simpl.
        rewrite lookup_insert_ne; [done|]. intros E. rewrite E in Hq. congruence. }
      destruct (set_quiet fuel (put_queue s q (MkWQ ws true)) w RUNNABLE) as (t & Hr & [Ht _] & Hst & Hk);
        [done|apply Hws', list_elem_of_here|done|].
      change (set_entity_state (Datatypes.S fuel) w RUNNABLE (put_queue s q (MkWQ ws true)) = Ok t) in Hr.
      rewrite Hr, bind_Ok. destruct (IH ws t) as (s' & Hrun & Ha' & Hst' & Hk'); [done| | |].
      { rewrite Hk. simpl. by rewrite lookup_insert_eq. }
      { intros x Hx. eapply states_by_quiet; [exact Hst|exact Hk|]. by apply Hws', list_elem_of_further. }
      exists s'. split_and!; [done..| |].
      * intros j. rewrite Hst', Hst. simpl. destruct (entities s !! j) as [e|]; [|done]. simpl.
        destruct (decide (j = w)) as [->|Hne].
        -- rewrite (decide_True (P := w ∈ w :: take n ws)) by apply list_elem_of_here. by destruct (decide _).
        -- destruct (decide (j ∈ take n ws)); [rewrite decide_True by (by apply list_elem_of_further)|
             rewrite decide_False by (rewrite elem_of_cons; tauto)]; done.
      * intros k. rewrite Hk', Hk. simpl. destruct (decide (k = q)) as [->|]; [done|]. by rewrite lookup_insert_ne.
Qed.

Lemma wakeMax_quiet fuel n q ws s :
  is_Some (algorithm s) → queues s !! q = Some (MkWQ ws false) →
  (∀ x, x ∈ ws → quiet s x ∧ ∃ e, entities s !! x = Some e ∧ state_changed e ≠ q) →
  ∃ s', wakeMax (Datatypes.S fuel) n q s = Ok s' ∧
    states_by s s' (λ j x, if decide (j ∈ take (Z.to_nat n) ws) then RUNNABLE else x) ∧
    ∀ k, queues s' !! k = if decide (k = q) then Some (MkWQ (drop (Z.to_nat n) ws) false) else queues s !! k.
Proof.
  intros Ha Hq Hws. unfold wakeMax, queue. rewrite Hq. cbn [get negb check wq_locked]. rewrite !bind_Ok. cbn [waiters].
  destruct (wake_first_quiet fuel (Z.to_nat n) q ws (put_queue s q (MkWQ ws true))) as (t & -> & Ht & Hst & Hk); [done| | |].
  - simpl. by rewrite lookup_insert_eq.
  - intros x Hx. destruct (Hws x Hx) as [(e & He & Hqe) (e' & He' & Hne)]. simplify_eq.
    exists e. split; [done|]. simpl. by rewrite lookup_insert_ne.
  - rewrite bind_Ok, Hk, decide_True by done. ok_step. cbn [waiters].
    eexists. split_and!; [reflexivity|exact Hst|]. intros k. simpl.
    destruct (decide (k = q)) as [->|]; [by rewrite lookup_insert_eq|].
    rewrite lookup_insert_ne, Hk, decide_False by done. simpl. by rewrite lookup_insert_ne.
Qed.
End quiet.

(** ** Termination of a process *)

Section termination.
Context {S A : Type} `{SchedulingLaws S} `{PageAllocatorAlgorithm A}.
Implicit Type k : kernel S A.

Definition state_of k (t : Z) : option SchedulingEntityState := state <$> entities (sched k) !! t.

Lemma states_by_state (s s' : Scheduler S) f j :
  states_by s s' f → state <$> entities s' !! j = f j <$> (state <$> entities s !! j).
Proof. intros Hs. rewrite Hs. by destruct (entities s !! j). Qed.

(** A thread of the process that can be stopped without waking another one. *)
Definition stoppable k (proc t : Z) : Prop :=
  idle_entity (sched k) ≠ Some t ∧ quiet (sched k) t ∧ ∃ th, thrs k !! t = Some th ∧ owner th = proc.

Record running k (c : Z) : Prop := {
  run_inv : sched_inv (sched k);
  run_active : active (sched k) = true;
  run_current : current_thread (sched k) = Some c }.

Lemma stop_state fuel k t c :
  running k c → idle_entity (sched k) ≠ Some t → quiet (sched k) t →
  ∃ s, set_entity_state (Datatypes.S fuel) t STOPPED (sched k) = Ok s ∧ running (put_sched k s) c ∧
    states_by (sched k) s (λ j x, if decide (j = t) then STOPPED else x) ∧
    (∀ q, queues s !! q = queues (sched k) !! q) ∧ idle_entity s = idle_entity (sched k).
Proof.
  intros [I Ha Hc] Hid Hq. destruct (inv_queue _ I) as (a & Halg & _).
  destruct (set_quiet fuel (sched k) t STOPPED) as (s & Hr & _ & Hst & Hqs); [by eexists|done..|].
  change (set_entity_state (Datatypes.S fuel) t STOPPED (sched k) = Ok s) in Hr.
  destruct (set_entity_state_inv (Datatypes.S fuel) t STOPPED (sched k) s I Hid ltac:(done) Hr)
    as [I' (R1 & R2 & R3 & R4 & _)].
  exists s. split_and!; try done. constructor; simpl; [done|congruence|congruence].
Qed.

Lemma stop_all_other fuel k t ts c th p s :
  current_thread (sched k) = Some c → t ≠ c → thrs k !! t = Some th → procs k !! owner th = Some p →
  exceptionInfo p = None → set_entity_state fuel t STOPPED (sched k) = Ok s →
  stop_all fuel (t :: ts) k = stop_all fuel ts (put_sched k s).
Proof.
  intros Hc Hne Hth Hp Hex Hs. cbn [stop_all].
  unfold thread_stop, current_thr, the_thread, the_process. rewrite Hc. ok_step.
  rewrite bool_decide_false by done. cbn [andb]. rewrite Hth. ok_step. rewrite Hp. cbn [get].
  by rewrite bind_Ok, Hex, Hs, !bind_Ok.
Qed.

Lemma stop_all_self fuel k t ts s s' :
  current_thread (sched k) = Some t → set_entity_state fuel t STOPPED (sched k) = Ok s → schedule s = Ok s' →
  stop_all fuel (t :: ts) k = Ok (false, put_sched k s').
Proof.
  intros Hc Hs Hs'. cbn [stop_all]. unfold thread_stop, current_thr. rewrite Hc. ok_step.
  rewrite bool_decide_true by done. cbn [andb]. rewrite Hs, bind_Ok.
  unfold kernel_syscall_handler. cbn [Z.eqb Pos.eqb]. by rewrite Hs', !bind_Ok.
Qed.

Lemma dispatched_states (s s' : Scheduler S) n a j :
  dispatched s s' n a → state <$> entities s' !! j = state <$> entities s !! j.
Proof.
  intros D. destruct (disp_state _ _ _ _ D) as (e & He & _ & ->).
  destruct (decide (j = n)) as [->|]; [by rewrite lookup_insert_eq, He|by rewrite lookup_insert_ne].
Qed.

(** The loop stops the threads up to the current one, and no further. *)
Lemma stop_all_prefix fuel proc p c l1 l2 k :
  running k c → procs k !! proc = Some p → exceptionInfo p = None → c ∉ l1 →
  (∀ t, t ∈ l1 ++ [c] → stoppable k proc t) →
  ∃ k' n, stop_all (Datatypes.S fuel) (l1 ++ c :: l2) k = Ok (false, k') ∧ procs k' = procs k ∧
    (∀ j, state_of k' j = if decide (j ∈ l1 ++ [c]) then Some STOPPED else state_of k j) ∧
    current_thread (sched k') = Some n ∧ state_of k' n = Some RUNNABLE.
Proof.
  revert k. induction l1 as [|t l1 IH]; intros k R Hp Hex Hc Hts; cbn [app].
  - destruct (Hts c) as (Hid & Hq & _); [apply list_elem_of_here|].
    destruct (stop_state fuel k c c R Hid Hq) as (s & Hr & R' & Hst & _).
    destruct (inv_queue _ (run_inv _ _ R')) as (a & Ha & _).
    destruct (schedule_spec s a (run_inv _ _ R') (run_active _ _ R') Ha) as (s' & n & Hs & _ & D & _).
    rewrite (stop_all_self _ k c l2 s s' (run_current _ _ R) Hr Hs).
    exists (put_sched k s'), n. split_and!; [done..| |apply (disp_thread _ _ _ _ D)|].
    + intros j. unfold state_of. simpl. rewrite (dispatched_states s s' n a j D), (states_by_state _ _ _ j Hst).
      destruct Hq as (f & Hf & _). destruct (decide (j = c)) as [->|Hjc].
      * rewrite Hf, decide_True by (apply list_elem_of_here). done.
      * rewrite (decide_False (P := j ∈ [c])) by (by rewrite list_elem_of_singleton).
        destruct (entities (sched k) !! j); done.
    + destruct (disp_state _ _ _ _ D) as (e & He & Hrun & _).
      unfold state_of. simpl. rewrite (dispatched_states s s' n a n D), He. simpl. by rewrite Hrun.
  - apply not_elem_of_cons in Hc as [Hct Hc].
    destruct (Hts t) as (Hid & Hq & th & Hth & Hown); [apply list_elem_of_here|].
    destruct (stop_state fuel k t c R Hid Hq) as (s & Hr & R' & Hst & Hqs & Hids).
    rewrite (stop_all_other _ k t (l1 ++ c :: l2) c th p s (run_current _ _ R)) by (try rewrite Hown; done).
    destruct (IH (put_sched k s)) as (k' & n & Hrun & Hprocs & Hstates & Hn & Hnr); [done..| |].
    { intros u Hu. destruct (Hts u) as (Hidu & Hqu & Hown_u); [by apply list_elem_of_further|].
      split_and!; [simpl; congruence|by eapply states_by_quiet|done]. }
    exists k', n. split_and!; [done..| |done|done]. intros j. rewrite Hstates.
    destruct (decide (j ∈ l1 ++ [c])) as [Hin|Hin].
    + rewrite decide_True by (by apply list_elem_of_further). done.
    + unfold state_of. simpl. rewrite (states_by_state _ _ _ j Hst).
      destruct Hq as (f & Hf & _). destruct (decide (j = t)) as [->|Hjt].
      * rewrite Hf, decide_True by (apply list_elem_of_here). done.
      * rewrite decide_False by (rewrite elem_of_cons; naive_solver).
        destruct (entities (sched k) !! j); done.
Qed.
End termination.

(** ** Properties *)

(** Terminating a process.  [terminate] wakes the threads that wait for
    the process, and stops its threads in the order of its list up to and
    including the thread that made the call; that thread then yields for good,
    so the call does not return and the threads after it in the list keep their
    state.  (Here no thread of the process is being joined.) *)
Theorem terminate_stops_up_to_current {S A} `{SchedulingLaws S} `{PageAllocatorAlgorithm A}
    fuel (k : kernel S A) proc p l1 c l2 ws :
  running k c → procs k !! proc = Some p → threads p = l1 ++ c :: l2 → NoDup (threads p) →
  (∀ t, t ∈ threads p → stoppable k proc t) →
  queues (sched k) !! state_event p = Some (MkWQ ws false) →
  (∀ x, x ∈ ws → quiet (sched k) x ∧ x ∉ threads p) →
  (∀ j e, entities (sched k) !! j = Some e → state_changed e ≠ state_event p) →
  ∃ k' n, terminate (Datatypes.S (Datatypes.S fuel)) k proc = Ok (false, k') ∧
    terminated <$> procs k' !! proc = Some true ∧
    (∀ t, t ∈ l1 ++ [c] → state_of k' t = Some STOPPED) ∧
    (∀ t, t ∈ l2 → state_of k' t = state_of k t) ∧
    (∀ x, x ∈ ws → state_of k' x = Some RUNNABLE) ∧
    current_thread (sched k') = Some n ∧ n ∉ l1 ++ [c].
Proof.
  intros R Hp Hl Hnd Hst Hq Hws Hev. unfold terminate, the_process. rewrite Hp. ok_step.
  destruct (inv_queue _ (run_inv _ _ R)) as (a & Ha & _).
  destruct (wake_quiet fuel (sched k) (state_event p) ws) as (s & Hr & _ & Hsts & Hqs); [by eexists|done| |].
  { intros x Hx. destruct (Hws x Hx) as [Hqx _]. split; [done|]. destruct Hqx as (e & He & _). exists e. eauto. }
  assert (sched_inv s) as I by (eapply wake_inv; [apply (run_inv _ _ R)|exact Hr]).
  destruct (wake_roles _ _ _ _ Hr) as (R1 & R2 & R3 & R4 & _).
  unfold trigger. rewrite Hr, bind_Ok, Hl.
  set (k1 := put_sched (put_proc k proc (with_terminated p)) s).
  assert (running k1 c) as R'
    by (constructor; simpl; [done|rewrite R4; apply (run_active _ _ R)|rewrite R3; apply (run_current _ _ R)]).
  assert (NoDup (l1 ++ c :: l2)) as Hnd' by (by rewrite <- Hl).
  apply NoDup_app in Hnd' as (_ & Hdis & [Hcl2 _]%NoDup_cons).
  assert (∀ t, t ∈ l1 ++ [c] → t ∈ threads p) as Hsub.
  { intros t. rewrite Hl, !elem_of_app, !elem_of_cons, elem_of_nil. tauto. }
  destruct (stop_all_prefix (Datatypes.S fuel) proc (with_terminated p) c l1 l2 k1) as (k' & n & Hrun & Hprocs & Hstates & Hn & Hnr).
  - done.
  - simpl. by rewrite lookup_insert_eq.
  - done.
  - intros Hin. apply (Hdis c Hin). apply list_elem_of_here.
  - intros t Ht. destruct (Hst t (Hsub t Ht)) as (Hid & (e & He & Hqe) & th & Hth & Hown).
    split_and!; [simpl; congruence| |by exists th].
    exists (with_state e (if decide (t ∈ ws) then RUNNABLE else state e)). simpl. rewrite Hsts, He. split; [done|].
    simpl. rewrite Hqs, decide_False by eauto. done.
  - assert (∀ j, state_of k1 j = if decide (j ∈ ws) then (λ _, RUNNABLE) <$> state_of k j else state_of k j) as E1.
    { intros j. unfold state_of. simpl. rewrite (states_by_state _ _ _ j Hsts).
      destruct (entities (sched k) !! j) as [e|]; simpl; by destruct (decide (j ∈ ws)). }
    assert (∀ x, x ∈ ws → x ∉ l1 ++ [c]) as Hwsn by (intros x Hx Hin; destruct (Hws x Hx) as [_ Hn']; eauto).
    exists k', n. split_and!; [done|rewrite Hprocs; simpl; by rewrite lookup_insert_eq| | | |done|].
    + intros t Ht. by rewrite Hstates, decide_True.
    + intros t Ht. assert (t ∉ ws).
      { intros Hx. destruct (Hws t Hx) as [_ Hn']. apply Hn'. rewrite Hl, elem_of_app, elem_of_cons. auto. }
      rewrite Hstates, E1, !decide_False; [done|done|]. rewrite elem_of_app, list_elem_of_singleton.
      intros [Hin| ->]; [|done]. apply (Hdis t Hin). by apply list_elem_of_further.
    + intros x Hx. rewrite Hstates, decide_False by auto. rewrite E1, decide_True by done.
      destruct (Hws x Hx) as [(e & He & _) _]. unfold state_of. by rewrite He.
    + intros Hin. rewrite Hstates, decide_True in Hnr by done. done.
Qed.

(** A joiner comes back to life.  When a worker thread ends its process
    while the main thread sleeps on the worker's event, [terminate] stops the
    main thread and then, by stopping the worker, makes the main thread RUNNABLE
    again: it resumes in a terminated process. *)
Theorem terminate_revives_joiner {S A} `{SchedulingLaws S} `{PageAllocatorAlgorithm A}
    fuel (k : kernel S A) proc p main worker e f :
  running k worker → procs k !! proc = Some p → threads p = [main; worker] → main ≠ worker →
  stoppable k proc main → idle_entity (sched k) ≠ Some worker →
  queues (sched k) !! state_event p = Some (MkWQ [] false) →
  entities (sched k) !! main = Some e → entities (sched k) !! worker = Some f →
  state f = RUNNABLE → state_changed e ≠ state_changed f →
  state_changed e ≠ state_event p → state_changed f ≠ state_event p →
  queues (sched k) !! state_changed f = Some (MkWQ [main] false) →
  ∃ k', terminate (Datatypes.S (Datatypes.S fuel)) k proc = Ok (false, k') ∧
    terminated <$> procs k' !! proc = Some true ∧
    state_of k' worker = Some STOPPED ∧ state_of k' main = Some RUNNABLE.
Proof.
  intros R Hp Hl Hne Hst Hidw Hq He Hf Ef Hef Hev Hfv Hqf.
  unfold terminate, the_process. rewrite Hp. ok_step.
  destruct (inv_queue _ (run_inv _ _ R)) as (a & Ha & _).
  destruct (wake_quiet fuel (sched k) (state_event p) []) as (s & Hr & _ & Hsts & Hqs); [by eexists|done| |].
  { intros x Hx. by apply elem_of_nil in Hx. }
  assert (sched_inv s) as I by (eapply wake_inv; [apply (run_inv _ _ R)|exact Hr]).
  destruct (wake_roles _ _ _ _ Hr) as (R1 & R2 & R3 & R4 & _).
  unfold trigger. rewrite Hr, bind_Ok, Hl.
  set (k1 := put_sched (put_proc k proc (with_terminated p)) s).
  assert (running k1 worker) as R'
    by (constructor; simpl; [done|rewrite R4; apply (run_active _ _ R)|rewrite R3; apply (run_current _ _ R)]).
  destruct Hst as (Hid & (e' & He' & Hqe) & th & Hth & Hown). rewrite He in He'. injection He' as <-.
  assert (entities s !! main = Some e) as He1.
  { rewrite Hsts, He. simpl. destruct (decide (main ∈ [])) as [Hn|]; [by apply elem_of_nil in Hn|by rewrite with_state_same]. }
  assert (entities s !! worker = Some f) as Hf1.
  { rewrite Hsts, Hf. simpl. destruct (decide (worker ∈ [])) as [Hn|]; [by apply elem_of_nil in Hn|by rewrite with_state_same]. }
  destruct (stop_state (Datatypes.S fuel) k1 main worker R') as (s2 & Hr2 & R2' & Hst2 & Hq2 & Hid2).
  { simpl. congruence. }
  { exists e. simpl. rewrite Hqs, decide_False by done. done. }
  rewrite (stop_all_other _ k1 main [worker] worker th (with_terminated p) s2 (run_current _ _ R'));
    [|done|done|simpl; by rewrite Hown, lookup_insert_eq|done|exact Hr2].
  simpl in Hst2, Hq2. destruct (inv_queue _ (run_inv _ _ R2')) as (a2 & Ha2 & _). simpl in Ha2.
  assert (entities s2 !! worker = Some f) as Hf2.
  { rewrite Hst2, Hf1. simpl. rewrite decide_False by done. by rewrite with_state_same. }
  assert (entities s2 !! main = Some (with_state e STOPPED)) as He2.
  { rewrite Hst2, He1. simpl. by rewrite decide_True by done. }
  destruct (set_entity_state_step (wake (Datatypes.S (Datatypes.S fuel))) s2 worker STOPPED a2 f Ha2 Hf2) as [a3 E3];
    [by rewrite Ef|done|].
  set (s3 := put_entity (put_algorithm s2 a3) worker (with_state f STOPPED)) in E3.
  destruct (wake_quiet fuel s3 (state_changed f) [main]) as (s4 & Hr4 & _ & Hst4 & _); [by eexists| | |].
  { simpl. rewrite Hq2, Hqs, decide_False by done. done. }
  { intros x ->%list_elem_of_singleton. simpl. rewrite lookup_insert_ne by done. split.
    - exists (with_state e STOPPED). simpl. rewrite lookup_insert_ne by done. split; [done|].
      rewrite Hq2, Hqs, decide_False by done. done.
    - by exists (with_state e STOPPED). }
  assert (set_entity_state (Datatypes.S (Datatypes.S fuel)) worker STOPPED s2 = Ok s4) as Hset.
  { unfold set_entity_state, trigger. etransitivity; [exact E3|exact Hr4]. }
  destruct (set_entity_state_inv (Datatypes.S (Datatypes.S fuel)) worker STOPPED s2 s4) as [I4 (Q1 & Q2 & Q3 & Q4 & _)];
    [apply (run_inv _ _ R2')|simpl in *; congruence|done|done|].
  destruct (inv_queue _ I4) as (a4 & Ha4 & _).
  destruct (schedule_spec s4 a4 I4) as (s5 & n & Hs5 & _ & D & _);
    [rewrite Q4; apply (run_active _ _ R2')|done|].
  rewrite (stop_all_self _ (put_sched k1 s2) worker [] s4 s5 (run_current _ _ R2') Hset Hs5).
  eexists. split_and!; [reflexivity|simpl; by rewrite lookup_insert_eq| |]; unfold state_of; simpl;
    rewrite (dispatched_states s4 s5 n a4 _ D), (states_by_state _ _ _ _ Hst4).
  - simpl. rewrite lookup_insert_eq. simpl. rewrite decide_False; [done|]. rewrite list_elem_of_singleton. done.
  - simpl. rewrite lookup_insert_ne, He2 by done. simpl. rewrite decide_True; [done|]. apply list_elem_of_here.
Qed.

(** Futex wake-ups are first come, first served.  [wake_up_threads] makes
    the first [n] threads waiting for the address RUNNABLE and keeps the others
    waiting in order, where [n] is the requested number taken as a 32-bit
    signed integer: a number from 2^31 up to 2^32 - 1 wakes nobody. *)
Theorem futex_wakes_in_order {S A} `{SchedulingLaws S} `{PageAllocatorAlgorithm A}
    fuel (k : kernel S A) proc p va number q ws :
  sched_inv (sched k) → procs k !! proc = Some p → wf (wake_queue_map p) →
  map_of (wake_queue_map p) !! va = Some q → queues (sched k) !! q = Some (MkWQ ws false) →
  (∀ x, x ∈ ws → quiet (sched k) x) →
  (∀ j e, entities (sched k) !! j = Some e → state_changed e ≠ q) →
  ∃ k', wake_up_threads (Datatypes.S fuel) k proc va number = Ok k' ∧
    (∀ j, state_of k' j = if decide (j ∈ take (Z.to_nat (s32 number)) ws) then Some RUNNABLE else state_of k j) ∧
    queues (sched k') !! q = Some (MkWQ (drop (Z.to_nat (s32 number)) ws) false) ∧
    (2 ^ 31 ≤ number < 2 ^ 32 → ∀ j, state_of k' j = state_of k j).
Proof.
  intros I Hp Hwf Hm Hq Hws Hev. unfold wake_up_threads, the_process. rewrite Hp. ok_step.
  rewrite try_get_value_spec, Hm by done. destruct (inv_queue _ I) as (a & Ha & _).
  destruct (wakeMax_quiet fuel (s32 number) q ws (sched k)) as (s & -> & Hst & Hqs); [by eexists|done| |].
  { intros x Hx. destruct (Hws x Hx) as (e & He & Hqe). split; [by exists e|]. exists e. eauto. }
  rewrite bind_Ok.
  assert (∀ j, state_of (put_sched k s) j =
    if decide (j ∈ take (Z.to_nat (s32 number)) ws) then Some RUNNABLE else state_of k j) as Hstates.
  { intros j. unfold state_of. simpl. rewrite (states_by_state _ _ _ j Hst).
    destruct (decide (j ∈ take (Z.to_nat (s32 number)) ws)) as [Hin|].
    - destruct (Hws j) as (e & He & _); [apply elem_of_take in Hin as (i & Hi & _); by eapply list_elem_of_lookup_2|]. by rewrite He.
    - by destruct (entities (sched k) !! j). }
  eexists. split_and!; [reflexivity|done|simpl; by rewrite Hqs, decide_True|].
  intros Hn j. rewrite Hstates. replace (s32 number) with (number - 2 ^ 32).
  - replace (Z.to_nat (number - 2 ^ 32)) with 0%nat by lia. rewrite take_0.
    destruct (decide (j ∈ [])) as [Hj|]; [by apply elem_of_nil in Hj|done].
  - unfold swrap. rewrite Z.mod_small by lia. case_match; lia.
Qed.

(** A futex wake-up can be lost.  [sys_futex_wait] tests the word under
    the lock, releases the lock and then puts the thread to sleep without
    testing again.  A wake-up that runs in between, when no thread has waited
    for the address before, finds no queue and changes nothing; the thread then
    goes to sleep, whatever the word holds by now. *)
Theorem futex_wake_up_lost {S A} `{SchedulingLaws S} `{PageAllocatorAlgorithm A}
    fuel (k : kernel S A) proc p c va number new_queue :
  running k c → procs k !! proc = Some p → wf (wake_queue_map p) → futex_locked p = false →
  map_of (wake_queue_map p) !! va = None → queues (sched k) !! new_queue = None →
  idle_entity (sched k) ≠ Some c → quiet (sched k) c →
  wake_up_threads (Datatypes.S fuel) k proc va number = Ok k ∧
  ∃ k' n, set_thread_waiting (Datatypes.S fuel) k proc c va new_queue = Ok k' ∧
    state_of k' c = Some SLEEPING ∧ queues (sched k') !! new_queue = Some (MkWQ [c] false) ∧
    current_thread (sched k') = Some n ∧ n ≠ c.
Proof.
  intros R Hp Hwf Hul Hm Hfresh Hid Hqc. split.
  { unfold wake_up_threads, the_process. rewrite Hp. ok_step. by rewrite try_get_value_spec, Hm. }
  unfold set_thread_waiting, the_process, futex_lock. rewrite Hp. ok_step. rewrite Hul. cbn [negb check].
  rewrite !bind_Ok. cbn [wake_queue_map with_futexes]. rewrite contains_key_spec, Hm by done.
  rewrite bool_decide_false by (by intros [? ?]).
  destruct (add_spec (wake_queue_map p) va new_queue Hwf) as (m & -> & Hwf' & Hm').
  rewrite !bind_Ok. cbn [wake_queue_map with_futexes]. rewrite get_value_spec, Hm', lookup_insert_eq by done.
  ok_step. cbn [sched put_sched]. unfold wq_sleep, queue. simpl. rewrite lookup_insert_eq. simpl.
  set (s1 := put_queue (put_queue (sched k) new_queue (MkWQ [] false)) new_queue (MkWQ [c] false)).
  assert (sched_inv s1) as I1.
  { apply inv_put_queue; [apply inv_put_queue; [apply (run_inv _ _ R)|]|].
    - intros x Hx. by apply elem_of_nil in Hx.
    - intros x ->%list_elem_of_singleton. simpl. split; [|done]. destruct Hqc as (e & He & _). by exists e. }
  destruct Hqc as (e & He & Hqe). assert (state_changed e ≠ new_queue) as Hne by congruence.
  assert (quiet s1 c) as Hq1. { exists e. split; [done|]. simpl. by rewrite !lookup_insert_ne. }
  destruct (inv_queue _ I1) as (a1 & Ha1 & _).
  destruct (set_quiet fuel s1 c SLEEPING) as (s2 & Hr & _ & Hst & Hqs); [by eexists|done|done|].
  change (set_entity_state (Datatypes.S fuel) c SLEEPING s1 = Ok s2) in Hr.
  destruct (set_entity_state_inv (Datatypes.S fuel) c SLEEPING s1 s2 I1 Hid ltac:(done) Hr) as [I2 (R1 & R2 & R3 & R4 & _)].
  unfold thread_sleep. rewrite Hr, bind_Ok. rewrite R3. simpl. rewrite (run_current _ _ R), bool_decide_true by done.
  destruct (inv_queue _ I2) as (a2 & Ha2 & _).
  destruct (schedule_spec s2 a2 I2) as (s3 & n & Hs3 & _ & D & _);
    [rewrite R4; apply (run_active _ _ R)|done|].
  unfold kernel_syscall_handler. cbn [Z.eqb Pos.eqb]. rewrite Hs3, bind_Ok.
  assert (state <$> entities s3 !! c = Some SLEEPING) as Hc.
  { rewrite (dispatched_states s2 s3 n a2 c D), (states_by_state _ _ _ c Hst). simpl. rewrite He. simpl.
    by rewrite decide_True. }
  eexists _, n. split_and!; [reflexivity|done| |apply (disp_thread _ _ _ _ D)|].
  - simpl. destruct (disp_rest _ _ _ _ D) as (_ & _ & _ & -> & _). rewrite Hqs. simpl. by rewrite lookup_insert_eq.
  - intros ->. destruct (disp_state _ _ _ _ D) as (f & Hf & Hrun & _).
    rewrite (dispatched_states s2 s3 c a2 c D), Hf in Hc. simpl in Hc. congruence.
Qed.

(** *** Concrete runs: a process at 7 with threads at 2 and 3 *)

Definition demo_thr : Thread := MkThread 7 User 0x400000 0 0 0 0 false 0.
Definition demo_proc (m : Map Z) : Process := MkProc false false (MkVMA [] 0 0 0) [2; 3] 2 20 None m false.
Definition demo_kernel (s : Scheduler CompletelyFairScheduler) (m : Map Z)
    : kernel CompletelyFairScheduler SimplePageAllocator :=
  MkK (put_queue s 20 (MkWQ [] false)) {[ 2 := demo_thr; 3 := demo_thr ]} {[ 7 := demo_proc m ]} demo_machine.

(** The second thread runs; the first one has joined it. *)
Lemma demo_joined_inv s : demo_joined = Ok s → sched_inv s.
Proof.
  intros Hs. unfold demo_joined in Hs.
  apply bind_Ok_inv in Hs as (s1 & H1 & Hs). apply bind_Ok_inv in Hs as (s2 & H2 & Hs).
  apply bind_Ok_inv in Hs as (s3 & H3 & Hs).
  assert (sched_inv s1) as I1.
  { eapply step_inv; [by apply (step_start (demo_thread 3 13 (demo_thread 2 12 demo_boot)) 9 2)|].
    apply inv_create; [|reflexivity..]. apply inv_create; [apply demo_boot_inv|reflexivity..]. }
  assert (idle_entity s1 = Some 1) as Hid by (clear H2; vm_compute in H1; injection H1 as <-; reflexivity).
  assert (sched_inv s3) as I3.
  { eapply step_inv; [by apply step_tick|]. eapply step_inv; [apply (step_start (run s1) 9 3); [simpl; by rewrite Hid|done]|].
    eapply step_inv; [apply step_run|done]. }
  assert (idle_entity s3 = Some 1 ∧ current_thread s3 = Some 2 ∧ is_Some (entities s3 !! 2)) as (Hid3 & Hc & He).
  { clear I1 Hid I3 Hs. vm_compute in H1. injection H1 as <-. vm_compute in H2. injection H2 as <-.
    vm_compute in H3. injection H3 as <-. split_and!; [reflexivity..|by eexists]. }
  unfold event_wait in Hs. rewrite Hc in Hs. cbn [get] in Hs. rewrite bind_Ok in Hs.
  eapply step_inv; [by apply (step_sleep s3 9 13 2); [rewrite Hid3|..]|done].
Qed.

Lemma demo_running s m c :
  sched_inv s → active s = true → current_thread s = Some c → running (demo_kernel s m) c.
Proof.
  intros I Ha Hc. constructor; [|done|done]. apply inv_put_queue; [done|]. intros x Hx. by apply elem_of_nil in Hx.
Qed.

Lemma two_three (P : Z → Prop) : P 2 → P 3 → ∀ t, t ∈ [2; 3] → P t.
Proof. intros P2 P3 t. rewrite !elem_of_cons, elem_of_nil. by intros [->|[->|[]]]. Qed.

Lemma terminate_stops_up_to_current_witness :
  ∃ s k', demo_two = Ok s ∧ terminate 2 (demo_kernel s empty_map) 7 = Ok (false, k') ∧
    state_of k' 2 = Some STOPPED ∧ state_of k' 3 = Some RUNNABLE.
Proof.
  destruct demo_two as [s|] eqn:E; [|vm_compute in E; discriminate].
  destruct (demo_two_steady s E) as (St & _). pose proof (st_inv _ _ _ St) as I. clear St.
  exists s. vm_compute in E. injection E as <-.
  match type of I with sched_inv ?t => set (s := t) in * end.
  destruct (terminate_stops_up_to_current 0 (demo_kernel s empty_map) 7 (demo_proc empty_map) [] 2 [3] [])
    as (k' & n & Hr & _ & H1 & H2 & _).
  - by apply demo_running.
  - reflexivity.
  - reflexivity.
  - repeat constructor; set_solver.
  - apply two_three; (split; [discriminate|]; split; [eexists; split; reflexivity|exists demo_thr; split; reflexivity]).
  - reflexivity.
  - intros x Hx. by apply elem_of_nil in Hx.
  - apply (bool_decide_eq_true_1 (map_Forall (λ (_ : Z) e, state_changed e ≠ 20) (entities s))).
    vm_compute. reflexivity.
  - exists k'. split; [reflexivity|]. split; [exact Hr|].
    split; [apply H1, list_elem_of_here|rewrite H2 by apply list_elem_of_here; reflexivity].
Defined.

Lemma terminate_revives_joiner_witness :
  ∃ s k', demo_joined = Ok s ∧ terminate 2 (demo_kernel s empty_map) 7 = Ok (false, k') ∧
    state_of k' 3 = Some STOPPED ∧ state_of k' 2 = Some RUNNABLE.
Proof.
  destruct demo_joined as [s|] eqn:E; [|vm_compute in E; discriminate].
  pose proof (demo_joined_inv s E) as I. exists s. vm_compute in E. injection E as <-.
  match type of I with sched_inv ?t => set (s := t) in * end.
  destruct (terminate_revives_joiner 0 (demo_kernel s empty_map) 7 (demo_proc empty_map) 2 3
    (MkEntity 0 10000000 SLEEPING SchedulingEntityPriority.NORMAL 12)
    (MkEntity 0 10000000 RUNNABLE SchedulingEntityPriority.NORMAL 13)) as (k' & Hr & _ & H1 & H2);
    try reflexivity; try discriminate.
  - by apply demo_running.
  - split; [discriminate|]. split; [eexists; split; reflexivity|exists demo_thr; split; reflexivity].
  - exists k'. auto.
Defined.

(** Thread 3 in the futex queue at 21 of address 0x5000. *)
Definition futex_map : Map Z := match add empty_map 0x5000 21 with Ok m => m | Err _ => empty_map end.

Lemma futex_map_wf : wf futex_map ∧ map_of futex_map !! 0x5000 = Some 21.
Proof.
  destruct (wf_empty (V := Z)) as [W0 M0]. unfold futex_map. destruct (add_spec empty_map 0x5000 21 W0) as (m & -> & Hwf & ->).
  split; [done|]. by rewrite lookup_insert_eq.
Qed.

Definition futex_kernel (s : Scheduler CompletelyFairScheduler) : kernel CompletelyFairScheduler SimplePageAllocator :=
  put_sched (demo_kernel s futex_map) (put_queue (put_queue s 20 (MkWQ [] false)) 21 (MkWQ [3] false)).

Lemma futex_wakes_in_order_witness :
  ∃ s k', demo_two = Ok s ∧ wake_up_threads 1 (futex_kernel s) 7 0x5000 1 = Ok k' ∧
    queues (sched k') !! 21 = Some (MkWQ [] false).
Proof.
  destruct demo_two as [s|] eqn:E; [|vm_compute in E; discriminate].
  destruct (demo_two_steady s E) as (St & _). pose proof (st_inv _ _ _ St) as I. clear St.
  exists s. vm_compute in E. injection E as <-.
  match type of I with sched_inv ?t => set (s := t) in * end.
  destruct (futex_wakes_in_order 0 (futex_kernel s) 7 (demo_proc futex_map) 0x5000 1 21 [3]) as (k' & Hr & _ & Hq & _).
  - apply inv_put_queue; [apply inv_put_queue; [exact I|]|].
    + intros x Hx. by apply elem_of_nil in Hx.
    + intros x Hx. apply list_elem_of_singleton in Hx as ->. split; [by eexists|discriminate].
  - reflexivity.
  - apply futex_map_wf.
  - apply futex_map_wf.
  - reflexivity.
  - intros x Hx. apply list_elem_of_singleton in Hx as ->. eexists. split; reflexivity.
  - apply (bool_decide_eq_true_1 (map_Forall (λ (_ : Z) e, state_changed e ≠ 21) (entities s))).
    vm_compute. reflexivity.
  - exists k'. split; [reflexivity|]. split; [exact Hr|exact Hq].
Defined.

Lemma futex_wake_up_lost_witness :
  ∃ s k', demo_two = Ok s ∧ wake_up_threads 1 (demo_kernel s empty_map) 7 0x5000 1 = Ok (demo_kernel s empty_map) ∧
    set_thread_waiting 1 (demo_kernel s empty_map) 7 2 0x5000 30 = Ok k' ∧ state_of k' 2 = Some SLEEPING.
Proof.
  destruct demo_two as [s|] eqn:E; [|vm_compute in E; discriminate].
  destruct (demo_two_steady s E) as (St & _). pose proof (st_inv _ _ _ St) as I. clear St.
  exists s. vm_compute in E. injection E as <-.
  match type of I with sched_inv ?t => set (s := t) in * end.
  destruct (futex_wake_up_lost 0 (demo_kernel s empty_map) 7 (demo_proc empty_map) 2 0x5000 1 30)
    as (Hw & k' & n & Hr & Hs & _).
  - by apply demo_running.
  - reflexivity.
  - apply wf_empty.
  - reflexivity.
  - reflexivity.
  - reflexivity.
  - discriminate.
  - eexists. split; reflexivity.
  - exists k'. auto.
Defined.
