(* ===== verification/Elf.v ===== *)
(** * Loading a program

    The ELF loader (fs/exec/elf-loader.cpp) and the launch of a process
    (Kernel::launch_process of kernel/kernel.cpp), on top of the processes, their
    threads and their memory. *)

From S2P Require Import Prelude Define CppMap PageAlloc PhysMem Vma UserMem CppString MemInit KTime Sched SchedFair Thread Process.
From stdpp Require Import list_numbers.
Local Open Scope Z_scope.

(** ** Files *)

(** The virtual functions of [File] (include/infos/fs/file.h) that the loader
    calls.  A read returns its [int] result and what the buffer of the given size
    holds afterwards. *)
Class File (F : Type) := {
  file_seek : Z → F → F;
  file_read : Z → F → Z * list Z * F;
  file_pread : Z → Z → F → Z * list Z * F;
}.

(** A file with the bytes [data], as its users expect it: [holds f p] says that
    [f] is open at position [p]; a read inside the file returns what is there,
    and [pread] keeps the position. *)
Class FileLaws (F : Type) `{File F} (data : list Z) := {
  holds : F → Z → Prop;
  seek_law f p off : holds f p → holds (file_seek off f) off;
  read_law f p n : holds f p → 0 ≤ p → 0 ≤ n < 2 ^ 31 → p + n ≤ Z.of_nat (length data) →
    ∃ f', file_read n f = (n, take (Z.to_nat n) (drop (Z.to_nat p) data), f') ∧ holds f' (p + n);
  pread_law f p n off : holds f p → 0 ≤ off → 0 ≤ n < 2 ^ 31 → off + n ≤ Z.of_nat (length data) →
    ∃ f', file_pread n off f = (n, take (Z.to_nat n) (drop (Z.to_nat off) data), f') ∧ holds f' p;
}.

(** ** The file format *)

(** A little-endian field of [n] bytes. *)
Definition field (bs : list Z) (off n : nat) : Z := little_endian_to_Z 8 (take n (drop off bs)).

Record ELF64Header := MkHdr {
  magic_number : Z; eclass : Z; edata : Z; e_type : Z; e_machine : Z; e_version : Z;
  e_entry_point : Z; phoff : Z; phentsize : Z; phnum : Z }.

Definition read_header (bs : list Z) : ELF64Header :=
  MkHdr (field bs 0 4) (field bs 4 1) (field bs 5 1) (field bs 16 2) (field bs 18 2) (field bs 20 4)
    (field bs 24 8) (field bs 32 8) (field bs 54 2) (field bs 56 2).

Record ELF64ProgramHeaderEntry := MkEnt { p_type : Z; offset : Z; vaddr : Z; filesz : Z; memsz : Z }.

Definition read_program_header (bs : list Z) : ELF64ProgramHeaderEntry :=
  MkEnt (field bs 0 4) (field bs 8 8) (field bs 16 8) (field bs 32 8) (field bs 40 8).

Definition MAGIC_NUMBER : Z := 0x464c457f.
Definition ECLASS_64BIT : Z := 2.
Definition EDATA_LITTLE : Z := 1.
Definition ET_EXEC : Z := 2.
Definition PT_LOAD : Z := 1.
Definition PT_INTERP : Z := 3.

(** The tests that [load] makes of the header. *)
Definition header_ok (h : ELF64Header) : bool :=
  (magic_number h =? MAGIC_NUMBER) && (eclass h =? ECLASS_64BIT) && (edata h =? EDATA_LITTLE) &&
  (e_type h =? ET_EXEC) && (e_machine h =? 0x3e) && (e_version h =? 1).

(** ["__INFOS_DYNAMIC_LINKER__"], with its terminator. *)
Definition INTERPRETER : cstr :=
  [95; 95; 73; 78; 70; 79; 83; 95; 68; 89; 78; 65; 77; 73; 67; 95; 76; 73; 78; 75; 69; 82; 95; 95; 0].

(** ** The loader *)

Section loader.
Context {S A F : Type} `{SchedulingAlgorithm S} `{PageAllocatorAlgorithm A} `{File F}.
Context (template_pml4 : option Z) (proc pevent thread tevent : Z).
Implicit Types (k : kernel S A) (f : F) (ent : ELF64ProgramHeaderEntry).

Definition put_vma k (p : Process) (v : VMA) (m : machine A) : kernel S A :=
  put_proc (put_mach k m) proc (with_threads p v (threads p)).

(** The pages of a segment. *)
Definition segment_base ent : Z := Z.land (vaddr ent) 0xfffffffffffff000.
Definition segment_pages ent : Z :=
  let shift := u64 (vaddr ent - segment_base ent) in
  s32 (u64 (Z.shiftr (align_up_page (memsz ent)) 12 + if 0 <? shift then 1 else 0)).

(** The case [PT_LOAD].  Neither the result of [allocate_virt] nor that of
    [copy_to] is looked at. *)
Definition load_segment ent f k : result (F * kernel S A) :=
  p ← the_process k proc;
  mapped ← is_mapped (vma p) (mach k) (vaddr ent);
  '(v, m) ← (if (mapped : bool) then Ok (vma p, mach k)
             else '(_, v, m) ← allocate_virt (vma p) (mach k) (segment_base ent) (segment_pages ent); Ok (v, m));
  let '(_, buffer, f) := file_pread (filesz ent) (offset ent) f in
  '(_, m) ← copy_to v m (vaddr ent) buffer;
  Ok (f, put_vma k p v m).

(** Where program header [i] is. *)
Definition entry_offset (h : ELF64Header) (i : Z) : Z := u64 (phoff h + u32 (i * phentsize h)).

(** The loop over the program headers, from number [i] on: whether an
    interpreter was found, or [None] when [load] returns from inside the loop. *)
Fixpoint load_entries (n : nat) (i : Z) (h : ELF64Header) (use_interp : bool) f k
    : result (option bool * F * kernel S A) :=
  match n with
  | O => Ok (Some use_interp, f, k)
  | Datatypes.S n' =>
      let '(bytes, buf, f) := file_pread 56 (entry_offset h i) f in
      if negb (bytes =? 56) then k ← destroy_process k proc; Ok (None, f, k) else
      let ent := read_program_header buf in
      if p_type ent =? PT_LOAD then
        '(f, k) ← load_segment ent f k;
        load_entries n' (u32 (i + 1)) h use_interp f k
      else if p_type ent =? PT_INTERP then
        let '(_, buffer, f) := file_pread (filesz ent) (offset ent) f in
        c ← strncmp buffer INTERPRETER (filesz ent);
        if negb (c =? 0) then k ← destroy_process k proc; Ok (None, f, k)
        else load_entries n' (u32 (i + 1)) h true f k
      else load_entries n' (u32 (i + 1)) h use_interp f k
  end.

(** A page at [va] with the string [str], and its address as an argument of the
    main thread; [false] when the string can not be copied. *)
Definition string_argument (va : Z) (str : list Z) (t : Thread) (v : VMA) (m : machine A)
    : result (bool * Thread * VMA * machine A) :=
  '(_, v, m) ← allocate_virt v m va 1;
  '(ok, m) ← copy_to v m va str;
  if negb (ok : bool) then Ok (false, t, v, m)
  else '(t, m) ← add_entry_argument va (t, m); Ok (true, t, v, m).

(** The end of [load]: the stack, the command line and the path. *)
Definition finish_load (cmdline path : list Z) k : result (option Z * kernel S A) :=
  p ← the_process k proc;
  t ← the_thread k (main_thread p);
  '(v, m) ← allocate_user_stack t (vma p) (mach k) 0x100000 0x2000;
  '(ok, t, v, m) ← (if 0 <? Z.of_nat (length cmdline) then string_argument 0x102000 cmdline t v m
                    else '(t, m) ← add_entry_argument 0 (t, m); Ok (true, t, v, m));
  if negb (ok : bool) then Ok (None, put_thread (put_vma k p v m) (main_thread p) t) else
  '(ok, t, v, m) ← string_argument (0x102000 + 4096) path t v m;
  Ok (if (ok : bool) then Some proc else None, put_thread (put_vma k p v m) (main_thread p) t).

Definition load (cmdline path : list Z) f k : result (option Z * F * kernel S A) :=
  let f := file_seek 0 f in
  let '(bytes, buf, f) := file_read 64 f in
  if negb (bytes =? 64) then Ok (None, f, k) else
  let h := read_header buf in
  if negb (header_ok h) then Ok (None, f, k) else
  k ← new_process k template_pml4 proc pevent thread tevent false (e_entry_point h);
  '(r, f, k) ← load_entries (Z.to_nat (phnum h)) 0 h false f k;
  match r with
  | Some false => '(r, k) ← finish_load cmdline path k; Ok (r, f, k)
  | _ => Ok (None, f, k)
  end.

(** [Kernel::launch_process]; [image] is what the virtual file system opened. *)
Definition launch_process (fuel : nat) (image : option F) (cmdline path : list Z) k
    : result (option Z * kernel S A) :=
  match image with
  | None => Ok (None, k)
  | Some f =>
      let '(_, hdr, f) := file_read 16 f in
      if bool_decide (take 4 hdr = [0x7f; 69; 76; 70]) then
        '(np, _, k) ← load cmdline path f k;
        match np with
        | None => Ok (None, k)
        | Some np => k ← process_start fuel k np; Ok (Some np, k)
        end
      else Ok (None, k)
  end.
End loader.

(** ** What a program looks like in memory *)

Section view.
Context (data : list Z).
Implicit Types (u : Z → option Z) (ent : ELF64ProgramHeaderEntry).

(** [n] bytes from [lo] on show [bs], and zeros after its end. *)
Definition overlay (lo n : Z) (bs : list Z) u : Z → option Z :=
  λ x, if decide (within lo n x) then Some (default 0 (bs !! Z.to_nat (x - lo))) else u x.

(** The bytes of a segment in the file. *)
Definition segment_bytes ent : list Z := take (Z.to_nat (filesz ent)) (drop (Z.to_nat (offset ent)) data).

(** The pages of a segment: zeros, with the bytes of the file at its address. *)
Definition segment_view ent u : Z → option Z :=
  overlay (vaddr ent) (filesz ent) (segment_bytes ent) (overlay (segment_base ent) (segment_pages ent * 4096) [] u).

Fixpoint segments_view (ents : list ELF64ProgramHeaderEntry) u : Z → option Z :=
  match ents with
  | [] => u
  | ent :: ents' => segments_view ents' (if p_type ent =? PT_LOAD then segment_view ent u else u)
  end.

(** The memory of a loaded program. *)
Definition program_view (ents : list ELF64ProgramHeaderEntry) (cmdline path : list Z) : Z → option Z :=
  let u := overlay 0x100000 0x2000 [] (segments_view ents (λ _, None)) in
  overlay 0x103000 4096 path (if 0 <? Z.of_nat (length cmdline) then overlay 0x102000 4096 cmdline u else u).

(** A segment that the loader can place: it lies in the file and in the user part
    of the address space, it starts in a page that is not mapped yet, and its
    initialised part is not longer than the segment. *)
Record segment_ok u ent : Prop := {
  sg_unmapped : u (vaddr ent) = None;
  sg_mem : 0 < memsz ent ≤ 2 ^ 31;
  sg_size : 0 ≤ filesz ent ≤ memsz ent;
  sg_small : filesz ent < 2 ^ 31;
  sg_file : 0 ≤ offset ent ∧ offset ent + filesz ent ≤ Z.of_nat (length data);
  sg_user : 0 ≤ vaddr ent ∧ vaddr ent + memsz ent + 8192 < 2 ^ 47;
}.

Fixpoint segments_ok (ents : list ELF64ProgramHeaderEntry) u : Prop :=
  match ents with
  | [] => True
  | ent :: ents' =>
      if p_type ent =? PT_LOAD then segment_ok u ent ∧ segments_ok ents' (segment_view ent u)
      else p_type ent ≠ PT_INTERP ∧ segments_ok ents' u
  end.

(** The number of contiguous free pages that are enough. *)
Fixpoint segments_cost (ents : list ELF64ProgramHeaderEntry) : nat :=
  match ents with
  | [] => 0
  | ent :: ents' => (if p_type ent =? PT_LOAD then virt_cost (segment_pages ent) else 0) + segments_cost ents'
  end.

(** The tables of the process, the kernel stack, the segments, the user stack and
    two pages for the strings. *)
Definition program_cost (ents : list ELF64ProgramHeaderEntry) : nat :=
  1 + 2 + segments_cost ents + virt_cost 2 + virt_cost 1 + virt_cost 1.

Lemma align_up_pages n : 0 ≤ n < 2 ^ 63 → Z.shiftr (align_up_page n) 12 = (n + 4095) / 4096.
Proof.
  intros Hn. rewrite Z.shiftr_div_pow2 by lia. unfold align_up_page, align_up. rewrite page_size_eq.
  change (2 ^ 12) with 4096. pose proof (Z.div_mod n 4096). pose proof (Z.mod_pos_bound n 4096).
  destruct (Z.eqb_spec (n mod 4096) 0) as [E|E]; rewrite wrap_small by (unfold fits; lia).
  - apply (Z.div_unique_pos _ 4096 _ 4095); rewrite ?Z.add_0_r; lia.
  - apply (Z.div_unique_pos _ 4096 _ (n mod 4096 - 1)); [lia|].
    replace (n + (4096 - n mod 4096)) with ((n / 4096 + 1) * 4096) by lia. rewrite Z.div_mul by lia. lia.
Qed.

Lemma segment_span ent u :
  segment_ok u ent →
  segment_base ent = vaddr ent / 4096 * 4096 ∧ 0 < segment_pages ent ≤ 2 ^ 20 ∧
  segment_base ent ≤ vaddr ent ∧ vaddr ent + memsz ent ≤ segment_base ent + segment_pages ent * 4096 ∧
  0 ≤ segment_base ent ∧ segment_base ent + segment_pages ent * 4096 < 2 ^ 47.
Proof.
  intros [_ Hm _ _ _ Hu].
  assert (Hb : segment_base ent = vaddr ent / 4096 * 4096).
  { unfold segment_base. change 0xfffffffffffff000 with (u64 (Z.lnot 0xfff)).
    pose proof (base_address_eq (vaddr ent) ltac:(unfold fits; lia)) as E. unfold base_address, not_fff in E. rewrite E.
    pose proof (Z.div_mod (vaddr ent) 4096). lia. }
  pose proof (page_of (vaddr ent)).
  assert (Hal : Z.shiftr (align_up_page (memsz ent)) 12 = (memsz ent + 4095) / 4096)
    by (apply align_up_pages; lia).
  unfold segment_pages. cbv zeta. rewrite Hal, Hb.
  assert (0 ≤ vaddr ent - vaddr ent / 4096 * 4096 < 4096) by lia.
  rewrite (wrap_small 64 (vaddr ent - _)) by (unfold fits; lia).
  assert (memsz ent ≤ (memsz ent + 4095) / 4096 * 4096 < memsz ent + 4096).
  { pose proof (page_of (memsz ent + 4095)). lia. }
  set (w := (memsz ent + 4095) / 4096) in *.
  destruct (Z.ltb_spec 0 (vaddr ent - vaddr ent / 4096 * 4096)).
  - rewrite (wrap_small 64) by (unfold fits; lia). rewrite swrap_small by lia. split_and!; lia.
  - rewrite (wrap_small 64) by (unfold fits; lia). rewrite swrap_small by lia. split_and!; lia.
Qed.
End view.

(** ** A process under construction *)

(** A main thread [t] whose context lies at [c] in frames [K] of the kernel and
    holds the registers [R], in an area that shows the view [u]. *)
Section under_construction.
Context (K : Z → Prop) (c root : Z).
Implicit Types (m : machine SimplePageAllocator) (u : Z → option Z) (R : reg → Z).

Record building (t : Thread) (v : VMA) m u R : Prop := {
  bd_area : ∃ own, area K m v own root;
  bd_view x : user_va x → user_byte (mem m) root x = u x;
  bd_context : native_context t = PMEM_VA_START + c;
  bd_window : at_window c;
  bd_kernel x : c ≤ x < c + 192 → K (x / 4096);
  bd_regs r : ld64 (mem m) (c + 8 * reg_index r) = R r;
}.

Lemma building_regs t v m m' u R r :
  building t v m u R → (∀ x, K (x / 4096) → ld8 (mem m') x = ld8 (mem m) x) →
  ld64 (mem m') (c + 8 * reg_index r) = R r.
Proof.
  intros Hb HK. rewrite <- (bd_regs _ _ _ _ _ Hb). apply ld64_ext. intros x Hx. apply HK, (bd_kernel _ _ _ _ _ Hb).
  pose proof (reg_index_range r). lia.
Qed.

Lemma building_thread t t' v m u R : building t v m u R → native_context t' = native_context t → building t' v m u R.
Proof. intros [? ? ? ? ? ?] E. split; try done. congruence. Qed.

Lemma building_unmapped t v m u R va : building t v m u R → user_va va → u va = None → is_mapped v m va = Ok false.
Proof.
  intros Hb Hva Hu. destruct (bd_area _ _ _ _ _ Hb) as [own Ha]. unfold is_mapped.
  rewrite (get_mapping_spec _ _ _ _ va (ar_inv _ _ _ _ _ Ha) Hva). pose proof (bd_view _ _ _ _ _ Hb va Hva) as E.
  unfold user_byte in E. rewrite Hu in E. by destruct (translation _ _ _).
Qed.

(** Pages are allocated, and bytes copied into them. *)
Lemma building_allocate t v m u R va n k :
  building t v m u R → 0 < n ≤ 2 ^ 20 → 0 ≤ va → va mod 4096 = 0 → va + n * 4096 < 2 ^ 47 → contiguous (k + virt_cost n) m →
  ∃ v' m' q, allocate_virt v m va n = Ok (true, v', m') ∧ building t v' m' (overlay va (n * 4096) [] u) R ∧ contiguous k m' ∧
    ∀ x, within va (n * 4096) x → translation (mem m') root x = Some (q + (x - va)).
Proof.
  intros Hb Hn Hva Hal Hend Hroom. destruct (bd_area _ _ _ _ _ Hb) as [own Ha].
  destruct (allocate_virt_contiguous n k m v own root va (ar_inv _ _ _ _ _ Ha) Hn Hva Hend Hroom) as (v' & m' & Hrun & Hroom').
  destruct (allocate_virt_area K m v own root va n v' m' Ha ltac:(lia) Hva Hend Hrun) as (own' & q & Ha' & _ & Htr & Hv & HK).
  assert (va / 4096 * 4096 = va) as E by (pose proof (Z.div_mod va 4096); lia). rewrite E in *.
  exists v', m', (q * 4096). split_and!; [done| |done|done]. split; try apply Hb; [by eexists| |].
  - intros x Hx. rewrite Hv by done. unfold overlay. case_decide; [done|]. by apply (bd_view _ _ _ _ _ Hb).
  - intros r. by eapply building_regs.
Qed.

Lemma building_copy t v m u R dest src q :
  building t v m u R → 0 ≤ dest → dest + Z.of_nat (length src) < 2 ^ 47 → Forall (fits 8) src →
  translation (mem m) root dest = Some q →
  (∀ x, within dest (Z.of_nat (length src)) x → translation (mem m) root x = Some (q + (x - dest))) →
  ∃ m', copy_to v m dest src = Ok (true, m') ∧ building t v m' (overlay dest (Z.of_nat (length src)) src u) R ∧
    pgalloc m' = pgalloc m.
Proof.
  intros Hb Hd Hend Hsrc E0 Hcont. destruct (bd_area _ _ _ _ _ Hb) as [own Ha].
  destruct (copy_to_area K m v own root dest src q Ha Hd Hend Hsrc E0 Hcont) as (m' & Hrun & Ha' & Hpg & Hv & HK).
  exists m'. split_and!; [done| |done]. split; try apply Hb; [by eexists| |].
  - intros x Hx. rewrite Hv by done. unfold overlay. case_decide as Hin; [|by apply (bd_view _ _ _ _ _ Hb)].
    by destruct (lookup_lt_is_Some_2 src (Z.to_nat (x - dest))) as [b ->]; [lia|].
  - intros r. by eapply building_regs.
Qed.

(** Both, as the loader does them. *)
Lemma building_place t v m u R va n dest src k :
  building t v m u R → 0 < n ≤ 2 ^ 20 → 0 ≤ va → va mod 4096 = 0 → va + n * 4096 < 2 ^ 47 → contiguous (k + virt_cost n) m →
  va ≤ dest < va + n * 4096 → dest + Z.of_nat (length src) ≤ va + n * 4096 → Forall (fits 8) src →
  ∃ v' m1 m', allocate_virt v m va n = Ok (true, v', m1) ∧ copy_to v' m1 dest src = Ok (true, m') ∧
    building t v' m' (overlay dest (Z.of_nat (length src)) src (overlay va (n * 4096) [] u)) R ∧ contiguous k m'.
Proof.
  intros Hb Hn Hva Hal Hend Hroom Hd Hde Hsrc.
  destruct (building_allocate t v m u R va n k Hb Hn Hva Hal Hend Hroom) as (v' & m1 & q & Hrun & Hb1 & Hroom1 & Hq).
  destruct (building_copy t v' m1 _ R dest src (q + (dest - va)) Hb1) as (m' & Hrun' & Hb' & Hpg); [lia|lia|done|apply Hq; lia| |].
  { intros x Hx. rewrite Hq by lia. f_equal. lia. }
  exists v', m1, m'. split_and!; [done|done|done|]. by apply (budget_mem _ m1).
Qed.

(** A register is stored. *)
Lemma building_store t v m u R r w :
  building t v m u R → fits 64 w →
  ∃ m' : memory, ctx_store (mem m) (native_context t) r w = Ok m' ∧
    building t v (set_mem m m') u (λ r', if decide (r' = r) then w else R r').
Proof.
  intros Hb Hw. destruct (bd_area _ _ _ _ _ Hb) as [own Ha]. pose proof (bd_window _ _ _ _ _ Hb) as Hc.
  rewrite (bd_context _ _ _ _ _ Hb), ctx_store_Ok by done. eexists. split; [done|].
  destruct (kernel_write_area K m v own root (st64 (mem m) (c + 8 * reg_index r) w) Ha) as [Ha' Hv].
  { intros x Hx. apply ld8_st64_ne. pose proof (reg_index_range r). destruct (decide (c ≤ x < c + 192)) as [Hin|]; [|lia].
    by destruct Hx; apply (bd_kernel _ _ _ _ _ Hb). }
  split; try apply Hb; [by eexists| |].
  - intros x Hx. cbn [mem set_mem]. rewrite Hv by done. by apply (bd_view _ _ _ _ _ Hb).
  - intros r'. cbn [mem set_mem]. rewrite ctx_reg_st by done. case_decide; [done|]. by apply (bd_regs _ _ _ _ _ Hb).
Qed.

Lemma building_argument t v m u R r w :
  building t v m u R → fits 64 w → argument_reg (current_entry_argument t) = Some r →
  ∃ t' m', add_entry_argument w (t, m) = Ok (t', m') ∧ current_entry_argument t' = u32 (current_entry_argument t + 1) ∧
    (pgalloc m' = pgalloc m ∧ kernel_stack t' = kernel_stack t) ∧ building t' v m' u (λ r', if decide (r' = r) then w else R r').
Proof.
  intros Hb Hw Hr. destruct (building_store t v m u R r w Hb Hw) as (m' & Hst & Hb').
  unfold add_entry_argument. rewrite Hr, Hst, bind_Ok. eexists _, _. split_and!; [done|done|done|done|]. by eapply building_thread.
Qed.
End under_construction.

(** ** Creating the process *)

Section create.
Context {S : Type} `{SchedulingAlgorithm S}.
Context (proc pevent thread tevent : Z).
Implicit Types (k : kernel S SimplePageAllocator) (u : Z → option Z) (R : reg → Z).

(** The process [proc] with its main thread, under construction. *)
Definition loading (K : Z → Prop) (c root : Z) k (p : Process) (t : Thread) u R : Prop :=
  procs k !! proc = Some p ∧ main_thread p = thread ∧ threads p = [thread] ∧ thrs k !! thread = Some t ∧
  current_entry_argument t = 0 ∧ building K c root t (vma p) (mach k) u R.

(** Nothing but the process, its thread and memory has changed. *)
Definition others k k' : Prop :=
  sched k' = sched k ∧ (∀ a, a ≠ proc → procs k' !! a = procs k !! a) ∧ (∀ a, a ≠ thread → thrs k' !! a = thrs k !! a).

Lemma others_refl k : others k k.
Proof. done. Qed.

Lemma others_trans k1 k2 k3 : others k1 k2 → others k2 k3 → others k1 k3.
Proof.
  intros (E1 & P1 & T1) (E2 & P2 & T2). split_and!; [congruence| |]; intros a Ha; rewrite ?P2, ?T2 by done; auto.
Qed.

Lemma window_load (m : memory) (t i : Z) :
  0 ≤ t → t + 4096 ≤ 2 ^ 32 → 0 ≤ i < 512 → ∃ e, load64 m (entry_ptr (PMEM_VA_START + t) i) = Ok e.
Proof.
  intros Ht Hend Hi. unfold entry_ptr, load64. rewrite wrap_small by (unfold fits, PMEM_VA_START; lia).
  replace (PMEM_VA_START + t + 8 * i) with (PMEM_VA_START + (t + 8 * i)) by lia.
  rewrite translate_Ok, bind_Ok by lia. eauto.
Qed.

(** The kernel's entries can be copied from any template in the window. *)
Lemma install_total t v (m : machine SimplePageAllocator) own root :
  vma_inv m v own root → 0 ≤ t → t + 4096 ≤ 2 ^ 32 →
  ∃ mem', install_default_kernel_mapping (Some (PMEM_VA_START + t)) v m = Ok (set_mem m mem').
Proof.
  intros Hi Ht Hend. unfold install_default_kernel_mapping. cbn [get]. rewrite bind_Ok.
  pose proof (tk_range _ _ _ (vi_tables _ _ _ _ Hi) _ _ (tk_root _ _ _ (vi_tables _ _ _ _ Hi))) as [Hr _].
  destruct (window_load (mem m) t 0x1ff) as [e1 ->]; [lia..|]. rewrite bind_Ok, (vi_base _ _ _ _ Hi).
  rewrite !entry_ptr_window, !store64_slot, bind_Ok by lia.
  destruct (window_load (st64 (mem m) (slot root 0x1ff) e1) t 0x100) as [e2 ->]; [lia..|]. rewrite bind_Ok, store64_slot, bind_Ok by lia. by eexists.
Qed.

Lemma new_thread_building K m v own root pv entry n :
  area K m v own root → contiguous (n + 2) m → fits 64 entry → (∀ x, user_va x → user_byte (mem m) root x = None) →
  ∃ t v' m' K' c, new_thread proc v m pv entry = Ok (t, v', m') ∧ current_entry_argument t = 0 ∧ contiguous n m' ∧
    building K' c root t v' m' (λ _, None) (initial_reg pv entry (kernel_stack t)).
Proof.
  intros Ha Hroom He Hv. unfold new_thread.
  destruct (allocate_phys_contiguous v m KERNEL_STACK_ORDER n) as (q & v' & m1 & Hal & Hroom1);
    [apply (ar_inv _ _ _ _ _ Ha)|done|done|].
  destruct (allocate_phys_area K m v own root KERNEL_STACK_ORDER q v' m1 Ha ltac:(done) Hal) as (Ha1 & Hq & Hqe & _ & Hv1 & _).
  change (2 ^ KERNEL_STACK_ORDER) with 2 in *.
  rewrite Hal, bind_Ok. ok_step. unfold pgd_to_vpa, pgd_to_pa. rewrite pfn_to_pa_mul, pa_to_vpa_Ok, bind_Ok by lia.
  change KERNEL_STACK_SIZE with 8192.
  replace (u64 (PMEM_VA_START + q * 4096 + 8192)) with (PMEM_VA_START + (q + 2) * 4096)
    by (unfold PMEM_VA_START; rewrite wrap_small by eauto with infos; lia).
  destruct (prepare_initial_stack_spec (mem m1) ((q + 2) * 4096) pv entry He ltac:(lia)) as (mem' & -> & Hld & Hout).
  rewrite bind_Ok. set (c := (q + 2) * 4096 - 192) in *.
  assert (HK : ∀ x, c ≤ x < c + 192 → K (x / 4096) ∨ q ≤ x / 4096 < q + 2).
  { intros x Hx. right. pose proof (page_of x). unfold c in Hx. lia. }
  destruct (kernel_write_area _ m1 v' own root mem' Ha1) as [Ha2 Hv2].
  { intros x Hx. apply Hout. intros Hin. destruct Hx. apply HK. unfold c. lia. }
  eexists _, _, _, _, c. split_and!; [reflexivity|done|by apply (budget_mem _ m1)|]. split.
  - by exists own.
  - intros x Hx. cbn [mem set_mem]. rewrite Hv2, Hv1 by done. by apply Hv.
  - done.
  - unfold at_window, c. lia.
  - exact HK.
  - exact Hld.
Qed.

(** The state of the scheduler after a process was created: its main thread is
    stopped. *)
Definition created (s : Scheduler S) : Scheduler S :=
  put_entity (put_queue (put_queue s pevent (MkWQ [] false)) tevent (MkWQ [] false)) thread
    (new_entity SchedulingEntityPriority.NORMAL tevent).

Lemma new_process_loading k t kp entry n :
  ready (pgalloc (mach k)) → ¬ available (page_descriptors (pgalloc (mach k))) 0 → contiguous (n + 3) (mach k) →
  0 ≤ t → t + 4096 ≤ 2 ^ 32 → fits 64 entry →
  ∃ k' K c root p th, new_process k (Some (PMEM_VA_START + t)) proc pevent thread tevent kp entry = Ok k' ∧
    loading K c root k' p th (λ _, None) (initial_reg (if kp then Kernel else User) entry (kernel_stack th)) ∧ contiguous n (mach k') ∧
    others (put_sched k (created (sched k))) k'.
Proof.
  intros Hr Hz Hroom Ht Hend He. unfold new_process.
  destruct (new_vma_returns (b := contiguous) (mach k) (n + 2) Hr) as (v & m & Hnew & Hroom1).
  { by replace (Datatypes.S (n + 2)) with (n + 3)%nat by lia. }
  destruct (new_vma_inv (mach k) v m Hr) as (root & Hi & _ & _ & Hnone); [|done|done|].
  { intros j Hj. pose proof (budget_limit _ _ _ Hroom Hj). lia. }
  rewrite Hnew, bind_Ok. destruct (install_total t v m _ root Hi Ht Hend) as [mem' Hins].
  destruct (install_kernel_spec _ _ _ _ _ _ Hi Hins) as [Hi' Htr]. rewrite Hins, bind_Ok.
  unfold create_thread, the_process. cbn [procs put_proc]. rewrite lookup_insert_eq. ok_step.
  cbn [kernel_process]. assert (negb (kp && negb (is_kernel_thread (if kp then Kernel else User))) = true) as -> by (by destruct kp).
  unfold cassert. ok_step. cbn [vma mach put_sched put_mach put_proc].
  destruct (new_thread_building (λ _, False) (set_mem m mem') v {[root := []]} root (if kp then Kernel else User) entry n) as (th & v' & m' & K & c & Hth & Harg & Hroom2 & Hb);
    [apply empty_area; [done|]|by apply (budget_mem _ m)|done| |].
  { intros va Hva. rewrite Htr by done. by apply Hnone. }
  { intros x Hx. unfold user_byte. rewrite Htr, Hnone by done. done. }
  rewrite Hth, bind_Ok. cbn [threads length]. rewrite bind_Ok. cbn [procs put_proc]. rewrite lookup_insert_eq. ok_step.
  eexists _, K, c, root, _, _. split_and!; [reflexivity| |done|].
  - unfold loading. cbn [procs put_proc put_thread thrs mach put_mach]. rewrite !lookup_insert_eq.
    split_and!; [done..|]. by eapply building_thread.
  - split_and!; [done| |]; intros a Hne; cbn [procs put_proc put_thread thrs put_mach put_sched]; by rewrite !lookup_insert_ne.
Qed.
End create.

(** ** The loader *)

(** The program headers of an image. *)
Definition program_headers (data : list Z) (h : ELF64Header) : list ELF64ProgramHeaderEntry :=
  (λ i, read_program_header (take 56 (drop (Z.to_nat (entry_offset h i)) data))) <$> seqZ 0 (phnum h).

(** An executable that the loader accepts. *)
Record image_ok (data : list Z) : Prop := {
  im_bytes : Forall (fits 8) data;
  im_size : 64 ≤ Z.of_nat (length data);
  im_header : header_ok (read_header (take 64 data)) = true;
  im_table i : 0 ≤ i < phnum (read_header (take 64 data)) →
    entry_offset (read_header (take 64 data)) i + 56 ≤ Z.of_nat (length data);
  im_segments : segments_ok data (program_headers data (read_header (take 64 data))) (λ _, None);
}.

Lemma field_fits bs off n : Forall (fits 8) bs → fits (8 * Z.of_nat n) (field bs off n).
Proof.
  intros Hbs. unfold field, fits. pose proof (little_endian_to_Z_bound 8 (take n (drop off bs))) as [Hlo Hhi]; [lia|by apply Forall_take, Forall_drop|].
  split; [lia|]. eapply Z.lt_le_trans; [exact Hhi|]. apply Z.pow_le_mono_r; [lia|]. pose proof (firstn_le_length n (drop off bs)). lia.
Qed.

Lemma magic_bytes data : image_ok data → take 4 data = [127; 69; 76; 70].
Proof.
  intros [Hb Hs Hh _ _]. unfold header_ok in Hh. rewrite !andb_true_iff, !Z.eqb_eq in Hh. destruct Hh as [[[[[E _] _] _] _] _].
  cbn [magic_number read_header] in E. unfold field in E. change (drop 0 (take 64 data)) with (take 64 data) in E.
  rewrite take_take in E. change (4 `min` 64)%nat with 4%nat in E.
  rewrite <- (Z_to_little_endian_to_Z 4 8 (take 4 data)).
  - by rewrite E.
  - rewrite length_take. lia.
  - lia.
  - by apply Forall_take.
Qed.

Section load.
Context {S F : Type} `{SchedulingAlgorithm S} (data : list Z) `{FileLaws F data}.
Context (proc pevent thread tevent : Z).
Context (Hbytes : Forall (fits 8) data).
Implicit Types (k : kernel S SimplePageAllocator) (u : Z → option Z) (R : reg → Z) (f : F).

Lemma load_segment_spec K c root k p t u R f pos ent n :
  loading proc thread K c root k p t u R → segment_ok data u ent → holds f pos →
  contiguous (n + virt_cost (segment_pages ent)) (mach k) →
  ∃ f' k' p', load_segment proc ent f k = Ok (f', k') ∧ loading proc thread K c root k' p' t (segment_view data ent u) R ∧
    holds f' pos ∧ contiguous n (mach k') ∧ others proc thread k k'.
Proof.
  intros (Hp & Hmain & Hth & Ht & Harg & Hb) Hok Hf Hroom.
  destruct (segment_span data ent u Hok) as (Eb & Hn & Hbase & Hspan & Hlo & Hhi). destruct Hok as [Hu Hm Hs Hsm Ho Hus].
  unfold load_segment, the_process. rewrite Hp. ok_step.
  rewrite (building_unmapped K c root t _ _ u R) by (done || (unfold user_va; lia)). rewrite bind_Ok.
  destruct (pread_law f pos (filesz ent) (offset ent) Hf) as (f' & Hrd & Hf'); [lia..|].
  fold (segment_bytes data ent) in Hrd.
  assert (Hlen : Z.of_nat (length (segment_bytes data ent)) = filesz ent).
  { unfold segment_bytes. rewrite length_take, length_drop. lia. }
  destruct (building_place K c root t (vma p) (mach k) u R (segment_base ent) (segment_pages ent) (vaddr ent)
    (segment_bytes data ent) n Hb Hn Hlo) as (v' & m1 & m' & -> & Hcp & Hb' & Hroom'); [|lia|done|lia|lia| |].
  { rewrite Eb. apply Z.mod_mul. lia. }
  { by apply Forall_take, Forall_drop. }
  rewrite !bind_Ok, Hrd, Hcp, bind_Ok. rewrite Hlen in Hb'.
  eexists _, _, _. split_and!; [reflexivity| |done|done|].
  - unfold loading. cbn [procs put_vma put_proc thrs mach put_mach]. rewrite lookup_insert_eq. by split_and!.
  - split_and!; [done| |done]. intros a Hne. cbn [procs put_vma put_proc]. by rewrite lookup_insert_ne.
Qed.

Lemma load_entries_spec K c root h R n : ∀ i k p t u f pos n0,
  loading proc thread K c root k p t u R → holds f pos → 0 ≤ i → i + Z.of_nat n ≤ 2 ^ 16 →
  (∀ j, i ≤ j < i + Z.of_nat n → entry_offset h j + 56 ≤ Z.of_nat (length data)) →
  let ents := (λ j, read_program_header (take 56 (drop (Z.to_nat (entry_offset h j)) data))) <$> seqZ i (Z.of_nat n) in
  segments_ok data ents u → contiguous (n0 + segments_cost ents) (mach k) →
  ∃ f' k' p', load_entries proc n i h false f k = Ok (Some false, f', k') ∧
    loading proc thread K c root k' p' t (segments_view data ents u) R ∧ contiguous n0 (mach k') ∧ others proc thread k k'.
Proof.
  induction n as [|n IH]; intros i k p t u f pos n0 Hl Hf Hi Hn Htab ents Hok Hroom; subst ents.
  { eexists _, _, _. split_and!; [reflexivity|done|by rewrite Nat.add_0_r in Hroom|apply others_refl]. }
  rewrite (seqZ_cons i (Z.of_nat (Datatypes.S n))) in * by lia. replace (Z.pred (Z.of_nat (Datatypes.S n))) with (Z.of_nat n) in * by lia.
  rewrite fmap_cons in *. cbn [load_entries segments_ok segments_view segments_cost] in *.
  assert (0 ≤ entry_offset h i) by (unfold entry_offset; apply wrap_fits; lia).
  destruct (pread_law f pos 56 (entry_offset h i) Hf) as (f1 & Hrd & Hf1); [lia|lia|apply Htab; lia|].
  change (Z.to_nat 56) with 56%nat in Hrd. rewrite Hrd. change (negb (56 =? 56)) with false. cbn beta iota zeta.
  rewrite (wrap_small 32 (i + 1)) by (unfold fits; lia). rewrite <- Z.add_1_r in *.
  set (ent := read_program_header (take 56 (drop (Z.to_nat (entry_offset h i)) data))) in *.
  set (ents := _ <$> seqZ (i + 1) (Z.of_nat n)) in *.
  destruct (Z.eqb_spec (p_type ent) PT_LOAD) as [E|E].
  - destruct Hok as [Hseg Hok].
    destruct (load_segment_spec K c root k p t u R f1 pos ent (n0 + segments_cost ents) Hl Hseg Hf1)
      as (f2 & k2 & p2 & -> & Hl2 & Hf2 & Hroom2 & Hot2).
    { by replace (n0 + segments_cost ents + virt_cost (segment_pages ent))%nat
        with (n0 + (virt_cost (segment_pages ent) + segments_cost ents))%nat by lia. }
    rewrite bind_Ok. edestruct (IH (i + 1) k2 p2 t) as (f' & k' & p' & Hrun & Hl' & Hroom' & Hot'); [done|done|lia|lia| |done|done|].
    { intros j Hj. apply Htab. lia. }
    exists f', k', p'. split_and!; [done|done|done|by eapply others_trans].
  - destruct Hok as [Hni Hok]. rewrite (proj2 (Z.eqb_neq (p_type ent) PT_INTERP)) by done.
    edestruct (IH (i + 1) k p t) as (f' & k' & p' & Hrun & Hl' & Hroom' & Hot'); [done|done|lia|lia| |done|by rewrite Nat.add_0_l in Hroom|].
    { intros j Hj. apply Htab. lia. }
    by exists f', k', p'.
Qed.

Lemma string_argument_spec K c root t v m u R r va str n :
  building K c root t v m u R → argument_reg (current_entry_argument t) = Some r → 0 ≤ va < 2 ^ 46 → va mod 4096 = 0 →
  Forall (fits 8) str → (length str ≤ Z.to_nat 4096)%nat → contiguous (n + virt_cost 1) m →
  ∃ t' v' m', string_argument va str t v m = Ok (true, t', v', m') ∧
    current_entry_argument t' = u32 (current_entry_argument t + 1) ∧ contiguous n m' ∧
    building K c root t' v' m' (overlay va 4096 str u) (λ r', if decide (r' = r) then va else R r').
Proof.
  intros Hb Hr Hva Hal Hstr Hlen Hroom. unfold string_argument.
  destruct (building_place K c root t v m u R va 1 va str n Hb) as (v' & m1 & m2 & -> & Hcp & Hb2 & Hroom2); [lia|lia|done|lia|done|lia|lia|done|].
  rewrite bind_Ok, Hcp, bind_Ok. cbn beta iota.
  destruct (building_argument K c root t v' m2 _ R r va Hb2) as (t' & m' & -> & Harg & [Hpg _] & Hb'); [unfold fits; lia|done|].
  rewrite bind_Ok. eexists _, _, _. split_and!; [reflexivity|done|by apply (budget_mem _ m2)|].
  destruct Hb' as [? Hview ? ? ? ?]. split; try done. intros x Hx. rewrite Hview by done. unfold overlay.
  repeat case_decide; try lia; try done. f_equal. rewrite (lookup_ge_None_2 str) by lia. by rewrite lookup_nil.
Qed.

(** The registers the program starts with. *)
Definition program_regs (entry : Z) (cmdline : list Z) (r : reg) : Z :=
  match r with
  | RSP => 0x101ff8
  | RDI => if 0 <? Z.of_nat (length cmdline) then 0x102000 else 0
  | RSI => 0x103000
  | _ => initial_reg User entry 0 r
  end.

Lemma user_stack_spec K c root t v m u R n :
  building K c root t v m u R → contiguous (n + virt_cost 2) m →
  ∃ v' m', allocate_user_stack t v m 0x100000 0x2000 = Ok (v', m') ∧ contiguous n m' ∧
    building K c root t v' m' (overlay 0x100000 0x2000 [] u) (λ r, if decide (r = RSP) then 0x101ff8 else R r).
Proof.
  intros Hb Hroom. unfold allocate_user_stack. change (s32 (Z.shiftr (align_up_page 0x2000) 12)) with 2.
  destruct (building_allocate K c root t v m u R 0x100000 2 n Hb) as (v' & m1 & q & -> & Hb1 & Hroom1 & _); [lia..|done|lia|done|].
  rewrite bind_Ok. change (u64 (u64 (0x100000 + 0x2000) - 8)) with 0x101ff8.
  destruct (building_store K c root t v' m1 _ R RSP 0x101ff8 Hb1) as (m' & -> & Hb'); [unfold fits; lia|].
  rewrite bind_Ok. eexists _, _. split_and!; [reflexivity|by apply (budget_mem _ m1)|done].
Qed.

Lemma finish_load_spec K c root k p t u entry top cmdline path :
  loading proc thread K c root k p t u (initial_reg User entry top) →
  Forall (fits 8) cmdline → (length cmdline ≤ Z.to_nat 4096)%nat → Forall (fits 8) path → (length path ≤ Z.to_nat 4096)%nat →
  contiguous (virt_cost 2 + virt_cost 1 + virt_cost 1) (mach k) →
  let u1 := overlay 0x100000 0x2000 [] u in
  ∃ k' p' t', finish_load proc cmdline path k = Ok (Some proc, k') ∧ others proc thread k k' ∧
    procs k' !! proc = Some p' ∧ main_thread p' = thread ∧ thrs k' !! thread = Some t' ∧
    building K c root t' (vma p') (mach k')
      (overlay 0x103000 4096 path (if 0 <? Z.of_nat (length cmdline) then overlay 0x102000 4096 cmdline u1 else u1))
      (program_regs entry cmdline).
Proof.
  intros (Hp & Hmain & Hths & Ht & Harg & Hb) Hc Hcl Hpa Hpl Hroom u1.
  unfold finish_load, the_process, the_thread. rewrite Hp. ok_step. rewrite Hmain, Ht. ok_step.
  destruct (user_stack_spec K c root t (vma p) (mach k) u _ (virt_cost 1 + virt_cost 1) Hb) as (v1 & m1 & -> & Hroom1 & Hb1); [done|].
  rewrite bind_Ok. fold u1 in Hb1. set (R1 := λ r, if decide (r = RSP) then _ else _) in Hb1.
  set (w := if 0 <? Z.of_nat (length cmdline) then 0x102000 else 0).
  set (u2 := if 0 <? Z.of_nat (length cmdline) then overlay 0x102000 4096 cmdline u1 else u1).
  assert (∃ t2 v2 m2, (if 0 <? Z.of_nat (length cmdline) then string_argument 0x102000 cmdline t v1 m1
      else '(t, m) ← add_entry_argument 0 (t, m1); Ok (true, t, v1, m)) = Ok (true, t2, v2, m2) ∧
    current_entry_argument t2 = 1 ∧ contiguous (virt_cost 1) m2 ∧
    building K c root t2 v2 m2 u2 (λ r, if decide (r = RDI) then w else R1 r)) as (t2 & v2 & m2 & -> & Harg2 & Hroom2 & Hb2).
  { unfold u2, w. destruct (0 <? Z.of_nat (length cmdline)).
    - destruct (string_argument_spec K c root t v1 m1 u1 R1 RDI 0x102000 cmdline (virt_cost 1) Hb1)
        as (t2 & v2 & m2 & -> & E & ? & ?); [by rewrite Harg|lia|done|done|done|done|]. rewrite Harg in E. by exists t2, v2, m2.
    - destruct (building_argument K c root t v1 m1 u1 R1 RDI 0 Hb1) as (t2 & m2 & -> & E & [Hpg _] & ?); [done|by rewrite Harg|].
      rewrite Harg in E. exists t2, v1, m2. split_and!; [done|done| |done]. apply (budget_mem _ m1); [done|].
      eapply (budget_mono (b := contiguous)); [|done]. lia. }
  rewrite bind_Ok. cbn beta iota. change (0x102000 + 4096) with 0x103000.
  destruct (string_argument_spec K c root t2 v2 m2 u2 _ RSI 0x103000 path 0 Hb2)
    as (t3 & v3 & m3 & -> & _ & _ & Hb3); [by rewrite Harg2|lia|done|done|done|done|].
  rewrite bind_Ok. eexists _, (with_threads p v3 (threads p)), t3. split_and!; [reflexivity| | |done| |].
  - split_and!; [done| |]; intros a Hne; cbn [procs thrs put_thread put_vma put_proc put_mach]; by rewrite ?lookup_insert_ne.
  - cbn [procs put_thread put_vma put_proc]. by rewrite lookup_insert_eq.
  - cbn [thrs put_thread put_vma]. by rewrite lookup_insert_eq.
  - cbn [mach put_thread put_vma put_proc put_mach vma with_threads]. destruct Hb3 as [? ? ? ? ? Hregs]. split; try done.
    intros r. rewrite Hregs. by destruct r.
Qed.

Lemma load_spec k t cmdline path f pos :
  let h := read_header (take 64 data) in
  holds f pos → image_ok data → ready (pgalloc (mach k)) → ¬ available (page_descriptors (pgalloc (mach k))) 0 →
  0 ≤ t → t + 4096 ≤ 2 ^ 32 →
  Forall (fits 8) cmdline → (length cmdline ≤ Z.to_nat 4096)%nat → Forall (fits 8) path → (length path ≤ Z.to_nat 4096)%nat →
  contiguous (program_cost (program_headers data h)) (mach k) →
  ∃ f' k' K c root p' t', load (Some (PMEM_VA_START + t)) proc pevent thread tevent cmdline path f k = Ok (Some proc, f', k') ∧
    others proc thread (put_sched k (created pevent thread tevent (sched k))) k' ∧
    procs k' !! proc = Some p' ∧ main_thread p' = thread ∧ thrs k' !! thread = Some t' ∧
    building K c root t' (vma p') (mach k') (program_view data (program_headers data h) cmdline path)
      (program_regs (e_entry_point h) cmdline).
Proof.
  intros h Hf [_ Hsize Hh Htab Hseg] Hr Hz Ht Hend Hc Hcl Hpa Hpl Hroom. unfold load. cbv zeta.
  destruct (read_law (file_seek 0 f) 0 64 (seek_law f pos 0 Hf)) as (f1 & Hrd & Hf1); [lia..|].
  change (Z.to_nat 64) with 64%nat in Hrd. change (drop (Z.to_nat 0) data) with data in Hrd.
  rewrite Hrd. change (negb (64 =? 64)) with false. cbn beta iota. fold h. fold h in Hh, Htab, Hseg. rewrite Hh. cbn [negb].
  assert (Hpn : fits 16 (phnum h)) by (apply (field_fits _ _ 2), Forall_take, Hbytes).
  assert (He : fits 64 (e_entry_point h)) by (apply (field_fits _ _ 8), Forall_take, Hbytes).
  set (n1 := (virt_cost 2 + virt_cost 1 + virt_cost 1)%nat). set (ents := program_headers data h) in *.
  destruct (new_process_loading proc pevent thread tevent k t false (e_entry_point h) (n1 + segments_cost ents)) as
    (k1 & K & c & root & p1 & th1 & -> & Hl1 & Hroom1 & Hot1); [done|done| |done|done|done|].
  { unfold program_cost in Hroom. replace (n1 + segments_cost ents + 3)%nat
      with (1 + 2 + segments_cost ents + virt_cost 2 + virt_cost 1 + virt_cost 1)%nat by (unfold n1; lia). done. }
  rewrite bind_Ok. unfold fits in Hpn. change (Z.pow 2 16) with 65536 in *.
  unfold ents, program_headers in Hroom1, Hseg. replace (phnum h) with (Z.of_nat (Z.to_nat (phnum h))) in Hroom1, Hseg by lia.
  destruct (load_entries_spec K c root h _ (Z.to_nat (phnum h)) 0 k1 p1 th1 (λ _, None) f1 (0 + 64) n1 Hl1 Hf1)
    as (f2 & k2 & p2 & -> & Hl2 & Hroom2 & Hot2); [lia|lia|intros j Hj; apply Htab; lia|done|done|].
  rewrite bind_Ok. cbn beta iota. rewrite Z2Nat.id in Hl2 by lia. fold (program_headers data h) in Hl2. fold ents in Hl2.
  destruct (finish_load_spec K c root k2 p2 th1 _ _ _ cmdline path Hl2 Hc Hcl Hpa Hpl Hroom2)
    as (k' & p' & t' & -> & Hot' & Hp' & Hm' & Ht' & Hb').
  rewrite bind_Ok. exists f2, k', K, c, root, p', t'. split_and!; try done.
  eapply others_trans; [exact Hot1|]. by eapply others_trans.
Qed.
End load.

(** A segment that starts in a page that is mapped already gets no pages: bytes of
    the file are copied to where the page lies, and every address that was
    unmapped, such as the rest of the segment, stays unmapped. *)
Lemma segment_in_mapped_page {S F} `{SchedulingAlgorithm S} (data : list Z) `{FileLaws F data} proc thread K c root
    (k : kernel S SimplePageAllocator) p t u R f pos ent q :
  loading proc thread K c root k p t u R → holds f pos → Forall (fits 8) data →
  0 ≤ filesz ent < 2 ^ 31 → 0 ≤ offset ent → offset ent + filesz ent ≤ Z.of_nat (length data) →
  0 ≤ vaddr ent → vaddr ent + filesz ent < 2 ^ 47 → translation (mem (mach k)) root (vaddr ent) = Some q →
  (∀ x, within (vaddr ent) (filesz ent) x → translation (mem (mach k)) root x = Some (q + (x - vaddr ent))) →
  ∃ f' k' p', load_segment proc ent f k = Ok (f', k') ∧
    loading proc thread K c root k' p' t (overlay (vaddr ent) (filesz ent) (segment_bytes data ent) u) R.
Proof.
  intros (Hp & Hmain & Hth & Ht & Harg & Hb) Hf Hbytes Hfs Ho Hoe Hv Hve Hq Hcont.
  unfold load_segment, the_process. rewrite Hp. ok_step. destruct (bd_area _ _ _ _ _ _ _ _ Hb) as [own Ha].
  unfold is_mapped. rewrite (get_mapping_spec _ _ _ _ (vaddr ent) (ar_inv _ _ _ _ _ Ha)) by (unfold user_va; lia).
  rewrite Hq. ok_step. rewrite bind_Ok, bool_decide_true by by eexists. rewrite bind_Ok.
  destruct (pread_law f pos (filesz ent) (offset ent) Hf) as (f' & -> & Hf'); [lia..|].
  fold (segment_bytes data ent).
  assert (Hlen : Z.of_nat (length (segment_bytes data ent)) = filesz ent).
  { unfold segment_bytes. rewrite length_take, length_drop. lia. }
  destruct (building_copy K c root t (vma p) (mach k) u R (vaddr ent) (segment_bytes data ent) q Hb) as (m' & -> & Hb' & _);
    [lia|lia|by apply Forall_take, Forall_drop|done|by rewrite Hlen|].
  rewrite bind_Ok, Hlen in *. eexists _, _, _. split; [reflexivity|].
  unfold loading. cbn [procs put_vma put_proc thrs mach put_mach]. rewrite lookup_insert_eq. by split_and!.
Qed.

(** Deleting a process whose threads are stopped. *)
Lemma destroy_process_spec {S A} `{SchedulingAlgorithm S} `{PageAllocatorAlgorithm A} (k : kernel S A) proc p :
  procs k !! proc = Some p → Forall (λ t, ∃ e, entities (sched k) !! t = Some e ∧ state e = STOPPED) (threads p) →
  ∃ k', destroy_process k proc = Ok k' ∧ procs k' = base.delete proc (procs k) ∧ sched k' = sched k ∧ mach k' = mach k.
Proof.
  intros Hp Hst. unfold destroy_process, the_process, entity, cassert. rewrite Hp. ok_step. clear Hp. revert k Hst.
  induction (threads p) as [|t ts IH]; intros k Hst; cbn [for_each]; [rewrite bind_Ok; by eexists|].
  inversion Hst as [|? ? (e & He & Hs) Hts]; subst. rewrite He. ok_step.
  rewrite bool_decide_true by done. ok_step. rewrite bind_Ok. by apply (IH (MkK (sched k) (base.delete t (thrs k)) (procs k) (mach k))).
Qed.

(** ** Properties *)


(** A file in memory. *)
Record MemFile := MkFile { contents : list Z; position : Z }.

#[export] Instance mem_file : File MemFile := {
  file_seek off f := MkFile (contents f) off;
  file_read n f :=
    let bs := take (Z.to_nat n) (drop (Z.to_nat (position f)) (contents f)) in
    (Z.of_nat (length bs), bs, MkFile (contents f) (position f + Z.of_nat (length bs)));
  file_pread n off f :=
    let bs := take (Z.to_nat n) (drop (Z.to_nat off) (contents f)) in (Z.of_nat (length bs), bs, f);
}.

Lemma slice_length (l : list Z) n off :
  0 ≤ off → 0 ≤ n → off + n ≤ Z.of_nat (length l) → Z.of_nat (length (take (Z.to_nat n) (drop (Z.to_nat off) l))) = n.
Proof. intros. rewrite length_take, length_drop. lia. Qed.

#[export] Instance mem_file_laws data : FileLaws MemFile data.
Proof.
  refine {| holds f p := contents f = data ∧ position f = p |}.
  - by intros f p off [E _].
  - intros f p n [<- <-] Hp Hn Hend. eexists. cbn [file_read mem_file]. rewrite slice_length by lia. done.
  - intros f p n off [<- <-] Hoff Hn Hend. eexists. cbn [file_pread mem_file]. rewrite slice_length by lia. done.
Defined.

(** An executable with one segment of four bytes at 0x400078, and a machine to
    run it on. *)
Definition sample_image : list Z :=
  [127; 69; 76; 70; 2; 1; 1; 0; 0; 0; 0; 0; 0; 0; 0; 0; 2; 0; 62; 0; 1; 0; 0; 0; 120; 0; 64; 0; 0; 0; 0; 0;
   64; 0; 0; 0; 0; 0; 0; 0; 0; 0; 0; 0; 0; 0; 0; 0; 0; 0; 0; 0; 64; 0; 56; 0; 1; 0; 0; 0; 0; 0; 0; 0;
   1; 0; 0; 0; 5; 0; 0; 0; 120; 0; 0; 0; 0; 0; 0; 0; 120; 0; 64; 0; 0; 0; 0; 0; 0; 0; 0; 0; 0; 0; 0; 0;
   4; 0; 0; 0; 0; 0; 0; 0; 8; 0; 0; 0; 0; 0; 0; 0; 0; 16; 0; 0; 0; 0; 0; 0; 144; 205; 129; 195].

Definition sample_machine : machine SimplePageAllocator :=
  MkMachine (MkPA 32 (MkPD None None RESERVED :: replicate 31 (MkPD None None AVAILABLE)) (Some (MkSimple 32))) ∅.

Definition sample_kernel : kernel CompletelyFairScheduler SimplePageAllocator := MkK demo_boot ∅ ∅ sample_machine.

Lemma sample_image_ok : image_ok sample_image.
Proof.
  split.
  - repeat constructor; vm_compute; congruence.
  - vm_compute. congruence.
  - vm_compute. reflexivity.
  - intros i Hi. change (phnum (read_header (take 64 sample_image))) with 1 in Hi. replace i with 0 by lia. vm_compute. congruence.
  - change (program_headers sample_image (read_header (take 64 sample_image))) with [MkEnt 1 120 0x400078 4 8].
    split; [|exact I]. split; vm_compute; intuition congruence.
Qed.



