(* ===== verification/Syscall.v ===== *)
(** * Kernel objects and system calls

    The object manager (kernel/om.cpp), the system call table and the default
    system calls (kernel/syscall.cpp), and the handlers that the processor's
    interrupts enter (arch/x86/syscall.cpp).  No call of the table looks at its
    fifth and sixth argument (r8, r9), so they are left out; a thread is created
    with one of the priorities of the enumeration. *)

From S2P Require Import Prelude Define CppMap PageAlloc PhysMem Vma CppString MemInit KTime Sched SchedFair Thread Process.
From stdpp Require Import list_numbers.
Local Open Scope Z_scope.

(** ** The object manager *)

(** [od_owner] is a thread; [od_object] an untyped pointer. *)
Record ObjectDescriptor := MkOd { od_owner : Z; od_object : Z }.

Record ObjectManager := MkOm { next_handle : Z; objects : Map ObjectDescriptor }.

Definition new_object_manager : ObjectManager := MkOm 1 empty_map.

(** [KernelObject::Error]. *)
Definition ObjectError : Z := u64 (-1).

Definition register_object (o : ObjectManager) (thread obj : Z) : result (Z * ObjectManager) :=
  let handle := next_handle o in
  m ← add (objects o) handle (MkOd thread obj);
  Ok (handle, MkOm (u64 (next_handle o + 1)) m).

(** [None] is NULL. *)
Definition get_object_secure (thrs : gmap Z Thread) (o : ObjectManager) (thread handle : Z) : result (option Z) :=
  match try_get_value (objects o) handle with
  | None => Ok None
  | Some d =>
      t ← get NullDeref (thrs !! od_owner d);
      u ← get NullDeref (thrs !! thread);
      if negb (owner t =? owner u) then Ok None else Ok (Some (od_object d))
  end.

(** ** The system *)

(** [env] is the state of the file systems and devices behind the interfaces
    below. *)
Record system (S A E : Type) := MkSys { kern : kernel S A; om : ObjectManager; env : E }.
Arguments MkSys {S A E}.
Arguments kern {S A E}.
Arguments om {S A E}.
Arguments env {S A E}.

(** What the system calls use of the file systems (the abstract classes [File]
    and [Directory], [VirtualFilesystem::open] and [opendir]) and of the program
    loader ([Kernel::launch_process]).  Pointers are addresses in the memory of
    the current process. *)
Class Services (S A E : Type) := {
  vfs_open : Z → Z → system S A E → result (option Z * system S A E);
  vfs_opendir : Z → Z → system S A E → result (option Z * system S A E);
  launch_process : Z → Z → system S A E → result (option Z * system S A E);
  file_close : Z → system S A E → result (system S A E);
  file_read : Z → Z → Z → system S A E → result (Z * system S A E);
  file_write : Z → Z → Z → system S A E → result (Z * system S A E);
  file_pread : Z → Z → Z → Z → system S A E → result (Z * system S A E);
  file_pwrite : Z → Z → Z → Z → system S A E → result (Z * system S A E);
  dir_read_entry : Z → system S A E → result (option (cstr * Z) * system S A E);
  dir_close : Z → system S A E → result (system S A E) }.

(** ** The table *)

(** The functions [RegisterDefaultSyscalls] registers, in the order of their
    numbers. *)
Inductive syscall :=
| sys_nop | sys_yield | sys_exit | sys_open | sys_close | sys_read | sys_write
| sys_opendir | sys_readdir | sys_closedir | sys_exec | sys_wait_proc | sys_create_thread
| sys_stop_thread | sys_join_thread | sys_usleep | sys_get_tod | sys_set_thread_name | sys_get_ticks
| sys_pread | sys_pwrite | sys_set_exception_info | sys_run_exception_test
| sys_allocate_memory | sys_release_memory | sys_futex_wait_ | sys_futex_wake_up_
| sys_thread_id | sys_thread_leave.

#[export] Instance syscall_eq_dec : EqDecision syscall.
Proof. solve_decision. Defined.

Definition MAX_SYSCALLS : Z := 256.

(** [syscall_table_]. *)
Abbreviation table := (list (option syscall)).

Definition SyscallManager : table := replicate (Z.to_nat MAX_SYSCALLS) None.

Definition RegisterSyscall (t : table) (nr : Z) (fn : syscall) : table :=
  if (nr <? 0) || (MAX_SYSCALLS <=? nr) then t else <[Z.to_nat nr := Some fn]> t.

Definition default_syscalls : list (Z * syscall) :=
  [(0, sys_nop); (1, sys_yield); (2, sys_exit); (3, sys_open); (4, sys_close); (5, sys_read); (6, sys_write);
   (7, sys_opendir); (8, sys_readdir); (9, sys_closedir); (10, sys_exec); (11, sys_wait_proc);
   (12, sys_create_thread); (13, sys_stop_thread); (14, sys_join_thread); (15, sys_usleep); (16, sys_get_tod);
   (17, sys_set_thread_name); (18, sys_get_ticks); (19, sys_pread); (20, sys_pwrite);
   (21, sys_set_exception_info); (22, sys_run_exception_test); (23, sys_allocate_memory);
   (24, sys_release_memory); (25, sys_futex_wait_); (26, sys_futex_wake_up_); (27, sys_thread_id);
   (28, sys_thread_leave)].

Definition RegisterDefaultSyscalls (t : table) : table :=
  foldl (λ t '(nr, fn), RegisterSyscall t nr fn) t default_syscalls.

Section syscalls.
Context {S A E : Type} `{SchedulingAlgorithm S} `{PageAllocatorAlgorithm A} `{Services S A E}.
Implicit Type y : system S A E.

(** Fuel for the chains of wake-ups, and the addresses of objects the kernel
    allocates during a call. *)
Context (fuel : nat) (fresh : nat → Z).

Definition put_kern y (k : kernel S A) : system S A E := MkSys k (om y) (env y).
Definition put_om y (o : ObjectManager) : system S A E := MkSys (kern y) o (env y).

(** ** User memory *)

(** Byte accesses through the tables of the current process. *)
Definition user_vma y : result VMA := o ← current_owner (kern y); p ← the_process (kern y) o; Ok (vma p).

Definition user_load (n : nat) (va : Z) y : result (list Z) :=
  v ← user_vma y;
  for_range 0 (Z.of_nat n) (λ i acc, pa ← get_mapping v (mach (kern y)) (u64 (va + i));
    pa ← get (Thrown (u64 (va + i))) pa; Ok (acc ++ [ld8 (mem (mach (kern y))) pa])) [].

Definition user_store (va : Z) (bs : list Z) y : result (system S A E) :=
  v ← user_vma y;
  '(_, m) ← for_each bs (λ b '(va, m), pa ← get_mapping v m va; pa ← get (Thrown va) pa;
    Ok (u64 (va + 1), set_mem m (<[pa := b]> (mem m)))) (va, mach (kern y));
  Ok (put_kern y (put_mach (kern y) m)).

Definition bytes16 (x : Z) : list Z := Z_to_little_endian 2 8 x.
Definition bytes32 (x : Z) : list Z := Z_to_little_endian 4 8 x.

(** ** The calls

    A call returns a value (none, when the function has type [void]), or has
    not returned yet: its thread is stopped, asleep or spinning. *)

Definition ret_uint (x : Z) : option Z := Some (u32 x).

(** The object behind a handle of the current thread. *)
Definition the_object y (h : Z) : result (option Z) :=
  c ← current_thr (kern y); get_object_secure (thrs (kern y)) (om y) c h.

Definition register y (obj : Z) : result (option Z * system S A E) :=
  c ← current_thr (kern y);
  '(h, o) ← register_object (om y) c obj;
  Ok (Some h, put_om y o).

(** Calls a file operation on the object, or returns -1. *)
Definition on_file y (h : Z) (op : Z → system S A E → result (Z * system S A E)) : result (option Z * system S A E) :=
  f ← the_object y h;
  match f with
  | None => Ok (ret_uint (-1), y)
  | Some f => '(n, y) ← op f y; Ok (ret_uint n, y)
  end.

Definition SysOpenException : fault := Thrown 2.

Definition do_open (filename flags : Z) y : result (option Z * system S A E) :=
  '(f, y) ← vfs_open filename flags y;
  match f with None => Err SysOpenException | Some f => register y f end.

Definition do_opendir (path flags : Z) y : result (option Z * system S A E) :=
  '(d, y) ← vfs_opendir path flags y;
  match d with None => Ok (Some ObjectError, y) | Some d => register y d end.

Definition do_exec (program args : Z) y : result (option Z * system S A E) :=
  '(p, y) ← launch_process program args y;
  match p with None => Ok (Some ObjectError, y) | Some p => register y p end.

(** The name field has 64 bytes, of which [strncpy] writes at most 63. *)
Definition do_readdir (h buffer : Z) y : result (option Z * system S A E) :=
  d ← the_object y h;
  match d with
  | None => Ok (ret_uint 0, y)
  | Some d =>
      '(de, y) ← dir_read_entry d y;
      match de with
      | None => Ok (ret_uint 0, y)
      | Some (name, size) =>
          old ← user_load 64 buffer y;
          new ← strncpy old name 63;
          y ← user_store buffer new y;
          y ← user_store (u64 (buffer + 68)) (bytes32 0) y;
          y ← user_store (u64 (buffer + 64)) (bytes32 size) y;
          Ok (ret_uint 1, y)
      end
  end.

(** One turn of the loop of [sys_wait_proc]: [true] when the process has
    terminated; otherwise the thread sleeps and tests again when it runs. *)
Definition wait_proc_turn (p : Z) y : result (bool * system S A E) :=
  q ← the_process (kern y) p;
  if terminated q then Ok (true, y)
  else s ← event_wait fuel (state_event q) (sched (kern y)); Ok (false, put_kern y (put_sched (kern y) s)).

Definition join_turn (t : Z) y : result (bool * system S A E) :=
  e ← entity (sched (kern y)) t;
  if bool_decide (state e = STOPPED) then Ok (true, y)
  else s ← event_wait fuel (state_changed e) (sched (kern y)); Ok (false, put_kern y (put_sched (kern y) s)).

(** [0x7fff00000000 + 0x2000 * (unsigned int) h]; the product is 32 bits wide. *)
Definition stack_address (h : Z) : Z := u64 (0x7fff00000000 + u32 (0x2000 * u32 h)).

Definition do_create_thread (entry arg : Z) (prio : SchedulingEntityPriority.SchedulingEntityPriority) y
    : result (option Z * system S A E) :=
  o ← current_owner (kern y);
  c ← current_thr (kern y);
  let new := fresh 0 in
  k ← create_thread (kern y) o new (fresh 1) User entry prio;
  '(h, objs) ← register_object (om y) c new;
  t ← the_thread k new;
  p ← the_process k o;
  '(v, m) ← allocate_user_stack t (vma p) (mach k) (stack_address h) 0x2000;
  '(t, m) ← add_entry_argument arg (t, m);
  let k := put_thread (put_proc (put_mach k m) o (with_threads p v (threads p))) new t in
  s ← thread_start fuel new (sched k);
  Ok (Some h, MkSys (put_sched k s) objs (env y)).

(** The thread a handle stands for; -1 is the current thread. *)
Definition thread_of_handle y (h : Z) : result (option Z) :=
  if h =? u64 (-1) then c ← current_thr (kern y); Ok (Some c) else the_object y h.

(** [fresh 0] is the address of the unwind header. *)
Definition do_stop_thread (h : Z) y : result (option Z * system S A E) :=
  t ← thread_of_handle y h;
  match t with
  | None => Ok (ret_uint (-1), y)
  | Some t => '(_, k) ← thread_stop fuel (kern y) t false (fresh 0); Ok (ret_uint 0, put_kern y k)
  end.

(** The fields of [userspace_tod_buffer], in order. *)
Definition do_get_tod (tpstruct : Z) y : result (option Z * system S A E) :=
  let t := tod (clk (sched (kern y))) in
  y ← user_store tpstruct (bytes16 (seconds t) ++ bytes16 (minutes t) ++ bytes16 (hours t) ++
                           bytes16 (day t) ++ bytes16 (month t) ++ bytes16 (year t)) y;
  Ok (ret_uint 0, y).

Definition do_allocate_memory (nr_pages : Z) y : result (option Z * system S A E) :=
  o ← current_owner (kern y);
  p ← the_process (kern y) o;
  '(va, v, m) ← allocate_virt_any (vma p) (mach (kern y)) (u32 nr_pages);
  Ok (Some va, put_kern y (put_proc (put_mach (kern y) m) o (with_threads p v (threads p)))).

(** [sys_set_exception_info] copies a structure of three words. *)
Definition do_set_exception_info (ptr : Z) y : result (option Z * system S A E) :=
  o ← current_owner (kern y);
  p ← the_process (kern y) o;
  a ← user_load64 (vma p) (mach (kern y)) ptr;
  b ← user_load64 (vma p) (mach (kern y)) (u64 (ptr + 8));
  c ← user_load64 (vma p) (mach (kern y)) (u64 (ptr + 16));
  Ok (None, put_kern y (put_proc (kern y) o (setExceptionPrepareInfo p (MkExc a b c)))).

Definition IntException : fault := Thrown 5.

(** How a call ends, with its value. *)
Inductive outcome := Returned (v : option Z) | Pending.

Definition returns (r : result (option Z * system S A E)) : result (outcome * system S A E) :=
  '(v, y) ← r; Ok (Returned v, y).

(** Threads have no name in the model: [sys_set_thread_name] checks what the
    code dereferences.  [release_memory] has an empty body.  The self-tests that
    [sys_run_exception_test] may run before it throws only write to the log; they
    have a file of their own. *)
Definition run_syscall (fn : syscall) (a0 a1 a2 a3 : Z) y : result (outcome * system S A E) :=
  match fn with
  | sys_nop | sys_yield => Ok (Returned None, y)
  | sys_exit =>
      o ← current_owner (kern y);
      '(b, k) ← terminate fuel (kern y) o;
      Ok (if (b : bool) then Returned None else Pending, put_kern y k)
  | sys_open => returns (do_open a0 (u32 a1) y)
  | sys_close => returns (on_file y a0 (λ f y, y ← file_close f y; Ok (0, y)))
  | sys_read => returns (on_file y a0 (λ f, file_read f a1 a2))
  | sys_write => returns (on_file y a0 (λ f, file_write f a1 a2))
  | sys_opendir => returns (do_opendir a0 (u32 a1) y)
  | sys_readdir => returns (do_readdir a0 a1 y)
  | sys_closedir => returns (on_file y a0 (λ d y, y ← dir_close d y; Ok (0, y)))
  | sys_exec => returns (do_exec a0 a1 y)
  | sys_wait_proc =>
      p ← the_object y a0;
      match p with
      | None => Ok (Returned (ret_uint (-1)), y)
      | Some p => '(b, y) ← wait_proc_turn p y; Ok (if (b : bool) then Returned (ret_uint 0) else Pending, y)
      end
  | sys_create_thread =>
      prio ← get Uninitialised ([SchedulingEntityPriority.REALTIME; SchedulingEntityPriority.INTERACTIVE;
        SchedulingEntityPriority.NORMAL; SchedulingEntityPriority.DAEMON] !! Z.to_nat (u32 a2));
      returns (do_create_thread a0 a1 prio y)
  | sys_stop_thread => returns (do_stop_thread a0 y)
  | sys_join_thread =>
      t ← the_object y a0;
      match t with
      | None => Ok (Returned (ret_uint (-1)), y)
      | Some t => '(b, y) ← join_turn t y; Ok (if (b : bool) then Returned (ret_uint 0) else Pending, y)
      end
  | sys_usleep =>
      if tp_lt (runtime (clk (sched (kern y)))) (spin_target (runtime (clk (sched (kern y)))) (ns_of_us a0))
      then Ok (Pending, y) else Ok (Returned (Some a0), y)
  | sys_get_tod => returns (do_get_tod a0 y)
  | sys_set_thread_name =>
      t ← thread_of_handle y a0; t ← get NullDeref t; _ ← the_thread (kern y) t; Ok (Returned None, y)
  | sys_get_ticks => Ok (Returned (Some (time_since_epoch (runtime (clk (sched (kern y)))))), y)
  | sys_pread => returns (on_file y a0 (λ f, file_pread f a1 a2 a3))
  | sys_pwrite => returns (on_file y a0 (λ f, file_pwrite f a1 a2 a3))
  | sys_set_exception_info => returns (do_set_exception_info a0 y)
  | sys_run_exception_test => Err IntException
  | sys_allocate_memory => returns (do_allocate_memory a0 y)
  | sys_release_memory => Ok (Returned None, y)
  | sys_futex_wait_ =>
      c ← current_thr (kern y);
      k ← sys_futex_wait fuel (kern y) a0 a1 (fresh 0);
      e ← entity (sched k) c;
      Ok (if bool_decide (state e = SLEEPING) then Pending else Returned None, put_kern y k)
  | sys_futex_wake_up_ => k ← sys_futex_wake_up fuel (kern y) a0 a1; Ok (Returned None, put_kern y k)
  | sys_thread_id =>
      c ← current_thr (kern y); t ← the_thread (kern y) c; Ok (Returned (Some (thread_id t)), y)
  | sys_thread_leave =>
      c ← current_thr (kern y);
      '(b, k) ← thread_stop fuel (kern y) c true 0;
      Ok (if (b : bool) then Returned None else Pending, put_kern y k)
  end.

(** [Thread::current().enter_syscall()] and [leave_syscall()]. *)
Definition on_current (f : Thread → Thread) y : result (system S A E) :=
  c ← current_thr (kern y);
  t ← the_thread (kern y) c;
  Ok (put_kern y (put_thread (kern y) c (f t))).

(** [InvokeSyscall]; a call that is pending has not left. *)
Definition InvokeSyscall (t : table) (nr : Z) (a0 a1 a2 a3 : Z) y : result (outcome * system S A E) :=
  y ← on_current enter_syscall y;
  if (nr <? 0) || (MAX_SYSCALLS <=? nr) then Ok (Returned (Some (u64 (-1))), y)
  else
    fn ← rd t nr;
    match fn with
    | None => y ← on_current leave_syscall y; Ok (Returned (Some (u64 (-1))), y)
    | Some fn =>
        '(o, y) ← run_syscall fn a0 a1 a2 a3 y;
        match o with
        | Pending => Ok (Pending, y)
        | Returned v => y ← on_current leave_syscall y; Ok (Returned v, y)
        end
    end.

(** [user_syscall_handler]: the number and the arguments come from the saved
    registers of the thread, and the result goes to its rax.  The number is
    passed as an [int]. *)
Definition user_syscall_handler (t : table) y : result (outcome * system S A E) :=
  c ← current_thr (kern y);
  th ← the_thread (kern y) c;
  let ctx := native_context th in
  let m := mem (mach (kern y)) in
  rax ← ctx_load m ctx RAX; rdi ← ctx_load m ctx RDI; rsi ← ctx_load m ctx RSI;
  rdx ← ctx_load m ctx RDX; rcx ← ctx_load m ctx RCX;
  '(o, y) ← InvokeSyscall t (s32 rax) rdi rsi rdx rcx y;
  match o with
  | Returned (Some v) =>
      m ← ctx_store (mem (mach (kern y))) ctx RAX v;
      Ok (o, put_kern y (put_mach (kern y) (set_mem (mach (kern y)) m)))
  | _ => Ok (o, y)
  end.
End syscalls.

(** ** Lemmas *)

(** Registering a sequence of objects, each by a thread. *)
Definition register_all (regs : list (Z * Z)) : result (list Z * ObjectManager) :=
  for_each regs (λ '(t, obj) '(hs, o), '(h, o) ← register_object o t obj; Ok (hs ++ [h], o))
    ([], new_object_manager).

(** The manager after registering [regs]: handle [h] is the [h]-th of them. *)
Record registered (regs : list (Z * Z)) (o : ObjectManager) : Prop := {
  reg_next : next_handle o = 1 + Z.of_nat (length regs);
  reg_wf : wf (objects o);
  reg_map h : map_of (objects o) !! h =
    if decide (1 ≤ h) then (λ r, MkOd (fst r) (snd r)) <$> regs !! Z.to_nat (h - 1) else None }.

Lemma registered_new : registered [] new_object_manager.
Proof.
  destruct (wf_empty (V := ObjectDescriptor)) as [W M]. constructor; [done..|].
  intros h. simpl. rewrite M, lookup_empty. by destruct (decide _).
Qed.

Lemma register_object_spec regs o t obj :
  registered regs o → Z.of_nat (length regs) + 2 < 2 ^ 64 →
  ∃ o', register_object o t obj = Ok (1 + Z.of_nat (length regs), o') ∧ registered (regs ++ [(t, obj)]) o'.
Proof.
  intros [Hn Hwf Hm] Hlen. unfold register_object.
  destruct (add_spec (objects o) (next_handle o) (MkOd t obj) Hwf) as (m & -> & Hwf' & Hm').
  rewrite bind_Ok. eexists. rewrite Hn in *. split; [reflexivity|]. constructor; simpl; [|done|].
  - rewrite wrap_small by eauto with infos. rewrite length_app. simpl. lia.
  - intros h. rewrite Hm'. destruct (decide (h = 1 + Z.of_nat (length regs))) as [->|Hne].
    + rewrite lookup_insert_eq, decide_True by lia.
      replace (Z.to_nat (1 + Z.of_nat (length regs) - 1)) with (length regs) by lia.
      by rewrite list_lookup_middle.
    + rewrite lookup_insert_ne, Hm by done. destruct (decide (1 ≤ h)); [|done].
      destruct (decide (h ≤ Z.of_nat (length regs))).
      * by rewrite lookup_app_l by lia.
      * rewrite !lookup_ge_None_2; [done|rewrite length_app; simpl; lia|lia].
Qed.

Lemma register_all_spec regs :
  Z.of_nat (length regs) + 1 < 2 ^ 64 →
  ∃ o, register_all regs = Ok (seqZ 1 (Z.of_nat (length regs)), o) ∧ registered regs o.
Proof.
  intros Hlen. unfold register_all.
  assert (∀ post pre o, registered pre o → Z.of_nat (length (pre ++ post)) + 1 < 2 ^ 64 →
    ∃ o', for_each post (λ '(t, obj) '(hs, o), '(h, o) ← register_object o t obj; Ok (hs ++ [h], o))
            (seqZ 1 (Z.of_nat (length pre)), o) = Ok (seqZ 1 (Z.of_nat (length (pre ++ post))), o') ∧
      registered (pre ++ post) o') as Hgen.
  { induction post as [|[t obj] post IH]; intros pre o Hr Hl; cbn [for_each].
    - exists o. by rewrite app_nil_r.
    - rewrite length_app in Hl. simpl in Hl.
      destruct (register_object_spec pre o t obj Hr) as (o1 & -> & Hr1); [lia|]. rewrite !bind_Ok.
      destruct (IH (pre ++ [(t, obj)]) o1 Hr1) as (o' & Hrun & Hr'); [rewrite !length_app; simpl; lia|].
      exists o'. rewrite <- app_assoc in Hrun, Hr'. split; [|exact Hr']. etransitivity; [|exact Hrun]. do 2 f_equal.
      rewrite length_app. simpl. rewrite Nat2Z.inj_add, seqZ_app by lia. f_equal. }
  destruct (Hgen regs [] new_object_manager registered_new) as (o & Hrun & Hr); [done|]. eauto.
Qed.

Lemma default_table :
  RegisterDefaultSyscalls SyscallManager = (Some ∘ snd <$> default_syscalls) ++ replicate 227 None.
Proof. reflexivity. Qed.

(** ** Properties *)

(** C31. Handles are unforgeable between processes.  The handles given out are
    1, 2, 3, ... in order (never the error value), and [get_object_secure]
    returns, for a thread and any number, the object registered under that
    handle when the registering thread and the asking thread belong to the same
    process, and NULL in every other case. *)
Theorem object_handles_secure (thrs : gmap Z Thread) (regs : list (Z * Z)) :
  Z.of_nat (length regs) + 1 < 2 ^ 64 → (∀ r, r ∈ regs → is_Some (thrs !! fst r)) →
  ∃ o, register_all regs = Ok (seqZ 1 (Z.of_nat (length regs)), o) ∧
    ObjectError ∉ seqZ 1 (Z.of_nat (length regs)) ∧
    ∀ t th h, thrs !! t = Some th → 0 ≤ h →
      get_object_secure thrs o t h = Ok (
        if h =? 0 then None else
        '(u, obj) ← regs !! Z.to_nat (h - 1);
        tu ← thrs !! u;
        if owner tu =? owner th then Some obj else None).
Proof.
  intros Hlen Hex. destruct (register_all_spec regs Hlen) as (o & Hrun & [Hn Hwf Hm]).
  exists o. split_and!; [done|rewrite elem_of_seqZ; change ObjectError with (2 ^ 64 - 1); lia|].
  intros t th h Ht Hh. unfold get_object_secure. rewrite try_get_value_spec, Hm by done.
  destruct (Z.eqb_spec h 0) as [->|]; [done|]. rewrite decide_True by lia.
  destruct (regs !! Z.to_nat (h - 1)) as [[u obj]|] eqn:E; [|done]. simpl.
  destruct (Hex (u, obj)) as [tu Hu]; [by eapply list_elem_of_lookup_2|]. simpl in Hu. rewrite Hu, Ht. simpl.
  by destruct (owner tu =? owner th).
Qed.

Lemma object_handles_secure_witness :
  ∃ o, register_all [(2, 100); (3, 200)] = Ok ([1; 2], o) ∧
    get_object_secure {[ 2 := demo_thr; 3 := demo_thr ]} o 3 1 = Ok (Some 100).
Proof.
  destruct (object_handles_secure {[ 2 := demo_thr; 3 := demo_thr ]} [(2, 100); (3, 200)]) as (o & Hr & _ & Hg).
  - simpl. lia.
  - intros r Hr. apply elem_of_cons in Hr as [->|Hr]; [by eexists|].
    apply list_elem_of_singleton in Hr as ->. by eexists.
  - exists o. split; [exact Hr|]. rewrite (Hg 3 demo_thr 1); [reflexivity|reflexivity|lia].
Defined.

(** Dispatch.  With the default table, the numbers 0 to 28 run the
    registered functions; when the call returns, its value is passed on and the
    thread has left the system call.  The other numbers below 256 return -1 and
    leave it too; a number outside the table returns -1 while the thread is
    still marked as inside a system call. *)
Theorem syscall_dispatch {S A E} `{SchedulingAlgorithm S} `{PageAllocatorAlgorithm A} `{Services S A E}
    fuel fresh nr a0 a1 a2 a3 (y : system S A E) c th :
  current_thread (sched (kern y)) = Some c → thrs (kern y) !! c = Some th →
  let entered := put_kern y (put_thread (kern y) c (enter_syscall th)) in
  let call := InvokeSyscall fuel fresh (RegisterDefaultSyscalls SyscallManager) nr a0 a1 a2 a3 y in
  (∀ i fn, nr = Z.of_nat i → default_syscalls !! i = Some (nr, fn) →
     (∀ v y1 th1, run_syscall fuel fresh fn a0 a1 a2 a3 entered = Ok (Returned v, y1) →
        current_thread (sched (kern y1)) = Some c → thrs (kern y1) !! c = Some th1 →
        call = Ok (Returned v, put_kern y1 (put_thread (kern y1) c (leave_syscall th1)))) ∧
     (∀ f, run_syscall fuel fresh fn a0 a1 a2 a3 entered = Err f → call = Err f)) ∧
  (29 ≤ nr < 256 → ∃ y', call = Ok (Returned (Some (2 ^ 64 - 1)), y') ∧
     (in_syscall <$> thrs (kern y') !! c) = Some false) ∧
  (¬ 0 ≤ nr < 256 → ∃ y', call = Ok (Returned (Some (2 ^ 64 - 1)), y') ∧
     (in_syscall <$> thrs (kern y') !! c) = Some true).
Proof.
  intros Hc Ht entered call.
  assert (on_current enter_syscall y = Ok entered) as Hent.
  { unfold on_current, current_thr, the_thread. rewrite Hc. ok_step. rewrite Ht. done. }
  assert (∀ (y1 : system S A E) th1, current_thread (sched (kern y1)) = Some c → thrs (kern y1) !! c = Some th1 →
    on_current leave_syscall y1 = Ok (put_kern y1 (put_thread (kern y1) c (leave_syscall th1)))) as Hleave.
  { intros y1 th1 Hc1 Ht1. unfold on_current, current_thr, the_thread. rewrite Hc1. ok_step. by rewrite Ht1. }
  assert (call = if (nr <? 0) || (MAX_SYSCALLS <=? nr) then Ok (Returned (Some (u64 (-1))), entered) else
    fn ← rd (RegisterDefaultSyscalls SyscallManager) nr;
    match fn with
    | None => y ← on_current leave_syscall entered; Ok (Returned (Some (u64 (-1))), y)
    | Some fn => '(o, y) ← run_syscall fuel fresh fn a0 a1 a2 a3 entered;
        match o with Pending => Ok (Pending, y) | Returned v => y ← on_current leave_syscall y; Ok (Returned v, y) end
    end) as Hcall by (unfold call, InvokeSyscall; by rewrite Hent).
  rewrite default_table in Hcall. clearbody call. split_and!.
  - intros i fn -> Hi. assert (rd ((Some ∘ snd <$> default_syscalls) ++ replicate 227 None) (Z.of_nat i) = Ok (Some fn)) as Hrd.
    { apply rd_Ok; [lia|]. rewrite Nat2Z.id, lookup_app_l by (rewrite length_fmap; by eapply lookup_lt_Some).
      by rewrite list_lookup_fmap, Hi. }
    apply lookup_lt_Some in Hi. change (length default_syscalls) with 29%nat in Hi.
    rewrite (proj2 (Z.ltb_ge _ _)), (proj2 (Z.leb_gt _ _)), Hrd, bind_Ok in Hcall by (unfold MAX_SYSCALLS; lia).
    cbn [orb] in Hcall. split.
    + intros v y1 th1 Hrun Hc1 Ht1. rewrite Hcall, Hrun, bind_Ok, (Hleave y1 th1 Hc1 Ht1). done.
    + intros f Hrun. by rewrite Hcall, Hrun.
  - intros Hnr. assert (rd ((Some ∘ snd <$> default_syscalls) ++ replicate 227 None) nr = Ok None) as Hrd.
    { apply rd_Ok; [lia|]. rewrite lookup_app_r; change (length (Some ∘ snd <$> default_syscalls)) with 29%nat; [|lia].
      apply lookup_replicate_2. lia. }
    rewrite (proj2 (Z.ltb_ge _ _)), (proj2 (Z.leb_gt _ _)), Hrd, bind_Ok in Hcall by (unfold MAX_SYSCALLS; lia).
    cbn [orb] in Hcall. rewrite (Hleave entered (enter_syscall th)), bind_Ok in Hcall; [|done|].
    + eexists. split; [exact Hcall|]. simpl. by rewrite lookup_insert_eq.
    + simpl. by rewrite lookup_insert_eq.
  - intros Hnr. assert ((nr <? 0) || (MAX_SYSCALLS <=? nr) = true) as Hr.
    { apply orb_true_iff. rewrite Z.ltb_lt, Z.leb_le. unfold MAX_SYSCALLS. lia. }
    rewrite Hr in Hcall. eexists. split; [exact Hcall|]. simpl. by rewrite lookup_insert_eq.
Qed.

(** Services of a system without file systems or programs. *)
#[local] Instance no_services : Services CompletelyFairScheduler SimplePageAllocator unit := {|
  vfs_open _ _ y := Ok (None, y); vfs_opendir _ _ y := Ok (None, y); launch_process _ _ y := Ok (None, y);
  file_close _ y := Ok y; file_read _ _ _ y := Ok (0, y); file_write _ _ _ y := Ok (0, y);
  file_pread _ _ _ _ y := Ok (0, y); file_pwrite _ _ _ _ y := Ok (0, y);
  dir_read_entry _ y := Ok (None, y); dir_close _ y := Ok y |}.

Lemma syscall_dispatch_witness :
  ∃ s y', demo_two = Ok s ∧
    InvokeSyscall 1 (λ _, 0) (RegisterDefaultSyscalls SyscallManager) 300 0 0 0 0
      (MkSys (demo_kernel s empty_map) new_object_manager tt) = Ok (Returned (Some (2 ^ 64 - 1)), y') ∧
    (in_syscall <$> thrs (kern y') !! 2) = Some true.
Proof.
  destruct demo_two as [s|] eqn:E; [|vm_compute in E; discriminate].
  exists s. vm_compute in E. injection E as <-.
  match goal with |- context [demo_kernel ?t _] => set (s := t) end.
  destruct (syscall_dispatch 1 (λ _, 0) 300 0 0 0 0
    (MkSys (demo_kernel s empty_map) new_object_manager tt) 2 demo_thr) as (_ & _ & Hout).
  - reflexivity.
  - reflexivity.
  - destruct Hout as (y' & Hr & Hin); [lia|]. exists y'. split; [reflexivity|]. split; [exact Hr|exact Hin].
Defined.

(** User stacks.  The stacks of threads whose handles lie below 2^19 are
    disjoint and inside user space.  The 32-bit product makes the addresses
    repeat after that: handle [h + 2^19] gets the stack of handle [h]. *)
Theorem thread_stacks_disjoint h h' :
  0 ≤ h < 2 ^ 19 → 0 ≤ h' < 2 ^ 19 → h ≠ h' →
  (stack_address h + 0x2000 ≤ stack_address h' ∨ stack_address h' + 0x2000 ≤ stack_address h) ∧
  stack_address h + 0x2000 ≤ 2 ^ 47 ∧
  stack_address (h + 2 ^ 19) = stack_address h.
Proof.
  intros Hh Hh' Hne. unfold stack_address.
  rewrite (wrap_small 32 h), (wrap_small 32 h'), (wrap_small 32 (h + 2 ^ 19)) by eauto with infos.
  rewrite (wrap_small 32 (0x2000 * h)), (wrap_small 32 (0x2000 * h')) by eauto with infos.
  assert (u32 (0x2000 * (h + 2 ^ 19)) = 0x2000 * h) as ->.
  { unfold wrap. replace (0x2000 * (h + 2 ^ 19)) with (0x2000 * h + 1 * 2 ^ 32) by lia.
    rewrite Z.mod_add by lia. apply Z.mod_small. lia. }
  unwrap. lia.
Qed.

Lemma thread_stacks_disjoint_witness :
  stack_address 3 + 0x2000 ≤ stack_address 4 ∧ stack_address (3 + 2 ^ 19) = stack_address 3.
Proof.
  destruct (thread_stacks_disjoint 3 4) as (_ & _ & He); [lia..|].
  split; [vm_compute; discriminate|exact He].
Defined.
