(* ===== verification/Devices.v ===== *)
(** * Devices and the device manager

    Device classes and devices (include/infos/drivers/device.h, drivers/device.cpp)
    and the registry of devices by name (kernel/device-manager.cpp,
    include/infos/kernel/device-manager.h).

    A String is the list of its characters and its hash is [fnv] of them, which
    is what [CppString.string_refines_list] proves of the class. *)

From S2P Require Import Prelude CppList CppMap CppString.
Local Open Scope Z_scope.

Abbreviation name := (list Z) (only parsing).

(** ** The model *)

(** [dev_file] is what [open_as_file] returns. *)
Record Device := MkDev { dev_name : name; dev_class : Z; dev_file : option Z }.

Record DeviceClass := MkClass { class_parent : option Z; class_name : name; class_instance : Z }.

Record DeviceManager := MkDm {
  devices : Map Z; device_objects : gmap Z Device; classes : gmap Z DeviceClass }.

(** [DeviceClass::is], up the chain of parents. *)
Fixpoint class_is (fuel : nat) (cs : gmap Z DeviceClass) (c type : Z) : result bool :=
  match fuel with
  | O => Err Hang
  | S fuel' =>
      if c =? type then Ok true else
      k ← get NullDeref (cs !! c);
      match class_parent k with None => Ok false | Some p => class_is fuel' cs p type end
  end.

(** The characters of [ToString(v)]; the parameter is 32 bits wide. *)
Definition decimal (junk v : Z) : result name :=
  s ← ToString junk (u32 v); Ok (take (Z.to_nat (str_size s)) (str_data s)).

Definition acquire_instance (k : DeviceClass) : Z * DeviceClass :=
  (class_instance k, MkClass (class_parent k) (class_name k) (u64 (class_instance k + 1))).

(** [register_device]; [init] is the result of the device's own [init]. *)
Definition register_device (junk : Z) (dm : DeviceManager) (d : Z) (init : bool) : result (bool * DeviceManager) :=
  dev ← get NullDeref (device_objects dm !! d);
  k ← get NullDeref (classes dm !! dev_class dev);
  let '(instance, k) := acquire_instance k in
  digits ← decimal junk instance;
  let n := class_name k ++ digits in
  m ← add (devices dm) (fnv n) d;
  Ok (init, MkDm m (<[d := MkDev n (dev_class dev) (dev_file dev)]> (device_objects dm))
              (<[dev_class dev := k]> (classes dm))).

Definition add_device_alias (dm : DeviceManager) (n : name) (d : Z) : result (bool * DeviceManager) :=
  m ← add (devices dm) (fnv n) d; Ok (true, MkDm m (device_objects dm) (classes dm)).

Definition try_get_device_by_name (dm : DeviceManager) (n : name) : option Z := try_get_value (devices dm) (fnv n).

Fixpoint first_of_class (dm : DeviceManager) (l : list (Z * Z)) (type : Z) : result (option Z) :=
  match l with
  | [] => Ok None
  | (_, d) :: l' =>
      dev ← get NullDeref (device_objects dm !! d);
      b ← class_is (S (size (classes dm))) (classes dm) (dev_class dev) type;
      if (b : bool) then Ok (Some d) else first_of_class dm l' type
  end.

Definition try_get_device_by_class (dm : DeviceManager) (type : Z) : result (option Z) :=
  l ← iterate_map (devices dm); first_of_class dm l type.

(** The devices are registered in a well-formed map and exist. *)
Definition dm_ok (d : DeviceManager) : Prop :=
  wf (devices d) ∧ ∀ h a, map_of (devices d) !! h = Some a → is_Some (device_objects d !! a).

(** ** Class hierarchies *)

(** [is_a cs c t]: class [t] is [c] or an ancestor of it. *)
Inductive is_a (cs : gmap Z DeviceClass) : Z → Z → Prop :=
| is_a_refl c : is_a cs c c
| is_a_parent c k p t : cs !! c = Some k → class_parent k = Some p → is_a cs p t → is_a cs c t.

(** Parents exist and the hierarchy has no cycle. *)
Definition hierarchy (cs : gmap Z DeviceClass) : Prop :=
  ∃ rank : Z → nat, ∀ c k p, cs !! c = Some k → class_parent k = Some p → is_Some (cs !! p) ∧ (rank p < rank c)%nat.

Lemma class_is_in cs (rank : Z → nat) fuel (X : gset Z) c type :
  (∀ c k p, cs !! c = Some k → class_parent k = Some p → is_Some (cs !! p) ∧ (rank p < rank c)%nat) →
  (∀ d, d ∈ dom cs → (rank d ≤ rank c)%nat → d ∈ X) → c ∈ dom cs → (size X < fuel)%nat →
  ∃ b, class_is fuel cs c type = Ok b ∧ (b = true ↔ is_a cs c type).
Proof.
  intros Hr. revert X c. induction fuel as [|fuel IH]; intros X c HX Hc Hf; [lia|]. cbn [class_is].
  destruct (Z.eqb_spec c type) as [->|Hne].
  { exists true. split; [done|]. split; [intros _; constructor|done]. }
  apply elem_of_dom in Hc as [k Hk]. rewrite Hk. ok_step. destruct (class_parent k) as [p|] eqn:Ep.
  - destruct (Hr c k p Hk Ep) as [Hp Hlt].
    destruct (IH (X ∖ {[c]}) p) as (b & -> & Hb).
    + intros d Hd Hle. apply elem_of_difference. split; [apply HX; [done|lia]|].
      intros ->%elem_of_singleton. lia.
    + by apply elem_of_dom.
    + assert (c ∈ X) by (apply HX; [by apply elem_of_dom|lia]).
      rewrite size_difference, size_singleton by set_solver.
      pose proof (subseteq_size {[c]} X ltac:(set_solver)) as Hsz. rewrite size_singleton in Hsz. lia.
    + exists b. split; [done|]. rewrite Hb. split; [by econstructor|].
      inversion 1 as [|? k' p' ? Hk' Hp' Ha]; [done|]. congruence.
  - exists false. split; [done|]. split; [done|]. inversion 1; congruence.
Qed.

(** The chain of parents is followed to its end within the fuel, which is one
    more than the number of classes. *)
Lemma class_is_spec cs c type :
  hierarchy cs → is_Some (cs !! c) →
  ∃ b, class_is (S (size cs)) cs c type = Ok b ∧ (b = true ↔ is_a cs c type).
Proof.
  intros [rank Hr] Hc. apply (class_is_in cs rank _ (dom cs)); [done..|by apply elem_of_dom|rewrite size_dom; lia].
Qed.

(** Every device has a class of the hierarchy. *)
Definition classes_ok (d : DeviceManager) : Prop :=
  hierarchy (classes d) ∧ ∀ a dev, device_objects d !! a = Some dev → is_Some (classes d !! dev_class dev).

Lemma first_of_class_spec d l type :
  dm_ok d → classes_ok d → l ⊆ map_to_list (map_of (devices d)) →
  ∃ r, first_of_class d l type = Ok r ∧
    match r with
    | Some a => ∃ h dev, (h, a) ∈ l ∧ device_objects d !! a = Some dev ∧ is_a (classes d) (dev_class dev) type
    | None => ∀ h a dev, (h, a) ∈ l → device_objects d !! a = Some dev → ¬ is_a (classes d) (dev_class dev) type
    end.
Proof.
  intros [_ Hobj] [Hh Hcl]. induction l as [|[h a] l IH]; intros Hl; cbn [first_of_class].
  - exists None. split; [done|]. set_solver.
  - destruct (Hobj h a) as [dev Hdev]. { apply elem_of_map_to_list, Hl. by left. }
    rewrite Hdev. ok_step. destruct (class_is_spec (classes d) (dev_class dev) type Hh (Hcl a dev Hdev)) as (b & -> & Hb).
    rewrite bind_Ok. destruct b.
    + exists (Some a). split; [done|]. exists h, dev. split_and!; [by left|done|by apply Hb].
    + destruct IH as (r & -> & Hr). { intros x Hx. apply Hl. by right. }
      exists r. split; [done|]. destruct r as [a'|].
      * destruct Hr as (h' & dev' & ? & ? & ?). exists h', dev'. split_and!; [by right|done..].
      * intros h' a' dev' [[= -> ->]|Hin]%elem_of_cons Hd'; [|by eapply Hr].
        rewrite Hdev in Hd'. injection Hd' as <-. intros Ha. by apply Hb in Ha.
Qed.

(** [try_get_device_by_class] ends and returns a registered device whose
    class is the requested one or derives from it, or nothing when no registered
    device is of that kind. *)
Theorem device_by_class_correct d type :
  dm_ok d → classes_ok d →
  ∃ r, try_get_device_by_class d type = Ok r ∧
    match r with
    | Some a => ∃ h dev, map_of (devices d) !! h = Some a ∧ device_objects d !! a = Some dev ∧
                  is_a (classes d) (dev_class dev) type
    | None => ∀ h a dev, map_of (devices d) !! h = Some a → device_objects d !! a = Some dev →
                ¬ is_a (classes d) (dev_class dev) type
    end.
Proof.
  intros Hok Hcl. unfold try_get_device_by_class. destruct (iterate_map_spec _ (proj1 Hok)) as (l & -> & Hl).
  rewrite bind_Ok. destruct (first_of_class_spec d l type Hok Hcl) as (r & -> & Hr); [by rewrite Hl|].
  exists r. split; [done|]. destruct r as [a|].
  - destruct Hr as (h & dev & Hin & ? & ?). exists h, dev. split_and!; [|done..].
    apply elem_of_map_to_list. by rewrite <- Hl.
  - intros h a dev Hh. apply (Hr h). rewrite Hl. by apply elem_of_map_to_list.
Qed.

(** The digits of a number cut to 32 bits. *)
Lemma decimal_spec junk v :
  ∃ ds, decimal junk v = Ok (map (Z.add 48) ds) ∧
    (if decide (u32 v = 0) then ds = [0] else numeral 10 (u32 v) ds).
Proof.
  pose proof (wrap_fits 32 v ltac:(lia)) as Hfit.
  destruct (to_string_spec junk (u32 v) Hfit) as (s & ds & Hs & [Hsz Hdata _] & Hnum & _).
  exists ds. split; [|done]. unfold decimal. by rewrite Hs, bind_Ok, Hsz, Hdata, Nat2Z.id, take_app_length.
Qed.

(** What [register_device] does to the manager. *)
Lemma register_device_spec junk d a dev k init :
  wf (devices d) → device_objects d !! a = Some dev → classes d !! dev_class dev = Some k →
  ∃ ds m, let n := class_name k ++ map (Z.add 48) ds in
    register_device junk d a init =
      Ok (init, MkDm m (<[a := MkDev n (dev_class dev) (dev_file dev)]> (device_objects d))
                  (<[dev_class dev := (acquire_instance k).2]> (classes d))) ∧
    (if decide (u32 (class_instance k) = 0) then ds = [0] else numeral 10 (u32 (class_instance k)) ds) ∧
    wf m ∧ map_of m = <[fnv n := a]> (map_of (devices d)).
Proof.
  intros Hwf Hdev Hk. destruct (decimal_spec junk (class_instance k)) as (ds & Hds & Hnum). exists ds. cbv zeta. set (n := class_name k ++ map (Z.add 48) ds).
  destruct (add_spec (devices d) (fnv n) a Hwf) as (m & Hadd & Hwm & Hm). exists m. split_and!; [|done..].
  unfold register_device, acquire_instance. rewrite Hdev. ok_step. rewrite Hk. ok_step.
  rewrite Hds, bind_Ok. cbn [class_name]. fold n. by rewrite Hadd, bind_Ok.
Qed.

(** A registered device is in order when it exists. *)
Lemma dm_ok_add d m objs cs h a :
  dm_ok d → wf m → map_of m = <[h := a]> (map_of (devices d)) → is_Some (objs !! a) →
  (∀ b, is_Some (device_objects d !! b) → is_Some (objs !! b)) → dm_ok (MkDm m objs cs).
Proof.
  intros [_ Hobj] Hwm Hm Ha Hb. split; [done|]. cbn [devices device_objects]. intros h' b. rewrite Hm.
  intros [[_ <-]|[_ Hin]]%lookup_insert_Some; [done|]. by eapply Hb, Hobj.
Qed.

Lemma add_device_alias_spec d n a :
  dm_ok d → is_Some (device_objects d !! a) →
  ∃ m, add_device_alias d n a = Ok (true, MkDm m (device_objects d) (classes d)) ∧
    map_of m = <[fnv n := a]> (map_of (devices d)) ∧ dm_ok (MkDm m (device_objects d) (classes d)).
Proof.
  intros Hok Ha. destruct (add_spec (devices d) (fnv n) a (proj1 Hok)) as (m & Hadd & Hwm & Hm). exists m.
  split_and!; [unfold add_device_alias; by rewrite Hadd|done|by eapply dm_ok_add].
Qed.

(** [register_device] gives the device the name of its class followed by the
    number of the instance (modulo 2^32, in decimal), which is then found by that
    name and by its class; devices under other hashes stay as they were, and the
    class counts on.  The device stays registered when its own initialisation
    fails. *)
Theorem register_device_correct junk d a dev k init :
  dm_ok d → device_objects d !! a = Some dev → classes d !! dev_class dev = Some k →
  ∃ ds d', let n := class_name k ++ map (Z.add 48) ds in
    register_device junk d a init = Ok (init, d') ∧
    (if decide (u32 (class_instance k) = 0) then ds = [0] else numeral 10 (u32 (class_instance k)) ds) ∧
    dm_ok d' ∧ try_get_device_by_name d' n = Some a ∧
    device_objects d' !! a = Some (MkDev n (dev_class dev) (dev_file dev)) ∧
    (∀ m, fnv m ≠ fnv n → try_get_device_by_name d' m = try_get_device_by_name d m) ∧
    (∀ b, b ≠ a → device_objects d' !! b = device_objects d !! b) ∧
    (class_instance k < 2 ^ 64 - 1 → 0 ≤ class_instance k →
       ∃ k', classes d' !! dev_class dev = Some k' ∧ class_instance k' = class_instance k + 1).
Proof.
  intros Hok Hdev Hk. pose proof Hok as [Hwf Hobj].
  destruct (register_device_spec junk d a dev k init Hwf Hdev Hk) as (ds & m & Hrun & Hds & Hwm & Hm).
  exists ds. eexists. cbv zeta in *. split; [exact Hrun|].
  unfold try_get_device_by_name. cbn [devices device_objects classes].
  split_and!; [done| |by rewrite try_get_value_spec, Hm, lookup_insert_eq|by rewrite lookup_insert_eq|..].
  - eapply dm_ok_add; [done..|rewrite lookup_insert_eq; by eexists|].
    intros b Hb. rewrite lookup_insert_is_Some. destruct (decide (a = b)); [by left|by right].
  - intros x Hx. by rewrite !try_get_value_spec, Hm, lookup_insert_ne by done.
  - intros b Hb. by rewrite lookup_insert_ne.
  - intros Hlt Hge. eexists. rewrite lookup_insert_eq. split; [done|]. cbn [acquire_instance snd class_instance].
    apply wrap_small. unfold fits. lia.
Qed.

(** ** Witnesses *)

(** A class and a device of a class that derives from it. *)
Definition sample_classes : gmap Z DeviceClass :=
  <[1 := MkClass None [] 0]> (<[2 := MkClass (Some 1) [97] 3]> ∅).
Definition sample_manager : DeviceManager :=
  MkDm empty_map (<[7 := MkDev [] 2 (Some 42)]> ∅) sample_classes.

Lemma sample_manager_ok : dm_ok sample_manager ∧ classes_ok sample_manager.
Proof.
  destruct (wf_empty (V := Z)) as [Hwe Hme]. split; [split; [done|]|split].
  - intros h a. cbn [sample_manager devices]. by rewrite Hme, lookup_empty.
  - exists Z.to_nat. intros c k p. cbn [sample_manager classes]. unfold sample_classes.
    intros [[<- <-]|[_ [[<- <-]|[_ H]]%lookup_insert_Some]]%lookup_insert_Some; [done| |by rewrite lookup_empty in H].
    intros [= <-]. split; [by eexists|lia].
  - intros a dev. cbn [sample_manager device_objects].
    intros [[<- <-]|[_ H]]%lookup_insert_Some; [by eexists|by rewrite lookup_empty in H].
Qed.

Lemma device_by_class_correct_witness :
  ∃ r, try_get_device_by_class sample_manager 1 = Ok r ∧ r = None.
Proof.
  destruct (device_by_class_correct sample_manager 1 (proj1 sample_manager_ok) (proj2 sample_manager_ok)) as (r & Hr & _).
  exists r. split; [exact Hr|]. injection Hr as <-. reflexivity.
Defined.

(** The fourth device of class "a" is called "a3". *)
Lemma register_device_correct_witness :
  ∃ d', register_device 0 sample_manager 7 false = Ok (false, d') ∧ try_get_device_by_name d' [97; 51] = Some 7.
Proof.
  destruct (register_device_correct 0 sample_manager 7 (MkDev [] 2 (Some 42)) (MkClass (Some 1) [97] 3) false
              (proj1 sample_manager_ok) eq_refl eq_refl) as (ds & d' & Hreg & _ & _ & Hfind & _).
  exists d'. split; [exact Hreg|]. assert (Hd : Ok (false, d') = register_device 0 sample_manager 7 false) by (symmetry; exact Hreg).
  vm_compute in Hd. injection Hd as ->. reflexivity.
Defined.
