(* ===== verification/Vfs.v ===== *)
(** * The virtual file system

    Path lookup and virtual nodes (fs/vfs.cpp, fs/vfs-node.cpp), the file
    systems the kernel mounts at start (fs/rootfs.cpp, fs/tmpfs.cpp,
    fs/devfs.cpp) and directory objects (fs/directory.cpp).  devfs shows the
    devices of the device manager of [Devices].

    A String is the list of its characters and its hash is [fnv] of them, which
    is what [CppString.string_refines_list] proves of the class. *)

From S2P Require Import Prelude CppList CppMap CppString CmdLine Devices.
Local Open Scope Z_scope.

(** ** Nodes *)

(** The node classes of the file systems. *)
Inductive PFSNode :=
| RootFSNode
| TempFSNode (n : name) (children : Map Z)
| DeviceFSRootNode
| DeviceFSNode (dev : Z).

Inductive Filesystem := RootFS | TempFS | DeviceFS.

Record VFSNode := MkV { v_parent : option Z; v_pn : option Z; v_children : Map Z }.

(** The nodes in memory; [next] is the address of the next object. *)
Record vfs := MkVfs {
  vnodes : gmap Z VFSNode; pnodes : gmap Z PFSNode; dm : DeviceManager;
  root_node : Z; filesystems : list (cstr * Filesystem); next : Z }.

Definition new_pnode (p : PFSNode) (st : vfs) : Z * vfs :=
  (next st, MkVfs (vnodes st) (<[next st := p]> (pnodes st)) (dm st) (root_node st) (filesystems st) (next st + 1)).
Definition new_vnode (v : VFSNode) (st : vfs) : Z * vfs :=
  (next st, MkVfs (<[next st := v]> (vnodes st)) (pnodes st) (dm st) (root_node st) (filesystems st) (next st + 1)).
Definition put_vnode (a : Z) (v : VFSNode) (st : vfs) : vfs :=
  MkVfs (<[a := v]> (vnodes st)) (pnodes st) (dm st) (root_node st) (filesystems st) (next st).
Definition put_pnode (a : Z) (p : PFSNode) (st : vfs) : vfs :=
  MkVfs (vnodes st) (<[a := p]> (pnodes st)) (dm st) (root_node st) (filesystems st) (next st).

(** [get_child] of the node classes; devfs makes a node for every call. *)
Definition rootfs_get_child (st : vfs) : result (option Z * vfs) := Ok (None, st).
Definition temp_get_child (children : Map Z) (n : name) (st : vfs) : result (option Z * vfs) :=
  Ok (try_get_value children (fnv n), st).
Definition devfs_get_child (n : name) (st : vfs) : result (option Z * vfs) :=
  match try_get_device_by_name (dm st) n with
  | None => Ok (None, st)
  | Some d => let '(c, st) := new_pnode (DeviceFSNode d) st in Ok (Some c, st)
  end.
Definition devnode_get_child (st : vfs) : result (option Z * vfs) := Ok (None, st).

(** The virtual call. *)
Definition pfs_get_child (p : Z) (n : name) (st : vfs) : result (option Z * vfs) :=
  node ← get NullDeref (pnodes st !! p);
  match node with
  | RootFSNode => rootfs_get_child st
  | TempFSNode _ children => temp_get_child children n st
  | DeviceFSRootNode => devfs_get_child n st
  | DeviceFSNode _ => devnode_get_child st
  end.

(** [mkdir] of the node classes: only tmpfs can make directories. *)
Definition temp_mkdir (p : Z) (own : name) (children : Map Z) (n : name) (st : vfs) : result (option Z * vfs) :=
  let '(dir, st) := new_pnode (TempFSNode n empty_map) st in
  m ← add children (fnv n) dir;
  Ok (Some dir, put_pnode p (TempFSNode own m) st).
Definition rootfs_mkdir (st : vfs) : result (option Z * vfs) := Ok (None, st).
Definition devfs_mkdir (st : vfs) : result (option Z * vfs) := Ok (None, st).
Definition devnode_mkdir (st : vfs) : result (option Z * vfs) := Ok (None, st).

Definition pfs_mkdir (p : Z) (n : name) (st : vfs) : result (option Z * vfs) :=
  node ← get NullDeref (pnodes st !! p);
  match node with
  | RootFSNode => rootfs_mkdir st
  | TempFSNode own children => temp_mkdir p own children n st
  | DeviceFSRootNode => devfs_mkdir st
  | DeviceFSNode _ => devnode_mkdir st
  end.

(** [mount] of the file systems: a new root node. *)
Definition rootfs_mount : PFSNode := RootFSNode.
Definition tempfs_mount : PFSNode := TempFSNode [] empty_map.
Definition devfs_mount : PFSNode := DeviceFSRootNode.

Definition fs_mount (fs : Filesystem) (st : vfs) : Z * vfs :=
  new_pnode (match fs with RootFS => rootfs_mount | TempFS => tempfs_mount | DeviceFS => devfs_mount end) st.

(** ** Virtual nodes *)

Definition get_child (v : Z) (n : name) (st : vfs) : result (option Z * vfs) :=
  node ← get NullDeref (vnodes st !! v);
  match v_pn node with
  | None => Ok (None, st)
  | Some pn =>
      match try_get_value (v_children node) (fnv n) with
      | Some child => Ok (Some child, st)
      | None =>
          '(assoc, st) ← pfs_get_child pn n st;
          match assoc with
          | None => Ok (None, st)
          | Some assoc =>
              let '(child, st) := new_vnode (MkV (Some v) (Some assoc) empty_map) st in
              m ← add (v_children node) (fnv n) child;
              Ok (Some child, put_vnode v (MkV (v_parent node) (v_pn node) m) st)
          end
      end
  end.

Definition mkdir (v : Z) (n : name) (st : vfs) : result (option Z * vfs) :=
  node ← get NullDeref (vnodes st !! v);
  match v_pn node with
  | None => Ok (None, st)
  | Some pn =>
      '(dir, st) ← pfs_mkdir pn n st;
      match dir with None => Ok (None, st) | Some _ => get_child v n st end
  end.

Fixpoint lookup_fs (regs : list (cstr * Filesystem)) (fstype : cstr) : result (option Filesystem) :=
  match regs with
  | [] => Ok None
  | (n, fs) :: regs' => c ← strncmp n fstype 16; if c =? 0 then Ok (Some fs) else lookup_fs regs' fstype
  end.

(** [VFSNode::mount]: the result says whether it worked.  The creation
    functions and [mount] of the three file systems do not fail. *)
Definition mount (v : Z) (fstype : cstr) (st : vfs) : result (bool * vfs) :=
  fs ← lookup_fs (filesystems st) fstype;
  match fs with
  | None => Ok (false, st)
  | Some fs =>
      node ← get NullDeref (vnodes st !! v);
      let '(pn, st) := fs_mount fs st in
      Ok (true, put_vnode v (MkV (v_parent node) (Some pn) (map_clear (v_children node))) st)
  end.

(** ** Paths *)

(** The inner loop of [lookup_node]: the component, and the rest of the path. *)
Fixpoint read_component (path : cstr) (component : list Z) (i : Z) : result (cstr * list Z * Z) :=
  match path with
  | [] => Err OutOfBounds
  | c :: path' =>
      if (c =? 0) || (c =? 47) then Ok (path, component, i)
      else component ← wr component i c; read_component path' component (i + 1)
  end.

(** The outer loop, from [current] on; a turn consumes a component and its
    slash, or returns. *)
Fixpoint lookup_loop (fuel : nat) (path : cstr) (component : list Z) (current : Z) (st : vfs)
    : result (option Z * vfs) :=
  match fuel with
  | O => Err Hang
  | S fuel' =>
      '(path, component, i) ← read_component path component 0;
      component ← wr component i 0;
      c ← rd path 0;
      let path := if c =? 47 then tail path else path in
      n ← strlen (Some component);
      if n =? 0 then Ok (Some current, st) else
      '(child, st) ← get_child current (take (Z.to_nat n) component) st;
      match child with
      | None => Ok (None, st)
      | Some child => lookup_loop fuel' path component child st
      end
  end.

(** [junk] is what [char component[256]] holds. *)
Definition lookup_node (junk : list Z) (path : cstr) (st : vfs) : result (option Z * vfs) :=
  c0 ← rd path 0;
  if c0 =? 0 then Ok (None, st) else
  if negb (c0 =? 47) then Ok (None, st) else
  c1 ← rd path 1;
  if c1 =? 0 then Ok (Some (root_node st), st) else
  lookup_loop (length path) (tail path) junk (root_node st) st.

(** ** Directories and start-up *)

(** A [SimpleDirectory]: the entries and the index of the next one. *)
Record SimpleDirectory := MkDir { dir_entries : list (name * Z); current_entry : Z }.

Definition add_entry (d : SimpleDirectory) (e : name * Z) : SimpleDirectory :=
  MkDir (dir_entries d ++ [e]) (current_entry d).

Definition read_entry (d : SimpleDirectory) : result (option (name * Z) * SimpleDirectory) :=
  if current_entry d <? Z.of_nat (length (dir_entries d)) then
    e ← rd (dir_entries d) (current_entry d);
    Ok (Some e, MkDir (dir_entries d) (u32 (current_entry d + 1)))
  else Ok (None, d).

Definition close (d : SimpleDirectory) : SimpleDirectory := MkDir [] (current_entry d).

(** [open] and [opendir] of the node classes. *)
Definition devnode_open (d : Z) (st : vfs) : result (option Z) :=
  dev ← get NullDeref (device_objects (dm st) !! d); Ok (dev_file dev).
Definition no_file : result (option Z) := Ok None.

Definition pfs_open (p : Z) (st : vfs) : result (option Z) :=
  node ← get NullDeref (pnodes st !! p);
  match node with
  | DeviceFSNode d => devnode_open d st
  | RootFSNode | TempFSNode _ _ | DeviceFSRootNode => no_file
  end.

Definition temp_entry (st : vfs) (c : Z * Z) (d : SimpleDirectory) : result SimpleDirectory :=
  node ← get NullDeref (pnodes st !! snd c);
  match node with TempFSNode n _ => Ok (add_entry d (n, 0)) | _ => Err NullDeref end.

Definition device_entry (st : vfs) (c : Z * Z) (d : SimpleDirectory) : result SimpleDirectory :=
  dev ← get NullDeref (device_objects (dm st) !! snd c); Ok (add_entry d (dev_name dev, 0)).

Definition temp_opendir (children : Map Z) (st : vfs) : result (option SimpleDirectory) :=
  l ← iterate_map children; d ← for_each l (temp_entry st) (MkDir [] 0); Ok (Some d).
Definition devfs_opendir (st : vfs) : result (option SimpleDirectory) :=
  l ← iterate_map (devices (dm st)); d ← for_each l (device_entry st) (MkDir [] 0); Ok (Some d).

Definition pfs_opendir (p : Z) (st : vfs) : result (option SimpleDirectory) :=
  node ← get NullDeref (pnodes st !! p);
  match node with
  | TempFSNode _ children => temp_opendir children st
  | DeviceFSRootNode => devfs_opendir st
  | RootFSNode | DeviceFSNode _ => Ok None
  end.

Definition vfs_open (junk : list Z) (path : cstr) (st : vfs) : result (option Z * vfs) :=
  '(v, st) ← lookup_node junk path st;
  match v with
  | None => Ok (None, st)
  | Some v =>
      node ← get NullDeref (vnodes st !! v);
      match v_pn node with None => Ok (None, st) | Some pn => f ← pfs_open pn st; Ok (f, st) end
  end.

Definition vfs_opendir (junk : list Z) (path : cstr) (st : vfs) : result (option SimpleDirectory * vfs) :=
  '(v, st) ← lookup_node junk path st;
  match v with
  | None => Ok (None, st)
  | Some v =>
      node ← get NullDeref (vnodes st !! v);
      match v_pn node with None => Ok (None, st) | Some pn => d ← pfs_opendir pn st; Ok (d, st) end
  end.

(** [VirtualFilesystem::init], with the registrations of the linker section. *)
Definition vfs_init (regs : list (cstr * Filesystem)) (d : DeviceManager) (first_address : Z) : result (bool * vfs) :=
  let st := MkVfs ∅ ∅ d 0 regs first_address in
  fs ← lookup_fs regs [114; 111; 111; 116; 102; 115; 0];
  fs ← get NullDeref fs;
  let '(pn, st) := fs_mount fs st in
  let '(root, st) := new_vnode (MkV None (Some pn) empty_map) st in
  Ok (true, MkVfs (vnodes st) (pnodes st) (dm st) root (filesystems st) (next st)).

(** What [start_kernel_threadproc] does with the file systems before it looks
    for the boot device: tmpfs on the root, /dev with devfs, /usr. *)
Definition start_filesystems (junk : list Z) (regs : list (cstr * Filesystem)) (d : DeviceManager) (first_address : Z)
    : result (Z * vfs) :=
  '(b, st) ← vfs_init regs d first_address;
  _ ← check AssertFailed b;
  '(r, st) ← lookup_node junk [47; 0] st;
  r ← get NullDeref r;
  '(b, st) ← mount r [116; 109; 112; 102; 115; 0] st;
  _ ← check AssertFailed b;
  '(dev, st) ← mkdir r [100; 101; 118] st;
  dev ← get AssertFailed dev;
  '(b, st) ← mount dev [100; 101; 118; 102; 115; 0] st;
  _ ← check AssertFailed b;
  '(usr, st) ← mkdir r [117; 115; 114] st;
  usr ← get AssertFailed usr;
  Ok (usr, st).

(** ** Paths as lists of components *)

(** The walk along the components of a path: an empty component ends it, and a
    component of 256 characters or more does not fit the buffer. *)
Fixpoint walk_path (comps : list name) (v : Z) (st : vfs) : result (option Z * vfs) :=
  match comps with
  | [] => Ok (Some v, st)
  | c :: comps' =>
      if (length c =? 0)%nat then Ok (Some v, st) else
      if (256 <=? length c)%nat then Err OutOfBounds else
      '(child, st) ← get_child v c st;
      match child with None => Ok (None, st) | Some child => walk_path comps' child st end
  end.

(** What [lookup_node] does with the characters of a path. *)
Definition path_spec (cs : list Z) (st : vfs) : result (option Z * vfs) :=
  match cs with
  | [] => Ok (None, st)
  | c :: body => if c =? 47 then walk_path (fields 47 body) (root_node st) st else Ok (None, st)
  end.

Lemma read_component_spec w x tl (pre buf : list Z) :
  Forall (λ c, c ≠ 0 ∧ c ≠ 47) w → x = 0 ∨ x = 47 →
  read_component (w ++ x :: tl) (pre ++ buf) (Z.of_nat (length pre)) =
    if (length w <=? length buf)%nat
    then Ok (x :: tl, pre ++ w ++ drop (length w) buf, Z.of_nat (length pre + length w))
    else Err OutOfBounds.
Proof.
  intros Hw Hx. revert pre buf. induction Hw as [|c w [Hc0 Hc] Hw IH]; intros pre buf; cbn [app read_component length].
  - assert ((x =? 0) || (x =? 47) = true) as -> by (destruct Hx as [->| ->]; done).
    cbn [Nat.leb]. rewrite Nat.add_0_r. by destruct buf.
  - rewrite (proj2 (Z.eqb_neq c 0) Hc0), (proj2 (Z.eqb_neq c 47) Hc). cbn [orb].
    destruct buf as [|b buf].
    + rewrite app_nil_r, wr_oob by lia. done.
    + rewrite wr_mid, bind_Ok by done. cbn [length Nat.leb].
      replace (pre ++ c :: buf) with ((pre ++ [c]) ++ buf) by (by rewrite <- app_assoc).
      replace (Z.of_nat (length pre) + 1) with (Z.of_nat (length (pre ++ [c]))) by (rewrite length_app; simpl; lia).
      rewrite IH. destruct (length w <=? length buf)%nat; [|done].
      rewrite length_app, <- app_assoc. simpl. do 2 f_equal. lia.
Qed.

(** One component read into the buffer and terminated. *)
Lemma component_spec w x tl (buf : list Z) :
  Forall (λ c, c ≠ 0 ∧ c ≠ 47) w → x = 0 ∨ x = 47 → length buf = 256%nat →
  (length w < 256)%nat →
  ∃ buf', read_component (w ++ x :: tl) buf 0 = Ok (x :: tl, w ++ drop (length w) buf, Z.of_nat (length w)) ∧
    wr (w ++ drop (length w) buf) (Z.of_nat (length w)) 0 = Ok buf' ∧ is_cstr w buf' ∧ length buf' = 256%nat.
Proof.
  intros Hw Hx Hb Hlen. destruct (drop (length w) buf) as [|b rest] eqn:E.
  { apply (f_equal length) in E. rewrite length_drop in E. simpl in E. lia. }
  exists (w ++ 0 :: rest). split_and!.
  - pose proof (read_component_spec w x tl [] buf Hw Hx) as Hr. cbn [app length] in Hr. change (Z.of_nat 0) with 0 in Hr. rewrite Hr, E.
    rewrite (proj2 (Nat.leb_le _ _)) by lia. done.
  - by apply wr_mid.
  - split; [|by exists rest]. eapply Forall_impl; [exact Hw|]. by intros c [? _].
  - apply (f_equal length) in E. rewrite length_drop in E. rewrite length_app. simpl in *. lia.
Qed.

Lemma component_too_long w x tl (buf : list Z) :
  Forall (λ c, c ≠ 0 ∧ c ≠ 47) w → x = 0 ∨ x = 47 → length buf = 256%nat → (256 ≤ length w)%nat →
  ('(path, component, i) ← read_component (w ++ x :: tl) buf 0; component ← wr component i 0; Ok component)
    = Err OutOfBounds.
Proof.
  intros Hw Hx Hb Hlen. pose proof (read_component_spec w x tl [] buf Hw Hx) as Hr. cbn [app length] in Hr. change (Z.of_nat 0) with 0 in Hr. rewrite Hr.
  destruct (Nat.leb_spec (length w) (length buf)); [|done]. rewrite bind_Ok, wr_oob; [done|].
  rewrite length_app, length_drop. lia.
Qed.

(** A path body is a component, alone or followed by a slash and more. *)
Lemma body_split body :
  Forall (λ c, c ≠ 0) body →
  ∃ w, Forall (λ c, c ≠ 0 ∧ c ≠ 47) w ∧
    (body = w ∧ fields 47 body = [w] ∨
     ∃ body', body = w ++ 47 :: body' ∧ Forall (λ c, c ≠ 0) body' ∧ fields 47 body = w :: fields 47 body').
Proof.
  induction 1 as [|c body Hc Hb (w & Hw & IH)].
  - exists []. split; [done|]. by left.
  - destruct (decide (c = 47)) as [->|Hne].
    + exists []. split; [done|]. right. exists body. split_and!; [done..|].
      unfold fields at 1. cbn [fields_from]. by rewrite Z.eqb_refl.
    + exists (c :: w). split; [by constructor|].
      assert (Forall (λ x, x ≠ 47) (c :: w)) as Hw' by (constructor; [done|eapply Forall_impl; [exact Hw|by intros ? [_ ?]]]).
      destruct IH as [[-> _]|(body' & -> & Hb' & _)].
      * left. split; [done|]. unfold fields. by rewrite (fields_last 47 [] (c :: w)).
      * right. exists body'. split_and!; [done..|]. unfold fields at 1.
        change (c :: w ++ 47 :: body') with ((c :: w) ++ 47 :: body'). by rewrite (fields_word 47 [] (c :: w)).
Qed.

(** At the end of the path the next turn finds an empty component. *)
Lemma lookup_loop_end fuel tl buf v st :
  length buf = 256%nat → lookup_loop (S fuel) (0 :: tl) buf v st = Ok (Some v, st).
Proof.
  intros Hb. destruct buf as [|b buf]; [done|]. cbn [lookup_loop read_component]. simpl. done.
Qed.

Lemma lookup_loop_step fuel w x tl buf v st :
  Forall (λ c, c ≠ 0 ∧ c ≠ 47) w → x = 0 ∨ x = 47 → length buf = 256%nat →
  ∃ buf', length buf' = 256%nat ∧
    lookup_loop (S fuel) (w ++ x :: tl) buf v st =
      if (length w =? 0)%nat then Ok (Some v, st) else
      if (256 <=? length w)%nat then Err OutOfBounds else
      '(child, st) ← get_child v w st;
      match child with
      | None => Ok (None, st)
      | Some child => lookup_loop fuel (if x =? 47 then tl else x :: tl) buf' child st
      end.
Proof.
  intros Hw Hx Hb. destruct (decide (length w < 256)%nat) as [Hlt|Hge].
  - destruct (component_spec w x tl buf Hw Hx Hb Hlt) as (buf' & Hr & Hwr & Hcs & Hl).
    exists buf'. split; [done|]. cbn [lookup_loop]. rewrite Hr, bind_Ok, Hwr, bind_Ok.
    rewrite (rd_Ok (x :: tl) 0 x) by done. rewrite bind_Ok, (strlen_spec w) by (done || lia). rewrite bind_Ok.
    rewrite (proj2 (Nat.leb_gt 256 (length w))) by lia.
    destruct w as [|c w]; [done|]. rewrite (proj2 (Z.eqb_neq _ 0)) by (simpl; lia).
    rewrite (proj2 (Nat.eqb_neq _ 0)) by (simpl; lia).
    destruct Hcs as [_ [rest ->]]. rewrite Nat2Z.id, take_app_length. done.
  - exists buf. split; [done|]. rewrite (proj2 (Nat.eqb_neq _ 0)) by lia. rewrite (proj2 (Nat.leb_le 256 (length w))) by lia.
    cbn [lookup_loop]. pose proof (component_too_long w x tl buf Hw Hx Hb ltac:(lia)) as Hlong.
    destruct (read_component (w ++ x :: tl) buf 0) as [[[path component] i]|f]; simpl in Hlong |- *.
    + destruct (wr component i 0) as [component'|f]; simpl in Hlong |- *; [done|congruence].
    + congruence.
Qed.

Lemma lookup_loop_spec fuel body tl buf v st :
  Forall (λ c, c ≠ 0) body → length buf = 256%nat → (length body < fuel)%nat →
  lookup_loop fuel (body ++ 0 :: tl) buf v st = walk_path (fields 47 body) v st.
Proof.
  revert body buf v st. induction fuel as [|fuel IH]; intros body buf v st Hb Hbuf Hf; [lia|].
  destruct (body_split body Hb) as (w & Hw & [[-> ->]|(body' & -> & Hb' & ->)]); cbn [walk_path].
  - destruct (lookup_loop_step fuel w 0 tl buf v st Hw (or_introl eq_refl) Hbuf) as (buf' & Hbuf' & ->).
    destruct w as [|c w]; [done|]. cbn [length Nat.eqb]. case_match; [done|].
    destruct (get_child v (c :: w) st) as [[[child|] st']|]; [|done..]. rewrite !bind_Ok. cbn [Z.eqb].
    destruct fuel as [|fuel]; [simpl in Hf; lia|]. by apply lookup_loop_end.
  - rewrite <- app_assoc. cbn [app].
    destruct (lookup_loop_step fuel w 47 (body' ++ 0 :: tl) buf v st Hw (or_intror eq_refl) Hbuf) as (buf' & Hbuf' & ->).
    do 2 (case_match; [done|]). destruct (get_child v w st) as [[[child|] st']|]; [|done..]. rewrite !bind_Ok.
    cbn [Z.eqb Pos.eqb]. apply IH; [done..|]. rewrite length_app in Hf. simpl in Hf. lia.
Qed.

(** ** The state of the file system *)

Definition vnode_ok (st : vfs) (v : VFSNode) : Prop :=
  wf (v_children v) ∧ (∀ h c, map_of (v_children v) !! h = Some c → is_Some (vnodes st !! c)) ∧
  ∀ p, v_pn v = Some p → is_Some (pnodes st !! p).

(** A child of a tmpfs node is a tmpfs node, stored under the hash of its name. *)
Definition pnode_ok (st : vfs) (p : PFSNode) : Prop :=
  match p with
  | TempFSNode _ children =>
      wf children ∧
      ∀ h c, map_of children !! h = Some c → ∃ n cs, pnodes st !! c = Some (TempFSNode n cs) ∧ fnv n = h
  | DeviceFSNode d => is_Some (device_objects (dm st) !! d)
  | RootFSNode | DeviceFSRootNode => True
  end.

Record vfs_ok (st : vfs) : Prop := {
  ok_dm : dm_ok (dm st);
  ok_root : is_Some (vnodes st !! root_node st);
  ok_vnodes : map_Forall (λ a v, a < next st ∧ vnode_ok st v) (vnodes st);
  ok_pnodes : map_Forall (λ a p, a < next st ∧ pnode_ok st p) (pnodes st) }.

(** Nodes are never freed, and a node of a kind stays of that kind. *)
Definition same_kind (p q : PFSNode) : Prop :=
  match p, q with
  | TempFSNode n _, TempFSNode m _ => n = m
  | DeviceFSNode d, DeviceFSNode e => d = e
  | RootFSNode, RootFSNode | DeviceFSRootNode, DeviceFSRootNode => True
  | _, _ => False
  end.

Record extends (st st' : vfs) : Prop := {
  ext_dm : dm st' = dm st;
  ext_root : root_node st' = root_node st;
  ext_fs : filesystems st' = filesystems st;
  ext_next : next st ≤ next st';
  ext_vnodes : ∀ a, is_Some (vnodes st !! a) → is_Some (vnodes st' !! a);
  ext_pnodes : ∀ a p, pnodes st !! a = Some p → ∃ q, pnodes st' !! a = Some q ∧ same_kind p q }.

Lemma same_kind_refl p : same_kind p p.
Proof. by destruct p. Qed.
Lemma same_kind_trans p q r : same_kind p q → same_kind q r → same_kind p r.
Proof. destruct p, q, r; simpl; congruence || done. Qed.

#[export] Instance extends_preorder : PreOrder extends.
Proof.
  split.
  - intros st. split; try done. intros a p Hp. exists p. split; [done|apply same_kind_refl].
  - intros st1 st2 st3 H1 H2. split.
    + rewrite (ext_dm _ _ H2). apply H1.
    + rewrite (ext_root _ _ H2). apply H1.
    + rewrite (ext_fs _ _ H2). apply H1.
    + pose proof (ext_next _ _ H1). pose proof (ext_next _ _ H2). lia.
    + intros a Ha. by apply H2, H1.
    + intros a p Hp. destruct (ext_pnodes _ _ H1 a p Hp) as (q & Hq & Hk).
      destruct (ext_pnodes _ _ H2 a q Hq) as (r & Hr & Hk'). exists r. split; [done|by eapply same_kind_trans].
Qed.

Lemma vnode_ok_extends st st' v : extends st st' → vnode_ok st v → vnode_ok st' v.
Proof.
  intros He (Hwf & Hc & Hp). split_and!; [done|..].
  - intros h c Hh. by eapply ext_vnodes, Hc.
  - intros p Hpn. destruct (Hp p Hpn) as [q Hq]. destruct (ext_pnodes _ _ He p q Hq) as (r & Hr & _). by exists r.
Qed.

Lemma pnode_ok_extends st st' p : extends st st' → pnode_ok st p → pnode_ok st' p.
Proof.
  intros He. destruct p as [|n cs| |d]; simpl; [done| |done|].
  - intros [Hwf Hc]. split; [done|]. intros h c Hh. destruct (Hc h c Hh) as (m & cs' & Hm & Hf).
    destruct (ext_pnodes _ _ He c _ Hm) as ([|m' cs''| |] & Hq & Hk); try done. simpl in Hk. subst m'. by exists m, cs''.
  - by rewrite (ext_dm _ _ He).
Qed.

(** The four ways the state changes. *)
Lemma new_pnode_ok p st :
  vfs_ok st → pnode_ok st p →
  let '(a, st') := new_pnode p st in
  vfs_ok st' ∧ extends st st' ∧ pnodes st' !! a = Some p ∧ vnodes st' = vnodes st ∧ pnodes st !! a = None ∧
  (∀ b, b ≠ a → pnodes st' !! b = pnodes st !! b).
Proof.
  intros Hok Hp. unfold new_pnode. set (st' := MkVfs _ _ _ _ _ _).
  assert (Hnew : pnodes st !! next st = None).
  { destruct (pnodes st !! next st) eqn:E; [|done]. apply (ok_pnodes _ Hok) in E. lia. }
  assert (He : extends st st').
  { split; simpl; try done; [lia|]. intros a q Hq. exists q. split; [|apply same_kind_refl].
    rewrite lookup_insert_ne by congruence. done. }
  split_and!; [|done|simpl; by rewrite lookup_insert_eq|done|done|intros b Hb; simpl; by rewrite lookup_insert_ne].
  split; simpl; [apply Hok|apply Hok|..].
  - intros a v Hv. destruct (ok_vnodes _ Hok a v Hv). split; [lia|by eapply vnode_ok_extends].
  - apply map_Forall_insert_2; [split; [lia|by eapply pnode_ok_extends]|].
    intros a q Hq. destruct (ok_pnodes _ Hok a q Hq). split; [lia|by eapply pnode_ok_extends].
Qed.

Lemma new_vnode_ok v st :
  vfs_ok st → vnode_ok st v →
  let '(a, st') := new_vnode v st in
  vfs_ok st' ∧ extends st st' ∧ vnodes st' !! a = Some v ∧ pnodes st' = pnodes st ∧ vnodes st !! a = None ∧
  (∀ b, b ≠ a → vnodes st' !! b = vnodes st !! b).
Proof.
  intros Hok Hv. unfold new_vnode. set (st' := MkVfs _ _ _ _ _ _).
  assert (Hnew : vnodes st !! next st = None).
  { destruct (vnodes st !! next st) eqn:E; [|done]. apply (ok_vnodes _ Hok) in E. lia. }
  assert (He : extends st st').
  { split; simpl; try done; [lia|..].
    - intros a Ha. rewrite lookup_insert_is_Some. destruct (decide (next st = a)); [by left|by right].
    - intros a q Hq. exists q. split; [done|apply same_kind_refl]. }
  split_and!; [|done|simpl; by rewrite lookup_insert_eq|done|done|intros b Hb; simpl; by rewrite lookup_insert_ne].
  split; simpl; [apply Hok|by apply He, Hok|..].
  - apply map_Forall_insert_2; [split; [lia|by eapply vnode_ok_extends]|].
    intros a q Hq. destruct (ok_vnodes _ Hok a q Hq). split; [lia|by eapply vnode_ok_extends].
  - intros a q Hq. destruct (ok_pnodes _ Hok a q Hq). split; [lia|by eapply pnode_ok_extends].
Qed.

Lemma put_vnode_ok a v st :
  vfs_ok st → is_Some (vnodes st !! a) → vnode_ok st v → vfs_ok (put_vnode a v st) ∧ extends st (put_vnode a v st).
Proof.
  intros Hok [w Hw] Hv.
  assert (He : extends st (put_vnode a v st)).
  { split; simpl; try done.
    - intros b Hb. rewrite lookup_insert_is_Some. destruct (decide (a = b)); [by left|by right].
    - intros b q Hq. exists q. split; [done|apply same_kind_refl]. }
  split; [|done]. split; simpl; [apply Hok|by apply He, Hok|..].
  - apply map_Forall_insert_2; [split; [by apply (ok_vnodes _ Hok a w)|by eapply vnode_ok_extends]|].
    intros b q Hq. destruct (ok_vnodes _ Hok b q Hq). split; [done|by eapply vnode_ok_extends].
  - intros b q Hq. destruct (ok_pnodes _ Hok b q Hq). split; [done|by eapply pnode_ok_extends].
Qed.

Lemma put_pnode_ok a p q st :
  vfs_ok st → pnodes st !! a = Some p → same_kind p q → pnode_ok st q →
  vfs_ok (put_pnode a q st) ∧ extends st (put_pnode a q st).
Proof.
  intros Hok Hp Hk Hq.
  assert (He : extends st (put_pnode a q st)).
  { split; simpl; try done. intros b r Hr. destruct (decide (a = b)) as [<-|Hne].
    - exists q. rewrite lookup_insert_eq. split; [done|congruence].
    - exists r. rewrite lookup_insert_ne by done. split; [done|apply same_kind_refl]. }
  split; [|done]. split; simpl; [apply Hok|apply Hok|..].
  - intros b v Hv. destruct (ok_vnodes _ Hok b v Hv). split; [done|by eapply vnode_ok_extends].
  - apply map_Forall_insert_2; [split; [by apply (ok_pnodes _ Hok a p)|by eapply pnode_ok_extends]|].
    intros b r Hr. destruct (ok_pnodes _ Hok b r Hr). split; [done|by eapply pnode_ok_extends].
Qed.

(** ** What the operations find *)

(** The entry of a name in a file system node. *)
Definition pfs_entry (st : vfs) (p : PFSNode) (h : Z) : option Z :=
  match p with
  | TempFSNode _ children => map_of children !! h
  | DeviceFSRootNode => map_of (devices (dm st)) !! h
  | RootFSNode | DeviceFSNode _ => None
  end.

(** A node has a child of a name when its file system does, or when a virtual
    node was made for the name before. *)
Definition visible (st : vfs) (v : VFSNode) (h : Z) : Prop :=
  ∃ pn p, v_pn v = Some pn ∧ pnodes st !! pn = Some p ∧
    (is_Some (map_of (v_children v) !! h) ∨ is_Some (pfs_entry st p h)).

Lemma pfs_get_child_spec st a p n :
  vfs_ok st → pnodes st !! a = Some p →
  ∃ r st', pfs_get_child a n st = Ok (r, st') ∧ vfs_ok st' ∧ extends st st' ∧ vnodes st' = vnodes st ∧
    (∀ c, r = Some c → is_Some (pnodes st' !! c)) ∧ (is_Some r ↔ is_Some (pfs_entry st p (fnv n))) ∧
    pnodes st' !! a = Some p.
Proof.
  intros Hok Hp. destruct (ok_pnodes _ Hok a p Hp) as [_ Hpok]. unfold pfs_get_child. rewrite Hp. ok_step.
  destruct p as [|own cs| |d]; cbn [pnode_ok pfs_entry] in Hpok |- *.
  - by eexists None, st.
  - destruct Hpok as [Hwf Hc]. unfold temp_get_child. rewrite try_get_value_spec by done. eexists _, st. split_and!; try done.
    intros c Hcc. destruct (Hc _ _ Hcc) as (m & cs' & Hm & _). by eexists.
  - unfold devfs_get_child, try_get_device_by_name. destruct (ok_dm _ Hok) as [Hwf Hd]. rewrite try_get_value_spec by done.
    destruct (map_of (devices (dm st)) !! fnv n) as [d|] eqn:E; [|by eexists None, st].
    pose proof (new_pnode_ok (DeviceFSNode d) st Hok (Hd _ _ E)) as Hnew.
    destruct (new_pnode (DeviceFSNode d) st) as [c st'] eqn:En.
    destruct Hnew as (Hok' & He & Hc & Hv & Hn & Hne). exists (Some c), st'. split_and!; try done.
    + intros c' [= <-]. rewrite Hc. by eexists.
    + rewrite Hne; [done|congruence].
  - by eexists None, st.
Qed.

(** [get_child] finds exactly the visible names, and finds the same node again. *)
Lemma get_child_spec st v node n :
  vfs_ok st → vnodes st !! v = Some node →
  ∃ r st', get_child v n st = Ok (r, st') ∧ vfs_ok st' ∧ extends st st' ∧
    (is_Some r ↔ visible st node (fnv n)) ∧
    ∀ c, r = Some c → is_Some (vnodes st' !! c) ∧ ∀ n', fnv n' = fnv n → get_child v n' st' = Ok (Some c, st').
Proof.
  intros Hok Hv. destruct (ok_vnodes _ Hok v node Hv) as [_ (Hwf & Hch & Hpn)].
  unfold get_child at 1. rewrite Hv. ok_step.
  destruct (v_pn node) as [pn|] eqn:Epn.
  2:{ exists None, st. split_and!; try done. split; [by intros [? [=]]|]. intros (? & ? & ? & _). congruence. }
  destruct (Hpn pn eq_refl) as [p Hp]. rewrite try_get_value_spec by done.
  destruct (map_of (v_children node) !! fnv n) as [c|] eqn:Ec.
  - exists (Some c), st. split_and!; try done.
    + split; [|done]. intros _. exists pn, p. split_and!; try done. left. by rewrite Ec.
    + intros c' [= <-]. split; [by eapply Hch|]. intros n' Hn'. unfold get_child. rewrite Hv. ok_step.
      by rewrite Epn, try_get_value_spec, Hn', Ec.
  - destruct (pfs_get_child_spec st pn p n Hok Hp) as (r & st1 & -> & Hok1 & He1 & Hv1 & Hr & Hiff & _).
    rewrite bind_Ok. destruct r as [assoc|].
    2:{ exists None, st1. split_and!; try done. split; [by intros [? [=]]|].
        intros (pn' & p' & [= <-]%(eq_trans (eq_sym Epn)) & Hp' & [[x Hx]|Hx]); [congruence|].
        rewrite Hp in Hp'. injection Hp' as <-. by apply Hiff in Hx. }
    pose proof (new_vnode_ok (MkV (Some v) (Some assoc) empty_map) st1 Hok1) as Hnew.
    destruct (new_vnode _ st1) as [c st2]. destruct Hnew as (Hok2 & He2 & Hc2 & Hp2 & Hn2 & Hne2).
    { destruct (wf_empty (V := Z)) as [Hwe Hme]. split_and!; [done|..].
      - intros h x. simpl. rewrite Hme. by rewrite lookup_empty.
      - intros q [= <-]. by apply Hr. }
    destruct (add_spec (v_children node) (fnv n) c Hwf) as (m & -> & Hwm & Hm). rewrite bind_Ok.
    destruct (put_vnode_ok v (MkV (v_parent node) (Some pn) m) st2 Hok2) as [Hok3 He3].
    { apply He2. rewrite Hv1. by eexists. }
    { split_and!; [done|..].
      - intros h x. cbn [v_children]. rewrite Hm. intros [[_ <-]|[_ Hx]]%lookup_insert_Some; [by eexists|].
        apply He2, He1. by eapply Hch.
      - intros q [= <-]. eapply (ext_pnodes _ _ He1) in Hp as (q & Hq & _). rewrite Hp2. by eexists. }
    eexists (Some c), _. split_and!; [done|done|by etrans; [|etrans]|..].
    + split; [|done]. intros _. exists pn, p. split_and!; try done. right. by apply Hiff.
    + intros c' [= <-]. split; [apply He3; by eexists|]. intros n' Hn'. unfold get_child. simpl.
      rewrite lookup_insert_eq. ok_step. simpl. by rewrite try_get_value_spec, Hn', Hm, lookup_insert_eq.
Qed.

(** [TempFSNode::mkdir] on a tmpfs node: a new, empty node under the name, also
    where the name exists. *)
Lemma pfs_mkdir_temp st a own cs n :
  vfs_ok st → pnodes st !! a = Some (TempFSNode own cs) →
  ∃ d m st', pfs_mkdir a n st = Ok (Some d, st') ∧ vfs_ok st' ∧ extends st st' ∧ vnodes st' = vnodes st ∧
    pnodes st !! d = None ∧ pnodes st' !! d = Some (TempFSNode n empty_map) ∧
    pnodes st' !! a = Some (TempFSNode own m) ∧ wf m ∧ map_of m = <[fnv n := d]> (map_of cs) ∧
    ∀ b, b ≠ a → b ≠ d → pnodes st' !! b = pnodes st !! b.
Proof.
  intros Hok Ha. destruct (ok_pnodes _ Hok _ _ Ha) as [_ [Hwf Hc]].
  destruct (wf_empty (V := Z)) as [Hwe Hme].
  unfold pfs_mkdir. rewrite Ha. ok_step. unfold temp_mkdir.
  pose proof (new_pnode_ok (TempFSNode n empty_map) st Hok) as Hnew.
  destruct (new_pnode _ st) as [d st1]. destruct Hnew as (Hok1 & He1 & Hd & Hv1 & Hn1 & Hne1).
  { split; [done|]. intros h c. by rewrite Hme, lookup_empty. }
  assert (a ≠ d) by congruence.
  destruct (add_spec cs (fnv n) d Hwf) as (m & -> & Hwm & Hm). rewrite bind_Ok.
  assert (Ha1 : pnodes st1 !! a = Some (TempFSNode own cs)) by (by rewrite Hne1).
  destruct (put_pnode_ok a _ (TempFSNode own m) st1 Hok1 Ha1 eq_refl) as [Hok2 He2].
  { split; [done|]. intros h c. rewrite Hm. intros [[<- <-]|[_ Hx]]%lookup_insert_Some; [by eexists _, _|].
    destruct (Hc h c Hx) as (q & cq & Hq & <-). destruct (ext_pnodes _ _ He1 c _ Hq) as ([|q' cq'| |] & Hq' & Hk); try done.
    simpl in Hk. subst q'. by exists q, cq'. }
  exists d, m, (put_pnode a (TempFSNode own m) st1).
  split_and!; [done|done|by etrans|done|done|..|done|done|]; simpl.
  - by rewrite lookup_insert_ne.
  - by rewrite lookup_insert_eq.
  - intros b Hba Hbd. rewrite lookup_insert_ne by done. by apply Hne1.
Qed.

Lemma pfs_mkdir_spec st a p n :
  vfs_ok st → pnodes st !! a = Some p →
  ∃ r st', pfs_mkdir a n st = Ok (r, st') ∧ vfs_ok st' ∧ extends st st' ∧ vnodes st' = vnodes st.
Proof.
  intros Hok Ha. destruct p as [|own cs| |d].
  2:{ destruct (pfs_mkdir_temp st a own cs n Hok Ha) as (d & m & st' & -> & ? & ? & ? & _). by eexists _, _. }
  all: unfold pfs_mkdir; rewrite Ha; by eexists None, st.
Qed.

Lemma mkdir_spec st v node n :
  vfs_ok st → vnodes st !! v = Some node →
  ∃ r st', mkdir v n st = Ok (r, st') ∧ vfs_ok st' ∧ extends st st' ∧ ∀ c, r = Some c → is_Some (vnodes st' !! c).
Proof.
  intros Hok Hv. destruct (ok_vnodes _ Hok v node Hv) as [_ (_ & _ & Hpn)]. unfold mkdir. rewrite Hv. ok_step.
  destruct (v_pn node) as [pn|]; [|by eexists None, st]. destruct (Hpn pn eq_refl) as [p Hp].
  destruct (pfs_mkdir_spec st pn p n Hok Hp) as (r & st1 & -> & Hok1 & He1 & Hv1). rewrite bind_Ok.
  destruct r as [d|]; [|by eexists None, st1].
  destruct (get_child_spec st1 v node n Hok1) as (c & st2 & -> & Hok2 & He2 & _ & Hc); [by rewrite Hv1|].
  exists c, st2. split_and!; [done|done|by etrans|]. intros x Hx. by apply Hc.
Qed.

(** Every registration has a terminated name. *)
Definition regs_ok (regs : list (cstr * Filesystem)) : Prop :=
  Forall (λ r, ∃ cs, is_cstr cs (fst r) ∧ Z.of_nat (length cs) < 2 ^ 64) regs.

Lemma lookup_fs_total regs cs fstype :
  regs_ok regs → is_cstr cs fstype → Z.of_nat (length cs) < 2 ^ 64 → ∃ r, lookup_fs regs fstype = Ok r.
Proof.
  intros Hr Hf Hl. induction Hr as [|[n fs] regs (cn & Hn & Hln) Hr IH]; cbn [lookup_fs]; [by eexists|].
  rewrite (strncmp_spec cn cs), bind_Ok by (done || unfold fits; lia). case_match; [by eexists|done].
Qed.

Lemma mount_spec st v node cs fstype :
  vfs_ok st → vnodes st !! v = Some node → regs_ok (filesystems st) → is_cstr cs fstype → Z.of_nat (length cs) < 2 ^ 64 →
  ∃ r st', mount v fstype st = Ok (r, st') ∧ vfs_ok st' ∧ extends st st'.
Proof.
  intros Hok Hv Hr Hf Hl. unfold mount. destruct (lookup_fs_total _ _ _ Hr Hf Hl) as [[fs|] ->]; rewrite bind_Ok.
  2: by eexists false, st.
  rewrite Hv. ok_step. destruct (wf_empty (V := Z)) as [Hwe Hme]. unfold fs_mount.
  match goal with |- context [new_pnode ?p st] => pose proof (new_pnode_ok p st Hok) as Hnew; destruct (new_pnode p st) as [pn st1] end.
  destruct Hnew as (Hok1 & He1 & Hp1 & Hv1 & _).
  { by destruct fs. }
  destruct (put_vnode_ok v (MkV (v_parent node) (Some pn) (map_clear (v_children node))) st1 Hok1) as [Hok2 He2].
  - rewrite Hv1. by eexists.
  - split_and!; [done| |intros q [= <-]; by eexists]. intros h c. simpl. change (map_clear _) with (empty_map (V := Z)).
    by rewrite Hme, lookup_empty.
  - eexists true, _. split_and!; [done|done|by etrans].
Qed.

Lemma lookup_node_spec junk cs path st :
  is_cstr cs path → length junk = 256%nat → lookup_node junk path st = path_spec cs st.
Proof.
  intros [Hnz [rest ->]] Hj. unfold lookup_node. destruct Hnz as [|c cs Hc Hcs]; [by cbn [app]; rewrite (rd_Ok _ 0 0)|].
  cbn [app]. rewrite (rd_Ok _ 0 c) by done. rewrite bind_Ok, (proj2 (Z.eqb_neq c 0) Hc).
  destruct (Z.eqb_spec c 47) as [->|Hne]; cbn [negb].
  - destruct Hcs as [|c1 cs Hc1 Hcs]; [by cbn [app]; rewrite (rd_Ok _ 1 0)|]. cbn [app].
    rewrite (rd_Ok _ 1 c1) by done. rewrite bind_Ok, (proj2 (Z.eqb_neq c1 0) Hc1). cbn [tail path_spec].
    apply (lookup_loop_spec _ (c1 :: cs)); [by constructor|done|]. simpl. rewrite length_app. simpl. lia.
  - cbn [path_spec]. by rewrite (proj2 (Z.eqb_neq c 47) Hne).
Qed.

Lemma walk_path_spec comps v st :
  vfs_ok st → is_Some (vnodes st !! v) → Forall (λ c, (length c < 256)%nat) comps →
  ∃ r st', walk_path comps v st = Ok (r, st') ∧ vfs_ok st' ∧ extends st st' ∧
    ∀ c, r = Some c → is_Some (vnodes st' !! c).
Proof.
  intros Hok Hv Hc. revert v st Hok Hv. induction Hc as [|c comps Hc Hcs IH]; intros v st Hok [node Hv]; cbn [walk_path].
  - exists (Some v), st. split_and!; try done. intros c [= <-]. by eexists.
  - case_match. { exists (Some v), st. split_and!; try done. intros ? [= <-]. by eexists. }
    rewrite (proj2 (Nat.leb_gt 256 _)) by lia.
    destruct (get_child_spec st v node c Hok Hv) as (r & st1 & -> & Hok1 & He1 & _ & Hr). rewrite bind_Ok.
    destruct r as [child|]; [|by eexists None, st1].
    destruct (IH child st1 Hok1) as (r & st2 & -> & Hok2 & He2 & Hr2); [by apply Hr|].
    exists r, st2. split_and!; try done. by etrans.
Qed.

(** Paths whose components fit the buffer. *)
Definition path_ok (path : cstr) : Prop :=
  ∃ cs, is_cstr cs path ∧ Forall (λ c, (length c < 256)%nat) (fields 47 (tail cs)).

Lemma lookup_node_total junk path st :
  vfs_ok st → path_ok path → length junk = 256%nat →
  ∃ r st', lookup_node junk path st = Ok (r, st') ∧ vfs_ok st' ∧ extends st st' ∧
    ∀ c, r = Some c → is_Some (vnodes st' !! c).
Proof.
  intros Hok (cs & Hcs & Hf) Hj. rewrite (lookup_node_spec junk cs) by done.
  destruct cs as [|c cs]; [by eexists None, st|].
  cbn [path_spec]. destruct (Z.eqb_spec c 47); [|by eexists None, st].
  apply walk_path_spec; [done|apply Hok|done].
Qed.

(** ** Histories *)

Inductive fs_op :=
| FLookup (path : cstr)
| FMkdir (path : cstr) (n : name)
| FMount (path fstype : cstr)
| FOpen (path : cstr)
| FOpendir (path : cstr).

(** An operation of a client, which reaches nodes by their path. *)
Definition on_node (junk : list Z) (path : cstr) (f : Z → vfs → result vfs) (st : vfs) : result vfs :=
  '(v, st) ← lookup_node junk path st;
  match v with None => Ok st | Some v => f v st end.

Definition run_fs (junk : list Z) (o : fs_op) (st : vfs) : result vfs :=
  match o with
  | FLookup path => on_node junk path (λ _ st, Ok st) st
  | FMkdir path n => on_node junk path (λ v st, '(_, st) ← mkdir v n st; Ok st) st
  | FMount path fstype => on_node junk path (λ v st, '(_, st) ← mount v fstype st; Ok st) st
  | FOpen path => '(_, st) ← vfs_open junk path st; Ok st
  | FOpendir path => '(_, st) ← vfs_opendir junk path st; Ok st
  end.

Definition fs_op_ok (o : fs_op) : Prop :=
  match o with
  | FLookup p | FMkdir p _ | FOpen p | FOpendir p => path_ok p
  | FMount p t => path_ok p ∧ ∃ cs, is_cstr cs t ∧ Z.of_nat (length cs) < 2 ^ 64
  end.

(** An operation on the node of a path keeps the state well formed when the
    operation on the node does. *)
Lemma on_node_ok junk path f st :
  vfs_ok st → path_ok path → length junk = 256%nat →
  (∀ v node st1, vfs_ok st1 → extends st st1 → vnodes st1 !! v = Some node →
     ∃ st2, f v st1 = Ok st2 ∧ vfs_ok st2 ∧ extends st1 st2) →
  ∃ st', on_node junk path f st = Ok st' ∧ vfs_ok st' ∧ extends st st'.
Proof.
  intros Hok Hp Hj Hf. unfold on_node.
  destruct (lookup_node_total junk path st Hok Hp Hj) as ([v|] & st1 & -> & Hok1 & He1 & Hv); rewrite bind_Ok; [|by eauto].
  destruct (Hv v eq_refl) as [node Hn]. destruct (Hf v node st1 Hok1 He1 Hn) as (st2 & -> & Hok2 & He2).
  exists st2. split_and!; [done|done|by etrans].
Qed.

Lemma temp_entries st own cs (l : list (Z * Z)) d :
  pnode_ok st (TempFSNode own cs) → l ⊆ map_to_list (map_of cs) →
  ∃ names, for_each l (temp_entry st) d = Ok (MkDir (dir_entries d ++ ((λ n, (n, 0)) <$> names)) (current_entry d)) ∧
    fnv <$> names = l.*1.
Proof.
  intros [_ Hc]. revert d. induction l as [|[h c] l IH]; intros d Hl; cbn [for_each].
  - exists []. split; [|done]. rewrite app_nil_r. by destruct d.
  - destruct (Hc h c) as (n & cs' & Hn & Hf). { apply elem_of_map_to_list, Hl. by left. }
    unfold temp_entry at 2. cbn [snd]. rewrite Hn. ok_step. rewrite bind_Ok.
    destruct (IH (add_entry d (n, 0))) as (names & -> & Hnames). { intros x Hx. apply Hl. by right. }
    exists (n :: names). split; [|by csimpl; rewrite Hnames, Hf]. simpl. by rewrite <- app_assoc.
Qed.

Lemma device_entries st (l : list (Z * Z)) d :
  (∀ h a, (h, a) ∈ l → is_Some (device_objects (dm st) !! a)) →
  ∃ es, for_each l (device_entry st) d = Ok (MkDir (dir_entries d ++ es) (current_entry d)).
Proof.
  revert d. induction l as [|[h a] l IH]; intros d Hl; cbn [for_each].
  - exists []. rewrite app_nil_r. by destruct d.
  - destruct (Hl h a) as [dev Hdev]; [by left|]. unfold device_entry at 2. cbn [snd]. rewrite Hdev. ok_step. rewrite bind_Ok.
    destruct (IH (add_entry d (dev_name dev, 0))) as (es & ->). { intros h' a' H. eapply Hl. by right. }
    exists ((dev_name dev, 0) :: es). simpl. by rewrite <- app_assoc.
Qed.

Lemma pfs_opendir_total st a p : vfs_ok st → pnodes st !! a = Some p → ∃ r, pfs_opendir a st = Ok r.
Proof.
  intros Hok Ha. destruct (ok_pnodes _ Hok a p Ha) as [_ Hp]. unfold pfs_opendir. rewrite Ha. ok_step.
  destruct p as [|own cs| |d]; [by eexists| | |by eexists].
  - unfold temp_opendir. destruct (iterate_map_spec cs (proj1 Hp)) as (l & -> & Hl). rewrite bind_Ok.
    destruct (temp_entries st own cs l (MkDir [] 0) Hp) as (names & -> & _); [by rewrite Hl|]. by eexists.
  - unfold devfs_opendir. destruct (ok_dm _ Hok) as [Hwf Hd]. destruct (iterate_map_spec _ Hwf) as (l & -> & Hl). rewrite bind_Ok.
    destruct (device_entries st l (MkDir [] 0)) as (es & ->); [|by eexists].
    intros h b Hb. eapply Hd, elem_of_map_to_list. by rewrite <- Hl.
Qed.

Lemma pfs_open_total st a p : vfs_ok st → pnodes st !! a = Some p → ∃ r, pfs_open a st = Ok r.
Proof.
  intros Hok Ha. destruct (ok_pnodes _ Hok a p Ha) as [_ Hp]. unfold pfs_open. rewrite Ha. ok_step.
  destruct p as [|own cs| |d]; try by eexists. unfold devnode_open. destruct Hp as [dev ->]. by eexists.
Qed.

Lemma run_fs_ok junk o st :
  vfs_ok st → regs_ok (filesystems st) → length junk = 256%nat → fs_op_ok o →
  ∃ st', run_fs junk o st = Ok st' ∧ vfs_ok st' ∧ extends st st'.
Proof.
  intros Hok Hr Hj Ho. destruct o as [p|p n|p t|p|p]; cbn [run_fs fs_op_ok] in *.
  - apply on_node_ok; [done..|]. intros v node st1 Hok1 _ _. by exists st1.
  - apply on_node_ok; [done..|]. intros v node st1 Hok1 _ Hn.
    destruct (mkdir_spec st1 v node n Hok1 Hn) as (r & st2 & -> & ? & ? & _). by exists st2.
  - destruct Ho as [Hp (cs & Ht & Hl)]. apply on_node_ok; [done..|]. intros v node st1 Hok1 He Hn.
    destruct (mount_spec st1 v node cs t Hok1 Hn) as (r & st2 & -> & ? & ?); [by rewrite (ext_fs _ _ He)|done..|]. by exists st2.
  - unfold vfs_open. destruct (lookup_node_total junk p st Hok Ho Hj) as ([v|] & st1 & -> & Hok1 & He1 & Hv); rewrite !bind_Ok; [|by exists st1].
    destruct (Hv v eq_refl) as [node Hn]. rewrite Hn. ok_step.
    destruct (ok_vnodes _ Hok1 v node Hn) as [_ (_ & _ & Hpn)].
    destruct (v_pn node) as [a|]; [|by exists st1]. destruct (Hpn a eq_refl) as [q Hq].
    destruct (pfs_open_total st1 a q Hok1 Hq) as [f ->]. by exists st1.
  - unfold vfs_opendir. destruct (lookup_node_total junk p st Hok Ho Hj) as ([v|] & st1 & -> & Hok1 & He1 & Hv); rewrite !bind_Ok; [|by exists st1].
    destruct (Hv v eq_refl) as [node Hn]. rewrite Hn. ok_step.
    destruct (ok_vnodes _ Hok1 v node Hn) as [_ (_ & _ & Hpn)].
    destruct (v_pn node) as [a|]; [|by exists st1]. destruct (Hpn a eq_refl) as [q Hq].
    destruct (pfs_opendir_total st1 a q Hok1 Hq) as [f ->]. by exists st1.
Qed.

Lemma vfs_init_ok regs d first_address fs :
  dm_ok d → lookup_fs regs [114; 111; 111; 116; 102; 115; 0] = Ok (Some fs) →
  ∃ st, vfs_init regs d first_address = Ok (true, st) ∧ vfs_ok st ∧ filesystems st = regs.
Proof.
  intros Hd Hfs. unfold vfs_init. rewrite Hfs, bind_Ok. cbn [get]. rewrite bind_Ok.
  destruct (wf_empty (V := Z)) as [Hwe Hme]. cbn [fs_mount new_pnode new_vnode].
  eexists. split; [done|]. split; [|done]. split; simpl; [done|rewrite lookup_insert_eq; by eexists|..].
  - apply map_Forall_insert_2; [|apply map_Forall_empty]. split; [lia|]. split_and!; [done|..]; simpl.
    + intros h c. by rewrite Hme, lookup_empty.
    + intros p [= <-]. rewrite lookup_insert_eq. by eexists.
  - apply map_Forall_insert_2; [|apply map_Forall_empty]. split; [lia|]. by destruct fs.
Qed.


(** C22. [lookup_node] follows the slash-separated components of an absolute path
    from the root through [get_child].  A path that does not start with a slash
    finds nothing; an empty component ends the walk at the node reached, whatever
    follows it; a component of 256 characters or more is written past the end of
    the buffer. *)
Theorem vfs_lookup_correct junk cs path st :
  is_cstr cs path → length junk = 256%nat → lookup_node junk path st = path_spec cs st.
Proof. apply lookup_node_spec. Qed.

(** [get_child] of a name that tmpfs has. *)
Lemma get_child_temp st v node pn own cs n d :
  vfs_ok st → vnodes st !! v = Some node → v_pn node = Some pn →
  pnodes st !! pn = Some (TempFSNode own cs) → map_of cs !! fnv n = Some d →
  (∃ c, map_of (v_children node) !! fnv n = Some c ∧ get_child v n st = Ok (Some c, st)) ∨
  ∃ m, map_of (v_children node) !! fnv n = None ∧
    get_child v n st = Ok (Some (next st), put_vnode v (MkV (v_parent node) (Some pn) m)
                             (snd (new_vnode (MkV (Some v) (Some d) empty_map) st))) ∧
    wf m ∧ map_of m = <[fnv n := next st]> (map_of (v_children node)).
Proof.
  intros Hok Hv Hpn Hp Hd. destruct (ok_vnodes _ Hok v node Hv) as [_ (Hwf & _ & _)].
  destruct (ok_pnodes _ Hok pn _ Hp) as [_ [Hwc _]].
  unfold get_child. rewrite Hv. ok_step. rewrite Hpn, try_get_value_spec by done.
  destruct (map_of (v_children node) !! fnv n) as [c|]; [by left; exists c|right].
  unfold pfs_get_child. rewrite Hp. ok_step. unfold temp_get_child. rewrite try_get_value_spec, Hd, bind_Ok by done. cbn [new_vnode snd].
  destruct (add_spec (v_children node) (fnv n) (next st) Hwf) as (m & -> & Hwm & Hm). by exists m.
Qed.

(** A new entry of tmpfs changes what is visible under its own name only. *)
Lemma visible_mkdir st st1 node pn own cs m n d h :
  v_pn node = Some pn → pnodes st !! pn = Some (TempFSNode own cs) → pnodes st1 !! pn = Some (TempFSNode own m) →
  map_of m = <[fnv n := d]> (map_of cs) → h ≠ fnv n → visible st1 node h ↔ visible st node h.
Proof.
  intros Hpn Hp Hp1 Hm Hh.
  split; intros (a & q & Ha & Hq & Hvq); (exists a); rewrite Hpn in Ha; injection Ha as <-.
  - rewrite Hp1 in Hq. injection Hq as <-. eexists. split_and!; [done..|]. simpl in Hvq. by rewrite Hm, lookup_insert_ne in Hvq.
  - rewrite Hp in Hq. injection Hq as <-. eexists. split_and!; [done..|]. simpl. by rewrite Hm, lookup_insert_ne.
Qed.

(** [mkdir] on a node backed by tmpfs.  It succeeds and the node is found
    again under every name with the same hash; a name with another hash is
    visible after it exactly when it was before.  Where the name was not known to
    the virtual node, the result is a new node with a new, empty tmpfs directory;
    where it was, the old virtual node is returned, still with its old contents,
    although tmpfs now holds the new directory. *)
Theorem vfs_mkdir_correct st v node pn own cs n :
  vfs_ok st → vnodes st !! v = Some node → v_pn node = Some pn → pnodes st !! pn = Some (TempFSNode own cs) →
  ∃ c st', mkdir v n st = Ok (Some c, st') ∧ vfs_ok st' ∧ extends st st' ∧
    (∀ n', fnv n' = fnv n → get_child v n' st' = Ok (Some c, st')) ∧
    (∀ node' h, vnodes st' !! v = Some node' → h ≠ fnv n → visible st' node' h ↔ visible st node h) ∧
    match try_get_value (v_children node) (fnv n) with
    | None => vnodes st !! c = None ∧
        ∃ d, pnodes st !! d = None ∧ vnodes st' !! c = Some (MkV (Some v) (Some d) empty_map) ∧
          pnodes st' !! d = Some (TempFSNode n empty_map)
    | Some old => c = old ∧ vnodes st' = vnodes st
    end.
Proof.
  intros Hok Hv Hpn Hp. destruct (ok_vnodes _ Hok v node Hv) as [_ (Hwf & Hch & _)].
  destruct (pfs_mkdir_temp st pn own cs n Hok Hp) as (d & m & st1 & Hmk & Hok1 & He1 & Hv1 & Hd0 & Hd1 & Hp1 & Hwm & Hm & _).
  assert (Hv' : vnodes st1 !! v = Some node) by (by rewrite Hv1).
  destruct (get_child_spec st1 v node n Hok1 Hv') as (r & st2 & Hget & Hok2 & He2 & Hvis & Hr).
  assert (is_Some r) as [c ->].
  { apply Hvis. exists pn, (TempFSNode own m). split_and!; [done|done|]. right. simpl. by rewrite Hm, lookup_insert_eq. }
  assert (Hd : map_of m !! fnv n = Some d) by (by rewrite Hm, lookup_insert_eq).
  exists c, st2. assert (Hmkdir : mkdir v n st = Ok (Some c, st2)) by (unfold mkdir; rewrite Hv; ok_step; by rewrite Hpn, Hmk, bind_Ok).
  split_and!; [done|done|by etrans|by apply Hr|..].
  - intros node' h Hn' Hh. rewrite <- (visible_mkdir st st1 node pn own cs m n d h) by done.
    destruct (get_child_temp st1 v node pn own m n d Hok1 Hv' Hpn Hp1 Hd) as [(x & Hx & Hgx)|(mv & Hx & Hgx & _ & Hmv)];
      rewrite Hgx in Hget; injection Hget as <- <-.
    + rewrite Hv' in Hn'. by injection Hn' as <-.
    + simpl in Hn'. rewrite lookup_insert_eq in Hn'. injection Hn' as <-.
      unfold visible. simpl. by rewrite Hmv, Hpn, lookup_insert_ne by done.
  - rewrite try_get_value_spec by done.
    destruct (get_child_temp st1 v node pn own m n d Hok1 Hv' Hpn Hp1 Hd) as [(x & Hx & Hgx)|(mv & Hx & Hgx & _)];
      rewrite Hgx in Hget; injection Hget as <- <-; rewrite Hx; [done|]. simpl.
    destruct (vnodes st !! next st1) as [w|] eqn:Ew.
    { apply (ok_vnodes _ Hok) in Ew. pose proof (ext_next _ _ He1). lia. }
    split; [done|]. exists d. split_and!; [done| |done]. rewrite lookup_insert_ne, lookup_insert_eq by congruence. done.
Qed.

(** ** Directories *)

(** Reads a directory to its end. *)
Fixpoint read_all (fuel : nat) (d : SimpleDirectory) : result (list (name * Z)) :=
  match fuel with
  | O => Err Hang
  | S fuel' =>
      '(e, d) ← read_entry d;
      match e with None => Ok [] | Some e => es ← read_all fuel' d; Ok (e :: es) end
  end.

Lemma read_all_spec fuel es k :
  Z.of_nat (length es) < 2 ^ 32 → (k ≤ length es)%nat → (length es - k < fuel)%nat →
  read_all fuel (MkDir es (Z.of_nat k)) = Ok (drop k es).
Proof.
  intros Hl. revert k. induction fuel as [|fuel IH]; intros k Hk Hf; [lia|].
  cbn [read_all]. unfold read_entry. cbn [dir_entries current_entry].
  destruct (Z.ltb_spec (Z.of_nat k) (Z.of_nat (length es))).
  - destruct (lookup_lt_is_Some_2 es k) as [e He]; [lia|].
    rewrite (rd_Ok _ _ e), !bind_Ok by (lia || by rewrite Nat2Z.id). 
    replace (u32 (Z.of_nat k + 1)) with (Z.of_nat (S k)) by (rewrite wrap_small by (unfold fits; lia); lia).
    rewrite IH, bind_Ok by lia. by rewrite (drop_S es e k He).
  - rewrite bind_Ok. by rewrite drop_ge by lia.
Qed.

(** A tmpfs directory lists its children: reading the object that [opendir]
    makes to its end gives every child once, under a name with the hash that
    [get_child] looks it up by, and then reports the end. *)
Theorem directory_lists_children st pn own cs :
  vfs_ok st → pnodes st !! pn = Some (TempFSNode own cs) → Z.of_nat (size (map_of cs)) < 2 ^ 32 →
  ∃ d es, pfs_opendir pn st = Ok (Some d) ∧ read_all (S (size (map_of cs))) d = Ok es ∧
    (λ e, fnv (fst e)) <$> es ≡ₚ (map_to_list (map_of cs)).*1.
Proof.
  intros Hok Hp Hsz. destruct (ok_pnodes _ Hok _ _ Hp) as [_ Hpok].
  destruct (iterate_map_spec cs (proj1 Hpok)) as (l & Hit & Hl).
  destruct (temp_entries st own cs l (MkDir [] 0) Hpok) as (names & Hfor & Hnames); [by rewrite Hl|].
  assert (Hlen : length names = size (map_of cs)).
  { apply (f_equal length) in Hnames. rewrite !length_fmap in Hnames. rewrite Hnames, Hl. apply length_map_to_list. }
  unfold pfs_opendir. rewrite Hp. ok_step. unfold temp_opendir. rewrite Hit, bind_Ok, Hfor, bind_Ok. eexists _, _. split; [done|].
  cbn [dir_entries current_entry app]. split.
  - apply (read_all_spec _ _ 0); rewrite ?length_fmap; lia.
  - rewrite drop_0, <- list_fmap_compose, <- Hl, <- Hnames. done.
Qed.

(** ** The file systems at start *)

Ltac eval_call call tac :=
  eassert (call = _) as -> by (tac; vm_compute; reflexivity); rewrite bind_Ok; ok_step.
Ltac mount_step Hfs :=
  match goal with |- context [mount ?v ?t ?st] =>
    eval_call (mount v t st) ltac:(unfold mount; cbn [filesystems]; rewrite Hfs) end.
Ltac mkdir_step :=
  match goal with |- context [mkdir ?v ?t ?st] => eval_call (mkdir v t st) idtac end.

(** The state [start_filesystems] leaves, for objects numbered from 1. *)
Lemma start_filesystems_spec junk regs d :
  lookup_fs regs [114; 111; 111; 116; 102; 115; 0] = Ok (Some RootFS) →
  lookup_fs regs [116; 109; 112; 102; 115; 0] = Ok (Some TempFS) →
  lookup_fs regs [100; 101; 118; 102; 115; 0] = Ok (Some DeviceFS) →
  ∃ usr st r dev pn m, start_filesystems junk regs d 1 = Ok (usr, st) ∧ dm st = d ∧
    vnodes st !! root_node st = Some r ∧ is_Some (v_pn r) ∧ try_get_value (v_children r) (fnv [100; 101; 118]) = Some dev ∧
    vnodes st !! dev = Some (MkV (Some (root_node st)) (Some pn) m) ∧ m = empty_map ∧ dev < next st ∧
    pnodes st !! pn = Some DeviceFSRootNode.
Proof.
  intros Hr Ht Hd. unfold start_filesystems, vfs_init. rewrite Hr, bind_Ok. cbn [get]. rewrite bind_Ok.
  cbn [fs_mount new_pnode new_vnode]. rewrite bind_Ok. ok_step.
  match goal with |- context [lookup_node junk ?p ?st] =>
    assert (lookup_node junk p st = Ok (Some 2, st)) as -> by reflexivity end.
  rewrite bind_Ok. ok_step. mount_step Ht. mkdir_step. mount_step Hd. mkdir_step.
  eexists _, _, _, _, _, _. split; [done|]. split; [done|]. split; [done|]. split; [by eexists|].
  split; [vm_compute; reflexivity|]. done.
Qed.

(** After the kernel has mounted its file systems, opening /dev/NAME opens
    the device that the device manager holds under the hash of the name, and
    finds nothing where there is none. *)
Theorem dev_path_opens_device junk regs d n :
  dm_ok d → length junk = 256%nat →
  lookup_fs regs [114; 111; 111; 116; 102; 115; 0] = Ok (Some RootFS) →
  lookup_fs regs [116; 109; 112; 102; 115; 0] = Ok (Some TempFS) →
  lookup_fs regs [100; 101; 118; 102; 115; 0] = Ok (Some DeviceFS) →
  Forall (λ c, c ≠ 0 ∧ c ≠ 47) n → (0 < length n < 256)%nat →
  ∃ usr st st', start_filesystems junk regs d 1 = Ok (usr, st) ∧
    vfs_open junk ([47; 100; 101; 118; 47] ++ n ++ [0]) st =
      Ok (a ← try_get_device_by_name d n; dev ← device_objects d !! a; dev_file dev, st')%stdpp.
Proof.
  intros [Hwf Hobj] Hj Hr Ht Hdev Hn Hlen.
  destruct (start_filesystems_spec junk regs d Hr Ht Hdev)
    as (usr & st & r & dv & pn & m & Hst & Hdm & Hroot & [rp Hrp] & Hcache & Hdv & -> & Hne & Hpn).
  exists usr, st. unfold vfs_open.
  rewrite (lookup_node_spec junk ([47; 100; 101; 118; 47] ++ n)); [|split; [|by exists []]|done].
  2:{ repeat (constructor; [done|]). eapply Forall_impl; [exact Hn|]. by intros c [? _]. }
  cbn [app path_spec]. rewrite Z.eqb_refl.
  assert (fields 47 (100 :: 101 :: 118 :: 47 :: n) = [[100; 101; 118]; n]) as ->.
  { change (fields_from 47 [] ([100; 101; 118] ++ 47 :: n) = [[100; 101; 118]; n]).
    rewrite fields_word by (by repeat constructor). f_equal. apply (fields_last 47 []).
    eapply Forall_impl; [exact Hn|]. by intros c [_ ?]. }
  cbn [walk_path]. change ((length [100; 101; 118] =? 0)%nat) with false. change ((256 <=? length [100; 101; 118])%nat) with false.
  assert (get_child (root_node st) [100; 101; 118] st = Ok (Some dv, st)) as ->.
  { unfold get_child. rewrite Hroot. ok_step. by rewrite Hrp, Hcache. }
  rewrite bind_Ok. rewrite (proj2 (Nat.eqb_neq (length n) 0)), (proj2 (Nat.leb_gt 256 (length n))) by lia.
  unfold get_child. rewrite Hdv. ok_step. cbn [v_pn v_children v_parent]. unfold pfs_get_child. rewrite Hpn. ok_step. unfold devfs_get_child.
  rewrite Hdm. change (try_get_value empty_map (fnv n)) with (@None Z).
  destruct (try_get_device_by_name d n) as [a|] eqn:Ea; [|by eexists].
  destruct (Hobj (fnv n) a) as [dev Hd]. { by rewrite <- try_get_value_spec. }
  cbn [new_pnode new_vnode]. rewrite bind_Ok. cbn [walk_path].
  eassert (add empty_map (fnv n) _ = Ok _) as -> by reflexivity. rewrite !bind_Ok. simpl.
  rewrite lookup_insert_ne, lookup_insert_eq by lia. ok_step. unfold pfs_open. simpl. rewrite lookup_insert_eq. ok_step. unfold devnode_open. simpl.
  rewrite Hdm, Hd. ok_step. by eexists.
Qed.

(** ** Witnesses *)

Definition sample_regs : list (cstr * Filesystem) :=
  [([114; 111; 111; 116; 102; 115; 0], RootFS); ([116; 109; 112; 102; 115; 0], TempFS); ([100; 101; 118; 102; 115; 0], DeviceFS)].

(** One device, "ab", of the class at address 1. *)
Definition sample_dm : DeviceManager :=
  MkDm (MkMap (MapNode BLACK Null (fnv [97; 98]) 7 Null) 1)
    (<[7 := MkDev [97; 98] 1 (Some 42)]> ∅) (<[1 := MkClass None [97] 0]> ∅).

Lemma single_entry (k v : Z) :
  wf (MkMap (MapNode BLACK Null k v Null) 1) ∧ map_of (MkMap (MapNode BLACK Null k v Null) 1) = {[k := v]}.
Proof.
  assert (Hm : map_of (MkMap (MapNode BLACK Null k v Null) 1) = {[k := v]}) by reflexivity. split; [|done]. split; [|split].
  - apply sorted_cons. split; [set_solver|apply Sorted.SSorted_nil].
  - exists 1%nat. by repeat econstructor.
  - rewrite Hm, map_size_singleton. reflexivity.
Qed.

Lemma sample_dm_ok : dm_ok sample_dm.
Proof.
  destruct (single_entry (fnv [97; 98]) 7) as [Hwf Hm]. split; [exact Hwf|].
  intros h a. cbn [sample_dm devices]. rewrite Hm. intros [_ <-]%lookup_singleton_Some. by eexists.
Qed.

Lemma literal_cstr cs : Forall (λ c, c ≠ 0) cs → is_cstr cs (cs ++ [0]).
Proof. split; [done|by exists []]. Qed.

Lemma sample_regs_ok : regs_ok sample_regs.
Proof.
  unfold regs_ok, sample_regs. constructor; [|constructor; [|constructor; [|constructor]]].
  - exists [114; 111; 111; 116; 102; 115]. split; [apply literal_cstr; by repeat constructor|simpl; lia].
  - exists [116; 109; 112; 102; 115]. split; [apply literal_cstr; by repeat constructor|simpl; lia].
  - exists [100; 101; 118; 102; 115]. split; [apply literal_cstr; by repeat constructor|simpl; lia].
Qed.

Lemma sample_path_ok cs :
  Forall (λ c, c ≠ 0) cs → forallb (λ c, (length c <? 256)%nat) (fields 47 (tail cs)) = true → path_ok (cs ++ [0]).
Proof.
  intros Hnz Hf. exists cs. split; [by apply literal_cstr|]. apply Forall_forall. intros c Hc.
  rewrite forallb_forall in Hf. apply Nat.ltb_lt, Hf. by apply list_elem_of_In.
Qed.

(** tmpfs on the root, /a, /a/b, and a listing of /a. *)
Definition sample_ops : list fs_op :=
  [FMount [47; 0] [116; 109; 112; 102; 115; 0]; FMkdir [47; 0] [97]; FMkdir [47; 97; 0] [98]; FOpendir [47; 97; 0]].

Lemma sample_ops_ok : Forall fs_op_ok sample_ops.
Proof.
  assert (path_ok [47; 0]) by (apply (sample_path_ok [47]); [by repeat constructor|reflexivity]).
  assert (path_ok [47; 97; 0]) by (apply (sample_path_ok [47; 97]); [by repeat constructor|reflexivity]).
  unfold sample_ops. repeat constructor; try done.
  exists [116; 109; 112; 102; 115]. split; [apply literal_cstr; by repeat constructor|simpl; lia].
Qed.


Definition sample_fs : vfs :=
  MkVfs (<[2 := MkV None (Some 1) empty_map]> ∅) (<[1 := TempFSNode [] empty_map]> ∅) sample_dm 2 sample_regs 3.

Lemma sample_fs_ok : vfs_ok sample_fs.
Proof.
  destruct (wf_empty (V := Z)) as [Hwe Hme].
  split; [apply sample_dm_ok|by eexists|..]; (apply map_Forall_insert_2; [|apply map_Forall_empty]).
  - split; [done|]. split_and!; [done|by intros h c; simpl; rewrite Hme, lookup_empty|]. intros p [= <-]. by eexists.
  - split; [done|]. split; [done|]. intros h c. by rewrite Hme, lookup_empty.
Qed.

Lemma vfs_lookup_correct_witness :
  lookup_node (replicate 256 0) [47; 47; 120; 0] sample_fs = path_spec [47; 47; 120] sample_fs ∧
  path_spec [47; 47; 120] sample_fs = Ok (Some 2, sample_fs).
Proof.
  split; [|reflexivity].
  apply (vfs_lookup_correct (replicate 256 0) [47; 47; 120] [47; 47; 120; 0] sample_fs); [|reflexivity].
  apply (literal_cstr [47; 47; 120]). by repeat constructor.
Defined.

Lemma vfs_mkdir_correct_witness :
  ∃ c st', mkdir 2 [97] sample_fs = Ok (Some c, st') ∧ vfs_ok st' ∧ get_child 2 [97] st' = Ok (Some c, st').
Proof.
  destruct (vfs_mkdir_correct sample_fs 2 (MkV None (Some 1) empty_map) 1 [] empty_map [97]
              sample_fs_ok eq_refl eq_refl eq_refl) as (c & st' & Hmk & Hok & _ & Hget & _).
  exists c, st'. split; [exact Hmk|]. split; [exact Hok|]. exact (Hget [97] eq_refl).
Defined.

(** The root directory with a subdirectory "a". *)
Definition sample_children : Map Z := MkMap (MapNode BLACK Null (fnv [97]) 3 Null) 1.
Definition sample_dir : vfs :=
  MkVfs (<[2 := MkV None (Some 1) empty_map]> ∅)
    (<[1 := TempFSNode [] sample_children]> (<[3 := TempFSNode [97] empty_map]> ∅)) sample_dm 2 sample_regs 4.

Lemma sample_dir_ok : vfs_ok sample_dir.
Proof.
  destruct (wf_empty (V := Z)) as [Hwe Hme]. destruct (single_entry (fnv [97]) 3) as [Hwf Hm].
  split; [apply sample_dm_ok|by eexists|..]; repeat (apply map_Forall_insert_2; [|try apply map_Forall_empty]).
  - split; [done|]. split_and!; [done|by intros h c; simpl; rewrite Hme, lookup_empty|]. intros p [= <-]. by eexists.
  - split; [done|]. split; [done|]. intros h c. unfold sample_children. rewrite Hm. intros [<- <-]%lookup_singleton_Some.
    by eexists _, _.
  - split; [done|]. split; [done|]. intros h c. by rewrite Hme, lookup_empty.
Qed.

Lemma directory_lists_children_witness :
  ∃ d es, pfs_opendir 1 sample_dir = Ok (Some d) ∧ read_all (S (size (map_of sample_children))) d = Ok es ∧
    (λ e, fnv (fst e)) <$> es ≡ₚ (map_to_list (map_of sample_children)).*1.
Proof. exact (directory_lists_children sample_dir 1 [] sample_children sample_dir_ok eq_refl eq_refl). Defined.

Lemma dev_path_opens_device_witness :
  ∃ usr st st', start_filesystems (replicate 256 0) sample_regs sample_dm 1 = Ok (usr, st) ∧
    vfs_open (replicate 256 0) [47; 100; 101; 118; 47; 97; 98; 0] st = Ok (Some 42, st').
Proof.
  exact (dev_path_opens_device (replicate 256 0) sample_regs sample_dm [97; 98] sample_dm_ok eq_refl eq_refl eq_refl eq_refl
           ltac:(by repeat constructor) ltac:(simpl; lia)).
Defined.
