(* ===== verification/Console.v ===== *)
(** * Keyboard, consoles and terminals

    The keyboard (drivers/input/keyboard.cpp), the virtual consoles
    (drivers/console/virtual-console.cpp), the physical console and its VGA
    display (drivers/console/physical-console.cpp, drivers/video/vga-console.cpp)
    and the terminals with their ring buffers (drivers/terminal/terminal.cpp).

    A scan code goes from the keyboard to the physical console, from there to the
    current virtual console and as a character to its terminal; what a program
    writes to the terminal goes to the screen buffer of the virtual console.
    Objects are named by their address; the screen buffers are shared memory,
    since the display lends its video memory to the current console. *)

From S2P Require Import Prelude.
Local Open Scope Z_scope.

(** ** Keys *)

Inductive Keys :=
| NO_KEY | UNKNOWN_KEY | KEY_ESCAPE | KEY_A | KEY_B | KEY_C | KEY_D | KEY_E | KEY_F | KEY_G
| KEY_H | KEY_I | KEY_J | KEY_K | KEY_L | KEY_M | KEY_N | KEY_O | KEY_P | KEY_Q | KEY_R | KEY_S
| KEY_T | KEY_U | KEY_V | KEY_W | KEY_X | KEY_Y | KEY_Z | KEY_1 | KEY_2 | KEY_3 | KEY_4 | KEY_5
| KEY_6 | KEY_7 | KEY_8 | KEY_9 | KEY_0 | KEY_F1 | KEY_F2 | KEY_F3 | KEY_F4 | KEY_F5 | KEY_F6
| KEY_F7 | KEY_F8 | KEY_F9 | KEY_F10 | KEY_F11 | KEY_F12 | KEY_ASTERISK | KEY_LSQBRACKET
| KEY_RSQBRACKET | KEY_DOT | KEY_COMMA | KEY_SEMICOLON | KEY_APOSTROPHE | KEY_HASH | KEY_BACKSLASH
| KEY_FORSLASH | KEY_BACKTICK | KEY_HYPHEN | KEY_EQUALS | KEY_TAB | KEY_RETURN | KEY_SPACE
| KEY_BACKSPACE | KEY_CAPSLOCK | KEY_LSHIFT | KEY_RSHIFT | KEY_LCTRL | KEY_RCTRL | KEY_LALT | KEY_RALT.

#[export] Instance Keys_eq_dec : EqDecision Keys.
Proof. solve_decision. Defined.

Definition scancode_map : list Keys :=
  [NO_KEY; KEY_ESCAPE; KEY_1; KEY_2; KEY_3; KEY_4; KEY_5; KEY_6; KEY_7; KEY_8; KEY_9; KEY_0; KEY_HYPHEN;
   KEY_EQUALS; KEY_BACKSPACE; KEY_TAB; KEY_Q; KEY_W; KEY_E; KEY_R; KEY_T; KEY_Y; KEY_U; KEY_I; KEY_O; KEY_P;
   KEY_LSQBRACKET; KEY_RSQBRACKET; KEY_RETURN; KEY_LCTRL; KEY_A; KEY_S; KEY_D; KEY_F; KEY_G; KEY_H; KEY_J;
   KEY_K; KEY_L; KEY_SEMICOLON; KEY_APOSTROPHE; KEY_BACKTICK; KEY_LSHIFT; KEY_BACKSLASH; KEY_Z; KEY_X; KEY_C;
   KEY_V; KEY_B; KEY_N; KEY_M; KEY_COMMA; KEY_DOT; KEY_FORSLASH; KEY_RSHIFT; KEY_ASTERISK; KEY_LALT;
   KEY_SPACE; KEY_CAPSLOCK; KEY_F1; KEY_F2; KEY_F3; KEY_F4; KEY_F5; KEY_F6; KEY_F7; KEY_F8; KEY_F9; KEY_F10].

(** [scancode_to_key]; the bound of the check is one too high. *)
Definition scancode_to_key (scancode : Z) : result Keys :=
  let key_scancode := Z.land (u8 scancode) (Z.lnot 128) in
  if key_scancode >? Z.of_nat (length scancode_map) then Ok UNKNOWN_KEY else rd scancode_map key_scancode.

(** ** Terminals *)

(** [rb_waiters] are the threads that wait for [_read_buffer_event]. *)
Record Terminal := MkTerm {
  read_buffer : list Z; rb_head : Z; rb_tail : Z; rb_waiters : list Z;
  attached_virt_console : option Z; attached_phys_console : option Z }.

Definition new_terminal (junk : list Z) : Terminal := MkTerm junk 0 0 [] None None.

(** [append_to_read_buffer]; [trigger] wakes all the waiting threads. *)
Definition append_to_read_buffer (t : Terminal) (c : Z) : result Terminal :=
  b ← wr (read_buffer t) (rb_tail t) (u8 c);
  Ok (MkTerm b (rb_head t) (u8 (rb_tail t + 1) mod 64) [] (attached_virt_console t) (attached_phys_console t)).

(** One turn of the loop of [read]: the byte it stores, or nothing when the
    thread has to wait. *)
Definition read_turn (thread : Z) (t : Terminal) : result (option Z * Terminal) :=
  if rb_head t =? rb_tail t then
    Ok (None, MkTerm (read_buffer t) (rb_head t) (rb_tail t) (rb_waiters t ++ [thread])
                (attached_virt_console t) (attached_phys_console t))
  else
    elem ← rd (read_buffer t) (rb_head t);
    Ok (Some elem, MkTerm (read_buffer t) (u8 (rb_head t + 1) mod 64) (rb_tail t) (rb_waiters t)
                     (attached_virt_console t) (attached_phys_console t)).

(** [Terminal::read] of [size] bytes up to the point where it waits. *)
Fixpoint terminal_read (thread : Z) (size : nat) (t : Terminal) : result (list Z * Terminal) :=
  match size with
  | O => Ok ([], t)
  | S size' =>
      '(elem, t) ← read_turn thread t;
      match elem with
      | None => Ok ([], t)
      | Some elem => '(rest, t) ← terminal_read thread size' t; Ok (elem :: rest, t)
      end
  end.

(** ** Virtual consoles *)

Abbreviation width := 80 (only parsing).
Abbreviation height := 25 (only parsing).

(** [vc_terminal] has no value before [attach_terminal]. *)
Record VirtualConsole := MkVc {
  current_mod_mask : Z; current_pos : Z; vc_terminal : option Z; vc_buffer : option Z; vc_ucb : bool }.

Definition Shift : Z := 2.

(** The characters of a key, with and without shift. *)
Definition key_mapping (k : Keys) : option (Z * Z) :=
  match k with
  | KEY_A => Some (65, 97) | KEY_B => Some (66, 98) | KEY_C => Some (67, 99) | KEY_D => Some (68, 100)
  | KEY_E => Some (69, 101) | KEY_F => Some (70, 102) | KEY_G => Some (71, 103) | KEY_H => Some (72, 104)
  | KEY_I => Some (73, 105) | KEY_J => Some (74, 106) | KEY_K => Some (75, 107) | KEY_L => Some (76, 108)
  | KEY_M => Some (77, 109) | KEY_N => Some (78, 110) | KEY_O => Some (79, 111) | KEY_P => Some (80, 112)
  | KEY_Q => Some (81, 113) | KEY_R => Some (82, 114) | KEY_S => Some (83, 115) | KEY_T => Some (84, 116)
  | KEY_U => Some (85, 117) | KEY_V => Some (86, 118) | KEY_W => Some (87, 119) | KEY_X => Some (88, 120)
  | KEY_Y => Some (89, 121) | KEY_Z => Some (90, 122) | KEY_0 => Some (41, 48) | KEY_1 => Some (33, 49)
  | KEY_2 => Some (34, 50) | KEY_3 => Some (35, 51) | KEY_4 => Some (36, 52) | KEY_5 => Some (37, 53)
  | KEY_6 => Some (94, 54) | KEY_7 => Some (38, 55) | KEY_8 => Some (42, 56) | KEY_9 => Some (40, 57)
  | KEY_HYPHEN => Some (95, 45) | KEY_EQUALS => Some (43, 61) | KEY_BACKSLASH => Some (124, 92)
  | KEY_FORSLASH => Some (63, 47) | KEY_DOT => Some (62, 46)
  | _ => None
  end.

(** The buffer [scroll_one_line] leaves: [memcpy] goes upwards. *)
Definition scroll_one_line (b : list Z) : result (list Z) :=
  b ← for_range 0 (width * (height - 1)) (λ i b, c ← rd b (i + width); wr b i c) b;
  for_range 0 width (λ x b, wr b (x + width * (height - 1)) 0x0700) b.

(** The state of the loop of [VirtualConsole::write]. *)
Record wstate := MkW { w_attr : Z; w_state : Z; w_pos : Z; w_buf : list Z }.

(** The end of a turn: the cursor stays on the screen. *)
Definition settle (w : wstate) : result wstate :=
  if w_pos w >=? width * height then
    b ← scroll_one_line (w_buf w); Ok (MkW (w_attr w) (w_state w) (width * (height - 1)) b)
  else Ok w.

(** One turn, with a byte that is read as a signed char. *)
Definition write_char (byte : Z) (w : wstate) : result wstate :=
  let c := s8 byte in
  if w_state w =? 1 then Ok (MkW (Z.shiftl c 8) 0 (w_pos w) (w_buf w))
  else if w_state w =? 0 then
    w ← (if c =? 10 then Ok (MkW (w_attr w) 0 (u16 (w_pos w + (width - w_pos w mod width))) (w_buf w))
         else if c =? 13 then Ok (MkW (w_attr w) 0 (u16 (w_pos w - w_pos w mod width)) (w_buf w))
         else if c =? 27 then Ok (MkW (w_attr w) 1 (w_pos w) (w_buf w))
         else if c =? 8 then
           let pos := u16 (w_pos w - 1) in
           b ← wr (w_buf w) pos (u16 (Z.lor (w_attr w) 32)); Ok (MkW (w_attr w) 0 pos b)
         else
           b ← wr (w_buf w) (w_pos w) (u16 (Z.lor (w_attr w) c));
           Ok (MkW (w_attr w) 0 (u16 (w_pos w + 1)) b));
    settle w
  else Ok w.

(** The loop over the characters; the counter of the loop is 32 bits wide and
    never reaches a size of 2^32 or more. *)
Definition write_chars (bytes : list Z) (w : wstate) : result wstate :=
  if Z.of_nat (length bytes) <? 2 ^ 32 then for_each bytes write_char w else Err Hang.

(** ** The consoles together *)

(** The physical console with the fields of its VGA display. *)
Record PhysicalConsole := MkPc {
  pc_vcs : list Z; current_vc : option Z; alt_pressed : bool;
  video_ram_address : Z; backup_buffer : option Z; old_vc : option Z }.

(** [buffers] are the screen buffers by address, [cursor] what the registers of
    the display controller hold, [kbd_sink] whether the keyboard is attached to
    the physical console. *)
Record consoles := MkCon {
  buffers : gmap Z (list Z); vcs : gmap Z VirtualConsole; terminals : gmap Z Terminal;
  pc : PhysicalConsole; cursor : Z; kbd_sink : bool }.

Definition put_vc (a : Z) (v : VirtualConsole) (st : consoles) : consoles :=
  MkCon (buffers st) (<[a := v]> (vcs st)) (terminals st) (pc st) (cursor st) (kbd_sink st).
Definition put_term (a : Z) (t : Terminal) (st : consoles) : consoles :=
  MkCon (buffers st) (vcs st) (<[a := t]> (terminals st)) (pc st) (cursor st) (kbd_sink st).
Definition put_buffer (a : Z) (b : list Z) (st : consoles) : consoles :=
  MkCon (<[a := b]> (buffers st)) (vcs st) (terminals st) (pc st) (cursor st) (kbd_sink st).
Definition put_pc (p : PhysicalConsole) (st : consoles) : consoles :=
  MkCon (buffers st) (vcs st) (terminals st) p (cursor st) (kbd_sink st).
Definition put_cursor (c : Z) (st : consoles) : consoles :=
  MkCon (buffers st) (vcs st) (terminals st) (pc st) c (kbd_sink st).

(** [VirtualConsole::VirtualConsole], with the address of the new buffer. *)
Definition new_vc (a buf : Z) (st : consoles) : consoles :=
  put_vc a (MkVc 0 0 None (Some buf) false) (put_buffer buf (replicate 2000 0x0700) st).

(** [attach_terminal], which calls [attach_output]. *)
Definition attach_terminal (a t : Z) (st : consoles) : result consoles :=
  v ← get NullDeref (vcs st !! a);
  tm ← get NullDeref (terminals st !! t);
  Ok (put_term t (MkTerm (read_buffer tm) (rb_head tm) (rb_tail tm) (rb_waiters tm) (Some a) (attached_phys_console tm))
        (put_vc a (MkVc (current_mod_mask v) (current_pos v) (Some t) (vc_buffer v) (vc_ucb v)) st)).

Definition set_mod_mask (v : VirtualConsole) (m : Z) : VirtualConsole :=
  MkVc m (current_pos v) (vc_terminal v) (vc_buffer v) (vc_ucb v).
Definition set_buffer (v : VirtualConsole) (b : option Z) (ucb : bool) : VirtualConsole :=
  MkVc (current_mod_mask v) (current_pos v) (vc_terminal v) b ucb.

Definition vc_key_up (a : Z) (key : Keys) (st : consoles) : result consoles :=
  v ← get NullDeref (vcs st !! a);
  match key with
  | KEY_LSHIFT | KEY_RSHIFT =>
      Ok (put_vc a (set_mod_mask v (Z.land (current_mod_mask v) (u32 (Z.lnot Shift)))) st)
  | _ => Ok st
  end.

(** The character [key_down] appends. *)
Definition key_char (mask : Z) (key : Keys) : option Z :=
  match key_mapping key with
  | Some (upper, lower) => Some (if negb (Z.land mask Shift =? 0) then upper else lower)
  | None =>
      match key with KEY_SPACE => Some 32 | KEY_RETURN => Some 10 | KEY_BACKSPACE => Some 8 | _ => None end
  end.

Definition vc_key_down (a : Z) (key : Keys) (st : consoles) : result consoles :=
  v ← get NullDeref (vcs st !! a);
  match key_char (current_mod_mask v) key with
  | Some ch =>
      t ← get Uninitialised (vc_terminal v);
      tm ← get NullDeref (terminals st !! t);
      tm ← append_to_read_buffer tm ch;
      Ok (put_term t tm st)
  | None =>
      match key with
      | KEY_LSHIFT | KEY_RSHIFT => Ok (put_vc a (set_mod_mask v (Z.lor (current_mod_mask v) Shift)) st)
      | _ => Ok st
      end
  end.

(** [VCUpdateCallback]: the two halves of the position through the index
    registers 15 and 14. *)
Definition VCUpdateCallback (v : VirtualConsole) (st : consoles) : consoles :=
  put_cursor (u8 (current_pos v) + 256 * u8 (Z.shiftr (current_pos v) 8)) st.

(** [VirtualConsole::write]. *)
Definition vc_write (a : Z) (bytes : list Z) (st : consoles) : result (Z * consoles) :=
  v ← get NullDeref (vcs st !! a);
  match vc_buffer v with
  | None => Ok (0, st)
  | Some p =>
      b ← get NullDeref (buffers st !! p);
      w ← write_chars bytes (MkW 0x0700 0 (current_pos v) b);
      let v := MkVc (current_mod_mask v) (w_pos w) (vc_terminal v) (vc_buffer v) (vc_ucb v) in
      let st := put_vc a v (put_buffer p (w_buf w) st) in
      Ok (s32 (Z.of_nat (length bytes)), if vc_ucb v then VCUpdateCallback v st else st)
  end.

(** [VirtualConsoleFile::pwrite] of the two bytes of [cell]; the offset is not
    checked. *)
Definition vc_pwrite (a : Z) (size cell offset : Z) (st : consoles) : result (Z * consoles) :=
  if negb (size =? 2) then Ok (0, st) else
  v ← get NullDeref (vcs st !! a);
  p ← get NullDeref (vc_buffer v);
  b ← get NullDeref (buffers st !! p);
  b ← wr b offset cell;
  Ok (2, put_buffer p b st).

(** [Terminal::write]. *)
Definition terminal_write (t : Z) (bytes : list Z) (st : consoles) : result (Z * consoles) :=
  tm ← get NullDeref (terminals st !! t);
  match attached_virt_console tm with None => Ok (0, st) | Some a => vc_write a bytes st end.

(** [memcpy] of a whole screen. *)
Definition copy_screen (dst src : Z) (st : consoles) : result consoles :=
  s ← get NullDeref (buffers st !! src);
  d ← get NullDeref (buffers st !! dst);
  d ← for_range 0 (width * height) (λ i d, c ← rd s i; wr d i c) d;
  Ok (put_buffer dst d st).

(** [VGAConsoleDevice::virtual_console_changed]: the old console gets its buffer
    back with the screen, the new one gets the video memory. *)
Definition release_old (st : consoles) : result consoles :=
  match old_vc (pc st) with
  | None => Ok st
  | Some o =>
      v ← get NullDeref (vcs st !! o);
      let v := set_buffer v (backup_buffer (pc st)) false in
      dst ← get NullDeref (vc_buffer v);
      copy_screen dst (video_ram_address (pc st)) (put_vc o v st)
  end.

Definition take_display (st : consoles) : result consoles :=
  c ← get NullDeref (current_vc (pc st));
  v ← get NullDeref (vcs st !! c);
  let backup := vc_buffer v in
  let v := set_buffer v (Some (video_ram_address (pc st))) true in
  let st := put_vc c v st in
  st ← match backup with None => Ok st | Some src => copy_screen (video_ram_address (pc st)) src st end;
  let p := pc st in
  let st := put_pc (MkPc (pc_vcs p) (current_vc p) (alt_pressed p) (video_ram_address p) backup (Some c)) st in
  v ← get NullDeref (vcs st !! c);
  Ok (VCUpdateCallback v st).

Definition virtual_console_changed (st : consoles) : result consoles :=
  st ← release_old st; take_display st.

Definition set_current_vc (a : Z) (st : consoles) : result consoles :=
  let p := pc st in
  virtual_console_changed
    (put_pc (MkPc (pc_vcs p) (Some a) (alt_pressed p) (video_ram_address p) (backup_buffer p) (old_vc p)) st).

Definition add_virtual_console (a : Z) (st : consoles) : result consoles :=
  let p := pc st in
  let st := put_pc (MkPc (pc_vcs p ++ [a]) (current_vc p) (alt_pressed p) (video_ram_address p)
                      (backup_buffer p) (old_vc p)) st in
  if Z.of_nat (length (pc_vcs (pc st))) =? 1 then set_current_vc a st else Ok st.

Definition set_alt (b : bool) (st : consoles) : consoles :=
  let p := pc st in
  put_pc (MkPc (pc_vcs p) (current_vc p) b (video_ram_address p) (backup_buffer p) (old_vc p)) st.

Definition pc_key_up (key : Keys) (st : consoles) : result consoles :=
  let st := match key with KEY_LALT | KEY_RALT => set_alt false st | _ => st end in
  match current_vc (pc st) with None => Ok st | Some a => vc_key_up a key st end.

(** [_vcs.at] asserts that the index is in range. *)
Definition pc_key_down (key : Keys) (st : consoles) : result consoles :=
  let forward st := match current_vc (pc st) with None => Ok st | Some a => vc_key_down a key st end in
  match key with
  | KEY_F1 =>
      if alt_pressed (pc st) then a ← get AssertFailed (pc_vcs (pc st) !! 0%nat); set_current_vc a st
      else forward st
  | KEY_F2 =>
      if alt_pressed (pc st) then a ← get AssertFailed (pc_vcs (pc st) !! 1%nat); set_current_vc a st
      else forward st
  | KEY_LALT | KEY_RALT => forward (set_alt true st)
  | _ => forward st
  end.

(** [Keyboard::handle_key_event]. *)
Definition handle_key_event (scancode : Z) (st : consoles) : result consoles :=
  if negb (kbd_sink st) then Ok st else
  key ← scancode_to_key scancode;
  if negb (Z.land scancode 128 =? 0) then pc_key_up key st else pc_key_down key st.

(** [activate_console], with the devices its lookups find. *)
Definition activate_console (vc0 vc1 tty0 tty1 : Z) (st : consoles) : result consoles :=
  st ← attach_terminal vc0 tty0 st;
  st ← attach_terminal vc1 tty1 st;
  let st := MkCon (buffers st) (vcs st) (terminals st) (pc st) (cursor st) true in
  st ← add_virtual_console vc0 st;
  add_virtual_console vc1 st.

(** ** The read buffer of a terminal as a queue *)

Definition term_ok (t : Terminal) : Prop :=
  length (read_buffer t) = 64%nat ∧ 0 ≤ rb_head t < 64 ∧ 0 ≤ rb_tail t < 64.

(** The bytes between head and tail, in order. *)
Definition pending (t : Terminal) : list Z :=
  (λ i, read_buffer t !!! Z.to_nat ((rb_head t + i) mod 64)) <$> seqZ 0 ((rb_tail t - rb_head t) mod 64).

Lemma length_pending t : Z.of_nat (length (pending t)) = (rb_tail t - rb_head t) mod 64.
Proof. unfold pending. rewrite length_fmap, length_seqZ. pose proof (Z.mod_pos_bound (rb_tail t - rb_head t) 64). lia. Qed.

(** Positions of the ring, counted from the head. *)
Lemma ring_pos h n i : 0 ≤ i < n → n < 64 → (h + i) mod 64 ≠ (h + n) mod 64.
Proof. intros. pose proof (Z.div_mod (h + i) 64). pose proof (Z.div_mod (h + n) 64). nia. Qed.

Lemma append_byte_spec t c :
  term_ok t → ∃ t', append_to_read_buffer t c = Ok t' ∧ term_ok t' ∧ rb_waiters t' = [] ∧
    attached_virt_console t' = attached_virt_console t ∧
    pending t' = if decide (length (pending t) = 63%nat) then [] else pending t ++ [u8 c].
Proof.
  intros (Hl & Hh & Ht). unfold append_to_read_buffer. set (n := (rb_tail t - rb_head t) mod 64).
  assert (Hn : 0 ≤ n < 64) by (by apply Z.mod_pos_bound).
  assert (Htn : (rb_head t + n) mod 64 = rb_tail t).
  { unfold n. rewrite Zplus_mod_idemp_r. replace (rb_head t + (rb_tail t - rb_head t)) with (rb_tail t) by lia. by apply Z.mod_small. }
  rewrite wr_total, bind_Ok by lia. eexists. split; [done|].
  assert (Htail : 0 ≤ u8 (rb_tail t + 1) mod 64 < 64) by (by apply Z.mod_pos_bound).
  split; [unfold term_ok; simpl; by rewrite length_insert|]. split; [done|]. split; [done|].
  assert (Hu : u8 (rb_tail t + 1) = rb_tail t + 1) by (apply wrap_small; unfold fits; lia).
  assert (Hn' : (u8 (rb_tail t + 1) mod 64 - rb_head t) mod 64 = if decide (n = 63) then 0 else n + 1).
  { rewrite Hu, Zminus_mod_idemp_l. replace (rb_tail t + 1 - rb_head t) with ((rb_tail t - rb_head t) + 1) by lia.
    rewrite <- Zplus_mod_idemp_l. fold n. destruct (decide (n = 63)) as [->|]; [done|]. apply Z.mod_small. lia. }
  assert (Hlen : length (pending t) = Z.to_nat n) by (pose proof (length_pending t); lia).
  unfold pending at 1. cbn [rb_tail rb_head read_buffer]. rewrite Hn'.
  destruct (decide (n = 63)) as [E|Hne]; [rewrite decide_True by lia; done|rewrite decide_False by lia].
  rewrite seqZ_app by lia. rewrite fmap_app. rewrite (seqZ_cons (0 + n)) by lia. f_equal.
  - apply list_fmap_ext. intros k i Hi%lookup_seqZ. apply list_lookup_total_insert_ne.
    intros E. pose proof (ring_pos (rb_head t) n i ltac:(lia) ltac:(lia)) as Hr. rewrite Htn in Hr. 
    pose proof (Z.mod_pos_bound (rb_head t + i) 64 ltac:(lia)). lia.
  - rewrite fmap_cons. replace (Z.pred 1) with 0 by lia. rewrite Z.add_0_l, Htn. cbn [seqZ]. f_equal. apply list_lookup_total_insert_eq. lia.
Qed.

Lemma read_turn_spec thread t :
  term_ok t → ∃ t', read_turn thread t = Ok (head (pending t), t') ∧ term_ok t' ∧ pending t' = tail (pending t) ∧
    read_buffer t' = read_buffer t ∧ attached_virt_console t' = attached_virt_console t.
Proof.
  intros (Hl & Hh & Ht). unfold read_turn. destruct (Z.eqb_spec (rb_head t) (rb_tail t)) as [E|Hne].
  - assert (pending t = []) as -> by (unfold pending; rewrite E, Z.sub_diag; done).
    eexists. split; [done|]. split_and!; try done. unfold pending. simpl. by rewrite E, Z.sub_diag.
  - set (n := (rb_tail t - rb_head t) mod 64).
    assert (Hn : 0 < n < 64).
    { pose proof (Z.mod_pos_bound (rb_tail t - rb_head t) 64 ltac:(lia)). fold n in H.
      assert (n ≠ 0); [|lia]. intros E%Z.mod_divide; [|lia]. destruct E as [k Hk]. lia. }
    assert (Hp : pending t = (read_buffer t !!! Z.to_nat (rb_head t)) ::
      ((λ i, read_buffer t !!! Z.to_nat ((rb_head t + i) mod 64)) <$> seqZ 1 (n - 1))).
    { unfold pending. fold n. rewrite seqZ_cons by lia. rewrite fmap_cons, Z.add_0_r, Z.mod_small by lia.
      by replace (Z.succ 0) with 1 by lia. }
    destruct (rd_total (read_buffer t) (rb_head t)) as (x & -> & Hx); [lia|]. rewrite bind_Ok.
    assert (Hu : u8 (rb_head t + 1) = rb_head t + 1) by (apply wrap_small; unfold fits; lia).
    rewrite Hp, (list_lookup_total_correct _ _ _ Hx). eexists. split; [done|].
    split; [|split; [|done]]. { pose proof (Z.mod_pos_bound (u8 (rb_head t + 1)) 64 ltac:(lia)). done. }
    cbn [tail]. unfold pending. cbn [rb_tail rb_head read_buffer]. rewrite Hu.
    assert ((rb_tail t - (rb_head t + 1) mod 64) mod 64 = n - 1) as ->.
    { rewrite Zminus_mod_idemp_r. replace (rb_tail t - (rb_head t + 1)) with ((rb_tail t - rb_head t) - 1) by lia.
      rewrite <- Zminus_mod_idemp_l. fold n. apply Z.mod_small. lia. }
    rewrite <- (fmap_add_seqZ 1 0), <- list_fmap_compose. apply list_fmap_ext. intros k i _. cbn.
    rewrite Zplus_mod_idemp_l. do 3 f_equal. lia.
Qed.

(** A history of a terminal: bytes that arrive and turns of a reader. *)
Inductive term_op := TAppend (c : Z) | TRead (thread : Z).

Fixpoint run_terminal (ops : list term_op) (t : Terminal) : result (list Z * Terminal) :=
  match ops with
  | [] => Ok ([], t)
  | TAppend c :: ops' => t ← append_to_read_buffer t c; run_terminal ops' t
  | TRead thread :: ops' =>
      '(x, t) ← read_turn thread t;
      '(out, t) ← run_terminal ops' t;
      Ok (option_list x ++ out, t)
  end.

(** The queue it stands for, which holds 63 bytes: one more empties it. *)
Fixpoint run_queue (ops : list term_op) (q : list Z) : list Z * list Z :=
  match ops with
  | [] => ([], q)
  | TAppend c :: ops' => run_queue ops' (if decide (length q = 63%nat) then [] else q ++ [u8 c])
  | TRead _ :: ops' => let '(out, q') := run_queue ops' (tail q) in (option_list (head q) ++ out, q')
  end.

(** The ring buffer of a terminal is a queue.  In every interleaving of
    arriving bytes and turns of readers, the bytes read are the bytes that
    arrived, in order, as long as at most 63 of them wait; a byte that arrives
    when 63 wait makes the buffer look empty, and all 64 are lost. *)
Theorem terminal_is_queue ops t :
  term_ok t →
  ∃ t', run_terminal ops t = Ok (fst (run_queue ops (pending t)), t') ∧ term_ok t' ∧
    pending t' = snd (run_queue ops (pending t)).
Proof.
  revert t. induction ops as [|[c|thread] ops IH]; intros t Hok; cbn [run_terminal run_queue].
  - by exists t.
  - destruct (append_byte_spec t c Hok) as (t1 & -> & Hok1 & _ & _ & Hp). rewrite bind_Ok, <- Hp. by apply IH.
  - destruct (read_turn_spec thread t Hok) as (t1 & -> & Hok1 & Hp & _). rewrite bind_Ok.
    destruct (IH t1 Hok1) as (t2 & -> & Hok2 & Hp2). rewrite bind_Ok, Hp.
    destruct (run_queue ops (tail (pending t))) as [out q] eqn:E. rewrite Hp, E in Hp2. by exists t2.
Qed.

(** ** The screen *)

(** Lines of cells and the place of the cursor. *)
Record screen := MkScreen { rows : list (list Z); row : nat; col : nat }.

(** What [write] keeps: the attribute byte, whether an escape was read, the screen. *)
Record display := MkDisplay { attribute : Z; escaped : bool; scr : screen }.

Definition blank : Z := 0x0700.

(** The cell of a byte: its attribute and the byte; a byte of 128 or more is
    sign-extended and overwrites the attribute. *)
Definition cell (attr byte : Z) : Z := if byte <? 128 then attr * 256 + byte else 0xff00 + byte.

Definition new_line (s : screen) : screen :=
  if decide (S (row s) < 25)%nat then MkScreen (rows s) (S (row s)) 0
  else MkScreen (tail (rows s) ++ [replicate 80 blank]) 24 0.

Definition set_cell (s : screen) (x : Z) : list (list Z) := alter (λ r, <[col s := x]> r) (row s) (rows s).

Definition put_char (s : screen) (x : Z) : screen :=
  let s' := MkScreen (set_cell s x) (row s) (col s) in
  if decide (S (col s) < 80)%nat then MkScreen (rows s') (row s) (S (col s)) else new_line s'.

(** The place before the cursor, if there is one. *)
Definition back (s : screen) : option screen :=
  match col s, row s with
  | S c, r => Some (MkScreen (rows s) r c)
  | O, S r => Some (MkScreen (rows s) r 79)
  | O, O => None
  end.

Definition show_byte (byte : Z) (d : display) : option display :=
  if escaped d then Some (MkDisplay byte false (scr d))
  else if byte =? 10 then Some (MkDisplay (attribute d) false (new_line (scr d)))
  else if byte =? 13 then Some (MkDisplay (attribute d) false (MkScreen (rows (scr d)) (row (scr d)) 0))
  else if byte =? 27 then Some (MkDisplay (attribute d) true (scr d))
  else if byte =? 8 then
    s ← back (scr d); Some (MkDisplay (attribute d) false (MkScreen (set_cell s (cell (attribute d) 32)) (row s) (col s)))
  else Some (MkDisplay (attribute d) false (put_char (scr d) (cell (attribute d) byte))).

Fixpoint show (bytes : list Z) (d : display) : option display :=
  match bytes with [] => Some d | b :: bytes' => d ← show_byte b d; show bytes' d end.

Definition screen_ok (s : screen) : Prop :=
  length (rows s) = 25%nat ∧ Forall (λ r, length r = 80%nat) (rows s) ∧ (row s < 25)%nat ∧ (col s < 80)%nat.

(** The display that the state of the loop stands for. *)
Record shows (w : wstate) (d : display) : Prop := {
  sh_ok : screen_ok (scr d);
  sh_attr : fits 8 (attribute d) ∧ w_attr w = Z.shiftl (s8 (attribute d)) 8;
  sh_state : w_state w = if escaped d then 1 else 0;
  sh_pos : w_pos w = Z.of_nat (80 * row (scr d) + col (scr d));
  sh_buf : w_buf w = concat (rows (scr d)) }.

Lemma length_concat_rows {A} (l : list (list A)) n : Forall (λ r, length r = n) l → length (concat l) = (length l * n)%nat.
Proof. induction 1 as [|r l Hr Hl IH]; [done|]. simpl. rewrite length_app. lia. Qed.

Lemma concat_set {A} (l : list (list A)) n i j (x : A) :
  Forall (λ r, length r = n) l → (i < length l)%nat → (j < n)%nat →
  <[(n * i + j)%nat := x]> (concat l) = concat (alter (λ r, <[j := x]> r) i l).
Proof.
  intros Hl. revert i. induction Hl as [|r l Hr Hl IH]; intros i Hi Hj; simpl in Hi; [lia|].
  destruct i as [|i]; simpl.
  - rewrite Nat.mul_0_r, Nat.add_0_l, insert_app_l by lia. done.
  - replace (n * S i + j)%nat with (length r + (n * i + j))%nat by lia. rewrite insert_app_r. f_equal. apply IH; lia.
Qed.

(** The cell arithmetic of [write], on all bytes. *)
Lemma cell_table : forallb (λ a, forallb (λ b, u16 (Z.lor (Z.shiftl (s8 a) 8) (s8 b)) =? cell a b) (seqZ 0 256)) (seqZ 0 256) = true.
Proof. vm_compute. reflexivity. Qed.

Lemma cell_spec a b : fits 8 a → fits 8 b → u16 (Z.lor (Z.shiftl (s8 a) 8) (s8 b)) = cell a b.
Proof.
  intros Ha Hb. pose proof cell_table as T. rewrite forallb_forall in T.
  specialize (T a). rewrite forallb_forall in T. apply Z.eqb_eq, T; apply list_elem_of_In, elem_of_seqZ; unfold fits in *; lia.
Qed.

(** [memcpy] towards lower addresses moves the cells. *)
Lemma shift_down (b : list Z) (n off : nat) :
  (n + off ≤ length b)%nat →
  for_range 0 (Z.of_nat n) (λ i b, c ← rd b (i + Z.of_nat off); wr b i c) b = Ok (take n (drop off b) ++ drop n b).
Proof.
  intros Hl.
  destruct (for_range_total (λ i b', b' = take (Z.to_nat i) (drop off b) ++ drop (Z.to_nat i) b)
    0 (Z.of_nat n) (λ i b, c ← rd b (i + Z.of_nat off); wr b i c) b) as (b' & -> & ->); [lia|done| |by rewrite Nat2Z.id].
  intros i b' Hi ->. set (k := Z.to_nat i).
  assert (Hk : length (take k (drop off b)) = k) by (rewrite length_take, length_drop; lia).
  destruct (lookup_lt_is_Some_2 b (k + off)) as [x Hx]; [lia|].
  rewrite (rd_Ok _ _ x); [|lia|].
  2:{ replace (Z.to_nat (i + Z.of_nat off)) with (k + off)%nat by lia. rewrite lookup_app_r by lia.
      rewrite Hk, lookup_drop. by replace (k + (k + off - k))%nat with (k + off)%nat by lia. }
  rewrite bind_Ok, wr_total by (rewrite length_app, Hk, length_drop; lia). eexists. split; [done|].
  fold k. rewrite insert_app_r_alt by lia. rewrite Hk, Nat.sub_diag.
  replace (Z.to_nat (i + 1)) with (S k) by lia.
  destruct (lookup_lt_is_Some_2 b k) as [y Hy]; [lia|]. rewrite (drop_S b y k Hy). cbn [insert list_insert].
  erewrite take_S_r; [|rewrite lookup_drop, Nat.add_comm; exact Hx]. by rewrite <- app_assoc.
Qed.

Lemma fill_spec (pre b : list Z) (n : nat) (x : Z) :
  length b = n →
  for_range 0 (Z.of_nat n) (λ i b, wr b (i + Z.of_nat (length pre)) x) (pre ++ b) = Ok (pre ++ replicate n x).
Proof.
  intros Hl.
  destruct (for_range_total (λ i b', b' = pre ++ replicate (Z.to_nat i) x ++ drop (Z.to_nat i) b)
    0 (Z.of_nat n) (λ i b, wr b (i + Z.of_nat (length pre)) x) (pre ++ b)) as (b' & -> & ->); [lia|done| |].
  - intros i b' Hi ->. rewrite wr_total by (rewrite !length_app, length_replicate, length_drop; lia).
    eexists. split; [done|]. set (k := Z.to_nat i).
    replace (Z.to_nat (i + Z.of_nat (length pre))) with (length pre + k)%nat by lia.
    replace (Z.to_nat (i + 1)) with (S k) by lia.
    rewrite insert_app_r, insert_app_r_alt by (rewrite length_replicate; lia). rewrite length_replicate, Nat.sub_diag.
    destruct (lookup_lt_is_Some_2 b k) as [y Hy]; [lia|]. rewrite (drop_S b y k Hy). cbn [insert list_insert].
    by rewrite replicate_S_end, <- app_assoc.
  - rewrite Nat2Z.id, drop_ge by lia. by rewrite app_nil_r.
Qed.

Lemma scroll_spec b :
  length b = 2000%nat → scroll_one_line b = Ok (drop 80 b ++ replicate 80 blank).
Proof.
  intros Hl. unfold scroll_one_line. pose proof (shift_down b 1920 80 ltac:(lia)) as Hs.
  change (Z.of_nat 1920) with (80 * (25 - 1)) in Hs. change (Z.of_nat 80) with 80 in Hs. rewrite Hs, bind_Ok.
  assert (Hd : length (take 1920 (drop 80 b)) = 1920%nat) by (rewrite length_take, length_drop; lia).
  pose proof (fill_spec (take 1920 (drop 80 b)) (drop 1920 b) 80 blank) as Hf. rewrite Hd in Hf.
  change (Z.of_nat 80) with 80 in Hf. change (Z.of_nat 1920) with 1920 in Hf.
  change (80 * (25 - 1)) with 1920. change 0x0700 with blank. rewrite Hf by (rewrite length_drop; lia).
  by rewrite take_ge by (rewrite length_drop; lia).
Qed.

Lemma screen_concat s : screen_ok s → length (concat (rows s)) = 2000%nat.
Proof. intros (Hr & Hf & _). rewrite (length_concat_rows _ 80) by done. lia. Qed.

(** Going to the next line, from a screen whose cursor is on line [row s]. *)
Lemma settle_new_line attr st s :
  screen_ok s →
  settle (MkW attr st (Z.of_nat (80 * S (row s))) (concat (rows s))) =
    Ok (MkW attr st (Z.of_nat (80 * row (new_line s))) (concat (rows (new_line s)))) ∧ screen_ok (new_line s).
Proof.
  intros Hok. pose proof (screen_concat s Hok) as Hlen. destruct Hok as (Hn & Hf & Hr & Hc).
  unfold settle, new_line. cbn [w_pos w_buf w_attr w_state].
  destruct (decide (S (row s) < 25)%nat).
  - rewrite Z.geb_leb, (proj2 (Z.leb_gt _ _)) by lia. split; [done|]. unfold screen_ok. simpl. repeat split; [done..|lia|lia].
  - rewrite Z.geb_leb, (proj2 (Z.leb_le _ _)) by lia. rewrite scroll_spec, bind_Ok by done.
    destruct (rows s) as [|r rs]; [done|]. simpl in Hn. apply Forall_cons in Hf as [Hr0 Hf].
    cbn [tail row rows concat]. split.
    + rewrite concat_app. cbn [concat]. rewrite app_nil_r. f_equal. f_equal. f_equal.
      by rewrite <- Hr0, drop_app_length.
    + unfold screen_ok. simpl. rewrite length_app. simpl. repeat split; [lia| |lia|lia].
      apply Forall_app. split; [done|]. by repeat constructor.
Qed.

Lemma settle_same attr st s :
  screen_ok s →
  settle (MkW attr st (Z.of_nat (80 * row s + col s)) (concat (rows s))) =
    Ok (MkW attr st (Z.of_nat (80 * row s + col s)) (concat (rows s))).
Proof.
  intros (_ & _ & Hr & Hc). unfold settle. cbn [w_pos]. by rewrite Z.geb_leb, (proj2 (Z.leb_gt _ _)) by lia.
Qed.

Lemma set_cell_ok s x :
  screen_ok s →
  wr (concat (rows s)) (Z.of_nat (80 * row s + col s)) x = Ok (concat (set_cell s x)) ∧
  screen_ok (MkScreen (set_cell s x) (row s) (col s)).
Proof.
  intros Hok. pose proof (screen_concat s Hok) as Hlen. destruct Hok as (Hn & Hf & Hr & Hc). split.
  - rewrite wr_total by lia. rewrite Nat2Z.id. unfold set_cell. rewrite concat_set by (done || lia). done.
  - unfold screen_ok, set_cell. simpl. rewrite length_alter. repeat split; [done| |done|done].
    apply Forall_alter; [done|]. intros r _ Hrl. by rewrite length_insert.
Qed.

Lemma s8_byte b : fits 8 b → s8 b = if b <? 128 then b else b - 256.
Proof. intros Hb. unfold swrap. cbv zeta. rewrite Z.mod_small by done. done. Qed.

(** A signed char is a control character exactly when the byte is. *)
Lemma s8_eqb b k : fits 8 b → 0 ≤ k < 128 → (s8 b =? k) = (b =? k).
Proof. intros Hb Hk. rewrite s8_byte by done. unfold fits in Hb. destruct (Z.ltb_spec b 128); [done|]. lia. Qed.

Lemma put_char_ok attr st s x :
  screen_ok s →
  (b ← wr (concat (rows s)) (Z.of_nat (80 * row s + col s)) x;
   settle (MkW attr st (u16 (Z.of_nat (80 * row s + col s) + 1)) b)) =
    Ok (MkW attr st (Z.of_nat (80 * row (put_char s x) + col (put_char s x))) (concat (rows (put_char s x)))) ∧
  screen_ok (put_char s x).
Proof.
  intros Hok. destruct (set_cell_ok s x Hok) as [-> Hok']. rewrite bind_Ok. unfold put_char. cbv zeta.
  destruct Hok as (_ & _ & Hr & Hc). rewrite wrap_small by (unfold fits; lia).
  destruct (decide (S (col s) < 80)%nat) as [Hlt|Hge].
  - assert (Hok2 : screen_ok (MkScreen (set_cell s x) (row s) (S (col s)))) by (destruct Hok' as (? & ? & ? & ?); by repeat split).
    split; [|done]. etrans; [|apply (settle_same attr st _ Hok2)]. cbn [rows row col]. do 2 f_equal. lia.
  - destruct (settle_new_line attr st _ Hok') as [Hs Hok2]. split; [|done].
    assert (Hcol : col (new_line (MkScreen (set_cell s x) (row s) (col s))) = 0%nat) by (unfold new_line; by case_decide).
    rewrite Hcol, Nat.add_0_r, <- Hs. cbn [row rows]. do 2 f_equal. lia.
Qed.

Lemma back_spec s :
  screen_ok s →
  match back s with
  | Some s' => screen_ok s' ∧ (80 * row s' + col s' + 1 = 80 * row s + col s)%nat ∧ rows s' = rows s
  | None => (80 * row s + col s = 0)%nat
  end.
Proof.
  intros (Hn & Hf & Hr & Hc). unfold back.
  destruct (col s) as [|c] eqn:Ec; [destruct (row s) as [|r] eqn:Er|]; simpl; unfold screen_ok; simpl; repeat split; done || lia.
Qed.

Lemma write_char_sim byte w d :
  shows w d → fits 8 byte →
  match show_byte byte d with
  | Some d' => ∃ w', write_char byte w = Ok w' ∧ shows w' d'
  | None => write_char byte w = Err OutOfBounds
  end.
Proof.
  destruct d as [attr esc s], w as [wattr wst wpos wbuf]. intros [Hok [Hattr Hwa] Hst Hpos Hbuf] Hb.
  cbn [w_state w_attr w_pos w_buf escaped attribute scr] in *. subst.
  unfold write_char, show_byte. cbn [w_state w_attr w_pos w_buf escaped attribute scr].
  destruct esc; cbn [Z.eqb Pos.eqb].
  { eexists. split; [done|]. by split. }
  rewrite !s8_eqb by (done || lia). pose proof Hok as (Hn & Hf & Hr & Hc).
  assert (Hmod : Z.of_nat (80 * row s + col s) mod 80 = Z.of_nat (col s))
    by (symmetry; apply (Z.mod_unique_pos _ _ (Z.of_nat (row s))); lia).
  rewrite Hmod.
  destruct (byte =? 10).
  { rewrite bind_Ok. destruct (settle_new_line (Z.shiftl (s8 attr) 8) 0 s Hok) as [Hs Hok'].
    rewrite wrap_small by (unfold fits; lia).
    replace (Z.of_nat (80 * row s + col s) + _) with (Z.of_nat (80 * S (row s))) by lia.
    rewrite Hs. eexists. split; [done|]. split; try done. simpl.
    assert (col (new_line s) = 0%nat) as -> by (unfold new_line; by case_decide). f_equal. lia. }
  destruct (byte =? 13).
  { rewrite bind_Ok. assert (Hok' : screen_ok (MkScreen (rows s) (row s) 0)) by (repeat split; done || (simpl; lia)).
    rewrite wrap_small by (unfold fits; lia).
    replace (Z.of_nat (80 * row s + col s) - _) with (Z.of_nat (80 * row s + 0)) by lia.
    rewrite (settle_same _ _ _ Hok'). eexists. split; [done|]. by split. }
  destruct (byte =? 27). { rewrite bind_Ok, settle_same by done. eexists. split; [done|]. by split. }
  destruct (byte =? 8).
  - pose proof (back_spec s Hok) as Hback. destruct (back s) as [s'|].
    + destruct Hback as (Hok' & Hpos & Hrows). destruct (set_cell_ok s' (cell attr 32) Hok') as [Hset Hok2].
      assert (u16 (Z.lor (Z.shiftl (s8 attr) 8) 32) = cell attr 32) as -> by (by apply (cell_spec attr 32)).
      cbn [mbind option_bind].
      rewrite wrap_small by (unfold fits; lia).
      replace (Z.of_nat (80 * row s + col s) - 1) with (Z.of_nat (80 * row s' + col s')) by lia.
      rewrite <- Hrows, Hset, !bind_Ok. eexists. split; [apply (settle_same _ _ _ Hok2)|]. by split.
    + cbn [mbind option_bind]. rewrite Hback. change (u16 (Z.of_nat 0 - 1)) with 65535.
      rewrite wr_oob by (rewrite (screen_concat s Hok); lia). done.
  - destruct (put_char_ok (Z.shiftl (s8 attr) 8) 0 s (u16 (Z.lor (Z.shiftl (s8 attr) 8) (s8 byte))) Hok) as [Hp Hok'].
    rewrite cell_spec in Hp, Hok' by done.
    eexists. split. { rewrite cell_spec by done. etrans; [|exact Hp]. by destruct (wr _ _ _). }
    by split.
Qed.

(** C24. [VirtualConsole::write] shows text on a screen of 25 lines.  On every
    sequence of bytes it does what a screen of lines does: printable bytes go to
    the cursor with the current attribute, new line and return move it, an escape
    takes the next byte as the attribute, a full screen scrolls by a line, and
    bytes of 128 and more lose the attribute.  A backspace in the top left corner
    writes outside the buffer. *)
Theorem write_refines_screen bytes w d :
  shows w d → Forall (fits 8) bytes → Z.of_nat (length bytes) < 2 ^ 32 →
  match show bytes d with
  | Some d' => ∃ w', write_chars bytes w = Ok w' ∧ shows w' d'
  | None => write_chars bytes w = Err OutOfBounds
  end.
Proof.
  intros Hsh Hb Hlen. unfold write_chars. rewrite (proj2 (Z.ltb_lt _ _)) by done. clear Hlen. revert w d Hsh.
  induction Hb as [|b bytes Hb Hbs IH]; intros w d Hsh; cbn [show for_each]; [by exists w|].
  pose proof (write_char_sim b w d Hsh Hb) as Hstep. destruct (show_byte b d) as [d'|]; simpl.
  - destruct Hstep as (w' & -> & Hsh'). rewrite bind_Ok. by apply IH.
  - by rewrite Hstep.
Qed.

(** ** Switching consoles *)

(** What a virtual console shows, or would show. *)
Definition view (st : consoles) (a : Z) : option (list Z) :=
  (v ← vcs st !! a; p ← vc_buffer v; buffers st !! p)%stdpp.

(** A buffer of a full screen. *)
Definition is_screen (st : consoles) (p : Z) : Prop := ∃ b, buffers st !! p = Some b ∧ length b = 2000%nat.

(** The consoles and the spare buffer of the display own disjoint buffers. *)
Record consoles_ok (st : consoles) : Prop := {
  co_video : is_screen st (video_ram_address (pc st));
  co_vc : ∀ a v, vcs st !! a = Some v → 0 ≤ current_pos v < 2000 ∧ ∃ p, vc_buffer v = Some p ∧ is_screen st p;
  co_inj : ∀ a1 a2 v1 v2, vcs st !! a1 = Some v1 → vcs st !! a2 = Some v2 → vc_buffer v1 = vc_buffer v2 → a1 = a2;
  co_list : ∀ a, a ∈ pc_vcs (pc st) → is_Some (vcs st !! a);
  co_old : old_vc (pc st) = current_vc (pc st);
  co_current : match current_vc (pc st) with
    | None => ∀ a v, vcs st !! a = Some v → vc_buffer v ≠ Some (video_ram_address (pc st)) ∧ vc_ucb v = false
    | Some c => ∃ v p, vcs st !! c = Some v ∧ vc_buffer v = Some (video_ram_address (pc st)) ∧ vc_ucb v = true ∧
        backup_buffer (pc st) = Some p ∧ p ≠ video_ram_address (pc st) ∧ is_screen st p ∧
        ∀ a w, vcs st !! a = Some w → vc_buffer w ≠ Some p ∧ (a ≠ c → vc_ucb w = false)
    end }.

Lemma copy_screen_spec st dst src s d :
  buffers st !! src = Some s → buffers st !! dst = Some d → length s = 2000%nat → length d = 2000%nat →
  copy_screen dst src st = Ok (put_buffer dst s st).
Proof.
  intros Hs Hd Hls Hld. unfold copy_screen. rewrite Hs. ok_step. rewrite Hd. ok_step.
  destruct (for_range_total (λ i d', d' = take (Z.to_nat i) s ++ drop (Z.to_nat i) d) 0 (80 * 25)
    (λ i d, c ← rd s i; wr d i c) d) as (d' & -> & ->); [lia|done| |].
  - intros i d' Hi ->. destruct (rd_total s i) as (x & -> & Hx); [lia|]. rewrite bind_Ok.
    rewrite wr_total by (rewrite length_app, length_take, length_drop; lia). eexists. split; [done|].
    rewrite insert_app_r_alt by (rewrite length_take; lia). rewrite length_take_le, Nat.sub_diag by lia.
    replace (Z.to_nat (i + 1)) with (S (Z.to_nat i)) by lia.
    destruct (lookup_lt_is_Some_2 d (Z.to_nat i)) as [y Hy]; [lia|]. rewrite (drop_S d y _ Hy). cbn [insert list_insert].
    by rewrite (take_S_r s _ x Hx), <- app_assoc.
  - rewrite bind_Ok. change (Z.to_nat (80 * 25)) with 2000%nat. rewrite take_ge, drop_ge, app_nil_r by lia. done.
Qed.

Lemma cursor_spec pos : fits 16 pos → u8 pos + 256 * u8 (Z.shiftr pos 8) = pos.
Proof.
  intros Hp. unfold fits in Hp. rewrite Z.shiftr_div_pow2 by lia. unfold wrap. change (2 ^ 8) with 256.
  rewrite (Z.mod_small (pos / 256)).
  - pose proof (Z.div_mod pos 256). lia.
  - split; [apply Z.div_pos; lia|]. apply Z.div_lt_upper_bound; lia.
Qed.

(** No console has the video memory. *)
Record detached (st : consoles) : Prop := {
  de_video : is_screen st (video_ram_address (pc st));
  de_vc : ∀ a v, vcs st !! a = Some v → 0 ≤ current_pos v < 2000 ∧ vc_ucb v = false ∧
    ∃ p, vc_buffer v = Some p ∧ p ≠ video_ram_address (pc st) ∧ is_screen st p;
  de_inj : ∀ a1 a2 v1 v2, vcs st !! a1 = Some v1 → vcs st !! a2 = Some v2 → vc_buffer v1 = vc_buffer v2 → a1 = a2 }.

(** Two states with the same consoles up to their buffers. *)
Definition same_vcs (st st' : consoles) : Prop :=
  (∀ a, view st' a = view st a) ∧ (∀ a, current_pos <$> vcs st' !! a = current_pos <$> vcs st !! a) ∧
  (∀ a, vc_terminal <$> vcs st' !! a = vc_terminal <$> vcs st !! a) ∧ terminals st' = terminals st.

Lemma same_vcs_exists st st' a : same_vcs st st' → is_Some (vcs st !! a) → is_Some (vcs st' !! a).
Proof.
  intros (_ & Hpos & _) [v Hv]. specialize (Hpos a). rewrite Hv in Hpos. simpl in Hpos.
  destruct (vcs st' !! a); [by eexists|done].
Qed.

Lemma is_screen_put st p q b : length b = 2000%nat → is_screen st p → is_screen (put_buffer q b st) p.
Proof.
  intros Hb [c [Hc Hl]]. unfold is_screen. simpl. destruct (decide (q = p)) as [->|].
  - exists b. by rewrite lookup_insert_eq.
  - exists c. by rewrite lookup_insert_ne.
Qed.

(** Giving a console up: it gets its spare buffer back, with the screen. *)
Lemma release_ok st cur :
  consoles_ok st →
  let p := pc st in
  let st0 := put_pc (MkPc (pc_vcs p) cur (alt_pressed p) (video_ram_address p) (backup_buffer p) (old_vc p)) st in
  ∃ st1, release_old st0 = Ok st1 ∧ detached st1 ∧ same_vcs st st1 ∧ pc st1 = pc st0 ∧ kbd_sink st1 = kbd_sink st.
Proof.
  intros Hok p st0. unfold release_old. pose proof (co_current _ Hok) as Hcur.
  replace (old_vc (pc st0)) with (current_vc (pc st)) by (symmetry; apply Hok). destruct (current_vc (pc st)) as [c|] eqn:Ec.
  2:{ exists st0. split; [done|]. split; [|by repeat split]. split; [apply Hok| |apply Hok].
      intros a v Hv. destruct (co_vc _ Hok a v Hv) as [Hpos (q & Hq & Hs)]. destruct (Hcur a v Hv) as [Hne Hu].
      split_and!; [lia|lia|done|]. exists q. split_and!; [done|intros ->; by apply Hne|done]. }
  destruct Hcur as (v & q & Hv & Hbuf & Hu & Hbk & Hne & (d & Hd & Hld) & Hoth).
  destruct (co_video _ Hok) as (b & Hb & Hlb).
  cbn [vcs pc st0 put_pc backup_buffer]. rewrite Hv. ok_step. unfold p. rewrite Hbk. cbn [vc_buffer set_buffer]. ok_step.
  erewrite (copy_screen_spec _ _ _ b d) by done. eexists. split; [done|].
  assert (Hscr : ∀ r, is_screen st r → is_screen (put_buffer q b st) r) by (intros r; by apply is_screen_put).
  split; [split|split; [split|split; [by rewrite <- Hbk|done]]]; simpl.
  - apply Hscr, Hok.
  - intros a w. rewrite lookup_insert_Some. intros [[<- <-]|[Hac Hw]]; simpl.
    + destruct (co_vc _ Hok c v Hv) as [? _]. split_and!; [lia|lia|done|]. exists q. split_and!; [done..|].
      apply Hscr. by exists d.
    + destruct (co_vc _ Hok a w Hw) as [Hpos (r & Hr & Hs)]. destruct (Hoth a w Hw) as [Hnq Hu'].
      split_and!; [lia|lia|by apply Hu'|]. exists r. split_and!; [done| |by apply Hscr].
      intros ->. apply Hac. symmetry. apply (co_inj _ Hok a c w v); [done..|]. by rewrite Hr, Hbuf.
  - intros a1 a2 v1 v2. rewrite !lookup_insert_Some.
    intros [[<- <-]|[H1 Hv1]] [[<- <-]|[H2 Hv2]] Heq; simpl in Heq; [done|..].
    + by destruct (Hoth a2 v2 Hv2).
    + by destruct (Hoth a1 v1 Hv1).
    + by eapply (co_inj _ Hok).
  - intros a. unfold view. simpl. destruct (decide (c = a)) as [<-|Hca].
    + rewrite lookup_insert_eq, Hv. simpl. rewrite lookup_insert_eq, Hbuf. simpl. by rewrite Hb.
    + rewrite lookup_insert_ne by done. destruct (vcs st !! a) as [w|] eqn:Hw; [|done]. simpl.
      destruct (Hoth a w Hw) as [Hnq _]. destruct (vc_buffer w) as [r|]; [|done]. simpl. rewrite lookup_insert_ne; congruence.
  - split_and!; [intros a|intros a|done]; destruct (decide (c = a)) as [<-|Hca];
      rewrite ?lookup_insert_eq, ?lookup_insert_ne, ?Hv by done; done.
Qed.

Lemma take_ok st a v :
  detached st → current_vc (pc st) = Some a → vcs st !! a = Some v →
  (∀ x, x ∈ pc_vcs (pc st) → is_Some (vcs st !! x)) →
  ∃ st', take_display st = Ok st' ∧ consoles_ok st' ∧ same_vcs st st' ∧ cursor st' = current_pos v ∧
    current_vc (pc st') = Some a ∧ pc_vcs (pc st') = pc_vcs (pc st) ∧ alt_pressed (pc st') = alt_pressed (pc st) ∧
    kbd_sink st' = kbd_sink st ∧ buffers st' !! video_ram_address (pc st') = view st a.
Proof.
  intros Hd Hc Hv Hl. destruct (de_vc _ Hd a v Hv) as (Hpos & Hu & p & Hp & Hpv & (b & Hb & Hlb)).
  destruct (de_video _ Hd) as (d & Hvid & Hld).
  unfold take_display. rewrite Hc. ok_step. rewrite Hv. ok_step. rewrite Hp. cbn [pc put_vc].
  erewrite (copy_screen_spec _ _ p b d) by done. rewrite bind_Ok. cbn [vcs put_pc put_buffer put_vc pc].
  rewrite lookup_insert_eq. ok_step. eexists. split; [done|].
  assert (Hscr : ∀ r, is_screen st r → is_screen (put_buffer (video_ram_address (pc st)) b st) r)
    by (intros r; by apply is_screen_put).
  split; [split|split; [|split]]; simpl.
  - apply Hscr. by exists d.
  - intros x w [[<- <-]|[_ Hw]]%lookup_insert_Some; simpl.
    + split; [lia|]. eexists. split; [done|]. apply Hscr. by exists d.
    + destruct (de_vc _ Hd x w Hw) as (? & _ & q & Hq & _ & Hs). split; [lia|]. exists q. split; [done|by apply Hscr].
  - intros a1 a2 v1 v2 [[<- <-]|[H1 Hv1]]%lookup_insert_Some [[<- <-]|[H2 Hv2]]%lookup_insert_Some Heq; simpl in Heq; [done|..].
    + destruct (de_vc _ Hd a2 v2 Hv2) as (_ & _ & q & Hq & Hne & _). congruence.
    + destruct (de_vc _ Hd a1 v1 Hv1) as (_ & _ & q & Hq & Hne & _). congruence.
    + by eapply (de_inj _ Hd).
  - intros x Hx. rewrite lookup_insert_is_Some. destruct (decide (a = x)); [by left|right]. split; [done|by apply Hl].
  - done.
  - rewrite Hc. eexists _, p. rewrite lookup_insert_eq. split_and!; [done..| |].
    + apply Hscr. by exists b.
    + intros x w [[<- <-]|[Hne Hw]]%lookup_insert_Some; simpl; [by split; [congruence|]|].
      destruct (de_vc _ Hd x w Hw) as (_ & Hux & q & Hq & _ & _). split; [|done].
      intros Heq. apply Hne. eapply (de_inj _ Hd); [done..|congruence].
  - split; [|split; [|split; [|done]]]; intros x; unfold view; simpl; (destruct (decide (a = x)) as [<-|Hne];
      [rewrite ?lookup_insert_eq, ?Hv; simpl; rewrite ?lookup_insert_eq, ?Hp; simpl; try done|
       rewrite ?lookup_insert_ne by done; try done]).
    destruct (vcs st !! x) as [w|] eqn:Hw; [|done]. simpl.
    destruct (de_vc _ Hd x w Hw) as (_ & _ & q & -> & Hq & _). simpl. by rewrite lookup_insert_ne.
  - apply cursor_spec. unfold fits. lia.
  - rewrite Hc. split_and!; [done..|]. unfold view. rewrite Hv. simpl. rewrite Hp. simpl. by rewrite lookup_insert_eq, Hb.
Qed.

(** Switching consoles keeps what every console shows.  From a state in which
    the consoles own disjoint screens, [set_current_vc] (as Alt-F1 and Alt-F2
    call it, also for the console that is current already) puts the picture of
    the new console into the video memory and its cursor into the display
    controller, and leaves the picture, the cursor and the terminal of every
    console as they were. *)
Theorem switching_preserves_views st a :
  consoles_ok st → is_Some (vcs st !! a) →
  ∃ st', set_current_vc a st = Ok st' ∧ consoles_ok st' ∧ same_vcs st st' ∧
    current_vc (pc st') = Some a ∧ buffers st' !! video_ram_address (pc st') = view st a ∧
    Some (cursor st') = current_pos <$> vcs st !! a.
Proof.
  intros Hok Ha. destruct (release_ok st (Some a) Hok) as (st1 & Hrel & Hd & Hsame & Hpc & _).
  destruct (same_vcs_exists _ _ a Hsame Ha) as [v Hv].
  destruct (take_ok st1 a v Hd) as (st' & Htake & Hok' & Hsame' & Hcur & Hc' & _ & _ & _ & Hbuf); [by rewrite Hpc|done| |].
  { rewrite Hpc. intros x Hx. eapply same_vcs_exists, (co_list _ Hok); done. }
  exists st'. unfold set_current_vc, virtual_console_changed. rewrite Hrel, bind_Ok.
  destruct Hsame as (Hview & Hpos & Hterm & Hts). destruct Hsame' as (Hview' & Hpos' & Hterm' & Hts').
  split; [done|]. split; [done|]. split; [|split; [done|split]].
  - split; [|split; [|split]]; [intros x; by rewrite Hview', Hview|intros x; by rewrite Hpos', Hpos|
      intros x; by rewrite Hterm', Hterm|by rewrite Hts', Hts].
  - by rewrite Hbuf, Hview.
  - specialize (Hpos a). rewrite Hv in Hpos. simpl in Hpos. by rewrite <- Hpos, Hcur.
Qed.

(** ** From scan codes to characters *)

Definition is_shift (k : Keys) : bool := match k with KEY_LSHIFT | KEY_RSHIFT => true | _ => false end.
Definition is_alt (k : Keys) : bool := match k with KEY_LALT | KEY_RALT => true | _ => false end.

Lemma scancode_to_key_spec b :
  fits 8 b →
  scancode_to_key (s8 b) =
    let n := b mod 128 in
    if n =? 69 then Err OutOfBounds else Ok (if n <? 69 then nth (Z.to_nat n) scancode_map NO_KEY else UNKNOWN_KEY).
Proof.
  intros Hb. cbv zeta.
  assert (T : forallb (λ b, match scancode_to_key (s8 b), (if b mod 128 =? 69 then Err OutOfBounds else Ok (if b mod 128 <? 69 then
      nth (Z.to_nat (b mod 128)) scancode_map NO_KEY else UNKNOWN_KEY)) with
    | Ok k, Ok k' => bool_decide (k = k') | Err OutOfBounds, Err OutOfBounds => true | _, _ => false end) (seqZ 0 256) = true)
    by (vm_compute; reflexivity).
  rewrite forallb_forall in T. specialize (T b ltac:(apply list_elem_of_In, elem_of_seqZ; unfold fits in Hb; lia)).
  destruct (scancode_to_key (s8 b)) as [k|[]], (b mod 128 =? 69); try done. apply bool_decide_eq_true in T. by subst.
Qed.

(** The key of a scan code, pressed or released. *)
Definition key_of (b : Z) : Keys := match scancode_to_key (s8 b) with Ok k => k | Err _ => NO_KEY end.

(** The characters a sequence of scan codes types, from a state of the shift key. *)
Fixpoint typed (mask : Z) (codes : list Z) : list Z :=
  match codes with
  | [] => []
  | b :: codes' =>
      let k := key_of b in
      if 128 <=? b then typed (if is_shift k then Z.land mask (u32 (Z.lnot Shift)) else mask) codes'
      else match key_char mask k with
           | Some ch => ch :: typed mask codes'
           | None => typed (if is_shift k then Z.lor mask Shift else mask) codes'
           end
  end.

(** The keyboard feeds terminal [t] through console [c]. *)
Record feeds (st : consoles) (c t : Z) (mask : Z) (tm : Terminal) : Prop := {
  fe_sink : kbd_sink st = true;
  fe_alt : alt_pressed (pc st) = false;
  fe_current : current_vc (pc st) = Some c;
  fe_vc : ∃ v, vcs st !! c = Some v ∧ current_mod_mask v = mask ∧ vc_terminal v = Some t;
  fe_term : terminals st !! t = Some tm;
  fe_ok : term_ok tm }.

(** A key that reaches the console unchanged. *)
Definition plain (b : Z) : Prop := fits 8 b ∧ b mod 128 ≠ 69 ∧ is_alt (key_of b) = false.

Lemma sign_bit b : fits 8 b → negb (Z.land (s8 b) 128 =? 0) = (128 <=? b).
Proof.
  intros Hb. assert (T : forallb (λ b, eqb (negb (Z.land (s8 b) 128 =? 0)) (128 <=? b)) (seqZ 0 256) = true) by (vm_compute; reflexivity).
  rewrite forallb_forall in T. apply eqb_prop, T, list_elem_of_In, elem_of_seqZ. unfold fits in Hb. lia.
Qed.

Lemma feeds_mask st c t mask tm v m :
  feeds st c t mask tm → vcs st !! c = Some v → feeds (put_vc c (set_mod_mask v m) st) c t m tm.
Proof.
  intros [? ? ? (w & Hw & _ & Ht) ? ?] Hv. rewrite Hv in Hw. injection Hw as <-.
  split; try done. eexists. simpl. by rewrite lookup_insert_eq.
Qed.

Lemma key_event_up st c t mask tm b :
  feeds st c t mask tm → plain b → 128 ≤ b →
  ∃ st', handle_key_event (s8 b) st = Ok st' ∧
    feeds st' c t (if is_shift (key_of b) then Z.land mask (u32 (Z.lnot Shift)) else mask) tm.
Proof.
  intros Hf (Hb & Hne & Halt) Hup. unfold handle_key_event. rewrite (fe_sink _ _ _ _ _ Hf). cbn [negb].
  rewrite sign_bit, (proj2 (Z.leb_le 128 b)) by done. unfold key_of in *.
  rewrite scancode_to_key_spec in * by done. cbv zeta in *. rewrite (proj2 (Z.eqb_neq _ _)) in * by done. rewrite bind_Ok.
  set (k := if _ <? 69 then _ else _) in *. unfold pc_key_up. 
  assert (match k with KEY_LALT | KEY_RALT => set_alt false st | _ => st end = st) as -> by (by destruct k).
  rewrite (fe_current _ _ _ _ _ Hf). unfold vc_key_up. destruct (fe_vc _ _ _ _ _ Hf) as (v & Hv & <- & _). rewrite Hv. ok_step.
  destruct k; simpl; eexists; (split; [done|]); try done; by eapply feeds_mask.
Qed.

Lemma key_event_down st c t mask tm b :
  feeds st c t mask tm → plain b → b < 128 →
  match key_char mask (key_of b) with
  | Some ch => ∃ st' tm', handle_key_event (s8 b) st = Ok st' ∧ append_to_read_buffer tm ch = Ok tm' ∧ feeds st' c t mask tm'
  | None => ∃ st', handle_key_event (s8 b) st = Ok st' ∧
              feeds st' c t (if is_shift (key_of b) then Z.lor mask Shift else mask) tm
  end.
Proof.
  intros Hf (Hb & Hne & Halt) Hdown. unfold handle_key_event. rewrite (fe_sink _ _ _ _ _ Hf). cbn [negb].
  rewrite sign_bit, (proj2 (Z.leb_gt 128 b)) by done. unfold key_of in *.
  rewrite scancode_to_key_spec in * by done. cbv zeta in *. rewrite (proj2 (Z.eqb_neq _ _)) in * by done. rewrite bind_Ok.
  set (k := if _ <? 69 then _ else _) in *.
  assert (Hfw : pc_key_down k st = vc_key_down c k st).
  { unfold pc_key_down. rewrite (fe_current _ _ _ _ _ Hf), (fe_alt _ _ _ _ _ Hf). by destruct k. }
  rewrite Hfw. unfold vc_key_down. destruct (fe_vc _ _ _ _ _ Hf) as (v & Hv & Hm & Ht). rewrite Hv. ok_step. rewrite Hm.
  destruct (key_char mask k) as [ch|] eqn:Ech.
  - rewrite Ht. ok_step. rewrite (fe_term _ _ _ _ _ Hf). ok_step.
    destruct (append_byte_spec tm ch (fe_ok _ _ _ _ _ Hf)) as (tm' & -> & Hok' & _). rewrite bind_Ok.
    eexists _, tm'. split; [done|]. split; [done|]. destruct Hf. split; simpl; rewrite ?lookup_insert_eq; done || by exists v.
  - rewrite <- Hm. destruct k; simpl; eexists; (split; [done|]); rewrite ?Hm; try done; eapply feeds_mask; by rewrite ?Hm.
Qed.

Lemma key_char_byte mask k ch : key_char mask k = Some ch → u8 ch = ch.
Proof. unfold key_char. destruct k; cbn [key_mapping]; try done; try case_match; by intros [= <-]. Qed.

Lemma terminal_read_spec thread size t :
  term_ok t → (size ≤ length (pending t))%nat →
  ∃ t', terminal_read thread size t = Ok (take size (pending t), t') ∧ term_ok t' ∧ pending t' = drop size (pending t).
Proof.
  revert t. induction size as [|size IH]; intros t Hok Hl; cbn [terminal_read].
  - exists t. by rewrite take_0, drop_0.
  - destruct (read_turn_spec thread t Hok) as (t1 & -> & Hok1 & Hp & _). rewrite bind_Ok.
    destruct (pending t) as [|x q]; simpl in Hl, Hp |- *; [lia|].
    destruct (IH t1 Hok1) as (t2 & -> & Hok2 & Hp2); [rewrite Hp; lia|]. rewrite bind_Ok, Hp. rewrite Hp in Hp2. by exists t2.
Qed.

Lemma keys_typed codes st c t mask tm :
  feeds st c t mask tm → Forall plain codes → (length (pending tm) + length (typed mask codes) ≤ 63)%nat →
  ∃ st' tm' mask', for_each codes (λ b, handle_key_event (s8 b)) st = Ok st' ∧ feeds st' c t mask' tm' ∧
    pending tm' = pending tm ++ typed mask codes.
Proof.
  intros Hf Hp. revert st mask tm Hf. induction Hp as [|b codes Hb Hp IH]; intros st mask tm Hf Hl; cbn [for_each typed] in *.
  - exists st, tm, mask. by rewrite app_nil_r.
  - destruct (Z.leb_spec 128 b).
    + destruct (key_event_up st c t mask tm b Hf Hb) as (st1 & -> & Hf1); [done|]. rewrite bind_Ok. by apply IH.
    + pose proof (key_event_down st c t mask tm b Hf Hb) as Hd. destruct (key_char mask (key_of b)) as [ch|] eqn:Ech.
      * destruct Hd as (st1 & tm1 & -> & Happ & Hf1); [done|]. rewrite bind_Ok. simpl in Hl.
        destruct (append_byte_spec tm ch (fe_ok _ _ _ _ _ Hf)) as (tm2 & Happ2 & _ & _ & _ & Hpend).
        rewrite Happ2 in Happ. injection Happ as ->. rewrite decide_False in Hpend by lia.
        rewrite (key_char_byte _ _ _ Ech) in Hpend.
        destruct (IH st1 mask tm1 Hf1) as (st' & tm' & m' & ? & ? & Hq); [rewrite Hpend, length_app; simpl; lia|].
        exists st', tm', m'. split_and!; [done..|]. by rewrite Hq, Hpend, <- app_assoc.
      * destruct Hd as (st1 & -> & Hf1); [done|]. rewrite bind_Ok. by apply IH.
Qed.

(** What is typed is what is read.  With the keyboard attached to a console
    and its terminal empty, a sequence of scan codes (without Alt and Num Lock)
    that types at most 63 characters runs without a fault, and a read of that
    many bytes from the terminal returns exactly the typed characters in order,
    upper or lower case as the shift key was at each of them. *)
Theorem typed_text_is_read codes st c t mask tm thread :
  feeds st c t mask tm → pending tm = [] → Forall plain codes → (length (typed mask codes) ≤ 63)%nat →
  ∃ st' tm' tm'', for_each codes (λ b, handle_key_event (s8 b)) st = Ok st' ∧ terminals st' !! t = Some tm' ∧
    terminal_read thread (length (typed mask codes)) tm' = Ok (typed mask codes, tm'') ∧ pending tm'' = [].
Proof.
  intros Hf He Hp Hl. destruct (keys_typed codes st c t mask tm Hf Hp) as (st' & tm' & m' & Hrun & Hf' & Hq); [by rewrite He|].
  rewrite He in Hq. simpl in Hq.
  destruct (terminal_read_spec thread (length (typed mask codes)) tm' (fe_ok _ _ _ _ _ Hf')) as (tm'' & Hr & _ & Hq''); [by rewrite Hq|].
  exists st', tm', tm''. rewrite Hr, Hq'', Hq, take_ge, drop_ge by done. split_and!; [done|apply Hf'|done|done].
Qed.

(** [scancode_to_key] on every byte of the keyboard: codes 0 to 68 give the
    key of the table, whether pressed or released, and codes from 70 give
    UNKNOWN_KEY; code 69, the Num Lock key, passes the check and reads behind the
    end of the table. *)
Theorem scancode_bounds b :
  fits 8 b →
  scancode_to_key (s8 b) =
    let n := b mod 128 in
    if n =? 69 then Err OutOfBounds else Ok (if n <? 69 then nth (Z.to_nat n) scancode_map NO_KEY else UNKNOWN_KEY).
Proof. apply scancode_to_key_spec. Qed.

(** ** Witnesses *)

Lemma terminal_is_queue_witness :
  ∃ t', run_terminal [TAppend 65; TAppend 66; TRead 1; TRead 1; TRead 1] (new_terminal (replicate 64 0)) = Ok ([65; 66], t').
Proof.
  destruct (terminal_is_queue [TAppend 65; TAppend 66; TRead 1; TRead 1; TRead 1] (new_terminal (replicate 64 0))) as (t' & Hr & _).
  - split; [reflexivity|split; done].
  - exists t'. exact Hr.
Defined.

Definition blank_screen : screen := MkScreen (replicate 25 (replicate 80 blank)) 0 0.

Lemma blank_shows : shows (MkW 0x0700 0 0 (concat (rows blank_screen))) (MkDisplay 7 false blank_screen).
Proof.
  split; [|done..]. split_and!; [done| |simpl; lia|simpl; lia]. apply Forall_forall. intros r Hr.
  apply elem_of_replicate in Hr as [-> _]. done.
Qed.

(** "A", backspace, then a backspace in the corner. *)
Lemma write_refines_screen_witness :
  (∃ w', write_chars [65; 8] (MkW 0x0700 0 0 (concat (rows blank_screen))) = Ok w' ∧ w_pos w' = 0) ∧
  write_chars [65; 8; 8] (MkW 0x0700 0 0 (concat (rows blank_screen))) = Err OutOfBounds.
Proof.
  split.
  - pose proof (write_refines_screen [65; 8] _ _ blank_shows) as H.
    destruct H as (w' & Hw & [_ _ _ Hpos _]); [by repeat constructor|simpl; lia|]. exists w'. split; [exact Hw|exact Hpos].
  - exact (write_refines_screen [65; 8; 8] _ _ blank_shows ltac:(by repeat constructor) ltac:(simpl; lia)).
Defined.

(** Two consoles with their terminals, before the first is shown. *)
Definition sample_consoles : consoles :=
  MkCon (<[100 := replicate 2000 0]> (<[10 := replicate 2000 65]> (<[11 := replicate 2000 66]> ∅)))
    (<[1 := MkVc 0 5 (Some 3) (Some 10) false]> (<[2 := MkVc 0 0 (Some 4) (Some 11) false]> ∅))
    (<[3 := new_terminal (replicate 64 0)]> (<[4 := new_terminal (replicate 64 0)]> ∅))
    (MkPc [1; 2] None false 100 None None) 0 true.

Ltac find_vc := intros [[<- <-]|[_ [[<- <-]|[_ ?]]%lookup_insert_Some]]%lookup_insert_Some; simpl; [| |by rewrite lookup_empty in *].

Lemma sample_consoles_ok : consoles_ok sample_consoles.
Proof.
  split; [by eexists|..|done|]; cbn [sample_consoles vcs pc pc_vcs current_vc video_ram_address].
  - intros a v. find_vc; (split; [lia|]); eexists; (split; [done|]); by eexists.
  - intros a1 a2 v1 v2. find_vc; find_vc; congruence.
  - intros a Ha. repeat (apply elem_of_cons in Ha as [->|Ha]; [by eexists|]). by apply elem_of_nil in Ha.
  - intros a v. find_vc; done.
Qed.

Lemma switching_preserves_views_witness :
  ∃ st', set_current_vc 2 sample_consoles = Ok st' ∧ consoles_ok st' ∧ buffers st' !! 100 = Some (replicate 2000 66) ∧
    view st' 1 = Some (replicate 2000 65).
Proof.
  destruct (switching_preserves_views sample_consoles 2 sample_consoles_ok ltac:(by eexists))
    as (st' & Hs & Hok & [Hv _] & _ & Hb & _).
  exists st'. split; [exact Hs|]. split; [exact Hok|]. split.
  - assert (video_ram_address (pc st') = 100) as <-; [|exact Hb].
    assert (E : video_ram_address (pc st') = match set_current_vc 2 sample_consoles with Ok s => video_ram_address (pc s) | Err _ => 0 end)
      by (rewrite Hs; reflexivity). rewrite E. vm_compute. reflexivity.
  - rewrite Hv. reflexivity.
Defined.

(** Console 1 shown: left shift and A, release of shift, A again, return. *)
Definition typing : consoles :=
  put_pc (MkPc [1; 2] (Some 1) false 100 (Some 10) (Some 1)) sample_consoles.

Lemma typing_feeds : feeds typing 1 3 0 (new_terminal (replicate 64 0)).
Proof. split; try done. by eexists. Qed.

Lemma typed_text_is_read_witness :
  ∃ st' tm' tm'', for_each [42; 30; 158; 170; 30; 158; 28] (λ b, handle_key_event (s8 b)) typing = Ok st' ∧
    terminals st' !! 3 = Some tm' ∧ terminal_read 1 3 tm' = Ok ([65; 97; 10], tm'') ∧ pending tm'' = [].
Proof.
  apply (typed_text_is_read [42; 30; 158; 170; 30; 158; 28] typing 1 3 0 (new_terminal (replicate 64 0)) 1 typing_feeds eq_refl).
  - by repeat constructor.
  - apply Nat.leb_le. vm_compute. reflexivity.
Defined.

Lemma scancode_bounds_witness : scancode_to_key (s8 69) = Err OutOfBounds ∧ scancode_to_key (s8 158) = Ok KEY_A.
Proof. split; [exact (scancode_bounds 69 ltac:(done))|exact (scancode_bounds 158 ltac:(done))]. Defined.
