(* ===== verification/Dt.v ===== *)
(** * Descriptor tables

    The segment, task state and gate descriptors of include/arch/x86/dt.h and
    the tables that hold them (arch/x86/dt.cpp).

    A descriptor is the list of its bit fields, in the order of the structure:
    the fields of a packed structure follow each other from the lowest bit on.
    A field that the constructor does not write has an arbitrary value.  [Thread]
    gives the selectors of new threads, which the tables have to serve. *)

From S2P Require Import Prelude Thread.
Local Open Scope Z_scope.

(** ** Bit fields *)

(** The word of a list of fields (width, value). *)
Fixpoint pack (fields : list (Z * Z)) : Z :=
  match fields with
  | [] => 0
  | (w, x) :: fields' => x mod 2 ^ w + 2 ^ w * pack fields'
  end.

(** Bits [lo] to [lo + w - 1]. *)
Definition bits (lo w x : Z) : Z := (x / 2 ^ lo) mod 2 ^ w.

Fixpoint total_width (fields : list (Z * Z)) : Z :=
  match fields with [] => 0 | (w, _) :: fields' => w + total_width fields' end.

(** ** Descriptors *)

Definition DataSegmentDescriptor (dpl : Z) : Z :=
  pack [(16, 0); (16, 0); (8, 0);                           (* limit_low, base_low, base_middle *)
        (1, 0); (1, 1); (1, 0); (1, 0);                     (* A, W, E, ra_0_0 *)
        (1, 1); (2, dpl); (1, 1);                           (* ra_1_1, DPL, P *)
        (4, 0); (1, 0); (1, 0); (1, 1); (1, 0); (8, 0)].    (* limit_high, AVL, ra_0_2, B, G, base_high *)

Definition CodeSegmentDescriptor (dpl : Z) : Z :=
  pack [(32, 0); (8, 0);                                    (* ra_0_1, ra_0_2 *)
        (1, 0); (1, 1); (1, 0);                             (* A, R, C *)
        (1, 1); (1, 1); (2, dpl); (1, 1);                   (* ra_1_3, ra_1_4, DPL, P *)
        (4, 0); (1, 0); (1, 1); (1, 0); (1, 0); (8, 0)].    (* ra_0_5, AVL, L, D, G, ra_0_6 *)

(** The two words of a TSS descriptor; [junk] is the reserved field. *)
Definition TSSDescriptor (junk ptr size : Z) : Z * Z :=
  (pack [(16, Z.land size 0xffff); (16, Z.land ptr 0xffff); (8, Z.land (Z.shiftr ptr 16) 0xff);
         (4, 9); (1, 0); (2, 0); (1, 1);                    (* Type, ra_0_0, DPL, P *)
         (4, Z.land (Z.shiftr size 16) 0xf); (1, 0); (1, 0); (1, 1); (1, 0);
         (8, Z.land (Z.shiftr ptr 24) 0xff)],
   pack [(32, Z.shiftr ptr 32); (32, junk)]).

(** The two words of an interrupt gate; [junk] is [ra_0_1]. *)
Definition InterruptGateDescriptor (junk offset seg dpl : Z) : Z * Z :=
  (pack [(16, Z.land offset 0xffff); (16, seg); (3, 0); (10, 0x1c0); (2, dpl); (1, 1);
         (16, Z.land (Z.shiftr offset 16) 0xffff)],
   pack [(32, Z.land (Z.shiftr offset 32) 0xffffffff); (32, junk)]).

(** The two words of a trap gate.  [ist] has two bits here, so a bit of padding
    follows [P] before the next byte; [pad] is what it holds. *)
Definition TrapGateDescriptor (junk pad offset seg dpl : Z) : Z * Z :=
  (pack [(16, Z.land offset 0xffff); (16, seg); (2, 0); (10, 0x1e0); (2, dpl); (1, 1); (1, pad);
         (16, Z.land (Z.shiftr offset 16) 0xffff)],
   pack [(32, Z.land (Z.shiftr offset 32) 0xffffffff); (32, junk)]).

(** ** The tables *)

Record GDT := MkGdt { gdt_current : Z; gdt_entries : list Z }.

Definition gdt_erase (g : GDT) : GDT := MkGdt 0 (gdt_entries g).

(** The tail that the [add_] functions share: store a word and move on. *)
Definition gdt_push (x : Z) (g : GDT) : result GDT :=
  l ← wr (gdt_entries g) (gdt_current g) x; Ok (MkGdt (u8 (gdt_current g + 1)) l).

Definition add_null (g : GDT) : result (bool * GDT) :=
  if gdt_current g >=? 16 then Ok (false, g) else g ← gdt_push 0 g; Ok (true, g).
Definition add_code_segment (dpl : Z) (g : GDT) : result (bool * GDT) :=
  if gdt_current g >=? 16 then Ok (false, g) else g ← gdt_push (CodeSegmentDescriptor dpl) g; Ok (true, g).
Definition add_data_segment (dpl : Z) (g : GDT) : result (bool * GDT) :=
  if gdt_current g >=? 16 then Ok (false, g) else g ← gdt_push (DataSegmentDescriptor dpl) g; Ok (true, g).
Definition add_tss (junk ptr size : Z) (g : GDT) : result (bool * GDT) :=
  if gdt_current g >=? 16 - 1 then Ok (false, g) else
  let '(lo, hi) := TSSDescriptor junk ptr size in
  g ← gdt_push lo g; g ← gdt_push hi g; Ok (true, g).

(** [GDT::init]; [tss] is the address of the task state, of 26 words.  The
    result is the length [reload] gives to the processor. *)
Definition gdt_init (junk tss : Z) (g : GDT) : result (option Z * GDT) :=
  let g := gdt_erase g in
  '(b, g) ← add_null g; if negb b then Ok (None, g) else
  '(b, g) ← add_code_segment 0 g; if negb b then Ok (None, g) else
  '(b, g) ← add_data_segment 0 g; if negb b then Ok (None, g) else
  '(b, g) ← add_code_segment 3 g; if negb b then Ok (None, g) else
  '(b, g) ← add_data_segment 3 g; if negb b then Ok (None, g) else
  '(b, g) ← add_tss junk tss 208 g; if negb b then Ok (None, g) else
  Ok (Some (u16 (gdt_current g * 8)), g).

Record IDT := MkIdt { idt_max_index : Z; idt_entries : list (Z * Z) }.

(** [IDT::init] and the length that [IDT::reload] gives to the processor. *)
Definition idt_init (d : IDT) : IDT := MkIdt 0 (replicate 256 (0, 0)).
Definition idt_length (d : IDT) : Z := u16 ((idt_max_index d + 1) * 16).

(** The tail that the two [register_] functions share. *)
Definition idt_store (index : Z) (desc : Z * Z) (d : IDT) : result (bool * IDT) :=
  if index >=? 256 then Ok (false, d) else
  l ← wr (idt_entries d) index desc;
  Ok (true, MkIdt (if index >? idt_max_index d then u8 index else idt_max_index d) l).

Definition register_interrupt_gate (junk index addr seg dpl : Z) (d : IDT) : result (bool * IDT) :=
  idt_store index (InterruptGateDescriptor junk addr seg dpl) d.
Definition register_trap_gate (junk pad index addr seg dpl : Z) (d : IDT) : result (bool * IDT) :=
  idt_store index (TrapGateDescriptor junk pad addr seg dpl) d.

(** [TSS::set_kernel_stack]: the words of the task state as bytes; the stack
    pointer of ring 0 is at offset 4. *)
Definition set_kernel_stack (stack : Z) (tss : list Z) : result (list Z) :=
  for_range 0 8 (λ i t, wr t (4 + i) (u8 (Z.shiftr stack (8 * i)))) tss.

(** ** What the processor reads *)

Definition gate_offset (g : Z * Z) : Z := bits 0 16 (fst g) + 2 ^ 16 * bits 48 16 (fst g) + 2 ^ 32 * bits 0 32 (snd g).
Definition gate_selector (g : Z * Z) : Z := bits 16 16 (fst g).
Definition gate_ist (g : Z * Z) : Z := bits 32 3 (fst g).
Definition gate_type (g : Z * Z) : Z := bits 40 4 (fst g).
Definition gate_dpl (g : Z * Z) : Z := bits 45 2 (fst g).
Definition gate_present (g : Z * Z) : Z := bits 47 1 (fst g).

(** ** Reading fields back *)

Lemma bits_pack_here lo w x fields : lo = 0 → 0 ≤ w → bits lo w (pack ((w, x) :: fields)) = x mod 2 ^ w.
Proof.
  intros -> Hw. unfold bits. cbn [pack]. pose proof (pow2_pos w Hw).
  rewrite Z.pow_0_r, Z.div_1_r, Z.mul_comm, Z.mod_add by lia. by rewrite Z.mod_mod by lia.
Qed.

Lemma bits_pack_there lo n w x fields : 0 ≤ w ≤ lo → bits lo n (pack ((w, x) :: fields)) = bits (lo - w) n (pack fields).
Proof.
  intros Hw. unfold bits. cbn [pack]. pose proof (pow2_pos w ltac:(lia)). pose proof (pow2_pos (lo - w) ltac:(lia)).
  replace (2 ^ lo) with (2 ^ w * 2 ^ (lo - w)) by (rewrite <- Z.pow_add_r by lia; f_equal; lia).
  rewrite <- Z.div_div, Z.mul_comm, Z.div_add by lia. rewrite (Z.div_small (x mod _)) by (by apply Z.mod_pos_bound). done.
Qed.

(** Looks a field up in a packed word. *)
Ltac field := repeat (rewrite bits_pack_there by lia); rewrite bits_pack_here by lia.

Lemma mod_add_high a k m n : 0 ≤ n ≤ m → (a + 2 ^ m * k) mod 2 ^ n = a mod 2 ^ n.
Proof.
  intros Hn. pose proof (pow2_pos n ltac:(lia)).
  replace (2 ^ m * k) with (2 ^ (m - n) * k * 2 ^ n); [by rewrite Z.mod_add by lia|].
  replace (2 ^ m) with (2 ^ (m - n) * 2 ^ n) by (rewrite <- Z.pow_add_r by lia; f_equal; lia). lia.
Qed.

Lemma bits_high lo n a k w : 0 ≤ lo → 0 ≤ n → lo + n ≤ w → bits lo n (a + 2 ^ w * k) = bits lo n a.
Proof.
  intros. unfold bits. pose proof (pow2_pos lo ltac:(lia)).
  replace (2 ^ w * k) with (2 ^ (w - lo) * k * 2 ^ lo).
  - rewrite Z.div_add by lia. apply mod_add_high. lia.
  - replace (2 ^ w) with (2 ^ (w - lo) * 2 ^ lo) by (rewrite <- Z.pow_add_r by lia; f_equal; lia). lia.
Qed.

(** A part of the first field. *)
Lemma bits_pack_within lo n w x fields :
  0 ≤ lo → 0 ≤ n → lo + n ≤ w → bits lo n (pack ((w, x) :: fields)) = bits lo n x.
Proof.
  intros. cbn [pack]. rewrite bits_high by lia. pose proof (pow2_pos w ltac:(lia)).
  rewrite <- (bits_high lo n (x mod 2 ^ w) (x / 2 ^ w) w) by lia. f_equal. rewrite (Z.div_mod x (2 ^ w)) at 3 by lia. lia.
Qed.

Lemma low_part x w : 0 ≤ w → Z.land x (Z.ones w) mod 2 ^ w = x mod 2 ^ w.
Proof. intros. pose proof (pow2_pos w). by rewrite Z.land_ones, Z.mod_mod by lia. Qed.

(** An address is its 16, 16 and 32-bit parts. *)
Lemma offset_parts x :
  fits 64 x →
  Z.land x 0xffff mod 2 ^ 16 + 2 ^ 16 * (Z.land (Z.shiftr x 16) 0xffff mod 2 ^ 16) +
    2 ^ 32 * (Z.land (Z.shiftr x 32) 0xffffffff mod 2 ^ 32) = x.
Proof.
  intros Hx. change 0xffff with (Z.ones 16). change 0xffffffff with (Z.ones 32). rewrite !low_part by lia.
  rewrite !Z.shiftr_div_pow2 by lia. unfold fits in Hx.
  rewrite (Z.mod_small (x / 2 ^ 32)) by (split; [apply Z.div_pos; lia|apply Z.div_lt_upper_bound; lia]).
  pose proof (Z.div_mod x (2 ^ 16) ltac:(lia)). pose proof (Z.div_mod (x / 2 ^ 16) (2 ^ 16) ltac:(lia)) as H2.
  rewrite Z.div_div in H2 by lia. change (2 ^ 16 * 2 ^ 16) with (2 ^ 32) in H2. lia.
Qed.

Lemma interrupt_gate_spec junk offset seg dpl :
  fits 64 offset → fits 16 seg → fits 2 dpl →
  let g := InterruptGateDescriptor junk offset seg dpl in
  gate_offset g = offset ∧ gate_selector g = seg ∧ gate_ist g = 0 ∧ gate_type g = 14 ∧ gate_dpl g = dpl ∧ gate_present g = 1.
Proof.
  intros Ho Hs Hd g. unfold gate_offset, gate_selector, gate_ist, gate_type, gate_dpl, gate_present, g, InterruptGateDescriptor.
  cbn [fst snd]. split_and!.
  - rewrite (bits_pack_here 0 16), (bits_pack_here 0 32) by lia. field. by apply offset_parts.
  - field. by apply Z.mod_small.
  - by field.
  - do 3 rewrite bits_pack_there by lia. by rewrite bits_pack_within by lia.
  - field. by apply Z.mod_small.
  - by field.
Qed.

(** The trap gate, whose fields are one bit too low. *)
Lemma trap_gate_spec junk pad offset seg dpl :
  fits 2 dpl →
  let g := TrapGateDescriptor junk pad offset seg dpl in
  gate_type g = 7 ∧ gate_dpl g = dpl / 2 + 2 ∧ gate_present g = pad mod 2.
Proof.
  intros Hd g. unfold gate_type, gate_dpl, gate_present, g, TrapGateDescriptor. cbn [fst snd]. split_and!.
  - do 3 rewrite bits_pack_there by lia. by rewrite bits_pack_within by lia.
  - do 4 rewrite bits_pack_there by lia. unfold bits. cbn [pack]. change (45 - 16 - 16 - 2 - 10) with 1.
    rewrite (Z.mod_small dpl) by done. change (1 mod 2 ^ 1) with 1.
    set (k := pad mod 2 ^ 1 + _). replace (dpl + 2 ^ 2 * (1 + 2 ^ 1 * k)) with (dpl + (2 + 2 ^ 2 * k) * 2 ^ 1) by lia.
    rewrite Z.div_add by lia. change (2 ^ 1) with 2. rewrite Z.add_assoc.
    rewrite mod_add_high by lia. apply Z.mod_small. unfold fits in Hd. pose proof (Z.div_mod dpl 2). pose proof (Z.mod_pos_bound dpl 2). lia.
  - by field.
Qed.

(** The words [gdt_init] stores and the length it loads. *)
Lemma gdt_init_spec junk tss g :
  length (gdt_entries g) = 16%nat →
  ∃ rest, gdt_init junk tss g =
    Ok (Some 56, MkGdt 7 ([0; CodeSegmentDescriptor 0; DataSegmentDescriptor 0; CodeSegmentDescriptor 3;
                           DataSegmentDescriptor 3; fst (TSSDescriptor junk tss 208); snd (TSSDescriptor junk tss 208)] ++ rest)).
Proof.
  intros Hl. destruct g as [cur l]. simpl in Hl. do 16 (destruct l as [|? l]; [done|]). destruct l; [|done].
  eexists. reflexivity.
Qed.

(** ** Segments *)

Definition seg_dpl (d : Z) : Z := bits 45 2 d.
Definition seg_present (d : Z) : Z := bits 47 1 d.
(** Present, code or data, executable: a 64-bit code segment. *)
Definition is_code64 (d : Z) : bool := (bits 43 2 d =? 3) && (seg_present d =? 1) && (bits 53 1 d =? 1) && (bits 54 1 d =? 0).
(** Present, data, writable. *)
Definition is_data (d : Z) : bool := (bits 43 2 d =? 2) && (seg_present d =? 1) && (bits 41 1 d =? 1).

(** The descriptor of a selector. *)
Definition selected (g : GDT) (sel : Z) : option Z := gdt_entries g !! Z.to_nat (sel / 8).

(** C35. The descriptor tables serve the threads.  After [GDT::init] the code
    selector of the context of a new thread, of either privilege, names a present
    64-bit code segment, its stack selector a present writable data segment, and
    both have the privilege level that the selectors ask for. *)
Theorem gdt_serves_threads junk tss g p entry :
  length (gdt_entries g) = 16%nat →
  ∃ g', gdt_init junk tss g = Ok (Some 56, g') ∧
    ∃ c s, selected g' (nth 3 (initial_words p entry) 0) = Some c ∧ selected g' (nth 0 (initial_words p entry) 0) = Some s ∧
      is_code64 c = true ∧ is_data s = true ∧
      seg_dpl c = nth 3 (initial_words p entry) 0 mod 4 ∧ seg_dpl s = nth 0 (initial_words p entry) 0 mod 4 ∧
      seg_dpl c = (if is_kernel_thread p then 0 else 3).
Proof.
  intros Hl. destruct (gdt_init_spec junk tss g Hl) as (rest & Hg). eexists. split; [exact Hg|].
  destruct p; (eexists _, _; split; [reflexivity|]; split; [reflexivity|]); vm_compute; done.
Qed.

Lemma gdt_serves_threads_witness :
  ∃ g', gdt_init 0 0x1000 (MkGdt 3 (replicate 16 0)) = Ok (Some 56, g') ∧ selected g' 0x1b = Some 0x20fa0000000000.
Proof.
  destruct (gdt_serves_threads 0 0x1000 (MkGdt 3 (replicate 16 0)) User 0) as (g' & Hg & c & s & Hc & _); [reflexivity|].
  exists g'. split; [exact Hg|]. assert (E : Ok (Some 56, g') = gdt_init 0 0x1000 (MkGdt 3 (replicate 16 0))) by (symmetry; exact Hg).
  vm_compute in E. injection E as ->. reflexivity.
Defined.
