(* ===== verification/Irq.v ===== *)
(** * Interrupts

    The interrupt manager (arch/x86/irq.cpp, include/arch/x86/irq.h), interrupt
    objects (kernel/irq.cpp, include/infos/kernel/irq.h), the local and the I/O
    interrupt controller (drivers/irq/lapic.cpp, drivers/irq/ioapic.cpp) and the
    timer of the local controller (drivers/timer/lapic-timer.cpp).

    Interrupt objects are named by their address.  A handler function is named
    by its address too: dispatching an interrupt yields the function and the
    argument that it is called with.  The registers of the controllers are words
    by register number; what the hardware changes in them by itself is an
    argument of the functions that poll it. *)

From S2P Require Import Prelude Dt.
Local Open Scope Z_scope.

(** ** Interrupt objects *)

Inductive LVTs := LvtTimer | LvtPMU | LvtLINT0 | LvtLINT1 | LvtError.

(** The classes that derive from IRQ. *)
Inductive irq_class := ExceptionIRQ | SoftwareIRQ | IOAPICIRQ | LAPICIRQ (lvt : LVTs).

Record IRQ := MkIrq { irq_kind : irq_class; nr : Z; handler : option Z; priv : Z }.

Definition new_IRQ (k : irq_class) : IRQ := MkIrq k 0 None 0.
Definition assign (q : IRQ) (n : Z) : IRQ := MkIrq (irq_kind q) n (handler q) (priv q).
Definition attach (q : IRQ) (h : option Z) (p : Z) : IRQ := MkIrq (irq_kind q) (nr q) h p.

(** [IRQ::invoke]: the call it makes, if there is a handler. *)
Definition invoke (q : IRQ) : option (Z * Z) := (λ h, (h, priv q)) <$> handler q.

(** What an interrupt does: the handler that is called and whether the local
    controller is told the end of the interrupt. *)
Record effect := MkEffect { called : option (Z * Z); eoi : bool }.

(** [handle] of the classes. *)
Definition exception_handle (q : IRQ) : result effect :=
  match invoke q with None => Err Aborted | c => Ok (MkEffect c false) end.
Definition software_handle (q : IRQ) : result effect :=
  match invoke q with None => Err Aborted | c => Ok (MkEffect c false) end.
Definition ioapic_handle (q : IRQ) : result effect := Ok (MkEffect (invoke q) true).
Definition lapic_handle (q : IRQ) : result effect :=
  match invoke q with None => Err Aborted | c => Ok (MkEffect c true) end.

Definition handle (q : IRQ) : result effect :=
  match irq_kind q with
  | ExceptionIRQ => exception_handle q
  | SoftwareIRQ => software_handle q
  | IOAPICIRQ => ioapic_handle q
  | LAPICIRQ _ => lapic_handle q
  end.

(** ** The manager *)

Definition MAX_IRQS : Z := 256.
Definition IRQ_TRAP : Z := 3.
Definition IRQ_USER_SYSCALL : Z := 0x81.

Record IRQManager := MkMgr {
  descriptors : list (option Z); irqs : gmap Z IRQ; idt : IDT; next_irq : Z }.

(** [new T()]. *)
Definition alloc_irq (k : irq_class) (m : IRQManager) : Z * IRQManager :=
  (next_irq m, MkMgr (descriptors m) (<[next_irq m := new_IRQ k]> (irqs m)) (idt m) (next_irq m + 1)).

(** [irq_descriptors[i].irq(irq); irq->assign(i);] *)
Definition connect (i a : Z) (m : IRQManager) : result IRQManager :=
  d ← wr (descriptors m) i (Some a);
  q ← get NullDeref (irqs m !! a);
  Ok (MkMgr d (<[a := assign q i]> (irqs m)) (idt m) (next_irq m)).

Definition put_idt (d : IDT) (m : IRQManager) : IRQManager := MkMgr (descriptors m) (irqs m) d (next_irq m).

(** [idt.register_interrupt_gate(i, irq_entry_points[i], 0x08, dpl)]; the result
    is not looked at.  [junk] is the reserved field of the gate. *)
Definition set_gate (junk : Z) (entry_points : list Z) (dpl i : Z) (m : IRQManager) : result IRQManager :=
  e ← rd entry_points i;
  '(_, d) ← register_interrupt_gate junk i e 0x08 dpl (idt m);
  Ok (put_idt d m).

(** [IRQManager::init]. *)
Definition irq_init (junk : Z) (entry_points : list Z) (m : IRQManager) : result (bool * IRQManager) :=
  m ← for_range 0 MAX_IRQS (set_gate junk entry_points 0) m;
  m ← set_gate junk entry_points 3 IRQ_TRAP m;
  m ← set_gate junk entry_points 3 IRQ_USER_SYSCALL m;
  m ← for_range 0 32 (λ i m, let '(a, m) := alloc_irq ExceptionIRQ m in connect i a m) m;
  Ok (true, m).

Definition put_irq (a : Z) (q : IRQ) (m : IRQManager) : IRQManager :=
  MkMgr (descriptors m) (<[a := q]> (irqs m)) (idt m) (next_irq m).

(** [irq->attach(handler, priv)] for an object. *)
Definition attach_handler (a : Z) (h : option Z) (p : Z) (m : IRQManager) : result IRQManager :=
  q ← get NullDeref (irqs m !! a); Ok (put_irq a (attach q h p) m).

(** [install_handler<T>]; the vector number is a byte. *)
Definition install_handler (k : irq_class) (n : Z) (h : option Z) (p : Z) (m : IRQManager) : result (bool * IRQManager) :=
  let n := u8 n in
  if n >=? MAX_IRQS then Ok (false, m) else
  d ← rd (descriptors m) n;
  m ← match d with
      | None => let '(a, m) := alloc_irq k m in connect n a m
      | Some _ => Ok m
      end;
  d ← rd (descriptors m) n;
  a ← get NullDeref d;
  m ← attach_handler a h p m;
  Ok (true, m).

Definition install_exception_handler := install_handler ExceptionIRQ.
Definition install_software_handler := install_handler SoftwareIRQ.

(** [attach_irq]: the first free vector from 32 on. *)
Fixpoint attach_from (fuel : nat) (i a : Z) (m : IRQManager) : result (bool * IRQManager) :=
  match fuel with
  | O => Ok (false, m)
  | S fuel' =>
      d ← rd (descriptors m) i;
      match d with
      | None => m ← connect i a m; Ok (true, m)
      | Some _ => attach_from fuel' (i + 1) a m
      end
  end.

Definition attach_irq (a : option Z) (m : IRQManager) : result (bool * IRQManager) :=
  match a with None => Ok (false, m) | Some a => attach_from (Z.to_nat (0x100 - 0x20)) 0x20 a m end.

(** [__handle_raw_irq]; a vector without an object is only reported. *)
Definition handle_raw_irq (n : Z) (m : IRQManager) : result effect :=
  _ ← cassert (n <? MAX_IRQS);
  d ← rd (descriptors m) (u8 n);
  match d with
  | None => Ok (MkEffect None false)
  | Some a => q ← get NullDeref (irqs m !! a); handle q
  end.

(** ** The local controller *)

Abbreviation regs := (gmap Z Z) (only parsing).

Definition lapic_write (reg v : Z) (r : regs) : regs := <[reg := u32 v]> r.
Definition lapic_read (reg : Z) (r : regs) : Z := default 0 (r !! reg).
Definition set_flag (reg v : Z) (r : regs) : regs := lapic_write reg (Z.lor (lapic_read reg r) v) r.
Definition clear_flag (reg v : Z) (r : regs) : regs := lapic_write reg (Z.land (lapic_read reg r) (u32 (Z.lnot v))) r.

Definition MASKED : Z := 0x10000.
Definition PERIODIC : Z := 0x20000.
Definition DELIVS : Z := 0x1000.

(** The registers by name. *)
Definition VER : Z := 0x30.
Definition TPR : Z := 0x80.
Definition EOI : Z := 0xb0.
Definition SVR : Z := 0xf0.
Definition ESR : Z := 0x280.
Definition ICRLO : Z := 0x300.
Definition ICRHI : Z := 0x310.
Definition TIMER : Z := 0x320.
Definition PCINT : Z := 0x340.
Definition LINT0 : Z := 0x350.
Definition LINT1 : Z := 0x360.
Definition ERROR : Z := 0x370.
Definition TICR : Z := 0x380.
Definition TCCR : Z := 0x390.
Definition TDCR : Z := 0x3e0.

Definition lvt_reg (l : LVTs) : Z :=
  match l with LvtTimer => TIMER | LvtPMU => PCINT | LvtLINT0 => LINT0 | LvtLINT1 => LINT1 | LvtError => ERROR end.

Definition mask_interrupts (l : LVTs) (r : regs) : regs := set_flag (lvt_reg l) MASKED r.
Definition unmask_interrupts (l : LVTs) (r : regs) : regs := clear_flag (lvt_reg l) MASKED r.

Definition set_timer_irq (irq : Z) (r : regs) : regs :=
  lapic_write TIMER (Z.lor (Z.land (lapic_read TIMER r) (u32 (Z.lnot 0xff))) (u8 irq)) r.
Definition set_timer_divide (v : Z) (r : regs) : regs := lapic_write TDCR (u8 v) r.
Definition set_timer_initial_count (v : Z) (r : regs) : regs := lapic_write TICR (u32 v) r.
Definition set_timer_one_shot (r : regs) : regs := clear_flag TIMER PERIODIC r.
Definition set_timer_periodic (r : regs) : regs := set_flag TIMER PERIODIC r.

(** The wait for pending deliveries; [polls] are the values the register reads. *)
Fixpoint wait_delivery (polls : list Z) : result unit :=
  match polls with
  | [] => Err Hang
  | v :: polls' => if negb (Z.land v DELIVS =? 0) then wait_delivery polls' else Ok tt
  end.

(** [LAPIC::init]; the result holds the timer interrupt. *)
Definition lapic_init (polls : list Z) (r : regs) (m : IRQManager) : result (option Z * regs * IRQManager) :=
  let r := lapic_write SVR 0x1ff r in
  let r := lapic_write ERROR MASKED (lapic_write LINT1 MASKED (lapic_write LINT0 MASKED (lapic_write TIMER MASKED r))) in
  let r := if Z.land (Z.shiftr (lapic_read VER r) 16) 0xff >=? 4 then lapic_write PCINT MASKED r else r in
  let r := lapic_write EOI 0 (lapic_write ESR 0 (lapic_write ESR 0 r)) in
  let r := lapic_write ICRLO (Z.lor (Z.lor 0x80000 0x500) 0x8000) (lapic_write ICRHI 0 r) in
  _ ← wait_delivery polls;
  let r := lapic_write TPR 0 r in
  let '(a, m) := alloc_irq (LAPICIRQ LvtTimer) m in
  '(b, m) ← attach_irq (Some a) m;
  if negb (b : bool) then Ok (None, r, m) else
  q ← get NullDeref (irqs m !! a);
  Ok (Some a, set_timer_irq (nr q) r, m).

(** ** The I/O controller *)

Record IOAPIC := MkIo { io_regs : regs; nr_irqs : Z }.

(** Through the index register and the window. *)
Definition ioapic_write (reg v : Z) (c : IOAPIC) : IOAPIC := MkIo (<[reg := u32 v]> (io_regs c)) (nr_irqs c).
Definition ioapic_read (reg : Z) (c : IOAPIC) : Z := default 0 (io_regs c !! reg).

(** The low word of a redirection entry.  The second word of the structure is
    64 bits further on and stays 0. *)
Definition RedirectionEntry (vector delivery_mode destination_mode delivery_status pin_polarity remote_irr trigger_mode mask destination : Z) : Z :=
  pack [(8, vector); (3, delivery_mode); (1, destination_mode); (1, delivery_status); (1, pin_polarity);
        (1, remote_irr); (1, trigger_mode); (1, mask); (7, 0); (8, destination)].

Definition store_redir_entry (irq_index low high : Z) (c : IOAPIC) : result IOAPIC :=
  _ ← cassert (irq_index <? nr_irqs c);
  let configuration_register := u8 (0x10 + irq_index * 2) in
  Ok (ioapic_write (configuration_register + 1) high (ioapic_write configuration_register low c)).

Definition ioapic_init (c : IOAPIC) : result (bool * IOAPIC) :=
  let ver := ioapic_read 1 c in
  let c := MkIo (io_regs c) (u8 (Z.shiftr ver 16)) in
  c ← for_range 0 (nr_irqs c) (λ i c, store_redir_entry (u8 i) 0 0 c) c;
  Ok (true, c).

Definition request_physical_irq (lapic : bool) (phys_irq_nr : Z) (c : IOAPIC) (m : IRQManager)
    : result (option Z * IOAPIC * IRQManager) :=
  if negb lapic then Ok (None, c, m) else
  if phys_irq_nr >=? nr_irqs c then Ok (None, c, m) else
  let '(a, m) := alloc_irq IOAPICIRQ m in
  '(b, m) ← attach_irq (Some a) m;
  if negb (b : bool) then Ok (None, c, m) else
  q ← get NullDeref (irqs m !! a);
  c ← store_redir_entry (u8 phys_irq_nr) (RedirectionEntry (nr q) 0 0 0 0 0 0 0 0) 0 c;
  Ok (Some a, c, m).

(** ** The timer *)

(** [LAPICTimer::calibrate], with the count that the measurement leaves; the
    arithmetic is 32 bits wide. *)
Definition calibrate (ticks : Z) : Z :=
  let ticks_per_period := u32 (u32 (0xffffffff - ticks) + 1) in
  let ticks_per_period := u32 (Z.shiftl ticks_per_period 4) in
  u32 (ticks_per_period * 100).

Definition timer_reset (r : regs) : regs := set_timer_initial_count 0 (mask_interrupts LvtTimer r).
Definition init_oneshot (period : Z) (r : regs) : regs :=
  set_timer_initial_count period (set_timer_one_shot (timer_reset r)).
Definition init_periodic (period : Z) (r : regs) : regs :=
  set_timer_initial_count period (set_timer_periodic (timer_reset r)).
Definition timer_start (r : regs) : regs := unmask_interrupts LvtTimer r.
Definition timer_stop (r : regs) : regs := mask_interrupts LvtTimer r.

(** The end of [timer_init]: a periodic timer with the calibrated period. *)
Definition start_system_timer (frequency : Z) (r : regs) : regs :=
  timer_start (init_periodic (Z.shiftr frequency 4 / 100) r).

(** ** Invariant of the manager *)

(** Every vector that is taken belongs to an object that knows its number, so
    no object has two vectors. *)
Record mgr_ok (m : IRQManager) : Prop := {
  mo_len : length (descriptors m) = 256%nat;
  mo_nr : ∀ (i : nat) a, descriptors m !! i = Some (Some a) → ∃ q, irqs m !! a = Some q ∧ nr q = Z.of_nat i;
  mo_next : ∀ a q, irqs m !! a = Some q → a < next_irq m }.

(** Vectors keep their owner, owners keep their class. *)
Definition keeps (m m' : IRQManager) : Prop :=
  (∀ (i : nat) a, descriptors m !! i = Some (Some a) → descriptors m' !! i = Some (Some a)) ∧
  (∀ a q, irqs m !! a = Some q → ∃ q', irqs m' !! a = Some q' ∧ irq_kind q' = irq_kind q) ∧
  idt m' = idt m.

#[export] Instance keeps_preorder : PreOrder keeps.
Proof.
  split; [intros m; by repeat split; eauto|]. intros m1 m2 m3 (Hd1 & Hq1 & Hi1) (Hd2 & Hq2 & Hi2). split_and!; [auto| |congruence].
  intros a q Hq. destruct (Hq1 a q Hq) as (q2 & Hq' & Hk). destruct (Hq2 a q2 Hq') as (q3 & Hq3 & Hk'). exists q3. split; [done|congruence].
Qed.

Lemma alloc_irq_ok k m :
  mgr_ok m → let '(a, m') := alloc_irq k m in
  mgr_ok m' ∧ keeps m m' ∧ irqs m !! a = None ∧ irqs m' !! a = Some (new_IRQ k) ∧ descriptors m' = descriptors m ∧
  ∀ i : nat, descriptors m' !! i ≠ Some (Some a).
Proof.
  intros Hok. unfold alloc_irq. assert (Hn : irqs m !! next_irq m = None).
  { destruct (irqs m !! next_irq m) eqn:E; [|done]. apply (mo_next _ Hok) in E. lia. }
  split_and!; [split; simpl; [apply Hok|..]|..]; simpl.
  - intros i a Hi. destruct (mo_nr _ Hok i a Hi) as (q & Hq & Hnr). exists q. rewrite lookup_insert_ne by congruence. done.
  - intros a q [[<- _]|[_ Hq]]%lookup_insert_Some; [lia|]. apply (mo_next _ Hok) in Hq. lia.
  - split; simpl; [done|]. split; [|done]. intros a q Hq. exists q. rewrite lookup_insert_ne by congruence. done.
  - done.
  - by rewrite lookup_insert_eq.
  - done.
  - intros i Hi. destruct (mo_nr _ Hok i _ Hi) as (q & Hq & _). congruence.
Qed.

Lemma connect_ok (i : nat) a q m :
  mgr_ok m → (i < 256)%nat → descriptors m !! i = Some None → irqs m !! a = Some q →
  (∀ j : nat, descriptors m !! j ≠ Some (Some a)) →
  ∃ m', connect (Z.of_nat i) a m = Ok m' ∧ mgr_ok m' ∧ keeps m m' ∧ descriptors m' = <[i := Some a]> (descriptors m) ∧
    irqs m' !! a = Some (assign q (Z.of_nat i)).
Proof.
  intros Hok Hi Hd Hq Hfree. unfold connect. rewrite wr_total by (rewrite (mo_len _ Hok); lia). rewrite bind_Ok, Hq. ok_step.
  rewrite Nat2Z.id. eexists. split; [done|]. split_and!; [split|..|done|simpl; by rewrite lookup_insert_eq]; simpl.
  - rewrite length_insert. apply Hok.
  - intros j b [(<- & [= <-] & _)|[Hj Hb]]%list_lookup_insert_Some; [eexists; by rewrite lookup_insert_eq|].
    destruct (mo_nr _ Hok j b Hb) as (q' & Hq' & Hnr). exists q'. rewrite lookup_insert_ne; [done|]. intros ->. by eapply Hfree.
  - intros b q' [[<- _]|[_ Hb]]%lookup_insert_Some; by eapply (mo_next _ Hok).
  - split; simpl; [|split; [|done]].
    + intros j b Hj. rewrite list_lookup_insert_ne; [done|]. intros ->. congruence.
    + intros b q' Hb. destruct (decide (a = b)) as [<-|].
      * rewrite Hq in Hb. injection Hb as <-. eexists. by rewrite lookup_insert_eq.
      * exists q'. by rewrite lookup_insert_ne.
Qed.

(** The search for a free vector. *)
Lemma attach_from_spec fuel (i : nat) a q m :
  mgr_ok m → irqs m !! a = Some q → (∀ j : nat, descriptors m !! j ≠ Some (Some a)) → (i + fuel = 256)%nat →
  (∃ (k : nat) m', (i ≤ k < 256)%nat ∧ descriptors m !! k = Some None ∧
     (∀ j : nat, (i ≤ j < k)%nat → ∃ b, descriptors m !! j = Some (Some b)) ∧
     attach_from fuel (Z.of_nat i) a m = Ok (true, m') ∧ mgr_ok m' ∧ keeps m m' ∧
     descriptors m' = <[k := Some a]> (descriptors m) ∧ irqs m' !! a = Some (assign q (Z.of_nat k))) ∨
  ((∀ j : nat, (i ≤ j < 256)%nat → ∃ b, descriptors m !! j = Some (Some b)) ∧
     attach_from fuel (Z.of_nat i) a m = Ok (false, m)).
Proof.
  intros Hok Hq Hfree. revert i. induction fuel as [|fuel IH]; intros i Hf; cbn [attach_from].
  { right. split; [lia|done]. }
  destruct (lookup_lt_is_Some_2 (descriptors m) i) as [d Hd]; [rewrite (mo_len _ Hok); lia|].
  rewrite (rd_Ok _ _ d) by (lia || by rewrite Nat2Z.id). rewrite bind_Ok. destruct d as [b|].
  - replace (Z.of_nat i + 1) with (Z.of_nat (S i)) by lia.
    destruct (IH (S i)) as [(k & m' & Hk & Hn & Hall & H)|[Hall H]]; [lia|left|right].
    + exists k, m'. split; [lia|]. split; [done|]. split; [|done]. intros j Hj.
      destruct (decide (j = i)) as [->|]; [by exists b|apply Hall; lia].
    + split; [|done]. intros j Hj. destruct (decide (j = i)) as [->|]; [by exists b|apply Hall; lia].
  - left. destruct (connect_ok i a q m Hok ltac:(lia) Hd Hq Hfree) as (m' & -> & Hok' & Hk & Hd' & Hq').
    exists i, m'. split_and!; try done; lia.
Qed.

Lemma attach_irq_spec a q m :
  mgr_ok m → irqs m !! a = Some q → (∀ j : nat, descriptors m !! j ≠ Some (Some a)) →
  (∃ (k : nat) m', (32 ≤ k < 256)%nat ∧ descriptors m !! k = Some None ∧
     (∀ j : nat, (32 ≤ j < k)%nat → ∃ b, descriptors m !! j = Some (Some b)) ∧
     attach_irq (Some a) m = Ok (true, m') ∧ mgr_ok m' ∧ keeps m m' ∧
     descriptors m' = <[k := Some a]> (descriptors m) ∧ irqs m' !! a = Some (assign q (Z.of_nat k))) ∨
  ((∀ j : nat, (32 ≤ j < 256)%nat → ∃ b, descriptors m !! j = Some (Some b)) ∧ attach_irq (Some a) m = Ok (false, m)).
Proof. intros Hok Hq Hf. exact (attach_from_spec 224 32 a q m Hok Hq Hf eq_refl). Qed.

Lemma attach_handler_ok a q h p m :
  mgr_ok m → irqs m !! a = Some q → ∃ m', attach_handler a h p m = Ok m' ∧ mgr_ok m' ∧ keeps m m' ∧
    descriptors m' = descriptors m ∧ irqs m' !! a = Some (attach q h p).
Proof.
  intros Hok Hq. unfold attach_handler. rewrite Hq. ok_step. eexists. split; [done|].
  split_and!; [split|..|done|simpl; by rewrite lookup_insert_eq]; simpl.
  - apply Hok.
  - intros i b Hb. destruct (mo_nr _ Hok i b Hb) as (q' & Hq' & Hnr). destruct (decide (a = b)) as [<-|].
    + rewrite Hq in Hq'. injection Hq' as <-. eexists. rewrite lookup_insert_eq. done.
    + exists q'. by rewrite lookup_insert_ne.
  - intros b q' [[<- _]|[_ Hb]]%lookup_insert_Some; by eapply (mo_next _ Hok).
  - split; [done|]. split; [|done]. intros b q' Hb. simpl. destruct (decide (a = b)) as [<-|].
    + rewrite Hq in Hb. injection Hb as <-. eexists. rewrite lookup_insert_eq. done.
    + exists q'. by rewrite lookup_insert_ne.
Qed.

Lemma install_handler_ok k n h p m :
  mgr_ok m → ∃ m' a q, install_handler k n h p m = Ok (true, m') ∧ mgr_ok m' ∧ keeps m m' ∧
    descriptors m' !! Z.to_nat (u8 n) = Some (Some a) ∧ irqs m' !! a = Some q ∧ handler q = h ∧ priv q = p.
Proof.
  intros Hok. pose proof (wrap_fits 8 n ltac:(lia)) as Hn. unfold fits in Hn. unfold install_handler. cbv zeta. set (i := Z.to_nat (u8 n)).
  replace (u8 n) with (Z.of_nat i) by lia. assert (i < 256)%nat by lia.
  rewrite Z.geb_leb, (proj2 (Z.leb_gt MAX_IRQS _)) by (unfold MAX_IRQS; lia).
  destruct (lookup_lt_is_Some_2 (descriptors m) i) as [d Hd]; [by rewrite (mo_len _ Hok)|].
  rewrite (rd_Ok _ _ d) by (lia || by rewrite Nat2Z.id). rewrite bind_Ok.
  assert (∃ m1 a q, match d with None => let '(a, m) := alloc_irq k m in connect (Z.of_nat i) a m | Some _ => Ok m end = Ok m1 ∧
    mgr_ok m1 ∧ keeps m m1 ∧ descriptors m1 !! i = Some (Some a) ∧ irqs m1 !! a = Some q) as (m1 & a & q & -> & Hok1 & Hk1 & Hd1 & Hq1).
  { destruct d as [a|].
    - destruct (mo_nr _ Hok i a Hd) as (q & Hq & _). exists m, a, q. split_and!; try done; reflexivity.
    - pose proof (alloc_irq_ok k m Hok) as Ha. destruct (alloc_irq k m) as [a m1].
      destruct Ha as (Hok1 & Hk1 & _ & Hq1 & Hd1 & Hfree).
      destruct (connect_ok i a (new_IRQ k) m1 Hok1) as (m2 & -> & Hok2 & Hk2 & Hd2 & Hq2); [done|by rewrite Hd1|done|done|].
      exists m2, a. eexists. split_and!; [done|done|by etrans| |done].
      rewrite Hd2, list_lookup_insert_eq; [done|]. rewrite (mo_len _ Hok1). lia. }
  rewrite bind_Ok, (rd_Ok _ _ (Some a)) by (lia || by rewrite Nat2Z.id). rewrite bind_Ok. ok_step.
  destruct (attach_handler_ok a q h p m1 Hok1 Hq1) as (m2 & -> & Hok2 & Hk2 & Hd2 & Hq2). rewrite bind_Ok.
  exists m2, a. eexists. split_and!; [done|done|by etrans|by rewrite Hd2|done|done|done].
Qed.

(** ** Start *)

(** What [set_gate] leaves. *)
Lemma set_gate_spec junk entries dpl (i : nat) m e :
  (i < 256)%nat → entries !! i = Some e → length (idt_entries (idt m)) = 256%nat → 0 ≤ idt_max_index (idt m) < 256 →
  ∃ mx, set_gate junk entries dpl (Z.of_nat i) m =
    Ok (put_idt (MkIdt mx (<[i := InterruptGateDescriptor junk e 8 dpl]> (idt_entries (idt m)))) m) ∧
    mx = Z.max (idt_max_index (idt m)) (Z.of_nat i).
Proof.
  intros Hi He Hl Hm. unfold set_gate. rewrite (rd_Ok _ _ e) by (lia || by rewrite Nat2Z.id). rewrite bind_Ok.
  unfold register_interrupt_gate, idt_store. rewrite Z.geb_leb, (proj2 (Z.leb_gt 256 _)) by lia.
  rewrite wr_total, !bind_Ok, Nat2Z.id by lia. eexists. split; [done|].
  rewrite Z.gtb_ltb. destruct (Z.ltb_spec (idt_max_index (idt m)) (Z.of_nat i)); [rewrite wrap_small by (unfold fits; lia)|]; lia.
Qed.

(** The gates after the first [n] turns of the loop. *)
Definition gates (junk : Z) (entries : list Z) : list (Z * Z) :=
  (λ e, InterruptGateDescriptor junk e 8 0) <$> entries.

Lemma gate_loop junk entries m :
  length entries = 256%nat → length (idt_entries (idt m)) = 256%nat → 0 ≤ idt_max_index (idt m) < 256 →
  ∃ m', for_range 0 MAX_IRQS (set_gate junk entries 0) m = Ok m' ∧
    m' = put_idt (MkIdt 255 (gates junk entries)) m.
Proof.
  intros Hle Hl Hm.
  destruct (for_range_total (λ i m', ∃ mx, m' = put_idt (MkIdt mx (take (Z.to_nat i) (gates junk entries) ++ drop (Z.to_nat i) (idt_entries (idt m)))) m ∧
      0 ≤ mx < 256 ∧ i - 1 ≤ mx) 0 MAX_IRQS (set_gate junk entries 0) m) as (m' & -> & mx & -> & Hmx & Hmx2); [done| |..].
  - exists (idt_max_index (idt m)). rewrite take_0, drop_0. split; [by destruct m as [? ? [? ?] ?]|lia].
  - intros i m' Hi (mx & -> & Hmx & Hmx2). unfold MAX_IRQS in Hi. set (k := Z.to_nat i).
    destruct (lookup_lt_is_Some_2 entries k) as [e He]; [lia|].
    assert (Hg : gates junk entries !! k = Some (InterruptGateDescriptor junk e 8 0)) by (unfold gates; by rewrite list_lookup_fmap, He).
    assert (Hgl : length (take k (gates junk entries)) = k) by (rewrite length_take; unfold gates; rewrite length_fmap; lia).
    destruct (set_gate_spec junk entries 0 k (put_idt (MkIdt mx (take k (gates junk entries) ++ drop k (idt_entries (idt m)))) m) e)
      as (mx' & Hs & ->); [lia|done|simpl; rewrite length_app, Hgl, length_drop; lia|done|].
    replace (Z.of_nat k) with i in Hs by lia. rewrite Hs. eexists. split; [done|]. exists (Z.max mx i). split; [|lia].
    unfold put_idt. cbn [descriptors irqs idt next_irq idt_entries idt_max_index]. do 2 f_equal. rewrite insert_app_r_alt by lia. rewrite Hgl, Nat.sub_diag.
    destruct (lookup_lt_is_Some_2 (idt_entries (idt m)) k) as [y Hy]; [lia|]. rewrite (drop_S _ y k Hy). cbn [insert list_insert].
    replace (Z.to_nat (i + 1)) with (S k) by lia. by rewrite (take_S_r _ _ _ Hg), <- app_assoc.
  - eexists. split; [done|]. unfold MAX_IRQS in *. change (Z.to_nat 256) with 256%nat.
    rewrite take_ge, drop_ge, app_nil_r by (unfold gates; rewrite ?length_fmap; lia). do 2 f_equal. lia.
Qed.

Lemma exception_loop m :
  mgr_ok m → descriptors m = replicate 256 None →
  ∃ m', for_range 0 32 (λ i m, let '(a, m) := alloc_irq ExceptionIRQ m in connect i a m) m = Ok m' ∧
    mgr_ok m' ∧ idt m' = idt m ∧
    (∀ i : nat, (i < 32)%nat → ∃ a q, descriptors m' !! i = Some (Some a) ∧ irqs m' !! a = Some q ∧ irq_kind q = ExceptionIRQ) ∧
    (∀ i : nat, (32 ≤ i < 256)%nat → descriptors m' !! i = Some None).
Proof.
  intros Hok Hd.
  destruct (for_range_total (λ i m', mgr_ok m' ∧ idt m' = idt m ∧
    (∀ j : nat, (j < Z.to_nat i)%nat → ∃ a q, descriptors m' !! j = Some (Some a) ∧ irqs m' !! a = Some q ∧ irq_kind q = ExceptionIRQ) ∧
    (∀ j : nat, (Z.to_nat i ≤ j < 256)%nat → descriptors m' !! j = Some None))
    0 32 (λ i m, let '(a, m) := alloc_irq ExceptionIRQ m in connect i a m) m) as (m' & Hrun & H); [lia| | |by exists m'].
  { split_and!; [done|done|simpl; lia|]. intros j Hj. rewrite Hd. apply lookup_replicate_2. lia. }
  intros i m1 Hi (Hok1 & Hidt & Hex & Hno). set (k := Z.to_nat i). 
  pose proof (alloc_irq_ok ExceptionIRQ m1 Hok1) as Ha. assert (Ht : idt (snd (alloc_irq ExceptionIRQ m1)) = idt m1) by done.
  destruct (alloc_irq ExceptionIRQ m1) as [a m2]. simpl in Ht.
  destruct Ha as (Hok2 & Hk2 & _ & Hq2 & Hd2 & Hfree).
  destruct (connect_ok k a (new_IRQ ExceptionIRQ) m2 Hok2) as (m3 & Hc & Hok3 & Hk3 & Hd3 & Hq3); [lia|rewrite Hd2; apply Hno; lia|done|done|].
  replace (Z.of_nat k) with i in Hc by lia. exists m3. split; [done|]. split_and!; [done|..].
  - destruct Hk3 as (_ & _ & ->). congruence.
  - intros j Hj. destruct (decide (j = k)) as [->|].
    + exists a. eexists. rewrite Hd3, list_lookup_insert_eq by (rewrite (mo_len _ Hok2); lia). split_and!; [done|exact Hq3|done].
    + destruct (Hex j) as (b & q & Hb & Hq & Hkind); [lia|]. destruct Hk3 as (Hkd & Hkq & _). destruct Hk2 as (Hkd' & Hkq' & _).
      destruct (Hkq' b q Hq) as (q' & Hq' & E'). destruct (Hkq b q' Hq') as (q'' & Hq'' & E'').
      exists b, q''. split_and!; [by apply Hkd, Hkd'|done|congruence].
  - intros j Hj. rewrite Hd3, list_lookup_insert_ne by lia. rewrite Hd2. apply Hno. lia.
Qed.

(** The manager before [init]: [IRQDescriptor::IRQDescriptor] for every vector. *)
Definition new_manager (d : IDT) (next : Z) : IRQManager := MkMgr (replicate 256 None) ∅ (idt_init d) next.

Lemma new_manager_ok d next : mgr_ok (new_manager d next).
Proof.
  split; [reflexivity| |].
  - intros i a. cbn [new_manager descriptors]. by intros [? _]%lookup_replicate.
  - intros a q. cbn [new_manager irqs]. by rewrite lookup_empty.
Qed.

(** The gate of a vector as [irq_init] leaves it. *)
Definition gate_at (m : IRQManager) (i : nat) : option (Z * Z) := idt_entries (idt m) !! i.

Lemma irq_init_spec junk entries d next :
  length entries = 256%nat →
  ∃ m, irq_init junk entries (new_manager d next) = Ok (true, m) ∧ mgr_ok m ∧ idt_length (idt m) = 4096 ∧
    (∀ (i : nat) e, entries !! i = Some e →
       gate_at m i = Some (InterruptGateDescriptor junk e 8 (if (i =? 3)%nat || (i =? 0x81)%nat then 3 else 0))) ∧
    (∀ i : nat, (i < 32)%nat → ∃ a q, descriptors m !! i = Some (Some a) ∧ irqs m !! a = Some q ∧ irq_kind q = ExceptionIRQ) ∧
    (∀ i : nat, (32 ≤ i < 256)%nat → descriptors m !! i = Some None).
Proof.
  intros Hl. unfold irq_init.
  destruct (gate_loop junk entries (new_manager d next) Hl) as (m1 & -> & Hm1); [reflexivity|simpl; lia|]. rewrite bind_Ok.
  assert (Hg : length (gates junk entries) = 256%nat) by (unfold gates; by rewrite length_fmap).
  destruct (lookup_lt_is_Some_2 entries 3) as [e3 He3]; [lia|]. destruct (lookup_lt_is_Some_2 entries 0x81) as [e81 He81]; [lia|].
  destruct (set_gate_spec junk entries 3 3 m1 e3) as (mx3 & Hs3 & Hmx3); [lia|done|by rewrite Hm1|by rewrite Hm1|].
  change (Z.of_nat 3) with IRQ_TRAP in Hs3. rewrite Hs3, bind_Ok.
  set (m2 := put_idt _ m1). assert (Hmx : mx3 = 255) by (rewrite Hmx3, Hm1; done).
  destruct (set_gate_spec junk entries 3 0x81 m2 e81) as (mx81 & Hs81 & Hmx81); [lia|done| | |].
  { cbn [m2 idt put_idt idt_entries]. rewrite length_insert, Hm1. done. }
  { cbn [m2 idt put_idt idt_max_index]. lia. }
  change (Z.of_nat 0x81) with IRQ_USER_SYSCALL in Hs81. rewrite Hs81, bind_Ok. set (m3 := put_idt _ m2).
  assert (Hok3 : mgr_ok m3).
  { destruct (new_manager_ok d next) as [H1 H2 H3]. unfold m3, m2. rewrite Hm1. split; [exact H1|exact H2|exact H3]. }
  destruct (exception_loop m3 Hok3) as (m & -> & Hok & Hidt & Hex & Hno); [unfold m3, m2; by rewrite Hm1|]. rewrite bind_Ok.
  exists m. split; [done|]. split; [done|]. split; [|split; [|done]].
  - rewrite Hidt. cbn [m3 idt put_idt]. rewrite Hmx81. cbn [m2 idt put_idt idt_max_index]. rewrite Hmx. reflexivity.
  - intros i e He. unfold gate_at. rewrite Hidt. cbn [m3 m2 idt put_idt idt_entries]. rewrite Hm1. cbn [idt put_idt idt_entries].
    pose proof (lookup_lt_Some _ _ _ He) as Hi.
    destruct (Nat.eqb_spec i 0x81) as [->|H81]; [rewrite orb_true_r, list_lookup_insert_eq; [congruence|rewrite length_insert; lia]|].
    rewrite list_lookup_insert_ne by lia.
    destruct (Nat.eqb_spec i 3) as [->|H3]; [rewrite list_lookup_insert_eq by lia; simpl; congruence|].
    rewrite list_lookup_insert_ne by lia. unfold gates. by rewrite list_lookup_fmap, He.
Qed.

(** [IRQManager::init] prepares every vector.  As the processor decodes them,
    the 256 gates are present 64-bit interrupt gates into the kernel code segment
    at the entry point of their own vector; only the breakpoint and the system
    call vector can be raised by user code.  The first 32 vectors belong to
    exception objects and the others are free. *)
Theorem irq_init_correct junk entries d next :
  length entries = 256%nat → Forall (fits 64) entries →
  ∃ m, irq_init junk entries (new_manager d next) = Ok (true, m) ∧ mgr_ok m ∧ idt_length (idt m) = 4096 ∧
    (∀ (i : nat) e, entries !! i = Some e → ∃ g, gate_at m i = Some g ∧
       gate_offset g = e ∧ gate_selector g = 0x08 ∧ gate_type g = 14 ∧ gate_present g = 1 ∧ gate_ist g = 0 ∧
       gate_dpl g = if (i =? 3)%nat || (i =? 0x81)%nat then 3 else 0) ∧
    (∀ i : nat, (i < 32)%nat → ∃ a q, descriptors m !! i = Some (Some a) ∧ irqs m !! a = Some q ∧ irq_kind q = ExceptionIRQ) ∧
    (∀ i : nat, (32 ≤ i < 256)%nat → descriptors m !! i = Some None).
Proof.
  intros Hl Hf. destruct (irq_init_spec junk entries d next Hl) as (m & Hm & Hok & Hlen & Hg & Hrest).
  exists m. split; [done|]. split; [done|]. split; [done|]. split; [|done].
  intros i e He. eexists. split; [by apply Hg|].
  destruct (interrupt_gate_spec junk e 8 (if (i =? 3)%nat || (i =? 129)%nat then 3 else 0)) as (? & ? & ? & ? & ? & ?); [|done|by case_match|done].
  rewrite Forall_lookup in Hf. by eapply Hf.
Qed.

(** ** Histories *)

Inductive irq_op :=
| OInstall (k : irq_class) (n : Z) (h : option Z) (p : Z)
| ODevice (k : irq_class)
| OHook (n : Z) (h : option Z) (p : Z).

(** A new device interrupt, and a handler for the object of a vector. *)
Definition run_irq (o : irq_op) (m : IRQManager) : result IRQManager :=
  match o with
  | OInstall k n h p => '(_, m) ← install_handler k n h p m; Ok m
  | ODevice k => let '(a, m) := alloc_irq k m in '(_, m) ← attach_irq (Some a) m; Ok m
  | OHook n h p =>
      d ← rd (descriptors m) (u8 n);
      match d with None => Ok m | Some a => attach_handler a h p m end
  end.

Lemma run_irq_ok o m : mgr_ok m → ∃ m', run_irq o m = Ok m' ∧ mgr_ok m' ∧ keeps m m'.
Proof.
  intros Hok. destruct o as [k n h p|k|n h p]; cbn [run_irq].
  - destruct (install_handler_ok k n h p m Hok) as (m' & a & q & -> & Hok' & Hk & _). by exists m'.
  - pose proof (alloc_irq_ok k m Hok) as Ha. destruct (alloc_irq k m) as [a m1]. destruct Ha as (Hok1 & Hk1 & _ & Hq1 & _ & Hfree).
    destruct (attach_irq_spec a _ m1 Hok1 Hq1 Hfree) as [(i & m2 & _ & _ & _ & -> & Hok2 & Hk2 & _)|[_ ->]].
    + exists m2. split_and!; [done|done|by etrans].
    + by exists m1.
  - pose proof (wrap_fits 8 n ltac:(lia)) as Hn. destruct (rd_total (descriptors m) (u8 n)) as (d & -> & Hd).
    { rewrite (mo_len _ Hok). unfold fits in Hn. lia. }
    rewrite bind_Ok. destruct d as [a|]; [|exists m; split_and!; [done|done|reflexivity]].
    destruct (mo_nr _ Hok _ _ Hd) as (q & Hq & _). destruct (attach_handler_ok a q h p m Hok Hq) as (m' & -> & ? & ? & _). by exists m'.
Qed.

(** An interrupt of a vector whose object has a handler. *)
Lemma raw_irq_calls m (i : nat) a q h :
  mgr_ok m → descriptors m !! i = Some (Some a) → irqs m !! a = Some q → handler q = Some h →
  ∃ e, handle_raw_irq (Z.of_nat i) m = Ok e ∧ called e = Some (h, priv q).
Proof.
  intros Hok Hi Hq Hh. pose proof (lookup_lt_Some _ _ _ Hi) as Hlt. rewrite (mo_len _ Hok) in Hlt.
  unfold handle_raw_irq. rewrite (proj2 (Z.ltb_lt _ _)) by (unfold MAX_IRQS; lia). ok_step.
  rewrite wrap_small by (unfold fits; lia). rewrite (rd_Ok _ _ (Some a)) by (lia || by rewrite Nat2Z.id). rewrite bind_Ok, Hq. ok_step.
  unfold handle, exception_handle, software_handle, ioapic_handle, lapic_handle, invoke. rewrite Hh. simpl.
  destruct (irq_kind q); by eexists.
Qed.

(** C33. Vectors stay owned.  In every history of handler installations and new
    device interrupts no fault occurs, an object never loses its vector to
    another one, no two vectors share an object, the gates do not change, and
    an interrupt of a vector with a handler calls exactly that handler. *)
Theorem irq_vectors_stable ops m :
  mgr_ok m →
  ∃ m', for_each ops run_irq m = Ok m' ∧ mgr_ok m' ∧ keeps m m' ∧
    (∀ (i j : nat) a, descriptors m' !! i = Some (Some a) → descriptors m' !! j = Some (Some a) → i = j) ∧
    (∀ (i : nat) a q h, descriptors m' !! i = Some (Some a) → irqs m' !! a = Some q → handler q = Some h →
       ∃ e, handle_raw_irq (Z.of_nat i) m' = Ok e ∧ called e = Some (h, priv q)).
Proof.
  intros Hok.
  assert (∃ m', for_each ops run_irq m = Ok m' ∧ mgr_ok m' ∧ keeps m m') as (m' & Hrun & Hok' & Hk).
  { revert m Hok. induction ops as [|o ops IH]; intros m Hok; cbn [for_each]; [exists m; split_and!; [done|done|reflexivity]|].
    destruct (run_irq_ok o m Hok) as (m1 & -> & Hok1 & Hk1). rewrite bind_Ok.
    destruct (IH m1 Hok1) as (m2 & ? & ? & Hk2). exists m2. split_and!; [done|done|by etrans]. }
  exists m'. split_and!; [done|done|done|..].
  - intros i j a Hi Hj. destruct (mo_nr _ Hok' i a Hi) as (q & Hq & Hn). destruct (mo_nr _ Hok' j a Hj) as (q' & Hq' & Hn').
    rewrite Hq in Hq'. injection Hq' as <-. lia.
  - intros i a q h. by apply raw_irq_calls.
Qed.

(** ** Devices *)

Lemma redirection_vector v : fits 8 v → RedirectionEntry v 0 0 0 0 0 0 0 0 = v.
Proof. intros Hv. unfold RedirectionEntry. cbn [pack]. rewrite (Z.mod_small v) by done. change (0 mod _) with 0. lia. Qed.

(** A device line is routed to its handler.  [request_physical_irq] for a line
    below the number that the controller reports gives a new interrupt object the
    first free vector and programs the redirection entry of the line, and no
    other register, with that vector, unmasked and delivered to processor 0;
    once a handler is attached, an interrupt on the vector calls it and then
    signals the end of the interrupt.  It fails only when all the vectors from
    32 on are taken. *)
Theorem ioapic_routes phys c m h p :
  mgr_ok m → 0 ≤ phys < nr_irqs c → nr_irqs c ≤ 120 →
  (∃ a c' m' m'' (k : nat), request_physical_irq true phys c m = Ok (Some a, c', m') ∧ mgr_ok m' ∧ keeps m m' ∧
     (32 ≤ k < 256)%nat ∧ descriptors m !! k = Some None ∧ descriptors m' !! k = Some (Some a) ∧
     ioapic_read (0x10 + 2 * phys) c' = Z.of_nat k ∧ ioapic_read (0x11 + 2 * phys) c' = 0 ∧
     (∀ r, r ≠ 0x10 + 2 * phys → r ≠ 0x11 + 2 * phys → ioapic_read r c' = ioapic_read r c) ∧
     attach_handler a (Some h) p m' = Ok m'' ∧ handle_raw_irq (Z.of_nat k) m'' = Ok (MkEffect (Some (h, p)) true)) ∨
  ((∀ j : nat, (32 ≤ j < 256)%nat → ∃ b, descriptors m !! j = Some (Some b)) ∧
   ∃ m', request_physical_irq true phys c m = Ok (None, c, m')).
Proof.
  intros Hok Hphys Hnr. unfold request_physical_irq. cbn [negb]. rewrite Z.geb_leb, (proj2 (Z.leb_gt _ _)) by lia.
  pose proof (alloc_irq_ok IOAPICIRQ m Hok) as Ha. destruct (alloc_irq IOAPICIRQ m) as [a m1].
  destruct Ha as (Hok1 & Hk1 & _ & Hq1 & Hd1 & Hfree).
  destruct (attach_irq_spec a _ m1 Hok1 Hq1 Hfree) as [(k & m2 & Hk & Hnone & _ & -> & Hok2 & Hk2 & Hd2 & Hq2)|[Hall ->]]; rewrite bind_Ok.
  2:{ right. rewrite Hd1 in Hall. split; [done|]. by eexists. }
  left. cbn [negb]. rewrite Hq2. ok_step. unfold store_redir_entry. rewrite (wrap_small 8 phys) by (unfold fits; lia).
  rewrite (proj2 (Z.ltb_lt _ _)) by lia. ok_step. rewrite bind_Ok. cbn [nr assign]. rewrite redirection_vector by (unfold fits; lia).
  rewrite (wrap_small 8) by (unfold fits; lia).
  destruct (attach_handler_ok a _ (Some h) p m2 Hok2 Hq2) as (m3 & Hat & Hok3 & Hk3 & Hd3 & Hq3).
  eexists a, _, m2, m3, k. split; [done|]. split; [done|]. split; [by etrans|]. split; [done|]. split; [by rewrite <- Hd1|].
  assert (Hdk : descriptors m2 !! k = Some (Some a)) by (rewrite Hd2; apply list_lookup_insert_eq; rewrite (mo_len _ Hok1); lia).
  split; [done|]. unfold ioapic_read, ioapic_write. cbn [io_regs]. split_and!.
  - rewrite lookup_insert_ne by lia. replace (0x10 + phys * 2) with (0x10 + 2 * phys) by lia. rewrite lookup_insert_eq. simpl.
    apply wrap_small. unfold fits. lia.
  - replace (0x11 + 2 * phys) with (0x10 + phys * 2 + 1) by lia. by rewrite lookup_insert_eq.
  - intros r H1 H2. by rewrite !lookup_insert_ne by lia.
  - done.
  - unfold handle_raw_irq. rewrite (proj2 (Z.ltb_lt _ _)) by (unfold MAX_IRQS; lia). ok_step.
    rewrite wrap_small by (unfold fits; lia). rewrite (rd_Ok _ _ (Some a)) by (lia || by rewrite Nat2Z.id, Hd3).
    rewrite bind_Ok, Hq3. ok_step. done.
Qed.

Lemma flag_bit r reg b n :
  fits 32 (lapic_read reg r) → 0 ≤ b < 32 → 0 ≤ n →
  Z.testbit (lapic_read reg (set_flag reg (2 ^ b) r)) n = (Z.testbit (lapic_read reg r) n || (n =? b)) ∧
  Z.testbit (lapic_read reg (clear_flag reg (2 ^ b) r)) n = (Z.testbit (lapic_read reg r) n && negb (n =? b)) ∧
  fits 32 (lapic_read reg (set_flag reg (2 ^ b) r)) ∧ fits 32 (lapic_read reg (clear_flag reg (2 ^ b) r)).
Proof.
  intros Hf Hb Hn. unfold set_flag, clear_flag, lapic_write. set (x := lapic_read reg r) in *.
  unfold lapic_read. rewrite !lookup_insert_eq. unfold default, id.
  assert (Hhigh : ∀ i, 32 ≤ i → Z.testbit x i = false).
  { intros i Hi. unfold fits in Hf. destruct (decide (x = 0)) as [->|]; [apply Z.bits_0|].
    apply Z.bits_above_log2; [lia|]. apply Z.lt_le_trans with 32; [|done]. apply Z.log2_lt_pow2; lia. }
  split_and!; [| |by apply wrap_fits..]; unfold wrap.
  - destruct (Z.ltb_spec n 32).
    + rewrite Z.mod_pow2_bits_low, Z.lor_spec, Z.pow2_bits_eqb by lia. by rewrite Z.eqb_sym.
    + rewrite Z.mod_pow2_bits_high by lia. rewrite Hhigh by lia. symmetry. apply Z.eqb_neq. lia.
  - destruct (Z.ltb_spec n 32).
    + rewrite Z.mod_pow2_bits_low, Z.land_spec, Z.mod_pow2_bits_low, Z.lnot_spec, Z.pow2_bits_eqb by lia. by rewrite (Z.eqb_sym b).
    + rewrite Z.mod_pow2_bits_high by lia. by rewrite Hhigh by lia.
Qed.

Lemma read_write_other reg reg' v r : reg ≠ reg' → lapic_read reg (lapic_write reg' v r) = lapic_read reg r.
Proof. intros H. unfold lapic_read, lapic_write. by rewrite lookup_insert_ne. Qed.
Lemma read_write_same reg v r : lapic_read reg (lapic_write reg v r) = u32 v.
Proof. unfold lapic_read, lapic_write. by rewrite lookup_insert_eq. Qed.

Lemma set_count_other reg v r : reg ≠ TICR → lapic_read reg (set_timer_initial_count v r) = lapic_read reg r.
Proof. by apply read_write_other. Qed.

(** The system timer ticks once per calibration period.  When the calibrated
    frequency fits 32 bits, the count that [timer_init] programs is the number of
    timer ticks that the calibration measured; the timer vector and all other
    bits of the timer entry stay, the periodic bit is set and the mask is clear. *)
Theorem timer_period_calibrated ticks r :
  0 < ticks < 2 ^ 32 → (2 ^ 32 - ticks) * 1600 < 2 ^ 32 → fits 32 (lapic_read TIMER r) →
  let r' := start_system_timer (calibrate ticks) r in
  lapic_read TICR r' = 2 ^ 32 - ticks ∧
  ∀ n, 0 ≤ n → Z.testbit (lapic_read TIMER r') n =
    if n =? 16 then false else if n =? 17 then true else Z.testbit (lapic_read TIMER r) n.
Proof.
  intros Ht Hov Hf. cbv zeta. set (tpp := 2 ^ 32 - ticks) in *.
  assert (Hcal : calibrate ticks = tpp * 1600).
  { unfold calibrate. cbv zeta. rewrite Z.shiftl_mul_pow2 by lia.
    rewrite (wrap_small 32 (4294967295 - ticks)) by (unfold fits; lia).
    replace (4294967295 - ticks + 1) with tpp by (unfold tpp; lia). assert (0 < tpp) by (unfold tpp; lia).
    rewrite (wrap_small 32 tpp) by (unfold fits; lia). rewrite (wrap_small 32 (tpp * 2 ^ 4)) by (unfold fits; lia).
    rewrite wrap_small by (unfold fits; lia). lia. }
  rewrite Hcal. unfold start_system_timer, init_periodic, timer_reset, timer_start, unmask_interrupts, mask_interrupts, set_timer_periodic, lvt_reg.
  assert (Hper : Z.shiftr (tpp * 1600) 4 / 100 = tpp).
  { rewrite Z.shiftr_div_pow2 by lia. change 1600 with (100 * 2 ^ 4). rewrite Z.mul_assoc, Z.div_mul by lia. by rewrite Z.div_mul by lia. }
  rewrite Hper. change MASKED with (2 ^ 16). change PERIODIC with (2 ^ 17). split.
  - unfold clear_flag. rewrite read_write_other by done. unfold set_timer_initial_count at 1. rewrite read_write_same.
    assert (fits 32 tpp) by (unfold fits, tpp; lia). rewrite wrap_idemp by lia. by apply wrap_small.
  - intros n Hn.
    destruct (flag_bit r TIMER 16 n Hf ltac:(lia) Hn) as (Hb1 & _ & Hf1 & _).
    set (r1 := set_flag TIMER (2 ^ 16) r) in *.
    assert (E2 : lapic_read TIMER (set_timer_initial_count 0 r1) = lapic_read TIMER r1) by (by apply set_count_other).
    destruct (flag_bit (set_timer_initial_count 0 r1) TIMER 17 n ltac:(by rewrite E2) ltac:(lia) Hn) as (Hb3 & _ & Hf3 & _).
    set (r3 := set_flag TIMER (2 ^ 17) (set_timer_initial_count 0 r1)) in *.
    assert (E4 : lapic_read TIMER (set_timer_initial_count tpp r3) = lapic_read TIMER r3) by (by apply set_count_other).
    destruct (flag_bit (set_timer_initial_count tpp r3) TIMER 16 n ltac:(by rewrite E4) ltac:(lia) Hn) as (_ & Hb5 & _ & _).
    rewrite Hb5, E4, Hb3, E2, Hb1. destruct (Z.eqb_spec n 16), (Z.eqb_spec n 17); try lia; by rewrite ?orb_true_r, ?orb_false_r, ?andb_false_r, ?andb_true_r.
Qed.

(** ** Witnesses *)

Lemma irq_init_correct_witness :
  ∃ m, irq_init 0 (seqZ 4096 256) (new_manager (MkIdt 0 []) 1) = Ok (true, m) ∧ mgr_ok m ∧
    ∃ g, gate_at m 0x81 = Some g ∧ gate_offset g = 4096 + 0x81 ∧ gate_dpl g = 3.
Proof.
  destruct (irq_init_correct 0 (seqZ 4096 256) (MkIdt 0 []) 1) as (m & Hm & Hok & _ & Hg & _).
  - reflexivity.
  - apply Forall_forall. intros e He%elem_of_seqZ. unfold fits. lia.
  - exists m. split; [exact Hm|]. split; [exact Hok|].
    destruct (Hg 0x81%nat (4096 + 0x81) ltac:(reflexivity)) as (g & Hg1 & Hg2 & _ & _ & _ & _ & Hg3).
    exists g. split; [exact Hg1|]. split; [exact Hg2|exact Hg3].
Defined.

Lemma irq_vectors_stable_witness :
  ∃ m', for_each [OInstall SoftwareIRQ 0x80 (Some 7) 1; ODevice IOAPICIRQ; OHook 0x20 (Some 8) 2] run_irq (new_manager (MkIdt 0 []) 1) = Ok m' ∧
    mgr_ok m'.
Proof.
  destruct (irq_vectors_stable [OInstall SoftwareIRQ 0x80 (Some 7) 1; ODevice IOAPICIRQ; OHook 0x20 (Some 8) 2]
    (new_manager (MkIdt 0 []) 1) (new_manager_ok _ _)) as (m' & Hm & Hok & _).
  exists m'. split; [exact Hm|exact Hok].
Defined.

Lemma ioapic_routes_witness :
  ∃ a c' m', request_physical_irq true 1 (MkIo ∅ 23) (new_manager (MkIdt 0 []) 1) = Ok (Some a, c', m') ∧ mgr_ok m'.
Proof.
  destruct (ioapic_routes 1 (MkIo ∅ 23) (new_manager (MkIdt 0 []) 1) 5 6 (new_manager_ok _ _)) as [(a & c' & m' & _ & k & H & Hok & _)|[Hall _]].
  - simpl. lia.
  - simpl. lia.
  - exists a, c', m'. split; [exact H|exact Hok].
  - exfalso. destruct (Hall 32%nat ltac:(lia)) as [b Hb]. discriminate Hb.
Defined.

Lemma timer_period_calibrated_witness :
  lapic_read TICR (start_system_timer (calibrate (2 ^ 32 - 62500)) ∅) = 62500.
Proof. exact (proj1 (timer_period_calibrated (2 ^ 32 - 62500) ∅ ltac:(lia) ltac:(lia) ltac:(done))). Defined.
