(* ===== verification/Acpi.v ===== *)
(** * ACPI tables

    The search for the root pointer, the checksums and the walk over the RSDT and
    the MADT (arch/x86/acpi/acpi.cpp), which tell the kernel where the I/O
    interrupt controller is.

    Memory is a function from virtual addresses to bytes; the tables belong to
    the firmware and do not change while they are read. *)

From S2P Require Import Prelude Define.
Local Open Scope Z_scope.

Section acpi.
Context (mem : Z → Z).

(** Little-endian loads of the packed structures. *)
Fixpoint ld (n : nat) (a : Z) : Z :=
  match n with O => 0 | S n' => mem a + 256 * ld n' (a + 1) end.

Definition RSDP_SIGNATURE : Z := 0x2052545020445352.
Definition MADT_SIGNATURE : Z := Z.lor (Z.lor (Z.lor 65 (Z.shiftl 80 8)) (Z.shiftl 73 16)) (Z.shiftl 67 24).

(** The fields of RSDPDescriptor, SDTHeader and RSDT that are used. *)
Definition rsdp_revision (p : Z) : Z := ld 1 (p + 15).
Definition rsdp_rsdt_address (p : Z) : Z := ld 4 (p + 16).
Definition sdt_signature (p : Z) : Z := ld 4 p.
Definition sdt_length (p : Z) : Z := ld 4 (p + 4).
Definition rsdt_pointer (p i : Z) : Z := ld 4 (p + 36 + 4 * i).
(** Those of the MADT records: type, length and the address of an I/O controller. *)
Definition rec_type (p : Z) : Z := ld 1 p.
Definition rec_length (p : Z) : Z := ld 1 (p + 1).
Definition rec_ioapic_address (p : Z) : Z := ld 4 (p + 4).

(** The loop of [scan_for_rsdp]. *)
Fixpoint scan_from (fuel : nat) (cur end_ : Z) : result (option Z) :=
  match fuel with
  | O => Err Hang
  | S fuel' =>
      if cur <? end_ then
        if ld 8 cur =? RSDP_SIGNATURE then Ok (Some cur) else scan_from fuel' (u64 (cur + 16)) end_
      else Ok None
  end.

(** [scan_for_rsdp], with a turn for every 16 bytes and one for the end. *)
Definition scan_for_rsdp (start end_ : Z) : result (option Z) :=
  let cur := Z.land start (u64 (Z.lnot 0xf)) in
  scan_from (S (Z.to_nat ((end_ - cur + 15) / 16))) cur end_.

Definition locate_rsdp : result (option Z) :=
  a ← pa_to_kva 0x40e;
  ebda ← pa_to_kva (Z.shiftl (ld 2 a) 4);
  ret ← scan_for_rsdp ebda (u64 (ebda + 0x400));
  match ret with
  | Some p => Ok (Some p)
  | None => lo ← pa_to_kva 0x000e0000; hi ← pa_to_kva 0x00100000; scan_for_rsdp lo hi
  end.

Fixpoint byte_sum (n : nat) (a sum : Z) : Z :=
  match n with O => sum | S n' => byte_sum n' (a + 1) (u8 (sum + mem a)) end.

Definition is_structure_valid (base size : Z) : bool := byte_sum (Z.to_nat size) base 0 =? 0.

(** [parse_madt_ioapic] on [__ioapic_base]; [parse_madt_lapic] and
    [parse_madt_iso] only log. *)
Definition parse_madt_ioapic (p base : Z) : result Z :=
  _ ← cassert (base =? 0); Ok (rec_ioapic_address p).

(** The loop of [parse_madt] over the records. *)
Fixpoint madt_records (fuel : nat) (rhs rhe base : Z) : result Z :=
  match fuel with
  | O => Err Hang
  | S fuel' =>
      if rhs <? rhe then
        base ← (if rec_type rhs =? 1 then parse_madt_ioapic rhs base else Ok base);
        madt_records fuel' (u64 (rhs + rec_length rhs)) rhe base
      else Ok base
  end.

(** [parse_madt]: the records follow the header, [lca] and [flags].  It always
    succeeds.  A record has at least one byte, so the length of the table bounds
    the number of records. *)
Definition parse_madt (madt base : Z) : result (bool * Z) :=
  base ← madt_records (S (Z.to_nat (sdt_length madt))) (u64 (madt + 44)) (u64 (madt + sdt_length madt)) base;
  Ok (true, base).

(** One table of the RSDT. *)
Definition parse_table (rsdt i base : Z) : result (bool * Z) :=
  hdr ← pa_to_vpa (rsdt_pointer rsdt i);
  if negb (is_structure_valid hdr (sdt_length hdr)) then Ok (true, base)
  else if sdt_signature hdr =? MADT_SIGNATURE then parse_madt hdr base
  else Ok (true, base).

(** The loop over the tables, with a 32-bit counter. *)
Fixpoint parse_tables (fuel : nat) (rsdt i count base : Z) : result (bool * Z) :=
  match fuel with
  | O => Err Hang
  | S fuel' =>
      if i <? count then
        '(ok, base) ← parse_table rsdt i base;
        if negb (ok : bool) then Ok (false, base) else parse_tables fuel' rsdt (u32 (i + 1)) count base
      else Ok (true, base)
  end.

(** [acpi_parse]; [fuel] is for the loop over the tables. *)
Definition acpi_parse (fuel : nat) (rsdp base : Z) : result (bool * Z) :=
  rsdt ← pa_to_vpa (rsdp_rsdt_address rsdp);
  if rsdt =? 0 then Ok (false, base) else
  if negb (is_structure_valid rsdt (sdt_length rsdt)) then Ok (false, base) else
  parse_tables fuel rsdt 0 (u64 (sdt_length rsdt - 36) / 4) base.

(** [acpi_init]: the result and [__ioapic_base]. *)
Definition acpi_init (fuel : nat) : result (bool * Z) :=
  rsdp ← locate_rsdp;
  match rsdp with
  | None => Ok (false, 0)
  | Some rsdp =>
      if negb (is_structure_valid rsdp 20) then Ok (false, 0) else
      if rsdp_revision rsdp >? 2 then Ok (false, 0) else acpi_parse fuel rsdp 0
  end.
End acpi.

(** ** Reading *)

(** Memory holds bytes. *)
Definition bytes_ok (mem : Z → Z) : Prop := ∀ a, fits 8 (mem a).

Section acpi_proofs.
Context (mem : Z → Z) (Hmem : bytes_ok mem).

Lemma ld_fits n a : fits (8 * Z.of_nat n) (ld mem n a).
Proof.
  revert a. induction n as [|n IH]; intros a; [done|]. cbn [ld]. pose proof (Hmem a) as Hb. specialize (IH (a + 1)).
  unfold fits in *. replace (8 * Z.of_nat (S n)) with (8 * Z.of_nat n + 8) by lia. rewrite Z.pow_add_r by lia. lia.
Qed.

(** The checksum is the sum of the bytes modulo 256. *)
Fixpoint total (n : nat) (a : Z) : Z := match n with O => 0 | S n' => mem a + total n' (a + 1) end.

Lemma byte_sum_spec n a sum : byte_sum mem n a (u8 sum) = u8 (sum + total n a).
Proof.
  revert a sum. induction n as [|n IH]; intros a sum; cbn [byte_sum total]; [by rewrite Z.add_0_r|].
  assert (u8 (u8 sum + mem a) = u8 (sum + mem a)) as -> by (unfold wrap; by rewrite Zplus_mod_idemp_l).
  rewrite IH. f_equal. lia.
Qed.

Lemma is_structure_valid_spec base size :
  is_structure_valid mem base size = true ↔ total (Z.to_nat size) base mod 256 = 0.
Proof.
  unfold is_structure_valid. change 0 with (u8 0) at 1. rewrite byte_sum_spec, Z.eqb_eq. done.
Qed.

(** ** The search *)

Lemma scan_from_spec fuel cur end_ :
  0 ≤ cur → end_ + 16 < 2 ^ 64 → end_ - cur ≤ 16 * Z.of_nat fuel - 16 → (0 < fuel)%nat →
  ∃ r, scan_from mem fuel cur end_ = Ok r ∧
    match r with
    | Some p => ∃ k, 0 ≤ k ∧ p = cur + 16 * k ∧ p < end_ ∧ ld mem 8 p = RSDP_SIGNATURE ∧
                  ∀ j, 0 ≤ j < k → ld mem 8 (cur + 16 * j) ≠ RSDP_SIGNATURE
    | None => ∀ j, 0 ≤ j → cur + 16 * j < end_ → ld mem 8 (cur + 16 * j) ≠ RSDP_SIGNATURE
    end.
Proof.
  revert cur. induction fuel as [|fuel IH]; intros cur Hc Hend Hf Hpos; cbn [scan_from]; [lia|].
  destruct (Z.ltb_spec cur end_); [|exists None; split; [done|lia]].
  destruct (Z.eqb_spec (ld mem 8 cur) RSDP_SIGNATURE) as [E|Hne].
  - exists (Some cur). split; [done|]. exists 0. split_and!; [lia|lia|done|done|lia].
  - rewrite wrap_small by (unfold fits; lia). destruct (IH (cur + 16)) as (r & -> & Hr); [lia..|].
    exists r. split; [done|]. destruct r as [p|].
    + destruct Hr as (k & Hk & -> & Hlt & Hs & Hall). exists (k + 1). split_and!; [lia|lia|done|done|].
        intros j Hj. destruct (decide (j = 0)) as [->|]; [by replace (cur + 16 * 0) with cur by lia|].
        replace (cur + 16 * j) with (cur + 16 + 16 * (j - 1)) by lia. apply Hall. lia.
    + intros j Hj Hlt. destruct (decide (j = 0)) as [->|]; [by replace (cur + 16 * 0) with cur by lia|].
        replace (cur + 16 * j) with (cur + 16 + 16 * (j - 1)) by lia. apply Hr; lia.
Qed.

Lemma land_align x : fits 64 x → Z.land x (u64 (Z.lnot 0xf)) = x - x mod 16.
Proof.
  intros Hx. transitivity (Z.ldiff x (Z.ones 4)).
  - apply Z.bits_inj'. intros i Hi. rewrite Z.land_spec, Z.ldiff_spec. unfold wrap. destruct (Z.ltb_spec i 64).
    + rewrite Z.mod_pow2_bits_low, Z.lnot_spec by lia. done.
    + rewrite (Z.bits_above_log2 x i); [done|unfold fits in Hx; lia|]. destruct (decide (x = 0)) as [->|]; [simpl; lia|].
      apply Z.lt_le_trans with 64; [|done]. unfold fits in Hx. apply Z.log2_lt_pow2; lia.
  - rewrite Z.ldiff_ones_r, Z.shiftl_mul_pow2, Z.shiftr_div_pow2 by lia. pose proof (Z.div_mod x 16). change (2 ^ 4) with 16. lia.
Qed.

(** [scan_for_rsdp] returns the first 16-byte aligned address of the range with
    the signature. *)
Lemma scan_for_rsdp_spec start end_ :
  0 ≤ start ≤ end_ → end_ + 16 < 2 ^ 64 →
  let cur := start - start mod 16 in
  ∃ r, scan_for_rsdp mem start end_ = Ok r ∧
    match r with
    | Some p => ∃ k, 0 ≤ k ∧ p = cur + 16 * k ∧ p < end_ ∧ ld mem 8 p = RSDP_SIGNATURE ∧
                  ∀ j, 0 ≤ j < k → ld mem 8 (cur + 16 * j) ≠ RSDP_SIGNATURE
    | None => ∀ j, 0 ≤ j → cur + 16 * j < end_ → ld mem 8 (cur + 16 * j) ≠ RSDP_SIGNATURE
    end.
Proof.
  intros Hs He cur. unfold scan_for_rsdp. pose proof (Z.mod_pos_bound start 16 ltac:(lia)).
  pose proof (Z.div_mod start 16 ltac:(lia)).
  rewrite land_align by (unfold fits; lia). fold cur.
  apply scan_from_spec; [lia|lia| |lia].
  pose proof (Z.div_mod (end_ - cur + 15) 16 ltac:(lia)). pose proof (Z.mod_pos_bound (end_ - cur + 15) 16 ltac:(lia)). lia.
Qed.

(** ** The MADT *)

(** The records from [a] to [e], as long as their lengths are positive: the
    addresses of the I/O controllers among them. *)
Inductive records : Z → Z → list Z → Prop :=
| rec_end a e : e ≤ a → records a e []
| rec_ioapic a e l : a < e → 0 < rec_length mem a → rec_type mem a = 1 →
    records (a + rec_length mem a) e l → records a e (rec_ioapic_address mem a :: l)
| rec_other a e l : a < e → 0 < rec_length mem a → rec_type mem a ≠ 1 →
    records (a + rec_length mem a) e l → records a e l.

(** What the controllers of a list make of the base address. *)
Definition register_all (base : Z) (l : list Z) : result Z :=
  for_each l (λ x b, _ ← cassert (b =? 0); Ok x) base.

Lemma madt_records_spec fuel a e l base :
  records a e l → 0 ≤ a → e + 256 < 2 ^ 64 → e - a < Z.of_nat fuel → (0 < fuel)%nat →
  madt_records mem fuel a e base = register_all base l.
Proof.
  intros Hr. revert fuel base. induction Hr as [a e Hle|a e l Hlt Hpos Ht Hr IH|a e l Hlt Hpos Ht Hr IH];
    intros fuel base Ha He Hf Hfp; (destruct fuel as [|fuel]; [lia|]); cbn [madt_records].
  - by rewrite (proj2 (Z.ltb_ge a e)) by lia.
  - pose proof (ld_fits 1 (a + 1)) as Hfit. change (ld mem 1 (a + 1)) with (rec_length mem a) in Hfit. unfold fits in Hfit.
    rewrite (proj2 (Z.ltb_lt a e)), Ht, Z.eqb_refl by lia. unfold register_all, parse_madt_ioapic. cbn [for_each].
    destruct (cassert (base =? 0)); [|done]. rewrite !bind_Ok. rewrite wrap_small by (unfold fits; lia). apply IH; lia.
  - pose proof (ld_fits 1 (a + 1)) as Hfit. change (ld mem 1 (a + 1)) with (rec_length mem a) in Hfit. unfold fits in Hfit.
    rewrite (proj2 (Z.ltb_lt a e)), (proj2 (Z.eqb_neq _ _) Ht), bind_Ok by lia. rewrite wrap_small by (unfold fits; lia). apply IH; lia.
Qed.

(** A record of length 0 is read again and again. *)
Lemma madt_records_stuck fuel a e base :
  0 ≤ a < e → e < 2 ^ 64 → rec_length mem a = 0 → rec_type mem a ≠ 1 → madt_records mem fuel a e base = Err Hang.
Proof.
  intros Ha He Hl Ht. induction fuel as [|fuel IH]; [done|]. cbn [madt_records].
  rewrite (proj2 (Z.ltb_lt a e)), (proj2 (Z.eqb_neq _ _) Ht), bind_Ok by lia. rewrite Hl, Z.add_0_r, wrap_small by (unfold fits; lia). done.
Qed.

(** ** The tables *)

(** The I/O controllers that table [i] of the RSDT declares. *)
Definition table_ioapics (rsdt i : Z) (l : list Z) : Prop :=
  let hdr := PMEM_VA_START + rsdt_pointer mem rsdt i in
  if is_structure_valid mem hdr (sdt_length mem hdr) && (sdt_signature mem hdr =? MADT_SIGNATURE)
  then records (hdr + 44) (hdr + sdt_length mem hdr) l
  else l = [].

Lemma pa_to_vpa_ld a : pa_to_vpa (ld mem 4 a) = Ok (PMEM_VA_START + ld mem 4 a).
Proof.
  pose proof (ld_fits 4 a) as H. unfold fits in H. unfold pa_to_vpa.
  rewrite (proj2 (Z.ltb_lt _ _)) by (unfold PMEM_VA_SIZE, PMEM_VA_START, PMEM_VA_END; rewrite wrap_small; unfold fits; lia). ok_step.
  rewrite wrap_small by (unfold fits, PMEM_VA_START; lia). done.
Qed.

Lemma parse_table_spec rsdt i l base :
  table_ioapics rsdt i l → parse_table mem rsdt i base = (b ← register_all base l; Ok (true, b)).
Proof.
  unfold table_ioapics, parse_table, rsdt_pointer. rewrite pa_to_vpa_ld, bind_Ok.
  pose proof (ld_fits 4 (rsdt + 36 + 4 * i)) as Hp. set (hdr := PMEM_VA_START + _). unfold fits in Hp.
  destruct (is_structure_valid mem hdr (sdt_length mem hdr)); cbn [negb andb]; [|by intros ->].
  destruct (sdt_signature mem hdr =? MADT_SIGNATURE); [|by intros ->]. intros Hr.
  pose proof (ld_fits 4 (hdr + 4)) as Hl. change (ld mem 4 (hdr + 4)) with (sdt_length mem hdr) in Hl. unfold fits in Hl.
  assert (0 ≤ hdr < 2 ^ 63 + 2 ^ 63 - 2 ^ 40) by (unfold hdr, PMEM_VA_START; lia).
  unfold parse_madt. rewrite !wrap_small by (unfold fits; lia). rewrite (madt_records_spec _ _ _ l); [done|done|lia..].
Qed.

Lemma register_all_app base l1 l2 : register_all base (l1 ++ l2) = (b ← register_all base l1; register_all b l2).
Proof.
  unfold register_all. revert base. induction l1 as [|x l1 IH]; intros base; [done|]. cbn [app for_each].
  destruct (cassert (base =? 0)); [|done]. rewrite !bind_Ok. apply IH.
Qed.

Lemma parse_tables_spec fuel rsdt (i : nat) ls base :
  (∀ j l, ls !! j = Some l → table_ioapics rsdt (Z.of_nat j) l) → Z.of_nat (length ls) < 2 ^ 32 →
  (i ≤ length ls)%nat → (length ls - i < fuel)%nat →
  parse_tables mem fuel rsdt (Z.of_nat i) (Z.of_nat (length ls)) base = (b ← register_all base (concat (drop i ls)); Ok (true, b)).
Proof.
  intros Ht Hlen. revert i base. induction fuel as [|fuel IH]; intros i base Hi Hf; [lia|]. cbn [parse_tables].
  destruct (Z.ltb_spec (Z.of_nat i) (Z.of_nat (length ls))).
  - destruct (lookup_lt_is_Some_2 ls i) as [l Hl]; [lia|]. rewrite (parse_table_spec _ _ _ _ (Ht i l Hl)).
    rewrite (drop_S _ _ _ Hl). cbn [concat]. rewrite register_all_app.
    destruct (register_all base l) as [b|]; [|done]. rewrite !bind_Ok. cbn [negb].
    replace (u32 (Z.of_nat i + 1)) with (Z.of_nat (S i)) by (rewrite wrap_small by (unfold fits; lia); lia). apply IH; lia.
  - by rewrite drop_ge by lia.
Qed.

(** [acpi_init] finds the I/O interrupt controller.  When the root pointer is
    found, its checksum, revision and the checksum of the RSDT are good and the
    records of every valid MADT have positive lengths, the walk ends, skips the
    tables with a bad checksum or another signature, and the base address is the
    one of the controller record: 0 without such a record, and a failed assertion
    when there are two (the first of them not 0). *)
Theorem acpi_finds_ioapic fuel rsdp ls :
  let rsdt := PMEM_VA_START + rsdp_rsdt_address mem rsdp in
  locate_rsdp mem = Ok (Some rsdp) → is_structure_valid mem rsdp 20 = true → rsdp_revision mem rsdp ≤ 2 →
  is_structure_valid mem rsdt (sdt_length mem rsdt) = true → 36 ≤ sdt_length mem rsdt →
  Z.of_nat (length ls) = (sdt_length mem rsdt - 36) / 4 → (∀ j l, ls !! j = Some l → table_ioapics rsdt (Z.of_nat j) l) →
  (length ls < fuel)%nat →
  acpi_init mem fuel =
    match concat ls with
    | [] => Ok (true, 0)
    | [x] => Ok (true, x)
    | x :: y :: l => if x =? 0 then b ← register_all y l; Ok (true, b) else Err AssertFailed
    end.
Proof.
  intros rsdt Hloc Hv Hrev Hrv Hlen Hls Ht Hf. unfold acpi_init. rewrite Hloc, bind_Ok, Hv. cbn [negb].
  rewrite Z.gtb_ltb, (proj2 (Z.ltb_ge _ _)) by lia. unfold acpi_parse, rsdp_rsdt_address. rewrite pa_to_vpa_ld, bind_Ok.
  fold (rsdp_rsdt_address mem rsdp). fold rsdt.
  assert (rsdt ≠ 0) by (pose proof (ld_fits 4 (rsdp + 16)) as H; unfold fits in H; unfold rsdt, rsdp_rsdt_address, PMEM_VA_START; lia).
  rewrite (proj2 (Z.eqb_neq rsdt 0)), Hrv by done. cbn [negb].
  pose proof (ld_fits 4 (rsdt + 4)) as Hl. change (ld mem 4 (rsdt + 4)) with (sdt_length mem rsdt) in Hl. unfold fits in Hl.
  rewrite wrap_small by (unfold fits; lia). rewrite <- Hls.
  assert (Z.of_nat (length ls) < 2 ^ 32) by (rewrite Hls; apply Z.div_lt_upper_bound; lia).
  pose proof (parse_tables_spec fuel rsdt 0 ls 0 Ht ltac:(done) ltac:(lia) ltac:(lia)) as Hp.
  change (Z.of_nat 0) with 0 in Hp. rewrite Hp, drop_0.
  destruct (concat ls) as [|x [|y l]]; [done|done|]. unfold register_all. cbn [for_each]. cbn [Z.eqb]. ok_step. rewrite !bind_Ok.
  destruct (x =? 0); [|done]. ok_step. rewrite !bind_Ok. done.
Qed.
End acpi_proofs.

(** ** Witness *)

(** A root pointer at 0x100, an RSDT at 0x1000 and a MADT with one I/O controller
    at 0x2000. *)
Definition sample_rsdp : list Z := [82; 83; 68; 32; 80; 84; 82; 32; 50; 73; 78; 70; 79; 83; 32; 0; 0; 16; 0; 0].
Definition sample_rsdt : list Z :=
  [82; 83; 68; 84; 40; 0; 0; 0; 1; 122; 0; 0; 0; 0; 0; 0; 0; 0; 0; 0; 0; 0; 0; 0; 0; 0; 0; 0; 0; 0; 0; 0; 0; 0; 0; 0; 0; 32; 0; 0].
Definition sample_madt : list Z :=
  [65; 80; 73; 67; 56; 0; 0; 0; 1; 0; 0; 0; 0; 0; 0; 0; 0; 0; 0; 0; 0; 0; 0; 0; 0; 0; 0; 0; 0; 0; 0; 0; 0; 0; 0; 0; 0; 0; 224; 254; 1; 0; 0; 0; 1; 12; 0; 0; 0; 0; 192; 254; 0; 0; 0; 0].
Definition sample_mem (a : Z) : Z :=
  let at_ base l := if (base <=? a) && (a <? base + 64) then nth (Z.to_nat (a - base)) l 0 else 0 in
  at_ (KERNEL_VMEM_START + 0x100) sample_rsdp + at_ (PMEM_VA_START + 0x1000) sample_rsdt + at_ (PMEM_VA_START + 0x2000) sample_madt.

Lemma nth_byte l i : forallb (λ x, (0 <=? x) && (x <? 256)) l = true → fits 8 (nth i l 0).
Proof.
  intros Hl. rewrite forallb_forall in Hl. destruct (nth_in_or_default i l 0) as [Hin| ->]; [|done].
  specialize (Hl _ Hin). unfold fits. lia.
Qed.

Lemma sample_mem_ok : bytes_ok sample_mem.
Proof.
  intros a. unfold sample_mem, KERNEL_VMEM_START, PMEM_VA_START.
  pose proof (nth_byte sample_rsdp (Z.to_nat (a - (0xFFFFFFFF80000000 + 0x100))) eq_refl) as H1.
  pose proof (nth_byte sample_rsdt (Z.to_nat (a - (0xFFFF800000000000 + 0x1000))) eq_refl) as H2.
  pose proof (nth_byte sample_madt (Z.to_nat (a - (0xFFFF800000000000 + 0x2000))) eq_refl) as H3.
  unfold fits in *. repeat case_match; lia.
Qed.

Lemma sample_table : table_ioapics sample_mem (PMEM_VA_START + 0x1000) 0 [0xfec00000].
Proof.
  unfold table_ioapics.
  assert ((is_structure_valid sample_mem (PMEM_VA_START + rsdt_pointer sample_mem (PMEM_VA_START + 0x1000) 0)
    (sdt_length sample_mem (PMEM_VA_START + rsdt_pointer sample_mem (PMEM_VA_START + 0x1000) 0)) &&
    (sdt_signature sample_mem (PMEM_VA_START + rsdt_pointer sample_mem (PMEM_VA_START + 0x1000) 0) =? MADT_SIGNATURE)) = true) as ->
    by (vm_compute; reflexivity).
  change 0xfec00000 with (rec_ioapic_address sample_mem (PMEM_VA_START + 0x2000 + 44)).
  assert (PMEM_VA_START + rsdt_pointer sample_mem (PMEM_VA_START + 0x1000) 0 = PMEM_VA_START + 0x2000) as -> by (vm_compute; reflexivity).
  apply rec_ioapic; [vm_compute; reflexivity..|]. apply rec_end. vm_compute. discriminate.
Qed.

Lemma acpi_finds_ioapic_witness : acpi_init sample_mem 2 = Ok (true, 0xfec00000).
Proof.
  apply (acpi_finds_ioapic sample_mem sample_mem_ok 2 (KERNEL_VMEM_START + 0x100) [[0xfec00000]]).
  - vm_compute. reflexivity.
  - vm_compute. reflexivity.
  - vm_compute. discriminate.
  - vm_compute. reflexivity.
  - vm_compute. discriminate.
  - vm_compute. reflexivity.
  - intros [|j] l Hl; [|discriminate Hl]. injection Hl as <-. exact sample_table.
  - apply Nat.ltb_lt. reflexivity.
Defined.
