(* ===== verification/Abi.v ===== *)
(** * Exceptions

    The run-time support of C++ exceptions in kernel/abi.cpp: the readers of
    LEB128 numbers, the walk over the language-specific data of a frame, the
    personality routine [__gxx_personality_v0], and the stack of caught
    exceptions of each thread ([__cxa_begin_catch], [__cxa_end_catch]).

    Memory is a function from addresses to bytes; the tables are constant. *)

From S2P Require Import Prelude Define.
Local Open Scope Z_scope.

Section tables.
Context (mem : Z → Z).

(** ** Numbers *)

(** The loop of both readers: the number, the last byte, the shift and the address
    after it.  The shifted byte is an [int]: a shift by 32 or more is undefined, so
    six turns are enough. *)
Fixpoint leb_loop (fuel : nat) (p acc shift : Z) : result (Z * Z * Z * Z) :=
  match fuel with
  | O => Err Hang
  | S fuel' =>
      let byte := mem p in
      _ ← check UndefinedShift (shift <? 32);
      let acc := Z.lor acc (u64 (s32 (Z.shiftl (Z.land byte 127) shift))) in
      if Z.land byte 128 =? 0 then Ok (acc, byte, shift + 7, p + 1)
      else leb_loop fuel' (p + 1) acc (shift + 7)
  end.

Definition read_uleb_128 (p : Z) : result (Z * Z) :=
  '(acc, _, _, p) ← leb_loop 6 p 0 0; Ok (acc, p).

(** It works on a copy of the pointer, which stays where it is. *)
Definition read_sleb_128 (p : Z) : result Z :=
  '(acc, byte, shift, _) ← leb_loop 6 p 0 0;
  let acc := if negb (Z.land byte 0x40 =? 0) && (shift <? 64) then Z.lor acc (u64 (Z.shiftl (2 ^ 64 - 1) shift)) else acc in
  Ok (s64 acc).

(** ** The language-specific data *)

Record LSDA_call_site := MkSite { start : Z; len : Z; landing_pad : Z; action : Z }.
Record Action := MkAction { type_index : Z; next_offset : Z; my_ptr : Z }.

(** [types_table_start] is unset when there is no type table. *)
Record LSDA := MkLsda {
  type_encoding : Z; types_table_start : option Z; call_site_table_end : Z; next_call_site_ptr : Z; action_table_start : Z }.

Definition new_LSDA (lsda : Z) : result LSDA :=
  let type_enc := mem (lsda + 1) in
  let p := lsda + 2 in
  '(types, p) ← (if negb (type_enc =? 0xff) then '(off, p) ← read_uleb_128 p; Ok (Some (u64 (p + off)), p) else Ok (None, p));
  '(length, p) ← read_uleb_128 (p + 1);
  Ok (MkLsda type_enc types (u64 (p + length)) p (u64 (p + length))).

(** The constructor of [LSDA_call_site]. *)
Definition read_call_site (p : Z) : result (LSDA_call_site * Z) :=
  '(st, p) ← read_uleb_128 p;
  '(ln, p) ← read_uleb_128 p;
  '(pad, p) ← read_uleb_128 p;
  '(act, p) ← read_uleb_128 p;
  Ok (MkSite st ln pad act, p).

Definition get_next_call_site (l : LSDA) : result (option LSDA_call_site * LSDA) :=
  if call_site_table_end l <? next_call_site_ptr l then Ok (None, l)
  else '(site, p) ← read_call_site (next_call_site_ptr l);
       Ok (Some site, MkLsda (type_encoding l) (types_table_start l) (call_site_table_end l) p (action_table_start l)).

Definition read_action (raw_ptr : Z) : result Action :=
  off ← read_sleb_128 (u64 (raw_ptr + 1));
  Ok (MkAction (mem raw_ptr) (s8 off) (u64 (raw_ptr + 1))).

Definition get_first_action (l : LSDA) (site : LSDA_call_site) : result (option Action) :=
  if action site =? 0 then Ok None
  else a ← read_action (u64 (action_table_start l + action site - 1)); Ok (Some a).

Definition get_next_action (a : Action) : result (option Action) :=
  if next_offset a =? 0 then Ok None
  else b ← read_action (u64 (my_ptr a + next_offset a)); Ok (Some b).

(** Little-endian loads. *)
Fixpoint ldn (n : nat) (a : Z) : Z :=
  match n with O => 0 | S n' => mem a + 256 * ldn n' (a + 1) end.

(** The function ends without a value for an encoding it does not know. *)
Definition read_int_tbltype (ptr type_enc : Z) : result Z :=
  if type_enc =? 3 then Ok (u64 (s32 (ldn 4 ptr)))
  else if type_enc =? 0 then Ok (ldn 8 ptr)
  else if type_enc =? 0x9b then
    let r := u64 (s32 (ldn 4 ptr)) in
    if r =? 0 then Ok 0 else Ok (ldn 8 (u64 (r + ptr)))
  else Err Uninitialised.

(** [strcmp] of kernel/stdlib.c, on signed characters. *)
Fixpoint strcmp (fuel : nat) (s1 s2 : Z) : result Z :=
  match fuel with
  | O => Err Hang
  | S fuel' =>
      let c1 := mem s1 in let c2 := mem s2 in
      if negb (c1 =? 0) && negb (c2 =? 0) && (c1 =? c2) then strcmp fuel' (s1 + 1) (s2 + 1)
      else if (c1 =? 0) && negb (c2 =? 0) then Ok (-1)
      else if (c2 =? 0) && negb (c1 =? 0) then Ok 1
      else if (c1 =? 0) && (c2 =? 0) then Ok 0
      else Ok (s8 c1 - s8 c2)
  end.

(** ** The personality routine *)

Inductive reason_code := URC_HANDLER_FOUND | URC_INSTALL_CONTEXT | URC_CONTINUE_UNWIND.

(** The parts of the unwind context that the routine reads and writes: the start
    of the function, the instruction pointer and the two data registers. *)
Record context := MkCtx { region_start : Z; ip : Z; gr0 : Z; gr1 : Z }.

Definition set_landing_pad (c : context) (exn pad index : Z) : context := MkCtx (region_start c) pad exn index.

Definition valid_for_throw_ip (c : context) (site : LSDA_call_site) : bool :=
  let try_start := u64 (region_start c + start site) in
  let try_end := u64 (try_start + len site) in
  let throw_ip := u64 (ip c - 1) in
  negb ((try_end <? throw_ip) || (throw_ip <? try_start)).

(** The phase bits of [actions]. *)
Record phases := MkPhases { search : bool; cleanup : bool }.

Context (sf : nat) (ph : phases) (exn type_name : Z).

(** Does the handler of an action take the thrown type? *)
Definition handler_matches (l : LSDA) (a : Action) : result bool :=
  types ← get Uninitialised (types_table_start l);
  let multiplier := if type_encoding l =? 0 then 2 else 1 in
  got ← read_int_tbltype (u64 (types - 4 * (type_index a * multiplier))) (type_encoding l);
  if got =? 0 then Ok true else c ← strcmp sf (ldn 8 (got + 8)) type_name; Ok (c =? 0).

(** Either the routine returns, or it goes on with the context and [have_cleanup]. *)
Inductive outcome := Return (r : reason_code) (c : context) | Continue (c : context) (have_cleanup : bool).

(** The loop over the actions of a call site. *)
Fixpoint run_actions (fuel : nat) (l : LSDA) (pad : Z) (a : option Action) (c : context) (have_cleanup : bool) : result outcome :=
  match fuel with
  | O => Err Hang
  | S fuel' =>
      match a with
      | None => Ok (Continue c have_cleanup)
      | Some a =>
          if type_index a =? 0 then
            let '(c, have_cleanup) := if cleanup ph then (set_landing_pad c exn pad 0, true) else (c, have_cleanup) in
            next ← get_next_action a;
            run_actions fuel' l pad next c have_cleanup
          else
            m ← handler_matches l a;
            if (m : bool) && search ph then Ok (Return URC_HANDLER_FOUND c)
            else if m && cleanup ph then Ok (Return URC_INSTALL_CONTEXT (set_landing_pad c exn pad (type_index a)))
            else next ← get_next_action a; run_actions fuel' l pad next c have_cleanup
      end
  end.

(** One call site. *)
Definition run_site (fuel : nat) (l : LSDA) (site : LSDA_call_site) (c : context) (have_cleanup : bool) : result outcome :=
  if landing_pad site =? 0 then Ok (Continue c have_cleanup) else
  let pad := u64 (region_start c + landing_pad site) in
  if negb (valid_for_throw_ip c site) then Ok (Continue c have_cleanup) else
  if (action site =? 0) && cleanup ph then Ok (Return URC_INSTALL_CONTEXT (set_landing_pad c exn pad 0)) else
  a ← get_first_action l site;
  run_actions fuel l pad a c have_cleanup.

(** The loop over the call sites. *)
Fixpoint run_sites (fuel : nat) (l : LSDA) (c : context) (have_cleanup : bool) : result (reason_code * context) :=
  match fuel with
  | O => Err Hang
  | S fuel' =>
      '(site, l) ← get_next_call_site l;
      match site with
      | None => Ok (if cleanup ph && have_cleanup then URC_INSTALL_CONTEXT else URC_CONTINUE_UNWIND, c)
      | Some site =>
          r ← run_site fuel l site c have_cleanup;
          match r with
          | Return code c => Ok (code, c)
          | Continue c have_cleanup => run_sites fuel' l c have_cleanup
          end
      end
  end.

Definition gxx_personality_v0 (fuel : nat) (lsda : Z) (c : context) : result (reason_code * context) :=
  l ← new_LSDA lsda; run_sites fuel l c false.
End tables.

(** ** Caught exceptions *)

(** The header of an exception; the chain of a thread's caught exceptions runs
    through [nextException]. *)
Record cxa_exception := MkExn { exceptionTypeName : Z; exceptionDestructor : Z; nextException : Z }.

Definition MAX_THREADS : nat := 10.

Record catches := MkCatches { last_exception : list Z; headers : gmap Z cxa_exception }.

(** What [__cxa_end_catch] does outside: memory is released, a destructor runs. *)
Inductive catch_event := ReleaseName (a : Z) | Destroy (dtor header : Z) | ReleaseException (header : Z).

Definition cxa_begin_catch (thread_id h : Z) (s : catches) : result catches :=
  e ← get NullDeref (headers s !! h);
  top ← get OutOfBounds (last_exception s !! Z.to_nat thread_id);
  Ok (MkCatches (<[Z.to_nat thread_id := h]> (last_exception s))
        (<[h := MkExn (exceptionTypeName e) (exceptionDestructor e) top]> (headers s))).

Definition cxa_end_catch (thread_id : Z) (s : catches) : result (list catch_event * catches) :=
  h ← get OutOfBounds (last_exception s !! Z.to_nat thread_id);
  e ← get NullDeref (headers s !! h);
  Ok (ReleaseName (exceptionTypeName e) ::
      (if exceptionDestructor e =? 0 then [] else [Destroy (exceptionDestructor e) h]) ++ [ReleaseException h],
      MkCatches (<[Z.to_nat thread_id := nextException e]> (last_exception s)) (base.delete h (headers s))).

(** ** Numbers: lemmas *)

(** The LEB128 encoding of [x] in at most [n] bytes. *)
Fixpoint uleb (n : nat) (x : Z) : list Z :=
  match n with
  | O => []
  | S n' => if x <? 128 then [x] else (128 + x mod 128) :: uleb n' (x / 128)
  end.

Definition bytes_at (mem : Z → Z) (p : Z) (l : list Z) : Prop := ∀ i b, l !! i = Some b → mem (p + Z.of_nat i) = b.

Lemma bytes_at_cons mem p b l : bytes_at mem p (b :: l) ↔ mem p = b ∧ bytes_at mem (p + 1) l.
Proof.
  split.
  - intros Hb. split; [by rewrite <- (Hb 0%nat b eq_refl), Z.add_0_r|].
    intros i c Hi. rewrite <- (Hb (S i) c Hi). f_equal. lia.
  - intros [H0 Hl] [|i] c Hi; [simpl in *; simplify_eq; by rewrite Z.add_0_r|].
    rewrite <- (Hl i c Hi). f_equal. lia.
Qed.

Lemma bytes_at_app mem p l1 l2 :
  bytes_at mem p (l1 ++ l2) ↔ bytes_at mem p l1 ∧ bytes_at mem (p + Z.of_nat (length l1)) l2.
Proof.
  revert p. induction l1 as [|b l1 IH]; intros p; simpl.
  - rewrite Z.add_0_r. split; [|tauto]. intros Hb. split; [by intros i c Hi|done].
  - rewrite !bytes_at_cons, IH. replace (p + 1 + Z.of_nat (length l1)) with (p + Z.of_nat (S (length l1))) by lia. tauto.
Qed.

Lemma lor_add k a b : 0 ≤ k → 0 ≤ a < 2 ^ k → Z.lor a (b * 2 ^ k) = a + b * 2 ^ k.
Proof. intros Hk Ha. rewrite Z.lor_comm, (lor_high_low k b) by done. lia. Qed.

Lemma low_seven b :
  0 ≤ b < 128 → Z.land b 127 = b ∧ (Z.land b 128 =? 0) = true ∧ Z.land (128 + b) 127 = b ∧ (Z.land (128 + b) 128 =? 0) = false.
Proof.
  intros Hb. assert (Forall (λ b, Z.land b 127 = b ∧ (Z.land b 128 =? 0) = true ∧ Z.land (128 + b) 127 = b ∧
    (Z.land (128 + b) 128 =? 0) = false) (seqZ 0 128)) as Hall by (apply (bool_decide_unpack _); vm_compute; exact I).
  rewrite Forall_forall in Hall. apply Hall, elem_of_seqZ. lia.
Qed.

(** The top of the number is sign-extended from bit 31. *)
Lemma last_byte acc x :
  0 ≤ acc < 2 ^ 28 → 0 ≤ x < 128 → Z.lor acc (u64 (s32 (x * 2 ^ 28))) = u64 (s32 (acc + x * 2 ^ 28)).
Proof.
  intros Ha Hx. pose proof (Z.div_mod x 16 ltac:(lia)). pose proof (Z.mod_pos_bound x 16).
  assert (E : ∀ r, 0 ≤ r < 2 ^ 28 → (r + x * 2 ^ 28) mod 2 ^ 32 = r + x mod 16 * 2 ^ 28).
  { intros r Hr. symmetry. apply (Z.mod_unique_pos _ _ (x / 16)); lia. }
  unfold swrap. pose proof (E 0 ltac:(lia)) as E0. rewrite !Z.add_0_l in E0. rewrite (E acc Ha), E0. cbv zeta.
  destruct (Z.ltb_spec (x mod 16 * 2 ^ 28) (2 ^ (32 - 1))), (Z.ltb_spec (acc + x mod 16 * 2 ^ 28) (2 ^ (32 - 1))); try lia.
  - rewrite !wrap_small by (unfold fits; lia). by rewrite lor_add.
  - assert (∀ r, 0 ≤ r < 2 ^ 32 → 2 ^ 31 ≤ r → u64 (r - 2 ^ 32) = r + (2 ^ 64 - 2 ^ 32)) as Eu.
    { intros r Hr Hr'. symmetry. apply (Z.mod_unique_pos _ _ (-1)); lia. }
    rewrite !Eu by lia. replace (x mod 16 * 2 ^ 28 + (2 ^ 64 - 2 ^ 32)) with ((x mod 16 + (2 ^ 36 - 2 ^ 4)) * 2 ^ 28) by lia.
    rewrite lor_add by lia. lia.
Qed.

Lemma low_bits acc x shift :
  0 ≤ shift ≤ 21 → 0 ≤ acc < 2 ^ shift → 0 ≤ x < 128 →
  Z.lor acc (u64 (s32 (Z.shiftl x shift))) = acc + x * 2 ^ shift ∧ 0 ≤ acc + x * 2 ^ shift < 2 ^ (shift + 7).
Proof.
  intros Hs Ha Hx. rewrite Z.shiftl_mul_pow2 by lia. pose proof (Z.pow_le_mono_r 2 shift 21 ltac:(lia) ltac:(lia)).
  rewrite Z.pow_add_r by lia. assert (0 ≤ x * 2 ^ shift < 2 ^ 28) by (split; [nia|]; change (2 ^ 28) with (128 * 2 ^ 21); nia).
  rewrite swrap_small, wrap_small by (unfold fits; lia). rewrite lor_add by lia. split; [done|nia].
Qed.

Section reading.
Context (mem : Z → Z).

Lemma leb_loop_step fuel p acc shift :
  leb_loop mem (S fuel) p acc shift =
  (_ ← check UndefinedShift (shift <? 32);
   let acc := Z.lor acc (u64 (s32 (Z.shiftl (Z.land (mem p) 127) shift))) in
   if Z.land (mem p) 128 =? 0 then Ok (acc, mem p, shift + 7, p + 1) else leb_loop mem fuel (p + 1) acc (shift + 7)).
Proof. done. Qed.

Lemma leb_loop_continue fuel p acc shift :
  shift < 32 → Z.land (mem p) 128 ≠ 0 → ∃ acc', leb_loop mem (S fuel) p acc shift = leb_loop mem fuel (p + 1) acc' (shift + 7).
Proof.
  intros Hs Hc. rewrite leb_loop_step, (proj2 (Z.ltb_lt shift 32)), (proj2 (Z.eqb_neq (Z.land (mem p) 128) 0)) by done. ok_step. by eexists.
Qed.

Lemma leb_loop_spec n : ∀ x p acc shift,
  (1 ≤ n ≤ 5)%nat → shift = 7 * (5 - Z.of_nat n) → 0 ≤ acc < 2 ^ shift → 0 ≤ x < 2 ^ (7 * Z.of_nat n) →
  bytes_at mem p (uleb n x) →
  ∃ byte shift', leb_loop mem (S n) p acc shift =
    Ok (u64 (s32 (acc + x * 2 ^ shift)), byte, shift', p + Z.of_nat (length (uleb n x))).
Proof.
  induction n as [|n IH]; intros x p acc shift Hn Hs Ha Hx Hb; [lia|].
  rewrite leb_loop_step, (proj2 (Z.ltb_lt shift 32)) by lia. ok_step. cbv zeta. cbn [uleb] in *.
  destruct (Z.ltb_spec x 128) as [Hlt|Hge].
  - apply bytes_at_cons in Hb as [-> _]. destruct (low_seven x ltac:(lia)) as (-> & -> & _ & _). cbn [length].
    eexists _, _. do 4 f_equal. destruct n as [|n].
    + subst shift. change (7 * (5 - Z.of_nat 1)) with 28 in *. rewrite Z.shiftl_mul_pow2 by lia. by apply last_byte.
    + destruct (low_bits acc x shift) as [-> Hr]; [lia..|]. pose proof (Z.pow_le_mono_r 2 (shift + 7) 28 ltac:(lia) ltac:(lia)).
      by rewrite swrap_small, wrap_small by (unfold fits; lia).
  - apply bytes_at_cons in Hb as [-> Hb]. pose proof (Z.mod_pos_bound x 128 ltac:(lia)) as Hm.
    destruct (low_seven (x mod 128) Hm) as (_ & _ & -> & ->).
    destruct n as [|n]; [change (7 * Z.of_nat 1) with 7 in Hx; lia|].
    destruct (low_bits acc (x mod 128) shift) as [-> Hr]; [lia..|].
    destruct (IH (x / 128) (p + 1) (acc + x mod 128 * 2 ^ shift) (shift + 7)) as (byte & shift' & ->); [lia|lia|done| |done|].
    { split; [apply Z.div_pos; lia|]. apply Z.div_lt_upper_bound; [lia|]. change 128 with (2 ^ 7). rewrite <- Z.pow_add_r by lia.
      replace (7 + 7 * Z.of_nat (S n)) with (7 * Z.of_nat (S (S n))) by lia. lia. }
    eexists _, _. f_equal. f_equal; [f_equal; f_equal|].
    + do 2 f_equal. rewrite Z.pow_add_r by lia. pose proof (Z.div_mod x 128). nia.
    + cbn [length]. lia.
Qed.

(** Numbers below [2^35]: bit 31 is copied into the upper half. *)
Lemma read_uleb_spec x p :
  0 ≤ x < 2 ^ 35 → bytes_at mem p (uleb 5 x) → read_uleb_128 mem p = Ok (u64 (s32 x), p + Z.of_nat (length (uleb 5 x))).
Proof.
  intros Hx Hb. unfold read_uleb_128.
  destruct (leb_loop_spec 5 x p 0 0) as (byte & shift' & ->); [lia|lia|simpl; lia|lia|done|].
  rewrite bind_Ok. do 2 f_equal. by rewrite Z.mul_1_r, Z.add_0_l.
Qed.

Lemma read_uleb_small x p :
  0 ≤ x < 2 ^ 31 → bytes_at mem p (uleb 5 x) → read_uleb_128 mem p = Ok (x, p + Z.of_nat (length (uleb 5 x))).
Proof. intros Hx Hb. rewrite (read_uleb_spec x) by (done || lia). by rewrite swrap_small, wrap_small by (unfold fits; lia). Qed.

Lemma uleb_length n x : (0 < n)%nat → (0 < length (uleb n x))%nat.
Proof. destruct n; [lia|]. intros _. simpl. case_match; simpl; lia. Qed.
End reading.

(** ** Call sites *)

(** A call site as the compiler writes it. *)
Definition site_bytes (s : LSDA_call_site) : list Z := uleb 5 (start s) ++ uleb 5 (len s) ++ uleb 5 (landing_pad s) ++ uleb 5 (action s).

Definition site_fits (s : LSDA_call_site) : Prop :=
  0 ≤ start s < 2 ^ 31 ∧ 0 ≤ len s < 2 ^ 31 ∧ 0 ≤ landing_pad s < 2 ^ 31 ∧ 0 ≤ action s < 2 ^ 31.

(** The call sites that the loop of the personality routine sees. *)
Fixpoint collect_sites (mem : Z → Z) (fuel : nat) (l : LSDA) : result (list LSDA_call_site) :=
  match fuel with
  | O => Err Hang
  | S fuel' =>
      '(site, l) ← get_next_call_site mem l;
      match site with
      | None => Ok []
      | Some s => ss ← collect_sites mem fuel' l; Ok (s :: ss)
      end
  end.

Section sites.
Context (mem : Z → Z).

Lemma read_call_site_spec s p :
  site_fits s → bytes_at mem p (site_bytes s) → read_call_site mem p = Ok (s, p + Z.of_nat (length (site_bytes s))).
Proof.
  intros (H1 & H2 & H3 & H4) Hb. unfold site_bytes in *. rewrite !bytes_at_app in Hb. destruct Hb as (B1 & B2 & B3 & B4).
  unfold read_call_site. rewrite (read_uleb_small mem (start s)), bind_Ok by done. rewrite (read_uleb_small mem (len s)), bind_Ok by done.
  rewrite (read_uleb_small mem (landing_pad s)), bind_Ok by done. rewrite (read_uleb_small mem (action s)), bind_Ok by done.
  rewrite !length_app. destruct s. do 2 f_equal. lia.
Qed.

Lemma leb_loop_advances fuel p acc shift a b sh p' : leb_loop mem fuel p acc shift = Ok (a, b, sh, p') → p < p'.
Proof.
  revert p acc shift. induction fuel as [|fuel IH]; intros p acc shift Hr; [done|]. cbn [leb_loop] in Hr. inv_result.
  case_match; [simplify_eq; lia|]. apply IH in Hr. lia.
Qed.

Lemma read_uleb_advances p x p' : read_uleb_128 mem p = Ok (x, p') → p < p'.
Proof.
  unfold read_uleb_128. intros Hr. apply bind_Ok_inv in Hr as ([[[a b] sh] q] & Hl & Hr). simplify_eq.
  by eapply leb_loop_advances.
Qed.

Lemma read_call_site_advances p s p' : read_call_site mem p = Ok (s, p') → p < p'.
Proof.
  unfold read_call_site. intros Hr. inv_result. repeat case_match; simplify_eq. inv_result. repeat case_match. inv_result.
  repeat case_match. inv_result. repeat case_match. simplify_eq.
  repeat match goal with H : read_uleb_128 _ _ = _ |- _ => apply read_uleb_advances in H end. lia.
Qed.
End sites.

(** The loop reads the call sites of the table, and then one record more: the test
    for the end is [>], so it also runs at the end of the table, where the actions
    begin. *)
Lemma collect_sites_spec mem sites : ∀ l extra p',
  Forall site_fits sites → bytes_at mem (next_call_site_ptr l) (concat (site_bytes <$> sites)) →
  call_site_table_end l = next_call_site_ptr l + Z.of_nat (length (concat (site_bytes <$> sites))) →
  read_call_site mem (call_site_table_end l) = Ok (extra, p') →
  collect_sites mem (S (S (length sites))) l = Ok (sites ++ [extra]).
Proof.
  induction sites as [|s sites IH]; intros l extra p' Hf Hb He Hx.
  - cbn [collect_sites length]. unfold get_next_call_site. simpl in He. rewrite Z.add_0_r in He.
    rewrite (proj2 (Z.ltb_ge (call_site_table_end l) (next_call_site_ptr l))) by lia. rewrite <- He, Hx, !bind_Ok. cbn beta iota. cbn [call_site_table_end next_call_site_ptr].
    pose proof (read_call_site_advances _ _ _ _ Hx). rewrite (proj2 (Z.ltb_lt (call_site_table_end l) p')) by lia. done.
  - inversion Hf as [|? ? Hs Hss]; subst. rewrite fmap_cons in *. cbn [concat] in *. rewrite bytes_at_app in Hb. destruct Hb as [Hb1 Hb2].
    rewrite length_app in He. change (S (S (length (s :: sites)))) with (S (S (S (length sites)))).
    change (collect_sites mem (S ?f) ?l) with ('(site, l) ← get_next_call_site mem l;
      match site with None => Ok [] | Some s => ss ← collect_sites mem f l; Ok (s :: ss) end).
    unfold get_next_call_site at 1. rewrite (proj2 (Z.ltb_ge (call_site_table_end l) (next_call_site_ptr l))) by lia.
    rewrite (read_call_site_spec mem s) by done. rewrite !bind_Ok. cbn beta iota.
    erewrite IH; [done|done|done|cbn [call_site_table_end next_call_site_ptr]; lia|done].
Qed.

(** ** Handlers *)

(** A call site with its chain of actions: the type index of each, and whether it
    is a handler that takes the thrown type. *)
Record decoded := MkDecoded { d_site : LSDA_call_site; d_chain : list (Z * bool) }.

Section decode.
Context (mem : Z → Z) (sf : nat) (type_name : Z).

Fixpoint decode_chain (fuel : nat) (l : LSDA) (a : option Action) : result (list (Z * bool)) :=
  match fuel with
  | O => Err Hang
  | S fuel' =>
      match a with
      | None => Ok []
      | Some a =>
          m ← (if type_index a =? 0 then Ok false else handler_matches mem sf type_name l a);
          next ← get_next_action mem a;
          ch ← decode_chain fuel' l next;
          Ok ((type_index a, m) :: ch)
      end
  end.

Fixpoint decode (fuel : nat) (l : LSDA) : result (list decoded) :=
  match fuel with
  | O => Err Hang
  | S fuel' =>
      '(site, l) ← get_next_call_site mem l;
      match site with
      | None => Ok []
      | Some s =>
          ch ← (if landing_pad s =? 0 then Ok [] else a ← get_first_action mem l s; decode_chain fuel l a);
          ds ← decode fuel' l;
          Ok (MkDecoded s ch :: ds)
      end
  end.
End decode.

(** The first handler of a chain, and of the call sites around the throw. *)
Fixpoint chain_handler (ch : list (Z * bool)) : option Z :=
  match ch with
  | [] => None
  | (idx, m) :: ch' => if negb (idx =? 0) && m then Some idx else chain_handler ch'
  end.

Definition covers (c : context) (d : decoded) : bool := negb (landing_pad (d_site d) =? 0) && valid_for_throw_ip c (d_site d).

Fixpoint first_handler (c : context) (ds : list decoded) : option (Z * Z) :=
  match ds with
  | [] => None
  | d :: ds' =>
      match (if covers c d then chain_handler (d_chain d) else None) with
      | Some idx => Some (u64 (region_start c + landing_pad (d_site d)), idx)
      | None => first_handler c ds'
      end
  end.

(** No cleanup at a call site around the throw. *)
Definition no_cleanup (c : context) (d : decoded) : Prop :=
  covers c d = true → action (d_site d) ≠ 0 ∧ Forall (λ a, a.1 ≠ 0) (d_chain d).

Section phases.
Context (mem : Z → Z) (sf : nat) (exn type_name : Z).
Abbreviation SEARCH := (MkPhases true false).
Abbreviation CLEANUP := (MkPhases false true).

Lemma search_actions fuel l pad : ∀ a ch c hc,
  decode_chain mem sf type_name fuel l a = Ok ch →
  run_actions mem sf SEARCH exn type_name fuel l pad a c hc =
    Ok (match chain_handler ch with Some _ => Return URC_HANDLER_FOUND c | None => Continue c hc end).
Proof.
  induction fuel as [|fuel IH]; intros a ch c hc Hd; [done|]. cbn [decode_chain run_actions] in *.
  destruct a as [a|]; [|by simplify_eq]. inv_result. cbn [search cleanup chain_handler fst snd].
  destruct (Z.eqb_spec (type_index a) 0) as [E|E]; simplify_eq; cbn [negb andb].
  - rewrite Hb0, bind_Ok. by apply IH.
  - rewrite Hb, bind_Ok. destruct a0; cbn [andb]; [done|]. rewrite Hb0, bind_Ok. by apply IH.
Qed.

(** In the second phase: either a handler is installed, or the chain ends, and the
    context has changed only when there was a cleanup. *)
Lemma cleanup_actions fuel l pad : ∀ a ch c hc,
  decode_chain mem sf type_name fuel l a = Ok ch →
  ∃ c' hc', run_actions mem sf CLEANUP exn type_name fuel l pad a c hc =
    Ok (match chain_handler ch with Some idx => Return URC_INSTALL_CONTEXT (set_landing_pad c' exn pad idx) | None => Continue c' hc' end) ∧
    region_start c' = region_start c ∧ (hc = true → hc' = true) ∧
    (hc' = true ∨ c' = c) ∧ (Forall (λ a, a.1 ≠ 0) ch → c' = c ∧ hc' = hc).
Proof.
  induction fuel as [|fuel IH]; intros a ch c hc Hd; [done|]. cbn [decode_chain run_actions] in *.
  destruct a as [a|]; [|by simplify_eq; exists c, hc; split_and!; auto]. inv_result. cbn [search cleanup chain_handler fst snd].
  destruct (Z.eqb_spec (type_index a) 0) as [E|E]; simplify_eq; cbn [negb andb].
  - rewrite Hb0, bind_Ok. destruct (IH _ _ (set_landing_pad c exn pad 0) true Hb1) as (c' & hc' & -> & Er & Ht & _ & _).
    exists c', hc'. split_and!; [done|done|auto|auto|]. intros Hf. inversion Hf. done.
  - rewrite Hb, bind_Ok, !andb_false_r. destruct a0; cbn [andb].
    + exists c, hc. split_and!; auto.
    + rewrite Hb0, bind_Ok. destruct (IH _ _ c hc Hb1) as (c' & hc' & -> & Er & Ht & Hor & Hn).
      exists c', hc'. split_and!; [done..|]. intros Hf. inversion Hf. auto.
Qed.

Lemma decode_step fuel l ds :
  decode mem sf type_name (S fuel) l = Ok ds →
  (∃ l', get_next_call_site mem l = Ok (None, l') ∧ ds = []) ∨
  ∃ s l' ch ds', get_next_call_site mem l = Ok (Some s, l') ∧ ds = MkDecoded s ch :: ds' ∧ decode mem sf type_name fuel l' = Ok ds' ∧
    (landing_pad s = 0 ∨ ∃ a, get_first_action mem l' s = Ok a ∧ decode_chain mem sf type_name (S fuel) l' a = Ok ch).
Proof.
  intros Hd. change (decode mem sf type_name (S fuel) l) with ('(site, l) ← get_next_call_site mem l;
    match site with None => Ok [] | Some s =>
      ch ← (if landing_pad s =? 0 then Ok [] else a ← get_first_action mem l s; decode_chain mem sf type_name (S fuel) l a);
      ds ← decode mem sf type_name fuel l; Ok (MkDecoded s ch :: ds) end) in Hd.
  apply bind_Ok_inv in Hd as ([[s|] l'] & Hn & Hd); [right|left; injection Hd as <-; eauto].
  apply bind_Ok_inv in Hd as (ch & Hc & Hd). apply bind_Ok_inv in Hd as (ds' & Hd' & Hd). injection Hd as <-.
  exists s, l', ch, ds'. split_and!; [done..|]. destruct (Z.eqb_spec (landing_pad s) 0); [by left|right].
  apply bind_Ok_inv in Hc as (a & Ha & Hc). eauto.
Qed.

Lemma run_sites_step ph fuel l c hc site l' :
  get_next_call_site mem l = Ok (site, l') →
  run_sites mem sf ph exn type_name (S fuel) l c hc =
  match site with
  | None => Ok (if cleanup ph && hc then URC_INSTALL_CONTEXT else URC_CONTINUE_UNWIND, c)
  | Some s => r ← run_site mem sf ph exn type_name (S fuel) l' s c hc;
      match r with Return code c => Ok (code, c) | Continue c hc => run_sites mem sf ph exn type_name fuel l' c hc end
  end.
Proof.
  intros Hn. change (run_sites mem sf ph exn type_name (S fuel) l c hc) with ('(site, l) ← get_next_call_site mem l;
    match site with
    | None => Ok (if cleanup ph && hc then URC_INSTALL_CONTEXT else URC_CONTINUE_UNWIND, c)
    | Some s => r ← run_site mem sf ph exn type_name (S fuel) l s c hc;
        match r with Return code c => Ok (code, c) | Continue c hc => run_sites mem sf ph exn type_name fuel l c hc end
    end). by rewrite Hn.
Qed.

Lemma run_site_skip ph fuel l s ch c hc : covers c (MkDecoded s ch) = false → run_site mem sf ph exn type_name fuel l s c hc = Ok (Continue c hc).
Proof.
  unfold covers, run_site. cbn [d_site]. destruct (landing_pad s =? 0); [done|]. cbn [negb andb]. by intros ->.
Qed.

Lemma search_sites fuel : ∀ l ds c hc,
  decode mem sf type_name fuel l = Ok ds →
  run_sites mem sf SEARCH exn type_name fuel l c hc =
    Ok (match first_handler c ds with Some _ => URC_HANDLER_FOUND | None => URC_CONTINUE_UNWIND end, c).
Proof.
  induction fuel as [|fuel IH]; intros l ds c hc Hd; [done|].
  apply decode_step in Hd as [(l' & Hn & ->)|(s & l' & ch & ds' & Hn & -> & Hd & Hch)]; rewrite (run_sites_step _ _ _ _ _ _ _ Hn); [done|].
  cbn [first_handler d_site d_chain]. destruct (covers c (MkDecoded s ch)) eqn:Hc.
  - pose proof Hc as Hc'. unfold covers in Hc'. cbn [d_site] in Hc'. apply andb_true_iff in Hc' as [Hp Hv]. apply negb_true_iff in Hp.
    unfold run_site. rewrite Hp, Hv, andb_false_r. cbn [negb]. apply Z.eqb_neq in Hp.
    destruct Hch as [?|(a & -> & Hch)]; [done|]. rewrite bind_Ok, (search_actions _ _ _ _ _ _ _ Hch), bind_Ok.
    destruct (chain_handler ch); [done|by apply IH].
  - rewrite (run_site_skip _ _ _ _ _ _ _ Hc), bind_Ok. by apply IH.
Qed.

(** One call site in the second phase. *)
Lemma cleanup_site fuel l s ch c hc :
  landing_pad s = 0 ∨ (∃ a, get_first_action mem l s = Ok a ∧ decode_chain mem sf type_name fuel l a = Ok ch) →
  let pad := u64 (region_start c + landing_pad s) in
  (∃ c', run_site mem sf CLEANUP exn type_name fuel l s c hc = Ok (Return URC_INSTALL_CONTEXT c') ∧
     (no_cleanup c (MkDecoded s ch) → covers c (MkDecoded s ch) = true ∧ ∃ idx, chain_handler ch = Some idx ∧ c' = set_landing_pad c exn pad idx)) ∨
  (covers c (MkDecoded s ch) = false ∨ chain_handler ch = None) ∧
  ∃ c' hc', run_site mem sf CLEANUP exn type_name fuel l s c hc = Ok (Continue c' hc') ∧
     (hc = true → hc' = true) ∧ (hc' = true ∨ c' = c) ∧ (no_cleanup c (MkDecoded s ch) → c' = c ∧ hc' = hc).
Proof.
  intros Hch pad. destruct (covers c (MkDecoded s ch)) eqn:Hc.
  2:{ right. split; [by left|]. exists c, hc. rewrite (run_site_skip _ _ _ _ _ _ _ Hc). split_and!; auto. }
  pose proof Hc as Hc'. unfold covers in Hc'. cbn [d_site] in Hc'. apply andb_true_iff in Hc' as [Hp Hv]. apply negb_true_iff in Hp.
  unfold run_site. fold pad. rewrite Hp, Hv, andb_true_r. cbn [negb]. apply Z.eqb_neq in Hp. destruct Hch as [?|(a & Ha & Hch)]; [done|].
  destruct (Z.eqb_spec (action s) 0) as [E|E].
  { left. eexists. split; [reflexivity|]. intros Hn. by destruct (Hn Hc). }
  rewrite Ha, bind_Ok. destruct (cleanup_actions _ l pad a ch c hc Hch) as (c' & hc' & -> & Hr & Ht & Hor & Hn).
  destruct (chain_handler ch) as [idx|] eqn:Hh.
  - left. eexists. split; [reflexivity|]. intros Hno. split; [done|]. exists idx. split; [done|].
    destruct (Hno Hc) as [_ Hf]. by destruct (Hn Hf) as [-> _].
  - right. split; [by right|]. exists c', hc'. split_and!; [done..|]. intros Hno. by apply Hn, Hno.
Qed.

Lemma cleanup_sites fuel : ∀ l ds c hc,
  decode mem sf type_name fuel l = Ok ds →
  ∃ code c', run_sites mem sf CLEANUP exn type_name fuel l c hc = Ok (code, c') ∧
    (hc = true ∨ is_Some (first_handler c ds) → code = URC_INSTALL_CONTEXT) ∧
    (hc = false → Forall (no_cleanup c) ds → (code, c') =
       match first_handler c ds with
       | Some (pad, idx) => (URC_INSTALL_CONTEXT, set_landing_pad c exn pad idx)
       | None => (URC_CONTINUE_UNWIND, c)
       end).
Proof.
  induction fuel as [|fuel IH]; intros l ds c hc Hd; [done|].
  apply decode_step in Hd as [(l' & Hn & ->)|(s & l' & ch & ds' & Hn & -> & Hd & Hch)]; rewrite (run_sites_step _ _ _ _ _ _ _ Hn).
  { eexists _, _. split; [reflexivity|]. split; [intros [->|[? ?]]; done|]. by intros ->. }
  cbn [first_handler d_site d_chain].
  destruct (cleanup_site (S fuel) l' s ch c hc Hch) as [(c' & -> & Hno)|(Hnone & c' & hc' & -> & Ht & Hor & Hno)].
  - rewrite bind_Ok. eexists _, _. split; [reflexivity|]. split; [done|]. intros _ Hf. inversion Hf as [|? ? Hnc _]; subst.
    destruct (Hno Hnc) as (-> & idx & -> & ->). done.
  - assert ((if covers c (MkDecoded s ch) then chain_handler ch else None) = None) as -> by (destruct Hnone as [->| ->]; by repeat case_match).
    rewrite bind_Ok. destruct (IH l' ds' c' hc' Hd) as (code & c2 & -> & Hi & Hs). exists code, c2. split; [done|]. split.
    + intros [->|Hh]; apply Hi; [by left; apply Ht|]. destruct Hor as [->| ->]; auto.
    + intros -> Hf. inversion Hf as [|? ? Hnc Hf']; subst. destruct (Hno Hnc) as [-> ->]. by apply Hs.
Qed.
End phases.

(** ** Stacks of caught exceptions *)

(** The abstract state: type name and destructor of the exceptions that exist, and
    for each thread the exceptions it is handling, the innermost first. *)
Record catch_state := MkState { live : gmap Z (Z * Z); stacks : list (list Z) }.

Inductive catch_op := BeginCatch (tid h : Z) | EndCatch (tid : Z).

Definition end_events (h : Z) (nd : Z * Z) : list catch_event :=
  ReleaseName nd.1 :: (if nd.2 =? 0 then [] else [Destroy nd.2 h]) ++ [ReleaseException h].

(** What the calls mean; an exception is caught by one handler at a time. *)
Definition abs_catch (o : catch_op) (t : catch_state) : option (list catch_event * catch_state) :=
  match o with
  | BeginCatch tid h =>
      nd ← live t !! h; l ← stacks t !! Z.to_nat tid;
      if decide (Exists (λ l, h ∈ l) (stacks t)) then None
      else Some ([], MkState (live t) (<[Z.to_nat tid := h :: l]> (stacks t)))
  | EndCatch tid =>
      l ← stacks t !! Z.to_nat tid;
      match l with
      | [] => None
      | h :: l' => nd ← live t !! h; Some (end_events h nd, MkState (base.delete h (live t)) (<[Z.to_nat tid := l']> (stacks t)))
      end
  end.

Definition run_catch (o : catch_op) (s : catches) : result (list catch_event * catches) :=
  match o with
  | BeginCatch tid h => s ← cxa_begin_catch tid h s; Ok ([], s)
  | EndCatch tid => cxa_end_catch tid s
  end.

Fixpoint abs_catches (os : list catch_op) (t : catch_state) : option (list catch_event * catch_state) :=
  match os with
  | [] => Some ([], t)
  | o :: os' => '(ev, t) ← abs_catch o t; '(evs, t) ← abs_catches os' t; Some (ev ++ evs, t)
  end.

Fixpoint run_catches (os : list catch_op) (s : catches) : result (list catch_event * catches) :=
  match os with
  | [] => Ok ([], s)
  | o :: os' => '(ev, s) ← run_catch o s; '(evs, s) ← run_catches os' s; Ok (ev ++ evs, s)
  end.

(** The chain from [top] through the headers. *)
Fixpoint linked (H : gmap Z cxa_exception) (top : Z) (l : list Z) : Prop :=
  match l with
  | [] => top = 0
  | h :: l' => top = h ∧ ∃ e, H !! h = Some e ∧ linked H (nextException e) l'
  end.

Record catch_rep (s : catches) (t : catch_state) : Prop := {
  cr_live h : (λ e, (exceptionTypeName e, exceptionDestructor e)) <$> headers s !! h = live t !! h;
  cr_null : headers s !! 0 = None;
  cr_stack i l : stacks t !! i = Some l → ∃ top, last_exception s !! i = Some top ∧ linked (headers s) top l;
  cr_nodup i l : stacks t !! i = Some l → NoDup l;
  cr_disjoint i j l l' h : stacks t !! i = Some l → stacks t !! j = Some l' → h ∈ l → h ∈ l' → i = j;
}.

Lemma linked_frame H H' top l : (∀ h, h ∈ l → H' !! h = H !! h) → linked H top l → linked H' top l.
Proof.
  revert top. induction l as [|h l IH]; intros top Hf Hl; [done|]. destruct Hl as (-> & e & He & Hl). split; [done|].
  exists e. rewrite Hf by apply list_elem_of_here. split; [done|]. apply IH; [|done]. intros x Hx. by apply Hf, list_elem_of_further.
Qed.

Lemma insert_stack_Some {A} (st : list A) i j x y : <[i := x]> st !! j = Some y → is_Some (st !! i) → (j = i ∧ y = x) ∨ (j ≠ i ∧ st !! j = Some y).
Proof.
  intros Hj [z Hi]. destruct (decide (j = i)) as [->|Hne].
  - rewrite list_lookup_insert_eq in Hj by (by eapply lookup_lt_Some). left. by simplify_eq.
  - rewrite list_lookup_insert_ne in Hj by done. by right.
Qed.

Lemma begin_catch_refines tid h s t ev t' :
  catch_rep s t → abs_catch (BeginCatch tid h) t = Some (ev, t') → ∃ s', run_catch (BeginCatch tid h) s = Ok (ev, s') ∧ catch_rep s' t'.
Proof.
  intros [Hlive Hnull Hst Hnd Hdj] Ha. unfold abs_catch in Ha.
  destruct (live t !! h) as [nd|] eqn:Hh; [|done]. destruct (stacks t !! Z.to_nat tid) as [l|] eqn:Hl; [|done].
  simpl in Ha. destruct (decide _) as [|Hno]; [done|]. simplify_eq. rewrite Exists_exists in Hno.
  pose proof (Hlive h) as He. rewrite Hh in He. destruct (headers s !! h) as [e|] eqn:Hhe; [|done]. simpl in He.
  destruct (Hst _ _ Hl) as (top & Htop & Hlk). unfold run_catch, cxa_begin_catch. rewrite Hhe, Htop.
  assert (Hnin : ∀ i l', stacks t !! i = Some l' → h ∉ l').
  { intros i l' Hi Hin. apply Hno. exists l'. split; [by eapply list_elem_of_lookup_2|done]. }
  eexists. split; [reflexivity|]. split; cbn [headers last_exception live stacks].
  - intros x. destruct (decide (x = h)) as [->|Hne]; [rewrite lookup_insert_eq, Hh; by rewrite <- He|].
    by rewrite lookup_insert_ne.
  - rewrite lookup_insert_ne; [done|]. intros ->. congruence.
  - intros i l' Hi. apply insert_stack_Some in Hi as [[-> ->]|[Hne Hi]]; [| |by eexists].
    + exists h. rewrite list_lookup_insert_eq by (by eapply lookup_lt_Some). split; [done|]. split; [done|].
      eexists. rewrite lookup_insert_eq. split; [done|]. cbn [nextException]. eapply linked_frame; [|exact Hlk].
      intros x Hx. rewrite lookup_insert_ne; [done|]. intros <-. by apply (Hnin _ _ Hl).
    + destruct (Hst _ _ Hi) as (top' & Ht' & Hlk'). exists top'. rewrite list_lookup_insert_ne by done. split; [done|].
      eapply linked_frame; [|exact Hlk']. intros x Hx. rewrite lookup_insert_ne; [done|]. intros <-. by apply (Hnin _ _ Hi).
  - intros i l' Hi. apply insert_stack_Some in Hi as [[-> ->]|[Hne Hi]]; [| |by eexists]; [|by eapply Hnd].
    constructor; [by eapply Hnin|by eapply Hnd].
  - intros i j l1 l2 x Hi Hj Hx1 Hx2. apply insert_stack_Some in Hi, Hj; [|by eexists..].
    destruct Hi as [[-> ->]|[Hne1 Hi]], Hj as [[-> ->]|[Hne2 Hj]]; [done| | |by eapply Hdj].
    + apply elem_of_cons in Hx1 as [->|Hx1]; [by destruct (Hnin _ _ Hj)|by eapply Hdj].
    + apply elem_of_cons in Hx2 as [->|Hx2]; [by destruct (Hnin _ _ Hi)|by eapply Hdj].
Qed.

Lemma end_catch_refines tid s t ev t' :
  catch_rep s t → abs_catch (EndCatch tid) t = Some (ev, t') → ∃ s', run_catch (EndCatch tid) s = Ok (ev, s') ∧ catch_rep s' t'.
Proof.
  intros [Hlive Hnull Hst Hnd Hdj] Ha. unfold abs_catch in Ha.
  destruct (stacks t !! Z.to_nat tid) as [[|h l]|] eqn:Hl; [done| |done]. simpl in Ha.
  destruct (live t !! h) as [nd|] eqn:Hh; [|done]. simpl in Ha. simplify_eq.
  destruct (Hst _ _ Hl) as (top & Htop & -> & e & He & Hlk). unfold run_catch, cxa_end_catch. rewrite Htop. ok_step. rewrite He. ok_step.
  pose proof (Hlive h) as Hnde. rewrite Hh, He in Hnde. simpl in Hnde. simplify_eq.
  pose proof (Hnd _ _ Hl) as Hndl. apply NoDup_cons in Hndl as [Hhl Hndl].
  eexists. split; [reflexivity|]. split; cbn [headers last_exception live stacks].
  - intros x. destruct (decide (x = h)) as [->|Hne]; [by rewrite !lookup_delete_eq|]. by rewrite !lookup_delete_ne.
  - destruct (decide (h = 0)) as [->|]; [by rewrite lookup_delete_eq|]. by rewrite lookup_delete_ne.
  - intros i l' Hi. apply insert_stack_Some in Hi as [[-> ->]|[Hne Hi]]; [| |by eexists].
    + exists (nextException e). rewrite list_lookup_insert_eq by (by eapply lookup_lt_Some). split; [done|].
      eapply linked_frame; [|exact Hlk]. intros x Hx. rewrite lookup_delete_ne; [done|]. by intros <-.
    + destruct (Hst _ _ Hi) as (top' & Ht' & Hlk'). exists top'. rewrite list_lookup_insert_ne by done. split; [done|].
      eapply linked_frame; [|exact Hlk']. intros x Hx. rewrite lookup_delete_ne; [done|]. intros <-.
      apply Hne. eapply Hdj; [done|done|done|apply list_elem_of_here].
  - intros i l' Hi. apply insert_stack_Some in Hi as [[-> ->]|[Hne Hi]]; [done|by eapply Hnd|by eexists].
  - intros i j l1 l2 x Hi Hj Hx1 Hx2. apply insert_stack_Some in Hi, Hj; [|by eexists..].
    destruct Hi as [[-> ->]|[Hne1 Hi]], Hj as [[-> ->]|[Hne2 Hj]]; [done| | |by eapply Hdj].
    + eapply Hdj; [done|done|by apply list_elem_of_further|done].
    + eapply Hdj; [done|done|done|by apply list_elem_of_further].
Qed.

(** ** Properties *)

(** Reading LEB128 numbers.  A number below [2^31] is read back as it was written,
    and the pointer moves behind it; from [2^31] to [2^35] the shift in 32-bit
    arithmetic copies bit 31 into the upper half and loses what is above it; a
    longer number shifts by more than the width. *)
Theorem read_uleb_exact mem x p :
  (0 ≤ x < 2 ^ 35 → bytes_at mem p (uleb 5 x) →
   read_uleb_128 mem p = Ok (if x <? 2 ^ 31 then x else u64 (s32 x), p + Z.of_nat (length (uleb 5 x)))) ∧
  ((∀ i, 0 ≤ i < 5 → Z.land (mem (p + i)) 128 ≠ 0) → read_uleb_128 mem p = Err UndefinedShift).
Proof.
  split.
  - intros Hx Hb. destruct (Z.ltb_spec x (2 ^ 31)); [apply read_uleb_small; [lia|done]|by apply read_uleb_spec].
  - intros Hc. unfold read_uleb_128.
    destruct (leb_loop_continue mem 5 p 0 0) as [a1 ->]; [lia|rewrite <- (Z.add_0_r p); apply Hc; lia|].
    destruct (leb_loop_continue mem 4 (p + 1) a1 (0 + 7)) as [a2 ->]; [lia|apply Hc; lia|].
    destruct (leb_loop_continue mem 3 (p + 1 + 1) a2 (0 + 7 + 7)) as [a3 ->]; [lia|rewrite <- Z.add_assoc; apply Hc; lia|].
    destruct (leb_loop_continue mem 2 (p + 1 + 1 + 1) a3 (0 + 7 + 7 + 7)) as [a4 ->]; [lia|rewrite <- !Z.add_assoc; apply Hc; lia|].
    destruct (leb_loop_continue mem 1 (p + 1 + 1 + 1 + 1) a4 (0 + 7 + 7 + 7 + 7)) as [a5 ->]; [lia|rewrite <- !Z.add_assoc; apply Hc; lia|]. done.
Qed.

Lemma read_uleb_exact_witness :
  read_uleb_128 (λ a, default 0 ([229; 142; 38] !! Z.to_nat a)) 0 = Ok (624485, 3) ∧
  read_uleb_128 (λ a, default 0 ([128; 128; 128; 128; 8] !! Z.to_nat a)) 0 = Ok (2 ^ 64 - 2 ^ 31, 5) ∧
  read_uleb_128 (λ _, 128) 0 = Err UndefinedShift.
Proof.
  split_and!.
  - apply (proj1 (read_uleb_exact _ 624485 0)); [lia|]. intros i b Hi. do 3 (destruct i as [|i]; [injection Hi as <-; reflexivity|]). discriminate Hi.
  - apply (proj1 (read_uleb_exact _ (2 ^ 31) 0)); [lia|]. intros i b Hi. do 5 (destruct i as [|i]; [injection Hi as <-; reflexivity|]). discriminate Hi.
  - apply (proj2 (read_uleb_exact _ 0 0)). intros i _. vm_compute. discriminate.
Defined.


(** A frame with one call site, whose handler takes the type named A. *)
Definition sample_tables (a : Z) : Z :=
  if (0x1000 <=? a) && (a <? 0x1015) then
    default 0 ([255; 0; 18; 1; 4; 16; 32; 64; 1; 1; 0; 0; 0; 0; 17; 0; 0; 0; 0; 0; 0] !! Z.to_nat (a - 0x1000))
  else if a =? 0x1109 then 0x12 else if (a =? 0x1200) || (a =? 0x1300) then 65 else 0.


(** Caught exceptions are kept in last-in, first-out order per thread.  Any history
    of begin and end calls that the stacks of the threads allow runs without a
    fault, and each end releases the exception that its thread caught last: its
    type name, its destructor when it has one, and its memory. *)
Theorem catches_are_lifo os s t evs t' :
  catch_rep s t → abs_catches os t = Some (evs, t') → ∃ s', run_catches os s = Ok (evs, s') ∧ catch_rep s' t'.
Proof.
  revert s t evs. induction os as [|o os IH]; intros s t evs Hr Ha; cbn [abs_catches run_catches] in *.
  { simplify_eq. by exists s. }
  destruct (abs_catch o t) as [[ev t1]|] eqn:Ho; [|done]. simpl in Ha.
  destruct (abs_catches os t1) as [[evs1 t2]|] eqn:Hos; [|done]. simpl in Ha. simplify_eq.
  assert (∃ s1, run_catch o s = Ok (ev, s1) ∧ catch_rep s1 t1) as (s1 & -> & Hr1).
  { destruct o; [by eapply begin_catch_refines|by eapply end_catch_refines]. }
  rewrite bind_Ok. destruct (IH s1 t1 evs1 Hr1 Hos) as (s2 & -> & Hr2). rewrite bind_Ok. by exists s2.
Qed.

Lemma catches_are_lifo_witness :
  ∃ s', run_catches [BeginCatch 2 100; BeginCatch 2 200; EndCatch 2; EndCatch 2]
      (MkCatches (replicate MAX_THREADS 0) {[100 := MkExn 11 0 0; 200 := MkExn 21 22 0]}) =
    Ok ([ReleaseName 21; Destroy 22 200; ReleaseException 200; ReleaseName 11; ReleaseException 100], s') ∧
    headers s' !! 100 = None.
Proof.
  destruct (catches_are_lifo [BeginCatch 2 100; BeginCatch 2 200; EndCatch 2; EndCatch 2]
    (MkCatches (replicate MAX_THREADS 0) {[100 := MkExn 11 0 0; 200 := MkExn 21 22 0]})
    (MkState {[100 := (11, 0); 200 := (21, 22)]} (replicate 10 []))
    [ReleaseName 21; Destroy 22 200; ReleaseException 200; ReleaseName 11; ReleaseException 100]
    (MkState ∅ (replicate 10 []))) as (s' & Hrun & Hrep).
  - split; cbn [headers last_exception live stacks].
    + intros h. rewrite <- lookup_fmap. f_equal.
    + reflexivity.
    + intros i l Hi. apply lookup_replicate in Hi as [-> Hi]. exists 0. split; [|reflexivity]. by apply lookup_replicate_2.
    + intros i l Hi. apply lookup_replicate in Hi as [-> _]. constructor.
    + intros i j l l' h Hi _ Hh. apply lookup_replicate in Hi as [-> _]. by apply elem_of_nil in Hh.
  - vm_compute. reflexivity.
  - exists s'. split; [exact Hrun|]. pose proof (cr_live _ _ Hrep 100) as E. cbn [live] in E. rewrite lookup_empty in E.
    by destruct (headers s' !! 100).
Defined.
