(* ===== verification/Ata.v ===== *)
(** * Disks: port I/O, the ATA driver, partitions and FAT volumes

    drivers/ata/ata-controller.cpp, drivers/ata/ata-device.cpp,
    drivers/block/block-device-partition.cpp and fs/vfat.cpp.

    The hardware is a type of machine states with the port instructions of
    include/arch/x86/pio.h ([PortIO]).  What the driver relies on is the class
    [AtaChannel]: the 48-bit read protocol of a channel as the ATA standard
    describes it.  Block devices are the interface class [BlockDevice] with its
    laws [BlockLaws]; a disk on a channel is an instance, a partition of any block
    device is another one, and FAT volumes are mounted on any. *)

From S2P Require Import Prelude CppList CppMap CppString Devices.
Local Open Scope Z_scope.

(** ** Port I/O *)

(** [port_delay] is the machine after the kernel has waited for some
    nanoseconds ([KTime.spin_delay]). *)
Class PortIO (M : Type) := {
  port_outb : Z → Z → M → M;
  port_outl : Z → Z → M → M;
  port_inb : Z → M → Z * M;
  port_inw : Z → M → Z * M;
  port_inl : Z → M → Z * M;
  port_delay : Z → M → M }.

(** The bytes that a word of [n] bytes puts into memory. *)
Fixpoint word_bytes (n : nat) (v : Z) : list Z :=
  match n with O => [] | S n' => v mod 256 :: word_bytes n' (v / 256) end.

(** Little-endian loads from a buffer. *)
Fixpoint ld_le (n : nat) (b : list Z) (i : Z) : result Z :=
  match n with
  | O => Ok 0
  | S n' => lo ← rd b i; hi ← ld_le n' b (i + 1); Ok (lo + 256 * hi)
  end.

Section ports.
Context {M : Type} `{PortIO M}.

(** [__inb], [__outb], [__inl] and [__outl]: the port number is cut to 16 bits. *)
Definition __inb (port : Z) (m : M) : Z * M := port_inb (u16 port) m.
Definition __outb (port data : Z) (m : M) : M := port_outb (u16 port) (u8 data) m.
Definition __inl (port : Z) (m : M) : Z * M := port_inl (u16 port) m.
Definition __outl (port data : Z) (m : M) : M := port_outl (u16 port) (u32 data) m.

(** [repnz insw] and [repnz insl]: the bytes that are stored. *)
Fixpoint __insw (port : Z) (count : nat) (m : M) : list Z * M :=
  match count with
  | O => ([], m)
  | S n => let '(v, m) := port_inw (u16 port) m in
           let '(bs, m) := __insw port n m in (word_bytes 2 v ++ bs, m)
  end.

Fixpoint __insl (port : Z) (count : nat) (m : M) : list Z * M :=
  match count with
  | O => ([], m)
  | S n => let '(v, m) := port_inl (u16 port) m in
           let '(bs, m) := __insl port n m in (word_bytes 4 v ++ bs, m)
  end.
End ports.

(** ** Reading a buffer *)

Definition le (bs : list Z) : Z := foldr (λ b v, b + 256 * v) 0 bs.
Definition le_at (n : nat) (i : Z) (b : list Z) : Z := le (take n (drop (Z.to_nat i) b)).

Lemma ld_le_spec n i b :
  0 ≤ i → i + Z.of_nat n ≤ Z.of_nat (length b) → ld_le n b i = Ok (le_at n i b).
Proof.
  revert i. induction n as [|n IH]; intros i Hi Hn; [done|]. cbn [ld_le].
  destruct (rd_total b i) as (x & -> & Hx); [lia|]. rewrite bind_Ok, IH, bind_Ok by lia. unfold le_at.
  rewrite (drop_S _ _ _ Hx). replace (Z.to_nat (i + 1)) with (S (Z.to_nat i)) by lia. done.
Qed.

Lemma rd_byte table i : 0 ≤ i < Z.of_nat (length table) → rd table i = Ok (le_at 1 i table).
Proof.
  intros Hi. destruct (rd_total table i Hi) as (x & -> & Hx). unfold le_at, le. rewrite (drop_S _ _ _ Hx). cbn. by rewrite Z.add_0_r.
Qed.

(** ** The controller *)

Definition ATA_SR_BSY : Z := 0x80.
Definition ATA_SR_DF : Z := 0x20.
Definition ATA_SR_DRQ : Z := 0x08.
Definition ATA_SR_ERR : Z := 0x01.
Definition ATA_CMD_READ_PIO_EXT : Z := 0x24.
Definition ATA_CMD_WRITE_PIO_EXT : Z := 0x34.
Definition ATA_CMD_IDENTIFY : Z := 0xEC.
Definition ATA_REG_DATA : Z := 0x00.
Definition ATA_REG_SECCOUNT0 : Z := 0x02.
Definition ATA_REG_LBA0 : Z := 0x03.
Definition ATA_REG_LBA1 : Z := 0x04.
Definition ATA_REG_LBA2 : Z := 0x05.
Definition ATA_REG_HDDEVSEL : Z := 0x06.
Definition ATA_REG_COMMAND : Z := 0x07.
Definition ATA_REG_STATUS : Z := 0x07.
Definition ATA_REG_SECCOUNT1 : Z := 0x08.
Definition ATA_REG_LBA3 : Z := 0x09.
Definition ATA_REG_LBA4 : Z := 0x0A.
Definition ATA_REG_LBA5 : Z := 0x0B.
Definition ATA_REG_CONTROL : Z := 0x0C.
Definition ATA_PRIMARY : Z := 0.
Definition ATA_SECONDARY : Z := 1.

Record ChannelRegisters := MkRegs { cr_base : Z; cr_ctrl : Z; cr_bmide : Z; nIEN : Z }.
Record ATAController := MkCtl { primary : ChannelRegisters; secondary : ChannelRegisters }.

(** [channels[channel]]; the channel is 0 or 1. *)
Definition channels (c : ATAController) (channel : Z) : ChannelRegisters :=
  if channel =? ATA_PRIMARY then primary c else secondary c.

Definition PORT_OR_BASE_ADDRESS (v p : Z) : Z := if v =? 0 then p else Z.land v (Z.lnot 3).

(** The constructor, from the base address registers of the PCI function. *)
Definition ATAController_new (bar0 bar1 bar2 bar3 bar4 : Z) : ATAController :=
  let bmide := Z.land bar4 (Z.lnot 3) in
  MkCtl
    (MkRegs (u16 (PORT_OR_BASE_ADDRESS bar0 0x1F0)) (u16 (PORT_OR_BASE_ADDRESS bar1 0x3F6)) (u16 bmide) 2)
    (MkRegs (u16 (PORT_OR_BASE_ADDRESS bar2 0x170)) (u16 (PORT_OR_BASE_ADDRESS bar3 0x376)) (u16 (bmide + 8)) 2).

(** The port of a register; the chain of conditions that [ata_read],
    [ata_read_buffer] and [ata_write] share. *)
Definition reg_port (r : ChannelRegisters) (reg : Z) : option Z :=
  if reg <? 0x08 then Some (cr_base r + reg - 0x00)
  else if reg <? 0x0C then Some (cr_base r + reg - 0x06)
  else if reg <? 0x0E then Some (cr_ctrl r + reg - 0x0A)
  else if reg <? 0x16 then Some (cr_bmide r + reg - 0x0E)
  else None.

(** The registers behind the high-order bit of the control register. *)
Definition high_order (reg : Z) : bool := (reg >? 0x07) && (reg <? 0x0C).

Section controller.
Context {M : Type} `{PortIO M}.
Implicit Types (c : ATAController) (m : M).

(** [ata_write] on a register that is not a high-order one. *)
Definition ata_write_plain c (channel reg data : Z) m : M :=
  match reg_port (channels c channel) reg with Some p => __outb p data m | None => m end.

Definition ata_write c (channel reg data : Z) m : M :=
  let high v m := if high_order reg then ata_write_plain c channel ATA_REG_CONTROL v m else m in
  let m := high (Z.lor 0x80 (nIEN (channels c channel))) m in
  let m := ata_write_plain c channel reg data m in
  high (nIEN (channels c channel)) m.

Definition ata_read c (channel reg : Z) m : Z * M :=
  let m := if high_order reg then ata_write c channel ATA_REG_CONTROL (Z.lor 0x80 (nIEN (channels c channel))) m else m in
  let '(result, m) := match reg_port (channels c channel) reg with Some p => __inb p m | None => (0, m) end in
  let m := if high_order reg then ata_write c channel ATA_REG_CONTROL (nIEN (channels c channel)) m else m in
  (result, m).

(** [ata_read_buffer]: the bytes that are stored. *)
Definition ata_read_buffer c (channel reg : Z) (size : Z) m : list Z * M :=
  let m := if high_order reg then ata_write c channel ATA_REG_CONTROL (Z.lor 0x80 (nIEN (channels c channel))) m else m in
  let '(bs, m) := match reg_port (channels c channel) reg with
                  | Some p => __insl p (Z.to_nat (Z.shiftr size 2)) m | None => ([], m) end in
  let m := if high_order reg then ata_write c channel ATA_REG_CONTROL (nIEN (channels c channel)) m else m in
  (bs, m).

(** [while (ata_read(channel, ATA_REG_STATUS) & ATA_SR_BSY)]. *)
Fixpoint wait_busy (fuel : nat) c (channel : Z) m : result M :=
  match fuel with
  | O => Err Hang
  | S fuel' =>
      let '(status, m) := ata_read c channel ATA_REG_STATUS m in
      if Z.land status ATA_SR_BSY =? 0 then Ok m else wait_busy fuel' c channel m
  end.

Definition ata_poll (fuel : nat) c (channel : Z) (error_check : bool) m : result (Z * M) :=
  m ← wait_busy fuel c channel (port_delay 400 m);
  if error_check then
    let '(status, m) := ata_read c channel ATA_REG_STATUS m in
    Ok (if negb (Z.land status ATA_SR_ERR =? 0) then 2
        else if negb (Z.land status ATA_SR_DF =? 0) then 1
        else if Z.land status ATA_SR_DRQ =? 0 then 3 else 0, m)
  else Ok (0, m).
End controller.

(** ** The disk *)

Record ATADevice := MkAta {
  _channel : Z; _drive : Z; _signature : Z; _caps : Z; _cmdsets : Z; _size : Z; _partitions : list Z }.

(** The constructor; the four numbers are set by [init]. *)
Definition ATADevice_new (channel drive : Z) : ATADevice :=
  MkAta (Z.land channel 1) (Z.land drive 1) 0 0 0 0 [].

Section transfer.
Context {M : Type} `{PortIO M}.
Implicit Types (c : ATAController) (d : ATADevice) (m : M).

(** The loop of [transfer] over the blocks: success, and the bytes that are
    stored from the start of the buffer on. *)
Fixpoint read_loop (fuel : nat) c d (nr_blocks : nat) m : result (bool * list Z * M) :=
  match nr_blocks with
  | O => Ok (true, [], m)
  | S n =>
      '(e, m) ← ata_poll fuel c (_channel d) true m;
      if negb (e =? 0) then Ok (false, [], m) else
      let '(bs, m) := __insw (cr_base (channels c (_channel d))) 256%nat m in
      '(ok, rest, m) ← read_loop fuel c d n m;
      Ok (ok, bs ++ rest, m)
  end.

(** The task file that [transfer] writes before the command. *)
Definition set_task_file c d (lba nr_blocks : Z) m : M :=
  let write reg v m := ata_write c (_channel d) reg v m in
  let m := write ATA_REG_HDDEVSEL (Z.lor 0xE0 (Z.shiftl (_drive d) 4)) m in
  let m := write ATA_REG_SECCOUNT1 0 m in
  let m := write ATA_REG_LBA3 (Z.land (Z.shiftr lba 24) 0xff) m in
  let m := write ATA_REG_LBA4 (Z.land (Z.shiftr lba 32) 0xff) m in
  let m := write ATA_REG_LBA5 (Z.land (Z.shiftr lba 40) 0xff) m in
  let m := write ATA_REG_SECCOUNT0 nr_blocks m in
  let m := write ATA_REG_LBA0 (Z.land (Z.shiftr lba 0) 0xff) m in
  let m := write ATA_REG_LBA1 (Z.land (Z.shiftr lba 8) 0xff) m in
  write ATA_REG_LBA2 (Z.land (Z.shiftr lba 16) 0xff) m.

(** [transfer]; a write does not take anything from the buffer. *)
Definition transfer (fuel : nat) c d (direction : bool) (lba nr_blocks : Z) m : result (bool * list Z * M) :=
  m ← wait_busy fuel c (_channel d) m;
  let m := set_task_file c d lba nr_blocks m in
  if direction then Ok (true, [], ata_write c (_channel d) ATA_REG_COMMAND ATA_CMD_WRITE_PIO_EXT m)
  else read_loop fuel c d (Z.to_nat nr_blocks) (ata_write c (_channel d) ATA_REG_COMMAND ATA_CMD_READ_PIO_EXT m).
End transfer.

(** ** Block devices *)

(** include/infos/drivers/block/block-device.h.  [read_blocks] gives the bytes
    that are stored in the buffer. *)
Class BlockDevice (M B : Type) := {
  read_blocks : B → Z → Z → M → result (bool * list Z * M);
  write_blocks : B → Z → Z → M → result (bool * M);
  block_size : B → Z;
  block_count : B → Z }.

(** A disk with its controller. *)
Record AtaDisk := MkDisk { ad_ctrl : ATAController; ad_dev : ATADevice; ad_fuel : nat }.

#[export] Instance ata_block `{PortIO M} : BlockDevice M AtaDisk := {
  read_blocks b offset count m := transfer (ad_fuel b) (ad_ctrl b) (ad_dev b) false offset count m;
  write_blocks b offset count m :=
    '(ok, _, m) ← transfer (ad_fuel b) (ad_ctrl b) (ad_dev b) true offset count m; Ok (ok, m);
  block_size _ := 512;
  block_count b := _size (ad_dev b) }.

(** [BlockDevicePartition] of any block device; the sum wraps around at 64 bits. *)
Record BlockDevicePartition (B : Type) := MkPart {
  _underlying_block_device : B; _block_offset : Z; _block_count : Z }.
Arguments MkPart {B} _ _ _.
Arguments _underlying_block_device {B} _.
Arguments _block_offset {B} _.
Arguments _block_count {B} _.

#[export] Instance partition_block `{BlockDevice M B} : BlockDevice M (BlockDevicePartition B) := {
  read_blocks p offset count m :=
    read_blocks (_underlying_block_device p) (u64 (_block_offset p + offset)) count m;
  write_blocks p offset count m :=
    write_blocks (_underlying_block_device p) (u64 (_block_offset p + offset)) count m;
  block_size p := block_size (M := M) (_underlying_block_device p);
  block_count p := _block_count p }.

(** [VFAT::mount]: the boot block when the volume is mounted. *)
Definition vfat_mount `{BlockDevice M B} (b : B) (m : M) : result (option (list Z) * M) :=
  if negb (block_size (M := M) b =? 512) then Ok (None, m) else
  '(ok, boot, m) ← read_blocks b 0 1 m;
  if negb (ok : bool) then Ok (None, m) else
  signature ← ld_le 2 boot 510;
  Ok (if negb (signature =? 0xaa55) then None else Some boot, m).

(** ** What an ATA channel promises *)

(** A disk of the channel: what IDENTIFY returns, and its sectors ([None] when
    the sector cannot be read). *)
Record disk := MkMedium { d_identity : list Z; d_sector : Z → option (list Z) }.

(** What the selected disk does when it is not busy: nothing, ask for data, have
    data ready with blocks to follow, or report an error. *)
Inductive phase :=
| Idle
| Failed
| DataOut
| DataIn (bs : list Z) (rest : list (option (list Z))).

(** The 48-bit commands take the current and the previous value of registers 2
    to 5.  [ch_busy] bounds how often the status can still be read as busy. *)
Record channel := MkChannel {
  ch_disk : bool → option disk; ch_sel : bool;
  ch_cur : Z → Z; ch_prev : Z → Z; ch_busy : nat; ch_phase : phase }.

Definition put_reg (r v : Z) (c : channel) : channel :=
  MkChannel (ch_disk c) (ch_sel c) (λ x, if x =? r then v else ch_cur c x)
    (λ x, if x =? r then ch_cur c r else ch_prev c x) (ch_busy c) (ch_phase c).
Definition select (v : Z) (c : channel) : channel :=
  MkChannel (ch_disk c) (Z.testbit v 4) (ch_cur c) (ch_prev c) (ch_busy c) (ch_phase c).
Definition with_busy (n : nat) (c : channel) : channel :=
  MkChannel (ch_disk c) (ch_sel c) (ch_cur c) (ch_prev c) n (ch_phase c).
Definition with_phase (p : phase) (c : channel) : channel :=
  MkChannel (ch_disk c) (ch_sel c) (ch_cur c) (ch_prev c) (ch_busy c) p.

(** The address and the number of blocks in the task file; zero blocks stand
    for 65536. *)
Definition ch_lba (c : channel) : Z :=
  ch_cur c 3 + 2 ^ 8 * ch_cur c 4 + 2 ^ 16 * ch_cur c 5 +
  2 ^ 24 * ch_prev c 3 + 2 ^ 32 * ch_prev c 4 + 2 ^ 40 * ch_prev c 5.
Definition ch_count (c : channel) : Z :=
  let n := ch_cur c 2 + 2 ^ 8 * ch_prev c 2 in if n =? 0 then 65536 else n.

(** The next block of a read. *)
Definition next_block (l : list (option (list Z))) : phase :=
  match l with [] => Idle | None :: _ => Failed | Some bs :: rest => DataIn bs rest end.

(** The sectors from [lba] on. *)
Definition sectors (dk : disk) (lba : Z) (n : nat) : list (option (list Z)) :=
  map (λ i, d_sector dk (lba + Z.of_nat i)) (seq 0 n).

Definition command (v : Z) (dk : disk) (c : channel) : channel :=
  with_phase (if v =? ATA_CMD_IDENTIFY then DataIn (d_identity dk) []
              else if v =? ATA_CMD_WRITE_PIO_EXT then DataOut
              else next_block (sectors dk (ch_lba c) (Z.to_nat (ch_count c)))) c.

(** A new command can be given. *)
Definition settled (c : channel) : Prop := ch_phase c = Idle ∨ ch_phase c = Failed.
Definition ready (c : channel) : Prop := ch_busy c = O ∧ settled c.

Definition selected (c : channel) : option disk := ch_disk c (ch_sel c).

(** The status of a channel that is not busy. *)
Definition status_shows (v : Z) (c : channel) : Prop :=
  Z.land v ATA_SR_BSY = 0 ∧
  if selected c then
    Z.land v ATA_SR_DF = 0 ∧ (Z.land v ATA_SR_ERR = 0 ↔ ch_phase c ≠ Failed) ∧
    (Z.land v ATA_SR_DRQ = 0 ↔ settled c) ∧ v ≠ 0
  else v = 0.

(** The protocol, for the command block registers at [base].  [patience] bounds
    how often the status is read as busy after a command or a block. *)
Class AtaChannel (M : Type) `{PortIO M} (base : Z) := {
  view : M → channel;
  patience : nat;
  out_outside p v m : ¬ (base ≤ p < base + 8) → Z.testbit v 2 = false → view (port_outb p v m) = view m;
  out_reg r v m : 2 ≤ r ≤ 5 → ready (view m) → view (port_outb (base + r) v m) = put_reg r v (view m);
  out_select v m : ready (view m) → view (port_outb (base + 6) v m) = select v (view m);
  out_command v m dk :
    v = ATA_CMD_IDENTIFY ∨ v = ATA_CMD_WRITE_PIO_EXT ∨ v = ATA_CMD_READ_PIO_EXT →
    ready (view m) → selected (view m) = Some dk →
    ∃ n, (n ≤ patience)%nat ∧ view (port_outb (base + 7) v m) = with_busy n (command v dk (view m));
  out_command_absent v m :
    ready (view m) → selected (view m) = None → view (port_outb (base + 7) v m) = view m;
  in_status m v m' : port_inb (base + 7) m = (v, m') →
    match ch_busy (view m) with
    | S n => Z.land v ATA_SR_BSY ≠ 0 ∧ ∃ n', (n' ≤ n)%nat ∧ view m' = with_busy n' (view m)
    | O => status_shows v (view m) ∧ view m' = view m
    end;
  in_word m b0 b1 bs rest :
    ch_busy (view m) = O → ch_phase (view m) = DataIn (b0 :: b1 :: bs) rest →
    ∃ m' n, port_inw base m = (b0 + 256 * b1, m') ∧ (n ≤ patience)%nat ∧
      view m' = if decide (bs = []) then with_busy n (with_phase (next_block rest) (view m))
                else with_phase (DataIn bs rest) (view m);
  in_long m b0 b1 b2 b3 bs rest :
    ch_busy (view m) = O → ch_phase (view m) = DataIn (b0 :: b1 :: b2 :: b3 :: bs) rest →
    ∃ m' n, port_inl base m = (b0 + 256 * (b1 + 256 * (b2 + 256 * b3)), m') ∧ (n ≤ patience)%nat ∧
      view m' = if decide (bs = []) then with_busy n (with_phase (next_block rest) (view m))
                else with_phase (DataIn bs rest) (view m);
  delay_view ns m : ∃ n, (n ≤ ch_busy (view m))%nat ∧ view (port_delay ns m) = with_busy n (view m) }.

(** ** What a block device promises *)

(** Reading [n] blocks: success and the bytes up to the first block that cannot
    be read. *)
Fixpoint read_result (l : list (option (list Z))) : bool * list Z :=
  match l with
  | [] => (true, [])
  | None :: _ => (false, [])
  | Some bs :: l' => let '(ok, rest) := read_result l' in (ok, bs ++ rest)
  end.

(** Up to 255 blocks below [extent] are read at once. *)
Class BlockLaws (M B : Type) `{BlockDevice M B} (b : B) (inv : M → Prop) (sector : Z → option (list Z)) (extent : Z) := {
  read_spec off n m :
    inv m → 0 ≤ off → 0 < n < 256 → off + n ≤ extent →
    ∃ m', let '(ok, bs) := read_result (map (λ i, sector (off + Z.of_nat i)) (seq 0 (Z.to_nat n))) in
      read_blocks b off n m = Ok (ok, bs, m') ∧ inv m' }.

(** ** The driver on a channel *)

(** The controller's registers of a channel are those of the hardware. *)
Record wired (c : ATAController) (ch base : Z) : Prop := {
  wired_base : cr_base (channels c ch) = base;
  wired_range : 0 ≤ base ≤ 0xFFF8;
  wired_ctrl : ¬ (base ≤ u16 (cr_ctrl (channels c ch) + 2) < base + 8);
  wired_nIEN : nIEN (channels c ch) = 2 }.

(** Sectors have 512 bytes. *)
Definition block_ok (bs : list Z) : Prop := length bs = 512%nat ∧ Forall (fits 8) bs.
Definition blocks_ok (l : list (option (list Z))) : Prop := ∀ bs, Some bs ∈ l → block_ok bs.

Lemma word_bytes_2 b0 b1 : fits 8 b0 → fits 8 b1 → word_bytes 2 (b0 + 256 * b1) = [b0; b1].
Proof.
  intros H0 H1. unfold fits in *. cbn [word_bytes].
  assert (E : (b0 + 256 * b1) / 256 = b1) by (Z.to_euclidean_division_equations; lia).
  rewrite E. f_equal; [Z.to_euclidean_division_equations; lia|]. f_equal. by apply Z.mod_small.
Qed.

Lemma word_bytes_4 b0 b1 b2 b3 :
  fits 8 b0 → fits 8 b1 → fits 8 b2 → fits 8 b3 →
  word_bytes 4 (b0 + 256 * (b1 + 256 * (b2 + 256 * b3))) = [b0; b1; b2; b3].
Proof.
  intros H0 H1 H2 H3. pose proof (word_bytes_2 b2 b3 H2 H3) as Hw. unfold fits in *.
  change (word_bytes 4 ?v) with (v mod 256 :: v / 256 mod 256 :: word_bytes 2 (v / 256 / 256)).
  assert (E : (b0 + 256 * (b1 + 256 * (b2 + 256 * b3))) / 256 = b1 + 256 * (b2 + 256 * b3))
    by (Z.to_euclidean_division_equations; lia).
  assert (E' : (b1 + 256 * (b2 + 256 * b3)) / 256 = b2 + 256 * b3) by (Z.to_euclidean_division_equations; lia).
  rewrite E, E', Hw. f_equal; [|f_equal]; Z.to_euclidean_division_equations; lia.
Qed.

Lemma ready_put r v c : ready c → ready (put_reg r v c).
Proof. done. Qed.
Lemma ready_select v c : ready c → ready (select v c).
Proof. done. Qed.
#[export] Hint Resolve ready_put ready_select : infos.

Section driver.
Context {M : Type} {base : Z} `{AtaChannel M base} (c : ATAController) (ch : Z) (Hw : wired c ch base).
Implicit Types m : M.

Lemma port_low r : 0 ≤ r < 8 → reg_port (channels c ch) r = Some (base + r) ∧ u16 (base + r) = base + r.
Proof using Hw.
  intros Hr. destruct Hw as [Hb Hrg _ _]. unfold reg_port. rewrite Hb. split.
  - destruct (Z.ltb_spec r 0x08); [f_equal; lia|lia].
  - apply wrap_small. unfold fits. lia.
Qed.

Lemma control_view v m : Z.testbit (u8 v) 2 = false → view (ata_write_plain c ch ATA_REG_CONTROL v m) = view m.
Proof using Hw.
  intros Hv. unfold ata_write_plain, reg_port. cbn. apply out_outside; [|done].
  replace (cr_ctrl (channels c ch) + ATA_REG_CONTROL - 10) with (cr_ctrl (channels c ch) + 2) by (unfold ATA_REG_CONTROL; lia).
  apply Hw.
Qed.

Lemma status_read m : ata_read c ch ATA_REG_STATUS m = port_inb (base + 7) m.
Proof using Hw.
  unfold ata_read, ATA_REG_STATUS. destruct (port_low 7) as [-> E]; [lia|].
  cbn. unfold __inb. rewrite E. by destruct (port_inb _ m).
Qed.

Lemma write_low r v m :
  2 ≤ r ≤ 5 → ready (view m) → view (ata_write c ch r v m) = put_reg r (u8 v) (view m).
Proof using Hw.
  intros Hr Hm. unfold ata_write, ata_write_plain.
  assert (high_order r = false) as -> by (unfold high_order; apply andb_false_iff; left; rewrite Z.gtb_ltb, Z.ltb_ge; lia).
  destruct (port_low r) as [-> E]; [lia|]. unfold __outb. rewrite E. by apply out_reg.
Qed.

Lemma write_high r v m :
  8 ≤ r ≤ 11 → ready (view m) → view (ata_write c ch r v m) = put_reg (r - 6) (u8 v) (view m).
Proof using Hw.
  intros Hr Hm. unfold ata_write. assert (high_order r = true) as ->.
  { unfold high_order. apply andb_true_iff. rewrite Z.gtb_lt, Z.ltb_lt. lia. }
  destruct Hw as [Hb Hrg Hc Hn]. rewrite Hn. rewrite control_view by done.
  assert (E : ata_write_plain c ch r v = port_outb (base + (r - 6)) (u8 v)).
  { unfold ata_write_plain, reg_port. rewrite Hb.
    rewrite (proj2 (Z.ltb_ge _ _)), (proj2 (Z.ltb_lt _ _)) by lia. unfold __outb.
    replace (base + r - 6) with (base + (r - 6)) by lia. rewrite (wrap_small 16); [done|unfold fits; lia]. }
  rewrite E. rewrite out_reg by (try lia; rewrite control_view by done; done). by rewrite control_view.
Qed.

Lemma write_select v m : ready (view m) → view (ata_write c ch ATA_REG_HDDEVSEL v m) = select (u8 v) (view m).
Proof using Hw.
  intros Hm. unfold ata_write, ata_write_plain, ATA_REG_HDDEVSEL. destruct (port_low 6) as [-> E]; [lia|].
  cbn. unfold __outb. rewrite E. by apply out_select.
Qed.

Lemma write_command v m dk :
  v = ATA_CMD_IDENTIFY ∨ v = ATA_CMD_WRITE_PIO_EXT ∨ v = ATA_CMD_READ_PIO_EXT →
  ready (view m) → selected (view m) = Some dk →
  ∃ n, (n ≤ patience)%nat ∧ view (ata_write c ch ATA_REG_COMMAND v m) = with_busy n (command v dk (view m)).
Proof using Hw.
  intros Hv Hm Hd. unfold ata_write, ata_write_plain, ATA_REG_COMMAND. destruct (port_low 7) as [-> E]; [lia|].
  cbn. unfold __outb. rewrite E.
  replace (u8 v) with v by (destruct Hv as [->|[->| ->]]; done). by apply out_command.
Qed.

Lemma write_command_absent v m :
  ready (view m) → selected (view m) = None → view (ata_write c ch ATA_REG_COMMAND v m) = view m.
Proof using Hw.
  intros Hm Hd. unfold ata_write, ata_write_plain, ATA_REG_COMMAND. destruct (port_low 7) as [-> E]; [lia|].
  cbn. unfold __outb. rewrite E. by apply out_command_absent.
Qed.

Lemma wait_busy_spec fuel m :
  (ch_busy (view m) < fuel)%nat → ∃ m', wait_busy fuel c ch m = Ok m' ∧ view m' = with_busy 0 (view m).
Proof using Hw.
  revert m. induction fuel as [|fuel IH]; intros m Hf; [lia|]. cbn [wait_busy]. rewrite status_read.
  destruct (port_inb (base + 7) m) as [v m'] eqn:E. pose proof (in_status _ _ _ E) as Hs.
  destruct (ch_busy (view m)) as [|k] eqn:Eb.
  - destruct Hs as [[Hv _] Hm]. rewrite Hv. cbn. exists m'. split; [done|]. rewrite Hm.
    destruct (view m); cbn in *; by subst.
  - destruct Hs as [Hv (k' & Hk & Hm)]. apply Z.eqb_neq in Hv. rewrite Hv.
    destruct (IH m') as (m'' & -> & Hm''); [rewrite Hm; cbn; lia|]. exists m''. split; [done|]. by rewrite Hm'', Hm.
Qed.

(** [ata_poll] ends and tells from the phase whether a block can be read. *)
Lemma poll_spec fuel m dk :
  (ch_busy (view m) < fuel)%nat → selected (view m) = Some dk →
  ∃ e m', ata_poll fuel c ch true m = Ok (e, m') ∧ view m' = with_busy 0 (view m) ∧
    e = match ch_phase (view m) with Failed => 2 | Idle => 3 | _ => 0 end.
Proof using Hw.
  intros Hf Hd. unfold ata_poll. destruct (delay_view 400 m) as (n & Hn & Hm).
  destruct (wait_busy_spec fuel (port_delay 400 m)) as (m1 & -> & Hm1); [rewrite Hm; cbn; lia|].
  rewrite bind_Ok, status_read. destruct (port_inb (base + 7) m1) as [v m2] eqn:E.
  pose proof (in_status _ _ _ E) as Hs. rewrite Hm1 in Hs. cbn [with_busy ch_busy] in Hs.
  destruct Hs as [[_ Hst] Hm2]. unfold selected in *. rewrite Hm in *. cbn in Hst. rewrite Hd in Hst.
  destruct Hst as (Hdf & Herr & Hdrq & _). eexists _, m2. split; [done|]. split; [by rewrite Hm2|].
  unfold settled in *. cbn in Herr, Hdrq. rewrite Hdf. cbn.
  destruct (Z.eqb_spec (Z.land v ATA_SR_ERR) 0) as [He|He], (Z.eqb_spec (Z.land v ATA_SR_DRQ) 0) as [Hq|Hq];
    destruct (ch_phase (view m)); cbn; try done; exfalso; naive_solver.
Qed.

(** A block is read to its end. *)
Lemma insw_spec k bs rest m :
  length bs = (2 * S k)%nat → Forall (fits 8) bs → ch_busy (view m) = O → ch_phase (view m) = DataIn bs rest →
  ∃ m' n, __insw base (S k) m = (bs, m') ∧ (n ≤ patience)%nat ∧
    view m' = with_busy n (with_phase (next_block rest) (view m)).
Proof using Hw.
  assert (Hb : u16 base = base) by (apply wrap_small; unfold fits; destruct Hw; lia).
  revert bs m. induction k as [|k IH]; intros bs m Hlen Hbs Hz Hp.
  all: destruct bs as [|b0 [|b1 bs]]; try (cbn in Hlen; lia).
  all: apply Forall_cons in Hbs as [Hf0 [Hf1 Hbs]%Forall_cons].
  all: destruct (in_word m b0 b1 bs rest Hz Hp) as (m1 & n & Hin & Hn & Hm1).
  all: rewrite (eq_refl : __insw base (S _) m = let '(v, m) := port_inw (u16 base) m in
                 let '(bs, m) := __insw base _ m in (word_bytes 2 v ++ bs, m)), Hb, Hin, word_bytes_2 by done.
  - destruct bs; [|cbn in Hlen; lia]. rewrite decide_True in Hm1 by done. by exists m1, n.
  - rewrite decide_False in Hm1 by (intros ->; cbn in Hlen; lia).
    destruct (IH bs m1) as (m2 & n2 & -> & Hn2 & Hm2);
      [cbn in Hlen; lia|done|by rewrite Hm1|by rewrite Hm1|]. exists m2, n2. by rewrite Hm2, Hm1.
Qed.

Lemma insl_spec k bs rest m :
  length bs = (4 * S k)%nat → Forall (fits 8) bs → ch_busy (view m) = O → ch_phase (view m) = DataIn bs rest →
  ∃ m' n, __insl base (S k) m = (bs, m') ∧ (n ≤ patience)%nat ∧
    view m' = with_busy n (with_phase (next_block rest) (view m)).
Proof using Hw.
  assert (Hb : u16 base = base) by (apply wrap_small; unfold fits; destruct Hw; lia).
  revert bs m. induction k as [|k IH]; intros bs m Hlen Hbs Hz Hp.
  all: destruct bs as [|b0 [|b1 [|b2 [|b3 bs]]]]; try (cbn in Hlen; lia).
  all: apply Forall_cons in Hbs as [Hf0 [Hf1 [Hf2 [Hf3 Hbs]%Forall_cons]%Forall_cons]%Forall_cons].
  all: destruct (in_long m b0 b1 b2 b3 bs rest Hz Hp) as (m1 & n & Hin & Hn & Hm1).
  all: rewrite (eq_refl : __insl base (S _) m = let '(v, m) := port_inl (u16 base) m in
                 let '(bs, m) := __insl base _ m in (word_bytes 4 v ++ bs, m)), Hb, Hin, word_bytes_4 by done.
  - destruct bs; [|cbn in Hlen; lia]. rewrite decide_True in Hm1 by done. by exists m1, n.
  - rewrite decide_False in Hm1 by (intros ->; cbn in Hlen; lia).
    destruct (IH bs m1) as (m2 & n2 & -> & Hn2 & Hm2);
      [cbn in Hlen; lia|done|by rewrite Hm1|by rewrite Hm1|]. exists m2, n2. by rewrite Hm2, Hm1.
Qed.

(** The identification of a disk is read to its end. *)
Lemma read_identity bs m :
  block_ok bs → ch_busy (view m) = O → ch_phase (view m) = DataIn bs [] →
  ∃ m' n, ata_read_buffer c ch ATA_REG_DATA (128 * 4) m = (bs, m') ∧ (n ≤ patience)%nat ∧
    view m' = with_busy n (with_phase Idle (view m)).
Proof using Hw.
  intros [Hlen Hbs] Hz Hp. destruct (insl_spec 127 bs [] m Hlen Hbs Hz Hp) as (m' & n & Hi & Hn & Hm).
  exists m', n. split; [|done]. unfold ata_read_buffer, ATA_REG_DATA. destruct (port_low 0) as [-> _]; [lia|].
  rewrite Z.add_0_r. change (Z.to_nat (Z.shiftr (128 * 4) 2)) with 128%nat. change (high_order 0) with false. cbv iota. by rewrite Hi.
Qed.
End driver.

(** The number of blocks a command asks for. *)
Definition asked (n : Z) : Z := if u8 n =? 0 then 65536 else u8 n.

(** Taking [n] blocks of those that are offered, and what follows. *)
Fixpoint pull (n : nat) (l : list (option (list Z))) : bool * list Z :=
  match n, l with
  | O, _ => (true, [])
  | S n', Some bs :: l' => let '(ok, rest) := pull n' l' in (ok, bs ++ rest)
  | S _, _ => (false, [])
  end.
Fixpoint after (n : nat) (l : list (option (list Z))) : phase :=
  match n, l with S n', Some _ :: l' => after n' l' | _, _ => next_block l end.

Lemma pull_all l : pull (length l) l = read_result l.
Proof. induction l as [|[bs|] l IH]; cbn; [done| |done]. by rewrite IH. Qed.

Lemma after_all l : after (length l) l = Idle ∨ after (length l) l = Failed.
Proof. induction l as [|[bs|] l IH]; cbn; auto. Qed.

Lemma pull_short n l : (length l < n)%nat → (pull n l).1 = false.
Proof.
  revert n. induction l as [|[bs|] l IH]; intros [|n] Hn; cbn in *; try done; try lia.
  specialize (IH n ltac:(lia)). by destruct (pull n l).
Qed.

Lemma land_ff x : Z.land x 0xff = x mod 256.
Proof. by apply (Z.land_ones x 8). Qed.

(** An address is put together from its six bytes. *)
Lemma lba_digits lba :
  0 ≤ lba < 2 ^ 48 →
  Z.shiftr lba 0 mod 256 + 2 ^ 8 * (Z.shiftr lba 8 mod 256) + 2 ^ 16 * (Z.shiftr lba 16 mod 256) +
  2 ^ 24 * (Z.shiftr lba 24 mod 256) + 2 ^ 32 * (Z.shiftr lba 32 mod 256) + 2 ^ 40 * (Z.shiftr lba 40 mod 256) = lba.
Proof.
  intros Hlba. rewrite !Z.shiftr_div_pow2 by lia.
  change (2 ^ 16) with (256 * 256). change (2 ^ 24) with (256 * 256 * 256). change (2 ^ 32) with (256 * 256 * 256 * 256).
  change (2 ^ 40) with (256 * 256 * 256 * 256 * 256). change (2 ^ 8) with 256. change (2 ^ 0) with 1.
  rewrite Z.div_1_r. rewrite <- !Z.div_div by lia. Z.to_euclidean_division_equations. lia.
Qed.

(** One register write of [set_task_file]: the view of the machine before it is
    replaced by the view after it. *)
Ltac task_step :=
  match goal with
  | Hw : wired ?c ?ch _, V : view ?m = _, R : ready (view ?m) |- context [ata_write ?c ?ch ?r ?v ?m] =>
      let V' := fresh "V" in let R' := fresh "R" in let m' := fresh "m" in
      assert (V' : view (ata_write c ch r v m) = put_reg (if r <? 8 then r else r - 6) (u8 v) (view m))
        by (first [apply (write_low c ch Hw) | apply (write_high c ch Hw)]; [done|exact R]);
      assert (R' : ready (view (ata_write c ch r v m))) by (rewrite V'; exact R);
      rewrite V in V'; revert V' R'; generalize (ata_write c ch r v m) as m'; clear V R; intros m' V' R'
  end.

(** The sectors of a disk have the right size. *)
Definition disk_ok (dk : disk) : Prop := ∀ i bs, d_sector dk i = Some bs → block_ok bs.

Lemma sectors_ok dk lba n : disk_ok dk → blocks_ok (sectors dk lba n).
Proof. intros Hok bs. unfold sectors. intros (i & Hi & _)%list_elem_of_fmap. by eapply Hok. Qed.

Lemma sectors_length dk lba n : length (sectors dk lba n) = n.
Proof. unfold sectors. by rewrite length_map, length_seq. Qed.

Lemma sectors_pull dk lba n :
  pull n (sectors dk lba n) = read_result (sectors dk lba n) ∧
  (after n (sectors dk lba n) = Idle ∨ after n (sectors dk lba n) = Failed).
Proof.
  pose proof (pull_all (sectors dk lba n)) as Hp. pose proof (after_all (sectors dk lba n)) as Ha.
  rewrite sectors_length in Hp, Ha. done.
Qed.

Lemma asked_small n : 0 < n < 256 → asked n = n.
Proof. intros Hn. unfold asked. rewrite wrap_small by (unfold fits; lia). rewrite (proj2 (Z.eqb_neq _ _)); lia. Qed.

Section transfers.
Context {M : Type} {base : Z} `{AtaChannel M base} (c : ATAController) (d : ATADevice).
Context (Hw : wired c (_channel d) base) (Hdrv : _drive d = 0 ∨ _drive d = 1).
Implicit Types m : M.

Lemma read_loop_spec fuel n l m dk :
  blocks_ok l → selected (view m) = Some dk → ch_phase (view m) = next_block l →
  (ch_busy (view m) < fuel)%nat → (patience < fuel)%nat →
  ∃ m' k, read_loop fuel c d n m = Ok (pull n l, m') ∧ (k < fuel)%nat ∧
    view m' = with_busy k (with_phase (after n l) (view m)).
Proof using Hw.
  revert l m. induction n as [|n IH]; intros l m Hl Hd Hp Hb Hf; cbn [read_loop pull after].
  { exists m, (ch_busy (view m)). split_and!; [done..|]. rewrite <- Hp. by destruct (view m). }
  destruct (poll_spec c (_channel d) Hw fuel m dk Hb Hd) as (e & m1 & -> & Hm1 & ->). rewrite bind_Ok. cbn beta iota.
  rewrite Hp. destruct l as [|[bs|] l]; cbn [next_block after].
  1,3: exists m1, O; split_and!; [done|lia|]; rewrite Hm1; unfold with_busy, with_phase; cbn; by rewrite Hp.
  destruct (Hl bs (list_elem_of_here _ _)) as [Hlen Hbs]. rewrite (wired_base _ _ _ Hw). cbn [negb Z.eqb].
  destruct (insw_spec c (_channel d) Hw 255 bs l m1) as (m2 & k2 & -> & Hk2 & Hm2);
    [done..|by rewrite Hm1|by rewrite Hm1|].
  destruct (IH l m2) as (m3 & k3 & -> & Hk3 & Hm3); [|by rewrite Hm2, Hm1|by rewrite Hm2|rewrite Hm2; cbn; lia|done|].
  { intros x Hx. apply Hl. by right. }
  rewrite bind_Ok. destruct (pull n l) as [ok rest]. exists m3, k3. split_and!; [done|done|]. by rewrite Hm3, Hm2, Hm1.
Qed.

(** The task file holds the address and the low byte of the number of blocks. *)
Lemma task_file_spec lba n m :
  ready (view m) → 0 ≤ lba < 2 ^ 48 → let t := view (set_task_file c d lba n m) in
  ready t ∧ ch_disk t = ch_disk (view m) ∧ ch_sel t = (_drive d =? 1) ∧ ch_lba t = lba ∧ ch_count t = asked n.
Proof using Hw Hdrv.
  intros Hm Hlba. cbv zeta. unfold set_task_file. cbv zeta.
  assert (V : view (ata_write c (_channel d) ATA_REG_HDDEVSEL (Z.lor 0xE0 (Z.shiftl (_drive d) 4)) m) =
              select (u8 (Z.lor 0xE0 (Z.shiftl (_drive d) 4))) (view m)) by by apply write_select.
  assert (R : ready (view (ata_write c (_channel d) ATA_REG_HDDEVSEL (Z.lor 0xE0 (Z.shiftl (_drive d) 4)) m)))
    by by rewrite V.
  generalize dependent (ata_write c (_channel d) ATA_REG_HDDEVSEL (Z.lor 0xE0 (Z.shiftl (_drive d) 4)) m).
  intros m0 V R. do 8 task_step. split_and!; [done|by rewrite V|rewrite V; cbn..].
  - by destruct Hdrv as [-> | ->].
  - unfold ch_lba. cbn. rewrite !land_ff, !(wrap_small 8) by (apply (wrap_fits 8); lia). by apply lba_digits.
  - unfold ch_count, asked. cbn. change (u8 0) with 0. by rewrite Z.mul_0_r, Z.add_0_r.
Qed.

(** The disk of the device is there, the channel waits for a command, and the
    fuel covers how long it can be busy. *)
Definition at_rest (fuel : nat) (dk : disk) m : Prop :=
  settled (view m) ∧ ch_disk (view m) (_drive d =? 1) = Some dk ∧
  (ch_busy (view m) < fuel)%nat ∧ (patience < fuel)%nat.

(** Up to the command. *)
Lemma transfer_command fuel dk cmd lba n m :
  at_rest fuel dk m → 0 ≤ lba < 2 ^ 48 → cmd = ATA_CMD_WRITE_PIO_EXT ∨ cmd = ATA_CMD_READ_PIO_EXT →
  ∃ m0 m1 k, wait_busy fuel c (_channel d) m = Ok m0 ∧
    m1 = ata_write c (_channel d) ATA_REG_COMMAND cmd (set_task_file c d lba n m0) ∧ (k ≤ patience)%nat ∧
    ch_busy (view m1) = k ∧ ch_disk (view m1) = ch_disk (view m) ∧ selected (view m1) = Some dk ∧
    ch_phase (view m1) = if cmd =? ATA_CMD_WRITE_PIO_EXT then DataOut
                         else next_block (sectors dk lba (Z.to_nat (asked n))).
Proof using Hw Hdrv.
  intros (Hs & Hd & Hb & Hf) Hlba Hcmd.
  destruct (wait_busy_spec c (_channel d) Hw fuel m Hb) as (m0 & Hw0 & Hm0).
  assert (Hr0 : ready (view m0)) by (rewrite Hm0; done).
  destruct (task_file_spec lba n m0 Hr0 Hlba) as (Hr & Hdisk & Hsel & Hl & Hn).
  remember (set_task_file c d lba n m0) as t eqn:Et.
  assert (Hst : selected (view t) = Some dk) by (unfold selected; by rewrite Hdisk, Hsel, Hm0).
  destruct (write_command c (_channel d) Hw cmd t dk) as (k & Hk & Hv); [tauto|done..|].
  exists m0, (ata_write c (_channel d) ATA_REG_COMMAND cmd t), k. rewrite <- Et. split_and!; [done..|by rewrite Hv| | |].
  - rewrite Hv. cbn. by rewrite Hdisk, Hm0.
  - by rewrite Hv.
  - rewrite Hv. cbn. rewrite Hl, Hn. by destruct Hcmd as [-> | ->].
Qed.

(** Any number of blocks: those that the disk offers are read, as far as they
    can be. *)
Lemma transfer_read fuel dk lba n m :
  at_rest fuel dk m → disk_ok dk → 0 ≤ lba < 2 ^ 48 →
  ∃ m', transfer fuel c d false lba n m = Ok (pull (Z.to_nat n) (sectors dk lba (Z.to_nat (asked n))), m') ∧
    ch_disk (view m') = ch_disk (view m) ∧ (ch_busy (view m') < fuel)%nat ∧
    ch_phase (view m') = after (Z.to_nat n) (sectors dk lba (Z.to_nat (asked n))).
Proof using Hw Hdrv.
  intros Hat Hok Hlba. unfold transfer.
  destruct (transfer_command fuel dk ATA_CMD_READ_PIO_EXT lba n m Hat Hlba (or_intror eq_refl))
    as (m0 & m1 & k & -> & Hm1 & Hk & Hb & Hd & Hsel & Hp).
  rewrite bind_Ok. cbn beta iota zeta. rewrite <- Hm1. destruct Hat as (_ & _ & _ & Hf).
  destruct (read_loop_spec fuel (Z.to_nat n) (sectors dk lba (Z.to_nat (asked n))) m1 dk) as (m2 & k2 & Hrun & Hk2 & Hv);
    [by apply sectors_ok|done|done|lia|done|].
  exists m2. split_and!; [done|by rewrite Hv|by rewrite Hv|by rewrite Hv].
Qed.

(** Up to 255 blocks with 48-bit addresses are read in one
    transfer: the buffer gets the sectors in order, up to the first that cannot
    be read, in which case the result is false; the loops end, no sector changes,
    and the channel is ready for the next command. *)
Lemma ata_read_spec fuel dk lba n m :
  at_rest fuel dk m → disk_ok dk → 0 ≤ lba → 0 < n < 256 → lba + n ≤ 2 ^ 48 →
  ∃ m', transfer fuel c d false lba n m = Ok (read_result (sectors dk lba (Z.to_nat n)), m') ∧
    at_rest fuel dk m' ∧ ch_disk (view m') = ch_disk (view m).
Proof using Hw Hdrv.
  intros Hat Hok Hlba Hn Hend. destruct (transfer_read fuel dk lba n m Hat Hok) as (m' & -> & Hd & Hb & Hp); [lia|].
  rewrite (asked_small n) in * by done.
  destruct (sectors_pull dk lba (Z.to_nat n)) as [-> Ha]. exists m'. split_and!; [done| |done].
  destruct Hat as (_ & ? & _ & ?). unfold at_rest, settled. rewrite Hp, Hd. by split_and!.
Qed.

(** More than 256 blocks at once cannot be read: the driver hands over the low
    byte of the number only, and the transfer fails after that many blocks
    although every sector is good. *)
Theorem ata_long_read_fails fuel dk lba n m :
  at_rest fuel dk m → disk_ok dk → 0 ≤ lba < 2 ^ 48 → 256 < n → u8 n ≠ 0 →
  ∃ bs m', transfer fuel c d false lba n m = Ok (false, bs, m').
Proof using Hw Hdrv.
  intros Hat Hok Hlba Hn Hu. destruct (transfer_read fuel dk lba n m Hat Hok Hlba) as (m' & -> & _).
  pose proof (wrap_fits 8 n ltac:(lia)) as Hfit. unfold fits in Hfit. change (2 ^ 8) with 256 in Hfit.
  pose proof (pull_short (Z.to_nat n) (sectors dk lba (Z.to_nat (asked n)))) as Hshort.
  rewrite sectors_length in Hshort. destruct (pull _ _) as [ok bs]. cbn in Hshort. exists bs, m'. rewrite Hshort; [done|].
  unfold asked. rewrite (proj2 (Z.eqb_neq _ _)) by done. lia.
Qed.

(** Writing to a disk reports success and hands over no data: no sector of a disk
    changes, and the disk is left waiting for the data of the command. *)
Theorem ata_write_stores_nothing fuel dk lba n m :
  at_rest fuel dk m → 0 ≤ lba < 2 ^ 48 →
  ∃ m', transfer fuel c d true lba n m = Ok (true, [], m') ∧
    ch_disk (view m') = ch_disk (view m) ∧ ch_phase (view m') = DataOut.
Proof using Hw Hdrv.
  intros Hat Hlba. unfold transfer.
  destruct (transfer_command fuel dk ATA_CMD_WRITE_PIO_EXT lba n m Hat Hlba (or_introl eq_refl))
    as (m0 & m1 & k & -> & Hm1 & _ & _ & Hd & _ & Hp).
  rewrite bind_Ok. cbn beta iota zeta. rewrite <- Hm1. by exists m1.
Qed.
End transfers.

(** ** Disks and partitions as block devices *)

Section block_instances.
Context {M : Type} {base : Z} `{AtaChannel M base}.

(** A disk on a channel keeps the promise of a block device. *)
#[export] Instance ata_laws (b : AtaDisk) (dk : disk) :
  wired (ad_ctrl b) (_channel (ad_dev b)) base → _drive (ad_dev b) = 0 ∨ _drive (ad_dev b) = 1 → disk_ok dk →
  BlockLaws M AtaDisk b (at_rest (ad_dev b) (ad_fuel b) dk) (d_sector dk) (2 ^ 48).
Proof.
  intros Hw Hdrv Hok. constructor. intros off n m Hinv Hoff Hn Hend.
  destruct (ata_read_spec (ad_ctrl b) (ad_dev b) Hw Hdrv (ad_fuel b) dk off n m) as (m' & Hrun & Hat & _); [done..|].
  exists m'. unfold sectors in Hrun. destruct (read_result _) as [ok bs]. by split.
Qed.

(** So does a partition of a block device, for the blocks from its offset on:
    the number of its own blocks plays no part. *)
#[export] Instance partition_laws `{BlockLaws M B b inv sector extent} (off cnt : Z) :
  0 ≤ off → extent ≤ 2 ^ 64 →
  BlockLaws M (BlockDevicePartition B) (MkPart b off cnt) inv (λ i, sector (off + i)) (extent - off).
Proof.
  intros Hoff Hext. constructor. intros o n m Hinv Ho Hn Hend.
  destruct (read_spec (sector := sector) (extent := extent) (off + o) n m Hinv) as (m' & Hr); [lia..|]. exists m'.
  cbn [read_blocks partition_block _underlying_block_device _block_offset].
  rewrite (wrap_small 64) by (unfold fits; lia).
  rewrite (map_ext (λ i, sector (off + (o + Z.of_nat i))) (λ i, sector (off + o + Z.of_nat i))); [done|].
  intros i. f_equal. lia.
Qed.
End block_instances.

(** C29. Reading from a partition of a disk.  Up to 255 blocks are read in one transfer
    from the sectors that follow the start of the partition, in order, up to the
    first one that cannot be read, in which case the result is false; the loops
    end and the channel is ready for the next command.  How many blocks the
    partition has does not matter: a read beyond its end returns what the disk has
    there. *)
Theorem partition_read_correct {M : Type} {base : Z} `{AtaChannel M base} c d fuel dk off cnt o n (m : M) :
  wired c (_channel d) base → _drive d = 0 ∨ _drive d = 1 → disk_ok dk → at_rest d fuel dk m →
  0 ≤ off → 0 ≤ o → 0 < n < 256 → off + o + n ≤ 2 ^ 48 →
  ∃ m', let '(ok, bs) := read_result (sectors dk (off + o) (Z.to_nat n)) in
    read_blocks (MkPart (MkDisk c d fuel) off cnt) o n m = Ok (ok, bs, m') ∧ at_rest d fuel dk m'.
Proof.
  intros Hw Hdrv Hdk Hat Hoff Ho Hn Hend.
  pose proof (ata_laws (MkDisk c d fuel) dk Hw Hdrv Hdk) as Hlaws.
  pose proof (partition_laws (b := MkDisk c d fuel) (extent := 2 ^ 48) off cnt Hoff ltac:(lia)) as Hpart.
  destruct (read_spec (BlockLaws := Hpart) o n m Hat Ho Hn) as (m' & Hr); [lia|]. exists m'.
  unfold sectors. rewrite (map_ext (λ i, d_sector dk (off + o + Z.of_nat i)) (λ i, d_sector dk (off + (o + Z.of_nat i))));
    [exact Hr|]. intros i. f_equal. lia.
Qed.

(** A FAT volume is mounted on a block device exactly when its first block can be
    read and ends in the signature; its boot block is that block. *)
Theorem vfat_mount_correct `{Hlaws : BlockLaws M B b inv sector extent} (m : M) :
  inv m → block_size (M := M) b = 512 → 1 ≤ extent → (∀ bs, sector 0 = Some bs → block_ok bs) →
  ∃ m', vfat_mount b m =
      Ok (if sector 0 is Some boot then if le_at 2 510 boot =? 0xaa55 then Some boot else None else None, m') ∧ inv m'.
Proof.
  intros Hm Hsz Hext Hblk. destruct (read_spec (sector := sector) (extent := extent) 0 1 m Hm) as (m' & Hr); [lia..|].
  change (map _ (seq 0 (Z.to_nat 1))) with [sector 0] in Hr. unfold vfat_mount. rewrite Hsz. cbn [negb Z.eqb Pos.eqb].
  destruct (sector 0) as [boot|] eqn:E; cbn [read_result] in Hr; destruct Hr as [Hr Hi]; rewrite Hr, bind_Ok; exists m'.
  - destruct (Hblk boot eq_refl) as [Hlen _]. rewrite app_nil_r. cbn [negb]. rewrite ld_le_spec by (rewrite ?Hlen; lia).
    rewrite bind_Ok. by destruct (le_at 2 510 boot =? 0xaa55).
  - by cbn [negb].
Qed.

(** With the legacy addresses the control register is looked for two ports too
    high, where the serial and the parallel port are. *)
Lemma legacy_control_ports bar4 :
  let c := ATAController_new 0 0 0 0 bar4 in
  reg_port (channels c ATA_PRIMARY) ATA_REG_CONTROL = Some 0x3F8 ∧
  reg_port (channels c ATA_SECONDARY) ATA_REG_CONTROL = Some 0x378.
Proof. done. Qed.

(** ** A channel that keeps the protocol *)

Definition is_settled (p : phase) : bool := match p with Idle | Failed => true | _ => false end.
Definition is_ready (c : channel) : bool := Nat.eqb (ch_busy c) 0 && is_settled (ch_phase c).

Definition sim_status (c : channel) : Z :=
  if selected c then match ch_phase c with Idle => 0x40 | Failed => 0x41 | _ => 0x48 end else 0.

Definition sim_data (n : nat) (c : channel) : Z * channel :=
  match ch_phase c with
  | DataIn bs rest =>
      (le (take n bs), if decide (drop n bs = []) then with_busy 1 (with_phase (next_block rest) c)
                       else with_phase (DataIn (drop n bs) rest) c)
  | _ => (0, c)
  end.

#[export] Instance sim_ports : PortIO channel := {
  port_outb p v c :=
    if negb (is_ready c) then c
    else if (0x1f2 <=? p) && (p <=? 0x1f5) then put_reg (p - 0x1f0) v c
    else if p =? 0x1f6 then select v c
    else if p =? 0x1f7 then if selected c is Some dk then with_busy 2 (command v dk c) else c
    else c;
  port_outl _ _ c := c;
  port_inb p c :=
    if p =? 0x1f7 then match ch_busy c with S n => (0x80, with_busy n c) | O => (sim_status c, c) end else (0, c);
  port_inw p c := if p =? 0x1f0 then sim_data 2 c else (0, c);
  port_inl p c := if p =? 0x1f0 then sim_data 4 c else (0, c);
  port_delay ns c := if ns <? 1000 then c else with_busy 0 c }.

Lemma is_ready_spec c : ready c → is_ready c = true.
Proof. intros [Hz [Hp|Hp]]; unfold is_ready; by rewrite Hz, Hp. Qed.

Lemma sim_status_shows c : status_shows (sim_status c) c.
Proof.
  unfold status_shows, sim_status, settled. destruct (selected c); [|done].
  destruct (ch_phase c); cbn; split_and!; naive_solver.
Qed.

#[export] Instance sim_channel : AtaChannel channel 0x1f0.
Proof.
  refine {| view := id; patience := 2%nat |}; cbn [id].
  - intros p v c Hp _. cbn. destruct (is_ready c); [|done]. cbn.
    destruct (Z.leb_spec 0x1f2 p), (Z.leb_spec p 0x1f5), (Z.eqb_spec p 0x1f6), (Z.eqb_spec p 0x1f7); cbn; try lia; done.
  - intros r v c Hr Hc. cbn. rewrite is_ready_spec by done. cbn.
    rewrite (proj2 (Z.leb_le _ _)), (proj2 (Z.leb_le _ _)) by lia. cbn. f_equal. lia.
  - intros v c Hc. cbn -[Z.leb Z.eqb]. by rewrite is_ready_spec.
  - intros v c dk _ Hc Hd. cbn. rewrite is_ready_spec, Hd by done. by exists 2%nat.
  - intros v c Hc Hd. cbn. by rewrite is_ready_spec, Hd.
  - intros c v c' E. cbn in E. destruct (ch_busy c) as [|n]; injection E as <- <-.
    + split; [apply sim_status_shows|done].
    + split; [done|]. by exists n.
  - intros c b0 b1 bs rest Hz Hp. cbn. unfold sim_data. rewrite Hp. cbn. eexists _, 1%nat. split_and!; [|lia|reflexivity].
    f_equal. unfold le. cbn [foldr]. rewrite take_0. cbn [foldr]. lia.
  - intros c b0 b1 b2 b3 bs rest Hz Hp. cbn. unfold sim_data. rewrite Hp. cbn. eexists _, 1%nat.
    split_and!; [|lia|reflexivity]. f_equal. unfold le. cbn [foldr]. rewrite take_0. cbn [foldr]. lia.
  - intros ns c. cbn. destruct (ns <? 1000); [exists (ch_busy c); by destruct c|by exists O; split; [lia|]].
Defined.

(** ** Witnesses *)

(** A disk whose third sector cannot be read.  The first one is a partition table
    with one entry in use, 100 blocks from sector 1 on; sector [i] is full of
    bytes [i]. *)
Definition sample_table : list Z :=
  replicate 450 0 ++ [6; 0; 0; 0; 1; 0; 0; 0; 100; 0; 0; 0] ++ replicate 48 0 ++ [0x55; 0xaa].
Definition sample_disk : disk := MkMedium (replicate 98 0 ++ [0; 2] ++ replicate 412 0)
  (λ i, if i =? 0 then Some sample_table else if i =? 2 then None else Some (replicate 512 (i mod 256))).
Definition sample_channel : channel :=
  MkChannel (λ b, if b then None else Some sample_disk) true (λ _, 0) (λ _, 0) 0 Idle.
Definition sample_controller : ATAController := ATAController_new 0 0 0 0 0xc000.
Definition sample_ata : ATADevice := ATADevice_new 0 0.

Lemma sample_wired : wired sample_controller (_channel sample_ata) 0x1f0.
Proof. split; [done|lia|vm_compute; intuition congruence|done]. Qed.

Lemma sample_disk_ok : disk_ok sample_disk.
Proof.
  intros i bs. cbn [sample_disk d_sector]. destruct (i =? 0).
  { intros [= <-]. split; [done|]. by apply (bool_decide_unpack _). }
  destruct (i =? 2); [done|]. intros E. assert (bs = replicate 512 (i mod 256)) as -> by congruence.
  split; [apply length_replicate|]. apply Forall_replicate, Z.mod_pos_bound. lia.
Qed.

Lemma sample_at_rest : at_rest sample_ata 5 sample_disk sample_channel.
Proof. split; [by left|]. split; [done|]. cbn. lia. Qed.

(** Blocks 2 and 3 of the partition that starts at sector 1. *)
Lemma partition_read_correct_witness :
  ∃ m', read_blocks (MkPart (MkDisk sample_controller sample_ata 5) 1 100) 2 2 sample_channel =
    Ok (true, replicate 512 3 ++ replicate 512 4, m').
Proof.
  destruct (partition_read_correct sample_controller sample_ata 5 sample_disk 1 100 2 2 sample_channel
              sample_wired (or_introl eq_refl) sample_disk_ok sample_at_rest) as (m' & Hr); [lia..|].
  exists m'. exact (proj1 Hr).
Defined.

(** The table of the sample disk ends in the signature. *)
Lemma vfat_mount_correct_witness :
  ∃ m', vfat_mount (MkDisk sample_controller sample_ata 5) sample_channel = Ok (Some sample_table, m').
Proof.
  destruct (vfat_mount_correct (Hlaws := ata_laws (MkDisk sample_controller sample_ata 5) sample_disk
              sample_wired (or_introl eq_refl) sample_disk_ok) sample_channel sample_at_rest eq_refl) as (m' & Hm & _);
    [lia|exact (sample_disk_ok 0)|].
  exists m'. exact Hm.
Defined.

Lemma ata_long_read_fails_witness :
  ∃ bs m', transfer 5 sample_controller sample_ata false 3 257 sample_channel = Ok (false, bs, m').
Proof.
  exact (ata_long_read_fails sample_controller sample_ata sample_wired (or_introl eq_refl) 5 sample_disk 3 257 sample_channel
           sample_at_rest sample_disk_ok ltac:(lia) ltac:(lia) ltac:(done)).
Defined.

Lemma ata_write_stores_nothing_witness :
  ∃ m', transfer 5 sample_controller sample_ata true 3 1 sample_channel = Ok (true, [], m') ∧ ch_phase m' = DataOut.
Proof.
  destruct (ata_write_stores_nothing sample_controller sample_ata sample_wired (or_introl eq_refl) 5 sample_disk 3 1
              sample_channel sample_at_rest ltac:(lia)) as (m' & Hr & _ & Hp).
  exists m'. split; [exact Hr|exact Hp].
Defined.
