(* ===== verification/AtaInit.v ===== *)
(** * Finding disks and partitions

    The probing of the two channels of a controller (drivers/ata/ata-controller.cpp),
    the identification of a disk and the partitions of its first sector
    (drivers/ata/ata-device.cpp), which become devices of the device manager. *)

From S2P Require Import Prelude CppList CppMap CppString Devices Ata.
Local Open Scope Z_scope.

(** ** The model *)

Definition ATA_IDENT_DEVICETYPE : Z := 0.
Definition ATA_IDENT_CAPABILITIES : Z := 98.
Definition ATA_IDENT_MAX_LBA : Z := 120.
Definition ATA_IDENT_COMMANDSETS : Z := 164.
Definition ATA_IDENT_MAX_LBA_EXT : Z := 200.

(** What probing reaches: the hardware, the device manager, the objects of the
    two classes, and the address that the next [new] returns. *)
Record World (M : Type) := MkWorld {
  hw : M; manager : DeviceManager; next_object : Z;
  disks : gmap Z ATADevice; parts : gmap Z (BlockDevicePartition Z) }.
Arguments MkWorld {M} _ _ _ _ _.
Arguments hw {M} _.
Arguments manager {M} _.
Arguments next_object {M} _.
Arguments disks {M} _.
Arguments parts {M} _.

(** [struct partition_table_entry]: the fields that are used. *)
Record partition_table_entry := MkEntry { pte_type : Z; pte_first_lba : Z; pte_nr_sectors : Z }.

Definition mbr_entry (table : list Z) (i : Z) : result partition_table_entry :=
  let p := 0x1be + 16 * i in
  type ← rd table (p + 4);
  first ← ld_le 4 table (p + 8);
  nr ← ld_le 4 table (p + 12);
  Ok (MkEntry type first nr).

Section probing.
Context {M : Type} `{PortIO M}.
(** The bytes of new strings, the fuel of the waiting loops and the device
    classes of disks and partitions. *)
Context (junk : Z) (fuel : nat) (ata_class partition_class : Z).
Implicit Types (w : World M) (c : ATAController).

Definition with_hw (m : M) w : World M := MkWorld m (manager w) (next_object w) (disks w) (parts w).
Definition with_manager (dm : DeviceManager) w : World M := MkWorld (hw w) dm (next_object w) (disks w) (parts w).
Definition with_disks (ds : gmap Z ATADevice) w : World M := MkWorld (hw w) (manager w) (next_object w) ds (parts w).

(** [new] of a device of class [cls]: its address. *)
Definition new_device (cls : Z) w : Z * World M :=
  let dm := manager w in
  (next_object w,
   MkWorld (hw w) (MkDm (devices dm) (<[next_object w := MkDev [] cls None]> (device_objects dm)) (classes dm))
     (next_object w + 1) (disks w) (parts w)).

(** [delete]: the device manager is not told. *)
Definition delete_device (d : Z) w : World M :=
  let dm := manager w in
  MkWorld (hw w) (MkDm (devices dm) (delete d (device_objects dm)) (classes dm)) (next_object w)
    (delete d (disks w)) (parts w).

(** A turn of the loop of [create_partitions] for the disk [d]; partitions do
    not override [init]. *)
Definition create_partition (d : Z) (table : list Z) (i : Z) w : result (World M) :=
  e ← mbr_entry table i;
  if pte_type e =? 0 then Ok w else
  let '(p, w) := new_device partition_class w in
  dev ← get NullDeref (disks w !! d);
  let w := MkWorld (hw w) (manager w) (next_object w)
             (<[d := MkAta (_channel dev) (_drive dev) (_signature dev) (_caps dev) (_cmdsets dev) (_size dev)
                       (_partitions dev ++ [p])]> (disks w))
             (<[p := MkPart d (pte_first_lba e) (pte_nr_sectors e)]> (parts w)) in
  '(_, dm) ← register_device junk (manager w) p true;
  obj ← get NullDeref (device_objects dm !! d);
  digits ← decimal junk i;
  '(_, dm) ← add_device_alias dm (dev_name obj ++ [112] ++ digits) p;
  Ok (with_manager dm w).

Definition create_partitions (d : Z) (table : list Z) w : result (bool * World M) :=
  w ← for_range 0 4 (create_partition d table) w; Ok (true, w).

Definition check_for_partitions c (d : Z) w : result (bool * World M) :=
  dev ← get NullDeref (disks w !! d);
  '(ok, buffer, m) ← transfer fuel c dev false 0 1 (hw w);
  let w := with_hw m w in
  if negb (ok : bool) then Ok (false, w) else
  s0 ← rd buffer 0x1fe; s1 ← rd buffer 0x1ff;
  if (s0 =? 0x55) && (s1 =? 0xaa) then create_partitions d buffer w else Ok (true, w).

(** [ATADevice::init]; the model name is only logged. *)
Definition ata_device_init c (d : Z) w : result (bool * World M) :=
  dev ← get NullDeref (disks w !! d);
  let '(buffer, m) := ata_read_buffer c (_channel dev) ATA_REG_DATA (128 * 4) (hw w) in
  signature ← ld_le 2 buffer ATA_IDENT_DEVICETYPE;
  caps ← ld_le 2 buffer ATA_IDENT_CAPABILITIES;
  cmdsets ← ld_le 4 buffer ATA_IDENT_COMMANDSETS;
  size ← ld_le 4 buffer
           (if negb (Z.land cmdsets (Z.shiftl 1 26) =? 0) then ATA_IDENT_MAX_LBA_EXT else ATA_IDENT_MAX_LBA);
  let dev := MkAta (_channel dev) (_drive dev) signature caps cmdsets size (_partitions dev) in
  let w := with_disks (<[d := dev]> (disks w)) (with_hw m w) in
  if Z.land caps 0x200 =? 0 then Ok (false, w) else check_for_partitions c d w.

(** The loop of [probe_device]: whether the disk has its identification ready. *)
Fixpoint wait_identify (n : nat) c (channel : Z) (m : M) : result (bool * M) :=
  match n with
  | O => Err Hang
  | S n' =>
      let '(status, m) := ata_read c channel ATA_REG_STATUS m in
      if negb (Z.land status ATA_SR_ERR =? 0) then Ok (false, m) else
      if (Z.land status ATA_SR_BSY =? 0) && negb (Z.land status ATA_SR_DRQ =? 0) then Ok (true, m)
      else wait_identify n' c channel m
  end.

Definition probe_device c (channel device : Z) w : result (bool * World M) :=
  let m := ata_write c channel ATA_REG_HDDEVSEL (Z.lor 0xa0 (Z.shiftl device 4)) (hw w) in
  let m := port_delay 1000000 m in
  let m := ata_write c channel ATA_REG_COMMAND ATA_CMD_IDENTIFY m in
  let m := port_delay 1000000 m in
  let '(status, m) := ata_read c channel ATA_REG_STATUS m in
  if status =? 0 then Ok (true, with_hw m w) else
  '(found, m) ← wait_identify fuel c channel m;
  let w := with_hw m w in
  if negb (found : bool) then Ok (false, w) else
  let '(d, w) := new_device ata_class w in
  let w := with_disks (<[d := ATADevice_new channel device]> (disks w)) w in
  '(_, dm) ← register_device junk (manager w) d true;
  '(ok, w) ← ata_device_init c d (with_manager dm w);
  if negb (ok : bool) then Ok (false, delete_device d w) else Ok (true, w).

(** [probe_channel] forgets whether the disks could be used. *)
Definition probe_channel c (channel : Z) w : result (bool * World M) :=
  '(_, w) ← probe_device c channel 0 w;
  '(_, w) ← probe_device c channel 1 w;
  Ok (true, w).

(** [ATAController::init]; the status is read for the log. *)
Definition ata_controller_init c w : result (bool * World M) :=
  let '(_, m) := ata_read c 0 ATA_REG_STATUS (hw w) in
  let m := ata_write c ATA_PRIMARY ATA_REG_CONTROL 2 m in
  let m := ata_write c ATA_SECONDARY ATA_REG_CONTROL 2 m in
  '(s0, w) ← probe_channel c 0 (with_hw m w);
  '(s1, w) ← probe_channel c 1 w;
  Ok (s0 && s1, w).
End probing.

(** ** The partition table *)

(** The entry [i] of a partition table, and the entries in use. *)
Definition entry_at (table : list Z) (i : Z) : partition_table_entry :=
  MkEntry (le_at 1 (0x1be + 16 * i + 4) table) (le_at 4 (0x1be + 16 * i + 8) table) (le_at 4 (0x1be + 16 * i + 12) table).
Definition active (table : list Z) (i : Z) : list partition_table_entry :=
  let e := entry_at table i in if pte_type e =? 0 then [] else [e].

Lemma mbr_entry_spec table i :
  length table = 512%nat → 0 ≤ i < 4 → mbr_entry table i = Ok (entry_at table i).
Proof.
  intros Hlen Hi. unfold mbr_entry, entry_at. rewrite !ld_le_spec by lia.
  pose proof (ld_le_spec 1 (0x1be + 16 * i + 4) table ltac:(lia) ltac:(lia)) as H1. cbn [ld_le] in H1.
  destruct (rd_total table (0x1be + 16 * i + 4)) as (x & Hx & _); [lia|]. rewrite Hx in *. rewrite bind_Ok in *. cbn in H1.
  injection H1 as H1. rewrite !bind_Ok. do 2 f_equal. lia.
Qed.

(** ** Partitions *)

Section partitions.
Context {M : Type} `{PortIO M} (junk : Z) (fuel : nat) (ata_class partition_class : Z).
Implicit Types (w : World M).

(** The device manager is in order, and addresses from [next_object] on are not
    in use. *)
Record world_ok w : Prop := {
  wo_manager : dm_ok (manager w);
  wo_fresh : ∀ a, next_object w ≤ a → device_objects (manager w) !! a = None;
  wo_disks : ∀ d, is_Some (disks w !! d) → is_Some (device_objects (manager w) !! d);
  wo_ata : is_Some (classes (manager w) !! ata_class);
  wo_partition : is_Some (classes (manager w) !! partition_class) }.

(** [extends w w' es]: the partitions [es] of disk [d] are new in [w'], at the
    addresses from [next_object w] on; the rest stays, and a name leads where it
    led before or to a new partition. *)
Record extends (d : Z) w w' (es : list partition_table_entry) : Prop := {
  ex_ok : world_ok w';
  ex_hw : hw w' = hw w;
  ex_next : next_object w' = next_object w + Z.of_nat (length es);
  ex_new : ∀ j e, es !! j = Some e →
    parts w' !! (next_object w + Z.of_nat j) = Some (MkPart d (pte_first_lba e) (pte_nr_sectors e)) ∧
    ∃ obj, device_objects (manager w') !! (next_object w + Z.of_nat j) = Some obj ∧ dev_class obj = partition_class;
  ex_old : ∀ a, a < next_object w →
    parts w' !! a = parts w !! a ∧ device_objects (manager w') !! a = device_objects (manager w) !! a;
  ex_names : ∀ h a, map_of (devices (manager w')) !! h = Some a →
    map_of (devices (manager w)) !! h = Some a ∨ next_object w ≤ a < next_object w';
  ex_disk : ∃ dev dev', disks w !! d = Some dev ∧ disks w' = <[d := dev']> (disks w) ∧
    _channel dev' = _channel dev ∧ _drive dev' = _drive dev ∧ _size dev' = _size dev ∧
    _partitions dev' = _partitions dev ++ seqZ (next_object w) (Z.of_nat (length es)) }.

Lemma extends_refl d w : world_ok w → is_Some (disks w !! d) → extends d w w [].
Proof.
  intros Hw [dev Hd]. split; [done|done|cbn; lia|done|done|by left|].
  exists dev, dev. split_and!; [done|by rewrite insert_id|done..|by rewrite app_nil_r].
Qed.

Lemma extends_trans d w1 w2 w3 es1 es2 :
  extends d w1 w2 es1 → extends d w2 w3 es2 → extends d w1 w3 (es1 ++ es2).
Proof.
  intros [O1 H1 N1 P1 L1 M1 (dev1 & dev2 & D1 & D2 & C1 & R1 & S1 & Q1)].
  intros [O2 H2 N2 P2 L2 M2 (dev2' & dev3 & E1 & E2 & C2 & R2 & S2 & Q2)].
  rewrite D2, lookup_insert_eq in E1. injection E1 as <-.
  split; [done|congruence|rewrite length_app; lia| | | |].
  - intros j e [Hj|[Hge Hj]]%lookup_app_Some.
    + pose proof (lookup_lt_Some _ _ _ Hj). destruct (L2 (next_object w1 + Z.of_nat j)) as [-> ->]; [lia|]. by apply P1.
    + replace (next_object w1 + Z.of_nat j) with (next_object w2 + Z.of_nat (j - length es1)) by lia. by apply P2.
  - intros a Ha. destruct (L2 a) as [-> ->]; [lia|]. by apply L1.
  - intros h a Ha. destruct (M2 h a Ha) as [Hb|Hb]; [destruct (M1 h a Hb); [by left|right; lia]|right; lia].
  - exists dev1, dev3. split_and!; [done|by rewrite E2, D2, insert_insert_eq|congruence..|].
    rewrite Q2, Q1, <- app_assoc, length_app, Nat2Z.inj_add, seqZ_app, N1 by lia. done.
Qed.

(** One entry of the table. *)
Lemma create_partition_spec d table i w :
  length table = 512%nat → 0 ≤ i < 4 → world_ok w → is_Some (disks w !! d) →
  ∃ w', create_partition junk partition_class d table i w = Ok w' ∧ extends d w w' (active table i).
Proof.
  intros Hlen Hi Hw Hd. unfold create_partition. rewrite (mbr_entry_spec table i Hlen Hi), bind_Ok. unfold active.
  destruct (pte_type (entry_at table i) =? 0); [exists w; split; [done|by apply extends_refl]|].
  destruct (wo_disks w Hw d Hd) as [obj Hobj]. destruct Hd as [dev Hdev]. destruct (wo_partition w Hw) as [k Hk].
  destruct Hw as [Hdm Hfresh Hds Hata Hpart]. pose proof (Hfresh (next_object w) ltac:(lia)) as Hp0.
  assert (d ≠ next_object w) as Hne by congruence.
  cbn [new_device]. cbn beta iota zeta. cbn [disks]. rewrite Hdev. ok_step. cbn [manager].
  set (dm1 := MkDm _ (<[next_object w := _]> _) _).
  destruct (register_device_spec junk dm1 (next_object w) (MkDev [] partition_class None) k true)
    as (ds & m1 & -> & _ & Hwm & Hm1); [apply Hdm|cbn; by rewrite lookup_insert_eq|done|].
  rewrite bind_Ok. cbn beta iota zeta. cbn [dev_class dev_file device_objects dm1 devices classes] in *.
  rewrite insert_insert_eq in *. rewrite lookup_insert_ne by done. rewrite Hobj. ok_step.
  destruct (decimal_spec junk i) as (digits & -> & _). rewrite bind_Ok.
  set (pn := MkDev (class_name k ++ _) _ _). set (dm2 := MkDm m1 _ _).
  assert (Hdm2 : dm_ok dm2).
  { eapply dm_ok_add; [exact Hdm|exact Hwm|exact Hm1|rewrite lookup_insert_eq; by eexists|].
    intros b Hb. rewrite lookup_insert_is_Some. destruct (decide (next_object w = b)); auto. }
  destruct (add_device_alias_spec dm2 (dev_name obj ++ [112] ++ map (Z.add 48) digits) (next_object w) Hdm2)
    as (m2 & -> & Hm2 & Hdm3); [cbn; rewrite lookup_insert_eq; by eexists|].
  rewrite bind_Ok. eexists. split; [done|]. cbn [dm2 devices device_objects classes] in *.
  split; cbn [with_manager manager hw next_object parts disks devices device_objects classes length]; [|done|lia| | | |].
  - split; cbn [with_manager manager next_object disks devices device_objects classes]; [done| | | |].
    + intros a Ha. rewrite lookup_insert_ne by lia. apply Hfresh. lia.
    + intros x Hx. rewrite lookup_insert_is_Some. destruct (decide (next_object w = x)); [by left|right]. split; [done|].
      apply Hds. rewrite lookup_insert_is_Some in Hx. destruct Hx as [<-|[_ Hx]]; [by eexists|done].
    + rewrite lookup_insert_is_Some. destruct (decide (partition_class = ata_class)); auto.
    + rewrite lookup_insert_eq. by eexists.
  - intros [|j] e He; [|done]. injection He as <-. cbn [Z.of_nat]. rewrite Z.add_0_r, !lookup_insert_eq. split; [done|].
    by exists pn.
  - intros a Ha. by rewrite !lookup_insert_ne by lia.
  - intros h a. rewrite Hm2, Hm1. rewrite !lookup_insert_Some. intros [[_ <-]|[_ [[_ <-]|[_ Ha]]]]; auto; right; lia.
  - exists dev. eexists. split_and!; [done|reflexivity|done..].
Qed.

(** The registration of a new disk. *)
Lemma register_new cls w dev :
  world_ok w → is_Some (classes (manager w) !! cls) →
  let d := next_object w in
  ∃ dm h, register_device junk (MkDm (devices (manager w)) (<[d := MkDev [] cls None]> (device_objects (manager w)))
                                  (classes (manager w))) d true = Ok (true, dm) ∧
    world_ok (MkWorld (hw w) dm (d + 1) (<[d := dev]> (disks w)) (parts w)) ∧ map_of (devices dm) !! h = Some d.
Proof.
  intros [Hdm Hfresh Hds Hata Hpart] [k Hk]. cbv zeta. set (dm1 := MkDm _ _ _).
  destruct (register_device_spec junk dm1 (next_object w) (MkDev [] cls None) k true)
    as (ds & m1 & -> & _ & Hwm & Hm1); [apply Hdm|cbn; by rewrite lookup_insert_eq|done|].
  cbn [dev_class dev_file device_objects dm1 devices classes] in *. rewrite insert_insert_eq. eexists _, _. split; [done|].
  split; [|cbn [devices]; by rewrite Hm1, lookup_insert_eq].
  split; cbn [manager next_object disks devices device_objects classes].
  - eapply dm_ok_add; [exact Hdm|exact Hwm|exact Hm1|rewrite lookup_insert_eq; by eexists|].
    intros b Hb. rewrite lookup_insert_is_Some. destruct (decide (next_object w = b)); auto.
  - intros a Ha. rewrite lookup_insert_ne by lia. apply Hfresh. lia.
  - intros x. rewrite !lookup_insert_is_Some. intros [Hx|[Hne Hx]]; [by left|right]. split; [done|by apply Hds].
  - rewrite lookup_insert_is_Some. destruct (decide (cls = ata_class)); auto.
  - rewrite lookup_insert_is_Some. destruct (decide (cls = partition_class)); auto.
Qed.

(** The first [n] entries of the table that are in use. *)
Definition entries (table : list Z) (n : Z) : list partition_table_entry := concat (map (active table) (seqZ 0 n)).

Lemma entries_succ table n : 0 ≤ n → entries table (n + 1) = entries table n ++ active table n.
Proof.
  intros Hn. unfold entries. rewrite seqZ_app, map_app, concat_app by lia.
  change (seqZ (0 + n) 1) with [0 + n]. cbn [map concat Z.add]. by rewrite app_nil_r.
Qed.

Lemma extends_disk d w w' es : extends d w w' es → is_Some (disks w' !! d).
Proof. intros [_ _ _ _ _ _ (dev & dev' & _ & -> & _)]. rewrite lookup_insert_eq. by eexists. Qed.

Lemma create_partitions_spec d table w :
  length table = 512%nat → world_ok w → is_Some (disks w !! d) →
  ∃ w', create_partitions junk partition_class d table w = Ok (true, w') ∧ extends d w w' (entries table 4).
Proof.
  intros Hlen Hw Hd. unfold create_partitions.
  destruct (for_range_total (λ n w', extends d w w' (entries table n)) 0 4
              (create_partition junk partition_class d table) w) as (w' & -> & Hw');
    [lia|by apply extends_refl| |by exists w'].
  intros j t Hj Ht. destruct (create_partition_spec d table j t Hlen Hj) as (t' & -> & Ht');
    [by eapply ex_ok|by eapply extends_disk|].
  exists t'. split; [done|]. rewrite entries_succ by lia. by eapply extends_trans.
Qed.
End partitions.

(** ** Disks on a channel *)

Section disks.
Context {M : Type} {base : Z} `{AtaChannel M base} (junk : Z) (fuel : nat) (ata_class partition_class : Z).
Context (c : ATAController) (ch : Z) (Hw : wired c ch base).
Implicit Types (w : World M).

(** The first sector of a disk carries a partition table. *)
Definition has_table (table : list Z) : bool :=
  (le_at 1 0x1fe table =? 0x55) && (le_at 1 0x1ff table =? 0xaa).

(** The partitions of the first sector are found, and nothing is found when
    there is no table or the sector cannot be read. *)
Lemma check_for_partitions_spec d dev dk w :
  _channel dev = ch → _drive dev = 0 ∨ _drive dev = 1 → disks w !! d = Some dev → world_ok ata_class partition_class w →
  at_rest dev fuel dk (hw w) → disk_ok dk →
  ∃ m' w', at_rest dev fuel dk m' ∧ ch_disk (view m') = ch_disk (view (hw w)) ∧
    check_for_partitions junk fuel partition_class c d w = Ok (if d_sector dk 0 then true else false, w') ∧
    extends ata_class partition_class d (with_hw m' w) w'
      (if d_sector dk 0 is Some table then if has_table table then entries table 4 else [] else []).
Proof using Hw.
  intros Hch Hdrv Hd Hok Hat Hdk. unfold check_for_partitions. rewrite Hd. ok_step.
  destruct (ata_read_spec c dev ltac:(by rewrite Hch) Hdrv fuel dk 0 1 (hw w) Hat Hdk) as (m' & -> & Hat' & Hsame); [done..|].
  exists m'. change (sectors dk 0 (Z.to_nat 1)) with [d_sector dk 0].
  assert (Hok' : world_ok ata_class partition_class (with_hw m' w)) by (destruct Hok; by split).
  assert (Hd' : is_Some (disks (with_hw m' w) !! d)) by by eexists.
  destruct (d_sector dk 0) as [table|] eqn:E.
  - cbn. destruct (Hdk 0 table E) as [Hlen _]. rewrite app_nil_r.
    rewrite !rd_byte by lia. rewrite !bind_Ok. fold (has_table table). destruct (has_table table).
    + destruct (create_partitions_spec junk ata_class partition_class d table (with_hw m' w)) as (w' & -> & Hex); [done..|].
      by exists w'.
    + eexists. split_and!; [done..|]. by apply extends_refl.
  - cbn. eexists. split_and!; [done..|]. by apply extends_refl.
Qed.

(** The numbers that [init] takes from the identification. *)
Definition identified (dev : ATADevice) (id : list Z) : ATADevice :=
  let cmdsets := le_at 4 ATA_IDENT_COMMANDSETS id in
  MkAta (_channel dev) (_drive dev) (le_at 2 ATA_IDENT_DEVICETYPE id) (le_at 2 ATA_IDENT_CAPABILITIES id) cmdsets
    (le_at 4 (if negb (Z.land cmdsets (Z.shiftl 1 26) =? 0) then ATA_IDENT_MAX_LBA_EXT else ATA_IDENT_MAX_LBA) id)
    (_partitions dev).

(** The disk can be addressed by block numbers. *)
Definition lba_capable (id : list Z) : bool := negb (Z.land (le_at 2 ATA_IDENT_CAPABILITIES id) 0x200 =? 0).

(** [init] up to the look at the first sector. *)
Lemma device_init_spec d dev dk w :
  _channel dev = ch → disks w !! d = Some dev → ch_disk (view (hw w)) (_drive dev =? 1) = Some dk →
  block_ok (d_identity dk) → (patience < fuel)%nat →
  ch_busy (view (hw w)) = O → ch_phase (view (hw w)) = DataIn (d_identity dk) [] →
  let dev' := identified dev (d_identity dk) in
  ∃ m', at_rest dev' fuel dk m' ∧
    let w' := with_disks (<[d := dev']> (disks w)) (with_hw m' w) in
    ata_device_init junk fuel partition_class c d w =
      if lba_capable (d_identity dk) then check_for_partitions junk fuel partition_class c d w' else Ok (false, w').
Proof using Hw.
  intros Hch Hd Hdisk Hid Hfuel Hz Hp. cbv zeta.
  destruct (read_identity c ch Hw (d_identity dk) (hw w) Hid Hz Hp) as (m' & n & Hr & Hn & Hm). exists m'. split.
  { unfold at_rest. rewrite Hm. cbn. split_and!; [by left|done|lia|done]. }
  unfold ata_device_init. rewrite Hd. ok_step. rewrite Hch, Hr. destruct Hid as [Hlen _].
  unfold ATA_IDENT_DEVICETYPE, ATA_IDENT_CAPABILITIES, ATA_IDENT_COMMANDSETS, ATA_IDENT_MAX_LBA_EXT, ATA_IDENT_MAX_LBA.
  rewrite !ld_le_spec by (try case_match; rewrite ?Hlen; lia). rewrite !bind_Ok.
  rewrite ld_le_spec by (try case_match; rewrite ?Hlen; lia). rewrite !bind_Ok.
  unfold lba_capable, identified. rewrite Hch. by destruct (Z.land _ 0x200 =? 0).
Qed.

(** A wait of a millisecond outlasts the reaction to IDENTIFY. *)
Definition quick : Prop := ∀ m : M, ch_busy (view m) = O ∨ ch_busy (view (port_delay 1000000 m)) = O.

Lemma delay_quick m : quick → view (port_delay 1000000 m) = with_busy 0 (view m).
Proof.
  intros Hq. destruct (delay_view 1000000 m) as (n & Hn & Hv). rewrite Hv. f_equal.
  destruct (Hq m) as [Hz|Hz]; [lia|]. by rewrite Hv in Hz.
Qed.

Lemma status_idle m v m' :
  ch_busy (view m) = O → ata_read c ch ATA_REG_STATUS m = (v, m') → status_shows v (view m) ∧ view m' = view m.
Proof using Hw.
  intros Hz. rewrite (status_read c ch Hw). intros E. pose proof (in_status _ _ _ E) as Hs. by rewrite Hz in Hs.
Qed.

(** The beginning of [probe_device], up to the first look at the status. *)
Lemma probe_start device m :
  quick → device = 0 ∨ device = 1 → ready (view m) →
  let t := port_delay 1000000 (ata_write c ch ATA_REG_HDDEVSEL (Z.lor 0xa0 (Z.shiftl device 4)) m) in
  let v := view (port_delay 1000000 (ata_write c ch ATA_REG_COMMAND ATA_CMD_IDENTIFY t)) in
  ch_busy v = O ∧ ch_disk v = ch_disk (view m) ∧ ch_sel v = (device =? 1) ∧
  (∀ dk, selected v = Some dk → ch_phase v = DataIn (d_identity dk) []) ∧ (selected v = None → settled v).
Proof using Hw.
  intros Hq Hdev Hm. cbv zeta.
  set (t := port_delay 1000000 (ata_write c ch ATA_REG_HDDEVSEL _ m)).
  assert (Ht : view t = with_busy 0 (select (u8 (Z.lor 0xa0 (Z.shiftl device 4))) (view m))).
  { unfold t. rewrite delay_quick by done. by rewrite (write_select c ch Hw). }
  assert (Hr : ready (view t)) by (rewrite Ht; split; [done|apply Hm]).
  assert (Hd : ch_disk (view t) = ch_disk (view m)) by by rewrite Ht.
  assert (Hs : ch_sel (view t) = (device =? 1)) by (rewrite Ht; cbn; by destruct Hdev as [-> | ->]).
  clearbody t. rewrite delay_quick by done. destruct (selected (view t)) as [dk|] eqn:E.
  - destruct (write_command c ch Hw ATA_CMD_IDENTIFY t dk) as (n & _ & ->); [by left|done..|].
    unfold selected in *. cbn. rewrite E. split_and!; [done..|by intros ? [= ->]|done].
  - rewrite (write_command_absent c ch Hw) by done. unfold selected in *. cbn. rewrite E. split_and!; [done..|].
    intros _. apply Hr.
Qed.

(** Where there is no disk, probing succeeds and finds nothing. *)
Lemma probe_absent device w :
  quick → device = 0 ∨ device = 1 → ready (view (hw w)) → ch_disk (view (hw w)) (device =? 1) = None →
  ∃ m', probe_device junk fuel ata_class partition_class c ch device w = Ok (true, with_hw m' w) ∧
    ready (view m') ∧ ch_disk (view m') = ch_disk (view (hw w)).
Proof using Hw.
  intros Hq Hdev Hm Hd. unfold probe_device. cbv zeta.
  destruct (probe_start device (hw w) Hq Hdev Hm) as (Hz & Hdisk & Hsel & _ & Habs). cbv zeta in *.
  set (t := port_delay _ (ata_write c ch ATA_REG_COMMAND _ _)) in *.
  assert (Hnone : selected (view t) = None) by (unfold selected; by rewrite Hdisk, Hsel).
  destruct (ata_read c ch ATA_REG_STATUS t) as [v m'] eqn:E. destruct (status_idle t v m' Hz E) as [[_ Hv] Hm'].
  rewrite Hnone in Hv. subst v. exists m'. rewrite Hm'. split_and!; [done| |done]. split; [done|by apply Habs].
Qed.

(** A disk that is there has its identification ready when [init] runs. *)
Lemma probe_present device dk w :
  quick → device = 0 ∨ device = 1 → ready (view (hw w)) → ch_disk (view (hw w)) (device =? 1) = Some dk →
  (0 < fuel)%nat → world_ok ata_class partition_class w →
  ∃ m' dm h, ch_busy (view m') = O ∧ ch_phase (view m') = DataIn (d_identity dk) [] ∧
    ch_disk (view m') = ch_disk (view (hw w)) ∧
    let d := next_object w in
    let w1 := MkWorld m' dm (d + 1) (<[d := ATADevice_new ch device]> (disks w)) (parts w) in
    world_ok ata_class partition_class w1 ∧ map_of (devices dm) !! h = Some d ∧
    probe_device junk fuel ata_class partition_class c ch device w =
      ('(ok, w) ← ata_device_init junk fuel partition_class c d w1;
       if negb (ok : bool) then Ok (false, delete_device d w) else Ok (true, w)).
Proof using Hw.
  intros Hq Hdev Hm Hd Hf Hok. unfold probe_device. cbv zeta.
  destruct (probe_start device (hw w) Hq Hdev Hm) as (Hz & Hdisk & Hsel & Hpres & _). cbv zeta in *.
  set (t := port_delay _ (ata_write c ch ATA_REG_COMMAND _ _)) in *.
  assert (Hsome : selected (view t) = Some dk) by (unfold selected; by rewrite Hdisk, Hsel).
  pose proof (Hpres dk Hsome) as Hph. clearbody t.
  destruct (ata_read c ch ATA_REG_STATUS t) as [v m1] eqn:E. destruct (status_idle t v m1 Hz E) as [[_ Hv] Hm1].
  rewrite Hsome in Hv. destruct Hv as (_ & _ & _ & Hv). rewrite (proj2 (Z.eqb_neq _ _) Hv).
  destruct fuel as [|f] eqn:Ef; [lia|]. cbn [wait_identify].
  destruct (ata_read c ch ATA_REG_STATUS m1) as [v2 m2] eqn:E2.
  destruct (status_idle m1 v2 m2) as [[Hb Hv2] Hm2]; [by rewrite Hm1|done|]. rewrite Hm1, Hsome in Hv2.
  destruct Hv2 as (_ & Herr & Hdrq & _). rewrite Hph in Herr. unfold settled in Hdrq. rewrite Hph in Hdrq.
  rewrite (proj2 Herr) by done. rewrite Hb. cbn.
  destruct (Z.eqb_spec (Z.land v2 ATA_SR_DRQ) 0) as [Hx|_]; [exfalso; naive_solver|]. cbn.
  destruct (register_new junk ata_class partition_class ata_class w (ATADevice_new ch device) Hok (wo_ata _ _ w Hok)) as (dm & h & Hreg & Hok' & Hh).
  rewrite Hreg, bind_Ok. exists m2, dm, h. rewrite Hm2, Hm1. split_and!; [done..| |done|done]. destruct Hok'. by split.
Qed.


(** A disk that cannot be addressed by block numbers is deleted again, but the
    device manager keeps the pointer to it. *)
Theorem refused_disk_dangles device dk w :
  quick → ch = 0 ∨ ch = 1 → device = 0 ∨ device = 1 → world_ok ata_class partition_class w → (patience < fuel)%nat →
  ready (view (hw w)) → ch_disk (view (hw w)) (device =? 1) = Some dk → block_ok (d_identity dk) →
  lba_capable (d_identity dk) = false →
  ∃ w' h, probe_device junk fuel ata_class partition_class c ch device w = Ok (false, w') ∧
    map_of (devices (manager w')) !! h = Some (next_object w) ∧ device_objects (manager w') !! next_object w = None.
Proof using Hw.
  intros Hq Hch Hdev Hok Hf Hm Hd Hid Hcap.
  destruct (probe_present device dk w) as (m1 & dm & h & Hz & Hp & Hdisk & _ & Hh & ->); [done..|lia|done|].
  set (dev0 := ATADevice_new ch device) in *. set (w1 := MkWorld _ dm _ _ _) in *.
  assert (Hc0 : _channel dev0 = ch) by by destruct Hch as [-> | ->].
  assert (Hv0 : _drive dev0 = device) by by destruct Hdev as [-> | ->].
  destruct (device_init_spec (next_object w) dev0 dk w1) as (m2 & _ & ->);
    [done|apply lookup_insert_eq|cbn [w1 hw]; by rewrite Hv0, Hdisk|done..|].
  rewrite Hcap, bind_Ok. cbn [negb]. eexists _, h. split; [done|]. cbn. split; [done|]. by rewrite lookup_delete_eq.
Qed.
End disks.

(** ** Witnesses *)

Definition sample_world (ch : channel) : World channel :=
  MkWorld ch (MkDm empty_map ∅ (<[1 := MkClass None [97] 0]> (<[2 := MkClass None [98] 0]> ∅))) 10 ∅ ∅.

Lemma sample_world_ok ch : world_ok 1 2 (sample_world ch).
Proof.
  destruct (wf_empty (V := Z)) as [Hwe Hme]. split; cbn [sample_world manager disks].
  - split; [done|]. intros h a. cbn [devices]. by rewrite Hme, lookup_empty.
  - done.
  - intros d [x Hx]. by rewrite lookup_empty in Hx.
  - by eexists.
  - by eexists.
Qed.

Lemma sample_quick : quick (M := channel) (base := 0x1f0).
Proof. intros m. by right. Qed.


(** A disk that does not say it can do block numbers. *)
Definition old_disk : disk := MkMedium (replicate 512 0) (λ _, None).
Definition old_channel : channel := MkChannel (λ b, if b then None else Some old_disk) true (λ _, 0) (λ _, 0) 0 Idle.

Lemma refused_disk_dangles_witness :
  ∃ w' h, probe_device 0 5 1 2 sample_controller 0 0 (sample_world old_channel) = Ok (false, w') ∧
    map_of (devices (manager w')) !! h = Some 10 ∧ device_objects (manager w') !! 10 = None.
Proof.
  apply (refused_disk_dangles 0 5 1 2 sample_controller 0 sample_wired 0 old_disk (sample_world old_channel)
           sample_quick (or_introl eq_refl) (or_introl eq_refl) (sample_world_ok _));
    [cbn; lia|split; [done|by left]|done| |done].
  split; [done|]. by apply (bool_decide_unpack _).
Defined.
