(* ===== verification/Pci.v ===== *)
(** * The PCI bus

    Configuration space, the probing of slots and functions, bridges and storage
    controllers (drivers/pci), down to the disks of an IDE controller
    ([AtaInit]). *)

From S2P Require Import Prelude CppList CppMap CppString Devices Ata AtaInit.
Local Open Scope Z_scope.

(** ** The model *)

Definition PCI_CONFIG_ADDRESS : Z := 0xcf8.
Definition PCI_CONFIG_DATA : Z := 0xcfc.
Definition PCI_CONFIG_VALUE (v shift size : Z) : Z := Z.land (Z.shiftr v shift) (Z.shiftl 1 size - 1).
Definition PCI_REG_VENDOR : Z := 0x00.
Definition PCI_CONFIG_VENDOR (v : Z) : Z := PCI_CONFIG_VALUE v 0 16.
Definition PCI_REG_INFO : Z := 0x08.
Definition PCI_CONFIG_CLASS (v : Z) : Z := PCI_CONFIG_VALUE v 24 8.
Definition PCI_CONFIG_SUBCLASS (v : Z) : Z := PCI_CONFIG_VALUE v 16 8.
Definition PCI_REG_CONFIG : Z := 0x0C.
Definition PCI_CONFIG_HDRTYPE (v : Z) : Z := PCI_CONFIG_VALUE v 16 8.
Definition PCI_REG_BUSINFO : Z := 0x18.
Definition PCI_CONFIG_SECONDARY_BUS (v : Z) : Z := PCI_CONFIG_VALUE v 8 8.
Definition PCI_REG_BAR0 : Z := 0x10.
Definition PCI_REG_BAR1 : Z := 0x14.
Definition PCI_REG_BAR2 : Z := 0x18.
Definition PCI_REG_BAR3 : Z := 0x1c.
Definition PCI_REG_BAR4 : Z := 0x20.
Definition PCI_REG_IRQ : Z := 0x3c.

(** The classes that have a driver, and the subclasses that matter. *)
Definition MASS_STORAGE : Z := 1.
Definition NETWORK : Z := 2.
Definition DISPLAY : Z := 3.
Definition BRIDGE : Z := 6.
Definition PCI_TO_PCI_BRIDGE : Z := 4.
Definition IDE_CONTROLLER : Z := 1.
Definition SATA_CONTROLLER : Z := 6.

(** The address that [read_config] and [write_config] put together; the
    parameters are bytes, the sum is cut to 32 bits. *)
Definition config_address (bus slot func reg : Z) : Z :=
  u32 (Z.lor (Z.lor (Z.lor (Z.lor 0x80000000 (u32 (Z.shiftl (u32 bus) 16))) (Z.shiftl (u8 slot) 11)) (Z.shiftl (u8 func) 8))
         (Z.land (u8 reg) (Z.lnot 3))).

(** A PCI function as an object: the bus, the slot and the function; a bridge
    also has the number of its secondary bus. *)
Record PCIDevice := MkPci { pci_bus : Z; pci_slot : Z; pci_func : Z; pci_secondary : option Z }.

(** What probing reaches. *)
Record PciWorld (M : Type) := MkPW { base_world : World M; functions : gmap Z PCIDevice }.
Arguments MkPW {M} _ _.
Arguments base_world {M} _.
Arguments functions {M} _.

Section pci.
Context {M : Type} `{PortIO M}.
(** As in [AtaInit], with the device classes of functions, storage controllers
    and ATA controllers. *)
Context (junk : Z) (fuel : nat) (ata_class partition_class pci_class storage_class ctl_class : Z).
Implicit Types (w : PciWorld M) (m : M).

Definition read_config (bus slot func reg : Z) m : Z * M :=
  __inl PCI_CONFIG_DATA (__outl PCI_CONFIG_ADDRESS (config_address bus slot func reg) m).

Definition write_config (bus slot func reg value : Z) m : M :=
  __outl PCI_CONFIG_DATA value (__outl PCI_CONFIG_ADDRESS (config_address bus slot func reg) m).

(** The same on the hardware of a world. *)
Definition config (bus slot func reg : Z) w : Z * PciWorld M :=
  let '(v, m) := read_config bus slot func reg (hw (base_world w)) in
  (v, MkPW (with_hw m (base_world w)) (functions w)).

Definition set_config (bus slot func reg value : Z) w : PciWorld M :=
  MkPW (with_hw (write_config bus slot func reg value (hw (base_world w))) (base_world w)) (functions w).

(** [register_device], with the device's own [init]. *)
Definition register_and_init (d : Z) (init : PciWorld M → result (bool * PciWorld M)) w : result (bool * PciWorld M) :=
  '(_, dm) ← register_device junk (manager (base_world w)) d true;
  init (MkPW (with_manager dm (base_world w)) (functions w)).

(** [init_ide_controller]: the interrupt line is tried out and cleared, and the
    controller gets the base addresses. *)
Definition init_ide_controller (bus slot func : Z) w : result (bool * PciWorld M) :=
  let '(old, w) := config bus slot func PCI_REG_IRQ w in
  let w := set_config bus slot func PCI_REG_IRQ (Z.lor (Z.land old (u32 (Z.lnot 0xff))) 0xfe) w in
  let '(v, w) := config bus slot func PCI_REG_IRQ w in
  if negb (Z.land v 0xff =? 0xfe) then Ok (false, w) else
  let w := set_config bus slot func PCI_REG_IRQ (Z.lor (Z.land old (u32 (Z.lnot 0xff))) 0) w in
  let '(b0, w) := config bus slot func PCI_REG_BAR0 w in
  let '(b1, w) := config bus slot func PCI_REG_BAR1 w in
  let '(b2, w) := config bus slot func PCI_REG_BAR2 w in
  let '(b3, w) := config bus slot func PCI_REG_BAR3 w in
  let '(b4, w) := config bus slot func PCI_REG_BAR4 w in
  let '(d, bw) := new_device ctl_class (base_world w) in
  '(ok, w) ← register_and_init d (λ w,
      '(ok, bw) ← ata_controller_init junk fuel ata_class partition_class (ATAController_new b0 b1 b2 b3 b4) (base_world w);
      Ok (ok, MkPW bw (functions w))) (MkPW bw (functions w));
  if negb (ok : bool) then Ok (false, MkPW (delete_device d (base_world w)) (functions w)) else Ok (true, w).

(** [Storage::init]; an unknown subclass is read once more for the log. *)
Definition storage_init (bus slot func : Z) w : result (bool * PciWorld M) :=
  let '(info, w) := config bus slot func PCI_REG_INFO w in
  if PCI_CONFIG_SUBCLASS info =? IDE_CONTROLLER then init_ide_controller bus slot func w
  else if PCI_CONFIG_SUBCLASS info =? SATA_CONTROLLER then Ok (true, w)
  else let '(_, w) := config bus slot func PCI_REG_INFO w in Ok (false, w).

(** [Bridge::init], with the probing of the secondary bus; the subclass is read
    once more for the log. *)
Definition bridge_init (probe : Z → PciWorld M → result (bool * PciWorld M)) (d bus slot func : Z) w
    : result (bool * PciWorld M) :=
  let '(info, w) := config bus slot func PCI_REG_INFO w in
  if PCI_CONFIG_SUBCLASS info =? PCI_TO_PCI_BRIDGE then
    let '(cfg, w) := config bus slot func PCI_REG_CONFIG w in
    let header_type := PCI_CONFIG_HDRTYPE cfg in
    if negb (header_type =? 0x01) && negb (header_type =? 0x81) then Ok (false, w) else
    let '(businfo, w) := config bus slot func PCI_REG_BUSINFO w in
    let secondary := PCI_CONFIG_SECONDARY_BUS businfo in
    let '(_, w) := config bus slot func PCI_REG_INFO w in
    probe secondary (MkPW (base_world w) (<[d := MkPci bus slot func (Some secondary)]> (functions w)))
  else let '(_, w) := config bus slot func PCI_REG_INFO w in Ok (true, w).

(** The object of a function of device class [cls]: created, registered with its
    own [init], and deleted again when that fails. *)
Definition create_function (cls : Z) (init : Z → PciWorld M → result (bool * PciWorld M)) (bus slot func : Z) w
    : result (bool * PciWorld M) :=
  let '(d, bw) := new_device cls (base_world w) in
  '(ok, w) ← register_and_init d (init d) (MkPW bw (<[d := MkPci bus slot func None]> (functions w)));
  if negb (ok : bool) then Ok (false, MkPW (delete_device d (base_world w)) (delete d (functions w))) else Ok (true, w).

(** [probe_func]: a missing function and an unsupported class are no errors. *)
Definition probe_func (probe : Z → PciWorld M → result (bool * PciWorld M)) (bus slot func : Z) w
    : result (bool * PciWorld M) :=
  let '(device_vendor, w) := config bus slot func PCI_REG_VENDOR w in
  if PCI_CONFIG_VENDOR device_vendor =? 0xffff then Ok (true, w) else
  let '(device_info, w) := config bus slot func PCI_REG_INFO w in
  let device_class := PCI_CONFIG_CLASS device_info in
  if device_class =? BRIDGE then create_function pci_class (λ d, bridge_init probe d bus slot func) bus slot func w
  else if device_class =? DISPLAY then create_function pci_class (λ _ w, Ok (true, w)) bus slot func w
  else if device_class =? NETWORK then create_function pci_class (λ _ w, Ok (true, w)) bus slot func w
  else if device_class =? MASS_STORAGE then create_function storage_class (λ _, storage_init bus slot func) bus slot func w
  else Ok (true, w).

(** The functions 1 to 7 of a slot, up to the first failure. *)
Fixpoint probe_funcs (probe : Z → PciWorld M → result (bool * PciWorld M)) (bus slot : Z) (funcs : list Z) w
    : result (bool * PciWorld M) :=
  match funcs with
  | [] => Ok (true, w)
  | func :: funcs =>
      '(ok, w) ← probe_func probe bus slot func w;
      if negb (ok : bool) then Ok (false, w) else probe_funcs probe bus slot funcs w
  end.

Definition probe_slot (probe : Z → PciWorld M → result (bool * PciWorld M)) (bus slot : Z) w
    : result (bool * PciWorld M) :=
  '(ok, w) ← probe_func probe bus slot 0 w;
  if negb (ok : bool) then Ok (false, w) else
  let '(device_cfg, w) := config bus slot 0 PCI_REG_CONFIG w in
  if negb (Z.land (PCI_CONFIG_HDRTYPE device_cfg) 0x80 =? 0) then probe_funcs probe bus slot (seqZ 1 7) w
  else Ok (true, w).

(** The loop of [PCIBus::probe]: a failure does not stop it. *)
Fixpoint probe_slots (probe : Z → PciWorld M → result (bool * PciWorld M)) (bus : Z) (slots : list Z) (success : bool) w
    : result (bool * PciWorld M) :=
  match slots with
  | [] => Ok (success, w)
  | slot :: slots =>
      '(ok, w) ← probe_slot probe bus slot w;
      probe_slots probe bus slots (success && ok) w
  end.

(** [PCIBus::probe]; the fuel is the nesting of buses behind bridges. *)
Fixpoint probe_bus (n : nat) (bus : Z) w : result (bool * PciWorld M) :=
  match n with
  | O => Err Hang
  | S n' => probe_slots (probe_bus n') bus (seqZ 0 32) true w
  end.
End pci.

(** ** Configuration addresses *)

(** The address is the sum of its fields. *)
Lemma config_address_sum bus slot func reg :
  fits 8 bus → fits 5 slot → fits 3 func → fits 6 reg →
  config_address bus slot func (4 * reg) = 2 ^ 31 + 2 ^ 16 * bus + 2 ^ 11 * slot + 2 ^ 8 * func + 4 * reg.
Proof.
  unfold fits. intros Hb Hs Hf Hr. unfold config_address.
  rewrite (wrap_small 32 bus), (wrap_small 8 slot), (wrap_small 8 func), (wrap_small 8 (4 * reg)) by (unfold fits; lia).
  rewrite !Z.shiftl_mul_pow2 by lia. rewrite (wrap_small 32 (bus * _)) by (unfold fits; lia).
  assert (Z.land (4 * reg) (Z.lnot 3) = 4 * reg) as ->.
  { rewrite <- Z.ldiff_land. change 3 with (Z.ones 2). rewrite Z.ldiff_ones_r, Z.shiftr_div_pow2, Z.shiftl_mul_pow2 by lia.
    Z.to_euclidean_division_equations. lia. }
  rewrite (lor_high_low 31 1 0x80000000), (lor_high_low 16 (2 ^ 15 + bus) (0x80000000 + _)),
    (lor_high_low 11 (2 ^ 5 * (2 ^ 15 + bus) + slot) (0x80000000 + _ + _)),
    (lor_high_low 8 (2 ^ 3 * (2 ^ 5 * (2 ^ 15 + bus) + slot) + func)) by lia.
  rewrite wrap_small by (unfold fits; lia). lia.
Qed.

(** Different registers of different functions have different addresses: a bus
    number of 8 bits, a slot of 5, a function of 3 and an aligned register of a
    256-byte space can be told apart. *)
Theorem config_address_injective bus slot func reg bus' slot' func' reg' :
  fits 8 bus → fits 5 slot → fits 3 func → fits 6 reg → fits 8 bus' → fits 5 slot' → fits 3 func' → fits 6 reg' →
  config_address bus slot func (4 * reg) = config_address bus' slot' func' (4 * reg') →
  bus = bus' ∧ slot = slot' ∧ func = func' ∧ reg = reg'.
Proof.
  intros. rewrite !config_address_sum in * by done. unfold fits in *. lia.
Qed.

(** ** Enumeration *)

(** What the driver relies on: the data port returns the register whose address
    was written last, and reading changes no register. *)
Class PciConfig (M : Type) `{PortIO M} := {
  space : M → Z → Z;
  space_read m a v m' :
    port_inl PCI_CONFIG_DATA (port_outl PCI_CONFIG_ADDRESS a m) = (v, m') → v = space m a ∧ space m' = space m }.

Section functions.
Context (S : Z → Z) (bus : Z).

(** What the registers of a function say. *)
Definition reg_at (slot func reg : Z) : Z := S (config_address bus slot func reg).
Definition present (slot func : Z) : bool := negb (PCI_CONFIG_VENDOR (reg_at slot func PCI_REG_VENDOR) =? 0xffff).
Definition class_at (slot func : Z) : Z := PCI_CONFIG_CLASS (reg_at slot func PCI_REG_INFO).
Definition subclass_at (slot func : Z) : Z := PCI_CONFIG_SUBCLASS (reg_at slot func PCI_REG_INFO).
Definition header_at (slot func : Z) : Z := PCI_CONFIG_HDRTYPE (reg_at slot func PCI_REG_CONFIG).
Definition secondary_at (slot func : Z) : Z := PCI_CONFIG_SECONDARY_BUS (reg_at slot func PCI_REG_BUSINFO).

(** A function that is there and has a driver. *)
Definition driven (slot func : Z) : bool :=
  present slot func && bool_decide (class_at slot func ∈ [BRIDGE; DISPLAY; NETWORK; MASS_STORAGE]).

(** Neither a storage controller nor a bridge to another bus. *)
Definition passive (slot func : Z) : Prop :=
  present slot func = true → class_at slot func ≠ MASS_STORAGE ∧
  (class_at slot func = BRIDGE → subclass_at slot func ≠ PCI_TO_PCI_BRIDGE).

(** The functions of a slot that are looked at, and those that get a device. *)
Definition slot_funcs (slot : Z) : list Z :=
  0 :: if Z.land (header_at slot 0) 0x80 =? 0 then [] else seqZ 1 7.
Definition found_funcs (slot : Z) (funcs : list Z) : list (Z * Z) :=
  map (pair slot) (filter (λ f, driven slot f = true) funcs).
Definition found_slots (slots : list Z) : list (Z * Z) :=
  concat (map (λ slot, found_funcs slot (slot_funcs slot)) slots).
End functions.

Section enumeration.
Context {M : Type} `{PciConfig M}.
Context (junk : Z) (fuel : nat) (ata_class partition_class pci_class storage_class ctl_class : Z).
Context (S : Z → Z).
Implicit Types (w : PciWorld M).

Abbreviation probe_func := (probe_func junk fuel ata_class partition_class pci_class storage_class ctl_class).
Abbreviation probe_funcs := (probe_funcs junk fuel ata_class partition_class pci_class storage_class ctl_class).
Abbreviation probe_slot := (probe_slot junk fuel ata_class partition_class pci_class storage_class ctl_class).
Abbreviation probe_slots := (probe_slots junk fuel ata_class partition_class pci_class storage_class ctl_class).
Abbreviation probe_bus := (probe_bus junk fuel ata_class partition_class pci_class storage_class ctl_class).

(** The registry works and the registers are [S]. *)
Record pci_ok w : Prop := {
  po_space : space (hw (base_world w)) = S;
  po_wf : wf (devices (manager (base_world w)));
  po_pci : is_Some (classes (manager (base_world w)) !! pci_class);
  po_storage : is_Some (classes (manager (base_world w)) !! storage_class) }.

Lemma config_spec bus slot func reg w :
  pci_ok w → ∃ m', config bus slot func reg w = (reg_at S bus slot func reg, MkPW (with_hw m' (base_world w)) (functions w)) ∧
    pci_ok (MkPW (with_hw m' (base_world w)) (functions w)).
Proof.
  intros [Hs ? ? ?]. unfold config, read_config, __inl, __outl.
  assert (u32 (config_address bus slot func reg) = config_address bus slot func reg) as -> by (by apply wrap_idemp).
  change (u16 PCI_CONFIG_DATA) with PCI_CONFIG_DATA. change (u16 PCI_CONFIG_ADDRESS) with PCI_CONFIG_ADDRESS.
  destruct (port_inl _ _) as [v m'] eqn:E. apply space_read in E as [-> Hm]. exists m'. unfold reg_at. rewrite Hs.
  split; [done|]. split; [|done..]. cbn. congruence.
Qed.

(** [stepped w w' l]: the objects at the addresses from [next_object] on are the
    functions [l] of the bus. *)
Record stepped (bus : Z) w w' (l : list (Z * Z)) : Prop := {
  st_ok : pci_ok w';
  st_next : next_object (base_world w') = next_object (base_world w) + Z.of_nat (length l);
  st_new : ∀ j s f, l !! j = Some (s, f) →
    functions w' !! (next_object (base_world w) + Z.of_nat j) = Some (MkPci bus s f None);
  st_old : ∀ a, a < next_object (base_world w) → functions w' !! a = functions w !! a }.

Lemma stepped_hw bus w m' :
  pci_ok (MkPW (with_hw m' (base_world w)) (functions w)) → stepped bus w (MkPW (with_hw m' (base_world w)) (functions w)) [].
Proof. intros Hok. split; [done|cbn; lia|done|done]. Qed.

Lemma stepped_trans bus w1 w2 w3 l1 l2 :
  stepped bus w1 w2 l1 → stepped bus w2 w3 l2 → stepped bus w1 w3 (l1 ++ l2).
Proof.
  intros [O1 N1 P1 L1] [O2 N2 P2 L2]. split; [done|rewrite length_app; lia| |].
  - intros j s f [Hj|[Hge Hj]]%lookup_app_Some.
    + pose proof (lookup_lt_Some _ _ _ Hj). rewrite L2 by lia. by apply P1.
    + replace (next_object (base_world w1) + Z.of_nat j) with (next_object (base_world w2) + Z.of_nat (j - length l1)) by lia.
      by apply P2.
  - intros a Ha. rewrite L2 by lia. by apply L1.
Qed.

(** A function is registered before its [init] runs. *)
Lemma create_function_spec cls init bus slot func w :
  pci_ok w → is_Some (classes (manager (base_world w)) !! cls) →
  let d := next_object (base_world w) in
  ∃ w1, stepped bus w w1 [(slot, func)] ∧ create_function junk cls init bus slot func w =
    ('(ok, w') ← init d w1;
     if negb (ok : bool) then Ok (false, MkPW (delete_device d (base_world w')) (delete d (functions w'))) else Ok (true, w')).
Proof.
  intros [Hs Hwf Hp Hst] [k Hk]. cbv zeta. unfold create_function, register_and_init. cbn [new_device base_world manager].
  set (d := next_object (base_world w)). set (dm1 := MkDm _ _ _).
  destruct (register_device_spec junk dm1 d (MkDev [] cls None) k true) as (ds & m1 & -> & _ & Hwm & Hm1);
    [done|cbn; by rewrite lookup_insert_eq|done|].
  rewrite bind_Ok. eexists. split; [|done]. cbn [dm1 classes dev_class] in *.
  split; cbn; [split; cbn; [done|done|..]|done| |].
  - rewrite lookup_insert_is_Some. destruct (decide (cls = pci_class)); auto.
  - rewrite lookup_insert_is_Some. destruct (decide (cls = storage_class)); auto.
  - intros [|j] s f Hj; [|done]. injection Hj as <- <-. cbn. by rewrite Z.add_0_r, lookup_insert_eq.
  - intros a Ha. rewrite lookup_insert_ne; [done|]. unfold d. lia.
Qed.

(** One read of the configuration space. *)
Ltac config_step Hok :=
  match goal with
  | |- context [config ?b ?s ?f ?r ?w] =>
      let m := fresh "m" in let Hok' := fresh "Hok" in
      destruct (config_spec b s f r w Hok) as (m & -> & Hok'); cbn beta iota zeta; clear Hok; rename Hok' into Hok
  end.

Lemma bridge_init_passive probe d bus slot func w :
  pci_ok w → subclass_at S bus slot func ≠ PCI_TO_PCI_BRIDGE →
  ∃ w', bridge_init probe d bus slot func w = Ok (true, w') ∧ stepped bus w w' [].
Proof.
  intros Hok Hsub. unfold bridge_init. config_step Hok. fold (subclass_at S bus slot func).
  rewrite (proj2 (Z.eqb_neq _ _) Hsub). config_step Hok. eexists. split; [done|]. by apply (stepped_hw bus w).
Qed.

Lemma probe_func_passive probe bus slot func w :
  pci_ok w → passive S bus slot func →
  ∃ w', probe_func probe bus slot func w = Ok (true, w') ∧
    stepped bus w w' (if driven S bus slot func then [(slot, func)] else []).
Proof.
  intros Hok Hpas. unfold Pci.probe_func, driven. config_step Hok. unfold passive in Hpas.
  fold (PCI_CONFIG_VENDOR (reg_at S bus slot func PCI_REG_VENDOR)).
  unfold present in *. destruct (PCI_CONFIG_VENDOR _ =? 0xffff); cbn [negb andb] in *.
  { eexists. split; [done|]. by apply stepped_hw. }
  destruct (Hpas eq_refl) as [Hms Hbr]. config_step Hok. change (PCI_CONFIG_CLASS _) with (class_at S bus slot func).
  set (w2 := MkPW _ _) in *. assert (Hst2 : stepped bus w w2 []) by by apply (stepped_hw bus w).
  destruct (Z.eqb_spec (class_at S bus slot func) BRIDGE) as [E|E].
  { destruct (create_function_spec pci_class (λ d, bridge_init probe d bus slot func) bus slot func w2 Hok (po_pci _ Hok))
      as (w3 & Hst3 & ->).
    destruct (bridge_init_passive probe (next_object (base_world w2)) bus slot func w3 (st_ok _ _ _ _ Hst3) (Hbr E)) as (w4 & -> & Hst4).
    rewrite bind_Ok. rewrite bool_decide_true by (rewrite E; set_solver). eexists. split; [done|].
    apply (stepped_trans bus w w2 _ [] _ Hst2). by apply (stepped_trans bus w2 w3 w4 [_] []). }
  assert (Hplain : ∃ w', create_function junk pci_class (λ _ w, Ok (true, w)) bus slot func w2 = Ok (true, w') ∧
                     stepped bus w w' [(slot, func)]).
  { destruct (create_function_spec pci_class (λ _ w, Ok (true, w)) bus slot func w2 Hok (po_pci _ Hok)) as (w3 & Hst3 & ->).
    rewrite bind_Ok. exists w3. split; [done|]. by apply (stepped_trans bus w w2 w3 []). }
  destruct (Z.eqb_spec (class_at S bus slot func) DISPLAY) as [E2|E2].
  { rewrite bool_decide_true by (rewrite E2; set_solver). done. }
  destruct (Z.eqb_spec (class_at S bus slot func) NETWORK) as [E3|E3].
  { rewrite bool_decide_true by (rewrite E3; set_solver). done. }
  rewrite (proj2 (Z.eqb_neq _ _) Hms). rewrite bool_decide_false by set_solver. by exists w2.
Qed.

Lemma probe_funcs_passive probe bus slot funcs w :
  pci_ok w → (∀ f, passive S bus slot f) →
  ∃ w', probe_funcs probe bus slot funcs w = Ok (true, w') ∧ stepped bus w w' (found_funcs S bus slot funcs).
Proof.
  intros Hok Hpas. revert w Hok. induction funcs as [|f funcs IH]; intros w Hok; cbn [Pci.probe_funcs].
  { exists w. split; [done|]. split; [done|cbn; lia|done|done]. }
  destruct (probe_func_passive probe bus slot f w Hok (Hpas f)) as (w1 & -> & H1). rewrite bind_Ok. cbn [negb].
  destruct (IH w1 (st_ok _ _ _ _ H1)) as (w2 & -> & H2). exists w2. split; [done|].
  unfold found_funcs. rewrite filter_cons. pose proof (stepped_trans _ _ _ _ _ _ H1 H2) as H3.
  destruct (driven S bus slot f); [rewrite decide_True by done|rewrite decide_False by done]; exact H3.
Qed.

Lemma probe_slot_passive probe bus slot w :
  pci_ok w → (∀ f, passive S bus slot f) →
  ∃ w', probe_slot probe bus slot w = Ok (true, w') ∧ stepped bus w w' (found_funcs S bus slot (slot_funcs S bus slot)).
Proof.
  intros Hok Hpas. unfold Pci.probe_slot.
  destruct (probe_funcs_passive probe bus slot [0] w Hok Hpas) as (w1 & Hr & H1). cbn [Pci.probe_funcs] in Hr.
  destruct (probe_func_passive probe bus slot 0 w Hok (Hpas 0)) as (w1' & E & _). rewrite E in *.
  rewrite bind_Ok in *. cbn [negb] in *. injection Hr as ->. clear E. pose proof (st_ok _ _ _ _ H1) as Hok1.
  destruct (config_spec bus slot 0 PCI_REG_CONFIG w1 Hok1) as (m & -> & Hok2).
  change (PCI_CONFIG_HDRTYPE _) with (header_at S bus slot 0). unfold slot_funcs.
  pose proof (stepped_trans _ _ _ _ _ _ H1 (stepped_hw bus w1 m Hok2)) as H2. rewrite app_nil_r in H2.
  destruct (Z.land (header_at S bus slot 0) 0x80 =? 0); cbn [negb]; [by eexists|].
  destruct (probe_funcs_passive probe bus slot (seqZ 1 7) _ Hok2 Hpas) as (w3 & -> & H3). exists w3. split; [done|].
  pose proof (stepped_trans _ _ _ _ _ _ H2 H3) as H4. unfold found_funcs in *.
  change (0 :: seqZ 1 7) with ([0] ++ seqZ 1 7). by rewrite filter_app, map_app.
Qed.

Lemma probe_slots_passive probe bus slots w :
  pci_ok w → (∀ s f, passive S bus s f) →
  ∃ w', probe_slots probe bus slots true w = Ok (true, w') ∧ stepped bus w w' (found_slots S bus slots).
Proof.
  intros Hok Hpas. revert w Hok. induction slots as [|s slots IH]; intros w Hok; cbn [Pci.probe_slots].
  { exists w. split; [done|]. split; [done|cbn; lia|done|done]. }
  destruct (probe_slot_passive probe bus s w Hok (Hpas s)) as (w1 & -> & H1). rewrite bind_Ok. cbn [andb].
  destruct (IH w1 (st_ok _ _ _ _ H1)) as (w2 & -> & H2). exists w2. split; [done|].
  exact (stepped_trans _ _ _ _ _ _ H1 H2).
Qed.

(** A bus without storage controllers and further buses is enumerated completely:
    the functions that are there and have a driver become devices, slot by slot
    and function by function, at the addresses from [next_object] on; functions
    above 0 are looked at when function 0 says that there are some. *)
Theorem bus_enumerated n bus w :
  pci_ok w → (∀ s f, passive S bus s f) →
  let fs := found_slots S bus (seqZ 0 32) in
  ∃ w', probe_bus (Datatypes.S n) bus w = Ok (true, w') ∧ pci_ok w' ∧
    next_object (base_world w') = next_object (base_world w) + Z.of_nat (length fs) ∧
    (∀ j s f, fs !! j = Some (s, f) →
       functions w' !! (next_object (base_world w) + Z.of_nat j) = Some (MkPci bus s f None)) ∧
    ∀ a, a < next_object (base_world w) → functions w' !! a = functions w !! a.
Proof.
  intros Hok Hpas. cbv zeta. cbn [Pci.probe_bus].
  destruct (probe_slots_passive (probe_bus n) bus (seqZ 0 32) w Hok Hpas) as (w' & Hr & [H1 H2 H3 H4]).
  by exists w'.
Qed.

(** A function is a bridge to another bus that [init] follows. *)
Definition leads (bus slot func next : Z) : Prop :=
  present S bus slot func = true ∧ class_at S bus slot func = BRIDGE ∧
  subclass_at S bus slot func = PCI_TO_PCI_BRIDGE ∧
  (header_at S bus slot func = 0x01 ∨ header_at S bus slot func = 0x81) ∧ secondary_at S bus slot func = next.

(** [init] of such a bridge probes the bus behind it. *)
Lemma bridge_leads probe d bus slot func next w :
  pci_ok w → leads bus slot func next →
  ∃ w', pci_ok w' ∧ bridge_init probe d bus slot func w = probe next w'.
Proof.
  intros Hok (_ & _ & Hsub & Hh & Hn). unfold bridge_init. config_step Hok.
  change (PCI_CONFIG_SUBCLASS _) with (subclass_at S bus slot func). rewrite Hsub. cbn [Z.eqb PCI_TO_PCI_BRIDGE Pos.eqb].
  config_step Hok. change (PCI_CONFIG_HDRTYPE _) with (header_at S bus slot func).
  assert (negb (header_at S bus slot func =? 1) && negb (header_at S bus slot func =? 0x81) = false) as ->
    by by destruct Hh as [-> | ->].
  config_step Hok. change (PCI_CONFIG_SECONDARY_BUS _) with (secondary_at S bus slot func). rewrite Hn.
  config_step Hok. eexists. split; [|done]. destruct Hok. by split.
Qed.

(** When the bridge in slot 0 leads back to its own bus, as a bridge that the
    firmware has not set up does on bus 0, probing never ends. *)
Theorem bridge_to_itself_hangs n bus w : pci_ok w → leads bus 0 0 bus → probe_bus n bus w = Err Hang.
Proof.
  intros Hok Hl. revert w Hok. induction n as [|n IH]; intros w Hok; [done|].
  cbn [Pci.probe_bus]. change (seqZ 0 32) with (0 :: seqZ 1 31). cbn [Pci.probe_slots].
  unfold Pci.probe_slot, Pci.probe_func. config_step Hok. pose proof Hl as (Hp & Hc & _). unfold present in Hp.
  apply negb_true_iff in Hp. rewrite Hp. config_step Hok.
  change (PCI_CONFIG_CLASS _) with (class_at S bus 0 0). rewrite Hc. cbn [Z.eqb BRIDGE Pos.eqb].
  match goal with |- context [create_function _ _ _ _ _ _ ?w] =>
    destruct (create_function_spec pci_class (λ d, bridge_init (probe_bus n) d bus 0 0) bus 0 0 w Hok (po_pci _ Hok))
      as (w3 & Hst3 & ->) end.
  destruct (bridge_leads (probe_bus n) (next_object (base_world w)) bus 0 0 bus w3 (st_ok _ _ _ _ Hst3) Hl) as (w4 & Hok4 & Hb).
  cbn [base_world with_hw next_object] in *. by rewrite Hb, (IH w4 Hok4).
Qed.

(** ** Termination *)

(** [runs f]: [f] ends from every world in order and leaves one. *)
Definition runs (f : PciWorld M → result (bool * PciWorld M)) : Prop :=
  ∀ w, pci_ok w → ∃ ok w', f w = Ok (ok, w') ∧ pci_ok w'.

(** No function is an IDE controller (whose disks are [AtaInit]'s subject). *)
Definition no_ide : Prop :=
  ∀ bus slot func, class_at S bus slot func = MASS_STORAGE → subclass_at S bus slot func ≠ IDE_CONTROLLER.

Lemma storage_runs bus slot func : subclass_at S bus slot func ≠ IDE_CONTROLLER →
  runs (storage_init junk fuel ata_class partition_class ctl_class bus slot func).
Proof.
  intros Hs w Hok. unfold storage_init. config_step Hok.
  change (PCI_CONFIG_SUBCLASS _) with (subclass_at S bus slot func). rewrite (proj2 (Z.eqb_neq _ _) Hs).
  destruct (_ =? SATA_CONTROLLER); [by eexists _, _|]. config_step Hok. by eexists _, _.
Qed.

Lemma bridge_runs probe d bus slot func :
  present S bus slot func = true → class_at S bus slot func = BRIDGE →
  (∀ next, leads bus slot func next → runs (probe next)) → runs (bridge_init probe d bus slot func).
Proof.
  intros Hpr Hcl Hprobe w Hok. destruct (decide (subclass_at S bus slot func = PCI_TO_PCI_BRIDGE)) as [Hsub|Hsub].
  2:{ destruct (bridge_init_passive probe d bus slot func w Hok Hsub) as (w' & -> & Hst). exists true, w'.
      split; [done|]. by destruct Hst. }
  destruct (decide (header_at S bus slot func = 0x01 ∨ header_at S bus slot func = 0x81)) as [Hh|Hh].
  - assert (Hl : leads bus slot func (secondary_at S bus slot func)) by by split_and!.
    destruct (bridge_leads probe d bus slot func _ w Hok Hl) as (w' & Hok' & ->). by apply (Hprobe _ Hl).
  - unfold bridge_init. config_step Hok. change (PCI_CONFIG_SUBCLASS _) with (subclass_at S bus slot func).
    rewrite Hsub. cbn [Z.eqb PCI_TO_PCI_BRIDGE Pos.eqb]. config_step Hok.
    change (PCI_CONFIG_HDRTYPE _) with (header_at S bus slot func).
    assert (negb (header_at S bus slot func =? 1) && negb (header_at S bus slot func =? 0x81) = true) as ->.
    { apply andb_true_iff. rewrite !negb_true_iff, !Z.eqb_neq. tauto. }
    by eexists _, _.
Qed.

Lemma create_runs cls init bus slot func :
  cls = pci_class ∨ cls = storage_class → (∀ d, runs (init d)) → runs (create_function junk cls init bus slot func).
Proof.
  intros Hcls Hinit w Hok.
  destruct (create_function_spec cls init bus slot func w Hok) as (w1 & Hst & ->); [destruct Hok, Hcls as [-> | ->]; done|].
  destruct (Hinit (next_object (base_world w)) w1 (st_ok _ _ _ _ Hst)) as (ok & w2 & -> & Hok2). rewrite bind_Ok.
  destruct ok; eexists _, _; split; try done. destruct Hok2. by split.
Qed.

Lemma probe_func_runs probe bus slot func :
  no_ide → (∀ next, leads bus slot func next → runs (probe next)) → runs (probe_func probe bus slot func).
Proof.
  intros Hide Hprobe w Hok. unfold Pci.probe_func. config_step Hok.
  destruct (PCI_CONFIG_VENDOR _ =? 0xffff) eqn:Ev; [by eexists _, _|].
  assert (Hpr : present S bus slot func = true) by (unfold present; by rewrite Ev).
  config_step Hok. change (PCI_CONFIG_CLASS _) with (class_at S bus slot func).
  destruct (Z.eqb_spec (class_at S bus slot func) BRIDGE) as [E|_].
  { apply create_runs; [by left| |done]. intros d. by apply bridge_runs. }
  assert (Hplain : runs (create_function junk pci_class (λ _ w, Ok (true, w)) bus slot func)).
  { apply create_runs; [by left|]. intros _ w0 Hok0. by eexists _, _. }
  destruct (_ =? DISPLAY); [by apply Hplain|]. destruct (_ =? NETWORK); [by apply Hplain|].
  destruct (Z.eqb_spec (class_at S bus slot func) MASS_STORAGE) as [E|_]; [|by eexists _, _].
  apply create_runs; [by right| |done]. intros _. apply storage_runs. by apply Hide.
Qed.

Lemma probe_funcs_runs probe bus slot funcs :
  (∀ func, runs (probe_func probe bus slot func)) → runs (probe_funcs probe bus slot funcs).
Proof.
  intros Hf. induction funcs as [|f funcs IH]; intros w Hok; cbn [Pci.probe_funcs]; [by eexists _, _|].
  destruct (Hf f w Hok) as (ok & w1 & -> & Hok1). rewrite bind_Ok. destruct ok; [by apply IH|by eexists _, _].
Qed.

Lemma probe_slot_runs probe bus slot :
  (∀ func, runs (probe_func probe bus slot func)) → runs (probe_slot probe bus slot).
Proof.
  intros Hf w Hok. unfold Pci.probe_slot. destruct (Hf 0 w Hok) as (ok & w1 & -> & Hok1). rewrite bind_Ok.
  destruct ok; [|by eexists _, _]. cbn [negb]. config_step Hok1.
  destruct (negb _); [|by eexists _, _]. by apply probe_funcs_runs.
Qed.

Lemma probe_slots_runs probe bus slots success :
  (∀ slot func, runs (probe_func probe bus slot func)) → runs (probe_slots probe bus slots success).
Proof.
  intros Hf. revert success. induction slots as [|s slots IH]; intros success w Hok; cbn [Pci.probe_slots];
    [by eexists _, _|].
  destruct (probe_slot_runs probe bus s (Hf s) w Hok) as (ok & w1 & -> & Hok1). rewrite bind_Ok. by apply IH.
Qed.

End enumeration.

(** ** Witnesses *)

(** A machine that is only a configuration space and its address register. *)
#[export] Instance sim_config_ports : PortIO (Z * (Z → Z)) := {
  port_outb _ _ m := m;
  port_outl p v m := if p =? PCI_CONFIG_ADDRESS then (v, m.2) else m;
  port_inb _ m := (0, m);
  port_inw _ m := (0, m);
  port_inl p m := (if p =? PCI_CONFIG_DATA then m.2 m.1 else 0, m);
  port_delay _ m := m }.

#[export] Instance sim_config : PciConfig (Z * (Z → Z)).
Proof. refine {| space := snd |}. by intros m a v m' [= <- <-]. Defined.

Lemma config_address_injective_witness :
  config_address 0 3 1 (4 * 2) = config_address 0 3 1 (4 * 2) ∧ 3 = 3.
Proof.
  split; [done|]. refine (proj1 (proj2 (config_address_injective 0 3 1 2 0 3 1 2 _ _ _ _ _ _ _ _ eq_refl))).
  all: split; [discriminate|reflexivity].
Defined.

(** A display in slot 3. *)
Definition display_space (a : Z) : Z :=
  if a =? config_address 0 3 0 PCI_REG_VENDOR then 0x12341af4
  else if a =? config_address 0 3 0 PCI_REG_INFO then 0x03000000
  else if a =? config_address 0 3 0 PCI_REG_CONFIG then 0 else 0xffffffff.

(** A bridge in slot 0 that has not been given a bus number. *)
Definition bridge_space (a : Z) : Z :=
  if a =? config_address 0 0 0 PCI_REG_VENDOR then 0x12378086
  else if a =? config_address 0 0 0 PCI_REG_INFO then 0x06040000
  else if a =? config_address 0 0 0 PCI_REG_CONFIG then 0x00010000
  else if a =? config_address 0 0 0 PCI_REG_BUSINFO then 0 else 0xffffffff.

Definition sample_pci (S : Z → Z) : PciWorld (Z * (Z → Z)) :=
  MkPW (MkWorld (0, S) (MkDm empty_map ∅ (<[3 := MkClass None [112] 0]> (<[4 := MkClass None [115] 0]> ∅))) 20 ∅ ∅) ∅.

Lemma sample_pci_ok S : pci_ok 3 4 S (sample_pci S).
Proof. split; [done|apply (wf_empty (V := Z))|by eexists|by eexists]. Qed.

Lemma display_class slot func bus :
  class_at display_space bus slot func ≠ MASS_STORAGE ∧ class_at display_space bus slot func ≠ BRIDGE.
Proof. unfold class_at, reg_at, display_space. by repeat case_match. Qed.

Lemma bus_enumerated_witness :
  ∃ w', probe_bus 0 1 1 2 3 4 5 1 0 (sample_pci display_space) = Ok (true, w') ∧
    functions w' !! 20 = Some (MkPci 0 3 0 None).
Proof.
  destruct (bus_enumerated 0 1 1 2 3 4 5 display_space 0 0 (sample_pci display_space) (sample_pci_ok _))
    as (w' & Hr & _ & _ & Hnew & _).
  - intros s f _. destruct (display_class s f 0) as [Hm Hb]. split; [exact Hm|by intros E%Hb].
  - exists w'. split; [exact Hr|]. apply (Hnew O 3 0). vm_compute. reflexivity.
Defined.

Lemma bridge_to_itself_hangs_witness :
  probe_bus 0 1 1 2 3 4 5 100 0 (sample_pci bridge_space) = Err Hang.
Proof.
  apply (bridge_to_itself_hangs 0 1 1 2 3 4 5 bridge_space 100 0 (sample_pci bridge_space) (sample_pci_ok _)).
  split_and!; try (vm_compute; reflexivity). left. vm_compute. reflexivity.
Defined.

