(* ===== verification/Log.v ===== *)
(** * The kernel log, the serial stream and the early screen

    kernel/log.cpp with the streams it writes to: the port of the emulator
    (arch/x86/qemu-stream.cpp) and the early screen (arch/x86/early-screen.cpp).

    A log writes to any stream of the interface class [Stream] (include/infos/io/stream.h).
    The mutex of the system log is left out. *)

From S2P Require Import Prelude CppString Printf Console Ata.
Local Open Scope Z_scope.

(** ** Streams *)

(** [write]: the number of bytes it claims to have written. *)
Class Stream (T : Type) := stream_write : list Z → T → result (Z * T).

(** A stream that keeps what is written to it. *)
Class StreamLaws (T : Type) `{Stream T} (inv : T → Prop) (written : T → list Z) := {
  write_appends bs s : inv s → Forall (fits 8) bs → ∃ n s', stream_write bs s = Ok (n, s') ∧ inv s' ∧ written s' = written s ++ bs }.

(** [QEMUStream]: a byte goes to port 0xe9.  The count is 32 bits wide; the
    sizes of the kernel are below that. *)
Fixpoint qemu_bytes `{PortIO M} (bs : list Z) (m : M) : M :=
  match bs with [] => m | b :: bs' => qemu_bytes bs' (__outb 0xe9 (s8 b) m) end.

Definition qemu_write `{PortIO M} (bs : list Z) (m : M) : result (Z * M) :=
  Ok (s32 (Z.of_nat (length bs)), qemu_bytes bs m).

(** ** The log *)

Inductive LogLevel := DEBUG | INFO | WARNING | ERROR | FATAL | IMPORTANT.

#[export] Instance LogLevel_eq_dec : EqDecision LogLevel.
Proof. solve_decision. Defined.

(** [SysLog]: [None] is an unset stream. *)
Record SysLog (T : Type) := MkLog { log_enabled : bool; log_colour : bool; log_stream : option T }.
Arguments MkLog {T} _ _ _.
Arguments log_enabled {T} _.
Arguments log_colour {T} _.
Arguments log_stream {T} _.

Definition level_colour (l : LogLevel) : list Z :=
  match l with
  | DEBUG => [27; 91; 51; 52; 59; 49; 109]                    (* ESC [ 3 4 ; 1 m *)
  | INFO => [27; 91; 51; 50; 59; 49; 109]
  | WARNING => [27; 91; 51; 50; 59; 49; 109]
  | ERROR => [27; 91; 51; 49; 59; 49; 109]
  | FATAL => [27; 91; 51; 49; 59; 49; 109]
  | IMPORTANT => [27; 91; 51; 55; 59; 49; 59; 52; 50; 109]
  end.

Definition level_prefix (l : LogLevel) : list Z :=
  match l with
  | DEBUG => [32; 32; 100; 101; 98; 117; 103; 58; 32]          (* "  debug: " *)
  | INFO => [32; 32; 32; 105; 110; 102; 111; 58; 32]
  | WARNING => [119; 97; 114; 110; 105; 110; 103; 58; 32]
  | ERROR => [32; 32; 101; 114; 114; 111; 114; 58; 32]
  | FATAL => [32; 32; 102; 97; 116; 97; 108; 58; 32]
  | IMPORTANT => [32; 110; 111; 116; 105; 99; 101; 58; 32]
  end.

Definition colour_reset : list Z := [27; 91; 51; 55; 59; 48; 109].

Section log.
Context {T : Type} `{Stream T}.

(** The conditional writes of [SysLog::message]. *)
Definition put_if (b : bool) (bs : list Z) (s : T) : result T :=
  if b then '(_, s) ← stream_write bs s; Ok s else Ok s.

(** [SysLog::message]. *)
Definition syslog_message (l : SysLog T) (level : LogLevel) (message : cstr) : result (SysLog T) :=
  if negb (log_enabled l) then Ok l else
  match log_stream l with
  | None => Ok l
  | Some s =>
      s ← put_if (log_colour l) (level_colour level) s;
      s ← put_if true (level_prefix level) s;
      s ← put_if (log_colour l && negb (bool_decide (level = IMPORTANT))) colour_reset s;
      n ← strlen (Some message);
      s ← put_if true (take (Z.to_nat n) message) s;
      s ← put_if (log_colour l && bool_decide (level = IMPORTANT)) colour_reset s;
      s ← put_if true [10] s;
      Ok (MkLog (log_enabled l) (log_colour l) (Some s))
  end.

(** [Log::messagef] of the system log; [junk] is what the buffer on the stack
    holds before. *)
Definition syslog_messagef (junk : Z) (l : SysLog T) (level : LogLevel) (fmt : cstr) (args : list arg)
    : result (SysLog T) :=
  if negb (log_enabled l) then Ok l else
  '(buffer, _) ← vsnprintf (replicate 512 junk) 512 fmt args;
  syslog_message l level buffer.

(** [ComponentLog]: its own switch, and the name of the component. *)
Record ComponentLog := MkCLog { clog_enabled : bool; component_name : cstr }.

Definition component_message (junk : Z) (c : ComponentLog) (l : SysLog T) (level : LogLevel) (message : cstr)
    : result (SysLog T) :=
  if negb (clog_enabled c) then Ok l else
  '(buffer, _) ← snprintf (replicate 512 junk) 512 [37; 115; 58; 32; 37; 115; 0] [AStr (component_name c); AStr message];
  syslog_message l level buffer.

Definition component_messagef (junk : Z) (c : ComponentLog) (l : SysLog T) (level : LogLevel) (fmt : cstr) (args : list arg)
    : result (SysLog T) :=
  if negb (clog_enabled c) then Ok l else
  '(buffer, _) ← vsnprintf (replicate 512 junk) 512 fmt args;
  component_message junk c l level buffer.
End log.

(** ** The early screen *)

Record EarlyScreen := MkES { _current_x : Z; _current_y : Z; _video_ram : list Z }.

Section screen.
Context {M : Type} `{PortIO M}.

(** [init]: the cursor of the display; the coordinates are bytes. *)
Definition early_init (s : EarlyScreen) (m : M) : EarlyScreen * M :=
  let m := __outb 0x3d4 0xf m in
  let '(lo, m) := __inb 0x3d5 m in
  let m := __outb 0x3d4 0xe m in
  let '(hi, m) := __inb 0x3d5 m in
  let position := u16 (Z.lor lo (Z.shiftl hi 8)) in
  (MkES (u8 (position mod 80)) (u8 (position / 80)) (_video_ram s), m).

Definition update_cursor (s : EarlyScreen) (m : M) : M :=
  let position := u16 (_current_x s + _current_y s * 80) in
  let m := __outb 0x3d4 0xf m in
  let m := __outb 0x3d5 position m in
  let m := __outb 0x3d4 0xe m in
  __outb 0x3d5 (Z.shiftr position 8) m.

(** [scroll]; [memcpy] goes upwards. *)
Definition early_scroll (ram : list Z) : result (list Z) :=
  ram ← for_range 0 (80 * (25 - 1)) (λ i b, c ← rd b (i + 80); wr b i c) ram;
  for_range 0 80 (λ x b, wr b (x + (25 - 1) * 80) 0) ram.

(** [clear]. *)
Definition early_clear (s : EarlyScreen) (m : M) : result (EarlyScreen * M) :=
  let s := MkES 0 0 (_video_ram s) in
  let m := update_cursor s m in
  ram ← for_range 0 25 (λ y, for_range 0 80 (λ x b, wr b (x + y * 80) 0)) (_video_ram s);
  Ok (MkES 0 0 ram, m).

(** The next line of a new line and of a full line. *)
Definition early_newline (s : EarlyScreen) : result EarlyScreen :=
  let y := u8 (_current_y s + 1) in
  if y =? 25 then ram ← early_scroll (_video_ram s); Ok (MkES 0 (u8 (25 - 1)) ram) else Ok (MkES 0 y (_video_ram s)).

(** [putch]; the character is a signed char. *)
Definition early_putch (attr c : Z) (s : EarlyScreen) (m : M) : result (EarlyScreen * M) :=
  s ← (if c =? 13 then Ok (MkES 0 (_current_y s) (_video_ram s))
       else if c =? 10 then early_newline s
       else
         ram ← wr (_video_ram s) (_current_x s + _current_y s * 80)
                  (u16 (Z.lor (Z.shiftl (Z.land attr 0xff) 8) c));
         let x := u8 (_current_x s + 1) in
         if x =? 80 then early_newline (MkES x (_current_y s) ram) else Ok (MkES x (_current_y s) ram));
  Ok (s, update_cursor s m).

(** [putstr]. *)
Fixpoint early_putstr (attr : Z) (str : cstr) (s : EarlyScreen) (m : M) : result (EarlyScreen * M) :=
  match str with
  | [] => Err OutOfBounds
  | c :: str' => if c =? 0 then Ok (s, m) else '(s, m) ← early_putch attr (s8 c) s m; early_putstr attr str' s m
  end.

Fixpoint early_chars (bs : list Z) (s : EarlyScreen) (m : M) : result (EarlyScreen * M) :=
  match bs with
  | [] => Ok (s, m)
  | b :: bs' => '(s, m) ← early_putch 0x07 (s8 b) s m; early_chars bs' s m
  end.

(** [write]: the loop counts the size down past zero, and that is returned. *)
Definition early_write (bs : list Z) (sm : EarlyScreen * M) : result (Z * (EarlyScreen * M)) :=
  '(s, m) ← early_chars bs sm.1 sm.2; Ok (s32 (u64 (0 - 1)), (s, m)).
End screen.

(** ** The log line *)

Section log_proofs.
Context {T : Type} `{StreamLaws T inv written}.

Lemma put_if_spec b bs s :
  inv s → Forall (fits 8) bs → ∃ s', put_if b bs s = Ok s' ∧ inv s' ∧ written s' = written s ++ (if b then bs else []).
Proof.
  intros Hs Hbs. unfold put_if. destruct b; [|exists s; by rewrite app_nil_r].
  destruct (write_appends bs s Hs Hbs) as (n & s' & -> & Hi & Hw). rewrite bind_Ok. by exists s'.
Qed.

(** The bytes of a line, with and without colours. *)
Definition log_line (colour : bool) (level : LogLevel) (text : list Z) : list Z :=
  if colour then
    if decide (level = IMPORTANT) then level_colour level ++ level_prefix level ++ text ++ colour_reset ++ [10]
    else level_colour level ++ level_prefix level ++ colour_reset ++ text ++ [10]
  else level_prefix level ++ text ++ [10].

Lemma syslog_message_spec l level text message s :
  log_enabled l = true → log_stream l = Some s → inv s → is_cstr text message → Forall (fits 8) text →
  Z.of_nat (length text) < 2 ^ 64 →
  ∃ s', syslog_message l level message = Ok (MkLog true (log_colour l) (Some s')) ∧ inv s' ∧
    written s' = written s ++ log_line (log_colour l) level text.
Proof.
  intros He Hst Hs Hc Hb Hlen. unfold syslog_message.
  assert (Hcol : ∀ v, Forall (fits 8) (level_colour v)) by (intros []; by apply (bool_decide_unpack _)).
  assert (Hpre : ∀ v, Forall (fits 8) (level_prefix v)) by (intros []; by apply (bool_decide_unpack _)).
  assert (Hres : Forall (fits 8) colour_reset) by by apply (bool_decide_unpack _).
  rewrite He, Hst. cbn [negb].
  destruct (put_if_spec (log_colour l) (level_colour level) s Hs (Hcol _)) as (s1 & -> & Hi1 & Hw1). rewrite bind_Ok.
  destruct (put_if_spec true (level_prefix level) s1 Hi1 (Hpre _)) as (s2 & -> & Hi2 & Hw2). rewrite bind_Ok.
  destruct (put_if_spec (log_colour l && negb (bool_decide (level = IMPORTANT))) colour_reset s2 Hi2 Hres)
    as (s3 & -> & Hi3 & Hw3). rewrite bind_Ok, (strlen_spec text message Hc Hlen), bind_Ok, Nat2Z.id.
  assert (take (length text) message = text) as -> by (destruct Hc as [_ [rest ->]]; by rewrite take_app_length).
  destruct (put_if_spec true text s3 Hi3 Hb) as (s4 & -> & Hi4 & Hw4). rewrite bind_Ok.
  destruct (put_if_spec (log_colour l && bool_decide (level = IMPORTANT)) colour_reset s4 Hi4 Hres)
    as (s5 & -> & Hi5 & Hw5). rewrite bind_Ok.
  destruct (put_if_spec true [10] s5 Hi5 ltac:(by repeat constructor)) as (s6 & -> & Hi6 & Hw6). rewrite bind_Ok.
  exists s6. split_and!; [done..|]. rewrite Hw6, Hw5, Hw4, Hw3, Hw2, Hw1. unfold log_line.
  destruct (log_colour l), (decide (level = IMPORTANT)) as [E|E];
    rewrite ?(bool_decide_true _ E), ?(bool_decide_false _ E); cbn [andb negb]; by rewrite ?app_nil_r, <- ?app_assoc.
Qed.

(** Formatting into a buffer of 512 bytes leaves a C string. *)
Lemma vsnprintf_text junk fmt args t :
  renders fmt args t → Forall (λ c, c ≠ 0) t →
  ∃ buffer n, vsnprintf (replicate 512 junk) 512 fmt args = Ok (buffer, n) ∧ is_cstr (take 511 t) buffer.
Proof.
  intros Hr Ht. unfold vsnprintf. cbn [Z.eqb].
  pose proof (format_text fmt args t [] (replicate 512 junk) 512 Hr ltac:(done) ltac:(rewrite length_replicate; cbn; lia)) as Hf.
  cbv zeta in Hf. cbn [app length] in Hf. change (Z.of_nat 0) with 0 in Hf. change (Z.to_nat (512 - 1 - 0)) with 511%nat in Hf.
  rewrite Hf.
  eexists _, _. split; [done|]. split; [by apply Forall_take|by eexists].
Qed.

(** A formatted message of a component reaches the stream of the system log as one
    line: the level, the name of the component, a colon and the text, of which the
    two buffers keep at most 511 bytes each; nothing is lost below that, and a
    log that is switched off writes nothing. *)
Theorem component_log_line junk c l level fmt args name text s :
  is_cstr name (component_name c) → renders fmt args text → Forall (λ b, b ≠ 0) text →
  Forall (fits 8) name → Forall (fits 8) text → log_enabled l = true → log_stream l = Some s → inv s →
  ∃ s', component_messagef junk c l level fmt args =
      Ok (if clog_enabled c then MkLog true (log_colour l) (Some s') else l) ∧ inv s' ∧
    written s' = written s ++ if clog_enabled c then
      log_line (log_colour l) level (take 511 (name ++ [58; 32] ++ take 511 text)) else [].
Proof.
  intros Hn Hr Ht Hbn Hbt He Hst Hs. unfold component_messagef, component_message.
  destruct (clog_enabled c); cbn [negb]; [|exists s; by rewrite app_nil_r].
  destruct (vsnprintf_text junk fmt args text Hr Ht) as (buf & n & -> & Hbuf). rewrite bind_Ok.
  destruct (vsnprintf_text junk [37; 115; 58; 32; 37; 115; 0] [AStr (component_name c); AStr buf]
              (name ++ [58; 32] ++ take 511 text)) as (buf2 & n2 & E & Hbuf2).
  - apply renders_str; [done|]. apply renders_char; [done..|]. apply renders_char; [done..|].
    rewrite <- (app_nil_r (take 511 text)). apply renders_str; [done|]. apply renders_end.
  - apply Forall_app. split; [apply Hn|]. apply Forall_app. split; [by repeat constructor|by apply Forall_take].
  - unfold snprintf. rewrite E, bind_Ok.
    apply (syslog_message_spec l level _ buf2 s He Hst Hs Hbuf2); [|rewrite length_take; lia].
    apply Forall_take, Forall_app. split; [done|]. apply Forall_app. split; [by repeat constructor|by apply Forall_take].
Qed.
End log_proofs.

(** ** Streams that keep their promise *)

(** What the emulator has received on its port. *)
Class QemuPort (M : Type) `{PortIO M} (received : M → list Z) := {
  qemu_receives v m : received (port_outb 0xe9 v m) = received m ++ [v] }.

#[export] Instance qemu_stream `{PortIO M} : Stream M := qemu_write.

Lemma qemu_bytes_spec `{QemuPort M received} bs m :
  Forall (fits 8) bs → received (qemu_bytes bs m) = received m ++ bs.
Proof.
  intros Hb. revert m. induction Hb as [|b bs Hb Hbs IH]; intros m; cbn [qemu_bytes]; [by rewrite app_nil_r|].
  rewrite IH. unfold __outb. rewrite swrap_wrap, (wrap_small 8 b), qemu_receives, <- app_assoc by done. done.
Qed.

(** The port is a stream for the log. *)
#[export] Instance qemu_laws `{QemuPort M received} : StreamLaws M (λ _, True) received.
Proof. split. intros bs m _ Hb. eexists _, _. split; [done|]. split; [done|by apply qemu_bytes_spec]. Qed.

(** ** The early screen *)

(** The cursor is on the screen, which is 80 by 25 cells. *)
Definition early_ok (s : EarlyScreen) : Prop :=
  0 ≤ _current_x s < 80 ∧ 0 ≤ _current_y s < 25 ∧ length (_video_ram s) = 2000%nat.

Lemma early_scroll_spec ram :
  length ram = 2000%nat → early_scroll ram = Ok (drop 80 ram ++ replicate 80 0).
Proof.
  intros Hl. unfold early_scroll. pose proof (shift_down ram 1920 80 ltac:(lia)) as Hs.
  change (Z.of_nat 1920) with (80 * (25 - 1)) in Hs. change (Z.of_nat 80) with 80 in Hs. rewrite Hs, bind_Ok.
  assert (Hd : length (take 1920 (drop 80 ram)) = 1920%nat) by (rewrite length_take, length_drop; lia).
  pose proof (fill_spec (take 1920 (drop 80 ram)) (drop 1920 ram) 80 0) as Hf. rewrite Hd in Hf.
  change (Z.of_nat 80) with 80 in Hf. change (Z.of_nat 1920) with ((25 - 1) * 80) in Hf.
  rewrite Hf by (rewrite length_drop; lia). by rewrite take_ge by (rewrite length_drop; lia).
Qed.

Lemma early_newline_ok s :
  0 ≤ _current_y s < 25 → length (_video_ram s) = 2000%nat →
  ∃ s', early_newline s = Ok s' ∧ early_ok s' ∧ _current_x s' = 0 ∧
    _video_ram s' = if decide (_current_y s = 24) then drop 80 (_video_ram s) ++ replicate 80 0 else _video_ram s.
Proof.
  intros Hy Hl. unfold early_newline. rewrite wrap_small by (unfold fits; lia).
  destruct (Z.eqb_spec (_current_y s + 1) 25) as [E|E].
  - rewrite early_scroll_spec, bind_Ok by done. eexists. split; [done|]. rewrite decide_True by lia.
    split; [|done]. change (u8 (25 - 1)) with 24. split; [cbn; lia|]. split; [cbn; lia|]. cbn [_video_ram].
    rewrite length_app, length_drop, length_replicate. lia.
  - eexists. split; [done|]. rewrite decide_False by lia. split; [|done]. split_and!; cbn; lia.
Qed.

Section screen_proofs.
Context {M : Type} `{PortIO M}.

(** [putch] stays on the screen; a character that is neither a new line nor a
    carriage return goes to the cell of the cursor. *)
Lemma early_putch_ok attr c s (m : M) :
  early_ok s → ∃ s' m', early_putch attr c s m = Ok (s', m') ∧ early_ok s'.
Proof.
  intros (Hx & Hy & Hl). unfold early_putch. destruct (c =? 13).
  { eexists _, _. split; [done|]. split_and!; cbn; lia. }
  destruct (c =? 10).
  { destruct (early_newline_ok s Hy Hl) as (s' & -> & Hok & _). by eexists _, _. }
  rewrite wr_total by lia. rewrite bind_Ok, wrap_small by (unfold fits; lia).
  destruct (Z.eqb_spec (_current_x s + 1) 80) as [E|E].
  - match goal with |- context [early_newline ?t] => destruct (early_newline_ok t) as (s' & -> & Hok & _) end;
      [done|cbn; by rewrite length_insert|]. by eexists _, _.
  - eexists _, _. split; [done|]. split_and!; cbn; rewrite ?length_insert; lia.
Qed.

Lemma early_chars_ok bs s (m : M) : early_ok s → ∃ s' m', early_chars bs s m = Ok (s', m') ∧ early_ok s'.
Proof.
  revert s m. induction bs as [|b bs IH]; intros s m Hs; cbn [early_chars]; [by eexists _, _|].
  destruct (early_putch_ok 0x07 (s8 b) s m Hs) as (s1 & m1 & -> & Hs1). rewrite bind_Ok. by apply IH.
Qed.

(** Whatever is written to the early screen stays inside its memory and leaves the
    cursor on the screen; but the number that is returned is always -1. *)
Theorem early_write_on_screen bs s (m : M) :
  early_ok s → ∃ s' m', early_write bs (s, m) = Ok (-1, (s', m')) ∧ early_ok s'.
Proof.
  intros Hs. unfold early_write. cbn [fst snd]. destruct (early_chars_ok bs s m Hs) as (s' & m' & -> & Hok).
  rewrite bind_Ok. by exists s', m'.
Qed.

(** Text within a line appears in the cells from the cursor on, white on black,
    and moves the cursor behind it. *)
Theorem early_text bs s (m : M) :
  early_ok s → Forall (λ b, 32 ≤ b < 128) bs → _current_x s + Z.of_nat (length bs) < 80 →
  let p := Z.to_nat (_current_x s + _current_y s * 80) in
  ∃ m', early_chars bs s m =
    Ok (MkES (_current_x s + Z.of_nat (length bs)) (_current_y s)
          (take p (_video_ram s) ++ map (Z.add 0x700) bs ++ drop (p + length bs) (_video_ram s)), m').
Proof.
  cbv zeta. intros (Hx & Hy & Hl) Hbs. revert s m Hx Hy Hl.
  induction Hbs as [|b bs Hb Hbs IH]; intros [x y ram] m Hx Hy Hl Hlen; cbn [_current_x _current_y _video_ram] in *.
  { exists m. cbn [early_chars length map app Z.of_nat]. by rewrite Z.add_0_r, Nat.add_0_r, take_drop. }
  cbn [early_chars length] in *. unfold early_putch. rewrite (swrap_small 8) by lia.
  rewrite (proj2 (Z.eqb_neq b 13)), (proj2 (Z.eqb_neq b 10)) by lia. cbn [_current_x _current_y _video_ram].
  rewrite wr_total, bind_Ok, (wrap_small 8) by (unfold fits; lia). cbv zeta. rewrite (proj2 (Z.eqb_neq _ 80)) by lia. rewrite bind_Ok.
  set (p := Z.to_nat (x + y * 80)). set (v := u16 _).
  assert (v = 0x700 + b) as ->.
  { unfold v. rewrite (lor_high_low 8 7) by (done || lia). apply wrap_small. change (Z.shiftl (Z.land 7 255) 8) with 0x700.
    unfold fits. lia. }
  rewrite ?bind_Ok. cbn beta iota.
  edestruct (IH (MkES (x + 1) y (<[p := 0x700 + b]> ram))) as (m' & ->); cbn [_current_x _current_y _video_ram];
    [lia|lia|by rewrite length_insert|lia|].
  exists m'. replace (Z.to_nat (x + 1 + y * 80)) with (S p) by lia.
  replace (x + Z.of_nat (S (length bs))) with (x + 1 + Z.of_nat (length bs)) by lia.
  rewrite drop_insert_lt by lia. erewrite take_S_r; [|apply list_lookup_insert_eq; lia]. rewrite take_insert_ge by lia.
  cbn [map]. rewrite <- app_assoc. cbn [app]. by rewrite Nat.add_succ_r, Nat.add_succ_l.
Qed.
End screen_proofs.

(** ** Witnesses *)

(** A machine that is what its port has received. *)
#[export] Instance list_port : PortIO (list Z) := {
  port_outb p v m := if p =? 0xe9 then m ++ [v] else m;
  port_outl _ _ m := m;
  port_inb _ m := (0, m);
  port_inw _ m := (0, m);
  port_inl _ m := (0, m);
  port_delay _ m := m }.

#[export] Instance list_port_laws : QemuPort (list Z) id.
Proof. by split. Qed.

(** "ok" from component "x" with "%s" and no colours. *)
Lemma component_log_line_witness :
  component_messagef 7 (MkCLog true [120; 0]) (MkLog true false (Some ([] : list Z))) INFO [37; 115; 0] [AStr [111; 107; 0]] =
    Ok (MkLog true false (Some (level_prefix INFO ++ [120; 58; 32; 111; 107; 10]))).
Proof.
  destruct (component_log_line (inv := λ _ : list Z, True) (written := id) 7 (MkCLog true [120; 0]) (MkLog true false (Some []))
              INFO [37; 115; 0] [AStr [111; 107; 0]] [120] ([111; 107] ++ []) []) as (s' & -> & _ & Hw).
  - split; [by repeat constructor|by exists []].
  - apply renders_str; [split; [by repeat constructor|by exists []]|apply renders_end].
  - by repeat constructor.
  - by apply (bool_decide_unpack _).
  - by apply (bool_decide_unpack _).
  - done.
  - done.
  - done.
  - cbn in Hw. by rewrite Hw.
Defined.

Definition fresh_screen : EarlyScreen := MkES 3 24 (replicate 2000 0).

Lemma fresh_screen_ok : early_ok fresh_screen.
Proof. split; [cbn; lia|]. split; [cbn; lia|apply length_replicate]. Qed.

(** A new line on the last line. *)
Lemma early_write_on_screen_witness :
  ∃ s' m', early_write [65; 10; 66] (fresh_screen, [] : list Z) = Ok (-1, (s', m')) ∧ early_ok s'.
Proof. exact (early_write_on_screen [65; 10; 66] fresh_screen [] fresh_screen_ok). Defined.

Lemma early_text_witness :
  ∃ s' m', early_chars [72; 105] fresh_screen ([] : list Z) = Ok (s', m') ∧ _video_ram s' !! 1923%nat = Some 0x748.
Proof.
  destruct (early_text [72; 105] fresh_screen ([] : list Z) fresh_screen_ok) as (m' & ->);
    [repeat constructor; lia|cbn; lia|].
  eexists _, m'. split; [reflexivity|]. vm_compute. reflexivity.
Defined.
