(* ===== verification/DlBase.v ===== *)
(** * The kernel heap: sizes, bins and chunks

    mm/dlmalloc.cpp, the allocator behind [new] and [delete], for the configuration of
    the kernel (64-bit, no footers, no locks, memory only from [mmap]).  This file has the
    sizes of chunks, the indices of the two kinds of bins, the words of a chunk, the state
    of the allocator, and what it means that memory holds a list of cells. *)

From S2P Require Import Prelude Define.
Local Open Scope Z_scope.

(** ** Sizes *)

Definition SIZE_T_SIZE : Z := 8.
Definition MALLOC_ALIGNMENT : Z := 2 * SIZE_T_SIZE.
Definition CHUNK_ALIGN_MASK : Z := MALLOC_ALIGNMENT - 1.
Definition CHUNK_OVERHEAD : Z := SIZE_T_SIZE.
Definition MIN_CHUNK_SIZE : Z := 32.
Definition MAX_REQUEST : Z := u64 (Z.shiftl (- MIN_CHUNK_SIZE) 2).
Definition MIN_REQUEST : Z := MIN_CHUNK_SIZE - CHUNK_OVERHEAD - 1.

Definition align_offset (a : Z) : Z :=
  if Z.land a CHUNK_ALIGN_MASK =? 0 then 0
  else Z.land (MALLOC_ALIGNMENT - Z.land a CHUNK_ALIGN_MASK) CHUNK_ALIGN_MASK.

Definition chunk2mem (p : Z) : Z := u64 (p + 16).
Definition mem2chunk (a : Z) : Z := u64 (a - 16).
Definition align_as_chunk (a : Z) : Z := u64 (a + align_offset (chunk2mem a)).

Definition pad_request (req : Z) : Z := Z.land (u64 (u64 (req + CHUNK_OVERHEAD) + CHUNK_ALIGN_MASK)) (u64 (Z.lnot CHUNK_ALIGN_MASK)).
Definition request2size (req : Z) : Z := if req <? MIN_REQUEST then MIN_CHUNK_SIZE else pad_request req.

(** ** Bins *)

Definition NSMALLBINS : Z := 32.
Definition NTREEBINS : Z := 32.
Definition MIN_LARGE_SIZE : Z := 256.
Definition MAX_SMALL_REQUEST : Z := MIN_LARGE_SIZE - 1 - CHUNK_ALIGN_MASK - CHUNK_OVERHEAD.

Definition is_small (s : Z) : bool := Z.shiftr s 3 <? NSMALLBINS.
Definition small_index (s : Z) : Z := u32 (Z.shiftr s 3).
Definition small_index2size (i : Z) : Z := u32 (Z.shiftl i 3).

(** [compute_tree_index]; the shifted size is cut to 32 bits. *)
Definition compute_tree_index (s : Z) : Z :=
  let x := u32 (Z.shiftr s 8) in
  if x =? 0 then 0
  else if 0xFFFF <? x then NTREEBINS - 1
  else let k := Z.log2 x in Z.shiftl k 1 + Z.land (Z.shiftr s (k + 7)) 1.

Definition leftshift_for_tree_index (i : Z) : Z :=
  if i =? NTREEBINS - 1 then 0 else 63 - (Z.shiftr i 1 + 8 - 2).

Definition minsize_for_tree_index (i : Z) : Z :=
  Z.lor (Z.shiftl 1 (Z.shiftr i 1 + 8)) (Z.shiftl (Z.land i 1) (Z.shiftr i 1 + 8 - 1)).

Definition idx2bit (i : Z) : Z := u32 (Z.shiftl 1 i).
Definition least_bit (x : Z) : Z := Z.land x (u32 (- x)).
Definition left_bits (x : Z) : Z := Z.lor (u32 (Z.shiftl x 1)) (u32 (- u32 (Z.shiftl x 1))).

(** [compute_bit2idx], for a word with one bit: the number of trailing zeros. *)
Definition compute_bit2idx (x : Z) : Z := Z.log2 (least_bit x).

(** ** What the sizes and indices mean *)

Lemma land_mask16 x : 0 ≤ x < 2 ^ 64 → Z.land x (u64 (Z.lnot CHUNK_ALIGN_MASK)) = x - x mod 16.
Proof.
  intros Hx. change (u64 (Z.lnot CHUNK_ALIGN_MASK)) with (Z.ldiff (Z.ones 64) (Z.ones 4)).
  rewrite Z.ldiff_land, Z.land_assoc, Z.land_ones, (Z.mod_small x) by lia.
  rewrite <- Z.ldiff_land, Z.ldiff_ones_r, Z.shiftl_mul_pow2, Z.shiftr_div_pow2 by lia.
  change (2 ^ 4) with 16. pose proof (Z.div_mod x 16). lia.
Qed.

(** A request becomes a chunk that has room for it and one word, aligned and with less
    than 16 bytes to spare unless it has the least size. *)
Lemma request2size_spec req :
  0 ≤ req < MAX_REQUEST →
  request2size req mod 16 = 0 ∧ MIN_CHUNK_SIZE ≤ request2size req < 2 ^ 64 ∧ req + CHUNK_OVERHEAD ≤ request2size req ∧
  (MIN_CHUNK_SIZE < request2size req → request2size req < req + CHUNK_OVERHEAD + MALLOC_ALIGNMENT).
Proof.
  change MAX_REQUEST with (2 ^ 64 - 128). intros Hr. unfold request2size, pad_request.
  change MIN_REQUEST with 23. change MIN_CHUNK_SIZE with 32. change CHUNK_OVERHEAD with 8. change MALLOC_ALIGNMENT with 16.
  change (u64 (u64 (req + 8) + CHUNK_ALIGN_MASK)) with (u64 (u64 (req + 8) + 15)). rewrite !wrap_small by (unfold fits; rewrite ?wrap_small; unfold fits; lia).
  destruct (Z.ltb_spec req 23); [split_and!; done || lia|]. rewrite land_mask16 by lia.
  pose proof (Z.mod_pos_bound (req + 8 + 15) 16 ltac:(lia)). pose proof (Z.div_mod (req + 8 + 15) 16 ltac:(lia)) as E.
  split_and!; try lia. replace (_ - _) with ((req + 8 + 15) / 16 * 16) by lia. apply Z.mod_mul. lia.
Qed.

(** The sizes that the tree bins sort: [bin_low i] is the least size of bin [i], and the
    bits of a size from [bin_bit i] on downwards tell the sizes of the bin apart. *)
Definition bin_bit (i : Z) : Z := 63 - leftshift_for_tree_index i.
Definition bin_low (i : Z) : Z := if i =? NTREEBINS - 1 then 0 else minsize_for_tree_index i.

Lemma minsize_value i :
  0 ≤ i < 64 → minsize_for_tree_index i = 2 ^ (i / 2 + 8) + (i mod 2) * 2 ^ (i / 2 + 7).
Proof.
  intros Hi. assert (Forall (λ i, minsize_for_tree_index i = 2 ^ (i / 2 + 8) + (i mod 2) * 2 ^ (i / 2 + 7)) (seqZ 0 64)) as Hall
    by (apply (bool_decide_unpack _); vm_compute; exact I).
  rewrite Forall_forall in Hall. apply Hall, elem_of_seqZ. lia.
Qed.

Lemma bin_range i : 0 ≤ i < 31 → bin_low i = minsize_for_tree_index i ∧ bin_bit i = i / 2 + 6.
Proof.
  intros Hi. unfold bin_low, bin_bit, leftshift_for_tree_index. change (NTREEBINS - 1) with 31. rewrite (proj2 (Z.eqb_neq _ _)) by lia.
  rewrite Z.shiftr_div_pow2 by lia. change (2 ^ 1) with 2. split; [done|lia].
Qed.

(** The index of a size: the sizes of bin [i] are the [2 ^ (bin_bit i + 1)] ones from
    [bin_low i] on, and the last bin has all larger ones. *)
Lemma tree_index_spec s :
  MIN_LARGE_SIZE ≤ s < 2 ^ 40 →
  0 ≤ compute_tree_index s < NTREEBINS ∧ minsize_for_tree_index (compute_tree_index s) ≤ s ∧
  (compute_tree_index s < 31 → s < minsize_for_tree_index (compute_tree_index s + 1)).
Proof.
  change MIN_LARGE_SIZE with 256. change NTREEBINS with 32. intros Hs. unfold compute_tree_index. rewrite Z.shiftr_div_pow2 by lia. change (2 ^ 8) with 256.
  assert (1 ≤ s / 256 < 2 ^ 32) as Hx by (split; [apply Z.div_le_lower_bound|apply Z.div_lt_upper_bound]; lia).
  rewrite wrap_small by (unfold fits; lia). rewrite (proj2 (Z.eqb_neq _ _)) by lia. pose proof (Z.div_mod s 256 ltac:(lia)).
  pose proof (Z.mod_pos_bound s 256 ltac:(lia)). destruct (Z.ltb_spec 0xFFFF (s / 256)) as [Hbig|Hsm].
  { change (NTREEBINS - 1) with 31. rewrite minsize_value by lia. change (2 ^ (31 / 2 + 8) + 31 mod 2 * 2 ^ (31 / 2 + 7)) with (2 ^ 23 + 2 ^ 22). lia. }
  set (x := s / 256) in *. pose proof (Z.log2_spec x ltac:(lia)) as Hlog. set (k := Z.log2 x) in *.
  assert (0 ≤ k) by apply Z.log2_nonneg. assert (k < 16). { destruct (Z.lt_ge_cases k 16); [done|]. pose proof (Z.pow_le_mono_r 2 16 k ltac:(lia) ltac:(lia)). lia. }
  rewrite Z.shiftr_div_pow2, Z.shiftl_mul_pow2 by lia. assert (∀ y, Z.land y 1 = y mod 2) as -> by (intros y; exact (Z.land_ones y 1 ltac:(lia))).
  change (2 ^ 1) with 2.
  set (b := s / 2 ^ (k + 7) mod 2). assert (b = 0 ∨ b = 1) as Hb by (pose proof (Z.mod_pos_bound (s / 2 ^ (k + 7)) 2); lia).
  pose proof (pow2_pos (k + 7) ltac:(lia)).
  assert (2 ^ (k + 8) = 2 * 2 ^ (k + 7)) as E8 by (replace (k + 8) with (Z.succ (k + 7)) by lia; rewrite Z.pow_succ_r by lia; lia).
  assert (2 ^ (k + 9) = 4 * 2 ^ (k + 7)) as E9 by (replace (k + 9) with (Z.succ (k + 8)) by lia; rewrite Z.pow_succ_r by lia; lia).
  assert (2 ^ (k + 8) ≤ s < 2 ^ (k + 9)) as Hr.
  { rewrite Z.pow_succ_r in Hlog by lia. rewrite !Z.pow_add_r by lia. change (2 ^ 8) with 256. change (2 ^ 9) with 512. lia. }
  assert (s / 2 ^ (k + 7) = 2 + b) as Eq.
  { assert (2 ≤ s / 2 ^ (k + 7) < 4) by (split; [apply Z.div_le_lower_bound|apply Z.div_lt_upper_bound]; lia).
    unfold b. assert (s / 2 ^ (k + 7) = 2 ∨ s / 2 ^ (k + 7) = 3) as [->| ->] by lia; done. }
  pose proof (Z.div_mod s (2 ^ (k + 7)) ltac:(lia)) as Ed. rewrite Eq in Ed. pose proof (Z.mod_pos_bound s (2 ^ (k + 7)) ltac:(lia)).
  assert ((k * 2 + b) / 2 = k ∧ (k * 2 + b) mod 2 = b) as [Ek Em].
  { split; [rewrite Z.div_add_l by lia; rewrite (Z.div_small b 2) by lia; lia|rewrite Z.add_comm, Z.mod_add by lia; apply Z.mod_small; lia]. }
  split_and!; [lia|lia| |].
  - rewrite minsize_value by lia. rewrite Ek, Em. nia.
  - intros Hlt. rewrite minsize_value by lia. destruct Hb as [-> | ->].
    + replace ((k * 2 + 0 + 1) / 2) with k by (rewrite Z.add_0_r, Z.div_add_l by lia; change (1 / 2) with 0; lia).
      replace ((k * 2 + 0 + 1) mod 2) with 1 by (rewrite Z.add_0_r, Z.add_comm, Z.mod_add by lia; reflexivity). lia.
    + replace (k * 2 + 1 + 1) with ((k + 1) * 2) by lia. rewrite Z.div_mul, Z.mod_mul by lia. replace (k + 1 + 8) with (k + 9) by lia. lia.
Qed.

(** ** Memory and the state of the allocator *)

(** The words of memory, by address. *)
Definition words := Z → Z.
Definition upd (w : words) (a v : Z) : words := λ b, if b =? a then v else w b.

Definition prev_foot (p : Z) : Z := p.
Definition head_ (p : Z) : Z := p + 8.
Definition fd (p : Z) : Z := p + 16.
Definition bk (p : Z) : Z := p + 24.
Definition child (p i : Z) : Z := p + 32 + 8 * i.
Definition parent (p : Z) : Z := p + 48.
Definition index (p : Z) : Z := p + 56.

Definition PINUSE_BIT : Z := 1.
Definition CINUSE_BIT : Z := 2.
Definition FLAG_BITS : Z := 7.
Definition chunksize (w : words) (p : Z) : Z := Z.land (w (head_ p)) (u64 (Z.lnot FLAG_BITS)).

(** [struct malloc_segment], which lies in memory too. *)
Definition seg_base (sp : Z) : Z := sp.
Definition seg_size (sp : Z) : Z := sp + 8.
Definition seg_next (sp : Z) : Z := sp + 16.
Definition seg_flags (sp : Z) : Z := sp + 24.

(** [struct malloc_state], and in [ready] whether the parameters are set.  The arrays of
    bins and the segment record [seg] are words of [mem], at 72, 600 and 888 bytes behind
    the address of the structure, since the code takes them for chunks and list nodes.
    All addresses of words are multiples of 8. *)
Record mstate := MkM {
  smallmap : Z; treemap : Z; dvsize : Z; topsize : Z; least_addr : Z; dv : Z; top : Z; trim_check : Z; release_checks : Z;
  footprint : Z; max_footprint : Z; footprint_limit : Z; mflags : Z; ready : bool; mem : words }.

Definition with_mem (m : mstate) (w : words) : mstate :=
  MkM (smallmap m) (treemap m) (dvsize m) (topsize m) (least_addr m) (dv m) (top m) (trim_check m) (release_checks m) (footprint m) (max_footprint m) (footprint_limit m) (mflags m) (ready m) w.
Definition with_smallmap (m : mstate) (b : Z) : mstate :=
  MkM b (treemap m) (dvsize m) (topsize m) (least_addr m) (dv m) (top m) (trim_check m) (release_checks m) (footprint m) (max_footprint m) (footprint_limit m) (mflags m) (ready m) (mem m).
Definition with_treemap (m : mstate) (b : Z) : mstate :=
  MkM (smallmap m) b (dvsize m) (topsize m) (least_addr m) (dv m) (top m) (trim_check m) (release_checks m) (footprint m) (max_footprint m) (footprint_limit m) (mflags m) (ready m) (mem m).
Definition with_dv (m : mstate) (p s : Z) : mstate :=
  MkM (smallmap m) (treemap m) s (topsize m) (least_addr m) p (top m) (trim_check m) (release_checks m) (footprint m) (max_footprint m) (footprint_limit m) (mflags m) (ready m) (mem m).
Definition with_top (m : mstate) (p s : Z) : mstate :=
  MkM (smallmap m) (treemap m) (dvsize m) s (least_addr m) (dv m) p (trim_check m) (release_checks m) (footprint m) (max_footprint m) (footprint_limit m) (mflags m) (ready m) (mem m).
Definition with_least (m : mstate) (a : Z) : mstate :=
  MkM (smallmap m) (treemap m) (dvsize m) (topsize m) a (dv m) (top m) (trim_check m) (release_checks m) (footprint m) (max_footprint m) (footprint_limit m) (mflags m) (ready m) (mem m).
Definition with_trim (m : mstate) (v : Z) : mstate :=
  MkM (smallmap m) (treemap m) (dvsize m) (topsize m) (least_addr m) (dv m) (top m) v (release_checks m) (footprint m) (max_footprint m) (footprint_limit m) (mflags m) (ready m) (mem m).
Definition with_release (m : mstate) (v : Z) : mstate :=
  MkM (smallmap m) (treemap m) (dvsize m) (topsize m) (least_addr m) (dv m) (top m) (trim_check m) v (footprint m) (max_footprint m) (footprint_limit m) (mflags m) (ready m) (mem m).
Definition with_footprint (m : mstate) (v u : Z) : mstate :=
  MkM (smallmap m) (treemap m) (dvsize m) (topsize m) (least_addr m) (dv m) (top m) (trim_check m) (release_checks m) v u (footprint_limit m) (mflags m) (ready m) (mem m).
Definition with_flags (m : mstate) (v : Z) : mstate :=
  MkM (smallmap m) (treemap m) (dvsize m) (topsize m) (least_addr m) (dv m) (top m) (trim_check m) (release_checks m) (footprint m) (max_footprint m) (footprint_limit m) v true (mem m).

(** Writes one field. *)
Definition put (m : mstate) (a v : Z) : mstate := with_mem m (upd (mem m) a v).

Definition ok_address (m : mstate) (a : Z) : bool := least_addr m <=? a.

(** Several writes, in order. *)
Fixpoint writes (w : words) (us : list (Z * Z)) : words :=
  match us with [] => w | (a, v) :: us => writes (upd w a v) us end.
Definition puts (m : mstate) (us : list (Z * Z)) : mstate := with_mem m (writes (mem m) us).

(** ** Cells *)

(** Memory holds each of the cells, given as an address and a value. *)
Definition sat (w : words) (c : list (Z * Z)) : Prop := Forall (λ e, w e.1 = e.2) c.

Lemma sat_app w c1 c2 : sat w (c1 ++ c2) ↔ sat w c1 ∧ sat w c2.
Proof. apply Forall_app. Qed.

Lemma sat_cons w e c : sat w (e :: c) ↔ w e.1 = e.2 ∧ sat w c.
Proof. apply Forall_cons_iff. Qed.

#[export] Instance sat_proper w : Proper ((≡ₚ) ==> iff) (sat w).
Proof. intros c1 c2 H. unfold sat. rewrite H. done. Qed.

Lemma upd_same w a v : upd w a v a = v.
Proof. unfold upd. rewrite Z.eqb_refl. done. Qed.

Lemma upd_other w a v b : b ≠ a → upd w a v b = w b.
Proof. intros H. unfold upd. rewrite (proj2 (Z.eqb_neq _ _)) by done. done. Qed.

Lemma writes_other w us b : b ∉ us.*1 → writes w us b = w b.
Proof.
  revert w. induction us as [|[a v] us IH]; intros w Hb; [done|]. simpl in *. apply not_elem_of_cons in Hb as [H1 H2].
  rewrite IH by done. apply upd_other. done.
Qed.

(** Cells that are not written stay, and cells that are written hold what was written. *)
Lemma sat_frame w us c : (∀ a, a ∈ c.*1 → a ∉ us.*1) → sat w c → sat (writes w us) c.
Proof.
  intros Hd Hc. unfold sat in *. rewrite Forall_forall in *. intros e He. rewrite writes_other; [apply Hc, He|].
  apply Hd, list_elem_of_fmap. eauto.
Qed.

Lemma sat_writes w us c : NoDup ((us ++ c).*1) → sat w c → sat (writes w us) (us ++ c).
Proof.
  rewrite fmap_app, NoDup_app. intros (Hu & Hd & _) Hc. apply sat_app. split.
  - clear Hd Hc c. revert w. induction us as [|[a v] us IH]; intros w; [constructor|]. simpl in *. apply NoDup_cons in Hu as [Ha Hu].
    apply sat_cons. split; [|apply IH, Hu]. simpl. rewrite writes_other by done. apply upd_same.
  - apply sat_frame; [|done]. intros a H1 H2. apply (Hd a H2 H1).
Qed.

(** Different nodes do not share words. *)
Definition spaced (n : Z) (l : list Z) : Prop := ∀ x y, x ∈ l → y ∈ l → x ≠ y → x + n ≤ y ∨ y + n ≤ x.

(** The words of nodes, at some offsets within [n] bytes. *)
Definition fields (offs : list Z) (l : list Z) : list Z := l ≫= λ x, (λ o, x + o) <$> offs.

Lemma elem_fields offs l a : a ∈ fields offs l ↔ ∃ x o, x ∈ l ∧ o ∈ offs ∧ a = x + o.
Proof. unfold fields. rewrite list_elem_of_bind. setoid_rewrite list_elem_of_fmap. naive_solver. Qed.

Lemma fields_NoDup k n offs l :
  Forall (λ o, k ≤ o < k + n) offs → NoDup offs → NoDup l → spaced n l → NoDup (fields offs l).
Proof.
  intros Ho Hn Hl Hs. induction Hl as [|x l Hx Hl IH]; [constructor|]. change (fields offs (x :: l)) with (((λ o, x + o) <$> offs) ++ fields offs l).
  apply NoDup_app. split_and!.
  - apply NoDup_fmap_2; [|done]. intros a b E. lia.
  - intros a. rewrite list_elem_of_fmap, elem_fields. intros (o & -> & H1) (y & o' & H2 & H3 & E). rewrite Forall_forall in Ho.
    pose proof (Ho o H1). pose proof (Ho o' H3). assert (x ≠ y) by (intros ->; done). destruct (Hs x y); [left|by right|done|lia|lia].
  - apply IH. intros a b H1 H2. apply Hs; by right.
Qed.

(** ** Bit maps *)

Lemma idx2bit_pow i : 0 ≤ i < 32 → idx2bit i = 2 ^ i.
Proof.
  intros Hi. unfold idx2bit. rewrite Z.shiftl_mul_pow2, Z.mul_1_l by lia. apply wrap_small. split; [lia|]. apply Z.pow_lt_mono_r; lia.
Qed.

Lemma mark_bit b i j : 0 ≤ i < 32 → Z.testbit (Z.lor b (idx2bit i)) j = Z.testbit b j || (j =? i).
Proof.
  intros Hi. rewrite idx2bit_pow, Z.lor_spec by done. f_equal. destruct (Z.eqb_spec j i) as [->|Hj].
  - apply Z.pow2_bits_true. lia.
  - apply Z.pow2_bits_false. lia.
Qed.

Lemma marked_bit b i : 0 ≤ i < 32 → (Z.land b (idx2bit i) =? 0) = negb (Z.testbit b i).
Proof.
  intros Hi. destruct (Z.testbit b i) eqn:E; simpl.
  - apply Z.eqb_neq. intros E0. apply (f_equal (λ x, Z.testbit x i)) in E0. rewrite Z.land_spec, E, idx2bit_pow, Z.pow2_bits_true, Z.testbit_0_l in E0 by lia. done.
  - apply Z.eqb_eq, Z.bits_inj'. intros n Hn. rewrite Z.land_spec, idx2bit_pow, Z.testbit_0_l by done. destruct (Z.eq_dec n i) as [->|Hne]; [rewrite E; done|].
    rewrite Z.pow2_bits_false by done. apply andb_false_r.
Qed.

Lemma clear_bit b i j : 0 ≤ i < 32 → 0 ≤ j < 32 → Z.testbit (Z.land b (u32 (Z.lnot (idx2bit i)))) j = Z.testbit b j && negb (j =? i).
Proof.
  intros Hi Hj. rewrite Z.land_spec. f_equal. unfold wrap. rewrite Z.mod_pow2_bits_low, Z.lnot_spec, idx2bit_pow by lia. f_equal.
  destruct (Z.eqb_spec j i) as [->|Hne]; [apply Z.pow2_bits_true; lia|apply Z.pow2_bits_false; lia].
Qed.

Lemma lor_word w a b : 0 ≤ w → fits w a → fits w b → fits w (Z.lor a b).
Proof.
  unfold fits. intros Hw Ha Hb. split; [apply Z.lor_nonneg; lia|].
  assert (Z.lor a b = Z.lor a b mod 2 ^ w) as ->; [|apply Z.mod_pos_bound, pow2_pos, Hw].
  rewrite <- (Z.mod_small a (2 ^ w)), <- (Z.mod_small b (2 ^ w)) by lia. rewrite <- !Z.land_ones by done. rewrite <- Z.land_lor_distr_l, <- Z.land_assoc, Z.land_diag. done.
Qed.

Lemma land_word w a b : 0 ≤ w → fits w a → 0 ≤ b → fits w (Z.land a b).
Proof.
  unfold fits. intros Hw Ha Hb. split; [apply Z.land_nonneg; lia|].
  assert (Z.land a b = Z.land a b mod 2 ^ w) as ->; [|apply Z.mod_pos_bound, pow2_pos, Hw].
  rewrite <- (Z.mod_small a (2 ^ w)) at 1 by lia. rewrite <- !Z.land_ones by done.
  rewrite <- !Z.land_assoc. f_equal. apply Z.land_comm.
Qed.

(** ** The lowest bit of a map *)

Lemma first_bit x n : (∃ j, 0 ≤ j < Z.of_nat n ∧ Z.testbit x j = true) → ∃ k, 0 ≤ k < Z.of_nat n ∧ Z.testbit x k = true ∧ ∀ j, 0 ≤ j < k → Z.testbit x j = false.
Proof.
  induction n as [|n IH]; intros (j & Hj & Hb); [lia|]. destruct (decide (Exists (λ j, Z.testbit x j = true) (seqZ 0 (Z.of_nat n)))) as [(i & Hi & Hb')%Exists_exists|Hno].
  - apply elem_of_seqZ in Hi. destruct IH as (k & Hk & Hkb & Hmin); [exists i; split; [lia|done]|]. exists k. split_and!; [lia|lia|done|done].
  - exists (Z.of_nat n). assert (∀ i, 0 ≤ i < Z.of_nat n → Z.testbit x i = false) as Hall.
    { intros i Hi. destruct (Z.testbit x i) eqn:E; [|done]. destruct Hno. apply Exists_exists. exists i. split; [apply elem_of_seqZ; lia|done]. }
    split_and!; [lia|lia| |done]. destruct (Z.eq_dec j (Z.of_nat n)) as [->|]; [done|]. rewrite Hall in Hb by lia. done.
Qed.

Lemma low_zero x k : 0 ≤ k → (∀ j, 0 ≤ j < k → Z.testbit x j = false) → x mod 2 ^ k = 0.
Proof.
  intros Hk Hz. apply Z.bits_inj'. intros j Hj. rewrite Z.testbit_0_l. destruct (Z.lt_ge_cases j k).
  - rewrite Z.mod_pow2_bits_low by lia. apply Hz. lia.
  - apply Z.mod_pow2_bits_high. lia.
Qed.

Lemma least_bit_spec x :
  0 < x < 2 ^ 32 → ∃ k, 0 ≤ k < 32 ∧ least_bit x = 2 ^ k ∧ Z.testbit x k = true ∧ ∀ j, 0 ≤ j < k → Z.testbit x j = false.
Proof.
  intros Hx. destruct (first_bit x 32) as (k & Hk & Hb & Hmin).
  { exists (Z.log2 x). split; [|apply Z.bit_log2; lia]. split; [apply Z.log2_nonneg|]. apply Z.log2_lt_pow2; lia. }
  exists k. split_and!; [lia|lia| |done|done]. pose proof (low_zero x k ltac:(lia) Hmin) as Hm. pose proof (pow2_pos k ltac:(lia)) as Hp.
  assert (x mod 2 ^ k = 0) as _ by done. pose proof (Z.div_mod x (2 ^ k) ltac:(lia)) as Ed. rewrite Hm, Z.add_0_r in Ed.
  assert (Z.odd (x / 2 ^ k) = true) as Ho by (rewrite <- Z.shiftr_div_pow2, <- Z.testbit_odd by lia; done).
  apply Z.odd_spec in Ho as [q Eq]. rewrite Eq in Ed.
  assert (2 ^ (k + 1) = 2 * 2 ^ k) as E1 by (rewrite Z.pow_add_r by lia; lia).
  assert ((x - 1) / 2 ^ (k + 1) = q ∧ x / 2 ^ (k + 1) = q) as [Eh1 Eh2].
  { rewrite E1. split; symmetry; [apply (Z.div_unique _ _ _ (2 ^ k - 1))|apply (Z.div_unique _ _ _ (2 ^ k))]; lia. }
  unfold least_bit. apply Z.bits_inj'. intros j Hj. rewrite Z.land_spec. unfold wrap. destruct (Z.lt_ge_cases j 32) as [Hj32|Hj32].
  - rewrite Z.mod_pow2_bits_low by lia. replace (- x) with (Z.lnot (x - 1)) by (unfold Z.lnot; lia). rewrite Z.lnot_spec by lia.
    destruct (Z.lt_trichotomy j k) as [Hlt|[->|Hgt]].
    + rewrite Hmin, Z.pow2_bits_false by lia. done.
    + rewrite Hb, Z.pow2_bits_true by lia. simpl. apply negb_true_iff. rewrite Z.testbit_odd, Z.shiftr_div_pow2 by lia.
      replace ((x - 1) / 2 ^ k) with (2 * q) by (apply (Z.div_unique _ _ _ (2 ^ k - 1)); lia). rewrite Z.odd_mul. done.
    + rewrite Z.pow2_bits_false by lia. replace j with ((j - (k + 1)) + (k + 1)) by lia. rewrite <- !Z.div_pow2_bits by lia. rewrite Eh1, Eh2. destruct (Z.testbit q (j - (k + 1))); done.
  - rewrite Z.mod_pow2_bits_high, Z.pow2_bits_false by lia. apply andb_false_r.
Qed.

Lemma bit2idx_spec x :
  0 < x < 2 ^ 32 → let k := compute_bit2idx (least_bit x) in 0 ≤ k < 32 ∧ Z.testbit x k = true ∧ ∀ j, 0 ≤ j < k → Z.testbit x j = false.
Proof.
  intros Hx. destruct (least_bit_spec x Hx) as (k & Hk & E & Hb & Hmin). unfold compute_bit2idx. rewrite E.
  assert (least_bit (2 ^ k) = 2 ^ k) as ->.
  { destruct (least_bit_spec (2 ^ k)) as (k' & Hk' & E' & Hb' & _); [split; [apply pow2_pos; lia|apply Z.pow_lt_mono_r; lia]|]. rewrite E'. f_equal.
    rewrite Z.pow2_bits_eqb in Hb' by lia. apply Z.eqb_eq in Hb'. done. }
  rewrite Z.log2_pow2 by lia. done.
Qed.

Lemma left_bits_spec i j : 0 ≤ i < 32 → 0 ≤ j < 32 → Z.testbit (left_bits (idx2bit i)) j = (i <? j).
Proof.
  intros Hi Hj. assert (Forall (λ i, Forall (λ j, Z.testbit (left_bits (idx2bit i)) j = (i <? j)) (seqZ 0 32)) (seqZ 0 32)) as H by (apply (bool_decide_unpack _); vm_compute; exact I).
  rewrite Forall_forall in H. specialize (H i ltac:(apply elem_of_seqZ; lia)). simpl in H. rewrite Forall_forall in H. apply H, elem_of_seqZ. lia.
Qed.

Lemma left_bits_nonneg i : 0 ≤ i < 32 → 0 ≤ left_bits (idx2bit i).
Proof. intros Hi. unfold left_bits. apply Z.lor_nonneg. split; apply Z.mod_pos_bound; done. Qed.
