(* ===== verification/DlSmall.v ===== *)
(** * The kernel heap: small bins

    mm/dlmalloc.cpp: the rings of small free chunks, one for each size below 256, and the
    map of the bins that are not empty.  The operations refine a list of chunks per bin. *)

From S2P Require Import Prelude Define DlBase.
Local Open Scope Z_scope.

(** ** Operations *)

Section small.
(** The address of the global [malloc_state]; the arrays of bins start 72 and 600 bytes
    behind it. *)
Context (gm : Z).

Definition smallbin_at (i : Z) : Z := gm + 72 + 8 * Z.shiftl i 1.
Definition treebin_at (i : Z) : Z := gm + 600 + 8 * i.

Definition insert_small_chunk (p s : Z) (m : mstate) : result mstate :=
  let i := small_index s in
  let b := smallbin_at i in
  _ ← cassert (MIN_CHUNK_SIZE <=? s);
  '(f, m) ← (if Z.land (smallmap m) (idx2bit i) =? 0 then Ok (b, with_smallmap m (Z.lor (smallmap m) (idx2bit i)))
             else if ok_address m (mem m (fd b)) then Ok (mem m (fd b), m) else Err Aborted);
  Ok (put (put (put (put m (fd b) p) (bk f) p) (fd p) f) (bk p) b).

Definition unlink_small_chunk (p s : Z) (m : mstate) : result mstate :=
  let f := mem m (fd p) in
  let b := mem m (bk p) in
  let i := small_index s in
  _ ← cassert (negb (p =? b));
  _ ← cassert (negb (p =? f));
  _ ← cassert (chunksize (mem m) p =? small_index2size i);
  if (f =? smallbin_at i) || (ok_address m f && (mem m (bk f) =? p)) then
    if b =? f then Ok (with_smallmap m (Z.land (smallmap m) (u32 (Z.lnot (idx2bit i)))))
    else if (b =? smallbin_at i) || (ok_address m b && (mem m (fd b) =? p)) then Ok (put (put m (bk f) b) (fd b) f)
    else Err Aborted
  else Err Aborted.

Definition unlink_first_small_chunk (b p i : Z) (m : mstate) : result mstate :=
  let f := mem m (fd p) in
  _ ← cassert (negb (p =? b));
  _ ← cassert (negb (p =? f));
  _ ← cassert (chunksize (mem m) p =? small_index2size i);
  if b =? f then Ok (with_smallmap m (Z.land (smallmap m) (u32 (Z.lnot (idx2bit i)))))
  else if ok_address m f && (mem m (bk f) =? p) then Ok (put (put m (bk f) b) (fd b) f)
  else Err Aborted.

Definition replace_dv (p s : Z) (m : mstate) : result mstate :=
  let dvs := dvsize m in
  _ ← cassert (is_small dvs);
  m ← (if negb (dvs =? 0) then insert_small_chunk (dv m) dvs m else Ok m);
  Ok (with_dv m p s).
End small.

(** ** Rings *)

(** Nodes that are linked in both directions. *)
Fixpoint chain_cells (c : list Z) : list (Z * Z) :=
  match c with
  | a :: ((b :: _) as c') => (fd a, b) :: (bk b, a) :: chain_cells c'
  | _ => []
  end.

(** The nodes of [l], in a ring through [b]. *)
Definition ring_cells (b : Z) (l : list Z) : list (Z * Z) := chain_cells (b :: l ++ [b]).

Definition links : list Z → list Z := fields [16; 24].

Lemma chain_app c1 a b c2 : chain_cells (c1 ++ a :: b :: c2) = chain_cells (c1 ++ [a]) ++ (fd a, b) :: (bk b, a) :: chain_cells (b :: c2).
Proof.
  induction c1 as [|x c1 IH]; [done|]. destruct c1 as [|y c1]; [done|]. simpl app in *. change (chain_cells (x :: y :: ?c)) with ((fd x, y) :: (bk y, x) :: chain_cells (y :: c)).
  rewrite IH. done.
Qed.

Lemma chain_keys a l z : (chain_cells (a :: l ++ [z])).*1 ≡ₚ fd a :: bk z :: links l.
Proof.
  revert a. induction l as [|x l IH]; intros a; [done|]. simpl app. change (chain_cells (a :: x :: ?c)) with ((fd a, x) :: (bk x, a) :: chain_cells (x :: c)).
  rewrite !fmap_cons. simpl fst. rewrite IH. change (links (x :: l)) with (fd x :: bk x :: links l). solve_Permutation.
Qed.

Lemma ring_keys b l : (ring_cells b l).*1 ≡ₚ links (b :: l).
Proof. unfold ring_cells. rewrite chain_keys. done. Qed.

(** Linking in a node behind [b] changes four cells. *)
Lemma ring_insert_cells b p l :
  let f := hd b l in
  ∃ c, ring_cells b l ≡ₚ [(fd b, f); (bk f, b)] ++ c ∧ ring_cells b (p :: l) ≡ₚ [(fd b, p); (bk f, p); (fd p, f); (bk p, b)] ++ c.
Proof.
  intros f. assert (∃ d, l ++ [b] = f :: d) as [d E] by (destruct l; simpl; eauto).
  exists (chain_cells (f :: d)). unfold ring_cells. simpl app. rewrite E.
  change (chain_cells (?x :: ?y :: ?z)) with ((fd x, y) :: (bk y, x) :: chain_cells (y :: z)). split; [done|].
  change (chain_cells (?x :: ?y :: ?z)) with ((fd x, y) :: (bk y, x) :: chain_cells (y :: z)). solve_Permutation.
Qed.

Lemma ring_insert w us b p l :
  let f := hd b l in
  us ≡ₚ [(fd b, p); (bk f, p); (fd p, f); (bk p, b)] →
  NoDup (links (b :: p :: l)) → (l ≠ [] → sat w (ring_cells b l)) → sat (writes w us) (ring_cells b (p :: l)).
Proof.
  intros f Hus Hn Hr. destruct (ring_insert_cells b p l) as (c & E1 & E2). fold f in E1, E2. rewrite <- Hus in E2. rewrite E2.
  apply sat_writes; [rewrite <- E2, ring_keys; done|]. destruct l as [|x l]; [|specialize (Hr ltac:(done)); rewrite E1 in Hr; apply sat_app in Hr; apply Hr].
  apply Permutation_length in E1. destruct c; [constructor|done].
Qed.

(** Unlinking one changes two. *)
Lemma ring_remove_cells b p l1 l2 :
  let f := hd b l2 in let q := List.last l1 b in
  ∃ c, ring_cells b (l1 ++ p :: l2) ≡ₚ [(fd q, p); (bk p, q); (fd p, f); (bk f, p)] ++ c ∧ ring_cells b (l1 ++ l2) ≡ₚ [(bk f, q); (fd q, f)] ++ c.
Proof.
  intros f q. assert (∃ c, l2 ++ [b] = f :: c) as [c E] by (destruct l2; simpl; eauto).
  assert (∃ c, b :: l1 = c ++ [q]) as [d E'].
  { destruct l1 as [|x l1] using rev_ind; [exists []; done|]. unfold q. rewrite List.last_last. exists (b :: l1). done. }
  exists (chain_cells (d ++ [q]) ++ chain_cells (f :: c)). unfold ring_cells. rewrite <- !app_assoc. simpl app. rewrite E, !app_comm_cons, E', <- !app_assoc. simpl app.
  rewrite !chain_app. change (chain_cells (p :: f :: c)) with ((fd p, f) :: (bk f, p) :: chain_cells (f :: c)). split; solve_Permutation.
Qed.

Lemma ring_remove w us b p l1 l2 :
  let f := hd b l2 in let q := List.last l1 b in
  us ≡ₚ [(bk f, q); (fd q, f)] → NoDup (links (b :: l1 ++ p :: l2)) → sat w (ring_cells b (l1 ++ p :: l2)) →
  w (fd p) = f ∧ w (bk p) = q ∧ w (bk f) = p ∧ w (fd q) = p ∧ sat (writes w us) (ring_cells b (l1 ++ l2)).
Proof.
  intros f q Hus Hn Hr. destruct (ring_remove_cells b p l1 l2) as (c & E1 & E2). fold f q in E1, E2. rewrite <- Hus in E2. rewrite E1 in Hr.
  rewrite sat_app, !sat_cons in Hr. destruct Hr as ((H2 & H3 & H4 & H5 & _) & H6). split_and!; [done..|]. rewrite E2. apply sat_writes; [|done]. rewrite <- E2, ring_keys.
  apply (sublist_NoDup _ (links (b :: l1 ++ p :: l2))); [done|]. unfold links, fields. change (b :: l1 ++ ?x) with ((b :: l1) ++ x). rewrite !bind_app.
  apply sublist_app; [done|]. apply (sublist_inserts_l [p + 16; p + 24]). done.
Qed.

(** ** The bins *)

Section bins.
Context (gm : Z).

(** A chunk does not touch the arrays of bins. *)
Definition outside (x : Z) : Prop := x + 32 ≤ gm ∨ gm + 856 ≤ x.

(** The bins hold the lists of chunks [bins]: a bin that is not marked is empty, whatever
    its links are. *)
Record small_ok (m : mstate) (bins : Z → list Z) : Prop := {
  so_range : fits 32 (smallmap m);
  so_bit i : 0 ≤ i < 32 → Z.testbit (smallmap m) i = negb (bool_decide (bins i = []));
  so_ring i : 0 ≤ i < 32 → bins i ≠ [] → sat (mem m) (ring_cells (smallbin_at gm i) (bins i));
  so_chunk i x : 0 ≤ i < 32 → x ∈ bins i → 4 ≤ i ∧ chunksize (mem m) x = 8 * i ∧ least_addr m ≤ x ∧ outside x;
  so_nodup i : 0 ≤ i < 32 → NoDup (bins i);
  so_apart i j x y : 0 ≤ i < 32 → 0 ≤ j < 32 → x ∈ bins i → y ∈ bins j → x ≠ y → x + 32 ≤ y ∨ y + 32 ≤ x }.

Definition set_bin (bins : Z → list Z) (i : Z) (l : list Z) : Z → list Z := λ j, if j =? i then l else bins j.

Lemma smallbin_value i : 0 ≤ i → smallbin_at gm i = gm + 72 + 16 * i.
Proof. intros Hi. unfold smallbin_at. rewrite Z.shiftl_mul_pow2 by lia. lia. Qed.

(** The nodes of a ring are different. *)
Lemma ring_NoDup i l :
  0 ≤ i < 32 → NoDup l → (∀ x, x ∈ l → outside x) → (∀ x y, x ∈ l → y ∈ l → x ≠ y → x + 32 ≤ y ∨ y + 32 ≤ x) →
  NoDup (links (smallbin_at gm i :: l)).
Proof.
  intros Hi Hn Ho Ha. assert (∀ x, x ∈ l → x + 16 ≤ smallbin_at gm i ∨ smallbin_at gm i + 16 ≤ x) as Hb.
  { intros x Hx. rewrite smallbin_value by lia. destruct (Ho x Hx); lia. }
  apply (fields_NoDup 16 16).
  - repeat constructor; lia.
  - apply (bool_decide_unpack _). vm_compute. exact I.
  - apply NoDup_cons. split; [|done]. intros Hin. specialize (Hb _ Hin). lia.
  - intros x y [->|Hx]%elem_of_cons [->|Hy]%elem_of_cons Hne; [done| | |].
    + destruct (Hb y Hy); lia.
    + destruct (Hb x Hx); lia.
    + destruct (Ha x y); done || lia.
Qed.

(** What an operation on bin [i] has to show: it writes only links of the nodes of that
    bin, before or after. *)
Lemma small_ok_update m bins i us l b :
  small_ok m bins → 0 ≤ i < 32 → NoDup l → fits 32 b →
  (∀ j, 0 ≤ j < 32 → Z.testbit b j = if j =? i then negb (bool_decide (l = [])) else Z.testbit (smallmap m) j) →
  (∀ x, x ∈ l → 4 ≤ i ∧ chunksize (mem m) x = 8 * i ∧ least_addr m ≤ x ∧ outside x) →
  (∀ j x y, 0 ≤ j < 32 → x ∈ l → y ∈ l ∨ y ∈ bins j → x ≠ y → x + 32 ≤ y ∨ y + 32 ≤ x) →
  (∀ a, a ∈ us.*1 → ∃ y o, a = y + o ∧ (o = 16 ∨ o = 24) ∧ (y = smallbin_at gm i ∨ y ∈ l ∨ y ∈ bins i)) →
  (l ≠ [] → sat (writes (mem m) us) (ring_cells (smallbin_at gm i) l)) →
  small_ok (with_smallmap (puts m us) b) (set_bin bins i l).
Proof.
  intros Hok Hi Hn Hf Hbit Hc Ha Hus Hr.
  assert (∀ x, x ∈ l ∨ (∃ j, 0 ≤ j < 32 ∧ x ∈ bins j) → outside x) as Hout.
  { intros x [Hx|(j & Hj & Hx)]; [apply Hc, Hx|apply (so_chunk _ _ Hok j x Hj Hx)]. }
  assert (∀ x y, x ∈ l ∨ (∃ j, 0 ≤ j < 32 ∧ x ∈ bins j) → y ∈ l ∨ y ∈ bins i → x ≠ y → x + 32 ≤ y ∨ y + 32 ≤ x) as Hsp.
  { intros x y [Hx|(j & Hj & Hx)] Hy Hne; [apply (Ha i); done|]. destruct Hy as [Hy|Hy]; [|apply (so_apart _ _ Hok j i); done].
    destruct (Ha j y x) as [?|?]; auto. }
  assert (∀ x, x ∈ l ∨ (∃ j, 0 ≤ j < 32 ∧ x ∈ bins j) → chunksize (writes (mem m) us) x = chunksize (mem m) x) as Hsz.
  { intros x Hx. unfold chunksize. rewrite writes_other; [done|]. intros (y & o & E & Ho & Hy)%Hus. unfold head_ in E.
    destruct Hy as [->|Hy]; [rewrite smallbin_value in E by lia; destruct (Hout x Hx); lia|].
    destruct (Z.eq_dec x y); [lia|]. destruct (Hsp x y); done || lia. }
  split; simpl; unfold set_bin.
  - done.
  - intros j Hj. rewrite Hbit by done. destruct (j =? i); [done|]. apply (so_bit _ _ Hok); done.
  - intros j Hj. destruct (Z.eqb_spec j i) as [->|Hji]; [done|]. intros Hne. apply sat_frame; [|apply (so_ring _ _ Hok); done].
    intros a. rewrite ring_keys. unfold links. rewrite elem_fields. intros (x & o & Hx & Ho & ->) (y & o' & E & Ho' & Hy)%Hus.
    assert (o = 16 ∨ o = 24) as Ho2 by set_solver. apply elem_of_cons in Hx as [->|Hx].
    + rewrite smallbin_value in E by lia. destruct Hy as [->|Hy]; [rewrite smallbin_value in E by lia; lia|].
      assert (outside y) as [?|?] by (apply Hout; naive_solver); lia.
    + assert (outside x) as Hox by (apply Hout; naive_solver). destruct Hy as [->|Hy]; [rewrite smallbin_value in E by lia; destruct Hox; lia|].
      assert (x ≠ y). { intros ->. pose proof (so_chunk _ _ Hok j y Hj Hx) as (_ & Hs & _). destruct Hy as [Hy|Hy]; [pose proof (Hc y Hy)|pose proof (so_chunk _ _ Hok i y Hi Hy)]; lia. }
      destruct (Hsp x y); [naive_solver|done|done|lia|lia].
  - intros j x Hj Hx. destruct (Z.eqb_spec j i) as [->|Hji]; (rewrite Hsz; [|naive_solver]); [apply Hc, Hx|apply (so_chunk _ _ Hok); done].
  - intros j Hj. destruct (j =? i); [done|apply (so_nodup _ _ Hok), Hj].
  - intros j k x y Hj Hk. destruct (Z.eqb_spec j i) as [->|Hji], (Z.eqb_spec k i) as [->|Hki]; intros Hx Hy Hne.
    + apply (Ha i); auto.
    + apply (Ha k); auto.
    + destruct (Ha j y x); auto.
    + apply (so_apart _ _ Hok j k); done.
Qed.

(** An operation changes at most the links of some nodes and the map. *)
Definition small_step (m m' : mstate) (nodes : list Z) : Prop :=
  (∀ a, a ∉ links nodes → mem m' a = mem m a) ∧ m' = with_smallmap (with_mem m (mem m')) (smallmap m').

Lemma small_step_writes m us b nodes :
  (∀ a, a ∈ us.*1 → a ∈ links nodes) → small_step m (with_smallmap (puts m us) b) nodes.
Proof. intros Hu. split; [|done]. intros a Ha. simpl. apply writes_other. auto. Qed.

(** A chunk of [s] bytes that is in no bin. *)
Definition new_chunk (m : mstate) (bins : Z → list Z) (p s : Z) : Prop :=
  chunksize (mem m) p = s ∧ least_addr m ≤ p ∧ outside p ∧ ∀ j y, 0 ≤ j < 32 → y ∈ bins j → p + 32 ≤ y ∨ y + 32 ≤ p.

Lemma small_index_value s : 0 ≤ s < 256 → small_index s = s / 8.
Proof. intros Hs. unfold small_index. rewrite Z.shiftr_div_pow2 by lia. change (2 ^ 3) with 8. apply wrap_small. split; [apply Z.div_pos; lia|apply Z.div_lt_upper_bound; lia]. Qed.

Lemma in_links y o l : y ∈ l → o = 16 ∨ o = 24 → y + o ∈ links l.
Proof. intros Hy Ho. apply elem_fields. exists y, o. split_and!; [done| |done]. destruct Ho as [->| ->]; [left|right; left]. Qed.

(** The chunks of a bin and one more. *)
Lemma new_chunk_bin m bins p i :
  small_ok m bins → 4 ≤ i < 32 → new_chunk m bins p (8 * i) →
  NoDup (p :: bins i) ∧
  (∀ x, x ∈ p :: bins i → 4 ≤ i ∧ chunksize (mem m) x = 8 * i ∧ least_addr m ≤ x ∧ outside x) ∧
  (∀ j x y, 0 ≤ j < 32 → x ∈ p :: bins i → y ∈ p :: bins i ∨ y ∈ bins j → x ≠ y → x + 32 ≤ y ∨ y + 32 ≤ x).
Proof.
  intros Hok Hi (Hsz & Hle & Ho & Hap). split_and!.
  - apply NoDup_cons. split; [intros Hin; destruct (Hap i p); done || lia|apply (so_nodup _ _ Hok); lia].
  - intros x [->|Hx]%elem_of_cons; [split_and!; done || lia|apply (so_chunk _ _ Hok); done || lia].
  - intros j x y Hj Hx Hy Hne.
    assert (y = p ∨ ∃ k, 0 ≤ k < 32 ∧ y ∈ bins k) as Hy' by (destruct Hy as [[->|Hy]%elem_of_cons|Hy]; [by left| |]; right; eexists; (split; [|exact Hy]; lia)).
    apply elem_of_cons in Hx as [->|Hx]; destruct Hy' as [->|(k & Hk & Hy')]; [done|eauto| |].
    + destruct (Hap i x); auto; lia.
    + apply (so_apart _ _ Hok i k); done || lia.
Qed.

(** The writes of the insertion, and the map after it. *)
Lemma insert_small_run m bins p i :
  small_ok m bins → 4 ≤ i < 32 →
  let b := smallbin_at gm i in let f := hd b (bins i) in
  ∃ c, insert_small_chunk gm p (8 * i) m = Ok (with_smallmap (puts m [(fd b, p); (bk f, p); (fd p, f); (bk p, b)]) c) ∧ fits 32 c ∧
       ∀ j, 0 ≤ j < 32 → Z.testbit c j = if j =? i then true else Z.testbit (smallmap m) j.
Proof.
  intros Hok Hi b f. unfold insert_small_chunk. rewrite small_index_value by lia. replace (8 * i / 8) with i by (rewrite Z.mul_comm, Z.div_mul by lia; done).
  fold b. rewrite (proj2 (Z.leb_le _ _)) by (change MIN_CHUNK_SIZE with 32; lia). simpl.
  rewrite marked_bit, (so_bit _ _ Hok) by lia. case_bool_decide as He; simpl.
  - exists (Z.lor (smallmap m) (idx2bit i)). split_and!.
    + unfold f. rewrite He. done.
    + apply lor_word; [done|apply Hok|]. rewrite idx2bit_pow by lia. split; [lia|apply Z.pow_lt_mono_r; lia].
    + intros j Hj. rewrite mark_bit by lia. destruct (j =? i); [apply orb_true_r|apply orb_false_r].
  - assert (mem m (fd b) = f) as ->.
    { pose proof (so_ring _ _ Hok i ltac:(lia) He) as Hr. unfold f, ring_cells in *. fold b in Hr. destruct (bins i) as [|x l]; [done|]. simpl in *.
      apply sat_cons in Hr as [Hr _]. exact Hr. }
    assert (f ∈ bins i) as Hfi by (unfold f; destruct (bins i); [done|left]). unfold ok_address.
    rewrite (proj2 (Z.leb_le _ _)) by apply (so_chunk _ _ Hok i f ltac:(lia) Hfi). simpl. exists (smallmap m). split_and!; [done|apply Hok|].
    intros j Hj. destruct (Z.eqb_spec j i) as [->|]; [|done]. rewrite (so_bit _ _ Hok) by done. rewrite bool_decide_eq_false_2; done.
Qed.

Lemma small_insert m bins p i :
  small_ok m bins → 4 ≤ i < 32 → new_chunk m bins p (8 * i) →
  ∃ m', insert_small_chunk gm p (8 * i) m = Ok m' ∧ small_step m m' (p :: smallbin_at gm i :: bins i) ∧ small_ok m' (set_bin bins i (p :: bins i)).
Proof.
  intros Hok Hi Hnew. destruct (insert_small_run m bins p i Hok Hi) as (c & E & Hc & Hb).
  destruct (new_chunk_bin m bins p i Hok Hi Hnew) as (Hnd & Hch & Hsp).
  set (b := smallbin_at gm i) in *. set (f := hd b (bins i)) in *.
  assert (f = b ∨ f ∈ bins i) as Hf by (unfold f; destruct (bins i); simpl; [by left|right; left]).
  set (us := [(fd b, p); (bk f, p); (fd p, f); (bk p, b)]) in *.
  assert (∀ a, a ∈ us.*1 → ∃ y o, a = y + o ∧ (o = 16 ∨ o = 24) ∧ (y = b ∨ y ∈ p :: bins i ∨ y ∈ bins i)) as Hus.
  { intros a Ha. unfold us, fd, bk in Ha. simpl in Ha. rewrite !elem_of_cons in Ha. setoid_rewrite elem_of_cons. destruct Ha as [->|[->|[->|[->|[]%elem_of_nil]]]].
    - exists b, 16. naive_solver.
    - exists f, 24. naive_solver.
    - exists p, 16. naive_solver.
    - exists p, 24. naive_solver. }
  rewrite E. eexists. split; [done|]. split.
  { apply small_step_writes. intros a (y & o & -> & Hoo & Hy)%Hus. apply in_links; [set_solver|done]. }
  apply small_ok_update; try done; try lia.
  intros _. apply ring_insert; [done| |intros Hne; apply (so_ring _ _ Hok); done || lia].
  apply ring_NoDup; [lia|done|intros x Hx; apply Hch, Hx|]. intros x y Hx Hy. apply (Hsp i); [lia|done|by left].
Qed.

(** The neighbours of a chunk in its ring. *)
Lemma small_neighbours m bins i p l1 l2 :
  small_ok m bins → 4 ≤ i < 32 → bins i = l1 ++ p :: l2 →
  let b := smallbin_at gm i in let f := hd b l2 in let q := List.last l1 b in
  (f = b ∧ l2 = [] ∨ f ∈ l2 ∧ f ≠ b ∧ least_addr m ≤ f) ∧ (q = b ∧ l1 = [] ∨ q ∈ l1 ∧ q ≠ b ∧ least_addr m ≤ q) ∧ p ≠ f ∧ p ≠ q ∧ (q = f → l1 = [] ∧ l2 = []).
Proof.
  intros Hok Hi Hl b f q. pose proof (so_nodup _ _ Hok i ltac:(lia)) as Hnd.
  assert (∀ x, x ∈ bins i → x ≠ b ∧ least_addr m ≤ x) as Hx.
  { intros x Hx. pose proof (so_chunk _ _ Hok i x ltac:(lia) Hx) as (_ & _ & Hle & Ho). split; [|done]. unfold b. rewrite smallbin_value by lia. destruct Ho; lia. }
  rewrite Hl in *. apply NoDup_app in Hnd as (_ & Hn2 & Hn3). apply NoDup_cons in Hn3 as [Hp2 _]. setoid_rewrite elem_of_app in Hx. setoid_rewrite elem_of_cons in Hx.
  setoid_rewrite elem_of_cons in Hn2.
  assert (f = b ∧ l2 = [] ∨ f ∈ l2 ∧ f ≠ b ∧ least_addr m ≤ f) as Hf.
  { unfold f. destruct l2 as [|y l2]; simpl; [by left|right]. split; [left|]. apply Hx. right. right. left. }
  assert (q = b ∧ l1 = [] ∨ q ∈ l1 ∧ q ≠ b ∧ least_addr m ≤ q) as Hq.
  { unfold q. destruct l1 as [|y l1 _] using rev_ind; [by left|right]. rewrite List.last_last. assert (y ∈ l1 ++ [y]) by (apply elem_of_app; right; left). auto. }
  split_and!; try done.
  - intros ->. destruct Hf as [[Hf _]|(Hf & _)]; [|done]. destruct (Hx f); auto.
  - intros ->. destruct Hq as [[Hq _]|(Hq & _)]; [destruct (Hx q); auto|]. destruct (Hn2 q); auto.
  - intros E. destruct Hq as [[Hq ->]|(Hq & Hqb & _)], Hf as [[Hf ->]|(Hf & Hfb & _)]; try done; try congruence. destruct (Hn2 q Hq). right. rewrite E. done.
Qed.

(** The bins without a chunk. *)
Lemma small_remove m bins i p l1 l2 :
  small_ok m bins → 4 ≤ i < 32 → bins i = l1 ++ p :: l2 →
  let b := smallbin_at gm i in let f := hd b l2 in let q := List.last l1 b in
  mem m (fd p) = f ∧ mem m (bk p) = q ∧ mem m (bk f) = p ∧ mem m (fd q) = p ∧
  let m' := if q =? f then with_smallmap m (Z.land (smallmap m) (u32 (Z.lnot (idx2bit i)))) else puts m [(bk f, q); (fd q, f)] in
  small_step m m' (b :: bins i) ∧ small_ok m' (set_bin bins i (l1 ++ l2)).
Proof.
  intros Hok Hi Hl b f q. assert (0 ≤ i < 32) as Hi' by lia. assert (bins i ≠ []) as Hne by (rewrite Hl; destruct l1; done).
  pose proof (so_nodup _ _ Hok i Hi') as Hnd. pose proof (λ x, so_chunk _ _ Hok i x Hi') as Hch. pose proof (so_ring _ _ Hok i Hi' Hne) as Hr.
  destruct (small_neighbours m bins i p l1 l2 Hok Hi Hl) as (Hf & Hq & _ & _ & Hqf). fold b f q in Hf, Hq, Hqf.
  assert (∀ x, x ∈ l1 ++ l2 → x ∈ bins i) as Hin by (intros x; rewrite Hl, !elem_of_app, elem_of_cons; tauto).
  assert (NoDup (links (b :: bins i))) as Hln.
  { apply ring_NoDup; [done|done|intros x Hx; apply Hch, Hx|]. intros x y Hx Hy. apply (so_apart _ _ Hok i i); done. }
  assert (NoDup (l1 ++ l2)) as Hnd'.
  { apply (sublist_NoDup _ (bins i)); [done|]. rewrite Hl. apply sublist_app; [done|]. apply sublist_cons. done. }
  assert (f ∈ b :: bins i ∧ q ∈ b :: bins i) as [Hfi Hqi].
  { rewrite Hl, !elem_of_cons, !elem_of_app, !elem_of_cons. naive_solver. }
  rewrite Hl in Hln, Hr. destruct (ring_remove _ [(bk f, q); (fd q, f)] b p l1 l2 ltac:(done) Hln Hr) as (H1 & H2 & H3 & H4 & H5). fold f q in H1, H2, H3, H4, H5. split_and!; [done..|].
  assert (∃ us c, (if q =? f then with_smallmap m (Z.land (smallmap m) (u32 (Z.lnot (idx2bit i)))) else puts m [(bk f, q); (fd q, f)]) = with_smallmap (puts m us) c ∧
    (us = [] ∧ l1 ++ l2 = [] ∧ c = Z.land (smallmap m) (u32 (Z.lnot (idx2bit i))) ∨ us = [(bk f, q); (fd q, f)] ∧ l1 ++ l2 ≠ [] ∧ c = smallmap m)) as (us & c & -> & Hus).
  { destruct (Z.eqb_spec q f) as [E|E].
    - destruct (Hqf E) as [-> ->]. exists [], (Z.land (smallmap m) (u32 (Z.lnot (idx2bit i)))). split; [done|]. by left.
    - exists [(bk f, q); (fd q, f)], (smallmap m). split; [done|]. right. split_and!; [done| |done]. intros [-> ->]%app_nil. unfold q, f in E. done. }
  assert (∀ a, a ∈ us.*1 → a ∈ links (b :: bins i)) as Hu.
  { intros a Ha. destruct Hus as [(-> & _)|(-> & _)]; [apply elem_of_nil in Ha; done|]. simpl in Ha. rewrite !elem_of_cons in Ha.
    destruct Ha as [->|[->|[]%elem_of_nil]]; apply in_links; auto. }
  split; [apply small_step_writes; done|]. apply small_ok_update; try done.
  - destruct Hus as [(_ & _ & ->)|(_ & _ & ->)]; [|apply Hok]. apply land_word; [done|apply Hok|]. apply Z.mod_pos_bound. done.
  - intros j Hj. destruct Hus as [(_ & -> & ->)|(_ & Hne' & ->)].
    + rewrite clear_bit by done. destruct (j =? i); [apply andb_false_r|apply andb_true_r].
    + destruct (Z.eqb_spec j i) as [->|]; [|done]. rewrite (so_bit _ _ Hok) by done. rewrite !bool_decide_eq_false_2; done.
  - intros x Hx. apply Hch, Hin, Hx.
  - intros j x y Hj Hx Hy Hxy. destruct Hy as [Hy|Hy]; [apply (so_apart _ _ Hok i i); auto|apply (so_apart _ _ Hok i j); auto].
  - intros a (y & o & Hy & Ho & ->)%Hu%elem_fields. exists y, o. split; [done|]. split; [set_solver|]. apply elem_of_cons in Hy as [->|Hy]; auto.
  - intros Hn. destruct Hus as [(_ & He & _)|(-> & _)]; done.
Qed.

Lemma small_unlink m bins i p l1 l2 :
  small_ok m bins → 4 ≤ i < 32 → bins i = l1 ++ p :: l2 →
  ∃ m', unlink_small_chunk gm p (8 * i) m = Ok m' ∧ small_step m m' (smallbin_at gm i :: bins i) ∧ small_ok m' (set_bin bins i (l1 ++ l2)).
Proof.
  intros Hok Hi Hl. destruct (small_neighbours m bins i p l1 l2 Hok Hi Hl) as (Hf & Hq & Hpf & Hpq & _).
  destruct (small_remove m bins i p l1 l2 Hok Hi Hl) as (H1 & H2 & H3 & H4 & H5).
  assert (chunksize (mem m) p = 8 * i) as Hs by (apply (so_chunk _ _ Hok); [lia|rewrite Hl, elem_of_app; right; left]).
  set (b := smallbin_at gm i) in *. set (f := hd b l2) in *. set (q := List.last l1 b) in *. eexists. split; [|exact H5].
  unfold unlink_small_chunk. rewrite small_index_value by lia. replace (8 * i / 8) with i by (rewrite Z.mul_comm, Z.div_mul by lia; done). fold b.
  rewrite H1, H2, Hs, (proj2 (Z.eqb_neq p q)), (proj2 (Z.eqb_neq p f)) by done. simpl.
  assert (small_index2size i = 8 * i) as -> by (unfold small_index2size; rewrite Z.shiftl_mul_pow2 by lia; rewrite wrap_small; [lia|unfold fits; lia]).
  rewrite Z.eqb_refl. simpl. unfold ok_address. rewrite H3, H4, !Z.eqb_refl, !andb_true_r.
  assert ((f =? b) || (least_addr m <=? f) = true) as ->.
  { destruct Hf as [[-> _]|(_ & _ & Hf)]; [rewrite Z.eqb_refl; done|]. rewrite (proj2 (Z.leb_le _ _) Hf). apply orb_true_r. }
  assert ((q =? b) || (least_addr m <=? q) = true) as ->.
  { destruct Hq as [[-> _]|(_ & _ & Hq)]; [rewrite Z.eqb_refl; done|]. rewrite (proj2 (Z.leb_le _ _) Hq). apply orb_true_r. }
  destruct (q =? f); done.
Qed.

Lemma small_unlink_first m bins i p l :
  small_ok m bins → 4 ≤ i < 32 → bins i = p :: l →
  mem m (fd (smallbin_at gm i)) = p ∧
  ∃ m', unlink_first_small_chunk (smallbin_at gm i) p i m = Ok m' ∧ small_step m m' (smallbin_at gm i :: bins i) ∧ small_ok m' (set_bin bins i l).
Proof.
  intros Hok Hi Hl. destruct (small_neighbours m bins i p [] l Hok Hi Hl) as (Hf & Hq & Hpf & Hpq & _).
  destruct (small_remove m bins i p [] l Hok Hi Hl) as (H1 & H2 & H3 & H4 & H5). simpl in H4, H5, Hpq. split; [done|].
  assert (chunksize (mem m) p = 8 * i) as Hs by (apply (so_chunk _ _ Hok); [lia|rewrite Hl; left]).
  set (b := smallbin_at gm i) in *. set (f := hd b l) in *. eexists. split; [|exact H5].
  unfold unlink_first_small_chunk. rewrite H1, Hs, (proj2 (Z.eqb_neq p b)), (proj2 (Z.eqb_neq p f)) by done. simpl.
  assert (small_index2size i = 8 * i) as -> by (unfold small_index2size; rewrite Z.shiftl_mul_pow2 by lia; rewrite wrap_small; [lia|unfold fits; lia]).
  rewrite Z.eqb_refl. simpl. destruct (Z.eqb_spec b f) as [E|E]; [done|]. unfold ok_address. rewrite H3, Z.eqb_refl, andb_true_r.
  destruct Hf as [[Hf _]|(_ & _ & Hf)]; [congruence|]. rewrite (proj2 (Z.leb_le _ _) Hf). done.
Qed.
End bins.
