(* ===== verification/DlTree.v ===== *)
(** * The kernel heap: tree bins

    mm/dlmalloc.cpp: the bitwise tries of large free chunks, one for each of 32 ranges of
    sizes.  A node of a trie is a ring of chunks of one size.  Insertion and removal work
    on the links in memory; the theorems say what they do to the tries. *)

From S2P Require Import Prelude Define DlBase DlSmall.
Local Open Scope Z_scope.

(** ** Operations *)

Section tree.
Context (gm : Z).

(** The loop of [insert_large_chunk], at node [t] with the bits [k] of the size. *)
Fixpoint insert_loop (fuel : nat) (x s t k : Z) (m : mstate) : result mstate :=
  match fuel with
  | O => Err Hang
  | S fuel =>
    if negb (chunksize (mem m) t =? s) then
      let c := child t (Z.land (Z.shiftr k 63) 1) in
      let k := u64 (Z.shiftl k 1) in
      if negb (mem m c =? 0) then insert_loop fuel x s (mem m c) k m
      else if ok_address m c then Ok (puts m [(c, x); (parent x, t); (bk x, x); (fd x, x)])
      else Err Aborted
    else
      let f := mem m (fd t) in
      if ok_address m t && ok_address m f then Ok (puts m [(bk f, x); (fd t, x); (fd x, f); (bk x, t); (parent x, 0)])
      else Err Aborted
  end.

Definition insert_large_chunk (x s : Z) (m : mstate) : result mstate :=
  let i := compute_tree_index s in
  let h := treebin_at gm i in
  let m := puts m [(index x, i); (child x 1, 0); (child x 0, 0)] in
  if Z.land (treemap m) (idx2bit i) =? 0 then
    Ok (puts (with_treemap m (Z.lor (treemap m) (idx2bit i))) [(h, x); (parent x, h); (bk x, x); (fd x, x)])
  else insert_loop 65 x s (mem m h) (u64 (Z.shiftl s (leftshift_for_tree_index i))) m.

(** The inner loop of [unlink_large_chunk]: from chunk [r] in the slot [rp] to a leaf. *)
Fixpoint leaf_loop (fuel : nat) (r rp : Z) (w : words) : result (Z * Z) :=
  match fuel with
  | O => Err Hang
  | S fuel =>
    if negb (w (child r 1) =? 0) then leaf_loop fuel (w (child r 1)) (child r 1) w
    else if negb (w (child r 0) =? 0) then leaf_loop fuel (w (child r 0)) (child r 0) w
    else Ok (r, rp)
  end.

(** The replacement of [x]: another chunk of the same size, a leaf below, or none. *)
Definition replacement (x : Z) (m : mstate) : result (Z * mstate) :=
  let w := mem m in
  if negb (w (bk x) =? x) then
    let f := w (fd x) in
    let r := w (bk x) in
    if ok_address m f && (w (bk f) =? x) && (w (fd r) =? x) then Ok (r, puts m [(bk f, r); (fd r, f)]) else Err Aborted
  else
    let rp := if negb (w (child x 1) =? 0) then child x 1 else child x 0 in
    if negb (w rp =? 0) then
      '(r, rp) ← leaf_loop 65 (w rp) rp w;
      if ok_address m rp then Ok (r, put m rp 0) else Err Aborted
    else Ok (0, m).

(** Gives child [d] of [x] to [r]. *)
Definition move_child (x r d : Z) (m : mstate) : result mstate :=
  let c := mem m (child x d) in
  if negb (c =? 0) then
    if ok_address m c then Ok (puts m [(child r d, c); (parent c, r)]) else Err Aborted
  else Ok m.

(** Puts [r] in the place of [x] below [xp]. *)
Definition relink (x xp r : Z) (m : mstate) : result mstate :=
  let h := treebin_at gm (mem m (index x)) in
  m ← (if x =? mem m h then
         Ok (if r =? 0 then with_treemap (put m h r) (Z.land (treemap m) (u32 (Z.lnot (idx2bit (mem m (index x)))))) else put m h r)
       else if ok_address m xp then
         Ok (if mem m (child xp 0) =? x then put m (child xp 0) r else put m (child xp 1) r)
       else Err Aborted);
  if negb (r =? 0) then
    if ok_address m r then
      let m := put m (parent r) xp in
      m ← move_child x r 0 m;
      move_child x r 1 m
    else Err Aborted
  else Ok m.

Definition unlink_large_chunk (x : Z) (m : mstate) : result mstate :=
  let xp := mem m (parent x) in
  '(r, m) ← replacement x m;
  if negb (xp =? 0) then relink x xp r m else Ok m.
End tree.

(** ** Tries *)

Inductive tree := Leaf | Node (x : Z) (rest : list Z) (l r : tree).

Definition root (t : tree) : Z := match t with Leaf => 0 | Node x _ _ _ => x end.

Fixpoint nodes (t : tree) : list Z :=
  match t with Leaf => [] | Node x rest l r => x :: rest ++ nodes l ++ nodes r end.

(** [sz] tells the sizes of chunks.  The sizes of a trie with [n] levels are the [2 ^ n]
    ones from [lo] on; the chunks to the right have the next bit set. *)
Fixpoint trie (sz : Z → Z) (lo : Z) (n : nat) (t : tree) {struct t} : Prop :=
  match t with
  | Leaf => True
  | Node x rest l r =>
    lo ≤ sz x < lo + 2 ^ Z.of_nat n ∧ Forall (λ y, sz y = sz x) rest ∧
    match n with
    | O => l = Leaf ∧ r = Leaf
    | S n => trie sz lo n l ∧ trie sz (lo + 2 ^ Z.of_nat n) n r
    end
  end.

Fixpoint tinsert (sz : Z → Z) (x s : Z) (n : nat) (t : tree) {struct t} : tree :=
  match t, n with
  | Leaf, _ => Node x [] Leaf Leaf
  | Node y rest l r, S n =>
    if sz y =? s then Node y (x :: rest) l r
    else if Z.testbit s (Z.of_nat n) then Node y rest l (tinsert sz x s n r) else Node y rest (tinsert sz x s n l) r
  | Node y rest l r, O => Node y (x :: rest) l r
  end.

(** ** The cells of a trie *)

(** The words of the nodes that the tries use. *)
Definition tree_words (x : Z) : list Z := [fd x; bk x; child x 0; child x 1; parent x; index x].
Definition tree_fields (l : list Z) : list Z := l ≫= tree_words.

Lemma tree_fields_eq l : tree_fields l = fields [16; 24; 32; 40; 48; 56] l.
Proof.
  unfold tree_fields, fields. apply list_bind_ext; [|done]. intros x. unfold tree_words, fd, bk, child, parent, index. simpl. repeat (f_equal; try lia).
Qed.

Lemma tree_fields_app l1 l2 : tree_fields (l1 ++ l2) = tree_fields l1 ++ tree_fields l2.
Proof. apply bind_app. Qed.

Lemma tree_fields_cons x l : tree_fields (x :: l) = tree_words x ++ tree_fields l.
Proof. done. Qed.

Lemma links_cons x l : links (x :: l) = fd x :: bk x :: links l.
Proof. done. Qed.

#[export] Instance tree_fields_proper : Proper ((≡ₚ) ==> (≡ₚ)) tree_fields.
Proof. intros l1 l2 H. unfold tree_fields. rewrite H. done. Qed.

Section cells.
Context (i : Z).

Definition node_cells (x p c0 c1 : Z) : list (Z * Z) := [(index x, i); (parent x, p); (child x 0, c0); (child x 1, c1)].

(** A ring of chunks without the parent of the first. *)
Definition group_cells (x : Z) (rest : list Z) : list (Z * Z) :=
  (index x, i) :: ring_cells x rest ++ (rest ≫= λ y, node_cells y 0 0 0).

Fixpoint tcells (p : Z) (t : tree) : list (Z * Z) :=
  match t with
  | Leaf => []
  | Node x rest l r =>
    (parent x, p) :: (child x 0, root l) :: (child x 1, root r) :: group_cells x rest ++ tcells x l ++ tcells x r
  end.

Lemma group_keys x rest : (group_cells x rest).*1 ++ [parent x; child x 0; child x 1] ≡ₚ tree_fields (x :: rest).
Proof.
  unfold group_cells. rewrite fmap_cons, fmap_app, ring_keys, links_cons, tree_fields_cons. unfold tree_words.
  assert (links rest ++ (rest ≫= λ y, node_cells y 0 0 0).*1 ≡ₚ tree_fields rest) as <-; [|simpl; solve_Permutation].
  induction rest as [|y rest IH]; [done|]. rewrite links_cons, tree_fields_cons, <- IH, bind_cons, fmap_app. unfold tree_words. simpl. solve_Permutation.
Qed.

Lemma tcells_keys p t : (tcells p t).*1 ≡ₚ tree_fields (nodes t).
Proof.
  revert p. induction t as [|x rest l IHl r IHr]; intros p; [done|]. cbn [tcells]. rewrite 3!fmap_cons, !fmap_app, IHl, IHr.
  change (nodes (Node x rest l r)) with ((x :: rest) ++ nodes l ++ nodes r). rewrite !tree_fields_app, <- group_keys.
  generalize ((group_cells x rest).*1). intros g. cbn [fst]. solve_Permutation.
Qed.
End cells.

(** ** Contexts *)

(** A trie around a hole: the frames from the hole to the root. *)
Inductive frame := FL (x : Z) (rest : list Z) (r : tree) | FR (x : Z) (rest : list Z) (l : tree).

Definition plug (t : tree) (f : frame) : tree :=
  match f with FL x rest r => Node x rest t r | FR x rest l => Node x rest l t end.
Definition fill (k : list frame) (t : tree) : tree := foldl plug t k.

Definition top_of (f : frame) : Z := match f with FL x _ _ | FR x _ _ => x end.
Definition hole_of (f : frame) : Z := match f with FL x _ _ => child x 0 | FR x _ _ => child x 1 end.

Definition frame_nodes (f : frame) : list Z :=
  match f with FL x rest o | FR x rest o => x :: rest ++ nodes o end.
Definition ctx_nodes (k : list frame) : list Z := k ≫= frame_nodes.

(** The word that links to the hole, and the parent of what is in it, in a trie that hangs
    on the word [h]. *)
Definition slot (h : Z) (k : list frame) : Z := match k with [] => h | f :: _ => hole_of f end.
Definition above (h : Z) (k : list frame) : Z := match k with [] => h | f :: _ => top_of f end.

Definition frame_cells (i p : Z) (f : frame) : list (Z * Z) :=
  match f with
  | FL x rest r => (parent x, p) :: (child x 1, root r) :: group_cells i x rest ++ tcells i x r
  | FR x rest l => (parent x, p) :: (child x 0, root l) :: group_cells i x rest ++ tcells i x l
  end.

Fixpoint ctx_cells (i h : Z) (k : list frame) : list (Z * Z) :=
  match k with [] => [] | f :: k => (slot h k, top_of f) :: frame_cells i (above h k) f ++ ctx_cells i h k end.

Definition bin_cells (i h : Z) (t : tree) : list (Z * Z) := (h, root t) :: tcells i h t.

Lemma plug_cells i p t f : tcells i p (plug t f) ≡ₚ (hole_of f, root t) :: frame_cells i p f ++ tcells i (top_of f) t.
Proof.
  destruct f as [x rest r|x rest l]; cbn [plug tcells hole_of top_of frame_cells]; generalize (group_cells i x rest); intros g; solve_Permutation.
Qed.

Lemma fill_not_leaf f k t : fill (f :: k) t ≠ Leaf.
Proof. revert f t. induction k as [|g k IH]; intros f t; [destruct f; done|]. apply (IH g (plug t f)). Qed.

Lemma fill_cells i h k t : bin_cells i h (fill k t) ≡ₚ (slot h k, root t) :: tcells i (above h k) t ++ ctx_cells i h k.
Proof.
  revert t. induction k as [|f k IH]; intros t; [simpl; rewrite app_nil_r; done|]. simpl fill. change (foldl plug ?u k) with (fill k u). rewrite IH, plug_cells.
  replace (root (plug t f)) with (top_of f) by (destruct f; done). cbn [slot above ctx_cells]. solve_Permutation.
Qed.

Lemma plug_nodes t f : nodes (plug t f) ≡ₚ nodes t ++ frame_nodes f.
Proof. destruct f; cbn [plug nodes frame_nodes]; solve_Permutation. Qed.

Lemma frame_keys i p t f : ((hole_of f, root t) :: frame_cells i p f).*1 ≡ₚ tree_fields (frame_nodes f).
Proof.
  assert (∀ x rest o, tree_fields (x :: rest ++ nodes o) ≡ₚ ((group_cells i x rest).*1 ++ [parent x; child x 0; child x 1]) ++ tree_fields (nodes o)) as E.
  { intros x rest o. rewrite app_comm_cons, tree_fields_app, group_keys. done. }
  destruct f as [x rest r|x rest l]; cbn [frame_nodes frame_cells hole_of]; rewrite E, 3!fmap_cons, fmap_app, tcells_keys; generalize ((group_cells i x rest).*1); intros g; cbn [fst]; solve_Permutation.
Qed.

Lemma fill_nodes k t : nodes (fill k t) ≡ₚ nodes t ++ ctx_nodes k.
Proof.
  revert t. induction k as [|f k IH]; intros t; [simpl; rewrite app_nil_r; done|]. simpl fill. change (foldl plug ?u k) with (fill k u). rewrite IH.
  change (ctx_nodes (f :: k)) with (frame_nodes f ++ ctx_nodes k). rewrite plug_nodes. solve_Permutation.
Qed.

(** A context fixes the range of sizes of what is in it. *)
Lemma trie_fill sz lo n k t :
  t ≠ Leaf → trie sz lo n (fill k t) →
  ∃ lo' n', trie sz lo' n' t ∧ ∀ t', trie sz lo' n' t' → trie sz lo n (fill k t').
Proof.
  revert t. induction k as [|f k IH]; intros t Hne Ht; [exists lo, n; auto|]. simpl in Ht. change (foldl plug ?u k) with (fill k u) in Ht.
  destruct (IH (plug t f) ltac:(destruct f; done) Ht) as (lo' & n' & Hp & Hk).
  destruct f as [x rest r|x rest l], n' as [|n']; simpl in Hp; destruct Hp as (H1 & H2 & H3 & H4); try done.
  - exists lo', n'. split; [done|]. intros t' Ht'. apply Hk. done.
  - exists (lo' + 2 ^ Z.of_nat n'), n'. split; [done|]. intros t' Ht'. apply Hk. done.
Qed.

Lemma trie_elem sz lo n t x : trie sz lo n t → x ∈ nodes t → lo ≤ sz x < lo + 2 ^ Z.of_nat n.
Proof.
  revert lo n. induction t as [|y rest l IHl r IHr]; intros lo n Ht Hx; [apply elem_of_nil in Hx; done|]. simpl in Ht, Hx. destruct Ht as (H1 & H2 & H3).
  rewrite elem_of_cons, !elem_of_app in Hx. destruct Hx as [->|[Hx|Hx]]; [done|rewrite Forall_forall in H2; rewrite H2; done|].
  destruct n as [|n]; [destruct H3 as [-> ->]; simpl in Hx; rewrite !elem_of_nil in Hx; tauto|].
  destruct H3 as [Hl Hr]. replace (2 ^ Z.of_nat (S n)) with (2 * 2 ^ Z.of_nat n) by (rewrite Nat2Z.inj_succ, Z.pow_succ_r; lia).
  pose proof (pow2_pos (Z.of_nat n) ltac:(lia)). destruct Hx as [Hx|Hx]; [specialize (IHl _ _ Hl Hx)|specialize (IHr _ _ Hr Hx)]; lia.
Qed.

Lemma trie_ext sz sz' lo n t : (∀ x, x ∈ nodes t → sz' x = sz x) → trie sz lo n t → trie sz' lo n t.
Proof.
  revert lo n. induction t as [|y rest l IHl r IHr]; intros lo n Hx Ht; [done|]. simpl in Ht, Hx |- *. destruct Ht as (H1 & H2 & H3).
  setoid_rewrite elem_of_cons in Hx. setoid_rewrite elem_of_app in Hx. setoid_rewrite elem_of_app in Hx. split; [rewrite Hx by auto; done|]. split.
  - rewrite Forall_forall in *. intros z Hz. rewrite !Hx by auto. auto.
  - destruct n; [done|]. destruct H3 as [Hl Hr]. split; [apply IHl|apply IHr]; auto.
Qed.

(** A node or a chunk of its ring, in its context. *)
Lemma tree_focus t x : x ∈ nodes t → ∃ k y rest l r, t = fill k (Node y rest l r) ∧ (x = y ∨ x ∈ rest).
Proof.
  assert (∀ k t, x ∈ nodes t → ∃ k' y rest l r, fill k t = fill k' (Node y rest l r) ∧ (x = y ∨ x ∈ rest)) as H; [|apply (H [])].
  clear t. intros k t. revert k. induction t as [|y rest l IHl r IHr]; intros k Hx; [apply elem_of_nil in Hx; done|]. simpl in Hx. rewrite elem_of_cons, !elem_of_app in Hx.
  destruct Hx as [->|[Hx|[Hx|Hx]]].
  - exists k, y, rest, l, r. auto.
  - exists k, y, rest, l, r. auto.
  - apply (IHl (FL y rest r :: k) Hx).
  - apply (IHr (FR y rest l :: k) Hx).
Qed.

(** Below a node that is not alone there is a leaf. *)
Fixpoint to_leaf (t : tree) (k : list frame) : list frame * (Z * list Z) :=
  match t with
  | Leaf => (k, (0, []))
  | Node x rest l r =>
    match l, r with
    | Leaf, Leaf => (k, (x, rest))
    | l, Leaf => to_leaf l (FL x rest Leaf :: k)
    | l, r => to_leaf r (FR x rest l :: k)
    end
  end.

Lemma fill_app k1 k2 u : fill (k1 ++ k2) u = fill k2 (fill k1 u).
Proof. apply foldl_app. Qed.

Lemma to_leaf_fill t k k' y rest : t ≠ Leaf → to_leaf t k = (k', (y, rest)) → ∃ k0, k' = k0 ++ k ∧ t = fill k0 (Node y rest Leaf Leaf).
Proof.
  revert k. induction t as [|x rs l IHl r IHr]; intros k Hne; [done|]. simpl.
  assert (∀ f k0 u, fill (k0 ++ [f]) u = plug (fill k0 u) f) as Hs by (intros f k0 u; rewrite fill_app; done).
  destruct r as [|xr rr rl rr'] eqn:Er.
  - destruct l as [|xl lr ll lr'] eqn:El; [intros [= -> -> ->]; exists []; done|]. rewrite <- El in *.
    intros E. apply IHl in E as (k0 & -> & E); [|rewrite El; done]. exists (k0 ++ [FL x rs Leaf]). rewrite <- app_assoc, Hs, <- E. done.
  - rewrite <- Er in *. destruct l as [|xl lr ll lr'] eqn:El; intros E; apply IHr in E as (k0 & -> & E); try (rewrite Er; done).
    + exists (k0 ++ [FR x rs Leaf]). rewrite <- app_assoc, Hs, <- E. done.
    + exists (k0 ++ [FR x rs (Node xl lr ll lr')]). rewrite <- app_assoc, Hs, <- E. done.
Qed.

Fixpoint height (t : tree) : nat := match t with Leaf => 0 | Node _ _ l r => S (height l `max` height r) end.

Lemma trie_height sz lo n t : trie sz lo n t → (height t ≤ S n)%nat.
Proof.
  revert lo n. induction t as [|x rest l IHl r IHr]; intros lo n Ht; [simpl; lia|]. simpl in Ht. destruct Ht as (_ & _ & Ht). destruct n as [|n].
  - destruct Ht as [-> ->]. simpl. lia.
  - destruct Ht as [Hl Hr]. apply IHl in Hl. apply IHr in Hr. simpl. lia.
Qed.

Lemma leaf_loop_spec i h w t : ∀ p k fuel k' y rest,
  t ≠ Leaf → (height t ≤ fuel)%nat → sat w (tcells i p t) → (∀ z, z ∈ nodes t → z ≠ 0) → to_leaf t k = (k', (y, rest)) →
  leaf_loop fuel (root t) (slot h k) w = Ok (y, slot h k').
Proof.
  assert (∀ u, (∀ z, z ∈ nodes u → z ≠ 0) → (root u =? 0) = match u with Leaf => true | _ => false end) as Hroot.
  { intros [|z zs ul ur] Hz; [done|]. apply Z.eqb_neq, Hz. left. }
  induction t as [|x rs l IHl r IHr]; intros p k fuel k' y rest Hne Hh Hs Hz; [done|]. destruct fuel as [|fuel]; [simpl in Hh; lia|].
  cbn [tcells] in Hs. rewrite !sat_cons, !sat_app in Hs. destruct Hs as (_ & H0 & H1 & _ & Hl & Hr). cbn [fst snd] in H0, H1. cbn [nodes] in Hz.
  assert (∀ z, z ∈ nodes l → z ≠ 0) as Hzl by (intros z Hin; apply Hz; rewrite elem_of_cons, !elem_of_app; auto).
  assert (∀ z, z ∈ nodes r → z ≠ 0) as Hzr by (intros z Hin; apply Hz; rewrite elem_of_cons, !elem_of_app; auto).
  cbn [root leaf_loop]. rewrite H1, H0, !Hroot by done. cbn [height] in Hh. cbn [to_leaf]. destruct r as [|xr rr rl rr'] eqn:Er.
  - destruct l as [|xl lr ll lr'] eqn:El; [intros [= -> -> ->]; done|]. rewrite <- El in *. apply (IHl x (FL x rs Leaf :: k)); [rewrite El; done|lia|done..].
  - rewrite <- Er in *. destruct l as [|xl lr ll lr'] eqn:El; cbn [negb]; [apply (IHr x (FR x rs Leaf :: k))|apply (IHr x (FR x rs (Node xl lr ll lr') :: k))]; try done; rewrite Er in *; try done; lia.
Qed.

(** ** Bits *)

Lemma range_bit lo n s :
  0 ≤ n → (2 ^ (n + 1) | lo) → lo ≤ s < lo + 2 ^ (n + 1) →
  if Z.testbit s n then lo + 2 ^ n ≤ s < lo + 2 ^ n + 2 ^ n else lo ≤ s < lo + 2 ^ n.
Proof.
  intros Hn [c ->] Hs. rewrite Z.pow_add_r in * by lia. change (2 ^ 1) with 2 in *. pose proof (pow2_pos n Hn). set (q := 2 ^ n) in *.
  assert (s / q = 2 * c ∨ s / q = 2 * c + 1) as Hq.
  { assert (2 * c ≤ s / q < 2 * c + 2) by (split; [apply Z.div_le_lower_bound|apply Z.div_lt_upper_bound]; lia). lia. }
  pose proof (Z.div_mod s q ltac:(lia)). pose proof (Z.mod_pos_bound s q ltac:(lia)).
  rewrite Z.testbit_odd, Z.shiftr_div_pow2 by done. fold q.
  destruct Hq as [E|E]; rewrite E in *.
  - rewrite Z.odd_mul. simpl. lia.
  - rewrite Z.odd_add, Z.odd_mul. simpl. lia.
Qed.

(** The size, shifted so that the bits of the last [n] levels are left. *)
Definition key_bits (s : Z) (n : nat) : Z := u64 (Z.shiftl s (64 - Z.of_nat n)).

Lemma key_bits_top s n : (n < 64)%nat → Z.land (Z.shiftr (key_bits s (S n)) 63) 1 = Z.b2z (Z.testbit s (Z.of_nat n)).
Proof.
  intros Hn. change 1 with (Z.ones 1) at 1. rewrite Z.land_ones, <- Z.bit0_mod, Z.shiftr_spec by lia. f_equal. unfold key_bits, wrap.
  rewrite Z.mod_pow2_bits_low, Z.shiftl_spec by lia. f_equal. lia.
Qed.

Lemma key_bits_next s n : (n < 64)%nat → u64 (Z.shiftl (key_bits s (S n)) 1) = key_bits s n.
Proof.
  intros Hn. unfold key_bits, wrap. rewrite Z.shiftl_mul_pow2, Z.mul_mod_idemp_l, <- Z.shiftl_mul_pow2, Z.shiftl_shiftl by lia. do 2 f_equal. lia.
Qed.

(** ** Insertion *)

Lemma tinsert_root sz x s n t : t ≠ Leaf → root (tinsert sz x s n t) = root t.
Proof. destruct t, n; simpl; try done. repeat case_match; done. Qed.

Lemma tinsert_nodes sz x s n t : nodes (tinsert sz x s n t) ≡ₚ x :: nodes t.
Proof.
  revert n. induction t as [|y rest l IHl r IHr]; intros n; [done|]. destruct n as [|n]; simpl; [solve_Permutation|].
  destruct (sz y =? s); simpl; [solve_Permutation|]. destruct (Z.testbit s (Z.of_nat n)); simpl; [rewrite IHr|rewrite IHl]; solve_Permutation.
Qed.

Lemma half_range lo n : (2 ^ Z.of_nat (S n) | lo) → (2 ^ Z.of_nat n | lo) ∧ (2 ^ Z.of_nat n | lo + 2 ^ Z.of_nat n).
Proof.
  intros [c ->]. rewrite Nat2Z.inj_succ, Z.pow_succ_r by lia. split; [exists (c * 2)|exists (c * 2 + 1)]; lia.
Qed.

Lemma tinsert_trie sz x s lo n t :
  (2 ^ Z.of_nat n | lo) → lo ≤ s < lo + 2 ^ Z.of_nat n → sz x = s → trie sz lo n t → trie sz lo n (tinsert sz x s n t).
Proof.
  intros Hd Hs Hx. revert lo n Hd Hs. induction t as [|y rest l IHl r IHr]; intros lo n Hd Hs Ht.
  { simpl. rewrite Hx. split; [done|]. destruct n; done. }
  simpl in Ht. destruct Ht as (H1 & H2 & H3). destruct n as [|n]; simpl.
  - split_and!; [lia|lia| |apply H3|apply H3]. constructor; [|done]. change (2 ^ Z.of_nat 0) with 1 in *. lia.
  - pose proof (range_bit lo (Z.of_nat n) s ltac:(lia)) as Hb. replace (Z.of_nat n + 1) with (Z.of_nat (S n)) in Hb by lia. specialize (Hb Hd Hs).
    destruct (half_range lo n Hd) as [Hd1 Hd2]. destruct H3 as [Hl Hr]. destruct (Z.eqb_spec (sz y) s) as [E|E]; [|destruct (Z.testbit s (Z.of_nat n))]; simpl; split_and!; auto; try lia.
    constructor; [lia|done].
Qed.

Lemma sat_rewrite w us new keep : new ≡ₚ us ++ keep → NoDup new.*1 → sat w keep → sat (writes w us) new.
Proof. intros E Hn Hk. rewrite E in *. apply sat_writes; done. Qed.

(** The cells of a ring with one more chunk. *)
Lemma group_insert i x y rest :
  let f := hd y rest in
  ∃ c, group_cells i y rest ≡ₚ [(fd y, f); (bk f, y)] ++ c ∧
       group_cells i y (x :: rest) ≡ₚ [(bk f, x); (fd y, x); (fd x, f); (bk x, y); (parent x, 0)] ++ [(index x, i); (child x 0, 0); (child x 1, 0)] ++ c.
Proof.
  intros f. destruct (ring_insert_cells y x rest) as (c & E1 & E2). fold f in E1, E2. set (g := rest ≫= λ y, node_cells i y 0 0 0).
  exists ((index y, i) :: c ++ g). unfold group_cells. rewrite E1, E2. fold g.
  change ((x :: rest) ≫= _) with ([(index x, i); (parent x, 0); (child x 0, 0); (child x 1, 0)] ++ g). split; solve_Permutation.
Qed.

Lemma group_insert_loop m i x y rest l r s p k fuel :
  chunksize (mem m) y = s → sat (mem m) (tcells i p (Node y rest l r)) → sat (mem m) [(index x, i); (child x 0, 0); (child x 1, 0)] →
  NoDup (tree_fields (x :: nodes (Node y rest l r))) → (∀ z, z ∈ nodes (Node y rest l r) → least_addr m ≤ z) →
  ∃ us, insert_loop (S fuel) x s y k m = Ok (puts m us) ∧ (∀ a, a ∈ us.*1 → a ∈ tree_fields (x :: nodes (Node y rest l r))) ∧
        sat (writes (mem m) us) (tcells i p (Node y (x :: rest) l r)).
Proof.
  intros Hs Hsat Hx Hn Hle. destruct (group_insert i x y rest) as (c & E1 & E2). set (f := hd y rest) in *.
  set (us := [(bk f, x); (fd y, x); (fd x, f); (bk x, y); (parent x, 0)]) in *. set (xs := [(index x, i); (child x 0, 0); (child x 1, 0)]) in *.
  set (o := (parent y, p) :: (child y 0, root l) :: (child y 1, root r) :: tcells i y l ++ tcells i y r).
  assert (tcells i p (Node y rest l r) ≡ₚ [(fd y, f); (bk f, y)] ++ c ++ o) as F1 by (unfold o; cbn [tcells]; rewrite E1; solve_Permutation).
  assert (tcells i p (Node y (x :: rest) l r) ≡ₚ us ++ xs ++ c ++ o) as F2 by (unfold o; cbn [tcells]; rewrite E2; solve_Permutation).
  assert ((tcells i p (Node y (x :: rest) l r)).*1 ≡ₚ tree_fields (x :: nodes (Node y rest l r))) as Hk.
  { rewrite tcells_keys. apply tree_fields_proper. cbn [nodes]. solve_Permutation. }
  rewrite F1, !sat_app, !sat_cons in Hsat. destruct Hsat as ((Hf & _ & _) & Hc & Ho).
  assert (f ∈ nodes (Node y rest l r)) as Hfn by (unfold f; destruct rest; cbn [hd nodes]; rewrite ?elem_of_cons, ?elem_of_app, ?elem_of_cons; auto).
  exists us. split_and!.
  - cbn [insert_loop]. rewrite Hs, Z.eqb_refl. simpl in Hf. simpl. rewrite Hf. unfold ok_address.
    rewrite !(proj2 (Z.leb_le _ _)); [done|apply Hle, Hfn|apply Hle; left].
  - intros a Ha. rewrite <- Hk, F2, fmap_app, elem_of_app. by left.
  - apply (sat_rewrite _ _ _ (xs ++ c ++ o)); [done|rewrite Hk; done|]. rewrite !sat_app. done.
Qed.

(** [insert_large_chunk] below a node: the chunk goes where [tinsert] has it. *)
Lemma insert_loop_spec m i x s t : ∀ n p lo fuel,
  t ≠ Leaf → (n < fuel)%nat → (n ≤ 64)%nat → trie (chunksize (mem m)) lo n t → (2 ^ Z.of_nat n | lo) → lo ≤ s < lo + 2 ^ Z.of_nat n →
  sat (mem m) (tcells i p t) → sat (mem m) [(index x, i); (child x 0, 0); (child x 1, 0)] →
  NoDup (tree_fields (x :: nodes t)) → (∀ z, z ∈ nodes t → 0 < least_addr m ≤ z) →
  ∃ us, insert_loop fuel x s (root t) (key_bits s n) m = Ok (puts m us) ∧ (∀ a, a ∈ us.*1 → a ∈ tree_fields (x :: nodes t)) ∧
        sat (writes (mem m) us) (tcells i p (tinsert (chunksize (mem m)) x s n t)).
Proof.
  induction t as [|y rest l IHl r IHr]; intros n p lo fuel Hne Hfu Hn64 Ht Hd Hs Hsat Hx Hn Hle; [done|]. clear Hne.
  destruct fuel as [|fuel]; [lia|]. cbn [root]. destruct (Z.eqb_spec (chunksize (mem m) y) s) as [E|E].
  { destruct (group_insert_loop m i x y rest l r s p (key_bits s n) fuel) as (us & H1 & H2 & H3); try done; [intros z Hz; apply Hle, Hz|].
    exists us. split_and!; [done..|]. destruct n; simpl; [done|]. rewrite (proj2 (Z.eqb_eq _ _) E). done. }
  destruct n as [|n]; [simpl in Ht; change (2 ^ Z.of_nat 0) with 1 in *; lia|].
  set (f := if Z.testbit s (Z.of_nat n) then FR y rest l else FL y rest r). set (u := if Z.testbit s (Z.of_nat n) then r else l).
  assert (Node y rest l r = plug u f) as Et by (unfold u, f; case_match; done).
  assert (tinsert (chunksize (mem m)) x s (S n) (Node y rest l r) = plug (tinsert (chunksize (mem m)) x s n u) f) as Ei.
  { simpl. rewrite (proj2 (Z.eqb_neq _ _) E). unfold u, f. case_match; done. }
  assert (child y (Z.land (Z.shiftr (key_bits s (S n)) 63) 1) = hole_of f ∧ top_of f = y) as [Ec Etop].
  { rewrite key_bits_top by lia. unfold f. case_match; done. }
  pose proof (range_bit lo (Z.of_nat n) s ltac:(lia)) as Hb. replace (Z.of_nat n + 1) with (Z.of_nat (S n)) in Hb by lia. specialize (Hb Hd Hs).
  destruct (half_range lo n Hd) as [Hd1 Hd2]. simpl in Ht. destruct Ht as (_ & _ & Hl & Hr).
  assert (∃ lo', trie (chunksize (mem m)) lo' n u ∧ (2 ^ Z.of_nat n | lo') ∧ lo' ≤ s < lo' + 2 ^ Z.of_nat n) as (lo' & Hu & Hd' & Hs').
  { unfold u. destruct (Z.testbit s (Z.of_nat n)); eauto. }
  assert (∀ P : tree → Prop, P l → P r → P u) as Hsel by (intros P Pl Pr; unfold u; case_match; done).
  pattern l in IHl. match type of IHl with ?P l => pose proof (Hsel P IHl IHr) as IHu end. cbv beta in IHu. clear IHl IHr Hsel Hl Hr Hb Hd1 Hd2.
  rewrite Ei. rewrite Et in *. clearbody f u. rewrite plug_cells, sat_cons, sat_app in Hsat. destruct Hsat as (Hh & Hfr & Hus). simpl in Hh. rewrite Etop in *.
  assert (∀ u', tree_fields (nodes u') ≡ₚ tree_fields (x :: nodes u) → (tcells i p (plug u' f)).*1 ≡ₚ tree_fields (x :: nodes (plug u f))) as Hk.
  { intros u' Hu'. rewrite tcells_keys, tree_fields_cons, !plug_nodes, !tree_fields_app, Hu', tree_fields_cons. solve_Permutation. }
  cbn [insert_loop]. rewrite (proj2 (Z.eqb_neq _ _) E). simpl. rewrite Ec, Hh, key_bits_next by lia.
  destruct u as [|z zs ul ur] eqn:Eu.
  - simpl. assert (least_addr m ≤ y). { apply Hle. rewrite plug_nodes, <- Etop. destruct f; left. }
    assert (y ≤ hole_of f) by (rewrite <- Etop; destruct f; simpl; unfold child; lia).
    unfold ok_address. rewrite (proj2 (Z.leb_le _ _)) by lia. set (us := [(hole_of f, x); (parent x, y); (bk x, x); (fd x, x)]).
    assert (tcells i p (plug (Node x [] Leaf Leaf) f) ≡ₚ us ++ [(index x, i); (child x 0, 0); (child x 1, 0)] ++ frame_cells i p f) as En.
    { rewrite plug_cells, Etop. unfold us. cbn. solve_Permutation. }
    pose proof (Hk (Node x [] Leaf Leaf) ltac:(done)) as Hk'. exists us. split_and!; [done| |].
    + intros a Ha. rewrite <- Hk', En, fmap_app, elem_of_app. by left.
    + eapply sat_rewrite; [exact En|rewrite Hk'; done|]. apply sat_app. done.
  - rewrite <- Eu in *. assert (root u ∈ nodes (plug u f)) as Hroot by (rewrite plug_nodes, Eu; left).
    rewrite (proj2 (Z.eqb_neq (root u) 0)) by (pose proof (Hle _ Hroot); lia). simpl.
    assert (tree_fields (x :: nodes (plug u f)) ≡ₚ tree_fields (x :: nodes u) ++ tree_fields (frame_nodes f)) as Hsp.
    { rewrite <- tree_fields_app. apply tree_fields_proper. rewrite plug_nodes. done. }
    pose proof Hn as Hn'. rewrite Hsp in Hn'. apply NoDup_app in Hn' as (Hn1 & Hn2 & _).
    destruct (IHu n y lo' fuel) as (us & H1 & H2 & H3); try done; [rewrite Eu; done|lia|lia|intros a Ha; apply Hle; rewrite plug_nodes; apply elem_of_app; by left|].
    exists us. split_and!; [done| |].
    + intros a Ha. rewrite Hsp. apply elem_of_app. left. auto.
    + rewrite plug_cells, tinsert_root by (rewrite Eu; done). rewrite Etop, sat_cons, sat_app. simpl.
      assert (sat (writes (mem m) us) ((hole_of f, root u) :: frame_cells i p f)) as Hfr'; [|apply sat_cons in Hfr'; tauto].
      apply sat_frame; [|apply sat_cons; done]. intros a Ha Hu'. apply H2 in Hu'. apply (Hn2 a Hu'). rewrite <- frame_keys. exact Ha.
Qed.

(** ** Removal *)

Lemma writes_app w u1 u2 : writes (writes w u1) u2 = writes w (u1 ++ u2).
Proof. revert w. induction u1 as [|[a v] u1 IH]; intros w; [done|]. apply IH. Qed.

Lemma puts_app m u1 u2 : puts (puts m u1) u2 = puts m (u1 ++ u2).
Proof. unfold puts. simpl. rewrite writes_app. done. Qed.

(** The word of the bin links to the outermost node. *)
Lemma ctx_root i h k : k ≠ [] → ∃ z, (h, z) ∈ ctx_cells i h k ∧ z ∈ ctx_nodes k.
Proof.
  induction k as [|f k IH]; [done|]. intros _. cbn [ctx_cells]. change (ctx_nodes (f :: k)) with (frame_nodes f ++ ctx_nodes k). destruct k as [|g k].
  - exists (top_of f). split; [left|]. rewrite elem_of_app. left. destruct f; left.
  - destruct (IH ltac:(done)) as (z & H1 & H2). exists z. rewrite elem_of_cons, !elem_of_app. auto.
Qed.

Lemma sat_elem w c a v : sat w c → (a, v) ∈ c → w a = v.
Proof. unfold sat. rewrite Forall_forall. intros H1 H2. apply (H1 _ H2). Qed.

Section unlink.
Context (gm i : Z) (m : mstate).
Let h := treebin_at gm i.

(** The first part of [relink]: the word that links to [x] is written. *)
Lemma relink_slot x k r v :
  sat (mem m) ((slot h k, x) :: (index x, i) :: ctx_cells i h k) → x ≠ 0 → x ∉ ctx_nodes k → (∀ z, z ∈ ctx_nodes k → least_addr m ≤ z) →
  (if x =? mem m (treebin_at gm (mem m (index x))) then
     Ok (if r =? 0 then with_treemap (put m (treebin_at gm (mem m (index x))) r) v else put m (treebin_at gm (mem m (index x))) r)
   else if ok_address m (above h k) then
     Ok (if mem m (child (above h k) 0) =? x then put m (child (above h k) 0) r else put m (child (above h k) 1) r)
   else Err Aborted) =
  Ok (if (r =? 0) && bool_decide (k = []) then with_treemap (put m (slot h k) r) v else put m (slot h k) r).
Proof.
  rewrite !sat_cons. simpl. intros (H1 & H2 & H3) Hx Hn Hle. rewrite H2. fold h. destruct k as [|f k].
  { simpl in *. rewrite H1, Z.eqb_refl. rewrite andb_true_r. done. }
  destruct (ctx_root i h (f :: k) ltac:(done)) as (z & Hz & Hzn). rewrite (sat_elem _ _ _ _ H3 Hz).
  rewrite (proj2 (Z.eqb_neq x z)) by (intros ->; done). simpl. rewrite andb_false_r.
  assert (top_of f ∈ ctx_nodes (f :: k)) as Ht by (apply elem_of_app; left; destruct f; left).
  unfold ok_address. rewrite (proj2 (Z.leb_le _ _)) by auto. do 2 f_equal. destruct f as [y rest o|y rest o]; simpl in *.
  - rewrite H1, Z.eqb_refl. done.
  - assert (mem m (child y 0) = root o) as ->. { apply (sat_elem _ _ _ _ H3). rewrite !elem_of_cons. auto. }
    rewrite (proj2 (Z.eqb_neq _ _)); [done|]. intros <-. destruct o as [|z' rs ol or]; [done|]. apply Hn. simpl. rewrite elem_of_cons, !elem_of_app, elem_of_cons. auto.
Qed.

(** The second part: [r] gets the children of [x]. *)
Definition hang (r d : Z) (t : tree) : list (Z * Z) :=
  match t with Leaf => [] | Node z _ _ _ => [(child r d, z); (parent z, r)] end.

Lemma hang_cells x r d t :
  ∃ keep, (child r d, root t) :: tcells i r t ≡ₚ hang r d t ++ keep ∧ ∀ w, sat w ((child r d, 0) :: tcells i x t) → sat w keep.
Proof.
  destruct t as [|z rest tl tr]; [exists [(child r d, 0)]; split; [done|auto]|].
  exists ((child z 0, root tl) :: (child z 1, root tr) :: group_cells i z rest ++ tcells i z tl ++ tcells i z tr). split; [reflexivity|].
  intros w. cbn [tcells]. rewrite !sat_cons. tauto.
Qed.

Lemma move_child_spec m' x r d t :
  mem m' (child x d) = root t → (∀ z, z ∈ nodes t → 0 < least_addr m' ≤ z) → move_child x r d m' = Ok (puts m' (hang r d t)).
Proof.
  intros E Hz. unfold move_child. rewrite E. destruct t as [|z rest tl tr]; [destruct m'; done|]. assert (0 < least_addr m' ≤ z) by (apply Hz; left). simpl.
  rewrite (proj2 (Z.eqb_neq z 0)) by lia. unfold ok_address. rewrite (proj2 (Z.leb_le _ _)) by lia. done.
Qed.

Lemma relink_spec x k r rest tl tr :
  let new := fill k (Node r rest tl tr) in
  sat (mem m) ((slot h k, x) :: [(index x, i); (child x 0, root tl); (child x 1, root tr)] ++ ctx_cells i h k ++
               ((child r 0, 0) :: tcells i x tl) ++ ((child r 1, 0) :: tcells i x tr) ++ group_cells i r rest) →
  NoDup (h :: tree_fields (x :: nodes new)) → NoDup (x :: nodes new) → 0 < least_addr m ≤ x → (∀ z, z ∈ nodes new → 0 < least_addr m ≤ z) →
  ∃ us, relink gm x (above h k) r m = Ok (puts m us) ∧ (∀ a, a ∈ us.*1 → a ∈ h :: tree_fields (nodes new)) ∧ sat (writes (mem m) us) (bin_cells i h new).
Proof.
  intros new Hsat Hn Hnx Hx Hle. rewrite sat_cons, !sat_app in Hsat. destruct Hsat as (Hslot & Hxc & Hctx & Hl & Hr & Hg).
  assert (nodes new ≡ₚ (r :: rest ++ nodes tl ++ nodes tr) ++ ctx_nodes k) as Hnn by apply fill_nodes.
  assert (∀ z, z ∈ r :: rest ++ nodes tl ++ nodes tr ∨ z ∈ ctx_nodes k → z ∈ nodes new) as Hin by (intros z; rewrite Hnn, elem_of_app; done).
  assert (0 < least_addr m ≤ r) as Hrle by (apply Hle, Hin; left; left).
  destruct (hang_cells x r 0 tl) as (kl & El & Hkl). destruct (hang_cells x r 1 tr) as (kr & Er & Hkr).
  set (us1 := [(slot h k, r); (parent r, above h k)]). set (us := us1 ++ hang r 0 tl ++ hang r 1 tr).
  assert (bin_cells i h new ≡ₚ us ++ group_cells i r rest ++ kl ++ kr ++ ctx_cells i h k) as En.
  { unfold new. rewrite fill_cells. cbn [root tcells]. transitivity ((slot h k, r) :: (parent r, above h k) :: ((child r 0, root tl) :: tcells i r tl) ++
      ((child r 1, root tr) :: tcells i r tr) ++ group_cells i r rest ++ ctx_cells i h k); [solve_Permutation|]. rewrite El, Er. unfold us, us1. solve_Permutation. }
  assert ((bin_cells i h new).*1 ≡ₚ h :: tree_fields (nodes new)) as Hk by (unfold bin_cells; rewrite fmap_cons, tcells_keys; done).
  assert (∀ a, a ∈ us.*1 → a ∈ h :: tree_fields (nodes new)) as Hus by (intros a Ha; rewrite <- Hk, En, fmap_app, elem_of_app; by left).
  assert (∀ a u, a ∈ tree_words x → (∀ b, b ∈ u.*1 → b ∈ us.*1) → writes (mem m) u a = mem m a) as Hfr.
  { intros a u Ha Hu. apply writes_other. intros Hin'. apply Hu, Hus in Hin'. rewrite tree_fields_cons in Hn. apply NoDup_cons in Hn as [Hh Hn].
    apply NoDup_app in Hn as (_ & Hn & _). apply elem_of_cons in Hin' as [->|Hin']; [apply Hh, elem_of_app; by left|apply (Hn a Ha Hin')]. }
  rename Hn into Hnh. rewrite !sat_cons in Hxc. simpl in Hxc. destruct Hxc as (Hxi & Hx0 & Hx1 & _). apply NoDup_cons in Hnx as [Hnx _].
  exists us. split_and!; [|done|].
  - unfold relink. rewrite (relink_slot x k r); [|apply sat_cons; split; [done|apply sat_cons; done]|lia|intros Hk'; apply Hnx, Hin; auto|intros z Hz; apply Hle, Hin; auto].
    simpl. rewrite (proj2 (Z.eqb_neq r 0)) by lia. simpl. unfold ok_address. simpl. rewrite (proj2 (Z.leb_le _ _)) by lia.
    change (put (put m (slot h k) r) (parent r) (above h k)) with (puts m us1).
    rewrite (move_child_spec _ x r 0 tl); [simpl; rewrite puts_app| |intros z Hz; apply Hle, Hin; left; rewrite elem_of_cons, !elem_of_app; auto].
    + rewrite (move_child_spec _ x r 1 tr); [rewrite puts_app, <- app_assoc; done| |intros z Hz; apply Hle, Hin; left; rewrite elem_of_cons, !elem_of_app; auto].
      change (mem (puts m ?u)) with (writes (mem m) u). rewrite Hfr; [done|unfold tree_words; rewrite !elem_of_cons; auto|]. intros b. unfold us. rewrite !fmap_app, !elem_of_app. tauto.
    + change (mem (puts m ?u)) with (writes (mem m) u). rewrite Hfr; [done|unfold tree_words; rewrite !elem_of_cons; auto|]. intros b. unfold us. rewrite !fmap_app, !elem_of_app. tauto.
  - eapply sat_rewrite; [exact En|rewrite Hk|rewrite !sat_app; auto]. apply NoDup_cons in Hnh as [Hh Hnh]. rewrite tree_fields_cons in Hh, Hnh.
    apply NoDup_cons. split; [intros Ha; apply Hh, elem_of_app; auto|]. apply NoDup_app in Hnh. apply Hnh.
Qed.

(** Without a replacement the word that links to [x] becomes null. *)
Lemma relink_none x k :
  let new := fill k Leaf in
  sat (mem m) ((slot h k, x) :: (index x, i) :: ctx_cells i h k) → x ≠ 0 → x ∉ ctx_nodes k → (∀ z, z ∈ ctx_nodes k → least_addr m ≤ z) →
  NoDup (h :: tree_fields (ctx_nodes k)) →
  relink gm x (above h k) 0 m =
    Ok (match new with Leaf => with_treemap (put m (slot h k) 0) (Z.land (treemap m) (u32 (Z.lnot (idx2bit i)))) | _ => put m (slot h k) 0 end) ∧
  (slot h k ∈ h :: tree_fields (ctx_nodes k)) ∧ sat (writes (mem m) [(slot h k, 0)]) (bin_cells i h new).
Proof.
  intros new Hsat Hx Hnx Hle Hn. assert (mem m (index x) = i) as Hi by (rewrite !sat_cons in Hsat; apply Hsat).
  assert (bin_cells i h new ≡ₚ [(slot h k, 0)] ++ ctx_cells i h k) as En by (unfold new; rewrite fill_cells; done).
  assert ((bin_cells i h new).*1 ≡ₚ h :: tree_fields (ctx_nodes k)) as Hk.
  { unfold bin_cells. rewrite fmap_cons, tcells_keys. unfold new. rewrite fill_nodes. done. }
  split_and!.
  - unfold relink. rewrite (relink_slot x k 0) by done. rewrite Hi. simpl. destruct k as [|f k]; [rewrite bool_decide_eq_true_2 by done; done|]. rewrite bool_decide_eq_false_2 by done. simpl.
    pose proof (fill_not_leaf f k Leaf) as Hnl. unfold new. destruct (fill (f :: k) Leaf); done.
  - rewrite <- Hk, En. left.
  - eapply sat_rewrite; [exact En|rewrite Hk; done|]. rewrite !sat_cons in Hsat. apply Hsat.
Qed.

(** A chunk that is not the first of its ring. *)
Lemma group_remove x y r1 r2 :
  let f := hd y r2 in let q := List.last r1 y in
  ∃ c, group_cells i y (r1 ++ x :: r2) ≡ₚ [(fd q, x); (bk x, q); (fd x, f); (bk f, x)] ++ node_cells i x 0 0 0 ++ c ∧
       group_cells i y (r1 ++ r2) ≡ₚ [(bk f, q); (fd q, f)] ++ c.
Proof.
  intros f q. destruct (ring_remove_cells y x r1 r2) as (c & E1 & E2). fold f q in E1, E2.
  exists ((index y, i) :: c ++ (r1 ≫= λ y, node_cells i y 0 0 0) ++ (r2 ≫= λ y, node_cells i y 0 0 0)).
  unfold group_cells. rewrite E1, E2, !bind_app, bind_cons. generalize (node_cells i x 0 0 0). intros g. split; solve_Permutation.
Qed.

(** The first chunk of a ring that has another: the last one takes its place. *)
Lemma group_rotate x r r1 :
  let f := hd r r1 in
  ∃ c, group_cells i x (r1 ++ [r]) ≡ₚ [(index x, i); (fd x, f); (bk f, x); (fd r, x); (bk x, r); (parent r, 0); (child r 0, 0); (child r 1, 0)] ++ c ∧
       group_cells i r r1 ≡ₚ [(bk f, r); (fd r, f)] ++ c.
Proof.
  intros f. assert (∃ c, r1 ++ [r] = f :: c) as [d E] by (destruct r1; simpl; eauto).
  exists ((index r, i) :: chain_cells (r1 ++ [r]) ++ (r1 ≫= λ y, node_cells i y 0 0 0)).
  assert (ring_cells x (r1 ++ [r]) ≡ₚ [(fd x, f); (bk f, x); (fd r, x); (bk x, r)] ++ chain_cells (r1 ++ [r])) as E1.
  { unfold ring_cells. rewrite <- app_assoc. change ([r] ++ [x]) with (r :: x :: []). rewrite app_comm_cons, chain_app. simpl app. rewrite E. simpl. solve_Permutation. }
  assert (ring_cells r r1 ≡ₚ [(bk f, r); (fd r, f)] ++ chain_cells (r1 ++ [r])) as E2.
  { unfold ring_cells. rewrite E. simpl. solve_Permutation. }
  unfold group_cells. rewrite E1, E2, bind_app. change ([r] ≫= _) with [(index r, i); (parent r, 0); (child r 0, 0); (child r 1, 0)].
  split; solve_Permutation.
Qed.
End unlink.

Lemma bin_keys i h t' : (bin_cells i h t').*1 ≡ₚ h :: tree_fields (nodes t').
Proof. unfold bin_cells. rewrite fmap_cons, tcells_keys. done. Qed.

Section remove.
Context (gm i : Z) (m : mstate) (t : tree) (lo : Z) (n : nat).
Let h := treebin_at gm i.
Context (Hsat : sat (mem m) (bin_cells i h t)) (Hnodup : NoDup (nodes t)) (Hkeys : NoDup (h :: tree_fields (nodes t)))
  (Hle : ∀ z, z ∈ nodes t → 0 < least_addr m ≤ z) (Hh : 0 < h) (Htrie : trie (chunksize (mem m)) lo n t) (Hn : (n ≤ 64)%nat).

(** What it means to take [x] out: the trie has the other chunks, and the map is changed
    when there are none. *)
Definition removed (x : Z) : Prop :=
  ∃ us t', unlink_large_chunk gm x m =
           Ok (match t' with Leaf => with_treemap (puts m us) (Z.land (treemap m) (u32 (Z.lnot (idx2bit i)))) | _ => puts m us end) ∧
           (∀ a, a ∈ us.*1 → a ∈ h :: tree_fields (nodes t)) ∧ x :: nodes t' ≡ₚ nodes t ∧ trie (chunksize (mem m)) lo n t' ∧
           sat (writes (mem m) us) (bin_cells i h t').

Lemma others x t' : x :: nodes t' ≡ₚ nodes t → NoDup (h :: tree_fields (x :: nodes t')) ∧ NoDup (h :: tree_fields (nodes t')) ∧ (∀ a, a ∈ h :: tree_fields (nodes t') → a ∈ h :: tree_fields (nodes t)).
Proof.
  intros E. rewrite <- E in Hkeys. split_and!; [done| |].
  - rewrite tree_fields_cons in Hkeys. apply NoDup_cons in Hkeys as [H1 H2]. apply NoDup_app in H2 as (_ & _ & H2). apply NoDup_cons. split; [|done].
    intros Ha. apply H1, elem_of_app. by right.
  - intros a. rewrite <- E, tree_fields_cons, !elem_of_cons, elem_of_app. tauto.
Qed.

Lemma above_pos k y rest l r : t = fill k (Node y rest l r) → 0 < above h k.
Proof.
  intros ->. destruct k as [|f k]; [done|]. assert (top_of f ∈ nodes (fill (f :: k) (Node y rest l r))); [|specialize (Hle (top_of f) ltac:(done)); simpl; lia].
  rewrite fill_nodes, elem_of_app. right. change (ctx_nodes (f :: k)) with (frame_nodes f ++ ctx_nodes k). apply elem_of_app. left. destruct f; left.
Qed.

Lemma ring_distinct k y rest l r : t = fill k (Node y rest l r) → NoDup (y :: rest) ∧ ∀ z, z ∈ y :: rest → 0 < least_addr m ≤ z.
Proof.
  intros Et. assert (nodes t ≡ₚ (y :: rest) ++ nodes l ++ nodes r ++ ctx_nodes k) as E by (rewrite Et, fill_nodes; cbn [nodes]; solve_Permutation).
  split; [rewrite E in Hnodup; apply NoDup_app in Hnodup; apply Hnodup|]. intros z Hz. apply Hle. rewrite E, elem_of_app. by left.
Qed.

Lemma remove_chained k x y r1 r2 l r : t = fill k (Node y (r1 ++ x :: r2) l r) → removed x.
Proof.
  intros Et. destruct (group_remove i x y r1 r2) as (c & E1 & E2). set (f := hd y r2) in *. set (q := List.last r1 y) in *.
  set (us := [(bk f, q); (fd q, f)]) in *. set (t' := fill k (Node y (r1 ++ r2) l r)).
  set (o := (slot h k, y) :: (parent y, above h k) :: (child y 0, root l) :: (child y 1, root r) :: tcells i y l ++ tcells i y r ++ ctx_cells i h k).
  assert (bin_cells i h t ≡ₚ [(fd q, x); (bk x, q); (fd x, f); (bk f, x)] ++ node_cells i x 0 0 0 ++ c ++ o) as F1.
  { rewrite Et, fill_cells. unfold o. cbn [root tcells]. rewrite E1. generalize (node_cells i x 0 0 0). intros g. solve_Permutation. }
  assert (bin_cells i h t' ≡ₚ us ++ c ++ o) as F2 by (unfold t'; rewrite fill_cells; unfold o; cbn [root tcells]; rewrite E2; solve_Permutation).
  assert (x :: nodes t' ≡ₚ nodes t) as Hnn by (rewrite Et; unfold t'; rewrite !fill_nodes; cbn [nodes]; solve_Permutation).
  destruct (others x t' Hnn) as (_ & Hk' & Hin). pose proof (ring_distinct k y _ l r Et) as [Hr Hrl].
  pose proof Hsat as H. rewrite F1 in H. apply sat_app in H as [H1 H]. apply sat_app in H as [H2 Hc]. unfold node_cells in H2. rewrite !sat_cons in H1. rewrite !sat_cons in H2.
  destruct H1 as (H1 & H3 & H4 & H5 & _), H2 as (_ & H2 & _). simpl in H1, H2, H3, H4, H5.
  apply NoDup_cons in Hr as [Hy Hr]. apply NoDup_app in Hr as (_ & Hr1 & Hr2). apply NoDup_cons in Hr2 as [Hr2 _].
  assert (q ≠ x).
  { unfold q. intros E. destruct r1 as [|z r1 _] using rev_ind; [simpl in E; apply Hy; rewrite E; left|]. rewrite List.last_last in E.
    apply (Hr1 z); [apply elem_of_app; right; left|rewrite E; left]. }
  assert (f ∈ y :: r1 ++ x :: r2) as Hf by (unfold f; destruct r2; simpl; rewrite ?elem_of_cons, ?elem_of_app, ?elem_of_cons; auto).
  exists us, t'. split_and!.
  - unfold unlink_large_chunk, replacement. rewrite H2, H3, H4, H1, H5, (proj2 (Z.eqb_neq q x)), !Z.eqb_refl by done. simpl. unfold ok_address.
    rewrite (proj2 (Z.leb_le _ _)) by apply (Hrl f Hf). simpl. pose proof (fill_not_leaf (FL y (r1 ++ r2) r) k l) as Hnl.
    change (fill (FL y (r1 ++ r2) r :: k) l) with t' in Hnl. destruct t'; done.
  - intros a Ha. apply Hin. rewrite <- bin_keys, F2, fmap_app, elem_of_app. by left.
  - done.
  - destruct (trie_fill _ _ _ k (Node y (r1 ++ x :: r2) l r) ltac:(done) ltac:(rewrite <- Et; exact Htrie)) as (lo' & n' & Ht & Hf'). apply Hf'.
    simpl in Ht |- *. rewrite Forall_app, Forall_cons_iff in Ht. rewrite Forall_app. tauto.
  - eapply sat_rewrite; [exact F2|rewrite bin_keys; done|done].
Qed.

Lemma trie_at k u : u ≠ Leaf → t = fill k u → ∃ lo' n', trie (chunksize (mem m)) lo' n' u ∧ ∀ t', trie (chunksize (mem m)) lo' n' t' → trie (chunksize (mem m)) lo n (fill k t').
Proof. intros Hu Et. apply (trie_fill _ _ _ _ u Hu). rewrite <- Et. done. Qed.

Lemma remove_first k x r r1 l tr : t = fill k (Node x (r1 ++ [r]) l tr) → removed x.
Proof.
  intros Et. destruct (group_rotate i x r r1) as (c & E1 & E2). set (f := hd r r1) in *.
  set (us := [(bk f, r); (fd r, f)]) in *. set (t' := fill k (Node r r1 l tr)).
  set (keep := [(slot h k, x); (index x, i); (child x 0, root l); (child x 1, root tr); (child r 0, 0); (child r 1, 0)] ++ c ++ ctx_cells i h k ++ tcells i x l ++ tcells i x tr).
  assert (bin_cells i h t ≡ₚ [(fd x, f); (bk x, r); (parent x, above h k); (parent r, 0)] ++ [(bk f, x); (fd r, x)] ++ keep) as F1.
  { rewrite Et, fill_cells. unfold keep. cbn [root tcells]. rewrite E1. solve_Permutation. }
  assert (x :: nodes t' ≡ₚ nodes t) as Hnn by (rewrite Et; unfold t'; rewrite !fill_nodes; cbn [nodes]; solve_Permutation).
  destruct (others x t' Hnn) as (Hkx & Hk' & Hin). pose proof (ring_distinct k x _ l tr Et) as [Hr Hrl]. pose proof (above_pos k _ _ _ _ Et) as Habove.
  assert (NoDup ((us ++ keep).*1)) as Hnd.
  { rewrite <- bin_keys, F1, fmap_app in Hkeys. apply NoDup_app in Hkeys as (_ & _ & H). exact H. }
  pose proof Hsat as H. rewrite F1 in H. apply sat_app in H as [H1 H]. apply sat_app in H as [H2 Hkeep]. rewrite !sat_cons in H1. rewrite !sat_cons in H2.
  destruct H1 as (H1 & H3 & H4 & _), H2 as (H2 & H5 & _). simpl in H1, H2, H3, H4, H5.
  apply NoDup_cons in Hr as [Hx _]. assert (r ≠ x) by (intros ->; apply Hx, elem_of_app; right; left).
  assert (f ∈ x :: r1 ++ [r]) as Hf by (unfold f; destruct r1; simpl; rewrite ?elem_of_cons, ?elem_of_app; auto).
  assert (replacement x m = Ok (r, puts m us)) as Hrep.
  { unfold replacement. rewrite H1, H3, H2, H5, (proj2 (Z.eqb_neq r x)), !Z.eqb_refl by done. simpl. unfold ok_address. rewrite (proj2 (Z.leb_le _ _)) by apply (Hrl f Hf). done. }
  destruct (relink_spec gm i (puts m us) x k r r1 l tr) as (us' & R1 & R2 & R3); fold h; try change (fill k (Node r r1 l tr)) with t'.
  - change (mem (puts m us)) with (writes (mem m) us). pose proof (sat_writes _ _ _ Hnd Hkeep) as Hw. rewrite E2. fold us.
    unfold keep in Hw. rewrite !sat_app, !sat_cons in Hw. rewrite !sat_cons, !sat_app, !sat_cons. tauto.
  - done.
  - rewrite Hnn. done.
  - apply Hle. rewrite <- Hnn. left.
  - intros z Hz. apply Hle. rewrite <- Hnn. by right.
  - fold h in R1, R2, R3. exists (us ++ us'), t'. split_and!.
    + unfold unlink_large_chunk. rewrite Hrep, H4. simpl. rewrite (proj2 (Z.eqb_neq (above h k) 0)) by lia. simpl. rewrite R1, puts_app.
      pose proof (fill_not_leaf (FL r r1 tr) k l) as Hnl. change (fill (FL r r1 tr :: k) l) with t' in Hnl. destruct t'; done.
    + intros a. rewrite fmap_app, elem_of_app. intros [Ha|Ha]; [|auto]. rewrite <- bin_keys, F1, !fmap_app, !elem_of_app. right. left. exact Ha.
    + done.
    + destruct (trie_at k (Node x (r1 ++ [r]) l tr) ltac:(done) Et) as (lo' & n' & Ht & Hf'). apply Hf'. simpl in Ht |- *. rewrite Forall_app, Forall_cons_iff in Ht.
      destruct Ht as (Ha & (Hb & Hc & _) & Hd). rewrite Hc. split_and!; try lia; done.
    + rewrite <- writes_app. exact R3.
Qed.

Lemma remove_leaf k x : t = fill k (Node x [] Leaf Leaf) → removed x.
Proof.
  intros Et. set (t' := fill k Leaf).
  assert (bin_cells i h t ≡ₚ [(fd x, x); (bk x, x); (parent x, above h k); (child x 0, 0); (child x 1, 0)] ++ (slot h k, x) :: (index x, i) :: ctx_cells i h k) as F1.
  { rewrite Et, fill_cells. cbn. solve_Permutation. }
  assert (x :: nodes t' ≡ₚ nodes t) as Hnn by (rewrite Et; unfold t'; rewrite !fill_nodes; done).
  assert (nodes t' ≡ₚ ctx_nodes k) as Hc by (unfold t'; rewrite fill_nodes; done).
  destruct (others x t' Hnn) as (_ & Hk' & Hin). pose proof (above_pos k _ _ _ _ Et) as Habove.
  pose proof Hsat as H. rewrite F1 in H. apply sat_app in H as [H1 H]. rewrite !sat_cons in H1. destruct H1 as (H1 & H2 & H3 & H4 & H5 & _). simpl in H1, H2, H3, H4, H5.
  assert (0 < least_addr m ≤ x) by (apply Hle; rewrite <- Hnn; left).
  destruct (relink_none gm i m x k) as (R1 & R2 & R3); fold h; try change (fill k Leaf) with t'.
  - done.
  - lia.
  - rewrite <- Hnn, Hc in Hnodup. apply NoDup_cons in Hnodup. apply Hnodup.
  - intros z Hz. apply Hle. rewrite <- Hnn, Hc. by right.
  - rewrite <- Hc. done.
  - fold h in R1, R2, R3. exists [(slot h k, 0)], t'. split_and!; [| |done| |done].
    + assert (replacement x m = Ok (0, m)) as Hrep.
      { unfold replacement. rewrite H2, Z.eqb_refl. cbn [negb]. rewrite H5. change (0 =? 0) with true. cbn [negb]. rewrite H4. done. }
      unfold unlink_large_chunk. rewrite Hrep, H3. simpl. rewrite (proj2 (Z.eqb_neq (above h k) 0)) by lia. simpl. exact R1.
    + intros a Ha. apply Hin. rewrite Hc. simpl in Ha. apply elem_of_cons in Ha as [->|[]%elem_of_nil]. done.
    + destruct (trie_at k (Node x [] Leaf Leaf) ltac:(done) Et) as (lo' & n' & _ & Hf'). apply Hf'. done.
Qed.

(** The frame of a lone node, with another ring in its place. *)
Definition refit (f : frame) (y : Z) (rest : list Z) : frame :=
  match f with FL _ _ r => FL y rest r | FR _ _ l => FR y rest l end.

Lemma refit_trie sz lo' n' f k0 y rest :
  trie sz lo' n' (plug (fill k0 (Node y rest Leaf Leaf)) f) → trie sz lo' n' (plug (fill k0 Leaf) (refit f y rest)).
Proof.
  intros Ht. assert (lo' ≤ sz y < lo' + 2 ^ Z.of_nat n') as Hy.
  { apply (trie_elem _ _ _ _ _ Ht). rewrite plug_nodes, fill_nodes, !elem_of_app. left. left. left. }
  assert (fill k0 (Node y rest Leaf Leaf) ≠ Leaf) as Hne.
  { destruct k0 as [|g k0]; [done|]. apply fill_not_leaf. }
  destruct f as [x' rs o|x' rs o]; simpl in Ht |- *; destruct Ht as (_ & _ & Ht); destruct n' as [|n']; try (destruct Ht as [E1 E2]; try rewrite E1 in Hne; try rewrite E2 in Hne; done).
  - destruct Ht as [Hl Hr]. destruct (trie_fill _ _ _ k0 (Node y rest Leaf Leaf) ltac:(done) Hl) as (lo1 & n1 & (_ & Hfa & _) & Hfill). split_and!; try done; try lia. apply Hfill. done.
  - destruct Ht as [Hl Hr]. destruct (trie_fill _ _ _ k0 (Node y rest Leaf Leaf) ltac:(done) Hr) as (lo1 & n1 & (_ & Hfa & _) & Hfill). split_and!; try done; try lia. apply Hfill. done.
Qed.

(** A lone node with something below: the frame [f] of the child that is looked at first. *)
Lemma replacement_leaf k x f u k0 y rest o :
  (f = FR x [] o ∨ f = FL x [] Leaf ∧ o = Leaf) → t = fill (f :: k) u → u ≠ Leaf → to_leaf u (f :: k) = (k0 ++ f :: k, (y, rest)) → (height u ≤ 65)%nat →
  replacement x m = Ok (y, puts m [(slot h (k0 ++ f :: k), 0)]).
Proof.
  intros Hf Et Hu Hlf Hht. assert (∀ z, z ∈ nodes u ++ frame_nodes f → 0 < least_addr m ≤ z) as Hz.
  { intros z Hz. apply Hle. rewrite Et, fill_nodes. change (ctx_nodes (f :: k)) with (frame_nodes f ++ ctx_nodes k). rewrite (assoc_L (++)). apply elem_of_app. by left. }
  assert (root u ≠ 0) as Hru. { assert (root u ∈ nodes u) by (destruct u; [done|left]). pose proof (Hz (root u)) as H0. rewrite elem_of_app in H0. destruct H0; auto; lia. }
  pose proof Hsat as H. rewrite Et, fill_cells, sat_cons, sat_app in H. destruct H as (Hslot & Hu' & Hctx). cbn [fst snd slot] in Hslot.
  assert (mem m (bk x) = x) as Hbk.
  { apply (sat_elem _ _ _ _ Hctx). cbn [ctx_cells]. apply elem_of_cons. right. apply elem_of_app. left.
    destruct Hf as [->|[-> _]]; cbn; rewrite !elem_of_cons; auto 10. }
  assert ((if negb (mem m (child x 1) =? 0) then child x 1 else child x 0) = hole_of f) as Hrp.
  { destruct Hf as [->|[-> _]]; cbn [hole_of] in *; [rewrite Hslot, (proj2 (Z.eqb_neq _ _) Hru); done|].
    assert (mem m (child x 1) = 0) as ->; [|done]. apply (sat_elem _ _ _ _ Hctx). cbn. rewrite !elem_of_cons. auto 10. }
  assert (least_addr m ≤ slot h (k0 ++ f :: k)) as Hok.
  { assert (∀ g, top_of g ∈ nodes t → least_addr m ≤ hole_of g) as Hg.
    { intros g Hg. apply Hle in Hg. destruct g; simpl in *; unfold child; lia. }
    destruct (to_leaf_fill _ _ _ _ _ Hu Hlf) as (k1 & Ek & Eu). apply app_inv_tail in Ek as <-.
    assert (∀ g, g ∈ k0 ++ f :: k → top_of g ∈ nodes t) as Hin.
    { intros g Hin. rewrite Et, Eu, <- fill_app, fill_nodes, elem_of_app. right. unfold ctx_nodes. rewrite list_elem_of_bind. exists g. split; [destruct g; left|done]. }
    destruct k0 as [|g k0]; simpl; apply Hg, Hin; left. }
  unfold replacement. rewrite Hbk, Z.eqb_refl. cbn [negb]. cbv zeta. rewrite Hrp, Hslot, (proj2 (Z.eqb_neq _ _) Hru). cbn [negb].
  assert (leaf_loop 65 (root u) (hole_of f) (mem m) = Ok (y, slot h (k0 ++ f :: k))) as ->.
  { apply (leaf_loop_spec i h _ u (above h (f :: k)) (f :: k) 65 _ y rest); try done.
    intros z Hin. assert (0 < least_addr m ≤ z) by (apply Hz, elem_of_app; by left). lia. }
  rewrite bind_Ok. unfold ok_address. rewrite (proj2 (Z.leb_le _ _)) by done. done.
Qed.

Lemma remove_replaced k x f u o :
  (f = FR x [] o ∨ f = FL x [] Leaf ∧ o = Leaf) → t = fill (f :: k) u → u ≠ Leaf → removed x.
Proof.
  intros Hf Et Hu. destruct (to_leaf u (f :: k)) as [k' [y rest]] eqn:Elf. destruct (to_leaf_fill _ _ _ _ _ Hu Elf) as (k0 & -> & Eu).
  assert (plug u f ≠ Leaf) as Hpl by (destruct f; done).
  destruct (trie_at k (plug u f) Hpl Et) as (lo' & n' & Htr & Hfill).
  assert (height u ≤ 65)%nat as Hht.
  { pose proof (trie_height _ _ _ _ Htrie) as H. enough (height u ≤ height t)%nat by lia. rewrite Et. clear. generalize (f :: k). intros K. revert u.
    induction K as [|g K IH]; intros u; [done|]. simpl. change (foldl plug ?a K) with (fill K a). etrans; [|apply IH]. destruct g; simpl; lia. }
  set (us := [(slot h (k0 ++ f :: k), 0)]). assert (replacement x m = Ok (y, puts m us)) as Hrep by (apply (replacement_leaf k x f u k0 y rest o); done).
  set (v := fill k0 Leaf). assert (∃ l' r', plug v f = Node x [] l' r' ∧ plug v (refit f y rest) = Node y rest l' r') as (l' & r' & Ef & Ef').
  { destruct Hf as [->|[-> _]]; simpl; eauto. }
  set (t' := fill k (Node y rest l' r')).
  assert (nodes u ≡ₚ (y :: rest) ++ nodes v) as Hnu by (rewrite Eu; unfold v; rewrite !fill_nodes; cbn [nodes]; solve_Permutation).
  assert (x :: nodes t' ≡ₚ nodes t) as Hnn.
  { unfold t'. rewrite Et, !fill_nodes. change (ctx_nodes (f :: k)) with (frame_nodes f ++ ctx_nodes k). rewrite Hnu.
    destruct Hf as [->|[-> _]]; simpl in Ef, Ef'; injection Ef' as <- <-; cbn [nodes frame_nodes]; solve_Permutation. }
  destruct (others x t' Hnn) as (Hkx & Hk' & Hin).
  set (keep := [(child y 0, 0); (child y 1, 0)] ++ group_cells i y rest ++ ctx_cells i h (k0 ++ f :: k)).
  assert (bin_cells i h t ≡ₚ (parent y, above h (k0 ++ f :: k)) :: (slot h (k0 ++ f :: k), y) :: keep) as F1.
  { rewrite Et, Eu, <- fill_app, fill_cells. unfold keep. cbn [root tcells]. generalize (group_cells i y rest). intros g. solve_Permutation. }
  assert (us ++ keep ≡ₚ [(parent x, above h k)] ++ group_cells i x [] ++ (slot h k, x) :: [(child x 0, root l'); (child x 1, root r')] ++ ctx_cells i h k ++
               ((child y 0, 0) :: tcells i x l') ++ ((child y 1, 0) :: tcells i x r') ++ group_cells i y rest) as F2.
  { assert (bin_cells i h (fill k (plug v f)) ≡ₚ (slot h (k0 ++ f :: k), 0) :: ctx_cells i h (k0 ++ f :: k)) as C1.
    { unfold v. change (fill k (plug ?a f)) with (fill (f :: k) a). rewrite <- fill_app, fill_cells. done. }
    pose proof (fill_cells i h k (plug v f)) as C2. rewrite C1, Ef in C2. unfold us, keep. cbn [root tcells] in C2.
    transitivity ([(child y 0, 0); (child y 1, 0)] ++ group_cells i y rest ++ (slot h (k0 ++ f :: k), 0) :: ctx_cells i h (k0 ++ f :: k)); [solve_Permutation|].
    rewrite C2. generalize (group_cells i y rest), (group_cells i x []). intros g1 g2. solve_Permutation. }
  assert (NoDup ((us ++ keep).*1)) as Hnd.
  { rewrite <- bin_keys, F1, fmap_cons in Hkeys. apply NoDup_cons in Hkeys as [_ H]. exact H. }
  pose proof Hsat as H. rewrite F1, !sat_cons in H. destruct H as (_ & _ & Hkeep). pose proof (sat_writes _ _ _ Hnd Hkeep) as Hw. rewrite F2 in Hw.
  rewrite !sat_app, !sat_cons in Hw. destruct Hw as (_ & Hgx & Hw).
  assert (writes (mem m) us (index x) = i) as Hix by (apply (sat_elem _ _ _ _ Hgx); left).
  assert (mem m (parent x) = above h k) as Hpar.
  { pose proof Hsat as H. rewrite Et in H. change (fill (f :: k) u) with (fill k (plug u f)) in H. rewrite fill_cells, sat_cons, sat_app in H.
    destruct H as (_ & H & _). apply (sat_elem _ _ _ _ H). destruct Hf as [->|[-> _]]; left. }
  assert (0 < above h k) as Habove.
  { destruct Hf as [->|[-> _]]; [apply (above_pos k x [] o u); done|apply (above_pos k x [] u Leaf); done]. }
  destruct (relink_spec gm i (puts m us) x k y rest l' r') as (us' & R1 & R2 & R3); fold h; try change (fill k (Node y rest l' r')) with t'.
  - change (mem (puts m us)) with (writes (mem m) us). rewrite !sat_cons, !sat_app, !sat_cons. cbn [fst snd] in *. rewrite !sat_app, !sat_cons in Hw. cbn [fst snd] in *. tauto.
  - done.
  - rewrite Hnn. done.
  - apply Hle. rewrite <- Hnn. left.
  - intros z Hz. apply Hle. rewrite <- Hnn. by right.
  - fold h in R1, R2, R3. exists (us ++ us'), t'. split_and!.
    + unfold unlink_large_chunk. rewrite Hrep, Hpar. simpl. rewrite (proj2 (Z.eqb_neq (above h k) 0)) by lia. simpl. rewrite R1, puts_app.
      pose proof (fill_not_leaf (FL y rest r') k l') as Hnl. change (fill (FL y rest r' :: k) l') with t' in Hnl. destruct t'; done.
    + intros a. rewrite fmap_app, elem_of_app. intros [Ha|Ha]; [|auto]. rewrite <- bin_keys, F1, !fmap_cons.
      apply elem_of_cons in Ha as [->|[]%elem_of_nil]. right. left.
    + done.
    + apply Hfill. rewrite <- Ef'. apply refit_trie. rewrite <- Eu. done.
    + rewrite <- writes_app. exact R3.
Qed.

(** [unlink_large_chunk] takes the chunk out of the trie. *)
Lemma tree_remove x : x ∈ nodes t → removed x.
Proof.
  intros Hx. destruct (tree_focus t x Hx) as (k & y & rest & l & r & Et & [->|Hr]).
  - destruct rest as [|z rest _] using rev_ind; [|apply (remove_first k y z rest l r); done].
    destruct r as [|zr rr rl rr'] eqn:Er.
    + destruct l as [|zl lr ll lr'] eqn:El; [apply (remove_leaf k); done|]. apply (remove_replaced k y (FL y [] Leaf) l Leaf); [auto|rewrite El; done|rewrite El; done].
    + apply (remove_replaced k y (FR y [] l) r l); [auto|rewrite Er; done|rewrite Er; done].
  - apply list_elem_of_split in Hr as (r1 & r2 & ->). apply (remove_chained k x y r1 r2 l r). done.
Qed.
End remove.
