(* ===== verification/DlBins.v ===== *)
(** * The kernel heap: all free chunks

    mm/dlmalloc.cpp: the 32 tree bins together, and [insert_chunk] and [unlink_chunk],
    which choose between small bins and tree bins.  The bins of both kinds refine one list
    of free chunks. *)

From S2P Require Import Prelude Define DlBase DlSmall DlTree.
Local Open Scope Z_scope.

Section bins.
Context (gm : Z).

Definition insert_chunk (p s : Z) (m : mstate) : result mstate :=
  if is_small s then insert_small_chunk gm p s m else insert_large_chunk gm p s m.

Definition unlink_chunk (p s : Z) (m : mstate) : result mstate :=
  if is_small s then unlink_small_chunk gm p s m else unlink_large_chunk gm p m.

(** ** Tree bins *)

Definition levels (i : Z) : nat := Z.to_nat (bin_bit i + 1).
Definition is_leaf (t : tree) : bool := match t with Leaf => true | _ => false end.

(** A chunk of [n] bytes does not touch the arrays of bins. *)
Definition clear_of_bins (n x : Z) : Prop := x + n ≤ gm ∨ gm + 856 ≤ x.

(** The sizes of large chunks: below 2 ^ 40, which [compute_tree_index] needs. *)
Definition large (s : Z) : Prop := MIN_LARGE_SIZE ≤ s < 2 ^ 40.

Record tree_ok (m : mstate) (trees : Z → tree) : Prop := {
  to_range : fits 32 (treemap m);
  to_bit i : 0 ≤ i < 32 → Z.testbit (treemap m) i = negb (is_leaf (trees i));
  to_cells i : 0 ≤ i < 32 → sat (mem m) (bin_cells i (treebin_at gm i) (trees i));
  to_trie i : 0 ≤ i < 32 → trie (chunksize (mem m)) (bin_low i) (levels i) (trees i);
  to_chunk i x : 0 ≤ i < 32 → x ∈ nodes (trees i) →
    large (chunksize (mem m) x) ∧ compute_tree_index (chunksize (mem m) x) = i ∧ 0 < least_addr m ≤ x ∧ clear_of_bins 64 x;
  to_nodup i : 0 ≤ i < 32 → NoDup (nodes (trees i));
  to_apart i j x y : 0 ≤ i < 32 → 0 ≤ j < 32 → x ∈ nodes (trees i) → y ∈ nodes (trees j) → x ≠ y → x + 64 ≤ y ∨ y + 64 ≤ x }.

Definition set_tree (trees : Z → tree) (i : Z) (t : tree) : Z → tree := λ j, if j =? i then t else trees j.

(** The words of a trie and of its bin. *)
Definition trie_words (i : Z) (l : list Z) (a : Z) : Prop := a = treebin_at gm i ∨ ∃ y o, y ∈ l ∧ 16 ≤ o ≤ 56 ∧ a = y + o.

Lemma elem_tree_fields a l : a ∈ tree_fields l → ∃ y o, y ∈ l ∧ 16 ≤ o ≤ 56 ∧ a = y + o.
Proof. rewrite tree_fields_eq, elem_fields. intros (y & o & Hy & Ho & ->). exists y, o. split_and!; [done| | |done]; set_unfold in Ho; lia. Qed.

Lemma trie_NoDup i l :
  0 ≤ i < 32 → NoDup l → (∀ x, x ∈ l → clear_of_bins 64 x) → (∀ x y, x ∈ l → y ∈ l → x ≠ y → x + 64 ≤ y ∨ y + 64 ≤ x) →
  NoDup (treebin_at gm i :: tree_fields l).
Proof.
  intros Hi Hn Hc Ha. apply NoDup_cons. split.
  - intros (y & o & Hy & Ho & E)%elem_tree_fields. unfold treebin_at in E. destruct (Hc y Hy); lia.
  - rewrite tree_fields_eq. apply (fields_NoDup 0 64); [repeat constructor; lia| |done|exact Ha]. apply (bool_decide_unpack _). vm_compute. exact I.
Qed.

(** What an operation on tree bin [i] has to show: it writes only words of the chunks of
    that bin, before or after. *)
Lemma tree_ok_update m trees i us t b :
  tree_ok m trees → 0 ≤ i < 32 → NoDup (nodes t) → fits 32 b →
  (∀ j, 0 ≤ j < 32 → Z.testbit b j = if j =? i then negb (is_leaf t) else Z.testbit (treemap m) j) →
  (∀ x, x ∈ nodes t → large (chunksize (mem m) x) ∧ compute_tree_index (chunksize (mem m) x) = i ∧ 0 < least_addr m ≤ x ∧ clear_of_bins 64 x) →
  (∀ j x y, 0 ≤ j < 32 → x ∈ nodes t → y ∈ nodes t ∨ y ∈ nodes (trees j) → x ≠ y → x + 64 ≤ y ∨ y + 64 ≤ x) →
  (∀ a, a ∈ us.*1 → trie_words i (nodes t ++ nodes (trees i)) a) →
  trie (chunksize (mem m)) (bin_low i) (levels i) t →
  sat (writes (mem m) us) (bin_cells i (treebin_at gm i) t) →
  tree_ok (with_treemap (puts m us) b) (set_tree trees i t).
Proof.
  intros Hok Hi Hn Hf Hbit Hc Ha Hus Htr Hsat.
  assert (∀ x, x ∈ nodes t ∨ (∃ j, 0 ≤ j < 32 ∧ x ∈ nodes (trees j)) → clear_of_bins 64 x) as Hout.
  { intros x [Hx|(j & Hj & Hx)]; [apply Hc, Hx|apply (to_chunk _ _ Hok j x Hj Hx)]. }
  assert (∀ x y, x ∈ nodes t ∨ (∃ j, 0 ≤ j < 32 ∧ x ∈ nodes (trees j)) → y ∈ nodes t ++ nodes (trees i) → x ≠ y → x + 64 ≤ y ∨ y + 64 ≤ x) as Hsp.
  { intros x y [Hx|(j & Hj & Hx)] Hy%elem_of_app Hne; [apply (Ha i); done|]. destruct Hy as [Hy|Hy]; [|apply (to_apart _ _ Hok j i); done].
    destruct (Ha j y x) as [?|?]; auto. }
  assert (∀ x, x ∈ nodes t ∨ (∃ j, 0 ≤ j < 32 ∧ x ∈ nodes (trees j)) → chunksize (writes (mem m) us) x = chunksize (mem m) x) as Hsz.
  { intros x Hx. unfold chunksize. rewrite writes_other; [done|]. intros Hw%Hus. unfold head_, treebin_at in *.
    destruct Hw as [Hw|(y & o & Hy & Ho & E)]; [unfold treebin_at in Hw; destruct (Hout x Hx); lia|]. destruct (Z.eq_dec x y); [lia|]. destruct (Hsp x y); done || lia. }
  split; simpl; unfold set_tree.
  - done.
  - intros j Hj. rewrite Hbit by done. destruct (j =? i); [done|]. apply (to_bit _ _ Hok); done.
  - intros j Hj. destruct (Z.eqb_spec j i) as [->|Hji]; [done|]. apply sat_frame; [|apply (to_cells _ _ Hok); done].
    intros a Hk Hw%Hus. rewrite bin_keys in Hk. assert (trie_words j (nodes (trees j)) a) as Hj'.
    { apply elem_of_cons in Hk as [->|Hk%elem_tree_fields]; [by left|by right]. }
    destruct Hj' as [->|(x & o & Hx & Ho & ->)], Hw as [Hw|(y & o' & Hy & Ho' & E)].
    + unfold treebin_at in Hw. lia.
    + unfold treebin_at in E. assert (clear_of_bins 64 y) as [?|?] by (apply Hout; apply elem_of_app in Hy; naive_solver); lia.
    + unfold treebin_at in Hw. assert (clear_of_bins 64 x) as [?|?] by (apply Hout; naive_solver); lia.
    + assert (x ≠ y).
      { intros ->. pose proof (to_chunk _ _ Hok j y Hj Hx) as (_ & Hs & _). apply elem_of_app in Hy as [Hy|Hy]; [pose proof (Hc y Hy)|pose proof (to_chunk _ _ Hok i y Hi Hy)]; naive_solver lia. }
      destruct (Hsp x y); [naive_solver|done|done|lia|lia].
  - intros j Hj. destruct (Z.eqb_spec j i) as [->|Hji]; (eapply trie_ext; [|first [exact Htr|apply (to_trie _ _ Hok); done]]); intros x Hx; apply Hsz; naive_solver.
  - intros j x Hj Hx. destruct (Z.eqb_spec j i) as [->|Hji]; (rewrite !Hsz; [|naive_solver]); [apply Hc, Hx|apply (to_chunk _ _ Hok); done].
  - intros j Hj. destruct (j =? i); [done|apply (to_nodup _ _ Hok), Hj].
  - intros j k x y Hj Hk. destruct (Z.eqb_spec j i) as [->|Hji], (Z.eqb_spec k i) as [->|Hki]; intros Hx Hy Hne.
    + apply (Ha i); auto.
    + apply (Ha k); auto.
    + destruct (Ha j y x); auto.
    + apply (to_apart _ _ Hok j k); done.
Qed.

Lemma bin_levels i :
  0 ≤ i < 32 → (levels i ≤ 64)%nat ∧ (2 ^ Z.of_nat (levels i) | bin_low i) ∧ 64 - Z.of_nat (levels i) = leftshift_for_tree_index i ∧
  (i < 31 → bin_low i + 2 ^ Z.of_nat (levels i) = minsize_for_tree_index (i + 1) ∧ bin_low i = minsize_for_tree_index i) ∧ (i = 31 → bin_low i = 0 ∧ levels i = 64%nat).
Proof.
  intros Hi. assert (Forall (λ i, (levels i ≤ 64)%nat ∧ bin_low i mod 2 ^ Z.of_nat (levels i) = 0 ∧ 64 - Z.of_nat (levels i) = leftshift_for_tree_index i ∧
    ((i < 31 ∧ bin_low i + 2 ^ Z.of_nat (levels i) = minsize_for_tree_index (i + 1) ∧ bin_low i = minsize_for_tree_index i) ∨ (i = 31 ∧ bin_low i = 0 ∧ levels i = 64%nat))) (seqZ 0 32)) as H
    by (apply (bool_decide_unpack _); vm_compute; exact I).
  rewrite Forall_forall in H. specialize (H i ltac:(apply elem_of_seqZ; lia)). destruct H as (H1 & H2 & H3 & H4). split; [done|]. split.
  - apply Z.mod_divide; [|done]. apply Z.pow_nonzero; lia.
  - split; [done|]. destruct H4 as [H4|H4]; split; intros; try lia; tauto.
Qed.

(** The sizes of a bin are those of its trie. *)
Lemma bin_of_size s : large s → let i := compute_tree_index s in 0 ≤ i < 32 ∧ bin_low i ≤ s < bin_low i + 2 ^ Z.of_nat (levels i).
Proof.
  intros Hs i. destruct (tree_index_spec s Hs) as (H1 & H2 & H3). change NTREEBINS with 32 in H1. split; [done|]. fold i in H1, H2, H3.
  destruct (bin_levels i H1) as (_ & _ & _ & H4 & H5). unfold large in Hs. change MIN_LARGE_SIZE with 256 in Hs. destruct (Z.eq_dec i 31) as [E|E].
  - destruct (H5 E) as [-> ->]. split; [|change (2 ^ Z.of_nat 64) with (2 ^ 64)]; lia.
  - destruct (H4 ltac:(lia)) as [E1 E2]. specialize (H3 ltac:(lia)). lia.
Qed.

(** An operation changes at most words of tries and of their bin, and the map. *)
Definition tree_step (m m' : mstate) (i : Z) (l : list Z) : Prop :=
  (∀ a, ¬ trie_words i l a → mem m' a = mem m a) ∧ m' = with_treemap (with_mem m (mem m')) (treemap m').

Lemma tree_step_writes m us b i l : (∀ a, a ∈ us.*1 → trie_words i l a) → tree_step m (with_treemap (puts m us) b) i l.
Proof. intros Hu. split; [|done]. intros a Ha. simpl. apply writes_other. auto. Qed.

(** A large chunk that is in no bin. *)
Definition new_large (m : mstate) (trees : Z → tree) (p s : Z) : Prop :=
  chunksize (mem m) p = s ∧ large s ∧ 0 < least_addr m ≤ p ∧ clear_of_bins 64 p ∧ ∀ j y, 0 ≤ j < 32 → y ∈ nodes (trees j) → p + 64 ≤ y ∨ y + 64 ≤ p.

Lemma new_large_bin m trees p s :
  let i := compute_tree_index s in
  tree_ok m trees → new_large m trees p s →
  NoDup (p :: nodes (trees i)) ∧
  (∀ x, x ∈ p :: nodes (trees i) → large (chunksize (mem m) x) ∧ compute_tree_index (chunksize (mem m) x) = i ∧ 0 < least_addr m ≤ x ∧ clear_of_bins 64 x) ∧
  (∀ j x y, 0 ≤ j < 32 → x ∈ p :: nodes (trees i) → y ∈ p :: nodes (trees i) ∨ y ∈ nodes (trees j) → x ≠ y → x + 64 ≤ y ∨ y + 64 ≤ x).
Proof.
  intros i Hok (Hsz & Hs & Hle & Ho & Hap). destruct (bin_of_size s Hs) as [Hi _]. fold i in Hi. split_and!.
  - apply NoDup_cons. split; [intros Hin; destruct (Hap i p); done || lia|apply (to_nodup _ _ Hok); lia].
  - intros x [->|Hx]%elem_of_cons; [rewrite Hsz; split_and!; done || lia|apply (to_chunk _ _ Hok); done || lia].
  - intros j x y Hj Hx Hy Hne.
    assert (y = p ∨ ∃ k, 0 ≤ k < 32 ∧ y ∈ nodes (trees k)) as Hy' by (destruct Hy as [[->|Hy]%elem_of_cons|Hy]; [by left| |]; right; eexists; (split; [|exact Hy]; lia)).
    apply elem_of_cons in Hx as [->|Hx]; destruct Hy' as [->|(k & Hk & Hy')]; [done|eauto| |].
    + destruct (Hap i x); auto; lia.
    + apply (to_apart _ _ Hok i k); done || lia.
Qed.

(** The writes of the insertion, and the map after it. *)
Lemma insert_large_run m trees p s :
  let i := compute_tree_index s in
  tree_ok m trees → new_large m trees p s →
  ∃ us t b, insert_large_chunk gm p s m = Ok (with_treemap (puts m us) b) ∧ fits 32 b ∧
    (∀ j, 0 ≤ j < 32 → Z.testbit b j = if j =? i then true else Z.testbit (treemap m) j) ∧
    (∀ a, a ∈ us.*1 → a ∈ treebin_at gm i :: tree_fields (p :: nodes (trees i))) ∧ nodes t ≡ₚ p :: nodes (trees i) ∧ t ≠ Leaf ∧
    trie (chunksize (mem m)) (bin_low i) (levels i) t ∧ sat (writes (mem m) us) (bin_cells i (treebin_at gm i) t).
Proof.
  intros i Hok Hnew. pose proof Hnew as (Hsz & Hs & Hle & Hcl & _). destruct (bin_of_size s Hs) as [Hi Hr]. fold i in Hi, Hr. destruct (bin_levels i Hi) as (Hl64 & Hdiv & Hsh & _).
  destruct (new_large_bin m trees p s Hok Hnew) as (Hnd & Hch & Hsp). fold i in Hnd, Hch, Hsp. set (h := treebin_at gm i).
  assert (NoDup (h :: tree_fields (p :: nodes (trees i)))) as Hk.
  { apply trie_NoDup; [done|done|intros x Hx; apply Hch, Hx|]. intros x y Hx Hy. apply (Hsp i); auto. }
  set (us0 := [(index p, i); (child p 1, 0); (child p 0, 0)]).
  assert (∀ a, a ∈ us0.*1 → a ∈ tree_words p) as Hu0 by (intros a; unfold us0, tree_words; simpl; rewrite !elem_of_cons; tauto).
  pose proof (to_cells _ _ Hok i Hi) as Hc. fold h in Hc. pose proof (to_trie _ _ Hok i Hi) as Htr.
  assert (NoDup ((us0 ++ bin_cells i h (trees i)).*1)) as Hnd0.
  { rewrite fmap_app, bin_keys. apply NoDup_app. rewrite tree_fields_cons in Hk. apply NoDup_cons in Hk as [Hk1 Hk2]. apply NoDup_app in Hk2 as (Hw & Hd & Hk2).
    split_and!; [|intros a Ha Ha'; apply Hu0 in Ha; apply elem_of_cons in Ha' as [->|Ha']; [apply Hk1, elem_of_app; auto|apply (Hd a); auto]|].
    - unfold us0, index, child. simpl. rewrite !NoDup_cons, !not_elem_of_cons. split_and!; try lia; try apply not_elem_of_nil. apply NoDup_nil_2.
    - apply NoDup_cons. split; [intros Ha; apply Hk1, elem_of_app; auto|done]. }
  pose proof (sat_writes _ _ _ Hnd0 Hc) as Hw. unfold insert_large_chunk. fold i h us0. change (treemap (puts m us0)) with (treemap m). rewrite marked_bit, (to_bit _ _ Hok) by done.
  destruct (trees i) as [|y rest l r] eqn:Et.
  - cbn [is_leaf negb]. set (us := [(h, p); (parent p, h); (bk p, p); (fd p, p)]). exists (us0 ++ us), (Node p [] Leaf Leaf), (Z.lor (treemap m) (idx2bit i)).
    assert (bin_cells i h (Node p [] Leaf Leaf) ≡ₚ us ++ us0) as En by (unfold us, us0; unfold bin_cells; cbn; solve_Permutation).
    split_and!.
    + rewrite <- puts_app. done.
    + apply lor_word; [done|apply Hok|]. rewrite idx2bit_pow by done. split; [lia|apply Z.pow_lt_mono_r; lia].
    + intros j Hj. rewrite mark_bit by done. destruct (j =? i); [apply orb_true_r|apply orb_false_r].
    + intros a. rewrite fmap_app, elem_of_app. intros [Ha|Ha]; [right; rewrite tree_fields_cons, elem_of_app; auto|].
      change (p :: nodes Leaf) with (nodes (Node p [] Leaf Leaf)). rewrite <- (bin_keys i), En, fmap_app, elem_of_app. auto.
    + done.
    + done.
    + simpl. rewrite Hsz. split; [done|]. split; [constructor|]. destruct (levels i); done.
    + rewrite <- writes_app. eapply sat_rewrite; [exact En|rewrite bin_keys; done|]. rewrite sat_app in Hw. apply Hw.
  - cbn [is_leaf negb]. rewrite <- Et in *. assert (trees i ≠ Leaf) as Hne by (rewrite Et; done).
    assert (∀ z, z ∈ p :: nodes (trees i) → chunksize (writes (mem m) us0) z = chunksize (mem m) z) as Hcs.
    { intros z Hz. unfold chunksize. rewrite writes_other; [done|]. intros Ha%Hu0.
      destruct (elem_tree_fields (head_ z) [p]) as (y' & o & ->%list_elem_of_singleton & Ho & E); [rewrite tree_fields_cons, elem_of_app; auto|].
      unfold head_ in E. destruct (Z.eq_dec z p); [lia|]. destruct (Hsp i p z); auto; [left|lia..]. }
    apply sat_app in Hw as [Hw0 Hw]. unfold bin_cells in Hw. apply sat_cons in Hw as [Hwh Hwc]. cbn [fst snd] in Hwh.
    apply NoDup_cons in Hk as [Hkh Hkf].
    destruct (insert_loop_spec (puts m us0) i p s (trees i) (levels i) h (bin_low i) 65) as (us & E & Hus & Hsat); try done; try lia.
    + change (mem (puts m us0)) with (writes (mem m) us0). eapply trie_ext; [|exact Htr]. intros z Hz. apply Hcs. by right.
    + change (mem (puts m us0)) with (writes (mem m) us0). unfold us0 in Hw0 |- *. rewrite !sat_cons in *. tauto.
    + intros z Hz. apply Hch. by right.
    + change (mem (puts m us0)) with (writes (mem m) us0) in *. exists (us0 ++ us), (tinsert (chunksize (writes (mem m) us0)) p s (levels i) (trees i)), (treemap m). split_and!.
      * rewrite Hwh. unfold key_bits in E. rewrite Hsh in E. rewrite E, puts_app. done.
      * apply Hok.
      * intros j Hj. destruct (Z.eqb_spec j i) as [->|]; [|done]. rewrite (to_bit _ _ Hok), Et by done. done.
      * intros a. rewrite fmap_app, elem_of_app. intros [Ha|Ha]; right; [rewrite tree_fields_cons, elem_of_app|]; auto.
      * apply tinsert_nodes.
      * intros E'. pose proof (tinsert_nodes (chunksize (writes (mem m) us0)) p s (levels i) (trees i)) as Hp. rewrite E' in Hp. apply Permutation_nil_cons in Hp as [].
      * eapply trie_ext; [|apply tinsert_trie; [exact Hdiv|exact Hr|rewrite Hcs; [done|left]|eapply trie_ext; [|exact Htr]; intros z Hz; apply Hcs; by right]].
        intros z Hz. rewrite tinsert_nodes in Hz. rewrite Hcs; done.
      * rewrite <- writes_app. unfold bin_cells. rewrite tinsert_root by done. apply sat_cons. split; [|exact Hsat]. cbn [fst snd]. rewrite writes_other; [done|]. intros Ha%Hus. done.
Qed.

Lemma tree_insert m trees p s :
  let i := compute_tree_index s in
  tree_ok m trees → new_large m trees p s →
  ∃ m' t, insert_large_chunk gm p s m = Ok m' ∧ tree_step m m' i (p :: nodes (trees i)) ∧ tree_ok m' (set_tree trees i t) ∧ nodes t ≡ₚ p :: nodes (trees i).
Proof.
  intros i Hok Hnew. destruct (insert_large_run m trees p s Hok Hnew) as (us & t & b & E & Hb & Hbit & Hus & Hn & Hne & Htr & Hsat). fold i in Hbit, Hus, Hn, Htr, Hsat.
  destruct (new_large_bin m trees p s Hok Hnew) as (Hnd & Hch & Hsp). fold i in Hnd, Hch, Hsp. destruct Hnew as (_ & Hs & _). destruct (bin_of_size s Hs) as [Hi _]. fold i in Hi.
  assert (∀ a, a ∈ us.*1 → trie_words i (p :: nodes (trees i)) a) as Hw by (intros a [->|Ha%elem_tree_fields]%Hus%elem_of_cons; [by left|by right]).
  eexists _, t. split; [exact E|]. split_and!; [apply tree_step_writes; done| |done].
  apply tree_ok_update; try done.
  - rewrite Hn. done.
  - intros j Hj. rewrite Hbit by done. destruct (j =? i), t; done.
  - intros x Hx. apply Hch. rewrite <- Hn. done.
  - intros j x y Hj Hx Hy. apply (Hsp j); [done|rewrite <- Hn; done|rewrite <- Hn; done].
  - intros a Ha. destruct (Hw a Ha) as [?|(y & o & Hy & Ho)]; [by left|right]. exists y, o. split; [|done]. rewrite Hn. apply elem_of_app. by left.
Qed.

Lemma tree_unlink m trees i p :
  0 < gm → tree_ok m trees → 0 ≤ i < 32 → p ∈ nodes (trees i) →
  ∃ m' t, unlink_large_chunk gm p m = Ok m' ∧ tree_step m m' i (nodes (trees i)) ∧ tree_ok m' (set_tree trees i t) ∧ p :: nodes t ≡ₚ nodes (trees i).
Proof.
  intros Hgm Hok Hi Hp. pose proof (λ x, to_chunk _ _ Hok i x Hi) as Hch. pose proof (to_nodup _ _ Hok i Hi) as Hnd.
  destruct (tree_remove gm i m (trees i) (bin_low i) (levels i)) with (x := p) as (us & t & E & Hus & Hn & Htr & Hsat); try done.
  - apply Hok, Hi.
  - apply trie_NoDup; [done|done|intros x Hx; apply Hch, Hx|]. intros x y Hx Hy. apply (to_apart _ _ Hok i i); auto.
  - intros z Hz. apply Hch, Hz.
  - unfold treebin_at. lia.
  - apply (to_trie _ _ Hok i Hi).
  - apply (bin_levels i Hi).
  - assert (∀ x, x ∈ nodes t → x ∈ nodes (trees i)) as Hin by (intros x Hx; rewrite <- Hn; by right).
    assert (∀ a, a ∈ us.*1 → trie_words i (nodes (trees i)) a) as Hw by (intros a [->|Ha%elem_tree_fields]%Hus%elem_of_cons; [by left|by right]).
    set (b := if is_leaf t then Z.land (treemap m) (u32 (Z.lnot (idx2bit i))) else treemap m).
    assert (unlink_large_chunk gm p m = Ok (with_treemap (puts m us) b)) as E' by (rewrite E; unfold b; destruct t; done).
    eexists _, t. split; [exact E'|]. split_and!; [apply tree_step_writes; done| |done].
    apply tree_ok_update; try done.
    + rewrite <- Hn in Hnd. apply NoDup_cons in Hnd. apply Hnd.
    + unfold b. destruct (is_leaf t); [apply land_word; [done|apply Hok|apply Z.mod_pos_bound; done]|apply Hok].
    + intros j Hj. unfold b. destruct (is_leaf t) eqn:El.
      * rewrite clear_bit by done. destruct (j =? i); [apply andb_false_r|apply andb_true_r].
      * destruct (Z.eqb_spec j i) as [->|]; [|done]. rewrite (to_bit _ _ Hok) by done. destruct (trees i); [apply elem_of_nil in Hp; done|done].
    + intros x Hx. apply Hch, Hin, Hx.
    + intros j x y Hj Hx Hy. apply Hin in Hx. destruct Hy as [Hy|Hy]; [apply (to_apart _ _ Hok i i); auto|apply (to_apart _ _ Hok i j); auto].
    + intros a Ha. destruct (Hw a Ha) as [?|(y & o & Hy & Ho)]; [by left|right]. exists y, o. split; [|done]. apply elem_of_app. by right.
Qed.

(** ** All bins *)

(** A chunk of a small bin or of a trie. *)
Definition binned (m : mstate) (bins : Z → list Z) (trees : Z → tree) (p s : Z) : Prop :=
  (∃ i, 0 ≤ i < 32 ∧ p ∈ bins i ∧ s = 8 * i) ∨ (∃ i, 0 ≤ i < 32 ∧ p ∈ nodes (trees i) ∧ s = chunksize (mem m) p).

(** Chunks, given by address and size, that do not overlap. *)
Definition disjoint_chunks (free : gset (Z * Z)) : Prop :=
  ∀ p s q t, (p, s) ∈ free → (q, t) ∈ free → (p, s) ≠ (q, t) → p + s ≤ q ∨ q + t ≤ p.

Record bins_ok (m : mstate) (free : gset (Z * Z)) : Prop := {
  bo_gm : 0 < gm;
  bo_disjoint : disjoint_chunks free;
  bo_clear p s : (p, s) ∈ free → clear_of_bins s p;
  bo_bins : ∃ bins trees, small_ok gm m bins ∧ tree_ok m trees ∧ ∀ p s, (p, s) ∈ free ↔ binned m bins trees p s }.

(** The words of the free chunks behind the head, and those of the bins. *)
Definition bin_area (free : gset (Z * Z)) (a : Z) : Prop :=
  gm ≤ a < gm + 856 ∨ ∃ p s, (p, s) ∈ free ∧ p + 16 ≤ a ∧ a + 8 ≤ p + s.

(** An operation on the bins changes nothing else but the two maps. *)
Definition bins_step (m m' : mstate) (free : gset (Z * Z)) : Prop :=
  (∀ a, ¬ bin_area free a → mem m' a = mem m a) ∧ m' = with_treemap (with_smallmap (with_mem m (mem m')) (smallmap m')) (treemap m').

Lemma binned_size m bins trees p s :
  small_ok gm m bins → tree_ok m trees → binned m bins trees p s →
  chunksize (mem m) p = s ∧ least_addr m ≤ p ∧ (s < 256 ∧ 32 ≤ s ∧ s mod 8 = 0 ∧ p ∈ bins (s / 8) ∨ large s ∧ p ∈ nodes (trees (compute_tree_index s)) ∧ 0 < least_addr m).
Proof.
  intros Hs Ht [(i & Hi & Hp & ->)|(i & Hi & Hp & ->)].
  - pose proof (so_chunk _ _ _ Hs i p Hi Hp) as (H1 & H2 & H3 & _). split_and!; [done|done|left]. rewrite (Z.mul_comm 8), Z.div_mul, Z.mod_mul by lia. split_and!; done || lia.
  - pose proof (to_chunk _ _ Ht i p Hi Hp) as (H1 & H2 & H3 & _). split_and!; [done|lia|right]. rewrite H2. split_and!; done || lia.
Qed.

(** The bins depend on the heads of the free chunks and on their own words only. *)
Lemma small_ok_frame m m' bins :
  small_ok gm m bins → smallmap m' = smallmap m → least_addr m' ≤ least_addr m →
  (∀ i x, 0 ≤ i < 32 → x ∈ bins i → ∀ o, o = 8 ∨ 16 ≤ o ≤ 24 → mem m' (x + o) = mem m (x + o)) → (∀ a, gm ≤ a < gm + 600 → mem m' a = mem m a) → small_ok gm m' bins.
Proof.
  intros Hok Em Hl Hx Hg. split; try apply Hok.
  - rewrite Em. apply Hok.
  - rewrite Em. apply Hok.
  - intros i Hi Hne. pose proof (so_ring _ _ _ Hok i Hi Hne) as Hr. unfold sat in *. rewrite Forall_forall in *. intros [a v] Hin. rewrite <- (Hr _ Hin). cbn [fst].
    assert (a ∈ (ring_cells (smallbin_at gm i) (bins i)).*1) as Ha by (apply list_elem_of_fmap; exists (a, v); done). rewrite ring_keys in Ha.
    unfold links in Ha. apply elem_fields in Ha as (x & o & Hin' & Ho & ->). assert (o = 16 ∨ o = 24) by set_solver.
    apply elem_of_cons in Hin' as [->|Hin']; [apply Hg; rewrite smallbin_value by lia; lia|apply (Hx i); [done|done|lia]].
  - intros i x Hi Hin. pose proof (so_chunk _ _ _ Hok i x Hi Hin) as (H1 & H2 & H3 & H4). split_and!; [done| |lia|done]. rewrite <- H2. unfold chunksize, head_. rewrite (Hx i); done || lia.
Qed.

Lemma tree_ok_frame m m' trees :
  tree_ok m trees → treemap m' = treemap m → least_addr m' ≤ least_addr m → (0 < least_addr m → 0 < least_addr m') →
  (∀ i x, 0 ≤ i < 32 → x ∈ nodes (trees i) → ∀ o, o = 8 ∨ 16 ≤ o ≤ 56 → mem m' (x + o) = mem m (x + o)) → (∀ i, 0 ≤ i < 32 → mem m' (treebin_at gm i) = mem m (treebin_at gm i)) → tree_ok m' trees.
Proof.
  intros Hok Em Hl Hl0 Hx Hg. assert (∀ i x, 0 ≤ i < 32 → x ∈ nodes (trees i) → chunksize (mem m') x = chunksize (mem m) x) as Hc.
  { intros i x Hi Hin. unfold chunksize, head_. rewrite (Hx i); done || lia. }
  split; try apply Hok.
  - rewrite Em. apply Hok.
  - rewrite Em. apply Hok.
  - intros i Hi. pose proof (to_cells _ _ Hok i Hi) as Hr. unfold sat in *. rewrite Forall_forall in *. intros [a v] Hin. rewrite <- (Hr _ Hin). cbn [fst].
    assert (a ∈ (bin_cells i (treebin_at gm i) (trees i)).*1) as Ha by (apply list_elem_of_fmap; exists (a, v); done). rewrite bin_keys in Ha.
    apply elem_of_cons in Ha as [->|(x & o & Hin' & Ho & ->)%elem_tree_fields]; [apply Hg, Hi|apply (Hx i); [done|done|lia]].
  - intros i Hi. eapply trie_ext; [|apply (to_trie _ _ Hok i Hi)]. intros x Hin. apply (Hc i); done.
  - intros i x Hi Hin. pose proof (to_chunk _ _ Hok i x Hi Hin) as (H1 & H2 & H3 & H4). rewrite (Hc i) by done. split_and!; done || lia.
Qed.

Lemma bins_frame m m' free :
  bins_ok m free → smallmap m' = smallmap m → treemap m' = treemap m → 0 < least_addr m' ≤ least_addr m →
  (∀ a, bin_area free a → mem m' a = mem m a) → (∀ p s, (p, s) ∈ free → mem m' (head_ p) = mem m (head_ p)) → bins_ok m' free.
Proof.
  intros [Hgm Hd Hc (bins & trees & Hs & Ht & Hf)] Es Et Hl Ha Hh. split; [done..|].
  assert (∀ p s, (p, s) ∈ free → chunksize (mem m') p = chunksize (mem m) p) as Hz by (intros p s Hin; unfold chunksize; rewrite (Hh p s Hin); done).
  assert (∀ p s o, (p, s) ∈ free → o = 8 ∨ 16 ≤ o ∧ o + 8 ≤ s → mem m' (p + o) = mem m (p + o)) as Hw.
  { intros p s o Hin [->|Ho]; [apply (Hh p s Hin)|]. apply Ha. right. exists p, s. split_and!; done || lia. }
  exists bins, trees. split_and!.
  - apply (small_ok_frame m); [done|done|lia| |intros a Hg; apply Ha; left; lia]. intros i x Hi Hx o Ho. pose proof (so_chunk _ _ _ Hs i x Hi Hx) as (H4 & _).
    apply (Hw x (8 * i)); [apply Hf; left; eauto|lia].
  - apply (tree_ok_frame m); [done|done|lia|lia| |intros i Hi; apply Ha; left; unfold treebin_at; lia]. intros i x Hi Hx o Ho. pose proof (to_chunk _ _ Ht i x Hi Hx) as (Hlg & _).
    unfold large in Hlg. change MIN_LARGE_SIZE with 256 in Hlg. apply (Hw x (chunksize (mem m) x)); [apply Hf; right; eauto|lia].
  - intros p s. rewrite Hf. unfold binned. split; (intros [?|(i & Hi & Hp & ->)]; [by left|right; exists i; split; [done|split; [done|]]]).
    + symmetry. apply (Hz p (chunksize (mem m) p)). apply Hf. right. eauto.
    + apply (Hz p (chunksize (mem m) p)). apply Hf. right. eauto.
Qed.

(** A free chunk that is in no bin and does not overlap one that is. *)
Record new_free (m : mstate) (free : gset (Z * Z)) (p s : Z) : Prop := {
  nf_head : chunksize (mem m) p = s;
  nf_size : 32 ≤ s < 2 ^ 40 ∧ s mod 8 = 0;
  nf_addr : 0 < least_addr m ≤ p;
  nf_clear : clear_of_bins s p;
  nf_apart q t : (q, t) ∈ free → p + s ≤ q ∨ q + t ≤ p }.

Lemma new_disjoint m free p s : disjoint_chunks free → new_free m free p s → disjoint_chunks ({[(p, s)]} ∪ free).
Proof.
  intros Hd Hn p1 s1 p2 s2. rewrite !elem_of_union, !elem_of_singleton. intros [[= -> ->]|H1] [[= -> ->]|H2] Hne; [done| | |apply Hd; done].
  - apply (nf_apart _ _ _ _ Hn). done.
  - destruct (nf_apart _ _ _ _ Hn _ _ H1); auto.
Qed.

(** The bins hold the chunks of [free], which are among the chunks [all]. *)
Record bins_within (m : mstate) (all free : gset (Z * Z)) (bins : Z → list Z) (trees : Z → tree) : Prop := {
  bw_gm : 0 < gm;
  bw_disjoint : disjoint_chunks all;
  bw_clear p s : (p, s) ∈ all → clear_of_bins s p;
  bw_size p s : (p, s) ∈ all → 32 ≤ s;
  bw_sub : free ⊆ all;
  bw_free p s : (p, s) ∈ free ↔ binned m bins trees p s }.

(** A change of small bins does not disturb the trees. *)
Lemma small_change m m' all free bins' trees i l :
  bins_within m all free bins' trees → small_ok gm m' bins' → tree_ok m trees → 0 ≤ i < 32 →
  small_step m m' l → (∀ y, y ∈ l → y = smallbin_at gm i ∨ ∃ s, (y, s) ∈ all ∧ 32 ≤ s < 256) →
  bins_ok m' free ∧ bins_step m m' all.
Proof.
  intros [Hgm Hd Hc Hsize Hsub Hf] Hs' Ht Hi [Hw Hm'] Hl.
  assert (∀ j x, 0 ≤ j < 32 → x ∈ nodes (trees j) → (x, chunksize (mem m) x) ∈ all ∧ 256 ≤ chunksize (mem m) x) as Hlg.
  { intros j x Hj Hx. pose proof (to_chunk _ _ Ht j x Hj Hx) as (H4 & _). split; [apply Hsub, Hf; right; eauto|apply H4]. }
  assert (∀ a, a ∈ links l → gm + 72 ≤ a < gm + 600 ∨ ∃ y s o, (y, s) ∈ all ∧ 32 ≤ s < 256 ∧ (o = 16 ∨ o = 24) ∧ a = y + o) as Hlk.
  { intros a (y & o & Hy & Ho & ->)%elem_fields. assert (o = 16 ∨ o = 24) as Ho' by set_solver. destruct (Hl y Hy) as [->|(s & Hin & Hs)].
    - left. rewrite smallbin_value by lia. lia.
    - right. exists y, s, o. done. }
  assert (treemap m' = treemap m ∧ least_addr m' = least_addr m) as [Etm Ela] by (rewrite Hm'; done).
  assert (∀ x t o, (x, t) ∈ all → 256 ≤ t → o = 8 ∨ 16 ≤ o ≤ 56 → mem m' (x + o) = mem m (x + o)) as Htw.
  { intros x t o Hx Ht' Ho. apply Hw. intros [Hin|(y & s & o' & Hy & Hs & Ho' & Eq)]%Hlk; [destruct (Hc x t Hx); lia|].
    destruct (Hd x t y s); [done|done|intros [= -> ->]; lia|lia|lia]. }
  assert (∀ j x, 0 ≤ j < 32 → x ∈ nodes (trees j) → chunksize (mem m') x = chunksize (mem m) x) as Hcs.
  { intros j x Hj Hx. destruct (Hlg j x Hj Hx). unfold chunksize, head_. rewrite (Htw x (chunksize (mem m) x)); auto. }
  assert (tree_ok m' trees) as Ht'.
  { apply (tree_ok_frame m); [done|done|lia|lia| |].
    - intros j x Hj Hx o Ho. destruct (Hlg j x Hj Hx). apply (Htw x (chunksize (mem m) x)); done.
    - intros j Hj. apply Hw. intros [Hin|(y & s & o & Hy & Hs & Ho & Eq)]%Hlk; unfold treebin_at in *; [lia|]. destruct (Hc y s Hy); lia. }
  split; [|split; [|rewrite Hm'; done]].
  - split; [done|intros p s q t Hp Hq; apply Hd; auto|intros p s Hp; apply Hc; auto|]. exists bins', trees. split_and!; [done|done|].
    intros p s. rewrite Hf. unfold binned. split; (intros [?|(j & Hj & Hp & ->)]; [by left|right; exists j; split; [done|split; [done|]]]); rewrite (Hcs j) by done; done.
  - intros a Ha. apply Hw. intros [Hin|(y & s & o & Hy & Hs & Ho & ->)]%Hlk; apply Ha; [left; lia|right; exists y, s; split_and!; [done|lia|lia]].
Qed.

(** A change of the trees does not disturb the small bins. *)
Lemma tree_change m m' all free bins trees' i l :
  bins_within m all free bins trees' → small_ok gm m bins → tree_ok m' trees' → 0 ≤ i < 32 →
  tree_step m m' i l → (∀ y, y ∈ l → ∃ s, (y, s) ∈ all ∧ 256 ≤ s) →
  bins_ok m' free ∧ bins_step m m' all.
Proof.
  intros [Hgm Hd Hc Hsize Hsub Hf] Hs Ht' Hi [Hw Hm'] Hl.
  assert (∀ j x, 0 ≤ j < 32 → x ∈ bins j → (x, 8 * j) ∈ all ∧ 32 ≤ 8 * j < 256) as Hsm.
  { intros j x Hj Hx. pose proof (so_chunk _ _ _ Hs j x Hj Hx) as (H4 & _). split; [apply Hsub, Hf; left; eauto|lia]. }
  assert (∀ a, trie_words i l a → gm + 600 ≤ a < gm + 856 ∨ ∃ y s o, (y, s) ∈ all ∧ 256 ≤ s ∧ 16 ≤ o ≤ 56 ∧ a = y + o) as Hlk.
  { intros a [->|(y & o & Hy & Ho & ->)]; [left; unfold treebin_at; lia|]. right. destruct (Hl y Hy) as (s & Hin & Hs'). exists y, s, o. done. }
  assert (smallmap m' = smallmap m ∧ least_addr m' = least_addr m) as [Esm Ela] by (rewrite Hm'; done).
  assert (small_ok gm m' bins) as Hs'.
  { apply (small_ok_frame m); [done|done|lia| |].
    - intros j x Hj Hx o Ho. destruct (Hsm j x Hj Hx) as [Hin Hr]. apply Hw. intros [Hw'|(y & s & o' & Hy & Hs' & Ho' & Eq)]%Hlk; [destruct (Hc _ _ Hin); lia|].
      destruct (Hd x (8 * j) y s); [done|done|intros [= ? ?]; lia|lia|lia].
    - intros a Ha. apply Hw. intros [Hw'|(y & s & o' & Hy & Hs' & Ho' & Eq)]%Hlk; [lia|]. destruct (Hc y s Hy); lia. }
  assert (∀ x s, (x, s) ∈ all → mem m' (head_ x) = mem m (head_ x)) as Hcs.
  { intros x s Hx. pose proof (Hsize x s Hx). apply Hw. unfold head_. intros [Hw'|(y & t & o & Hy & Ht & Ho & Eq)]%Hlk; [destruct (Hc x s Hx); lia|].
    destruct (decide ((x, s) = (y, t))) as [[= -> ->]|Hne]; [lia|]. pose proof (Hsize y t Hy). destruct (Hd x s y t); [done..|lia|lia]. }
  split; [|split; [|rewrite Hm'; done]].
  - split; [done|intros p s q t Hp Hq; apply Hd; auto|intros p s Hp; apply Hc; auto|]. exists bins, trees'. split_and!; [done|done|].
    intros p s. rewrite Hf. unfold binned. split; (intros [?|(j & Hj & Hp & ->)]; [by left|right; exists j; split; [done|split; [done|]]]); unfold chunksize.
    + rewrite (Hcs p (chunksize (mem m) p)); [done|]. apply Hsub, Hf. right. eauto.
    + rewrite (Hcs p (chunksize (mem m) p)); [done|]. apply Hsub, Hf. right. eauto.
  - intros a Ha. apply Hw. intros [Hin|(y & s & o & Hy & Hge & Ho & ->)]%Hlk; apply Ha; [left; lia|right; exists y, s; split_and!; [done|lia|lia]].
Qed.

Lemma bins_sizes m free p s : bins_ok m free → (p, s) ∈ free → chunksize (mem m) p = s ∧ 32 ≤ s < 2 ^ 40 ∧ least_addr m ≤ p.
Proof.
  intros [_ _ _ (bins & trees & Hs & Ht & Hf)] Hin%Hf. destruct (binned_size _ _ _ _ _ Hs Ht Hin) as (H1 & H2 & [H3|(H3 & _)]); split_and!; try done; unfold large, MIN_LARGE_SIZE in *; lia.
Qed.

Lemma small_value s : 0 ≤ s → is_small s = (s <? 256).
Proof.
  intros Hs. unfold is_small. rewrite Z.shiftr_div_pow2 by lia. change (2 ^ 3) with 8. change NSMALLBINS with 32.
  destruct (Z.ltb_spec s 256); [apply Z.ltb_lt, Z.div_lt_upper_bound; lia|apply Z.ltb_ge, Z.div_le_lower_bound; lia].
Qed.

(** [insert_chunk] adds a chunk to the free ones. *)
Lemma bins_insert m free p s :
  bins_ok m free → new_free m free p s →
  ∃ m', insert_chunk p s m = Ok m' ∧ bins_ok m' ({[(p, s)]} ∪ free) ∧ bins_step m m' ({[(p, s)]} ∪ free).
Proof.
  intros Hok Hn. pose proof Hok as [Hgm Hd Hc (bins & trees & Hs & Ht & Hf)]. pose proof Hn as [Hh [Hsz Hm] Hle Hcl Hap]. unfold insert_chunk. rewrite small_value by lia.
  assert (∀ b t, (∀ q u, binned m b t q u ↔ (q, u) = (p, s) ∨ binned m bins trees q u) → bins_within m ({[(p, s)]} ∪ free) ({[(p, s)]} ∪ free) b t) as Hwi.
  { intros b t Hb. split; [done|apply (new_disjoint m); done| | |done|].
    - intros q u [[= -> ->]%elem_of_singleton|Hq]%elem_of_union; [done|apply Hc, Hq].
    - intros q u [[= -> ->]%elem_of_singleton|Hq]%elem_of_union; [lia|apply (bins_sizes m free q u Hok Hq)].
    - intros q u. rewrite Hb, elem_of_union, elem_of_singleton, Hf. done. }
  assert (∀ j x, 0 ≤ j < 32 → x ∈ bins j → (x, 8 * j) ∈ free ∧ 32 ≤ 8 * j) as Hsm.
  { intros j x Hj Hx. pose proof (so_chunk _ _ _ Hs j x Hj Hx) as (H4 & _). split; [apply Hf; left; eauto|lia]. }
  assert (∀ j x, 0 ≤ j < 32 → x ∈ nodes (trees j) → (x, chunksize (mem m) x) ∈ free ∧ 256 ≤ chunksize (mem m) x) as Hlg.
  { intros j x Hj Hx. pose proof (to_chunk _ _ Ht j x Hj Hx) as (H4 & _). split; [apply Hf; right; eauto|apply H4]. }
  destruct (Z.ltb_spec s 256) as [Hlt|Hge].
  - set (i := s / 8). assert (4 ≤ i < 32 ∧ s = 8 * i) as [Hi Es] by (pose proof (Z.div_mod s 8); unfold i; lia).
    destruct (small_insert gm m bins p i Hs Hi) as (m' & E & Hst & Hs').
    { split_and!; [lia|lia|unfold outside, clear_of_bins in *; lia|]. intros j y Hj Hy. destruct (Hsm j y Hj Hy) as [Hin Hge]. apply Hap in Hin. lia. }
    exists m'. rewrite Es at 1. split; [done|]. eapply (small_change m m' _ _ _ trees i); [apply Hwi|exact Hs'|done|lia|exact Hst|].
    + intros q u. unfold binned, set_bin. split.
      * intros [(j & Hj & Hq & ->)|?]; [|right; by right]. destruct (Z.eqb_spec j i) as [->|]; [|right; left; eauto]. apply elem_of_cons in Hq as [->|Hq]; [left; f_equal; done|right; left; eauto].
      * intros [[= -> ->]|[(j & Hj & Hq & ->)|?]]; [left; exists i; rewrite Z.eqb_refl; split_and!; [lia|lia|left|done]| |by right].
        left. exists j. split_and!; [lia|lia| |done]. destruct (Z.eqb_spec j i) as [->|]; [by right|done].
    + intros y [->|[->|Hy]%elem_of_cons]%elem_of_cons; [right; exists s; split; [set_solver|lia]|by left|]. right. exists (8 * i). destruct (Hsm i y ltac:(lia) Hy). split; [set_solver|lia].
  - destruct (tree_insert m trees p s Ht) as (m' & t & E & Hst & Ht' & Hnt).
    { split_and!; [done|unfold large; change MIN_LARGE_SIZE with 256; lia|lia|lia|destruct Hcl; [left|right]; lia|]. intros j y Hj Hy. destruct (Hlg j y Hj Hy) as [Hin Hg]. apply Hap in Hin. lia. }
    destruct (bin_of_size s) as [Hi _]; [unfold large; change MIN_LARGE_SIZE with 256; lia|]. set (i := compute_tree_index s) in *.
    exists m'. split; [done|]. eapply (tree_change m m' _ _ bins _ i); [apply Hwi|done|exact Ht'|lia|exact Hst|].
    + intros q u. unfold binned, set_tree. split.
      * intros [?|(j & Hj & Hq & ->)]; [right; by left|]. destruct (Z.eqb_spec j i) as [->|]; [|right; right; eauto]. rewrite Hnt in Hq. apply elem_of_cons in Hq as [->|Hq]; [left; f_equal; done|right; right; eauto].
      * intros [[= -> ->]|[?|(j & Hj & Hq & ->)]]; [right; exists i; rewrite Z.eqb_refl, Hnt; split_and!; [lia|lia|left|done]|by left|].
        right. exists j. split_and!; [lia|lia| |done]. destruct (Z.eqb_spec j i) as [->|]; [rewrite Hnt; by right|done].
    + intros y [->|Hy]%elem_of_cons; [exists s; split; [set_solver|lia]|]. destruct (Hlg i y Hi Hy). exists (chunksize (mem m) y). split; [set_solver|lia].
Qed.

(** [unlink_chunk] takes a chunk out. *)
Lemma bins_unlink m free p s :
  bins_ok m free → (p, s) ∈ free →
  ∃ m', unlink_chunk p s m = Ok m' ∧ bins_ok m' (free ∖ {[(p, s)]}) ∧ bins_step m m' free.
Proof.
  intros Hok Hin. pose proof (bins_sizes m free p s Hok Hin) as (Hcs & Hsz & _). pose proof Hok as [Hgm Hd Hc (bins & trees & Hs & Ht & Hf)]. unfold unlink_chunk. rewrite small_value by lia.
  assert (∀ b t, (∀ q u, binned m b t q u ↔ (q, u) ≠ (p, s) ∧ binned m bins trees q u) → bins_within m free (free ∖ {[(p, s)]}) b t) as Hwi.
  { intros b t Hb. split; [done|done|done|intros q u Hq; apply (bins_sizes m free q u Hok Hq)|set_solver|].
    intros q u. rewrite Hb, elem_of_difference, not_elem_of_singleton, Hf. tauto. }
  assert (∀ j x, 0 ≤ j < 32 → x ∈ nodes (trees j) → (x, chunksize (mem m) x) ∈ free ∧ 256 ≤ chunksize (mem m) x) as Hlg.
  { intros j x Hj Hx. pose proof (to_chunk _ _ Ht j x Hj Hx) as (H4 & _). split; [apply Hf; right; eauto|apply H4]. }
  pose proof Hin as Hbin. rewrite Hf in Hbin. destruct (binned_size _ _ _ _ _ Hs Ht Hbin) as (_ & _ & [(Hlt & Hge & Hm & Hp)|(Hl & Hp & _)]).
  - rewrite (proj2 (Z.ltb_lt _ _)) by done. set (i := s / 8) in *. assert (4 ≤ i < 32 ∧ s = 8 * i) as [Hi Es] by (pose proof (Z.div_mod s 8); unfold i; lia).
    apply list_elem_of_split in Hp as (l1 & l2 & Hl). destruct (small_unlink gm m bins i p l1 l2 Hs Hi Hl) as (m' & E & Hst & Hs').
    pose proof (so_nodup _ _ _ Hs i ltac:(lia)) as Hnd. rewrite Hl in Hnd. apply NoDup_app in Hnd as (_ & Hn1 & Hn2). apply NoDup_cons in Hn2 as [Hn2 _].
    exists m'. rewrite Es at 1. split; [done|]. eapply (small_change m m' _ _ _ trees i); [apply Hwi|exact Hs'|done|lia|exact Hst|].
    + intros q u. unfold binned, set_bin. split.
      * intros [(j & Hj & Hq & ->)|Hq].
        -- destruct (Z.eqb_spec j i) as [->|Hne]; [|split; [intros [= _ ?]; lia|left; eauto]]. split; [intros [= ->]|left; exists i; rewrite Hl; split_and!; [lia|lia| |done]].
           ++ apply elem_of_app in Hq as [Hq|Hq]; [apply (Hn1 p Hq); left|done].
           ++ rewrite elem_of_app, elem_of_cons. apply elem_of_app in Hq. tauto.
        -- split; [|by right]. intros [= -> ->]. destruct Hq as (j & Hj & Hq & E1). destruct (Hlg j p Hj Hq). lia.
      * intros [Hne [(j & Hj & Hq & ->)|?]]; [|by right]. left. exists j. split_and!; [lia|lia| |done]. destruct (Z.eqb_spec j i) as [->|]; [|done].
        rewrite Hl in Hq. rewrite elem_of_app, elem_of_cons in Hq. rewrite elem_of_app. destruct Hq as [?|[->|?]]; [by left| |by right]. rewrite Es in Hne. done.
    + intros y [->|Hy]%elem_of_cons; [by left|]. right. exists (8 * i). split; [apply Hf; left; exists i; split_and!; done || lia|lia].
  - unfold large in Hl. change MIN_LARGE_SIZE with 256 in Hl. rewrite (proj2 (Z.ltb_ge _ _)) by lia. destruct (bin_of_size s Hl) as [Hi _]. set (i := compute_tree_index s) in *.
    destruct (tree_unlink m trees i p Hgm Ht Hi Hp) as (m' & t & E & Hst & Ht' & Hnt). pose proof (to_nodup _ _ Ht i Hi) as Hnd. rewrite <- Hnt in Hnd. apply NoDup_cons in Hnd as [Hnd _].
    exists m'. split; [done|]. eapply (tree_change m m' _ _ bins _ i); [apply Hwi|done|exact Ht'|lia|exact Hst|].
    + intros q u. unfold binned, set_tree. split.
      * intros [Hq|(j & Hj & Hq & ->)].
        -- split; [|by left]. intros [= -> ->]. destruct Hq as (j & Hj & _ & E1). lia.
        -- destruct (Z.eqb_spec j i) as [->|Hne].
           ++ split; [intros [= ->]; done|right; exists i; rewrite <- Hnt; split_and!; [lia|lia|by right|done]].
           ++ split; [|right; eauto]. intros [= -> Eq]. pose proof (to_chunk _ _ Ht j p Hj Hq) as (_ & Hx & _). rewrite Eq in Hx. done.
      * intros [Hne [?|(j & Hj & Hq & ->)]]; [by left|]. right. exists j. split_and!; [lia|lia| |done]. destruct (Z.eqb_spec j i) as [->|]; [|done].
        rewrite <- Hnt in Hq. apply elem_of_cons in Hq as [->|Hq]; [|done]. rewrite Hcs in Hne. done.
    + intros y Hy. destruct (Hlg i y Hi Hy). eauto.
Qed.

(** The fields that the bins do not use may change. *)
Lemma bins_ok_same m m' free :
  bins_ok m free → smallmap m' = smallmap m → treemap m' = treemap m → least_addr m' = least_addr m → mem m' = mem m → bins_ok m' free.
Proof.
  intros [Hgm Hd Hc (bins & trees & Hs & Ht & Hf)] Es Et El Em. split; [done..|]. exists bins, trees. split_and!.
  - apply (small_ok_frame m); try done; [lia|rewrite Em; done..].
  - apply (tree_ok_frame m); try done; [lia|lia|rewrite Em; done..].
  - intros p s. rewrite Hf. unfold binned. rewrite Em. done.
Qed.

(** The map of small bins tells which sizes there are. *)
Lemma bins_small_bit m free i :
  bins_ok m free → 0 ≤ i < 32 → (Z.testbit (smallmap m) i = true ↔ ∃ p, (p, 8 * i) ∈ free) ∧ (Z.testbit (smallmap m) i = true → 4 ≤ i).
Proof.
  intros [_ _ _ (bins & trees & Hs & Ht & Hf)] Hi. rewrite (so_bit _ _ _ Hs) by done. assert (∀ p, (p, 8 * i) ∈ free → p ∈ bins i) as Hp.
  { intros p [(j & Hj & Hp & E)|(j & Hj & Hp & E)]%Hf; [by replace i with j by lia|]. pose proof (to_chunk _ _ Ht j p Hj Hp) as (Hl & _). unfold large, MIN_LARGE_SIZE in Hl. lia. }
  destruct (bins i) as [|p l] eqn:El.
  - rewrite bool_decide_eq_true_2 by done. simpl. split; [|done]. split; [done|]. intros (p & []%Hp%elem_of_nil).
  - rewrite bool_decide_eq_false_2 by done. simpl. assert (p ∈ bins i) as Hin by (rewrite El; left). split.
    + split; [intros _; exists p; apply Hf; left; eauto|done].
    + intros _. apply (so_chunk _ _ _ Hs i p Hi Hin).
Qed.

(** Taking the first chunk of a small bin that is marked. *)
Lemma bins_take_first m free i :
  bins_ok m free → 0 ≤ i < 32 → Z.testbit (smallmap m) i = true →
  let p := mem m (fd (smallbin_at gm i)) in
  (p, 8 * i) ∈ free ∧ ∃ m', unlink_first_small_chunk (smallbin_at gm i) p i m = Ok m' ∧ bins_ok m' (free ∖ {[(p, 8 * i)]}) ∧ bins_step m m' free.
Proof.
  intros Hok Hi Hbit p. destruct (bins_small_bit m free i Hok Hi) as [_ H4]. specialize (H4 Hbit). pose proof Hok as [Hgm Hd Hc (bins & trees & Hs & Ht & Hf)].
  rewrite (so_bit _ _ _ Hs) in Hbit by done. destruct (bins i) as [|p' l] eqn:El; [rewrite bool_decide_eq_true_2 in Hbit by done; done|].
  destruct (small_unlink_first gm m bins i p' l Hs ltac:(lia) El) as (Ep & m' & E & Hst & Hs'). fold p in Ep. subst p'.
  assert (p ∈ bins i) as Hp by (rewrite El; left). assert ((p, 8 * i) ∈ free) as Hin by (apply Hf; left; eauto). split; [done|]. exists m'. split; [done|].
  pose proof (so_nodup _ _ _ Hs i Hi) as Hnd. rewrite El in Hnd. apply NoDup_cons in Hnd as [Hnd _].
  eapply (small_change m m' _ _ _ trees i); [|exact Hs'|done|done|exact Hst|].
  - split; [done|done|done|intros q u Hq; apply (bins_sizes m free q u Hok Hq)|set_solver|]. intros q u. rewrite elem_of_difference, not_elem_of_singleton, Hf. unfold binned, set_bin. split.
    + intros [[(j & Hj & Hq & ->)|?] Hne]; [|by right]. left. exists j. split; [done|]. split; [|done]. destruct (Z.eqb_spec j i) as [->|]; [|done]. rewrite El in Hq. apply elem_of_cons in Hq as [->|Hq]; [done|done].
    + intros [(j & Hj & Hq & ->)|Hq].
      * destruct (Z.eqb_spec j i) as [->|Hne]; [|split; [left; eauto|intros [= _ ?]; lia]]. split; [left; exists i; rewrite El; split_and!; [lia|lia|by right|done]|]. intros [= ->]. done.
      * split; [by right|]. intros [= -> ->]. destruct Hq as (j & Hj & Hq & E'). pose proof (to_chunk _ _ Ht j p Hj Hq) as (Hl & _). unfold large, MIN_LARGE_SIZE in Hl. lia.
  - intros y [->|Hy]%elem_of_cons; [by left|]. right. exists (8 * i). split; [apply Hf; left; exists i; done|lia].
Qed.
End bins.
