(* ===== verification/DlSys.v ===== *)
(** * The kernel heap: heads, segments and memory from the system

    mm/dlmalloc.cpp: the macros that write the heads and feet of chunks, the list of
    segments, and the functions that get memory from [mmap] and give it back.  The two
    functions [mmap] and [munmap] are an interface, which ObjAlloc implements by the page
    allocator. *)

From S2P Require Import Prelude Define DlBase DlSmall DlTree DlBins.
Local Open Scope Z_scope.

(** ** Heads and feet *)

Definition INUSE_BITS : Z := Z.lor PINUSE_BIT CINUSE_BIT.
Definition FENCEPOST_HEAD : Z := Z.lor INUSE_BITS SIZE_T_SIZE.
Definition MMAP_FOOT_PAD : Z := 32.

Definition cinuse (w : words) (p : Z) : bool := negb (Z.land (w (head_ p)) CINUSE_BIT =? 0).
Definition pinuse (w : words) (p : Z) : bool := negb (Z.land (w (head_ p)) PINUSE_BIT =? 0).
Definition is_inuse (w : words) (p : Z) : bool := negb (Z.land (w (head_ p)) INUSE_BITS =? PINUSE_BIT).
Definition is_mmapped (w : words) (p : Z) : bool := Z.land (w (head_ p)) INUSE_BITS =? 0.

Definition clear_pinuse (p : Z) (m : mstate) : mstate := put m (head_ p) (Z.land (mem m (head_ p)) (u64 (Z.lnot PINUSE_BIT))).

Definition set_size_and_pinuse_of_free_chunk (p s : Z) (m : mstate) : mstate :=
  puts m [(head_ p, Z.lor s PINUSE_BIT); (prev_foot (p + s), s)].

Definition set_free_with_pinuse (p s n : Z) (m : mstate) : mstate :=
  set_size_and_pinuse_of_free_chunk p s (clear_pinuse n m).

Definition set_inuse_and_pinuse (p s : Z) (m : mstate) : mstate :=
  let m := put m (head_ p) (Z.lor (Z.lor s PINUSE_BIT) CINUSE_BIT) in
  put m (head_ (p + s)) (Z.lor (mem m (head_ (p + s))) PINUSE_BIT).

Definition set_size_and_pinuse_of_inuse_chunk (p s : Z) (m : mstate) : mstate :=
  put m (head_ p) (Z.lor (Z.lor s PINUSE_BIT) CINUSE_BIT).

(** ** Parameters *)

Definition page_size : Z := 4096.
Definition granularity : Z := 64 * 1024.
Definition mmap_threshold : Z := 256 * 1024.
Definition trim_threshold : Z := 2 * 1024 * 1024.
Definition USE_MMAP_BIT : Z := 1.
Definition USE_NONCONTIGUOUS_BIT : Z := 4.
Definition EXTERN_BIT : Z := 8.
Definition MAX_SIZE_T : Z := 2 ^ 64 - 1.
Definition MFAIL : Z := MAX_SIZE_T.
Definition MAX_RELEASE_CHECK_RATE : Z := 4095.

(** [ensure_initialization] with [init_mparams]: all that the kernel's configuration
    leaves to set are the flags. *)
Definition ensure_initialization (m : mstate) : mstate :=
  if ready m then m else with_flags m (Z.lor USE_MMAP_BIT USE_NONCONTIGUOUS_BIT).

Definition page_align (s : Z) : Z := Z.land (u64 (s + (page_size - 1))) (u64 (Z.lnot (page_size - 1))).
Definition granularity_align (s : Z) : Z := Z.land (u64 (s + (granularity - 1))) (u64 (Z.lnot (granularity - 1))).
Definition TOP_FOOT_SIZE : Z := align_offset (chunk2mem 0) + pad_request 32 + MIN_CHUNK_SIZE.
Definition SYS_ALLOC_PADDING : Z := TOP_FOOT_SIZE + MALLOC_ALIGNMENT.

(** [m->footprint += s], with the maximum. *)
Definition add_footprint (s : Z) (m : mstate) : mstate :=
  let f := u64 (footprint m + s) in with_footprint m f (if max_footprint m <? f then f else max_footprint m).

(** The limit of the footprint leaves room for [s] more bytes. *)
Definition within_limit (s : Z) (m : mstate) : bool :=
  (footprint_limit m =? 0) || negb ((u64 (footprint m + s) <=? footprint m) || (footprint_limit m <? u64 (footprint m + s))).

Definition init_top (p psize : Z) (m : mstate) : mstate :=
  let offset := align_offset (chunk2mem p) in
  let p := p + offset in
  let psize := u64 (psize - offset) in
  let m := with_top m p psize in
  let m := puts m [(head_ p, Z.lor psize PINUSE_BIT); (head_ (p + psize), TOP_FOOT_SIZE)] in
  with_trim m trim_threshold.

Section sys.
Context (gm : Z) {W : Type}.

(** [mmap] of a number of bytes and [munmap] of a range: the address or [MFAIL], and the
    result of the call, with the state of the page allocator. *)
Context (mmap : Z → W → result (Z * W)) (munmap : Z → Z → W → result (Z * W)).

(** A bound on the number of segments. *)
Context (segs : nat).

(** [init_bins]. *)
Definition init_bins (m : mstate) : mstate :=
  foldl (λ m i, let b := smallbin_at gm i in puts m [(bk b, b); (fd b, b)]) m (seqZ 0 32).

(** ** Segments *)

Definition seg_of : Z := gm + 888.

Fixpoint segment_holding (fuel : nat) (w : words) (sp addr : Z) : result Z :=
  match fuel with
  | O => Err Hang
  | S fuel =>
    if (w (seg_base sp) <=? addr) && (addr <? w (seg_base sp) + w (seg_size sp)) then Ok sp
    else if w (seg_next sp) =? 0 then Ok 0 else segment_holding fuel w (w (seg_next sp)) addr
  end.

Fixpoint has_segment_link (fuel : nat) (w : words) (sp ss : Z) : result bool :=
  match fuel with
  | O => Err Hang
  | S fuel =>
    if (w (seg_base ss) <=? sp) && (sp <? w (seg_base ss) + w (seg_size ss)) then Ok true
    else if w (seg_next sp) =? 0 then Ok false else has_segment_link fuel w (w (seg_next sp)) ss
  end.

(** The loops of [sys_alloc] that look for a neighbouring segment. *)
Fixpoint find_segment (fuel : nat) (w : words) (fits : Z → bool) (sp : Z) : result Z :=
  match fuel with
  | O => Err Hang
  | S fuel => if (sp =? 0) || fits sp then Ok sp else find_segment fuel w fits (w (seg_next sp))
  end.

Definition is_mmapped_segment (w : words) (sp : Z) : bool := negb (Z.land (w (seg_flags sp)) USE_MMAP_BIT =? 0).
Definition is_extern_segment (w : words) (sp : Z) : bool := negb (Z.land (w (seg_flags sp)) EXTERN_BIT =? 0).

Definition mmap_alloc (nb : Z) (m : mstate) (s : W) : result (Z * mstate * W) :=
  let mmsize := page_align (u64 (nb + 48 + CHUNK_ALIGN_MASK)) in
  if negb (within_limit mmsize m) then Ok (0, m, s)
  else if nb <? mmsize then
    '(mm, s) ← mmap mmsize s;
    if negb (mm =? MFAIL) then
      let offset := align_offset (chunk2mem mm) in
      let psize := u64 (mmsize - offset - MMAP_FOOT_PAD) in
      let p := mm + offset in
      let m := puts m [(prev_foot p, offset); (head_ p, psize); (head_ (p + psize), FENCEPOST_HEAD); (head_ (p + psize + SIZE_T_SIZE), 0)] in
      let m := if (least_addr m =? 0) || (mm <? least_addr m) then with_least m mm else m in
      let m := add_footprint mmsize m in
      _ ← cassert (Z.land (chunk2mem p) CHUNK_ALIGN_MASK =? 0);
      Ok (chunk2mem p, m, s)
    else Ok (0, m, s)
  else Ok (0, m, s).

Definition prepend_alloc (newbase oldbase nb : Z) (m : mstate) : result (Z * mstate) :=
  let p := align_as_chunk newbase in
  let oldfirst := align_as_chunk oldbase in
  let psize := oldfirst - p in
  let q := p + nb in
  let qsize := u64 (psize - nb) in
  let m := set_size_and_pinuse_of_inuse_chunk p nb m in
  _ ← cassert (q <? oldfirst);
  _ ← cassert (pinuse (mem m) oldfirst);
  _ ← cassert (MIN_CHUNK_SIZE <=? qsize);
  m ← (if oldfirst =? top m then
         let tsize := u64 (topsize m + qsize) in
         Ok (put (with_top m q tsize) (head_ q) (Z.lor tsize PINUSE_BIT))
       else if oldfirst =? dv m then
         let dsize := u64 (dvsize m + qsize) in
         Ok (set_size_and_pinuse_of_free_chunk q dsize (with_dv m q dsize))
       else
         '(oldfirst, qsize, m) ← (if negb (is_inuse (mem m) oldfirst) then
                                    let nsize := chunksize (mem m) oldfirst in
                                    m ← unlink_chunk gm oldfirst nsize m;
                                    Ok (oldfirst + nsize, u64 (qsize + nsize), m)
                                  else Ok (oldfirst, qsize, m));
         let m := set_free_with_pinuse q qsize oldfirst m in
         insert_chunk gm q qsize m);
  Ok (chunk2mem p, m).

(** The fence posts from [p] on up to [old_end], and their number. *)
Fixpoint fences (fuel : nat) (p old_end : Z) (nfences : Z) (m : mstate) : result (Z * mstate) :=
  match fuel with
  | O => Err Hang
  | S fuel =>
    let nextp := p + SIZE_T_SIZE in
    let m := put m (head_ p) FENCEPOST_HEAD in
    if head_ nextp <? old_end then fences fuel nextp old_end (nfences + 1) m else Ok (nfences + 1, m)
  end.

Definition add_segment (tbase tsize mmapped : Z) (m : mstate) : result mstate :=
  let old_top := top m in
  oldsp ← segment_holding segs (mem m) seg_of old_top;
  _ ← check NullDeref (negb (oldsp =? 0));
  let old_end := mem m (seg_base oldsp) + mem m (seg_size oldsp) in
  let ssize := pad_request 32 in
  let rawsp := old_end - (ssize + 32 + CHUNK_ALIGN_MASK) in
  let offset := align_offset (chunk2mem rawsp) in
  let asp := rawsp + offset in
  let csp := if asp <? old_top + MIN_CHUNK_SIZE then old_top else asp in
  let ss := chunk2mem csp in
  let tnext := csp + ssize in
  let m := init_top tbase (u64 (tsize - TOP_FOOT_SIZE)) m in
  _ ← cassert (Z.land ss CHUNK_ALIGN_MASK =? 0);
  let m := set_size_and_pinuse_of_inuse_chunk csp ssize m in
  let w := mem m in
  let m := puts m [(seg_base ss, w (seg_base seg_of)); (seg_size ss, w (seg_size seg_of)); (seg_next ss, w (seg_next seg_of)); (seg_flags ss, w (seg_flags seg_of))] in
  let m := puts m [(seg_base seg_of, tbase); (seg_size seg_of, tsize); (seg_flags seg_of, mmapped); (seg_next seg_of, ss)] in
  '(nfences, m) ← fences 32 tnext old_end 0 m;
  _ ← cassert (2 <=? nfences);
  if negb (csp =? old_top) then
    let psize := csp - old_top in
    let m := set_free_with_pinuse old_top psize (old_top + psize) m in
    insert_chunk gm old_top psize m
  else Ok m.

(** Cuts [nb] bytes off the top chunk. *)
Definition split_top (nb : Z) (m : mstate) : Z * mstate :=
  let rsize := u64 (topsize m - nb) in
  let p := top m in
  let r := p + nb in
  let m := put (with_top m r rsize) (head_ r) (Z.lor rsize PINUSE_BIT) in
  (chunk2mem p, set_size_and_pinuse_of_inuse_chunk p nb m).

(** The part of [sys_alloc] that puts the new memory to use: a block when the request is
    already served. *)
Definition use_memory (tbase tsize mmap_flag nb : Z) (m : mstate) : result (option Z * mstate) :=
  if top m =? 0 then
    let m := if (least_addr m =? 0) || (tbase <? least_addr m) then with_least m tbase else m in
    let m := puts m [(seg_base seg_of, tbase); (seg_size seg_of, tsize); (seg_flags seg_of, mmap_flag)] in
    let m := init_bins (with_release m MAX_RELEASE_CHECK_RATE) in
    Ok (None, init_top tbase (u64 (tsize - TOP_FOOT_SIZE)) m)
  else
    let w := mem m in
    sp ← find_segment segs w (λ sp, tbase =? w (seg_base sp) + w (seg_size sp)) seg_of;
    if negb (sp =? 0) && negb (is_extern_segment w sp) && (Z.land (w (seg_flags sp)) USE_MMAP_BIT =? mmap_flag)
       && (w (seg_base sp) <=? top m) && (top m <? w (seg_base sp) + w (seg_size sp)) then
      let m := put m (seg_size sp) (u64 (w (seg_size sp) + tsize)) in
      Ok (None, init_top (top m) (u64 (topsize m + tsize)) m)
    else
      let m := if tbase <? least_addr m then with_least m tbase else m in
      sp ← find_segment segs w (λ sp, w (seg_base sp) =? tbase + tsize) seg_of;
      if negb (sp =? 0) && negb (is_extern_segment w sp) && (Z.land (w (seg_flags sp)) USE_MMAP_BIT =? mmap_flag) then
        let oldbase := w (seg_base sp) in
        let m := puts m [(seg_base sp, tbase); (seg_size sp, u64 (w (seg_size sp) + tsize))] in
        '(a, m) ← prepend_alloc tbase oldbase nb m;
        Ok (Some a, m)
      else
        m ← add_segment tbase tsize mmap_flag m;
        Ok (None, m).

Definition sys_alloc (nb : Z) (m : mstate) (s : W) : result (Z * mstate * W) :=
  let m := ensure_initialization m in
  '(a, m, s) ← (if negb (Z.land (mflags m) USE_MMAP_BIT =? 0) && (mmap_threshold <=? nb) && negb (topsize m =? 0)
                then mmap_alloc nb m s else Ok (0, m, s));
  if negb (a =? 0) then Ok (a, m, s)
  else
    let asize := granularity_align (u64 (nb + SYS_ALLOC_PADDING)) in
    if asize <=? nb then Ok (0, m, s)
    else if negb (within_limit asize m) then Ok (0, m, s)
    else
      '(mp, s) ← mmap asize s;
      if negb (mp =? MFAIL) then
        let m := add_footprint asize m in
        '(r, m) ← use_memory mp asize USE_MMAP_BIT nb m;
        match r with
        | Some a => Ok (a, m, s)
        | None => if nb <? topsize m then let '(a, m) := split_top nb m in Ok (a, m, s) else Ok (0, m, s)
        end
      else Ok (0, m, s).

(** ** Giving memory back *)

(** The loop of [release_unused_segments] over the segments behind [pred]. *)
Fixpoint release_loop (fuel : nat) (pred sp nsegs released : Z) (m : mstate) (s : W) : result (Z * Z * mstate * W) :=
  match fuel with
  | O => Err Hang
  | S fuel =>
    if sp =? 0 then Ok (nsegs, released, m, s)
    else
      let base := mem m (seg_base sp) in
      let size := mem m (seg_size sp) in
      let next := mem m (seg_next sp) in
      let p := align_as_chunk base in
      let psize := chunksize (mem m) p in
      '(sp, released, m, s) ←
        (if is_mmapped_segment (mem m) sp && negb (is_extern_segment (mem m) sp) && negb (is_inuse (mem m) p)
            && (base + size - TOP_FOOT_SIZE <=? p + psize) then
           _ ← cassert ((base <=? sp) && (sp <? base + size));
           m ← (if p =? dv m then Ok (with_dv m 0 0) else unlink_large_chunk gm p m);
           '(e, s) ← munmap base size s;
           if e =? 0 then Ok (pred, u64 (released + size), put (with_footprint m (u64 (footprint m - size)) (max_footprint m)) (seg_next pred) next, s)
           else m ← insert_large_chunk gm p psize m; Ok (sp, released, m, s)
         else Ok (sp, released, m, s));
      release_loop fuel sp next (nsegs + 1) released m s
  end.

Definition release_unused_segments (m : mstate) (s : W) : result (Z * mstate * W) :=
  '(nsegs, released, m, s) ← release_loop segs seg_of (mem m (seg_next seg_of)) 0 0 m s;
  Ok (released, with_release m (if MAX_RELEASE_CHECK_RATE <? nsegs then nsegs else MAX_RELEASE_CHECK_RATE), s).

(** The part of [sys_trim] that shrinks the top chunk: the number of bytes given back. *)
Definition trim_top (pad : Z) (m : mstate) (s : W) : result (Z * mstate * W) :=
  if pad <? topsize m then
    let extra := u64 ((u64 (topsize m - pad + (granularity - 1)) / granularity - 1) * granularity) in
    sp ← segment_holding segs (mem m) seg_of (top m);
    _ ← check NullDeref (negb (sp =? 0));
    '(released, s) ←
      (if negb (is_extern_segment (mem m) sp) && is_mmapped_segment (mem m) sp && (extra <=? mem m (seg_size sp)) then
         linked ← has_segment_link segs (mem m) seg_of sp;
         if (linked : bool) then Ok (0, s)
         else '(e, s) ← munmap (mem m (seg_base sp) + u64 (mem m (seg_size sp) - extra)) extra s;
              Ok (if e =? 0 then extra else 0, s)
       else Ok (0, s));
    if negb (released =? 0) then
      let m := put m (seg_size sp) (u64 (mem m (seg_size sp) - released)) in
      let m := with_footprint m (u64 (footprint m - released)) (max_footprint m) in
      Ok (released, init_top (top m) (u64 (topsize m - released)) m, s)
    else Ok (released, m, s)
  else Ok (0, m, s).

Definition sys_trim (pad : Z) (m : mstate) (s : W) : result (Z * mstate * W) :=
  let m := ensure_initialization m in
  if (pad <? MAX_REQUEST) && negb (top m =? 0) then
    '(r1, m, s) ← trim_top (u64 (pad + TOP_FOOT_SIZE)) m s;
    '(r2, m, s) ← release_unused_segments m s;
    let released := u64 (r1 + r2) in
    let m := if (released =? 0) && (trim_check m <? topsize m) then with_trim m MAX_SIZE_T else m in
    Ok (if negb (released =? 0) then 1 else 0, m, s)
  else Ok (0, m, s).
End sys.
