(* ===== verification/DlMalloc.v ===== *)
(** * The kernel heap: allocation and release

    mm/dlmalloc.cpp: [tmalloc_large] and [tmalloc_small], which look for the best fitting
    chunk of the tries, and [dlmalloc] and [dlfree]. *)

From S2P Require Import Prelude Define DlBase DlSmall DlTree DlBins DlSys.
Local Open Scope Z_scope.

Section malloc.
Context (gm : Z).

(** ** Searching the tries *)

Definition leftmost_child (w : words) (t : Z) : Z := if negb (w (child t 0) =? 0) then w (child t 0) else w (child t 1).

(** The loop of [tmalloc_large] through the trie of the bin of [nb]: the subtree that is
    left to look at, the best chunk so far and what it has too much. *)
Fixpoint fit_loop (fuel : nat) (w : words) (nb t v rsize sizebits rst : Z) : result (Z * Z * Z) :=
  match fuel with
  | O => Err Hang
  | S fuel =>
    let trem := u64 (chunksize w t - nb) in
    let better := trem <? rsize in
    let v := if better then t else v in
    let rsize := if better then trem else rsize in
    if better && (trem =? 0) then Ok (t, v, rsize)
    else
      let rt := w (child t 1) in
      let t := w (child t (Z.land (Z.shiftr sizebits 63) 1)) in
      let rst := if negb (rt =? 0) && negb (rt =? t) then rt else rst in
      if t =? 0 then Ok (rst, v, rsize) else fit_loop fuel w nb t v rsize (u64 (Z.shiftl sizebits 1)) rst
  end.

(** The loops down the left side of a trie. *)
Fixpoint least_loop (fuel : nat) (w : words) (nb t v rsize : Z) : result (Z * Z) :=
  match fuel with
  | O => Err Hang
  | S fuel =>
    if t =? 0 then Ok (v, rsize)
    else
      let trem := u64 (chunksize w t - nb) in
      let better := trem <? rsize in
      least_loop fuel w nb (leftmost_child w t) (if better then t else v) (if better then trem else rsize)
  end.

(** The first part of [tmalloc_large]: the chunk found, or none, and its excess. *)
Definition find_large (nb : Z) (m : mstate) : result (Z * Z) :=
  let w := mem m in
  let idx := compute_tree_index nb in
  let t := w (treebin_at gm idx) in
  '(t, v, rsize) ← (if negb (t =? 0) then fit_loop 65 w nb t 0 (u64 (- nb)) (u64 (Z.shiftl nb (leftshift_for_tree_index idx))) 0
                    else Ok (t, 0, u64 (- nb)));
  let leftbits := Z.land (left_bits (idx2bit idx)) (treemap m) in
  let t := if (t =? 0) && (v =? 0) && negb (leftbits =? 0) then w (treebin_at gm (compute_bit2idx (least_bit leftbits))) else t in
  least_loop 66 w nb t v rsize.

(** Marks the first [nb] bytes of the chunk [v] as in use and gives the rest, when it can
    be a chunk, to [keep]. *)
Definition split_chunk (v nb rsize : Z) (keep : Z → Z → mstate → result mstate) (m : mstate) : result mstate :=
  let r := v + nb in
  if rsize <? MIN_CHUNK_SIZE then Ok (set_inuse_and_pinuse v (u64 (rsize + nb)) m)
  else
    let m := set_size_and_pinuse_of_inuse_chunk v nb m in
    let m := set_size_and_pinuse_of_free_chunk r rsize m in
    keep r rsize m.

Definition tmalloc_large (nb : Z) (m : mstate) : result (Z * mstate) :=
  '(v, rsize) ← find_large nb m;
  if negb (v =? 0) && (rsize <? u64 (dvsize m - nb)) then
    if ok_address m v then
      _ ← cassert (chunksize (mem m) v =? u64 (rsize + nb));
      if v <? v + nb then
        m ← unlink_large_chunk gm v m;
        m ← split_chunk v nb rsize (insert_chunk gm) m;
        Ok (chunk2mem v, m)
      else Err Aborted
    else Err Aborted
  else Ok (0, m).

(** The first part of [tmalloc_small]: the smallest chunk of the first trie. *)
Definition find_least (nb : Z) (m : mstate) : result (Z * Z) :=
  let w := mem m in
  let t := w (treebin_at gm (compute_bit2idx (least_bit (treemap m)))) in
  least_loop 66 w nb (leftmost_child w t) t (u64 (chunksize w t - nb)).

Definition tmalloc_small (nb : Z) (m : mstate) : result (Z * mstate) :=
  '(v, rsize) ← find_least nb m;
  if ok_address m v then
    _ ← cassert (chunksize (mem m) v =? u64 (rsize + nb));
    if v <? v + nb then
      m ← unlink_large_chunk gm v m;
      m ← split_chunk v nb rsize (replace_dv gm) m;
      Ok (chunk2mem v, m)
    else Err Aborted
  else Err Aborted.

(** ** Allocation *)

(** A small bin whose chunks are used as a whole. *)
Definition take_small (idx : Z) (m : mstate) : result (Z * mstate) :=
  let b := smallbin_at gm idx in
  let p := mem m (fd b) in
  _ ← cassert (chunksize (mem m) p =? small_index2size idx);
  m ← unlink_first_small_chunk b p idx m;
  Ok (chunk2mem p, set_inuse_and_pinuse p (small_index2size idx) m).

(** The next small bin that is not empty; the rest becomes the designated victim. *)
Definition take_next_small (idx smallbits nb : Z) (m : mstate) : result (Z * mstate) :=
  let leftbits := Z.land (u32 (Z.shiftl smallbits idx)) (left_bits (idx2bit idx)) in
  let i := compute_bit2idx (least_bit leftbits) in
  let b := smallbin_at gm i in
  let p := mem m (fd b) in
  _ ← cassert (chunksize (mem m) p =? small_index2size i);
  m ← unlink_first_small_chunk b p i m;
  m ← split_chunk p nb (u64 (small_index2size i - nb)) (replace_dv gm) m;
  Ok (chunk2mem p, m).

(** Cuts [nb] bytes off the designated victim. *)
Definition take_dv (nb : Z) (m : mstate) : Z * mstate :=
  let rsize := u64 (dvsize m - nb) in
  let p := dv m in
  (chunk2mem p,
   if MIN_CHUNK_SIZE <=? rsize then
     let r := p + nb in
     let m := with_dv m r rsize in
     let m := set_size_and_pinuse_of_free_chunk r rsize m in
     set_size_and_pinuse_of_inuse_chunk p nb m
   else
     let dvs := dvsize m in
     let m := with_dv m 0 0 in
     set_inuse_and_pinuse p dvs m).

(** The part of [dlmalloc] that tries the bins: a block, if one was found there, and the
    size of the chunk. *)
Definition malloc_bins (bytes : Z) (m : mstate) : result (option Z * Z * mstate) :=
  if bytes <=? MAX_SMALL_REQUEST then
    let nb := request2size bytes in
    let idx := small_index nb in
    let smallbits := Z.shiftr (smallmap m) idx in
    if negb (Z.land smallbits 3 =? 0) then
      '(a, m) ← take_small (u32 (idx + Z.land (u32 (Z.lnot smallbits)) 1)) m;
      Ok (Some a, nb, m)
    else if dvsize m <? nb then
      if negb (smallbits =? 0) then '(a, m) ← take_next_small idx smallbits nb m; Ok (Some a, nb, m)
      else if negb (treemap m =? 0) then '(a, m) ← tmalloc_small nb m; Ok (if a =? 0 then None else Some a, nb, m)
      else Ok (None, nb, m)
    else Ok (None, nb, m)
  else if MAX_REQUEST <=? bytes then Ok (None, MAX_SIZE_T, m)
  else
    let nb := pad_request bytes in
    if negb (treemap m =? 0) then '(a, m) ← tmalloc_large nb m; Ok (if a =? 0 then None else Some a, nb, m)
    else Ok (None, nb, m).

Section sys.
Context {W : Type} (mmap : Z → W → result (Z * W)) (munmap : Z → Z → W → result (Z * W)) (segs : nat).

Definition dlmalloc (bytes : Z) (m : mstate) (s : W) : result (Z * mstate * W) :=
  '(a, nb, m) ← malloc_bins bytes m;
  match a with
  | Some a => Ok (a, m, s)
  | None =>
    if nb <=? dvsize m then let '(a, m) := take_dv nb m in Ok (a, m, s)
    else if nb <? topsize m then let '(a, m) := split_top nb m in Ok (a, m, s)
    else sys_alloc gm mmap segs nb m s
  end.

(** ** Release *)

(** The first part of [dlfree], which joins the chunk with a free one before it: the state
    when that was all, or else the chunk and its size to go on with. *)
Definition free_backward (p psize next : Z) (m : mstate) (s : W) : result ((mstate * W) + (Z * Z * mstate * W)) :=
  if pinuse (mem m) p then Ok (inr (p, psize, m, s))
  else
    let prevsize := mem m (prev_foot p) in
    if is_mmapped (mem m) p then
      let psize := u64 (psize + prevsize + MMAP_FOOT_PAD) in
      '(e, s) ← munmap (p - prevsize) psize s;
      Ok (inl (if e =? 0 then with_footprint m (u64 (footprint m - psize)) (max_footprint m) else m, s))
    else
      let p := p - prevsize in
      let psize := u64 (psize + prevsize) in
      if ok_address m p then
        if negb (p =? dv m) then m ← unlink_chunk gm p prevsize m; Ok (inr (p, psize, m, s))
        else if Z.land (mem m (head_ next)) INUSE_BITS =? INUSE_BITS then
          Ok (inl (set_free_with_pinuse p psize next (with_dv m (dv m) psize), s))
        else Ok (inr (p, psize, m, s))
      else Err Aborted.

(** The last part: the chunk goes to its bin. *)
Definition free_bin (p psize : Z) (m : mstate) (s : W) : result (mstate * W) :=
  if is_small psize then m ← insert_small_chunk gm p psize m; Ok (m, s)
  else
    m ← insert_large_chunk gm p psize m;
    let m := with_release m (u64 (release_checks m - 1)) in
    if release_checks m =? 0 then '(_, m, s) ← release_unused_segments gm munmap segs m s; Ok (m, s)
    else Ok (m, s).

(** The middle part, which joins the chunk with what follows it. *)
Definition free_forward (p psize next : Z) (m : mstate) (s : W) : result (mstate * W) :=
  if (p <? next) && pinuse (mem m) next then
    if negb (cinuse (mem m) next) then
      if next =? top m then
        let tsize := u64 (topsize m + psize) in
        let m := put (with_top m p tsize) (head_ p) (Z.lor tsize PINUSE_BIT) in
        let m := if p =? dv m then with_dv m 0 0 else m in
        if trim_check m <? tsize then '(_, m, s) ← sys_trim gm munmap segs 0 m s; Ok (m, s) else Ok (m, s)
      else if next =? dv m then
        let dsize := u64 (dvsize m + psize) in
        Ok (set_size_and_pinuse_of_free_chunk p dsize (with_dv m p dsize), s)
      else
        let nsize := chunksize (mem m) next in
        let psize := u64 (psize + nsize) in
        m ← unlink_chunk gm next nsize m;
        let m := set_size_and_pinuse_of_free_chunk p psize m in
        if p =? dv m then Ok (with_dv m (dv m) psize, s) else free_bin p psize m s
    else free_bin p psize (set_free_with_pinuse p psize next m) s
  else Err Aborted.

Definition dlfree (a : Z) (m : mstate) (s : W) : result (mstate * W) :=
  if a =? 0 then Ok (m, s)
  else
    let p := mem2chunk a in
    if ok_address m p && is_inuse (mem m) p then
      let psize := chunksize (mem m) p in
      let next := p + psize in
      r ← free_backward p psize next m s;
      match r with
      | inl ms => Ok ms
      | inr (p, psize, m, s) => free_forward p psize next m s
      end
    else Err Aborted.
End sys.
End malloc.
