(* ===== verification/DlHeap.v ===== *)
(** * The kernel heap: its invariant

    The memory of the heap of mm/dlmalloc.cpp as segments that are tiled with chunks: what
    the heads and feet hold, which chunks are free and in the bins, which are in use, and
    where the designated victim and the top chunk are. *)

From S2P Require Import Prelude Define DlBase DlSmall DlTree DlBins DlSys.
Local Open Scope Z_scope.

(** ** Tiles *)

Inductive kind := Used | Free | Victim.
#[export] Instance kind_eq_dec : EqDecision kind.
Proof. solve_decision. Defined.

(** What a segment ends with: the top chunk, of [s] bytes, and room for what is needed when
    the segment is closed; or the chunk of the segment record, of [r] bytes, and [e] bytes
    with fence posts. *)
Inductive tail := TopTail (s : Z) | FenceTail (r e : Z).

Record segment := Seg { sbase : Z; tiles : list (Z * kind); stail : tail }.

Definition used (k : kind) : bool := match k with Used => true | _ => false end.

(** The head of a chunk; [pu] tells whether the chunk before it is in use. *)
Definition head_of (s : Z) (k : kind) (pu : bool) : Z :=
  s + (if pu then 1 else 0) + (if used k then 2 else 0).

Definition foot_cells (a s : Z) (k : kind) : list (Z * Z) := if used k then [] else [(a + s, s)].

Definition tail_cells (a : Z) (pu : bool) (t : tail) : list (Z * Z) :=
  match t with
  | TopTail s => [(head_ a, s + 1)]
  | FenceTail r _ => [(head_ a, head_of r Used pu); (head_ (a + r), FENCEPOST_HEAD)]
  end.

Fixpoint tile_cells (a : Z) (pu : bool) (l : list (Z * kind)) (t : tail) : list (Z * Z) :=
  match l with
  | [] => tail_cells a pu t
  | (s, k) :: l => (head_ a, head_of s k pu) :: foot_cells a s k ++ tile_cells (a + s) (used k) l t
  end.

(** Sizes are right, and no two neighbours are both free; the top chunk counts as free. *)
Fixpoint tiles_ok (pu : bool) (l : list (Z * kind)) (t : tail) : Prop :=
  match l with
  | [] => match t with TopTail s => pu = true ∧ 0 < s ∧ s mod 16 = 0 | FenceTail r e => 32 ≤ r < 2 ^ 40 ∧ r mod 16 = 0 ∧ 16 ≤ e end
  | (s, k) :: l => 32 ≤ s ∧ s mod 16 = 0 ∧ (used k = false → pu = true) ∧ tiles_ok (used k) l t
  end.

Definition total (l : list (Z * kind)) : Z := foldr (λ e n, e.1 + n) 0 l.

(** The chunks with their addresses. *)
Fixpoint chunks (a : Z) (l : list (Z * kind)) : list (Z * Z * kind) :=
  match l with [] => [] | (s, k) :: l => (a, s, k) :: chunks (a + s) l end.

Definition tail_size (t : tail) : Z := match t with TopTail s => s + TOP_FOOT_SIZE | FenceTail r e => r + e end.

(** The address behind a segment. *)
Definition send (g : segment) : Z := sbase g + total (tiles g) + tail_size (stail g).

Definition heap_chunks (h : list segment) : list (Z * Z * kind) := h ≫= λ g, chunks (sbase g) (tiles g).
Definition heap_cells (h : list segment) : list (Z * Z) := h ≫= λ g, tile_cells (sbase g) true (tiles g) (stail g).

Definition of_kind (k : kind) (h : list segment) : gset (Z * Z) :=
  list_to_set ((filter (λ c, c.2 = k) (heap_chunks h)).*1).

Definition tops (h : list segment) : list (Z * Z) :=
  h ≫= λ g, match stail g with TopTail s => [(sbase g + total (tiles g), s)] | FenceTail _ _ => [] end.

(** ** Lemmas on tiles *)

Lemma total_app l1 l2 : total (l1 ++ l2) = total l1 + total l2.
Proof. unfold total. induction l1 as [|e l1 IH]; simpl; lia. Qed.

Lemma chunks_app a l1 l2 : chunks a (l1 ++ l2) = chunks a l1 ++ chunks (a + total l1) l2.
Proof.
  revert a. induction l1 as [|[s k] l1 IH]; intros a; simpl; [rewrite Z.add_0_r; done|]. rewrite IH. do 3 f_equal. unfold total. simpl. lia.
Qed.

Lemma tile_cells_cons a pu s k l t :
  tile_cells a pu ((s, k) :: l) t = (head_ a, head_of s k pu) :: foot_cells a s k ++ tile_cells (a + s) (used k) l t.
Proof. done. Qed.

(** Whether the chunk before the end of [l] is in use. *)
Definition last_used (pu : bool) (l : list (Z * kind)) : bool := foldl (λ _ e, used e.2) pu l.

(** The cells of tiles without those behind them. *)
Fixpoint part_cells (a : Z) (pu : bool) (l : list (Z * kind)) : list (Z * Z) :=
  match l with [] => [] | (s, k) :: l => (head_ a, head_of s k pu) :: foot_cells a s k ++ part_cells (a + s) (used k) l end.

Lemma tile_cells_app a pu l1 l2 t :
  tile_cells a pu (l1 ++ l2) t = part_cells a pu l1 ++ tile_cells (a + total l1) (last_used pu l1) l2 t.
Proof.
  revert a pu. induction l1 as [|[s k] l1 IH]; intros a pu; [simpl; rewrite Z.add_0_r; done|]. cbn [app tile_cells part_cells]. rewrite IH, <- app_assoc. simpl.
  change (total ((s, k) :: l1)) with (s + total l1). rewrite Z.add_assoc. done.
Qed.

Lemma tiles_ok_app pu l1 l2 t : tiles_ok pu (l1 ++ l2) t → tiles_ok (last_used pu l1) l2 t.
Proof. revert pu. induction l1 as [|[s k] l1 IH]; intros pu; [done|]. simpl. intros (_ & _ & _ & H). apply IH, H. Qed.

(** Tiles can be replaced by others that leave the chunk behind them as it is. *)
Lemma tiles_ok_replace pu l1 l2 l2' t t' :
  tiles_ok pu (l1 ++ l2) t → (tiles_ok (last_used pu l1) l2 t → tiles_ok (last_used pu l1) l2' t') → tiles_ok pu (l1 ++ l2') t'.
Proof. revert pu. induction l1 as [|[s k] l1 IH]; intros pu; [auto|]. simpl. intros (H1 & H2 & H3 & H) Hn. split_and!; [done..|]. apply IH; done. Qed.

Lemma tiles_total pu l t : tiles_ok pu l t → 0 ≤ total l ∧ total l mod 16 = 0.
Proof.
  revert pu. induction l as [|[s k] l IH]; intros pu; [done|]. simpl. intros (H1 & H2 & _ & H). apply IH in H as [H H']. change (total ((s, k) :: l)) with (s + total l).
  split; [lia|]. rewrite Z.add_mod, H2, H' by lia. done.
Qed.

(** The chunks lie one behind the other. *)
Lemma chunk_in a l x s k : (x, s, k) ∈ chunks a l → ∃ l1 l2, l = l1 ++ (s, k) :: l2 ∧ x = a + total l1.
Proof.
  revert a. induction l as [|[s' k'] l IH]; intros a; [intros []%elem_of_nil|]. simpl. intros [[= -> -> ->]|Hin]%elem_of_cons.
  - exists [], l. split; [done|]. simpl. lia.
  - destruct (IH _ Hin) as (l1 & l2 & -> & ->). exists ((s', k') :: l1), l2. split; [done|]. change (total ((s', k') :: l1)) with (s' + total l1). lia.
Qed.

(** ** Layouts *)

Section heap.
Context (gm : Z).

Definition ranges (h : list segment) : list (Z * Z) := (λ g, (sbase g, send g)) <$> h.

(** The segments do not overlap each other nor the allocator's own state, and are aligned
    and not too large. *)
Record ranges_ok (least : Z) (r : list (Z * Z)) : Prop := {
  ro_each b e : (b, e) ∈ r → 0 < least ≤ b ∧ b mod 16 = 0 ∧ e < b + 2 ^ 40 ∧ e < 2 ^ 64 ∧ (e ≤ gm ∨ gm + 936 ≤ b);
  ro_apart r1 b e r2 b' e' : r = r1 ++ (b, e) :: r2 → (b', e') ∈ r1 ++ r2 → e ≤ b' ∨ e' ≤ b }.

Record layout (least : Z) (h : list segment) : Prop := {
  la_ranges : ranges_ok least (ranges h);
  la_tiles g : g ∈ h → tiles_ok true (tiles g) (stail g) }.

Lemma foot_size : TOP_FOOT_SIZE = 80.
Proof. reflexivity. Qed.

Lemma tiles_top pu l t : tiles_ok pu l t → 48 ≤ tail_size t.
Proof. revert pu. induction l as [|[s k] l IH]; intros pu; simpl; [destruct t; simpl; rewrite ?foot_size; lia|]. intros (_ & _ & _ & H). apply (IH _ H). Qed.

(** A chunk lies in its segment. *)
Lemma chunk_range pu a l t x s k : tiles_ok pu l t → (x, s, k) ∈ chunks a l → a ≤ x ∧ x + s ≤ a + total l ∧ 32 ≤ s ∧ s mod 16 = 0 ∧ (x - a) mod 16 = 0.
Proof.
  intros Hok Hin. destruct (chunk_in _ _ _ _ _ Hin) as (l1 & l2 & -> & ->). pose proof (tiles_ok_app _ _ _ _ Hok) as (H1 & H2 & _ & H3).
  assert (0 ≤ total l1 ∧ total l1 mod 16 = 0) as [Hl Hm].
  { clear -Hok. revert pu Hok. induction l1 as [|[s' k'] l1 IH]; intros pu; [done|]. simpl. intros (A1 & A2 & _ & A3). apply IH in A3 as [A3 A4]. change (total ((s', k') :: l1)) with (s' + total l1).
    split; [lia|]. rewrite Z.add_mod, A2, A4 by lia. done. }
  apply tiles_total in H3 as [H3 _]. rewrite total_app. change (total ((s, k) :: l2)) with (s + total l2). replace (a + total l1 - a) with (total l1) by lia. split_and!; lia.
Qed.

Lemma chunks_disjoint pu a l t x s k y u j :
  tiles_ok pu l t → (x, s, k) ∈ chunks a l → (y, u, j) ∈ chunks a l → (x, s, k) ≠ (y, u, j) → x + s ≤ y ∨ y + u ≤ x.
Proof.
  revert pu a. induction l as [|[s' k'] l IH]; intros pu a Hok Hx Hy Hne; [apply elem_of_nil in Hx; done|]. simpl in Hok, Hx, Hy. destruct Hok as (_ & _ & _ & Hok).
  apply elem_of_cons in Hx as [[= -> -> ->]|Hx]; apply elem_of_cons in Hy as [[= -> -> ->]|Hy]; [done| | |apply (IH _ _ Hok Hx Hy Hne)].
  - apply (chunk_range _ _ _ _ _ _ _ Hok) in Hy. lia.
  - apply (chunk_range _ _ _ _ _ _ _ Hok) in Hx. lia.
Qed.

Lemma heap_chunk_in h x s k : (x, s, k) ∈ heap_chunks h → ∃ h1 g h2, h = h1 ++ g :: h2 ∧ (x, s, k) ∈ chunks (sbase g) (tiles g).
Proof.
  unfold heap_chunks. rewrite list_elem_of_bind. intros (g & Hc & Hg). apply list_elem_of_split in Hg as (h1 & h2 & ->). eauto.
Qed.

Lemma ranges_app h1 h2 : ranges (h1 ++ h2) = ranges h1 ++ ranges h2.
Proof. apply fmap_app. Qed.

Lemma send_value g : tiles_ok true (tiles g) (stail g) → sbase g + total (tiles g) + 48 ≤ send g.
Proof. intros Hok. unfold send. pose proof (tiles_top _ _ _ Hok). lia. Qed.

(** Chunks of the heap do not overlap. *)
Lemma heap_disjoint least h x s k y u j :
  layout least h → (x, s, k) ∈ heap_chunks h → (y, u, j) ∈ heap_chunks h → (x, s, k) ≠ (y, u, j) → x + s ≤ y ∨ y + u ≤ x.
Proof.
  intros [Hr Ht] Hx Hy Hne. destruct (heap_chunk_in _ _ _ _ Hx) as (h1 & g & h2 & -> & Hxg). unfold heap_chunks in Hy. rewrite list_elem_of_bind in Hy. destruct Hy as (g' & Hyg & Hg').
  assert (g ∈ h1 ++ g :: h2) as Hg by (apply elem_of_app; right; left). pose proof (Ht g Hg) as Htg. pose proof (Ht g' Hg') as Htg'.
  assert (g' = g ∨ g' ∈ h1 ++ h2) as [->|Hin] by (rewrite elem_of_app, elem_of_cons in Hg'; rewrite elem_of_app; tauto).
  - apply (chunks_disjoint _ _ _ _ _ _ _ _ _ _ Htg Hxg Hyg Hne).
  - apply (chunk_range _ _ _ _ _ _ _ Htg) in Hxg. apply (chunk_range _ _ _ _ _ _ _ Htg') in Hyg. pose proof (send_value g Htg). pose proof (send_value g' Htg').
    destruct (ro_apart _ _ Hr (ranges h1) (sbase g) (send g) (ranges h2) (sbase g') (send g')); [rewrite ranges_app; done| |lia|lia].
    rewrite <- ranges_app. apply list_elem_of_fmap. exists g'. done.
Qed.

(** ** The words of a layout *)

Lemma tail_keys a pu t key : tiles_ok pu [] t → key ∈ (tail_cells a pu t).*1 → a + 8 ≤ key ∧ key + 8 ≤ a + tail_size t.
Proof.
  destruct t as [s|r e]; simpl; intros Hok; [intros [->|[]%elem_of_nil]%elem_of_cons; unfold head_; rewrite foot_size; lia|].
  intros [->|[->|[]%elem_of_nil]%elem_of_cons]%elem_of_cons; unfold head_; lia.
Qed.

Lemma tile_keys a pu l t key : tiles_ok pu l t → key ∈ (tile_cells a pu l t).*1 → a + 8 ≤ key ∧ key + 8 ≤ a + total l + tail_size t.
Proof.
  revert a pu. induction l as [|[s k] l IH]; intros a pu Hok; cbn [tile_cells].
  - change (total []) with 0. rewrite Z.add_0_r. apply tail_keys, Hok.
  - simpl in Hok. destruct Hok as (H1 & _ & _ & H). change (total ((s, k) :: l)) with (s + total l). pose proof (tiles_total _ _ _ H) as [? _]. pose proof (tiles_top _ _ _ H).
    rewrite fmap_cons, fmap_app, elem_of_cons, elem_of_app. intros [->|[Hf|Hk]]; [simpl; unfold head_; lia| |apply (IH _ _ H) in Hk; lia].
    unfold foot_cells in Hf. destruct (used k); simpl in Hf; [apply elem_of_nil in Hf; done|apply elem_of_cons in Hf as [->|[]%elem_of_nil]; lia].
Qed.

Lemma tile_keys_NoDup a pu l t : tiles_ok pu l t → NoDup (tile_cells a pu l t).*1.
Proof.
  revert a pu. induction l as [|[s k] l IH]; intros a pu Hok.
  { destruct t as [s|r e]; simpl; [apply NoDup_singleton|]. simpl in Hok. apply NoDup_cons. split; [|apply NoDup_singleton]. intros [E|[]%elem_of_nil]%elem_of_cons. unfold head_ in E. lia. }
  pose proof Hok as (H1 & _ & _ & H). cbn [tile_cells].
  rewrite fmap_cons, fmap_app. pose proof (λ key, tile_keys (a + s) _ _ _ key H) as Hk. simpl in Hk. apply NoDup_cons. split.
  - rewrite elem_of_app. unfold foot_cells. simpl. intros [Hf|Hin%Hk]; [|unfold head_ in *; lia]. destruct (used k); simpl in Hf; [apply elem_of_nil in Hf; done|].
    apply elem_of_cons in Hf as [E|[]%elem_of_nil]. unfold head_ in E. lia.
  - apply NoDup_app. split_and!; [unfold foot_cells; destruct (used k); [constructor|apply NoDup_singleton]| |apply IH, H].
    intros key Hf Hin%Hk. unfold foot_cells in Hf. destruct (used k); simpl in Hf; [apply elem_of_nil in Hf; done|]. apply elem_of_cons in Hf as [->|[]%elem_of_nil]. lia.
Qed.

Lemma heap_keys_NoDup least h : layout least h → NoDup (heap_cells h).*1.
Proof.
  intros Hl. induction h as [|g h IH]; [constructor|]. assert (layout least h) as Hl'.
  { destruct Hl as [[He Ha] Ht]. split; [split|].
    - intros b e Hin. apply He. by right.
    - intros r1 b e r2 b' e' E Hin. apply (Ha ((sbase g, send g) :: r1) b e r2); [simpl; rewrite <- E; done|by right].
    - intros g' Hg'. apply Ht. by right. }
  change (heap_cells (g :: h)) with (tile_cells (sbase g) true (tiles g) (stail g) ++ heap_cells h). rewrite fmap_app. apply NoDup_app.
  pose proof (la_tiles _ _ Hl g ltac:(left)) as Htg. split_and!; [apply (tile_keys_NoDup _ _ _ _ Htg)| |apply IH, Hl'].
  intros key Hk Hk'. apply (tile_keys _ _ _ _ _ Htg) in Hk. unfold heap_cells in Hk'. rewrite list_elem_of_fmap in Hk'. destruct Hk' as ([key' v] & -> & Hin). rewrite list_elem_of_bind in Hin.
  destruct Hin as (g' & Hin & Hg'). pose proof (la_tiles _ _ Hl' g' Hg') as Htg'.
  assert (key' ∈ (tile_cells (sbase g') true (tiles g') (stail g')).*1) as Hk' by (apply list_elem_of_fmap; exists (key', v); done). apply (tile_keys _ _ _ _ _ Htg') in Hk'.
  pose proof (send_value g Htg). pose proof (send_value g' Htg'). destruct (ro_apart _ _ (la_ranges _ _ Hl) [] (sbase g) (send g) (ranges h) (sbase g') (send g')); [done| |unfold send in *; simpl in *; lia|unfold send in *; simpl in *; lia].
  apply list_elem_of_fmap. exists g'. done.
Qed.

(** The words of the layout are not inside free chunks. *)
Lemma tile_key_outside a pu l t key x s k :
  tiles_ok pu l t → key ∈ (tile_cells a pu l t).*1 → (x, s, k) ∈ chunks a l → key < x + 16 ∨ x + s < key + 8 ∧ (used k = true → x + s < key).
Proof.
  revert a pu. induction l as [|[s' k'] l IH]; intros a pu Hok Hk Hx; [apply elem_of_nil in Hx; done|]. pose proof Hok as (H1 & _ & _ & H). cbn [tile_cells] in Hk. simpl in Hx.
  rewrite fmap_cons, fmap_app, elem_of_cons, elem_of_app in Hk. apply elem_of_cons in Hx as [[= -> -> ->]|Hx].
  - destruct Hk as [->|[Hf|Hk]]; [left; simpl; unfold head_; lia| |right; apply (tile_keys _ _ _ _ _ H) in Hk; split; lia].
    unfold foot_cells in Hf. destruct (used k'); simpl in Hf; [apply elem_of_nil in Hf; done|apply elem_of_cons in Hf as [->|[]%elem_of_nil]; right; split; [lia|done]].
  - pose proof (chunk_range _ _ _ _ _ _ _ H Hx) as Hr. destruct Hk as [->|[Hf|Hk]]; [left; simpl; unfold head_; lia| |apply (IH _ _ H Hk Hx)].
    unfold foot_cells in Hf. destruct (used k'); simpl in Hf; [apply elem_of_nil in Hf; done|apply elem_of_cons in Hf as [->|[]%elem_of_nil]; lia].
Qed.

Lemma heap_key_in h key : key ∈ (heap_cells h).*1 → ∃ g, g ∈ h ∧ key ∈ (tile_cells (sbase g) true (tiles g) (stail g)).*1.
Proof.
  unfold heap_cells. rewrite list_elem_of_fmap. intros ([key' v] & -> & Hin). rewrite list_elem_of_bind in Hin. destruct Hin as (g & Hin & Hg).
  exists g. split; [done|]. apply list_elem_of_fmap. exists (key', v). done.
Qed.

Lemma heap_key_gm least h key : layout least h → key ∈ (heap_cells h).*1 → key < gm ∨ gm + 936 ≤ key.
Proof.
  intros [Hr Ht] (g & Hg & Hk)%heap_key_in. pose proof (Ht g Hg) as Htg. apply (tile_keys _ _ _ _ _ Htg) in Hk. pose proof (send_value g Htg).
  destruct (ro_each _ _ Hr (sbase g) (send g)) as (_ & _ & _ & _ & Hc); [apply list_elem_of_fmap; exists g; done|]. unfold send in *. lia.
Qed.

Lemma heap_key_outside least h key x s k :
  layout least h → key ∈ (heap_cells h).*1 → (x, s, k) ∈ heap_chunks h → key < x + 16 ∨ x + s < key + 8 ∧ (used k = true → x + s < key).
Proof.
  intros [Hr Ht] (g' & Hg' & Hk)%heap_key_in Hx. destruct (heap_chunk_in _ _ _ _ Hx) as (h1 & g & h2 & -> & Hxg). pose proof (Ht g' Hg') as Htg'.
  assert (g ∈ h1 ++ g :: h2) as Hg by (apply elem_of_app; right; left). pose proof (Ht g Hg) as Htg.
  pose proof (tile_keys _ _ _ _ _ Htg' Hk) as Hk'. pose proof (chunk_range _ _ _ _ _ _ _ Htg Hxg) as Hx'. pose proof (send_value g Htg). pose proof (send_value g' Htg').
  assert (g' = g ∨ g' ∈ h1 ++ h2) as [->|Hin'] by (rewrite elem_of_app, elem_of_cons in Hg'; rewrite elem_of_app; tauto); [apply (tile_key_outside _ _ _ _ _ _ _ _ Htg Hk Hxg)|].
  destruct (ro_apart _ _ Hr (ranges h1) (sbase g) (send g) (ranges h2) (sbase g') (send g')); [rewrite ranges_app; done| |unfold send in *; lia|unfold send in *; lia].
  rewrite <- ranges_app. apply list_elem_of_fmap. exists g'. done.
Qed.

(** The head of a free chunk. *)
Lemma free_head w h x s k : sat w (heap_cells h) → (∀ g, g ∈ h → tiles_ok true (tiles g) (stail g)) → (x, s, k) ∈ heap_chunks h → used k = false → w (head_ x) = s + 1 ∧ w (x + s) = s.
Proof.
  intros Hs Ht Hx Hk. destruct (heap_chunk_in _ _ _ _ Hx) as (h1 & g & h2 & -> & Hxg). pose proof (Ht g ltac:(apply elem_of_app; right; left)) as Htg.
  unfold heap_cells in Hs. rewrite bind_app, bind_cons, !sat_app in Hs. destruct Hs as (_ & Hs & _). destruct (chunk_in _ _ _ _ _ Hxg) as (l1 & l2 & El & ->). rewrite El in *.
  rewrite tile_cells_app, sat_app in Hs. destruct Hs as [_ Hs]. cbn [tile_cells] in Hs. unfold foot_cells in Hs. rewrite Hk in Hs. rewrite sat_cons, sat_app, sat_cons in Hs. destruct Hs as (H1 & [H2 _] & _).
  cbn [fst snd] in *. apply tiles_ok_app in Htg as (_ & _ & Hp & _). rewrite (Hp Hk) in H1. unfold head_of in H1. rewrite Hk in H1. split; [lia|done].
Qed.

Lemma elem_of_kind h x s k : (x, s) ∈ of_kind k h ↔ (x, s, k) ∈ heap_chunks h.
Proof.
  unfold of_kind. rewrite elem_of_list_to_set, list_elem_of_fmap. split.
  - intros ([[x' s'] k'] & [= -> ->] & Hf). apply list_elem_of_filter in Hf as [<- Hf]. done.
  - intros H. exists (x, s, k). split; [done|]. apply list_elem_of_filter. done.
Qed.

(** Operations on the bins keep the layout. *)
Lemma layout_bins m m' h free :
  layout (least_addr m) h → free ⊆ of_kind Free h → bins_step gm m m' free → sat (mem m) (heap_cells h) → sat (mem m') (heap_cells h).
Proof.
  intros Hl Hf [Hw _] Hs. unfold sat in *. rewrite Forall_forall in *. intros [key v] Hin. rewrite Hw; [apply (Hs _ Hin)|]. simpl.
  assert (key ∈ (heap_cells h).*1) as Hk by (apply list_elem_of_fmap; exists (key, v); done). intros [Ha|(x & s & Hx & Ha)].
  - destruct (heap_key_gm _ _ _ Hl Hk); lia.
  - apply Hf, elem_of_kind in Hx. destruct (heap_key_outside _ _ _ _ _ _ Hl Hk Hx); lia.
Qed.

(** Writes to the words of the layout keep the bins. *)
Lemma layout_write m m' h h' us keep free :
  layout (least_addr m) h' → (∀ g, g ∈ h → tiles_ok true (tiles g) (stail g)) → sat (mem m) (heap_cells h) → heap_cells h' ≡ₚ us ++ keep → sat (mem m) keep →
  mem m' = writes (mem m) us → smallmap m' = smallmap m → treemap m' = treemap m → least_addr m' = least_addr m →
  sat (mem m') (heap_cells h') ∧ (0 < least_addr m → bins_ok gm m free → free ⊆ of_kind Free h → free ⊆ of_kind Free h' → bins_ok gm m' free).
Proof.
  intros Hl' Ht Hs E Hk Em Es Et El. assert (sat (mem m') (heap_cells h')) as Hs'.
  { rewrite Em. eapply sat_rewrite; [exact E|apply (heap_keys_NoDup _ _ Hl')|done]. }
  split; [done|]. intros H0 Hb Hf Hf'. apply (bins_frame gm m); [done|done|done|lia| |].
  - intros a Ha. rewrite Em. apply writes_other. intros Hin. assert (a ∈ (heap_cells h').*1) as Hk' by (rewrite E, fmap_app, elem_of_app; by left).
    destruct Ha as [Ha|(x & s & Hx & Ha)].
    + destruct (heap_key_gm _ _ _ Hl' Hk'); lia.
    + apply Hf', elem_of_kind in Hx. destruct (heap_key_outside _ _ _ _ _ _ Hl' Hk' Hx); lia.
  - intros x s Hx. pose proof (free_head _ _ _ _ _ Hs Ht (proj1 (elem_of_kind _ _ _ _) (Hf _ Hx)) eq_refl) as [-> _].
    pose proof (free_head _ _ _ _ _ Hs' (la_tiles _ _ Hl') (proj1 (elem_of_kind _ _ _ _) (Hf' _ Hx)) eq_refl) as [-> _]. done.
Qed.

(** ** Places in a layout *)

(** A place: the segments and tiles before and behind it. *)
Record place := Place { pre_segs : list segment; pbase : Z; pre : list (Z * kind); post_segs : list segment }.

Definition at_place (q : place) (l : list (Z * kind)) (t : tail) : list segment :=
  pre_segs q ++ Seg (pbase q) (pre q ++ l) t :: post_segs q.

Definition addr_of (q : place) : Z := pbase q + total (pre q).
Definition pin_of (q : place) : bool := last_used true (pre q).

Definition place_chunks (q : place) : list (Z * Z * kind) :=
  heap_chunks (pre_segs q) ++ chunks (pbase q) (pre q) ++ heap_chunks (post_segs q).
Definition place_cells (q : place) : list (Z * Z) :=
  heap_cells (pre_segs q) ++ part_cells (pbase q) true (pre q) ++ heap_cells (post_segs q).

Lemma at_place_chunks q l t : heap_chunks (at_place q l t) ≡ₚ chunks (addr_of q) l ++ place_chunks q.
Proof.
  unfold at_place, heap_chunks, place_chunks. rewrite bind_app, bind_cons. simpl. rewrite chunks_app. fold (addr_of q). solve_Permutation.
Qed.

Lemma at_place_cells q l t : heap_cells (at_place q l t) ≡ₚ tile_cells (addr_of q) (pin_of q) l t ++ place_cells q.
Proof.
  unfold at_place, heap_cells, place_cells. rewrite bind_app, bind_cons. simpl. rewrite tile_cells_app. fold (addr_of q) (pin_of q). solve_Permutation.
Qed.

Lemma at_place_tops q l t :
  tops (at_place q l t) = tops (pre_segs q) ++ match t with TopTail s => [(addr_of q + total l, s)] | FenceTail _ _ => [] end ++ tops (post_segs q).
Proof. unfold at_place, tops, addr_of. rewrite bind_app, bind_cons. simpl. rewrite total_app, Z.add_assoc. done. Qed.

(** The layout stays one when the tiles at a place are replaced. *)
Lemma at_place_layout least q l t l' t' :
  layout least (at_place q l t) → total l + tail_size t = total l' + tail_size t' →
  (tiles_ok (pin_of q) l t → tiles_ok (pin_of q) l' t') → layout least (at_place q l' t').
Proof.
  intros [Hr Ht] Et Hok. split.
  - assert (ranges (at_place q l' t') = ranges (at_place q l t)) as ->; [|done]. unfold at_place. rewrite !ranges_app. simpl. unfold ranges at 2 4. simpl. unfold send. simpl. rewrite !total_app. do 3 f_equal. lia.
  - intros g Hg. unfold at_place in *. rewrite elem_of_app, elem_of_cons in Hg. destruct Hg as [Hg|[->|Hg]].
    + apply Ht. apply elem_of_app. by left.
    + simpl. eapply tiles_ok_replace; [apply (Ht (Seg (pbase q) (pre q ++ l) t)); apply elem_of_app; right; left|done].
    + apply Ht. apply elem_of_app. right. by right.
Qed.

Lemma at_place_ok least q l t : layout least (at_place q l t) → tiles_ok (pin_of q) l t.
Proof.
  intros [_ Ht]. apply (tiles_ok_app true (pre q)). apply (Ht (Seg (pbase q) (pre q ++ l) t)). apply elem_of_app. right. left.
Qed.

(** Every chunk has a place, and every top chunk. *)
Lemma chunk_place h x s k : (x, s, k) ∈ heap_chunks h → ∃ q l t, h = at_place q ((s, k) :: l) t ∧ x = addr_of q.
Proof.
  intros (h1 & g & h2 & -> & Hin)%heap_chunk_in. destruct (chunk_in _ _ _ _ _ Hin) as (l1 & l2 & E & ->). exists (Place h1 (sbase g) l1 h2), l2, (stail g).
  split; [|done]. unfold at_place. simpl. rewrite <- E. destruct g; done.
Qed.

Lemma top_place h x s : (x, s) ∈ tops h → ∃ q, h = at_place q [] (TopTail s) ∧ x = addr_of q.
Proof.
  unfold tops. rewrite list_elem_of_bind. intros (g & Hin & Hg). apply list_elem_of_split in Hg as (h1 & h2 & ->). destruct (stail g) as [s'|] eqn:E; [|apply elem_of_nil in Hin; done].
  apply list_elem_of_singleton in Hin as [= -> ->]. exists (Place h1 (sbase g) (tiles g) h2). split; [|done]. unfold at_place. simpl. rewrite app_nil_r, <- E. destruct g; done.
Qed.

(** The mark of the chunk before it is one bit of a head. *)
Lemma pin_cells a l t :
  tiles_ok false l t → ∃ s rest, tile_cells a false l t = (head_ a, s + 2) :: rest ∧ tile_cells a true l t = (head_ a, s + 3) :: rest ∧ s mod 16 = 0 ∧ 32 ≤ s ∧ tiles_ok true l t.
Proof.
  destruct l as [|[s k] l].
  - destruct t as [s|r e]; [intros [? _]; done|]. simpl. intros (H1 & H2 & H3). exists r, [(head_ (a + r), FENCEPOST_HEAD)]. split_and!; try done; try lia; unfold head_of; simpl; do 2 f_equal; lia.
  - simpl. intros (H1 & H2 & H3 & H4). destruct k; [|specialize (H3 eq_refl); done|specialize (H3 eq_refl); done].
    exists s, (tile_cells (a + s) true l t). split_and!; try done; unfold head_of; simpl; do 2 f_equal; lia.
Qed.

(** ** Flags *)

Lemma flag_bits s f c : s mod 16 = 0 → 0 ≤ f < 16 → 0 ≤ c < 16 → Z.land (s + f) c = Z.land f c.
Proof.
  intros Hs Hf Hc. assert (c = Z.land 15 c) as Ec by (change 15 with (Z.ones 4); rewrite Z.land_comm, Z.land_ones by lia; symmetry; apply Z.mod_small; lia).
  rewrite Ec, !Z.land_assoc. f_equal. change 15 with (Z.ones 4). rewrite !Z.land_ones by lia. change (2 ^ 4) with 16. rewrite Z.add_mod, Hs by lia. rewrite Z.add_0_l, Z.mod_mod by lia. done.
Qed.

Lemma or_flags s f : s mod 16 = 0 → 0 ≤ f < 16 → Z.lor s f = s + f.
Proof.
  intros Hs Hf. assert (Z.land s f = 0) as E.
  { pose proof (flag_bits s 0 f Hs ltac:(lia) Hf) as H. rewrite Z.add_0_r, Z.land_0_l in H. done. }
  rewrite <- Z.lxor_lor by done. symmetry. apply Z.add_nocarry_lxor. done.
Qed.

Lemma head_size s f : 0 ≤ s < 2 ^ 63 → s mod 16 = 0 → 0 ≤ f < 8 → Z.land (s + f) (u64 (Z.lnot FLAG_BITS)) = s.
Proof.
  intros Hs Hm Hf. change (u64 (Z.lnot FLAG_BITS)) with (Z.ldiff (Z.ones 64) (Z.ones 3)).
  rewrite Z.ldiff_land, Z.land_assoc, Z.land_ones, (Z.mod_small (s + f)) by lia. rewrite <- Z.ldiff_land, Z.ldiff_ones_r, Z.shiftl_mul_pow2, Z.shiftr_div_pow2 by lia. change (2 ^ 3) with 8.
  assert (s / 8 * 8 = s) as E. { pose proof (Z.div_mod s 16 ltac:(lia)). replace s with (s / 16 * 2 * 8) at 1 by lia. rewrite Z.div_mul by lia. lia. }
  replace (s + f) with (s / 8 * 8 + f) by lia. rewrite Z.div_add_l by lia. rewrite (Z.div_small f 8) by lia. lia.
Qed.

Lemma clear_pin s : 0 ≤ s < 2 ^ 63 → s mod 16 = 0 → Z.land (s + 3) (u64 (Z.lnot PINUSE_BIT)) = s + 2.
Proof.
  intros Hs Hm. change (u64 (Z.lnot PINUSE_BIT)) with (Z.ldiff (Z.ones 64) (Z.ones 1)).
  rewrite Z.ldiff_land, Z.land_assoc, Z.land_ones, (Z.mod_small (s + 3)) by lia. rewrite <- Z.ldiff_land, Z.ldiff_ones_r, Z.shiftl_mul_pow2, Z.shiftr_div_pow2 by lia. change (2 ^ 1) with 2.
  pose proof (Z.div_mod s 16 ltac:(lia)). replace (s + 3) with ((s / 16 * 8 + 1) * 2 + 1) by lia. rewrite Z.div_add_l by lia. change (1 / 2) with 0. lia.
Qed.

(** ** The invariant *)

Record heap_ok (m : mstate) (h : list segment) : Prop := {
  ho_layout : layout (least_addr m) h;
  ho_cells : sat (mem m) (heap_cells h);
  ho_bins : bins_ok gm m (of_kind Free h);
  ho_dv : (dv m = 0 ∧ dvsize m = 0 ∧ of_kind Victim h = ∅) ∨ (0 < dvsize m ∧ of_kind Victim h = {[(dv m, dvsize m)]});
  ho_top : (top m = 0 ∧ topsize m = 0 ∧ tops h = []) ∨ (0 < top m ∧ tops h = [(top m, topsize m)]) }.

(** The same while some of the free chunks are in no bin. *)
Record heap_mid (m : mstate) (h : list segment) (free : gset (Z * Z)) : Prop := {
  hm_layout : layout (least_addr m) h;
  hm_cells : sat (mem m) (heap_cells h);
  hm_bins : bins_ok gm m free;
  hm_free : free ⊆ of_kind Free h }.

Lemma heap_ok_mid m h : heap_ok m h → heap_mid m h (of_kind Free h).
Proof. intros H. split; [apply H|apply H|apply H|done]. Qed.

Lemma chunk_facts least h x s k :
  layout least h → (x, s, k) ∈ heap_chunks h →
  0 < least ≤ x ∧ x mod 16 = 0 ∧ 32 ≤ s < 2 ^ 40 ∧ s mod 16 = 0 ∧ x + s + 48 < 2 ^ 64 ∧ (x + s + 48 ≤ gm ∨ gm + 936 ≤ x).
Proof.
  intros [Hr Ht] (h1 & g & h2 & -> & Hin)%heap_chunk_in. assert (g ∈ h1 ++ g :: h2) as Hg by (apply elem_of_app; right; left). pose proof (Ht g Hg) as Htg.
  pose proof (chunk_range _ _ _ _ _ _ _ Htg Hin) as (H1 & H2 & H3 & H4 & H5). pose proof (send_value g Htg).
  destruct (ro_each _ _ Hr (sbase g) (send g)) as (R1 & R2 & R3 & R4 & R5); [apply list_elem_of_fmap; exists g; done|]. pose proof (tiles_total _ _ _ Htg).
  assert (x mod 16 = 0). { replace x with (sbase g + (x - sbase g)) by lia. rewrite Z.add_mod, R2, H5 by lia. done. }
  split_and!; try lia.
Qed.

Lemma free_chunksize m h x s k : layout (least_addr m) h → sat (mem m) (heap_cells h) → (x, s, k) ∈ heap_chunks h → used k = false → chunksize (mem m) x = s.
Proof.
  intros Hl Hs Hx Hk. destruct (free_head _ _ _ _ _ Hs (la_tiles _ _ Hl) Hx Hk) as [E _]. pose proof (chunk_facts _ _ _ _ _ Hl Hx) as (_ & _ & H1 & H2 & _).
  unfold chunksize. rewrite E. apply head_size; lia.
Qed.

(** A chunk of the layout is put in a bin. *)
Lemma mid_insert m h free x s :
  heap_mid m h free → (x, s, Free) ∈ heap_chunks h → (x, s) ∉ free →
  ∃ m', insert_chunk gm x s m = Ok m' ∧ heap_mid m' h ({[(x, s)]} ∪ free) ∧ bins_step gm m m' ({[(x, s)]} ∪ free).
Proof.
  intros [Hl Hs Hb Hf] Hx Hn. pose proof (chunk_facts _ _ _ _ _ Hl Hx) as (H1 & H2 & H3 & H4 & H5 & H6).
  assert ({[(x, s)]} ∪ free ⊆ of_kind Free h) as Hf'.
  { intros e [->%elem_of_singleton|He]%elem_of_union; [apply elem_of_kind; done|auto]. }
  destruct (bins_insert gm m free x s Hb) as (m' & E & Hb' & Hst).
  - split; [apply (free_chunksize m h x s Free); done|split; [lia|]|lia|unfold clear_of_bins; lia|].
    + pose proof (Z.div_mod s 16 ltac:(lia)). replace s with (s / 16 * 2 * 8) by lia. apply Z.mod_mul. lia.
    + intros q t Hq. pose proof (Hf _ Hq) as Hq'. apply elem_of_kind in Hq'. apply (heap_disjoint _ _ _ _ _ _ _ _ Hl Hx Hq'). intros [= -> ->]. done.
  - exists m'. split; [done|]. split; [|done]. pose proof Hst as [_ Em]. assert (least_addr m' = least_addr m) as El by (rewrite Em; done).
    split; [rewrite El; done|eapply layout_bins; done|done|done].
Qed.

Lemma mid_step m m' h free free' : heap_mid m h free → bins_ok gm m' free' → free' ⊆ free → bins_step gm m m' free → heap_mid m' h free'.
Proof.
  intros [Hl Hs Hb Hf] Hb' Hsub Hst. pose proof Hst as [_ Em]. assert (least_addr m' = least_addr m) as El by (rewrite Em; done).
  split; [rewrite El; done|eapply layout_bins; done|done|set_solver].
Qed.

(** ** Replacing tiles *)

Definition kinds (k : kind) (a : Z) (l : list (Z * kind)) : gset (Z * Z) := list_to_set ((filter (λ c, c.2 = k) (chunks a l)).*1).

Lemma elem_kinds k a l x s : (x, s) ∈ kinds k a l ↔ (x, s, k) ∈ chunks a l.
Proof.
  unfold kinds. rewrite elem_of_list_to_set, list_elem_of_fmap. split.
  - intros ([[x' s'] k'] & [= -> ->] & Hf). apply list_elem_of_filter in Hf as [<- Hf]. done.
  - intros H. exists (x, s, k). split; [done|]. apply list_elem_of_filter. done.
Qed.

Lemma kinds_cons k a s j l : kinds k a ((s, j) :: l) = (if decide (j = k) then {[(a, s)]} else ∅) ∪ kinds k (a + s) l.
Proof.
  apply set_eq. intros [x u]. rewrite elem_of_union, !elem_kinds. simpl. rewrite elem_of_cons. destruct (decide (j = k)) as [->|Hne]; [set_solver|]. split; [intros [[= -> -> ->]|H]; [done|by right]|set_solver].
Qed.

Lemma kinds_nil k a : kinds k a [] = ∅.
Proof. done. Qed.

(** The addresses of chunks are different. *)
Lemma heads_sublist a pu l t : ((λ c, head_ c.1.1) <$> chunks a l) `sublist_of` (tile_cells a pu l t).*1.
Proof.
  revert a pu. induction l as [|[s k] l IH]; intros a pu; [apply sublist_nil_l|]. cbn [chunks tile_cells]. rewrite !fmap_cons, fmap_app. simpl. apply sublist_skip. apply sublist_inserts_l, IH.
Qed.

Lemma heads_NoDup least h : layout least h → NoDup ((λ c, head_ c.1.1) <$> heap_chunks h).
Proof.
  intros Hl. eapply sublist_NoDup; [apply (heap_keys_NoDup _ _ Hl)|]. clear Hl. unfold heap_chunks, heap_cells. induction h as [|g h IH]; [done|]. rewrite !bind_cons, !fmap_app.
  apply sublist_app; [apply heads_sublist|exact IH].
Qed.

Lemma place_fresh least q l t x s k y u j :
  layout least (at_place q l t) → (x, s, k) ∈ chunks (addr_of q) l → (y, u, j) ∈ place_chunks q → x ≠ y.
Proof.
  intros Hl Hx Hy ->. apply heads_NoDup in Hl. rewrite at_place_chunks, fmap_app in Hl. apply NoDup_app in Hl as (_ & Hd & _).
  apply (Hd (head_ y)); apply list_elem_of_fmap; [exists (y, s, k)|exists (y, u, j)]; done.
Qed.

Lemma kind_replace least k q l l1 l' t t' :
  layout least (at_place q (l ++ l1) t) → total l = total l' →
  of_kind k (at_place q (l' ++ l1) t') = kinds k (addr_of q) l' ∪ (of_kind k (at_place q (l ++ l1) t) ∖ kinds k (addr_of q) l).
Proof.
  intros Hl Et. apply set_eq. intros [x s]. rewrite elem_of_union, elem_of_difference, !elem_kinds, !elem_of_kind, !at_place_chunks, !elem_of_app, !chunks_app, !elem_of_app, Et.
  assert ((x, s, k) ∈ chunks (addr_of q + total l') l1 ∨ (x, s, k) ∈ place_chunks q → (x, s, k) ∉ chunks (addr_of q) l) as Hn.
  { intros [H|H] H'; [|apply (place_fresh least q (l ++ l1) t x s k x s k Hl); [rewrite chunks_app; apply elem_of_app; by left|done|done]].
    apply heads_NoDup in Hl. rewrite at_place_chunks, chunks_app, <- app_assoc, fmap_app in Hl. apply NoDup_app in Hl as (_ & Hd & _). apply (Hd (head_ x)); apply list_elem_of_fmap; exists (x, s, k); (split; [done|]); [done|].
    rewrite Et. apply elem_of_app. by left. }
  tauto.
Qed.

(** The top chunk gives up or takes over the tiles before it. *)
Lemma kind_top least k q l l' t t' :
  layout least (at_place q l t) → of_kind k (at_place q l' t') = kinds k (addr_of q) l' ∪ (of_kind k (at_place q l t) ∖ kinds k (addr_of q) l).
Proof.
  intros Hl. apply set_eq. intros [x s]. rewrite elem_of_union, elem_of_difference, !elem_kinds, !elem_of_kind, !at_place_chunks, !elem_of_app.
  assert ((x, s, k) ∈ place_chunks q → (x, s, k) ∉ chunks (addr_of q) l) as Hn by (intros H H'; apply (place_fresh least q l t x s k x s k Hl); done). tauto.
Qed.

(** Writing the words of new tiles. *)
Lemma write_place m m' q l t l' t' us keep free :
  heap_mid m (at_place q l t) free → total l + tail_size t = total l' + tail_size t' → (tiles_ok (pin_of q) l t → tiles_ok (pin_of q) l' t') →
  tile_cells (addr_of q) (pin_of q) l' t' ≡ₚ us ++ keep → (sat (mem m) (tile_cells (addr_of q) (pin_of q) l t) → sat (mem m) keep) →
  m' = with_mem m' (writes (mem m) us) → smallmap m' = smallmap m → treemap m' = treemap m → least_addr m' = least_addr m →
  free ⊆ of_kind Free (at_place q l' t') → heap_mid m' (at_place q l' t') free.
Proof.
  intros [Hl Hs Hb Hf] Et Hok E Hk Em Es Etm El Hf'. pose proof (at_place_layout _ _ _ _ _ _ Hl Et Hok) as Hl'.
  assert (0 < least_addr m) as H0 by (destruct (ro_each _ _ (la_ranges _ _ Hl) (pbase q) (send (Seg (pbase q) (pre q ++ l) t))) as ((? & _) & _); [|done]; apply list_elem_of_fmap; exists (Seg (pbase q) (pre q ++ l) t); split; [done|]; apply elem_of_app; right; left).
  pose proof Hs as Hs'. rewrite at_place_cells, sat_app in Hs'. destruct Hs' as [Hs1 Hs2].
  destruct (layout_write m m' (at_place q l t) (at_place q l' t') us (keep ++ place_cells q) free) as [Hc Hb']; try done.
  - apply Hl.
  - rewrite at_place_cells, E. solve_Permutation.
  - apply sat_app. auto.
  - rewrite Em. done.
  - split; [rewrite El; done|done|apply Hb'; done|done].
Qed.
End heap.
