(* ===== verification/DlFit.v ===== *)
(** * The kernel heap: best fit

    The searches of mm/dlmalloc.cpp through the tries, [tmalloc_large] and
    [tmalloc_small], find the smallest chunk that fits. *)

From S2P Require Import Prelude Define DlBase DlSmall DlTree DlBins DlSys DlMalloc.
Local Open Scope Z_scope.

Section fit.
Context (w : words) (nb : Z).
Context (Hnb : 0 < nb < 2 ^ 63).

(** Addresses are not null and sizes are in range. *)
Definition sized (t : tree) : Prop := ∀ x, x ∈ nodes t → x ≠ 0 ∧ 0 ≤ chunksize w x < 2 ^ 63.

Lemma sized_node x rest l r : sized (Node x rest l r) → x ≠ 0 ∧ 0 ≤ chunksize w x < 2 ^ 63 ∧ sized l ∧ sized r.
Proof.
  intros H. destruct (H x) as [H1 H2]; [left|]. split_and!; try done; try lia; intros y Hy; apply H; simpl; rewrite elem_of_cons, !elem_of_app; auto.
Qed.

Lemma root_zero t : sized t → (root t =? 0) = is_leaf t.
Proof. destruct t as [|x rest l r]; [done|]. intros H. apply Z.eqb_neq. destruct (H x); [left|done]. Qed.

Lemma node_children i p x rest l r :
  sat w (tcells i p (Node x rest l r)) → w (child x 0) = root l ∧ w (child x 1) = root r ∧ sat w (tcells i x l) ∧ sat w (tcells i x r).
Proof. cbn [tcells]. rewrite !sat_cons, !sat_app. tauto. Qed.

Lemma excess_fits s : nb ≤ s < 2 ^ 63 → u64 (s - nb) = s - nb.
Proof. intros Hs. apply wrap_small. unfold fits. lia. Qed.

Lemma excess_small s : 0 ≤ s < nb → u64 (s - nb) = 2 ^ 64 + s - nb.
Proof. intros Hs. unfold wrap. symmetry. apply (Z.mod_unique _ _ (-1)); lia. Qed.

(** ** Down the left side *)

(** With an exact fit at hand nothing changes. *)
Lemma least_exact t : ∀ i p v fuel, sized t → sat w (tcells i p t) → (height t < fuel)%nat → least_loop fuel w nb (root t) v 0 = Ok (v, 0).
Proof.
  induction t as [|x rest l IHl r IHr]; intros i p v fuel Hs Hc Hf; (destruct fuel as [|fuel]; [simpl in Hf; lia|]); cbn [least_loop root]; [done|].
  destruct (sized_node _ _ _ _ Hs) as (Hx & _ & Hl & Hr). destruct (node_children _ _ _ _ _ _ Hc) as (E0 & E1 & Hcl & Hcr).
  rewrite (proj2 (Z.eqb_neq x 0)) by done. rewrite (proj2 (Z.ltb_ge _ 0)) by (apply Z.mod_pos_bound; done). unfold leftmost_child. rewrite E0, E1, root_zero by done.
  cbn [height] in Hf. destruct l; simpl; [apply (IHr i x)|apply (IHl i x)]; done || (simpl in *; lia).
Qed.

(** The least size of a trie, compared with the best so far. *)
Definition best_of (l : list Z) (v rsize v' rsize' : Z) : Prop :=
  ((v', rsize') = (v, rsize) ∨ v' ∈ l ∧ rsize' = chunksize w v' - nb ∧ rsize' < rsize) ∧ ∀ x, x ∈ l → rsize' ≤ chunksize w x - nb.

Lemma least_spec t : ∀ i p lo n v rsize fuel,
  sized t → sat w (tcells i p t) → trie (chunksize w) lo n t → (∀ x, x ∈ nodes t → nb ≤ chunksize w x) → (height t < fuel)%nat →
  ∃ v' rsize', least_loop fuel w nb (root t) v rsize = Ok (v', rsize') ∧ best_of (nodes t) v rsize v' rsize'.
Proof.
  induction t as [|x rest l IHl r IHr]; intros i p lo n v rsize fuel Hs Hc Ht Hge Hf; (destruct fuel as [|fuel]; [simpl in Hf; lia|]); cbn [least_loop root].
  { exists v, rsize. split; [done|]. split; [by left|]. intros x []%elem_of_nil. }
  destruct (sized_node _ _ _ _ Hs) as (Hx & Hxs & Hl & Hr). destruct (node_children _ _ _ _ _ _ Hc) as (E0 & E1 & Hcl & Hcr).
  rewrite (proj2 (Z.eqb_neq x 0)) by done. assert (nb ≤ chunksize w x) as Hgx by (apply Hge; left). rewrite excess_fits by lia. unfold leftmost_child. rewrite E0, E1, root_zero by done. cbn [height] in Hf.
  set (v1 := if chunksize w x - nb <? rsize then x else v). set (r1 := if chunksize w x - nb <? rsize then chunksize w x - nb else rsize).
  assert (r1 ≤ rsize ∧ r1 ≤ chunksize w x - nb ∧ ((v1, r1) = (v, rsize) ∨ v1 = x ∧ r1 = chunksize w x - nb ∧ r1 < rsize)) as (Hr1 & Hr1x & Hc1).
  { unfold v1, r1. destruct (Z.ltb_spec (chunksize w x - nb) rsize); split_and!; try lia; auto. }
  simpl in Ht. destruct Ht as (Hrg & Hrest & Ht). assert (∀ y, y ∈ rest → chunksize w y = chunksize w x) as Hre by (intros y Hy; rewrite Forall_forall in Hrest; auto).
  set (u := if is_leaf l then r else l). assert (root u = if negb (is_leaf l) then root l else root r) as Eu by (unfold u; destruct l; done). rewrite <- Eu.
  assert (∃ lo' n', trie (chunksize w) lo' n' u ∧ ∀ y, y ∈ nodes l ++ nodes r → y ∈ nodes u ∨ ∃ z, z ∈ nodes u ∧ chunksize w z ≤ chunksize w y) as (lo' & n' & Htu & Hcov).
  { destruct n as [|n]; [destruct Ht as [-> ->]; exists 0, 0%nat; split; [done|]; intros y []%elem_of_nil|]. destruct Ht as [Htl Htr]. unfold u. destruct l as [|z zs ll lr] eqn:El; cbn [is_leaf].
    - exists (lo + 2 ^ Z.of_nat n), n. split; [done|]. intros y Hy. by left.
    - rewrite <- El in *. exists lo, n. split; [done|]. intros y [Hy|Hy]%elem_of_app; [by left|right]. exists z. assert (z ∈ nodes l) as Hz by (rewrite El; left). split; [done|].
      pose proof (trie_elem _ _ _ _ _ Htl Hz). pose proof (trie_elem _ _ _ _ _ Htr Hy). lia. }
  assert (∀ y, y ∈ nodes u → y ∈ nodes l ++ nodes r) as Hsub by (intros y Hy; unfold u in Hy; apply elem_of_app; destruct (is_leaf l); auto).
  assert (∃ v' r', least_loop fuel w nb (root u) v1 r1 = Ok (v', r') ∧ best_of (nodes u) v1 r1 v' r') as (v' & r' & E & Hb & Hmin).
  { assert (∀ y, y ∈ nodes u → nb ≤ chunksize w y) as Hgu by (intros y Hy; apply Hge; right; apply elem_of_app; right; auto).
    unfold u in *. destruct (is_leaf l); [apply (IHr i x lo' n')|apply (IHl i x lo' n')]; done || lia. }
  exists v', r'. split; [done|]. assert (r' ≤ r1) as Hr' by (destruct Hb as [[= -> ->]|(_ & _ & ?)]; lia). split.
  - destruct Hb as [[= -> ->]|(Hv & -> & Hlt)]; [destruct Hc1 as [?|(-> & ? & ?)]; [by left|right; split; [left|done]]|]. right. split_and!; [|done|lia]. simpl. right. apply elem_of_app. right. auto.
  - intros y [->|[Hy|Hy]%elem_of_app]%elem_of_cons; [lia|rewrite Hre by done; lia|]. apply Hcov in Hy as [Hy|(z & Hz & Hle)]; [auto|]. specialize (Hmin z Hz). lia.
Qed.

(** ** Through the trie of the size *)

(** A trie in memory. *)
Definition stored (t : tree) : Prop := ∃ i p lo n, sized t ∧ sat w (tcells i p t) ∧ trie (chunksize w) lo n t ∧ (n ≤ 64)%nat.

(** The result of the first search: an exact fit, or a subtree [u] of which all chunks
    fit, such that the best chunk is the one found or in [u]. *)
Definition found (t tr : tree) (v rsize : Z) (u : tree) (v' rsize' : Z) : Prop :=
  (rsize' = 0 ∧ v' ∈ nodes t ∧ chunksize w v' = nb) ∨
  ((∀ x, x ∈ nodes u → nb ≤ chunksize w x ∧ (x ∈ nodes t ∨ x ∈ nodes tr)) ∧
   ((v', rsize') = (v, rsize) ∨ v' ∈ nodes t ∧ rsize' = chunksize w v' - nb ∧ 0 ≤ rsize' < rsize) ∧
   ∀ x, x ∈ nodes t ∨ x ∈ nodes tr → nb ≤ chunksize w x → rsize' ≤ chunksize w x - nb ∨ ∃ y, y ∈ nodes u ∧ chunksize w y ≤ chunksize w x).

Lemma fit_spec t : ∀ i p lo n v rsize tr fuel,
  t ≠ Leaf → sized t → sat w (tcells i p t) → trie (chunksize w) lo n t → (2 ^ Z.of_nat n | lo) → lo ≤ nb < lo + 2 ^ Z.of_nat n → (n ≤ 64)%nat → (n < fuel)%nat →
  stored tr → (∀ x, x ∈ nodes tr → lo + 2 ^ Z.of_nat n ≤ chunksize w x) → 0 ≤ rsize ≤ 2 ^ 64 - nb →
  ∃ u v' rsize', fit_loop fuel w nb (root t) v rsize (key_bits nb n) (root tr) = Ok (root u, v', rsize') ∧ stored u ∧ found t tr v rsize u v' rsize'.
Proof.
  induction t as [|x rest l IHl r IHr]; intros i p lo n v rsize tr fuel Hne Hs Hc Ht Hd Hr Hn Hf Htr Hbig Hrs; [done|]. clear Hne.
  destruct fuel as [|fuel]; [lia|]. cbn [fit_loop root]. destruct (sized_node _ _ _ _ Hs) as (Hx & Hxs & Hl & Hr'). destruct (node_children _ _ _ _ _ _ Hc) as (E0 & E1 & Hcl & Hcr).
  set (b := u64 (chunksize w x - nb) <? rsize). set (v1 := if b then x else v). set (r1 := if b then u64 (chunksize w x - nb) else rsize).
  pose proof Ht as (Hrg & Hrest & Hch). rewrite Forall_forall in Hrest.
  assert (b = true → nb ≤ chunksize w x ∧ u64 (chunksize w x - nb) = chunksize w x - nb ∧ chunksize w x - nb < rsize) as Hb.
  { unfold b. intros Hlt%Z.ltb_lt. destruct (Z.lt_ge_cases (chunksize w x) nb) as [Hlo|Hge]; [rewrite excess_small in Hlt by lia; lia|]. rewrite excess_fits in * by lia. lia. }
  assert (nb ≤ chunksize w x → r1 ≤ chunksize w x - nb) as Hr1x.
  { intros Hge. unfold r1. destruct b eqn:Eb; [destruct (Hb eq_refl) as (_ & -> & _); lia|]. unfold b in Eb. apply Z.ltb_ge in Eb. rewrite excess_fits in Eb by lia. lia. }
  assert (0 ≤ r1 ≤ rsize ∧ ((v1, r1) = (v, rsize) ∨ v1 = x ∧ r1 = chunksize w x - nb ∧ 0 ≤ r1 < rsize)) as [Hr1 Hc1].
  { unfold r1, v1. destruct b; [destruct (Hb eq_refl) as (? & -> & ?); split; [lia|right; split_and!; done || lia]|split; [lia|by left]]. }
  destruct (b && (u64 (chunksize w x - nb) =? 0)) eqn:Eex.
  { apply andb_true_iff in Eex as [Eb Ez%Z.eqb_eq]. exists (Node x rest l r), x, 0. unfold v1, r1. rewrite Eb, Ez. split; [done|]. split; [exists i, p, lo, n; done|].
    left. destruct (Hb Eb) as (? & E & _). split_and!; [done|left|lia]. }
  assert (∀ sub tr' u v' r',
            (∀ y, y ∈ nodes sub → y ∈ nodes l ++ nodes r) → (∀ y, y ∈ nodes tr' → y ∈ nodes l ++ nodes r ∨ y ∈ nodes tr) →
            (∀ y, y ∈ nodes l ++ nodes r ∨ y ∈ nodes tr → nb ≤ chunksize w y → ∃ z, (z ∈ nodes sub ∨ z ∈ nodes tr') ∧ nb ≤ chunksize w z ≤ chunksize w y) →
            found sub tr' v1 r1 u v' r' → found (Node x rest l r) tr v rsize u v' r') as Hlift.
  { intros sub tr' u v' r' H1 H2 H3 [(-> & Hv & Ev)|(Hu & Hv & Hcov)]; [left; split_and!; [done|right; apply elem_of_app; auto|done]|right].
    assert (r' ≤ r1) as Hle by (destruct Hv as [[= -> ->]|(_ & _ & ?)]; lia). split_and!.
    - intros y Hy. destruct (Hu y Hy) as [? [Hy'|Hy']]; (split; [done|]); [left; right; apply elem_of_app; auto|]. apply H2 in Hy' as [?|?]; [left; right; apply elem_of_app; auto|by right].
    - destruct Hv as [[= -> ->]|(Hv & -> & Hlt)]; [destruct Hc1 as [?|(-> & ? & ?)]; [by left|right; split; [left|done]]|]. right. split_and!; [right; apply elem_of_app; auto|done|lia|lia].
    - intros y Hy Hge. assert (y = x ∨ y ∈ rest ∨ y ∈ nodes l ++ nodes r ∨ y ∈ nodes tr) as [->|[Hy'|Hy']].
      { destruct Hy as [Hy|Hy]; [|auto]. cbn [nodes] in Hy. rewrite elem_of_cons, elem_of_app in Hy. tauto. }
      + left. specialize (Hr1x Hge). lia.
      + left. rewrite Hrest in * by done. specialize (Hr1x Hge). lia.
      + destruct (H3 y Hy' Hge) as (z & Hz & Hzr). destruct (Hcov z Hz ltac:(lia)) as [?|(y' & Hy1 & Hy2)]; [left; lia|right; exists y'; split; [done|lia]]. }
  assert (∀ tr', stored tr' → (∀ y, y ∈ nodes tr' → nb ≤ chunksize w y) → found Leaf tr' v1 r1 tr' v1 r1) as Hend.
  { intros tr' _ Hfit. right. split_and!; [intros y Hy; auto|by left|]. intros y [[]%elem_of_nil|Hy] _. right. exists y. split; [done|lia]. }
  assert (∀ y, y ∈ nodes tr → nb ≤ chunksize w y) as Hbig' by (intros y Hy; specialize (Hbig y Hy); lia).
  destruct n as [|n].
  { destruct Hch as [-> ->]. rewrite E1. simpl root. assert (w (child x (Z.land (Z.shiftr (key_bits nb 0) 63) 1)) = 0) as ->.
    { assert (∀ d, d = 0 ∨ d = 1 → w (child x d) = 0) as Hd01 by (intros d [-> | ->]; done). apply Hd01. change (Z.land ?y 1) with (Z.land y (Z.ones 1)). rewrite Z.land_ones by lia. change (2 ^ 1) with 2.
      pose proof (Z.mod_pos_bound (Z.shiftr (key_bits nb 0) 63) 2 eq_refl) as Hm. revert Hm. generalize (Z.shiftr (key_bits nb 0) 63 mod 2). lia. }
    simpl. exists tr, v1, r1. split; [done|]. split; [done|]. apply (Hlift Leaf tr); [intros y []%elem_of_nil|auto| |apply Hend; done].
    intros y [[]%elem_of_nil|Hy] Hge. exists y. split; [by right|lia]. }
  rewrite key_bits_top, key_bits_next by lia. pose proof (range_bit lo (Z.of_nat n) nb ltac:(lia)) as Hbit. replace (Z.of_nat n + 1) with (Z.of_nat (S n)) in Hbit by lia. specialize (Hbit Hd Hr).
  destruct (half_range lo n Hd) as [Hd1 Hd2]. destruct Hch as [Htl Htr']. replace (2 ^ Z.of_nat (S n)) with (2 * 2 ^ Z.of_nat n) in * by (rewrite Nat2Z.inj_succ, Z.pow_succ_r; lia).
  pose proof (λ y, trie_elem _ _ _ _ y Htl) as Rl. pose proof (λ y, trie_elem _ _ _ _ y Htr') as Rr. rewrite E1. destruct (Z.testbit nb (Z.of_nat n)); simpl Z.b2z.
  - rewrite E1, Z.eqb_refl, andb_false_r, root_zero by done. destruct r as [|z zs rl rr] eqn:Er; [|rewrite <- Er in *].
    + simpl. exists tr, v1, r1. split; [done|]. split; [done|]. apply (Hlift Leaf tr); [intros y []%elem_of_nil|auto| |apply Hend; done].
      intros y Hy Hge. exists y. split; [|lia]. destruct Hy as [Hy|Hy]; [|by right]. rewrite app_nil_r in Hy. specialize (Rl y Hy). lia.
    + destruct (IHr i x (lo + 2 ^ Z.of_nat n) n v1 r1 tr fuel) as (u & v' & r' & E & Hu & Hfd); try done; try lia; [rewrite Er; done|intros y Hy; specialize (Hbig y Hy); lia|].
      assert (is_leaf r = false) as -> by (rewrite Er; done). exists u, v', r'. split; [exact E|]. split; [done|]. apply (Hlift r tr); [intros y Hy; apply elem_of_app; auto|auto| |done].
      intros y Hy Hge. exists y. split; [|lia]. destruct Hy as [[Hy|Hy]%elem_of_app|Hy]; [specialize (Rl y Hy); lia|auto|auto].
  - rewrite E0. set (tr' := if is_leaf r then tr else r).
    assert ((if negb (root r =? 0) && negb (root r =? root l) then root r else root tr) = root tr') as ->.
    { rewrite root_zero by done. unfold tr'. destruct r as [|z zs rl rr] eqn:Er; [done|]. rewrite <- Er in *. assert (is_leaf r = false) as -> by (rewrite Er; done). simpl.
      rewrite (proj2 (Z.eqb_neq (root r) (root l))); [done|]. intros E. assert (root r ∈ nodes r) as Hz by (rewrite Er; left). pose proof (Hr' _ Hz) as [Hz0 _].
      destruct l as [|y ys ll lr]; [done|]. simpl in E. rewrite E in Hz. specialize (Rr _ Hz). specialize (Rl y ltac:(left)). lia. }
    assert (stored tr') as Hst' by (unfold tr'; destruct (is_leaf r); [done|]; exists i, x, (lo + 2 ^ Z.of_nat n), n; split_and!; done || lia).
    assert (∀ y, y ∈ nodes tr' → lo + 2 ^ Z.of_nat n ≤ chunksize w y) as Hbig2.
    { intros y Hy. unfold tr' in Hy. destruct (is_leaf r); [specialize (Hbig y Hy)|specialize (Rr y Hy)]; lia. }
    assert (∀ y, y ∈ nodes tr' → y ∈ nodes l ++ nodes r ∨ y ∈ nodes tr) as Hsub by (intros y Hy; unfold tr' in Hy; destruct (is_leaf r); [by right|left; apply elem_of_app; by right]).
    assert (∀ y, y ∈ nodes l ++ nodes r ∨ y ∈ nodes tr → nb ≤ chunksize w y → ∃ z, (z ∈ nodes l ∨ z ∈ nodes tr') ∧ nb ≤ chunksize w z ≤ chunksize w y) as Hcov.
    { intros y Hy Hge. unfold tr'. destruct r as [|z zs rl rr] eqn:Er; [cbn [is_leaf]; exists y; split; [|lia]; destruct Hy as [Hy|Hy]; [rewrite app_nil_r in Hy|]; auto|]. rewrite <- Er in *.
      assert (is_leaf r = false) as -> by (rewrite Er; done). destruct Hy as [[Hy|Hy]%elem_of_app|Hy]; [exists y; auto with lia..|].
      exists z. assert (z ∈ nodes r) as Hz by (rewrite Er; left). specialize (Rr z Hz). specialize (Hbig y Hy). split; [auto|lia]. }
    rewrite root_zero by done. destruct l as [|z zs ll lr] eqn:El; [|rewrite <- El in *; assert (is_leaf l = false) as -> by (rewrite El; done)].
    + simpl. exists tr', v1, r1. split; [done|]. split; [done|]. apply (Hlift Leaf tr'); [intros y []%elem_of_nil|done|done|]. apply Hend; [done|]. intros y Hy. specialize (Hbig2 y Hy). lia.
    + destruct (IHl i x lo n v1 r1 tr' fuel) as (u & v' & r' & E & Hu & Hfd); try done; try lia; [rewrite El; done|].
      exists u, v', r'. split; [exact E|]. split; [done|]. apply (Hlift l tr'); [intros y Hy; apply elem_of_app; auto|done|done|done].
Qed.
End fit.


(** ** All tries *)

Section search.
Context (gm : Z) (m : mstate) (trees : Z → tree) (Ht : tree_ok gm m trees) (nb : Z) (Hnb : 0 < nb < 2 ^ 40).
Notation sz := (chunksize (mem m)).

Lemma bin_root i : 0 ≤ i < 32 → mem m (treebin_at gm i) = root (trees i) ∧ sat (mem m) (tcells i (treebin_at gm i) (trees i)).
Proof. intros Hi. pose proof (to_cells _ _ _ Ht i Hi) as H. unfold bin_cells in H. rewrite sat_cons in H. exact H. Qed.

Lemma bin_sized i : 0 ≤ i < 32 → sized (mem m) (trees i).
Proof. intros Hi x Hx. destruct (to_chunk _ _ _ Ht i x Hi Hx) as (Hl & _ & Ha & _). unfold large in Hl. change MIN_LARGE_SIZE with 256 in Hl. lia. Qed.

Lemma bin_stored i : 0 ≤ i < 32 → stored (mem m) (trees i).
Proof.
  intros Hi. exists i, (treebin_at gm i), (bin_low i), (levels i).
  split_and!; [apply bin_sized, Hi|apply bin_root, Hi|apply (to_trie _ _ _ Ht i Hi)|apply bin_levels, Hi].
Qed.

Lemma minsize_mono i j : 0 ≤ i ≤ j → j < 64 → minsize_for_tree_index i ≤ minsize_for_tree_index j.
Proof.
  intros Hi Hj. assert (Forall (λ j, Forall (λ i, j < i ∨ minsize_for_tree_index i ≤ minsize_for_tree_index j) (seqZ 0 64)) (seqZ 0 64)) as H by (apply (bool_decide_unpack _); vm_compute; exact I).
  rewrite Forall_forall in H. specialize (H j ltac:(apply elem_of_seqZ; lia)). simpl in H. rewrite Forall_forall in H. destruct (H i ltac:(apply elem_of_seqZ; lia)); [lia|done].
Qed.

(** Larger sizes have higher indices. *)
Lemma index_mono s u : large s → large u → compute_tree_index s < compute_tree_index u → s < u.
Proof.
  intros Hs Hu Hlt. destruct (tree_index_spec s Hs) as (H1 & _ & H2). destruct (tree_index_spec u Hu) as (H3 & H4 & _). change NTREEBINS with 32 in *.
  specialize (H2 ltac:(lia)). pose proof (minsize_mono (compute_tree_index s + 1) (compute_tree_index u) ltac:(lia) ltac:(lia)). lia.
Qed.

Lemma bins_mono i j x y : 0 ≤ i < j → j < 32 → x ∈ nodes (trees i) → y ∈ nodes (trees j) → sz x < sz y.
Proof.
  intros Hi Hj Hx Hy. destruct (to_chunk _ _ _ Ht i x ltac:(lia) Hx) as (H1 & E1 & _). destruct (to_chunk _ _ _ Ht j y ltac:(lia) Hy) as (H2 & E2 & _). apply index_mono; [done|done|lia].
Qed.

(** The best chunk for [nb] bytes: no chunk of a trie that fits is smaller. *)
Definition best_large (v rsize : Z) : Prop :=
  (∃ k, 0 ≤ k < 32 ∧ v ∈ nodes (trees k)) ∧ sz v = nb + rsize ∧ 0 ≤ rsize ∧ ∀ j x, 0 ≤ j < 32 → x ∈ nodes (trees j) → nb ≤ sz x → nb + rsize ≤ sz x.

Lemma choose k v rsize :
  0 ≤ k < 32 → v ∈ nodes (trees k) → sz v = nb + rsize → 0 ≤ rsize → (∀ x, x ∈ nodes (trees k) → nb ≤ sz x → nb + rsize ≤ sz x) →
  (∀ j x, 0 ≤ j < k → x ∈ nodes (trees j) → sz x < nb) → best_large v rsize.
Proof.
  intros Hk Hv Es Hr Hmin Hlow. split_and!; [eauto|done|done|]. intros j x Hj Hx Hge. destruct (Z.lt_trichotomy j k) as [Hlt|[->|Hgt]].
  - specialize (Hlow j x ltac:(lia) Hx). lia.
  - auto.
  - rewrite <- Es. pose proof (bins_mono k j v x ltac:(lia) ltac:(lia) Hv Hx). lia.
Qed.

Lemma stored_height t : stored (mem m) t → (height t < 66)%nat.
Proof. intros (i & p & lo & n & _ & _ & Htr & Hn). pose proof (trie_height _ _ _ _ Htr). lia. Qed.

(** Down the left side of a trie of which all chunks fit. *)
Lemma least_stored t v rsize fuel :
  stored (mem m) t → (∀ x, x ∈ nodes t → nb ≤ sz x) → (66 ≤ fuel)%nat →
  ∃ v' rsize', least_loop fuel (mem m) nb (root t) v rsize = Ok (v', rsize') ∧ best_of (mem m) nb (nodes t) v rsize v' rsize'.
Proof.
  intros Hst Hge Hf. pose proof (stored_height _ Hst). destruct Hst as (i & p & lo & n & Hs & Hc & Htr & Hn).
  apply (least_spec (mem m) nb ltac:(lia) t i p lo n); try done. lia.
Qed.

(** The first step takes what is there. *)
Lemma least_first fuel t : t ≠ 0 → least_loop (S fuel) (mem m) nb t 0 (2 ^ 64) = least_loop fuel (mem m) nb (leftmost_child (mem m) t) t (u64 (sz t - nb)).
Proof. intros Hne. cbn [least_loop]. rewrite (proj2 (Z.eqb_neq _ _)) by done. assert (u64 (sz t - nb) < 2 ^ 64) as H by (apply Z.mod_pos_bound; done). rewrite (proj2 (Z.ltb_lt _ _)) by done. done. Qed.

(** The first trie that is not empty has the smallest chunks. *)
Lemma find_least_spec : nb < 256 → treemap m ≠ 0 → ∃ v rsize, find_least gm nb m = Ok (v, rsize) ∧ best_large v rsize.
Proof.
  intros Hsm Hnz. destruct (bit2idx_spec (treemap m)) as (Hk & Hb & Hlow); [pose proof (to_range _ _ _ Ht) as H; unfold fits in H; lia|]. unfold find_least. set (k := compute_bit2idx _) in *.
  destruct (bin_root k Hk) as [-> _]. rewrite (to_bit _ _ _ Ht) in Hb by done. set (t := trees k) in *.
  assert (∀ j x, 0 ≤ j < 32 → x ∈ nodes (trees j) → 256 ≤ sz x < 2 ^ 40) as Hl by (intros j x Hj Hx; apply (to_chunk _ _ _ Ht j x Hj Hx)).
  destruct (least_stored t 0 (2 ^ 64) 67 (bin_stored k Hk)) as (v & r & E & Hv & Hmin); [intros x Hx; specialize (Hl k x Hk Hx); lia|lia|].
  assert (root t ≠ 0) as Hr0. { pose proof (root_zero _ t (bin_sized k Hk)) as E0. destruct (is_leaf t); [done|]. apply Z.eqb_neq. exact E0. }
  rewrite least_first in E by done. rewrite E. exists v, r. split; [done|].
  assert (root t ∈ nodes t) as Hrt by (destruct t; [done|left]).
  destruct Hv as [[= -> ->]|(Hv & -> & _)]; [specialize (Hmin _ Hrt); specialize (Hl k _ Hk Hrt); lia|]. specialize (Hl k v Hk Hv) as Hlv.
  apply (choose k); [done|done|lia|lia|intros x Hx _; specialize (Hmin x Hx); lia|]. intros j x Hj Hx. specialize (Hlow j Hj). rewrite (to_bit _ _ _ Ht) in Hlow by lia. destruct (trees j); [apply elem_of_nil in Hx|]; done.
Qed.

(** The trie of the bin of [nb]. *)
Lemma fit_stored :
  let idx := compute_tree_index nb in let t := mem m (treebin_at gm idx) in
  large nb → ∃ u v rsize,
    (if negb (t =? 0) then fit_loop 65 (mem m) nb t 0 (u64 (- nb)) (u64 (Z.shiftl nb (leftshift_for_tree_index idx))) 0 else Ok (t, 0, u64 (- nb))) = Ok (root u, v, rsize) ∧
    stored (mem m) u ∧ found (mem m) nb (trees idx) Leaf 0 (2 ^ 64 - nb) u v rsize.
Proof.
  intros idx t Hl. destruct (bin_of_size nb Hl) as [Hi Hrange]. fold idx in Hi, Hrange. destruct (bin_levels idx Hi) as (Hn & Hd & Hsh & _).
  assert (u64 (- nb) = 2 ^ 64 - nb) as -> by (unfold wrap; symmetry; apply (Z.mod_unique _ _ (-1)); lia). assert (stored (mem m) Leaf) as Hsl by (exists 0, 0, 0, 0%nat; split_and!; try done; [intros x []%elem_of_nil|constructor|lia]).
  unfold t. destruct (bin_root idx Hi) as [-> Hc]. rewrite (root_zero (mem m)) by (apply bin_sized, Hi). destruct (trees idx) as [|x rest l r] eqn:Et.
  - simpl. exists Leaf, 0, (2 ^ 64 - nb). split; [done|]. split; [done|]. right. split_and!; [intros x []%elem_of_nil|by left|intros x [[]%elem_of_nil|[]%elem_of_nil]].
  - cbn [is_leaf negb]. rewrite <- Et in *. rewrite <- Hsh. apply (fit_spec (mem m) nb ltac:(lia) (trees idx) idx (treebin_at gm idx) (bin_low idx) (levels idx) 0 (2 ^ 64 - nb) Leaf 65); try done.
    + rewrite Et. done.
    + apply bin_sized, Hi.
    + apply (to_trie _ _ _ Ht idx Hi).
    + lia.
    + intros y []%elem_of_nil.
    + lia.
Qed.

(** The bins above a bin. *)
Lemma next_bin idx :
  0 ≤ idx < 32 → let x := Z.land (left_bits (idx2bit idx)) (treemap m) in
  (x = 0 → ∀ j, idx < j < 32 → trees j = Leaf) ∧
  (x ≠ 0 → let k := compute_bit2idx (least_bit x) in idx < k < 32 ∧ trees k ≠ Leaf ∧ ∀ j, idx < j < k → trees j = Leaf).
Proof.
  intros Hi x. assert (∀ j, 0 ≤ j < 32 → Z.testbit x j = (idx <? j) && negb (is_leaf (trees j))) as Hx.
  { intros j Hj. unfold x. rewrite Z.land_spec, left_bits_spec, (to_bit _ _ _ Ht) by done. done. }
  assert (∀ j, idx < j < 32 → Z.testbit x j = false → trees j = Leaf) as Hempty.
  { intros j Hj Hb. rewrite Hx, (proj2 (Z.ltb_lt _ _)) in Hb by lia. destruct (trees j); done. }
  split; [intros E j Hj; apply Hempty; [done|]; rewrite E; apply Z.testbit_0_l|]. intros Hne k.
  assert (0 ≤ x < 2 ^ 32) as Hr. { unfold x. rewrite Z.land_comm. apply land_word; [done|apply (to_range _ _ _ Ht)|apply left_bits_nonneg, Hi]. }
  destruct (bit2idx_spec x ltac:(lia)) as (Hk & Hb & Hlow). fold k in Hk, Hb, Hlow. rewrite Hx in Hb by done. apply andb_true_iff in Hb as [Hlt%Z.ltb_lt Hnl].
  split_and!; [lia|lia|destruct (trees k); done|]. intros j Hj. apply Hempty; [lia|]. apply Hlow. lia.
Qed.

(** When the bin of [nb] has nothing, the next one has the best chunk. *)
Lemma find_next :
  large nb → let idx := compute_tree_index nb in let x := Z.land (left_bits (idx2bit idx)) (treemap m) in (∀ y, y ∈ nodes (trees idx) → sz y < nb) →
  ∃ v rsize, least_loop 66 (mem m) nb (if negb (x =? 0) then mem m (treebin_at gm (compute_bit2idx (least_bit x))) else 0) 0 (2 ^ 64 - nb) = Ok (v, rsize) ∧
    ((v = 0 ∧ ∀ j y, 0 ≤ j < 32 → y ∈ nodes (trees j) → sz y < nb) ∨ best_large v rsize).
Proof.
  intros Hl idx x Hnone. destruct (bin_of_size nb Hl) as [Hi _]. fold idx in Hi. destruct (next_bin idx Hi) as [Hx0 Hx1]. fold x in Hx0, Hx1.
  assert (∀ j y, 0 ≤ j < 32 → y ∈ nodes (trees j) → large (sz y) ∧ compute_tree_index (sz y) = j) as Hch.
  { intros j y Hj Hy. destruct (to_chunk _ _ _ Ht j y Hj Hy) as (H1 & H2 & _). done. }
  assert (∀ j y, 0 ≤ j ≤ idx → y ∈ nodes (trees j) → sz y < nb) as Hlow.
  { intros j y Hj Hy. destruct (Z.eq_dec j idx) as [->|]; [auto|]. destruct (Hch j y ltac:(lia) Hy) as [H1 H2]. apply index_mono; [done|done|fold idx; lia]. }
  destruct (Z.eqb_spec x 0) as [E|Hne]; cbn [negb].
  - exists 0, (2 ^ 64 - nb). split; [done|]. left. split; [done|]. intros j y Hj Hy. destruct (Z.le_gt_cases j idx); [apply (Hlow j); [lia|done]|]. rewrite (Hx0 E j) in Hy by lia. apply elem_of_nil in Hy. done.
  - specialize (Hx1 Hne). simpl in Hx1. set (k := compute_bit2idx _) in *. destruct Hx1 as (Hk & Hkl & Hbetween). destruct (bin_root k ltac:(lia)) as [-> _].
    assert (∀ y, y ∈ nodes (trees k) → nb < sz y) as Hfit. { intros y Hy. destruct (Hch k y ltac:(lia) Hy) as [H1 H2]. apply index_mono; [done|done|fold idx; lia]. }
    destruct (least_stored (trees k) 0 (2 ^ 64 - nb) 66 (bin_stored k ltac:(lia))) as (v & r & E & Hv & Hmin); [intros y Hy; specialize (Hfit y Hy); lia|lia|].
    exists v, r. split; [done|]. right. destruct (trees k) as [|z zs tl tr] eqn:Etk; [done|]. rewrite <- Etk in *. assert (z ∈ nodes (trees k)) as Hz by (rewrite Etk; left).
    destruct Hv as [[= -> ->]|(Hv & -> & _)]; [specialize (Hmin z Hz); destruct (Hch k z ltac:(lia) Hz) as [Hlz _]; unfold large in Hlz; lia|].
    apply (choose k); [lia|done|lia|specialize (Hfit v Hv); lia|intros y Hy _; specialize (Hmin y Hy); lia|]. intros j y Hj Hy.
    destruct (Z.le_gt_cases j idx); [apply (Hlow j); [lia|done]|]. rewrite (Hbetween j) in Hy by lia. apply elem_of_nil in Hy. done.
Qed.

Lemma find_large_spec :
  large nb → ∃ v rsize, find_large gm nb m = Ok (v, rsize) ∧ ((v = 0 ∧ ∀ j y, 0 ≤ j < 32 → y ∈ nodes (trees j) → sz y < nb) ∨ best_large v rsize).
Proof.
  intros Hl. destruct (fit_stored Hl) as (u & v & r & E & Hu & Hfd). unfold find_large. rewrite E. clear E. cbn [mbind result_bind]. destruct (bin_of_size nb Hl) as [Hi _]. pose proof (find_next Hl) as Hnext. set (idx := compute_tree_index nb) in *.
  assert (∀ j y, 0 ≤ j < idx → y ∈ nodes (trees j) → sz y < nb) as Hlow.
  { intros j y Hj Hy. destruct (to_chunk _ _ _ Ht j y ltac:(lia) Hy) as (H1 & H2 & _). apply index_mono; [done|done|fold idx; lia]. }
  pose proof (bin_sized idx Hi) as Hs. assert (sized (mem m) u) as Hsu by (destruct Hu as (? & ? & ? & ? & ? & _); done).
  destruct Hfd as [(-> & Hv & Ev)|(Hfit & Hv & Hcov)].
  - destruct (Hs v Hv) as [Hv0 _]. rewrite (proj2 (Z.eqb_neq v 0)), andb_false_r by done. exists v, 0. pose proof (stored_height _ Hu). destruct Hu as (i & p & lo & n & _ & Hc & _).
    cbn [andb]. rewrite (least_exact (mem m) nb ltac:(lia) u i p v 66) by done. split; [done|]. right. apply (choose idx); [done|done|lia|done|lia|exact Hlow].
  - destruct ((root u =? 0) && (v =? 0)) eqn:Ez.
    + apply andb_true_iff in Ez as [Er Ev%Z.eqb_eq]. rewrite (root_zero (mem m)) in Er by done. destruct u; [|done]. subst v. destruct Hv as [[= ->]|(Hv & _)]; [|destruct (Hs 0 Hv); done]. cbn [andb root].
      apply Hnext. intros y Hy. destruct (Z.lt_ge_cases (sz y) nb) as [|Hge]; [done|]. destruct (Hcov y (or_introl Hy) Hge) as [Hbad|(z & []%elem_of_nil & _)]. specialize (Hs y Hy). lia.
    + cbn [andb]. assert (∀ x, x ∈ nodes u → x ∈ nodes (trees idx)) as Hsub by (intros x Hx; destruct (Hfit x Hx) as [_ [?|[]%elem_of_nil]]; done).
      destruct (least_stored u v r 66 Hu) as (v' & r' & E & Hb & Hmin); [intros x Hx; apply Hfit, Hx|lia|]. exists v', r'. split; [done|]. right.
      assert (v' ∈ nodes (trees idx) ∧ r' = sz v' - nb ∧ r' ≤ r ∧ 0 ≤ r') as (Hv' & -> & Hle & H0).
      { destruct Hb as [[= -> ->]|(Hv' & -> & Hlt)]; [|destruct (Hfit v' Hv'); split_and!; [auto|done|lia|lia]]. destruct Hv as [[= -> ->]|(Hv & -> & ?)].
        - exfalso. rewrite (root_zero (mem m)), andb_true_r in Ez by done. destruct u as [|z zs tl tr]; [done|]. specialize (Hmin z ltac:(left)). specialize (Hs z (Hsub z ltac:(left))). lia.
        - split_and!; done || lia. }
      apply (choose idx); [done|done|lia|lia| |exact Hlow]. intros x Hx Hge. destruct (Hcov x (or_introl Hx) Hge) as [Hr|(z & Hz & Hzx)]; [lia|]. specialize (Hmin z Hz). lia.
Qed.
End search.
