(* ===== verification/DlAlloc.v ===== *)
(** * The kernel heap: allocation is right

    The steps of [dlmalloc] on the heap of DlHeap: a chunk is taken out of its bin, used as
    a whole or split, and the rest is put back, becomes the designated victim or stays the
    top chunk. *)

From S2P Require Import Prelude Define DlBase DlSmall DlTree DlBins DlSys DlMalloc DlHeap DlFit.
Local Open Scope Z_scope.

(** Writes to heads and feet that are given. *)
Ltac written := intros ? ?; simpl; unfold upd, head_, prev_foot; repeat match goal with |- context [?a =? ?b] => destruct (Z.eqb_spec a b); [lia|] end; done.

Section alloc.
Context (gm : Z).

Lemma mid_same m m' h free :
  heap_mid gm m h free → smallmap m' = smallmap m → treemap m' = treemap m → least_addr m' = least_addr m → mem m' = mem m → heap_mid gm m' h free.
Proof. intros [Hl Hs Hb Hf] Es Et El Em. split; [rewrite El; done|rewrite Em; done|apply (bins_ok_same gm m); done|done]. Qed.

(** A free chunk is used as a whole. *)
Lemma place_whole m q s k l t free :
  heap_mid gm m (at_place q ((s, k) :: l) t) free → used k = false → free ⊆ of_kind Free (at_place q ((s, Used) :: l) t) →
  heap_mid gm (set_inuse_and_pinuse (addr_of q) s m) (at_place q ((s, Used) :: l) t) free.
Proof.
  intros Hm Hk Hf. pose proof (at_place_ok gm _ _ _ _ (hm_layout _ _ _ _ Hm)) as Hok. simpl in Hok. rewrite Hk in Hok. destruct Hok as (H1 & H2 & H3 & Hok). specialize (H3 eq_refl).
  pose proof (chunk_facts gm _ _ (addr_of q) s k (hm_layout _ _ _ _ Hm)) as Hc.
  destruct (pin_cells (addr_of q + s) l t Hok) as (s2 & l2 & Ec & Ec' & Hm2 & Hs2 & Hok').
  assert (mem m (head_ (addr_of q + s)) = s2 + 2) as Enx.
  { pose proof (hm_cells _ _ _ _ Hm) as Hs. rewrite at_place_cells, sat_app in Hs. destruct Hs as [Hs _]. apply (sat_elem _ _ _ _ Hs).
    rewrite tile_cells_cons, Hk, Ec, elem_of_cons, elem_of_app. right. right. left. }
  set (us := [(head_ (addr_of q), s + 3); (head_ (addr_of q + s), s2 + 3)]).
  assert (head_ (addr_of q + s) ≠ head_ (addr_of q)) as Hne by (unfold head_; lia).
  assert (set_inuse_and_pinuse (addr_of q) s m = with_mem (set_inuse_and_pinuse (addr_of q) s m) (writes (mem m) us)) as Em.
  { unfold set_inuse_and_pinuse, put, with_mem at 1 2 3 4. simpl. unfold with_mem. simpl. f_equal. unfold us. rewrite upd_other by done. rewrite Enx. simpl.
    assert (Z.lor (Z.lor s PINUSE_BIT) CINUSE_BIT = s + 3) as ->.
    { rewrite <- Z.lor_assoc. change (Z.lor PINUSE_BIT CINUSE_BIT) with 3. apply or_flags; [done|lia]. }
    assert (Z.lor (s2 + 2) PINUSE_BIT = s2 + 3) as ->; [|done].
    rewrite <- (or_flags s2 2) by (done || lia). rewrite <- Z.lor_assoc. change (Z.lor 2 PINUSE_BIT) with 3. apply or_flags; [done|lia]. }
  eapply (write_place gm m _ q _ _ _ _ us l2); [exact Hm|done| | | |exact Em|done..|exact Hf].
  - intros _. split; [done|]. split; [done|]. split; [done|]. exact Hok'.
  - rewrite H3, tile_cells_cons. cbn [used foot_cells app]. rewrite Ec'. unfold us, head_of. simpl. replace (s + 1 + 2) with (s + 3) by lia. done.
  - rewrite H3, tile_cells_cons, Hk, Ec, sat_cons, sat_app, sat_cons. tauto.
Qed.

Lemma used_head s : s mod 16 = 0 → Z.lor (Z.lor s PINUSE_BIT) CINUSE_BIT = s + 3.
Proof. intros Hs. rewrite <- Z.lor_assoc. change (Z.lor PINUSE_BIT CINUSE_BIT) with 3. apply or_flags; [done|lia]. Qed.

Lemma free_head_value s : s mod 16 = 0 → Z.lor s PINUSE_BIT = s + 1.
Proof. intros Hs. change PINUSE_BIT with 1. apply or_flags; [done|lia]. Qed.

Lemma sub_mod16 s n : s mod 16 = 0 → n mod 16 = 0 → (s - n) mod 16 = 0.
Proof. intros H1 H2. rewrite Zminus_mod, H1, H2. done. Qed.

(** The first part of a free chunk is used, and the rest stays free. *)
Lemma place_split m m' q s k nb k' l t free us :
  let a := addr_of q in let r := s - nb in
  heap_mid gm m (at_place q ((s, k) :: l) t) free → used k = false → used k' = false → 32 ≤ nb → nb mod 16 = 0 → 32 ≤ r →
  us ≡ₚ [(head_ a, Z.lor (Z.lor nb PINUSE_BIT) CINUSE_BIT); (head_ (a + nb), Z.lor r PINUSE_BIT); (a + nb + r, r)] →
  m' = with_mem m' (writes (mem m) us) → smallmap m' = smallmap m → treemap m' = treemap m → least_addr m' = least_addr m →
  free ⊆ of_kind Free (at_place q ((nb, Used) :: (r, k') :: l) t) → heap_mid gm m' (at_place q ((nb, Used) :: (r, k') :: l) t) free.
Proof.
  intros a r Hm Hk Hk' Hnb Hnm Hr Hus Em Es Et El Hf. pose proof (at_place_ok gm _ _ _ _ (hm_layout _ _ _ _ Hm)) as Hok. simpl in Hok. rewrite Hk in Hok.
  destruct Hok as (H1 & H2 & H3 & Hok). specialize (H3 eq_refl). assert (r mod 16 = 0) as Hrm by (apply sub_mod16; done).
  eapply (write_place gm m m' q _ _ _ _ us (tile_cells (a + s) false l t)); [exact Hm| | | | |exact Em|done..|exact Hf].
  - unfold total. simpl. lia.
  - intros _. cbn [tiles_ok used]. rewrite Hk'. split_and!; done.
  - rewrite H3, !tile_cells_cons, Hus. cbn [used]. unfold foot_cells. rewrite Hk'. cbn [used app]. fold a.
    assert (head_of r k' true = r + 1) as -> by (unfold head_of; rewrite Hk'; lia). assert (head_of nb Used true = nb + 3) as -> by (unfold head_of; simpl; lia).
    rewrite used_head, free_head_value by done. replace (a + nb + r) with (a + s) by (unfold r; lia). done.
  - rewrite H3, tile_cells_cons, Hk, sat_cons, sat_app. tauto.
Qed.

(** A free chunk becomes the designated victim, or ceases to be. *)
Lemma place_relabel m q s k k' l t free :
  heap_mid gm m (at_place q ((s, k) :: l) t) free → used k = false → used k' = false → free ⊆ of_kind Free (at_place q ((s, k') :: l) t) →
  heap_mid gm m (at_place q ((s, k') :: l) t) free.
Proof.
  intros [Hl Hs Hb _] Hk Hk' Hf. split; [|rewrite at_place_cells in *|done|done].
  - apply (at_place_layout gm _ _ ((s, k) :: l) t); [done|done|]. simpl. rewrite Hk, Hk'. done.
  - revert Hs. rewrite !sat_app, !tile_cells_cons. unfold foot_cells, head_of. rewrite Hk, Hk'. done.
Qed.

(** The first part of the top chunk is used. *)
Lemma place_top m m' q s nb free us :
  let a := addr_of q in let r := s - nb in
  heap_mid gm m (at_place q [] (TopTail s)) free → 32 ≤ nb → nb mod 16 = 0 → nb < s →
  us ≡ₚ [(head_ (a + nb), Z.lor r PINUSE_BIT); (head_ a, Z.lor (Z.lor nb PINUSE_BIT) CINUSE_BIT)] →
  m' = with_mem m' (writes (mem m) us) → smallmap m' = smallmap m → treemap m' = treemap m → least_addr m' = least_addr m →
  heap_mid gm m' (at_place q [(nb, Used)] (TopTail r)) free.
Proof.
  intros a r Hm Hnb Hnm Hlt Hus Em Es Et El. pose proof (at_place_ok gm _ _ _ _ (hm_layout _ _ _ _ Hm)) as Hok. simpl in Hok. destruct Hok as (H1 & H2 & H3).
  assert (r mod 16 = 0) as Hrm by (apply sub_mod16; done).
  eapply (write_place gm m m' q _ _ _ _ us []); [exact Hm| | | | |exact Em|done..|].
  - unfold total. simpl. lia.
  - intros _. simpl. split_and!; try done. unfold r. lia.
  - rewrite H1, tile_cells_cons, Hus. cbn. unfold head_of. simpl. rewrite used_head, free_head_value by done. fold a. replace (nb + 1 + 2) with (nb + 3) by lia. solve_Permutation.
  - constructor.
  - rewrite (kind_top gm _ Free q [] [(nb, Used)] (TopTail s) (TopTail r) (hm_layout _ _ _ _ Hm)). pose proof (hm_free _ _ _ _ Hm). unfold kinds. simpl. set_solver.
Qed.

(** ** Blocks *)

(** A block more is in use, at an address where none was. *)
Definition allocated (h h' : list segment) (p s : Z) : Prop :=
  of_kind Used h' = {[(p, s)]} ∪ of_kind Used h ∧ ∀ t, (p, t) ∉ of_kind Used h.

(** The words of the blocks in use do not change: those behind the head of a chunk, up to
    the first word of the next chunk. *)
Definition kept (h : list segment) (w w' : words) : Prop :=
  ∀ q t x, (q, t, Used) ∈ heap_chunks h → q + 16 ≤ x ≤ q + t → w' x = w x.

Lemma kept_trans h w w' w'' : kept h w w' → kept h w' w'' → kept h w w''.
Proof. intros H1 H2 q t x Hq Hx. rewrite (H2 q t x Hq Hx). apply (H1 q t x Hq Hx). Qed.

(** What is written from the head of a chunk that is not in use to the head of the next
    chunk is outside the blocks. *)
Lemma kept_outside h w w' v s :
  (∀ q t, (q, t, Used) ∈ heap_chunks h → q + t ≤ v ∨ v + s ≤ q) → (∀ x, x < v + 8 ∨ v + s + 8 < x → w' x = w x) → kept h w w'.
Proof. intros Hd Hw q t x Hq Hx. apply Hw. destruct (Hd q t Hq); lia. Qed.

Lemma apart_used least h v s k : layout gm least h → (v, s, k) ∈ heap_chunks h → used k = false → ∀ q t, (q, t, Used) ∈ heap_chunks h → q + t ≤ v ∨ v + s ≤ q.
Proof. intros Hl Hv Hk q t Hq. apply (heap_disjoint gm _ _ _ _ _ _ _ _ Hl Hq Hv). intros [= -> -> <-]. done. Qed.

(** So is what the bins use. *)
Lemma kept_bins least h m m' free :
  layout gm least h → (∀ p s, (p, s) ∈ free → ∃ k, (p, s, k) ∈ heap_chunks h ∧ used k = false) → bins_step gm m m' free → kept h (mem m) (mem m').
Proof.
  intros Hl Hf [Hw _] q t x Hq Hx. apply Hw. pose proof (chunk_facts gm _ _ _ _ _ Hl Hq) as (_ & _ & _ & _ & _ & Hg). intros [Ha|(p & s & Hp & Ha)]; [lia|].
  destruct (Hf p s Hp) as (k & Hin & Hk). destruct (apart_used _ _ _ _ _ Hl Hin Hk q t Hq); lia.
Qed.

Lemma kept_rest least h h' m m' free :
  layout gm least h' → bins_step gm m m' free → of_kind Used h ⊆ of_kind Used h' → (∀ p s, (p, s) ∈ free → ∃ k, (p, s, k) ∈ heap_chunks h' ∧ used k = false) → kept h (mem m) (mem m').
Proof.
  intros Hl Hst Hsub Hf q t x Hq Hx. apply (kept_bins least h' m m' free Hl Hf Hst q t x); [|done]. apply elem_of_kind, Hsub, elem_of_kind, Hq.
Qed.

(** What an allocation of a chunk of [nb] bytes returns: the block of a chunk that is not
    smaller and less than 32 bytes larger; the other blocks are as before. *)
Definition malloced (m : mstate) (h : list segment) (nb a : Z) (m' : mstate) : Prop :=
  ∃ h' p s, heap_ok gm m' h' ∧ allocated h h' p s ∧ kept h (mem m) (mem m') ∧ a = p + 16 ∧ nb ≤ s < nb + 32 ∧ s mod 16 = 0.

Lemma chunk_unique least h x s k s' k' : layout gm least h → (x, s, k) ∈ heap_chunks h → (x, s', k') ∈ heap_chunks h → s = s' ∧ k = k'.
Proof.
  intros Hl H1 H2. destruct (decide ((x, s, k) = (x, s', k'))) as [[= -> ->]|Hne]; [done|].
  pose proof (chunk_facts gm _ _ _ _ _ Hl H1) as (_ & _ & ? & _). pose proof (chunk_facts gm _ _ _ _ _ Hl H2) as (_ & _ & ? & _). destruct (heap_disjoint gm _ _ _ _ _ _ _ _ Hl H1 H2 Hne); lia.
Qed.

Lemma place_in q s k l t : (addr_of q, s, k) ∈ heap_chunks (at_place q ((s, k) :: l) t).
Proof. rewrite at_place_chunks. left. Qed.

Lemma unused least q s k l t u : layout gm least (at_place q ((s, k) :: l) t) → used k = false → (addr_of q, u) ∉ of_kind Used (at_place q ((s, k) :: l) t).
Proof. intros Hl Hk Hin%elem_of_kind. destruct (chunk_unique _ _ _ _ _ _ _ Hl (place_in q s k l t) Hin) as [_ ->]. done. Qed.

Lemma tops_replace q l l' t : total l = total l' → tops (at_place q l t) = tops (at_place q l' t).
Proof. intros E. rewrite !at_place_tops, E. done. Qed.

Lemma block_addr least h p s k : layout gm least h → (p, s, k) ∈ heap_chunks h → chunk2mem p = p + 16 ∧ mem2chunk (p + 16) = p.
Proof.
  intros Hl Hp. pose proof (chunk_facts gm _ _ _ _ _ Hl Hp) as (H1 & _ & H3 & _ & H5 & _). unfold chunk2mem, mem2chunk. split; rewrite wrap_small; unfold fits; lia.
Qed.

Lemma bins_ok_eq m f f' : bins_ok gm m f → f = f' → bins_ok gm m f'.
Proof. intros H <-. done. Qed.

(** Computes the chunks of one kind in given tiles. *)
Ltac kinds_of := repeat first [rewrite kinds_nil | rewrite kinds_cons | rewrite decide_True by done | rewrite decide_False by done].

(** The designated victim serves the request. *)
Lemma take_dv_spec m h nb :
  heap_ok gm m h → 32 ≤ nb → nb mod 16 = 0 → nb ≤ dvsize m → malloced m h nb (take_dv nb m).1 (take_dv nb m).2.
Proof.
  intros Hok Hnb Hnm Hle. pose proof (heap_ok_mid _ _ _ Hok) as Hmid. pose proof (ho_layout _ _ _ Hok) as Hl.
  destruct (ho_dv _ _ _ Hok) as [(_ & Hz & _)|[Hpos Hv]]; [lia|].
  assert ((dv m, dvsize m, Victim) ∈ heap_chunks h) as Hin by (apply elem_of_kind; rewrite Hv; apply elem_of_singleton; done).
  pose proof (chunk_facts gm _ _ _ _ _ Hl Hin) as (F1 & F2 & F3 & F4 & F5 & _). destruct (block_addr _ _ _ _ _ Hl Hin) as [Eb _].
  destruct (chunk_place _ _ _ _ Hin) as (q & l & t & -> & Eq). unfold take_dv. cbn [fst snd]. rewrite Eb, (wrap_small 64 (dvsize m - nb)) by (unfold fits; lia).
  assert (∀ u, (dv m, u) ∉ of_kind Used (at_place q ((dvsize m, Victim) :: l) t)) as Hun by (intros u; rewrite Eq; apply (unused _ _ _ _ _ _ _ Hl); done).
  destruct (Z.leb_spec MIN_CHUNK_SIZE (dvsize m - nb)) as [Hbig|Hsm]; change MIN_CHUNK_SIZE with 32 in *.
  - set (r := dvsize m - nb) in *. exists (at_place q ((nb, Used) :: (r, Victim) :: l) t), (dv m), nb.
    pose proof (λ k, kind_replace gm _ k q [(dvsize m, Victim)] l [(nb, Used); (r, Victim)] t t Hl ltac:(unfold total, r; simpl; lia)) as Hk. simpl app in Hk.
    split_and!; try done; try lia.
    + pose proof (Hk Free) as Hkf. pose proof (Hk Victim) as Hkv. rewrite <- Eq in *. revert Hkf Hkv. kinds_of. intros Hkf Hkv.
      assert (heap_mid gm (set_size_and_pinuse_of_inuse_chunk (dv m) nb (set_size_and_pinuse_of_free_chunk (dv m + nb) r (with_dv m (dv m + nb) r)))
                (at_place q ((nb, Used) :: (r, Victim) :: l) t) (of_kind Free (at_place q ((dvsize m, Victim) :: l) t))) as Hm'.
      { eapply (place_split m _ q (dvsize m) Victim nb Victim l t _ [(head_ (dv m + nb), Z.lor r PINUSE_BIT); (dv m + nb + r, r); (head_ (dv m), Z.lor (Z.lor nb PINUSE_BIT) CINUSE_BIT)]); try done.
        - rewrite <- Eq. solve_Permutation.
        - fold r. rewrite Hkf. clear. set_solver. }
      destruct Hm' as [A1 A2 A3 _]. split; [done|done| | |].
      * eapply bins_ok_eq; [exact A3|]. rewrite Hkf. clear. set_solver.
      * right. split; [simpl; lia|]. simpl. rewrite Hkv, Hv. clear. set_solver.
      * simpl. rewrite (tops_replace q _ ((dvsize m, Victim) :: l)) by (unfold total, r; simpl; lia). apply (ho_top _ _ _ Hok).
    + split; [|done]. rewrite Hk, <- Eq. kinds_of. clear. set_solver.
    + apply (kept_outside _ _ _ (dv m) (dvsize m)); [apply (apart_used _ _ _ _ _ Hl Hin); done|subst r; written].
  - exists (at_place q ((dvsize m, Used) :: l) t), (dv m), (dvsize m).
    pose proof (λ k, kind_replace gm _ k q [(dvsize m, Victim)] l [(dvsize m, Used)] t t Hl eq_refl) as Hk. simpl app in Hk.
    split_and!; try done; try lia.
    + pose proof (Hk Free) as Hkf. pose proof (Hk Victim) as Hkv. rewrite <- Eq in *. revert Hkf Hkv. kinds_of. intros Hkf Hkv.
      assert (heap_mid gm (set_inuse_and_pinuse (dv m) (dvsize m) (with_dv m 0 0)) (at_place q ((dvsize m, Used) :: l) t) (of_kind Free (at_place q ((dvsize m, Victim) :: l) t))) as Hm'.
      { rewrite Eq. apply (place_whole _ q (dvsize m) Victim l t); [apply (mid_same m); done|done|]. rewrite Hkf. clear. set_solver. }
      destruct Hm' as [A1 A2 A3 _]. split; [done|done| | |].
      * eapply bins_ok_eq; [exact A3|]. rewrite Hkf. clear. set_solver.
      * left. split_and!; [done|done|]. rewrite Hkv, Hv. clear. set_solver.
      * rewrite (tops_replace q _ ((dvsize m, Victim) :: l)) by done. apply (ho_top _ _ _ Hok).
    + split; [|done]. rewrite Hk, <- Eq. kinds_of. clear. set_solver.
    + apply (kept_outside _ _ _ (dv m) (dvsize m)); [apply (apart_used _ _ _ _ _ Hl Hin); done|written].
Qed.

(** The top chunk serves the request. *)
Lemma split_top_spec m h nb :
  heap_ok gm m h → 32 ≤ nb → nb mod 16 = 0 → nb < topsize m → malloced m h nb (split_top nb m).1 (split_top nb m).2.
Proof.
  intros Hok Hnb Hnm Hlt. pose proof (heap_ok_mid _ _ _ Hok) as Hmid. pose proof (ho_layout _ _ _ Hok) as Hl.
  destruct (ho_top _ _ _ Hok) as [(_ & Hz & _)|[Hpos Ht]]; [lia|].
  destruct (top_place h (top m) (topsize m)) as (q & -> & Eq); [rewrite Ht; left|].
  assert (top m + topsize m < 2 ^ 64) as Hb.
  { destruct (ro_each _ _ _ (la_ranges _ _ _ Hl) (pbase q) (send (Seg (pbase q) (pre q ++ []) (TopTail (topsize m))))) as (_ & _ & _ & He & _).
    - apply list_elem_of_fmap. exists (Seg (pbase q) (pre q ++ []) (TopTail (topsize m))). split; [done|]. apply elem_of_app. right. left.
    - unfold send in He. simpl in He. rewrite app_nil_r, foot_size in He. rewrite Eq. unfold addr_of. lia. }
  unfold split_top. cbn [fst snd]. rewrite (wrap_small 64 (topsize m - nb)) by (unfold fits; lia). set (r := topsize m - nb).
  assert (chunk2mem (top m) = top m + 16) as -> by (unfold chunk2mem; rewrite wrap_small; unfold fits; lia).
  pose proof (λ k, kind_top gm _ k q [] [(nb, Used)] (TopTail (topsize m)) (TopTail r) Hl) as Hk. rewrite <- Eq in *.
  assert (layout gm (least_addr m) (at_place q [(nb, Used)] (TopTail r))) as Hl'.
  { apply (at_place_layout gm _ _ [] (TopTail (topsize m))); [done|unfold total, r; simpl; lia|]. simpl. intros (E1 & E2 & E3). split_and!; try done; [unfold r; lia|]. apply sub_mod16; done. }
  assert (∀ y t, (y, t, Used) ∈ heap_chunks (at_place q [] (TopTail (topsize m))) → y + t ≤ top m ∨ top m + nb ≤ y) as Hnew.
  { intros y t Hy. rewrite at_place_chunks in Hy. simpl in Hy. apply (heap_disjoint gm (least_addr m) (at_place q [(nb, Used)] (TopTail r)) y t Used (top m) nb Used Hl').
    - rewrite at_place_chunks. by right.
    - rewrite at_place_chunks, <- Eq. left.
    - intros [= -> ->]. apply (place_fresh gm _ q [(nb, Used)] (TopTail r) (top m) nb Used (top m) nb Used Hl'); [rewrite <- Eq; left|done|done]. }
  exists (at_place q [(nb, Used)] (TopTail r)), (top m), nb. split_and!; try done; try lia.
  - assert (heap_mid gm (set_size_and_pinuse_of_inuse_chunk (top m) nb (put (with_top m (top m + nb) r) (head_ (top m + nb)) (Z.lor r PINUSE_BIT)))
              (at_place q [(nb, Used)] (TopTail r)) (of_kind Free (at_place q [] (TopTail (topsize m))))) as [A1 A2 A3 _].
    { eapply (place_top m _ q (topsize m) nb _ [(head_ (top m + nb), Z.lor r PINUSE_BIT); (head_ (top m), Z.lor (Z.lor nb PINUSE_BIT) CINUSE_BIT)]); try done. rewrite <- Eq. done. }
    pose proof (Hk Free) as Hkf. pose proof (Hk Victim) as Hkv. revert Hkf Hkv. kinds_of. intros Hkf Hkv. split; [done|done| | |].
    + eapply bins_ok_eq; [exact A3|]. rewrite Hkf. clear. set_solver.
    + assert (of_kind Victim (at_place q [(nb, Used)] (TopTail r)) = of_kind Victim (at_place q [] (TopTail (topsize m)))) as -> by (rewrite Hkv; clear; set_solver). apply (ho_dv _ _ _ Hok).
    + right. simpl. split; [lia|]. rewrite at_place_tops in *. unfold total in *. simpl in *. rewrite <- Eq, !Z.add_0_r in *.
      destruct (tops (pre_segs q)) as [|e l1]; [|apply (f_equal length) in Ht; simpl in Ht; rewrite length_app in Ht; simpl in Ht; lia].
      simpl in Ht. injection Ht as Ht. rewrite Ht. done.
  - split; [rewrite (Hk Used); kinds_of; clear; set_solver|]. intros u Hin%elem_of_kind. pose proof (chunk_facts gm _ _ _ _ _ Hl Hin). apply Hnew in Hin. lia.
  - apply (kept_outside _ _ _ (top m) nb); [exact Hnew|written].
Qed.

(** ** Chunks from the bins *)

(** The state after a chunk [(v, s)] was taken out of its bin. *)
Record taken (m m1 : mstate) (h : list segment) (v s : Z) : Prop := {
  tk_heap : heap_ok gm m h;
  tk_free : (v, s) ∈ of_kind Free h;
  tk_mid : heap_mid gm m1 h (of_kind Free h ∖ {[(v, s)]});
  tk_kept : kept h (mem m) (mem m1);
  tk_dv : dv m1 = dv m ∧ dvsize m1 = dvsize m;
  tk_top : top m1 = top m ∧ topsize m1 = topsize m }.

Lemma step_fields m m' free :
  bins_step gm m m' free → (dv m' = dv m ∧ dvsize m' = dvsize m) ∧ (top m' = top m ∧ topsize m' = topsize m) ∧ least_addr m' = least_addr m.
Proof. intros [_ ->]. done. Qed.

Lemma taken_step m m1 h v s :
  heap_ok gm m h → (v, s) ∈ of_kind Free h → bins_ok gm m1 (of_kind Free h ∖ {[(v, s)]}) → bins_step gm m m1 (of_kind Free h) → taken m m1 h v s.
Proof.
  intros Hok Hin Hb Hst. destruct (step_fields _ _ _ Hst) as (E1 & E2 & _). split; try done; [apply (mid_step gm m _ h (of_kind Free h)); [apply heap_ok_mid; done|done|clear; set_solver|done]|].
  apply (kept_bins (least_addr m) h m m1 (of_kind Free h)); [apply (ho_layout _ _ _ Hok)| |done]. intros p u Hp%elem_of_kind. exists Free. done.
Qed.

(** The invariant for the designated victim and the top chunk, when they are not touched. *)
Lemma rest_ok m m1 m2 h h' free :
  heap_ok gm m h → heap_mid gm m2 h' free → free = of_kind Free h' → of_kind Victim h' = of_kind Victim h → tops h' = tops h →
  dv m2 = dv m1 ∧ dvsize m2 = dvsize m1 → top m2 = top m1 ∧ topsize m2 = topsize m1 → dv m1 = dv m ∧ dvsize m1 = dvsize m → top m1 = top m ∧ topsize m1 = topsize m → heap_ok gm m2 h'.
Proof.
  intros Hok [A1 A2 A3 _] -> Ev Et [E1 E2] [E3 E4] [E5 E6] [E7 E8]. split; [done|done|done| |].
  - rewrite Ev, E1, E2, E5, E6. apply (ho_dv _ _ _ Hok).
  - rewrite Et, E3, E4, E7, E8. apply (ho_top _ _ _ Hok).
Qed.

Lemma split_whole m m1 h v s nb keep :
  taken m m1 h v s → nb ≤ s < nb + 32 → ∃ m2, split_chunk v nb (s - nb) keep m1 = Ok m2 ∧ malloced m h nb (v + 16) m2.
Proof.
  intros [Hok Hin Hmid Hkept Edv Etop] Hs. pose proof (ho_layout _ _ _ Hok) as Hl. apply elem_of_kind in Hin. pose proof (chunk_facts gm _ _ _ _ _ Hl Hin) as (F1 & F2 & F3 & F4 & F5 & _).
  destruct (chunk_place _ _ _ _ Hin) as (q & l & t & -> & Eq). unfold split_chunk. rewrite (proj2 (Z.ltb_lt _ _)) by (change MIN_CHUNK_SIZE with 32; lia).
  replace (s - nb + nb) with s by lia. rewrite (wrap_small 64 s) by (unfold fits; lia). eexists. split; [done|].
  pose proof (λ k, kind_replace gm _ k q [(s, Free)] l [(s, Used)] t t Hl eq_refl) as Hk. simpl app in Hk. rewrite <- Eq in Hk.
  exists (at_place q ((s, Used) :: l) t), v, s. split_and!; try done; try lia.
  - pose proof (Hk Free) as Hkf. pose proof (Hk Victim) as Hkv. revert Hkf Hkv. kinds_of. intros Hkf Hkv.
    apply (rest_ok m m1 _ (at_place q ((s, Free) :: l) t) _ (of_kind Free (at_place q ((s, Free) :: l) t) ∖ {[(v, s)]})); try done.
    + rewrite Eq. apply (place_whole _ q s Free l t); [rewrite <- Eq; done|done|]. rewrite Hkf, <- Eq. clear. set_solver.
    + rewrite Hkf. clear. set_solver.
    + rewrite Hkv. clear. set_solver.
    + apply tops_replace. done.
  - split; [rewrite Hk; kinds_of; clear; set_solver|]. intros u. rewrite Eq. apply (unused _ _ _ _ _ _ _ Hl). done.
  - apply (kept_trans _ _ (mem m1)); [done|]. apply (kept_outside _ _ _ v s); [apply (apart_used _ _ _ _ _ Hl Hin); done|written].
Qed.

(** The remainder is put in a bin. *)
Lemma split_insert m m1 h v s nb :
  taken m m1 h v s → 32 ≤ nb → nb mod 16 = 0 → 32 ≤ s - nb → ∃ m2, split_chunk v nb (s - nb) (insert_chunk gm) m1 = Ok m2 ∧ malloced m h nb (v + 16) m2.
Proof.
  intros [Hok Hin Hmid Hkept Edv Etop] Hnb Hnm Hr. pose proof (ho_layout _ _ _ Hok) as Hl. apply elem_of_kind in Hin. pose proof (chunk_facts gm _ _ _ _ _ Hl Hin) as (F1 & F2 & F3 & F4 & F5 & _).
  destruct (chunk_place _ _ _ _ Hin) as (q & l & t & -> & Eq). unfold split_chunk. rewrite (proj2 (Z.ltb_ge _ _)) by (change MIN_CHUNK_SIZE with 32; lia). set (r := s - nb) in *.
  pose proof (λ k, kind_replace gm _ k q [(s, Free)] l [(nb, Used); (r, Free)] t t Hl ltac:(unfold total, r; simpl; lia)) as Hk. simpl app in Hk. rewrite <- Eq in Hk.
  set (h := at_place q ((s, Free) :: l) t) in *. set (h' := at_place q ((nb, Used) :: (r, Free) :: l) t) in *. set (m' := set_size_and_pinuse_of_free_chunk (v + nb) r (set_size_and_pinuse_of_inuse_chunk v nb m1)).
  pose proof (Hk Free) as Hkf. pose proof (Hk Victim) as Hkv. revert Hkf Hkv. kinds_of. intros Hkf Hkv.
  assert (heap_mid gm m' h' (of_kind Free h ∖ {[(v, s)]})) as Hm'.
  { eapply (place_split m1 m' q s Free nb Free l t _ [(head_ v, Z.lor (Z.lor nb PINUSE_BIT) CINUSE_BIT); (head_ (v + nb), Z.lor r PINUSE_BIT); (v + nb + r, r)]); try done; [rewrite <- Eq; done|]. fold r h'. rewrite Hkf. clear. set_solver. }
  assert ((v + nb, r) ∉ of_kind Free h ∖ {[(v, s)]}) as Hnew.
  { intros [Hi _]%elem_of_difference. apply elem_of_kind in Hi. destruct (heap_disjoint gm _ _ _ _ _ _ _ _ Hl Hin Hi); [intros [= ? ?]; lia|lia|]. pose proof (chunk_facts gm _ _ _ _ _ Hl Hi). lia. }
  destruct (mid_insert gm m' h' _ (v + nb) r Hm') as (m2 & E & Hm2 & Hst); [apply elem_of_kind; rewrite Hkf; clear; set_solver|done|].
  exists m2. split; [done|]. destruct (step_fields _ _ _ Hst) as (E1 & E2 & _). exists h', v, nb. split_and!; try done; try lia.
  - eapply (rest_ok m m1 m2 h h'); [done|exact Hm2| | |apply tops_replace; unfold total, r; simpl; lia|done..].
    + rewrite Hkf. clear. set_solver.
    + rewrite Hkv. clear. set_solver.
  - split; [rewrite Hk; kinds_of; clear; set_solver|]. intros u. rewrite Eq. apply (unused _ _ _ _ _ _ _ Hl). done.
  - apply (kept_trans _ _ (mem m1)); [done|]. apply (kept_trans _ _ (mem m')); [apply (kept_outside _ _ _ v s); [apply (apart_used _ _ _ _ _ Hl Hin); done|subst r m'; written]|].
    apply (kept_rest (least_addr m') h h' m' m2 _ (hm_layout _ _ _ _ Hm') Hst); [rewrite Hk; kinds_of; clear; set_solver|].
    intros p u [[= -> ->]%elem_of_singleton|Hp%(hm_free _ _ _ _ Hm')]%elem_of_union; exists Free; (split; [|done]); apply elem_of_kind; [rewrite Hkf; clear; set_solver|done].
Qed.

(** A victim gives up its role and goes to a bin. *)
Lemma bin_victim m h free x s :
  heap_mid gm m h free → (x, s, Victim) ∈ heap_chunks h → s < 256 →
  ∃ m' h', insert_small_chunk gm x s m = Ok m' ∧ heap_mid gm m' h' ({[(x, s)]} ∪ free) ∧ bins_step gm m m' ({[(x, s)]} ∪ free) ∧
           of_kind Free h' = {[(x, s)]} ∪ of_kind Free h ∧ of_kind Victim h' = of_kind Victim h ∖ {[(x, s)]} ∧ of_kind Used h' = of_kind Used h ∧ tops h' = tops h.
Proof.
  intros Hm Hin Hs. pose proof (hm_layout _ _ _ _ Hm) as Hl. pose proof (chunk_facts gm _ _ _ _ _ Hl Hin) as (_ & _ & F3 & _). pose proof (hm_free _ _ _ _ Hm) as Hsub.
  assert ((x, s) ∉ free) as Hn.
  { intros Hi%Hsub%elem_of_kind. destruct (chunk_unique _ _ _ _ _ _ _ Hl Hin Hi) as [_ ?]. done. }
  destruct (chunk_place _ _ _ _ Hin) as (q & l & t & -> & Eq).
  pose proof (λ k, kind_replace gm _ k q [(s, Victim)] l [(s, Free)] t t Hl eq_refl) as Hk. simpl app in Hk. rewrite <- Eq in Hk. set (h' := at_place q ((s, Free) :: l) t) in *.
  pose proof (Hk Free) as Hkf. pose proof (Hk Victim) as Hkv. pose proof (Hk Used) as Hku. revert Hkf Hkv Hku. kinds_of. intros Hkf Hkv Hku.
  assert (heap_mid gm m h' free) as Hm'.
  { apply (place_relabel m q s Victim Free l t); [done|done|done|]. fold h'. rewrite Hkf. intros e He%Hsub. revert He. clear. set_solver. }
  destruct (mid_insert gm m h' free x s Hm') as (m' & E & Hm2 & Hst); [apply elem_of_kind; rewrite Hkf; clear; set_solver|done|].
  exists m', h'. unfold insert_chunk in E. rewrite small_value, (proj2 (Z.ltb_lt _ _)) in E by lia. split_and!; try done.
  - rewrite Hkf. clear. set_solver.
  - rewrite Hkv. clear. set_solver.
  - rewrite Hku. clear. set_solver.
  - apply tops_replace. done.
Qed.

(** The remainder becomes the designated victim. *)
Lemma split_replace m m1 h v s nb :
  taken m m1 h v s → 32 ≤ nb → nb mod 16 = 0 → 32 ≤ s - nb → dvsize m < 256 → ∃ m2, split_chunk v nb (s - nb) (replace_dv gm) m1 = Ok m2 ∧ malloced m h nb (v + 16) m2.
Proof.
  intros [Hok Hin Hmid Hkept [Edv Edvs] [Etop Etops]] Hnb Hnm Hr Hdv. pose proof (ho_layout _ _ _ Hok) as Hl. apply elem_of_kind in Hin. pose proof (chunk_facts gm _ _ _ _ _ Hl Hin) as (F1 & F2 & F3 & F4 & F5 & _).
  destruct (chunk_place _ _ _ _ Hin) as (q & l & t & Eh & Eq). unfold split_chunk. rewrite (proj2 (Z.ltb_ge _ _)) by (change MIN_CHUNK_SIZE with 32; lia). set (r := s - nb) in *.
  pose proof Hl as Hl'. rewrite Eh in Hl'. pose proof (λ k, kind_replace gm _ k q [(s, Free)] l [(nb, Used); (r, Victim)] t t Hl' ltac:(unfold total, r; simpl; lia)) as Hk. simpl app in Hk. rewrite <- Eq, <- Eh in Hk.
  set (h1 := at_place q ((nb, Used) :: (r, Victim) :: l) t) in *. set (m' := set_size_and_pinuse_of_free_chunk (v + nb) r (set_size_and_pinuse_of_inuse_chunk v nb m1)).
  pose proof (Hk Free) as Hkf. pose proof (Hk Victim) as Hkv. pose proof (Hk Used) as Hku. revert Hkf Hkv Hku. kinds_of. intros Hkf Hkv Hku.
  assert (heap_mid gm m' h1 (of_kind Free h ∖ {[(v, s)]})) as Hm'.
  { rewrite Eh in Hmid. eapply (place_split m1 m' q s Free nb Victim l t _ [(head_ v, Z.lor (Z.lor nb PINUSE_BIT) CINUSE_BIT); (head_ (v + nb), Z.lor r PINUSE_BIT); (v + nb + r, r)]); try done; [rewrite Eh; exact Hmid|rewrite <- Eq; done|]. fold r h1. rewrite Hkf. clear. set_solver. }
  assert (tops h1 = tops h) as Et1 by (rewrite Eh; apply tops_replace; unfold total, r; simpl; lia).
  assert (allocated h h1 v nb) as Ha.
  { split; [rewrite Hku; clear; set_solver|]. intros u. rewrite Eh, Eq. rewrite Eh in Hl. apply (unused _ _ _ _ _ _ _ Hl). done. }
  assert (dvsize m' = dvsize m ∧ dv m' = dv m ∧ top m' = top m ∧ topsize m' = topsize m) as (Ed & Ed' & Etp & Ets) by done.
  assert (kept h (mem m) (mem m')) as Hkm.
  { apply (kept_trans _ _ (mem m1)); [done|]. apply (kept_outside _ _ _ v s); [apply (apart_used _ _ _ _ _ Hl Hin); done|subst r m'; written]. }
  unfold replace_dv. fold m'. rewrite Ed, Ed'. destruct (ho_dv _ _ _ Hok) as [(_ & Hz & Hv)|[Hpos Hv]].
  - rewrite small_value, (proj2 (Z.ltb_lt _ _)) by lia. simpl. rewrite Hz. simpl. eexists. split; [done|]. exists h1, v, nb. split_and!; try done; try lia; try apply Ha; try exact Hkm.
    apply (mid_same _ (with_dv m' (v + nb) r)) in Hm' as [A1 A2 A3 _]; try done. split; [done|done| | |].
    + eapply bins_ok_eq; [exact A3|]. rewrite Hkf. clear. set_solver.
    + right. simpl. split; [lia|]. rewrite Hkv, Hv. clear. set_solver.
    + simpl. rewrite Et1, Etop, Etops. apply (ho_top _ _ _ Hok).
  - rewrite small_value, (proj2 (Z.ltb_lt _ _)) by lia. simpl. rewrite (proj2 (Z.eqb_neq (dvsize m) 0)) by lia. simpl.
    assert ((dv m, dvsize m, Victim) ∈ heap_chunks h) as Hvin by (apply elem_of_kind; rewrite Hv; apply elem_of_singleton; done).
    assert ((dv m, dvsize m) ≠ (v + nb, r)) as Hne. { intros [= E1 E2]. pose proof (chunk_facts gm _ _ _ _ _ Hl Hvin). destruct (heap_disjoint gm _ _ _ _ _ _ _ _ Hl Hin Hvin); [done|lia|lia]. }
    destruct (bin_victim m' h1 _ (dv m) (dvsize m) Hm') as (m2 & h2 & E & Hm2 & Hst & B1 & B2 & B3 & B4); [apply elem_of_kind; rewrite Hkv, Hv; clear; set_solver|done|].
    rewrite E. simpl. eexists. split; [done|]. destruct (step_fields _ _ _ Hst) as (_ & [S1 S2] & _). exists h2, v, nb. split_and!; try done; try lia.
    + apply (mid_same _ (with_dv m2 (v + nb) r)) in Hm2 as [A1 A2 A3 _]; try done. split; [done|done| | |].
      * eapply bins_ok_eq; [exact A3|]. rewrite B1, Hkf. clear. set_solver.
      * right. simpl. split; [lia|]. rewrite B2, Hkv, Hv. clear -Hne. set_solver.
      * simpl. rewrite B4, Et1, S1, S2, Etp, Ets. apply (ho_top _ _ _ Hok).
    + destruct Ha as [Ha1 Ha2]. split; [rewrite B3; done|done].
    + apply (kept_trans _ _ (mem m')); [done|]. apply (kept_rest (least_addr m') h h1 m' m2 _ (hm_layout _ _ _ _ Hm') Hst); [rewrite Hku; clear; set_solver|].
      intros p u [[= -> ->]%elem_of_singleton|Hp%(hm_free _ _ _ _ Hm')]%elem_of_union; [exists Victim|exists Free]; (split; [|done]); apply elem_of_kind; [rewrite Hkv, Hv; clear; set_solver|done].
Qed.

(** ** Small requests *)

Lemma index2size_value i : 0 ≤ i < 32 → small_index2size i = 8 * i.
Proof. intros Hi. unfold small_index2size. rewrite Z.shiftl_mul_pow2 by lia. rewrite wrap_small; [lia|unfold fits; lia]. Qed.

(** The first chunk of a marked small bin is taken. *)
Lemma take_first m h i :
  heap_ok gm m h → 0 ≤ i < 32 → Z.testbit (smallmap m) i = true →
  let p := mem m (fd (smallbin_at gm i)) in
  chunksize (mem m) p = small_index2size i ∧ chunk2mem p = p + 16 ∧ ∃ m1, unlink_first_small_chunk (smallbin_at gm i) p i m = Ok m1 ∧ taken m m1 h p (8 * i).
Proof.
  intros Hok Hi Hb p. destruct (bins_take_first gm m _ i (ho_bins _ _ _ Hok) Hi Hb) as (Hin & m1 & E & Hb1 & Hst). fold p in Hin, E, Hb1.
  destruct (bins_sizes gm m _ p (8 * i) (ho_bins _ _ _ Hok) Hin) as (Ec & _). rewrite index2size_value by done. split; [done|]. split.
  - apply elem_of_kind in Hin. apply (block_addr _ _ _ _ _ (ho_layout _ _ _ Hok) Hin).
  - exists m1. split; [done|]. apply taken_step; done.
Qed.

Lemma take_small_spec m h i nb :
  heap_ok gm m h → 0 ≤ i < 32 → Z.testbit (smallmap m) i = true → nb ≤ 8 * i < nb + 32 → ∃ a m', take_small gm i m = Ok (a, m') ∧ malloced m h nb a m'.
Proof.
  intros Hok Hi Hb Hnb. destruct (take_first m h i Hok Hi Hb) as (Ec & Ea & m1 & E & Ht). unfold take_small. rewrite Ec, Z.eqb_refl. simpl. rewrite E, Ea. simpl.
  destruct (split_whole m m1 h _ (8 * i) nb (λ _ _ m, Ok m) Ht Hnb) as (m2 & E2 & Hm). eexists _, m2. split; [|exact Hm]. unfold split_chunk in E2.
  rewrite (proj2 (Z.ltb_lt _ _)) in E2 by (change MIN_CHUNK_SIZE with 32; lia). replace (8 * i - nb + nb) with (8 * i) in E2 by lia. rewrite (wrap_small 64 (8 * i)) in E2 by (unfold fits; lia).
  injection E2 as <-. rewrite index2size_value by done. done.
Qed.

(** The next small bin. *)
Lemma next_small_bin sm idx :
  fits 32 sm → 0 ≤ idx < 32 → Z.land (Z.shiftr sm idx) 3 = 0 → Z.shiftr sm idx ≠ 0 →
  let i := compute_bit2idx (least_bit (Z.land (u32 (Z.shiftl (Z.shiftr sm idx) idx)) (left_bits (idx2bit idx)))) in
  idx + 2 ≤ i < 32 ∧ Z.testbit sm i = true ∧ ∀ j, idx ≤ j < i → Z.testbit sm j = false.
Proof.
  intros Hsm Hi H3 Hnz. set (x := Z.land _ _).
  assert (∀ j, 0 ≤ j < 32 → Z.testbit x j = Z.testbit sm j && (idx <? j)) as Hx.
  { intros j Hj. unfold x. rewrite Z.land_spec, left_bits_spec by done. destruct (Z.ltb_spec idx j) as [Hlt|]; [|rewrite !andb_false_r; done]. rewrite !andb_true_r.
    unfold wrap. rewrite Z.mod_pow2_bits_low, Z.shiftl_spec, Z.shiftr_spec by lia. f_equal. lia. }
  assert (∀ n, 0 ≤ n < 2 → Z.testbit sm (idx + n) = false) as Hlow.
  { intros n Hn. apply (f_equal (λ y, Z.testbit y n)) in H3. rewrite Z.land_spec, Z.shiftr_spec, Z.testbit_0_l in H3 by lia. replace (n + idx) with (idx + n) in H3 by lia.
    destruct (Z.testbit sm (idx + n)); [|done]. assert (n = 0 ∨ n = 1) as [-> | ->] by lia; done. }
  assert (0 ≤ x < 2 ^ 32) as Hxr by (apply land_word; [done|apply Z.mod_pos_bound; done|apply left_bits_nonneg; done]).
  assert (x ≠ 0) as Hx0.
  { intros E. apply Hnz. apply Z.bits_inj'. intros n Hn. rewrite Z.shiftr_spec, Z.testbit_0_l by lia. destruct (Z.lt_ge_cases (n + idx) 32) as [Hlt|Hge].
    - destruct (Z.eq_dec n 0) as [->|]; [replace (0 + idx) with (idx + 0) by lia; apply Hlow; lia|]. pose proof (Hx (n + idx) ltac:(lia)) as H. rewrite E, Z.testbit_0_l in H.
      rewrite (proj2 (Z.ltb_lt _ _)), andb_true_r in H by lia. done.
    - destruct (Z.eq_dec sm 0) as [->|]; [apply Z.testbit_0_l|]. apply Z.bits_above_log2; [apply Hsm|]. assert (Z.log2 sm < 32) by (apply Z.log2_lt_pow2; destruct Hsm; lia). lia. }
  destruct (bit2idx_spec x ltac:(lia)) as (Hk & Hb & Hmin). set (i := compute_bit2idx (least_bit x)) in *. rewrite Hx in Hb by done. apply andb_true_iff in Hb as [Hb Hlt%Z.ltb_lt].
  assert (idx + 1 ≠ i) by (intros E; rewrite <- E, Hlow in Hb by lia; done). split_and!; try lia; [done|].
  intros j Hj. destruct (Z.eq_dec j idx) as [->|]; [replace idx with (idx + 0) by lia; apply Hlow; lia|].
  pose proof (Hmin j ltac:(lia)) as H'. rewrite Hx, (proj2 (Z.ltb_lt _ _)), andb_true_r in H' by lia. done.
Qed.

Lemma take_next_small_spec m h idx :
  heap_ok gm m h → 4 ≤ idx < 32 → (8 * idx) mod 16 = 0 → Z.land (Z.shiftr (smallmap m) idx) 3 = 0 → Z.shiftr (smallmap m) idx ≠ 0 → dvsize m < 256 →
  ∃ a m', take_next_small gm idx (Z.shiftr (smallmap m) idx) (8 * idx) m = Ok (a, m') ∧ malloced m h (8 * idx) a m'.
Proof.
  intros Hok Hi Hm16 H3 Hnz Hdv. assert (fits 32 (smallmap m)) as Hsm.
  { destruct (ho_bins _ _ _ Hok) as [_ _ _ (bins & trees & Hs & _)]. apply (so_range _ _ _ Hs). }
  destruct (next_small_bin _ idx Hsm ltac:(lia) H3 Hnz) as (Hr & Hb & _). unfold take_next_small. set (i := compute_bit2idx _) in *.
  destruct (take_first m h i Hok ltac:(lia) Hb) as (Ec & Ea & m1 & E & Ht). rewrite Ec, Z.eqb_refl. simpl. rewrite E, Ea. simpl. rewrite index2size_value by lia.
  rewrite (wrap_small 64) by (unfold fits; lia). set (p := mem m (fd (smallbin_at gm i))) in *.
  assert (∃ m2, split_chunk p (8 * idx) (8 * i - 8 * idx) (replace_dv gm) m1 = Ok m2 ∧ malloced m h (8 * idx) (p + 16) m2) as (m2 & E2 & Hm2).
  { destruct (Z.lt_ge_cases (8 * i - 8 * idx) 32); [apply (split_whole m); [done|lia]|apply (split_replace m); try done; lia]. }
  rewrite E2. simpl. eauto.
Qed.
End alloc.
