(* ===== verification/DlRequest.v ===== *)
(** * The kernel heap: requests

    [tmalloc_large], [tmalloc_small] and [dlmalloc] of mm/dlmalloc.cpp: a request is served
    from the heap whenever some chunk of it is large enough, and by the best fit among the
    large chunks. *)

From S2P Require Import Prelude Define DlBase DlSmall DlTree DlBins DlSys DlMalloc DlHeap DlFit DlAlloc.
Local Open Scope Z_scope.

Section request.
Context (gm : Z).

(** A free chunk for [nb] bytes, with [rsize] bytes to spare, such that no large chunk that
    fits is smaller. *)
Definition best_fit (free : gset (Z * Z)) (nb v rsize : Z) : Prop :=
  (v, nb + rsize) ∈ free ∧ 256 ≤ nb + rsize ∧ 0 ≤ rsize ∧ ∀ p s, (p, s) ∈ free → 256 ≤ s → nb ≤ s → nb + rsize ≤ s.

Lemma large_free m free :
  bins_ok gm m free → ∃ trees, tree_ok gm m trees ∧
  (∀ j x, 0 ≤ j < 32 → x ∈ nodes (trees j) → (x, chunksize (mem m) x) ∈ free ∧ 256 ≤ chunksize (mem m) x) ∧
  (∀ p s, (p, s) ∈ free → 256 ≤ s → s = chunksize (mem m) p ∧ ∃ j, 0 ≤ j < 32 ∧ p ∈ nodes (trees j)).
Proof.
  intros [_ _ _ (bins & trees & Hs & Ht & Hf)]. exists trees. split_and!; [done| |].
  - intros j x Hj Hx. destruct (to_chunk _ _ _ Ht j x Hj Hx) as (Hl & _). split; [apply Hf; right; eauto|apply Hl].
  - intros p s [(i & Hi & _ & ->)|(i & Hi & Hp & ->)]%Hf Hge; [lia|eauto].
Qed.

(** The searches find the best fit. *)
Lemma find_large_best m free nb :
  bins_ok gm m free → large nb → ∃ v rsize, find_large gm nb m = Ok (v, rsize) ∧ ((v = 0 ∧ ∀ p s, (p, s) ∈ free → s < nb) ∨ best_fit free nb v rsize).
Proof.
  intros Hok Hl. destruct (large_free m free Hok) as (trees & Ht & H1 & H2). unfold large in Hl. change MIN_LARGE_SIZE with 256 in Hl.
  destruct (find_large_spec gm m trees Ht nb ltac:(lia) Hl) as (v & r & E & Hr). exists v, r. split; [done|]. destruct Hr as [[-> Hn]|((k & Hk & Hv) & Ev & H0 & Hmin)]; [left|right].
  - split; [done|]. intros p s Hp. destruct (Z.lt_ge_cases s 256) as [|Hge]; [lia|]. destruct (H2 p s Hp Hge) as (-> & j & Hj & Hx). apply (Hn j); done.
  - destruct (H1 k v Hk Hv) as [Hin Hb]. rewrite Ev in *. split_and!; [done|done|done|]. intros p s Hp Hge Hfit. destruct (H2 p s Hp Hge) as (-> & j & Hj & Hx). apply (Hmin j); done.
Qed.

Lemma find_least_best m free nb :
  bins_ok gm m free → 0 < nb < 256 → treemap m ≠ 0 → ∃ v rsize, find_least gm nb m = Ok (v, rsize) ∧ best_fit free nb v rsize.
Proof.
  intros Hok Hnb Hz. destruct (large_free m free Hok) as (trees & Ht & H1 & H2).
  destruct (find_least_spec gm m trees Ht nb ltac:(lia) ltac:(lia) Hz) as (v & r & E & (k & Hk & Hv) & Ev & H0 & Hmin). exists v, r. split; [done|].
  destruct (H1 k v Hk Hv) as [Hin Hb]. rewrite Ev in *. split_and!; [done|done|done|]. intros p s Hp Hge Hfit. destruct (H2 p s Hp Hge) as (-> & j & Hj & Hx). apply (Hmin j); done.
Qed.

(** The chunk that was found is taken out of its trie. *)
Lemma take_best m h nb v rsize :
  heap_ok gm m h → 0 < nb → best_fit (of_kind Free h) nb v rsize →
  ok_address m v = true ∧ chunksize (mem m) v = u64 (rsize + nb) ∧ (v <? v + nb) = true ∧ chunk2mem v = v + 16 ∧ v ≠ 0 ∧ rsize < 2 ^ 40 ∧
  ∃ m1, unlink_large_chunk gm v m = Ok m1 ∧ taken gm m m1 h v (nb + rsize).
Proof.
  intros Hok Hnb (Hin & Hb & H0 & _). destruct (bins_sizes gm m _ v _ (ho_bins _ _ _ Hok) Hin) as (Ec & Hs & Ha). pose proof Hin as Hch. apply elem_of_kind in Hch.
  pose proof (chunk_facts gm _ _ _ _ _ (ho_layout _ _ _ Hok) Hch) as (F1 & _). destruct (block_addr gm _ _ _ _ _ (ho_layout _ _ _ Hok) Hch) as [Eb _].
  split_and!; [apply Z.leb_le; done|rewrite Ec, wrap_small; [lia|unfold fits; lia]|apply Z.ltb_lt; lia|done|lia|lia|].
  destruct (bins_unlink gm m _ v _ (ho_bins _ _ _ Hok) Hin) as (m1 & E & Hb1 & Hst). unfold unlink_chunk in E. rewrite small_value, (proj2 (Z.ltb_ge _ _)) in E by lia.
  exists m1. split; [done|]. apply taken_step; done.
Qed.

Lemma malloced_pos m h nb a m' : malloced gm m h nb a m' → 0 < a.
Proof.
  intros (h' & p & s & Hok & [Hu _] & _ & -> & _). assert ((p, s, Used) ∈ heap_chunks h') as Hin by (apply elem_of_kind; rewrite Hu; clear; set_solver).
  pose proof (chunk_facts gm _ _ _ _ _ (ho_layout _ _ _ Hok) Hin). lia.
Qed.

Lemma dv_range m h : heap_ok gm m h → 0 ≤ dvsize m < 2 ^ 40.
Proof.
  intros Hok. destruct (ho_dv _ _ _ Hok) as [(_ & -> & _)|[Hpos Hv]]; [lia|].
  assert ((dv m, dvsize m, Victim) ∈ heap_chunks h) as Hin by (apply elem_of_kind; rewrite Hv; apply elem_of_singleton; done).
  pose proof (chunk_facts gm _ _ _ _ _ (ho_layout _ _ _ Hok) Hin). lia.
Qed.

Lemma tmalloc_large_spec m h nb :
  heap_ok gm m h → large nb → nb mod 16 = 0 →
  (∃ a m', tmalloc_large gm nb m = Ok (a, m') ∧ malloced gm m h nb a m') ∨
  (tmalloc_large gm nb m = Ok (0, m) ∧ ∀ p s, (p, s) ∈ of_kind Free h → nb ≤ s → nb ≤ dvsize m ≤ s).
Proof.
  intros Hok Hl Hm. pose proof Hl as Hl'. unfold large in Hl'. change MIN_LARGE_SIZE with 256 in Hl'. unfold tmalloc_large.
  destruct (find_large_best m _ nb (ho_bins _ _ _ Hok) Hl) as (v & r & -> & [[-> Hn]|Hb]); cbn [mbind result_bind].
  { right. split; [done|]. intros p s Hp Hge. specialize (Hn p s Hp). lia. }
  destruct (take_best m h nb v r Hok ltac:(lia) Hb) as (E1 & E2 & E3 & E4 & E5 & E6 & m1 & E7 & Htk). rewrite (proj2 (Z.eqb_neq v 0)) by done. cbn [negb andb].
  pose proof (dv_range m h Hok) as Hdv. destruct (Z.ltb_spec r (u64 (dvsize m - nb))) as [Hlt|Hge].
  - left. rewrite E1, E2, Z.eqb_refl, E3, E4, E7. cbn [mbind result_bind cassert].
    assert (∃ m2, split_chunk v nb r (insert_chunk gm) m1 = Ok m2 ∧ malloced gm m h nb (v + 16) m2) as (m2 & E & Hm2).
    { destruct Hb as (_ & _ & H0 & _). destruct (Z.lt_ge_cases r 32); [destruct (split_whole gm m m1 h v (nb + r) nb (insert_chunk gm) Htk) as (m2 & E & ?)|destruct (split_insert gm m m1 h v (nb + r) nb Htk) as (m2 & E & ?)];
        try lia; replace (nb + r - nb) with r in E by lia; eauto. }
    rewrite E. cbn [mbind result_bind]. eauto.
  - right. split; [done|]. destruct Hb as (_ & _ & H0 & Hmin). intros p s Hp Hfit. destruct (Z.lt_ge_cases (dvsize m) nb) as [Hlo|Hhi].
    + unfold wrap in Hge. rewrite <- (Z.mod_unique (dvsize m - nb) (2 ^ 64) (-1) (2 ^ 64 + dvsize m - nb)) in Hge by lia. lia.
    + rewrite wrap_small in Hge by (unfold fits; lia). specialize (Hmin p s Hp ltac:(lia) Hfit). lia.
Qed.

Lemma tmalloc_small_spec m h nb :
  heap_ok gm m h → 32 ≤ nb < 256 → nb mod 16 = 0 → treemap m ≠ 0 → dvsize m < 256 → ∃ a m', tmalloc_small gm nb m = Ok (a, m') ∧ malloced gm m h nb a m'.
Proof.
  intros Hok Hnb Hm Hz Hdv. unfold tmalloc_small. destruct (find_least_best m _ nb (ho_bins _ _ _ Hok) ltac:(lia) Hz) as (v & r & -> & Hb). cbn [mbind result_bind].
  destruct (take_best m h nb v r Hok ltac:(lia) Hb) as (E1 & E2 & E3 & E4 & E5 & E6 & m1 & E7 & Htk). rewrite E1, E2, Z.eqb_refl, E3, E4, E7. cbn [mbind result_bind cassert].
  assert (∃ m2, split_chunk v nb r (replace_dv gm) m1 = Ok m2 ∧ malloced gm m h nb (v + 16) m2) as (m2 & E & Hm2).
  { destruct Hb as (_ & _ & H0 & _). destruct (Z.lt_ge_cases r 32); [destruct (split_whole gm m m1 h v (nb + r) nb (replace_dv gm) Htk) as (m2 & E & ?)|destruct (split_replace gm m m1 h v (nb + r) nb Htk) as (m2 & E & ?)];
      try lia; replace (nb + r - nb) with r in E by lia; eauto. }
  rewrite E. cbn [mbind result_bind]. eauto.
Qed.

(** ** The bins *)

(** The small bins for a size: the one of the size or the next, if one is marked. *)
Lemma exact_small sm idx :
  0 ≤ sm → 0 ≤ idx < 31 → Z.land (Z.shiftr sm idx) 3 ≠ 0 →
  let i := u32 (idx + Z.land (u32 (Z.lnot (Z.shiftr sm idx))) 1) in idx ≤ i ≤ idx + 1 ∧ Z.testbit sm i = true.
Proof.
  intros H0 Hi Hne. set (b := Z.shiftr sm idx) in *.
  assert (Z.land (u32 (Z.lnot b)) 1 = if Z.testbit b 0 then 0 else 1) as E.
  { change (Z.land (u32 (Z.lnot b)) 1) with (Z.land (u32 (Z.lnot b)) (Z.ones 1)). rewrite Z.land_ones by lia. change (2 ^ 1) with 2. rewrite <- Z.bit0_mod.
    unfold wrap. rewrite Z.mod_pow2_bits_low, Z.lnot_spec by lia. destruct (Z.testbit b 0); done. }
  rewrite E. cbn zeta. destruct (Z.testbit b 0) eqn:E0; rewrite wrap_small by (unfold fits; lia).
  - unfold b in E0. rewrite Z.shiftr_spec in E0 by lia. split; [lia|]. rewrite Z.add_0_r. done.
  - split; [lia|]. destruct (Z.testbit sm (idx + 1)) eqn:E1; [done|]. exfalso. apply Hne. apply Z.bits_inj'. intros n Hn. rewrite Z.land_spec, Z.testbit_0_l.
    destruct (Z.eq_dec n 0) as [->|]; [rewrite E0; done|]. destruct (Z.eq_dec n 1) as [->|]; [unfold b; rewrite Z.shiftr_spec, Z.add_comm, E1 by lia; done|].
    rewrite (Z.bits_above_log2 3 n), andb_false_r by (try lia; change (Z.log2 3) with 1; lia). done.
Qed.

Lemma small_none m free nb :
  bins_ok gm m free → 0 ≤ nb < 256 → nb mod 8 = 0 → Z.shiftr (smallmap m) (nb / 8) = 0 → ∀ p s, (p, s) ∈ free → s < 256 → s < nb.
Proof.
  intros Hok Hnb Hm Hz p s Hp Hs. destruct (Z.lt_ge_cases s nb) as [|Hge]; [done|]. exfalso. pose proof (Z.div_mod nb 8 ltac:(lia)). pose proof (bins_sizes gm m free p s Hok Hp) as (_ & Hs' & _).
  assert (s mod 8 = 0) as Hs8.
  { pose proof Hok as [_ _ _ (bins & trees & Hsm & Ht & Hf)]. apply Hf in Hp as [(i & Hi & _ & ->)|(i & Hi & Hp & ->)]; [rewrite Z.mul_comm; apply Z.mod_mul; lia|].
    destruct (to_chunk _ _ _ Ht i p Hi Hp) as ((? & _) & _). change MIN_LARGE_SIZE with 256 in *. lia. }
  pose proof (Z.div_mod s 8 ltac:(lia)) as Es. destruct (bins_small_bit gm m free (s / 8) Hok ltac:(lia)) as [[_ Hb] _].
  assert (Z.testbit (smallmap m) (s / 8) = true) as Hbit by (apply Hb; exists p; replace (8 * (s / 8)) with s by lia; done).
  replace (s / 8) with ((s / 8 - nb / 8) + nb / 8) in Hbit by lia. rewrite <- Z.shiftr_spec, Hz, Z.testbit_0_l in Hbit by lia. done.
Qed.

Lemma tree_none m free : bins_ok gm m free → treemap m = 0 → ∀ p s, (p, s) ∈ free → s < 256.
Proof.
  intros Hok Hz p s Hp. destruct (Z.lt_ge_cases s 256) as [|Hge]; [done|]. destruct (large_free m free Hok) as (trees & Ht & _ & H2). destruct (H2 p s Hp Hge) as (_ & j & Hj & Hx).
  pose proof (to_bit _ _ _ Ht j Hj) as Hb. rewrite Hz, Z.testbit_0_l in Hb. destruct (trees j); [apply elem_of_nil in Hx|]; done.
Qed.

(** The bins serve a request, or nothing has changed and, unless the designated victim can
    serve it, no free chunk can. *)
Lemma malloc_bins_spec m h bytes :
  heap_ok gm m h → 0 ≤ bytes < 2 ^ 39 → let nb := request2size bytes in
  (∃ a m', malloc_bins gm bytes m = Ok (Some a, nb, m') ∧ malloced gm m h nb a m') ∨
  (malloc_bins gm bytes m = Ok (None, nb, m) ∧ (dvsize m < nb → ∀ p s, (p, s) ∈ of_kind Free h → s < nb)).
Proof.
  intros Hok Hby nb. destruct (request2size_spec bytes) as (N1 & N2 & N3 & N4); [change MAX_REQUEST with (2 ^ 64 - 128); lia|]. fold nb in N1, N2, N3, N4.
  change MIN_CHUNK_SIZE with 32 in *. change CHUNK_OVERHEAD with 8 in *. change MALLOC_ALIGNMENT with 16 in *. pose proof (ho_bins _ _ _ Hok) as Hb.
  assert (fits 32 (smallmap m)) as Hsm. { destruct Hb as [_ _ _ (bins & trees & Hs & _)]. apply (so_range _ _ _ Hs). }
  unfold malloc_bins. change MAX_SMALL_REQUEST with 232. destruct (Z.leb_spec bytes 232) as [Hsmall|Hlarge].
  - fold nb. assert (nb < 256) as Hnb by lia. rewrite small_index_value by lia. pose proof (Z.div_mod nb 16 ltac:(lia)) as Ed. assert (nb / 8 = 2 * (nb / 16)) as E8 by (symmetry; apply (Z.div_unique nb 8 _ 0); lia).
    set (idx := nb / 8) in *. assert (nb = 8 * idx ∧ 4 ≤ idx < 31) as [En Hi] by lia. destruct (Z.eqb_spec (Z.land (Z.shiftr (smallmap m) idx) 3) 0) as [H3|H3]; cbn [negb].
    + destruct (Z.ltb_spec (dvsize m) nb) as [Hdv|Hdv]; [|right; split; [done|lia]]. destruct (Z.eqb_spec (Z.shiftr (smallmap m) idx) 0) as [Hz|Hz]; cbn [negb].
      * destruct (Z.eqb_spec (treemap m) 0) as [Htz|Htz]; cbn [negb].
        -- right. split; [done|]. intros _ p s Hp. pose proof (tree_none m _ Hb Htz p s Hp). apply (small_none m _ nb Hb) with p; try done; [lia|]. rewrite En, Z.mul_comm. apply Z.mod_mul. lia.
        -- left. destruct (tmalloc_small_spec m h nb Hok ltac:(lia) N1 Htz ltac:(lia)) as (a & m' & -> & Hm). cbn [mbind result_bind]. pose proof (malloced_pos _ _ _ _ _ Hm).
           rewrite (proj2 (Z.eqb_neq a 0)) by lia. eauto.
      * left. rewrite En. destruct (take_next_small_spec gm m h idx Hok ltac:(lia)) as (a & m' & -> & Hm); [rewrite <- En; done|done|done|lia|]. cbn [mbind result_bind]. eauto.
    + left. pose proof (exact_small (smallmap m) idx ltac:(apply Hsm) ltac:(lia) H3) as Hex. cbn zeta in Hex. set (i := u32 (idx + _)) in *. destruct Hex as [Hr Hbit].
      destruct (take_small_spec gm m h i nb Hok ltac:(lia) Hbit ltac:(lia)) as (a & m' & -> & Hm). cbn [mbind result_bind]. eauto.
  - change MAX_REQUEST with (2 ^ 64 - 128). rewrite (proj2 (Z.leb_gt _ _)) by lia. assert (pad_request bytes = nb) as -> by (unfold nb, request2size; rewrite (proj2 (Z.ltb_ge bytes MIN_REQUEST)); [done|change MIN_REQUEST with 23; lia]).
    assert (large nb) as Hl. { pose proof (Z.div_mod nb 16 ltac:(lia)). unfold large. change MIN_LARGE_SIZE with 256. lia. } unfold large in Hl. change MIN_LARGE_SIZE with 256 in Hl.
    destruct (Z.eqb_spec (treemap m) 0) as [Htz|Htz]; cbn [negb].
    + right. split; [done|]. intros _ p s Hp. pose proof (tree_none m _ Hb Htz p s Hp). lia.
    + destruct (tmalloc_large_spec m h nb Hok Hl N1) as [(a & m' & -> & Hm)|[-> Hn]]; cbn [mbind result_bind].
      * left. pose proof (malloced_pos _ _ _ _ _ Hm). rewrite (proj2 (Z.eqb_neq a 0)) by lia. eauto.
      * right. split; [done|]. intros Hdv p s Hp. destruct (Z.lt_ge_cases s nb) as [|Hge]; [done|]. specialize (Hn p s Hp Hge). lia.
Qed.

(** ** Requests *)

Section sys.
Context {W : Type} (mmap : Z → W → result (Z * W)) (segs : nat).

(** A request is served from the heap, or by the system when nothing in the heap is large
    enough. *)
Lemma dlmalloc_cases m h bytes s :
  heap_ok gm m h → 0 ≤ bytes < 2 ^ 39 → let nb := request2size bytes in
  (∃ a m', dlmalloc gm mmap segs bytes m s = Ok (a, m', s) ∧ malloced gm m h nb a m') ∨
  (dlmalloc gm mmap segs bytes m s = sys_alloc gm mmap segs nb m s ∧ dvsize m < nb ∧ topsize m ≤ nb ∧ ∀ p u, (p, u) ∈ of_kind Free h → u < nb).
Proof.
  intros Hok Hby nb. destruct (request2size_spec bytes) as (N1 & N2 & _); [change MAX_REQUEST with (2 ^ 64 - 128); lia|]. fold nb in N1, N2. change MIN_CHUNK_SIZE with 32 in *.
  unfold dlmalloc. destruct (malloc_bins_spec m h bytes Hok Hby) as [(a & m' & -> & Hm)|[-> Hn]]; fold nb; cbn [mbind result_bind]; [left; eauto|].
  fold nb in Hn. destruct (Z.leb_spec nb (dvsize m)) as [Hdv|Hdv].
  - left. pose proof (take_dv_spec gm m h nb Hok ltac:(lia) N1 Hdv) as Hm. destruct (take_dv nb m) as [a m']. eauto.
  - destruct (Z.ltb_spec nb (topsize m)) as [Ht|Ht]; [|right; split_and!; [done|lia|lia|exact (Hn Hdv)]].
    left. pose proof (split_top_spec gm m h nb Hok ltac:(lia) N1 Ht) as Hm. destruct (split_top nb m) as [a m']. eauto.
Qed.
End sys.
End request.
