(* ===== verification/DlFree.v ===== *)
(** * The kernel heap: release is right

    [dlfree] of mm/dlmalloc.cpp on the heap of DlHeap: a block that is given back joins the
    free chunks before and behind it, and the result is in a bin, the designated victim or
    part of the top chunk. *)

From S2P Require Import Prelude Define DlBase DlSmall DlTree DlBins DlSys DlMalloc DlHeap DlAlloc.
Local Open Scope Z_scope.

Section free.
Context (gm : Z).

(** ** What is behind a block *)

(** The chunk behind some tiles is in use, if only as the record of the segment. *)
Definition next_used (l : list (Z * kind)) (t : tail) : bool :=
  match l, t with [], TopTail _ => false | [], FenceTail _ _ => true | (_, k) :: _, _ => used k end.

Lemma next_used_ok l t : tiles_ok true l t → next_used l t = true → tiles_ok false l t.
Proof.
  destruct l as [|[s k] l]; [destruct t; done|]. simpl. intros (H1 & H2 & _ & H3) Hk. rewrite Hk in *. split_and!; done.
Qed.

(** Heads with a mark and a size. *)
Lemma head_flags w p s f :
  0 ≤ s < 2 ^ 63 → s mod 16 = 0 → 0 ≤ f < 4 → w (head_ p) = s + f →
  chunksize w p = s ∧ cinuse w p = (2 <=? f) ∧ pinuse w p = Z.odd f ∧ is_inuse w p = negb (f =? 1) ∧ is_mmapped w p = (f =? 0) ∧ (Z.land (w (head_ p)) INUSE_BITS =? INUSE_BITS) = (f =? 3).
Proof.
  intros Hs Hm Hf E. unfold chunksize, cinuse, pinuse, is_inuse, is_mmapped. rewrite E. rewrite head_size by lia.
  change CINUSE_BIT with 2. change PINUSE_BIT with 1. change INUSE_BITS with 3. rewrite !flag_bits by lia. split; [done|].
  assert (f = 0 ∨ f = 1 ∨ f = 2 ∨ f = 3) as [-> |[-> |[-> | ->]]] by lia; done.
Qed.

(** The state of the designated victim and the top chunk. *)
Definition ends_ok (m : mstate) (h : list segment) : Prop :=
  ((dv m = 0 ∧ dvsize m = 0 ∧ of_kind Victim h = ∅) ∨ (0 < dvsize m ∧ of_kind Victim h = {[(dv m, dvsize m)]})) ∧
  ((top m = 0 ∧ topsize m = 0 ∧ tops h = []) ∨ (0 < top m ∧ tops h = [(top m, topsize m)])).

Lemma heap_ok_ends m h : heap_ok gm m h → ends_ok m h.
Proof. intros [_ _ _ H1 H2]. done. Qed.

Lemma mid_heap_ok m h free : heap_mid gm m h free → free = of_kind Free h → ends_ok m h → heap_ok gm m h.
Proof. intros [H1 H2 H3 _] -> [H4 H5]. done. Qed.

(** The top chunk does not overlap the others. *)
Lemma top_apart least h x s k y u : layout gm least h → (x, s, k) ∈ heap_chunks h → (y, u) ∈ tops h → x + s ≤ y ∨ y + u + 32 ≤ x.
Proof.
  intros Hl Hx Hy. destruct (top_place _ _ _ Hy) as (q & -> & ->).
  assert (layout gm least (at_place q [(u + 32, Used)] (FenceTail 32 16))) as Hl'.
  { apply (at_place_layout gm _ _ [] (TopTail u)); [done|unfold total; simpl; rewrite foot_size; lia|]. simpl. intros (E1 & E2 & E3). split_and!; try done; try lia. rewrite Z.add_mod, E3 by lia. done. }
  rewrite at_place_chunks in Hx. simpl in Hx.
  assert ((addr_of q, u + 32, Used) ∈ heap_chunks (at_place q [(u + 32, Used)] (FenceTail 32 16))) as H1 by (rewrite at_place_chunks; left).
  destruct (heap_disjoint gm least _ x s k (addr_of q) (u + 32) Used Hl') as [H|H]; [rewrite at_place_chunks; by right|done| |lia|lia].
  intros [= -> -> ->]. apply (place_fresh gm least q [(u + 32, Used)] (FenceTail 32 16) (addr_of q) (u + 32) Used (addr_of q) (u + 32) Used Hl'); [left|done|done].
Qed.

(** The victim is the chunk that [dv] tells. *)
Lemma is_victim m h x s k :
  layout gm (least_addr m) h → ends_ok m h → (x, s, k) ∈ heap_chunks h → (x =? dv m) = bool_decide (k = Victim) ∧ (k = Victim → s = dvsize m).
Proof.
  intros Hl [Hd _] Hx. pose proof (chunk_facts gm _ _ _ _ _ Hl Hx) as (F1 & _). destruct Hd as [(-> & _ & Hv)|[Hpos Hv]].
  - rewrite (proj2 (Z.eqb_neq x 0)) by lia. assert (k ≠ Victim) as Hk by (intros ->; apply elem_of_kind in Hx; rewrite Hv in Hx; set_solver). rewrite bool_decide_eq_false_2 by done. done.
  - assert ((dv m, dvsize m, Victim) ∈ heap_chunks h) as Hin by (apply elem_of_kind; rewrite Hv; apply elem_of_singleton; done). destruct (Z.eqb_spec x (dv m)) as [->|Hne].
    + destruct (chunk_unique gm _ _ _ _ _ _ _ Hl Hx Hin) as [-> ->]. rewrite bool_decide_eq_true_2 by done. done.
    + assert (k ≠ Victim) as Hk by (intros ->; apply elem_of_kind in Hx; rewrite Hv in Hx; apply elem_of_singleton in Hx as [= -> _]; done). rewrite bool_decide_eq_false_2 by done. done.
Qed.

Lemma not_top m h x s k : layout gm (least_addr m) h → ends_ok m h → (x, s, k) ∈ heap_chunks h → (x =? top m) = false.
Proof.
  intros Hl [_ Ht] Hx. pose proof (chunk_facts gm _ _ _ _ _ Hl Hx) as (F1 & _ & F3 & _). apply Z.eqb_neq. destruct Ht as [(-> & _ & _)|[Hpos Ht]]; [lia|].
  destruct (top_apart _ _ _ _ _ (top m) (topsize m) Hl Hx) as [H|H]; [rewrite Ht; left|lia|].
  destruct (top_place h (top m) (topsize m)) as (q & Eh & Eq); [rewrite Ht; left|]. rewrite Eh in Hl. pose proof (at_place_ok gm _ _ _ _ Hl) as (_ & ? & _). lia.
Qed.

(** ** Joining tiles *)

(** Tiles that end with a block in use, behind a chunk in use. *)
Record joint (q : place) (L : list (Z * kind)) : Prop := {
  jo_pin : pin_of q = true;
  jo_last : last_used true L = true;
  jo_size : 32 ≤ total L;
  jo_mod : total L mod 16 = 0 }.

Lemma tiles_front pu l1 l2 t : tiles_ok pu (l1 ++ l2) t → tiles_ok pu l1 (FenceTail 32 16).
Proof. revert pu. induction l1 as [|[s k] l1 IH]; intros pu; simpl; [intros _; split_and!; done || lia|]. intros (H1 & H2 & H3 & H). split_and!; try done. apply IH, H. Qed.

Lemma place_low least q l t : layout gm least (at_place q l t) → 0 ≤ total (pre q).
Proof.
  intros Hl. pose proof (la_tiles _ _ _ Hl (Seg (pbase q) (pre q ++ l) t) ltac:(apply elem_of_app; right; left)) as Ht. apply (tiles_total _ _ _ (tiles_front _ _ _ _ Ht)).
Qed.

(** The chunk behind them. *)
Lemma next_head least q L l t :
  layout gm least (at_place q (L ++ l) t) → joint q L →
  tiles_ok true l t ∧ ∃ s rest, tile_cells (addr_of q + total L) true l t = (head_ (addr_of q + total L), s + (if next_used l t then 3 else 1)) :: rest ∧ 0 ≤ s < 2 ^ 40 ∧ s mod 16 = 0.
Proof.
  intros Hl [J1 J2 J3 J4]. pose proof (at_place_ok gm _ _ _ _ Hl) as Hok. rewrite J1 in Hok. apply tiles_ok_app in Hok. rewrite J2 in Hok. split; [done|].
  assert (total l + tail_size t < 2 ^ 40) as Hb.
  { destruct (ro_each _ _ _ (la_ranges _ _ _ Hl) (pbase q) (send (Seg (pbase q) (pre q ++ L ++ l) t))) as (_ & _ & He & _).
    - apply list_elem_of_fmap. exists (Seg (pbase q) (pre q ++ L ++ l) t). split; [done|]. apply elem_of_app. right. left.
    - unfold send in He. simpl in He. rewrite !total_app in He.
      pose proof (place_low _ _ _ _ Hl). lia. }
  destruct l as [|[s k] l].
  - destruct t as [s|r e]; simpl in *; [exists s, []; rewrite foot_size in *; split_and!; done || lia|]. exists r, [(head_ (addr_of q + total L + r), FENCEPOST_HEAD)]. change (total []) with 0 in Hb. split_and!; try done; try lia.
    unfold head_of. simpl. do 2 f_equal. lia.
  - exists s, (foot_cells (addr_of q + total L) s k ++ tile_cells (addr_of q + total L + s) (used k) l t). simpl in Hok. destruct Hok as (H1 & H2 & _ & H3). pose proof (tiles_total _ _ _ H3). pose proof (tiles_top _ _ _ H3).
    change (total ((s, k) :: l)) with (s + total l) in Hb. split_and!; try done; try lia. cbn [tile_cells next_used]. unfold head_of. destruct (used k); do 2 f_equal; lia.
Qed.

Lemma next_sat m q L l t free :
  heap_mid gm m (at_place q (L ++ l) t) free → joint q L → sat (mem m) (tile_cells (addr_of q + total L) true l t).
Proof.
  intros Hm [J1 J2 _ _]. pose proof (hm_cells _ _ _ _ Hm) as Hs. rewrite at_place_cells, sat_app in Hs. destruct Hs as [Hs _]. rewrite tile_cells_app, sat_app, J1, J2 in Hs. apply Hs.
Qed.

(** The block becomes free and what is behind it stays in use. *)
Lemma free_used m q L l t free k :
  heap_mid gm m (at_place q (L ++ l) t) free → joint q L → next_used l t = true → used k = false → free ⊆ of_kind Free (at_place q ((total L, k) :: l) t) →
  heap_mid gm (set_free_with_pinuse (addr_of q) (total L) (addr_of q + total L) m) (at_place q ((total L, k) :: l) t) free.
Proof.
  intros Hm HJ Hn Hk Hf. destruct (next_head _ _ _ _ _ (hm_layout _ _ _ _ Hm) HJ) as (Hok & s & rest & Ec & Hs & Hs16). rewrite Hn in Ec. pose proof (next_sat _ _ _ _ _ _ Hm HJ) as Hsat. rewrite Ec in Hsat.
  pose proof (next_used_ok _ _ Hok Hn) as Hok'. destruct (pin_cells (addr_of q + total L) l t Hok') as (s' & rest' & Ef & Et & _ & _ & _). rewrite Ec in Et. injection Et as Es <-. assert (s' = s) as -> by lia.
  destruct HJ as [J1 J2 J3 J4]. pose proof Hsat as Hsat'. rewrite sat_cons in Hsat'. destruct Hsat' as [Enx Hrest]. cbn [fst snd] in Enx. set (a := addr_of q) in *. set (n := total L) in *.
  set (us := [(head_ (a + n), s + 2); (head_ a, n + 1); (a + n, n)]).
  assert (set_free_with_pinuse a n (a + n) m = with_mem (set_free_with_pinuse a n (a + n) m) (writes (mem m) us)) as Em.
  { unfold set_free_with_pinuse, set_size_and_pinuse_of_free_chunk, clear_pinuse, puts, put, with_mem. simpl. unfold us. rewrite Enx, clear_pin, free_head_value by (done || lia). done. }
  eapply (write_place gm m _ q (L ++ l) t ((n, k) :: l) t us rest); [exact Hm| | | | |exact Em|done..|exact Hf].
  - rewrite total_app. change (total ((n, k) :: l)) with (n + total l). fold n. lia.
  - intros _. cbn [tiles_ok]. rewrite J1, Hk. split_and!; done.
  - rewrite J1, tile_cells_cons. fold a. unfold foot_cells, head_of. rewrite Hk, Ef. unfold us. cbn [app]. replace (n + 1 + 0) with (n + 1) by lia. solve_Permutation.
  - intros _. exact Hrest.
Qed.

(** It joins the free chunk behind it. *)
Lemma free_next m m' q L s2 k2 l t free k us :
  let n := total L + s2 in
  heap_mid gm m (at_place q (L ++ (s2, k2) :: l) t) free → joint q L → used k2 = false → used k = false →
  us = [(head_ (addr_of q), Z.lor n PINUSE_BIT); (addr_of q + n, n)] → m' = with_mem m' (writes (mem m) us) → smallmap m' = smallmap m → treemap m' = treemap m → least_addr m' = least_addr m →
  free ⊆ of_kind Free (at_place q ((n, k) :: l) t) → heap_mid gm m' (at_place q ((n, k) :: l) t) free.
Proof.
  intros n Hm HJ Hk2 Hk -> Em E1 E2 E3 Hf. destruct (next_head _ _ _ _ _ (hm_layout _ _ _ _ Hm) HJ) as (Hok & _). simpl in Hok. rewrite Hk2 in Hok. destruct Hok as (H1 & H2 & _ & H3).
  pose proof (next_sat _ _ _ _ _ _ Hm HJ) as Hsat. rewrite tile_cells_cons, sat_cons, sat_app, Hk2 in Hsat. destruct Hsat as (_ & _ & Hsat). destruct HJ as [J1 J2 J3 J4].
  assert (n mod 16 = 0) as Hn16 by (unfold n; rewrite Z.add_mod, J4, H2 by lia; done).
  eapply (write_place gm m m' q _ t ((n, k) :: l) t _ (tile_cells (addr_of q + n) false l t)); [exact Hm| | | | |exact Em|done..|exact Hf].
  - rewrite total_app. change (total ((n, k) :: l)) with (n + total l). change (total ((s2, k2) :: l)) with (s2 + total l). lia.
  - intros _. cbn [tiles_ok]. rewrite J1, Hk. split_and!; try done. unfold n. lia.
  - rewrite J1, tile_cells_cons. unfold foot_cells, head_of. rewrite Hk, free_head_value by done. cbn [app]. replace (n + 1 + 0) with (n + 1) by lia. done.
  - intros _. unfold n. rewrite Z.add_assoc. exact Hsat.
Qed.

(** It joins the top chunk. *)
Lemma free_top m m' q L s2 free :
  let n := s2 + total L in
  heap_mid gm m (at_place q (L ++ []) (TopTail s2)) free → joint q L → m' = with_mem m' (writes (mem m) [(head_ (addr_of q), Z.lor n PINUSE_BIT)]) →
  smallmap m' = smallmap m → treemap m' = treemap m → least_addr m' = least_addr m →
  free ⊆ of_kind Free (at_place q [] (TopTail n)) → heap_mid gm m' (at_place q [] (TopTail n)) free.
Proof.
  intros n Hm HJ Em E1 E2 E3 Hf. destruct (next_head _ _ _ _ _ (hm_layout _ _ _ _ Hm) HJ) as ((_ & H1 & H2) & _). destruct HJ as [J1 J2 J3 J4].
  assert (n mod 16 = 0) as Hn16 by (unfold n; rewrite Z.add_mod, J4, H2 by lia; done).
  eapply (write_place gm m m' q _ _ [] (TopTail n) _ []); [exact Hm| | | |constructor|exact Em|done..|exact Hf].
  - rewrite app_nil_r. unfold n. simpl. change (total []) with 0. lia.
  - intros _. simpl. rewrite J1. split_and!; [done|unfold n; lia|done].
  - rewrite J1. simpl. rewrite free_head_value by done. done.
Qed.

(** ** The chunk before the block *)

Lemma place_before least q0 s l t :
  layout gm least (at_place q0 ((s, Used) :: l) t) → pin_of q0 = false →
  ∃ q ps k, used k = false ∧ at_place q0 ((s, Used) :: l) t = at_place q ([(ps, k); (s, Used)] ++ l) t ∧ addr_of q0 = addr_of q + ps ∧ joint q [(ps, k); (s, Used)].
Proof.
  intros Hl Hp. destruct (pre q0) as [|e L _] eqn:Ep using rev_ind; [unfold pin_of in Hp; rewrite Ep in Hp; done|]. destruct e as [ps k].
  assert (used k = false) as Hk by (unfold pin_of, last_used in Hp; rewrite Ep, foldl_app in Hp; exact Hp). set (q := Place (pre_segs q0) (pbase q0) L (post_segs q0)).
  assert (at_place q0 ((s, Used) :: l) t = at_place q ([(ps, k); (s, Used)] ++ l) t) as E by (unfold at_place; rewrite Ep, <- app_assoc; done).
  exists q, ps, k. split; [done|]. split; [done|]. split; [unfold addr_of; rewrite Ep, total_app; unfold total; simpl; lia|].
  rewrite E in Hl. pose proof (at_place_ok gm _ _ _ _ Hl) as Hok. simpl in Hok. destruct Hok as (H1 & H2 & H3 & H4 & H5 & _). unfold total. split; [auto|done|simpl; lia|].
  simpl. rewrite Z.add_0_r, Z.add_mod, H2, H5 by lia. done.
Qed.

(** The state when the block [(p, s)] has joined the free chunk before it, which is in no
    bin any more. *)
Record joined (m m1 : mstate) (h : list segment) (p s : Z) (q : place) (L l : list (Z * kind)) (t : tail) : Prop := {
  jd_heap : h = at_place q (L ++ l) t;
  jd_joint : joint q L;
  jd_end : addr_of q + total L = p + s;
  jd_used : kinds Used (addr_of q) L = {[(p, s)]};
  jd_victim : kinds Victim (addr_of q) L = if addr_of q =? dv m1 then {[(dv m1, dvsize m1)]} else ∅;
  jd_mid : heap_mid gm m1 h (of_kind Free h ∖ kinds Free (addr_of q) L);
  jd_kept : kept h (mem m) (mem m1);
  jd_ends : ends_ok m1 h;
  jd_same : release_checks m1 = release_checks m ∧ trim_check m1 = trim_check m }.

Section sys.
Context {W : Type} (munmap : Z → Z → W → result (Z * W)) (segs : nat).

Lemma kinds_two k a s1 k1 s2 k2 :
  kinds k a [(s1, k1); (s2, k2)] = (if decide (k1 = k) then {[(a, s1)]} else ∅) ∪ (if decide (k2 = k) then {[(a + s1, s2)]} else ∅).
Proof. rewrite !kinds_cons, kinds_nil. set_solver. Qed.

Lemma kept_refl h w : kept h w w.
Proof. intros q t x _ _. done. Qed.

Lemma free_backward_spec m h p s w :
  heap_ok gm m h → (p, s, Used) ∈ heap_chunks h →
  ∃ m1 q L l t, joined m m1 h p s q L l t ∧
  ((free_backward gm munmap p s (p + s) m w = Ok (inr (addr_of q, total L, m1, w)) ∧ (next_used l t = true → (addr_of q =? dv m1) = false)) ∨
   (next_used l t = true ∧ addr_of q = dv m ∧ m1 = m ∧
    free_backward gm munmap p s (p + s) m w = Ok (inl (set_free_with_pinuse (addr_of q) (total L) (p + s) (with_dv m (dv m) (total L)), w)))).
Proof.
  intros Hok Hin. pose proof (ho_layout _ _ _ Hok) as Hl. pose proof (chunk_facts gm _ _ _ _ _ Hl Hin) as (F1 & F2 & F3 & F4 & F5 & F6). pose proof (heap_ok_ends _ _ Hok) as He.
  destruct (is_victim m h p s Used Hl He Hin) as [Hv _]. rewrite bool_decide_eq_false_2 in Hv by done.
  destruct (chunk_place _ _ _ _ Hin) as (q0 & l & t & Eh & ->). pose proof (ho_cells _ _ _ Hok) as Hs. rewrite Eh, at_place_cells, sat_app, tile_cells_cons, sat_cons in Hs. destruct Hs as ((Ehd & _) & _). cbn [fst snd] in Ehd.
  unfold free_backward. destruct (pin_of q0) eqn:Ep.
  - destruct (head_flags (mem m) (addr_of q0) s 3 ltac:(lia) F4 ltac:(lia)) as (_ & _ & -> & _); [rewrite Ehd; unfold head_of; simpl; lia|]. simpl.
    exists m, q0, [(s, Used)], l, t. split.
    + split; [done| |unfold total; simpl; lia|rewrite kinds_cons, kinds_nil, decide_True by done; set_solver|rewrite Hv; done| |apply kept_refl|done|done].
      * split; [done|done|unfold total; simpl; lia|unfold total; simpl; rewrite Z.add_0_r; done].
      * rewrite kinds_cons, kinds_nil, decide_False by done. replace (of_kind Free h ∖ (∅ ∪ ∅)) with (of_kind Free h) by set_solver. apply heap_ok_mid, Hok.
    + left. unfold total. simpl. rewrite Z.add_0_r. done.
  - destruct (head_flags (mem m) (addr_of q0) s 2 ltac:(lia) F4 ltac:(lia)) as (_ & _ & -> & _ & -> & _); [rewrite Ehd; unfold head_of; simpl; lia|]. cbn [Z.odd negb Z.eqb].
    rewrite Eh in Hl. destruct (place_before _ _ _ _ _ Hl Ep) as (q & ps & k & Hk & E & Ea & HJ). rewrite E in Eh. rewrite E in Hl. rewrite <- Eh in Hl.
    assert ((addr_of q, ps, k) ∈ heap_chunks h) as Hq by (rewrite Eh, at_place_chunks; left). pose proof (chunk_facts gm _ _ _ _ _ Hl Hq) as (G1 & G2 & G3 & G4 & G5 & G6).
    destruct (free_head _ _ _ _ _ (ho_cells _ _ _ Hok) (la_tiles _ _ _ Hl) Hq Hk) as [_ Efoot]. unfold prev_foot. rewrite Ea, Efoot. replace (addr_of q + ps - ps) with (addr_of q) by lia.
    rewrite (wrap_small 64) by (unfold fits; lia). replace (s + ps) with (total [(ps, k); (s, Used)]) by (unfold total; simpl; lia). set (L := [(ps, k); (s, Used)]) in *.
    unfold ok_address. rewrite (proj2 (Z.leb_le _ _)) by lia. destruct (is_victim m h (addr_of q) ps k Hl He Hq) as [Hvk Hvs].
    assert (kinds Used (addr_of q) L = {[(addr_of q + ps, s)]}) as Eu by (unfold L; rewrite kinds_two; rewrite decide_False by (intros ->; done); rewrite decide_True by done; set_solver).
    assert (addr_of q + total L = addr_of q + ps + s) as Een by (unfold L, total; simpl; lia). destruct (next_head _ _ _ _ _ ltac:(rewrite <- Eh; exact Hl) HJ) as (_ & s2 & rest & Ec & B1 & B2).
    pose proof (next_sat m q L l t _ ltac:(rewrite <- Eh; apply heap_ok_mid, Hok) HJ) as Hsn. rewrite Ec, sat_cons in Hsn. destruct Hsn as [Enx _]. cbn [fst snd] in Enx.
    destruct (head_flags (mem m) (addr_of q + total L) s2 (if next_used l t then 3 else 1) ltac:(lia) B2 ltac:(destruct (next_used l t); lia) Enx) as (_ & _ & _ & _ & _ & Ein). rewrite Een in Ein.
    destruct (addr_of q =? dv m) eqn:Edv; cbn [negb].
    + assert (k = Victim) as -> by (apply (bool_decide_eq_true_1 (k = Victim)); congruence). apply Z.eqb_eq in Edv. rewrite (Hvs eq_refl) in *.
      exists m, q, L, l, t. split.
      * split; [done|done|done|done| | |apply kept_refl|done|done].
        -- rewrite Edv, Z.eqb_refl. unfold L. rewrite kinds_two, decide_True, decide_False by done. set_solver.
        -- unfold L. rewrite kinds_two, !decide_False by done. replace (of_kind Free h ∖ (∅ ∪ ∅)) with (of_kind Free h) by set_solver. apply heap_ok_mid, Hok.
      * rewrite Ein. destruct (next_used l t); cbn [Z.eqb Pos.eqb]; [right; done|left; done].
    + assert (k = Free) as -> by (destruct k; [done|done|rewrite bool_decide_eq_true_2 in Hvk by done; done]).
      assert ((addr_of q, ps) ∈ of_kind Free h) as Hf by (apply elem_of_kind; done). destruct (bins_unlink gm m _ _ _ (ho_bins _ _ _ Hok) Hf) as (m1 & -> & Hb1 & Hst). cbn [mbind result_bind].
      pose proof (taken_step gm m m1 h _ _ Hok Hf Hb1 Hst) as [_ _ T1 T2 [T3 T4] [T5 T6]]. exists m1, q, L, l, t. split.
      * split; [done|done|done|done| | |done| |].
        -- rewrite T3, Edv. unfold L. rewrite kinds_two, !decide_False by done. set_solver.
        -- unfold L. rewrite kinds_two, decide_True, decide_False by done. replace ({[(addr_of q, ps)]} ∪ ∅ : gset (Z * Z)) with ({[(addr_of q, ps)]} : gset (Z * Z)) by set_solver. done.
        -- unfold ends_ok. rewrite T3, T4, T5, T6. done.
        -- destruct Hst as [_ ->]. done.
      * left. split; [done|]. rewrite T3. done.
Qed.

(** ** Putting the chunk away *)

(** The block is not in use any more, and the others are as before. *)
Definition freed (m : mstate) (h : list segment) (p s : Z) (m' : mstate) : Prop :=
  ∃ h', heap_ok gm m' h' ∧ of_kind Used h' = of_kind Used h ∖ {[(p, s)]} ∧ kept h' (mem m) (mem m').

(** The call ends in the state [m'], or goes on from there to give memory back to the
    system. *)
Definition ended (r : result (mstate * W)) (m' : mstate) (w : W) : Prop :=
  r = Ok (m', w) ∨
  (release_checks m' = 0 ∧ r = ('(_, m, w) ← release_unused_segments gm munmap segs m' w; Ok (m, w))) ∨
  (trim_check m' < topsize m' ∧ r = ('(_, m, w) ← sys_trim gm munmap segs 0 m' w; Ok (m, w))).

Lemma free_bin_spec m h' free a n w :
  heap_mid gm m h' free → of_kind Free h' = {[(a, n)]} ∪ free → (a, n) ∉ free → ends_ok m h' →
  ∃ m', ended (free_bin gm munmap segs a n m w) m' w ∧ heap_ok gm m' h' ∧ kept h' (mem m) (mem m').
Proof.
  intros Hm Ef Hn He. pose proof (hm_layout _ _ _ _ Hm) as Hl. assert ((a, n, Free) ∈ heap_chunks h') as Hin by (apply elem_of_kind; rewrite Ef; clear; set_solver).
  pose proof (chunk_facts gm _ _ _ _ _ Hl Hin) as (_ & _ & F3 & _). destruct (mid_insert gm m h' free a n Hm Hin Hn) as (m1 & E & Hm1 & Hst). destruct (step_fields _ _ _ _ Hst) as ([S1 S2] & [S3 S4] & S5).
  assert (heap_ok gm m1 h') as Hok1 by (apply (mid_heap_ok m1 h' _ Hm1); [done|]; unfold ends_ok; rewrite S1, S2, S3, S4; done).
  assert (kept h' (mem m) (mem m1)) as Hk.
  { eapply (kept_bins gm (least_addr m) h' m m1); [exact Hl| |exact Hst]. intros p u [[= -> ->]%elem_of_singleton|Hp%(hm_free _ _ _ _ Hm)]%elem_of_union; exists Free; [done|]. split; [apply elem_of_kind; done|done]. }
  unfold free_bin. unfold insert_chunk in E. destruct (is_small n); rewrite E; cbn [mbind result_bind]; [exists m1; split; [by left|done]|].
  set (m2 := with_release m1 _). assert (heap_ok gm m2 h') as Hok2.
  { destruct Hok1 as [A1 A2 A3 A4 A5]. split; try done. apply (bins_ok_same gm m1); done. }
  exists m2. split; [|done]. destruct (Z.eqb_spec (release_checks m2) 0); [right; left; done|by left].
Qed.

(** A chunk that begins where the joined tiles begin is one of them. *)
Lemma joined_fresh m m1 h p s q L l t n : joined m m1 h p s q L l t → (addr_of q, n) ∉ of_kind Free h ∖ kinds Free (addr_of q) L.
Proof.
  intros [-> [_ _ J3 _] _ _ _ Hm _ _ _] [Hin Hnot]%elem_of_difference. apply elem_of_kind in Hin. destruct L as [|[s0 k0] L]; [change (total []) with 0 in J3; lia|].
  destruct (chunk_unique gm _ _ _ _ _ s0 k0 (hm_layout _ _ _ _ Hm) Hin) as [-> <-]; [rewrite at_place_chunks; left|]. apply Hnot, elem_kinds. left.
Qed.

(** The new layout when the joined tiles are replaced by one chunk. *)
Lemma joined_kinds m m1 h p s q L l t l0 k :
  joined m m1 h p s q (L) (l0 ++ l) t →
  let n := total (L ++ l0) in let h' := at_place q ((n, k) :: l) t in
  used k = false → (∀ e, e ∈ l0 → used e.2 = false) →
  of_kind Used h' = of_kind Used h ∖ {[(p, s)]} ∧ tops h' = tops h ∧
  of_kind Free h' = (if decide (k = Free) then {[(addr_of q, n)]} else ∅) ∪ (of_kind Free h ∖ kinds Free (addr_of q) L ∖ kinds Free (addr_of q + total L) l0) ∧
  of_kind Victim h' = (if decide (k = Victim) then {[(addr_of q, n)]} else ∅) ∪ (of_kind Victim h ∖ kinds Victim (addr_of q) L ∖ kinds Victim (addr_of q + total L) l0).
Proof.
  intros HJ n h' Hk Hl0. pose proof (jd_heap _ _ _ _ _ _ _ _ _ HJ) as Eh. pose proof (hm_layout _ _ _ _ (jd_mid _ _ _ _ _ _ _ _ _ HJ)) as Hl. rewrite Eh, app_assoc in Hl.
  assert (∀ j, kinds j (addr_of q) (L ++ l0) = kinds j (addr_of q) L ∪ kinds j (addr_of q + total L) l0) as Happ.
  { intros j. apply set_eq. intros [x u]. rewrite elem_of_union, !elem_kinds, chunks_app, elem_of_app. done. }
  assert (kinds Used (addr_of q + total L) l0 = ∅) as Hu0.
  { apply set_eq. intros [x u]. rewrite elem_kinds. split; [|clear; set_solver]. intros Hin. exfalso. destruct (chunk_in _ _ _ _ _ Hin) as (l1 & l2 & -> & _).
    specialize (Hl0 (u, Used) ltac:(apply elem_of_app; right; left)). done. }
  pose proof (λ j, kind_replace gm _ j q (L ++ l0) l [(n, k)] t t Hl ltac:(unfold total at 2; simpl; lia)) as Hr. simpl app in Hr. fold h' in Hr. rewrite <- app_assoc, <- Eh in Hr.
  split_and!.
  - rewrite Hr, Happ, Hu0, (jd_used _ _ _ _ _ _ _ _ _ HJ), kinds_cons, kinds_nil. rewrite decide_False by (intros ->; done). clear. set_solver.
  - rewrite Eh. unfold h'. apply tops_replace. unfold n. change (total ((total (L ++ l0), k) :: l)) with (total (L ++ l0) + total l). rewrite !total_app. lia.
  - rewrite Hr, Happ, kinds_cons, kinds_nil. clear. set_solver.
  - rewrite Hr, Happ, kinds_cons, kinds_nil. clear. set_solver.
Qed.

Lemma kept_mono h h' w w' : of_kind Used h' ⊆ of_kind Used h → kept h w w' → kept h' w w'.
Proof. intros Hsub Hk q t x Hq Hx. apply (Hk q t x); [|done]. apply elem_of_kind, Hsub, elem_of_kind, Hq. Qed.

Lemma next_marks m q L l t free :
  heap_mid gm m (at_place q (L ++ l) t) free → joint q L →
  ((addr_of q <? addr_of q + total L) && pinuse (mem m) (addr_of q + total L)) = true ∧ cinuse (mem m) (addr_of q + total L) = next_used l t.
Proof.
  intros Hm HJ. destruct (next_head _ _ _ _ _ (hm_layout _ _ _ _ Hm) HJ) as (_ & s & rest & Ec & B1 & B2). pose proof (next_sat _ _ _ _ _ _ Hm HJ) as Hs. rewrite Ec, sat_cons in Hs. destruct Hs as [Enx _].
  destruct (head_flags (mem m) (addr_of q + total L) s (if next_used l t then 3 else 1) ltac:(lia) B2 ltac:(destruct (next_used l t); lia) Enx) as (_ & -> & -> & _).
  pose proof (jo_size _ _ HJ). rewrite (proj2 (Z.ltb_lt _ _)) by lia. destruct (next_used l t); done.
Qed.

Definition freeing (m : mstate) (h : list segment) (p s : Z) (w : W) (r : result (mstate * W)) : Prop := ∃ m', ended r m' w ∧ freed m h p s m'.

(** The chunk goes to a bin. *)
Lemma freeing_bin m m1 m2 h p s q L l0 l t w :
  let n := total (L ++ l0) in let h' := at_place q ((n, Free) :: l) t in
  joined m m1 h p s q L (l0 ++ l) t → (∀ e, e ∈ l0 → used e.2 = false) → (addr_of q =? dv m1) = false → kinds Victim (addr_of q + total L) l0 = ∅ →
  heap_mid gm m2 h' (of_kind Free h ∖ kinds Free (addr_of q) L ∖ kinds Free (addr_of q + total L) l0) → kept h' (mem m1) (mem m2) →
  dv m2 = dv m1 ∧ dvsize m2 = dvsize m1 → top m2 = top m1 ∧ topsize m2 = topsize m1 → freeing m h p s w (free_bin gm munmap segs (addr_of q) n m2 w).
Proof.
  intros n h' HJ Hl0 Hdv Hv0 Hm2 Hk [E1 E2] [E3 E4]. destruct (joined_kinds _ _ _ _ _ _ _ _ _ _ Free HJ eq_refl Hl0) as (Ku & Kt & Kf & Kv). fold n h' in Ku, Kt, Kf, Kv. rewrite decide_True in Kf by done. rewrite decide_False in Kv by done.
  pose proof (jd_victim _ _ _ _ _ _ _ _ _ HJ) as Hv. rewrite Hdv in Hv.
  destruct (free_bin_spec m2 h' _ (addr_of q) n w Hm2 Kf) as (m3 & Hend & Hok & Hk3).
  - intros [Hbad _]%elem_of_difference. apply (joined_fresh _ _ _ _ _ _ _ _ _ _ HJ Hbad).
  - unfold ends_ok. rewrite E1, E2, E3, E4, Kt, Kv, Hv, Hv0. replace (∅ ∪ of_kind Victim h ∖ ∅ ∖ ∅) with (of_kind Victim h) by (clear; set_solver). apply (jd_ends _ _ _ _ _ _ _ _ _ HJ).
  - exists m3. split; [done|]. exists h'. split_and!; [done|done|]. apply (kept_trans _ _ (mem m1)); [|apply (kept_trans _ _ (mem m2)); done].
    apply (kept_mono h); [rewrite Ku; clear; set_solver|apply (jd_kept _ _ _ _ _ _ _ _ _ HJ)].
Qed.

(** The chunk is the designated victim. *)
Lemma freeing_victim m m1 m2 h p s q L l0 l t w :
  let n := total (L ++ l0) in let h' := at_place q ((n, Victim) :: l) t in
  joined m m1 h p s q L (l0 ++ l) t → (∀ e, e ∈ l0 → used e.2 = false) → of_kind Victim h ⊆ kinds Victim (addr_of q) L ∪ kinds Victim (addr_of q + total L) l0 →
  heap_mid gm m2 h' (of_kind Free h ∖ kinds Free (addr_of q) L ∖ kinds Free (addr_of q + total L) l0) → kept h' (mem m1) (mem m2) →
  dv m2 = addr_of q ∧ dvsize m2 = n → top m2 = top m1 ∧ topsize m2 = topsize m1 → freeing m h p s w (Ok (m2, w)).
Proof.
  intros n h' HJ Hl0 Hsub Hm2 Hk [E1 E2] [E3 E4]. destruct (joined_kinds _ _ _ _ _ _ _ _ _ _ Victim HJ eq_refl Hl0) as (Ku & Kt & Kf & Kv). fold n h' in Ku, Kt, Kf, Kv. rewrite decide_False in Kf by done. rewrite decide_True in Kv by done.
  exists m2. split; [by left|]. exists h'. split_and!; [|done|].
  - apply (mid_heap_ok m2 h' _ Hm2); [rewrite Kf; clear; set_solver|]. split.
    + right. rewrite E1, E2, Kv. split; [|clear -Hsub; set_solver]. pose proof (hm_layout _ _ _ _ Hm2) as Hl. pose proof (chunk_facts gm _ _ _ _ _ Hl (place_in q n Victim l t)). lia.
    + rewrite E3, E4, Kt. apply (jd_ends _ _ _ _ _ _ _ _ _ HJ).
  - apply (kept_trans _ _ (mem m1)); [|done]. apply (kept_mono h); [rewrite Ku; clear; set_solver|apply (jd_kept _ _ _ _ _ _ _ _ _ HJ)].
Qed.

(** Writes from the head of the new chunk to the head behind it. *)
Lemma kept_new m h' free q n k l t w w' :
  heap_mid gm m h' free → h' = at_place q ((n, k) :: l) t → used k = false → (∀ x, x < addr_of q + 8 ∨ addr_of q + n + 8 < x → w' x = w x) → kept h' w w'.
Proof.
  intros Hm -> Hk Hw. apply (kept_outside _ _ _ (addr_of q) n); [|done]. apply (apart_used gm _ _ _ _ _ (hm_layout _ _ _ _ Hm) (place_in q n k l t) Hk).
Qed.

(** ** The chunk behind the block *)

Lemma forward_used m m1 h p s q L l t w :
  joined m m1 h p s q L l t → next_used l t = true → (addr_of q =? dv m1) = false → freeing m h p s w (free_forward gm munmap segs (addr_of q) (total L) (addr_of q + total L) m1 w).
Proof.
  intros HJ Hn Hdv. pose proof (jd_mid _ _ _ _ _ _ _ _ _ HJ) as Hm. pose proof (jd_heap _ _ _ _ _ _ _ _ _ HJ) as Eh. rewrite Eh in Hm at 1. pose proof (jd_joint _ _ _ _ _ _ _ _ _ HJ) as Hj.
  destruct (next_marks _ _ _ _ _ _ Hm Hj) as [E1 E2]. unfold free_forward. rewrite E1, E2, Hn. cbn [negb].
  destruct (joined_kinds m m1 h p s q L l t [] Free HJ eq_refl ltac:(intros e []%elem_of_nil)) as (_ & _ & Kf & _). rewrite app_nil_r, decide_True, kinds_nil in Kf by done.
  assert (heap_mid gm (set_free_with_pinuse (addr_of q) (total L) (addr_of q + total L) m1) (at_place q ((total L, Free) :: l) t) (of_kind Free h ∖ kinds Free (addr_of q) L)) as Hm2.
  { apply free_used; try done. rewrite Kf. clear. set_solver. }
  rewrite <- (app_nil_r L) at 1 3. apply (freeing_bin m m1 _ h p s q L [] l t w); rewrite ?app_nil_r; try done; [intros e []%elem_of_nil| |].
  - rewrite kinds_nil. replace (of_kind Free h ∖ kinds Free (addr_of q) L ∖ ∅) with (of_kind Free h ∖ kinds Free (addr_of q) L) by (clear; set_solver). done.
  - pose proof (jo_size _ _ Hj). apply (kept_new _ _ _ q (total L) Free l t _ _ Hm2); [done|done|written].
Qed.

Lemma forward_used_victim m h p s q L l t w :
  joined m m h p s q L l t → next_used l t = true → addr_of q = dv m →
  freeing m h p s w (Ok (set_free_with_pinuse (addr_of q) (total L) (addr_of q + total L) (with_dv m (dv m) (total L)), w)).
Proof.
  intros HJ Hn Hdv. pose proof (jd_mid _ _ _ _ _ _ _ _ _ HJ) as Hm. pose proof (jd_heap _ _ _ _ _ _ _ _ _ HJ) as Eh. rewrite Eh in Hm at 1. pose proof (jd_joint _ _ _ _ _ _ _ _ _ HJ) as Hj.
  destruct (joined_kinds m m h p s q L l t [] Victim HJ eq_refl ltac:(intros e []%elem_of_nil)) as (_ & _ & Kf & _). rewrite app_nil_r, decide_False, kinds_nil in Kf by done.
  set (m2 := set_free_with_pinuse _ _ _ _).
  assert (heap_mid gm m2 (at_place q ((total L, Victim) :: l) t) (of_kind Free h ∖ kinds Free (addr_of q) L)) as Hm2.
  { apply free_used; try done; [|rewrite Kf; clear; set_solver]. apply (mid_same gm m); done. }
  apply (freeing_victim m m m2 h p s q L [] l t w); rewrite ?app_nil_r; try done; [intros e []%elem_of_nil| | |].
  - rewrite kinds_nil, (jd_victim _ _ _ _ _ _ _ _ _ HJ), Hdv, Z.eqb_refl. pose proof (jd_ends _ _ _ _ _ _ _ _ _ HJ) as [[(_ & _ & ->)|[_ ->]] _]; clear; set_solver.
  - rewrite kinds_nil. replace (of_kind Free h ∖ kinds Free (addr_of q) L ∖ ∅) with (of_kind Free h ∖ kinds Free (addr_of q) L) by (clear; set_solver). done.
  - pose proof (jo_size _ _ Hj). apply (kept_new _ _ _ q (total L) Victim l t _ _ Hm2); [done|done|subst m2; written].
Qed.

Lemma joined_bound m m1 h p s q L l t : joined m m1 h p s q L l t → total L < 2 ^ 62.
Proof.
  intros HJ. pose proof (jd_mid _ _ _ _ _ _ _ _ _ HJ) as Hm. pose proof (jd_heap _ _ _ _ _ _ _ _ _ HJ) as Eh. rewrite Eh in Hm at 1. pose proof (next_head _ _ _ _ _ (hm_layout _ _ _ _ Hm) (jd_joint _ _ _ _ _ _ _ _ _ HJ)) as (Hok & _).
  destruct (ro_each _ _ _ (la_ranges _ _ _ (hm_layout _ _ _ _ Hm)) (pbase q) (send (Seg (pbase q) (pre q ++ L ++ l) t))) as (_ & _ & He & _).
  - apply list_elem_of_fmap. exists (Seg (pbase q) (pre q ++ L ++ l) t). split; [done|]. apply elem_of_app. right. left.
  - unfold send in He. simpl in He. rewrite !total_app in He. pose proof (tiles_total _ _ _ Hok). pose proof (tiles_top _ _ _ Hok). pose proof (place_low _ _ _ _ (hm_layout _ _ _ _ Hm)). lia.
Qed.

(** What is behind the block is the top chunk. *)
Lemma forward_top m m1 h p s q L s2 w :
  joined m m1 h p s q L [] (TopTail s2) → freeing m h p s w (free_forward gm munmap segs (addr_of q) (total L) (addr_of q + total L) m1 w).
Proof.
  intros HJ. pose proof (jd_mid _ _ _ _ _ _ _ _ _ HJ) as Hm. pose proof (jd_heap _ _ _ _ _ _ _ _ _ HJ) as Eh. rewrite Eh in Hm at 1. pose proof (jd_joint _ _ _ _ _ _ _ _ _ HJ) as Hj. pose proof (jo_size _ _ Hj) as Hsz.
  destruct (next_marks _ _ _ _ _ _ Hm Hj) as [E1 E2]. unfold free_forward. rewrite E1, E2. cbn [negb next_used].
  pose proof (jd_ends _ _ _ _ _ _ _ _ _ HJ) as [Hd Ht]. assert (∃ ts1 ts2, tops h = ts1 ++ (addr_of q + total L, s2) :: ts2 ∧ ∀ s', tops (at_place q [] (TopTail s')) = ts1 ++ (addr_of q, s') :: ts2) as (ts1 & ts2 & Et & Et').
  { exists (tops (pre_segs q)), (tops (post_segs q)). rewrite Eh, at_place_tops, app_nil_r. split; [done|]. intros s'. rewrite at_place_tops. change (total []) with 0. rewrite Z.add_0_r. done. }
  destruct Ht as [(_ & _ & Ht)|[Htp Ht]]; [rewrite Et in Ht; destruct ts1; done|]. rewrite Et in Ht.
  assert (ts1 = [] ∧ ts2 = []) as [-> ->]. { apply (f_equal length) in Ht. rewrite length_app in Ht. simpl in Ht. destruct ts1; [|simpl in Ht; lia]. destruct ts2; [done|simpl in Ht; lia]. }
  injection Ht as Et1 Et2. rewrite <- Et1, Z.eqb_refl. destruct (next_head _ _ _ _ _ (hm_layout _ _ _ _ Hm) Hj) as ((_ & T1 & T2) & sx & rest & Ex & Bx & _). simpl in Ex. injection Ex as Ex _.
  pose proof (joined_bound _ _ _ _ _ _ _ _ _ HJ) as HL.
  rewrite <- Et2, (wrap_small 64) by (unfold fits; lia). set (n := s2 + total L) in *. set (h' := at_place q [] (TopTail n)).
  assert (∀ k, of_kind k h' = of_kind k h ∖ kinds k (addr_of q) L) as Hk.
  { intros k. pose proof (hm_layout _ _ _ _ Hm) as Hl. unfold h'. rewrite (kind_top gm _ k q (L ++ []) [] _ (TopTail n) Hl), kinds_nil, <- Eh, app_nil_r. clear. set_solver. }
  set (m2 := put (with_top m1 (addr_of q) n) (head_ (addr_of q)) (Z.lor n PINUSE_BIT)). set (m3 := if addr_of q =? dv m2 then with_dv m2 0 0 else m2).
  assert (heap_mid gm m3 h' (of_kind Free h ∖ kinds Free (addr_of q) L)) as Hm3.
  { apply (mid_same gm m2); [|unfold m3; destruct (_ =? _); done..]. apply (free_top m1 m2 q L s2); try done. fold n h'. rewrite Hk. clear. set_solver. }
  assert (freed m h p s m3) as Hfr.
  { exists h'. split_and!.
    - apply (mid_heap_ok m3 h' _ Hm3); [rewrite Hk; done|]. split.
      + rewrite Hk, (jd_victim _ _ _ _ _ _ _ _ _ HJ). unfold m3. change (dv m2) with (dv m1). destruct (addr_of q =? dv m1) eqn:Edv.
        * left. split_and!; [done|done|]. destruct Hd as [(_ & _ & ->)|[_ ->]]; clear; set_solver.
        * change (dv m2) with (dv m1). change (dvsize m2) with (dvsize m1). replace (of_kind Victim h ∖ ∅) with (of_kind Victim h) by (clear; set_solver). done.
      + right. assert (top m3 = addr_of q ∧ topsize m3 = n) as [-> ->] by (unfold m3; destruct (_ =? _); done). unfold h'. rewrite Et'. split; [|done].
        assert ((addr_of q + total L, s2) ∈ tops h) as Hin by (rewrite Et; left). clear -Hm Hsz. destruct L as [|[s0 k0] L]; [change (total []) with 0 in *; lia|].
        pose proof (chunk_facts gm _ _ (addr_of q) s0 k0 (hm_layout _ _ _ _ Hm) ltac:(rewrite at_place_chunks; left)). lia.
    - rewrite Hk, (jd_used _ _ _ _ _ _ _ _ _ HJ). done.
    - apply (kept_trans _ _ (mem m1)); [apply (kept_mono h); [rewrite Hk; clear; set_solver|apply (jd_kept _ _ _ _ _ _ _ _ _ HJ)]|].
      apply (kept_outside _ _ _ (addr_of q) 0); [|assert (mem m3 = mem m2) as -> by (unfold m3; destruct (_ =? _); done); subst m2; written].
      intros y u Hy%elem_of_kind. rewrite Hk in Hy. apply elem_of_difference in Hy as [Hy Hno]. apply elem_of_kind in Hy. destruct L as [|[s0 k0] L]; [change (total []) with 0 in *; lia|]. rewrite Eh in Hy.
      assert ((addr_of q, s0, k0) ∈ heap_chunks (at_place q (((s0, k0) :: L) ++ []) (TopTail s2))) as Hin by (rewrite at_place_chunks; left). pose proof (chunk_facts gm _ _ _ _ _ (hm_layout _ _ _ _ Hm) Hin).
      destruct (heap_disjoint gm _ _ _ _ _ _ _ _ (hm_layout _ _ _ _ Hm) Hy Hin) as [?|?]; [|lia|lia]. intros [= -> -> <-]. apply Hno, elem_kinds. left. }
  exists m3. split; [|done]. assert (trim_check m3 = trim_check m1 ∧ topsize m3 = n) as [Etr Etn] by (unfold m3; destruct (_ =? _); done). rewrite Etr. destruct (Z.ltb_spec (trim_check m1) n); [right; right; rewrite Etr, Etn; done|by left].
Qed.

(** What is behind the block is a free chunk. *)
Lemma next_chunk m m1 h p s q L s2 k2 l t :
  joined m m1 h p s q L ((s2, k2) :: l) t → (addr_of q + total L, s2, k2) ∈ heap_chunks h.
Proof.
  intros HJ. rewrite (jd_heap _ _ _ _ _ _ _ _ _ HJ), at_place_chunks, chunks_app, !elem_of_app. left. right. left.
Qed.

Lemma forward_victim m m1 h p s q L s2 l t w :
  joined m m1 h p s q L ((s2, Victim) :: l) t → freeing m h p s w (free_forward gm munmap segs (addr_of q) (total L) (addr_of q + total L) m1 w).
Proof.
  intros HJ. pose proof (jd_mid _ _ _ _ _ _ _ _ _ HJ) as Hm. pose proof (jd_heap _ _ _ _ _ _ _ _ _ HJ) as Eh. pose proof (hm_layout _ _ _ _ Hm) as Hl. pose proof (next_chunk _ _ _ _ _ _ _ _ _ _ _ HJ) as Hnx.
  pose proof (jd_ends _ _ _ _ _ _ _ _ _ HJ) as He. pose proof (jd_joint _ _ _ _ _ _ _ _ _ HJ) as Hj. pose proof (jo_size _ _ Hj) as Hsz. pose proof (joined_bound _ _ _ _ _ _ _ _ _ HJ) as HL. pose proof (chunk_facts gm _ _ _ _ _ Hl Hnx) as (_ & _ & F3 & _).
  destruct (is_victim m1 h _ _ _ Hl He Hnx) as [Edv Es]. rewrite bool_decide_eq_true_2 in Edv by done. specialize (Es eq_refl). pose proof (not_top m1 h _ _ _ Hl He Hnx) as Etop.
  rewrite Eh in Hm at 1. destruct (next_marks _ _ _ _ _ _ Hm Hj) as [E1 E2]. unfold free_forward. rewrite E1, E2, Etop, Edv. cbn [negb next_used used]. rewrite <- Es, (wrap_small 64) by (unfold fits; lia).
  assert (s2 + total L = total (L ++ [(s2, Victim)])) as -> by (rewrite total_app; unfold total; simpl; lia). assert (∀ e : Z * kind, e ∈ [(s2, Victim)] → used e.2 = false) as Hun by (intros e ->%list_elem_of_singleton; done).
  destruct (joined_kinds m m1 h p s q L l t [(s2, Victim)] Victim HJ eq_refl Hun) as (_ & _ & Kf & Kv). rewrite decide_False in Kf by done.
  assert (total (L ++ [(s2, Victim)]) = total L + s2) as En by (rewrite total_app; unfold total; simpl; lia).
  set (m2 := set_size_and_pinuse_of_free_chunk _ _ _).
  assert (heap_mid gm m2 (at_place q ((total (L ++ [(s2, Victim)]), Victim) :: l) t) (of_kind Free h ∖ kinds Free (addr_of q) L)) as Hm2.
  { rewrite En. eapply (free_next m1 m2 q L s2 Victim l t); try done; [subst m2; rewrite En; done|]. rewrite <- En, Kf, kinds_cons, kinds_nil, decide_False by done. clear. set_solver. }
  eapply (freeing_victim m m1 m2 h p s q L [(s2, Victim)] l t w); try done.
  - rewrite kinds_cons, kinds_nil, decide_True by done. destruct He as [[(_ & _ & ->)|[_ ->]] _]; [clear; set_solver|]. apply Z.eqb_eq in Edv. rewrite Edv, Es. clear. set_solver.
  - rewrite kinds_cons, kinds_nil, decide_False by done. replace (of_kind Free h ∖ kinds Free (addr_of q) L ∖ (∅ ∪ ∅)) with (of_kind Free h ∖ kinds Free (addr_of q) L) by (clear; set_solver). done.
  - eapply (kept_new _ _ _ q (total (L ++ [(s2, Victim)])) Victim l t _ _ Hm2); [done|done|]. subst m2. rewrite En. written.
Qed.

Lemma forward_free m m1 h p s q L s2 l t w :
  joined m m1 h p s q L ((s2, Free) :: l) t → freeing m h p s w (free_forward gm munmap segs (addr_of q) (total L) (addr_of q + total L) m1 w).
Proof.
  intros HJ. pose proof (jd_mid _ _ _ _ _ _ _ _ _ HJ) as Hm. pose proof (jd_heap _ _ _ _ _ _ _ _ _ HJ) as Eh. pose proof (hm_layout _ _ _ _ Hm) as Hl. pose proof (next_chunk _ _ _ _ _ _ _ _ _ _ _ HJ) as Hnx.
  pose proof (jd_ends _ _ _ _ _ _ _ _ _ HJ) as He. pose proof (jd_joint _ _ _ _ _ _ _ _ _ HJ) as Hj. pose proof (jo_size _ _ Hj) as Hsz. pose proof (joined_bound _ _ _ _ _ _ _ _ _ HJ) as HL. pose proof (chunk_facts gm _ _ _ _ _ Hl Hnx) as (_ & _ & F3 & _).
  destruct (is_victim m1 h _ _ _ Hl He Hnx) as [Edv _]. rewrite bool_decide_eq_false_2 in Edv by done. pose proof (not_top m1 h _ _ _ Hl He Hnx) as Etop.
  pose proof (free_chunksize gm m1 h _ _ _ Hl (hm_cells _ _ _ _ Hm) Hnx eq_refl) as Ecs. set (free := of_kind Free h ∖ kinds Free (addr_of q) L) in *.
  assert ((addr_of q + total L, s2) ∈ free) as Hinf.
  { apply elem_of_difference. split; [apply elem_of_kind; done|]. intros Hk%elem_kinds. pose proof Hl as Hl2. rewrite Eh in Hl2. pose proof (chunk_range _ _ _ _ _ _ _ ltac:(apply (tiles_front _ _ _ _ (at_place_ok gm _ _ _ _ Hl2))) Hk). lia. }
  destruct (bins_unlink gm m1 free _ _ (hm_bins _ _ _ _ Hm) Hinf) as (m2 & Eu & Hb2 & Hst). destruct (step_fields _ _ _ _ Hst) as ([S1 S2] & [S3 S4] & _).
  assert (heap_mid gm m2 h (free ∖ {[(addr_of q + total L, s2)]})) as Hm2 by (apply (mid_step gm m1 m2 h free); [done|done|clear; set_solver|done]).
  assert (kept h (mem m1) (mem m2)) as Hk2. { apply (kept_bins gm (least_addr m1) h m1 m2 free Hl); [|done]. intros y u Hy%(hm_free _ _ _ _ Hm). exists Free. split; [apply elem_of_kind; done|done]. }
  rewrite Eh in Hm at 1. destruct (next_marks _ _ _ _ _ _ Hm Hj) as [E1 E2]. unfold free_forward. rewrite E1, E2, Etop, Edv. cbn [negb next_used used]. rewrite Ecs, Eu, (wrap_small 64) by (unfold fits; lia). cbn [mbind result_bind].
  assert (∀ e : Z * kind, e ∈ [(s2, Free)] → used e.2 = false) as Hun by (intros e ->%list_elem_of_singleton; done).
  assert (total (L ++ [(s2, Free)]) = total L + s2) as En by (rewrite total_app; unfold total; simpl; lia). rewrite <- En. set (n := total (L ++ [(s2, Free)])) in *. set (m3 := set_size_and_pinuse_of_free_chunk _ _ _).
  assert (kinds Free (addr_of q + total L) [(s2, Free)] = {[(addr_of q + total L, s2)]}) as Ek by (rewrite kinds_cons, kinds_nil, decide_True by done; clear; set_solver).
  assert (kinds Victim (addr_of q + total L) [(s2, Free)] = ∅) as Ekv by (rewrite kinds_cons, kinds_nil, decide_False by done; clear; set_solver).
  assert (∀ k, used k = false → heap_mid gm m3 (at_place q ((n, k) :: l) t) (free ∖ {[(addr_of q + total L, s2)]}) ∧ kept (at_place q ((n, k) :: l) t) (mem m1) (mem m3)) as Hnew.
  { intros k Hk. destruct (joined_kinds m m1 h p s q L l t [(s2, Free)] k HJ Hk Hun) as (Ku & _ & Kf & _). fold n in Ku, Kf. rewrite Ek in Kf. fold free in Kf.
    assert (heap_mid gm m3 (at_place q ((n, k) :: l) t) (free ∖ {[(addr_of q + total L, s2)]})) as Hm3.
    { rewrite Eh in Hm2 at 1. rewrite En. eapply (free_next m2 m3 q L s2 Free l t); try done; [subst m3; rewrite En; done|]. rewrite <- En, Kf. clear. set_solver. }
    split; [done|]. apply (kept_trans _ _ (mem m2)); [apply (kept_mono h); [rewrite Ku; clear; set_solver|done]|]. apply (kept_new _ _ _ q n k l t _ _ Hm3); [done|done|]. subst m3. written. }
  change (dv m3) with (dv m2). rewrite S1. destruct (addr_of q =? dv m1) eqn:Ea.
  - destruct (Hnew Victim eq_refl) as [Hm3 Hk3]. eapply (freeing_victim m m1 _ h p s q L [(s2, Free)] l t w); [done|done| |fold n; rewrite Ek; apply (mid_same gm m3); done|exact Hk3| |simpl; done].
    + rewrite (jd_victim _ _ _ _ _ _ _ _ _ HJ), Ea, Ekv. destruct He as [[(_ & _ & ->)|[_ ->]] _]; clear; set_solver.
    + simpl. apply Z.eqb_eq in Ea. done.
  - destruct (Hnew Free eq_refl) as [Hm3 Hk3]. apply (freeing_bin m m1 m3 h p s q L [(s2, Free)] l t w); try done. fold n. rewrite Ek. done.
Qed.

(** ** All of [dlfree] *)

Lemma dlfree_cases m h p s w : heap_ok gm m h → (p, s) ∈ of_kind Used h → freeing m h p s w (dlfree gm munmap segs (p + 16) m w).
Proof.
  intros Hok Hin%elem_of_kind. pose proof (ho_layout _ _ _ Hok) as Hl. pose proof (chunk_facts gm _ _ _ _ _ Hl Hin) as (F1 & F2 & F3 & F4 & F5 & F6). destruct (block_addr gm _ _ _ _ _ Hl Hin) as [_ Eb].
  destruct (chunk_place _ _ _ _ Hin) as (q0 & l0 & t0 & Eh & Eq). pose proof (ho_cells _ _ _ Hok) as Hs. rewrite Eh, at_place_cells, sat_app, tile_cells_cons, sat_cons, <- Eq in Hs. destruct Hs as ((Ehd & _) & _). cbn [fst snd] in Ehd.
  destruct (head_flags (mem m) p s (if pin_of q0 then 3 else 2) ltac:(lia) F4 ltac:(destruct (pin_of q0); lia)) as (Ec & _ & _ & Ei & _); [rewrite Ehd; unfold head_of; simpl; destruct (pin_of q0); lia|].
  unfold dlfree. rewrite (proj2 (Z.eqb_neq _ _)), Eb by lia. unfold ok_address. rewrite (proj2 (Z.leb_le _ _)), Ei, Ec by lia. assert (negb ((if pin_of q0 then 3 else 2) =? 1) = true) as -> by (destruct (pin_of q0); done). cbn [andb].
  destruct (free_backward_spec m h p s w Hok Hin) as (m1 & q & L & l & t & HJ & Hr). pose proof (jd_end _ _ _ _ _ _ _ _ _ HJ) as Een. destruct Hr as [[-> Hdv]|(Hn & Hdv & -> & ->)]; cbn [mbind result_bind].
  - rewrite <- Een. destruct (next_used l t) eqn:En; [apply (forward_used m m1 h p s q L l t); auto|]. destruct l as [|[s2 k2] l].
    + destruct t as [s2|r e]; [|done]. apply (forward_top m m1 h p s q L s2 w HJ).
    + destruct k2; [done|apply (forward_free m m1 h p s q L s2 l t w HJ)|apply (forward_victim m m1 h p s q L s2 l t w HJ)].
  - rewrite <- Een. apply (forward_used_victim m h p s q L l t w HJ Hn Hdv).
Qed.
End sys.
End free.
