(* ===== verification/DlInit.v ===== *)
(** * The kernel heap: the first request

    What [dlmalloc] of mm/dlmalloc.cpp does on the allocator's state as the kernel starts
    with it: it gets memory from [mmap], sets up the bins and the top chunk, and serves the
    request from there. *)

From S2P Require Import Prelude Define DlBase DlSmall DlTree DlBins DlSys DlMalloc DlHeap DlAlloc DlRequest.
Local Open Scope Z_scope.

Section init.
Context (gm : Z).

(** The state that the loader has filled with zeros. *)
Record fresh (m : mstate) : Prop := {
  fr_maps : smallmap m = 0 ∧ treemap m = 0;
  fr_chunks : dv m = 0 ∧ dvsize m = 0 ∧ top m = 0 ∧ topsize m = 0;
  fr_least : least_addr m = 0;
  fr_limit : footprint_limit m = 0;
  fr_trees i : 0 ≤ i < 32 → mem m (treebin_at gm i) = 0 }.

(** Memory from the system: aligned, and not where the allocator's state is. *)
Definition usable (base size : Z) : Prop :=
  0 < base ∧ base mod 16 = 0 ∧ base + size < 2 ^ 64 ∧ (base + size ≤ gm ∨ gm + 936 ≤ base).

Lemma granularity_spec s :
  0 ≤ s < 2 ^ 63 → let g := granularity_align s in s ≤ g < s + 65536 ∧ g mod 65536 = 0.
Proof.
  intros Hs. unfold granularity_align. change (granularity - 1) with 65535. rewrite wrap_small by (unfold fits; lia). set (x := s + 65535).
  assert (Z.land x (u64 (Z.lnot 65535)) = x - x mod 65536) as ->.
  { change (u64 (Z.lnot 65535)) with (Z.ldiff (Z.ones 64) (Z.ones 16)). rewrite Z.ldiff_land, Z.land_assoc, Z.land_ones, (Z.mod_small x) by (unfold x; lia).
    rewrite <- Z.ldiff_land, Z.ldiff_ones_r, Z.shiftl_mul_pow2, Z.shiftr_div_pow2 by lia. change (2 ^ 16) with 65536. pose proof (Z.div_mod x 65536). lia. }
  pose proof (Z.mod_pos_bound x 65536 ltac:(lia)). pose proof (Z.div_mod x 65536 ltac:(lia)) as E. cbn zeta. split; [unfold x in *; lia|].
  replace (x - x mod 65536) with (x / 65536 * 65536) by lia. apply Z.mod_mul. lia.
Qed.

Lemma align_zero p : 0 ≤ p < 2 ^ 64 - 16 → p mod 16 = 0 → align_offset (chunk2mem p) = 0.
Proof.
  intros Hp Hm. unfold align_offset, chunk2mem. rewrite wrap_small by (unfold fits; lia). assert (Z.land (p + 16) CHUNK_ALIGN_MASK = 0) as ->; [|done].
  change CHUNK_ALIGN_MASK with (Z.ones 4). rewrite Z.land_ones by lia. change (2 ^ 4) with 16. rewrite Z.add_mod, Hm by lia. done.
Qed.

(** [init_bins] writes only the links of the small bins. *)
Lemma init_bins_frame m :
  let m' := init_bins gm m in m' = with_mem m (mem m') ∧ ∀ a, a < gm + 88 ∨ gm + 600 ≤ a → mem m' a = mem m a.
Proof.
  unfold init_bins. assert (∀ i, i ∈ seqZ 0 32 → 0 ≤ i < 32) as Hin by (intros i Hi; apply elem_of_seqZ in Hi; lia). revert m Hin. generalize (seqZ 0 32).
  induction l as [|i l IH]; intros m Hin; cbn [foldl]; [destruct m; done|]. specialize (IH (puts m [(bk (smallbin_at gm i), smallbin_at gm i); (fd (smallbin_at gm i), smallbin_at gm i)]) ltac:(intros j Hj; apply Hin; by right)).
  cbn zeta in *. destruct IH as [E Hf]. split; [rewrite E; done|]. intros a Ha. rewrite Hf by done. specialize (Hin i ltac:(left)). simpl. unfold bk, fd. rewrite smallbin_value by lia. rewrite !upd_other by lia. done.
Qed.

Lemma empty_bins m : smallmap m = 0 → treemap m = 0 → 0 < gm → (∀ i, 0 ≤ i < 32 → mem m (treebin_at gm i) = 0) → bins_ok gm m ∅.
Proof.
  intros Es Et Hgm Hz. split; [done|intros p s q t H; clear -H; set_solver|intros p s H; clear -H; set_solver|]. exists (λ _, []), (λ _, Leaf). split_and!.
  - split; [rewrite Es; done|intros i _; rewrite Es, Z.testbit_0_l; done|done|intros i x _ []%elem_of_nil|intros; constructor|intros i j x y _ _ []%elem_of_nil].
  - split; [rewrite Et; done|intros i _; rewrite Et, Z.testbit_0_l; done| |done|intros i x _ []%elem_of_nil|intros; constructor|intros i j x y _ _ []%elem_of_nil].
    intros i Hi. unfold bin_cells. rewrite sat_cons. split; [apply Hz, Hi|constructor].
  - intros p s. split; [clear; set_solver|]. intros [(i & _ & []%elem_of_nil & _)|(i & _ & []%elem_of_nil & _)].
Qed.

(** A heap that is one top chunk. *)
Lemma heap_first m base size :
  0 < gm → usable base size → 65536 ≤ size < 2 ^ 40 → size mod 16 = 0 → smallmap m = 0 → treemap m = 0 → least_addr m = base → dv m = 0 → dvsize m = 0 → top m = base → topsize m = size - 80 →
  mem m (head_ base) = size - 80 + 1 → (∀ i, 0 ≤ i < 32 → mem m (treebin_at gm i) = 0) → heap_ok gm m [Seg base [] (TopTail (size - 80))].
Proof.
  intros Hgm (U1 & U2 & U3 & U4) Hsz H16 E1 E2 E3 E4 E5 E6 E7 Hhd Hz. split.
  - rewrite E3. split.
    + split.
      * intros b e Hin%list_elem_of_singleton. injection Hin as -> ->. unfold send. simpl. rewrite foot_size. change (total []) with 0. split_and!; lia.
      * intros [|? [|? ?]] b e r2 b' e' E Hin; [|done|done]. simpl in E. injection E as _ _ <-. apply elem_of_nil in Hin. done.
    + intros g ->%list_elem_of_singleton. simpl. split_and!; [done|lia|]. apply sub_mod16; done.
  - unfold heap_cells. simpl. rewrite sat_cons. split; [exact Hhd|constructor].
  - replace (of_kind Free [Seg base [] (TopTail (size - 80))]) with (∅ : gset (Z * Z)) by done. apply empty_bins; done.
  - left. done.
  - right. rewrite E6, E7. split; [exact U1|]. unfold tops. simpl. change (total []) with 0. rewrite Z.add_0_r. done.
Qed.

(** The set-up. *)
Lemma use_memory_first segs m base size flag nb :
  0 < gm → fresh m → usable base size → 65536 ≤ size < 2 ^ 40 → size mod 16 = 0 →
  ∃ m1, use_memory gm segs base size flag nb m = Ok (None, m1) ∧ heap_ok gm m1 [Seg base [] (TopTail (size - 80))] ∧ top m1 = base ∧ topsize m1 = size - 80 ∧
        (∀ a, a < gm ∨ gm + 936 ≤ a → a < base ∨ base + size ≤ a → mem m1 a = mem m a).
Proof.
  intros Hgm [[F1 F2] (F3 & F4 & F5 & F6) F7 F8 F9] HU Hsz H16. pose proof HU as (U1 & U2 & U3 & U4). unfold use_memory. rewrite F5, F7. cbn [Z.eqb orb]. rewrite foot_size, (wrap_small 64 (size - 80)) by (unfold fits; lia).
  set (m0 := with_release _ _). destruct (init_bins_frame m0) as [Ei Hi]. generalize dependent (init_bins gm m0). intros m1 Ei Hi. eexists. split; [reflexivity|].
  unfold init_top. rewrite align_zero, Z.sub_0_r, Z.add_0_r by (done || lia). rewrite (wrap_small 64 (size - 80)) by (unfold fits; lia).
  set (m2 := with_trim _ _). assert (∀ a, a ≠ base + 8 → a ≠ base + (size - 80) + 8 → mem m2 a = mem m1 a) as Hm2.
  { intros a A1 A2. unfold m2. cbn [with_trim with_top puts with_mem mem writes]. unfold head_. rewrite !upd_other by done. done. }
  assert (∀ a, a < gm + 88 ∨ gm + 600 ≤ a → a ≠ gm + 888 → a ≠ gm + 896 → a ≠ gm + 912 → mem m1 a = mem m a) as Hm1.
  { intros a A0 A1 A2 A3. rewrite Hi by done. unfold m0. cbn [with_release with_least puts with_mem mem writes]. unfold seg_of, seg_base, seg_size, seg_flags. rewrite !upd_other by lia. done. }
  split_and!; [|reflexivity|reflexivity|intros a A1 A2; rewrite Hm2, Hm1 by lia; done]. apply heap_first; try done; try (unfold m2; cbn; rewrite Ei; cbn; done).
  - unfold m2. cbn [with_trim with_top puts with_mem mem writes]. unfold head_. rewrite upd_other by lia. rewrite upd_same. apply free_head_value. apply sub_mod16; done.
  - intros i Hi'. rewrite Hm2, Hm1; unfold treebin_at; try lia. apply (F9 i Hi').
Qed.

Section sys.
Context {W : Type} (mmap : Z → W → result (Z * W)) (segs : nat).

(** What the first request asks the system for. *)
Definition first_size (bytes : Z) : Z := granularity_align (request2size bytes + SYS_ALLOC_PADDING).

Lemma malloc_bins_fresh m bytes : fresh m → 0 ≤ bytes < 2 ^ 39 → malloc_bins gm bytes m = Ok (None, request2size bytes, m).
Proof.
  intros [[F1 F2] (F3 & F4 & _) _ _ _] Hb. destruct (request2size_spec bytes) as (N1 & N2 & _); [change MAX_REQUEST with (2 ^ 64 - 128); lia|]. change MIN_CHUNK_SIZE with 32 in *. unfold malloc_bins. rewrite F1, F2, F4, Z.shiftr_0_l. change MAX_SMALL_REQUEST with 232. destruct (Z.leb_spec bytes 232); simpl.
  - destruct (0 <? request2size bytes); done.
  - change MAX_REQUEST with (2 ^ 64 - 128). rewrite (proj2 (Z.leb_gt _ _)) by lia. unfold request2size. rewrite (proj2 (Z.ltb_ge bytes MIN_REQUEST)) by (change MIN_REQUEST with 23; lia). done.
Qed.

Lemma first_request m bytes base s s' :
  0 < gm → fresh m → 0 ≤ bytes < 2 ^ 39 → mmap (first_size bytes) s = Ok (base, s') → usable base (first_size bytes) →
  ∃ m' h', dlmalloc gm mmap segs bytes m s = Ok (base + 16, m', s') ∧ heap_ok gm m' h' ∧ of_kind Used h' = {[(base, request2size bytes)]} ∧
           (∀ a, a < gm ∨ gm + 936 ≤ a → a < base ∨ base + first_size bytes ≤ a → mem m' a = mem m a).
Proof.
  intros Hgm Hf Hb Hmm Hu. destruct (request2size_spec bytes) as (N1 & N2 & N3 & N4); [change MAX_REQUEST with (2 ^ 64 - 128); lia|]. change MIN_CHUNK_SIZE with 32 in *. change CHUNK_OVERHEAD with 8 in *. change MALLOC_ALIGNMENT with 16 in *.
  unfold dlmalloc. rewrite malloc_bins_fresh by done. cbn [mbind result_bind]. set (nb := request2size bytes) in *. pose proof Hf as [_ (_ & F4 & _ & F6) _ F8 _]. rewrite F4, F6, (proj2 (Z.leb_gt nb 0)), (proj2 (Z.ltb_ge nb 0)) by lia.
  unfold sys_alloc. change SYS_ALLOC_PADDING with 96 in *. unfold first_size in Hmm, Hu. fold nb in Hmm, Hu. change SYS_ALLOC_PADDING with 96 in *. rewrite (wrap_small 64) by (unfold fits; lia).
  destruct (granularity_spec (nb + 96) ltac:(lia)) as [G1 G2]. unfold first_size. fold nb. change SYS_ALLOC_PADDING with 96. set (size := granularity_align (nb + 96)) in *. set (m0 := ensure_initialization m).
  assert (topsize m0 = 0 ∧ footprint_limit m0 = 0 ∧ mem m0 = mem m) as (T0 & L0 & M0) by (unfold m0, ensure_initialization; destruct (ready m); done).
  assert (fresh m0) as Hf0 by (destruct Hf; unfold m0, ensure_initialization; destruct (ready m); split; done).
  rewrite T0, !andb_false_r. cbn [mbind result_bind negb Z.eqb]. rewrite (proj2 (Z.leb_gt size nb)) by lia. unfold within_limit. rewrite L0. cbn [Z.eqb orb negb]. rewrite Hmm. cbn [mbind result_bind].
  pose proof Hu as (U1 & U2 & U3 & U4). rewrite (proj2 (Z.eqb_neq base MFAIL)) by (change MFAIL with (2 ^ 64 - 1); lia). cbn [negb].
  assert (65536 ≤ size ∧ size mod 16 = 0) as [S1 S2].
  { pose proof (Z.div_mod size 65536 ltac:(lia)) as E. split; [lia|]. replace size with (size / 65536 * 4096 * 16) by lia. apply Z.mod_mul. lia. }
  set (m1 := add_footprint size m0). assert (fresh m1) as Hf1 by (destruct Hf0; split; done).
  destruct (use_memory_first segs m1 base size USE_MMAP_BIT nb Hgm Hf1 Hu ltac:(lia) S2) as (m2 & -> & Hok & E1 & E2 & Hfr). cbn [mbind result_bind]. rewrite E2, (proj2 (Z.ltb_lt nb (size - 80))) by lia.
  pose proof (split_top_spec gm m2 _ nb Hok ltac:(lia) N1 ltac:(lia)) as (h' & p & u & Hok' & [Hu' _] & _ & Ea & Hu2 & _). destruct (split_top nb m2) as [a m3] eqn:Est. cbn [fst snd] in *.
  pose proof (f_equal fst Est) as Ea'. pose proof (f_equal snd Est) as Em3. unfold split_top in Ea', Em3. cbn [fst snd] in Ea', Em3. rewrite E1 in Ea', Em3. unfold chunk2mem in Ea'. rewrite wrap_small in Ea' by (unfold fits; lia). subst a.
  assert (p = base) as -> by lia. exists m3, h'. split; [done|]. split; [done|].
  assert (of_kind Used [Seg base [] (TopTail (size - 80))] = ∅) as Ek by done. rewrite Ek in Hu'. split.
  - assert (u = nb) as ->; [|rewrite Hu'; clear; set_solver]. 
    assert ((base, u, Used) ∈ heap_chunks h') as Hin by (apply elem_of_kind; rewrite Hu'; clear; set_solver). destruct (chunk_place _ _ _ _ Hin) as (q & l & t & Eh & Eq).
    pose proof (ho_cells _ _ _ Hok') as Hs. rewrite Eh, at_place_cells, sat_app, tile_cells_cons, sat_cons, <- Eq in Hs. destruct Hs as ((Ehd & _) & _). cbn [fst snd] in Ehd.
    subst m3. simpl in Ehd. rewrite upd_same, used_head in Ehd by done. unfold head_of in Ehd. simpl in Ehd. pose proof (chunk_facts gm _ _ _ _ _ (ho_layout _ _ _ Hok') Hin) as (_ & _ & _ & Hu16 & _).
    pose proof (Z.div_mod u 16 ltac:(lia)). pose proof (Z.div_mod nb 16 ltac:(lia)). destruct (pin_of q); lia.
  - intros a A1 A2. subst m3. simpl. unfold head_. rewrite !upd_other by lia. rewrite Hfr by lia. unfold m1. simpl. rewrite M0. done.
Qed.
End sys.
End init.
