(* ===== verification/DlClient.v ===== *)
(** * The kernel heap: what its clients see

    An abstract store of blocks, and the theorem that [dlmalloc] and [dlfree] of
    mm/dlmalloc.cpp and the stores of their clients implement it.  The theorems on the heap
    are collected at the end. *)

From S2P Require Import Prelude Define DlBase DlSmall DlTree DlBins DlSys DlMalloc DlHeap DlFit DlAlloc DlRequest DlFree DlInit.
Local Open Scope Z_scope.

(** ** The abstract store *)

(** The blocks in use, by the address and size of their chunks, and the words in them. *)
Record store := Store { live : gset (Z * Z); word : Z → Z }.

Inductive op := Malloc (bytes : Z) | Release (a : Z) | Put (x v : Z).

(** The words of the block of a chunk: behind the head, up to the first word of the next
    chunk, which is not needed while the chunk is in use. *)
Definition inside (p s x : Z) : Prop := p + 16 ≤ x ≤ p + s ∧ x mod 8 = 0.

(** The words of the blocks [l] are the same. *)
Definition agree (l : gset (Z * Z)) (w w' : Z → Z) : Prop := ∀ p s x, (p, s) ∈ l → inside p s x → w' x = w x.

Inductive astep : store → op → Z → store → Prop :=
| a_malloc σ bytes p s w' :
    (∀ q t, (q, t) ∈ live σ → q + t ≤ p ∨ p + s ≤ q) → p mod 16 = 0 → bytes + 8 ≤ s → agree (live σ) (word σ) w' →
    astep σ (Malloc bytes) (p + 16) (Store ({[(p, s)]} ∪ live σ) w')
| a_release σ p s w' :
    (p, s) ∈ live σ → agree (live σ ∖ {[(p, s)]}) (word σ) w' → astep σ (Release (p + 16)) 0 (Store (live σ ∖ {[(p, s)]}) w')
| a_put σ p s x v :
    (p, s) ∈ live σ → inside p s x → astep σ (Put x v) 0 (Store (live σ) (upd (word σ) x v)).

(** What a client may do. *)
Definition enabled (σ : store) (o : op) : Prop :=
  match o with
  | Malloc bytes => 0 ≤ bytes < 2 ^ 39
  | Release a => ∃ p s, (p, s) ∈ live σ ∧ a = p + 16
  | Put x _ => ∃ p s, (p, s) ∈ live σ ∧ inside p s x
  end.

Section client.
Context (gm : Z) {W : Type} (mmap : Z → W → result (Z * W)) (munmap : Z → Z → W → result (Z * W)) (segs : nat).

Definition cstep (o : op) (m : mstate) (w : W) : result (Z * mstate * W) :=
  match o with
  | Malloc bytes => dlmalloc gm mmap segs bytes m w
  | Release a => '(m, w) ← dlfree gm munmap segs a m w; Ok (0, m, w)
  | Put x v => Ok (0, put m x v, w)
  end.

(** The heap holds the blocks of a store. *)
Definition holds (m : mstate) (σ : store) : Prop :=
  ∃ h, heap_ok gm m h ∧ live σ = of_kind Used h ∧ agree (live σ) (word σ) (mem m).

(** A client's store to a block changes nothing else. *)
Lemma heap_store m h p s x v : heap_ok gm m h → (p, s) ∈ of_kind Used h → inside p s x → heap_ok gm (put m x v) h.
Proof.
  intros Hok Hin%elem_of_kind [Hx _]. pose proof (ho_layout _ _ _ Hok) as Hl. pose proof (chunk_facts gm _ _ _ _ _ Hl Hin) as (F1 & _ & _ & _ & _ & F6).
  assert (∀ key, key ∈ (heap_cells h).*1 → key ≠ x) as Hkey.
  { intros key Hk ->. destruct (heap_key_outside gm _ _ _ _ _ _ Hl Hk Hin) as [?|[_ Hu]]; [lia|]. specialize (Hu eq_refl). lia. }
  assert (sat (mem (put m x v)) (heap_cells h)) as Hs.
  { pose proof (ho_cells _ _ _ Hok) as Hs. unfold sat in *. rewrite Forall_forall in *. intros [key u] Hk. simpl. rewrite upd_other; [apply (Hs _ Hk)|]. apply Hkey, list_elem_of_fmap. exists (key, u). done. }
  destruct Hok as [A1 A2 A3 A4 A5]. split; try done. apply (bins_frame gm m); try done; [simpl; lia| |].
  - intros a Ha. simpl. apply upd_other. intros ->. destruct Ha as [Ha|(q & t & Hq%elem_of_kind & Ha)]; [lia|]. destruct (apart_used gm _ _ _ _ _ Hl Hq eq_refl p s Hin); lia.
  - intros q t Hq%elem_of_kind. destruct (free_head _ _ _ _ _ Hs (la_tiles _ _ _ Hl) Hq eq_refl) as [-> _]. destruct (free_head _ _ _ _ _ A2 (la_tiles _ _ _ Hl) Hq eq_refl) as [-> _]. done.
Qed.

Lemma kept_agree h w w' w'' : kept h w w' → agree (of_kind Used h) w'' w → agree (of_kind Used h) w'' w'.
Proof. intros Hk Ha p s x Hp Hx. rewrite <- (Ha p s x Hp Hx). apply (Hk p s x); [apply elem_of_kind, Hp|apply Hx]. Qed.

(** The blocks of a store are apart. *)
Lemma live_apart m h p s q t : heap_ok gm m h → (p, s) ∈ of_kind Used h → (q, t) ∈ of_kind Used h → (p, s) ≠ (q, t) → p + s ≤ q ∨ q + t ≤ p.
Proof.
  intros Hok Hp%elem_of_kind Hq%elem_of_kind Hne. apply (heap_disjoint gm _ _ _ _ _ _ _ _ (ho_layout _ _ _ Hok) Hp Hq). intros [= -> ->]. done.
Qed.

Lemma malloced_step m σ h bytes a m' :
  heap_ok gm m h → live σ = of_kind Used h → agree (live σ) (word σ) (mem m) → 0 ≤ bytes < 2 ^ 39 → malloced gm m h (request2size bytes) a m' →
  ∃ σ', astep σ (Malloc bytes) a σ' ∧ holds m' σ'.
Proof.
  intros Hok El Ha Hb (h' & p & s & Hok' & [Hu Hn] & Hk & -> & Hs & H16). destruct (request2size_spec bytes) as (_ & _ & N3 & _); [change MAX_REQUEST with (2 ^ 64 - 128); lia|]. change CHUNK_OVERHEAD with 8 in *.
  assert ((p, s) ∈ of_kind Used h') as Hp by (rewrite Hu; clear; set_solver). pose proof Hp as Hc. apply elem_of_kind in Hc. pose proof (chunk_facts gm _ _ _ _ _ (ho_layout _ _ _ Hok') Hc) as (_ & F2 & _).
  exists (Store ({[(p, s)]} ∪ live σ) (mem m')). split.
  - constructor; [|done|lia|].
    + intros q t Hq. rewrite El in Hq. apply (live_apart m' h' q t p s Hok'); [rewrite Hu; clear -Hq; set_solver|done|]. intros [= -> ->]. apply (Hn s Hq).
    + rewrite El in *. apply (kept_agree h (mem m)); done.
  - exists h'. simpl. rewrite Hu, El. split_and!; [done|done|intros q t x _ _; done].
Qed.

Lemma freed_step m σ h p s m' :
  heap_ok gm m h → live σ = of_kind Used h → agree (live σ) (word σ) (mem m) → (p, s) ∈ live σ → freed gm m h p s m' → ∃ σ', astep σ (Release (p + 16)) 0 σ' ∧ holds m' σ'.
Proof.
  intros Hok El Ha Hp (h' & Hok' & Hu & Hk). exists (Store (live σ ∖ {[(p, s)]}) (mem m')). split.
  - constructor; [done|]. rewrite El, <- Hu. apply (kept_agree h' (mem m)); [done|]. intros q t x Hq Hx. apply (Ha q t x); [|done]. rewrite El. rewrite Hu in Hq. clear -Hq. set_solver.
  - exists h'. simpl. rewrite Hu, El. split_and!; [done|done|intros q t x _ _; done].
Qed.

(** ** The theorems *)


(** C6. A request is served from the heap by a chunk that was not in use, aligned, large enough
    and apart from all blocks, which keep their contents, and the heap stays well-formed;
    or the system is asked, only when no chunk of the heap is large enough. *)
Theorem dlmalloc_serves m h bytes w :
  heap_ok gm m h → 0 ≤ bytes < 2 ^ 39 →
  (∃ p s m' h', dlmalloc gm mmap segs bytes m w = Ok (p + 16, m', w) ∧ heap_ok gm m' h' ∧ of_kind Used h' = {[(p, s)]} ∪ of_kind Used h ∧
     bytes + 8 ≤ s ∧ (p + 16) mod 16 = 0 ∧ (∀ q t, (q, t) ∈ of_kind Used h → q + t ≤ p ∨ p + s ≤ q) ∧ kept h (mem m) (mem m')) ∨
  (dlmalloc gm mmap segs bytes m w = sys_alloc gm mmap segs (request2size bytes) m w ∧ topsize m ≤ request2size bytes ∧
     ∀ k p s, k ≠ Used → (p, s) ∈ of_kind k h → s < request2size bytes).
Proof.
  intros Hok Hb. destruct (dlmalloc_cases gm mmap segs m h bytes w Hok Hb) as [(a & m' & E & (h' & p & s & Hok' & [Hu Hn] & Hk & -> & Hs & _))|(E & Hdv & Ht & Hf)]; [left|right].
  - destruct (request2size_spec bytes) as (_ & _ & N3 & _); [change MAX_REQUEST with (2 ^ 64 - 128); lia|]. change CHUNK_OVERHEAD with 8 in *. assert ((p, s) ∈ of_kind Used h') as Hp by (rewrite Hu; clear; set_solver).
    pose proof Hp as Hc. apply elem_of_kind in Hc. pose proof (chunk_facts gm _ _ _ _ _ (ho_layout _ _ _ Hok') Hc) as (_ & F2 & _). exists p, s, m', h'. split_and!; try done; [lia|rewrite Z.add_mod, F2 by lia; done|].
    intros q t Hq. apply (live_apart m' h' q t p s Hok'); [rewrite Hu; clear -Hq; set_solver|done|]. intros [= -> ->]. apply (Hn s Hq).
  - split_and!; [done|done|]. intros k p s Hk Hin. destruct k; [done|apply (Hf p s Hin)|]. destruct (ho_dv _ _ _ Hok) as [(_ & _ & Hv)|[_ Hv]]; rewrite Hv in Hin; [clear -Hin; set_solver|]. apply elem_of_singleton in Hin as [= -> ->]. done.
Qed.

(** C7. A block that is released is not in use any more; it is joined with the free chunks next
    to it, since in a well-formed heap no two free chunks are neighbours; the others keep
    their contents.  The call ends there or goes on to give memory back to the system. *)
Theorem dlfree_releases m h p s w :
  heap_ok gm m h → (p, s) ∈ of_kind Used h →
  ∃ m' h', heap_ok gm m' h' ∧ of_kind Used h' = of_kind Used h ∖ {[(p, s)]} ∧ kept h' (mem m) (mem m') ∧
    (dlfree gm munmap segs (p + 16) m w = Ok (m', w) ∨
     dlfree gm munmap segs (p + 16) m w = ('(_, m, w) ← release_unused_segments gm munmap segs m' w; Ok (m, w)) ∧ release_checks m' = 0 ∨
     dlfree gm munmap segs (p + 16) m w = ('(_, m, w) ← sys_trim gm munmap segs 0 m' w; Ok (m, w)) ∧ trim_check m' < topsize m').
Proof.
  intros Hok Hp. destruct (dlfree_cases gm munmap segs m h p s w Hok Hp) as (m' & Hend & h' & Hok' & Hu & Hk). exists m', h'. split_and!; try done. destruct Hend as [?|[[? ?]|[? ?]]]; auto.
Qed.

(** C40. Releasing a chunk that is free already stops the kernel. *)
Theorem dlfree_rejects m h p s k w : heap_ok gm m h → k ≠ Used → (p, s) ∈ of_kind k h → dlfree gm munmap segs (p + 16) m w = Err Aborted.
Proof.
  intros Hok Hk Hin%elem_of_kind. pose proof (ho_layout _ _ _ Hok) as Hl. destruct (block_addr gm _ _ _ _ _ Hl Hin) as [_ Eb]. pose proof (chunk_facts gm _ _ _ _ _ Hl Hin) as (F1 & F2 & F3 & F4 & _).
  destruct (free_head _ _ _ _ _ (ho_cells _ _ _ Hok) (la_tiles _ _ _ Hl) Hin) as [E _]; [destruct k; done|]. destruct (head_flags (mem m) p s 1 ltac:(lia) F4 ltac:(lia) E) as (_ & _ & _ & Ei & _).
  unfold dlfree. rewrite (proj2 (Z.eqb_neq _ _)), Eb, Ei by lia. rewrite andb_false_r. done.
Qed.
End client.

Section bins.
Context (gm : Z).

(** C15. The searches for a chunk find the best fit: no large chunk that fits is smaller; and
    when the search for a large request finds none there is none. *)
Theorem best_fit_found m free nb :
  bins_ok gm m free →
  (MIN_LARGE_SIZE ≤ nb < 2 ^ 40 → ∃ v rsize, find_large gm nb m = Ok (v, rsize) ∧ ((v = 0 ∧ ∀ p s, (p, s) ∈ free → s < nb) ∨ best_fit free nb v rsize)) ∧
  (0 < nb < MIN_LARGE_SIZE → treemap m ≠ 0 → ∃ v rsize, find_least gm nb m = Ok (v, rsize) ∧ best_fit free nb v rsize).
Proof. intros Hok. split; [apply (find_large_best gm m free nb Hok)|apply (find_least_best gm m free nb Hok)]. Qed.

(** C14. The bins are a set of chunks: [insert_chunk] adds one that does not overlap them, and
    [unlink_chunk] takes any one out; both write only words of free chunks and of the bins. *)
Theorem bins_are_a_set m free :
  bins_ok gm m free →
  (∀ p s, new_free gm m free p s → ∃ m', insert_chunk gm p s m = Ok m' ∧ bins_ok gm m' ({[(p, s)]} ∪ free) ∧ bins_step gm m m' ({[(p, s)]} ∪ free)) ∧
  (∀ p s, (p, s) ∈ free → ∃ m', unlink_chunk gm p s m = Ok m' ∧ bins_ok gm m' (free ∖ {[(p, s)]}) ∧ bins_step gm m m' free).
Proof. intros Hok. split; intros p s; [apply (bins_insert gm m free p s Hok)|apply (bins_unlink gm m free p s Hok)]. Qed.
End bins.

(** ** Examples *)

Definition gm_at : Z := 4096.
Definition empty_heap : mstate := MkM 0 0 0 0 0 0 0 0 0 0 0 0 0 false (λ _, 0).
Definition one_map (n : Z) (_ : unit) : result (Z * unit) := Ok (1048576, ()).
Definition no_unmap (a n : Z) (_ : unit) : result (Z * unit) := Ok (0, ()).

(** The state after a first request of 100 bytes. *)
Definition state_of (r : result (Z * mstate * unit)) : mstate := match r with Ok (_, m, _) => m | Err _ => empty_heap end.
Definition one_block : mstate := state_of (dlmalloc gm_at one_map 4 100 empty_heap ()).

Lemma one_block_ok : ∃ h, heap_ok gm_at one_block h ∧ of_kind Used h = {[(1048576, 112)]}.
Proof.
  destruct (first_request gm_at one_map 4 empty_heap 100 1048576 () ()) as (m' & h & E & Hok & Hu & _); [done|split; done|lia|done| |].
  - change (first_size 100) with 65536. unfold usable, gm_at. split_and!; [lia|done|lia|lia].
  - exists h. unfold one_block, state_of. rewrite E. done.
Qed.

Lemma empty_bins_ok : bins_ok gm_at empty_heap ∅.
Proof. apply empty_bins; done. Qed.


Lemma dlmalloc_serves_witness :
  ∃ h p s m' h', heap_ok gm_at one_block h ∧ dlmalloc gm_at one_map 4 40 one_block () = Ok (p + 16, m', ()) ∧ heap_ok gm_at m' h' ∧ of_kind Used h' = {[(p, s)]} ∪ {[(1048576, 112)]} ∧ 48 ≤ s.
Proof.
  destruct one_block_ok as (h & Hok & Hu). destruct (dlmalloc_serves gm_at one_map 4 one_block h 40 () Hok ltac:(lia)) as [(p & s & m' & h' & E & Hok' & Hu' & Hs & _)|(_ & Ht & _)].
  - exists h, p, s, m', h'. rewrite Hu in Hu'. split_and!; try done.
  - vm_compute in Ht. done.
Defined.

Lemma dlfree_releases_witness : ∃ h m' h', heap_ok gm_at one_block h ∧ heap_ok gm_at m' h' ∧ of_kind Used h' = of_kind Used h ∖ {[(1048576, 112)]}.
Proof.
  destruct one_block_ok as (h & Hok & Hu). destruct (dlfree_releases gm_at no_unmap 4 one_block h 1048576 112 () Hok) as (m' & h' & Hok' & Hu' & _); [rewrite Hu; apply elem_of_singleton; done|].
  exists h, m', h'. done.
Defined.

(** A heap with a designated victim. *)
Definition victim_heap : mstate :=
  MkM 0 0 112 65296 1048576 1048576 1048736 0 0 0 0 0 0 true
    (writes (λ _, 0) [(head_ 1048576, 113); (1048688, 112); (head_ 1048688, 50); (head_ 1048736, 65297)]).
Definition victim_tiles : list segment := [Seg 1048576 [(112, Victim); (48, Used)] (TopTail 65296)].

Lemma victim_heap_ok : heap_ok gm_at victim_heap victim_tiles.
Proof.
  split.
  - split.
    + split.
      * intros b e Hin%list_elem_of_singleton. injection Hin as -> ->. unfold gm_at. vm_compute. split_and!; try done; try (intros; discriminate); right; discriminate.
      * intros [|? [|? ?]] b e r2 b' e' E Hin; [|done|done]. simpl in E. injection E as _ _ <-. apply elem_of_nil in Hin. done.
    + intros g ->%list_elem_of_singleton. simpl. split_and!; done.
  - repeat constructor.
  - replace (of_kind Free victim_tiles) with (∅ : gset (Z * Z)) by (vm_compute; reflexivity). apply empty_bins; try done. intros i Hi. unfold victim_heap, treebin_at, gm_at. cbn [mem writes]. unfold head_. rewrite !upd_other by lia. done.
  - right. split; [done|]. vm_compute. reflexivity.
  - right. done.
Qed.

Lemma dlfree_rejects_witness : heap_ok gm_at victim_heap victim_tiles ∧ dlfree gm_at no_unmap 4 1048592 victim_heap () = Err Aborted.
Proof.
  split; [apply victim_heap_ok|]. apply (dlfree_rejects gm_at no_unmap 4 victim_heap victim_tiles 1048576 112 Victim () victim_heap_ok); [discriminate|]. apply elem_of_kind. left.
Defined.

(** A free chunk of 1040 bytes that is in no bin, and the bins with it. *)
Definition unbinned : mstate := put (with_least empty_heap 8192) (head_ 8192) 1041.
Definition binned_one : mstate := match insert_chunk gm_at 8192 1040 unbinned with Ok m => m | Err _ => unbinned end.

Lemma unbinned_ok : bins_ok gm_at unbinned ∅ ∧ new_free gm_at unbinned ∅ 8192 1040.
Proof.
  split.
  - apply empty_bins; try done. intros i Hi. unfold unbinned, put, treebin_at, gm_at. cbn [mem with_mem]. unfold head_. rewrite upd_other by lia. done.
  - split; try (vm_compute; intuition congruence).
Qed.

Lemma bins_are_a_set_witness : ∃ m', insert_chunk gm_at 8192 1040 unbinned = Ok m' ∧ bins_ok gm_at m' ({[(8192, 1040)]} ∪ ∅).
Proof.
  destruct unbinned_ok as [Hb Hn]. destruct (bins_are_a_set gm_at unbinned ∅ Hb) as [H _]. destruct (H 8192 1040 Hn) as (m' & E & Hb' & _). exists m'. done.
Defined.

Lemma best_fit_found_witness :
  bins_ok gm_at binned_one {[(8192, 1040)]} ∧ ∃ v rsize, find_large gm_at 1024 binned_one = Ok (v, rsize) ∧ best_fit {[(8192, 1040)]} 1024 v rsize.
Proof.
  assert (bins_ok gm_at binned_one {[(8192, 1040)]}) as Hb.
  { destruct unbinned_ok as [Hb Hn]. destruct (bins_insert gm_at unbinned ∅ 8192 1040 Hb Hn) as (m' & E & Hb' & _). unfold binned_one. rewrite E. rewrite (right_id_L ∅ (∪)) in Hb'. exact Hb'. }
  split; [exact Hb|]. destruct (best_fit_found gm_at binned_one {[(8192, 1040)]} 1024 Hb) as [H _]. destruct H as (v & r & E & [[_ Hn]|Hf]); [unfold MIN_LARGE_SIZE; lia| |exists v, r; done].
  specialize (Hn 8192 1040). exfalso. assert (1040 < 1024) as Hlt by (apply Hn; set_solver). lia.
Defined.
