(* ===== verification/ObjAlloc.v ===== *)
(** * The object allocator

    mm/object-allocator.cpp, the operators of util/support.cpp that use it, and the
    functions [mmap] and [munmap] at the top of mm/dlmalloc.cpp, through which the heap
    gets its memory from the page allocator. *)

From S2P Require Import Prelude Define PageAlloc Lock DlBase DlSmall DlTree DlBins DlSys DlMalloc DlHeap DlAlloc DlRequest DlInit.
Local Open Scope Z_scope.

Section objects.
Context {A : Type} `{PageAllocatorAlgorithm A}.

(** [_page_descriptors], and the address of [_gm_]. *)
Context (descriptors gm : Z).

(** ** Memory from the page allocator *)

Definition mmap_pages (size : Z) (pa : PageAllocator A) : result (Z * PageAllocator A) :=
  _ ← cassert (size mod 4096 =? 0);
  let pages := u32 (Z.shiftr size 12) in
  let order := ilog2_ceil pages in
  '(pgd, pa) ← alloc_pages pa order;
  va ← pgd_to_vpa (match pgd with Some p => p | None => pgd_to_pfn descriptors 0 end);
  Ok (va, pa).

Definition munmap_pages (addr size : Z) (pa : PageAllocator A) : result (Z * PageAllocator A) :=
  _ ← cassert (size mod 4096 =? 0);
  pgd ← vpa_to_pgd pa addr;
  _ ← cassert (bool_decide (pgd ≠ None));
  let pages := u32 (Z.shiftr size 12) in
  let order := ilog2_floor pages in
  pa ← free_pages pa (default 0 pgd) order;
  Ok (0, pa).

(** ** The object allocator *)

Record ObjectAllocator := MkObj { oa_mtx : Mutex; oa_heap : mstate; oa_pages : PageAllocator A }.

(** The body of a block with a [UniqueLock<Mutex>] in the thread [t]; the control flow that
    holds the mutex already waits for itself. *)
Definition with_mutex {B} (t : Z) (o : ObjectAllocator) (body : mstate → PageAllocator A → result (B * mstate * PageAllocator A)) : result (B * ObjectAllocator) :=
  let '(was, mtx) := test_and_set (oa_mtx o) in
  if was then Err Deadlock
  else
    '(r, m, pa) ← body (oa_heap o) (oa_pages o);
    Ok (r, MkObj (unlock (store_owner mtx t)) m pa).

(** A bound on the number of segments of the heap. *)
Context (segs : nat).

Definition obj_init (o : ObjectAllocator) : bool := true.

Definition obj_alloc (t size : Z) (o : ObjectAllocator) : result (Z * ObjectAllocator) :=
  with_mutex t o (dlmalloc gm mmap_pages segs size).

Definition obj_free (t ptr : Z) (o : ObjectAllocator) : result ObjectAllocator :=
  '(_, o) ← with_mutex t o (λ m pa, '(m, pa) ← dlfree gm munmap_pages segs ptr m pa; Ok ((), m, pa));
  Ok o.

(** [operator new] and [new[]], [operator delete] and [delete[]]. *)
Definition operator_new (t size : Z) (o : ObjectAllocator) : result (Z * ObjectAllocator) := obj_alloc t size o.
Definition operator_delete (t p : Z) (o : ObjectAllocator) : result ObjectAllocator := obj_free t p o.

(** ** Pages for the heap *)

Lemma ilog2_ceil_range n : 0 < n < 2 ^ 32 → n ≤ 2 ^ ilog2_ceil n < 2 * n ∧ 0 ≤ ilog2_ceil n ≤ 32.
Proof.
  intros Hn. unfold ilog2_ceil, bsr. pose proof (Z.log2_spec n ltac:(lia)) as Hl. pose proof (Z.log2_nonneg n). set (k := Z.log2 n) in *.
  assert (k < 32) as Hk by (apply Z.log2_lt_pow2; lia). rewrite Z.pow_succ_r in Hl by lia. rewrite (wrap_small 32 (n - 1)) by (unfold fits; lia).
  destruct (Z.eqb_spec (Z.land n (n - 1)) 0) as [E|E]; cbn [negb]; rewrite wrap_small by (unfold fits; lia).
  - rewrite Z.add_0_r. assert (n = 2 ^ k) as En; [|split; lia]. destruct (Z.eq_dec n (2 ^ k)) as [|Hne]; [done|]. exfalso.
    apply (f_equal (λ x, Z.testbit x k)) in E. rewrite Z.land_spec, Z.testbit_0_l in E.
    assert (∀ x, 2 ^ k ≤ x < 2 * 2 ^ k → Z.testbit x k = true) as Hb.
    { intros x Hx. rewrite Z.testbit_true by lia. replace (x / 2 ^ k) with 1; [done|]. apply (Z.div_unique _ _ _ (x - 2 ^ k)); lia. }
    rewrite !Hb in E by lia. done.
  - split; [|lia]. rewrite Z.pow_add_r by lia. change (2 ^ 1) with 2. split; [lia|]. assert (2 ^ k ≠ n) as Hne; [|lia]. intros En. apply E. rewrite <- En.
    apply Z.bits_inj'. intros i Hi. rewrite Z.land_spec, Z.testbit_0_l. destruct (Z.eq_dec i k) as [->|Hik]; [|rewrite Z.pow2_bits_false by lia; done].
    replace (2 ^ k - 1) with (Z.ones k) by (rewrite Z.ones_equiv; lia). rewrite Z.ones_spec_high by lia. apply andb_false_r.
Qed.

(** The memory that [mmap] gets is where the heap may use it. *)
Lemma mmap_usable size pa p pa' :
  KERNEL_VMEM_START ≤ gm → size mod 4096 = 0 → 0 < size < 2 ^ 40 → alloc_pages pa (ilog2_ceil (u32 (Z.shiftr size 12))) = Ok (Some p, pa') → 0 ≤ p < 2 ^ 20 →
  mmap_pages size pa = Ok (PMEM_VA_START + p * 4096, pa') ∧ usable gm (PMEM_VA_START + p * 4096) size.
Proof.
  intros Hgm Hm Hs Ha Hp. unfold mmap_pages. rewrite Hm, Z.eqb_refl. cbn [cassert mbind result_bind]. rewrite Ha. cbn [mbind result_bind]. unfold pgd_to_vpa, pgd_to_pa.
  rewrite pfn_to_pa_mul by lia. rewrite pa_to_vpa_Ok by lia. split; [done|]. unfold usable. change PMEM_VA_START with 0xFFFF800000000000. change KERNEL_VMEM_START with 0xFFFFFFFF80000000 in Hgm.
  split_and!; [lia| |lia|left; lia]. replace (0xFFFF800000000000 + p * 4096) with ((0xFFFF80000000000 + p * 256) * 16) by lia. apply Z.mod_mul. lia.
Qed.

Lemma first_size_page bytes : 0 ≤ bytes < 2 ^ 39 → first_size bytes mod 4096 = 0 ∧ 0 < first_size bytes < 2 ^ 40.
Proof.
  intros Hb. destruct (request2size_spec bytes) as (N1 & N2 & N3 & N4); [change MAX_REQUEST with (2 ^ 64 - 128); lia|]. change MIN_CHUNK_SIZE with 32 in *. change CHUNK_OVERHEAD with 8 in *. change MALLOC_ALIGNMENT with 16 in *.
  unfold first_size. change SYS_ALLOC_PADDING with 96. destruct (granularity_spec (request2size bytes + 96) ltac:(lia)) as [G1 G2]. set (g := granularity_align _) in *. pose proof (Z.div_mod g 65536 ltac:(lia)).
  split; [|lia]. replace g with (g / 65536 * 16 * 4096) by lia. apply Z.mod_mul. lia.
Qed.

(** Rounding up and down to powers of two. *)
Lemma pages_rounded size :
  size mod 4096 = 0 → 0 < size < 2 ^ 44 → let pages := u32 (Z.shiftr size 12) in let mapped := 2 ^ ilog2_ceil pages in let given := 2 ^ ilog2_floor pages in
  size ≤ mapped * 4096 ∧ (size = given * 4096 ∧ mapped = given ∨ given * 4096 < size ∧ mapped = 2 * given).
Proof.
  intros Hm Hs. rewrite Z.shiftr_div_pow2 by lia. change (2 ^ 12) with 4096. pose proof (Z.div_mod size 4096 ltac:(lia)) as Ed. set (n := size / 4096) in *. rewrite wrap_small by (unfold fits; lia). cbn zeta.
  destruct (ilog2_ceil_range n ltac:(lia)) as [[C1 C2] C3]. unfold ilog2_floor, bsr. pose proof (Z.log2_spec n ltac:(lia)) as Hl. pose proof (Z.log2_nonneg n) as Hl0. rewrite Z.pow_succ_r in Hl by done.
  assert (ilog2_ceil n = Z.log2 n ∨ ilog2_ceil n = Z.log2 n + 1) as [E|E].
  { unfold ilog2_ceil, bsr. assert (Z.log2 n < 32) as Hk by (apply Z.log2_lt_pow2; lia). destruct (negb _); rewrite wrap_small by (unfold fits; lia); lia. }
  - rewrite E in *. lia.
  - rewrite E, Z.pow_add_r in * by lia. change (2 ^ 1) with 2 in *. lia.
Qed.

(** ** The theorems *)

(** C39. The first [operator new]: on the allocator as the kernel starts with it, with a page
    allocator that has a free block of pages, the request is served from those pages, with
    a heap that has this one block. *)
Theorem new_first t bytes o p pa' :
  KERNEL_VMEM_START ≤ gm → m_locked (oa_mtx o) = false → fresh gm (oa_heap o) → 0 ≤ bytes < 2 ^ 39 →
  alloc_pages (oa_pages o) (ilog2_ceil (u32 (Z.shiftr (first_size bytes) 12))) = Ok (Some p, pa') → 0 ≤ p < 2 ^ 20 →
  ∃ o' h, operator_new t bytes o = Ok (PMEM_VA_START + p * 4096 + 16, o') ∧ m_locked (oa_mtx o') = false ∧ oa_pages o' = pa' ∧
          heap_ok gm (oa_heap o') h ∧ of_kind Used h = {[(PMEM_VA_START + p * 4096, request2size bytes)]}.
Proof.
  intros Hgm Hm Hf Hb Ha Hp. destruct (first_size_page bytes Hb) as [S1 S2]. destruct (mmap_usable _ _ _ _ Hgm S1 S2 Ha Hp) as [Hmm Hu].
  change KERNEL_VMEM_START with 0xFFFFFFFF80000000 in Hgm.
  destruct (first_request gm mmap_pages segs (oa_heap o) bytes _ (oa_pages o) pa' ltac:(lia) Hf Hb Hmm Hu) as (m' & h & E & Hok & Hus & _).
  unfold operator_new, obj_alloc, with_mutex, test_and_set. rewrite Hm, E. cbn [mbind result_bind]. eexists _, h. split; [reflexivity|]. done.
Qed.

(** [mmap] rounds the number of pages up to a power of two and [munmap] rounds it down: of
    what was mapped, all or just half is given back, and all only for powers of two. *)
Theorem munmap_gives_back size pa p pa' :
  let pages := u32 (Z.shiftr size 12) in let mapped := 2 ^ ilog2_ceil pages in let given := 2 ^ ilog2_floor pages in
  size mod 4096 = 0 → 0 < size < 2 ^ 44 → alloc_pages pa (ilog2_ceil pages) = Ok (Some p, pa') → 0 ≤ p < 2 ^ 20 → p ≤ nr_pages pa' →
  mmap_pages size pa = Ok (PMEM_VA_START + p * 4096, pa') ∧
  munmap_pages (PMEM_VA_START + p * 4096) size pa' = (pa ← free_pages pa' p (ilog2_floor pages); Ok (0, pa)) ∧
  size ≤ mapped * 4096 ∧ (size = given * 4096 ∧ mapped = given ∨ given * 4096 < size ∧ mapped = 2 * given).
Proof.
  intros pages mapped given Hm Hs Ha Hp Hnr. split_and!.
  - unfold mmap_pages. rewrite Hm, Z.eqb_refl. cbn [cassert mbind result_bind]. fold pages. rewrite Ha. cbn [mbind result_bind]. unfold pgd_to_vpa, pgd_to_pa. rewrite pfn_to_pa_mul, pa_to_vpa_Ok by lia. done.
  - unfold munmap_pages, vpa_to_pgd, vpa_to_pa. rewrite Hm, Z.eqb_refl. change PMEM_VA_START with 0xFFFF800000000000. change PMEM_VA_END with 0xFFFF800100000000.
    rewrite (proj2 (Z.leb_le _ _)), (proj2 (Z.ltb_lt _ _)) by lia. cbn [cassert mbind result_bind andb]. rewrite (wrap_small 64) by (unfold fits; lia). replace (0xFFFF800000000000 + p * 4096 - 0xFFFF800000000000) with (p * 4096) by lia.
    assert (pa_to_pfn (p * 4096) = p) as -> by (unfold pa_to_pfn; rewrite Z.shiftr_div_pow2 by done; apply Z.div_mul; done). unfold pfn_to_pgd. rewrite (proj2 (Z.ltb_ge _ _)) by lia. done.
  - subst mapped. apply pages_rounded; done.
  - subst mapped given. apply pages_rounded; done.
Qed.
End objects.

(** ** Examples *)

(** The kernel's state before the first allocation, with sixteen free pages. *)
Definition free_pages_16 : PageAllocator SimplePageAllocator := MkPA 16 (replicate 16 (MkPD None None AVAILABLE)) (Some (MkSimple 16)).
Definition no_heap : mstate := MkM 0 0 0 0 0 0 0 0 0 0 0 0 0 false (λ _, 0).
Definition gm_example : Z := 0xFFFFFFFF80200000.
Definition no_objects : ObjectAllocator := MkObj new_mutex no_heap free_pages_16.

Definition pages_or (r : result (option Z * PageAllocator SimplePageAllocator)) : PageAllocator SimplePageAllocator :=
  match r with Ok (_, pa) => pa | Err _ => free_pages_16 end.

Lemma new_first_witness :
  ∃ o' h, operator_new 0 gm_example 4 1 100 no_objects = Ok (PMEM_VA_START + 16, o') ∧ m_locked (oa_mtx o') = false ∧
          heap_ok gm_example (oa_heap o') h ∧ of_kind Used h = {[(PMEM_VA_START, 112)]}.
Proof.
  destruct (new_first 0 gm_example 4 1 100 no_objects 0 (pages_or (alloc_pages free_pages_16 4))) as (o' & h & E & Hm & _ & Hok & Hu).
  - vm_compute. discriminate.
  - reflexivity.
  - split; try (vm_compute; intuition congruence).
  - lia.
  - vm_compute. reflexivity.
  - lia.
  - exists o', h. done.
Defined.

(** Of four pages for a request of three, two are given back. *)
Lemma munmap_gives_back_witness :
  let pa' := pages_or (alloc_pages free_pages_16 2) in
  mmap_pages 0 12288 free_pages_16 = Ok (PMEM_VA_START, pa') ∧ munmap_pages PMEM_VA_START 12288 pa' = (pa ← free_pages pa' 0 1; Ok (0, pa)).
Proof.
  destruct (munmap_gives_back 0 12288 free_pages_16 0 (pages_or (alloc_pages free_pages_16 2))) as (E1 & E2 & _).
  - reflexivity.
  - lia.
  - vm_compute. reflexivity.
  - lia.
  - vm_compute. discriminate.
  - split; [exact E1|exact E2].
Defined.
