(* ===== verification/SelfTest.v ===== *)
(** * The self-tests of the exceptions

    kernel/exceptions.cpp, and the system call that runs it (kernel/syscall.cpp).
    The tests count the living objects of a class [A] while exceptions pass through
    scopes and handlers.  Their code is written over a monad with the rules of C++
    for scopes, [throw] and [catch]; how the kernel carries these rules out is the
    matter of [Abi], [Raise] and [Handler]. *)

From S2P Require Import Prelude.
From Stdlib Require Import Ascii.
From stdpp Require Import strings.
Local Open Scope Z_scope.

(** ** Objects, exceptions and the log *)

(** An exception is an object of one of the three classes; [A] has no data. *)
Inductive exn := EInt (n : Z) | EChar (n : Z) | EA.

(** [instances], and the messages of the log. *)
Record world := MkWorld { instances : Z; out : list string }.

Inductive outcome := Normal | Raised (e : exn).

(** A statement, and a sequence of statements. *)
Definition code := world → outcome * world.

Definition skip : code := λ w, (Normal, w).
Definition seq (c d : code) : code := λ w,
  match c w with (Normal, w) => d w | (Raised e, w) => (Raised e, w) end.

Declare Scope code_scope.
Delimit Scope code_scope with code.
Bind Scope code_scope with code.
Notation "c ;; d" := (seq c d) (at level 100, d at level 200, right associativity) : code_scope.
Local Open Scope code_scope.

Definition messagef (s : string) : code := λ w, (Normal, MkWorld (instances w) (out w ++ [s])).
Definition ln (s : string) : string := (s +:+ String "010"%char EmptyString)%string.

Definition panic_message : string := ln "panic!!!!".
Definition my_assert (b : world → bool) : code := λ w, if b w then (Normal, w) else messagef panic_message w.

(** The constructors and the destructor of [A]. *)
Definition construct_A : code := λ w, (Normal, MkWorld (instances w + 1) (out w)).
Definition destroy_A : code := λ w, (Normal, MkWorld (instances w - 1) (out w)).

(** [{ A a; body }]: the object is destroyed however the scope is left. *)
Definition with_A (body : code) : code := λ w,
  let '(o, w) := (construct_A ;; body) w in (o, snd (destroy_A w)).

Definition throw_Int (n : Z) : code := λ w, (Raised (EInt n), w).
Definition throw_Char (n : Z) : code := λ w, (Raised (EChar n), w).
Definition throw_A : code := construct_A ;; (λ w, (Raised EA, w)).

Definition destroy_exception (e : exn) : code := match e with EA => destroy_A | _ => skip end.

(** A handler takes an exception or does not; [catch (...)] takes all. *)
Definition handler := exn → option code.

Definition catch_Int (h : Z → code) : handler := λ e, match e with EInt n => Some (h n) | _ => None end.
Definition catch_Char (h : Z → code) : handler := λ e, match e with EChar n => Some (h n) | _ => None end.
Definition catch_A (h : code) : handler := λ e, match e with EA => Some h | _ => None end.
Definition catch_A_value (h : code) : handler := catch_A (with_A h).
Definition catch_all (h : code) : handler := λ e, Some h.

Fixpoint first_handler (hs : list handler) (e : exn) : option code :=
  match hs with
  | [] => None
  | h :: hs => match h e with Some c => Some c | None => first_handler hs e end
  end.

(** The first handler that takes the exception runs; the exception is destroyed
    when the handler is left. *)
Definition try_catch (body : code) (hs : list handler) : code := λ w,
  match body w with
  | (Normal, w) => (Normal, w)
  | (Raised e, w) =>
      match first_handler hs e with
      | None => (Raised e, w)
      | Some c => let '(o, w) := c w in (o, snd (destroy_exception e w))
      end
  end.

Fixpoint repeat_code (n : nat) (c : code) : code :=
  match n with O => skip | S n => c ;; repeat_code n c end.

(** ** The tests *)

Definition never : code := my_assert (λ _, false).
Definition count_is (n : Z) : code := my_assert (λ w, instances w =? n).

Definition firstTest : code :=
  with_A (
    try_catch
      (with_A (
        messagef "going to throw" ;;
        throw_Int 1 ;;
        with_A (messagef "firstTest after throw executed" ;; never)))
      [catch_Int (λ n,
         messagef "caught" ;;
         my_assert (λ _, n =? 1) ;;
         with_A (messagef (ln "firstTest correct catch")));
       catch_Char (λ _, with_A (messagef (ln "firstTest incorrect catch") ;; never))] ;;
    count_is 1).

(** The character ['a'] is 97. *)
Definition secondTest : code :=
  with_A (
    try_catch (with_A (throw_Char 97))
      [catch_Int (λ _, never);
       catch_Char (λ n, with_A (my_assert (λ _, n =? 97) ;; messagef (ln "secondTest correct catch")));
       catch_Char (λ _, never)]).

Definition innerHelper : code := with_A throw_A.

Definition middleHelper : code :=
  try_catch (with_A (innerHelper ;; with_A skip)) [catch_Int (λ _, with_A never)].

Definition outerHelper : code :=
  try_catch (with_A middleHelper) [catch_A (messagef (ln "thirdTest correct catch") ;; with_A skip)].

Definition thirdTest : code := outerHelper.

Definition fourthTest : code :=
  try_catch skip [catch_all (messagef (ln "fourthTest wrong catch") ;; never)] ;;
  try_catch throw_A [catch_all (messagef (ln "fourthTest correct catch"))] ;;
  try_catch skip [catch_all (messagef (ln "fourthTest wrong catch") ;; never)].

Definition throw5 : code := throw_Int 5.

Definition fifthTest : code :=
  try_catch innerHelper [catch_A_value (with_A skip)] ;;
  try_catch throw5 [catch_Int (λ n, my_assert (λ _, n =? 5) ;; messagef (ln "fifthTest correct catch"))].

Definition sixthTest : code :=
  try_catch
    (try_catch throw_A [catch_Int (λ _, messagef (ln "sixthTest wrong catch") ;; never)])
    [catch_A (messagef (ln "sixthTest correct catch"))].

Definition seventhTest : code :=
  repeat_code 100 (try_catch throw_A [catch_A skip]) ;;
  messagef (ln "seventhTest success").

Definition run_exception_tests : code :=
  firstTest ;; count_is 0 ;; secondTest ;; count_is 0 ;; thirdTest ;; count_is 0 ;; fourthTest ;; count_is 0 ;;
  fifthTest ;; count_is 0 ;; sixthTest ;; count_is 0 ;; seventhTest ;; count_is 0.

Definition run_exception_test_call (run : Z) : code :=
  (if run =? 0 then skip else run_exception_tests ;; messagef "tests finished") ;; throw_Int 5.

(** ** Every object is destroyed once

    A piece of code is balanced when the objects it leaves behind are those of the
    exception that leaves it. *)

Definition in_flight (o : outcome) : Z := match o with Raised EA => 1 | _ => 0 end.

Class Balanced (c : code) : Prop :=
  balanced : ∀ w, instances (snd (c w)) = instances w + in_flight (fst (c w)).

Class BalancedHandler (h : handler) : Prop :=
  balanced_handler : ∀ e c, h e = Some c → Balanced c.

Section balance.
Implicit Types c d : code.

#[export] Instance skip_balanced : Balanced skip.
Proof. intros w. simpl. lia. Qed.

#[export] Instance messagef_balanced s : Balanced (messagef s).
Proof. intros w. simpl. lia. Qed.

#[export] Instance my_assert_balanced b : Balanced (my_assert b).
Proof. intros w. unfold my_assert. destruct (b w); simpl; lia. Qed.

#[export] Instance never_balanced : Balanced never.
Proof. apply my_assert_balanced. Qed.

#[export] Instance count_balanced n : Balanced (count_is n).
Proof. apply my_assert_balanced. Qed.

#[export] Instance throw_Int_balanced n : Balanced (throw_Int n).
Proof. intros w. simpl. lia. Qed.

#[export] Instance throw_Char_balanced n : Balanced (throw_Char n).
Proof. intros w. simpl. lia. Qed.

#[export] Instance throw_A_balanced : Balanced throw_A.
Proof. intros w. simpl. lia. Qed.

#[export] Instance seq_balanced c d : Balanced c → Balanced d → Balanced (c ;; d).
Proof.
  intros Hc Hd w. specialize (Hc w). unfold seq. destruct (c w) as [[|e] w1]; simpl in *; [|done].
  rewrite (Hd w1), Hc. lia.
Qed.

#[export] Instance with_A_balanced c : Balanced c → Balanced (with_A c).
Proof.
  intros Hc w. specialize (Hc (snd (construct_A w))). unfold with_A, seq. simpl in *.
  destruct (c _) as [o w1]; simpl in *. lia.
Qed.

#[export] Instance repeat_balanced n c : Balanced c → Balanced (repeat_code n c).
Proof. intros Hc. induction n; simpl; apply _. Qed.

#[export] Instance catch_Int_balanced h : (∀ n, Balanced (h n)) → BalancedHandler (catch_Int h).
Proof. intros Hh [] c; intros [= <-]; apply _. Qed.

#[export] Instance catch_Char_balanced h : (∀ n, Balanced (h n)) → BalancedHandler (catch_Char h).
Proof. intros Hh [] c; intros [= <-]; apply _. Qed.

#[export] Instance catch_A_balanced c : Balanced c → BalancedHandler (catch_A c).
Proof. intros Hh [] d; intros [= <-]; apply _. Qed.

#[export] Instance catch_A_value_balanced c : Balanced c → BalancedHandler (catch_A_value c).
Proof. intros Hh. apply catch_A_balanced, _. Qed.

#[export] Instance catch_all_balanced c : Balanced c → BalancedHandler (catch_all c).
Proof. intros Hh e d [= <-]. apply _. Qed.

#[export] Instance try_catch_balanced c hs :
  Balanced c → TCForall BalancedHandler hs → Balanced (try_catch c hs).
Proof.
  intros Hc Hhs w. specialize (Hc w). unfold try_catch. destruct (c w) as [[|e] w1]; simpl in *; [done|].
  assert (∀ d, first_handler hs e = Some d → Balanced d) as Hfirst.
  { induction Hhs as [|h hs Hh _ IH]; simpl; [done|]. intros d.
    destruct (h e) eqn:He; [intros [= <-]; exact (Hh e _ He)|apply IH]. }
  destruct (first_handler hs e) as [d|]; [|done].
  specialize (Hfirst d eq_refl w1). destruct (d w1) as [o w2]; destruct e; simpl in *; lia.
Qed.
End balance.

(** ** The tests pass *)

(** Code that no exception leaves. *)
Class Quiet (c : code) : Prop := quiet : ∀ w, fst (c w) = Normal.

#[export] Instance seq_quiet c d : Quiet c → Quiet d → Quiet (c ;; d).
Proof. intros Hc Hd w. specialize (Hc w). unfold seq. destruct (c w) as [[|] w1]; simpl in *; [apply Hd|done]. Qed.

#[export] Instance my_assert_quiet b : Quiet (my_assert b).
Proof. intros w. unfold my_assert. by destruct (b w). Qed.

#[export] Instance count_quiet n : Quiet (count_is n).
Proof. apply my_assert_quiet. Qed.

#[export] Instance with_A_quiet c : Quiet c → Quiet (with_A c).
Proof.
  intros Hc w. specialize (Hc (snd (construct_A w))). unfold with_A, seq. simpl in *.
  by destruct (c _) as [o w1].
Qed.

(** One turn of the loop of the last test leaves no trace. *)
Lemma catch_A_turn w : try_catch throw_A [catch_A skip] w = (Normal, w).
Proof. destruct w as [n l]. cbn. do 2 f_equal. lia. Qed.

Lemma repeat_turn c n w : (∀ w, c w = (Normal, w)) → repeat_code n c w = (Normal, w).
Proof. intros Hc. induction n as [|n IH]; simpl; [done|]. unfold seq. by rewrite Hc. Qed.

#[export] Instance seventh_quiet : Quiet seventhTest.
Proof. intros w. unfold seventhTest, seq. by rewrite repeat_turn by apply catch_A_turn. Qed.

#[export] Instance first_quiet : Quiet firstTest.
Proof. apply with_A_quiet, seq_quiet; [by intros []|apply _]. Qed.

#[export] Instance tests_quiet : Quiet run_exception_tests.
Proof.
  repeat first [apply seq_quiet | apply first_quiet | apply seventh_quiet | apply count_quiet | by intros []].
Qed.

#[local] Typeclasses Opaque skip seq messagef my_assert never count_is with_A throw_Int throw_Char throw_A
  try_catch repeat_code.

#[export] Instance helper_balanced : Balanced innerHelper.
Proof. unfold innerHelper. apply _. Qed.

#[export] Instance third_balanced : Balanced thirdTest.
Proof. unfold thirdTest, outerHelper, middleHelper. apply _. Qed.

#[export] Instance fifth_balanced : Balanced fifthTest.
Proof. unfold fifthTest, throw5. apply _. Qed.

#[export] Instance tests_balanced : Balanced run_exception_tests.
Proof. unfold run_exception_tests, firstTest, secondTest, fourthTest, sixthTest, seventhTest. apply _. Qed.

(** The messages of tests that pass, in order. *)
Definition passed : list string :=
  ["going to throw"; "caught"; ln "firstTest correct catch"; ln "secondTest correct catch";
   ln "thirdTest correct catch"; ln "fourthTest correct catch"; ln "fifthTest correct catch";
   ln "sixthTest correct catch"; ln "seventhTest success"]%string.

(** No exception leaves the tests, and they leave no object behind, whatever the
    number of objects when they begin. *)
Theorem self_tests_balanced w :
  fst (run_exception_tests w) = Normal ∧ instances (snd (run_exception_tests w)) = instances w.
Proof. pose proof (quiet (c := run_exception_tests) w) as Hq. rewrite balanced, Hq. simpl. split; [done|lia]. Qed.

(** The tests pass: they write their messages of success in order, and the message
    of a failed assertion never. *)
Theorem self_tests_pass l :
  run_exception_tests (MkWorld 0 l) = (Normal, MkWorld 0 (l ++ passed)) ∧ panic_message ∉ passed.
Proof.
  split.
  - unfold passed. cbv -[app ln]. by rewrite <- !app_assoc.
  - apply (bool_decide_unpack (panic_message ∉ passed)). by vm_compute.
Qed.

(** The system call throws 5 to its caller, after the tests when it is asked to run
    them. *)
Theorem run_exception_test_throws run l :
  run_exception_test_call run (MkWorld 0 l) =
    (Raised (EInt 5), MkWorld 0 (l ++ if run =? 0 then [] else passed ++ ["tests finished"%string])).
Proof.
  unfold run_exception_test_call, seq at 1. destruct (run =? 0); [cbn; by rewrite app_nil_r|].
  unfold seq at 1. destruct (self_tests_pass l) as [-> _]. cbv -[app passed]. by rewrite app_assoc.
Qed.
