(* ===== verification/FdeSort.v ===== *)
(** * Sorting the frame descriptors

    The sort of kernel/unwind-dw2.c: [fde_split] takes a sorted sequence out of the
    array, with a chain that is laid over the second array; [frame_heapsort] sorts
    what is left; [fde_merge] merges the two in place.  The comparison of two
    descriptors reads memory and can fail, so it is a parameter that returns a
    [result]; the theorems are about comparisons that order by a key. *)

From stdpp Require Import sorting.
From S2P Require Import Prelude.
Local Open Scope Z_scope.

(** A word of the second array: what [malloc] left there, NULL, an address of the
    chain ([None] is the address of [marker], [Some i] of the element [i] of the
    first array), or a descriptor. *)
Inductive cell := Junk | Null | Chain (p : option Z) | Fde (f : Z).

Section sort.
Context (fde_compare : Z → Z → result Z).
Implicit Types (a linear : list Z) (erratic : list cell).

(** ** [fde_split] *)

(** The inner loop: takes the elements off the chain that are greater than [x]. *)
Fixpoint split_probe (fuel : nat) (x : Z) (chain_end : option Z) linear erratic : result (option Z * list cell) :=
  match chain_end with
  | None => Ok (None, erratic)
  | Some probe =>
      match fuel with
      | O => Err Hang
      | S fuel' =>
          y ← rd linear probe;
          c ← fde_compare x y;
          if negb (c <? 0) then Ok (chain_end, erratic) else
          w ← rd erratic probe;
          match w with
          | Chain next => erratic ← wr erratic probe Null; split_probe fuel' x next linear erratic
          | Null => Err NullDeref
          | _ => Err Uninitialised
          end
      end
  end.

(** One turn of the first loop. *)
Definition split_step linear (i : Z) (s : option Z * list cell) : result (option Z * list cell) :=
  let '(chain_end, erratic) := s in
  x ← rd linear i;
  '(chain_end, erratic) ← split_probe (length linear) x chain_end linear erratic;
  erratic ← wr erratic i (Chain chain_end);
  Ok (Some i, erratic).

(** One turn of the second loop, on both arrays and their new counts. *)
Definition split_pass (i : Z) (s : list Z * Z * list cell * Z) : result (list Z * Z * list cell * Z) :=
  let '(linear, j, erratic, k) := s in
  w ← rd erratic i;
  x ← rd linear i;
  match w with
  | Junk => Err Uninitialised
  | Null => erratic ← wr erratic k (Fde x); Ok (linear, j, erratic, k + 1)
  | _ => linear ← wr linear j x; Ok (linear, j + 1, erratic, k)
  end.

Definition fde_split linear erratic : result (list Z * Z * list cell * Z) :=
  let count := Z.of_nat (length linear) in
  '(_, erratic) ← for_range 0 count (split_step linear) (None, erratic);
  for_range 0 count split_pass (linear, 0, erratic, 0).

(** ** [frame_heapsort] *)

Definition SWAP a (i j : Z) : result (list Z) :=
  x ← rd a i; y ← rd a j; a ← wr a i y; wr a j x.

(** The loop of [frame_downheap]; [i] at least doubles in each turn. *)
Fixpoint downheap (fuel : nat) a (i hi : Z) : result (list Z) :=
  let j := s32 (2 * i + 1) in
  if negb (j <? hi) then Ok a else
  match fuel with
  | O => Err Hang
  | S fuel' =>
      j ← (if j + 1 <? hi then
             x ← rd a j; y ← rd a (j + 1); c ← fde_compare x y; Ok (if c <? 0 then j + 1 else j)
           else Ok j);
      x ← rd a i; y ← rd a j;
      c ← fde_compare x y;
      if c <? 0 then a ← SWAP a i j; downheap fuel' a j hi else Ok a
  end.

Definition frame_downheap a (lo hi : Z) : result (list Z) := downheap (Z.to_nat (hi - lo)) a lo hi.

(** The loops that count [m] down. *)
Fixpoint heapify (steps : nat) a (m n : Z) : result (list Z) :=
  match steps with
  | O => Ok a
  | S steps' => a ← frame_downheap a m n; heapify steps' a (m - 1) n
  end.

Fixpoint shrink (steps : nat) a (m : Z) : result (list Z) :=
  match steps with
  | O => Ok a
  | S steps' => a ← SWAP a 0 m; a ← frame_downheap a 0 m; shrink steps' a (m - 1)
  end.

Definition frame_heapsort a (n : Z) : result (list Z) :=
  let m := s32 (u64 (n / 2 - 1)) in
  a ← heapify (Z.to_nat (m + 1)) a m n;
  let m := s32 (u64 (n - 1)) in
  shrink (Z.to_nat m) a m.

(** ** [fde_merge] *)

(** The inner loop: moves the elements that are greater than [fde2] up. *)
Fixpoint merge_move (fuel : nat) v1 (i1 i2 fde2 : Z) : result (list Z * Z) :=
  if negb (0 <? i1) then Ok (v1, i1) else
  match fuel with
  | O => Err Hang
  | S fuel' =>
      x ← rd v1 (i1 - 1);
      c ← fde_compare x fde2;
      if negb (0 <? c) then Ok (v1, i1) else
      v1 ← wr v1 (i1 + i2) x;
      merge_move fuel' v1 (i1 - 1) i2 fde2
  end.

Fixpoint merge_loop (i2 : nat) v1 (i1 : Z) v2 : result (list Z) :=
  match i2 with
  | O => Ok v1
  | S i2' =>
      fde2 ← rd v2 (Z.of_nat i2');
      '(v1, i1) ← merge_move (Z.to_nat i1) v1 i1 (Z.of_nat i2') fde2;
      v1 ← wr v1 (i1 + Z.of_nat i2') fde2;
      merge_loop i2' v1 i1 v2
  end.

(** The arrays with their counts; the result is in [v1]. *)
Definition fde_merge v1 (count1 : Z) v2 (count2 : Z) : result (list Z * Z) :=
  if 0 <? count2 then v1 ← merge_loop (Z.to_nat count2) v1 count1 v2; Ok (v1, count1 + count2)
  else Ok (v1, count1).

(** ** [end_fde_sort] *)

(** The descriptors in the second array. *)
Fixpoint fdes (l : list cell) : result (list Z) :=
  match l with
  | [] => Ok []
  | Fde f :: l => fs ← fdes l; Ok (f :: fs)
  | _ :: _ => Err Uninitialised
  end.

(** [end_fde_sort] with the comparison it has chosen; [erratic] is missing when it
    could not be allocated.  [gcc_assert] has an empty body. *)
Definition end_fde_sort linear (erratic : option (list cell)) : result (list Z) :=
  match erratic with
  | Some erratic =>
      '(linear, j, erratic, k) ← fde_split linear erratic;
      e ← fdes (take (Z.to_nat k) erratic);
      e ← frame_heapsort e k;
      '(linear, count) ← fde_merge linear j e k;
      Ok (take (Z.to_nat count) linear)
  | None => frame_heapsort linear (Z.of_nat (length linear))
  end.
End sort.

(** ** Splitting *)

Section split.
Context (fde_compare : Z → Z → result Z) (key : Z → Z) (dom : Z → Prop).

(** A comparison by key, as the code's comparisons compute it. *)
Definition three_way (a b : Z) : Z := if b <? a then 1 else if a <? b then -1 else 0.
Hypothesis compare_key : ∀ x y, dom x → dom y → fde_compare x y = Ok (three_way (key x) (key y)).

Lemma three_way_lt a b : (three_way a b <? 0) = (a <? b).
Proof. unfold three_way. destruct (Z.ltb_spec b a), (Z.ltb_spec a b); lia. Qed.

Lemma three_way_gt a b : (0 <? three_way a b) = (b <? a).
Proof. unfold three_way. destruct (Z.ltb_spec b a), (Z.ltb_spec a b); lia. Qed.

Definition nulls (e : list cell) (lo hi : Z) : Prop := ∀ t, lo ≤ t < hi → rd e t = Ok Null.

(** [chain linear e n p vs]: the chain that starts at [p] runs down through the first
    [n] elements, with the values [vs]; all other words are NULL. *)
Inductive chain (linear : list Z) (e : list cell) : Z → option Z → list Z → Prop :=
| chain_marker n : nulls e 0 n → chain linear e n None []
| chain_at n i x c vs :
    0 ≤ i < n → rd linear i = Ok x → rd e i = Ok (Chain c) → nulls e (i + 1) n → chain linear e i c vs →
    chain linear e n (Some i) (x :: vs).

Lemma chain_null linear e i n c vs : chain linear e i c vs → i ≤ n → nulls e i n → chain linear e n c vs.
Proof.
  intros Hc Hn Hnull. destruct Hc as [i Hi|i j x c vs Hj Hx He Hi Hc]; econstructor; try done; [|lia|];
    intros t Ht; (destruct (decide (t < i)); [apply Hi|apply Hnull]; lia).
Qed.

Lemma chain_frame linear e e' n c vs :
  (∀ t, 0 ≤ t < n → rd e' t = rd e t) → chain linear e n c vs → chain linear e' n c vs.
Proof.
  intros He Hc. induction Hc as [n Hn|n i x c vs Hi Hx Hei Hn Hc IH].
  - constructor. intros t Ht. rewrite He by lia. by apply Hn.
  - econstructor; [done..|by rewrite He by lia| |apply IH; intros; apply He; lia].
    intros t Ht. rewrite He by lia. by apply Hn.
Qed.

Lemma chain_length linear e n c vs : 0 ≤ n → chain linear e n c vs → Z.of_nat (length vs) ≤ n.
Proof. intros Hn Hc. induction Hc as [|n i x c vs Hi Hx He Hnull Hc IH]; simpl; [done|]. specialize (IH ltac:(lia)). lia. Qed.

Lemma chain_elem linear e n c vs x : chain linear e n c vs → x ∈ vs → x ∈ linear.
Proof.
  intros Hc. induction Hc as [|n i y c vs Hi Hx He Hnull Hc IH]; [by intros ?%elem_of_nil|].
  intros [->|?]%elem_of_cons; [|auto]. apply rd_Ok_inv in Hx as [_ Hx]. by eapply list_elem_of_lookup_2.
Qed.

Definition descending (vs : list Z) : Prop := StronglySorted (λ a b, key b ≤ key a) vs.

(** The inner loop pops the greater elements. *)
Lemma split_probe_spec linear x n : Forall dom linear → dom x → ∀ fuel c e vs,
  (length vs ≤ fuel)%nat → length e = length linear → chain linear e n c vs → descending vs →
  ∃ c' e' vs', split_probe fde_compare fuel x c linear e = Ok (c', e') ∧ length e' = length e ∧
    chain linear e' n c' vs' ∧ descending (x :: vs').
Proof.
  intros Hdom Hx fuel. induction fuel as [|fuel IH]; intros c e vs Hf Hl Hc Hs.
  - destruct vs; simpl in Hf; [|lia]. inversion Hc; subst. exists None, e, []. split_and!; [done..|]. repeat constructor.
  - inversion Hc as [? Hnull|? i y c' vs' Hi Hy Hei Hnull Hc']; subst; simpl.
    { exists None, e, []. split_and!; [done..|]. repeat constructor. }
    assert (dom y) as Hyd.
    { apply rd_Ok_inv in Hy as [_ Hy]. by eapply Forall_lookup_1. }
    rewrite Hy, bind_Ok, compare_key, bind_Ok, three_way_lt by done. apply StronglySorted_inv in Hs as [Hs Hle].
    destruct (Z.ltb_spec (key x) (key y)) as [Hlt|Hge]; simpl.
    + rewrite Hei, bind_Ok. apply rd_Ok_inv in Hei as [Hin _]. destruct (wr_is_Ok e i Null Hin) as [e' He'].
      rewrite He', bind_Ok. pose proof (wr_length _ _ _ _ He') as Hl'.
      destruct (IH c' e' vs') as (c2 & e2 & vs2 & Hr & Hl2 & Hc2 & Hs2); [simpl in Hf; lia|congruence| |done|].
      { apply (chain_null _ _ i); [|lia|].
        - apply (chain_frame _ e); [|done]. intros t Ht. rewrite (rd_wr _ _ _ _ _ He'). rewrite decide_False by lia. done.
        - intros t Ht. rewrite (rd_wr _ _ _ _ _ He'). case_decide; [done|]. apply Hnull. lia. }
      exists c2, e2, vs2. split_and!; [done|congruence|done..].
    + exists (Some i), e, (y :: vs'). split_and!; [done..|]. constructor; [by constructor|]. constructor; [lia|].
      eapply Forall_impl; [exact Hle|]. simpl. intros; lia.
Qed.

Lemma split_chain linear erratic : Forall dom linear → length erratic = length linear →
  ∃ c e vs, for_range 0 (Z.of_nat (length linear)) (split_step fde_compare linear) (None, erratic) = Ok (c, e) ∧
    length e = length linear ∧ chain linear e (Z.of_nat (length linear)) c vs ∧ descending vs.
Proof.
  intros Hdom Hl.
  destruct (for_range_total (λ i '(c, e), length e = length linear ∧ ∃ vs, chain linear e i c vs ∧ descending vs)
    0 (Z.of_nat (length linear)) (split_step fde_compare linear) (None, erratic)) as ([c e] & Hr & He & vs & Hc & Hs); [lia| | |].
  - split; [done|]. exists []. split; constructor. intros t Ht. lia.
  - intros i [c e] Hi (He & vs & Hc & Hs). unfold split_step.
    destruct (rd_total linear i) as (x & Hx & Hlx); [lia|]. rewrite Hx, bind_Ok.
    destruct (split_probe_spec linear x i) with (fuel := length linear) (c := c) (e := e) (vs := vs)
      as (c' & e' & vs' & Hp & Hl' & Hc' & Hs'); [done|by eapply Forall_lookup_1| |done..|].
    { pose proof (chain_length _ _ _ _ _ (proj1 Hi) Hc). lia. }
    rewrite Hp, bind_Ok. destruct (wr_is_Ok e' i (Chain c')) as [e2 He2]; [lia|]. rewrite He2, bind_Ok.
    eexists (Some i, e2). split; [done|]. split; [by rewrite (wr_length _ _ _ _ He2), Hl'|]. exists (x :: vs'). split; [|done].
    econstructor; [lia|done|rewrite (rd_wr _ _ _ _ _ He2); by rewrite decide_True|intros t Ht; lia|].
    apply (chain_frame _ e'); [|done]. intros t Ht. rewrite (rd_wr _ _ _ _ _ He2). by rewrite decide_False by lia.
  - exists c, e, vs. split_and!; done.
Qed.

(** The elements of the first [n] that are on the chain, and the others. *)
Definition on_chain (e : list cell) (i : nat) : bool := match e !! i with Some Null => false | _ => true end.

Fixpoint kept (b : bool) (linear : list Z) (e : list cell) (n : nat) : list Z :=
  match n with
  | O => []
  | S n => kept b linear e n ++ if Bool.eqb (on_chain e n) b then option_list (linear !! n) else []
  end.

Lemma kept_Permutation linear e n : (n ≤ length linear)%nat → kept true linear e n ++ kept false linear e n ≡ₚ take n linear.
Proof.
  induction n as [|n IH]; intros Hn; [done|]. simpl. destruct (lookup_lt_is_Some_2 linear n) as [x Hx]; [lia|].
  rewrite (take_S_r _ _ _ Hx), <- IH, Hx by lia. destruct (on_chain e n); simpl; rewrite ?app_nil_r.
  - rewrite <- (assoc_L app), <- (assoc_L app). f_equiv. by rewrite (comm app).
  - by rewrite (assoc_L app).
Qed.

Lemma kept_length b linear e n : (length (kept b linear e n) ≤ n)%nat.
Proof. induction n as [|n IH]; simpl; [done|]. rewrite length_app. destruct (Bool.eqb _ b), (linear !! n); simpl; lia. Qed.

Lemma kept_nulls linear e (i n : nat) :
  (i ≤ n)%nat → nulls e (Z.of_nat i) (Z.of_nat n) → kept true linear e n = kept true linear e i.
Proof.
  intros Hi Hn. induction n as [|n IH]; [by replace i with 0%nat by lia|].
  destruct (decide (i = S n)) as [->|]; [done|]. simpl. rewrite IH; [|lia|intros t Ht; apply Hn; lia].
  pose proof (Hn (Z.of_nat n) ltac:(lia)) as [_ H]%rd_Ok_inv. rewrite Nat2Z.id in H.
  unfold on_chain. rewrite H. simpl. by rewrite app_nil_r.
Qed.

(** What is on the chain is what the second pass keeps. *)
Lemma chain_kept linear e (n : nat) c vs : chain linear e (Z.of_nat n) c vs → kept true linear e n = reverse vs.
Proof.
  revert n c. induction vs as [|x vs IH]; intros n c Hc.
  - inversion Hc; subst. by rewrite (kept_nulls _ _ 0) by (done || lia).
  - inversion Hc as [|? i ? c' ? Hi Hx He Hnull Hc']; subst. rewrite (kept_nulls _ _ (S (Z.to_nat i))); [|lia|].
    2: { intros t Ht. apply Hnull. lia. }
    simpl. apply rd_Ok_inv in Hx as [_ Hx]. apply rd_Ok_inv in He as [_ He]. unfold on_chain. rewrite He, Hx. simpl.
    rewrite (IH _ c'); [by rewrite reverse_cons|]. by rewrite Z2Nat.id by lia.
Qed.

Lemma chain_words linear e n c vs t :
  chain linear e n c vs → 0 ≤ t < n → rd e t = Ok Null ∨ ∃ p, rd e t = Ok (Chain p).
Proof.
  intros Hc. induction Hc as [n Hn|n i x c vs Hi Hx He Hn Hc IH]; intros Ht; [left; auto|].
  destruct (decide (t = i)) as [->|]; [eauto|]. destruct (decide (t < i)); [apply IH; lia|]. left. apply Hn. lia.
Qed.

Lemma take_insert_S {A} (l : list A) i x : (i < length l)%nat → take (S i) (<[i := x]> l) = take i l ++ [x].
Proof. intros Hi. rewrite (take_S_r _ _ x) by (by apply list_lookup_insert_eq). by rewrite take_insert_ge by lia. Qed.

(** The invariant of the second pass. *)
Definition passed (linear : list Z) (e : list cell) (i : Z) (s : list Z * Z * list cell * Z) : Prop :=
  let '(linear', j, e', k) := s in
  length linear' = length linear ∧ length e' = length e ∧
  take (Z.to_nat j) linear' = kept true linear e (Z.to_nat i) ∧ j = Z.of_nat (length (kept true linear e (Z.to_nat i))) ∧
  take (Z.to_nat k) e' = Fde <$> kept false linear e (Z.to_nat i) ∧ k = Z.of_nat (length (kept false linear e (Z.to_nat i))) ∧
  (∀ t, i ≤ t → rd linear' t = rd linear t ∧ rd e' t = rd e t).

Lemma split_pass_step linear e c vs i s :
  length e = length linear → chain linear e (Z.of_nat (length linear)) c vs → 0 ≤ i < Z.of_nat (length linear) →
  passed linear e i s → ∃ s', split_pass i s = Ok s' ∧ passed linear e (i + 1) s'.
Proof.
  intros Hl Hc Hi. destruct s as [[[linear' j] e'] k]. intros (Hll & Hle & Hj & Ej & Hk & Ek & Hrest).
  destruct (Hrest i ltac:(lia)) as [Hxi Hei]. destruct (rd_total linear i) as (x & Hx & Hlx); [done|].
  unfold split_pass. rewrite Hei, Hxi, Hx. pose proof (kept_length true linear e (Z.to_nat i)).
  pose proof (kept_length false linear e (Z.to_nat i)). unfold passed. rewrite Z2Nat.inj_add, Nat.add_1_r by lia. cbn [kept].
  destruct (chain_words _ _ _ _ _ i Hc Hi) as [Hw|[p Hw]]; rewrite Hw, !bind_Ok; apply rd_Ok_inv in Hw as [_ Hw].
  - destruct (wr_is_Ok e' k (Fde x)) as [e2 He2]; [lia|]. rewrite He2, bind_Ok. eexists. split; [done|].
    unfold on_chain. rewrite Hw, Hlx. simpl. rewrite !app_nil_r, !length_app. simpl. split_and!; [done| |done|done| |lia|].
    + by rewrite (wr_length _ _ _ _ He2).
    + apply wr_Ok_inv in He2 as [Hkin ->]. replace (Z.to_nat (k + 1)) with (S (Z.to_nat k)) by lia.
      rewrite take_insert_S, fmap_app, Hk by lia. done.
    + intros t Ht. destruct (Hrest t ltac:(lia)) as [-> <-]. rewrite (rd_wr _ _ _ _ _ He2), decide_False by lia. done.
  - destruct (wr_is_Ok linear' j x) as [l2 Hl2]; [lia|]. rewrite Hl2, bind_Ok. eexists. split; [done|].
    unfold on_chain. rewrite Hw, Hlx. simpl. rewrite !app_nil_r, !length_app. simpl. split_and!; [|done| |lia|done|done|].
    + by rewrite (wr_length _ _ _ _ Hl2).
    + apply wr_Ok_inv in Hl2 as [Hjin ->]. replace (Z.to_nat (j + 1)) with (S (Z.to_nat j)) by lia.
      rewrite take_insert_S, Hj by lia. done.
    + intros t Ht. destruct (Hrest t ltac:(lia)) as [<- ->]. rewrite (rd_wr _ _ _ _ _ Hl2), decide_False by lia. done.
Qed.

Definition ascending (vs : list Z) : Prop := StronglySorted (λ a b, key a ≤ key b) vs.

Lemma ascending_reverse vs : descending vs → ascending (reverse vs).
Proof.
  intros H. apply Sorted_StronglySorted; [intros a b c; lia|]. apply StronglySorted_Sorted, Sorted_reverse in H. done.
Qed.

Lemma fde_split_spec linear erratic : Forall dom linear → length erratic = length linear →
  ∃ linear' e' (low high : list Z), fde_split fde_compare linear erratic =
      Ok (linear', Z.of_nat (length low), e', Z.of_nat (length high)) ∧
    length linear' = length linear ∧ take (length low) linear' = low ∧ take (length high) e' = Fde <$> high ∧
    ascending low ∧ low ++ high ≡ₚ linear.
Proof.
  intros Hdom Hl. destruct (split_chain linear erratic Hdom Hl) as (c & e & vs & Hr & He & Hc & Hs).
  unfold fde_split. rewrite Hr, bind_Ok.
  destruct (for_range_total (passed linear e) 0 (Z.of_nat (length linear)) split_pass (linear, 0, e, 0))
    as ([[[l' j] e'] k] & Hp & Hll & Hle & Hj & Ej & Hk & Ek & _); [lia|done|by intros; eapply split_pass_step|].
  rewrite Nat2Z.id in *. exists l', e', (kept true linear e (length linear)), (kept false linear e (length linear)).
  subst j k. rewrite Nat2Z.id in *. split_and!; [done..| |].
  - rewrite (chain_kept _ _ _ _ _ Hc). by apply ascending_reverse.
  - rewrite kept_Permutation, firstn_all by done. done.
Qed.
End split.

(** ** Heap sort *)

Section heap.
Context (fde_compare : Z → Z → result Z) (key : Z → Z) (dom : Z → Prop).
Hypothesis compare_key : ∀ x y, dom x → dom y → fde_compare x y = Ok (three_way (key x) (key y)).

(** The key at an index. *)
Definition K (a : list Z) (i : Z) : Z := key (a !!! Z.to_nat i).

Lemma rd_K a i : 0 ≤ i < Z.of_nat (length a) → ∃ x, rd a i = Ok x ∧ key x = K a i ∧ a !! Z.to_nat i = Some x.
Proof.
  intros Hi. destruct (rd_total a i Hi) as (x & Hx & Hl). exists x. split_and!; [done| |done].
  unfold K. by rewrite (list_lookup_total_correct _ _ _ Hl).
Qed.

Definition child (i c : Z) : Prop := c = 2 * i + 1 ∨ c = 2 * i + 2.

Definition heap (lo hi : Z) (a : list Z) : Prop := ∀ i c, lo ≤ i → child i c → c < hi → K a c ≤ K a i.

(** A heap except at [p], where the children are still below the parent of [p]. *)
Definition semi_heap (lo hi p : Z) (a : list Z) : Prop :=
  (∀ i c, lo ≤ i → i ≠ p → child i c → c < hi → K a c ≤ K a i) ∧
  (∀ q c, lo ≤ q → child q p → child p c → c < hi → K a c ≤ K a q).

(** Exchanging two elements. *)
Lemma SWAP_spec a i j :
  0 ≤ i < Z.of_nat (length a) → 0 ≤ j < Z.of_nat (length a) →
  ∃ a', SWAP a i j = Ok a' ∧ a' ≡ₚ a ∧
    ∀ t, 0 ≤ t → a' !! Z.to_nat t = if decide (t = i) then a !! Z.to_nat j else if decide (t = j) then a !! Z.to_nat i else a !! Z.to_nat t.
Proof.
  intros Hi Hj. destruct (rd_total a i Hi) as (x & Hx & Hlx), (rd_total a j Hj) as (y & Hy & Hly).
  unfold SWAP. rewrite Hx, Hy, !bind_Ok, wr_total, bind_Ok, wr_total by (rewrite ?length_insert; lia).
  eexists. split_and!; [done| |].
  - destruct (decide (i = j)) as [->|].
    + rewrite list_insert_insert_eq, list_insert_id by congruence. done.
    + by apply Permutation_insert_swap.
  - intros t Ht. case_decide as Hti; [subst t|].
    + destruct (decide (i = j)) as [->|]; [by rewrite list_lookup_insert_eq by (rewrite length_insert; lia); congruence|].
      by rewrite list_lookup_insert_ne, list_lookup_insert_eq by lia.
    + case_decide as Htj; [subst t; by rewrite list_lookup_insert_eq by (rewrite length_insert; lia)|].
      by rewrite !list_lookup_insert_ne by lia.
Qed.

Lemma SWAP_K a i j :
  0 ≤ i < Z.of_nat (length a) → 0 ≤ j < Z.of_nat (length a) →
  ∃ a', SWAP a i j = Ok a' ∧ a' ≡ₚ a ∧ K a' i = K a j ∧ K a' j = K a i ∧ ∀ t, 0 ≤ t → t ≠ i → t ≠ j → K a' t = K a t.
Proof.
  intros Hi Hj. destruct (SWAP_spec a i j Hi Hj) as (a' & Hr & Hp & Hl). exists a'.
  assert (∀ t, 0 ≤ t → K a' t = K a (if decide (t = i) then j else if decide (t = j) then i else t)) as HK.
  { intros t Ht. unfold K. rewrite !list_lookup_total_alt, Hl by done. repeat case_decide; done. }
  split_and!; [done|done| | |].
  - rewrite HK, decide_True by lia. done.
  - rewrite HK by lia. destruct (decide (j = i)) as [->|]; [done|]. by rewrite decide_True.
  - intros t Ht H1 H2. by rewrite HK, !decide_False by done.
Qed.

(** What sifting does: a permutation of the first [hi] elements. *)
Definition shuffles (hi : Z) (a a' : list Z) : Prop :=
  a' ≡ₚ a ∧ (∀ t, hi ≤ t → K a' t = K a t) ∧ (∀ t, 0 ≤ t < hi → ∃ s, 0 ≤ s < hi ∧ K a' t = K a s).

#[local] Instance shuffles_refl hi : Reflexive (shuffles hi).
Proof. intros a. split_and!; [done..|]. intros t Ht. by exists t. Qed.

#[local] Instance shuffles_trans hi : Transitive (shuffles hi).
Proof.
  intros a b c (Hp & Hk & Hs) (Hp' & Hk' & Hs'). split_and!; [by rewrite Hp'|intros t Ht; by rewrite Hk', Hk|].
  intros t Ht. destruct (Hs' t Ht) as (s & Hs0 & ->). destruct (Hs s Hs0) as (r & Hr & ->). by exists r.
Qed.

Lemma SWAP_shuffles a i j hi :
  0 ≤ i < hi → 0 ≤ j < hi → hi ≤ Z.of_nat (length a) →
  ∃ a', SWAP a i j = Ok a' ∧ shuffles hi a a' ∧ K a' i = K a j ∧ K a' j = K a i ∧ ∀ t, 0 ≤ t → t ≠ i → t ≠ j → K a' t = K a t.
Proof.
  intros Hi Hj Hh. destruct (SWAP_K a i j) as (a' & Hr & Hp & Hki & Hkj & Hk); [lia..|].
  exists a'. split_and!; [done| |done..]. split_and!; [done|intros t Ht; apply Hk; lia|].
  intros t Ht. destruct (decide (t = i)) as [->|]; [exists j; split; [lia|done]|].
  destruct (decide (t = j)) as [->|]; [exists i; split; [lia|done]|]. exists t. split; [lia|]. apply Hk; lia.
Qed.

(** The greater child. *)
Lemma pick_child a i hi : Forall dom a → 0 ≤ i → 2 * i + 1 < hi → hi ≤ Z.of_nat (length a) →
  ∃ j, (if 2 * i + 1 + 1 <? hi then
          x ← rd a (2 * i + 1); y ← rd a (2 * i + 1 + 1); c ← fde_compare x y; Ok (if c <? 0 then 2 * i + 1 + 1 else 2 * i + 1)
        else Ok (2 * i + 1)) = Ok j ∧ child i j ∧ j < hi ∧ ∀ c, child i c → c < hi → K a c ≤ K a j.
Proof.
  intros Hdom Hi Hj Hh. unfold child. destruct (Z.ltb_spec (2 * i + 1 + 1) hi).
  - destruct (rd_K a (2 * i + 1)) as (x & -> & Hkx & Hlx); [lia|]. destruct (rd_K a (2 * i + 1 + 1)) as (y & -> & Hky & Hly); [lia|].
    rewrite !bind_Ok, compare_key by (by eapply Forall_lookup_1). rewrite bind_Ok, three_way_lt, Hkx, Hky.
    replace (2 * i + 1 + 1) with (2 * i + 2) by lia. eexists. split; [done|].
    destruct (Z.ltb_spec (K a (2 * i + 1)) (K a (2 * i + 2))); (split; [lia|]); (split; [lia|]); intros c [->| ->] ?; lia.
  - eexists. split; [done|]. split; [lia|]. split; [done|]. intros c [->| ->] ?; lia.
Qed.

Lemma downheap_spec lo hi : 0 ≤ lo → hi < 2 ^ 30 → ∀ fuel a i,
  Forall dom a → hi ≤ Z.of_nat (length a) → lo ≤ i < hi → (Z.to_nat (hi - i) ≤ fuel)%nat → semi_heap lo hi i a →
  ∃ a', downheap fde_compare fuel a i hi = Ok a' ∧ heap lo hi a' ∧ shuffles hi a a'.
Proof.
  intros Hlo Hhi fuel. induction fuel as [|fuel IH]; intros a i Hdom Hh Hi Hf [Hheap Hup]; [lia|].
  cbn [downheap]. rewrite swrap_small by lia. destruct (Z.ltb_spec (2 * i + 1) hi) as [Hj|Hj]; simpl.
  2: { exists a. split_and!; [done| |done]. intros p c Hp Hc Hch. apply Hheap; [done| |done..]. unfold child in Hc. lia. }
  destruct (pick_child a i hi) as (j & -> & Hji & Hjh & Hmax); [done|lia..|]. rewrite bind_Ok.
  assert (i < j) by (unfold child in Hji; lia).
  destruct (rd_K a i) as (x & Hx & Hkx & Hlx), (rd_K a j) as (y & Hy & Hky & Hly); [lia..|].
  rewrite Hx, Hy, !bind_Ok, compare_key, bind_Ok, three_way_lt, Hkx, Hky by (by eapply Forall_lookup_1).
  destruct (Z.ltb_spec (K a i) (K a j)) as [Hlt|Hge].
  - destruct (SWAP_shuffles a i j hi) as (a' & Hs & Hsh & Hki & Hkj & Hk); [lia..|]. rewrite Hs, bind_Ok.
    destruct (IH a' j) as (a2 & -> & Hheap2 & Hsh2); [| |lia|lia| |].
    + by rewrite (proj1 Hsh).
    + by rewrite (proj1 Hsh).
    + split.
      * intros p c Hp Hpj Hc Hch. assert (p < c) by (unfold child in Hc; lia). destruct (decide (p = i)) as [->|].
        { rewrite Hki. destruct (decide (c = j)) as [->|]; [rewrite Hkj; lia|]. rewrite Hk by lia. by apply Hmax. }
        rewrite (Hk p) by lia. destruct (decide (c = i)) as [->|]; [rewrite Hki; by apply Hup|].
        destruct (decide (c = j)) as [->|]; [unfold child in *; lia|]. rewrite Hk by lia. by apply Hheap.
      * intros q c Hq Hqj Hc Hch. assert (q = i) as -> by (unfold child in *; lia). assert (j < c) by (unfold child in Hc; lia).
        rewrite Hki, Hk by lia. apply Hheap; [lia..|done|done].
    + exists a2. split_and!; [done..|]. by etrans.
  - exists a. split_and!; [done| |done]. intros p c Hp Hc Hch. destruct (decide (p = i)) as [->|]; [|by apply Hheap].
    pose proof (Hmax c Hc Hch). lia.
Qed.

Lemma frame_downheap_spec lo hi a :
  0 ≤ lo < hi → hi < 2 ^ 30 → Forall dom a → hi ≤ Z.of_nat (length a) → semi_heap lo hi lo a →
  ∃ a', frame_downheap fde_compare a lo hi = Ok a' ∧ heap lo hi a' ∧ shuffles hi a a'.
Proof. intros. apply downheap_spec; [lia..|done|done|lia|done|done]. Qed.

Lemma shuffles_dom hi a a' : shuffles hi a a' → Forall dom a → Forall dom a'.
Proof. intros [Hp _] Hd. by rewrite Hp. Qed.

Lemma shuffles_length hi a a' : shuffles hi a a' → length a' = length a.
Proof. intros [Hp _]. by rewrite Hp. Qed.

(** From the last node with a child down to the root. *)
Lemma heapify_spec n : n < 2 ^ 30 → ∀ steps a m,
  Forall dom a → n ≤ Z.of_nat (length a) → m = Z.of_nat steps - 1 → m < n → heap (m + 1) n a →
  ∃ a', heapify fde_compare steps a m n = Ok a' ∧ heap 0 n a' ∧ shuffles n a a'.
Proof.
  intros Hn steps. induction steps as [|steps IH]; intros a m Hdom Hl -> Hm Hheap; simpl.
  { exists a. by split_and!. }
  destruct (frame_downheap_spec (Z.of_nat (S steps) - 1) n a) as (a' & -> & Hheap' & Hs); [lia..|done|done| |].
  { split; [intros i c Hi Hip Hc Hch; apply Hheap; [lia|done..]|]. intros q c Hq Hqp. unfold child in Hqp. lia. }
  rewrite bind_Ok. destruct (IH a' (Z.of_nat (S steps) - 1 - 1)) as (a2 & -> & Hh2 & Hs2).
  - by eapply shuffles_dom.
  - by rewrite (shuffles_length _ _ _ Hs).
  - lia.
  - lia.
  - by replace (Z.of_nat (S steps) - 1 - 1 + 1) with (Z.of_nat (S steps) - 1) by lia.
  - exists a2. split_and!; [done..|]. by etrans.
Qed.

(** The root of a heap is its greatest element. *)
Lemma heap_root n a i : heap 0 n a → 0 ≤ i < n → K a i ≤ K a 0.
Proof.
  intros Hh Hi. revert Hi. induction (Z.lt_wf 0 i) as [i _ IH]. intros Hi.
  destruct (decide (i = 0)) as [->|]; [lia|]. set (p := (i - 1) / 2).
  assert (0 ≤ p < i ∧ child p i) as [Hp Hc] by (unfold child, p; Z.to_euclidean_division_equations; lia).
  transitivity (K a p); [apply Hh; [lia|done|lia]|]. apply IH; lia.
Qed.

(** The part from [m] on is in order and above the rest. *)
Definition settled (m : Z) (a : list Z) : Prop := ∀ i j, 0 ≤ i ≤ j → m ≤ j → j < Z.of_nat (length a) → K a i ≤ K a j.

(** Moving the root behind the heap. *)
Lemma settle_root a a2 a3 m :
  0 < m < Z.of_nat (length a) → heap 0 (m + 1) a → settled (m + 1) a → length a3 = length a →
  K a2 m = K a 0 → K a2 0 = K a m → (∀ t, 0 ≤ t → t ≠ 0 → t ≠ m → K a2 t = K a t) → shuffles m a2 a3 → settled m a3.
Proof.
  intros Hm Hh Hs Hl Hkm Hk0 Hk (_ & Hout & Hin) i j Hi Hmj Hj.
  assert (K a3 j = K a2 j) as -> by (apply Hout; lia).
  assert (K a2 j = K a (if decide (j = m) then 0 else j)) as -> by (case_decide; [by subst|apply Hk; lia]).
  assert (∃ s, 0 ≤ s ≤ j ∧ K a3 i = K a s ∧ (j = m → s ≤ m)) as (s & Hsj & -> & Hsm).
  { destruct (decide (i < m)).
    - destruct (Hin i ltac:(lia)) as (s & Hsm & ->). destruct (decide (s = 0)) as [->|]; [exists m; split_and!; [lia..|done|lia]|].
      exists s. split_and!; [lia..|apply Hk; lia|lia].
    - rewrite Hout by lia. destruct (decide (i = m)) as [->|]; [exists 0; split_and!; [lia..|done|lia]|].
      exists i. split_and!; [lia..|apply Hk; lia|lia]. }
  case_decide as Hjm; [apply (heap_root (m + 1)); [done|lia]|]. apply Hs; lia.
Qed.

Lemma shrink_spec : ∀ steps a m,
  Forall dom a → m = Z.of_nat steps → m < Z.of_nat (length a) → m < 2 ^ 30 - 1 → heap 0 (m + 1) a → settled (m + 1) a →
  ∃ a', shrink fde_compare steps a m = Ok a' ∧ a' ≡ₚ a ∧ settled 1 a'.
Proof.
  intros steps. induction steps as [|steps IH]; intros a m Hdom -> Hl Hb Hheap Hset; simpl shrink; [by exists a|].
  destruct (SWAP_shuffles a 0 (Z.of_nat (S steps)) (Z.of_nat (S steps) + 1)) as (a2 & -> & Hs & Hk0 & Hkm & Hk); [lia..|].
  rewrite bind_Ok. pose proof (shuffles_length _ _ _ Hs) as Hl2.
  destruct (frame_downheap_spec 0 (Z.of_nat (S steps)) a2) as (a3 & -> & Hh3 & Hs3);
    [lia|lia|by eapply shuffles_dom|rewrite Hl2; lia| |].
  { split; [|intros q c Hq Hq0; unfold child in Hq0; lia]. intros i c Hi Hi0 Hc Hch.
    assert (i < c) by (unfold child in Hc; lia). rewrite !Hk by lia. apply Hheap; [done|done|lia]. }
  rewrite bind_Ok. pose proof (shuffles_length _ _ _ Hs3) as Hl3.
  destruct (IH a3 (Z.of_nat (S steps) - 1)) as (a' & -> & Hp & Hs1);
    [by do 2 (eapply shuffles_dom; [done|])|lia|lia|lia|by replace (Z.of_nat (S steps) - 1 + 1) with (Z.of_nat (S steps)) by lia| |].
  - replace (Z.of_nat (S steps) - 1 + 1) with (Z.of_nat (S steps)) by lia.
    eapply (settle_root a a2 a3); [lia|done|done|lia|done|done| |done]. intros t Ht H0 Hm. apply Hk; lia.
  - exists a'. split_and!; [done| |done]. by rewrite Hp, (proj1 Hs3), (proj1 Hs).
Qed.

Lemma settled_ascending a : settled 0 a → ascending key a.
Proof.
  intros Hs. unfold ascending. induction a as [|x a IH]; constructor.
  - apply IH. intros i j Hi _ Hj. specialize (Hs (i + 1) (j + 1)). unfold K in Hs.
    rewrite !Z2Nat.inj_add, !Nat.add_1_r in Hs by lia. apply Hs; simpl; lia.
  - apply Forall_lookup_2. intros i y Hi. specialize (Hs 0 (Z.of_nat (S i))). unfold K in Hs.
    rewrite Nat2Z.id, (list_lookup_total_correct (x :: a) (S i) y) in Hs by done. apply Hs; [lia|lia|].
    apply lookup_lt_Some in Hi. simpl. lia.
Qed.

Lemma heapsort_spec a : Forall dom a → Z.of_nat (length a) < 2 ^ 30 →
  ∃ a', frame_heapsort fde_compare a (Z.of_nat (length a)) = Ok a' ∧ a' ≡ₚ a ∧ ascending key a'.
Proof.
  intros Hdom Hl. unfold frame_heapsort. set (n := Z.of_nat (length a)) in *.
  destruct (decide (n = 0)) as [Hn|Hn].
  { destruct a; [|unfold n in Hn; simpl in Hn; lia]. exists []. split_and!; [reflexivity|done|constructor]. }
  assert (∀ k, - 1 ≤ k < 2 ^ 30 → s32 (u64 k) = k) as Hw.
  { intros k Hk. destruct (decide (k = -1)) as [->|]; [done|]. rewrite (wrap_small 64) by (unfold fits; lia). apply swrap_small; lia. }
  assert (0 ≤ n / 2 ≤ n) by (Z.to_euclidean_division_equations; lia).
  rewrite !Hw by lia.
  destruct (heapify_spec n ltac:(lia) (Z.to_nat (n / 2 - 1 + 1)) a (n / 2 - 1)) as (a' & -> & Hh & Hs);
    [done|lia|lia|lia| |].
  { intros i c Hi Hc Hch. unfold child in Hc. exfalso. revert Hc Hch Hi. Z.to_euclidean_division_equations. lia. }
  rewrite bind_Ok. pose proof (shuffles_length _ _ _ Hs) as Hl'.
  destruct (shrink_spec (Z.to_nat (n - 1)) a' (n - 1)) as (a2 & -> & Hp & H1);
    [by eapply shuffles_dom|lia|rewrite Hl'; lia|lia|by replace (n - 1 + 1) with n by lia| |].
  { intros i j Hi Hj Hlen. rewrite Hl' in Hlen. lia. }
  exists a2. split_and!; [done|by rewrite Hp, (proj1 Hs)|]. apply settled_ascending. intros i j Hi _ Hj.
  destruct (decide (j = 0)); [by replace i with j by lia|]. apply H1; lia.
Qed.
End heap.

(** ** Merging *)

Section merge.
Context (fde_compare : Z → Z → result Z) (key : Z → Z) (dom : Z → Prop).
Hypothesis compare_key : ∀ x y, dom x → dom y → fde_compare x y = Ok (three_way (key x) (key y)).

Lemma ascending_app a b :
  ascending key (a ++ b) ↔ ascending key a ∧ ascending key b ∧ ∀ x y, x ∈ a → y ∈ b → key x ≤ key y.
Proof. unfold ascending. rewrite StronglySorted_app. naive_solver. Qed.

Lemma rd_take_last (v : list Z) n x : rd v (Z.of_nat (S n) - 1) = Ok x → take (S n) v = take n v ++ [x].
Proof.
  rewrite rd_lookup by lia. replace (Z.to_nat (Z.of_nat (S n) - 1)) with n by lia. intros H. inv_result. by apply take_S_r.
Qed.

(** Moving up what is greater than [f] opens a gap at its place. *)
Lemma merge_move_spec n2 f : dom f → ∀ fuel n1 v1,
  (n1 ≤ fuel)%nat → (n1 + n2 < length v1)%nat → Forall dom (take n1 v1) → ascending key (take n1 v1) →
  ∃ v1' m, merge_move fde_compare fuel v1 (Z.of_nat n1) (Z.of_nat n2) f = Ok (v1', Z.of_nat m) ∧ (m ≤ n1)%nat ∧
    length v1' = length v1 ∧ take m v1' = take m v1 ∧
    drop (S (m + n2)) v1' = drop m (take n1 v1) ++ drop (S (n1 + n2)) v1 ∧
    Forall (λ x, key f ≤ key x) (drop m (take n1 v1)) ∧ Forall (λ x, key x ≤ key f) (take m v1).
Proof.
  intros Hf fuel. induction fuel as [|fuel IH]; intros n1 v1 Hn Hl Hd Ha.
  { destruct n1; [|lia]. exists v1, 0%nat. split_and!; [done..|constructor|constructor]. }
  destruct n1 as [|n1]; [exists v1, 0%nat; split_and!; [done..|constructor|constructor]|]. cbn [merge_move].
  rewrite (proj2 (Z.ltb_lt 0 (Z.of_nat (S n1)))) by lia. cbn [negb].
  destruct (rd_total v1 (Z.of_nat (S n1) - 1)) as (x & Hx & _); [lia|]. rewrite Hx, bind_Ok.
  apply rd_take_last in Hx. rewrite Hx in Ha, Hd. apply Forall_app in Hd as [Hd [Hdx _]%Forall_cons_1].
  rewrite compare_key, bind_Ok, three_way_gt by done. destruct (Z.ltb_spec (key f) (key x)) as [Hlt|Hge]; cbn [negb].
  - rewrite wr_total, bind_Ok by lia. replace (Z.to_nat (Z.of_nat (S n1) + Z.of_nat n2)) with (S (n1 + n2)) by lia.
    replace (Z.of_nat (S n1) - 1) with (Z.of_nat n1) by lia. set (v := <[S (n1 + n2) := x]> v1).
    assert (take n1 v = take n1 v1) as Ht by (apply take_insert_ge; lia).
    apply ascending_app in Ha as (Ha & _ & _).
    destruct (IH n1 v) as (v' & m & -> & Hm & Hl' & Htm & Hdr & Hge & Hle);
      [lia|unfold v; rewrite length_insert; lia|by rewrite Ht|by rewrite Ht|].
    rewrite Ht in Hdr, Hge. exists v', m. assert (take m v = take m v1) as Htm1 by (apply take_insert_ge; lia).
    assert (drop m (take (S n1) v1) = drop m (take n1 v1) ++ [x]) as Hdx'.
    { rewrite Hx, drop_app_le; [done|]. rewrite length_take. lia. }
    split_and!; [done|lia|by unfold v in Hl'; rewrite length_insert in Hl'|by rewrite Htm| | |by rewrite <- Htm1].
    + rewrite Hdr, Hdx', <- (assoc_L app). f_equal. replace (S (n1 + n2)) with (n1 + n2 + 1)%nat by lia. unfold v.
      replace (n1 + n2 + 1)%nat with (S (n1 + n2)) by lia.
      rewrite (drop_S _ x) by (apply list_lookup_insert_eq; lia). simpl. f_equal. by rewrite drop_insert_lt by lia.
    + rewrite Hdx'. apply Forall_app. split; [done|]. apply Forall_singleton. lia.
  - exists v1, (S n1). split_and!; [done|lia|done|done| | |].
    + rewrite (drop_ge (take (S n1) v1)) by (rewrite length_take; lia). done.
    + rewrite (drop_ge (take (S n1) v1)) by (rewrite length_take; lia). constructor.
    + rewrite Hx. apply Forall_app. split; [|by apply Forall_singleton]. apply ascending_app in Ha as (_ & _ & Hxy).
      apply Forall_forall. intros y Hy. etrans; [apply (Hxy y x); [done|apply list_elem_of_singleton; done]|done].
Qed.

(** The state of the outer loop: [n1] and [n2] elements of the two arrays are left,
    the others are merged behind them. *)
Record merging (v1 v2 : list Z) (n1 n2 : nat) : Prop := {
  m_low : ascending key (take n1 v1);
  m_high : ascending key (take n2 v2);
  m_done : ascending key (drop (n1 + n2) v1);
  m_low_done : ∀ x y, x ∈ take n1 v1 → y ∈ drop (n1 + n2) v1 → key x ≤ key y;
  m_high_done : ∀ x y, x ∈ take n2 v2 → y ∈ drop (n1 + n2) v1 → key x ≤ key y }.

Lemma merge_step v1 v2 v1' n1 n2 m f :
  take (S n2) v2 = take n2 v2 ++ [f] → (n1 + n2 < length v1)%nat → (m ≤ n1)%nat →
  length v1' = length v1 → take m v1' = take m v1 →
  drop (S (m + n2)) v1' = drop m (take n1 v1) ++ drop (S (n1 + n2)) v1 →
  Forall (λ x, key f ≤ key x) (drop m (take n1 v1)) → Forall (λ x, key x ≤ key f) (take m v1) →
  merging v1 v2 n1 (S n2) →
  merging (<[(m + n2)%nat := f]> v1') v2 m n2 ∧
  take m (<[(m + n2)%nat := f]> v1') ++ take n2 v2 ++ drop (m + n2) (<[(m + n2)%nat := f]> v1') ≡ₚ
    take n1 v1 ++ take (S n2) v2 ++ drop (n1 + S n2) v1.
Proof.
  intros Hf Hl Hm Hl' Ht Hd Hge Hle [Hlow Hhigh Hdone Hld Hhd]. replace (n1 + S n2)%nat with (S (n1 + n2)) in * by lia.
  assert (take m (<[(m + n2)%nat := f]> v1') = take m v1) as Etake by (rewrite take_insert_ge by lia; done).
  assert (drop (m + n2) (<[(m + n2)%nat := f]> v1') = f :: drop m (take n1 v1) ++ drop (S (n1 + n2)) v1) as Edrop.
  { rewrite (drop_S _ f) by (apply list_lookup_insert_eq; lia). f_equal. by rewrite drop_insert_lt, Hd by lia. }
  rewrite Hf in Hhigh. apply ascending_app in Hhigh as (Hh2 & _ & Hhf). rewrite <- (take_drop m (take n1 v1)), take_take, Nat.min_l in Hlow by done.
  apply ascending_app in Hlow as (Hla & Hlb & Hlab). rewrite Forall_forall in Hge, Hle.
  assert (∀ y, y ∈ drop (S (n1 + n2)) v1 → key f ≤ key y) as Hfd.
  { intros y Hy. apply Hhd; [rewrite Hf; set_solver|done]. }
  assert (∀ x, x ∈ drop m (take n1 v1) → x ∈ take n1 v1) as Hsub.
  { intros x Hx. rewrite <- (take_drop m (take n1 v1)). set_solver. }
  assert (∀ x, x ∈ take m v1 → x ∈ take n1 v1) as Hsub'.
  { intros x Hx. rewrite <- (take_drop m (take n1 v1)), take_take, Nat.min_l by done. set_solver. }
  split.
  - split; rewrite ?Etake, ?Edrop; [done|done| | |].
    + change (f :: drop m (take n1 v1) ++ drop (S (n1 + n2)) v1) with ([f] ++ drop m (take n1 v1) ++ drop (S (n1 + n2)) v1).
      rewrite !ascending_app. split_and!; [repeat constructor|done|done|auto|].
      intros x y ->%list_elem_of_singleton [?|?]%elem_of_app; auto.
    + intros x y Hx [->|[Hy|Hy]%elem_of_app]%elem_of_cons; [by apply Hle|by apply Hlab|auto].
    + assert (∀ x, x ∈ take n2 v2 → key x ≤ key f) as Hxf by (intros x Hx; apply Hhf; [done|set_solver]).
      intros x y Hx [->|[Hy|Hy]%elem_of_app]%elem_of_cons; [auto|etrans; [by apply Hxf|by apply Hge]|].
      apply Hhd; [rewrite Hf; set_solver|done].
  - rewrite Etake, Edrop, Hf. rewrite <- (take_drop m (take n1 v1)) at 2. rewrite take_take, Nat.min_l by done. solve_Permutation.
Qed.

Lemma merge_loop_spec v2 : Forall dom v2 → ∀ n2 v1 n1,
  (n2 ≤ length v2)%nat → (n1 + n2 ≤ length v1)%nat → Forall dom (take n1 v1) → merging v1 v2 n1 n2 →
  ∃ v1', merge_loop fde_compare n2 v1 (Z.of_nat n1) v2 = Ok v1' ∧ ascending key v1' ∧
    v1' ≡ₚ take n1 v1 ++ take n2 v2 ++ drop (n1 + n2) v1.
Proof.
  intros Hd2 n2. induction n2 as [|n2 IH]; intros v1 n1 Hn2 Hl Hd Hm.
  { exists v1. split_and!; [done| |].
    - rewrite <- (take_drop n1 v1). destruct Hm as [Hlow _ Hdone Hld _]. rewrite Nat.add_0_r in *. by apply ascending_app.
    - rewrite Nat.add_0_r, take_0. simpl. by rewrite take_drop. }
  cbn [merge_loop]. destruct (rd_total v2 (Z.of_nat (S n2) - 1)) as (f & Hf & Hlf); [lia|].
  replace (Z.of_nat (S n2) - 1) with (Z.of_nat n2) in * by lia. rewrite Hf, bind_Ok.
  assert (take (S n2) v2 = take n2 v2 ++ [f]) as Ef by (apply take_S_r; by rewrite Nat2Z.id in Hlf).
  destruct (merge_move_spec n2 f) with (fuel := Z.to_nat (Z.of_nat n1)) (n1 := n1) (v1 := v1)
    as (v1' & m & -> & Hmn & Hl' & Ht & Hdr & Hge & Hle); [exact (Forall_lookup_1 _ _ _ _ Hd2 Hlf)|lia|lia|done|apply Hm|].
  rewrite bind_Ok, wr_total, bind_Ok by lia. replace (Z.to_nat (Z.of_nat m + Z.of_nat n2)) with (m + n2)%nat by lia.
  destruct (merge_step v1 v2 v1' n1 n2 m f) as [Hm' Hp]; [done|lia|done..|].
  destruct (IH (<[(m + n2)%nat := f]> v1') m) as (w & -> & Ha & Hw); [lia|rewrite length_insert; lia| |done|].
  { rewrite take_insert_ge, Ht by lia. replace (take m v1) with (take m (take n1 v1)) by (by rewrite take_take, Nat.min_l). by apply Forall_take. }
  exists w. split_and!; [done..|]. by rewrite Hw.
Qed.

Lemma fde_merge_spec v1 (low v2 : list Z) :
  take (length low) v1 = low → length v1 = (length low + length v2)%nat → Forall dom low → Forall dom v2 →
  ascending key low → ascending key v2 →
  ∃ v, fde_merge fde_compare v1 (Z.of_nat (length low)) v2 (Z.of_nat (length v2)) = Ok (v, Z.of_nat (length v)) ∧
    ascending key v ∧ v ≡ₚ low ++ v2.
Proof.
  intros Ht Hl Hd1 Hd2 Ha1 Ha2. unfold fde_merge. destruct (Z.ltb_spec 0 (Z.of_nat (length v2))).
  - destruct (merge_loop_spec v2 Hd2 (length v2) v1 (length low)) as (v & Hr & Ha & Hp); [done|lia|by rewrite Ht| |].
    { split; rewrite ?Ht, ?firstn_all, ?drop_ge by lia; [done|done|constructor| |]; intros x y _ Hy; by apply elem_of_nil in Hy. }
    rewrite Nat2Z.id, Hr, bind_Ok. rewrite Ht, firstn_all, drop_ge, app_nil_r in Hp by lia.
    exists v. split_and!; [|done..]. do 2 f_equal. rewrite Hp, length_app. lia.
  - destruct v2; [|simpl in *; lia]. rewrite app_nil_r. simpl in Hl. rewrite Nat.add_0_r in Hl.
    assert (v1 = low) as -> by (rewrite <- Ht; symmetry; apply firstn_all2; lia). by exists low.
Qed.

(** ** The whole sort *)

Lemma fdes_Fde l : fdes (Fde <$> l) = Ok l.
Proof. induction l as [|x l IH]; [done|]. csimpl. by rewrite IH. Qed.

Lemma sort_spec linear erratic :
  Forall dom linear → Z.of_nat (length linear) < 2 ^ 30 → (∀ e, erratic = Some e → length e = length linear) →
  ∃ v, end_fde_sort fde_compare linear erratic = Ok v ∧ ascending key v ∧ v ≡ₚ linear.
Proof.
  intros Hd Hl He. destruct erratic as [e|]; simpl.
  - destruct (fde_split_spec fde_compare key dom compare_key linear e Hd (He e eq_refl))
      as (l' & e' & low & high & -> & Hl' & Hlow & Hhigh & Ha & Hp). rewrite bind_Ok, Nat2Z.id, Hhigh, fdes_Fde, bind_Ok.
    rewrite <- Hp in Hd. apply Forall_app in Hd as [Hd1 Hd2]. pose proof (Permutation_length Hp) as Hlen. rewrite length_app in Hlen.
    destruct (heapsort_spec fde_compare key dom compare_key high Hd2) as (h & -> & Hph & Hah); [lia|]. rewrite bind_Ok.
    pose proof (Permutation_length Hph) as Hlh. rewrite <- Hlh.
    destruct (fde_merge_spec l' low h) as (v & -> & Hav & Hpv); [done|lia|done|by rewrite Hph|done..|].
    rewrite bind_Ok, Nat2Z.id, firstn_all. exists v. split_and!; [done..|]. by rewrite Hpv, Hph.
  - destruct (heapsort_spec fde_compare key dom compare_key linear Hd Hl) as (v & -> & Hp & Ha). by exists v.
Qed.
End merge.
