(* ===== verification/Fde.v ===== *)
(** * Finding frame descriptors

    The search for the frame descriptor (FDE) of an instruction in
    kernel/unwind-dw2.c, with the encodings of include/infos/unwind/unwind-pe.h and
    the records of unwind-dw2-fde.h: the section .eh_frame is a sequence of common
    records (CIE) and descriptors; its descriptors are collected and sorted when
    the first search needs them, and found by binary search from then on.

    Memory is a function from addresses to bytes; the section does not change.
    [malloc] of kernel/stdlib.c takes its memory from an array and never fails; a
    vector of descriptors has as many elements as are left in that array.  The
    mutex of the object lists is left out. *)

From stdpp Require Import sorting.
From S2P Require Import Prelude Define Abi FdeSort.
Local Open Scope Z_scope.

(** ** Encodings *)

Definition DW_EH_PE_absptr : Z := 0x00.
Definition DW_EH_PE_omit : Z := 0xff.
Definition DW_EH_PE_uleb128 : Z := 0x01.
Definition DW_EH_PE_udata2 : Z := 0x02.
Definition DW_EH_PE_udata4 : Z := 0x03.
Definition DW_EH_PE_udata8 : Z := 0x04.
Definition DW_EH_PE_sleb128 : Z := 0x09.
Definition DW_EH_PE_sdata2 : Z := 0x0A.
Definition DW_EH_PE_sdata4 : Z := 0x0B.
Definition DW_EH_PE_sdata8 : Z := 0x0C.
Definition DW_EH_PE_pcrel : Z := 0x10.
Definition DW_EH_PE_textrel : Z := 0x20.
Definition DW_EH_PE_datarel : Z := 0x30.
Definition DW_EH_PE_funcrel : Z := 0x40.
Definition DW_EH_PE_aligned : Z := 0x50.
Definition DW_EH_PE_indirect : Z := 0x80.

(** Encodings that are not known call [abort], which returns: the value is unset. *)
Definition size_of_encoded_value (encoding : Z) : result Z :=
  if encoding =? DW_EH_PE_omit then Ok 0 else
  let k := Z.land encoding 0x07 in
  if k =? DW_EH_PE_absptr then Ok 8
  else if k =? DW_EH_PE_udata2 then Ok 2
  else if k =? DW_EH_PE_udata4 then Ok 4
  else if k =? DW_EH_PE_udata8 then Ok 8
  else Err Uninitialised.

Section memory.
Context (mem : Z → Z).

(** The loop of both readers, on 64-bit numbers: the tenth shift is the last that is
    defined. *)
Fixpoint leb64_loop (fuel : nat) (p acc shift : Z) : result (Z * Z * Z * Z) :=
  match fuel with
  | O => Err Hang
  | S fuel' =>
      let byte := mem p in
      _ ← check UndefinedShift (shift <? 64);
      let acc := Z.lor acc (u64 (Z.shiftl (Z.land byte 0x7f) shift)) in
      if Z.land byte 0x80 =? 0 then Ok (acc, byte, shift + 7, p + 1)
      else leb64_loop fuel' (p + 1) acc (shift + 7)
  end.

Definition read_uleb128 (p : Z) : result (Z * Z) :=
  '(acc, _, _, p) ← leb64_loop 11 p 0 0; Ok (acc, p).

Definition read_sleb128 (p : Z) : result (Z * Z) :=
  '(acc, byte, shift, p) ← leb64_loop 11 p 0 0;
  let acc := if (shift <? 64) && negb (Z.land byte 0x40 =? 0) then Z.lor acc (u64 (- Z.shiftl 1 shift)) else acc in
  Ok (s64 acc, p).

(** The value and the address after it. *)
Definition read_encoded_value_with_base (encoding base p : Z) : result (Z * Z) :=
  if encoding =? DW_EH_PE_aligned then
    let a := Z.land (u64 (p + 8 - 1)) (u64 (- 8)) in Ok (ldn mem 8 a, u64 (a + 8))
  else
    let k := Z.land encoding 0x0f in
    '(r, q) ←
      (if k =? DW_EH_PE_absptr then Ok (ldn mem 8 p, p + 8)
       else if k =? DW_EH_PE_uleb128 then read_uleb128 p
       else if k =? DW_EH_PE_sleb128 then '(v, q) ← read_sleb128 p; Ok (u64 v, q)
       else if k =? DW_EH_PE_udata2 then Ok (ldn mem 2 p, p + 2)
       else if k =? DW_EH_PE_udata4 then Ok (ldn mem 4 p, p + 4)
       else if k =? DW_EH_PE_udata8 then Ok (ldn mem 8 p, p + 8)
       else if k =? DW_EH_PE_sdata2 then Ok (u64 (swrap 16 (ldn mem 2 p)), p + 2)
       else if k =? DW_EH_PE_sdata4 then Ok (u64 (s32 (ldn mem 4 p)), p + 4)
       else if k =? DW_EH_PE_sdata8 then Ok (u64 (s64 (ldn mem 8 p)), p + 8)
       else Err Uninitialised);
    if r =? 0 then Ok (r, q) else
    let r := u64 (r + if Z.land encoding 0x70 =? DW_EH_PE_pcrel then p else base) in
    Ok (if Z.land encoding DW_EH_PE_indirect =? 0 then r else ldn mem 8 r, q).

(** ** Records *)

(** [struct dwarf_fde] and [struct dwarf_cie]. *)
Definition fde_length (f : Z) : Z := ldn mem 4 f.
Definition CIE_delta (f : Z) : Z := s32 (ldn mem 4 (f + 4)).
Definition pc_field (f : Z) : Z := f + 8.
Definition cie_version (cie : Z) : Z := mem (cie + 8).
Definition cie_augmentation (cie : Z) : Z := cie + 9.

Definition get_cie (f : Z) : Z := u64 (f + 4 - CIE_delta f).
Definition next_fde (f : Z) : Z := u64 (f + fde_length f + 4).

(** [strlen] of kernel/stdlib.c. *)
Fixpoint strlen (fuel : nat) (p : Z) : result Z :=
  match fuel with
  | O => Err Hang
  | S fuel' => if mem p =? 0 then Ok 0 else n ← strlen fuel' (p + 1); Ok (u64 (n + 1))
  end.

(** The walk over the augmentation string: the encoding that follows [R].  The string
    is ASCII: 76 is [L], 80 is [P], 82 is [R], 122 is [z]. *)
Fixpoint scan_augmentation (fuel : nat) (aug p : Z) : result Z :=
  match fuel with
  | O => Err Hang
  | S fuel' =>
      if mem aug =? 82 then Ok (mem p)
      else if mem aug =? 80 then
        '(_, p) ← read_encoded_value_with_base (Z.land (mem p) 0x7F) 0 (p + 1);
        scan_augmentation fuel' (aug + 1) p
      else if mem aug =? 76 then scan_augmentation fuel' (aug + 1) (p + 1)
      else Ok DW_EH_PE_absptr
  end.

(** [sf] bounds the length of augmentation strings. *)
Context (sf : nat).

Definition get_cie_encoding (cie : Z) : result Z :=
  let aug := cie_augmentation cie in
  n ← strlen sf aug;
  let p := u64 (aug + n + 1) in
  let bad := (4 <=? cie_version cie) && (negb (mem p =? 8) || negb (mem (p + 1) =? 0)) in
  if bad then Ok DW_EH_PE_omit else
  let p := if 4 <=? cie_version cie then p + 2 else p in
  if negb (mem aug =? 122) then Ok DW_EH_PE_absptr else
  '(_, p) ← read_uleb128 p;
  '(_, p) ← read_sleb128 p;
  p ← (if cie_version cie =? 1 then Ok (p + 1) else '(_, p) ← read_uleb128 p; Ok p);
  '(_, p) ← read_uleb128 p;
  scan_augmentation sf (aug + 1) p.

Definition get_fde_encoding (f : Z) : result Z := get_cie_encoding (get_cie f).

(** ** Objects *)

(** The union [u]: the first record, an array of such addresses, or the sorted
    descriptors with the address that was registered. *)
Inductive source := Single (p : Z) | Array (p : Z) | Sort (orig_data : Z) (v : list Z).

Record object := MkObject {
  ob_pc_begin : Z; ob_pc_end : Z; tbase : Z; dbase : Z; ob_u : source;
  sorted : bool; from_array : bool; mixed_encoding : bool; ob_encoding : Z; ob_count : Z }.

Definition with_pc_begin b (o : object) := MkObject b (ob_pc_end o) (tbase o) (dbase o) (ob_u o) (sorted o) (from_array o) (mixed_encoding o) (ob_encoding o) (ob_count o).
Definition with_encoding e (o : object) := MkObject (ob_pc_begin o) (ob_pc_end o) (tbase o) (dbase o) (ob_u o) (sorted o) (from_array o) (mixed_encoding o) e (ob_count o).
Definition with_mixed (o : object) := MkObject (ob_pc_begin o) (ob_pc_end o) (tbase o) (dbase o) (ob_u o) (sorted o) (from_array o) true (ob_encoding o) (ob_count o).
Definition with_count n (o : object) := MkObject (ob_pc_begin o) (ob_pc_end o) (tbase o) (dbase o) (ob_u o) (sorted o) (from_array o) (mixed_encoding o) (ob_encoding o) n.
Definition with_sorted v orig (o : object) := MkObject (ob_pc_begin o) (ob_pc_end o) (tbase o) (dbase o) (Sort orig v) true (from_array o) (mixed_encoding o) (ob_encoding o) (ob_count o).

Definition last_fde (ob : object) (f : Z) : bool := (ob_pc_end ob <=? f) || (fde_length f =? 0).

Definition base_from_object (encoding : Z) (ob : object) : result Z :=
  if encoding =? DW_EH_PE_omit then Ok 0 else
  let k := Z.land encoding 0x70 in
  if (k =? DW_EH_PE_absptr) || (k =? DW_EH_PE_pcrel) || (k =? DW_EH_PE_aligned) then Ok 0
  else if k =? DW_EH_PE_textrel then Ok (tbase ob)
  else if k =? DW_EH_PE_datarel then Ok (dbase ob)
  else Err Uninitialised.

(** The three comparisons. *)
Definition fde_unencoded_compare (x y : Z) : result Z :=
  Ok (three_way (ldn mem 8 (pc_field x)) (ldn mem 8 (pc_field y))).

Definition fde_single_encoding_compare (ob : object) (x y : Z) : result Z :=
  base ← base_from_object (ob_encoding ob) ob;
  '(x_ptr, _) ← read_encoded_value_with_base (ob_encoding ob) base (pc_field x);
  '(y_ptr, _) ← read_encoded_value_with_base (ob_encoding ob) base (pc_field y);
  Ok (three_way x_ptr y_ptr).

Definition fde_mixed_encoding_compare (ob : object) (x y : Z) : result Z :=
  x_encoding ← get_fde_encoding x;
  x_base ← base_from_object x_encoding ob;
  '(x_ptr, _) ← read_encoded_value_with_base x_encoding x_base (pc_field x);
  y_encoding ← get_fde_encoding y;
  y_base ← base_from_object y_encoding ob;
  '(y_ptr, _) ← read_encoded_value_with_base y_encoding y_base (pc_field y);
  Ok (three_way x_ptr y_ptr).

(** The choice of [end_fde_sort]. *)
Definition compare_of (ob : object) : Z → Z → result Z :=
  if mixed_encoding ob then fde_mixed_encoding_compare ob
  else if ob_encoding ob =? DW_EH_PE_absptr then fde_unencoded_compare
  else fde_single_encoding_compare ob.

(** Does the address stand for a function that was removed: is it zero in the bits
    that the encoding has? *)
Definition removed (encoding pc_begin : Z) : result bool :=
  size ← size_of_encoded_value encoding;
  let mask := if size <? 8 then Z.shiftl 1 (8 * size) - 1 else 2 ^ 64 - 1 in
  Ok (Z.land pc_begin mask =? 0).

(** ** Classifying and collecting *)

(** [wf] bounds the number of records of a section and of sections in an array. *)
Context (wf : nat).

(** The encoding of the object after a descriptor with another common record. *)
Definition note_encoding (encoding : Z) (ob : object) : object :=
  if ob_encoding ob =? DW_EH_PE_omit then with_encoding encoding ob
  else if negb (ob_encoding ob =? encoding) then with_mixed ob else ob.

(** Determines the encoding of a descriptor, and whether to stop. *)
Definition classify_encoding (ob : object) (f last_cie encoding base : Z) : result (bool * object * Z * Z) :=
  let this_cie := get_cie f in
  if this_cie =? last_cie then Ok (false, ob, encoding, base) else
  encoding ← get_cie_encoding this_cie;
  if encoding =? DW_EH_PE_omit then Ok (true, ob, encoding, base) else
  base ← base_from_object encoding ob;
  Ok (false, note_encoding encoding ob, encoding, base).

(** [classify_object_over_fdes]: the number of descriptors, none for -1, and the
    object with its encoding and its first address. *)
Fixpoint classify_loop (fuel : nat) (ob : object) (f last_cie count encoding base : Z) : result (option Z * object) :=
  match fuel with
  | O => Err Hang
  | S fuel' =>
      if last_fde ob f then Ok (Some count, ob)
      else if CIE_delta f =? 0 then classify_loop fuel' ob (next_fde f) last_cie count encoding base
      else
        let this_cie := get_cie f in
        '(stop, ob, encoding, base) ← classify_encoding ob f last_cie encoding base;
        if (stop : bool) then Ok (None, ob) else
        '(pc_begin, _) ← read_encoded_value_with_base encoding base (pc_field f);
        gone ← removed encoding pc_begin;
        if (gone : bool) then classify_loop fuel' ob (next_fde f) this_cie count encoding base
        else
          let ob := if pc_begin <? ob_pc_begin ob then with_pc_begin pc_begin ob else ob in
          classify_loop fuel' ob (next_fde f) this_cie (u64 (count + 1)) encoding base
  end.

Definition classify_object_over_fdes (ob : object) (f : Z) : result (option Z * object) :=
  classify_loop wf ob f 0 0 DW_EH_PE_absptr 0.

(** The encoding and base for a descriptor in [add_fdes] and [linear_search_fdes]. *)
Definition step_encoding (ob : object) (f last_cie encoding base : Z) : result (Z * Z * Z) :=
  if negb (mixed_encoding ob) then Ok (last_cie, encoding, base)
  else if get_cie f =? last_cie then Ok (last_cie, encoding, base)
  else encoding ← get_cie_encoding (get_cie f);
       base ← base_from_object encoding ob;
       Ok (get_cie f, encoding, base).

(** [fde_insert] on the vector [v] with room for [cap] elements. *)
Definition fde_insert (cap : Z) (v : list Z) (f : Z) : result (list Z) :=
  _ ← check OutOfBounds (Z.of_nat (length v) <? cap); Ok (v ++ [f]).

Fixpoint add_loop (fuel : nat) (ob : object) (cap : Z) (v : list Z) (f last_cie encoding base : Z) : result (list Z) :=
  match fuel with
  | O => Err Hang
  | S fuel' =>
      if last_fde ob f then Ok v
      else if CIE_delta f =? 0 then add_loop fuel' ob cap v (next_fde f) last_cie encoding base
      else
        '(last_cie, encoding, base) ← step_encoding ob f last_cie encoding base;
        gone ← (if encoding =? DW_EH_PE_absptr then Ok (ldn mem 8 (pc_field f) =? 0)
                else '(pc_begin, _) ← read_encoded_value_with_base encoding base (pc_field f); removed encoding pc_begin);
        v ← (if (gone : bool) then Ok v else fde_insert cap v f);
        add_loop fuel' ob cap v (next_fde f) last_cie encoding base
  end.

Definition add_fdes (ob : object) (cap : Z) (v : list Z) (f : Z) : result (list Z) :=
  base ← base_from_object (ob_encoding ob) ob;
  add_loop wf ob cap v f 0 (ob_encoding ob) base.

(** ** Allocation *)

Definition MEMORY_SIZE : Z := 4096 * 50.

(** [malloc]: the offset in [MEMORY] of the block, and of the free part after it. *)
Definition malloc (size used : Z) : Z * Z := (used, used + u64 (size + 7) / 8 * 8).

(** The elements of a vector at an offset that lie in [MEMORY]. *)
Definition capacity (offset count : Z) : Z := Z.min count ((MEMORY_SIZE - offset - 16) / 8).

(** [start_fde_sort]: the room in both vectors, none when there is nothing to sort. *)
Definition start_fde_sort (count used : Z) : result (option (Z * Z) * Z) :=
  if count =? 0 then Ok (None, used) else
  let size := u64 (16 + 8 * count) in
  let '(linear, used) := malloc size used in
  _ ← check OutOfBounds (linear + 16 <=? MEMORY_SIZE);
  let '(erratic, used) := malloc size used in
  _ ← check OutOfBounds (erratic + 16 <=? MEMORY_SIZE);
  Ok (Some (capacity linear count, capacity erratic count), used).

(** ** [init_object] *)

(** The address of the static record [terminator], whose length is 0. *)
Context (terminator : Z).

Definition unhandled (ob : object) : object :=
  MkObject (ob_pc_begin ob) (ob_pc_end ob) (tbase ob) (dbase ob) (Single terminator) false false false DW_EH_PE_omit 0.

(** The loops over an array of sections, which ends with NULL. *)
Fixpoint classify_array (fuel : nat) (ob : object) (p count : Z) : result (option Z * object) :=
  match fuel with
  | O => Err Hang
  | S fuel' =>
      if ldn mem 8 p =? 0 then Ok (Some count, ob) else
      '(c, ob) ← classify_object_over_fdes ob (ldn mem 8 p);
      match c with None => Ok (None, ob) | Some c => classify_array fuel' ob (p + 8) (u64 (count + c)) end
  end.

Fixpoint add_array (fuel : nat) (ob : object) (cap : Z) (v : list Z) (p : Z) : result (list Z) :=
  match fuel with
  | O => Err Hang
  | S fuel' => if ldn mem 8 p =? 0 then Ok v else v ← add_fdes ob cap v (ldn mem 8 p); add_array fuel' ob cap v (p + 8)
  end.

Definition classify_source (ob : object) : result (option Z * object) :=
  match ob_u ob with
  | Single p => classify_object_over_fdes ob p
  | Array p => classify_array wf ob p 0
  | Sort _ _ => Err Uninitialised
  end.

Definition add_source (ob : object) (cap : Z) : result (list Z) :=
  match ob_u ob with
  | Single p => add_fdes ob cap [] p
  | Array p => add_array wf ob cap [] p
  | Sort _ _ => Err Uninitialised
  end.

(** The address that is kept as [orig_data]. *)
Definition source_address (u : source) : Z := match u with Single p | Array p => p | Sort orig _ => orig end.

(** Counting, unless an earlier call has done it; none when a record is unknown. *)
Definition count_fdes (ob : object) : result (option Z * object) :=
  if negb (ob_count ob =? 0) then Ok (Some (ob_count ob), ob) else
  '(c, ob) ← classify_source ob;
  match c with
  | None => Ok (None, unhandled ob)
  | Some count => Ok (Some count, with_count (if count <? 2 ^ 21 then count else 0) ob)
  end.

Definition init_object (ob : object) (used : Z) : result (object * Z) :=
  '(c, ob) ← count_fdes ob;
  match c with
  | None => Ok (ob, used)
  | Some count =>
      '(room, used) ← start_fde_sort count used;
      match room with
      | None => Ok (ob, used)
      | Some (cap1, cap2) =>
          linear ← add_source ob cap1;
          v ← end_fde_sort (compare_of ob) linear (Some (replicate (Z.to_nat cap2) Junk));
          Ok (with_sorted v (source_address (ob_u ob)) ob, used)
      end
  end.

(** ** Searching *)

Fixpoint linear_loop (fuel : nat) (ob : object) (pc f last_cie encoding base : Z) : result (option Z) :=
  match fuel with
  | O => Err Hang
  | S fuel' =>
      if last_fde ob f then Ok None
      else if CIE_delta f =? 0 then linear_loop fuel' ob pc (next_fde f) last_cie encoding base
      else
        '(last_cie, encoding, base) ← step_encoding ob f last_cie encoding base;
        '(gone, pc_begin, pc_range) ←
          (if encoding =? DW_EH_PE_absptr then
             let pc_begin := ldn mem 8 (pc_field f) in Ok (pc_begin =? 0, pc_begin, ldn mem 8 (pc_field f + 8))
           else
             '(pc_begin, p) ← read_encoded_value_with_base encoding base (pc_field f);
             '(pc_range, _) ← read_encoded_value_with_base (Z.land encoding 0x0F) 0 p;
             gone ← removed encoding pc_begin;
             Ok (gone, pc_begin, pc_range));
        if negb (gone : bool) && (u64 (pc - pc_begin) <? pc_range) then Ok (Some f)
        else linear_loop fuel' ob pc (next_fde f) last_cie encoding base
  end.

Definition linear_search_fdes (ob : object) (f pc : Z) : result (option Z) :=
  base ← base_from_object (ob_encoding ob) ob;
  linear_loop wf ob pc f 0 (ob_encoding ob) base.

(** The three binary searches: their loop, and how each reads a range. *)
Fixpoint binary_loop (range : Z → result (Z * Z)) (fuel : nat) (v : list Z) (pc lo hi : Z) : result (option Z) :=
  if negb (lo <? hi) then Ok None else
  match fuel with
  | O => Err Hang
  | S fuel' =>
      let i := (lo + hi) / 2 in
      f ← rd v i;
      '(pc_begin, pc_range) ← range f;
      if pc <? pc_begin then binary_loop range fuel' v pc lo i
      else if u64 (pc_begin + pc_range) <=? pc then binary_loop range fuel' v pc (i + 1) hi
      else Ok (Some f)
  end.

Definition unencoded_range (f : Z) : result (Z * Z) := Ok (ldn mem 8 (pc_field f), ldn mem 8 (pc_field f + 8)).

Definition encoded_range (encoding base f : Z) : result (Z * Z) :=
  '(pc_begin, p) ← read_encoded_value_with_base encoding base (pc_field f);
  '(pc_range, _) ← read_encoded_value_with_base (Z.land encoding 0x0F) 0 p;
  Ok (pc_begin, pc_range).

Definition mixed_range (ob : object) (f : Z) : result (Z * Z) :=
  encoding ← get_fde_encoding f;
  base ← base_from_object encoding ob;
  encoded_range encoding base f.

Definition binary_search_unencoded_fdes (v : list Z) (pc : Z) : result (option Z) :=
  binary_loop unencoded_range (length v) v pc 0 (Z.of_nat (length v)).

Definition binary_search_single_encoding_fdes (ob : object) (v : list Z) (pc : Z) : result (option Z) :=
  base ← base_from_object (ob_encoding ob) ob;
  binary_loop (encoded_range (ob_encoding ob) base) (length v) v pc 0 (Z.of_nat (length v)).

Definition binary_search_mixed_encoding_fdes (ob : object) (v : list Z) (pc : Z) : result (option Z) :=
  binary_loop (mixed_range ob) (length v) v pc 0 (Z.of_nat (length v)).

Fixpoint linear_array (fuel : nat) (ob : object) (p pc : Z) : result (option Z) :=
  match fuel with
  | O => Err Hang
  | S fuel' =>
      if ldn mem 8 p =? 0 then Ok None else
      r ← linear_search_fdes ob (ldn mem 8 p) pc;
      match r with Some f => Ok (Some f) | None => linear_array fuel' ob (p + 8) pc end
  end.

(** The search in an object that has been prepared. *)
Definition search_prepared (ob : object) (pc : Z) : result (option Z) :=
  match ob_u ob with
  | Sort _ v =>
      if mixed_encoding ob then binary_search_mixed_encoding_fdes ob v pc
      else if ob_encoding ob =? DW_EH_PE_absptr then binary_search_unencoded_fdes v pc
      else binary_search_single_encoding_fdes ob v pc
  | Array p => linear_array wf ob p pc
  | Single p => linear_search_fdes ob p pc
  end.

Definition search_object (ob : object) (pc used : Z) : result (option Z * object * Z) :=
  if negb (sorted ob) then
    '(ob, used) ← init_object ob used;
    if pc <? ob_pc_begin ob then Ok (None, ob, used)
    else r ← search_prepared ob pc; Ok (r, ob, used)
  else r ← search_prepared ob pc; Ok (r, ob, used).

(** ** The registered objects *)

Record unwinder := MkUnwinder { unseen_objects : list object; seen_objects : list object; heap_used : Z }.

(** The loop over the classified objects: at most one of them is searched. *)
Fixpoint find_seen (seen : list object) (pc used : Z) : result (option (Z * object) * list object * Z) :=
  match seen with
  | [] => Ok (None, [], used)
  | ob :: rest =>
      if ob_pc_begin ob <=? pc then
        '(r, ob, used) ← search_object ob pc used;
        Ok (match r with Some f => Some (f, ob) | None => None end, ob :: rest, used)
      else '(r, rest, used) ← find_seen rest pc used; Ok (r, ob :: rest, used)
  end.

(** In front of the first object with a smaller address. *)
Fixpoint insert_seen (ob : object) (seen : list object) : list object :=
  match seen with
  | [] => [ob]
  | o :: rest => if ob_pc_begin o <? ob_pc_begin ob then ob :: seen else o :: insert_seen ob rest
  end.

(** The loop over the objects that were not searched before. *)
Fixpoint find_unseen (unseen seen : list object) (pc used : Z) : result (option (Z * object) * unwinder) :=
  match unseen with
  | [] => Ok (None, MkUnwinder [] seen used)
  | ob :: rest =>
      '(r, ob, used) ← search_object ob pc used;
      let seen := insert_seen ob seen in
      match r with
      | Some f => Ok (Some (f, ob), MkUnwinder rest seen used)
      | None => find_unseen rest seen pc used
      end
  end.

(** [struct dwarf_eh_bases]. *)
Record dwarf_eh_bases := MkBases { bases_tbase : Z; bases_dbase : Z; func : Z }.

Definition find_bases (f : Z) (ob : object) : result dwarf_eh_bases :=
  encoding ← (if mixed_encoding ob then get_fde_encoding f else Ok (ob_encoding ob));
  base ← base_from_object encoding ob;
  '(fn, _) ← read_encoded_value_with_base encoding base (pc_field f);
  Ok (MkBases (tbase ob) (dbase ob) fn).

Definition Unwind_Find_FDE (pc : Z) (st : unwinder) : result (option (Z * dwarf_eh_bases) * unwinder) :=
  '(r, seen, used) ← find_seen (seen_objects st) pc (heap_used st);
  '(r, st) ← match r with
             | Some _ => Ok (r, MkUnwinder (unseen_objects st) seen used)
             | None => find_unseen (unseen_objects st) seen pc used
             end;
  match r with
  | None => Ok (None, st)
  | Some (f, ob) => bases ← find_bases f ob; Ok (Some (f, bases), st)
  end.

Definition Unwind_FindEnclosingFunction (pc : Z) (st : unwinder) : result (Z * unwinder) :=
  '(r, st) ← Unwind_Find_FDE (u64 (pc - 1)) st;
  Ok (match r with Some (_, b) => func b | None => 0 end, st).

(** [__register_frame_info_bases] for an object whose end is set afterwards. *)
Definition register_frame_info_bases (begin pc_end tb db : Z) (st : unwinder) : unwinder :=
  if (begin =? 0) || (ldn mem 4 begin =? 0) then st else
  MkUnwinder (MkObject (2 ^ 64 - 1) pc_end tb db (Single begin) false false false DW_EH_PE_omit 0 :: unseen_objects st)
    (seen_objects st) (heap_used st).

(** [sizeof (struct object)] is 56. *)
Definition register_frame (begin pc_end : Z) (st : unwinder) : result unwinder :=
  if ldn mem 4 begin =? 0 then Ok st else
  let '(ob, used) := malloc 56 (heap_used st) in
  _ ← check OutOfBounds (ob + 56 <=? MEMORY_SIZE);
  Ok (register_frame_info_bases begin pc_end 0 0 (MkUnwinder (unseen_objects st) (seen_objects st) used)).

Definition init_unwinding (eh_start next_start : Z) (st : unwinder) : result unwinder := register_frame eh_start next_start st.

(** [__register_frame_info_table_bases]. *)
Definition register_frame_info_table_bases (begin pc_end tb db : Z) (st : unwinder) : unwinder :=
  MkUnwinder (MkObject (2 ^ 64 - 1) pc_end tb db (Array begin) false true false DW_EH_PE_omit 0 :: unseen_objects st)
    (seen_objects st) (heap_used st).

(** Taking an object out of a list. *)
Fixpoint deregister_in (begin : Z) (l : list object) : option (object * list object) :=
  match l with
  | [] => None
  | ob :: rest =>
      if source_address (ob_u ob) =? begin then Some (ob, rest)
      else '(o, rest) ← deregister_in begin rest; Some (o, ob :: rest)
  end.

Definition deregister_frame_info_bases (begin : Z) (st : unwinder) : option object * unwinder :=
  if (begin =? 0) || (ldn mem 4 begin =? 0) then (None, st) else
  match deregister_in begin (unseen_objects st) with
  | Some (ob, rest) => (Some ob, MkUnwinder rest (seen_objects st) (heap_used st))
  | None =>
      match deregister_in begin (seen_objects st) with
      | Some (ob, rest) => (Some ob, MkUnwinder (unseen_objects st) rest (heap_used st))
      | None => (None, st)
      end
  end.
End memory.

(** ** What a section describes *)

Record frame := MkFrame { fr_enc : Z; fr_base : Z; fr_begin : Z; fr_range : Z; fr_gone : bool }.

Section sections.
Context (mem : Z → Z) (sf : nat) (tb db pc_end : Z).

(** The bases do not depend on anything else of an object. *)
Definition proto : object := MkObject 0 0 tb db (Single 0) false false false DW_EH_PE_omit 0.

(** What a descriptor says. *)
Definition decode (f : Z) : result frame :=
  enc ← get_fde_encoding mem sf f;
  base ← base_from_object enc proto;
  '(b, p) ← read_encoded_value_with_base mem enc base (pc_field f);
  '(r, _) ← read_encoded_value_with_base mem (Z.land enc 0x0F) 0 p;
  gone ← removed enc b;
  Ok (MkFrame enc base b r gone).

Definition readable (f : Z) : Prop := get_cie mem f ≠ 0 ∧ ∃ fr, decode f = Ok fr ∧ fr_enc fr ≠ DW_EH_PE_omit.

Definition the_frame (f : Z) : frame := match decode f with Ok fr => fr | Err _ => MkFrame 0 0 0 0 true end.
Abbreviation begin f := (fr_begin (the_frame f)).
Abbreviation range f := (fr_range (the_frame f)).
Definition live (f : Z) : bool := negb (fr_gone (the_frame f)).

(** [eh_frame n p fs]: from [p] on there are [n] records before the end, and [fs] are
    the descriptors among them. *)
Inductive eh_frame : nat → Z → list Z → Prop :=
| eh_end p : (pc_end <=? p) || (fde_length mem p =? 0) = true → eh_frame 0 p []
| eh_cie n p fs :
    (pc_end <=? p) || (fde_length mem p =? 0) = false → CIE_delta mem p = 0 → eh_frame n (next_fde mem p) fs → eh_frame (S n) p fs
| eh_fde n p fs :
    (pc_end <=? p) || (fde_length mem p =? 0) = false → CIE_delta mem p ≠ 0 → eh_frame n (next_fde mem p) fs → eh_frame (S n) p (p :: fs).

(** The objects of these sections. *)
Definition for_section (ob : object) : Prop := ob_pc_end ob = pc_end ∧ tbase ob = tb ∧ dbase ob = db.

(** The common encoding of an object, unless it is marked as mixed. *)
Definition agrees (ob : object) (fs : list Z) : Prop := mixed_encoding ob = true ∨ ∀ f, f ∈ fs → fr_enc (the_frame f) = ob_encoding ob.

Hypothesis mem_byte : ∀ a, 0 ≤ mem a < 256.

Lemma ldn_range n a : 0 ≤ ldn mem n a < 256 ^ Z.of_nat n.
Proof.
  revert a. induction n as [|n IH]; intros a; [simpl; lia|]. cbn [ldn]. pose proof (mem_byte a). pose proof (IH (a + 1)).
  rewrite Nat2Z.inj_succ, Z.pow_succ_r by lia. lia.
Qed.

Lemma read_absptr a : read_encoded_value_with_base mem DW_EH_PE_absptr 0 a = Ok (ldn mem 8 a, a + 8).
Proof.
  unfold read_encoded_value_with_base. cbv zeta. change (DW_EH_PE_absptr =? DW_EH_PE_aligned) with false.
  change (Z.land DW_EH_PE_absptr 0x0f =? DW_EH_PE_absptr) with true. cbv iota. rewrite bind_Ok.
  destruct (Z.eqb_spec (ldn mem 8 a) 0) as [->|]; [done|]. pose proof (ldn_range 8 a) as Hl.
  change (256 ^ Z.of_nat 8) with (2 ^ 64) in Hl. change (Z.land DW_EH_PE_absptr 0x70 =? DW_EH_PE_pcrel) with false.
  change (Z.land DW_EH_PE_absptr DW_EH_PE_indirect =? 0) with true. cbv iota.
  by rewrite Z.add_0_r, wrap_small by (unfold fits; lia).
Qed.

Lemma decode_the f fr : decode f = Ok fr → the_frame f = fr.
Proof. unfold the_frame. by intros ->. Qed.

(** The parts of a descriptor, for an object of the section. *)
Lemma readable_parts f ob : readable f → for_section ob →
  get_cie_encoding mem sf (get_cie mem f) = Ok (fr_enc (the_frame f)) ∧ fr_enc (the_frame f) ≠ DW_EH_PE_omit ∧
  base_from_object (fr_enc (the_frame f)) ob = Ok (fr_base (the_frame f)) ∧
  removed (fr_enc (the_frame f)) (begin f) = Ok (fr_gone (the_frame f)) ∧
  ∃ p q, read_encoded_value_with_base mem (fr_enc (the_frame f)) (fr_base (the_frame f)) (pc_field f) = Ok (begin f, p) ∧
    read_encoded_value_with_base mem (Z.land (fr_enc (the_frame f)) 0x0F) 0 p = Ok (range f, q).
Proof.
  intros (_ & fr & Hfr & Ho) (_ & Ht & Hd). rewrite (decode_the _ _ Hfr). revert Hfr. unfold decode, get_fde_encoding. intros Hfr.
  inv_result. destruct a1 as [b p]. inv_result. destruct a1 as [r q]. inv_result. split_and!; [done|done| |done|by eexists _, _].
  rewrite <- Hb0. unfold base_from_object. simpl. by rewrite Ht, Hd.
Qed.

(** The plain encoding: two 64-bit words. *)
Lemma plain_parts f : readable f → fr_enc (the_frame f) = DW_EH_PE_absptr →
  begin f = ldn mem 8 (pc_field f) ∧ range f = ldn mem 8 (pc_field f + 8) ∧ fr_gone (the_frame f) = (ldn mem 8 (pc_field f) =? 0) ∧
  fr_base (the_frame f) = 0.
Proof.
  intros Hr He. destruct (readable_parts f (MkObject 0 pc_end tb db (Single 0) false false false 0 0) Hr) as (_ & _ & Hb & Hg & p & q & H1 & H2); [done|].
  rewrite He in *. inversion Hb as [Hb0]. rewrite <- Hb0 in *. pose proof (ldn_range 8 (pc_field f)) as Hl1. pose proof (ldn_range 8 (pc_field f + 8)) as Hl2.
  rewrite read_absptr in H1. assert (begin f = ldn mem 8 (pc_field f) ∧ p = pc_field f + 8) as [Eb ->] by (split; congruence).
  change (Z.land DW_EH_PE_absptr 0x0F) with DW_EH_PE_absptr in H2. rewrite read_absptr in H2.
  split_and!; [done|congruence| |done]. rewrite Eb in Hg. change (256 ^ Z.of_nat 8) with (2 ^ 64) in *.
  change (removed DW_EH_PE_absptr (ldn mem 8 (pc_field f))) with (Ok (Z.land (ldn mem 8 (pc_field f)) (Z.ones 64) =? 0)) in Hg.
  rewrite Z.land_ones, Z.mod_small in Hg by lia. congruence.
Qed.

(** ** Classifying *)

(** The state of the classification after the descriptors [seen]. *)
Record classified (ob : object) (seen : list Z) (last_cie encoding base : Z) : Prop := {
  c_section : for_section ob;
  c_agrees : agrees ob seen;
  c_begin : ∀ f, f ∈ seen → live f → ob_pc_begin ob ≤ begin f;
  c_omit : seen ≠ [] → ob_encoding ob ≠ DW_EH_PE_omit;
  c_fresh : seen = [] → last_cie = 0 ∧ ob_encoding ob = DW_EH_PE_omit;
  c_based : ∃ base, base_from_object (ob_encoding ob) ob = Ok base;
  c_last : last_cie ≠ 0 → get_cie_encoding mem sf last_cie = Ok encoding ∧ base_from_object encoding ob = Ok base ∧
             (mixed_encoding ob = true ∨ encoding = ob_encoding ob) }.

(** What the classification leaves alone. *)
Definition untouched (ob ob' : object) : Prop :=
  ob_pc_end ob' = ob_pc_end ob ∧ tbase ob' = tbase ob ∧ dbase ob' = dbase ob ∧ ob_u ob' = ob_u ob ∧
  sorted ob' = sorted ob ∧ from_array ob' = from_array ob ∧ ob_count ob' = ob_count ob ∧ ob_pc_begin ob' = ob_pc_begin ob.

Lemma note_encoding_spec enc ob seen :
  enc ≠ DW_EH_PE_omit → (seen ≠ [] → ob_encoding ob ≠ DW_EH_PE_omit) → agrees ob seen →
  untouched ob (note_encoding enc ob) ∧ ob_encoding (note_encoding enc ob) ≠ DW_EH_PE_omit ∧
  (mixed_encoding (note_encoding enc ob) = true ∨ enc = ob_encoding (note_encoding enc ob)) ∧ agrees (note_encoding enc ob) seen ∧
  (ob_encoding (note_encoding enc ob) = enc ∨ ob_encoding (note_encoding enc ob) = ob_encoding ob).
Proof.
  intros He Hs Ha. unfold note_encoding, agrees in *. destruct (Z.eqb_spec (ob_encoding ob) DW_EH_PE_omit) as [Ho|Ho].
  - split_and!; [done|done|by right| |by left]. destruct seen as [|x seen]; [|by destruct Hs]. right. intros f Hf. by apply elem_of_nil in Hf.
  - destruct (Z.eqb_spec (ob_encoding ob) enc); simpl; split_and!; [done|done|by right|done|by right|done|done|by left|by left|by right].
Qed.

Lemma base_untouched enc ob ob' : untouched ob ob' → base_from_object enc ob' = base_from_object enc ob.
Proof. intros (_ & Ht & Hd & _). unfold base_from_object. by rewrite Ht, Hd. Qed.

(** The step of the classification at a descriptor: its encoding and base, and the
    object with the encoding noted. *)
Lemma classify_encoding_spec ob seen last_cie encoding base f :
  readable f → classified ob seen last_cie encoding base →
  ∃ ob', classify_encoding mem sf ob f last_cie encoding base = Ok (false, ob', fr_enc (the_frame f), fr_base (the_frame f)) ∧
    untouched ob ob' ∧ agrees ob' (seen ++ [f]) ∧ ob_encoding ob' ≠ DW_EH_PE_omit ∧
    (mixed_encoding ob' = true ∨ fr_enc (the_frame f) = ob_encoding ob') ∧ (∃ base, base_from_object (ob_encoding ob') ob' = Ok base).
Proof.
  intros Hr Hc. destruct (readable_parts f ob Hr (c_section _ _ _ _ _ Hc)) as (He & Ho & Hb & _).
  pose proof (c_based _ _ _ _ _ Hc) as Hbased.
  assert (∀ ob', agrees ob' seen → mixed_encoding ob' = true ∨ fr_enc (the_frame f) = ob_encoding ob' → agrees ob' (seen ++ [f])) as Hsnoc.
  { intros ob' [?|Ha] [?|?]; [by left..|]. right. intros g [Hg| ->%list_elem_of_singleton]%elem_of_app; auto. }
  unfold classify_encoding. destruct (Z.eqb_spec (get_cie mem f) last_cie) as [Hl|Hl].
  - destruct Hc as [Hs Ha Hbg Hom Hfr _ Hlast]. destruct Hr as [Hne _]. rewrite Hl in Hne, He. destruct (Hlast Hne) as (He' & Hb' & Hm).
    assert (encoding = fr_enc (the_frame f)) as -> by congruence. assert (base = fr_base (the_frame f)) as -> by congruence.
    exists ob. split_and!; [done|done|auto| |done|done]. intros Heq. destruct seen; [|by apply Hom]. by destruct Hfr.
  - rewrite He, bind_Ok. rewrite (proj2 (Z.eqb_neq _ _) Ho), Hb, bind_Ok.
    destruct (note_encoding_spec (fr_enc (the_frame f)) ob seen) as (Hu & Hne & Hm & Ha & Hor); [done|apply Hc|apply Hc|].
    exists (note_encoding (fr_enc (the_frame f)) ob). split_and!; [done|done|auto|done|done|].
    rewrite (base_untouched _ _ _ Hu). destruct Hor as [-> | ->]; [by eexists|done].
Qed.

Lemma classified_step ob seen last_cie encoding base f :
  readable f → classified ob seen last_cie encoding base → ∀ ob', untouched ob ob' → agrees ob' (seen ++ [f]) →
  ob_encoding ob' ≠ DW_EH_PE_omit → (mixed_encoding ob' = true ∨ fr_enc (the_frame f) = ob_encoding ob') →
  (∃ base, base_from_object (ob_encoding ob') ob' = Ok base) → ∀ b, b ≤ ob_pc_begin ob → (live f → b ≤ begin f) →
  classified (with_pc_begin b ob') (seen ++ [f]) (get_cie mem f) (fr_enc (the_frame f)) (fr_base (the_frame f)).
Proof.
  intros Hr Hc ob' Hu Ha Hne Hm Hbd b Hb Hlive. destruct (readable_parts f ob Hr (c_section _ _ _ _ _ Hc)) as (He & Ho & Hbase & _).
  destruct Hc as [Hs _ Hbg _ _ _ _]. pose proof Hu as (Hpe & Ht & Hd & _). split; try done.
  - destruct Hs as (? & ? & ?). unfold for_section. simpl. by split_and!; congruence.
  - intros g [Hg| ->%list_elem_of_singleton]%elem_of_app Hl; simpl; [|auto]. specialize (Hbg g Hg Hl). lia.
  - intros Hnil. by destruct seen.
  - intros _. split_and!; [done| |done]. rewrite <- Hbase. unfold base_from_object. simpl. by rewrite Ht, Hd.
Qed.

Definition keeps (ob ob' : object) : Prop :=
  ob_u ob' = ob_u ob ∧ sorted ob' = sorted ob ∧ from_array ob' = from_array ob ∧ ob_count ob' = ob_count ob.

Lemma live_gone f : live f = negb (fr_gone (the_frame f)).
Proof. done. Qed.

Lemma classify_loop_spec fuel : ∀ n p fs ob seen last_cie count encoding base,
  (n < fuel)%nat → eh_frame n p fs → Forall readable fs → classified ob seen last_cie encoding base →
  0 ≤ count → count + Z.of_nat (length fs) < 2 ^ 64 →
  ∃ ob' last_cie' encoding' base', classify_loop mem sf fuel ob p last_cie count encoding base =
      Ok (Some (count + Z.of_nat (length (filter live fs))), ob') ∧
    classified ob' (seen ++ fs) last_cie' encoding' base' ∧ keeps ob ob'.
Proof.
  induction fuel as [|fuel IH]; intros n p fs ob seen last_cie count encoding base Hn Hw Hr Hc H0 Hlen; [lia|].
  assert (last_fde mem ob p = (pc_end <=? p) || (fde_length mem p =? 0)) as Hlast.
  { unfold last_fde. by destruct (c_section _ _ _ _ _ Hc) as (-> & _). }
  cbn [classify_loop]. rewrite Hlast. destruct Hw as [p Hend|n p fs Hend Hd Hw|n p fs Hend Hd Hw]; rewrite Hend.
  - exists ob, last_cie, encoding, base. simpl. by rewrite Z.add_0_r, app_nil_r.
  - rewrite Hd, Z.eqb_refl. by apply (IH n); [lia|..].
  - rewrite (proj2 (Z.eqb_neq _ _) Hd). apply Forall_cons in Hr as [Hr Hrs]. simpl in Hlen.
    destruct (classify_encoding_spec _ _ _ _ _ _ Hr Hc) as (ob1 & -> & Hu & Ha & Hne & Hm & Hbsd). rewrite bind_Ok.
    destruct (readable_parts p ob Hr (c_section _ _ _ _ _ Hc)) as (He & Ho & Hbase & Hg & q & q' & Hread & _).
    rewrite Hread, bind_Ok, Hg, bind_Ok.
    assert (keeps ob ob1) as Hk by (destruct Hu as (?&?&?&?&?&?&?&?); by unfold keeps).
    assert (ob_pc_begin ob1 = ob_pc_begin ob) as Hbe by apply Hu.
    pose proof (classified_step _ _ _ _ _ _ Hr Hc ob1 Hu Ha Hne Hm Hbsd) as Hstep. rewrite filter_cons, live_gone.
    destruct (fr_gone (the_frame p)) eqn:Hgone; simpl.
    + destruct (IH n (next_fde mem p) fs ob1 (seen ++ [p]) (get_cie mem p) count (fr_enc (the_frame p)) (fr_base (the_frame p)))
        as (ob' & l' & e' & b' & -> & Hc' & Hk'); [lia|done|done| |lia|lia|].
      { specialize (Hstep (ob_pc_begin ob) ltac:(lia)). rewrite <- Hbe in Hstep. destruct ob1. apply Hstep. unfold live. by rewrite Hgone. }
      exists ob', l', e', b'. rewrite <- (assoc_L app) in Hc'. split_and!; [done|done|]. unfold keeps in *. naive_solver congruence.
    + set (b := if begin p <? ob_pc_begin ob1 then begin p else ob_pc_begin ob1).
      replace (if begin p <? ob_pc_begin ob1 then with_pc_begin (begin p) ob1 else ob1) with (with_pc_begin b ob1)
        by (unfold b; destruct ob1; simpl; by case_match).
      rewrite wrap_small by (unfold fits; lia).
      destruct (IH n (next_fde mem p) fs (with_pc_begin b ob1) (seen ++ [p]) (get_cie mem p) (count + 1) (fr_enc (the_frame p)) (fr_base (the_frame p)))
        as (ob' & l' & e' & b' & -> & Hc' & Hk'); [lia|done|done| |lia|lia|].
      { apply Hstep; unfold b; rewrite Hbe; case_match; lia. }
      exists ob', l', e', b'. rewrite <- (assoc_L app) in Hc'. split_and!; [do 3 f_equal; lia|done|].
      unfold keeps in *. simpl in Hk'. naive_solver congruence.
Qed.

(** ** Collecting and linear search *)

(** The encoding that the loops carry from one descriptor to the next. *)
Definition carried (ob : object) (last_cie encoding base : Z) : Prop :=
  if mixed_encoding ob then last_cie ≠ 0 → get_cie_encoding mem sf last_cie = Ok encoding ∧ base_from_object encoding ob = Ok base
  else encoding = ob_encoding ob ∧ base_from_object encoding ob = Ok base.

Lemma step_encoding_spec ob fs f last_cie encoding base :
  for_section ob → agrees ob fs → f ∈ fs → readable f → carried ob last_cie encoding base →
  ∃ last_cie', step_encoding mem sf ob f last_cie encoding base = Ok (last_cie', fr_enc (the_frame f), fr_base (the_frame f)) ∧
    carried ob last_cie' (fr_enc (the_frame f)) (fr_base (the_frame f)).
Proof.
  intros Hs Ha Hf Hr Hc. destruct (readable_parts f ob Hr Hs) as (He & Ho & Hb & _). unfold step_encoding, carried in *.
  destruct (mixed_encoding ob) eqn:Hm; simpl.
  - destruct (Z.eqb_spec (get_cie mem f) last_cie) as [<-|Hl].
    + destruct (Hc (proj1 Hr)) as [He' Hb']. assert (encoding = fr_enc (the_frame f)) as -> by congruence.
      assert (base = fr_base (the_frame f)) as -> by congruence. by eexists.
    + rewrite He, bind_Ok, Hb, bind_Ok. by eexists.
  - destruct Ha as [?|Ha]; [congruence|]. destruct Hc as [-> Hb']. rewrite <- (Ha f Hf) in *.
    assert (base = fr_base (the_frame f)) as -> by congruence. by eexists.
Qed.

(** How both loops read a descriptor. *)
Lemma read_frame ob f : for_section ob → readable f →
  (if fr_enc (the_frame f) =? DW_EH_PE_absptr then
     Ok (ldn mem 8 (pc_field f) =? 0, ldn mem 8 (pc_field f), ldn mem 8 (pc_field f + 8))
   else
     '(pc_begin, p) ← read_encoded_value_with_base mem (fr_enc (the_frame f)) (fr_base (the_frame f)) (pc_field f);
     '(pc_range, _) ← read_encoded_value_with_base mem (Z.land (fr_enc (the_frame f)) 0x0F) 0 p;
     gone ← removed (fr_enc (the_frame f)) pc_begin;
     Ok (gone, pc_begin, pc_range)) = Ok (fr_gone (the_frame f), begin f, range f).
Proof.
  intros Hs Hr. destruct (Z.eqb_spec (fr_enc (the_frame f)) DW_EH_PE_absptr) as [He|He].
  - destruct (plain_parts f Hr He) as (-> & -> & -> & _). done.
  - destruct (readable_parts f ob Hr Hs) as (_ & _ & _ & Hg & p & q & -> & H2). by rewrite bind_Ok, H2, bind_Ok, Hg.
Qed.

Lemma read_gone ob f : for_section ob → readable f →
  (if fr_enc (the_frame f) =? DW_EH_PE_absptr then Ok (ldn mem 8 (pc_field f) =? 0)
   else '(pc_begin, _) ← read_encoded_value_with_base mem (fr_enc (the_frame f)) (fr_base (the_frame f)) (pc_field f);
        removed (fr_enc (the_frame f)) pc_begin) = Ok (fr_gone (the_frame f)).
Proof.
  intros Hs Hr. destruct (Z.eqb_spec (fr_enc (the_frame f)) DW_EH_PE_absptr) as [He|He].
  - by destruct (plain_parts f Hr He) as (_ & _ & -> & _).
  - destruct (readable_parts f ob Hr Hs) as (_ & _ & _ & Hg & p & q & -> & _). by rewrite bind_Ok.
Qed.

Lemma last_fde_end ob p : for_section ob → last_fde mem ob p = (pc_end <=? p) || (fde_length mem p =? 0).
Proof. intros (H & _). unfold last_fde. by rewrite H. Qed.

Lemma add_loop_spec ob all cap : for_section ob → agrees ob all → Forall readable all → ∀ fuel n p fs v last_cie encoding base,
  (n < fuel)%nat → eh_frame n p fs → (∀ f, f ∈ fs → f ∈ all) → carried ob last_cie encoding base →
  Z.of_nat (length v + length (filter live fs)) ≤ cap →
  add_loop mem sf fuel ob cap v p last_cie encoding base = Ok (v ++ filter live fs).
Proof.
  intros Hs Ha Hr fuel. induction fuel as [|fuel IH]; intros n p fs v last_cie encoding base Hn Hw Hin Hc Hcap; [lia|].
  cbn [add_loop]. rewrite last_fde_end by done. destruct Hw as [p Hend|n p fs Hend Hd Hw|n p fs Hend Hd Hw]; rewrite Hend.
  - by rewrite app_nil_r.
  - rewrite Hd, Z.eqb_refl. by apply (IH n); [lia|..].
  - rewrite (proj2 (Z.eqb_neq _ _) Hd). assert (p ∈ all) as Hp by (apply Hin; left).
    assert (readable p) as Hrp by (by eapply Forall_forall in Hr).
    destruct (step_encoding_spec ob all p last_cie encoding base) as (l' & -> & Hc'); [done..|]. rewrite bind_Ok, (read_gone ob), bind_Ok by done.
    rewrite filter_cons in *. rewrite live_gone in *. destruct (fr_gone (the_frame p)); simpl in *.
    + apply (IH n); [lia|done| |done|done]. intros f Hf. apply Hin. by right.
    + unfold fde_insert. rewrite (proj2 (Z.ltb_lt _ _)) by lia. simpl.
      rewrite (IH n _ fs); [by rewrite <- (assoc_L app)|lia|done| |done|rewrite length_app; simpl; lia]. intros f Hf. apply Hin. by right.
Qed.

Definition covers (f pc : Z) : Prop := begin f ≤ pc < begin f + range f.

(** The answer of a search among descriptors. *)
Definition answers (fs : list Z) (pc : Z) (r : option Z) : Prop :=
  match r with
  | Some f => f ∈ fs ∧ live f ∧ covers f pc
  | None => ∀ f, f ∈ fs → live f → ¬ covers f pc
  end.

(** The address range of a descriptor does not wrap. *)
Definition bounded (f : Z) : Prop := 0 ≤ begin f ∧ 0 < range f ∧ begin f + range f < 2 ^ 64.

Lemma covers_sub f pc : bounded f → fits 64 pc → (u64 (pc - begin f) <? range f) = true ↔ covers f pc.
Proof.
  intros (H0 & H1 & H2) Hpc. unfold covers, fits in *. rewrite Z.ltb_lt. destruct (decide (begin f ≤ pc)).
  - rewrite wrap_small by (unfold fits; lia). lia.
  - assert (u64 (pc - begin f) = pc - begin f + 2 ^ 64) as -> by (symmetry; apply (Z.mod_unique_pos _ _ (-1)); lia). lia.
Qed.

Lemma linear_loop_spec ob all pc : for_section ob → agrees ob all → Forall readable all →
  (∀ f, f ∈ all → live f → bounded f) → fits 64 pc → ∀ fuel n p fs last_cie encoding base,
  (n < fuel)%nat → eh_frame n p fs → (∀ f, f ∈ fs → f ∈ all) → carried ob last_cie encoding base →
  ∃ r, linear_loop mem sf fuel ob pc p last_cie encoding base = Ok r ∧ answers fs pc r.
Proof.
  intros Hs Ha Hr Hbd Hpc fuel. induction fuel as [|fuel IH]; intros n p fs last_cie encoding base Hn Hw Hin Hc; [lia|].
  cbn [linear_loop]. rewrite last_fde_end by done. destruct Hw as [p Hend|n p fs Hend Hd Hw|n p fs Hend Hd Hw]; rewrite Hend.
  - exists None. split; [done|]. intros f Hf. by apply elem_of_nil in Hf.
  - rewrite Hd, Z.eqb_refl. by apply (IH n); [lia|..].
  - rewrite (proj2 (Z.eqb_neq _ _) Hd). assert (p ∈ all) as Hp by (apply Hin; left).
    assert (readable p) as Hrp by (by eapply Forall_forall in Hr).
    destruct (step_encoding_spec ob all p last_cie encoding base) as (l' & -> & Hc'); [done..|]. rewrite bind_Ok.
    pose proof (read_frame ob p Hs Hrp) as Hread. cbv zeta. rewrite Hread, bind_Ok.
    destruct (IH n (next_fde mem p) fs l' (fr_enc (the_frame p)) (fr_base (the_frame p))) as (r & Hrec & Hans); [lia|done| |done|].
    { intros f Hf. apply Hin. by right. }
    assert ((negb (fr_gone (the_frame p)) && (u64 (pc - begin p) <? range p)) = true ↔ live p ∧ covers p pc) as Hiff.
    { destruct (live p) eqn:Hl; rewrite live_gone in Hl; rewrite Hl; simpl; [|naive_solver].
      rewrite covers_sub; [naive_solver| |done]. apply Hbd; [done|]. by rewrite live_gone, Hl. }
    destruct (negb _ && _).
    + exists (Some p). split; [done|]. destruct (proj1 Hiff eq_refl). split_and!; [left|done..].
    + exists r. split; [done|]. destruct r as [f|]; simpl in *.
      * destruct Hans as (? & ? & ?). split_and!; [by right|done..].
      * intros f [->|Hf]%elem_of_cons Hl Hcov; [|by eapply Hans]. by pose proof (proj2 Hiff (conj Hl Hcov)).
Qed.

(** ** Binary search *)

Lemma base_of_frame ob f : for_section ob → readable f → ¬ mixed_encoding ob → agrees ob [f] →
  base_from_object (ob_encoding ob) ob = Ok (fr_base (the_frame f)) ∧ fr_enc (the_frame f) = ob_encoding ob.
Proof.
  intros Hs Hr Hm [?|Ha]; [by destruct (mixed_encoding ob)|]. rewrite <- (Ha f) by left.
  by destruct (readable_parts f ob Hr Hs) as (_ & _ & Hb & _).
Qed.

(** The comparison that is chosen orders by the first address. *)
Lemma compare_of_key ob fs : for_section ob → agrees ob fs → Forall readable fs → ∀ x y, x ∈ fs → y ∈ fs →
  compare_of mem sf ob x y = Ok (three_way (begin x) (begin y)).
Proof.
  intros Hs Ha Hr x y Hx Hy. rewrite Forall_forall in Hr. pose proof (Hr x Hx) as Hrx. pose proof (Hr y Hy) as Hry.
  destruct (readable_parts x ob Hrx Hs) as (Hex & _ & Hbx & _ & px & qx & Hx1 & _).
  destruct (readable_parts y ob Hry Hs) as (Hey & _ & Hby & _ & py & qy & Hy1 & _).
  unfold compare_of. destruct (mixed_encoding ob) eqn:Hm.
  - unfold fde_mixed_encoding_compare, get_fde_encoding. by rewrite Hex, bind_Ok, Hbx, bind_Ok, Hx1, bind_Ok, Hey, bind_Ok, Hby, bind_Ok, Hy1.
  - destruct Ha as [?|Ha]; [congruence|]. pose proof (Ha x Hx) as Ex. pose proof (Ha y Hy) as Ey.
    destruct (Z.eqb_spec (ob_encoding ob) DW_EH_PE_absptr) as [E|E].
    + destruct (plain_parts x Hrx) as (-> & _); [congruence|]. destruct (plain_parts y Hry) as (-> & _); [congruence|]. done.
    + unfold fde_single_encoding_compare. rewrite Ex, Ey in *. assert (fr_base (the_frame y) = fr_base (the_frame x)) as Eb by congruence.
      rewrite Eb in Hy1. by rewrite Hbx, bind_Ok, Hx1, bind_Ok, Hy1.
Qed.

(** Ranges of different descriptors do not overlap. *)
Definition disjoint_ranges (fs : list Z) : Prop :=
  ∀ f g, f ∈ fs → g ∈ fs → f ≠ g → begin f + range f ≤ begin g ∨ begin g + range g ≤ begin f.

Lemma binary_loop_spec rng v pc :
  (∀ f, f ∈ v → rng f = Ok (begin f, range f)) → (∀ f, f ∈ v → bounded f) → disjoint_ranges v → NoDup v →
  ascending (λ f, begin f) v → ∀ fuel lo hi,
  (Z.to_nat (hi - lo) ≤ fuel)%nat → 0 ≤ lo → hi ≤ Z.of_nat (length v) →
  (∀ i f, v !! i = Some f → covers f pc → lo ≤ Z.of_nat i < hi) →
  ∃ r, binary_loop rng fuel v pc lo hi = Ok r ∧ match r with Some f => f ∈ v ∧ covers f pc | None => ∀ f, f ∈ v → ¬ covers f pc end.
Proof.
  intros Hrng Hbd Hdis Hnd Hasc fuel. induction fuel as [|fuel IH]; intros lo hi Hf Hlo Hhi Hin.
  all: cbn [binary_loop]; destruct (Z.ltb_spec lo hi) as [Hlt|Hge]; cbn [negb].
  1: lia.
  1, 3: exists None; split; [done|]; intros f [i Hi]%list_elem_of_lookup Hc; specialize (Hin i f Hi Hc); lia.
  assert (lo ≤ (lo + hi) / 2 < hi) as Hmid by (Z.to_euclidean_division_equations; lia). cbv zeta. set (m := (lo + hi) / 2) in *.
  destruct (rd_total v m) as (f & Hrd & Hm); [lia|]. rewrite Hrd, bind_Ok.
  assert (f ∈ v) as Hfv by (by eapply list_elem_of_lookup_2). rewrite Hrng, bind_Ok by done.
  destruct (Hbd f Hfv) as (Hb0 & Hb1 & Hb2).
  assert (∀ i j g h, v !! i = Some g → v !! j = Some h → (i < j)%nat → begin g ≤ begin h) as Hord.
  { intros i j g h Hi Hj Hij. rewrite <- (take_drop j v) in Hasc. apply StronglySorted_app in Hasc as (Hx & _ & _).
    apply Hx; [eapply list_elem_of_lookup_2; by rewrite lookup_take_lt|]. apply list_elem_of_lookup. exists 0%nat. by rewrite lookup_drop, Nat.add_0_r. }
  destruct (Z.ltb_spec pc (begin f)) as [Hpf|Hpf].
  - apply IH; [lia..|]. intros i g Hi Hc. split; [by eapply Hin|]. destruct (decide (m ≤ Z.of_nat i)); [|lia].
    exfalso. unfold covers in Hc. destruct (decide (i = Z.to_nat m)) as [->|]; [by assert (g = f) as -> by congruence; lia|].
    pose proof (Hord (Z.to_nat m) i f g Hm Hi ltac:(lia)). lia.
  - rewrite wrap_small by (unfold fits; lia). destruct (Z.leb_spec (begin f + range f) pc) as [Hpe|Hpe].
    + apply IH; [lia..|]. intros i g Hi Hc. split; [|by eapply Hin]. destruct (decide (m + 1 ≤ Z.of_nat i)); [done|].
      exfalso. unfold covers in Hc. destruct (decide (i = Z.to_nat m)) as [->|Hne]; [by assert (g = f) as -> by congruence; lia|].
      pose proof (Hord i (Z.to_nat m) g f Hi Hm ltac:(lia)). assert (g ∈ v) as Hgv by (by eapply list_elem_of_lookup_2).
      assert (g ≠ f) by (intros ->; apply Hne; by eapply NoDup_lookup). destruct (Hdis g f); [done..|lia|lia].
    + exists (Some f). split; [done|]. split; [done|]. unfold covers. lia.
Qed.

Lemma search_sorted ob orig v pc :
  for_section ob → agrees ob v → Forall readable v → (∀ f, f ∈ v → live f ∧ bounded f) → disjoint_ranges v → NoDup v →
  ascending (λ f, begin f) v → v ≠ [] → ob_u ob = Sort orig v → ∀ wf,
  ∃ r, search_prepared mem sf wf ob pc = Ok r ∧ answers v pc r.
Proof.
  intros Hs Ha Hr Hbd Hdis Hnd Hasc Hne Hu wf. unfold search_prepared. rewrite Hu.
  assert (∀ rng, (∀ f, f ∈ v → rng f = Ok (begin f, range f)) →
    ∃ r, binary_loop rng (length v) v pc 0 (Z.of_nat (length v)) = Ok r ∧ answers v pc r) as Hloop.
  { intros rng Hrng. destruct (binary_loop_spec rng v pc Hrng) with (fuel := length v) (lo := 0) (hi := Z.of_nat (length v)) as (r & Hr1 & Hans);
      [intros f Hf; by apply Hbd|done|done|done|lia|lia|lia| |].
    - intros i f Hi _. apply lookup_lt_Some in Hi. lia.
    - exists r. split; [done|]. destruct r as [f|]; simpl; [|auto]. destruct Hans. split_and!; [done|by apply Hbd|done]. }
  rewrite Forall_forall in Hr. destruct (mixed_encoding ob) eqn:Hm.
  - apply Hloop. intros f Hf. unfold mixed_range, encoded_range, get_fde_encoding.
    destruct (readable_parts f ob (Hr f Hf) Hs) as (He & _ & Hb & _ & p & q & H1 & H2). by rewrite He, bind_Ok, Hb, bind_Ok, H1, bind_Ok, H2.
  - destruct Ha as [?|Ha]; [congruence|]. destruct (Z.eqb_spec (ob_encoding ob) DW_EH_PE_absptr) as [E|E].
    + apply Hloop. intros f Hf. unfold unencoded_range. destruct (plain_parts f (Hr f Hf)) as (-> & -> & _); [by rewrite Ha|done].
    + destruct v as [|f0 v]; [done|]. destruct (base_of_frame ob f0) as [Hb0 _]; [done|by apply Hr; left|rewrite Hm; intros []| |].
      { right. intros f ->%list_elem_of_singleton. apply Ha. left. }
      unfold binary_search_single_encoding_fdes. rewrite Hb0, bind_Ok. apply Hloop. intros f Hf. unfold encoded_range.
      destruct (readable_parts f ob (Hr f Hf) Hs) as (He & _ & Hb & _ & p & q & H1 & H2). rewrite (Ha f Hf) in *.
      assert (fr_base (the_frame f) = fr_base (the_frame f0)) as Eb by congruence. rewrite Eb in H1. by rewrite H1, bind_Ok, H2.
Qed.

(** ** Preparing an object *)

Lemma start_fde_sort_spec k used : 0 < k → 0 ≤ used → used + 2 * (16 + 8 * k) ≤ MEMORY_SIZE →
  start_fde_sort k used = Ok (Some (k, k), used + 2 * (16 + 8 * k)).
Proof.
  intros Hk Hu Hm. unfold start_fde_sort, MEMORY_SIZE in *. rewrite (proj2 (Z.eqb_neq k 0)) by lia. unfold malloc.
  rewrite (wrap_small 64 (16 + 8 * k)), (wrap_small 64 (16 + 8 * k + 7)) by (unfold fits; lia).
  assert ((16 + 8 * k + 7) / 8 * 8 = 16 + 8 * k) as -> by (Z.to_euclidean_division_equations; lia).
  rewrite !(proj2 (Z.leb_le _ _)) by lia. ok_step. ok_step. unfold capacity, MEMORY_SIZE.
  rewrite !Z.min_l by (Z.to_euclidean_division_equations; lia). do 2 f_equal. lia.
Qed.

(** Records follow each other up to the end of the section. *)
Lemma eh_frame_bounds n p fs : 0 ≤ p → pc_end ≤ 2 ^ 64 - 2 ^ 33 → eh_frame n p fs →
  Z.of_nat n ≤ Z.max 0 (pc_end - p) ∧ (∀ f, f ∈ fs → p ≤ f) ∧ NoDup fs.
Proof.
  intros Hp Hend Hw. revert Hp. induction Hw as [p Hl|n p fs Hl Hd Hw IH|n p fs Hl Hd Hw IH]; intros Hp.
  { split_and!; [lia|intros f Hf; by apply elem_of_nil in Hf|constructor]. }
  all: apply orb_false_iff in Hl as [Hlt%Z.leb_gt Hne%Z.eqb_neq]; pose proof (ldn_range 4 p) as Hr; unfold fde_length in Hne;
    change (256 ^ Z.of_nat 4) with (2 ^ 32) in Hr;
    assert (next_fde mem p = p + fde_length mem p + 4) as En by (unfold next_fde, fde_length; apply wrap_small; unfold fits; lia);
    rewrite En in IH; unfold fde_length in IH; destruct IH as (Hn & Hge & Hnd); [lia|].
  - split_and!; [lia| |done]. intros f Hf. specialize (Hge f Hf). lia.
  - split_and!; [lia| |].
    + intros f [->|Hf]%elem_of_cons; [lia|]. specialize (Hge f Hf). lia.
    + constructor; [|done]. intros Hf. specialize (Hge p Hf). lia.
Qed.

(** A section that the search can use: its descriptors can be read, and functions
    that were not removed have ranges that do not wrap or overlap. *)
Record well_formed (start : Z) (fs : list Z) : Prop := {
  wf_start : 0 ≤ start ≤ pc_end;
  wf_end : pc_end ≤ 2 ^ 64 - 2 ^ 33;
  wf_walk : ∃ n, eh_frame n start fs;
  wf_readable : Forall readable fs;
  wf_bounded : ∀ f, f ∈ fs → live f → bounded f;
  wf_disjoint : disjoint_ranges (filter live fs) }.

Definition fresh (start : Z) : object := MkObject (2 ^ 64 - 1) pc_end tb db (Single start) false false false DW_EH_PE_omit 0.

(** An object whose descriptors are sorted. *)
Record prepared (ob : object) (fs : list Z) : Prop := {
  p_section : for_section ob;
  p_sorted : sorted ob = true;
  p_begin : ∀ f, f ∈ fs → live f → ob_pc_begin ob ≤ begin f;
  p_vector : ∃ orig v, ob_u ob = Sort orig v ∧ v ≡ₚ filter live fs ∧ ascending (λ f, begin f) v;
  p_agrees : agrees ob fs;
  p_based : ∃ base, base_from_object (ob_encoding ob) ob = Ok base;
  p_live : filter live fs ≠ [] }.

Lemma carried_start ob base : base_from_object (ob_encoding ob) ob = Ok base → carried ob 0 (ob_encoding ob) base.
Proof. intros Hb. unfold carried. by destruct (mixed_encoding ob). Qed.

Lemma filter_live_le fs : (length (filter live fs) ≤ length fs)%nat.
Proof. apply length_filter. Qed.

Lemma count_fresh wf term start fs :
  well_formed start fs → pc_end - start < Z.of_nat wf → Z.of_nat (length (filter live fs)) < 2 ^ 21 →
  ∃ ob, count_fdes mem sf wf term (fresh start) = Ok (Some (Z.of_nat (length (filter live fs))), ob) ∧
    for_section ob ∧ agrees ob fs ∧ (∀ f, f ∈ fs → live f → ob_pc_begin ob ≤ begin f) ∧
    (∃ base, base_from_object (ob_encoding ob) ob = Ok base) ∧ ob_u ob = Single start.
Proof.
  intros [Hs0 He [n Hw] Hr _ _] Hwf Hk. destruct (eh_frame_bounds n start fs (proj1 Hs0) He Hw) as (Hn & Hge & Hnd).
  assert (classified (fresh start) [] 0 DW_EH_PE_absptr 0) as Hc.
  { split; try done; [by right; intros f ?%elem_of_nil|by intros f ?%elem_of_nil|by eexists]. }
  assert (Z.of_nat (length fs) ≤ Z.of_nat n) as Hlen by (clear -Hw; induction Hw; simpl; lia).
  destruct (classify_loop_spec wf n start fs (fresh start) [] 0 0 DW_EH_PE_absptr 0) as (ob & l & e & b & Hrun & Hc' & Hu & Hsrt & _ & Hcnt);
    [lia|done..|lia|].
  unfold count_fdes. cbn [ob_count fresh Z.eqb negb]. unfold classify_source, classify_object_over_fdes. cbn [ob_u fresh].
  rewrite Hrun, bind_Ok, Z.add_0_l, (proj2 (Z.ltb_lt _ _)) by lia. eexists. split; [done|].
  destruct Hc' as [Hs Ha Hb _ _ Hbase _]. split_and!; [done|done|done|done|done].
Qed.

Lemma init_object_spec wf term start fs used :
  well_formed start fs → pc_end - start < Z.of_nat wf → filter live fs ≠ [] →
  0 ≤ used → used + 2 * (16 + 8 * Z.of_nat (length (filter live fs))) ≤ MEMORY_SIZE →
  ∃ ob used', init_object mem sf wf term (fresh start) used = Ok (ob, used') ∧ prepared ob fs.
Proof.
  intros Hwf Hfuel Hne Hu Hm. pose proof Hwf as [Hs0 He [n Hw] Hr Hbd _]. assert (Z.of_nat (length (filter live fs)) ≠ 0) as Hnz.
  { destruct (filter live fs); [done|simpl; lia]. }
  destruct (count_fresh wf term start fs Hwf Hfuel) as (ob & Hcnt & Hs & Ha & Hb & [base Hbase] & Hou); [unfold MEMORY_SIZE in Hm; lia|].
  unfold init_object. rewrite Hcnt, bind_Ok, start_fde_sort_spec, bind_Ok by lia. unfold add_source, add_fdes. rewrite Hou, Hbase, bind_Ok.
  destruct (eh_frame_bounds n start fs (proj1 Hs0) He Hw) as (Hn & _ & _).
  rewrite (add_loop_spec ob fs _ Hs Ha Hr wf n start fs), bind_Ok; [|lia|done|done|by apply carried_start|simpl; lia]. cbn [app].
  destruct (sort_spec (compare_of mem sf ob) (λ f, begin f) (λ f, f ∈ fs) (compare_of_key ob fs Hs Ha Hr) (filter live fs)
    (Some (replicate (Z.to_nat (Z.of_nat (length (filter live fs)))) Junk))) as (v & Hv & Hasc & Hp).
  - apply Forall_forall. intros f Hf%list_elem_of_filter. apply Hf.
  - unfold MEMORY_SIZE in Hm. lia.
  - intros e ?. simplify_eq. by rewrite length_replicate, Nat2Z.id.
  - rewrite Hv, bind_Ok. eexists _, _. split; [done|]. split; [done|done|done| |done|by eexists|done]. by eexists _, v.
Qed.

(** ** Searching *)

Lemma answers_live fs v pc r : v ≡ₚ filter live fs → answers v pc r → answers fs pc r.
Proof.
  intros Hp. destruct r as [f|]; simpl.
  - rewrite Hp, list_elem_of_filter. naive_solver.
  - intros H f Hf Hl. apply H; [|done]. rewrite Hp. by apply list_elem_of_filter.
Qed.

Lemma search_object_prepared wf term start fs ob pc used :
  well_formed start fs → prepared ob fs →
  ∃ r, search_object mem sf wf term ob pc used = Ok (r, ob, used) ∧ answers fs pc r.
Proof.
  intros Hwf [Hs Hsort Hb (orig & v & Hu & Hp & Hasc) Ha _ Hl]. unfold search_object. rewrite Hsort. cbn [negb].
  destruct Hwf as [Hs0 He [n Hw] Hr Hbd Hd]. destruct (eh_frame_bounds n start fs (proj1 Hs0) He Hw) as (_ & _ & Hnd).
  assert (∀ f, f ∈ v → f ∈ fs ∧ live f) as Hin by (intros f; rewrite Hp, list_elem_of_filter; tauto).
  destruct (search_sorted ob orig v pc) with (wf := wf) as (r & -> & Hans); [done| | | | | |done| |done|].
  - destruct Ha as [?|Ha]; [by left|right]. intros f Hf. apply Ha. by apply Hin.
  - rewrite Forall_forall in Hr |- *. intros f Hf. apply Hr. by apply Hin.
  - intros f [Hf Hlf]%Hin. auto.
  - intros f g Hf Hg. apply Hd; by rewrite <- Hp.
  - rewrite Hp. by apply NoDup_filter.
  - intros ->. by apply Permutation_nil_l in Hp.
  - exists r. split; [done|]. by eapply answers_live.
Qed.

Lemma search_object_fresh wf term start fs pc used :
  well_formed start fs → pc_end - start < Z.of_nat wf → filter live fs ≠ [] →
  0 ≤ used → used + 2 * (16 + 8 * Z.of_nat (length (filter live fs))) ≤ MEMORY_SIZE →
  ∃ r ob used', search_object mem sf wf term (fresh start) pc used = Ok (r, ob, used') ∧ answers fs pc r ∧ prepared ob fs.
Proof.
  intros Hwf Hfuel Hne Hu Hm. destruct (init_object_spec wf term start fs used) as (ob & used' & Hi & Hp); [done..|].
  unfold search_object at 1. cbn [sorted fresh negb]. rewrite Hi, bind_Ok. destruct (Z.ltb_spec pc (ob_pc_begin ob)) as [Hlt|Hge].
  - exists None, ob, used'. split_and!; [done| |done]. intros f Hf Hl Hc. pose proof (p_begin _ _ Hp f Hf Hl). unfold covers in Hc. lia.
  - destruct (search_object_prepared wf term start fs ob pc used' Hwf Hp) as (r & Hr & Hans). unfold search_object in Hr.
    rewrite (p_sorted _ _ Hp) in Hr. cbn [negb] in Hr. apply bind_Ok_inv in Hr as (r' & -> & Hr). simplify_eq. by exists r, ob, used'.
Qed.

(** ** Histories of searches *)

Definition found (fs : list Z) (pc : Z) (r : option (Z * dwarf_eh_bases)) : Prop :=
  match r with
  | Some (f, b) => f ∈ fs ∧ live f ∧ covers f pc ∧ b = MkBases tb db (begin f)
  | None => ∀ f, f ∈ fs → live f → ¬ covers f pc
  end.

Lemma find_bases_spec ob fs f : for_section ob → agrees ob fs → f ∈ fs → readable f →
  find_bases mem sf f ob = Ok (MkBases tb db (begin f)).
Proof.
  intros Hs Ha Hf Hr. destruct (readable_parts f ob Hr Hs) as (He & _ & Hb & _ & p & q & H1 & _). destruct Hs as (_ & Ht & Hd).
  unfold find_bases. assert ((if mixed_encoding ob then get_fde_encoding mem sf f else Ok (ob_encoding ob)) = Ok (fr_enc (the_frame f))) as ->.
  { destruct Ha as [->|Ha]; [done|]. destruct (mixed_encoding ob); [done|]. by rewrite Ha. }
  by rewrite bind_Ok, Hb, bind_Ok, H1, Ht, Hd.
Qed.

(** The registered section before and after the first search. *)
Definition ready (start : Z) (fs : list Z) (st : unwinder) : Prop :=
  (unseen_objects st = [fresh start] ∧ seen_objects st = [] ∧ 0 ≤ heap_used st ∧
   heap_used st + 2 * (16 + 8 * Z.of_nat (length (filter live fs))) ≤ MEMORY_SIZE) ∨
  (unseen_objects st = [] ∧ ∃ ob, seen_objects st = [ob] ∧ prepared ob fs).

Lemma answer_bases ob fs pc r (st : unwinder) : Forall readable fs → prepared ob fs → answers fs pc r →
  ∃ a, match (match r with Some f => Some (f, ob) | None => None end) with
       | None => Ok (None, st)
       | Some (f, ob) => bases ← find_bases mem sf f ob; Ok (Some (f, bases), st)
       end = Ok (a, st) ∧ found fs pc a.
Proof.
  intros Hr Hp Ha. destruct r as [f|]; simpl in *; [|by exists None]. destruct Ha as (Hf & Hl & Hc).
  rewrite (find_bases_spec ob fs), bind_Ok; [|apply Hp|apply Hp|done|by eapply Forall_forall in Hr].
  eexists. split; [done|]. simpl. by split_and!.
Qed.

Lemma find_spec wf term start fs pc st :
  well_formed start fs → pc_end - start < Z.of_nat wf → filter live fs ≠ [] → ready start fs st →
  ∃ a st', Unwind_Find_FDE mem sf wf term pc st = Ok (a, st') ∧ ready start fs st' ∧ found fs pc a.
Proof.
  intros Hwf Hfuel Hne Hst. pose proof (wf_readable _ _ Hwf) as Hr. unfold Unwind_Find_FDE.
  destruct Hst as [(Hu & Hs & H0 & Hm)|(Hu & ob & Hs & Hp)]; rewrite Hu, Hs; cbn [find_seen].
  - rewrite bind_Ok. cbn [find_unseen].
    destruct (search_object_fresh wf term start fs pc (heap_used st)) as (r & ob & used' & -> & Hans & Hp); [done..|].
    rewrite bind_Ok. cbn [insert_seen]. destruct (answer_bases ob fs pc r (MkUnwinder [] [ob] used') Hr Hp Hans) as (a & Ha & Hf).
    exists a, (MkUnwinder [] [ob] used'). split_and!; [|right; by eauto|done]. by destruct r.
  - destruct (Z.leb_spec (ob_pc_begin ob) pc) as [Hle|Hlt].
    + destruct (search_object_prepared wf term start fs ob pc (heap_used st) Hwf Hp) as (r & -> & Hans). rewrite !bind_Ok.
      destruct (answer_bases ob fs pc r (MkUnwinder [] [ob] (heap_used st)) Hr Hp Hans) as (a & Ha & Hf).
      exists a, (MkUnwinder [] [ob] (heap_used st)). split_and!; [|right; by eauto|done]. by destruct r.
    + rewrite !bind_Ok. exists None, (MkUnwinder [] [ob] (heap_used st)). split_and!; [done|right; by eauto|].
      intros f Hf Hl Hc. pose proof (p_begin _ _ Hp f Hf Hl). unfold covers in Hc. lia.
Qed.

(** A sequence of searches. *)
Fixpoint lookups (wf : nat) (term : Z) (pcs : list Z) (st : unwinder) : result (list (option (Z * dwarf_eh_bases)) * unwinder) :=
  match pcs with
  | [] => Ok ([], st)
  | pc :: pcs =>
      '(a, st) ← Unwind_Find_FDE mem sf wf term pc st;
      '(l, st) ← lookups wf term pcs st;
      Ok (a :: l, st)
  end.

Lemma lookups_spec wf term start fs pcs : well_formed start fs → pc_end - start < Z.of_nat wf → filter live fs ≠ [] → ∀ st,
  ready start fs st → ∃ l st', lookups wf term pcs st = Ok (l, st') ∧ Forall2 (found fs) pcs l.
Proof.
  intros Hwf Hfuel Hne. induction pcs as [|pc pcs IH]; intros st Hst; [by exists [], st|]. cbn [lookups].
  destruct (find_spec wf term start fs pc st) as (a & st1 & -> & Hst1 & Ha); [done..|]. rewrite bind_Ok.
  destruct (IH st1 Hst1) as (l & st2 & -> & Hl). rewrite bind_Ok. eexists (a :: l), st2. split; [done|]. by constructor.
Qed.
End sections.

(** C9. After [init_unwinding] with a well-formed section, every search of any sequence
    of searches returns the descriptor of the function that contains the address, or
    nothing when no function does: the first search sorts the descriptors in the
    memory that is left, the later ones use the sorted array. *)
Theorem find_fde_correct mem sf wf term start pc_end fs used pcs :
  (∀ a, 0 ≤ mem a < 256) → well_formed mem sf 0 0 pc_end start fs → pc_end - start < Z.of_nat wf →
  filter (live mem sf 0 0) fs ≠ [] → ldn mem 4 start ≠ 0 → start ≠ 0 → 0 ≤ used →
  used + 56 + 2 * (16 + 8 * Z.of_nat (length (filter (live mem sf 0 0) fs))) ≤ MEMORY_SIZE →
  ∃ st l st', init_unwinding mem start pc_end (MkUnwinder [] [] used) = Ok st ∧
    lookups mem sf wf term pcs st = Ok (l, st') ∧ Forall2 (found mem sf 0 0 fs) pcs l.
Proof.
  intros Hmem Hwf Hfuel Hne Hs Hs0 Hu Hm. unfold init_unwinding, register_frame. rewrite (proj2 (Z.eqb_neq _ _) Hs).
  unfold malloc. change (u64 (56 + 7) / 8 * 8) with 56. cbn [heap_used]. rewrite (proj2 (Z.leb_le _ _)) by lia. ok_step.
  unfold register_frame_info_bases. rewrite (proj2 (Z.eqb_neq _ _) Hs), (proj2 (Z.eqb_neq _ _) Hs0). cbn [orb unseen_objects seen_objects heap_used].
  destruct (lookups_spec mem sf 0 0 pc_end Hmem wf term start fs pcs Hwf Hfuel Hne (MkUnwinder [fresh 0 0 pc_end start] [] (used + 56)))
    as (l & st' & Hl & Hf); [left; split_and!; [done..|simpl; lia|simpl; lia]|]. by eexists _, l, st'.
Qed.

(** C27. The binary search in the sorted array finds what the linear search through the
    section finds. *)
Theorem sorted_search_equals_linear mem sf wf term start pc_end fs used :
  (∀ a, 0 ≤ mem a < 256) → well_formed mem sf 0 0 pc_end start fs → pc_end - start < Z.of_nat wf →
  filter (live mem sf 0 0) fs ≠ [] → 0 ≤ used →
  used + 2 * (16 + 8 * Z.of_nat (length (filter (live mem sf 0 0) fs))) ≤ MEMORY_SIZE →
  ∃ ob used', init_object mem sf wf term (fresh 0 0 pc_end start) used = Ok (ob, used') ∧
    ∀ pc, fits 64 pc → search_prepared mem sf wf ob pc = linear_search_fdes mem sf wf ob start pc ∧ is_Ok (search_prepared mem sf wf ob pc).
Proof.
  intros Hmem Hwf Hfuel Hne Hu Hm. destruct (init_object_spec mem sf 0 0 pc_end Hmem wf term start fs used) as (ob & used' & Hi & Hp); [done..|].
  exists ob, used'. split; [done|]. intros pc Hpc. pose proof Hwf as [Hs0 He [n Hw] Hr Hbd Hd].
  destruct (search_object_prepared mem sf 0 0 pc_end Hmem wf term start fs ob pc used' Hwf Hp) as (r & Hrun & Hans).
  unfold search_object in Hrun. rewrite (p_sorted _ _ _ _ _ _ _ Hp) in Hrun. apply bind_Ok_inv in Hrun as (r' & Hr' & ?). simplify_eq.
  destruct (p_based _ _ _ _ _ _ _ Hp) as [base Hb]. destruct (eh_frame_bounds mem pc_end Hmem n start fs (proj1 Hs0) He Hw) as (Hn & _ & _).
  destruct (linear_loop_spec mem sf 0 0 pc_end Hmem ob fs pc (p_section _ _ _ _ _ _ _ Hp) (p_agrees _ _ _ _ _ _ _ Hp) Hr Hbd Hpc
    wf n start fs 0 (ob_encoding ob) base) as (r' & Hl & Hans'); [lia|done|done|by apply carried_start|].
  unfold linear_search_fdes. rewrite Hb, bind_Ok, Hl, Hr'. split; [|by eexists]. f_equal.
  destruct r as [f|], r' as [g|]; simpl in *; [|naive_solver..]. destruct Hans as (Hf & Hlf & Hcf), Hans' as (Hg & Hlg & Hcg).
  destruct (decide (f = g)) as [->|Hfg]; [done|]. unfold covers in *.
  destruct (Hd f g); [by apply list_elem_of_filter|by apply list_elem_of_filter|done|lia|lia].
Qed.

(** ** An example section *)

Definition le_bytes (n : nat) (x : Z) : list Z := (λ i, (x / 256 ^ Z.of_nat i) mod 256) <$> seq 0 n.

(** One common record and two functions at 0x5000 and 0x4000. *)
Definition example_image : list Z :=
  le_bytes 4 16 ++ le_bytes 4 0 ++ [1; 122; 82; 0; 1; 0x78; 16; 1; 0x1b; 0; 0; 0] ++
  le_bytes 4 16 ++ le_bytes 4 0x18 ++ le_bytes 4 0x3fe4 ++ le_bytes 4 0x100 ++ [0; 0; 0; 0] ++
  le_bytes 4 16 ++ le_bytes 4 0x2c ++ le_bytes 4 0x2fd0 ++ le_bytes 4 0x80 ++ [0; 0; 0; 0].

Definition image_mem (image : list Z) (at_ : Z) (a : Z) : Z :=
  if a <? at_ then 0 else default 0 (image !! Z.to_nat (a - at_)).

Lemma image_mem_byte image at_ : Forall (λ b, 0 ≤ b < 256) image → ∀ a, 0 ≤ image_mem image at_ a < 256.
Proof.
  intros Hf a. unfold image_mem. case_match; [lia|]. destruct (image !! _) as [b|] eqn:E; simpl; [|lia].
  by apply (Forall_lookup_1 _ _ _ _ Hf E).
Qed.

Lemma example_byte a : 0 ≤ image_mem example_image 0x1000 a < 256.
Proof. apply image_mem_byte. apply (bool_decide_unpack _). vm_compute. exact I. Qed.

Lemma example_well_formed : well_formed (image_mem example_image 0x1000) 5 0 0 0x103c 0x1000 [0x1014; 0x1028].
Proof.
  split.
  - lia.
  - lia.
  - exists 3%nat. apply eh_cie; [vm_compute; reflexivity..|].
    change (next_fde _ 0x1000) with 0x1014. apply eh_fde; [vm_compute; reflexivity|vm_compute; discriminate|].
    change (next_fde _ 0x1014) with 0x1028. apply eh_fde; [vm_compute; reflexivity|vm_compute; discriminate|].
    change (next_fde _ 0x1028) with 0x103c. apply eh_end. vm_compute. reflexivity.
  - repeat constructor; try (vm_compute; discriminate); (eexists; split; [vm_compute; reflexivity|vm_compute; discriminate]).
  - intros f Hf _. repeat (apply elem_of_cons in Hf as [->|Hf]); [| |by apply elem_of_nil in Hf]; vm_compute; intuition congruence.
  - change (filter _ [0x1014; 0x1028]) with [0x1014; 0x1028]. intros f g Hf Hg Hne.
    repeat (apply elem_of_cons in Hf as [->|Hf]); [| |by apply elem_of_nil in Hf];
      (repeat (apply elem_of_cons in Hg as [->|Hg]); [| |by apply elem_of_nil in Hg]); try done; vm_compute; intuition congruence.
Qed.

Lemma find_fde_correct_witness :
  ∃ st l st', init_unwinding (image_mem example_image 0x1000) 0x1000 0x103c (MkUnwinder [] [] 0) = Ok st ∧
    lookups (image_mem example_image 0x1000) 5 61 0 [0x4010; 0x50ff; 0x4080] st = Ok (l, st') ∧
    Forall2 (found (image_mem example_image 0x1000) 5 0 0 [0x1014; 0x1028]) [0x4010; 0x50ff; 0x4080] l.
Proof.
  apply find_fde_correct.
  - exact example_byte.
  - exact example_well_formed.
  - lia.
  - discriminate.
  - vm_compute. discriminate.
  - discriminate.
  - lia.
  - vm_compute. discriminate.
Defined.

Lemma sorted_search_equals_linear_witness :
  ∃ ob used', init_object (image_mem example_image 0x1000) 5 61 0 (fresh 0 0 0x103c 0x1000) 0 = Ok (ob, used') ∧
    ∀ pc, fits 64 pc → search_prepared (image_mem example_image 0x1000) 5 61 ob pc =
      linear_search_fdes (image_mem example_image 0x1000) 5 61 ob 0x1000 pc ∧ is_Ok (search_prepared (image_mem example_image 0x1000) 5 61 ob pc).
Proof.
  apply (sorted_search_equals_linear _ _ _ _ _ _ [0x1014; 0x1028]).
  - exact example_byte.
  - exact example_well_formed.
  - lia.
  - discriminate.
  - lia.
  - vm_compute. discriminate.
Defined.
