(* ===== verification/Cfa.v ===== *)
(** * Unwinding one frame

    The interpreters of kernel/unwind-dw2.c: [execute_stack_op] evaluates a location
    expression, [execute_cfa_program] runs the call frame instructions of a common
    record and a descriptor up to an address, [uw_frame_state_for] finds and runs
    them for the caller of a frame, and [uw_update_context] applies the resulting
    rules, which turns the description of a frame into that of its caller.

    [gcc_assert], [gcc_unreachable] and [abort] have empty bodies (kernel/stdlib.c),
    so what they should stop goes on with what is there: an access outside an array
    or a value that was never set. *)

From S2P Require Import Prelude Define Abi FdeSort Fde.
Local Open Scope Z_scope.

(** ** Contexts *)

Definition DWARF_FRAME_REGISTERS : Z := 17.
Definition dwarf_sp_column : Z := 7.

(** Where the value of a register is: nowhere, in memory, in the context itself, or in
    a local variable of the function that is running ([Temporary]), which leaves a
    dangling pointer when that function returns. *)
Inductive location := Nowhere | InMemory (a : Z) | ByValue (v : Z) | Temporary (v : Z) | Dangling.

(** [struct _Unwind_Context]; the extended-context bit is always set. *)
Record Unwind_Context := MkContext {
  reg : list location; cfa : Z; ra : Z; lsda : Z; bases : dwarf_eh_bases; signal_frame_bit : bool; args_size : Z }.

Definition with_reg r (c : Unwind_Context) := MkContext r (cfa c) (ra c) (lsda c) (bases c) (signal_frame_bit c) (args_size c).
Definition with_cfa a (c : Unwind_Context) := MkContext (reg c) a (ra c) (lsda c) (bases c) (signal_frame_bit c) (args_size c).
Definition with_ra a (c : Unwind_Context) := MkContext (reg c) (cfa c) a (lsda c) (bases c) (signal_frame_bit c) (args_size c).
Definition with_lsda a (c : Unwind_Context) := MkContext (reg c) (cfa c) (ra c) a (bases c) (signal_frame_bit c) (args_size c).
Definition with_bases b (c : Unwind_Context) := MkContext (reg c) (cfa c) (ra c) (lsda c) b (signal_frame_bit c) (args_size c).
Definition with_signal b (c : Unwind_Context) := MkContext (reg c) (cfa c) (ra c) (lsda c) (bases c) b (args_size c).
Definition with_args_size n (c : Unwind_Context) := MkContext (reg c) (cfa c) (ra c) (lsda c) (bases c) (signal_frame_bit c) n.

Definition Unwind_IsSignalFrame (c : Unwind_Context) : Z := if signal_frame_bit c then 1 else 0.

Section interpreters.
Context (mem : Z → Z).

(** [_Unwind_GetGR]; the index is an [int]. *)
Definition Unwind_GetGR (c : Unwind_Context) (index : Z) : result Z :=
  l ← rd (reg c) (s32 index);
  match l with
  | Nowhere => Err NullDeref
  | InMemory a => Ok (ldn mem 8 a)
  | ByValue v | Temporary v => Ok v
  | Dangling => Err Uninitialised
  end.

(** [base_of_encoded_value] and [read_encoded_value] of unwind-pe.h. *)
Definition base_of_encoded_value (encoding : Z) (c : Unwind_Context) : result Z :=
  if encoding =? DW_EH_PE_omit then Ok 0 else
  let k := Z.land encoding 0x70 in
  if (k =? DW_EH_PE_absptr) || (k =? DW_EH_PE_pcrel) || (k =? DW_EH_PE_aligned) then Ok 0
  else if k =? DW_EH_PE_textrel then Ok (bases_tbase (bases c))
  else if k =? DW_EH_PE_datarel then Ok (bases_dbase (bases c))
  else if k =? DW_EH_PE_funcrel then Ok (func (bases c))
  else Err Uninitialised.

Definition read_encoded_value (c : Unwind_Context) (encoding p : Z) : result (Z * Z) :=
  base ← base_of_encoded_value encoding c;
  read_encoded_value_with_base mem encoding base p.

(** ** Location expressions *)

(** A machine exception stops a division by zero. *)
Definition binary_op (op second first : Z) : result Z :=
  if op =? 0x1a then Ok (Z.land second first)
  else if op =? 0x1b then _ ← check Aborted (negb (first =? 0)); Ok (u64 (Z.quot (s64 second) (s64 first)))
  else if op =? 0x1c then Ok (u64 (second - first))
  else if op =? 0x1d then _ ← check Aborted (negb (first =? 0)); Ok (second mod first)
  else if op =? 0x1e then Ok (u64 (second * first))
  else if op =? 0x21 then Ok (Z.lor second first)
  else if op =? 0x22 then Ok (u64 (second + first))
  else if op =? 0x24 then _ ← check UndefinedShift (first <? 64); Ok (u64 (Z.shiftl second first))
  else if op =? 0x25 then _ ← check UndefinedShift (first <? 64); Ok (Z.shiftr second first)
  else if op =? 0x26 then _ ← check UndefinedShift (first <? 64); Ok (u64 (Z.shiftr (s64 second) first))
  else if op =? 0x27 then Ok (Z.lxor second first)
  else
    let b := if op =? 0x29 then s64 second =? s64 first
             else if op =? 0x2a then s64 first <=? s64 second
             else if op =? 0x2b then s64 first <? s64 second
             else if op =? 0x2c then s64 second <=? s64 first
             else if op =? 0x2d then s64 second <? s64 first
             else negb (s64 second =? s64 first) in
    Ok (if b then 1 else 0).

Definition is_binary (op : Z) : bool :=
  ((0x1a <=? op) && (op <=? 0x1e)) || ((0x21 <=? op) && (op <=? 0x22)) || ((0x24 <=? op) && (op <=? 0x27)) || ((0x29 <=? op) && (op <=? 0x2e)).

(** A unary operation: the result and the address of the next operation. *)
Definition unary_op (op r op_ptr : Z) : result (Z * Z) :=
  if op =? 0x06 then Ok (ldn mem 8 r, op_ptr)
  else if op =? 0x94 then
    let size := mem op_ptr in
    Ok (if size =? 1 then mem r else if size =? 2 then ldn mem 2 r else if size =? 4 then ldn mem 4 r
        else if size =? 8 then ldn mem 8 r else r, op_ptr + 1)
  else if op =? 0x19 then Ok (if s64 r <? 0 then u64 (- r) else r, op_ptr)
  else if op =? 0x1f then Ok (u64 (- r), op_ptr)
  else if op =? 0x20 then Ok (u64 (Z.lnot r), op_ptr)
  else '(u, op_ptr) ← read_uleb128 mem op_ptr; Ok (u64 (r + u), op_ptr).

Definition is_unary (op : Z) : bool :=
  (op =? 0x06) || (op =? 0x94) || (op =? 0x19) || (op =? 0x1f) || (op =? 0x20) || (op =? 0x23).

(** The operations that push a value without taking one. *)
Definition push_op (c : Unwind_Context) (op op_ptr : Z) : result (Z * Z) :=
  if (0x30 <=? op) && (op <=? 0x4f) then Ok (op - 0x30, op_ptr)
  else if op =? 0x03 then Ok (ldn mem 8 op_ptr, op_ptr + 8)
  else if op =? 0xf1 then read_encoded_value c (mem op_ptr) (op_ptr + 1)
  else if op =? 0x08 then Ok (mem op_ptr, op_ptr + 1)
  else if op =? 0x09 then Ok (u64 (s8 (mem op_ptr)), op_ptr + 1)
  else if op =? 0x0a then Ok (ldn mem 2 op_ptr, op_ptr + 2)
  else if op =? 0x0b then Ok (u64 (swrap 16 (ldn mem 2 op_ptr)), op_ptr + 2)
  else if op =? 0x0c then Ok (ldn mem 4 op_ptr, op_ptr + 4)
  else if op =? 0x0d then Ok (u64 (s32 (ldn mem 4 op_ptr)), op_ptr + 4)
  else if (op =? 0x0e) || (op =? 0x0f) then Ok (ldn mem 8 op_ptr, op_ptr + 8)
  else if op =? 0x10 then read_uleb128 mem op_ptr
  else if op =? 0x11 then '(v, op_ptr) ← read_sleb128 mem op_ptr; Ok (u64 v, op_ptr)
  else if (0x50 <=? op) && (op <=? 0x6f) then v ← Unwind_GetGR c (op - 0x50); Ok (v, op_ptr)
  else if op =? 0x90 then '(r, op_ptr) ← read_uleb128 mem op_ptr; v ← Unwind_GetGR c r; Ok (v, op_ptr)
  else if (0x70 <=? op) && (op <=? 0x8f) then
    '(offset, op_ptr) ← read_sleb128 mem op_ptr; v ← Unwind_GetGR c (op - 0x70); Ok (u64 (v + offset), op_ptr)
  else if op =? 0x92 then
    '(r, op_ptr) ← read_uleb128 mem op_ptr; '(offset, op_ptr) ← read_sleb128 mem op_ptr;
    v ← Unwind_GetGR c r; Ok (u64 (v + offset), op_ptr)
  else Err Uninitialised.

(** The stack, top first, with room for 64 values. *)
Definition push (v : Z) (stack : list Z) : result (list Z) :=
  _ ← check OutOfBounds (Z.of_nat (length stack) <? 64); Ok (v :: stack).

Definition pop (stack : list Z) : result (Z * list Z) :=
  match stack with v :: stack => Ok (v, stack) | [] => Err OutOfBounds end.

(** One operation. *)
Definition stack_step (c : Unwind_Context) (op op_ptr : Z) (stack : list Z) : result (Z * list Z) :=
  if op =? 0x12 then v ← rd stack 0; stack ← push v stack; Ok (op_ptr, stack)
  else if op =? 0x13 then '(_, stack) ← pop stack; Ok (op_ptr, stack)
  else if op =? 0x15 then v ← rd stack (mem op_ptr); stack ← push v stack; Ok (op_ptr + 1, stack)
  else if op =? 0x14 then v ← rd stack 1; stack ← push v stack; Ok (op_ptr, stack)
  else if op =? 0x16 then
    '(a, stack) ← pop stack; '(b, stack) ← pop stack; Ok (op_ptr, b :: a :: stack)
  else if op =? 0x17 then
    '(t1, stack) ← pop stack; '(t2, stack) ← pop stack; '(t3, stack) ← pop stack; Ok (op_ptr, t2 :: t3 :: t1 :: stack)
  else if is_unary op then
    '(r, stack) ← pop stack; '(r, op_ptr) ← unary_op op r op_ptr; stack ← push r stack; Ok (op_ptr, stack)
  else if is_binary op then
    '(first, stack) ← pop stack; '(second, stack) ← pop stack; r ← binary_op op second first; stack ← push r stack; Ok (op_ptr, stack)
  else if op =? 0x2f then Ok (u64 (op_ptr + 2 + swrap 16 (ldn mem 2 op_ptr)), stack)
  else if op =? 0x28 then
    '(v, stack) ← pop stack;
    Ok (if v =? 0 then op_ptr + 2 else u64 (op_ptr + 2 + swrap 16 (ldn mem 2 op_ptr)), stack)
  else if op =? 0x96 then Ok (op_ptr, stack)
  else '(v, op_ptr) ← push_op c op op_ptr; stack ← push v stack; Ok (op_ptr, stack).

(** A program can jump backwards, so the number of operations is bounded by fuel. *)
Fixpoint stack_loop (fuel : nat) (c : Unwind_Context) (op_ptr op_end : Z) (stack : list Z) : result (list Z) :=
  if negb (op_ptr <? op_end) then Ok stack else
  match fuel with
  | O => Err Hang
  | S fuel' =>
      '(op_ptr, stack) ← stack_step c (mem op_ptr) (op_ptr + 1) stack;
      stack_loop fuel' c op_ptr op_end stack
  end.

Definition execute_stack_op (fuel : nat) (op_ptr op_end : Z) (c : Unwind_Context) (initial : Z) : result Z :=
  stack ← stack_loop fuel c op_ptr op_end [initial];
  '(v, _) ← pop stack; Ok v.
End interpreters.

(** ** Frame states *)

(** The rule for a register: [how] together with the member of [loc] that it uses. *)
Inductive rule :=
| REG_UNSAVED | REG_SAVED_OFFSET (offset : Z) | REG_SAVED_REG (r : Z) | REG_SAVED_EXP (exp : Z)
| REG_SAVED_VAL_OFFSET (offset : Z) | REG_SAVED_VAL_EXP (exp : Z) | REG_UNDEFINED.

Inductive cfa_rule := CFA_UNSET | CFA_REG_OFFSET | CFA_EXP.

(** [struct frame_state_reg_info] without the link to the remembered state. *)
Record reg_info := MkInfo { rules : list rule; cfa_offset : Z; cfa_reg : Z; cfa_exp : Z; cfa_how : cfa_rule }.

(** [_Unwind_FrameState]; [prev] is the chain of remembered states. *)
Record FrameState := MkFs {
  regs : reg_info; prev : list reg_info; fs_pc : Z; personality : Z; data_align : Z; code_align : Z; retaddr_column : Z;
  fde_encoding : Z; lsda_encoding : Z; saw_z : bool; signal_frame : bool; eh_ptr : Z }.

Definition with_regs r (f : FrameState) := MkFs r (prev f) (fs_pc f) (personality f) (data_align f) (code_align f) (retaddr_column f) (fde_encoding f) (lsda_encoding f) (saw_z f) (signal_frame f) (eh_ptr f).
Definition with_prev r p (f : FrameState) := MkFs r p (fs_pc f) (personality f) (data_align f) (code_align f) (retaddr_column f) (fde_encoding f) (lsda_encoding f) (saw_z f) (signal_frame f) (eh_ptr f).
Definition with_pc pc (f : FrameState) := MkFs (regs f) (prev f) pc (personality f) (data_align f) (code_align f) (retaddr_column f) (fde_encoding f) (lsda_encoding f) (saw_z f) (signal_frame f) (eh_ptr f).

Definition with_rules l (r : reg_info) := MkInfo l (cfa_offset r) (cfa_reg r) (cfa_exp r) (cfa_how r).

(** The state that is all zero. *)
Definition zero_info : reg_info := MkInfo (replicate 18 REG_UNSAVED) 0 0 0 CFA_UNSET.
Definition zero_fs : FrameState := MkFs zero_info [] 0 0 0 0 0 0 0 false false 0.

(** Sets the rule for a register. *)
Definition set_rule (column : Z) (r : rule) (f : FrameState) : result FrameState :=
  l ← wr (rules (regs f)) column r; Ok (with_regs (with_rules l (regs f)) f).

Definition def_cfa r (o : Z) (f : FrameState) : FrameState :=
  with_regs (MkInfo (rules (regs f)) o r (cfa_exp (regs f)) CFA_REG_OFFSET) f.

Definition def_cfa_offset (o : Z) (f : FrameState) : FrameState :=
  with_regs (MkInfo (rules (regs f)) o (cfa_reg (regs f)) (cfa_exp (regs f)) (cfa_how (regs f))) f.

Definition def_cfa_expression (exp : Z) (f : FrameState) : FrameState :=
  with_regs (MkInfo (rules (regs f)) (cfa_offset (regs f)) (cfa_reg (regs f)) exp CFA_EXP) f.

Section program.
Context (mem : Z → Z).

(** A register and an unsigned or signed factored offset. *)
Definition read_reg_offset (p data_align : Z) : result (Z * Z * Z) :=
  '(r, p) ← read_uleb128 mem p; '(u, p) ← read_uleb128 mem p; Ok (r, s64 (s64 u * data_align), p).

Definition read_reg_offset_sf (p data_align : Z) : result (Z * Z * Z) :=
  '(r, p) ← read_uleb128 mem p; '(s, p) ← read_sleb128 mem p; Ok (r, s64 (s * data_align), p).

(** The address after a block that starts with its length. *)
Definition skip_block (p : Z) : result Z := '(n, p) ← read_uleb128 mem p; Ok (u64 (p + n)).

(** One instruction; [p] is the address after its first byte. *)
Definition cfa_step (insn p : Z) (c : Unwind_Context) (f : FrameState) : result (Z * Unwind_Context * FrameState) :=
  let k := Z.land insn 0xc0 in
  let n := Z.land insn 0x3f in
  let advance d := with_pc (u64 (fs_pc f + d * code_align f)) f in
  if k =? 0x40 then Ok (p, c, advance n)
  else if k =? 0x80 then
    '(u, p) ← read_uleb128 mem p; f ← set_rule n (REG_SAVED_OFFSET (s64 (s64 u * data_align f))) f; Ok (p, c, f)
  else if k =? 0xc0 then f ← set_rule n REG_UNSAVED f; Ok (p, c, f)
  else if insn =? 0x01 then '(pc, p) ← read_encoded_value mem c (fde_encoding f) p; Ok (p, c, with_pc pc f)
  else if insn =? 0x02 then Ok (p + 1, c, advance (mem p))
  else if insn =? 0x03 then Ok (p + 2, c, advance (ldn mem 2 p))
  else if insn =? 0x04 then Ok (p + 4, c, advance (ldn mem 4 p))
  else if insn =? 0x05 then '(r, o, p) ← read_reg_offset p (data_align f); f ← set_rule r (REG_SAVED_OFFSET o) f; Ok (p, c, f)
  else if (insn =? 0x06) || (insn =? 0x08) then '(r, p) ← read_uleb128 mem p; f ← set_rule r REG_UNSAVED f; Ok (p, c, f)
  else if insn =? 0x07 then '(r, p) ← read_uleb128 mem p; f ← set_rule r REG_UNDEFINED f; Ok (p, c, f)
  else if insn =? 0x00 then Ok (p, c, f)
  else if insn =? 0x09 then
    '(r, p) ← read_uleb128 mem p; '(r2, p) ← read_uleb128 mem p; f ← set_rule r (REG_SAVED_REG r2) f; Ok (p, c, f)
  else if insn =? 0x0a then Ok (p, c, with_prev (regs f) (regs f :: prev f) f)
  else if insn =? 0x0b then
    match prev f with
    | [] => Err NullDeref
    | old :: rest => Ok (p, c, with_prev old rest f)
    end
  else if insn =? 0x0c then
    '(r, p) ← read_uleb128 mem p; '(u, p) ← read_uleb128 mem p; Ok (p, c, def_cfa r (s64 u) f)
  else if insn =? 0x0d then '(r, p) ← read_uleb128 mem p; Ok (p, c, def_cfa r (cfa_offset (regs f)) f)
  else if insn =? 0x0e then '(u, p) ← read_uleb128 mem p; Ok (p, c, def_cfa_offset (s64 u) f)
  else if insn =? 0x0f then q ← skip_block p; Ok (q, c, def_cfa_expression p f)
  else if insn =? 0x10 then
    '(r, p) ← read_uleb128 mem p; f ← set_rule r (REG_SAVED_EXP p) f; q ← skip_block p; Ok (q, c, f)
  else if insn =? 0x11 then '(r, o, p) ← read_reg_offset_sf p (data_align f); f ← set_rule r (REG_SAVED_OFFSET o) f; Ok (p, c, f)
  else if insn =? 0x12 then
    '(r, p) ← read_uleb128 mem p; '(s, p) ← read_sleb128 mem p; Ok (p, c, def_cfa r (s64 (s * data_align f)) f)
  else if insn =? 0x13 then '(s, p) ← read_sleb128 mem p; Ok (p, c, def_cfa_offset (s64 (s * data_align f)) f)
  else if insn =? 0x14 then '(r, o, p) ← read_reg_offset p (data_align f); f ← set_rule r (REG_SAVED_VAL_OFFSET o) f; Ok (p, c, f)
  else if insn =? 0x15 then '(r, o, p) ← read_reg_offset_sf p (data_align f); f ← set_rule r (REG_SAVED_VAL_OFFSET o) f; Ok (p, c, f)
  else if insn =? 0x16 then
    '(r, p) ← read_uleb128 mem p; f ← set_rule r (REG_SAVED_VAL_EXP p) f; q ← skip_block p; Ok (q, c, f)
  else if insn =? 0x2d then
    f ← for_range 16 32 (λ r f, set_rule r (REG_SAVED_OFFSET ((r - 16) * 8)) f) f; Ok (p, c, f)
  else if insn =? 0x2e then '(u, p) ← read_uleb128 mem p; Ok (p, with_args_size u c, f)
  else if insn =? 0x2f then
    '(r, p) ← read_uleb128 mem p; '(u, p) ← read_uleb128 mem p;
    f ← set_rule r (REG_SAVED_OFFSET (s64 (- s64 (u64 (u * data_align f))))) f; Ok (p, c, f)
  else Ok (p, c, f).

(** Every instruction has at least one byte. *)
Fixpoint cfa_loop (fuel : nat) (insn_ptr insn_end : Z) (c : Unwind_Context) (f : FrameState) : result (Unwind_Context * FrameState) :=
  if negb ((insn_ptr <? insn_end) && (fs_pc f <? u64 (ra c + Unwind_IsSignalFrame c))) then Ok (c, f) else
  match fuel with
  | O => Err Hang
  | S fuel' =>
      '(insn_ptr, c, f) ← cfa_step (mem insn_ptr) (insn_ptr + 1) c f;
      cfa_loop fuel' insn_ptr insn_end c f
  end.

Definition execute_cfa_program (fuel : nat) (insn_ptr insn_end : Z) (c : Unwind_Context) (f : FrameState)
    : result (Unwind_Context * FrameState) :=
  cfa_loop fuel insn_ptr insn_end c (with_prev (regs f) [] f).

(** ** The common record *)

(** The parts of the frame state that the augmentation sets. *)
Definition with_lsda_encoding e (f : FrameState) := MkFs (regs f) (prev f) (fs_pc f) (personality f) (data_align f) (code_align f) (retaddr_column f) (fde_encoding f) e (saw_z f) (signal_frame f) (eh_ptr f).
Definition with_fde_encoding e (f : FrameState) := MkFs (regs f) (prev f) (fs_pc f) (personality f) (data_align f) (code_align f) (retaddr_column f) e (lsda_encoding f) (saw_z f) (signal_frame f) (eh_ptr f).
Definition with_personality p (f : FrameState) := MkFs (regs f) (prev f) (fs_pc f) p (data_align f) (code_align f) (retaddr_column f) (fde_encoding f) (lsda_encoding f) (saw_z f) (signal_frame f) (eh_ptr f).
Definition with_signal_frame (f : FrameState) := MkFs (regs f) (prev f) (fs_pc f) (personality f) (data_align f) (code_align f) (retaddr_column f) (fde_encoding f) (lsda_encoding f) (saw_z f) true (eh_ptr f).

(** The loop over the augmentation string (76 is [L], 82 [R], 80 [P], 83 [S]); [ret] is
    the address after the augmentation data when it is known. *)
Fixpoint cie_augmentations (fuel : nat) (c : Unwind_Context) (aug p : Z) (ret : option Z) (f : FrameState) : result (option Z * FrameState) :=
  match fuel with
  | O => Err Hang
  | S fuel' =>
      let a := mem aug in
      if a =? 0 then Ok (Some (default p ret), f)
      else if a =? 76 then cie_augmentations fuel' c (aug + 1) (p + 1) ret (with_lsda_encoding (mem p) f)
      else if a =? 82 then cie_augmentations fuel' c (aug + 1) (p + 1) ret (with_fde_encoding (mem p) f)
      else if a =? 80 then
        '(pers, p) ← read_encoded_value mem c (mem p) (p + 1);
        cie_augmentations fuel' c (aug + 1) p ret (with_personality pers f)
      else if a =? 83 then cie_augmentations fuel' c (aug + 1) p ret (with_signal_frame f)
      else Ok (ret, f)
  end.

(** [extract_cie_info]: the address of the instructions, or NULL (101 is [e], 104 [h],
    122 [z]). *)
Definition extract_cie_info (sf : nat) (cie : Z) (c : Unwind_Context) (f : FrameState) : result (option Z * FrameState) :=
  let aug := cie_augmentation cie in
  n ← strlen mem sf aug;
  let p := u64 (aug + n + 1) in
  let eh := (mem aug =? 101) && (mem (aug + 1) =? 104) in
  let '(ptr, p, aug) := if eh then (ldn mem 8 p, p + 8, aug + 2) else (eh_ptr f, p, aug) in
  let v := cie_version mem cie in
  if (4 <=? v) && (negb (mem p =? 8) || negb (mem (p + 1) =? 0)) then
    Ok (None, MkFs (regs f) (prev f) (fs_pc f) (personality f) (data_align f) (code_align f) (retaddr_column f) (fde_encoding f) (lsda_encoding f) (saw_z f) (signal_frame f) ptr)
  else
  let p := if 4 <=? v then p + 2 else p in
  '(code, p) ← read_uleb128 mem p;
  '(data, p) ← read_sleb128 mem p;
  '(ret_col, p) ← (if v =? 1 then Ok (mem p, p + 1) else read_uleb128 mem p);
  let z := mem aug =? 122 in
  '(ret, p, aug) ← (if z then '(u, p) ← read_uleb128 mem p; Ok (Some (u64 (p + u)), p, aug + 1) else Ok (None, p, aug));
  cie_augmentations sf c aug p ret
    (MkFs (regs f) (prev f) (fs_pc f) (personality f) data code ret_col (fde_encoding f) DW_EH_PE_omit (z || saw_z f) (signal_frame f) ptr).
End program.

(** ** The caller's frame *)

Inductive reason :=
| _URC_NO_REASON | _URC_FOREIGN_EXCEPTION_CAUGHT | _URC_FATAL_PHASE2_ERROR | _URC_FATAL_PHASE1_ERROR | _URC_NORMAL_STOP
| _URC_END_OF_STACK | _URC_HANDLER_FOUND | _URC_INSTALL_CONTEXT | _URC_CONTINUE_UNWIND.

#[export] Instance reason_eq_dec : EqDecision reason.
Proof. solve_decision. Defined.

Section frames.
(** Memory, the bounds of the searches, the address of [terminator], the addresses of the
    interrupt entry points, and the user address of the running system call. *)
Context (mem : Z → Z) (sf wf : nat) (terminator irq0 irq255 syscall_rip : Z).

(** [uw_frame_state_for].  The instructions of the common record run up to its end, those
    of the descriptor up to the return address; [sizeof (struct dwarf_fde)] is 8. *)
Definition uw_frame_state_for (c : Unwind_Context) (st : unwinder) : result (reason * Unwind_Context * FrameState * unwinder) :=
  let c := with_lsda 0 (with_args_size 0 c) in
  if ra c =? 0 then Ok (_URC_END_OF_STACK, c, zero_fs, st) else
  let c := if (irq0 <? ra c) && (ra c <? irq255) then with_ra syscall_rip c else c in
  '(r, st) ← Unwind_Find_FDE mem sf wf terminator (u64 (ra c + Unwind_IsSignalFrame c - 1)) st;
  match r with
  | None => Ok (_URC_END_OF_STACK, c, zero_fs, st)
  | Some (fde, b) =>
      let c := with_bases b c in
      let cie := get_cie mem fde in
      '(insn, f) ← extract_cie_info mem sf cie c (with_pc (func b) zero_fs);
      match insn with
      | None => Ok (_URC_FATAL_PHASE1_ERROR, c, f, st)
      | Some insn =>
          let fin := next_fde mem cie in
          '(c, f) ← execute_cfa_program mem (Z.to_nat (fin - insn)) insn fin c f;
          size ← size_of_encoded_value (fde_encoding f);
          let aug := u64 (fde + 8 + 2 * size) in
          '(insn, aug) ← (if saw_z f then '(i, aug) ← read_uleb128 mem aug; Ok (Some (u64 (aug + i)), aug) else Ok (None, aug));
          '(c, aug) ← (if negb (lsda_encoding f =? DW_EH_PE_omit) then
                         '(l, aug) ← read_encoded_value mem c (lsda_encoding f) aug; Ok (with_lsda l c, aug)
                       else Ok (c, aug));
          let insn := default aug insn in
          let fin := next_fde mem fde in
          '(c, f) ← execute_cfa_program mem (Z.to_nat (fin - insn)) insn fin c f;
          Ok (_URC_NO_REASON, c, f, st)
      end
  end.

(** [_Unwind_SetGRPtr]; the column of a rule is always one of the 18. *)
Definition set_gr (i : Z) (l : location) (c : Unwind_Context) : result Unwind_Context :=
  r ← wr (reg c) i l; Ok (with_reg r c).

(** The value of an expression that starts with its length; [ef] bounds its operations. *)
Context (ef : nat).

Definition eval_exp (exp : Z) (orig : Unwind_Context) (initial : Z) : result Z :=
  '(n, p) ← read_uleb128 mem exp;
  execute_stack_op mem ef p (u64 (p + n)) orig initial.

(** The stack pointer column of the copy: the frame's own address when it was not saved. *)
Definition orig_context (c : Unwind_Context) : result Unwind_Context :=
  l ← rd (reg c) dwarf_sp_column;
  match l with Nowhere => set_gr dwarf_sp_column (Temporary (cfa c)) c | _ => Ok c end.

(** [_Unwind_GetGRPtr] of the copy, which is gone when the function returns. *)
Definition copied (l : location) : location :=
  match l with Temporary _ => Dangling | l => l end.

Definition frame_cfa (orig : Unwind_Context) (f : FrameState) : result Z :=
  match cfa_how (regs f) with
  | CFA_REG_OFFSET => v ← Unwind_GetGR mem orig (cfa_reg (regs f)); Ok (u64 (v + cfa_offset (regs f)))
  | CFA_EXP => eval_exp (cfa_exp (regs f)) orig 0
  | CFA_UNSET => Err Uninitialised
  end.

(** A pointer to a saved register; NULL is no pointer. *)
Definition at_address (p : Z) : location := if p =? 0 then Nowhere else InMemory p.

(** The rule of one register. *)
Definition apply_rule (orig : Unwind_Context) (a : Z) (r : rule) (i : Z) (c : Unwind_Context) : result Unwind_Context :=
  match r with
  | REG_UNSAVED | REG_UNDEFINED => Ok c
  | REG_SAVED_OFFSET o => set_gr i (at_address (u64 (a + o))) c
  | REG_SAVED_REG r => l ← rd (reg orig) (s32 r); set_gr i (copied l) c
  | REG_SAVED_EXP exp => v ← eval_exp exp orig a; set_gr i (at_address v) c
  | REG_SAVED_VAL_OFFSET o => set_gr i (ByValue (u64 (a + o))) c
  | REG_SAVED_VAL_EXP exp => v ← eval_exp exp orig a; set_gr i (ByValue v) c
  end.

Definition uw_update_context_1 (c : Unwind_Context) (f : FrameState) : result Unwind_Context :=
  orig ← orig_context c;
  c ← set_gr dwarf_sp_column Nowhere c;
  a ← frame_cfa orig f;
  c ← for_range 0 (DWARF_FRAME_REGISTERS + 1) (λ i c, r ← rd (rules (regs f)) i; apply_rule orig a r i c) (with_cfa a c);
  Ok (with_signal (signal_frame f) c).

Definition uw_update_context (c : Unwind_Context) (f : FrameState) : result Unwind_Context :=
  c ← uw_update_context_1 c f;
  r ← rd (rules (regs f)) (retaddr_column f);
  match r with
  | REG_UNDEFINED => Ok (with_ra 0 c)
  | _ => v ← Unwind_GetGR mem c (retaddr_column f); Ok (with_ra v c)
  end.

(** [uw_init_context_1]: the context of the caller of the unwinder, from the frame that
    the unwinder runs in ([init_ra] lies in it), its caller's stack pointer and the
    return address there. *)
Definition uw_init_context_1 (init_ra outer_cfa outer_ra : Z) (st : unwinder) : result (Unwind_Context * unwinder) :=
  let c := MkContext (replicate 18 Nowhere) 0 init_ra 0 (MkBases 0 0 0) false 0 in
  '(_, c, f, st) ← uw_frame_state_for c st;
  c ← set_gr dwarf_sp_column (Temporary outer_cfa) c;
  c ← uw_update_context_1 c (def_cfa dwarf_sp_column 0 f);
  Ok (with_ra outer_ra c, st).

(** [__frame_state_for]: for an address, how each register was saved (the number of its
    rule) with the register or offset of the rule, the rule of the frame's address, the
    column of the return address, the size of the arguments and the pointer of the
    augmentation; nothing without a descriptor or for an address given by an expression.
    Two members are 16 bits wide. *)
Record frame_state := MkFrameState {
  saved : list Z; reg_or_offset : list Z; st_cfa_offset : Z; st_cfa_reg : Z; st_retaddr_column : Z; st_args_size : Z; st_eh_ptr : Z }.

Definition saved_how (r : rule) : Z * Z :=
  match r with
  | REG_UNSAVED => (0, 0)
  | REG_SAVED_OFFSET o => (1, o)
  | REG_SAVED_REG r => (2, s64 r)
  | REG_SAVED_EXP _ => (3, 0)
  | REG_SAVED_VAL_OFFSET _ => (4, 0)
  | REG_SAVED_VAL_EXP _ => (5, 0)
  | REG_UNDEFINED => (6, 0)
  end.

Definition frame_state_for (pc_target : Z) (st : unwinder) : result (option frame_state * unwinder) :=
  let c := MkContext (replicate 18 Nowhere) 0 (u64 (pc_target + 1)) 0 (MkBases 0 0 0) false 0 in
  '(code, c, f, st) ← uw_frame_state_for c st;
  match code, cfa_how (regs f) with
  | _URC_NO_REASON, CFA_EXP => Ok (None, st)
  | _URC_NO_REASON, _ =>
      let l := saved_how <$> rules (regs f) in
      Ok (Some (MkFrameState l.*1 l.*2 (cfa_offset (regs f)) (wrap 16 (cfa_reg (regs f))) (wrap 16 (retaddr_column f)) (s64 (args_size c)) (eh_ptr f)), st)
  | _, _ => Ok (None, st)
  end.

(** [uw_identify_context], for a stack that grows downwards. *)
Definition uw_identify_context (c : Unwind_Context) : Z := u64 (cfa c - Unwind_IsSignalFrame c).
End frames.
