(* ===== verification/CfaTable.v ===== *)
(** * Call frame tables

    What the call frame instructions mean: a table whose rows say, for the addresses
    of a function from one location to the next, how the frame's address and the
    saved registers are found.  [execute_cfa_program] reads encoded instructions and
    stops at an address; the theorems say that it computes the row of that address.
    The numbers are LEB128 numbers of unwind-pe.h. *)

From S2P Require Import Prelude Define Abi FdeSort Fde Cfa.
Local Open Scope Z_scope.

(** ** LEB128 numbers *)

(** [k] bytes of [x], seven bits each, all but the last marked as continued. *)
Fixpoint leb (k : nat) (x : Z) : list Z :=
  match k with
  | O => []
  | S O => [x mod 128]
  | S k => (128 + x mod 128) :: leb k (x / 128)
  end.

Lemma leb_step k x : leb (S (S k)) x = (128 + x mod 128) :: leb (S k) (x / 128).
Proof. done. Qed.

Lemma leb_length k x : length (leb k x) = k.
Proof. revert x. induction k as [|[|k] IH]; intros x; [done..|]. rewrite leb_step. cbn [length]. by rewrite IH. Qed.

(** Seven more bits. *)
Lemma take_seven x s : 0 ≤ s < 64 → Z.lor (x mod 2 ^ s) (u64 (Z.shiftl ((x / 2 ^ s) mod 128) s)) = x mod 2 ^ Z.min (s + 7) 64.
Proof.
  intros Hs. apply Z.bits_inj'. intros n Hn. unfold wrap. change 128 with (2 ^ 7).
  rewrite Z.lor_spec, <- (Z.shiftr_div_pow2 x) by lia.
  assert (∀ y k, 0 ≤ k → Z.testbit (y mod 2 ^ k) n = Z.testbit y n && (n <? k)) as Hmod.
  { intros y k Hk. destruct (Z.ltb_spec n k); [by rewrite Z.mod_pow2_bits_low, andb_true_r by lia|].
    by rewrite Z.mod_pow2_bits_high, andb_false_r by lia. }
  rewrite !Hmod by lia. destruct (Z.ltb_spec n s) as [Hlt|Hge].
  - rewrite Z.shiftl_spec_low by lia. rewrite (proj2 (Z.ltb_lt n (Z.min (s + 7) 64))) by lia. by rewrite orb_false_r.
  - rewrite Z.shiftl_spec by lia. rewrite andb_false_r. cbn [orb]. destruct (Z.ltb_spec (n - s) 7).
    + rewrite Z.mod_pow2_bits_low, Z.shiftr_spec, Z.sub_add by lia. f_equal.
      destruct (Z.ltb_spec n 64), (Z.ltb_spec n (Z.min (s + 7) 64)); lia.
    + rewrite Z.mod_pow2_bits_high by lia. cbn [andb]. rewrite (proj2 (Z.ltb_ge n (Z.min (s + 7) 64))) by lia. by rewrite andb_false_r.
Qed.

Lemma leb_sign_bit v : 0 ≤ v < 128 → (Z.land v 0x40 =? 0) = (v <? 64).
Proof.
  intros Hv. assert (Forall (λ v, (Z.land v 0x40 =? 0) = (v <? 64)) (seqZ 0 128)) as Hall by (apply (bool_decide_unpack _); vm_compute; exact I).
  rewrite Forall_forall in Hall. apply Hall, elem_of_seqZ. lia.
Qed.

Section leb.
Context (mem : Z → Z).

Lemma leb64_loop_spec k : ∀ x y p s fuel,
  (1 ≤ k)%nat → (k ≤ fuel)%nat → 0 ≤ s → s + 7 * (Z.of_nat k - 1) < 64 → y = x / 2 ^ s → bytes_at mem p (leb k y) →
  leb64_loop mem fuel p (x mod 2 ^ s) s =
    Ok (x mod 2 ^ Z.min (s + 7 * Z.of_nat k) 64, (x / 2 ^ (s + 7 * (Z.of_nat k - 1))) mod 128, s + 7 * Z.of_nat k, p + Z.of_nat k).
Proof.
  induction k as [|k IH]; intros x y p s fuel Hk Hf Hs Hb -> Hm; [lia|]. destruct fuel as [|fuel]; [lia|].
  cbn [leb64_loop]. rewrite (proj2 (Z.ltb_lt s 64)) by lia. ok_step. cbv zeta. pose proof (Z.mod_pos_bound (x / 2 ^ s) 128 ltac:(lia)) as Hv.
  destruct (low_seven _ Hv) as (E1 & E2 & E3 & E4). destruct k as [|k].
  - cbn [leb] in Hm. apply bytes_at_cons in Hm as [-> _]. rewrite E1, E2, take_seven by lia. cbv iota.
    change (Z.of_nat 1) with 1. replace (s + 7 * (1 - 1)) with s by lia. by replace (7 * 1) with 7 by lia.
  - rewrite leb_step in Hm. apply bytes_at_cons in Hm as [-> Hm]. rewrite E3, E4, take_seven by lia. cbv iota. rewrite Z.min_l by lia.
    rewrite (IH x ((x / 2 ^ s) / 128)); [|lia|lia|lia|lia| |done].
    + replace (s + 7 + 7 * Z.of_nat (S k)) with (s + 7 * Z.of_nat (S (S k))) by lia.
      replace (s + 7 + 7 * (Z.of_nat (S k) - 1)) with (s + 7 * (Z.of_nat (S (S k)) - 1)) by lia.
      by replace (p + 1 + Z.of_nat (S k)) with (p + Z.of_nat (S (S k))) by lia.
    + rewrite Z.div_div by lia. f_equal. by rewrite Z.pow_add_r by lia.
Qed.

Lemma read_uleb128_leb k x p :
  (1 ≤ k ≤ 10)%nat → 0 ≤ x < 2 ^ (7 * Z.of_nat k) → x < 2 ^ 64 → bytes_at mem p (leb k x) →
  read_uleb128 mem p = Ok (x, p + Z.of_nat k).
Proof.
  intros Hk Hx Hx' Hm. unfold read_uleb128. pose proof (leb64_loop_spec k x x p 0 11) as Hl. rewrite Z.mod_1_r, !Z.add_0_l in Hl.
  rewrite Hl, bind_Ok; [|lia..|by rewrite Z.div_1_r|done]. do 2 f_equal. rewrite Z.mod_small; [done|].
  destruct (Z.min_spec (7 * Z.of_nat k) 64) as [[_ ->]|[_ ->]]; lia.
Qed.

Lemma read_sleb128_leb k x p :
  (1 ≤ k ≤ 10)%nat → - 2 ^ (7 * Z.of_nat k - 1) ≤ x < 2 ^ (7 * Z.of_nat k - 1) → - 2 ^ 63 ≤ x < 2 ^ 63 →
  bytes_at mem p (leb k x) → read_sleb128 mem p = Ok (x, p + Z.of_nat k).
Proof.
  intros Hk Hx Hx' Hm. unfold read_sleb128. pose proof (leb64_loop_spec k x x p 0 11) as Hl. rewrite Z.mod_1_r, !Z.add_0_l in Hl.
  rewrite Hl, bind_Ok; [|lia..|by rewrite Z.div_1_r|done]. clear Hl. cbv zeta. do 2 f_equal.
  set (s := 7 * Z.of_nat k) in *. replace (7 * (Z.of_nat k - 1)) with (s - 7) by lia.
  assert (2 ^ (s - 1) = 64 * 2 ^ (s - 7)) as Ep by (replace (s - 1) with (6 + (s - 7)) by lia; by rewrite Z.pow_add_r by lia).
  assert (0 < 2 ^ (s - 7)) as Hpos by (apply Z.pow_pos_nonneg; lia).
  assert ((Z.land ((x / 2 ^ (s - 7)) mod 128) 0x40 =? 0) = (0 <=? x)) as Hsign.
  { rewrite leb_sign_bit by (apply Z.mod_pos_bound; lia).
    assert (- 64 ≤ x / 2 ^ (s - 7) < 64) as Hq by (split; [apply Z.div_le_lower_bound; lia|apply Z.div_lt_upper_bound; lia]).
    destruct (Z.leb_spec 0 x) as [H0|H0].
    - pose proof (Z.div_pos x (2 ^ (s - 7)) H0 Hpos). rewrite Z.mod_small by lia. apply Z.ltb_lt. lia.
    - pose proof (Z.div_lt_upper_bound x (2 ^ (s - 7)) 0 Hpos ltac:(lia)). apply Z.ltb_ge.
      rewrite <- (Z.mod_add _ 1 128), Z.mod_small by lia. lia. }
  assert (2 ^ s = 2 * 2 ^ (s - 1)) as Es by (rewrite <- Z.pow_succ_r by lia; f_equal; lia).
  rewrite Hsign. destruct (Z.ltb_spec s 64) as [H64|H64]; cbn [andb].
  - rewrite Z.min_l by lia. pose proof (Z.pow_le_mono_r 2 s 63 ltac:(lia) ltac:(lia)). destruct (Z.leb_spec 0 x); cbn [negb].
    + rewrite Z.mod_small by lia. apply swrap_small; lia.
    + assert (x mod 2 ^ s = x + 2 ^ s) as -> by (symmetry; apply (Z.mod_unique_pos _ _ (-1)); lia).
      rewrite Z.shiftl_1_l. assert (u64 (- 2 ^ s) = (2 ^ (64 - s) - 1) * 2 ^ s) as ->.
      { symmetry. apply (Z.mod_unique_pos _ _ (-1)); [split|].
        - assert (0 < 2 ^ (64 - s)) by (apply Z.pow_pos_nonneg; lia). nia.
        - rewrite Z.mul_sub_distr_r, <- Z.pow_add_r by lia. replace (64 - s + s) with 64 by lia. lia.
        - rewrite Z.mul_sub_distr_r, <- Z.pow_add_r by lia. replace (64 - s + s) with 64 by lia. lia. }
      rewrite Z.lor_comm, (lor_high_low s (2 ^ (64 - s) - 1)) by lia.
      rewrite Z.mul_sub_distr_r, <- Z.pow_add_r by lia. replace (64 - s + s) with 64 by lia.
      replace (2 ^ 64 - 1 * 2 ^ s + (x + 2 ^ s)) with (x + 1 * 2 ^ 64) by lia. unfold swrap. rewrite Z.mod_add by lia.
      fold (swrap 64 x). apply swrap_small; lia.
  - rewrite Z.min_r by lia. unfold swrap. rewrite Z.mod_mod by lia. fold (swrap 64 x). apply swrap_small; lia.
Qed.
End leb.

(** ** Instructions *)

(** The instructions without expressions.  An advance is encoded in the instruction
    itself or in 1, 2 or 4 bytes. *)
Inductive width := W0 | W1 | W2 | W4.

Inductive insn :=
| IAdvance (w : width) (d : Z) | INop
| IOffset (r n : Z) | IOffsetExt (r n : Z) | IOffsetSf (r s : Z)
| IRestore (r : Z) | IRestoreExt (r : Z) | ISameValue (r : Z) | IUndefined (r : Z) | IRegister (r r2 : Z)
| IRemember | IRestoreState
| IDefCfa (r n : Z) | IDefCfaRegister (r : Z) | IDefCfaOffset (n : Z) | IDefCfaSf (r s : Z) | IDefCfaOffsetSf (s : Z)
| IValOffset (r n : Z) | IValOffsetSf (r s : Z).

(** Shortest encodings. *)
Definition ubytes (x : Z) : nat := Z.to_nat (Z.log2 x / 7 + 1).
Definition sbytes (x : Z) : nat := Z.to_nat ((Z.log2 (if x <? 0 then - x - 1 else x) + 1) / 7 + 1).
Definition uleb (x : Z) : list Z := leb (ubytes x) x.
Definition sleb (x : Z) : list Z := leb (sbytes x) x.

Definition encode (i : insn) : list Z :=
  match i with
  | IAdvance W0 d => [0x40 + d]
  | IAdvance W1 d => 0x02 :: le_bytes 1 d
  | IAdvance W2 d => 0x03 :: le_bytes 2 d
  | IAdvance W4 d => 0x04 :: le_bytes 4 d
  | INop => [0x00]
  | IOffset r n => (0x80 + r) :: uleb n
  | IOffsetExt r n => 0x05 :: uleb r ++ uleb n
  | IOffsetSf r s => 0x11 :: uleb r ++ sleb s
  | IRestore r => [0xc0 + r]
  | IRestoreExt r => 0x06 :: uleb r
  | ISameValue r => 0x08 :: uleb r
  | IUndefined r => 0x07 :: uleb r
  | IRegister r r2 => 0x09 :: uleb r ++ uleb r2
  | IRemember => [0x0a]
  | IRestoreState => [0x0b]
  | IDefCfa r n => 0x0c :: uleb r ++ uleb n
  | IDefCfaRegister r => 0x0d :: uleb r
  | IDefCfaOffset n => 0x0e :: uleb n
  | IDefCfaSf r s => 0x12 :: uleb r ++ sleb s
  | IDefCfaOffsetSf s => 0x13 :: sleb s
  | IValOffset r n => 0x14 :: uleb r ++ uleb n
  | IValOffsetSf r s => 0x15 :: uleb r ++ sleb s
  end.

(** Operands that fit: columns of the register table, numbers of 63 bits. *)
Definition column (r : Z) : Prop := 0 ≤ r < 18.
Definition small (n : Z) : Prop := 0 ≤ n < 2 ^ 63.
Definition ssmall (s : Z) : Prop := - 2 ^ 63 ≤ s < 2 ^ 63.

Definition valid (i : insn) : Prop :=
  match i with
  | IAdvance W0 d => 0 ≤ d < 64
  | IAdvance W1 d => 0 ≤ d < 2 ^ 8
  | IAdvance W2 d => 0 ≤ d < 2 ^ 16
  | IAdvance W4 d => 0 ≤ d < 2 ^ 32
  | INop | IRemember | IRestoreState => True
  | IOffset r n | IOffsetExt r n | IValOffset r n => column r ∧ small n
  | IOffsetSf r s | IValOffsetSf r s => column r ∧ ssmall s
  | IRestore r | IRestoreExt r | ISameValue r | IUndefined r => column r
  | IRegister r r2 => column r ∧ small r2
  | IDefCfa r n => small r ∧ small n
  | IDefCfaRegister r => small r
  | IDefCfaOffset n => small n
  | IDefCfaSf r s => small r ∧ ssmall s
  | IDefCfaOffsetSf s => ssmall s
  end.

(** ** The table *)

Definition set_row (r : Z) (ru : rule) (row : reg_info) : reg_info := with_rules (<[Z.to_nat r := ru]> (rules row)) row.

Definition set_cfa (r o : Z) (row : reg_info) : reg_info := MkInfo (rules row) o r (cfa_exp row) CFA_REG_OFFSET.
Definition set_cfa_offset (o : Z) (row : reg_info) : reg_info := MkInfo (rules row) o (cfa_reg row) (cfa_exp row) (cfa_how row).

(** The effect of an instruction on the row and the remembered rows; offsets are
    factored by [da]. *)
Definition effect (da : Z) (i : insn) (s : reg_info * list reg_info) : option (reg_info * list reg_info) :=
  let '(row, st) := s in
  match i with
  | IAdvance _ _ | INop => Some (row, st)
  | IOffset r n | IOffsetExt r n => Some (set_row r (REG_SAVED_OFFSET (s64 (n * da))) row, st)
  | IOffsetSf r n => Some (set_row r (REG_SAVED_OFFSET (s64 (n * da))) row, st)
  | IRestore r | IRestoreExt r | ISameValue r => Some (set_row r REG_UNSAVED row, st)
  | IUndefined r => Some (set_row r REG_UNDEFINED row, st)
  | IRegister r r2 => Some (set_row r (REG_SAVED_REG r2) row, st)
  | IRemember => Some (row, row :: st)
  | IRestoreState => match st with old :: st => Some (old, st) | [] => None end
  | IDefCfa r n => Some (set_cfa r n row, st)
  | IDefCfaRegister r => Some (set_cfa r (cfa_offset row) row, st)
  | IDefCfaOffset n => Some (set_cfa_offset n row, st)
  | IDefCfaSf r n => Some (set_cfa r (s64 (n * da)) row, st)
  | IDefCfaOffsetSf n => Some (set_cfa_offset (s64 (n * da)) row, st)
  | IValOffset r n | IValOffsetSf r n => Some (set_row r (REG_SAVED_VAL_OFFSET (s64 (n * da))) row, st)
  end.

Definition advance (ca : Z) (i : insn) (loc : Z) : Z := match i with IAdvance _ d => loc + d * ca | _ => loc end.

(** All rows with their locations; none when a state is restored that was not
    remembered. *)
Fixpoint table (ca da : Z) (l : list insn) (loc : Z) (s : reg_info * list reg_info) : option (list (Z * reg_info)) :=
  match l with
  | [] => Some [(loc, fst s)]
  | i :: l =>
      s' ← effect da i s;
      t ← table ca da l (advance ca i loc) s';
      Some (match i with IAdvance _ _ => (loc, fst s) :: t | _ => t end)
  end.

(** The last row that starts below an address. *)
Definition row_below (target : Z) (t : list (Z * reg_info)) (row : reg_info) : reg_info :=
  foldl (λ cur e, if fst e <? target then snd e else cur) row t.

Definition encode_all (l : list insn) : list Z := l ≫= encode.

Section decoding.
Context (mem : Z → Z).

Lemma ubytes_bound x : 0 ≤ x < 2 ^ 64 → (1 ≤ ubytes x ≤ 10)%nat ∧ x < 2 ^ (7 * Z.of_nat (ubytes x)).
Proof.
  intros Hx. unfold ubytes. pose proof (Z.log2_nonneg x). assert (Z.log2 x < 64).
  { destruct (decide (x = 0)) as [->|]; [done|]. apply Z.log2_lt_pow2; lia. }
  rewrite Z2Nat.id by (Z.to_euclidean_division_equations; lia). split; [Z.to_euclidean_division_equations; lia|].
  destruct (decide (x = 0)) as [->|]; [done|]. destruct (Z.log2_spec x ltac:(lia)) as [_ Hlt].
  eapply Z.lt_le_trans; [exact Hlt|]. apply Z.pow_le_mono_r; [lia|]. Z.to_euclidean_division_equations; lia.
Qed.

Lemma sbytes_bound x : - 2 ^ 63 ≤ x < 2 ^ 63 →
  (1 ≤ sbytes x ≤ 10)%nat ∧ - 2 ^ (7 * Z.of_nat (sbytes x) - 1) ≤ x < 2 ^ (7 * Z.of_nat (sbytes x) - 1).
Proof.
  intros Hx. unfold sbytes. set (m := if x <? 0 then - x - 1 else x).
  assert (0 ≤ m < 2 ^ 63 ∧ - m - 1 ≤ x ≤ m) as [Hm Hxm] by (unfold m; destruct (Z.ltb_spec x 0); lia).
  pose proof (Z.log2_nonneg m). assert (Z.log2 m < 63).
  { destruct (decide (m = 0)) as [->|]; [done|]. apply Z.log2_lt_pow2; lia. }
  rewrite Z2Nat.id by (Z.to_euclidean_division_equations; lia). split; [Z.to_euclidean_division_equations; lia|].
  assert (m < 2 ^ (7 * ((Z.log2 m + 1) / 7 + 1) - 1)); [|lia].
  destruct (decide (m = 0)) as [->|]; [done|]. destruct (Z.log2_spec m ltac:(lia)) as [_ Hlt].
  eapply Z.lt_le_trans; [exact Hlt|]. apply Z.pow_le_mono_r; [lia|]. Z.to_euclidean_division_equations; lia.
Qed.

Lemma read_uleb x p : 0 ≤ x < 2 ^ 64 → bytes_at mem p (uleb x) → read_uleb128 mem p = Ok (x, p + Z.of_nat (length (uleb x))).
Proof.
  intros Hx Hb. destruct (ubytes_bound x Hx) as [Hk Hlt]. unfold uleb. rewrite leb_length. apply read_uleb128_leb; [done|lia|lia|done].
Qed.

Lemma read_sleb x p : - 2 ^ 63 ≤ x < 2 ^ 63 → bytes_at mem p (sleb x) → read_sleb128 mem p = Ok (x, p + Z.of_nat (length (sleb x))).
Proof.
  intros Hx Hb. destruct (sbytes_bound x Hx) as [Hk Hlt]. unfold sleb. rewrite leb_length. by apply read_sleb128_leb.
Qed.

Lemma le_bytes_S n x : le_bytes (S n) x = x mod 256 :: le_bytes n (x / 256).
Proof.
  unfold le_bytes. cbn [seq]. rewrite <- seq_shift. csimpl. rewrite Z.div_1_r. f_equal. rewrite <- list_fmap_compose. apply list_fmap_ext.
  intros i k _. unfold compose. rewrite Z.div_div by lia. do 2 f_equal. by rewrite Nat2Z.inj_succ, Z.pow_succ_r by lia.
Qed.

Lemma ldn_le_bytes n x p : 0 ≤ x < 256 ^ Z.of_nat n → bytes_at mem p (le_bytes n x) → ldn mem n p = x.
Proof.
  revert x p. induction n as [|n IH]; intros x p Hx Hb; [simpl in *; lia|]. rewrite le_bytes_S in Hb. apply bytes_at_cons in Hb as [Hp Hb].
  cbn [ldn]. rewrite Hp, (IH (x / 256) (p + 1)); [|split; [apply Z.div_pos; lia|]|done].
  - pose proof (Z.div_mod x 256). lia.
  - apply Z.div_lt_upper_bound; [lia|]. rewrite Nat2Z.inj_succ, Z.pow_succ_r in Hx by lia. lia.
Qed.

(** The number in the lower six bits of an instruction. *)
Lemma packed_insn n : 0 ≤ n < 64 →
  Z.land (0x40 + n) 0xc0 = 0x40 ∧ Z.land (0x40 + n) 0x3f = n ∧ Z.land (0x80 + n) 0xc0 = 0x80 ∧ Z.land (0x80 + n) 0x3f = n ∧
  Z.land (0xc0 + n) 0xc0 = 0xc0 ∧ Z.land (0xc0 + n) 0x3f = n.
Proof.
  intros Hn. assert (Forall (λ n, Z.land (0x40 + n) 0xc0 = 0x40 ∧ Z.land (0x40 + n) 0x3f = n ∧ Z.land (0x80 + n) 0xc0 = 0x80 ∧
    Z.land (0x80 + n) 0x3f = n ∧ Z.land (0xc0 + n) 0xc0 = 0xc0 ∧ Z.land (0xc0 + n) 0x3f = n) (seqZ 0 64)) as Hall
    by (apply (bool_decide_unpack _); vm_compute; exact I).
  rewrite Forall_forall in Hall. apply Hall, elem_of_seqZ. lia.
Qed.

(** A rule for a column of the table. *)
Lemma set_rule_row r ru f : column r → length (rules (regs f)) = 18%nat →
  set_rule r ru f = Ok (with_prev (set_row r ru (regs f)) (prev f) f).
Proof. intros Hr Hl. unfold column in Hr. unfold set_rule. by rewrite wr_total by lia. Qed.

(** Decides the tests on a known instruction. *)
Ltac decide_tests :=
  repeat match goal with
  | |- context [if ?b then _ else _] =>
      let b' := eval vm_compute in b in
      match b' with true => change b with true | false => change b with false end; cbv iota
  end.

Ltac read_operands :=
  repeat match goal with
  | H : bytes_at mem ?p (uleb ?x) |- context [read_uleb128 mem ?p] => rewrite (read_uleb x p) by (try done; unfold column, small in *; lia); ok_step
  | H : bytes_at mem ?p (sleb ?x) |- context [read_sleb128 mem ?p] => rewrite (read_sleb x p) by (try done; unfold ssmall in *; lia); ok_step
  | H : bytes_at _ _ (_ ++ _) |- _ => apply bytes_at_app in H as [? ?]
  end.

Ltac finish_step f n :=
  read_operands; repeat first [rewrite set_rule_row by done | rewrite bind_Ok]; rewrite ?(swrap_small 64 n) by (unfold small in *; lia);
  cbn [length]; rewrite ?length_app; do 3 f_equal; try lia; by destruct f.

(** The state after an instruction. *)
Definition after (i : insn) (s : reg_info * list reg_info) (f : FrameState) : FrameState :=
  with_prev (fst s) (snd s) (with_pc (advance (code_align f) i (fs_pc f)) f).

Lemma with_prev_pc r st f : with_prev r st (with_pc (fs_pc f) f) = with_prev r st f.
Proof. by destruct f. Qed.

Lemma cfa_step_insn i p c f s :
  valid i → length (rules (regs f)) = 18%nat → bytes_at mem p (encode i) → effect (data_align f) i (regs f, prev f) = Some s →
  0 ≤ fs_pc f → 0 ≤ code_align f → advance (code_align f) i (fs_pc f) < 2 ^ 64 →
  cfa_step mem (mem p) (p + 1) c f = Ok (p + Z.of_nat (length (encode i)), c, after i s f).
Proof.
  intros Hv Hl Hb He H0 Hca Hadv.
  destruct i as [w d| |r n|r n|r n|r|r|r|r|r r2| | |r n|r|n|r n|n|r n|r n]; cbn [encode valid effect advance] in *;
    [destruct w; cbn [encode] in *|..]; apply bytes_at_cons in Hb as [Hp Hb]; rewrite Hp; unfold cfa_step, after; cbv zeta; cbn [advance];
    simplify_eq; rewrite ?with_prev_pc; cbn [fst snd].
  - destruct (packed_insn d Hv) as (-> & -> & _). decide_tests. rewrite wrap_small by (unfold fits; nia). cbn [length]. by destruct f.
  - decide_tests. rewrite le_bytes_S in *. apply bytes_at_cons in Hb as [-> _].
    rewrite (Z.mod_small d), wrap_small by (unfold fits; nia). cbn [length]. rewrite <- Z.add_assoc. by destruct f.
  - decide_tests. rewrite (ldn_le_bytes 2 d) by done. rewrite wrap_small by (unfold fits; nia). cbn [length]. rewrite <- Z.add_assoc. by destruct f.
  - decide_tests. rewrite (ldn_le_bytes 4 d) by done. rewrite wrap_small by (unfold fits; nia). cbn [length]. rewrite <- Z.add_assoc. by destruct f.
  - decide_tests. by destruct f.
  - destruct Hv as [Hr Hn]. destruct (packed_insn r ltac:(unfold column in Hr; lia)) as (_ & _ & -> & -> & _). decide_tests. finish_step f n.
  - destruct Hv as [Hr Hn]. decide_tests. unfold read_reg_offset. finish_step f n.
  - destruct Hv as [Hr Hn]. decide_tests. unfold read_reg_offset_sf. finish_step f n.
  - destruct (packed_insn r ltac:(unfold column in Hv; lia)) as (_ & _ & _ & _ & -> & ->). decide_tests. finish_step f 0.
  - decide_tests. finish_step f 0.
  - decide_tests. finish_step f 0.
  - decide_tests. finish_step f 0.
  - destruct Hv as [Hr Hn]. decide_tests. finish_step f r2.
  - decide_tests. finish_step f 0.
  - decide_tests. destruct (prev f) as [|old st]; [done|]. simplify_eq. finish_step f 0.
  - destruct Hv as [Hr Hn]. decide_tests. finish_step f n.
  - decide_tests. finish_step f r.
  - decide_tests. finish_step f n.
  - destruct Hv as [Hr Hn]. decide_tests. finish_step f n.
  - decide_tests. finish_step f n.
  - destruct Hv as [Hr Hn]. decide_tests. unfold read_reg_offset. finish_step f n.
  - destruct Hv as [Hr Hn]. decide_tests. unfold read_reg_offset_sf. finish_step f n.
Qed.

(** ** Running a program *)

Definition sized (s : reg_info * list reg_info) : Prop := Forall (λ r, length (rules r) = 18%nat) (fst s :: snd s).

Lemma effect_sized da i s s' : effect da i s = Some s' → sized s → sized s'.
Proof.
  destruct s as [row st]. intros He [Hr Hst]%Forall_cons. unfold sized.
  destruct i; simpl in *; simplify_eq; simpl; repeat (constructor; [simpl; rewrite ?length_insert; done|]); try done.
  destruct st as [|old st]; [done|]. simplify_eq. done.
Qed.

Lemma advance_ge ca i loc : valid i → 0 ≤ ca → loc ≤ advance ca i loc.
Proof. intros Hv Hc. destruct i as [[]| | | | | | | | | | | | | | | | | |]; simpl in *; nia. Qed.

Lemma table_head ca da l loc s t : table ca da l loc s = Some t → ∃ row t', t = (loc, row) :: t'.
Proof.
  revert loc s t. induction l as [|i l IH]; intros loc s t Ht; simpl in Ht; simplify_eq; [by eexists _, _|].
  destruct (effect da i s) as [s'|]; [|done]. simpl in Ht. destruct (table ca da l (advance ca i loc) s') as [t0|] eqn:E; [|done].
  simpl in Ht. destruct (IH _ _ _ E) as (row & t' & ->). destruct i; simplify_eq; by eexists _, _.
Qed.

Lemma table_ge ca da l loc s t : Forall valid l → 0 ≤ ca → table ca da l loc s = Some t → Forall (λ e, loc ≤ fst e) t.
Proof.
  intros Hv Hc. revert loc s t. induction Hv as [|i l Hi Hl IH]; intros loc s t Ht; simpl in Ht; simplify_eq.
  { constructor; [simpl; lia|done]. }
  destruct (effect da i s) as [s'|]; [|done]. simpl in Ht. destruct (table ca da l (advance ca i loc) s') as [t0|] eqn:E; [|done].
  simpl in Ht. pose proof (advance_ge ca i loc Hi Hc). specialize (IH _ _ _ E).
  assert (Forall (λ e, loc ≤ fst e) t0) by (eapply Forall_impl; [done|]; simpl; lia).
  destruct i; simplify_eq; try done. constructor; [simpl; lia|done].
Qed.

Lemma row_below_start target loc row0 t row row' : loc < target → row_below target ((loc, row0) :: t) row = row_below target ((loc, row0) :: t) row'.
Proof. intros Hl. unfold row_below. simpl. by rewrite (proj2 (Z.ltb_lt _ _) Hl). Qed.

Lemma row_below_above target t row : Forall (λ e, target ≤ fst e) t → row_below target t row = row.
Proof.
  intros Ht. unfold row_below. revert row. induction Ht as [|e t He Ht IH]; intros row; [done|]. simpl. rewrite (proj2 (Z.ltb_ge _ _) He). apply IH.
Qed.

Lemma row_below_cons target loc row0 t row : row0 = row → row_below target ((loc, row0) :: t) row = row_below target t row.
Proof. intros ->. unfold row_below. simpl. by destruct (loc <? target). Qed.

(** What a program does not change. *)
Definition static (f f' : FrameState) : Prop :=
  personality f' = personality f ∧ data_align f' = data_align f ∧ code_align f' = code_align f ∧ retaddr_column f' = retaddr_column f ∧
  fde_encoding f' = fde_encoding f ∧ lsda_encoding f' = lsda_encoding f ∧ saw_z f' = saw_z f ∧ signal_frame f' = signal_frame f.

Lemma encode_nonempty i : (0 < length (encode i))%nat.
Proof. destruct i as [[]| | | | | | | | | | | | | | | | | |]; simpl; lia. Qed.

Lemma cfa_loop_table c l : Forall valid l → ∀ p fuel f t,
  bytes_at mem p (encode_all l) → (length (encode_all l) ≤ fuel)%nat → sized (regs f, prev f) →
  table (code_align f) (data_align f) l (fs_pc f) (regs f, prev f) = Some t → Forall (λ e, fst e < 2 ^ 64) t →
  0 ≤ fs_pc f < u64 (ra c + Unwind_IsSignalFrame c) → 0 ≤ code_align f →
  ∃ f', cfa_loop mem fuel p (p + Z.of_nat (length (encode_all l))) c f = Ok (c, f') ∧
    regs f' = row_below (u64 (ra c + Unwind_IsSignalFrame c)) t (regs f) ∧ static f f'.
Proof.
  set (target := u64 (ra c + Unwind_IsSignalFrame c)).
  intros Hv. induction Hv as [|i l Hi Hl IH]; intros p fuel f t Hb Hfuel Hs Ht Hbound Hpc Hca.
  { simpl in Ht. simplify_eq. exists f. unfold row_below. simpl. rewrite (proj2 (Z.ltb_lt _ _)) by lia. split_and!; [|done|by repeat split].
    destruct fuel; simpl; by rewrite Z.add_0_r, Z.ltb_irrefl. }
  change (encode_all (i :: l)) with (encode i ++ encode_all l) in *. rewrite length_app in *. pose proof (encode_nonempty i).
  apply bytes_at_app in Hb as [Hbi Hbl]. destruct fuel as [|fuel]; [lia|]. cbn [cfa_loop]. fold target.
  rewrite !(proj2 (Z.ltb_lt _ _)) by lia. cbn [andb negb]. cbn [table] in Ht.
  destruct (effect (data_align f) i (regs f, prev f)) as [s|] eqn:He; [|done]. simpl in Ht.
  destruct (table (code_align f) (data_align f) l (advance (code_align f) i (fs_pc f)) s) as [t0|] eqn:E; [|done]. simpl in Ht.
  destruct (table_head _ _ _ _ _ _ E) as (row0 & t1 & Et0). pose proof (advance_ge (code_align f) i (fs_pc f) Hi Hca) as Hge.
  assert (Forall (λ e, fst e < 2 ^ 64) t0) as Hbound0 by (destruct i; simplify_eq; try done; by apply Forall_cons in Hbound as [_ ?]).
  assert (advance (code_align f) i (fs_pc f) < 2 ^ 64) as Hadv by (rewrite Et0 in Hbound0; by apply Forall_cons in Hbound0 as [? _]).
  rewrite (cfa_step_insn i p c f s), bind_Ok; [|done|by apply Forall_cons in Hs as [? _]|done|done|lia|done|done].
  assert (sized s) as Hs' by (by eapply effect_sized). set (f1 := after i s f).
  assert (static f f1) as Hst by (by repeat split).
  destruct (decide (fs_pc f1 < target)) as [Hlt|Hge'].
  - destruct (IH (p + Z.of_nat (length (encode i))) fuel f1 t0) as (f' & Hr & Hregs & Hst'); [done|lia|by destruct s|by destruct s|done|simpl in *; lia|done|].
    rewrite Nat2Z.inj_add, Z.add_assoc, Hr. exists f'. split_and!; [done| |unfold static in *; naive_solver congruence].
    rewrite Hregs, Et0. change (fs_pc f1) with (advance (code_align f) i (fs_pc f)) in *.
    rewrite (row_below_start _ _ _ _ _ (regs f) Hlt), <- Et0.
    destruct i; simplify_eq; try done. unfold row_below. simpl. by rewrite (proj2 (Z.ltb_lt (fs_pc f) target)) by lia.
  - destruct i as [w d| | | | | | | | | | | | | | | | | |]; try (exfalso; simpl in Hge'; lia). cbn [effect] in He. simplify_eq.
    exists f1. split_and!; [| |done].
    + assert (fs_pc f1 <? target = false) as Hf by (apply Z.ltb_ge; lia). destruct fuel; cbn [cfa_loop]; fold target; by rewrite Hf, andb_false_r.
    + pose proof (table_ge _ _ _ _ _ _ Hl Hca E) as Hall. rewrite (row_below_cons _ _ _ _ _ (eq_refl (regs f))). symmetry. apply row_below_above.
      eapply Forall_impl; [exact Hall|]. intros e Hle. simpl in Hle, Hge'. lia.
Qed.
End decoding.

(** ** The claims *)

(** The readers of LEB128 numbers return the numbers whose shortest encodings stand in
    memory, with the address of the byte behind: unsigned numbers of 64 bits and signed
    numbers of 64 bits. *)
Theorem leb128_roundtrip mem p :
  (∀ x, fits 64 x → bytes_at mem p (uleb x) → read_uleb128 mem p = Ok (x, p + Z.of_nat (length (uleb x)))) ∧
  (∀ x, - 2 ^ 63 ≤ x < 2 ^ 63 → bytes_at mem p (sleb x) → read_sleb128 mem p = Ok (x, p + Z.of_nat (length (sleb x)))).
Proof. split; intros x Hx Hb; [by apply read_uleb|by apply read_sleb]. Qed.

Lemma bytes_at_image l a : bytes_at (image_mem l a) a l.
Proof.
  intros i b Hi. unfold image_mem. rewrite (proj2 (Z.ltb_ge _ _)) by lia. replace (Z.to_nat (a + Z.of_nat i - a)) with i by lia. by rewrite Hi.
Qed.

Lemma leb128_roundtrip_witness :
  read_uleb128 (image_mem (uleb (2 ^ 64 - 1)) 16) 16 = Ok (2 ^ 64 - 1, 26) ∧ read_sleb128 (image_mem (sleb (-624485)) 16) 16 = Ok (-624485, 19).
Proof.
  split.
  - apply (proj1 (leb128_roundtrip (image_mem (uleb (2 ^ 64 - 1)) 16) 16) (2 ^ 64 - 1)); [unfold fits; lia|apply bytes_at_image].
  - apply (proj2 (leb128_roundtrip (image_mem (sleb (-624485)) 16) 16) (-624485)); [lia|apply bytes_at_image].
Defined.


(** The prologue of a function that pushes rbp and uses it as frame pointer, and its end:
    the frame's address is rsp + 8, then rsp + 16, then rbp + 16, then rsp + 8 again. *)
Definition example_program : list insn :=
  [IDefCfa 7 8; IOffset 16 1; IAdvance W0 1; IDefCfaOffset 16; IOffset 6 2; IAdvance W0 3; IDefCfaRegister 6; IRemember;
   IAdvance W1 100; IDefCfa 7 8; IRestore 6; IAdvance W0 1; IRestoreState].

Definition example_fs : FrameState := MkFs zero_info [] 0x4000 0 (-8) 1 16 0x1b 0xff true false 0.
Definition example_context (pc : Z) : Unwind_Context := MkContext (replicate 18 Nowhere) 0 pc 0 (MkBases 0 0 0) false 0.

