(* ===== verification/Frame.v ===== *)
(** * The caller's registers

    What a row of a call frame table means for the registers of the caller, and that
    [uw_update_context] computes exactly that: the context it leaves describes the
    caller of the frame, its stack pointer and its return address. *)

From S2P Require Import Prelude Define Abi FdeSort Fde Cfa.
Local Open Scope Z_scope.

(** ** Meaning of a context *)

#[export] Instance rule_eq_dec : EqDecision rule.
Proof. solve_decision. Defined.
#[export] Instance location_eq_dec : EqDecision location.
Proof. solve_decision. Defined.

Section values.
Context (mem : Z → Z) (ef : nat).

Definition location_value (a i : Z) (l : location) : option Z :=
  match l with
  | Nowhere => if i =? dwarf_sp_column then Some a else None
  | InMemory p => Some (ldn mem 8 p)
  | ByValue v | Temporary v => Some v
  | Dangling => None
  end.

(** The value of a register in the frame of a context; the stack pointer of a frame is the
    frame's address unless it was saved. *)
Definition value (c : Unwind_Context) (i : Z) : option Z := l ← reg c !! Z.to_nat i; location_value (cfa c) i l.

(** No value lies in a local variable of a function that has returned. *)
Definition plain (l : location) : Prop := match l with Temporary _ | Dangling => False | _ => True end.

(** The value of a register in the caller whose frame address is [a]. *)
Definition caller_value (orig c : Unwind_Context) (a : Z) (i : Z) (r : rule) : option Z :=
  match r with
  | REG_UNSAVED | REG_UNDEFINED => if i =? dwarf_sp_column then Some a else value c i
  | REG_SAVED_OFFSET o => Some (ldn mem 8 (u64 (a + o)))
  | REG_SAVED_REG r => value c r
  | REG_SAVED_EXP e => match eval_exp mem ef e orig a with Ok p => Some (ldn mem 8 p) | Err _ => None end
  | REG_SAVED_VAL_OFFSET o => Some (u64 (a + o))
  | REG_SAVED_VAL_EXP e => match eval_exp mem ef e orig a with Ok v => Some v | Err _ => None end
  end.

(** Rules that can be applied.  The stack pointer's own value must not be taken over by a
    register rule unless it was saved: it lies in a local variable then.  Registers are
    not saved at address zero. *)
Definition rule_ok (orig c : Unwind_Context) (a : Z) (r : rule) : Prop :=
  match r with
  | REG_SAVED_REG r => 0 ≤ r < 18 ∧ is_Some (value c r) ∧ (r = dwarf_sp_column → reg c !! 7%nat ≠ Some Nowhere)
  | REG_SAVED_OFFSET o => u64 (a + o) ≠ 0
  | REG_SAVED_EXP e => ∃ p, eval_exp mem ef e orig a = Ok p ∧ p ≠ 0
  | REG_SAVED_VAL_EXP e => is_Ok (eval_exp mem ef e orig a)
  | _ => True
  end.

(** The frame's address by its rule. *)
Definition address_rule (orig c : Unwind_Context) (row : reg_info) (a : Z) : Prop :=
  match cfa_how row with
  | CFA_UNSET => False
  | CFA_REG_OFFSET => 0 ≤ cfa_reg row < 18 ∧ ∃ v, value c (cfa_reg row) = Some v ∧ a = u64 (v + cfa_offset row)
  | CFA_EXP => eval_exp mem ef (cfa_exp row) orig 0 = Ok a
  end.

Record applies (orig c : Unwind_Context) (f : FrameState) (a : Z) : Prop := {
  ap_orig : orig_context c = Ok orig;
  ap_regs : length (reg c) = 18%nat;
  ap_plain : Forall plain (reg c);
  ap_rules : length (rules (regs f)) = 18%nat;
  ap_rule : Forall (rule_ok orig c a) (rules (regs f));
  ap_cfa : address_rule orig c (regs f) a;
  ap_ra : 0 ≤ retaddr_column f < 18 ∧ retaddr_column f ≠ dwarf_sp_column ∧
    ∀ r, rules (regs f) !! Z.to_nat (retaddr_column f) = Some r → r = REG_UNDEFINED ∨ is_Some (caller_value orig c a (retaddr_column f) r) }.

Lemma get_gr_value c i v : length (reg c) = 18%nat → 0 ≤ i < 18 → i ≠ dwarf_sp_column → value c i = Some v → Unwind_GetGR mem c i = Ok v.
Proof.
  unfold value. intros Hl Hi Hne Hv. unfold Unwind_GetGR. rewrite (swrap_small 32) by lia.
  destruct (reg c !! Z.to_nat i) as [l|] eqn:E; [|done]. rewrite (rd_Ok _ _ l), bind_Ok by (done || lia). simpl in Hv.
  destruct l; simpl in *; simplify_eq; try done. by rewrite (proj2 (Z.eqb_neq _ _) Hne) in Hv.
Qed.

(** The copy of the context with the stack pointer filled in. *)
Lemma orig_context_spec c orig : length (reg c) = 18%nat → orig_context c = Ok orig →
  length (reg orig) = 18%nat ∧ cfa orig = cfa c ∧
  ∀ i l, reg c !! i = Some l → reg orig !! i = Some (if decide (i = 7%nat ∧ l = Nowhere) then Temporary (cfa c) else l).
Proof.
  intros Hl Ho. unfold orig_context in Ho. destruct (rd_total (reg c) dwarf_sp_column) as (l7 & Hr & Hl7); [unfold dwarf_sp_column; lia|].
  change (Z.to_nat dwarf_sp_column) with 7%nat in Hl7. rewrite Hr, bind_Ok in Ho.
  assert (l7 ≠ Nowhere → orig = c → length (reg orig) = 18%nat ∧ cfa orig = cfa c ∧ ∀ i l, reg c !! i = Some l →
    reg orig !! i = Some (if decide (i = 7%nat ∧ l = Nowhere) then Temporary (cfa c) else l)) as Hsame.
  { intros Hne ->. split_and!; [done..|]. intros i l Hi. case_decide as Hd; [|done]. destruct Hd as [-> ->]. congruence. }
  destruct l7; try (simplify_eq; by apply Hsame).
  unfold set_gr in Ho. rewrite wr_total, bind_Ok in Ho by (unfold dwarf_sp_column; lia). simplify_eq. simpl. rewrite length_insert.
  split_and!; [done..|]. change (Z.to_nat dwarf_sp_column) with 7%nat. intros i l Hi. case_decide as Hd.
  - destruct Hd as [-> ->]. by rewrite list_lookup_insert_eq by lia.
  - destruct (decide (i = 7%nat)) as [->|]; [|by rewrite list_lookup_insert_ne by done]. exfalso. apply Hd. split; [done|congruence].
Qed.

Lemma get_gr_orig c orig i v : length (reg c) = 18%nat → Forall plain (reg c) → orig_context c = Ok orig → 0 ≤ i < 18 →
  value c i = Some v → Unwind_GetGR mem orig i = Ok v.
Proof.
  intros Hl Hp Ho Hi Hv. destruct (orig_context_spec c orig Hl Ho) as (Hlo & _ & Hreg). unfold value in Hv.
  destruct (reg c !! Z.to_nat i) as [l|] eqn:E; [|done]. simpl in Hv. specialize (Hreg _ _ E).
  unfold Unwind_GetGR. rewrite (swrap_small 32) by lia. rewrite (rd_Ok _ i _ ltac:(lia) Hreg), bind_Ok. case_decide as Hd.
  - destruct Hd as [Hi7 ->]. simpl in Hv. unfold dwarf_sp_column in Hv. rewrite (proj2 (Z.eqb_eq i 7)) in Hv by lia. by simplify_eq.
  - pose proof (Forall_lookup_1 _ _ _ _ Hp E) as Hpl. destruct l; simpl in *; simplify_eq; try done.
    unfold dwarf_sp_column in Hv. destruct (Z.eqb_spec i 7) as [->|]; [|done]. exfalso. by apply Hd.
Qed.

Lemma frame_cfa_spec c orig f a : applies orig c f a → frame_cfa mem ef orig f = Ok a.
Proof.
  intros [Ho Hl Hp _ _ Hcfa _]. unfold frame_cfa, address_rule in *. destruct (cfa_how (regs f)); [done| |done].
  destruct Hcfa as (Hr & v & Hv & ->). by rewrite (get_gr_orig c orig _ v), bind_Ok.
Qed.

(** One rule. *)
Lemma apply_rule_spec c orig f a i r c1 : applies orig c f a → rules (regs f) !! Z.to_nat i = Some r → 0 ≤ i < 18 → length (reg c1) = 18%nat →
  reg c1 !! Z.to_nat i = <[7%nat := Nowhere]> (reg c) !! Z.to_nat i →
  ∃ l, apply_rule mem ef orig a r i c1 = Ok (with_reg (<[Z.to_nat i := l]> (reg c1)) c1) ∧ plain l ∧ location_value a i l = caller_value orig c a i r.
Proof.
  intros [Ho Hl Hp _ Hru _ _] Hr Hi Hl1 Hc1. pose proof (Forall_lookup_1 _ _ _ _ Hru Hr) as Hok. clear Hru Hr.
  assert (∀ l, set_gr i l c1 = Ok (with_reg (<[Z.to_nat i := l]> (reg c1)) c1)) as Hset.
  { intros l. unfold set_gr. by rewrite wr_total by lia. }
  destruct (lookup_lt_is_Some_2 (reg c) (Z.to_nat i)) as [l0 Hl0]; [lia|]. pose proof (Forall_lookup_1 _ _ _ _ Hp Hl0) as Hpl0.
  destruct r as [|o|r|e|o|e|]; cbn [apply_rule caller_value rule_ok] in *.
  1, 7: exists (if decide (Z.to_nat i = 7%nat) then Nowhere else l0); split_and!;
    [rewrite list_insert_id; [by destruct c1|]; rewrite Hc1; case_decide as Hd; [rewrite Hd, list_lookup_insert_eq by lia
      |rewrite list_lookup_insert_ne by done]; done
    |by case_decide
    |unfold dwarf_sp_column; case_decide as Hd;
      [rewrite (proj2 (Z.eqb_eq i 7)) by lia; simpl; unfold dwarf_sp_column; by rewrite (proj2 (Z.eqb_eq i 7)) by lia
      |rewrite (proj2 (Z.eqb_neq i 7)) by lia; unfold value; rewrite Hl0; simpl;
       destruct l0; try done; simpl; unfold dwarf_sp_column; by rewrite (proj2 (Z.eqb_neq i 7)) by lia]].
  - exists (InMemory (u64 (a + o))). unfold at_address. by rewrite (proj2 (Z.eqb_neq _ _) Hok), Hset.
  - destruct Hok as (Hr & [v Hv] & H7). destruct (orig_context_spec c orig Hl Ho) as (Hlo & _ & Hreg). rewrite (swrap_small 32) by lia.
    destruct (lookup_lt_is_Some_2 (reg c) (Z.to_nat r)) as [l Hlr]; [lia|]. specialize (Hreg _ _ Hlr).
    pose proof (Forall_lookup_1 _ _ _ _ Hp Hlr) as Hpl. rewrite (rd_Ok _ r _ ltac:(lia) Hreg), bind_Ok, Hset.
    rewrite decide_False.
    + exists l. unfold value in *. rewrite Hlr in *. simpl in *. destruct l; simpl in *; try done.
      exfalso. unfold dwarf_sp_column in *. destruct (Z.eqb_spec r 7) as [->|]; [|done]. by apply H7.
    + intros [E ->]. apply H7; [unfold dwarf_sp_column; lia|]. by rewrite <- E.
  - destruct Hok as (v & Hv & Hne). unfold at_address. rewrite Hv, bind_Ok, (proj2 (Z.eqb_neq _ _) Hne), Hset. by exists (InMemory v).
  - rewrite Hset. by exists (ByValue (u64 (a + o))).
  - destruct Hok as [v Hv]. rewrite Hv, bind_Ok, Hset. by exists (ByValue v).
Qed.

(** All rules. *)
Lemma update_context_1_spec c orig f a : applies orig c f a →
  ∃ regs', uw_update_context_1 mem ef c f = Ok (with_signal (signal_frame f) (with_reg regs' (with_cfa a c))) ∧
    length regs' = 18%nat ∧ Forall plain regs' ∧
    ∀ i l r, regs' !! Z.to_nat i = Some l → 0 ≤ i → rules (regs f) !! Z.to_nat i = Some r → location_value a i l = caller_value orig c a i r.
Proof.
  intros Hap. pose proof Hap as [Ho Hl Hp Hlr Hru _ _]. unfold uw_update_context_1. rewrite Ho, bind_Ok. unfold set_gr at 1.
  rewrite wr_total, !bind_Ok by (unfold dwarf_sp_column; lia). rewrite (frame_cfa_spec c orig f a Hap), bind_Ok.
  change (Z.to_nat dwarf_sp_column) with 7%nat. set (start := <[7%nat := Nowhere]> (reg c)).
  destruct (for_range_total (λ j c1, length (reg c1) = 18%nat ∧ Forall plain (reg c1) ∧ c1 = with_reg (reg c1) (with_cfa a c) ∧
      (∀ i l r, reg c1 !! Z.to_nat i = Some l → 0 ≤ i < j → rules (regs f) !! Z.to_nat i = Some r → location_value a i l = caller_value orig c a i r) ∧
      ∀ i, j ≤ i → reg c1 !! Z.to_nat i = start !! Z.to_nat i)
    0 (DWARF_FRAME_REGISTERS + 1) (λ i c1, r ← rd (rules (regs f)) i; apply_rule mem ef orig a r i c1) (with_cfa a (with_reg start c)))
    as (c1 & Hr & Hl1 & Hp1 & Hc1 & Hval & _).
  - unfold DWARF_FRAME_REGISTERS. lia.
  - split_and!; [unfold start; simpl; by rewrite length_insert|by apply Forall_insert|done|intros; lia|done].
  - intros j c1 Hj (Hl1 & Hp1 & Hc1 & Hval & Hrest). unfold DWARF_FRAME_REGISTERS in Hj.
    destruct (rd_total (rules (regs f)) j) as (r & Hr & Hrj); [lia|]. rewrite Hr, bind_Ok.
    destruct (apply_rule_spec c orig f a j r c1 Hap Hrj) as (l & Hap' & Hpl & Hv); [lia|done|apply Hrest; lia|].
    rewrite Hap'. eexists. split; [done|]. simpl. rewrite length_insert. split_and!; [done|by apply Forall_insert|by rewrite Hc1| |].
    + intros i l' r' Hi Hij Hr'. destruct (decide (i = j)) as [->|Hne].
      * rewrite list_lookup_insert_eq in Hi by lia. congruence.
      * rewrite list_lookup_insert_ne in Hi by lia. apply (Hval i l' r'); [done|lia|done].
    + intros i Hi. rewrite list_lookup_insert_ne by lia. apply Hrest. lia.
  - rewrite Hr, bind_Ok. exists (reg c1). split_and!; [by rewrite <- Hc1|done..|].
    intros i l r Hi H0 Hri. apply (Hval i l r); [done| |done]. pose proof (lookup_lt_Some _ _ _ Hi). unfold DWARF_FRAME_REGISTERS. lia.
Qed.
End values.

(** The return address of a frame: zero behind the outermost one. *)
Definition return_address (mem : Z → Z) (ef : nat) (orig c : Unwind_Context) (f : FrameState) (a : Z) : option Z :=
  r ← rules (regs f) !! Z.to_nat (retaddr_column f);
  match r with REG_UNDEFINED => Some 0 | r => caller_value mem ef orig c a (retaddr_column f) r end.

(** C11. One step up the stack.  For a row whose rules can be applied, the context becomes that
    of the caller: its frame address is the one that the row's rule gives, every register
    has the value that its rule says (saved in memory, computed from the frame address,
    taken from another register, computed by an expression, or not changed), the stack
    pointer is the frame address unless it has a rule, and the return address is read from
    its column, or zero when that column is undefined. *)
Theorem caller_context mem ef orig c f a :
  applies mem ef orig c f a →
  ∃ c', uw_update_context mem ef c f = Ok c' ∧ cfa c' = a ∧ return_address mem ef orig c f a = Some (ra c') ∧
    (∀ i r, 0 ≤ i → rules (regs f) !! Z.to_nat i = Some r → value mem c' i = caller_value mem ef orig c a i r) ∧
    Forall plain (reg c') ∧ length (reg c') = 18%nat ∧ signal_frame_bit c' = signal_frame f ∧ bases c' = bases c ∧ lsda c' = lsda c.
Proof.
  intros Hap. destruct (update_context_1_spec mem ef c orig f a Hap) as (regs' & Hu & Hl & Hp & Hval).
  set (c1 := with_signal (signal_frame f) (with_reg regs' (with_cfa a c))) in *.
  assert (∀ i r, 0 ≤ i → rules (regs f) !! Z.to_nat i = Some r → value mem c1 i = caller_value mem ef orig c a i r) as Hv.
  { intros i r Hi Hr. unfold value. change (reg c1) with regs'. change (cfa c1) with a.
    destruct (lookup_lt_is_Some_2 regs' (Z.to_nat i)) as [l El].
    { rewrite Hl, <- (ap_rules _ _ _ _ _ _ Hap). by eapply lookup_lt_Some. }
    rewrite El. by apply (Hval i l r). }
  destruct (ap_ra _ _ _ _ _ _ Hap) as (Hc & Hne & Hra).
  destruct (lookup_lt_is_Some_2 (rules (regs f)) (Z.to_nat (retaddr_column f))) as [r Hr]; [rewrite (ap_rules _ _ _ _ _ _ Hap); lia|].
  unfold uw_update_context, return_address. rewrite Hu, bind_Ok, (rd_Ok _ _ r), bind_Ok, Hr by (done || lia). simpl.
  destruct (decide (r = REG_UNDEFINED)) as [->|Hu'].
  { exists (with_ra 0 c1). split_and!; done. }
  destruct (Hra r Hr) as [?|[v Hrv]]; [done|].
  exists (with_ra v c1). split_and!; try done.
  - rewrite (get_gr_value mem c1 _ v), bind_Ok; [by destruct r|done|done|done|]. rewrite (Hv _ r); [done|lia|done].
  - by destruct r.
Qed.

(** A stack with the frames of two functions that keep rbp: the inner one has its frame
    address at 0x7020, with the return address and the outer rbp below it. *)
Definition example_stack : list Z := le_bytes 8 0x7100 ++ le_bytes 8 0x4242.
Definition example_inner : Unwind_Context :=
  MkContext (<[6%nat := InMemory 0x6ff0]> (replicate 18 Nowhere)) 0x7000 0x4010 0 (MkBases 0 0 0) false 0.
Definition example_memory (a : Z) : Z := if a <? 0x7000 then image_mem (le_bytes 8 0x7010) 0x6ff0 a else image_mem example_stack 0x7010 a.
Definition example_row : FrameState :=
  MkFs (MkInfo (<[6%nat := REG_SAVED_OFFSET (-16)]> (<[16%nat := REG_SAVED_OFFSET (-8)]> (replicate 18 REG_UNSAVED))) 16 6 0 CFA_REG_OFFSET)
    [] 0x4000 0 (-8) 1 16 0x1b 0xff true false 0.

Lemma caller_context_witness :
  ∃ c', uw_update_context example_memory 0 example_inner example_row = Ok c' ∧ cfa c' = 0x7020 ∧ ra c' = 0x4242 ∧
    value example_memory c' 6 = Some 0x7100 ∧ value example_memory c' 7 = Some 0x7020.
Proof.
  destruct (caller_context example_memory 0 (with_reg (<[7%nat := Temporary 0x7000]> (reg example_inner)) example_inner)
    example_inner example_row 0x7020) as (c' & Hr & Hc & Hra & Hv & _).
  - split; [reflexivity..| |reflexivity| | |].
    + repeat constructor.
    + repeat constructor; discriminate.
    + split; [vm_compute; split; congruence|]. exists 0x7010. split; vm_compute; reflexivity.
    + split; [vm_compute; split; congruence|]. split; [discriminate|]. intros r Hr. vm_compute in Hr. injection Hr as <-. right. by eexists.
  - exists c'. split_and!; [exact Hr|exact Hc| | |].
    + assert (Some (ra c') = Some 0x4242) as [=] by (rewrite <- Hra; vm_compute; reflexivity). done.
    + rewrite (Hv 6 (REG_SAVED_OFFSET (-16))); [vm_compute; reflexivity|lia|reflexivity].
    + rewrite (Hv 7 REG_UNSAVED); [vm_compute; reflexivity|lia|reflexivity].
Defined.
