(* ===== verification/Raise.v ===== *)
(** * Raising exceptions

    The two phases of kernel/unwind-dw2.c: [_Unwind_RaiseException] walks up the stack
    and asks the personality routine of every frame for a handler, then walks again and
    installs the first frame that wants to run code, a cleanup or the handler; an
    exception that reaches the frame of a system call goes on in user space.  The
    routine of C++ frames is [gxx_personality_v0] of Abi.v, working on the context. *)

From S2P Require Import Prelude Define Abi FdeSort Fde Cfa CfaTable Frame.
Local Open Scope Z_scope.

(** ** Writing registers *)

(** Eight bytes of memory. *)
Definition store8 (mem : Z → Z) (a v : Z) : Z → Z := λ b,
  if (a <=? b) && (b <? a + 8) then (v / 256 ^ (b - a)) mod 256 else mem b.

(** [_Unwind_SetGR]; the index is an [int]. *)
Definition Unwind_SetGR (mem : Z → Z) (c : Unwind_Context) (index v : Z) : result ((Z → Z) * Unwind_Context) :=
  l ← rd (reg c) (s32 index);
  match l with
  | Nowhere => Err NullDeref
  | InMemory a => Ok (store8 mem a v, c)
  | ByValue _ => c ← set_gr (s32 index) (ByValue v) c; Ok (mem, c)
  | Temporary _ => c ← set_gr (s32 index) (Temporary v) c; Ok (mem, c)
  | Dangling => Err Uninitialised
  end.

(** ** Installing a context *)

(** The pointer of a register of the current context, NULL when it was not saved.  A
    value that is held in place of a pointer is taken for one, since the assertion
    against that is empty. *)
Definition slot (l : location) : result Z :=
  match l with
  | Nowhere => Ok 0
  | InMemory a => Ok a
  | ByValue v => Ok v
  | Temporary _ | Dangling => Err Uninitialised
  end.

(** One register of the loop. *)
Definition install_register (lc lt : location) (mem : Z → Z) : result (Z → Z) :=
  c ← slot lc;
  match lt with
  | Nowhere => Ok mem
  | ByValue v | Temporary v => Ok (if c =? 0 then mem else store8 mem c v)
  | InMemory t => Ok (if (t =? 0) || (c =? 0) || (t =? c) then mem else store8 mem c (ldn mem 8 t))
  | Dangling => Err Uninitialised
  end.

(** [uw_install_context_1]: memory with the registers of the target in the places from
    where the current function restores its own, and the adjustment of the stack
    pointer. *)
Definition uw_install_context_1 (mem : Z → Z) (current target : Unwind_Context) : result ((Z → Z) * Z) :=
  target ← orig_context target;
  mem ← for_range 0 DWARF_FRAME_REGISTERS (λ i mem, lc ← rd (reg current) i; lt ← rd (reg target) i; install_register lc lt mem) mem;
  l ← rd (reg current) dwarf_sp_column;
  match l with
  | Nowhere => sp ← Unwind_GetGR mem target dwarf_sp_column; Ok (mem, s64 (sp - cfa current + args_size target))
  | _ => Ok (mem, 0)
  end.

(** ** Exceptions *)

(** [struct _Unwind_Exception]. *)
Record Unwind_Exception := MkUExn { exception_class : Z; exception_cleanup : Z; private_1 : Z; private_2 : Z }.

Definition with_private p1 p2 (e : Unwind_Exception) := MkUExn (exception_class e) (exception_cleanup e) p1 p2.

(** How a call ends: it returns a code, or the stack pointer is adjusted and the program
    goes on at the handler, or in user space. *)
Inductive outcome := Returned (r : reason) | Installed (offset handler : Z) | ToUser.

Section raise.
(** As in [uw_frame_state_for]; [routine] calls a personality routine. *)
Context (sf wf : nat) (terminator irq0 irq255 syscall_rip : Z) (ef : nat).
Context (routine : Z → (Z → Z) → phases → Z → Unwind_Context → result (reason * (Z → Z) * Unwind_Context)).

Abbreviation state_for := (λ mem, uw_frame_state_for mem sf wf terminator irq0 irq255 syscall_rip).

(** The first phase of [_Unwind_RaiseException]: a code to return, or the context where a
    handler was found or user space was reached.  The number of frames bounds the loop. *)
Fixpoint search_phase (fuel : nat) (exn : Z) (mem : Z → Z) (c : Unwind_Context) (st : unwinder)
    : result ((reason + Unwind_Context) * (Z → Z) * unwinder) :=
  match fuel with
  | O => Err Hang
  | S fuel' =>
      '(code, c, f, st) ← state_for mem c st;
      if ra c =? syscall_rip then Ok (inr c, mem, st) else
      match code with
      | _URC_END_OF_STACK => Ok (inl _URC_END_OF_STACK, mem, st)
      | _URC_NO_REASON =>
          if personality f =? 0 then
            c ← uw_update_context mem ef c f; search_phase fuel' exn mem c st
          else
            '(code, mem, c) ← routine (personality f) mem (MkPhases true false) exn c;
            match code with
            | _URC_HANDLER_FOUND => Ok (inr c, mem, st)
            | _URC_CONTINUE_UNWIND => c ← uw_update_context mem ef c f; search_phase fuel' exn mem c st
            | _ => Ok (inl _URC_FATAL_PHASE1_ERROR, mem, st)
            end
      | _ => Ok (inl _URC_FATAL_PHASE1_ERROR, mem, st)
      end
  end.

(** [_Unwind_RaiseException_Phase2]; [None] when it continued in user space.  What it
    returns when the personality routine does not want to continue is an error, unless
    the context is to be installed. *)
Fixpoint Unwind_RaiseException_Phase2 (fuel : nat) (exn : Z) (mem : Z → Z) (c : Unwind_Context) (st : unwinder)
    : result (option reason * Unwind_Context * (Z → Z) * unwinder) :=
  match fuel with
  | O => Err Hang
  | S fuel' =>
      '(code, c, f, st) ← state_for mem c st;
      if ra c =? syscall_rip then Ok (None, c, mem, st) else
      match code with
      | _URC_NO_REASON =>
          if personality f =? 0 then
            c ← uw_update_context mem ef c f; Unwind_RaiseException_Phase2 fuel' exn mem c st
          else
            '(code, mem, c) ← routine (personality f) mem (MkPhases false true) exn c;
            match code with
            | _URC_INSTALL_CONTEXT => Ok (Some _URC_INSTALL_CONTEXT, c, mem, st)
            | _URC_CONTINUE_UNWIND => c ← uw_update_context mem ef c f; Unwind_RaiseException_Phase2 fuel' exn mem c st
            | _ => Ok (Some _URC_FATAL_PHASE2_ERROR, c, mem, st)
            end
      | _ => Ok (Some _URC_FATAL_PHASE2_ERROR, c, mem, st)
      end
  end.

(** [uw_install_context]. *)
Definition uw_install_context (mem : Z → Z) (current target : Unwind_Context) : result (outcome * (Z → Z)) :=
  '(mem, offset) ← uw_install_context_1 mem current target; Ok (Installed offset (ra target), mem).

(** [_Unwind_RaiseException], from the context of its caller. *)
Definition Unwind_RaiseException (fuel : nat) (exn : Z) (this : Unwind_Context) (mem : Z → Z) (e : Unwind_Exception) (st : unwinder)
    : result (outcome * (Z → Z) * Unwind_Exception * unwinder) :=
  '(r, mem, st) ← search_phase fuel exn mem this st;
  match r with
  | inl code => Ok (Returned code, mem, e, st)
  | inr found =>
      let e := with_private 0 (uw_identify_context found) e in
      '(code, c, mem, st) ← Unwind_RaiseException_Phase2 fuel exn mem this st;
      match code with
      | None => Ok (ToUser, mem, e, st)
      | Some _URC_INSTALL_CONTEXT => '(o, mem) ← uw_install_context mem this c; Ok (o, mem, e, st)
      | Some code => Ok (Returned code, mem, e, st)
      end
  end.

(** ** Forced unwinding *)

(** The function that decides about every frame; its argument is [private_2]. *)
Context (stop : Z → bool → Z → (Z → Z) → Unwind_Context → Z → result (reason * (Z → Z) * Unwind_Context)).

(** [_Unwind_ForcedUnwind_Phase2]. *)
Fixpoint Unwind_ForcedUnwind_Phase2 (fuel : nat) (exn : Z) (e : Unwind_Exception) (mem : Z → Z) (c : Unwind_Context) (st : unwinder)
    : result (reason * Unwind_Context * (Z → Z) * unwinder) :=
  match fuel with
  | O => Err Hang
  | S fuel' =>
      '(code, c, f, st) ← state_for mem c st;
      let at_end := bool_decide (code = _URC_END_OF_STACK) in
      if negb (bool_decide (code = _URC_NO_REASON)) && negb at_end then Ok (_URC_FATAL_PHASE2_ERROR, c, mem, st) else
      '(stop_code, mem, c) ← stop (private_1 e) at_end exn mem c (private_2 e);
      if negb (bool_decide (stop_code = _URC_NO_REASON)) then Ok (_URC_FATAL_PHASE2_ERROR, c, mem, st) else
      if at_end then Ok (_URC_END_OF_STACK, c, mem, st)
      else if personality f =? 0 then
        c ← uw_update_context mem ef c f; Unwind_ForcedUnwind_Phase2 fuel' exn e mem c st
      else
        '(code, mem, c) ← routine (personality f) mem (MkPhases false true) exn c;
        match code with
        | _URC_INSTALL_CONTEXT => Ok (_URC_INSTALL_CONTEXT, c, mem, st)
        | _URC_CONTINUE_UNWIND => c ← uw_update_context mem ef c f; Unwind_ForcedUnwind_Phase2 fuel' exn e mem c st
        | _ => Ok (_URC_FATAL_PHASE2_ERROR, c, mem, st)
        end
  end.

Definition Unwind_ForcedUnwind (fuel : nat) (exn : Z) (stop_fn stop_argument : Z) (this : Unwind_Context) (mem : Z → Z)
    (e : Unwind_Exception) (st : unwinder) : result (outcome * (Z → Z) * Unwind_Exception * unwinder) :=
  let e := with_private stop_fn stop_argument e in
  '(code, c, mem, st) ← Unwind_ForcedUnwind_Phase2 fuel exn e mem this st;
  match code with
  | _URC_INSTALL_CONTEXT => '(o, mem) ← uw_install_context mem this c; Ok (o, mem, e, st)
  | _ => Ok (Returned code, mem, e, st)
  end.

(** [_Unwind_Resume]: the assertion that there is a context to install is empty. *)
Definition Unwind_Resume (fuel : nat) (exn : Z) (this : Unwind_Context) (mem : Z → Z) (e : Unwind_Exception) (st : unwinder)
    : result (outcome * (Z → Z) * unwinder) :=
  '(code, c, mem, st) ←
    (if private_1 e =? 0 then Unwind_RaiseException_Phase2 fuel exn mem this st
     else '(code, c, mem, st) ← Unwind_ForcedUnwind_Phase2 fuel exn e mem this st; Ok (Some code, c, mem, st));
  match code with
  | None => Ok (ToUser, mem, st)
  | Some _ => '(o, mem) ← uw_install_context mem this c; Ok (o, mem, st)
  end.

Definition Unwind_Resume_or_Rethrow (fuel : nat) (exn : Z) (this : Unwind_Context) (mem : Z → Z) (e : Unwind_Exception) (st : unwinder)
    : result (outcome * (Z → Z) * Unwind_Exception * unwinder) :=
  if private_1 e =? 0 then Unwind_RaiseException fuel exn this mem e st else
  '(_, c, mem, st) ← Unwind_ForcedUnwind_Phase2 fuel exn e mem this st;
  '(o, mem) ← uw_install_context mem this c; Ok (o, mem, e, st).

(** [_Unwind_DeleteException]: the call it makes, if any. *)
Definition Unwind_DeleteException (exn : Z) (e : Unwind_Exception) : option (Z * reason * Z) :=
  if exception_cleanup e =? 0 then None else Some (exception_cleanup e, _URC_FOREIGN_EXCEPTION_CAUGHT, exn).

(** [_Unwind_Backtrace]: [trace] works on a state of its own. *)
Fixpoint backtrace {T} (trace : Unwind_Context → T → result (reason * Unwind_Context * T)) (fuel : nat) (mem : Z → Z) (c : Unwind_Context) (t : T) (st : unwinder)
    : result (reason * T * unwinder) :=
  match fuel with
  | O => Err Hang
  | S fuel' =>
      '(code, c, f, st) ← state_for mem c st;
      let at_end := bool_decide (code = _URC_END_OF_STACK) in
      if negb (bool_decide (code = _URC_NO_REASON)) && negb at_end then Ok (_URC_FATAL_PHASE1_ERROR, t, st) else
      '(r, c, t) ← trace c t;
      if negb (bool_decide (r = _URC_NO_REASON)) then Ok (_URC_FATAL_PHASE1_ERROR, t, st) else
      if at_end then Ok (_URC_END_OF_STACK, t, st) else
      c ← uw_update_context mem ef c f; backtrace trace fuel' mem c t st
  end.
End raise.

(** ** Memory *)

Lemma ldn_ext mem mem' n a : (∀ b, a ≤ b < a + Z.of_nat n → mem b = mem' b) → ldn mem n a = ldn mem' n a.
Proof.
  revert a. induction n as [|n IH]; intros a Hb; [done|]. cbn [ldn]. rewrite Hb by lia. f_equal. f_equal. apply IH. intros b Hr. apply Hb. lia.
Qed.

(** Eight bytes at [a] and at [b] do not overlap. *)
Definition apart (a b : Z) : Prop := a + 8 ≤ b ∨ b + 8 ≤ a.

Lemma store8_other mem a v b : ¬ (a ≤ b < a + 8) → store8 mem a v b = mem b.
Proof. intros Hb. unfold store8. destruct (Z.leb_spec a b), (Z.ltb_spec b (a + 8)); [lia|done..]. Qed.

Lemma ldn_store8_apart mem a v b : apart a b → ldn (store8 mem a v) 8 b = ldn mem 8 b.
Proof. intros Ha. apply ldn_ext. intros x Hx. apply store8_other. unfold apart in Ha. lia. Qed.

Lemma ldn_store8 mem a v : fits 64 v → ldn (store8 mem a v) 8 a = v.
Proof.
  intros Hv. apply ldn_le_bytes; [exact Hv|]. intros i b Hi. unfold le_bytes in Hi. apply list_lookup_fmap_Some in Hi as (k & -> & Hk).
  apply lookup_seq in Hk as [-> Hk]. unfold store8. rewrite (proj2 (Z.leb_le _ _)), (proj2 (Z.ltb_lt _ _)) by lia. cbn [andb].
  do 2 f_equal. f_equal. lia.
Qed.

(** ** What is restored *)

(** The current function keeps registers in distinct places; a register of the target is
    kept in none of them but its own. *)
Record installable (current target : Unwind_Context) : Prop := {
  in_current : length (reg current) = 18%nat;
  in_target : length (reg target) = 18%nat;
  in_plain : Forall plain (reg target);
  in_slots : ∀ i l, reg current !! i = Some l → l = Nowhere ∨ ∃ a, l = InMemory a ∧ a ≠ 0;
  in_values : ∀ i l, reg target !! i = Some l → match l with InMemory t => t ≠ 0 | ByValue v => fits 64 v | _ => True end;
  in_apart : ∀ i j a b, (i < 17)%nat → (j < 17)%nat → i ≠ j → reg current !! i = Some (InMemory a) →
    reg current !! j = Some (InMemory b) ∨ reg target !! j = Some (InMemory b) → apart a b;
  in_own : ∀ i a t, reg current !! i = Some (InMemory a) → reg target !! i = Some (InMemory t) → t = a ∨ apart a t;
  in_cfa : fits 64 (cfa target) }.

(** The place of register [i] after the registers below [n] were copied. *)
Definition restored (mem mem' : Z → Z) (target : Unwind_Context) (n i : nat) (a : Z) : Prop :=
  ldn mem' 8 a = if decide (i < n)%nat then default (ldn mem 8 a) (value mem target (Z.of_nat i)) else ldn mem 8 a.

Section install.
Context (mem : Z → Z) (Hmem : ∀ a, 0 ≤ mem a < 256) (current target : Unwind_Context) (Hin : installable current target).

Lemma word_fits a : fits 64 (ldn mem 8 a).
Proof using Hmem. exact (ldn_range mem Hmem 8 a). Qed.

(** Nothing but the places of the current function is written. *)
Definition untouched (mem' : Z → Z) : Prop :=
  ∀ b, (∀ i a, (i < 17)%nat → reg current !! i = Some (InMemory a) → ¬ (a ≤ b < a + 8)) → mem' b = mem b.

Lemma install_register_step n lc lt mem1 target1 :
  (n < 17)%nat → orig_context target = Ok target1 → reg current !! n = Some lc → reg target1 !! n = Some lt → untouched mem1 →
  (∀ i a, (i < 17)%nat → reg current !! i = Some (InMemory a) → restored mem mem1 target n i a) →
  ∃ mem2, install_register lc lt mem1 = Ok mem2 ∧ untouched mem2 ∧
    ∀ i a, (i < 17)%nat → reg current !! i = Some (InMemory a) → restored mem mem2 target (S n) i a.
Proof using Hin Hmem.
  destruct Hin as [Hlc Hlt Hp Hs Hv Hap Hown Hcfa]. intros Hn Ho Hc Ht Hun Hres.
  destruct (orig_context_spec target target1 Hlt Ho) as (_ & _ & Ht1).
  destruct (lookup_lt_is_Some_2 (reg target) n) as [l0 Hl0]; [lia|]. pose proof (Ht1 n l0 Hl0) as Hl1. rewrite Ht in Hl1. injection Hl1 as ->.
  pose proof (Forall_lookup_1 _ _ _ _ Hp Hl0) as Hpl. specialize (Hv n l0 Hl0).
  assert (∀ v, value mem target (Z.of_nat n) = v → ∀ i a, (i < 17)%nat → reg current !! i = Some (InMemory a) →
    ∀ mem2, (ldn mem2 8 a = if decide (i = n) then default (ldn mem 8 a) v else ldn mem1 8 a) → restored mem mem2 target (S n) i a) as Hfin.
  { intros v <- i a Hi Hia mem2 E. unfold restored. rewrite E. destruct (decide (i = n)) as [Hd|Hd]; [subst i; by rewrite decide_True by lia|].
    rewrite (Hres i a Hi Hia). destruct (decide (i < n)%nat); [by rewrite decide_True by lia|by rewrite decide_False by lia]. }
  assert (∀ v a, value mem target (Z.of_nat n) = Some v → fits 64 v → reg current !! n = Some (InMemory a) →
    untouched (store8 mem1 a v) ∧ ∀ i b, (i < 17)%nat → reg current !! i = Some (InMemory b) → restored mem (store8 mem1 a v) target (S n) i b) as Hstore.
  { intros v a Hval Hfit Hna. split.
    - intros b Hb. rewrite store8_other by (by apply (Hb n a)). by apply Hun.
    - intros i b Hi Hib. apply (Hfin (Some v) Hval i b Hi Hib). destruct (decide (i = n)) as [Hd|Hd].
      + subst i. assert (b = a) as -> by congruence. by apply ldn_store8.
      + apply ldn_store8_apart. apply (Hap n i a b Hn Hi); [done..|by left]. }
  assert (value mem target (Z.of_nat n) = location_value mem (cfa target) (Z.of_nat n) l0) as Eval by (unfold value; by rewrite Nat2Z.id, Hl0).
  unfold install_register. destruct (Hs n lc Hc) as [->|(a & -> & Ha)]; cbn [slot]; rewrite bind_Ok.
  { exists mem1. split_and!; [|done|].
    - case_decide; [done|]. destruct l0; try done. rewrite orb_true_r. done.
    - intros i a Hi Hia. apply (Hfin _ eq_refl i a Hi Hia). destruct (decide (i = n)); [|done]. subst i. congruence. }
  rewrite (proj2 (Z.eqb_neq a 0) Ha). case_decide as Hd.
  - destruct Hd as [-> ->]. eexists. split; [done|]. by apply Hstore.
  - destruct l0 as [|t|v| |]; try done; cbv iota.
    + exists mem1. split_and!; [done..|]. intros i b Hi Hib. apply (Hfin _ eq_refl i b Hi Hib). destruct (decide (i = n)) as [Hin'|]; [|done]. subst i.
      rewrite Eval. simpl. unfold dwarf_sp_column. rewrite (proj2 (Z.eqb_neq _ _)) by (intros E; apply Hd; split; [lia|done]). simpl.
      rewrite (Hres n b Hn Hib). by rewrite decide_False by lia.
    + rewrite (proj2 (Z.eqb_neq t 0) Hv). cbn [orb].
      assert (ldn mem1 8 t = ldn mem 8 t ∨ t = a) as Hload.
      { destruct (Hown n a t Hc Hl0) as [->|Hat]; [by right|left]. apply ldn_ext. intros b Hb. apply Hun. intros i x Hi Hix Hbx.
        destruct (decide (i = n)) as [->|Hne]; [|destruct (Hap i n x t Hi Hn Hne Hix); [by right|lia|lia]].
        assert (x = a) as -> by congruence. unfold apart in Hat. lia. }
      destruct (Z.eqb_spec t a) as [->|Hta].
      * exists mem1. split_and!; [done..|]. intros i b Hi Hib. apply (Hfin _ eq_refl i b Hi Hib). destruct (decide (i = n)) as [Hin'|]; [|done]. subst i.
        assert (b = a) as -> by congruence. rewrite Eval. simpl. rewrite (Hres n a Hn Hib). by rewrite decide_False by lia.
      * eexists. split; [done|]. destruct Hload as [->|?]; [|done]. by apply Hstore; [|apply word_fits|].
    + eexists. split; [done|]. by apply Hstore.
Qed.

Lemma orig_context_total c : length (reg c) = 18%nat → ∃ c1, orig_context c = Ok c1 ∧ args_size c1 = args_size c.
Proof using.
  intros Hl. unfold orig_context. destruct (rd_total (reg c) dwarf_sp_column) as (l & -> & _); [unfold dwarf_sp_column; lia|]. rewrite bind_Ok.
  destruct l; try by eexists. unfold set_gr. rewrite wr_total by (unfold dwarf_sp_column; lia). by eexists.
Qed.

(** The stack pointer of the target after the copies. *)
Lemma target_sp target1 mem' : orig_context target = Ok target1 → reg current !! 7%nat = Some Nowhere → untouched mem' →
  ∃ sp, Unwind_GetGR mem' target1 dwarf_sp_column = Ok sp ∧ value mem target dwarf_sp_column = Some sp.
Proof using Hin.
  destruct Hin as [Hlc Hlt Hp Hs Hv Hap Hown Hcfa]. intros Ho H7 Hun.
  destruct (orig_context_spec target target1 Hlt Ho) as (Hl1 & _ & Ht1).
  destruct (lookup_lt_is_Some_2 (reg target) 7) as [l Hl]; [lia|]. specialize (Ht1 7%nat l Hl).
  unfold Unwind_GetGR, value. change (Z.to_nat dwarf_sp_column) with 7%nat. change (s32 dwarf_sp_column) with 7.
  rewrite (rd_Ok _ 7 _ ltac:(lia) Ht1), bind_Ok, Hl. cbn [mbind option_bind].
  pose proof (Forall_lookup_1 _ _ _ _ Hp Hl) as Hpl. destruct l as [|t|v| |]; try done.
  - rewrite decide_True by done. by eexists.
  - rewrite decide_False by (by intros [_ ?]). eexists. split; [done|]. cbn [location_value]. f_equal. symmetry. apply ldn_ext. intros b Hb. apply Hun.
    intros i a Hi Hia Hab. destruct (decide (i = 7%nat)) as [->|Hne]; [congruence|].
    destruct (Hap i 7%nat a t Hi); [lia|done|done|by right|lia|lia].
  - rewrite decide_False by (by intros [_ ?]). by eexists.
Qed.

Lemma install_spec : reg current !! 7%nat = Some Nowhere →
  ∃ mem' offset sp, uw_install_context_1 mem current target = Ok (mem', offset) ∧ value mem target dwarf_sp_column = Some sp ∧
    u64 (cfa current + offset) = u64 (sp + args_size target) ∧ untouched mem' ∧
    ∀ i a, (i < 17)%nat → reg current !! i = Some (InMemory a) → ldn mem' 8 a = default (ldn mem 8 a) (value mem target (Z.of_nat i)).
Proof using Hin Hmem.
  intros H7. pose proof (in_current _ _ Hin) as Hlc. pose proof (in_target _ _ Hin) as Hlt.
  destruct (orig_context_total target Hlt) as (target1 & Ho & Hargs). unfold uw_install_context_1. rewrite Ho, bind_Ok.
  destruct (orig_context_spec target target1 Hlt Ho) as (Hl1 & _ & _).
  destruct (for_range_total (λ n mem1, untouched mem1 ∧
      ∀ i a, (i < 17)%nat → reg current !! i = Some (InMemory a) → restored mem mem1 target (Z.to_nat n) i a)
    0 DWARF_FRAME_REGISTERS (λ i mem, lc ← rd (reg current) i; lt ← rd (reg target1) i; install_register lc lt mem) mem)
    as (mem' & -> & Hun & Hres).
  - done.
  - split; [by intros b|]. intros i a Hi Hia. unfold restored. by rewrite decide_False by lia.
  - intros n mem1 Hn [Hun Hres]. unfold DWARF_FRAME_REGISTERS in Hn.
    destruct (rd_total (reg current) n) as (lc & -> & Hc); [lia|]. destruct (rd_total (reg target1) n) as (lt & -> & Ht); [lia|]. rewrite !bind_Ok.
    replace (Z.to_nat (n + 1)) with (S (Z.to_nat n)) by lia. by eapply install_register_step; [lia|..].
  - rewrite bind_Ok, (rd_Ok _ _ Nowhere), bind_Ok by done. destruct (target_sp target1 mem' Ho H7 Hun) as (sp & -> & Hv). rewrite bind_Ok.
    eexists mem', _, sp. split_and!; [done|done| |done|].
    + rewrite Hargs. unfold wrap, swrap. destruct (_ <? _).
      * rewrite Zplus_mod_idemp_r. f_equal. lia.
      * replace (cfa current + ((sp - cfa current + args_size target) mod 2 ^ 64 - 2 ^ 64)) with
          (cfa current + (sp - cfa current + args_size target) mod 2 ^ 64 + (-1) * 2 ^ 64) by lia.
        rewrite Z_mod_plus_full, Zplus_mod_idemp_r. f_equal. lia.
    + intros i a Hi Hia. specialize (Hres i a Hi Hia). unfold restored in Hres. by rewrite decide_True in Hres by (unfold DWARF_FRAME_REGISTERS; lia).
Qed.
End install.
