(* ===== verification/Handler.v ===== *)
(** * Where an exception goes

    The walk up the stack as a list of frames, and what [_Unwind_RaiseException] does
    with it: the exception ends at the innermost frame whose personality routine knows a
    handler, at the frame of the system call, or at the end of the stack.  For C++
    frames the routine is [__gxx_personality_v0]; its handler starts with the exception
    and the index of its type in the two data registers and with the registers of its
    own frame. *)

From S2P Require Import Prelude Define Abi FdeSort Fde Cfa CfaTable Frame Raise.
Local Open Scope Z_scope.

(** ** Calls of the personality routine *)

(** What [__gxx_personality_v0] sees of a context. *)
Definition view (c : Unwind_Context) : context := MkCtx (func (bases c)) (ra c) 0 0.

(** The name of the thrown type in the header in front of [unwindHeader]. *)
Definition type_name_of (mem : Z → Z) (exn : Z) : Z := ldn mem 8 (exn - 32).

(** [set_landing_pad] on a context; the data registers are rax and rdx.  It is called
    only when the routine returns [_URC_INSTALL_CONTEXT], and a later call overwrites
    what an earlier one wrote. *)
Definition install_pad (mem : Z → Z) (c : Unwind_Context) (x : context) : result ((Z → Z) * Unwind_Context) :=
  '(mem, c) ← Unwind_SetGR mem c 0 (gr0 x);
  '(mem, c) ← Unwind_SetGR mem c 1 (gr1 x);
  Ok (mem, with_ra (ip x) c).

(** The only personality routine of the kernel. *)
Definition gxx_routine (sf fuel : nat) (address : Z) (mem : Z → Z) (ph : phases) (exn : Z) (c : Unwind_Context)
    : result (reason * (Z → Z) * Unwind_Context) :=
  '(code, x) ← gxx_personality_v0 mem sf ph exn (type_name_of mem exn) fuel (lsda c) (view c);
  match code with
  | URC_HANDLER_FOUND => Ok (_URC_HANDLER_FOUND, mem, c)
  | URC_CONTINUE_UNWIND => Ok (_URC_CONTINUE_UNWIND, mem, c)
  | URC_INSTALL_CONTEXT => '(mem, c) ← install_pad mem c x; Ok (_URC_INSTALL_CONTEXT, mem, c)
  end.

(** ** The table of functions *)

(** What the walks use of the search for descriptors: the answer for an address does not
    depend on the searches before. *)
Class FrameTable (mem : Z → Z) (sf wf : nat) (term : Z) (I : unwinder → Prop) (find : Z → option (Z * dwarf_eh_bases)) : Prop :=
  find_fde : ∀ pc st, I st → ∃ st', Unwind_Find_FDE mem sf wf term pc st = Ok (find pc, st') ∧ I st'.

#[export] Instance covers_dec mem sf f pc : Decision (Fde.covers mem sf 0 0 f pc).
Proof. unfold Fde.covers. apply _. Defined.

(** The function of a section that contains an address. *)
Definition find_in (mem : Z → Z) (sf : nat) (fs : list Z) (pc : Z) : option (Z * dwarf_eh_bases) :=
  f ← head (filter (λ f, live mem sf 0 0 f ∧ Fde.covers mem sf 0 0 f pc) fs); Some (f, MkBases 0 0 (fr_begin (the_frame mem sf 0 0 f))).

Lemma found_unique mem sf pc_end start fs pc a : well_formed mem sf 0 0 pc_end start fs → found mem sf 0 0 fs pc a → a = find_in mem sf fs pc.
Proof.
  intros Hwf Ha. unfold find_in. destruct (filter _ fs) as [|g l] eqn:E; cbn [head mbind option_bind].
  - destruct a as [[f b]|]; [|done]. destruct Ha as (Hf & Hl & Hc & _).
    assert (f ∈ filter (λ f, live mem sf 0 0 f ∧ Fde.covers mem sf 0 0 f pc) fs) as Hin by (by apply list_elem_of_filter).
    rewrite E in Hin. by apply elem_of_nil in Hin.
  - assert (g ∈ filter (λ f, live mem sf 0 0 f ∧ Fde.covers mem sf 0 0 f pc) fs) as [[Hlg Hcg] Hg]%list_elem_of_filter by (rewrite E; left).
    destruct a as [[f b]|]; [|by destruct (Ha g Hg Hlg)]. destruct Ha as (Hf & Hl & Hc & ->). destruct (decide (f = g)) as [->|Hne]; [done|].
    exfalso. unfold Fde.covers in *. destruct (wf_disjoint _ _ _ _ _ _ _ Hwf f g); [by apply list_elem_of_filter..|done|lia|lia].
Qed.

(** A well-formed section is such a table, before and after the first search sorts it. *)
Lemma section_table mem sf wf term start pc_end fs :
  (∀ a, 0 ≤ mem a < 256) → well_formed mem sf 0 0 pc_end start fs → pc_end - start < Z.of_nat wf → filter (live mem sf 0 0) fs ≠ [] →
  FrameTable mem sf wf term (ready mem sf 0 0 pc_end start fs) (find_in mem sf fs).
Proof.
  intros Hmem Hwf Hfuel Hne pc st Hst. destruct (find_spec mem sf 0 0 pc_end Hmem wf term start fs pc st Hwf Hfuel Hne Hst) as (a & st' & Hr & Hst' & Ha).
  exists st'. split; [|done]. by rewrite <- (found_unique _ _ _ _ _ _ _ Hwf Ha).
Qed.

Section walks.
Context (sf wf : nat) (terminator irq0 irq255 syscall_rip : Z) (ef : nat).
Context (routine : Z → (Z → Z) → phases → Z → Unwind_Context → result (reason * (Z → Z) * Unwind_Context)).
Context (mem : Z → Z) (exn : Z) (I : unwinder → Prop).

Abbreviation state_for := (uw_frame_state_for mem sf wf terminator irq0 irq255 syscall_rip).
Abbreviation SEARCH := (MkPhases true false).
Abbreviation CLEANUP := (MkPhases false true).

(** The description of a frame, whatever was searched before. *)
Definition looks (c : Unwind_Context) (code : reason) (c1 : Unwind_Context) (f : FrameState) : Prop :=
  ∀ st, I st → ∃ st', state_for c st = Ok (code, c1, f, st') ∧ I st'.

Lemma looks_intro find c code c1 f st st' : FrameTable mem sf wf terminator I find → I st → state_for c st = Ok (code, c1, f, st') → looks c code c1 f.
Proof.
  intros Htab Hst Hrun st2 Hst2. unfold uw_frame_state_for in *. destruct (ra (with_lsda 0 (with_args_size 0 c)) =? 0); [simplify_eq; by eexists|].
  cbv zeta in *. match type of Hrun with context [Unwind_Find_FDE _ _ _ _ ?p st] => set (pc := p) in * end.
  destruct (Htab pc st Hst) as (s1 & E1 & _), (Htab pc st2 Hst2) as (s2 & E2 & Hs2). rewrite E1 in Hrun. rewrite E2. rewrite bind_Ok in Hrun |- *.
  exists s2. split; [|done]. destruct (find pc) as [[fde b]|]; [|by simplify_eq].
  apply bind_Ok_inv in Hrun as ([insn f0] & -> & Hrun). rewrite bind_Ok. destruct insn as [insn|]; [|by simplify_eq].
  apply bind_Ok_inv in Hrun as ([c2 f2] & -> & Hrun). rewrite bind_Ok. apply bind_Ok_inv in Hrun as (size & -> & Hrun). rewrite bind_Ok.
  apply bind_Ok_inv in Hrun as ([insn2 aug] & -> & Hrun). rewrite bind_Ok. apply bind_Ok_inv in Hrun as ([c3 aug3] & -> & Hrun). rewrite bind_Ok.
  apply bind_Ok_inv in Hrun as ([c4 f4] & -> & Hrun). rewrite bind_Ok. by simplify_eq.
Qed.

(** Frames from the inside out, each with its context and its frame state; none of them
    is the frame of a system call. *)
Inductive walk : Unwind_Context → list (Unwind_Context * FrameState) → Unwind_Context → Prop :=
| walk_nil c : walk c [] c
| walk_cons c c1 f c2 l c' : looks c _URC_NO_REASON c1 f → ra c1 ≠ syscall_rip → uw_update_context mem ef c1 f = Ok c2 → walk c2 l c' →
    walk c ((c1, f) :: l) c'.

(** The routine of a frame lets the exception pass. *)
Definition passes (ph : phases) (fr : Unwind_Context * FrameState) : Prop :=
  personality (snd fr) = 0 ∨ personality (snd fr) ≠ 0 ∧ routine (personality (snd fr)) mem ph exn (fst fr) = Ok (_URC_CONTINUE_UNWIND, mem, fst fr).

Lemma search_walk c l c' : walk c l c' → Forall (passes SEARCH) l → ∀ fuel st, I st → ∃ st',
  search_phase sf wf terminator irq0 irq255 syscall_rip ef routine (length l + fuel) exn mem c st =
    search_phase sf wf terminator irq0 irq255 syscall_rip ef routine fuel exn mem c' st' ∧ I st'.
Proof.
  induction 1 as [c|c c1 f c2 l c' Hl Hra Hu Hw IH]; intros Hp fuel st Hst; [by exists st|]. apply Forall_cons in Hp as [Hp Hps].
  destruct (Hl st Hst) as (st1 & E & Hst1). cbn [length Nat.add search_phase]. rewrite E, bind_Ok, (proj2 (Z.eqb_neq _ _) Hra).
  destruct (IH Hps fuel st1 Hst1) as (st2 & E2 & Hst2). exists st2. split; [|done]. rewrite <- E2.
  destruct Hp as [Hp|[Hp Hr]]; simpl in Hp.
  - by rewrite (proj2 (Z.eqb_eq _ _) Hp), Hu, bind_Ok.
  - rewrite (proj2 (Z.eqb_neq _ _) Hp). simpl in Hr. by rewrite Hr, bind_Ok, Hu, bind_Ok.
Qed.

Lemma cleanup_walk c l c' : walk c l c' → Forall (passes CLEANUP) l → ∀ fuel st, I st → ∃ st',
  Unwind_RaiseException_Phase2 sf wf terminator irq0 irq255 syscall_rip ef routine (length l + fuel) exn mem c st =
    Unwind_RaiseException_Phase2 sf wf terminator irq0 irq255 syscall_rip ef routine fuel exn mem c' st' ∧ I st'.
Proof.
  induction 1 as [c|c c1 f c2 l c' Hl Hra Hu Hw IH]; intros Hp fuel st Hst; [by exists st|]. apply Forall_cons in Hp as [Hp Hps].
  destruct (Hl st Hst) as (st1 & E & Hst1). cbn [length Nat.add Unwind_RaiseException_Phase2]. rewrite E, bind_Ok, (proj2 (Z.eqb_neq _ _) Hra).
  destruct (IH Hps fuel st1 Hst1) as (st2 & E2 & Hst2). exists st2. split; [|done]. rewrite <- E2.
  destruct Hp as [Hp|[Hp Hr]]; simpl in Hp.
  - by rewrite (proj2 (Z.eqb_eq _ _) Hp), Hu, bind_Ok.
  - rewrite (proj2 (Z.eqb_neq _ _) Hp). simpl in Hr. by rewrite Hr, bind_Ok, Hu, bind_Ok.
Qed.

(** Where a walk ends. *)
Inductive ends (c : Unwind_Context) : Unwind_Context → Prop :=
| ends_user code c1 f : looks c code c1 f → ra c1 = syscall_rip → ends c c1
| ends_handler c1 f : looks c _URC_NO_REASON c1 f → ra c1 ≠ syscall_rip → personality f ≠ 0 →
    routine (personality f) mem SEARCH exn c1 = Ok (_URC_HANDLER_FOUND, mem, c1) → ends c c1.

Lemma search_ends c c1 fuel st : ends c c1 → I st → ∃ st',
  search_phase sf wf terminator irq0 irq255 syscall_rip ef routine (S fuel) exn mem c st = Ok (inr c1, mem, st') ∧ I st'.
Proof.
  intros He Hst. destruct He as [code c1 f Hl Hra|c1 f Hl Hra Hp Hr]; destruct (Hl st Hst) as (st' & E & Hst');
    exists st'; (split; [|done]); cbn [search_phase]; rewrite E, bind_Ok.
  - by rewrite (proj2 (Z.eqb_eq _ _) Hra).
  - by rewrite (proj2 (Z.eqb_neq _ _) Hra), (proj2 (Z.eqb_neq _ _) Hp), Hr, bind_Ok.
Qed.

(** The first frame that wants to run code. *)
Inductive lands (c : Unwind_Context) (mem2 : Z → Z) (c2 : Unwind_Context) : Prop :=
| lands_intro c1 f : looks c _URC_NO_REASON c1 f → ra c1 ≠ syscall_rip → personality f ≠ 0 →
    routine (personality f) mem CLEANUP exn c1 = Ok (_URC_INSTALL_CONTEXT, mem2, c2) → lands c mem2 c2.

Lemma cleanup_lands c mem2 c2 fuel st : lands c mem2 c2 → I st → ∃ st',
  Unwind_RaiseException_Phase2 sf wf terminator irq0 irq255 syscall_rip ef routine (S fuel) exn mem c st =
    Ok (Some _URC_INSTALL_CONTEXT, c2, mem2, st') ∧ I st'.
Proof.
  intros [c1 f Hl Hra Hp Hr] Hst. destruct (Hl st Hst) as (st' & E & Hst'). exists st'. split; [|done]. cbn [Unwind_RaiseException_Phase2].
  by rewrite E, bind_Ok, (proj2 (Z.eqb_neq _ _) Hra), (proj2 (Z.eqb_neq _ _) Hp), Hr, bind_Ok.
Qed.

(** The whole call, from its first phase on. *)
Abbreviation raise := (Unwind_RaiseException sf wf terminator irq0 irq255 syscall_rip ef routine).

Lemma raise_search this l c' e st fuel : I st → walk this l c' → Forall (passes SEARCH) l → (length l < fuel)%nat → ∃ n st1, I st1 ∧
  raise fuel exn this mem e st = ('(r, mem, st) ← search_phase sf wf terminator irq0 irq255 syscall_rip ef routine (S n) exn mem c' st1;
    match r with
    | inl code => Ok (Returned code, mem, e, st)
    | inr found =>
        let e := with_private 0 (uw_identify_context found) e in
        '(code, c, mem, st) ← Unwind_RaiseException_Phase2 sf wf terminator irq0 irq255 syscall_rip ef routine fuel exn mem this st;
        match code with
        | None => Ok (ToUser, mem, e, st)
        | Some _URC_INSTALL_CONTEXT => '(o, mem) ← uw_install_context mem this c; Ok (o, mem, e, st)
        | Some code => Ok (Returned code, mem, e, st)
        end
    end).
Proof.
  intros Hst Hw Hp Hf. destruct (search_walk _ _ _ Hw Hp (fuel - length l) st Hst) as (st1 & E1 & Hst1).
  replace (length l + (fuel - length l))%nat with fuel in E1 by lia. exists (fuel - length l - 1)%nat, st1. split; [done|].
  unfold Unwind_RaiseException. rewrite E1. by replace (S (fuel - length l - 1)) with (fuel - length l)%nat by lia.
Qed.

Lemma raise_end this l c' e st fuel c1 f : I st → walk this l c' → Forall (passes SEARCH) l → (length l < fuel)%nat →
  looks c' _URC_END_OF_STACK c1 f → ra c1 ≠ syscall_rip →
  ∃ st', raise fuel exn this mem e st = Ok (Returned _URC_END_OF_STACK, mem, e, st').
Proof.
  intros Hst Hw Hp Hf Hl Hra. destruct (raise_search this l c' e st fuel Hst Hw Hp Hf) as (n & st1 & Hst1 & ->).
  destruct (Hl st1 Hst1) as (st2 & E & _). cbn [search_phase]. rewrite E, bind_Ok, (proj2 (Z.eqb_neq _ _) Hra), bind_Ok. by exists st2.
Qed.

Lemma raise_lands this l c' e st fuel c1 pre c2 mem2 c3 : I st → walk this l c' → Forall (passes SEARCH) l → (length l < fuel)%nat →
  ends c' c1 → (length pre ≤ length l)%nat → walk this pre c2 → Forall (passes CLEANUP) pre → lands c2 mem2 c3 →
  ∃ st', I st' ∧ raise fuel exn this mem e st =
    ('(o, mem') ← uw_install_context mem2 this c3; Ok (o, mem', with_private 0 (uw_identify_context c1) e, st')).
Proof.
  intros Hst Hw Hp Hf He Hlen Hw2 Hp2 Hland. destruct (raise_search this l c' e st fuel Hst Hw Hp Hf) as (n & st1 & Hst1 & ->).
  destruct (search_ends _ _ n st1 He Hst1) as (st2 & -> & Hst2). rewrite bind_Ok.
  destruct (cleanup_walk _ _ _ Hw2 Hp2 (fuel - length pre) st2 Hst2) as (st3 & E3 & Hst3).
  replace (length pre + (fuel - length pre))%nat with fuel in E3 by lia. rewrite E3. destruct (fuel - length pre)%nat as [|n'] eqn:En'; [lia|].
  destruct (cleanup_lands _ _ _ n' st3 Hland Hst3) as (st4 & -> & Hst4). rewrite bind_Ok. by exists st4.
Qed.

Lemma raise_user this l c' e st fuel c1 : I st → walk this l c' → Forall (passes SEARCH) l → (length l < fuel)%nat →
  ends c' c1 → ra c1 = syscall_rip → Forall (passes CLEANUP) l →
  ∃ st', raise fuel exn this mem e st = Ok (ToUser, mem, with_private 0 (uw_identify_context c1) e, st').
Proof.
  intros Hst Hw Hp Hf He Hra Hp2. destruct (raise_search this l c' e st fuel Hst Hw Hp Hf) as (n & st1 & Hst1 & ->).
  destruct (search_ends _ _ n st1 He Hst1) as (st2 & -> & Hst2). rewrite bind_Ok.
  destruct (cleanup_walk _ _ _ Hw Hp2 (fuel - length l) st2 Hst2) as (st3 & E3 & Hst3).
  replace (length l + (fuel - length l))%nat with fuel in E3 by lia. rewrite E3. destruct (fuel - length l)%nat as [|n'] eqn:En'; [lia|].
  destruct He as [code c1 f Hl _|c1 f Hl Hne _ _]; [|done]. destruct (Hl st3 Hst3) as (st4 & E & _).
  cbn [Unwind_RaiseException_Phase2]. rewrite E, bind_Ok, (proj2 (Z.eqb_eq _ _) Hra), bind_Ok. by exists st4.
Qed.
End walks.


(** ** C++ frames *)

Section gxx.
Context (mem : Z → Z) (Hmem : ∀ a, 0 ≤ mem a < 256) (sf pf : nat) (exn : Z).

(** The language-specific tables of a frame can be read. *)
Definition tables (c : Unwind_Context) (ds : list decoded) : Prop :=
  ∃ l, new_LSDA mem (lsda c) = Ok l ∧ Abi.decode mem sf (type_name_of mem exn) pf l = Ok ds.

(** A frame without a handler for the exception and without a cleanup at its call. *)
Definition unconcerned (fr : Unwind_Context * FrameState) : Prop :=
  personality (snd fr) = 0 ∨ personality (snd fr) ≠ 0 ∧ ∃ ds, tables (fst fr) ds ∧
    first_handler (view (fst fr)) ds = None ∧ Forall (no_cleanup (view (fst fr))) ds.

Lemma gxx_search p c ds : tables c ds → gxx_routine sf pf p mem (MkPhases true false) exn c =
  Ok (match first_handler (view c) ds with Some _ => _URC_HANDLER_FOUND | None => _URC_CONTINUE_UNWIND end, mem, c).
Proof using.
  intros (l & Hl & Hd). unfold gxx_routine, gxx_personality_v0. rewrite Hl, !bind_Ok, (search_sites _ _ _ _ _ _ _ _ _ Hd), bind_Ok.
  by destruct (first_handler _ _).
Qed.

Lemma gxx_cleanup p c ds : tables c ds → Forall (no_cleanup (view c)) ds → gxx_routine sf pf p mem (MkPhases false true) exn c =
  match first_handler (view c) ds with
  | Some (pad, idx) => '(mem, c) ← install_pad mem c (MkCtx (func (bases c)) pad exn idx); Ok (_URC_INSTALL_CONTEXT, mem, c)
  | None => Ok (_URC_CONTINUE_UNWIND, mem, c)
  end.
Proof using.
  intros (l & Hl & Hd) Hn. unfold gxx_routine, gxx_personality_v0. rewrite Hl, !bind_Ok.
  destruct (cleanup_sites mem sf exn _ pf l ds (view c) false Hd) as (code & c' & -> & _ & Hs). rewrite bind_Ok.
  specialize (Hs eq_refl Hn). destruct (first_handler (view c) ds) as [[pad idx]|]; by simplify_eq.
Qed.

Lemma unconcerned_passes fr : unconcerned fr →
  passes (gxx_routine sf pf) mem exn (MkPhases true false) fr ∧ passes (gxx_routine sf pf) mem exn (MkPhases false true) fr.
Proof using.
  intros [H0|(H0 & ds & Ht & Hf & Hn)]; [by split; left|]. split; right; (split; [done|]).
  - by rewrite (gxx_search _ _ _ Ht), Hf.
  - by rewrite (gxx_cleanup _ _ _ Ht Hn), Hf.
Qed.

(** The landing pad when the data registers are where the current function restores them. *)
Lemma install_pad_spec c a0 a1 x : length (reg c) = 18%nat → reg c !! 0%nat = Some (InMemory a0) → reg c !! 1%nat = Some (InMemory a1) →
  install_pad mem c x = Ok (store8 (store8 mem a0 (gr0 x)) a1 (gr1 x), with_ra (ip x) c).
Proof using.
  intros Hl H0 H1. unfold install_pad, Unwind_SetGR. change (s32 0) with 0. change (s32 1) with 1.
  by rewrite (rd_Ok (reg c) 0 _ ltac:(lia) H0), !bind_Ok, (rd_Ok (reg c) 1 _ ltac:(lia) H1), !bind_Ok.
Qed.

Lemma store8_byte a v : ∀ b, 0 ≤ store8 mem a v b < 256.
Proof using Hmem. intros b. unfold store8. destruct (_ && _); [apply Z.mod_pos_bound; lia|apply Hmem]. Qed.
End gxx.

(** Values of registers that are kept elsewhere. *)
Lemma value_store8 mem c a v i : (∀ t, reg c !! Z.to_nat i = Some (InMemory t) → apart a t) → value (store8 mem a v) c i = value mem c i.
Proof.
  intros Ha. unfold value. destruct (reg c !! Z.to_nat i) as [l|] eqn:E; [|done]. cbn [mbind option_bind]. destruct l as [|t|w|w|]; try done.
  cbn [location_value]. f_equal. apply ldn_store8_apart. by apply Ha.
Qed.

(** C5. A caught exception.  The frames from the throw outwards know no handler and no
    cleanup, the next one has a handler for the thrown type.  Then the program goes on at
    the landing pad of the first such handler: rax and rdx hold the exception and the
    index of its type, all other registers hold the values they have in the frame of the
    handler, and so does the stack pointer.  (The registers are those that the unwinder
    restores from its own frame, which saves them all.) *)
Theorem exception_caught sf wf terminator irq0 irq255 syscall_rip ef pf mem exn I this l c' c1 f ds pad idx a0 a1 e st fuel :
  (∀ a, 0 ≤ mem a < 256) → I st → (length l < fuel)%nat →
  walk sf wf terminator irq0 irq255 syscall_rip ef mem I this l c' → Forall (unconcerned mem sf pf exn) l →
  looks sf wf terminator irq0 irq255 syscall_rip mem I c' _URC_NO_REASON c1 f → ra c1 ≠ syscall_rip → personality f ≠ 0 →
  tables mem sf pf exn c1 ds → Forall (no_cleanup (view c1)) ds → first_handler (view c1) ds = Some (pad, idx) →
  installable this c1 → reg this !! 7%nat = Some Nowhere →
  reg this !! 0%nat = Some (InMemory a0) → reg c1 !! 0%nat = Some (InMemory a0) →
  reg this !! 1%nat = Some (InMemory a1) → reg c1 !! 1%nat = Some (InMemory a1) → fits 64 exn → fits 64 idx →
  ∃ offset mem' sp st', Unwind_RaiseException sf wf terminator irq0 irq255 syscall_rip ef (gxx_routine sf pf) fuel exn this mem e st =
      Ok (Installed offset pad, mem', with_private 0 (uw_identify_context c1) e, st') ∧
    ldn mem' 8 a0 = exn ∧ ldn mem' 8 a1 = idx ∧
    (∀ i a, (2 ≤ i < 17)%nat → reg this !! i = Some (InMemory a) → ldn mem' 8 a = default (ldn mem 8 a) (value mem c1 (Z.of_nat i))) ∧
    value mem c1 dwarf_sp_column = Some sp ∧ u64 (cfa this + offset) = u64 (sp + args_size c1).
Proof.
  intros Hmem Hst Hf Hw Hu Hl Hra Hp Ht Hn Hh Hin H7 H0 H0' H1 H1' Hexn Hidx.
  assert (apart a0 a1) as Hap by (apply (in_apart _ _ Hin 0%nat 1%nat); [lia|lia|done|done|by left]).
  set (mem2 := store8 (store8 mem a0 exn) a1 idx). set (c3 := with_ra pad c1).
  assert (∀ a, 0 ≤ mem2 a < 256) as Hmem2 by (apply store8_byte, store8_byte, Hmem).
  destruct (raise_lands sf wf terminator irq0 irq255 syscall_rip ef (gxx_routine sf pf) mem exn I this l c' e st fuel c1 l c' mem2 c3)
    as (st' & Hst' & ->); try done.
  - eapply Forall_impl; [exact Hu|]. intros fr Hfr. by apply unconcerned_passes.
  - apply ends_handler with f; [done..|]. by rewrite (gxx_search _ _ _ _ _ _ _ Ht), Hh.
  - eapply Forall_impl; [exact Hu|]. intros fr Hfr. by apply unconcerned_passes.
  - apply lands_intro with c1 f; [done..|]. rewrite (gxx_cleanup _ _ _ _ _ _ _ Ht Hn), Hh.
    by rewrite (install_pad_spec _ _ a0 a1) by (done || apply Hin).
  - assert (installable this c3) as Hin3 by (by destruct Hin; split).
    destruct (install_spec mem2 Hmem2 this c3 Hin3 H7) as (mem' & offset & sp & E & Hsp & Hadj & _ & Hregs).
    unfold uw_install_context. rewrite E, !bind_Ok. exists offset, mem', sp, st'.
    assert (∀ i a, (2 ≤ i < 17)%nat → reg this !! i = Some (InMemory a) ∨ reg c1 !! i = Some (InMemory a) → apart a0 a ∧ apart a1 a) as Hsep.
    { intros i a Hi Ha. split; [apply (in_apart _ _ Hin 0%nat i)|apply (in_apart _ _ Hin 1%nat i)]; (lia || done). }
    assert (∀ i, (2 ≤ i < 17)%nat → value mem2 c3 (Z.of_nat i) = value mem c1 (Z.of_nat i)) as Hval.
    { intros i Hi. unfold mem2. rewrite !value_store8; [done|..]; intros t Hti; change (reg c3) with (reg c1) in Hti; rewrite Nat2Z.id in Hti;
        by destruct (Hsep i t Hi (or_intror Hti)). }
    split_and!; [done|..].
    + rewrite (Hregs 0%nat a0) by (done || lia). unfold value. change (reg c3) with (reg c1). rewrite Nat2Z.id, H0'. cbn [mbind option_bind location_value default].
      unfold mem2. rewrite ldn_store8_apart by (unfold apart in *; lia). by apply ldn_store8.
    + rewrite (Hregs 1%nat a1) by (done || lia). unfold value. change (reg c3) with (reg c1). rewrite Nat2Z.id, H1'. cbn [mbind option_bind location_value default].
      by apply ldn_store8.
    + intros i a Hi Ha. rewrite (Hregs i a) by (done || lia). rewrite Hval by lia. f_equal. destruct (Hsep i a Hi (or_introl Ha)).
      unfold mem2. by rewrite !ldn_store8_apart.
    + rewrite <- Hsp. symmetry. exact (Hval 7%nat ltac:(lia)).
    + done.
Qed.

(** ** An example *)

(** Memory in blocks. *)
Fixpoint block_mem (bs : list (Z * list Z)) (a : Z) : Z :=
  match bs with
  | [] => 0
  | (start, l) :: bs => if (start <=? a) && (a <? start + Z.of_nat (length l)) then default 0 (l !! Z.to_nat (a - start)) else block_mem bs a
  end.

Lemma block_mem_byte bs : Forall (λ b, Forall (λ x, 0 ≤ x < 256) (snd b)) bs → ∀ a, 0 ≤ block_mem bs a < 256.
Proof.
  intros Hb a. induction Hb as [|[s l] bs Hl _ IH]; simpl; [lia|]. destruct (_ && _); [|done].
  destruct (l !! _) as [x|] eqn:E; simpl; [|lia]. exact (Forall_lookup_1 _ _ _ _ Hl E).
Qed.

(** A function at 0x5000 that throws, called by one at 0x4000 that has a handler for the
    type named A at 0x4040: the descriptors, the language-specific tables, the type, its
    name, the name in the exception at 0x3020, and the stack. *)
Definition example_blocks : list (Z * list Z) := [
  (0x1000, le_bytes 4 20 ++ le_bytes 4 0 ++ [1; 122; 82; 0; 1; 0x78; 16; 1; 0x1b; 0x0c; 7; 8; 0x90; 1; 0; 0]);
  (0x1018, le_bytes 4 20 ++ le_bytes 4 0x1c ++ le_bytes 4 0x3fe0 ++ le_bytes 4 0x100 ++ [0; 0x0e; 16; 0x83; 2; 0; 0; 0]);
  (0x1030, le_bytes 4 28 ++ le_bytes 4 0 ++ [1; 122; 80; 76; 82; 0; 1; 0x78; 16; 7; 3] ++ le_bytes 4 0x6000 ++ [3; 0x1b; 0x0c; 7; 8; 0x90; 1; 0; 0]);
  (0x1050, le_bytes 4 20 ++ le_bytes 4 0x24 ++ le_bytes 4 0x2fa8 ++ le_bytes 4 0x80 ++ [4] ++ le_bytes 4 0x2000 ++ [0x0e; 32; 0]);
  (0x2000, [255; 0; 18; 1; 4; 16; 32; 64; 1; 1; 0; 0; 0; 0; 0x21; 0; 0; 0; 0; 0; 0]);
  (0x2108, le_bytes 8 0x2200); (0x2200, [65; 0]); (0x2300, [65; 0]); (0x3000, le_bytes 8 0x2300);
  (0x7000, le_bytes 8 1 ++ le_bytes 8 2 ++ le_bytes 8 3 ++ le_bytes 8 6 ++ le_bytes 8 0 ++ le_bytes 8 0x5010 ++ le_bytes 8 0xbb ++ le_bytes 8 0x4020)].

Definition raise_mem : Z → Z := block_mem example_blocks.

(** The unwinder keeps rax, rdx, rbx, rbp and its return address in its own frame. *)
Definition raise_this : Unwind_Context :=
  MkContext [InMemory 0x7000; InMemory 0x7008; Nowhere; InMemory 0x7010; Nowhere; Nowhere; InMemory 0x7018; Nowhere; Nowhere; Nowhere;
    Nowhere; Nowhere; Nowhere; Nowhere; Nowhere; Nowhere; InMemory 0x7028; Nowhere] 0x7030 0x5010 0 (MkBases 0 0 0) false 0.

Definition raise_st0 : unwinder := MkUnwinder [fresh 0 0 0x1068 0x1000] [] 56.
Definition raise_st1 : unwinder :=
  match Unwind_Find_FDE raise_mem 6 105 0 0x500f raise_st0 with Ok (_, st) => st | Err _ => raise_st0 end.
Definition raise_states (st : unwinder) : Prop := st = raise_st0 ∨ st = raise_st1.

Definition raise_frame (c : Unwind_Context) : Unwind_Context * FrameState :=
  match uw_frame_state_for raise_mem 6 105 0 0 0 0 c raise_st0 with Ok (_, c, f, _) => (c, f) | Err _ => (c, zero_fs) end.
Definition raise_caller (fr : Unwind_Context * FrameState) : Unwind_Context :=
  match uw_update_context raise_mem 0 (fst fr) (snd fr) with Ok c => c | Err _ => fst fr end.

Definition raise_thrower : Unwind_Context * FrameState := Eval vm_compute in raise_frame raise_this.
Definition raise_handler : Unwind_Context * FrameState := Eval vm_compute in raise_frame (raise_caller raise_thrower).

Lemma raise_mem_byte a : 0 ≤ raise_mem a < 256.
Proof. apply block_mem_byte. apply (bool_decide_unpack _). vm_compute. exact I. Qed.

Lemma raise_looks c fr : (∀ st, raise_states st → uw_frame_state_for raise_mem 6 105 0 0 0 0 c st = Ok (_URC_NO_REASON, fst fr, snd fr, raise_st1)) →
  looks 6 105 0 0 0 0 raise_mem raise_states c _URC_NO_REASON (fst fr) (snd fr).
Proof. intros H st Hst. exists raise_st1. split; [by apply H|by right]. Qed.

Lemma raise_looks_thrower : looks 6 105 0 0 0 0 raise_mem raise_states raise_this _URC_NO_REASON (fst raise_thrower) (snd raise_thrower).
Proof. apply raise_looks. intros st [->| ->]; vm_compute; reflexivity. Qed.

Lemma raise_looks_handler :
  looks 6 105 0 0 0 0 raise_mem raise_states (raise_caller raise_thrower) _URC_NO_REASON (fst raise_handler) (snd raise_handler).
Proof. apply raise_looks. intros st [->| ->]; vm_compute; reflexivity. Qed.

Lemma raise_walk : walk 6 105 0 0 0 0 0 raise_mem raise_states raise_this [raise_thrower] (raise_caller raise_thrower).
Proof.
  apply (walk_cons _ _ _ _ _ _ _ _ _ raise_this (fst raise_thrower) (snd raise_thrower) (raise_caller raise_thrower));
    [exact raise_looks_thrower|discriminate|vm_compute; reflexivity|constructor].
Qed.

(** The places of saved registers. *)
Definition saved_places (c : Unwind_Context) : list (nat * Z) :=
  omap (λ p, match snd p with InMemory a => Some (fst p, a) | _ => None end) (zip (seq 0 (length (reg c))) (reg c)).

Lemma saved_places_spec c i a : reg c !! i = Some (InMemory a) → (i, a) ∈ saved_places c.
Proof.
  intros Hi. apply list_elem_of_omap. exists (i, InMemory a). split; [|done]. apply list_elem_of_lookup. exists i.
  apply lookup_zip_with_Some. exists i, (InMemory a). split_and!; [done| |done]. apply lookup_seq. split; [lia|by eapply lookup_lt_Some].
Qed.

Lemma raise_installable : installable raise_this (fst raise_handler).
Proof.
  assert (∀ i a, reg raise_this !! i = Some (InMemory a) → (i, a) ∈ [(0%nat, 0x7000); (1%nat, 0x7008); (3%nat, 0x7010); (6%nat, 0x7018); (16%nat, 0x7028)])
    as Hthis by (intros i a Hi; exact (saved_places_spec _ _ _ Hi)).
  assert (∀ i a, reg (fst raise_handler) !! i = Some (InMemory a) →
    (i, a) ∈ [(0%nat, 0x7000); (1%nat, 0x7008); (3%nat, 0x7030); (6%nat, 0x7018); (16%nat, 0x7038)])
    as Hhandler by (intros i a Hi; exact (saved_places_spec _ _ _ Hi)).
  split; [reflexivity|reflexivity|repeat constructor| | | | |split; [discriminate|reflexivity]].
  - intros i l Hi. apply list_elem_of_lookup_2 in Hi. repeat (apply elem_of_cons in Hi as [->|Hi]; [by (left; done) || (right; by eexists)|]).
    by apply elem_of_nil in Hi.
  - intros i l Hi. apply list_elem_of_lookup_2 in Hi. repeat (apply elem_of_cons in Hi as [->|Hi]; [done|]). by apply elem_of_nil in Hi.
  - intros i j a b _ _ Hij Ha%Hthis [Hb%Hthis|Hb%Hhandler]; unfold apart; set_solver by lia.
  - intros i a t Ha%Hthis Ht%Hhandler. unfold apart. set_solver by lia.
Qed.

Definition raise_sites : list decoded := [MkDecoded (MkSite 16 32 64 1) [(1, true)]; MkDecoded (MkSite 1 0 0 0) []].

Lemma raise_tables : tables raise_mem 6 10 0x3020 (fst raise_handler) raise_sites.
Proof. exists (MkLsda 0 (Some 0x2015) 0x2009 0x2005 0x2009). split; vm_compute; reflexivity. Qed.

Lemma raise_no_cleanup : Forall (no_cleanup (view (fst raise_handler))) raise_sites.
Proof.
  repeat constructor; done.
Qed.

Lemma exception_caught_witness :
  ∃ offset mem' sp st', Unwind_RaiseException 6 105 0 0 0 0 0 (gxx_routine 6 10) 2 0x3020 raise_this raise_mem (MkUExn 0 0 0 0) raise_st0 =
      Ok (Installed offset 0x4040, mem', MkUExn 0 0 0 0x7040, st') ∧
    ldn mem' 8 0x7000 = 0x3020 ∧ ldn mem' 8 0x7008 = 1 ∧
    ldn mem' 8 0x7010 = 0xbb ∧ sp = 0x7040 ∧ u64 (0x7030 + offset) = u64 (0x7040 + 0).
Proof.
  destruct (exception_caught 6 105 0 0 0 0 0 10 raise_mem 0x3020 raise_states raise_this [raise_thrower] (raise_caller raise_thrower)
    (fst raise_handler) (snd raise_handler) raise_sites 0x4040 1 0x7000 0x7008
    (MkUExn 0 0 0 0) raise_st0 2) as (offset & mem' & sp & st' & Hr & H0 & H1 & Hi & Hsp & Hadj).
  - exact raise_mem_byte.
  - left. reflexivity.
  - simpl. lia.
  - exact raise_walk.
  - apply Forall_cons_2; [left; reflexivity|apply Forall_nil_2].
  - exact raise_looks_handler.
  - discriminate.
  - discriminate.
  - exact raise_tables.
  - exact raise_no_cleanup.
  - vm_compute. reflexivity.
  - exact raise_installable.
  - reflexivity.
  - reflexivity.
  - reflexivity.
  - reflexivity.
  - reflexivity.
  - split; [discriminate|reflexivity].
  - split; [discriminate|reflexivity].
  - exists offset, mem', sp, st'. split_and!; [exact Hr|exact H0|exact H1| | |].
    + rewrite (Hi 3%nat 0x7010); [vm_compute; reflexivity|lia|reflexivity].
    + assert (Some sp = Some 0x7040) as [=] by (rewrite <- Hsp; vm_compute; reflexivity). done.
    + assert (sp = 0x7040) as -> by (assert (Some sp = Some 0x7040) as [=] by (rewrite <- Hsp; vm_compute; reflexivity); done). exact Hadj.
Defined.

