(* ===== verification/Throw.v ===== *)
(** * Throwing exceptions

    The run-time functions of kernel/abi.cpp that make and release exceptions, the
    exception that [Thread::stop] makes for a thread (kernel/thread.cpp), and the way
    of an exception into user space: [_Unwind_ReturnToUser] (kernel/abi.cpp) and
    [get_prepare_current_thread_context] (arch/x86/x86-arch.cpp).  A process that has
    registered its unwinder also gives the functions that allocate and release
    exceptions; the kernel calls them, so they are parameters here. *)

From S2P Require Import Prelude Define CppMap PageAlloc PhysMem Vma UserMem CppString MemInit KTime Sched SchedFair Thread Process Elf.
Local Open Scope Z_scope.

Section throw.
Context {S A : Type} `{SchedulingAlgorithm S} `{PageAllocatorAlgorithm A}.
Implicit Type k : kernel S A.

(** Calls of the functions [malloc_ptr] and [free_ptr] of a process. *)
Context (user_malloc : Z → Z → kernel S A → result (Z * kernel S A)) (user_free : Z → Z → kernel S A → result (kernel S A)).

(** [sizeof (__cxa_exception)], and the offset of [unwindHeader] in it. *)
Definition SIZEOF_CXA_EXCEPTION : Z := 64.
Definition UNWIND_HEADER : Z := 32.

Definition current_process k : result (Z * Process) := o ← current_owner k; p ← the_process k o; Ok (o, p).

(** [DefaultSyscalls::sys_allocate_memory]. *)
Definition allocate_memory (nr_pages : Z) k : result (Z * kernel S A) :=
  '(o, p) ← current_process k;
  '(va, v, m) ← allocate_virt_any (vma p) (mach k) (u32 nr_pages);
  Ok (va, put_proc (put_mach k m) o (with_threads p v (threads p))).

(** [__cxa_allocate_exception]. *)
Definition cxa_allocate_exception (thrown_size : Z) k : result (Z * kernel S A) :=
  let pages k :=
    '(ptr, k) ← allocate_memory (u64 (u64 (thrown_size + SIZEOF_CXA_EXCEPTION - 1) / 0x1000 + 1)) k;
    Ok (u64 (ptr + SIZEOF_CXA_EXCEPTION), k) in
  '(_, p) ← current_process k;
  match exceptionInfo p with
  | Some info =>
      '(ptr, k) ← user_malloc (malloc_ptr info) (u64 (thrown_size + SIZEOF_CXA_EXCEPTION)) k;
      if ptr =? 0 then pages k else Ok (u64 (ptr + SIZEOF_CXA_EXCEPTION), k)
  | None => pages k
  end.

(** [__cxa_free_exception]; [release_memory] has an empty body. *)
Definition cxa_free_exception (thrown : Z) k : result (kernel S A) :=
  '(_, p) ← current_process k;
  match exceptionInfo p with
  | Some info => user_free (free_ptr info) (u64 (thrown - SIZEOF_CXA_EXCEPTION)) k
  | None => Ok k
  end.

(** Stores to the memory of the current process. *)
Definition store_word (va w : Z) k : result (kernel S A) :=
  '(_, p) ← current_process k; m ← user_store64 (vma p) (mach k) va w; Ok (put_mach k m).

Definition store_string (va : Z) (s : list Z) k : result (kernel S A) :=
  '(_, p) ← current_process k;
  m ← for_range 0 (Z.of_nat (length s)) (λ i m, pa ← get_mapping (vma p) m (u64 (va + i)); pa ← get (Thrown (u64 (va + i))) pa;
        Ok (set_mem m (<[pa := u8 (nth (Z.to_nat i) s 0)]> (mem m)))) (mach k);
  Ok (put_mach k m).

(** The part of [__cxa_throw] before the exception is raised: the header of the exception
    at [thrown] is filled in, with a copy of the type's name.  The result is the address
    for [_Unwind_RaiseException]; when that returns, the kernel stops in [panic]. *)
Definition cxa_throw (thrown : Z) (name : list Z) (dest : Z) k : result (Z * kernel S A) :=
  let header := u64 (thrown - SIZEOF_CXA_EXCEPTION) in
  k ← store_word (u64 (header + 8)) dest k;
  k ← store_word (u64 (header + 16)) 0 k;
  '(_, p) ← current_process k;
  '(newAddr, k) ← match exceptionInfo p with
                  | Some info => user_malloc (malloc_ptr info) (u64 (Z.of_nat (length name) + 1)) k
                  | None => allocate_memory 1 k
                  end;
  k ← store_string newAddr (name ++ [0]) k;
  k ← store_word header newAddr k;
  Ok (u64 (header + UNWIND_HEADER), k).

(** ** Stopping a thread *)

(** "1ThreadTerminateException". *)
Definition terminate_name : list Z :=
  [49; 84; 104; 114; 101; 97; 100; 84; 101; 114; 109; 105; 110; 97; 116; 101; 69; 120; 99; 101; 112; 116; 105; 111; 110].

(** The exception for a thread of [p], whose class is empty.  It is allocated like an
    exception of the thread that runs, its name by the function of the other process. *)
Definition terminate_exception (info : ExceptionPrepareInfo) k : result (Z * kernel S A) :=
  '(thrown, k) ← cxa_allocate_exception 1 k;
  let header := u64 (thrown - SIZEOF_CXA_EXCEPTION) in
  k ← store_word (u64 (header + 8)) 0 k;
  k ← store_word (u64 (header + 16)) 0 k;
  '(newAddr, k) ← user_malloc (malloc_ptr info) (Z.of_nat (length terminate_name) + 1) k;
  k ← store_string newAddr (terminate_name ++ [0]) k;
  k ← store_word header newAddr k;
  Ok (u64 (header + UNWIND_HEADER), k).

(** [Thread::stop] with its exception. *)
Definition Thread_stop (fuel : nat) k (t : Z) (simple_exit : bool) : result (bool * kernel S A) :=
  c ← current_thr k;
  th ← the_thread k t;
  p ← the_process k (owner th);
  match exceptionInfo p with
  | Some info =>
      if bool_decide (c = t) && simple_exit then thread_stop fuel k t simple_exit 0
      else '(header, k) ← terminate_exception info k; thread_stop fuel k t simple_exit header
  | None => thread_stop fuel k t simple_exit 0
  end.

(** ** Into user space *)

(** [get_prepare_current_thread_context]: the first word of a thread's context is the
    address of the registers that were saved last. *)
Definition get_prepare_current_thread_context (exc user_callback rip : Z) k : result (kernel S A) :=
  c ← current_thr k;
  th ← the_thread k c;
  let prev_ctx := native_context th in
  m ← ctx_store (mem (mach k)) prev_ctx RIP user_callback;
  rsp ← ctx_load m prev_ctx RSP;
  m ← ctx_store m prev_ctx RSP (u64 (rsp - 8));
  m ← ctx_store m prev_ctx RDI exc;
  rsp ← ctx_load m prev_ctx RSP;
  p ← the_process k (owner th);
  m ← user_store64 (vma p) (set_mem (mach k) m) rsp rip;
  Ok (put_mach k m).

(** [get_syscall_rip]. *)
Definition get_syscall_rip k : result Z :=
  c ← current_thr k; th ← the_thread k c; ctx_load (mem (mach k)) (native_context th) RIP.

(** [_Unwind_ReturnToUser]: [false] when it does not return, because the thread goes on in
    user space or has stopped. *)
Definition Unwind_ReturnToUser (fuel : nat) (exc : Z) k : result (bool * kernel S A) :=
  '(o, p) ← current_process k;
  match exceptionInfo p with
  | Some info =>
      rip ← get_syscall_rip k;
      k ← get_prepare_current_thread_context exc (unwind_address info) rip k;
      Ok (false, k)
  | None => terminate fuel k o
  end.
End throw.

(** ** Stores to user memory *)

Section stores.
Context {A : Type} `{AlgorithmLaws A}.
Implicit Types (s : machine A) (v : VMA) (own : gmap Z (list Z)) (K : Z → Prop).

(** One byte through the tables. *)
Lemma store_byte_area K s v own root va b pa : area K s v own root → user_va va → translation (mem s) root va = Some pa →
  area K (set_mem s (<[pa := u8 b]> (mem s))) v own root ∧ (∀ x, K (x / 4096) → ld8 (<[pa := u8 b]> (mem s)) x = ld8 (mem s) x) ∧
  ∀ x, user_va x → user_byte (<[pa := u8 b]> (mem s)) root x = if decide (x = va) then Some (u8 b) else user_byte (mem s) root x.
Proof.
  intros Ha Hva Hpa. destruct (ar_frame _ _ _ _ _ Ha _ _ Hva Hpa) as (Hoff & Hr & Hty & Ho & HK).
  destruct (area_outside K s v own root (<[pa := u8 b]> (mem s)) Ha) as [Ha' Htr].
  { intros x [path Hx]. rewrite ld8_insert, decide_False; [done|]. intros ->. congruence. }
  split_and!; [done|intros x Hx; rewrite ld8_insert, decide_False; [done|congruence]|].
  intros x Hx. unfold user_byte. rewrite Htr by done. case_decide as Hd.
  - subst x. rewrite Hpa. simpl. rewrite ld8_insert, decide_True by done. by rewrite wrap_idemp by lia.
  - destruct (translation (mem s) root x) as [px|] eqn:E; [|done]. simpl. f_equal. rewrite ld8_insert, decide_False; [done|]. intros ->.
    pose proof (ar_inj _ _ _ _ _ Ha _ _ _ _ Hx Hva E Hpa eq_refl). destruct (ar_frame _ _ _ _ _ Ha _ _ Hx E) as (Hoff' & _).
    apply Hd. pose proof (Z.div_mod x 4096). pose proof (Z.div_mod va 4096). lia.
Qed.

(** The loops of the stores. *)
Lemma store_loop_area K s v own root va n (byte : Z → Z) :
  area K s v own root → 0 ≤ va → 0 ≤ n → va + n < 2 ^ 47 → (∀ x, within va n x → is_Some (translation (mem s) root x)) →
  ∃ s', for_range 0 n (λ i m, pa ← get_mapping v m (u64 (va + i)); pa ← get (Thrown (u64 (va + i))) pa;
          Ok (set_mem m (<[pa := u8 (byte i)]> (mem m)))) s = Ok s' ∧
    area K s' v own root ∧ pgalloc s' = pgalloc s ∧ (∀ x, K (x / 4096) → ld8 (mem s') x = ld8 (mem s) x) ∧
    ∀ x, user_va x → user_byte (mem s') root x = if decide (within va n x) then Some (u8 (byte (x - va))) else user_byte (mem s) root x.
Proof.
  intros Ha Hva Hn Hend Hmap.
  destruct (for_range_total (λ i s', area K s' v own root ∧ pgalloc s' = pgalloc s ∧ (∀ x, K (x / 4096) → ld8 (mem s') x = ld8 (mem s) x) ∧
      ∀ x, user_va x → user_byte (mem s') root x = if decide (within va i x) then Some (u8 (byte (x - va))) else user_byte (mem s) root x)
    0 n (λ i m, pa ← get_mapping v m (u64 (va + i)); pa ← get (Thrown (u64 (va + i))) pa; Ok (set_mem m (<[pa := u8 (byte i)]> (mem m)))) s)
    as (s' & Hrun & Ha' & Hpg & HK & Hv).
  - done.
  - split_and!; [done..|]. intros x Hx. rewrite decide_False by lia. done.
  - intros i s1 Hi (Ha1 & Hpg1 & HK1 & Hv1). assert (user_va (va + i)) as Hu by (unfold user_va; lia).
    rewrite (wrap_small 64) by (unfold fits; lia). rewrite (get_mapping_spec _ _ _ _ _ (ar_inv _ _ _ _ _ Ha1) Hu), bind_Ok.
    destruct (translation (mem s1) root (va + i)) as [pa|] eqn:E.
    + cbn [get]. rewrite bind_Ok. eexists. split; [done|]. destruct (store_byte_area K s1 v own root (va + i) (byte i) pa Ha1 Hu E) as (Ha2 & HK2 & Hv2).
      split_and!; [done|done|intros x Hx; simpl; rewrite HK2 by done; by apply HK1|]. intros x Hx. cbn [mem set_mem]. rewrite Hv2 by done. destruct (decide (x = va + i)) as [->|Hne].
      * rewrite decide_True by lia. do 3 f_equal. lia.
      * rewrite Hv1 by done. destruct (decide (within va i x)); [by rewrite decide_True by lia|by rewrite decide_False by lia].
    + exfalso. specialize (Hv1 (va + i) Hu). rewrite decide_False in Hv1 by lia. unfold user_byte in Hv1. rewrite E in Hv1.
      destruct (Hmap (va + i)) as [pa Hpa]; [lia|]. by rewrite Hpa in Hv1.
  - exists s'. by split_and!.
Qed.

End stores.

(** ** The user's view *)

Section view.
Context {S : Type} `{SchedulingAlgorithm S}.
Context (K : Z → Prop) (c root : Z).
Implicit Types (m : machine SimplePageAllocator) (k : kernel S SimplePageAllocator) (u : Z → option Z) (R : reg → Z).

Definition word_bytes (w : Z) : list Z := (λ i, u8 (Z.shiftr w (8 * i))) <$> seqZ 0 8.

Lemma byte_loop_view t v m u R va n (byte : Z → Z) bs :
  building K c root t v m u R → 0 ≤ va → va + n < 2 ^ 47 → Z.of_nat (length bs) = n → (∀ x, within va n x → is_Some (u x)) →
  (∀ i, 0 ≤ i < n → bs !! Z.to_nat i = Some (u8 (byte i))) →
  ∃ m', for_range 0 n (λ i m, pa ← get_mapping v m (u64 (va + i)); pa ← get (Thrown (u64 (va + i))) pa;
          Ok (set_mem m (<[pa := u8 (byte i)]> (mem m)))) m = Ok m' ∧
    building K c root t v m' (overlay va n bs u) R ∧ pgalloc m' = pgalloc m.
Proof using.
  intros Hb Hva Hend Hlen Hmap Hbs. destruct (bd_area _ _ _ _ _ _ _ _ Hb) as [own Ha].
  destruct (store_loop_area K m v own root va n byte Ha Hva) as (m' & Hrun & Ha' & Hpg & HK & Hv); [lia|done| |].
  { intros x Hx. specialize (Hmap x Hx). rewrite <- (bd_view _ _ _ _ _ _ _ _ Hb) in Hmap by (unfold user_va; lia).
    unfold user_byte in Hmap. by apply fmap_is_Some in Hmap. }
  exists m'. split_and!; [done| |done]. split; try apply Hb; [by eexists| |].
  - intros x Hx. rewrite Hv by done. unfold overlay. destruct (decide (within va n x)) as [Hin|]; [|by apply (bd_view _ _ _ _ _ _ _ _ Hb)].
    by rewrite Hbs by lia.
  - intros r. by eapply building_regs.
Qed.

Lemma store64_view t v m u R va w :
  building K c root t v m u R → 0 ≤ va → va + 8 < 2 ^ 47 → (∀ x, within va 8 x → is_Some (u x)) →
  ∃ m', user_store64 v m va w = Ok m' ∧ building K c root t v m' (overlay va 8 (word_bytes w) u) R ∧ pgalloc m' = pgalloc m.
Proof using.
  intros Hb Hva Hend Hmap. apply (byte_loop_view t v m u R va 8 (λ i, Z.shiftr w (8 * i))); [done..|].
  intros i Hi. unfold word_bytes. rewrite list_lookup_fmap, lookup_seqZ_lt by lia. simpl. by rewrite Z2Nat.id by lia.
Qed.

Lemma overlay_is_Some lo n bs u x : is_Some (u x) → is_Some (overlay lo n bs u x).
Proof using. intros Hx. unfold overlay. case_decide; [by eexists|done]. Qed.

(** The thread that runs, and its process. *)
Record runs (k : kernel S SimplePageAllocator) (t : Z) (th : Thread) (p : Process) : Prop := {
  rn_current : current_thread (sched k) = Some t;
  rn_thread : thrs k !! t = Some th;
  rn_process : procs k !! owner th = Some p }.

Lemma runs_current k t th p : runs k t th p → current_process k = Ok (owner th, p).
Proof using.
  intros [Hc Ht Hp]. unfold current_process, current_owner, current_thr, the_thread, the_process. rewrite Hc. cbn [get].
  rewrite bind_Ok, Ht. cbn [get]. by rewrite !bind_Ok, Hp.
Qed.

(** Registers of the context one after the other. *)
Lemma load_view t v m u R r : building K c root t v m u R → ctx_load (mem m) (native_context t) r = Ok (R r).
Proof using. intros Hb. rewrite (bd_context _ _ _ _ _ _ _ _ Hb), ctx_load_Ok by apply Hb. f_equal. apply Hb. Qed.

(** The registers with which the thread continues. *)
Definition entering (exc callback : Z) R (r : reg) : Z :=
  match r with RIP => callback | RSP => R RSP - 8 | RDI => exc | r => R r end.

Lemma prepare_context_view k t th p u R exc callback rip :
  runs k t th p → building K c root th (vma p) (mach k) u R → fits 64 exc → fits 64 callback →
  8 ≤ R RSP < 2 ^ 47 → (∀ x, within (R RSP - 8) 8 x → is_Some (u x)) →
  ∃ m', get_prepare_current_thread_context exc callback rip k = Ok (put_mach k m') ∧
    building K c root th (vma p) m' (overlay (R RSP - 8) 8 (word_bytes rip) u) (entering exc callback R).
Proof using.
  intros [Hc Ht Hp] Hb Hexc Hcb Hrsp Hmap. unfold get_prepare_current_thread_context, current_thr, the_thread, the_process.
  rewrite Hc. cbn [get]. rewrite bind_Ok, Ht. cbn [get]. rewrite bind_Ok. cbv zeta.
  destruct (building_store K c root th _ _ u R RIP callback Hb Hcb) as (m1 & -> & Hb1). rewrite bind_Ok.
  rewrite (load_view _ _ _ _ _ RSP Hb1 : ctx_load m1 _ RSP = _), bind_Ok. rewrite decide_False, (wrap_small 64) by (done || (unfold fits; lia)).
  destruct (building_store K c root th _ _ u _ RSP (R RSP - 8) Hb1) as (m2 & Hs2 & Hb2); [unfold fits; lia|].
  cbn [mem set_mem] in Hs2. rewrite Hs2, bind_Ok.
  destruct (building_store K c root th _ _ u _ RDI exc Hb2 Hexc) as (m3 & Hs3 & Hb3). cbn [mem set_mem] in Hs3. rewrite Hs3, bind_Ok.
  rewrite (load_view _ _ _ _ _ RSP Hb3 : ctx_load m3 _ RSP = _), bind_Ok. rewrite decide_False, decide_True, Hp by done. cbn [get]. rewrite bind_Ok.
  destruct (store64_view th (vma p) _ u _ (R RSP - 8) rip Hb3) as (m4 & Hs4 & Hb4 & _); [lia|lia|done|].
  change (set_mem (set_mem (set_mem (mach k) m1) m2) m3) with (set_mem (mach k) m3) in Hs4. rewrite Hs4. exists m4. split; [done|].
  destruct Hb4 as [? ? ? ? ? Hr]. split; try done. intros r. rewrite Hr. by destruct r.
Qed.

(** ** Filling in a header *)

Lemma building_free_address t v m u R n :
  building K c root t v m u R → building K c root t (MkVMA (page_allocations v) (pgt_phys_base v) (pgt_virt_base v) n) m u R.
Proof using. intros [[own [[] ? ? ?]] ? ? ? ? ?]. split; try done. exists own. by split. Qed.

Lemma runs_mach k t th p m : runs k t th p → runs (put_mach k m) t th p.
Proof using. by intros []. Qed.

Lemma store_word_view k t th p u R va w :
  runs k t th p → building K c root th (vma p) (mach k) u R → 0 ≤ va → va + 8 < 2 ^ 47 → (∀ x, within va 8 x → is_Some (u x)) →
  ∃ m', store_word va w k = Ok (put_mach k m') ∧ building K c root th (vma p) m' (overlay va 8 (word_bytes w) u) R ∧ pgalloc m' = pgalloc (mach k).
Proof using.
  intros Hr Hb Hva Hend Hmap. unfold store_word. rewrite (runs_current _ _ _ _ Hr), bind_Ok.
  destruct (store64_view th (vma p) (mach k) u R va w Hb Hva Hend Hmap) as (m' & -> & Hb' & Hpg). rewrite bind_Ok. by exists m'.
Qed.

Lemma store_string_view k t th p u R va s :
  runs k t th p → building K c root th (vma p) (mach k) u R → 0 ≤ va → va + Z.of_nat (length s) < 2 ^ 47 → Forall (fits 8) s →
  (∀ x, within va (Z.of_nat (length s)) x → is_Some (u x)) →
  ∃ m', store_string va s k = Ok (put_mach k m') ∧ building K c root th (vma p) m' (overlay va (Z.of_nat (length s)) s u) R.
Proof using.
  intros Hr Hb Hva Hend Hs Hmap. unfold store_string. rewrite (runs_current _ _ _ _ Hr), bind_Ok.
  destruct (byte_loop_view th (vma p) (mach k) u R va (Z.of_nat (length s)) (λ i, nth (Z.to_nat i) s 0) s Hb Hva) as (m' & -> & Hb' & _); try done.
  - intros i Hi. destruct (lookup_lt_is_Some_2 s (Z.to_nat i)) as [b Hb']; [lia|]. rewrite Hb'.
    rewrite nth_lookup, Hb'. cbn [default]. by rewrite wrap_small by (by apply (Forall_lookup_1 _ _ _ _ Hs Hb')).
  - rewrite bind_Ok. by exists m'.
Qed.

Lemma allocate_memory_view k t th p u R n :
  runs k t th p → building K c root th (vma p) (mach k) u R → contiguous (n + virt_cost 1) (mach k) →
  0 ≤ next_free_address (vma p) → next_free_address (vma p) mod 4096 = 0 → next_free_address (vma p) + 4096 < 2 ^ 47 →
  ∃ v m, allocate_memory 1 k = Ok (next_free_address (vma p), put_proc (put_mach k m) (owner th) (with_threads p v (threads p))) ∧
    building K c root th v m (overlay (next_free_address (vma p)) 4096 [] u) R.
Proof using.
  intros Hr Hb Hroom H0 Hal Hend. unfold allocate_memory. rewrite (runs_current _ _ _ _ Hr), bind_Ok. unfold allocate_virt_any.
  change (s32 (u32 1)) with 1.
  destruct (building_allocate K c root th (vma p) (mach k) u R _ 1 n Hb ltac:(lia) H0 Hal ltac:(lia) Hroom) as (v' & m' & q & -> & Hb' & _ & _).
  rewrite bind_Ok. cbn [negb]. rewrite bind_Ok. eexists _, m'. split; [done|]. by apply building_free_address.
Qed.
End view.

(** The word that a view shows at an address. *)
Definition shows (u : Z → option Z) (va w : Z) : Prop := ∀ i, 0 ≤ i < 8 → u (va + i) = Some (u8 (Z.shiftr w (8 * i))).

Lemma shows_overlay va w u : shows (overlay va 8 (word_bytes w) u) va w.
Proof.
  intros i Hi. unfold overlay. rewrite decide_True by lia. unfold word_bytes. rewrite list_lookup_fmap, lookup_seqZ_lt by lia.
  cbn. do 3 f_equal. lia.
Qed.

Lemma shows_apart va w lo n bs u : va + 8 ≤ lo ∨ lo + n ≤ va → shows u va w → shows (overlay lo n bs u) va w.
Proof. intros Ha Hs i Hi. unfold overlay. rewrite decide_False by lia. by apply Hs. Qed.

(** ** Properties *)

(** Throwing in a process without functions of its own for exceptions.  The header in
    front of the exception gets the destructor, no next exception, and the address of a
    fresh page with a copy of the type's name; the unwinder gets the address of the
    header's last part.  The rest of the memory of the process is unchanged. *)
Theorem throw_fills_header {S} `{SchedulingAlgorithm S} umalloc K c root (k : kernel S SimplePageAllocator) t th p u R thrown name dest n :
  runs k t th p → exceptionInfo p = None → building K c root th (vma p) (mach k) u R → contiguous (n + virt_cost 1) (mach k) →
  64 ≤ thrown < 2 ^ 47 - 1 → (∀ x, within (thrown - 64) 64 x → is_Some (u x)) → Forall (fits 8) name → Z.of_nat (length name) < 4096 →
  let page := next_free_address (vma p) in
  0 ≤ page → page mod 4096 = 0 → page + 4096 < 2 ^ 47 → thrown ≤ page ∨ page + 4096 ≤ thrown - 64 →
  ∃ k' v u', cxa_throw umalloc thrown name dest k = Ok (thrown - 32, k') ∧
    procs k' = <[owner th := with_threads p v (threads p)]> (procs k) ∧ thrs k' = thrs k ∧ sched k' = sched k ∧
    building K c root th v (mach k') u' R ∧
    shows u' (thrown - 64) page ∧ shows u' (thrown - 56) dest ∧ shows u' (thrown - 48) 0 ∧
    (∀ i b, (name ++ [0]) !! i = Some b → u' (page + Z.of_nat i) = Some b) ∧
    ∀ x, ¬ within (thrown - 64) 24 x → ¬ within page 4096 x → u' x = u x.
Proof.
  intros Hr Hinfo Hb Hroom Hth Hmap Hname Hlen page H0 Hal Hend Hsep. unfold cxa_throw, SIZEOF_CXA_EXCEPTION, UNWIND_HEADER.
  assert (u64 (thrown - 64) = thrown - 64) as -> by (apply wrap_small; unfold fits; lia).
  assert (u64 (thrown - 64 + 8) = thrown - 56) as -> by (rewrite wrap_small by (unfold fits; lia); lia).
  assert (u64 (thrown - 64 + 16) = thrown - 48) as -> by (rewrite wrap_small by (unfold fits; lia); lia).
  assert (u64 (thrown - 64 + 32) = thrown - 32) as -> by (rewrite wrap_small by (unfold fits; lia); lia).
  destruct (store_word_view K c root k t th p u R (thrown - 56) dest Hr Hb) as (m1 & -> & Hb1 & Hpg1); [lia|lia|intros x Hx; apply Hmap; lia|].
  rewrite bind_Ok. apply (runs_mach k t th p m1) in Hr as Hr1.
  destruct (store_word_view K c root (put_mach k m1) t th p _ R (thrown - 48) 0 Hr1 Hb1) as (m2 & -> & Hb2 & Hpg2);
    [lia|lia|intros x Hx; apply overlay_is_Some, Hmap; lia|].
  rewrite bind_Ok. change (put_mach (put_mach k m1) m2) with (put_mach k m2). apply (runs_mach k t th p m2) in Hr as Hr2. rewrite (runs_current _ _ _ _ Hr2), bind_Ok, Hinfo.
  destruct (allocate_memory_view K c root (put_mach k m2) t th p _ R n Hr2 Hb2) as (v & m3 & -> & Hb3); [|done..|].
  { apply (budget_mem _ (mach k)); [|done]. cbn in *. congruence. }
  rewrite bind_Ok. fold page. set (k3 := put_proc _ _ _).
  assert (runs k3 t th (with_threads p v (threads p))) as Hr3.
  { destruct Hr. split; [done|done|]. cbn [procs put_proc k3]. apply lookup_insert_eq. }
  destruct (store_string_view K c root k3 t th _ _ R page (name ++ [0]) Hr3 Hb3) as (m4 & -> & Hb4); rewrite ?length_app in *; cbn [length] in *.
  { done. } { lia. } { apply Forall_app. split; [done|]. repeat constructor; unfold fits; lia. }
  { intros x Hx. unfold overlay at 1. rewrite decide_True by lia. by eexists. }
  rewrite bind_Ok. set (u4 := overlay page _ (name ++ [0]) _) in Hb4.
  destruct (store_word_view K c root (put_mach k3 m4) t th _ u4 R (thrown - 64) page (runs_mach _ _ _ _ _ Hr3) Hb4) as (m5 & -> & Hb5 & _);
    [lia|lia|intros x Hx; unfold u4; do 4 apply overlay_is_Some; apply Hmap; lia|].
  rewrite bind_Ok. eexists _, v, _. split_and!; [done|done|done|done|exact Hb5|..].
  - apply shows_overlay.
  - apply shows_apart; [lia|]. unfold u4. apply shows_apart; [lia|]. apply shows_apart; [lia|]. apply shows_apart; [lia|]. apply shows_overlay.
  - apply shows_apart; [lia|]. unfold u4. apply shows_apart; [lia|]. apply shows_apart; [lia|]. apply shows_overlay.
  - intros i b Hi. pose proof (lookup_lt_Some _ _ _ Hi) as Hil. rewrite length_app in Hil. cbn [length] in Hil.
    unfold overlay at 1. rewrite decide_False by lia. unfold u4, overlay at 1. rewrite decide_True by lia.
    replace (Z.to_nat (page + Z.of_nat i - page)) with i by lia. by rewrite Hi.
  - intros x H1 H2. unfold u4, overlay. by rewrite !decide_False by lia.
Qed.

(** C32. An exception leaves the kernel.  When the process has registered its unwinder, the
    running thread will continue there as if the instruction after its system call had
    called it: the address of that instruction is pushed on the user's stack, the first
    argument is the exception, and all other registers and all other memory of the
    process are as they were. *)
Theorem exception_enters_user {S} `{SchedulingAlgorithm S} K c root (k : kernel S SimplePageAllocator) t th p u R info exc fuel :
  runs k t th p → exceptionInfo p = Some info → building K c root th (vma p) (mach k) u R →
  fits 64 exc → fits 64 (unwind_address info) → 8 ≤ R RSP < 2 ^ 47 → (∀ x, within (R RSP - 8) 8 x → is_Some (u x)) →
  ∃ m', Unwind_ReturnToUser fuel exc k = Ok (false, put_mach k m') ∧
    building K c root th (vma p) m' (overlay (R RSP - 8) 8 (word_bytes (R RIP)) u) (entering exc (unwind_address info) R).
Proof.
  intros Hrun Hinfo Hb Hexc Hcb Hrsp Hmap. unfold Unwind_ReturnToUser. rewrite (runs_current _ _ _ _ Hrun), bind_Ok, Hinfo.
  assert (get_syscall_rip k = Ok (R RIP)) as ->.
  { unfold get_syscall_rip, current_thr, the_thread. destruct Hrun as [-> Ht _]. cbn [get]. rewrite bind_Ok, Ht. cbn [get]. rewrite bind_Ok.
    by apply (load_view K c root _ _ _ _ _ RIP Hb). }
  rewrite bind_Ok. destruct (prepare_context_view K c root k t th p u R exc (unwind_address info) (R RIP)) as (m' & -> & Hb'); [done..|].
  rewrite bind_Ok. by exists m'.
Qed.

Lemma exception_enters_user_witness :
  ∃ (k : kernel CompletelyFairScheduler SimplePageAllocator) m', Unwind_ReturnToUser 5 0x7777 k = Ok (false, put_mach k m') ∧
    ∃ th, thrs k !! 72 = Some th ∧ ctx_load (mem m') (native_context th) RIP = Ok 0x400100 ∧
      ctx_load (mem m') (native_context th) RDI = Ok 0x7777 ∧ ctx_load (mem m') (native_context th) RSP = Ok 0x101ff0.
Proof.
  destruct (load_spec (S := CompletelyFairScheduler) (F := MemFile) sample_image 70 71 72 73 (im_bytes _ sample_image_ok) sample_kernel 0
    [45; 120] [47; 97] (MkFile sample_image 0) 0) as (f' & k1 & K & c & root & p & th & Hrun & Hoth & Hp & Hmain & Hth & Hb).
  - split; reflexivity.
  - exact sample_image_ok.
  - reflexivity.
  - intros Ha. vm_compute in Ha. discriminate Ha.
  - lia.
  - lia.
  - repeat constructor; vm_compute; congruence.
  - vm_compute. lia.
  - repeat constructor; vm_compute; congruence.
  - vm_compute. lia.
  - split.
    + intros j Ha. pose proof (ty_at_range _ _ _ Ha) as Hr. change (length (page_descriptors (pgalloc (mach sample_kernel)))) with 32%nat in Hr. lia.
    + exists 1. apply (bool_decide_unpack _). vm_compute. exact I.
  - set (p2 := setExceptionPrepareInfo p (MkExc 0x400100 0 0)).
    set (k2 := MkK (set_current_thread (sched k1) 72) (thrs k1) (<[owner th := p2]> (procs k1)) (mach k1)).
    destruct (exception_enters_user K c root k2 72 th p2 (program_view sample_image (program_headers sample_image (read_header (take 64 sample_image))) [45; 120] [47; 97])
      (program_regs (e_entry_point (read_header (take 64 sample_image))) [45; 120]) (MkExc 0x400100 0 0) 0x7777 5) as (m' & Hr & Hb').
    + split; [reflexivity|exact Hth|apply lookup_insert_eq].
    + reflexivity.
    + exact Hb.
    + split; [discriminate|reflexivity].
    + split; [discriminate|reflexivity].
    + vm_compute. split; congruence.
    + intros x Hx. change (program_regs _ _ RSP) with 0x101ff8 in Hx. unfold program_view. apply overlay_is_Some. cbn. apply overlay_is_Some.
      unfold overlay. rewrite decide_True by lia. by eexists.
    + exists k2, m'. split; [exact Hr|]. exists th. split; [exact Hth|].
      split; [|split].
      * exact (load_view _ _ _ _ _ _ _ _ RIP Hb').
      * exact (load_view _ _ _ _ _ _ _ _ RDI Hb').
      * exact (load_view _ _ _ _ _ _ _ _ RSP Hb').
Defined.

Lemma throw_fills_header_witness :
  ∃ (k k' : kernel CompletelyFairScheduler SimplePageAllocator) K c root th v u' R,
    cxa_throw (λ _ _ k, Ok (0, k)) 0x101000 [65; 66] 0x4444 k = Ok (0x100fe0, k') ∧ building K c root th v (mach k') u' R ∧
    shows u' 0x100fc0 0x200000 ∧ shows u' 0x100fc8 0x4444 ∧ shows u' 0x100fd0 0 ∧ u' 0x200001 = Some 66 ∧ u' 0x200002 = Some 0.
Proof.
  destruct (new_process_loading (S := CompletelyFairScheduler) 70 71 72 73 sample_kernel 0 false 0x400000 (0 + virt_cost 1 + virt_cost 2))
    as (k1 & K & c & root & p & th & _ & (Hp & _ & _ & Hth & _ & Hb) & Hroom & _).
  - reflexivity.
  - intros Ha. vm_compute in Ha. discriminate Ha.
  - split.
    + intros j Ha. pose proof (ty_at_range _ _ _ Ha) as Hr. change (length (page_descriptors (pgalloc (mach sample_kernel)))) with 32%nat in Hr. lia.
    + exists 1. apply (bool_decide_unpack _). vm_compute. exact I.
  - lia.
  - lia.
  - split; [discriminate|reflexivity].
  - destruct (user_stack_spec K c root th (vma p) (mach k1) _ _ (0 + virt_cost 1) Hb Hroom) as (v1 & m1 & _ & Hroom1 & Hb1).
    apply (building_free_address K c root th v1 m1 _ _ 0x200000) in Hb1.
    set (v2 := MkVMA (page_allocations v1) (pgt_phys_base v1) (pgt_virt_base v1) 0x200000) in *.
    set (p2 := MkProc false false v2 [72] 72 71 None empty_map false).
    set (k2 := MkK (set_current_thread (sched k1) 72) (thrs k1) (<[owner th := p2]> (procs k1)) m1).
    destruct (throw_fills_header (λ _ _ k, Ok (0, k)) K c root k2 72 th p2
      (overlay 0x100000 0x2000 [] (λ _, None)) (λ r, if decide (r = RSP) then 0x101ff8 else initial_reg User 0x400000 (kernel_stack th) r) 0x101000 [65; 66] 0x4444 0)
      as (k' & v & u' & Hrun & _ & _ & _ & Hb' & Hw1 & Hw2 & Hw3 & Hn & _).
    + split; [reflexivity|exact Hth|apply lookup_insert_eq].
    + reflexivity.
    + exact Hb1.
    + exact Hroom1.
    + lia.
    + intros x Hx. unfold overlay. rewrite decide_True by lia. by eexists.
    + repeat constructor; vm_compute; congruence.
    + simpl. lia.
    + simpl. lia.
    + reflexivity.
    + simpl. lia.
    + simpl. lia.
    + eexists k2, k', K, c, root, th, v, u', _. split; [exact Hrun|]. split; [exact Hb'|]. split; [exact Hw1|]. split; [exact Hw2|]. split; [exact Hw3|].
      split; [exact (Hn 1%nat 66 eq_refl)|exact (Hn 2%nat 0 eq_refl)].
Defined.
