(* ===== verification/Unwind.v ===== *)
(** * Finding the unwind tables

    kernel/prepare_exceptions.cpp: the sections of the kernel's own image are
    searched for the table of frame descriptions, whose bounds the unwinder gets.
    The image is a file of the interface class [Elf.File]. *)

From S2P Require Import Prelude CppString Elf.
Local Open Scope Z_scope.

(** ** The model *)

(** The fields of the header that are used. *)
Record ImageHeader := MkImg { shoff : Z; shnum : Z; shstrndx : Z }.
Definition read_image_header (bs : list Z) : ImageHeader := MkImg (field bs 40 8) (field bs 60 2) (field bs 62 2).

(** [Elf64_Shdr]. *)
Record Elf64_Shdr := MkShdr { sh_name : Z; sh_addr : Z; sh_offset : Z; sh_size : Z }.
Definition read_section_header (bs : list Z) : Elf64_Shdr :=
  MkShdr (field bs 0 4) (field bs 16 8) (field bs 24 8) (field bs 32 8).

(** [".eh_frame"]. *)
Definition EH_FRAME : list Z := [46; 101; 104; 95; 102; 114; 97; 109; 101].

(** [strcmp] on two C strings. *)
Fixpoint cmp_cstr (l r : cstr) : result Z :=
  match l, r with
  | c1 :: l', c2 :: r' =>
      if negb (c1 =? 0) && negb (c2 =? 0) && (c1 =? c2) then cmp_cstr l' r'
      else if (c1 =? 0) && negb (c2 =? 0) then Ok (-1)
      else if (c2 =? 0) && negb (c1 =? 0) then Ok 1
      else if (c1 =? 0) && (c2 =? 0) then Ok 0
      else Ok (s8 c1 - s8 c2)
  | _, _ => Err OutOfBounds
  end.

Section search.
Context {F : Type} `{File F}.
Implicit Types (f : F).

(** [sys_pread] of a section header. *)
Definition section_header (h : ImageHeader) (i : Z) f : Elf64_Shdr * F :=
  let '(_, buf, f) := file_pread 64 (u64 (shoff h + i * 64)) f in (read_section_header buf, f).

(** The loop over the sections: the address of the table once it is found, and
    that of the section behind it.  [None] is a variable without a value. *)
Fixpoint find_sections (n : nat) (h : ImageHeader) (strings : list Z) (i : Z) (eh : option Z) f
    : result (option Z * option Z) :=
  match n with
  | O => Ok (eh, None)
  | S n' =>
      let '(s, f) := section_header h i f in
      match eh with
      | Some _ => Ok (eh, Some (sh_addr s))
      | None =>
          c ← cmp_cstr (drop (Z.to_nat (sh_name s)) strings) (EH_FRAME ++ [0]);
          find_sections n' h strings (i + 1) (if c =? 0 then Some (sh_addr s) else None) f
      end
  end.

(** [prepare_exceptions]: the two arguments of [init_unwinding]. *)
Definition prepare_exceptions f : result (Z * Z) :=
  let '(_, hdr, f) := file_pread 64 0 f in
  let h := read_image_header hdr in
  let '(names, f) := section_header h (shstrndx h) f in
  let '(_, strings, f) := file_pread (sh_size names) (sh_offset names) f in
  '(eh, next) ← find_sections (Z.to_nat (shnum h - 1)) h strings 1 None f;
  eh ← get Uninitialised eh;
  next ← get Uninitialised next;
  Ok (eh, next).
End search.

(** ** Comparing names *)

Lemma cmp_cstr_spec a b l r :
  is_cstr a l → is_cstr b r → Forall (fits 8) a → Forall (fits 8) b →
  ∃ v, cmp_cstr l r = Ok v ∧ (v = 0 ↔ a = b).
Proof.
  intros [Ha [ra ->]] [Hb [rb ->]] Fa. revert b Hb.
  induction a as [|x a IH]; intros [|y b] Hb Fb; cbn [app cmp_cstr].
  - by exists 0.
  - apply Forall_cons in Hb as [Hy _]. rewrite (proj2 (Z.eqb_neq y 0) Hy). cbn. by exists (-1).
  - apply Forall_cons in Ha as [Hx _]. rewrite (proj2 (Z.eqb_neq x 0) Hx). cbn. by exists 1.
  - apply Forall_cons in Ha as [Hx Ha], Hb as [Hy Hb], Fa as [Fx Fa], Fb as [Fy Fb].
    rewrite (proj2 (Z.eqb_neq x 0) Hx), (proj2 (Z.eqb_neq y 0) Hy). cbn [negb andb].
    destruct (Z.eqb_spec x y) as [->|Hne].
    + destruct (IH Ha Fa b Hb Fb) as (v & -> & Hv). exists v. split; [done|]. rewrite Hv. split; congruence.
    + eexists. split; [done|]. split; [|congruence]. intros E. exfalso. apply Hne.
      unfold swrap in E. cbv zeta in E. unfold fits in *. change (2 ^ 8) with 256 in *.
      rewrite !Z.mod_small in E by lia. change (2 ^ (8 - 1)) with 128 in E. repeat case_match; lia.
Qed.

Lemma cstr_unique a b l : is_cstr a l → is_cstr b l → a = b.
Proof.
  intros [Ha [ra ->]] [Hb [rb E]]. revert b Hb E. induction a as [|x a IH]; intros [|y b] Hb E; cbn in E.
  - done.
  - apply Forall_cons in Hb as [Hy _]. congruence.
  - apply Forall_cons in Ha as [Hx _]. congruence.
  - injection E as -> E. apply Forall_cons in Ha as [_ Ha], Hb as [_ Hb]. f_equal. by apply IH.
Qed.

(** ** What the search finds *)

Section found.
Context {F : Type} (data : list Z) `{FileLaws F data}.
Implicit Types (f : F).

(** The header, the section headers and the section names of the image. *)
Definition img : ImageHeader := read_image_header (take 64 data).
Definition section (i : Z) : Elf64_Shdr := read_section_header (take 64 (drop (Z.to_nat (shoff img + i * 64)) data)).
Definition names : list Z :=
  let s := section (shstrndx img) in take (Z.to_nat (sh_size s)) (drop (Z.to_nat (sh_offset s)) data).

(** The section headers and the names are inside the file, and the names are C
    strings of the table. *)
Record sections_ok : Prop := {
  io_bytes : Forall (fits 8) data;
  io_header : 64 ≤ Z.of_nat (length data) < 2 ^ 62;
  io_sections : shoff img + Z.max (shnum img) (shstrndx img + 1) * 64 ≤ Z.of_nat (length data);
  io_names : sh_size (section (shstrndx img)) < 2 ^ 31 ∧
    sh_offset (section (shstrndx img)) + sh_size (section (shstrndx img)) ≤ Z.of_nat (length data);
  io_strings : ∀ i, 1 ≤ i < shnum img → ∃ nm, is_cstr nm (drop (Z.to_nat (sh_name (section i))) names) }.

(** Section [i] is called [nm]. *)
Definition named (i : Z) (nm : list Z) : Prop := is_cstr nm (drop (Z.to_nat (sh_name (section i))) names).

Lemma section_header_spec f p i :
  sections_ok → holds f p → 0 ≤ i < Z.max (shnum img) (shstrndx img + 1) →
  ∃ f', section_header img i f = (section i, f') ∧ holds f' p.
Proof.
  intros [Hby Hlen Hsec _ _] Hf Hi.
  assert (0 ≤ shoff img) as Hoff.
  { pose proof (field_fits (take 64 data) 40 8 ltac:(by apply Forall_take)) as [? _]. done. }
  unfold section_header. rewrite (wrap_small 64) by (unfold fits; lia).
  destruct (pread_law f p 64 (shoff img + i * 64) Hf) as (f' & -> & Hf'); [lia..|]. by exists f'.
Qed.

(** The loop, before the table is found. *)
Lemma find_sections_spec f p n i k :
  sections_ok → holds f p → 1 ≤ i ≤ k → k < shnum img → (Z.to_nat (shnum img - i) = n)%nat →
  named k EH_FRAME → (∀ j, i ≤ j < k → ¬ named j EH_FRAME) →
  find_sections n img names i None f =
    Ok (Some (sh_addr (section k)), if k + 1 <? shnum img then Some (sh_addr (section (k + 1))) else None).
Proof.
  intros Hok. revert f i. induction n as [|n IH]; intros f i Hf Hi Hk Hn Hname Hbefore; [lia|]. cbn [find_sections].
  destruct (section_header_spec f p i Hok Hf) as (f1 & -> & Hf1); [lia|].
  destruct (io_strings Hok i) as [nm Hnm]; [lia|].
  assert (Hb : Forall (fits 8) nm).
  { destruct Hnm as [_ [rest E]]. assert (Forall (fits 8) (nm ++ 0 :: rest)) as [? _]%Forall_app; [|done].
    rewrite <- E. by apply Forall_drop, Forall_take, Forall_drop, io_bytes. }
  destruct (cmp_cstr_spec nm EH_FRAME _ (EH_FRAME ++ [0]) Hnm) as (v & -> & Hv);
    [split; [by repeat constructor|by exists []]|done|by apply (bool_decide_unpack _)|]. rewrite bind_Ok.
  destruct (decide (i = k)) as [->|Hne].
  - assert (nm = EH_FRAME) as -> by (eapply cstr_unique; [exact Hnm|exact Hname]). rewrite (proj2 Hv) by done. cbn [Z.eqb].
    destruct n as [|n]; cbn [find_sections].
    + by rewrite (proj2 (Z.ltb_ge _ _)) by lia.
    + destruct (section_header_spec f1 p (k + 1) Hok Hf1) as (f2 & -> & _); [lia|]. by rewrite (proj2 (Z.ltb_lt _ _)) by lia.
  - assert (v ≠ 0) as Hv0 by (intros E%Hv; subst nm; apply (Hbefore i); [lia|done]).
    rewrite (proj2 (Z.eqb_neq v 0) Hv0). apply (IH f1 (i + 1)); [done|lia..|done|]. intros j Hj. apply Hbefore. lia.
Qed.

(** The bounds of the frame table are found: the addresses of the first section
    called .eh_frame and of the section behind it.  When it is the last section,
    the end of the table is a variable that was never set. *)
Theorem unwind_tables_found f p k :
  sections_ok → holds f p → 1 ≤ k < shnum img → named k EH_FRAME → (∀ j, 1 ≤ j < k → ¬ named j EH_FRAME) →
  prepare_exceptions f =
    if k + 1 <? shnum img then Ok (sh_addr (section k), sh_addr (section (k + 1))) else Err Uninitialised.
Proof.
  intros Hok Hf Hk Hname Hbefore. pose proof Hok as [Hby Hlen Hsec [Hsz Hend] _]. unfold prepare_exceptions.
  destruct (pread_law f p 64 0 Hf) as (f1 & -> & Hf1); [lia..|].
  change (read_image_header (take (Z.to_nat 64) (drop (Z.to_nat 0) data))) with img. cbv zeta.
  assert (Hst : 0 ≤ shstrndx img).
  { pose proof (field_fits (take 64 data) 62 2 ltac:(by apply Forall_take)) as [? _]. done. }
  destruct (section_header_spec f1 p (shstrndx img) Hok Hf1) as (f2 & -> & Hf2); [lia|].
  set (st := section (shstrndx img)) in *.
  assert (Hbs : Forall (fits 8) (take 64 (drop (Z.to_nat (shoff img + shstrndx img * 64)) data)))
    by by apply Forall_take, Forall_drop.
  pose proof (field_fits _ 32 8 Hbs) as [Hs0 _]. pose proof (field_fits _ 24 8 Hbs) as [Ho0 _].
  destruct (pread_law f2 p (sh_size st) (sh_offset st) Hf2) as (f3 & -> & Hf3); [done|split; done|done|].
  change (take (Z.to_nat (sh_size st)) (drop (Z.to_nat (sh_offset st)) data)) with names.
  rewrite (find_sections_spec f3 p _ 1 k) by (done || lia). rewrite bind_Ok.
  by destruct (k + 1 <? shnum img).
Qed.
End found.

(** ** Witness *)

Definition le_bytes (n : nat) (v : Z) : list Z := Z_to_little_endian (Z.of_nat n) 8 v.
Definition sample_section (name addr offset size : Z) : list Z :=
  le_bytes 4 name ++ replicate 12 0 ++ le_bytes 8 addr ++ le_bytes 8 offset ++ le_bytes 8 size ++ replicate 24 0.

(** Three sections: the empty one, .eh_frame and the names. *)
Definition sample_kernel : list Z :=
  replicate 40 0 ++ le_bytes 8 64 ++ replicate 12 0 ++ le_bytes 2 3 ++ le_bytes 2 2 ++
  sample_section 0 0 0 0 ++ sample_section 1 0x1000 0 0 ++ sample_section 11 0x2000 256 14 ++
  [0] ++ EH_FRAME ++ [0; 46; 120; 0].

Lemma sample_sections_ok : sections_ok sample_kernel.
Proof.
  split.
  - by apply (bool_decide_unpack _).
  - vm_compute. by split.
  - vm_compute. discriminate.
  - split; vm_compute; [reflexivity|discriminate].
  - intros i Hi. assert (shnum (img sample_kernel) = 3) as Hn by reflexivity. rewrite Hn in Hi.
    assert (i = 1 ∨ i = 2) as [-> | ->] by lia.
    + exists EH_FRAME. split; [by repeat constructor|]. by exists [46; 120; 0].
    + exists [46; 120]. split; [by repeat constructor|]. by exists [].
Qed.

Lemma unwind_tables_found_witness : prepare_exceptions (MkFile sample_kernel 0) = Ok (0x1000, 0x2000).
Proof.
  rewrite (unwind_tables_found sample_kernel (MkFile sample_kernel 0) 0 1 sample_sections_ok).
  - vm_compute. reflexivity.
  - split; reflexivity.
  - assert (shnum (img sample_kernel) = 3) as -> by reflexivity. lia.
  - split; [by repeat constructor|]. by exists [46; 120; 0].
  - intros j Hj. lia.
Defined.
