(* ===== verification/Boot.v ===== *)
(** * The devices of the machine at start

    The order in which arch/x86/devices.cpp creates and registers the interrupt
    controllers, the timers, the consoles and the keyboard, with the look-ups by
    class and by name that the later ones make of the earlier ones. *)

From S2P Require Import Prelude Define CppList CppMap CppString Devices Console Dt Irq Ata.
Local Open Scope Z_scope.

(** ** The device classes *)

Definition ROOT : Z := 0.
Definition RootDeviceClass : DeviceClass := MkClass None [] 0.
Definition LAPIC_CLASS : Z := 1.
Definition LAPICDeviceClass : DeviceClass := MkClass (Some ROOT) [108; 97; 112; 105; 99] 0.             (* lapic *)
Definition IOAPIC_CLASS : Z := 2.
Definition IOAPICDeviceClass : DeviceClass := MkClass (Some ROOT) [105; 111; 97; 112; 105; 99] 0.       (* ioapic *)
Definition TIMER_CLASS : Z := 3.
Definition TimerDeviceClass : DeviceClass := MkClass (Some ROOT) [116; 105; 109; 101; 114] 0.           (* timer *)
Definition PIT_CLASS : Z := 4.
Definition PITDeviceClass : DeviceClass := MkClass (Some TIMER_CLASS) [112; 105; 116] 0.                (* pit *)
Definition LAPIC_TIMER_CLASS : Z := 5.
Definition LAPICTimerDeviceClass : DeviceClass :=
  MkClass (Some TIMER_CLASS) [108; 97; 112; 105; 99; 45; 116; 105; 109; 101; 114] 0.                   (* lapic-timer *)
Definition CONSOLE_CLASS : Z := 6.
Definition ConsoleDeviceClass : DeviceClass := MkClass (Some ROOT) [99; 111; 110; 115; 111; 108; 101] 0. (* console *)
Definition PC_CLASS : Z := 7.
Definition PhysicalConsoleDeviceClass : DeviceClass := MkClass (Some CONSOLE_CLASS) [112; 99] 0.        (* pc *)
Definition VGA_CLASS : Z := 8.
Definition VGAConsoleDeviceClass : DeviceClass := MkClass (Some PC_CLASS) [118; 103; 97] 0.             (* vga *)
Definition KBD_CLASS : Z := 9.
Definition KeyboardDeviceClass : DeviceClass := MkClass (Some ROOT) [107; 98; 100] 0.                   (* kbd *)
Definition TTY_CLASS : Z := 10.
Definition TerminalDeviceClass : DeviceClass := MkClass (Some ROOT) [116; 116; 121] 0.                  (* tty *)
Definition VC_CLASS : Z := 11.
Definition VirtualConsoleDeviceClass : DeviceClass := MkClass (Some CONSOLE_CLASS) [118; 99] 0.         (* vc *)

(** The classes that the static constructors have made. *)
Definition boot_classes : gmap Z DeviceClass :=
  list_to_map [(ROOT, RootDeviceClass); (LAPIC_CLASS, LAPICDeviceClass); (IOAPIC_CLASS, IOAPICDeviceClass);
    (TIMER_CLASS, TimerDeviceClass); (PIT_CLASS, PITDeviceClass); (LAPIC_TIMER_CLASS, LAPICTimerDeviceClass);
    (CONSOLE_CLASS, ConsoleDeviceClass); (PC_CLASS, PhysicalConsoleDeviceClass); (VGA_CLASS, VGAConsoleDeviceClass);
    (KBD_CLASS, KeyboardDeviceClass); (TTY_CLASS, TerminalDeviceClass); (VC_CLASS, VirtualConsoleDeviceClass)].

(** ** The model *)

(** The device manager with the address of the next object, and the hardware. *)
Record Boot := MkBoot {
  b_dm : DeviceManager; b_next : Z; b_irqs : IRQManager; b_lapic : gmap Z Z; b_timer_irq : option Z;
  b_ioapic : IOAPIC; b_frequency : Z }.

Definition put_dm (dm : DeviceManager) (next : Z) (b : Boot) : Boot :=
  MkBoot dm next (b_irqs b) (b_lapic b) (b_timer_irq b) (b_ioapic b) (b_frequency b).

Section start.
(** The bytes of new strings, and the two interrupt handlers. *)
Context (junk timer_handler keyboard_handler : Z).

(** [new] and [register_device]: the device gets its name before [init] runs. *)
Definition create (cls : Z) (init : Z → Boot → result (bool * Boot)) (b : Boot) : result (bool * Z * Boot) :=
  let dm := b_dm b in
  let d := b_next b in
  '(_, dm) ← register_device junk (MkDm (devices dm) (<[d := MkDev [] cls None]> (device_objects dm)) (classes dm)) d true;
  '(ok, b) ← init d (put_dm dm (d + 1) b);
  Ok (ok, d, b).

(** [Device::init]. *)
Definition default_init (_ : Z) (b : Boot) : result (bool * Boot) := Ok (true, b).

(** [LAPIC::init] and [IOAPIC::init] of [Irq], on this state; [polls] is what
    the command register reads. *)
Definition init_lapic (polls : list Z) (_ : Z) (b : Boot) : result (bool * Boot) :=
  '(q, r, m) ← lapic_init polls (b_lapic b) (b_irqs b);
  Ok (bool_decide (is_Some (q : option Z)), MkBoot (b_dm b) (b_next b) m r q (b_ioapic b) (b_frequency b)).

Definition init_ioapic (_ : Z) (b : Boot) : result (bool * Boot) :=
  '(ok, c) ← ioapic_init (b_ioapic b);
  Ok (ok, MkBoot (b_dm b) (b_next b) (b_irqs b) (b_lapic b) (b_timer_irq b) c (b_frequency b)).

(** [LAPICTimer::init]; [ticks] is the result of the measurement. *)
Definition init_lapic_timer (ticks : Z) (d : Z) (b : Boot) : result (bool * Boot) :=
  lapic ← try_get_device_by_class (b_dm b) LAPIC_CLASS;
  match lapic with
  | None => Ok (false, b)
  | Some _ =>
      q ← get NullDeref (b_timer_irq b);
      m ← attach_handler q (Some timer_handler) d (b_irqs b);
      let r := set_timer_initial_count 1 (set_timer_divide 3 (b_lapic b)) in
      Ok (true, MkBoot (b_dm b) (b_next b) m r (b_timer_irq b) (b_ioapic b) (calibrate ticks))
  end.

(** [timer_init]; [features] is the rdx of cpuid, [apic_base] the machine-specific
    register and [ioapic_base] what the firmware tables said. *)
Definition timer_init (features apic_base ioapic_base : Z) (polls : list Z) (ticks : Z) (b : Boot) : result (bool * Boot) :=
  if Z.land features (Z.shiftl 1 9) =? 0 then Ok (false, b) else
  let lapic_base := Z.land apic_base (u64 (Z.lnot 0xfff)) in
  if lapic_base =? 0 then Ok (false, b) else
  _ ← pa_to_vpa lapic_base;
  '(ok, _, b) ← create LAPIC_CLASS (init_lapic polls) b;
  if negb (ok : bool) then Ok (false, b) else
  _ ← pa_to_vpa ioapic_base;
  '(ok, _, b) ← create IOAPIC_CLASS init_ioapic b;
  if negb (ok : bool) then Ok (false, b) else
  '(ok, _, b) ← create PIT_CLASS default_init b;
  if negb (ok : bool) then Ok (false, b) else
  '(ok, _, b) ← create LAPIC_TIMER_CLASS (init_lapic_timer ticks) b;
  if negb (ok : bool) then Ok (false, b) else
  Ok (true, MkBoot (b_dm b) (b_next b) (b_irqs b) (start_system_timer (b_frequency b) (b_lapic b)) (b_timer_irq b)
              (b_ioapic b) (b_frequency b)).

(** [Keyboard::keyboard_irq_handler]: reads the scan code and passes it on. *)
Definition keyboard_irq_handler {M} `{PortIO M} (m : M) (st : consoles) : result (M * consoles) :=
  let '(scancode, m) := __inb 0x60 m in
  st ← handle_key_event (s8 scancode) st;
  Ok (m, st).

(** [Keyboard::init]; the interrupt is used without a look at whether there is
    one. *)
Definition init_keyboard (d : Z) (b : Boot) : result (bool * Boot) :=
  lapic ← try_get_device_by_class (b_dm b) LAPIC_CLASS;
  match lapic with
  | None => Ok (false, b)
  | Some _ =>
      ioapic ← try_get_device_by_class (b_dm b) IOAPIC_CLASS;
      match ioapic with
      | None => Ok (false, b)
      | Some _ =>
          '(q, c, m) ← request_physical_irq true 1 (b_ioapic b) (b_irqs b);
          q ← get NullDeref q;
          m ← attach_handler q (Some keyboard_handler) d m;
          Ok (true, MkBoot (b_dm b) (b_next b) m (b_lapic b) (b_timer_irq b) c (b_frequency b))
      end
  end.

(** [console_init]. *)
Definition console_init (b : Boot) : result (bool * Boot) :=
  _ ← pa_to_vpa 0xb8000;
  '(ok, _, b) ← create VGA_CLASS default_init b;
  if negb (ok : bool) then Ok (false, b) else
  '(ok, _, b) ← create KBD_CLASS init_keyboard b;
  if negb (ok : bool) then Ok (false, b) else
  '(ok, tty0, b) ← create TTY_CLASS default_init b;
  if negb (ok : bool) then Ok (false, b) else
  '(ok, dm) ← add_device_alias (b_dm b) [99; 111; 110; 115; 111; 108; 101] tty0;
  let b := put_dm dm (b_next b) b in
  if negb (ok : bool) then Ok (false, b) else
  '(ok, _, b) ← create TTY_CLASS default_init b;
  if negb (ok : bool) then Ok (false, b) else
  '(ok, _, b) ← create VC_CLASS default_init b;
  if negb (ok : bool) then Ok (false, b) else
  '(ok, _, b) ← create VC_CLASS default_init b;
  if negb (ok : bool) then Ok (false, b) else
  Ok (true, b).

(** The look-ups of [activate_console], in its order: the devices that
    [Console.activate_console] connects, or nothing when one is missing. *)
Definition console_devices (dm : DeviceManager) : result (option (Z * Z * Z * Z * Z * Z)) :=
  pc0 ← try_get_device_by_class dm PC_CLASS;
  let vc0 := try_get_device_by_name dm [118; 99; 48] in
  let vc1 := try_get_device_by_name dm [118; 99; 49] in
  kbd0 ← try_get_device_by_class dm KBD_CLASS;
  let tty0 := try_get_device_by_name dm [116; 116; 121; 48] in
  let tty1 := try_get_device_by_name dm [116; 116; 121; 49] in
  Ok (pc0 ← pc0; vc0 ← vc0; vc1 ← vc1; kbd0 ← kbd0; tty0 ← tty0; tty1 ← tty1; Some (pc0, vc0, vc1, kbd0, tty0, tty1))%stdpp.
End start.

(** The manager after the static constructors. *)
Definition boot_manager : DeviceManager := MkDm empty_map ∅ boot_classes.

(** ** The programmable timer and the real-time clock *)

(** drivers/timer/pit.cpp; [stop], [reset] and [init_periodic] are empty. *)
Definition pit_start `{PortIO M} (m : M) : M :=
  let '(data, m) := __inb 0x61 m in
  let data := Z.land data 0xfe in
  let m := __outb 0x61 data m in
  __outb 0x61 (Z.lor data 1) m.

Definition pit_expired `{PortIO M} (m : M) : bool * M :=
  let '(expired, m) := __inb 0x61 m in (Z.land expired 0x20 =? 0, m).

Definition pit_init_oneshot `{PortIO M} (period : Z) (m : M) : M :=
  let '(data, m) := __inb 0x61 m in
  let m := __outb 0x61 (Z.lor (Z.land data 0xfd) 1) m in
  let m := __outb 0x43 0xb2 m in
  let m := __outb 0x42 period m in
  __outb 0x42 (Z.shiftr period 8) m.

(** [RTCTimePoint] and the buffer of the program, 16-bit numbers in the same
    order. *)
Record RTCTimePoint := MkTp { tp_seconds : Z; tp_minutes : Z; tp_hours : Z; tp_day_of_month : Z; tp_month : Z; tp_year : Z }.

Definition tod_buffer (tp : RTCTimePoint) : list Z :=
  concat (map (word_bytes 2) [tp_seconds tp; tp_minutes tp; tp_hours tp; tp_day_of_month tp; tp_month tp; tp_year tp]).

(** [RTCFile::pread] and [read]: the result and what is stored in the buffer;
    [tp] is what the clock says. *)
Definition rtc_pread (tp : RTCTimePoint) (size off : Z) : Z * list Z :=
  if size <? 12 then (0, []) else if negb (off =? 0) then (0, []) else (12, tod_buffer tp).
Definition rtc_read (tp : RTCTimePoint) (size : Z) : Z * list Z :=
  if size <? 12 then (0, []) else (12, tod_buffer tp).

(** What a program reads from the clock is the six numbers, in the order of the
    structure; [read] and [pread] at the start agree. *)
Theorem rtc_read_time tp size :
  12 ≤ size → fits 16 (tp_seconds tp) → fits 16 (tp_minutes tp) → fits 16 (tp_hours tp) → fits 16 (tp_day_of_month tp) →
  fits 16 (tp_month tp) → fits 16 (tp_year tp) →
  rtc_pread tp size 0 = rtc_read tp size ∧ (rtc_read tp size).1 = 12 ∧
  let b := (rtc_read tp size).2 in
  length b = 12%nat ∧
  map (λ i, ld_le 2 b (2 * i)) (seqZ 0 6) =
    map Ok [tp_seconds tp; tp_minutes tp; tp_hours tp; tp_day_of_month tp; tp_month tp; tp_year tp].
Proof.
  intros Hs H1 H2 H3 H4 H5 H6. unfold rtc_pread, rtc_read. rewrite (proj2 (Z.ltb_ge _ _)) by lia. split; [done|]. split; [done|].
  assert (Hw : ∀ v, fits 16 v → v mod 256 + 256 * (v / 256 mod 256 + 256 * 0) = v)
    by (unfold fits; intros v Hv; Z.to_euclidean_division_equations; lia).
  cbn [snd]. split; [done|]. destruct tp as [x1 x2 x3 x4 x5 x6]. cbn [tp_seconds tp_minutes tp_hours tp_day_of_month tp_month tp_year] in *.
  transitivity (map (λ v, Ok (v mod 256 + 256 * (v / 256 mod 256 + 256 * 0))) [x1; x2; x3; x4; x5; x6]); [reflexivity|].
  cbn [map]. by rewrite !Hw.
Qed.

(** ** The hardware steps *)

Lemma connect_frame i a m m' b : connect i a m = Ok m' → b ≠ a → irqs m' !! b = irqs m !! b.
Proof. unfold connect. intros Hc Hb. inv_result. by rewrite lookup_insert_ne. Qed.

Lemma attach_from_frame fuel i a m ok m' b : attach_from fuel i a m = Ok (ok, m') → b ≠ a → irqs m' !! b = irqs m !! b.
Proof.
  revert i. induction fuel as [|fuel IH]; intros i; cbn [attach_from]; [by intros [= _ <-]|].
  intros Hr Hb. inv_result. destruct a0; [by eapply IH|]. inv_result. by eapply connect_frame.
Qed.

(** A vector from 32 on that nobody has. *)
Definition free_vector (m : IRQManager) (k : nat) : Prop := (32 ≤ k < 256)%nat ∧ descriptors m !! k = Some None.

(** A new interrupt object gets a vector. *)
Lemma new_irq_attached kind m :
  mgr_ok m → (∃ k, free_vector m k) →
  let '(a, m1) := alloc_irq kind m in
  ∃ (k : nat) m', attach_irq (Some a) m1 = Ok (true, m') ∧ mgr_ok m' ∧ free_vector m k ∧
    descriptors m' = <[k := Some a]> (descriptors m) ∧ irqs m' !! a = Some (assign (new_IRQ kind) (Z.of_nat k)) ∧
    irqs m !! a = None ∧ ∀ b, b ≠ a → irqs m' !! b = irqs m !! b.
Proof.
  intros Hok [k0 [Hk0 Hfree]]. pose proof (alloc_irq_ok kind m Hok) as Ha.
  assert (Hframe : ∀ b, b ≠ next_irq m → irqs (alloc_irq kind m).2 !! b = irqs m !! b)
    by (intros b Hb; cbn; by rewrite lookup_insert_ne).
  unfold alloc_irq in *. destruct Ha as (Hok1 & _ & Hnone & Hq1 & Hd1 & Hno). cbn [snd] in Hframe.
  destruct (attach_irq_spec _ _ _ Hok1 Hq1 Hno) as [(k & m2 & Hk & Hn & _ & Hrun & Hok2 & _ & Hd2 & Hq2)|[Hall _]].
  - exists k, m2. split; [done|]. split; [done|]. rewrite Hd1 in *. split_and!; [done..|].
    intros b Hb. rewrite <- Hframe by done. by eapply attach_from_frame.
  - destruct (Hall k0 Hk0) as [b Hb]. rewrite Hd1 in Hb. congruence.
Qed.

Lemma lapic_init_ok polls r m :
  mgr_ok m → wait_delivery polls = Ok tt → (∃ k, free_vector m k) →
  ∃ a r' m' (k : nat), lapic_init polls r m = Ok (Some a, r', m') ∧ mgr_ok m' ∧ free_vector m k ∧
    descriptors m' = <[k := Some a]> (descriptors m) ∧
    irqs m' !! a = Some (assign (new_IRQ (LAPICIRQ LvtTimer)) (Z.of_nat k)).
Proof.
  intros Hok Hp Hfree. unfold lapic_init. rewrite Hp, bind_Ok. pose proof (new_irq_attached (LAPICIRQ LvtTimer) m Hok Hfree) as Ha.
  destruct (alloc_irq (LAPICIRQ LvtTimer) m) as [a m1]. destruct Ha as (k & m2 & -> & Hok2 & Hk & Hd & Hq & _).
  rewrite bind_Ok. cbn [negb]. rewrite Hq. ok_step. by eexists a, _, m2, k.
Qed.

Lemma ioapic_init_ok c : ∃ c', ioapic_init c = Ok (true, c') ∧ nr_irqs c' = u8 (Z.shiftr (ioapic_read 1 c) 16).
Proof.
  unfold ioapic_init. set (n := u8 _). pose proof (wrap_fits 8 (Z.shiftr (ioapic_read 1 c) 16) ltac:(lia)) as Hn. fold n in Hn.
  unfold fits in Hn. cbn [nr_irqs].
  destruct (for_range_total (λ _ c, nr_irqs c = n) 0 n (λ i c, store_redir_entry (u8 i) 0 0 c) (MkIo (io_regs c) n))
    as (c' & -> & Hc); [lia|done| |by exists c'].
  intros i c1 Hi Hc1. unfold store_redir_entry. rewrite (wrap_small 8 i) by (unfold fits; lia). rewrite Hc1, (proj2 (Z.ltb_lt _ _)) by lia.
  ok_step. by eexists.
Qed.

Lemma request_irq_ok phys c m :
  mgr_ok m → 0 ≤ phys < nr_irqs c → nr_irqs c < 256 → (∃ k, free_vector m k) →
  ∃ a c' m' (k : nat), request_physical_irq true phys c m = Ok (Some a, c', m') ∧ mgr_ok m' ∧ free_vector m k ∧
    descriptors m' = <[k := Some a]> (descriptors m) ∧
    irqs m' !! a = Some (assign (new_IRQ IOAPICIRQ) (Z.of_nat k)) ∧
    irqs m !! a = None ∧ ∀ b, b ≠ a → irqs m' !! b = irqs m !! b.
Proof.
  intros Hok Hp Hn Hfree. unfold request_physical_irq. cbn [negb]. rewrite Z.geb_leb, (proj2 (Z.leb_gt _ _)) by lia.
  pose proof (new_irq_attached IOAPICIRQ m Hok Hfree) as Ha. destruct (alloc_irq IOAPICIRQ m) as [a m1].
  destruct Ha as (k & m2 & -> & Hok2 & Hk & Hd & Hq & Hnone & Hframe). rewrite bind_Ok. cbn [negb]. rewrite Hq. ok_step.
  unfold store_redir_entry. rewrite (wrap_small 8 phys) by (unfold fits; lia). rewrite (proj2 (Z.ltb_lt _ _)) by lia.
  ok_step. rewrite bind_Ok. by eexists a, _, m2, k.
Qed.

(** ** The start *)

Section boot.
Context (junk timer_handler keyboard_handler : Z).

(** The manager after the registration of a new device. *)
Definition registered (cls d : Z) (dm : DeviceManager) : DeviceManager :=
  match register_device junk (MkDm (devices dm) (<[d := MkDev [] cls None]> (device_objects dm)) (classes dm)) d true with
  | Ok (_, dm) => dm
  | Err _ => dm
  end.

Lemma create_step d n cls init b :
  b_next b = d → d + 1 = n →
  (∃ ok dm, register_device junk (MkDm (devices (b_dm b)) (<[d := MkDev [] cls None]> (device_objects (b_dm b)))
              (classes (b_dm b))) d true = Ok (ok, dm)) →
  create junk cls init b = ('(ok, b') ← init d (put_dm (registered cls d (b_dm b)) n b); Ok (ok, d, b')).
Proof. intros <- <- (ok & dm & E). unfold create, registered. cbv zeta. by rewrite E. Qed.

Lemma create_plain d n cls b :
  b_next b = d → d + 1 = n →
  (∃ ok dm, register_device junk (MkDm (devices (b_dm b)) (<[d := MkDev [] cls None]> (device_objects (b_dm b)))
              (classes (b_dm b))) d true = Ok (ok, dm)) →
  create junk cls default_init b = Ok (true, d, put_dm (registered cls d (b_dm b)) n b).
Proof. intros Hd Hn Hr. by rewrite (create_step d n). Qed.

(** The managers after the timers and after the consoles. *)
Definition timer_devices : DeviceManager :=
  registered LAPIC_TIMER_CLASS 103 (registered PIT_CLASS 102 (registered IOAPIC_CLASS 101 (registered LAPIC_CLASS 100 boot_manager))).
Definition keyboard_devices : DeviceManager := registered KBD_CLASS 105 (registered VGA_CLASS 104 timer_devices).

#[local] Strategy 1000 [registered].

(** Runs a creation whose device manager is known. *)
Ltac create_device d n :=
  rewrite (create_step d n) by (done || (eexists _, _; vm_compute; reflexivity)); cbn [b_next b_dm put_dm].

Ltac create_default d n :=
  rewrite (create_plain d n) by (done || (eexists _, _; vm_compute; reflexivity)); rewrite bind_Ok; cbn [negb b_next b_dm put_dm].

Lemma timer_init_ok features apic_base ioapic_base polls ticks m r c :
  mgr_ok m → (∃ k, free_vector m k) → wait_delivery polls = Ok tt →
  Z.land features (Z.shiftl 1 9) ≠ 0 → 0 < Z.land apic_base (u64 (Z.lnot 0xfff)) < 2 ^ 32 → 0 ≤ ioapic_base < 2 ^ 32 →
  ∃ a m' r' c' f (k : nat),
    timer_init junk timer_handler features apic_base ioapic_base polls ticks (MkBoot boot_manager 100 m r None c 0) =
      Ok (true, MkBoot timer_devices 104 m' r' (Some a) c' f) ∧
    mgr_ok m' ∧ free_vector m k ∧ descriptors m' = <[k := Some a]> (descriptors m) ∧
    irqs m' !! a = Some (attach (assign (new_IRQ (LAPICIRQ LvtTimer)) (Z.of_nat k)) (Some timer_handler) 103) ∧
    nr_irqs c' = u8 (Z.shiftr (ioapic_read 1 c) 16).
Proof.
  intros Hok Hfree Hp Hf Hb Hi. unfold timer_init. rewrite (proj2 (Z.eqb_neq _ _) Hf). cbv zeta.
  rewrite (proj2 (Z.eqb_neq (Z.land apic_base _) 0)) by lia. rewrite (pa_to_vpa_Ok (Z.land apic_base _)), bind_Ok by lia.
  create_device 100 101. unfold init_lapic at 1. cbn [b_lapic b_irqs put_dm].
  destruct (lapic_init_ok polls r m Hok Hp Hfree) as (a & r1 & m1 & k & -> & Hok1 & Hk & Hd1 & Hq1).
  rewrite !bind_Ok. rewrite bool_decide_true by (by eexists). cbn [negb].
  rewrite (pa_to_vpa_Ok ioapic_base), bind_Ok by lia.
  create_device 101 102. unfold init_ioapic at 1. cbn [b_ioapic put_dm].
  destruct (ioapic_init_ok c) as (c1 & -> & Hc1). rewrite !bind_Ok. cbn [negb].
  create_default 102 103.
  create_device 103 104. unfold init_lapic_timer at 1. cbn [b_dm b_timer_irq put_dm].
  change (registered LAPIC_TIMER_CLASS 103 _) with timer_devices.
  assert (try_get_device_by_class timer_devices LAPIC_CLASS = Ok (Some 100)) as -> by (vm_compute; reflexivity).
  rewrite bind_Ok. ok_step. cbn [b_irqs put_dm].
  destruct (attach_handler_ok a _ (Some timer_handler) 103 m1 Hok1 Hq1) as (m2 & Hat & Hok2 & _ & Hd2 & Hq2).
  rewrite Hat, !bind_Ok. cbn [negb]. eexists a, m2, _, c1, _, k. split; [reflexivity|]. split; [done|]. split; [done|].
  split; [by rewrite Hd2, Hd1|]. split; [exact Hq2|exact Hc1].
Qed.

(** The manager when the consoles are there; the first terminal has an alias. *)
Definition console_alias (dm : DeviceManager) : DeviceManager :=
  match add_device_alias dm [99; 111; 110; 115; 111; 108; 101] 106 with Ok (_, dm) => dm | Err _ => dm end.
Definition booted_devices : DeviceManager :=
  registered VC_CLASS 109 (registered VC_CLASS 108 (registered TTY_CLASS 107
    (console_alias (registered TTY_CLASS 106 keyboard_devices)))).

Lemma console_init_ok m r t c f :
  mgr_ok m → (∃ k, free_vector m k) → 1 < nr_irqs c < 256 →
  ∃ a m' c' (k : nat), console_init junk keyboard_handler (MkBoot timer_devices 104 m r t c f) =
      Ok (true, MkBoot booted_devices 110 m' r t c' f) ∧
    mgr_ok m' ∧ free_vector m k ∧ descriptors m' = <[k := Some a]> (descriptors m) ∧
    irqs m' !! a = Some (attach (assign (new_IRQ IOAPICIRQ) (Z.of_nat k)) (Some keyboard_handler) 105) ∧
    irqs m !! a = None ∧ ∀ b, b ≠ a → irqs m' !! b = irqs m !! b.
Proof.
  intros Hok Hfree Hn. unfold console_init. rewrite (pa_to_vpa_Ok 0xb8000), bind_Ok by lia.
  create_default 104 105.
  create_device 105 106. unfold init_keyboard at 1. cbn [b_dm put_dm].
  change (registered KBD_CLASS 105 (registered VGA_CLASS 104 timer_devices)) with keyboard_devices.
  assert (try_get_device_by_class keyboard_devices LAPIC_CLASS = Ok (Some 100)) as -> by (vm_compute; reflexivity).
  assert (try_get_device_by_class keyboard_devices IOAPIC_CLASS = Ok (Some 101)) as E by (vm_compute; reflexivity).
  rewrite bind_Ok, E, bind_Ok. clear E. cbn [b_irqs b_ioapic put_dm].
  destruct (request_irq_ok 1 c m Hok ltac:(lia) ltac:(lia) Hfree) as (a & c1 & m1 & k & -> & Hok1 & Hk & Hd1 & Hq1 & Hnone & Hframe).
  rewrite bind_Ok. ok_step.
  destruct (attach_handler_ok a _ (Some keyboard_handler) 105 m1 Hok1 Hq1) as (m2 & Hat & Hok2 & _ & Hd2 & Hq2).
  rewrite Hat, !bind_Ok. cbn [negb].
  create_default 106 107.
  assert (add_device_alias (registered TTY_CLASS 106 keyboard_devices) [99; 111; 110; 115; 111; 108; 101] 106 =
          Ok (true, console_alias (registered TTY_CLASS 106 keyboard_devices))) as -> by (vm_compute; reflexivity).
  rewrite bind_Ok. cbn [negb].
  create_default 107 108.
  create_default 108 109.
  create_default 109 110.
  eexists a, m2, c1, k. split; [reflexivity|]. split_and!; [done|done|by rewrite Hd2, Hd1|exact Hq2|exact Hnone|].
  intros b Hb. rewrite <- Hframe by done. unfold attach_handler in Hat. rewrite Hq1 in Hat. injection Hat as <-. cbn.
  by rewrite lookup_insert_ne.
Qed.

(** A vector whose object has a handler calls it and signals the end. *)
Lemma vector_calls (k : nat) a q h p m :
  (k < 256)%nat → descriptors m !! k = Some (Some a) → irqs m !! a = Some (attach q (Some h) p) →
  irq_kind q = IOAPICIRQ ∨ irq_kind q = LAPICIRQ LvtTimer →
  handle_raw_irq (Z.of_nat k) m = Ok (MkEffect (Some (h, p)) true).
Proof.
  intros Hk Hd Hq Hkind. unfold handle_raw_irq. rewrite (proj2 (Z.ltb_lt _ _)) by (unfold MAX_IRQS; lia). ok_step.
  rewrite wrap_small by (unfold fits; lia). rewrite (rd_Ok _ _ (Some a)) by (lia || by rewrite Nat2Z.id).
  rewrite bind_Ok, Hq. ok_step. unfold handle, attach. cbn [irq_kind]. by destruct Hkind as [-> | ->].
Qed.

(** The devices come up in an order that works: with a local controller, an I/O
    controller of at least two lines and two free vectors, [timer_init] and then
    [console_init] succeed; every device that [activate_console] looks up by name
    or class is the one that was made for it; "console" is the first terminal; and
    the timer and the keyboard each have a vector that calls their handler with
    their device and signals the end of the interrupt. *)
Theorem boot_devices_ready features apic_base ioapic_base polls ticks m r c j1 j2 :
  mgr_ok m → free_vector m j1 → free_vector m j2 → j1 ≠ j2 → wait_delivery polls = Ok tt →
  Z.land features (Z.shiftl 1 9) ≠ 0 → 0 < Z.land apic_base (u64 (Z.lnot 0xfff)) < 2 ^ 32 → 0 ≤ ioapic_base < 2 ^ 32 →
  1 < u8 (Z.shiftr (ioapic_read 1 c) 16) →
  ∃ b1 b2, timer_init junk timer_handler features apic_base ioapic_base polls ticks (MkBoot boot_manager 100 m r None c 0) =
      Ok (true, b1) ∧
    console_init junk keyboard_handler b1 = Ok (true, b2) ∧
    console_devices (b_dm b2) = Ok (Some (104, 108, 109, 105, 106, 107)) ∧
    try_get_device_by_name (b_dm b2) [99; 111; 110; 115; 111; 108; 101] = Some 106 ∧
    ∃ kt kk, kt ≠ kk ∧ handle_raw_irq kt (b_irqs b2) = Ok (MkEffect (Some (timer_handler, 103)) true) ∧
      handle_raw_irq kk (b_irqs b2) = Ok (MkEffect (Some (keyboard_handler, 105)) true).
Proof.
  intros Hok Hj1 Hj2 Hne Hp Hf Hb Hi Hn.
  destruct (timer_init_ok features apic_base ioapic_base polls ticks m r c Hok (ex_intro _ _ Hj1) Hp Hf Hb Hi)
    as (a & m1 & r1 & c1 & f & k & Htimer & Hok1 & [Hk Hkn] & Hd1 & Hq1 & Hc1).
  assert (Hfree : ∃ k', free_vector m1 k').
  { exists (if decide (j1 = k) then j2 else j1). destruct (decide (j1 = k)) as [->|Hjk]; unfold free_vector; rewrite Hd1.
    - by rewrite list_lookup_insert_ne.
    - rewrite list_lookup_insert_ne by congruence. exact Hj1. }
  pose proof (wrap_fits 8 (Z.shiftr (ioapic_read 1 c) 16) ltac:(lia)) as Hw. unfold fits in Hw.
  destruct (console_init_ok m1 r1 (Some a) c1 f Hok1 Hfree) as (a2 & m2 & c2 & k2 & Hcon & Hok2 & [Hk2 Hkn2] & Hd2 & Hq2 & Hnone & Hframe);
    [rewrite Hc1; lia|].
  eexists _, _. split; [exact Htimer|]. split; [exact Hcon|]. cbn [b_dm b_irqs].
  split; [vm_compute; reflexivity|]. split; [vm_compute; reflexivity|].
  assert (a ≠ a2) as Ha by congruence. pose proof (mo_len _ Hok) as Hlen.
  assert (Hk1 : descriptors m1 !! k = Some (Some a)) by (rewrite Hd1; apply list_lookup_insert_eq; lia).
  assert (k ≠ k2) as Hkk by congruence.
  exists (Z.of_nat k), (Z.of_nat k2). split; [lia|]. split.
  - eapply vector_calls; [lia| |rewrite Hframe by done; exact Hq1|by right]. rewrite Hd2. by rewrite list_lookup_insert_ne.
  - eapply vector_calls; [lia| |exact Hq2|by left]. rewrite Hd2. apply list_lookup_insert_eq. rewrite (mo_len _ Hok1). lia.
Qed.
End boot.

(** ** Witness *)

(** A manager without any vectors, and a controller with 24 lines. *)
Lemma boot_devices_ready_witness :
  ∃ b1 b2, timer_init 0 7 (Z.shiftl 1 9) 0xfee00900 0xfec00000 [0x1000; 0] (2 ^ 32 - 62500)
      (MkBoot boot_manager 100 (new_manager (MkIdt 0 []) 0) ∅ None (MkIo (<[1 := 0x170020]> ∅) 0) 0) = Ok (true, b1) ∧
    console_init 0 8 b1 = Ok (true, b2) ∧
    console_devices (b_dm b2) = Ok (Some (104, 108, 109, 105, 106, 107)).
Proof.
  destruct (boot_devices_ready 0 7 8 (Z.shiftl 1 9) 0xfee00900 0xfec00000 [0x1000; 0] (2 ^ 32 - 62500) (new_manager (MkIdt 0 []) 0) ∅
              (MkIo (<[1 := 0x170020]> ∅) 0) 32 33 (new_manager_ok (MkIdt 0 []) 0)) as (b1 & b2 & H1 & H2 & H3 & _).
  all: try (split; [lia|reflexivity]).
  - done.
  - reflexivity.
  - done.
  - vm_compute. by split.
  - reflexivity.
  - exists b1, b2. split; [exact H1|]. split; [exact H2|exact H3].
Defined.

Lemma rtc_read_time_witness :
  (rtc_read (MkTp 59 30 12 31 12 2024) 12).1 = 12 ∧
  ld_le 2 (rtc_read (MkTp 59 30 12 31 12 2024) 12).2 10 = Ok 2024.
Proof.
  destruct (rtc_read_time (MkTp 59 30 12 31 12 2024) 12) as (_ & Hn & _ & Hb); [lia|split; [discriminate|reflexivity]..|].
  split; [exact Hn|]. exact (f_equal (λ l, default (Err Hang) (l !! 5%nat)) Hb).
Defined.
