(* ===== verification/Startup.v ===== *)
(** * Start-up of the machine

    arch/x86/start.cpp, the initialisation of arch/x86/x86-arch.cpp, the boot modules
    (arch/x86/modules.cpp, kernel/module.cpp) and the report of a failed assertion
    (arch/x86/assert.cpp).  The stages of the start work on a state that is a parameter;
    those that have no file of their own are defined here. *)

From S2P Require Import Prelude Define PageAlloc PhysMem Vma MemInit Dt Irq.
Local Open Scope Z_scope.

(** ** Before the first stage *)

(** [zero_bss]; the section lies in the kernel's window. *)
Definition zero_bss (BSS_START BSS_END : Z) (m : memory) : result memory :=
  a ← translate_kva BSS_START (BSS_END - BSS_START);
  Ok (zero_bytes (Z.to_nat (BSS_END - BSS_START)) m a).

(** [eliminate_lower_mapping]: the first entry of the table in [cr3] is cleared. *)
Definition eliminate_lower_mapping (cr3 : Z) (m : memory) : result memory :=
  pml4 ← pa_to_kva cr3; kstore m pml4 0 0.

(** [run_static_constructors]: the functions of the array, called in order. *)
Definition run_static_constructors {T} (call : Z → T → result T) (init_array : list Z) (s : T) : result T :=
  for_each init_array call s.

(** ** Boot modules *)

(** [ModuleManager::LoadModule]. *)
Definition LoadModule (module_addr length : Z) : bool := false.

Definition load32 (m : memory) (va : Z) : result Z :=
  a ← translate va 4; Ok (little_endian_to_Z 8 (ld_bytes m a 4)).

(** [modules_init]: the loop over the 16-byte entries of the list. *)
Fixpoint load_modules (n : nat) (mods_addr i : Z) (m : memory) : result bool :=
  match n with
  | O => Ok true
  | S n' =>
      entry ← pa_to_vpa (u64 (mods_addr + 16 * i));
      mod_start ← load32 m entry;
      start_va ← pa_to_vpa mod_start;
      mod_end ← load32 m (u64 (entry + 4));
      end_va ← pa_to_vpa mod_end;
      if LoadModule start_va (u64 (end_va - start_va)) then load_modules n' mods_addr (i + 1) m else Ok false
  end.

Definition modules_init (mods_count mods_addr : Z) (m : memory) : result bool := load_modules (Z.to_nat mods_count) mods_addr 0 m.

(** ** Interrupt vectors of the system *)

Definition IRQ_GPF : Z := 0x0d.
Definition IRQ_KERNEL_SYSCALL : Z := 0x80.

(** [X86Arch::init_irq]; the results of the installations are not looked at. *)
Definition init_irq (junk : Z) (entry_points : list Z) (general_protection_fault trap_interrupt kernel_syscall_handler user_syscall_handler : Z)
    (m : IRQManager) : result (bool * IRQManager) :=
  '(ok, m) ← irq_init junk entry_points m;
  if negb (ok : bool) then Ok (false, m) else
  '(_, m) ← install_exception_handler IRQ_GPF (Some general_protection_fault) 0 m;
  '(_, m) ← install_exception_handler IRQ_TRAP (Some trap_interrupt) 0 m;
  '(_, m) ← install_software_handler IRQ_KERNEL_SYSCALL (Some kernel_syscall_handler) 0 m;
  '(_, m) ← install_software_handler IRQ_USER_SYSCALL (Some user_syscall_handler) 0 m;
  Ok (true, m).

(** ** The processor's tables *)

(** What [X86Arch::init] sets up: the tables with the lengths that were loaded for them,
    the task state and its selector, and the model-specific registers. *)
Record platform := MkPlatform {
  pl_gdt : GDT; gdtr_length : Z; pl_idt : IDT; idtr_length : Z; task_state : list Z; task_register : Z; msrs : gmap Z Z }.

Definition MSR_STAR : Z := 0xc0000081.
Definition MSR_LSTAR : Z := 0xc0000082.
Definition MSR_SFMASK : Z := 0xc0000084.

(** [__wrmsr]: the processor puts the two halves together. *)
Definition wrmsr (msr_id msr_value : Z) (p : platform) : platform :=
  let low := u32 (Z.land msr_value 0xffffffff) in
  let high := u32 (Z.shiftr msr_value 32) in
  MkPlatform (pl_gdt p) (gdtr_length p) (pl_idt p) (idtr_length p) (task_state p) (task_register p)
    (<[msr_id := Z.lor low (Z.shiftl high 32)]> (msrs p)).

(** [X86Arch::init]; [tss] is the address of the task state. *)
Definition arch_init (junk tss syscall_trap : Z) (p : platform) : result (bool * platform) :=
  '(len, g) ← gdt_init junk tss (pl_gdt p);
  match len with
  | None => Ok (false, MkPlatform g (gdtr_length p) (pl_idt p) (idtr_length p) (task_state p) (task_register p) (msrs p))
  | Some len =>
      let d := idt_init (pl_idt p) in
      t ← set_kernel_stack 0 (task_state p);
      let p := MkPlatform g len d (idt_length d) t 0x28 (msrs p) in
      let p := wrmsr MSR_STAR 0x18000800000000 p in
      let p := wrmsr MSR_LSTAR syscall_trap p in
      Ok (true, wrmsr MSR_SFMASK (Z.shiftl 1 9) p)
  end.

(** ** The stages *)

(** [cpu_init]. *)
Definition cpu_init {T} (s : T) : result (bool * T) := Ok (true, s).

(** The initialisations that [x86_init_top] calls. *)
Record stages (T : Type) := MkStages {
  st_arch : T → result (bool * T); st_mm : T → result (bool * T); st_irq : T → result (bool * T); st_pf : T → result T;
  st_acpi : T → result (bool * T); st_modules : T → result (bool * T); st_timer : T → result (bool * T);
  st_sched : T → result (bool * T); st_start : T → result T }.
Arguments st_arch {T}.
Arguments st_mm {T}.
Arguments st_irq {T}.
Arguments st_pf {T}.
Arguments st_acpi {T}.
Arguments st_modules {T}.
Arguments st_timer {T}.
Arguments st_sched {T}.
Arguments st_start {T}.

(** The processor is halted in [early_abort], or the kernel was started. *)
Inductive boot (T : Type) := Halted (s : T) | Started (s : T).
Arguments Halted {T}.
Arguments Started {T}.

Definition stage {T} (f : T → result (bool * T)) (next : T → result (boot T)) (s : T) : result (boot T) :=
  '(ok, s) ← f s; if (ok : bool) then next s else Ok (Halted s).

(** [x86_init_top] after the command line has been parsed. *)
Definition x86_init_top {T} (p : stages T) : T → result (boot T) :=
  stage (st_arch p) $ stage (st_mm p) $ stage (st_irq p) $ λ s, s ← st_pf p s;
  stage (st_acpi p) (stage cpu_init $ stage (st_modules p) $ stage (st_timer p) $ stage (st_sched p) $
    λ s, s ← st_start p s; Ok (Started s)) s.

(** [x86_init_bottom]: the consoles, then the other devices; it stops at a failure. *)
Definition x86_init_bottom {T} (console_init activate_console devices_init : T → result (bool * T)) (s : T) : result (bool * T) :=
  '(ok, s) ← console_init s;
  if negb (ok : bool) then Ok (false, s) else
  '(ok, s) ← activate_console s;
  if negb (ok : bool) then Ok (false, s) else
  '(ok, s) ← devices_init s;
  Ok (ok, s).

(** [devices_init]: the PCI bus, then the devices of the linker section, whose
    registrations are not checked. *)
Definition devices_init {T} (probe : T → result (bool * T)) (construct : Z → T → result T) (ctors : list Z) (s : T) : result (bool * T) :=
  '(ok, s) ← probe s;
  if negb (ok : bool) then Ok (false, s) else
  s ← for_each ctors construct s; Ok (true, s).

(** ** Failed assertions *)

(** The loop of [__assertion_failure]: the return addresses along the chain of frame
    pointers, up to a NULL pointer. *)
Fixpoint walk_frames (n : nat) (load : Z → result Z) (rbp : Z) : result (list Z) :=
  match n with
  | O => Ok []
  | S n' =>
      if rbp =? 0 then Ok [] else
      ret ← load (u64 (rbp + 8));
      rbp ← load rbp;
      l ← walk_frames n' load rbp; Ok (ret :: l)
  end.

Definition assertion_trace (load : Z → result Z) (rbp : Z) : result (list Z) := walk_frames 100 load rbp.

(** ** The lower mapping *)

(** The tables below the first one that a translation goes through. *)
Definition lower_tables (m : memory) (cr3 va : Z) : list Z :=
  let e4 := hw_entry m cr3 va 39 in
  let e3 := hw_entry m (hw_frame 12 e4) va 30 in
  let e2 := hw_entry m (hw_frame 12 e3) va 21 in
  [hw_frame 12 e4; hw_frame 12 e3; hw_frame 12 e2].

Lemma hw_frame_aligned e : ∃ p, hw_frame 12 e = p * 4096.
Proof. unfold hw_frame. by eexists. Qed.

Lemma hw_entry_other p m table va sh :
  table ≠ p * 4096 → (∃ q, table = q * 4096) → hw_entry (st64 m (p * 4096) 0) table va sh = hw_entry m table va sh.
Proof.
  intros Hne [q ->]. unfold hw_entry. apply ld64_st64_ne. pose proof (Z.mod_pos_bound (va / 2 ^ sh) 512).
  assert (p ≠ q) by congruence. lia.
Qed.

Lemma eliminate_Ok p m : 0 ≤ p < 2 ^ 19 → eliminate_lower_mapping (p * 4096) m = Ok (st64 m (p * 4096) 0).
Proof.
  intros Hp. pose proof (pgd_to_kva_Ok p Hp) as Hk. unfold pgd_to_kva, pgd_to_pa in Hk. rewrite pfn_to_pa_mul in Hk by lia.
  unfold eliminate_lower_mapping. rewrite Hk, bind_Ok. rewrite kstore_slot by lia. unfold slot. do 3 f_equal. lia.
Qed.

(** The identity mapping is gone after [eliminate_lower_mapping]: no address whose upper
    bits select the first entry can be translated, and all other translations are as
    before.  (No table below the first one is that table itself.) *)
Theorem lower_mapping_eliminated p m :
  0 ≤ p < 2 ^ 19 → (∀ va, va / 2 ^ 39 mod 512 ≠ 0 → p * 4096 ∉ lower_tables m (p * 4096) va) →
  ∃ m', eliminate_lower_mapping (p * 4096) m = Ok m' ∧
    ∀ va, hw_translate m' (p * 4096) va = if decide (va / 2 ^ 39 mod 512 = 0) then None else hw_translate m (p * 4096) va.
Proof.
  intros Hp Hsep. eexists. split; [by apply eliminate_Ok|]. intros va. case_decide as Hz.
  - unfold hw_translate. assert (hw_entry (st64 m (p * 4096) 0) (p * 4096) va 39 = 0) as ->; [|done].
    unfold hw_entry. rewrite Hz. replace (p * 4096 + 8 * 0) with (p * 4096) by lia. by apply ld64_st64_eq.
  - specialize (Hsep va Hz). unfold lower_tables in Hsep. cbv zeta in Hsep.
    assert (hw_entry (st64 m (p * 4096) 0) (p * 4096) va 39 = hw_entry m (p * 4096) va 39) as E4.
    { unfold hw_entry. apply ld64_st64_ne. pose proof (Z.mod_pos_bound (va / 2 ^ 39) 512). lia. }
    unfold hw_translate. rewrite E4. set (e4 := hw_entry m (p * 4096) va 39) in *.
    rewrite (hw_entry_other p m (hw_frame 12 e4) va 30); [|set_solver|apply hw_frame_aligned].
    set (e3 := hw_entry m (hw_frame 12 e4) va 30) in *. cbv zeta.
    rewrite (hw_entry_other p m (hw_frame 12 e3) va 21); [|set_solver|apply hw_frame_aligned].
    set (e2 := hw_entry m (hw_frame 12 e3) va 21) in *.
    by rewrite (hw_entry_other p m (hw_frame 12 e2) va 12); [|set_solver|apply hw_frame_aligned].
Qed.

(** ** Vectors *)

Lemma install_handler_other k n h p m ok m' (i : nat) b :
  mgr_ok m → install_handler k n h p m = Ok (ok, m') → i ≠ Z.to_nat (u8 n) → descriptors m !! i = Some (Some b) →
  irqs m' !! b = irqs m !! b.
Proof.
  intros Hok Hrun Hi Hb. pose proof (wrap_fits 8 n ltac:(lia)) as Hn. unfold fits in Hn. unfold install_handler in Hrun. cbv zeta in Hrun.
  destruct (mo_nr _ Hok _ _ Hb) as (qb & Hqb & Hnr).
  destruct (_ >=? _); [by simplify_eq|]. apply bind_Ok_inv in Hrun as (d & [_ Hd]%rd_Ok_inv & Hrun).
  apply bind_Ok_inv in Hrun as (m1 & Hm1 & Hrun). apply bind_Ok_inv in Hrun as (d1 & [_ Hd1]%rd_Ok_inv & Hrun).
  apply bind_Ok_inv in Hrun as (a & Ha & Hrun). apply bind_Ok_inv in Hrun as (m2 & Hm2 & Hrun). simplify_eq.
  destruct d1 as [a1|]; [|done]. injection Ha as <-.
  assert (irqs m1 !! b = irqs m !! b ∧ a1 ≠ b) as [E Hne].
  { destruct d as [a0|].
    - simplify_eq. split; [done|]. intros ->. destruct (mo_nr _ Hok _ _ Hd) as (q & Hq & Hnq). rewrite Hqb in Hq. simplify_eq. lia.
    - unfold alloc_irq, connect in Hm1. pose proof (mo_next _ Hok _ _ Hqb). apply bind_Ok_inv in Hm1 as (d' & [_ ->]%wr_Ok_inv & Hm1).
      simpl in Hm1. rewrite lookup_insert_eq in Hm1. simpl in Hm1. injection Hm1 as <-. simpl in *.
      rewrite !lookup_insert_ne by lia. split; [done|].
      rewrite list_lookup_insert_eq in Hd1 by (by eapply lookup_lt_Some). injection Hd1 as <-. lia. }
  unfold attach_handler in Hm2. inv_result. simpl. by rewrite lookup_insert_ne.
Qed.

(** The object of a vector has a handler. *)
Definition answers (m : IRQManager) (vh : nat * Z) : Prop :=
  ∃ a q, descriptors m !! fst vh = Some (Some a) ∧ irqs m !! a = Some q ∧ handler q = Some (snd vh) ∧ priv q = 0.

Lemma install_answers k (v : nat) h m l :
  mgr_ok m → Forall (answers m) l → (v < 256)%nat → v ∉ l.*1 →
  ∃ m', install_handler k (Z.of_nat v) (Some h) 0 m = Ok (true, m') ∧ mgr_ok m' ∧ idt m' = idt m ∧ Forall (answers m') ((v, h) :: l).
Proof.
  intros Hok Hl Hv Hnin. destruct (install_handler_ok k (Z.of_nat v) (Some h) 0 m Hok) as (m' & a & q & Hrun & Hok' & Hk & Hd & Hq & Hh & Hp).
  assert (Z.to_nat (u8 (Z.of_nat v)) = v) as Ev by (rewrite wrap_small by (unfold fits; lia); lia). rewrite Ev in Hd.
  exists m'. split_and!; [done|done|by destruct Hk as (_ & _ & ?)|]. constructor; [by exists a, q|].
  rewrite Forall_forall in Hl |- *. intros [w hw] Hin. destruct (Hl _ Hin) as (b & r & Hd' & Hq' & Hh' & Hp'). simpl in *.
  exists b, r. split_and!; [|rewrite <- Hq'|done|done].
  - by apply Hk.
  - eapply install_handler_other; [exact Hok|exact Hrun| |exact Hd']. rewrite Ev. intros ->. apply Hnin. by apply (list_elem_of_fmap_2 fst l (v, hw)).
Qed.

(** C26. The vectors of the system.  After [init_irq] a general protection fault, a
    breakpoint, the kernel's own system call and a system call of a program each call
    their handler; the gates of the breakpoint and of the program's system call are the
    only ones open to user code. *)
Theorem system_vectors junk entries d next gpf trap ksys usys :
  length entries = 256%nat → Forall (fits 64) entries →
  ∃ m, init_irq junk entries gpf trap ksys usys (new_manager d next) = Ok (true, m) ∧ mgr_ok m ∧
    (∀ v h, (v, h) ∈ [(IRQ_GPF, gpf); (IRQ_TRAP, trap); (IRQ_KERNEL_SYSCALL, ksys); (IRQ_USER_SYSCALL, usys)] →
       ∃ e, handle_raw_irq v m = Ok e ∧ called e = Some (h, 0)) ∧
    ∀ (i : nat) e, entries !! i = Some e → ∃ g, gate_at m i = Some g ∧ gate_offset g = e ∧ gate_present g = 1 ∧
      gate_dpl g = if (i =? 3)%nat || (i =? 0x81)%nat then 3 else 0.
Proof.
  intros Hl Hf. destruct (irq_init_spec junk entries d next Hl) as (m0 & Hm & Hok & _ & Hg & _). unfold init_irq. rewrite Hm, bind_Ok. cbn [negb].
  destruct (install_answers ExceptionIRQ 13 gpf m0 [] Hok ltac:(constructor)) as (m1 & H1 & Hok1 & Hi1 & Hl1); [lia|apply not_elem_of_nil|].
  destruct (install_answers ExceptionIRQ 3 trap m1 _ Hok1 Hl1) as (m2 & H2 & Hok2 & Hi2 & Hl2); [lia|set_solver|].
  destruct (install_answers SoftwareIRQ 0x80 ksys m2 _ Hok2 Hl2) as (m3 & H3 & Hok3 & Hi3 & Hl3); [lia|set_solver|].
  destruct (install_answers SoftwareIRQ 0x81 usys m3 _ Hok3 Hl3) as (m4 & H4 & Hok4 & Hi4 & Hl4); [lia|set_solver|].
  unfold install_exception_handler, install_software_handler, IRQ_GPF, IRQ_TRAP, IRQ_KERNEL_SYSCALL, IRQ_USER_SYSCALL.
  change (Z.of_nat 13) with 0x0d in H1. change (Z.of_nat 3) with 3 in H2. change (Z.of_nat 0x80) with 0x80 in H3. change (Z.of_nat 0x81) with 0x81 in H4.
  rewrite H1, bind_Ok, H2, bind_Ok, H3, bind_Ok, H4, bind_Ok. exists m4. split_and!; [done|done| |].
  - intros v h Hin. assert ((Z.to_nat v, h) ∈ [(0x81%nat, usys); (0x80%nat, ksys); (3%nat, trap); (13%nat, gpf)] ∧ 0 ≤ v) as [Hin' Hv].
    { repeat (apply elem_of_cons in Hin as [[= -> ->]|Hin]; [split; [set_solver|lia]|]). by apply elem_of_nil in Hin. }
    rewrite Forall_forall in Hl4. destruct (Hl4 _ Hin') as (a & q & Hd & Hq & Hh & Hp). simpl in Hd, Hh.
    destruct (raw_irq_calls m4 _ a q h Hok4 Hd Hq Hh) as (e & He & Hc). rewrite Z2Nat.id in He by done. exists e. by rewrite Hp in Hc.
  - intros i e He. eexists. split; [unfold gate_at; rewrite Hi4, Hi3, Hi2, Hi1; by apply Hg|].
    destruct (interrupt_gate_spec junk e 8 (if (i =? 3)%nat || (i =? 129)%nat then 3 else 0)) as (? & ? & ? & ? & ? & ?); [|done|by case_match|done].
    rewrite Forall_lookup in Hf. by eapply Hf.
Qed.

Lemma system_vectors_witness :
  ∃ m, init_irq 0 (seqZ 4096 256) 101 102 103 104 (new_manager (MkIdt 0 []) 1) = Ok (true, m) ∧
    (∃ e, handle_raw_irq 0x81 m = Ok e ∧ called e = Some (104, 0)) ∧ ∃ g, gate_at m 0x80 = Some g ∧ gate_dpl g = 0.
Proof.
  destruct (system_vectors 0 (seqZ 4096 256) (MkIdt 0 []) 1 101 102 103 104) as (m & Hm & _ & Hv & Hg).
  - reflexivity.
  - apply Forall_forall. intros e He%elem_of_seqZ. unfold fits. lia.
  - exists m. split; [exact Hm|]. split.
    + apply Hv. right. right. right. left.
    + destruct (Hg 0x80%nat (4096 + 0x80) ltac:(reflexivity)) as (g & Hg1 & _ & _ & Hg2). exists g. split; [exact Hg1|exact Hg2].
Defined.

(** A first table with an identity mapping and one entry for the kernel. *)
Definition lower_mem : memory := st64 (st64 ∅ (0x1000 + 8 * 0) 0x3003) (0x1000 + 8 * 511) 0x2003.

Lemma lower_mem_word q i : 0 ≤ i < 512 → ld64 lower_mem (q * 4096 + 8 * i) = 0 ∨ ld64 lower_mem (q * 4096 + 8 * i) = 0x3003 ∨ ld64 lower_mem (q * 4096 + 8 * i) = 0x2003.
Proof.
  intros Hi. unfold lower_mem. destruct (decide (q * 4096 + 8 * i = 0x1000 + 8 * 511)) as [->|H1].
  { right. right. by apply ld64_st64_eq. }
  rewrite ld64_st64_ne by lia. destruct (decide (q * 4096 + 8 * i = 0x1000 + 8 * 0)) as [->|H2].
  { right. left. by apply ld64_st64_eq. }
  rewrite ld64_st64_ne by lia. left. unfold ld64, ld_bytes, ld8. simpl. by rewrite !lookup_empty.
Qed.

Lemma lower_mapping_eliminated_witness :
  ∃ m', eliminate_lower_mapping (1 * 4096) lower_mem = Ok m' ∧ hw_translate m' (1 * 4096) 0x1234 = None ∧
    hw_translate m' (1 * 4096) 0xffffffff80000000 = hw_translate lower_mem (1 * 4096) 0xffffffff80000000.
Proof.
  destruct (lower_mapping_eliminated 1 lower_mem) as (m' & Hm & Ht).
  - lia.
  - intros va _ Hin. assert (∀ t v sh, (∃ q, t = q * 4096) → hw_frame 12 (hw_entry lower_mem t v sh) ≠ 0x1000) as Hne.
    { intros t v sh [q ->]. unfold hw_entry. destruct (lower_mem_word q (v / 2 ^ sh mod 512)) as [-> |[-> | ->]]; [apply Z.mod_pos_bound; lia| | |];
        vm_compute; discriminate. }
    apply elem_of_cons in Hin as [Hin|Hin]; [|apply elem_of_cons in Hin as [Hin|Hin]; [|apply list_elem_of_singleton in Hin]].
    + apply (Hne (1 * 4096) va 39); [by exists 1|]. by rewrite <- Hin.
    + apply (Hne (hw_frame 12 (hw_entry lower_mem (1 * 4096) va 39)) va 30); [apply hw_frame_aligned|]. by rewrite <- Hin.
    + apply (Hne (hw_frame 12 (hw_entry lower_mem (hw_frame 12 (hw_entry lower_mem (1 * 4096) va 39)) va 30)) va 21); [apply hw_frame_aligned|]. by rewrite <- Hin.
  - exists m'. split; [exact Hm|]. split; rewrite Ht; reflexivity.
Defined.

(** ** The tables after the initialisation *)

(** The segment that a task-state descriptor describes: base, limit and type. *)
Definition tss_base (lo hi : Z) : Z := bits 16 16 lo + 2 ^ 16 * bits 32 8 lo + 2 ^ 24 * bits 56 8 lo + 2 ^ 32 * bits 0 32 hi.
Definition tss_limit (lo : Z) : Z := bits 0 16 lo + 2 ^ 16 * bits 48 4 lo.

Lemma tss_descriptor_spec junk ptr :
  fits 64 ptr → let '(lo, hi) := TSSDescriptor junk ptr 208 in
  tss_base lo hi = ptr ∧ tss_limit lo = 208 ∧ bits 40 4 lo = 9 ∧ seg_present lo = 1 ∧ seg_dpl lo = 0.
Proof.
  intros Hp. unfold TSSDescriptor, tss_base, tss_limit, seg_present, seg_dpl. split_and!.
  - rewrite (bits_pack_here 0 32) by lia. do 3 field. change 0xffff with (Z.ones 16). change 0xff with (Z.ones 8).
    rewrite !low_part, !Z.shiftr_div_pow2 by lia. unfold fits in Hp.
    rewrite (Z.mod_small (ptr / 2 ^ 32)) by (split; [apply Z.div_pos; lia|apply Z.div_lt_upper_bound; lia]).
    pose proof (Z.div_mod ptr (2 ^ 16) ltac:(lia)). pose proof (Z.div_mod (ptr / 2 ^ 16) (2 ^ 8) ltac:(lia)) as H2.
    pose proof (Z.div_mod (ptr / 2 ^ 24) (2 ^ 8) ltac:(lia)) as H3. rewrite Z.div_div in H2, H3 by lia.
    change (2 ^ 16 * 2 ^ 8) with (2 ^ 24) in H2. change (2 ^ 24 * 2 ^ 8) with (2 ^ 32) in H3. lia.
  - rewrite (bits_pack_here 0 16) by lia. by field.
  - by field.
  - by field.
  - by field.
Qed.

Lemma wrmsr_value id v p : fits 64 v → msrs (wrmsr id v p) = <[id := v]> (msrs p).
Proof.
  intros Hv. unfold wrmsr. cbn [msrs]. f_equal. change 0xffffffff with (Z.ones 32). unfold fits in Hv.
  assert (0 ≤ v / 2 ^ 32 < 2 ^ 32) by (split; [apply Z.div_pos; lia|apply Z.div_lt_upper_bound; lia]).
  rewrite Z.land_ones, Z.shiftr_div_pow2 by lia. pose proof (Z.mod_pos_bound v (2 ^ 32) ltac:(lia)).
  rewrite !wrap_small by (unfold fits; lia). apply Z.bits_inj'. intros i Hi. rewrite Z.lor_spec, Z.shiftl_spec by lia.
  destruct (decide (i < 32)).
  - rewrite (Z.testbit_neg_r _ (i - 32)), orb_false_r by lia. by rewrite Z.mod_pow2_bits_low by lia.
  - rewrite Z.mod_pow2_bits_high, orb_false_l, Z.div_pow2_bits by lia. f_equal. lia.
Qed.

Lemma set_kernel_stack_zero t :
  (12 ≤ length t)%nat → ∃ t', set_kernel_stack 0 t = Ok t' ∧ length t' = length t ∧ take 8 (drop 4 t') = replicate 8 0.
Proof.
  intros Hl. do 12 (destruct t as [|? t]; [simpl in Hl; lia|]). unfold set_kernel_stack, for_range. change (Z.to_nat (8 - 0)) with 8%nat.
  do 8 (cbn [for_n]; rewrite wr_total by (simpl; lia); rewrite bind_Ok; simpl). by eexists.
Qed.

(** The processor's tables after [X86Arch::init].  The initialisation succeeds; the task
    register names a present task-state descriptor for the address [tss], with the stack
    of the kernel unset; no vector has a gate.  The instruction [syscall] would enter
    [__syscall_trap] with interrupts off, in a 64-bit code segment and with a data segment
    of the kernel's privilege. *)
Theorem platform_ready junk tss trap p :
  length (gdt_entries (pl_gdt p)) = 16%nat → (12 ≤ length (task_state p))%nat → fits 64 tss → fits 64 trap →
  ∃ p', arch_init junk tss trap p = Ok (true, p') ∧ gdtr_length p' = 56 ∧
    (∃ lo hi, selected (pl_gdt p') (task_register p') = Some lo ∧ selected (pl_gdt p') (task_register p' + 8) = Some hi ∧
       tss_base lo hi = tss ∧ bits 40 4 lo = 9 ∧ seg_present lo = 1 ∧ take 8 (drop 4 (task_state p')) = replicate 8 0) ∧
    (∀ (i : nat) g, idt_entries (pl_idt p') !! i = Some g → gate_present g = 0) ∧
    msrs p' !! MSR_LSTAR = Some trap ∧
    ∃ star mask c d, msrs p' !! MSR_STAR = Some star ∧ msrs p' !! MSR_SFMASK = Some mask ∧ Z.testbit mask 9 = true ∧
      selected (pl_gdt p') (bits 32 16 star) = Some c ∧ selected (pl_gdt p') (bits 32 16 star + 8) = Some d ∧
      is_code64 c = true ∧ seg_dpl c = 0 ∧ is_data d = true ∧ seg_dpl d = 0.
Proof.
  intros Hg Ht Htss Htrap. unfold arch_init. destruct (gdt_init_spec junk tss _ Hg) as (rest & ->). rewrite bind_Ok.
  destruct (set_kernel_stack_zero _ Ht) as (t' & -> & Hlt & Hz). rewrite bind_Ok. eexists. split; [reflexivity|].
  rewrite !wrmsr_value by done. cbn [pl_gdt gdtr_length pl_idt task_state task_register msrs wrmsr].
  pose proof (tss_descriptor_spec junk tss Htss) as Hd. destruct (TSSDescriptor junk tss 208) as [lo hi]. destruct Hd as (Hb & _ & Hty & Hpr & _).
  split_and!; [done|by exists lo, hi| |by rewrite lookup_insert_ne, lookup_insert_eq|].
  - intros i g [-> _]%lookup_replicate. done.
  - exists 0x18000800000000, 0x200, (CodeSegmentDescriptor 0), (DataSegmentDescriptor 0).
    split_and!; try done; [by rewrite !lookup_insert_ne, lookup_insert_eq by done|apply lookup_insert_eq].
Qed.

Lemma platform_ready_witness :
  ∃ p', arch_init 0 0xffffffff80123458 0xffffffff80001000 (MkPlatform (MkGdt 0 (replicate 16 0)) 0 (MkIdt 0 []) 0 (replicate 208 7) 0 ∅) = Ok (true, p') ∧
    msrs p' !! MSR_LSTAR = Some 0xffffffff80001000 ∧
    ∃ lo hi, selected (pl_gdt p') (task_register p') = Some lo ∧ selected (pl_gdt p') (task_register p' + 8) = Some hi ∧ tss_base lo hi = 0xffffffff80123458.
Proof.
  destruct (platform_ready 0 0xffffffff80123458 0xffffffff80001000 (MkPlatform (MkGdt 0 (replicate 16 0)) 0 (MkIdt 0 []) 0 (replicate 208 7) 0 ∅))
    as (p' & Hrun & _ & (lo & hi & Hlo & Hhi & Hb & _) & _ & Hl & _).
  - reflexivity.
  - vm_compute. lia.
  - split; [discriminate|reflexivity].
  - split; [discriminate|reflexivity].
  - exists p'. split; [exact Hrun|]. split; [exact Hl|]. exists lo, hi. split; [exact Hlo|]. split; [exact Hhi|exact Hb].
Defined.

(** ** Modules and stages *)

(** Boot modules.  Without modules [modules_init] succeeds; with a module whose list entry
    can be read it fails, since no module can be loaded, and the start of the kernel ends
    in [early_abort] before the timer and the scheduler exist. *)
Theorem boot_modules_fail {T} (p : stages T) mods_count mods_addr m :
  modules_init 0 mods_addr m = Ok true ∧
  ((∀ s : T, st_modules p s = (b ← modules_init mods_count mods_addr m; Ok (b, s))) →
   0 < mods_count → 0 ≤ mods_addr → mods_addr + 8 ≤ 2 ^ 31 →
   modules_init mods_count mods_addr m = Ok false ∧
   ∀ s b, x86_init_top p s = Ok b → ∃ s', b = Halted s').
Proof.
  split; [done|]. intros Hmod Hc Ha Hend. assert (modules_init mods_count mods_addr m = Ok false) as Hf.
  { unfold modules_init. destruct (Z.to_nat mods_count) as [|n] eqn:E; [lia|]. cbn [load_modules].
    rewrite wrap_small by (unfold fits; lia). rewrite Z.mul_0_r, Z.add_0_r, pa_to_vpa_Ok, bind_Ok by lia.
    assert (∀ a, 0 ≤ a → a + 4 ≤ 2 ^ 32 → ∃ w, load32 m (PMEM_VA_START + a) = Ok w ∧ 0 ≤ w < 2 ^ 32) as Hld.
    { intros a H0 H1. unfold load32. rewrite translate_Ok, bind_Ok by lia. eexists. split; [done|].
      pose proof (little_endian_to_Z_bound 8 (ld_bytes m a 4)) as Hb. rewrite ld_bytes_length in Hb. apply Hb; [lia|].
      apply Forall_forall. intros x [i [-> _]]%list_elem_of_fmap. apply wrap_fits. lia. }
    destruct (Hld mods_addr) as (w & -> & Hw); [lia..|]. rewrite bind_Ok, pa_to_vpa_Ok, bind_Ok by lia.
    replace (u64 (PMEM_VA_START + mods_addr + 4)) with (PMEM_VA_START + (mods_addr + 4)) by (rewrite wrap_small by (unfold fits, PMEM_VA_START; lia); lia).
    destruct (Hld (mods_addr + 4)) as (w' & -> & Hw'); [lia..|]. by rewrite bind_Ok, pa_to_vpa_Ok, bind_Ok by lia. }
  split; [done|]. intros s b Hrun. unfold x86_init_top, stage in Hrun.
  assert (∀ (f : T → result (bool * T)) (g : T → result (boot T)) x, (∀ y, g y = Ok b → ∃ s', b = Halted s') →
    ('(ok, y) ← f x; if (ok : bool) then g y else Ok (Halted y)) = Ok b → ∃ s', b = Halted s') as Hstage.
  { intros f g x Hg Hr. apply bind_Ok_inv in Hr as ([ok y] & _ & Hr). destruct ok; [by eapply Hg|]. injection Hr as <-. by eexists. }
  revert Hrun. apply Hstage. intros s1. apply Hstage. intros s2. apply Hstage. intros s3 Hr. apply bind_Ok_inv in Hr as (s4 & _ & Hr). revert Hr.
  apply Hstage. intros s5. apply Hstage. intros s6. rewrite Hmod, Hf, !bind_Ok. intros [= <-]. by eexists.
Qed.

Lemma boot_modules_fail_witness :
  modules_init 1 0x10000 ∅ = Ok false ∧
  ∃ s', x86_init_top (MkStages nat (λ s, Ok (true, s)) (λ s, Ok (true, s)) (λ s, Ok (true, s)) (λ s, Ok s) (λ s, Ok (true, s))
    (λ s, b ← modules_init 1 0x10000 ∅; Ok (b, s)) (λ s, Ok (true, s)) (λ s, Ok (true, s)) (λ s, Ok s)) 5%nat = Ok (Halted s').
Proof.
  set (p := MkStages nat (λ s, Ok (true, s)) (λ s, Ok (true, s)) (λ s, Ok (true, s)) (λ s, Ok s) (λ s, Ok (true, s))
    (λ s, b ← modules_init 1 0x10000 ∅; Ok (b, s)) (λ s, Ok (true, s)) (λ s, Ok (true, s)) (λ s, Ok s)).
  destruct (boot_modules_fail p 1 0x10000 ∅) as [_ Hf]. destruct Hf as [Hm Hh].
  - intros s. reflexivity.
  - lia.
  - lia.
  - lia.
  - split; [exact Hm|]. destruct (Hh 5%nat (Halted 5%nat)) as [s' _]; [vm_compute; reflexivity|]. exists 5%nat. vm_compute. reflexivity.
Defined.

(** The trace of a failed assertion is at most 100 return addresses long. *)
Lemma assertion_trace_bounded load rbp l : assertion_trace load rbp = Ok l → (length l ≤ 100)%nat.
Proof.
  unfold assertion_trace. generalize 100%nat as n. intros n. revert rbp l. induction n as [|n IH]; intros rbp l Hl; cbn [walk_frames] in Hl.
  { injection Hl as <-. done. }
  destruct (rbp =? 0); [injection Hl as <-; simpl; lia|]. apply bind_Ok_inv in Hl as (ret & _ & Hl).
  apply bind_Ok_inv in Hl as (rbp' & _ & Hl). apply bind_Ok_inv in Hl as (l' & Hl' & Hl). injection Hl as <-. simpl. specialize (IH _ _ Hl'). lia.
Qed.
