(* ===== verification/KernelStart.v ===== *)
(** * Starting the kernel

    kernel/kernel.cpp: [Kernel::start] sets the time of day, creates the kernel process
    with the thread that finishes the start, and runs the scheduler; that thread mounts
    the file systems, finds the boot device and launches the first program. *)

From S2P Require Import Prelude Define CppMap PageAlloc PhysMem Vma UserMem CppString MemInit KTime Sched SchedFair Thread Process Elf Devices Vfs.
Local Open Scope Z_scope.

(** ** The kernel process *)

Section start.
Context {S A : Type} `{SchedulingAlgorithm S} `{PageAllocatorAlgorithm A}.
Implicit Type k : kernel S A.

(** [main_thread().add_entry_argument(arg)]. *)
Definition main_argument (proc arg : Z) k : result (kernel S A) :=
  p ← the_process k proc;
  t ← the_thread k (main_thread p);
  '(t, m) ← add_entry_argument arg (t, mach k);
  Ok (put_thread (put_mach k m) (main_thread p) t).

(** [Kernel::start].  [rtc] is the reading of the clock device, if there is one; [this] is
    the kernel object, [bottom] the second half of the start, [tramp] the function
    [start_kernel_threadproc_tramp]. *)
Definition kernel_start (fuel : nat) (template : option Z) (proc pevent thread tevent : Z) (this bottom tramp : Z)
    (rtc : option TimeOfDay) k : result (kernel S A) :=
  let k := put_sched k (put_clock (sched k) (initialise_tod (clk (sched k)) rtc)) in
  k ← new_process k template proc pevent thread tevent true tramp;
  k ← main_argument proc this k;
  k ← main_argument proc bottom k;
  k ← process_start fuel k proc;
  Ok (put_sched k (run (sched k))).

(** [start_kernel_threadproc_tramp]: the second half, then the rest of the start, then the
    end of the kernel process; [true] when the thread would go on. *)
Definition start_kernel_threadproc_tramp (fuel : nat) (proc this bottom : Z)
    (call_bottom : Z → kernel S A → result (bool * kernel S A)) (threadproc : kernel S A → result (kernel S A)) k : result (bool * kernel S A) :=
  _ ← cassert (negb (this =? 0));
  _ ← cassert (negb (bottom =? 0));
  '(ok, k) ← call_bottom bottom k;
  _ ← check Aborted (ok : bool);
  k ← threadproc k;
  terminate fuel k proc.
End start.

(** ** The file systems and the first program *)

(** The characters before the NUL. *)
Fixpoint chars (s : cstr) : name :=
  match s with [] => [] | c :: s => if c =? 0 then [] else c :: chars s end.

(** "internal_driver". *)
Definition internal_driver : cstr := [105; 110; 116; 101; 114; 110; 97; 108; 95; 100; 114; 105; 118; 101; 114; 0].

(** [start_kernel_threadproc] up to the launch of the first program.  The settings are the
    buffers that the command line has filled; mounting the boot device and launching a
    program are parameters. *)
Definition start_kernel_threadproc (junk : list Z) (regs : list (cstr * Filesystem)) (d : DeviceManager) (first_address : Z)
    (boot_device_name boot_fstype init_program : cstr)
    (boot_mount : Z → cstr → Z → vfs → result (bool * vfs)) (launch : cstr → vfs → result (bool * vfs)) : result vfs :=
  '(usr, st) ← start_filesystems junk regs d first_address;
  n ← strlen (Some boot_device_name);
  _ ← check Aborted (negb (n =? 0));
  boot_device ← get Aborted (try_get_device_by_name (dm st) (chars boot_device_name));
  n ← strlen (Some boot_fstype);
  fstype ← (if n =? 0 then strncpy boot_fstype internal_driver 16 else Ok boot_fstype);
  '(ok, st) ← boot_mount usr fstype boot_device st;
  _ ← check Aborted (ok : bool);
  '(ok, st) ← launch init_program st;
  _ ← check Aborted (ok : bool);
  Ok st.

(** [dump_partitions]: the names that it prints; [block] is the class of block devices. *)
Definition dump_partitions (block : Z) (d : DeviceManager) : result (list name) :=
  l ← iterate_map (devices d);
  for_each l (λ '(_, a) l,
    o ← get NullDeref (device_objects d !! a);
    b ← class_is (Datatypes.S (size (classes d))) (classes d) (dev_class o) block;
    Ok (if (b : bool) then l ++ [dev_name o] else l)) [].

(** ** The thread that will run *)

Section ready.
Context {S : Type} `{SchedulingAlgorithm S}.
Context (proc thread : Z).
Implicit Types (k : kernel S SimplePageAllocator) (u : Z → option Z) (R : reg → Z).

Lemma main_argument_spec K c root k p th u R r arg :
  procs k !! proc = Some p → main_thread p = thread → thrs k !! thread = Some th → building K c root th (vma p) (mach k) u R →
  argument_reg (current_entry_argument th) = Some r → fits 64 arg →
  ∃ k' th', main_argument proc arg k = Ok k' ∧ sched k' = sched k ∧ procs k' = procs k ∧ thrs k' !! thread = Some th' ∧
    current_entry_argument th' = u32 (current_entry_argument th + 1) ∧ kernel_stack th' = kernel_stack th ∧
    building K c root th' (vma p) (mach k') u (λ r', if decide (r' = r) then arg else R r').
Proof using.
  intros Hp Hm Ht Hb Hr Ha. unfold main_argument, the_process, the_thread. rewrite Hp. ok_step. rewrite Hm, Ht. ok_step.
  destruct (building_argument K c root th (vma p) (mach k) u R r arg Hb Ha Hr) as (t' & m' & -> & Harg & [_ Hks] & Hb'). rewrite bind_Ok.
  eexists _, t'. split_and!; [done|done|done| |done|done|done]. cbn [thrs put_thread]. apply lookup_insert_eq.
Qed.
End ready.

(** ** Properties *)

(** The registers of the thread that finishes the start. *)
Definition start_regs (this bottom tramp top : Z) (r : reg) : Z :=
  match r with RDI => this | RSI => bottom | _ => initial_reg Kernel tramp top r end.


